(* ===== verification/_CoqProject ===== *)
-Q . S2P
Prelude.v
Text.v
Crypto.v
Wire.v
Media.v
Classify.v
Stats.v
Ack.v
AckFacts.v
Annexb.v
Bits.v
Sps.v
Assembler.v
Delivery.v
Emission.v
Frames.v
Discovery.v
DiscoveryFacts.v
Targets.v
Resolve.v
Session.v
SessionFacts.v
Lifecycle.v
Status.v
Writer.v
Aac.v
Codec.v
Producer.v
Rtp.v
Depay.v
Negotiate.v
Tracks.v
TracksFacts.v
Streams.v
StreamsFacts.v
Viewers.v
Resume.v
Served.v
Outcome.v
TutkFrames.v
TutkFramesFacts.v
TutkSession.v
TutkReorder.v
TutkSessionFacts.v
TutkCommands.v
Cs2.v
Cs2Facts.v
AacRtp.v
Ts.v
TsCrc.v
TsDemux.v
TsReads.v
TsFacts.v
TsFlow.v
TsTables.v
TsStream.v
Buffers.v
Hevc.v
HevcFacts.v
HevcTrip.v
HevcLine.v
HevcSafari.v
Config.v
HevcSps.v
Iso.v
IsoRead.v
IsoFacts.v
IsoTrip.v
IsoInit.v
Mp4.v
Mp4Facts.v
Mp4Init.v
Mp4Play.v
Mp4Viewer.v
Mp4Rotate.v
Mp4Demux.v
Mp4Probe.v
