(* ===== verification/Prelude.v ===== *)
(** * The camera client of the Petlibro local add-on

    This library verifies the Go code that streams a PLAF203-type feeder camera over
    the local network: [src/addon/go2rtc/pkg/petlibro], what it uses of the packages
    beside it ([tutk/crypto.go], [bits], [h264], [aac], [core]), the streams that share
    the camera among its viewers ([src/addon/go2rtc/internal/streams]), and the [tutk]
    sessions whose cipher it borrows, which serve other cameras.  Of the formats and
    transports around it follow the MPEG-TS container ([mpegts]), fragmented MP4 ([iso],
    [mp4]), AAC in RTP, H.265 ([h265]), the probe and write buffers ([core]) and the CS2
    connection ([xiaomi/miss/cs2]).  File names below are relative to [src/addon/go2rtc/pkg], those that start with
    [internal] to [src/addon/go2rtc].

    ** The program

    A session is opened by [Dial] from a [petlibro://] URL.  When the URL has no host
    the camera is first looked for on the network ([discovery.go]): probes go to the
    broadcast addresses, to the neighbours the kernel knows and to the hosts of the
    subnets, and the source of the first matching reply is the camera.  The client
    logs in ([handshake.go]), exchanges the control messages that start the stream
    ([bootstrap.go]) and then runs three goroutines: one reads datagrams from the
    socket, one deciphers them and reassembles media fragments into access units
    ([assembler.go]), one sends keepalives and receive reports ([recv.go]).  The
    access units go through a queue to the producer ([producer.go]), which probes the
    stream for its codecs and hands RTP packets to the receivers.  A status file tells
    the rest of the add-on how the session is doing ([runtime_status.go]).

    A stream dials its sources when the first viewer joins and stops them when the last
    one has left ([internal/streams/stream.go], [producer.go], [add_consumer.go]): it
    matches the viewer's media with the source's ([core/media.go], [core/codec.go]), and
    hangs a sender of the viewer's on the source's receiver for the track
    ([core/node.go], [core/track.go]).  A worker per source waits for its connection to
    end, dials again, with pauses while that fails, and moves the senders to the
    receivers of the new connection.

    The [tutk] package talks to other cameras over the same network.  A connection
    ([tutk/conn.go]) deciphers datagrams into one buffer and hands them to a session,
    of protocol 16 ([session16.go]) or of protocol 25, which first puts media chunks
    into order ([session25.go]); both answer the camera and queue commands and frames
    for their readers.  Over DTLS the packets of a frame go to a handler of their own
    ([frame.go]).

    ** The files

    - [Prelude]: machine integers, byte strings with their loads and stores, the panic
      monad, record update, the hint databases.  [Text]: searching, hexadecimal and
      base64 text, [Between] ([core/helpers.go]).
    - [Crypto]: the cipher of every datagram ([tutk/crypto.go]).
    - [Wire]: the packet builders and constants ([templates.go]).
    - [Media], [Classify]: the decoders of received messages ([assembler.go],
      [bootstrap.go]); they never panic, and invert the builders.
    - [Stats]: the counters and the periodic report ([client.go], [recv.go]).
    - [Ack], [AckFacts]: the tracker behind the receive reports ([recv.go]).
    - [Assembler]: the state of the receive path (a [client] with a [reorder] for the
      reorder buffer, [output] for the queue and clocks, one [channelAsm] per channel)
      and every operation on it from [parseDatagram] down to [queuePacket]
      ([assembler.go], [recv.go]).  [Delivery], [Emission], [Frames]: its properties.
    - [Annexb], [Bits], [Sps]: NAL units in byte streams ([h264/annexb/annexb.go]), the
      bit reader ([bits/reader.go]) and the parameter set decoder ([h264/sps.go]).
    - [Discovery], [DiscoveryFacts], [Targets], [Resolve]: discovery ([discovery.go]).
    - [Session], [SessionFacts]: options, login, bootstrap, maintenance ([client.go],
      [handshake.go], [bootstrap.go], [recv.go]).
    - [Lifecycle]: the goroutines, their channels, [Close] and [ReadPacket].
    - [Status]: the status file.
    - [Writer], [Aac]: the bit writer ([bits/writer.go]) and the audio headers
      ([aac/aac.go], [aac/adts.go]).  [Codec]: the codec line and the repair of access
      units ([h264/avcc.go], [h264/h264.go]).
    - [Producer]: startup, probing and streaming ([producer.go]).
    - [Rtp], [Depay]: the RTP packetiser behind the receivers and its inverse
      ([h264/payloader.go], [h264/rtp.go]), with the repair of start codes where lengths
      should be ([FixAnnexBInAVCC] of [h264/annexb/annexb.go]).
    - [Negotiate]: codecs, media and how they match ([core/codec.go], [core/media.go]).
    - [Tracks], [TracksFacts]: receivers and senders, with the slices of children as
      headers over arrays, packets in the senders' channels, and the deliveries under
      way ([core/node.go], [core/track.go]).
    - [Streams]: connections, producers and one stream; the calls and goroutines as
      programs over atomic operations ([core/connection.go], [internal/streams]).
      [StreamsFacts]: their interleavings.  [Viewers], [Resume], [Served], [Outcome]:
      calls one after the other, what each keeps, what a source that comes back does,
      sequences of calls, and what a viewer is told.
    - [TutkFrames], [TutkFramesFacts]: the frame handler ([tutk/frame.go],
      [tutk/codec.go]).  [TutkSession]: messages, both sessions, the connection
      ([tutk/helpers.go], [session0.go], [session16.go], [session25.go], [conn.go]).
      [TutkReorder]: the reorder buffer as a machine on positions.  [TutkSessionFacts]:
      media of protocol 25.  [TutkCommands]: commands, media of protocol 16.
    - [Cs2], [Cs2Facts]: the CS2 connection ([xiaomi/miss/cs2/conn.go]).
    - [AacRtp]: AAC units in RTP payloads ([aac/rtp.go]).
    - [Ts]: the MPEG-TS muxer ([mpegts/muxer.go], [checksum.go]).  [TsDemux]: the demuxer
      ([mpegts/demuxer.go], [opus.go]).  [TsCrc]: the checksum.  [TsReads]: which bits
      its reads take.  [TsFacts]: the packets of one payload.  [TsFlow]: payloads one
      after the other.  [TsTables]: the two tables.  [TsStream]: whole streams.
    - [Buffers]: the probe buffer, the write buffer and the waiter ([core/readbuffer.go],
      [core/writebuffer.go], [core/waiter.go]).
    - [Hevc]: H.265 units, codec line and RTP ([h265/helper.go], [avcc.go],
      [payloader.go], [rtp.go]).  [HevcFacts]: what a receiver gets.  [HevcTrip]: both
      directions.  [HevcLine]: the codec line.  [HevcSafari]: the packets for Safari, and
      where the package falls short.  [HevcSps]: the parameter set decoder ([sps.go]).
    - [Config]: the decoder's configurations ([h264/mpeg4.go], [h265/mpeg4.go]).
    - [Iso]: MP4 boxes ([iso/iso.go], [atoms.go], [codecs.go]).  [IsoRead]: their reader
      ([reader.go]).  [IsoFacts]: what is written.  [IsoTrip], [IsoInit]: how fragments
      and tracks are read back.
    - [Mp4]: the muxer ([mp4/muxer.go]).  [Mp4Facts]: streams of fragments and their
      clocks.  [Mp4Init]: the initialisation segment.  [Mp4Play]: the consumers and the
      changes of a segment ([consumer.go], [keyframe.go], [helpers.go], [mime.go]).
      [Mp4Viewer]: what a viewer gets.  [Mp4Rotate]: the rotation of a segment.
    - [Mp4Demux]: the demuxer ([mp4/demuxer.go]), with times in single precision.
      [Mp4Probe]: the muxer's segment through it.

    ** How the code is modelled

    Go integers are [Z] with their wrap-around written out ([u8], [u16], [u32],
    [u64]); slices are lists of bytes, and where a slice expression can reach into
    spare capacity that memory is an argument.  A function that can index out of range
    returns an option, [None] being the panic.  A loop that does not follow its
    argument's structure takes fuel, and running out of it is a result of its own; the
    fuel given is the length of the input plus one, or for the drain loops the number
    of buffered packets plus one, for the search of a full reorder buffer the 65536
    sequence numbers plus one, and theorems show that it never runs out.  The loop over
    ADTS frames ends for frames that declare a length; for others it does not, and
    running out of fuel stands for that.  Boxes in boxes are shorter, so the length of
    the input plus one is enough for the depth too ([IsoRead.decoding_ends]).  Maps are
    finite maps, sets finite sets; the walks over a Go map, whose order is
    unspecified, are only used where the code sorts afterwards or the order cannot
    matter.  Mutable objects are records passed along.  A method that holds a mutex
    throughout is one step; the goroutines' channel operations are steps of their own
    in [Lifecycle], interleaved in every way the scheduler can.  The streams' programs
    ([Streams.prog]) are trees of operations, one for each section under a mutex, so
    that the same definition is run alone ([Streams.exec]) or interleaved
    ([Streams.turns]).  Codecs compared by pointer carry an address.  Closing a node
    takes the fuel [Tracks.closeDepth], enough because a tree has two levels.  What the outside
    decides is an argument: the clock, the random nonce, whether a write to the socket
    succeeded, what the file system's calls returned, when the probe's timer fires.

    ** What is shown

    - Receive path: a frame whose fragments arrive is reassembled exactly and a lossy
      one treated by the policy ([Frames]); datagrams never make it panic or loop, and
      positions are delivered once, in order, without going back ([Delivery]); the
      queue is bounded and first in first out, video timestamps increase, and after a
      loss strict mode waits for a key frame ([Emission]).
    - Receive reports: no interleaving acknowledges a packet that did not arrive; the
      tracker refines the set of received positions, and a report's window says of
      each of its positions whether it was received ([AckFacts]).
    - Discovery: every planned target is asked, none twice; an address is reported only
      if it answered for the right camera ([DiscoveryFacts], [Targets], [Resolve]).
    - Session: when login and bootstrap succeed and exactly what they sent
      ([SessionFacts]).
    - Goroutines: nothing read is lost without being counted, a closed session can come to
      its end and has boundedly much left to do, but for ticks and what it still begins;
      and one schedule in which closing panics, with the condition that
      excludes it ([Lifecycle]).
    - Status file: readers see a complete published state at every moment, and that
      state says what the session saw ([Status]).
    - Producer: which picture the probe settles on, that it ends, when it panics, and
      that receivers get every access unit and audio frame ([Producer]); the parameter
      sets and audio configuration survive their text forms ([Codec], [Aac]).
    - RTP: a receiver that follows RFC 6184 gets from the packets the units that went in,
      but for delimiters, fillers and parameter sets without a place, and the depacketiser
      puts the access unit together again ([Rtp], [Depay]).
    - Tracks: in every interleaving the tree stays well-formed, no nil pointer is
      followed and no sender loses a packet without counting it; a packet reaches each
      sender once while only senders work and join; what closing does ([TracksFacts]).
    - Streams: in every interleaving of joins, leaves, connections that end and retries
      a started source has one worker, stale ones end without a dial, and no dialled
      connection is left open without an owner ([StreamsFacts]); when calls do not overlap,
      viewers are served by running sources and sources without viewers are stopped,
      through reconnections to sources with the same tracks too ([Served]); a viewer that cannot join is told why ([Outcome]).  Schedules in
      which overlapping calls break this are given beside the theorems.
    - Other [tutk] cameras: only whole frames leave the frame handler, and a frame that
      arrives does ([TutkFramesFacts]); shuffled chunks come out as the frames that were
      sent, and reading always ends ([TutkSessionFacts], by [TutkReorder]'s machine);
      when a command counts as sent, and that it is received as sent ([TutkCommands]).
    - CS2: the reader of a channel gets the messages that were sent, each once and in
      order, whatever the network does, but a short last one may wait ([Cs2Facts]).
    - Containers: the demuxer reads what the muxer writes ([TsStream]), whose checksums
      are the standard's ([TsCrc]); AAC units survive their RTP forms ([AacRtp]);
      probing a source leaves no trace, and what is written before a writer is known
      reaches it ([Buffers]).
    - H.265: a receiver that follows RFC 7798 gets exactly the units ([HevcFacts]), the
      depacketiser puts together again what is not aggregated ([HevcTrip]), the packets
      for Safari carry the access unit ([HevcSafari]); parameter sets survive the codec
      line and the decoder's configuration ([HevcLine], [Config], [HevcSps]).
    - MP4: reading boxes ends ([IsoRead]); fragments are read back with their numbers,
      data and decode times, which follow the timestamps ([Mp4Facts]), and tracks with
      their clocks and configurations ([Mp4Init]); a viewer gets the packets from the
      first key frame on ([Mp4Viewer]), and a rotation changes the matrix of the video
      track and nothing else ([Mp4Rotate]).  The demuxer takes the parameter sets out of
      the muxer's segment ([Mp4Probe]) and cuts a fragment into its frames, at times that
      are exact below 2^24 ([Mp4Demux]).
    - Codecs and formats: the cipher, the wire forms, the NAL and parameter set
      encodings are read back as written ([Crypto], [Wire], [Media], [Annexb], [Sps]).

    Lemmas next to the theorems record where the code does something else than it
    means to; their doc comments say what.

    ** Interfaces

    [Bits.reads_as] says which bits a read consumes, [Writer.writes] which bits a write
    appends, and composition lemmas carry them through decoders and encoders.
    [Writer.framed] carries byte writes through the muxer, [TsReads.dreads] the reads of
    the demuxer, and [TsFlow.runs] its packets.  [IsoFacts.wrote] says what a method of the
    box writer appends wherever boxes are open, [IsoTrip.readsAs] and [IsoTrip.allRead]
    what a box and boxes in a row are read as, [IsoInit.tells] what of that matters.  [Cs2Facts.receiving] is what every chunk
    that arrives on a CS2 channel preserves.
    [Text.Reads] is the class of text encodings that are read back.  [Emission.ostep]
    is what the rest of the library knows of the assembler's output, [Delivery]'s
    [client_inv] what every operation of the receive path preserves.  The streams see
    the tracks through [Viewers.grows] and the specifications of attaching, closing and
    moving beside it, and [Viewers.live] is what their operations preserve;
    [Viewers.wp] carries it through their programs.

    ** Not modelled

    Socket set-up, system calls, log lines and the packet dump files are input and
    output without state of interest.  Of the streams, removing a published source,
    source templates and the JSON texts are left out; handlers of packets behind a
    sender are the consumer's and only what they are given is modelled.  The streaming
    servers and the other camera protocols of the go2rtc tree are not modelled, nor is
    [tutk]'s DTLS transport, which is the DTLS library's use of sockets, nor the
    containers other than MPEG-TS and MP4, nor the producers around the containers, nor
    the audio encoders in front of the MP4 consumer.  A bit write of the bit writer after
    an unaligned byte write, when the pointer to the current byte may point into an array
    that [append] has left, is not modelled; nothing modelled uses it.  The RTP library's
    depacketiser and sequencer are parameters of [Rtp], [Depay] and [Hevc]. *)

From Stdlib Require Export ZArith Lia.
From stdpp Require Export base tactics list list_numbers numbers gmap strings.

#[export] Set Default Goal Selector "!".
#[global] Open Scope Z_scope.

(** ** Machine integers

    Go's unsigned integers are [Z] reduced modulo their width after every
    operation that can leave the range. *)

Definition u8 (x : Z) : Z := x mod 256.
Definition u16 (x : Z) : Z := x mod 65536.
Definition u32 (x : Z) : Z := x mod 4294967296.
Definition u64 (x : Z) : Z := x mod 18446744073709551616.

Definition is_byte (b : Z) : Prop := 0 <= b < 256.
Definition is_u16 (x : Z) : Prop := 0 <= x < 65536.
Definition is_u24 (x : Z) : Prop := 0 <= x < 16777216.
Definition is_u32 (x : Z) : Prop := 0 <= x < 4294967296.
Definition is_u64 (x : Z) : Prop := 0 <= x < 18446744073709551616.

#[export] Instance is_byte_dec b : Decision (is_byte b).
Proof. unfold is_byte. apply _. Defined.

(** [ints] unfolds the width predicates and hands the goal to [lia]. *)
Ltac ints :=
  unfold is_byte, is_u16, is_u32, is_u64, u8, u16, u32, u64 in *;
  Z.to_euclidean_division_equations; lia.

Lemma u8_small x : is_byte x -> u8 x = x.
Proof. apply Z.mod_small. Qed.
Lemma u16_small x : is_u16 x -> u16 x = x.
Proof. apply Z.mod_small. Qed.
Lemma u32_small x : is_u32 x -> u32 x = x.
Proof. apply Z.mod_small. Qed.
Lemma u64_small x : is_u64 x -> u64 x = x.
Proof. apply Z.mod_small. Qed.
Lemma u16_bound x : is_u16 (u16 x).
Proof. apply Z.mod_pos_bound; lia. Qed.
Lemma u32_bound x : is_u32 (u32 x).
Proof. apply Z.mod_pos_bound; lia. Qed.
Lemma u64_bound x : is_u64 (u64 x).
Proof. apply Z.mod_pos_bound; lia. Qed.

(** ** Byte strings *)

Abbreviation bytes := (list Z).
Definition bytes_ok (l : bytes) : Prop := Forall is_byte l.

Definition len {A} (l : list A) : Z := Z.of_nat (length l).

Lemma len_nonneg {A} (l : list A) : 0 <= len l.
Proof. unfold len; lia. Qed.
Lemma len_app {A} (l k : list A) : len (l ++ k) = len l + len k.
Proof. unfold len; rewrite length_app; lia. Qed.
Lemma len_cons {A} (x : A) l : len (x :: l) = len l + 1.
Proof. unfold len; cbn [length]; lia. Qed.

Definition zeros (n : nat) : bytes := replicate n 0.

(** A closed buffer holds bytes. *)
Ltac bytes_lit := apply (bool_decide_unpack (Forall is_byte _)); vm_compute; exact I.

(** ** Run-time panics

    A Go expression that indexes or slices out of range panics.  Code whose
    indices depend on its input is written in stdpp's option monad, [None] being
    the panic; that a function never panics is a theorem about it. *)

Definition rd (l : bytes) (i : Z) : option Z :=
  if decide (0 <= i) then l !! Z.to_nat i else None.

(** [sub l a b] is the slice expression [l[a:b]]. *)
Definition sub (l : bytes) (a b : Z) : option bytes :=
  if decide (0 <= a /\ a <= b /\ b <= len l)
  then Some (take (Z.to_nat (b - a)) (drop (Z.to_nat a) l)) else None.

(** Little- and big-endian loads of [encoding/binary]. *)
Definition rd16 (l : bytes) (i : Z) : option Z :=
  b0 ← rd l i; b1 ← rd l (i + 1); Some (b0 + 256 * b1).
Definition rd32 (l : bytes) (i : Z) : option Z :=
  lo ← rd16 l i; hi ← rd16 l (i + 2); Some (lo + 65536 * hi).

Definition rdbe16 (l : bytes) (i : Z) : option Z :=
  hi ← rd l i; lo ← rd l (i + 1); Some (256 * hi + lo).
Definition rdbe32 (l : bytes) (i : Z) : option Z :=
  hi ← rdbe16 l i; lo ← rdbe16 l (i + 2); Some (65536 * hi + lo).

(** The value [l[i]] takes when [i] is in range. *)
Definition at_ (l : bytes) (i : Z) : Z := default 0 (rd l i).
Definition at16 (l : bytes) (i : Z) : Z := at_ l i + 256 * at_ l (i + 1).
Definition at32 (l : bytes) (i : Z) : Z := at16 l i + 65536 * at16 l (i + 2).
Definition seg (l : bytes) (a b : Z) : bytes :=
  take (Z.to_nat (b - a)) (drop (Z.to_nat a) l).

Lemma rd_in l i : 0 <= i < len l -> rd l i = Some (at_ l i).
Proof.
  unfold at_, rd, len; intros Hi. rewrite decide_True by lia.
  destruct (lookup_lt_is_Some_2 l (Z.to_nat i)) as [x Hx]; [lia|].
  by rewrite Hx.
Qed.
Lemma rd16_in l i : 0 <= i -> i + 1 < len l -> rd16 l i = Some (at16 l i).
Proof. intros. unfold rd16. rewrite !rd_in by lia. done. Qed.
Lemma rd32_in l i : 0 <= i -> i + 3 < len l -> rd32 l i = Some (at32 l i).
Proof.
  intros. unfold rd32. rewrite !rd16_in by lia. done.
Qed.
Lemma sub_in l a b : 0 <= a <= b -> b <= len l -> sub l a b = Some (seg l a b).
Proof. intros. unfold sub. by rewrite decide_True by lia. Qed.
Lemma sub_Some l a b s :
  sub l a b = Some s -> 0 <= a <= b /\ b <= len l /\ s = seg l a b.
Proof. unfold sub. case_decide; intros; simplify_eq; repeat split; lia || done. Qed.

Lemma at_bound l i : bytes_ok l -> is_byte (at_ l i).
Proof.
  intros Hl. unfold at_, rd. case_decide; [|cbn; ints].
  destruct (l !! Z.to_nat i) eqn:E; cbn; [|ints].
  by eapply Forall_lookup_1 in E.
Qed.
Lemma at16_bound l i : bytes_ok l -> is_u16 (at16 l i).
Proof.
  intros Hl. pose proof (at_bound l i Hl). pose proof (at_bound l (i+1) Hl).
  unfold at16; ints.
Qed.
Lemma at32_bound l i : bytes_ok l -> is_u32 (at32 l i).
Proof.
  intros Hl. pose proof (at16_bound l i Hl). pose proof (at16_bound l (i+2) Hl).
  unfold at32; ints.
Qed.

Lemma len_seg l a b : 0 <= a <= b -> b <= len l -> len (seg l a b) = b - a.
Proof. unfold seg, len; intros. rewrite length_take, length_drop. lia. Qed.
Lemma seg_all l : seg l 0 (len l) = l.
Proof. unfold seg, len. rewrite drop_0, take_ge; [done|]. lia. Qed.
Lemma seg_ok l a b : bytes_ok l -> bytes_ok (seg l a b).
Proof. intros. unfold seg. by apply Forall_take, Forall_drop. Qed.

(** ** Stores of [encoding/binary] and [copy] *)

Definition le16 (v : Z) : bytes := [v mod 256; v / 256 mod 256].
Definition be16 (v : Z) : bytes := [v / 256 mod 256; v mod 256].
Definition le32 (v : Z) : bytes :=
  [v mod 256; v / 256 mod 256; v / 65536 mod 256; v / 16777216 mod 256].
Definition le64 (v : Z) : bytes := le32 (v mod 4294967296) ++ le32 (v / 4294967296).
Definition be32 (v : Z) : bytes := reverse (le32 v).

(** [blit off src p] is [copy(p[off:], src)]: what does not fit is cut off. *)
Definition blit (off : nat) (src p : bytes) : bytes :=
  take off p ++ take (length p - off) src ++ drop (off + length src) p.

Lemma length_blit off src p : length (blit off src p) = length p.
Proof.
  unfold blit. rewrite !length_app, !length_take, length_drop. lia.
Qed.

Lemma rdbe16_be16 v rest : is_u16 v -> rdbe16 (be16 v ++ rest) 0 = Some v.
Proof.
  intros Hv. change (Some (256 * (v / 256 mod 256) + v mod 256) = Some v).
  rewrite (Z.mod_small (v / 256)) by (unfold is_u16 in Hv; split; [apply Z.div_pos|apply Z.div_lt_upper_bound]; lia).
  by rewrite <-Z.div_mod.
Qed.

Lemma le16_ok v : bytes_ok (le16 v).
Proof. repeat constructor; ints. Qed.
Lemma le32_ok v : bytes_ok (le32 v).
Proof. repeat constructor; ints. Qed.
Lemma zeros_ok n : bytes_ok (zeros n).
Proof. apply Forall_replicate. ints. Qed.
Lemma blit_ok off src p : bytes_ok src -> bytes_ok p -> bytes_ok (blit off src p).
Proof.
  intros. unfold blit.
  repeat (apply Forall_app; split); auto using Forall_take, Forall_drop.
Qed.

Lemma bytes_ok_app l k : bytes_ok (l ++ k) <-> bytes_ok l /\ bytes_ok k.
Proof. apply Forall_app. Qed.

Lemma len_le16 v : len (le16 v) = 2.
Proof. done. Qed.
Lemma len_le32 v : len (le32 v) = 4.
Proof. done. Qed.

Create HintDb wire.
#[export] Hint Resolve le16_ok le32_ok zeros_ok blit_ok seg_ok at_bound at16_bound
  at32_bound : wire.

(** Decoding what was encoded. *)
Lemma le16_value v : is_u16 v -> (v mod 256) + 256 * (v / 256 mod 256) = v.
Proof. ints. Qed.
Lemma le32_value v :
  is_u32 v ->
  (v mod 256 + 256 * (v / 256 mod 256)) +
  65536 * (v / 65536 mod 256 + 256 * (v / 16777216 mod 256)) = v.
Proof. ints. Qed.

Lemma rd_app_l l k i : 0 <= i < len l -> rd (l ++ k) i = rd l i.
Proof.
  unfold rd, len; intros. case_decide; [|done]. apply lookup_app_l. lia.
Qed.
Lemma rd_app_r l k i : len l <= i -> rd (l ++ k) i = rd k (i - len l).
Proof.
  unfold rd, len; intros. rewrite !decide_True by lia.
  rewrite lookup_app_r by lia. f_equal. lia.
Qed.
Lemma at_app_l l k i : 0 <= i < len l -> at_ (l ++ k) i = at_ l i.
Proof. intros. unfold at_. by rewrite rd_app_l. Qed.
Lemma at_app_r l k i : len l <= i -> at_ (l ++ k) i = at_ k (i - len l).
Proof. intros. unfold at_. by rewrite rd_app_r. Qed.
Lemma seg_app_exact l k a : a = len l -> seg (l ++ k) a (a + len k) = k.
Proof.
  intros ->. unfold seg, len. rewrite drop_app_length' by lia.
  rewrite take_ge; [done|]. lia.
Qed.

(** ** Exclusive or on bytes *)

Lemma lxor_byte a b : is_byte a -> is_byte b -> is_byte (Z.lxor a b).
Proof.
  unfold is_byte; intros Ha Hb. split; [apply Z.lxor_nonneg; lia|].
  destruct (Z.eq_dec (Z.lxor a b) 0) as [->|Hne]; [lia|].
  change 256 with (2 ^ 8). apply Z.log2_lt_pow2; [pose proof (Z.lxor_nonneg a b); lia|].
  eapply Z.le_lt_trans; [apply Z.log2_lxor; lia|].
  assert (forall x, 0 <= x < 256 -> Z.log2 x < 8) as Hl.
  { intros x Hx. destruct (Z.eq_dec x 0) as [->|]; [done|].
    apply Z.log2_lt_pow2; lia. }
  apply Z.max_lub_lt; auto.
Qed.
Lemma lxor_cancel a b : Z.lxor (Z.lxor a b) b = a.
Proof. by rewrite Z.lxor_assoc, Z.lxor_nilpotent, Z.lxor_0_r. Qed.

(** ** Record update

    [r <| field := v |>] is the record [r] with one field replaced.  A record
    type declares its eta expansion as an instance of [Eta]; the setter of each
    field is derived from it. *)

Class Eta (R : Type) := eta : R -> R.
Class Field {R T : Type} (p : R -> T) := upd : (T -> T) -> R -> R.
Arguments upd {R T} p {_} f r /.

Ltac derive_field :=
  lazymatch goal with
  | |- @Field ?R ?T ?p =>
      let inst := constr:(_ : Eta R) in
      let body := eval cbv beta delta [eta] in inst in
      let body := eval hnf in body in
      lazymatch eval pattern p in body with
      | ?g _ => let s := constr:(fun (f : T -> T) (r : R) => g (fun r' => f (p r')) r) in
                let s := eval cbv beta in s in exact s
      end
  end.
#[export] Hint Extern 0 (Field _) => derive_field : typeclass_instances.

Declare Scope record_scope.
Notation "r <| p := v |>" := (upd p (fun _ => v) r)
  (at level 1, left associativity, format "r <| p  :=  v |>") : record_scope.
#[global] Open Scope record_scope.

(** ** Options and case analysis *)

Lemma bind_Some_inv {A B} (f : A -> option B) (m : option A) y :
  (m ≫= f) = Some y -> exists x, m = Some x /\ f x = Some y.
Proof. destruct m; cbn; eauto. discriminate. Qed.

(** Split the [if]s, [match]es and [decide]s of the goal, one at a time. *)
Ltac split_cases := repeat (case_decide || case_match).

(** ** Text

    The bytes of a string literal. *)
Definition str (s : string) : bytes :=
  map (fun a => Z.of_N (Ascii.N_of_ascii a)) (String.list_ascii_of_string s).

Definition isDigit (c : Z) : bool := (48 <=? c) && (c <=? 57).
