(* ===== verification/Text.v ===== *)
(** Text as the standard library makes and reads it ([strings.Index], [encoding/hex],
    [encoding/base64]) and [Between] of [pkg/core/helpers.go].  The reader of the
    base64 text keeps what was decoded before an error, since its callers drop the
    error and use the bytes. *)

From S2P Require Import Prelude.

(** ** Searching *)

Fixpoint startsWith (p s : bytes) : bool :=
  match p, s with
  | [], _ => true
  | x :: p, y :: s => (x =? y) && startsWith p s
  | _ :: _, [] => false
  end.

(** [strings.Index], [None] for -1. *)
Fixpoint index (s p : bytes) : option nat :=
  if startsWith p s then Some O
  else match s with [] => None | _ :: s => S <$> index s p end.

Definition contains (s p : bytes) : bool := bool_decide (is_Some (index s p)).

Definition Between (s sub1 sub2 : bytes) : bytes :=
  match index s sub1 with
  | None => []
  | Some i =>
      let s := drop (i + length sub1) s in
      match index s sub2 with Some i => take i s | None => s end
  end.

(** ** Digits *)

Definition hexDigit (n : Z) : Z := if n <? 10 then 48 + n else 87 + n.
Definition hexDigitUpper (n : Z) : Z := if n <? 10 then 48 + n else 55 + n.

Definition hexEncode (s : bytes) : bytes := flat_map (fun b => [hexDigit (b / 16); hexDigit (b mod 16)]) s.

Definition fromHexDigit (c : Z) : option Z :=
  if isDigit c then Some (c - 48)
  else if (97 <=? c) && (c <=? 102) then Some (c - 87)
  else if (65 <=? c) && (c <=? 70) then Some (c - 55)
  else None.

(** The decoded bytes, and whether there was no error. *)
Fixpoint hexDecode (s : bytes) : bytes * bool :=
  match s with
  | [] => ([], true)
  | [_] => ([], false)
  | h :: l :: s =>
      match fromHexDigit h, fromHexDigit l with
      | Some h, Some l => let '(t, ok) := hexDecode s in (16 * h + l :: t, ok)
      | _, _ => ([], false)
      end
  end.

(** ** Base 64 *)

Definition b64Char (n : Z) : Z :=
  if n <? 26 then 65 + n else if n <? 52 then 71 + n else if n <? 62 then n - 4
  else if n =? 62 then 43 else 47.

Definition b64Val (c : Z) : option Z :=
  if (65 <=? c) && (c <=? 90) then Some (c - 65)
  else if (97 <=? c) && (c <=? 122) then Some (c - 71)
  else if isDigit c then Some (c + 4)
  else if c =? 43 then Some 62 else if c =? 47 then Some 63 else None.

Definition b64Pad : Z := 61.

Fixpoint b64Encode (s : bytes) : bytes :=
  match s with
  | a :: b :: c :: s =>
      [b64Char (a / 4); b64Char (a mod 4 * 16 + b / 16); b64Char (b mod 16 * 4 + c / 64);
       b64Char (c mod 64)] ++ b64Encode s
  | [a; b] => [b64Char (a / 4); b64Char (a mod 4 * 16 + b / 16); b64Char (b mod 16 * 4); b64Pad]
  | [a] => [b64Char (a / 4); b64Char (a mod 4 * 16); b64Pad; b64Pad]
  | [] => []
  end.

Definition newline (c : Z) : bool := (c =? 10) || (c =? 13).

Fixpoint skipNewlines (s : bytes) : bytes :=
  match s with c :: rest => if newline c then skipNewlines rest else s | [] => [] end.

Definition atEnd (s : bytes) : bool := match skipNewlines s with [] => true | _ => false end.

(** [q] holds the sextets of the current quantum.  Anything after the padding is an
    error, and what the padded quantum holds is kept. *)
Fixpoint b64Quanta (q : list Z) (s : bytes) : bytes * bool :=
  match s with
  | [] => ([], match q with [] => true | _ => false end)
  | c :: s =>
      match b64Val c with
      | Some v =>
          match q with
          | [x; y; z] =>
              let '(t, ok) := b64Quanta [] s in
              ([4 * x + y / 16; y mod 16 * 16 + z / 4; z mod 4 * 64 + v] ++ t, ok)
          | _ => b64Quanta (q ++ [v]) s
          end
      | None =>
          if newline c then b64Quanta q s
          else if negb (c =? b64Pad) then ([], false)
          else match q with
               | [x; y] =>
                   match skipNewlines s with
                   | c :: s => if c =? b64Pad then ([4 * x + y / 16], atEnd s) else ([], false)
                   | [] => ([], false)
                   end
               | [x; y; z] => ([4 * x + y / 16; y mod 16 * 16 + z / 4], atEnd s)
               | _ => ([], false)
               end
      end
  end.

Definition b64Decode (s : bytes) : bytes * bool := b64Quanta [] s.

Example b64_man : b64Encode (str "light work.") = str "bGlnaHQgd29yay4=".
Proof. vm_compute. reflexivity. Qed.
Example b64_error : b64Decode (str "aGVsbG8=,eA==") = (str "hello", false).
Proof. vm_compute. reflexivity. Qed.

(** ** Searching finds *)

Lemma startsWith_app p s : startsWith p (p ++ s) = true.
Proof. induction p as [|x p IH]; [done|]. cbn. by rewrite Z.eqb_refl. Qed.

(** A pattern whose first character is not in [pre] starts no earlier. *)
Lemma index_skip pre x p s :
  Forall (fun c => c <> x) pre -> index (pre ++ s) (x :: p) = Nat.add (length pre) <$> index s (x :: p).
Proof.
  intros H. induction H as [|c pre Hc Hpre IH]; cbn [app length].
  { by destruct (index s (x :: p)). }
  cbn [index startsWith]. rewrite (proj2 (Z.eqb_neq x c)) by done. cbn [andb].
  rewrite IH. by destruct (index s (x :: p)).
Qed.

Lemma index_here p s : index (p ++ s) p = Some O.
Proof.
  destruct (p ++ s) eqn:E; cbn [index]; rewrite <- E; by rewrite startsWith_app.
Qed.

Lemma index_found pre x p s :
  Forall (fun c => c <> x) pre -> index (pre ++ (x :: p) ++ s) (x :: p) = Some (length pre).
Proof. intros H. rewrite index_skip, index_here by done. cbn. by rewrite Nat.add_0_r. Qed.

Lemma index_absent s x p : Forall (fun c => c <> x) s -> index s (x :: p) = None.
Proof. intros H. rewrite <- (app_nil_r s), index_skip by done. reflexivity. Qed.

(** What is between two markers. *)
Lemma Between_found pre x1 p1 body x2 p2 s :
  Forall (fun c => c <> x1) pre -> Forall (fun c => c <> x2) body ->
  Between (pre ++ (x1 :: p1) ++ body ++ (x2 :: p2) ++ s) (x1 :: p1) (x2 :: p2) = body.
Proof.
  intros H1 H2. unfold Between. rewrite index_found by done.
  cbv beta iota zeta.
  rewrite (app_assoc pre), drop_app_length', index_found by (done || by rewrite length_app).
  by rewrite take_app_length.
Qed.

Lemma Between_rest pre x1 p1 body x2 p2 :
  Forall (fun c => c <> x1) pre -> Forall (fun c => c <> x2) body ->
  Between (pre ++ (x1 :: p1) ++ body) (x1 :: p1) (x2 :: p2) = body.
Proof.
  intros H1 H2. unfold Between. rewrite index_found by done.
  cbv beta iota zeta.
  by rewrite (app_assoc pre), drop_app_length', index_absent by (done || by rewrite length_app).
Qed.

(** ** The encodings are read back

    [reads enc dec] : [dec] undoes [enc] on bytes, without an error. *)
Class Reads (enc : bytes -> bytes) (dec : bytes -> bytes * bool) :=
  reads s : bytes_ok s -> dec (enc s) = (s, true).

Lemma fromHexDigit_hexDigit n : 0 <= n < 16 -> fromHexDigit (hexDigit n) = Some n.
Proof.
  intros H. unfold hexDigit, fromHexDigit, isDigit.
  destruct (Z.ltb_spec n 10); repeat case_match; try (f_equal; lia); lia.
Qed.

#[export] Instance hex_reads : Reads hexEncode hexDecode.
Proof.
  intros s H. induction H as [|b s Hb Hs IH]; [done|]. unfold hexEncode in *.
  cbn [flat_map app hexDecode]. rewrite !fromHexDigit_hexDigit by ints.
  rewrite IH. do 2 f_equal. ints.
Qed.

Lemma b64Val_b64Char n : 0 <= n < 64 -> b64Val (b64Char n) = Some n.
Proof.
  intros H. unfold b64Char, b64Val, isDigit.
  destruct (Z.ltb_spec n 26); [|destruct (Z.ltb_spec n 52); [|destruct (Z.ltb_spec n 62);
    [|destruct (Z.eqb_spec n 62)]]]; repeat case_match; try (f_equal; lia); lia.
Qed.

(** The characters of base64 text. *)
Definition b64Text (c : Z) : bool :=
  match b64Val c with Some _ => true | None => c =? b64Pad end.

Lemma b64Char_text n : 0 <= n < 64 -> b64Text (b64Char n) = true.
Proof. intros H. unfold b64Text. by rewrite b64Val_b64Char. Qed.

Lemma step3 (P : bytes -> Prop) :
  P [] -> (forall a, P [a]) -> (forall a b, P [a; b]) ->
  (forall a b c s, P s -> P (a :: b :: c :: s)) -> forall s, P s.
Proof.
  intros H0 H1 H2 H3. fix IH 1. intros [|a [|b [|c s]]]; [done|apply H1|apply H2|]. apply H3, IH.
Qed.

Lemma b64Encode_text s : bytes_ok s -> Forall (fun c => b64Text c = true) (b64Encode s).
Proof.
  induction s as [|a|a b|a b c s IH] using step3; intros H; unfold bytes_ok in *; rewrite ?Forall_cons in H; cbn [b64Encode];
    cbn [app]; repeat (constructor; [first [reflexivity|apply b64Char_text; ints]|]); try (by constructor).
  apply IH. apply H.
Qed.

(** Text that ends a quantum's worth of base64: the end, or a foreign character. *)
Definition stops (k : bytes) : Prop :=
  match k with [] => True | c :: _ => b64Text c = false /\ newline c = false end.

Lemma b64_quantum x y z v s :
  0 <= x < 64 -> 0 <= y < 64 -> 0 <= z < 64 -> 0 <= v < 64 ->
  b64Quanta [] ([b64Char x; b64Char y; b64Char z; b64Char v] ++ s) =
  (let '(t, ok) := b64Quanta [] s in
   ([4 * x + y / 16; y mod 16 * 16 + z / 4; z mod 4 * 64 + v] ++ t, ok)).
Proof. intros. cbn [app b64Quanta]. by rewrite !b64Val_b64Char. Qed.

Lemma b64_one x y s :
  0 <= x < 64 -> 0 <= y < 64 ->
  b64Quanta [] ([b64Char x; b64Char y; b64Pad; b64Pad] ++ s) = ([4 * x + y / 16], atEnd s).
Proof. intros. cbn [app b64Quanta]. rewrite !b64Val_b64Char by done. reflexivity. Qed.

Lemma b64_two x y z s :
  0 <= x < 64 -> 0 <= y < 64 -> 0 <= z < 64 ->
  b64Quanta [] ([b64Char x; b64Char y; b64Char z; b64Pad] ++ s) =
  ([4 * x + y / 16; y mod 16 * 16 + z / 4], atEnd s).
Proof. intros. cbn [app b64Quanta]. rewrite !b64Val_b64Char by done. reflexivity. Qed.

(** The text is read back also when something foreign follows it. *)
Lemma b64_prefix s k : bytes_ok s -> stops k -> (b64Quanta [] (b64Encode s ++ k)).1 = s.
Proof.
  induction s as [|a|a b|a b c s IH] using step3; intros H Hk; unfold bytes_ok in *; rewrite ?Forall_cons in H; cbn [b64Encode].
  - destruct k as [|c k]; [done|]. cbn [stops] in Hk. unfold b64Text in Hk. cbn [app b64Quanta].
    destruct (b64Val c) as [v|]; [by destruct Hk|]. destruct Hk as [-> ->]. done.
  - rewrite b64_one by ints. cbn [fst]. f_equal. ints.
  - rewrite b64_two by ints. cbn [fst]. f_equal; [ints|f_equal; ints].
  - rewrite <- app_assoc, b64_quantum by ints.
    assert (bytes_ok s) as Hs by apply H. specialize (IH Hs Hk).
    destruct (b64Quanta [] (b64Encode s ++ k)) as [t ok]. cbn [fst] in IH |- *. subst t.
    cbn [app]. f_equal; [ints|f_equal; [ints|f_equal; ints]].
Qed.

#[export] Instance b64_reads : Reads b64Encode b64Decode.
Proof.
  intros s H. apply injective_projections; unfold b64Decode; cbn [fst snd].
  { rewrite <- (app_nil_r (b64Encode s)). by apply b64_prefix. }
  induction s as [|a|a b|a b c s IH] using step3; unfold bytes_ok in *; rewrite ?Forall_cons in H; cbn [b64Encode]; [reflexivity|..].
  - rewrite <- (app_nil_r [_; _; _; _]), b64_one by ints. reflexivity.
  - rewrite <- (app_nil_r [_; _; _; _]), b64_two by ints. reflexivity.
  - rewrite b64_quantum by ints. assert (bytes_ok s) as Hs by apply H. specialize (IH Hs).
    by destruct (b64Quanta [] (b64Encode s)).
Qed.
