(* ===== verification/Crypto.v ===== *)
(** The Luffy cipher of [pkg/tutk/crypto.go].

    [TransCodePartial] and [ReverseTransCodePartial] scramble a datagram in
    16-byte blocks (rotate the four words, permute the bytes, exclusive-or with
    the key, rotate again), the last partial block by permutation and key only.
    The [Blob] variants leave everything past byte 64 in the clear when the
    header's flag bit asks for it.  [XXTEADecrypt] and [XXTEADecryptVar] are the
    two TEA decoders of the same file. *)

From S2P Require Import Prelude.

(** "Charlie is the designer of P2P!!" *)
Definition charlie : bytes :=
  [67;104;97;114;108;105;101;32;105;115;32;116;104;101;32;100;
   101;115;105;103;110;101;114;32;111;102;32;80;50;80;33;33].

(** [bits.RotateLeft32]: the count is taken modulo 32, negative counts rotate
    right. *)
Definition RotateLeft32 (x k : Z) : Z :=
  let s := k mod 32 in
  Z.lor (u32 (Z.shiftl x s)) (Z.shiftr x (32 - s)).

(** [swap]'s tables; for any other length the bytes are copied unchanged. *)
Definition swap_table (n : nat) : option (list nat) :=
  match n with
  | 2 => Some [1;0]
  | 4 => Some [2;3;0;1]
  | 8 => Some [7;4;3;2;1;6;5;0]
  | 16 => Some [11;9;8;15;13;10;12;14;2;1;5;0;6;4;7;3]
  | _ => None
  end%nat.

Definition swap (src : bytes) (n : nat) : bytes :=
  match swap_table n with
  | Some t => map (fun i => nth i src 0) t
  | None => take n src
  end.

(** One pass over the four little-endian words of a block, word [i] rotated by
    [amount (4 * i)]. *)
Definition rotate_words (amount : Z -> Z) (b : bytes) : bytes :=
  flat_map (fun i => le32 (RotateLeft32 (at32 b i) (amount i))) [0;4;8;12].

Definition xor_key (b : bytes) : bytes := zip_with Z.lxor b charlie.

Definition reverse_block (b : bytes) : bytes :=
  rotate_words (fun i => i + 1)
    (xor_key (swap (rotate_words (fun i => i + 3) b) 16)).
Definition trans_block (b : bytes) : bytes :=
  rotate_words (fun i => - i - 3)
    (swap (xor_key (rotate_words (fun i => - i - 1) b)) 16).

Definition reverse_tail (b : bytes) : bytes := xor_key (swap b (length b)).
Definition trans_tail (b : bytes) : bytes := swap (xor_key b) (length b).

(** The block loop [for ; n >= 16; n -= 16] and the code after it. *)
Fixpoint block_loop (block tail : bytes -> bytes) (src : bytes) : bytes :=
  match src with
  | x0::x1::x2::x3::x4::x5::x6::x7::x8::x9::x10::x11::x12::x13::x14::x15::rest =>
      block [x0;x1;x2;x3;x4;x5;x6;x7;x8;x9;x10;x11;x12;x13;x14;x15]
        ++ block_loop block tail rest
  | _ => tail src
  end.

(** A destination that is too short is replaced by a fresh one; a longer one
    keeps its bytes past [len(src)]. *)
Definition into (dst out : bytes) : bytes :=
  if decide (len dst < len out) then out else out ++ drop (length out) dst.

Definition ReverseTransCodePartial (dst src : bytes) : bytes :=
  into dst (block_loop reverse_block reverse_tail src).
Definition TransCodePartial (dst src : bytes) : bytes :=
  into dst (block_loop trans_block trans_tail src).

(** The partial mode: header, then at most 48 coded bytes, then the clear rest.
    [flag] is the header whose byte 3 selects it: the decoded header when
    decoding, the source when encoding. *)
Definition blob_body (code : bytes -> bytes) (flag src : bytes) : bytes :=
  if negb (Z.land (at_ flag 3) 1 =? 0)
  then code (take 48 (drop 16 src)) ++ drop 64 src
  else code (drop 16 src).

Definition ReverseTransCodeBlob (src : bytes) : bytes :=
  if decide (len src < 16) then ReverseTransCodePartial [] src
  else
    let header := ReverseTransCodePartial [] (take 16 src) in
    header ++ blob_body (ReverseTransCodePartial []) header src.

Definition TransCodeBlob (src : bytes) : bytes :=
  if decide (len src < 16) then TransCodePartial [] src
  else
    let header := TransCodePartial [] (take 16 src) in
    header ++ blob_body (TransCodePartial []) src src.

(** ** XXTEA *)

Definition delta : Z := 0x9e3779b9.

(** [xxteaMX(sum, y, z, p, e, k)] with the key word already selected. *)
Definition xxtea_mix (sum y z kword : Z) : Z :=
  Z.lxor
    (u32 (Z.lxor (Z.shiftr z 5) (u32 (Z.shiftl y 2)) +
          Z.lxor (Z.shiftr y 3) (u32 (Z.shiftl z 4))))
    (u32 (Z.lxor sum y + Z.lxor kword z)).

Definition xxteaMX (sum y z p e : Z) (k : list Z) : Z :=
  xxtea_mix sum y z (nth (Z.to_nat (Z.lxor (Z.land p 3) e)) k 0).

(** *** [XXTEADecrypt]: exactly four words *)

(** The body of the inner loop for word [i], updating [w] and [w0]. *)
Definition xxtea4_step (sum i2 : Z) (k : list Z) (st : list Z * Z) (i : nat) : list Z * Z :=
  let '(w, w0) := st in
  let wi := nth (Z.to_nat (Z.land (Z.of_nat i - 1) 3)) w 0 in
  let ki := nth (Z.to_nat (Z.lxor (Z.of_nat i) i2)) k 0 in
  let t1 := u32 (Z.lxor w0 sum + Z.lxor wi ki) in
  let t2 := Z.lxor (Z.shiftr wi 5) (u32 (Z.shiftl w0 2)) in
  let t3 := Z.lxor (Z.shiftr w0 3) (u32 (Z.shiftl wi 4)) in
  let v := u32 (nth i w 0 - Z.lxor t1 (u32 (t2 + t3))) in
  (<[i := v]> w, v).

Definition xxtea4_round (k : list Z) (st : list Z * Z) : list Z * Z :=
  let '(w, sum) := st in
  let i2 := Z.land (Z.shiftr sum 2) 3 in
  let '(w', _) := fold_left (xxtea4_step sum i2 k) [3;2;1;0]%nat (w, nth 0 w 0) in
  (w', u32 (sum - delta)).

Definition words (n : nat) (b : bytes) : list Z :=
  map (fun i => at32 b (4 * Z.of_nat i)) (seq 0 n).

(** [None] is the panic on a source, key or destination shorter than 16. *)
Definition XXTEADecrypt (dst src key : bytes) : option bytes :=
  if decide (len src < 16 \/ len key < 16 \/ len dst < 16) then None else
  let rounds := 19%nat in
  let '(w, _) := Nat.iter rounds (xxtea4_round (words 4 key))
                   (words 4 src, u32 (Z.of_nat rounds * delta)) in
  Some (flat_map le32 w ++ drop 16 dst).

(** *** [XXTEADecryptVar]: any number of words *)

Definition xxteaN_step (sum e : Z) (k : list Z) (st : list Z * Z) (p : nat) : list Z * Z :=
  let '(v, y) := st in
  let z := nth (p - 1) v 0 in
  let vp := u32 (nth p v 0 - xxteaMX sum y z (Z.of_nat p) e k) in
  (<[p := vp]> v, vp).

Definition xxteaN_round (n : nat) (k : list Z) (st : list Z * Z * Z) : list Z * Z * Z :=
  let '(v, y, sum) := st in
  let e := Z.land (Z.shiftr sum 2) 3 in
  let '(v, y) := fold_left (xxteaN_step sum e k) (rev (seq 1 (n - 1))) (v, y) in
  let z := nth (n - 1) v 0 in
  let v0 := u32 (nth 0 v 0 - xxteaMX sum y z 0 e k) in
  (<[0%nat := v0]> v, v0, u32 (sum - delta)).

(** The outer [None] is a panic, the inner one Go's [nil].  The result buffer
    holds whole words only, so [result[:len(data)]] is out of range when the
    length is not a multiple of four. *)
Definition XXTEADecryptVar (data key : bytes) : option (option bytes) :=
  if decide (len data < 8 \/ len key < 16) then Some None else
  let n := Nat.max (length data / 4) 2 in
  let rounds := (6 + 52 / n)%nat in
  let v := words (length data / 4) data in
  let '(v, _, _) := Nat.iter rounds (xxteaN_round n (words 4 key))
                      (v, nth 0 v 0, u32 (Z.of_nat rounds * delta)) in
  result ← sub (flat_map le32 v) 0 (len data);
  Some (Some result).

(** ** Rotation *)

(** A rotation by [s] exchanges the upper [s] and the lower [32 - s] bits. *)
Lemma rotate_split hi lo s :
  0 <= s < 32 -> 0 <= hi < 2 ^ s -> 0 <= lo < 2 ^ (32 - s) ->
  RotateLeft32 (hi * 2 ^ (32 - s) + lo) s = lo * 2 ^ s + hi.
Proof.
  intros Hs Hhi Hlo. unfold RotateLeft32. rewrite (Z.mod_small s 32) by lia.
  assert (2 ^ s * 2 ^ (32 - s) = 4294967296) as Hpow
    by (rewrite <- Z.pow_add_r by lia; replace (s + (32 - s)) with 32 by lia; done).
  rewrite Z.shiftr_div_pow2, Z.shiftl_mul_pow2 by lia.
  rewrite Z.div_add_l, Z.div_small, Z.add_0_r by lia.
  replace (u32 _) with (lo * 2 ^ s).
  2:{ unfold u32. symmetry.
      replace ((hi * 2 ^ (32 - s) + lo) * 2 ^ s)
        with (lo * 2 ^ s + hi * (2 ^ s * 2 ^ (32 - s))) by ring.
      rewrite Hpow, Z_mod_plus_full. apply Z.mod_small. nia. }
  rewrite <- Z.shiftl_mul_pow2 by lia.
  apply Z.bits_inj'; intros n Hn. rewrite Z.lor_spec.
  rewrite (Z.shiftl_mul_pow2 lo s) by lia.
  destruct (Z.lt_ge_cases n s) as [Hlt|Hge].
  - rewrite Z.mul_pow2_bits_low by lia. cbn.
    rewrite <- (Z.mod_pow2_bits_low (lo * 2 ^ s + hi) s) by lia.
    rewrite Z.add_comm, Z_mod_plus_full, Z.mod_small by lia. done.
  - assert (Z.testbit hi n = false) as Hh.
    { rewrite <- (Z.mod_small hi (2 ^ s)) by lia. apply Z.mod_pow2_bits_high. lia. }
    rewrite Hh, orb_false_r.
    replace n with ((n - s) + s) by lia.
    rewrite <- !Z.div_pow2_bits by lia.
    rewrite Z.div_mul, Z.div_add_l, (Z.div_small hi), Z.add_0_r by lia. done.
Qed.

(** Every word splits that way. *)
Lemma word_split x s :
  is_u32 x -> 0 <= s < 32 ->
  exists hi lo, x = hi * 2 ^ (32 - s) + lo /\ 0 <= hi < 2 ^ s /\ 0 <= lo < 2 ^ (32 - s)
                /\ 2 ^ s * 2 ^ (32 - s) = 4294967296.
Proof.
  intros Hx Hs.
  assert (2 ^ s * 2 ^ (32 - s) = 4294967296) as Hpow
    by (rewrite <- Z.pow_add_r by lia; replace (s + (32 - s)) with 32 by lia; done).
  exists (x / 2 ^ (32 - s)), (x mod 2 ^ (32 - s)).
  assert (0 < 2 ^ (32 - s)) by (apply Z.pow_pos_nonneg; lia).
  pose proof (Z.div_mod x (2 ^ (32 - s)) ltac:(lia)).
  pose proof (Z.mod_pos_bound x (2 ^ (32 - s)) ltac:(lia)).
  repeat split; [lia| | |lia|lia|done].
  - apply Z.div_pos; unfold is_u32 in *; lia.
  - apply Z.div_lt_upper_bound; unfold is_u32 in *; nia.
Qed.

Lemma rotate_mod x k : RotateLeft32 x k = RotateLeft32 x (k mod 32).
Proof. unfold RotateLeft32. by rewrite Z.mod_mod by lia. Qed.

Lemma rotate_bound x k : is_u32 x -> is_u32 (RotateLeft32 x k).
Proof.
  intros Hx. rewrite rotate_mod.
  destruct (word_split x (k mod 32) Hx ltac:(ints)) as (hi & lo & -> & Hhi & Hlo & Hpow).
  rewrite rotate_split by (done || ints). unfold is_u32. nia.
Qed.

(** Rotating back. *)
Lemma rotate_inverse x k k' :
  is_u32 x -> (k + k') mod 32 = 0 -> RotateLeft32 (RotateLeft32 x k) k' = x.
Proof.
  intros Hx Hk. rewrite (rotate_mod x k), (rotate_mod _ k').
  destruct (Z.eq_dec (k mod 32) 0) as [Es|Es].
  - replace (k' mod 32) with 0 by ints. rewrite Es. unfold RotateLeft32.
    change (0 mod 32) with 0. change (32 - 0) with 32.
    assert (forall y, is_u32 y -> Z.lor (u32 (Z.shiftl y 0)) (Z.shiftr y 32) = y) as H0.
    { intros y Hy. rewrite Z.shiftl_0_r, u32_small, Z.shiftr_div_pow2, Z.div_small,
        Z.lor_0_r; done. }
    rewrite !H0; [done|done|]. by rewrite H0.
  - destruct (word_split x (k mod 32) Hx ltac:(ints)) as (hi & lo & -> & Hhi & Hlo & Hpow).
    rewrite rotate_split by (done || ints).
    replace (k' mod 32) with (32 - k mod 32) by ints.
    set (s := k mod 32) in *.
    replace (2 ^ s) with (2 ^ (32 - (32 - s))) by (f_equal; lia).
    rewrite rotate_split; [lia|subst s; ints|done|].
    by replace (32 - (32 - s)) with s by lia.
Qed.

(** ** Blocks *)

Lemma le32_of_bytes a b c d :
  is_byte a -> is_byte b -> is_byte c -> is_byte d ->
  le32 (a + 256 * b + 65536 * (c + 256 * d)) = [a; b; c; d].
Proof. intros. unfold le32. repeat (f_equal; try ints). Qed.

Lemma at32_le32 w l : is_u32 w -> at32 (le32 w ++ l) 0 = w.
Proof. intros. unfold at32, at16. cbn. by apply le32_value. Qed.

Lemma at32_skip w l i : 0 <= i -> at32 (le32 w ++ l) (4 + i) = at32 l i.
Proof.
  intros. unfold at32, at16.
  rewrite !at_app_r by (rewrite len_le32; lia). rewrite len_le32.
  by replace (4 + i - 4) with i by lia;
    replace (4 + i + 1 - 4) with (i + 1) by lia;
    replace (4 + i + 2 - 4) with (i + 2) by lia;
    replace (4 + i + 2 + 1 - 4) with (i + 2 + 1) by lia.
Qed.

Definition block_of (w0 w1 w2 w3 : Z) : bytes := le32 w0 ++ le32 w1 ++ le32 w2 ++ le32 w3.

Lemma rotate_words_block f w0 w1 w2 w3 :
  is_u32 w0 -> is_u32 w1 -> is_u32 w2 -> is_u32 w3 ->
  rotate_words f (block_of w0 w1 w2 w3) =
  block_of (RotateLeft32 w0 (f 0)) (RotateLeft32 w1 (f 4)) (RotateLeft32 w2 (f 8))
    (RotateLeft32 w3 (f 12)).
Proof.
  intros. unfold rotate_words, block_of, flat_map.
  change 4 with (4 + 0) at 1. change 8 with (4 + (4 + 0)) at 1.
  change 12 with (4 + (4 + (4 + 0))) at 1.
  rewrite !at32_skip, !at32_le32 by lia || done.
  rewrite <- (app_nil_r (le32 w3)), at32_le32, !app_nil_r by done. done.
Qed.

Lemma block_split b :
  bytes_ok b -> length b = 16%nat ->
  exists w0 w1 w2 w3, b = block_of w0 w1 w2 w3 /\
    is_u32 w0 /\ is_u32 w1 /\ is_u32 w2 /\ is_u32 w3.
Proof.
  intros Hb Hl. do 17 (destruct b as [|? b]; try discriminate Hl). clear Hl.
  unfold bytes_ok in Hb.
  repeat match goal with H : Forall _ (_ :: _) |- _ => apply Forall_cons in H as [? H] end.
  match goal with
  | |- context [?a :: ?b :: ?c :: ?d :: ?e :: ?f :: ?g :: ?h
                  :: ?i :: ?j :: ?k :: ?l :: ?m :: ?n :: ?o :: ?p :: _ = _] =>
      exists (a + 256 * b + 65536 * (c + 256 * d)), (e + 256 * f + 65536 * (g + 256 * h)),
             (i + 256 * j + 65536 * (k + 256 * l)), (m + 256 * n + 65536 * (o + 256 * p))
  end.
  unfold block_of. rewrite !le32_of_bytes by done.
  split; [reflexivity|]. unfold is_u32, is_byte in *. lia.
Qed.

Lemma block_ok w0 w1 w2 w3 : bytes_ok (block_of w0 w1 w2 w3).
Proof. unfold block_of. rewrite !bytes_ok_app. auto with wire. Qed.

Lemma rotate_words_ok f b : bytes_ok (rotate_words f b).
Proof.
  unfold rotate_words. cbn [flat_map]. rewrite !bytes_ok_app.
  repeat split; auto with wire. constructor.
Qed.

Lemma length_rotate_words f b : length (rotate_words f b) = 16%nat.
Proof. done. Qed.

(** Rotations by opposite amounts undo each other. *)
Lemma rotate_words_inverse f g b :
  bytes_ok b -> length b = 16%nat ->
  Forall (fun i => (f i + g i) mod 32 = 0) [0;4;8;12] ->
  rotate_words g (rotate_words f b) = b.
Proof.
  intros Hb Hl Hfg. destruct (block_split b Hb Hl) as (w0&w1&w2&w3&->&H0&H1&H2&H3).
  repeat match goal with H : Forall _ (_ :: _) |- _ => apply Forall_cons in H as [? H] end.
  rewrite !rotate_words_block, !rotate_inverse by auto using rotate_bound. done.
Qed.

Lemma swap_ok b n : bytes_ok b -> bytes_ok (swap b n).
Proof.
  intros Hb. unfold swap. destruct (swap_table n); [|by apply Forall_take].
  apply Forall_map, Forall_forall. intros i _. cbn.
  rewrite nth_lookup. destruct (b !! i) as [x|] eqn:Hx; cbn; [|ints].
  by eapply Forall_lookup_1 in Hb.
Qed.

Lemma length_swap b n : length b = n -> length (swap b n) = n.
Proof.
  intros <-. unfold swap.
  destruct (swap_table (length b)) as [t|] eqn:E; [|rewrite length_take; lia].
  rewrite length_map. unfold swap_table in E. repeat case_match; simplify_eq; done.
Qed.

(** Every permutation of [swap] is an involution. *)
Lemma swap_involutive b n : length b = n -> swap (swap b n) n = b.
Proof.
  intros <-. unfold swap.
  destruct (swap_table (length b)) as [t|] eqn:E.
  - unfold swap_table in E.
    repeat (destruct b as [|? b]; cbn in E; simplify_eq; try reflexivity).
  - rewrite !take_ge by (rewrite ?length_take; lia). done.
Qed.

Lemma charlie_ok : bytes_ok charlie.
Proof. repeat constructor; unfold is_byte; lia. Qed.

Lemma xor_key_ok b : bytes_ok b -> bytes_ok (xor_key b).
Proof.
  intros Hb. unfold xor_key. apply Forall_zip_with_snd with (P := is_byte); [|apply charlie_ok].
  eapply Forall_impl; [exact Hb|]. cbn. intros. by apply lxor_byte.
Qed.

Lemma length_xor_key b : (length b <= 32)%nat -> length (xor_key b) = length b.
Proof. intros. unfold xor_key. rewrite length_zip_with. cbn. lia. Qed.

Lemma xor_key_involutive b : (length b <= 32)%nat -> xor_key (xor_key b) = b.
Proof.
  unfold xor_key. change 32%nat with (length charlie). generalize charlie.
  induction b as [|x b IH]; intros [|k ks] Hl; cbn in *; try done; [lia|].
  rewrite lxor_cancel, IH by lia. done.
Qed.

#[export] Hint Resolve rotate_words_ok swap_ok xor_key_ok : wire.

(** ** Whole buffers *)

Lemma block_loop_cons f t b rest :
  length b = 16%nat -> block_loop f t (b ++ rest) = f b ++ block_loop f t rest.
Proof. intros Hl. do 17 (destruct b as [|? b]; try discriminate Hl). done. Qed.

Lemma block_loop_short f t src : (length src < 16)%nat -> block_loop f t src = t src.
Proof. intros Hl. do 16 (destruct src as [|? src]; try done). cbn in Hl. lia. Qed.

(** Induction over the 16-byte blocks of a buffer. *)
Lemma block_ind (P : bytes -> Prop) :
  (forall l, (length l < 16)%nat -> P l) ->
  (forall b rest, length b = 16%nat -> P rest -> P (b ++ rest)) ->
  forall l, P l.
Proof.
  intros Hs Hb l. remember (length l) as n eqn:Hn. revert l Hn.
  induction n as [n IH] using lt_wf_ind. intros l ->.
  destruct (decide (length l < 16)%nat) as [|Hge]; [auto|].
  rewrite <- (take_drop 16 l). apply Hb; [rewrite length_take; lia|].
  eapply IH; [|done]. rewrite length_drop. lia.
Qed.

(** A block/tail pair undoes another one block by block. *)
Section loop_inverse.
Context (f t g u : bytes -> bytes).
Hypothesis f_block : forall b, bytes_ok b -> length b = 16%nat ->
  length (f b) = 16%nat /\ g (f b) = b.
Hypothesis t_tail : forall b, bytes_ok b -> (length b < 16)%nat ->
  length (t b) = length b /\ u (t b) = b.

Lemma length_block_loop src : bytes_ok src -> length (block_loop f t src) = length src.
Proof using All.
  induction src as [l Hl|b rest Hb IH] using block_ind; intros Hok.
  - rewrite block_loop_short by done. by apply t_tail.
  - apply bytes_ok_app in Hok as [Hb' Hr].
    rewrite block_loop_cons, !length_app, IH, Hb by done.
    by destruct (f_block b Hb' Hb) as [-> _].
Qed.

Lemma block_loop_inverse src :
  bytes_ok src -> block_loop g u (block_loop f t src) = src.
Proof using All.
  induction src as [l Hl|b rest Hb IH] using block_ind; intros Hok.
  - destruct (t_tail l Hok Hl) as [Hlen Heq].
    rewrite (block_loop_short f t), block_loop_short; congruence.
  - apply bytes_ok_app in Hok as [Hb' Hr].
    destruct (f_block b Hb' Hb) as [Hlen Heq].
    by rewrite (block_loop_cons f t), block_loop_cons, Heq, IH by done.
Qed.
End loop_inverse.

Lemma reverse_block_inverse b :
  bytes_ok b -> length b = 16%nat ->
  length (reverse_block b) = 16%nat /\ trans_block (reverse_block b) = b.
Proof.
  intros Hb Hl. split; [done|]. unfold trans_block, reverse_block.
  set (r := rotate_words (fun i => i + 3) b).
  assert (bytes_ok r) by apply rotate_words_ok.
  assert (length (swap r 16) = 16%nat) by by apply length_swap.
  rewrite (rotate_words_inverse (fun i => i + 1)); cycle 1.
  { auto with wire. } { rewrite length_xor_key; lia. } { repeat constructor. }
  rewrite xor_key_involutive by lia. rewrite swap_involutive by done.
  apply rotate_words_inverse; [done|done|repeat constructor].
Qed.

Lemma trans_block_inverse b :
  bytes_ok b -> length b = 16%nat ->
  length (trans_block b) = 16%nat /\ reverse_block (trans_block b) = b.
Proof.
  intros Hb Hl. split; [done|]. unfold trans_block, reverse_block.
  set (r := rotate_words (fun i => - i - 1) b).
  assert (bytes_ok r) by apply rotate_words_ok.
  assert (length (xor_key r) = 16%nat) by (rewrite length_xor_key; done || (cbn; lia)).
  rewrite (rotate_words_inverse (fun i => - i - 3)); cycle 1.
  { auto with wire. } { by apply length_swap. } { repeat constructor. }
  rewrite swap_involutive by done.
  rewrite xor_key_involutive by (cbn; lia).
  apply rotate_words_inverse; [done|done|repeat constructor].
Qed.

Lemma reverse_tail_inverse b :
  bytes_ok b -> (length b < 16)%nat ->
  length (reverse_tail b) = length b /\ trans_tail (reverse_tail b) = b.
Proof.
  intros _ Hl. unfold trans_tail, reverse_tail.
  assert (length (swap b (length b)) = length b) as Hs by by apply length_swap.
  split; [rewrite length_xor_key; lia|].
  rewrite xor_key_involutive, length_xor_key, Hs, swap_involutive by lia. done.
Qed.

Lemma trans_tail_inverse b :
  bytes_ok b -> (length b < 16)%nat ->
  length (trans_tail b) = length b /\ reverse_tail (trans_tail b) = b.
Proof.
  intros _ Hl. unfold trans_tail, reverse_tail.
  assert (length (xor_key b) = length b) as Hx by (apply length_xor_key; lia).
  split; [by apply length_swap|].
  rewrite length_swap, swap_involutive, xor_key_involutive by lia. done.
Qed.

Lemma into_nil out : into [] out = out.
Proof.
  unfold into, len. case_decide as H; [done|]. cbn in H.
  destruct out; [done|]. cbn in H. lia.
Qed.

Lemma length_ReverseTransCodePartial src :
  bytes_ok src -> length (ReverseTransCodePartial [] src) = length src.
Proof.
  unfold ReverseTransCodePartial. rewrite into_nil.
  exact (length_block_loop _ _ _ _ reverse_block_inverse reverse_tail_inverse src).
Qed.
Lemma length_TransCodePartial src :
  bytes_ok src -> length (TransCodePartial [] src) = length src.
Proof.
  unfold TransCodePartial. rewrite into_nil.
  exact (length_block_loop _ _ _ _ trans_block_inverse trans_tail_inverse src).
Qed.

Lemma Trans_Reverse src :
  bytes_ok src -> TransCodePartial [] (ReverseTransCodePartial [] src) = src.
Proof.
  unfold TransCodePartial, ReverseTransCodePartial. rewrite !into_nil.
  exact (block_loop_inverse _ _ _ _ reverse_block_inverse reverse_tail_inverse src).
Qed.
Lemma Reverse_Trans src :
  bytes_ok src -> ReverseTransCodePartial [] (TransCodePartial [] src) = src.
Proof.
  unfold TransCodePartial, ReverseTransCodePartial. rewrite !into_nil.
  exact (block_loop_inverse _ _ _ _ trans_block_inverse trans_tail_inverse src).
Qed.

Lemma xor_swap_ok b n : bytes_ok b -> bytes_ok (xor_key (swap b n)).
Proof. auto with wire. Qed.

Lemma block_loop_ok f t src :
  (forall b, bytes_ok b -> bytes_ok (f b)) -> (forall b, bytes_ok b -> bytes_ok (t b)) ->
  bytes_ok src -> bytes_ok (block_loop f t src).
Proof.
  intros Hf Ht. induction src as [l Hl|b rest Hb IH] using block_ind; intros Hok.
  - rewrite block_loop_short; auto.
  - apply bytes_ok_app in Hok as [? ?].
    rewrite block_loop_cons, bytes_ok_app by done. auto.
Qed.
Lemma ReverseTransCodePartial_ok src :
  bytes_ok src -> bytes_ok (ReverseTransCodePartial [] src).
Proof.
  unfold ReverseTransCodePartial. rewrite into_nil.
  apply block_loop_ok; unfold reverse_block, reverse_tail; auto with wire.
Qed.
Lemma TransCodePartial_ok src :
  bytes_ok src -> bytes_ok (TransCodePartial [] src).
Proof.
  unfold TransCodePartial. rewrite into_nil.
  apply block_loop_ok; unfold trans_block, trans_tail; auto with wire.
Qed.
#[export] Hint Resolve ReverseTransCodePartial_ok TransCodePartial_ok : wire.

(** ** The cipher's properties *)

(** C34. The two directions undo each other on every datagram, whatever its length,
    and neither changes the length. *)
Theorem luffy_roundtrip (src : bytes) (Hsrc : bytes_ok src) :
  TransCodePartial [] (ReverseTransCodePartial [] src) = src /\
  ReverseTransCodePartial [] (TransCodePartial [] src) = src /\
  length (TransCodePartial [] src) = length src /\
  length (ReverseTransCodePartial [] src) = length src.
Proof.
  repeat split; auto using Trans_Reverse, Reverse_Trans, length_TransCodePartial,
    length_ReverseTransCodePartial.
Qed.

Definition sample_datagram : bytes := map Z.of_nat (seq 0 90).

Lemma luffy_roundtrip_witness :
  bytes_ok sample_datagram /\
  ReverseTransCodePartial [] (TransCodePartial [] sample_datagram) = sample_datagram.
Proof.
  assert (bytes_ok sample_datagram) as H by (unfold sample_datagram; cbn;
    repeat constructor; unfold is_byte; lia).
  split; [exact H|]. apply (luffy_roundtrip sample_datagram H).
Defined.

Lemma blob_body_inverse flag src :
  bytes_ok src -> 16 <= len src ->
  forall out, out = TransCodePartial [] (take 16 src) ++
                    blob_body (TransCodePartial []) flag src ->
  blob_body (ReverseTransCodePartial []) flag out = drop 16 src.
Proof.
  intros Hok Hlen out ->. unfold len in Hlen.
  assert (length (TransCodePartial [] (take 16 src)) = 16%nat) as Hh
    by (rewrite length_TransCodePartial, length_take by (by apply Forall_take); lia).
  unfold blob_body. rewrite drop_app_length' by done.
  destruct (negb _).
  - set (body := take 48 (drop 16 src)).
    assert (bytes_ok body) as Hbody by (by apply Forall_take, Forall_drop).
    assert (length (TransCodePartial [] body) = length body) as Hl
      by by apply length_TransCodePartial.
    assert (length body = Nat.min 48 (length src - 16)) as Hlb
      by (unfold body; rewrite length_take, length_drop; done).
    rewrite (drop_app_ge (TransCodePartial [] (take 16 src))) by lia. rewrite Hh.
    change (64 - 16)%nat with 48%nat.
    destruct (decide (48 <= length src - 16)%nat).
    + rewrite take_app_length', drop_app_length' by lia.
      rewrite Reverse_Trans by done. unfold body.
      rewrite <- (take_drop 48 (drop 16 src)) at 2. by rewrite drop_drop.
    + rewrite !(drop_ge src 64), !app_nil_r by lia.
      rewrite take_ge, drop_ge, app_nil_r by lia.
      rewrite Reverse_Trans by done. unfold body. rewrite take_ge; [done|].
      rewrite length_drop. lia.
  - by rewrite Reverse_Trans by (by apply Forall_drop).
Qed.

Lemma blob_header src :
  bytes_ok src -> 16 <= len src ->
  take 16 (TransCodeBlob src) = TransCodePartial [] (take 16 src) /\
  length (TransCodeBlob src) = length src.
Proof.
  intros Hok Hlen. unfold TransCodeBlob, len in *. rewrite decide_False by lia.
  assert (length (TransCodePartial [] (take 16 src)) = 16%nat) as Hh
    by (rewrite length_TransCodePartial, length_take by (by apply Forall_take); lia).
  split; [by apply take_app_length'|].
  rewrite length_app, Hh. unfold blob_body. destruct (negb _).
  - rewrite length_app, length_TransCodePartial, length_take, !length_drop
      by (by apply Forall_take, Forall_drop). lia.
  - rewrite length_TransCodePartial, length_drop by (by apply Forall_drop). lia.
Qed.

(** The blob encoding is decodable: the flag bit that selects the partial mode
    sits in the header, which is always coded, so the decoder reads from the
    decoded header the choice that the encoder read from the source. *)
Theorem blob_roundtrip (src : bytes) (Hsrc : bytes_ok src) :
  ReverseTransCodeBlob (TransCodeBlob src) = src /\
  length (TransCodeBlob src) = length src.
Proof.
  destruct (decide (len src < 16)) as [Hs|Hs].
  - unfold ReverseTransCodeBlob, TransCodeBlob, len in *.
    rewrite (decide_True (P := Z.of_nat (length src) < 16)) by done.
    rewrite length_TransCodePartial, decide_True, Reverse_Trans by done. done.
  - destruct (blob_header src Hsrc ltac:(lia)) as [Hh Hl].
    split; [|done]. unfold ReverseTransCodeBlob, len in *.
    rewrite Hl, decide_False, Hh, Reverse_Trans by (done || by apply Forall_take).
    assert (at_ (take 16 src) 3 = at_ src 3) as Hflag.
    { unfold at_, rd. rewrite !decide_True by lia. rewrite lookup_take_lt by lia. done. }
    unfold blob_body at 1. rewrite Hflag. fold (blob_body (ReverseTransCodePartial []) src
      (TransCodeBlob src)).
    rewrite (blob_body_inverse src src); [apply take_drop|done|unfold len; lia|].
    unfold TransCodeBlob, len. by rewrite decide_False by lia.
Qed.

Definition sample_partial : bytes := [1;2;3;1] ++ map Z.of_nat (seq 4 80).

Lemma blob_roundtrip_witness :
  bytes_ok sample_partial /\ ReverseTransCodeBlob (TransCodeBlob sample_partial) = sample_partial.
Proof.
  assert (bytes_ok sample_partial) as H by (unfold sample_partial; cbn;
    repeat constructor; unfold is_byte; lia).
  split; [exact H|]. apply (blob_roundtrip sample_partial H).
Defined.

(** *** The two XXTEA decoders agree on four words *)

Lemma xxtea4_step_spec sum e k w w0 i :
  (i < 4)%nat ->
  xxtea4_step sum e k (w, w0) i =
  let z := nth (Z.to_nat (Z.land (Z.of_nat i - 1) 3)) w 0 in
  let v := u32 (nth i w 0 - xxteaMX sum w0 z (Z.of_nat i) e k) in
  (<[i := v]> w, v).
Proof.
  intros Hi. unfold xxtea4_step, xxteaMX, xxtea_mix. cbn.
  replace (Z.land (Z.of_nat i) 3) with (Z.of_nat i)
    by (do 4 (destruct i as [|i]; [done|]); lia).
  rewrite (Z.lxor_comm (nth _ k 0)), (Z.lxor_comm sum).
  by rewrite (Z.lxor_comm (u32 (Z.lxor w0 sum + _))).
Qed.

Lemma xxtea_steps_agree sum e k st i :
  (1 <= i < 4)%nat -> xxtea4_step sum e k st i = xxteaN_step sum e k st i.
Proof.
  intros Hi. destruct st as [w w0]. rewrite xxtea4_step_spec by lia. unfold xxteaN_step. cbn.
  replace (Z.to_nat (Z.land (Z.of_nat i - 1) 3)) with (i - 1)%nat; [done|].
  do 4 (destruct i as [|i]; [done || lia|]); lia.
Qed.

Lemma xxtea_rounds_agree k w sum :
  length w = 4%nat ->
  let '(v, y, sum') := xxteaN_round 4 k (w, nth 0 w 0, sum) in
  xxtea4_round k (w, sum) = (v, sum') /\ y = nth 0 v 0 /\ length v = 4%nat.
Proof.
  intros Hw. unfold xxteaN_round, xxtea4_round.
  change (rev (seq 1 (4 - 1))) with [3;2;1]%nat.
  change [3;2;1;0]%nat with ([3;2;1] ++ [0])%nat. rewrite fold_left_app.
  set (e := Z.land (Z.shiftr sum 2) 3).
  assert (fold_left (xxtea4_step sum e k) [3;2;1]%nat (w, nth 0 w 0)
          = fold_left (xxteaN_step sum e k) [3;2;1]%nat (w, nth 0 w 0)) as ->.
  { cbn [fold_left]. by rewrite !xxtea_steps_agree by lia. }
  assert (length (fst (fold_left (xxteaN_step sum e k) [3;2;1]%nat (w, nth 0 w 0))) = 4%nat).
  { cbn. by rewrite !length_insert. }
  destruct (fold_left (xxteaN_step sum e k) [3;2;1]%nat (w, nth 0 w 0)) as [v y].
  cbn [fst] in *. cbn [fold_left]. rewrite xxtea4_step_spec by lia.
  change (Z.to_nat (Z.land (Z.of_nat 0 - 1) 3)) with 3%nat. change (4 - 1)%nat with 3%nat.
  cbv zeta. rewrite length_insert. repeat split; [|done].
  rewrite (nth_lookup (<[_:=_]> v)), list_lookup_insert_eq by lia. done.
Qed.

Lemma xxtea_iter_agree k rounds w sum :
  length w = 4%nat ->
  let '(v, y, sum') := Nat.iter rounds (xxteaN_round 4 k) (w, nth 0 w 0, sum) in
  Nat.iter rounds (xxtea4_round k) (w, sum) = (v, sum') /\ y = nth 0 v 0 /\ length v = 4%nat.
Proof.
  intros Hw. induction rounds as [|r IH]; [done|].
  rewrite !Nat.iter_succ.
  destruct (Nat.iter r (xxteaN_round 4 k) _) as [[v y] s]. destruct IH as (-> & -> & Hl).
  by apply xxtea_rounds_agree.
Qed.

(** On a 16-byte block the general decoder computes what the fixed one does, so
    the callers of either agree on the protocol's challenge format. *)
Theorem xxtea_decoders_agree (dst data key : bytes)
  (Hdata : len data = 16) (Hkey : 16 <= len key) (Hdst : len dst = 16) :
  exists out, XXTEADecrypt dst data key = Some out /\
    XXTEADecryptVar data key = Some (Some out) /\ len out = 16.
Proof.
  unfold XXTEADecrypt, XXTEADecryptVar. rewrite !decide_False by lia.
  replace (length data) with 16%nat by (unfold len in *; lia).
  change (Nat.max (16 / 4) 2) with 4%nat. change (6 + 52 / 4)%nat with 19%nat.
  change (16 / 4)%nat with 4%nat.
  pose proof (xxtea_iter_agree (words 4 key) 19 (words 4 data) (u32 (Z.of_nat 19 * delta))
    eq_refl) as Hag.
  destruct (Nat.iter 19 (xxteaN_round 4 (words 4 key)) _) as [[v y] s].
  destruct Hag as (-> & _ & Hl). exists (flat_map le32 v).
  do 5 (destruct v as [|? v]; try discriminate Hl).
  rewrite drop_ge, app_nil_r by (unfold len in *; lia).
  rewrite Hdata. done.
Qed.

Lemma xxtea_decoders_agree_witness :
  exists out, XXTEADecrypt (zeros 16) (map Z.of_nat (seq 0 16)) charlie = Some out /\
    XXTEADecryptVar (map Z.of_nat (seq 0 16)) charlie = Some (Some out) /\ len out = 16.
Proof. apply xxtea_decoders_agree; reflexivity || (vm_compute; discriminate). Defined.

(** A challenge whose length is not a multiple of four is a run-time panic: the
    result buffer holds whole words only. *)
Theorem XXTEADecryptVar_panics (data key : bytes)
  (Hdata : 8 <= len data) (Hkey : 16 <= len key) (Hodd : len data mod 4 <> 0) :
  XXTEADecryptVar data key = None.
Proof.
  unfold XXTEADecryptVar. rewrite decide_False by lia.
  set (n := Nat.max (length data / 4) 2). set (w := words (length data / 4) data).
  assert (n = length data / 4)%nat as Hn.
  { unfold n. assert (2 <= length data / 4)%nat; [|lia].
    apply Nat.div_le_lower_bound; unfold len in *; lia. }
  assert (forall st, length (fst (fst st)) = n ->
            length (fst (fst (xxteaN_round n (words 4 key) st))) = n) as Hround.
  { intros [[v y] s] Hl. unfold xxteaN_round.
    assert (forall l st, length (fst (fold_left (xxteaN_step s (Z.land (Z.shiftr s 2) 3)
              (words 4 key)) l st)) = length (fst st)) as Hf.
    { induction l as [|p l IH]; intros [v' y']; [done|].
      cbn [fold_left]. rewrite IH. cbn. apply length_insert. }
    specialize (Hf (rev (seq 1 (n - 1))) (v, y)).
    destruct (fold_left _ _ (v, y)) as [v' y']. cbn in *. rewrite length_insert. lia. }
  assert (forall r st, length (fst (fst st)) = n ->
            length (fst (fst (Nat.iter r (xxteaN_round n (words 4 key)) st))) = n) as Hiter.
  { induction r as [|r IH]; intros st Hst; [done|]. rewrite Nat.iter_succ.
    apply Hround, IH, Hst. }
  specialize (Hiter (6 + 52 / n)%nat
    (w, nth 0 w 0, u32 (Z.of_nat (6 + 52 / n) * delta))).
  destruct (Nat.iter _ _ _) as [[v y] s]. cbn [fst] in Hiter.
  assert (length v = n) as Hv.
  { apply Hiter. unfold w, words. by rewrite length_map, length_seq. }
  assert (length (flat_map le32 v) = 4 * n)%nat as Hfl.
  { rewrite <- Hv. clear. induction v as [|x v IH]; [done|]. cbn in *. lia. }
  unfold sub. rewrite decide_False; [done|]. unfold len in *.
  assert (length data mod 4 <> 0)%nat.
  { intros E. apply Hodd. rewrite <- (Nat2Z.inj_mod _ 4), E. done. }
  pose proof (Nat.div_mod_eq (length data) 4).
  pose proof (Nat.mod_upper_bound (length data) 4). lia.
Qed.

Lemma XXTEADecryptVar_panics_witness :
  XXTEADecryptVar (zeros 10) charlie = None.
Proof. apply XXTEADecryptVar_panics; vm_compute; discriminate. Defined.
