(* ===== verification/Wire.v ===== *)
(** The wire constants and packet builders of [pkg/petlibro/templates.go]: the
    outer Kalay header, the LAN probes, the IOCtrl envelope, the type-0x09
    receive report, the timing messages and the AV-LOGIN pair.  Every builder is
    written as the source writes it, a zeroed buffer filled by stores at fixed
    offsets; closed forms are lemmas. *)

From S2P Require Import Prelude Crypto.

(** ** Constants *)

Definition lanPort : Z := 32761.
Definition magicVersion : Z := 0x1D.
Definition flagsControl : Z := 0x02.
Definition flagsSession : Z := 0x0B.
Definition flagsRecv : Z := 0x0A.
Definition flagsAlive : Z := 0x0A.

Definition msgLANSearch3 : Z := 0x0601.
Definition msgLANSearchR : Z := 0x0602.
Definition msgKnock2 : Z := 0x0402.
Definition msgKnockRR2 : Z := 0x0404.
Definition msgSessionC2D : Z := 0x0407.
Definition msgSessionD2C : Z := 0x0408.
Definition msgAliveC2D : Z := 0x0427.

Definition sdkVersion : bytes := [0x00; 0x08; 0x03; 0x04].

Definition ioctlInnerSendDataDelay : Z := 0x00FF.
Definition ioctlPetlibroStreamCtrl : Z := 0x0024.
Definition ioctlSetStreamCtrlReq : Z := 0x0320.
Definition ioctlSetStreamCtrlResp : Z := 0x0321.
Definition ioctlStart : Z := 0x01FF.
Definition ioctlAudioOn : Z := 0x0300.
Definition ioctlGetStreamCtrlReq : Z := 0x0322.
Definition ioctlGetStreamCtrlResp : Z := 0x0323.
Definition ioctlGetAudioOutFormatReq : Z := 0x032A.
Definition ioctlGetVideoModeReq : Z := 0x0372.

Definition qualityHD : bytes :=
  [u8 ioctlPetlibroStreamCtrl; 0; 0; 0; 0x01; 0x00; 0xff; 0x3f; 0; 0; 0; 0].
Definition qualitySD : bytes :=
  [u8 ioctlPetlibroStreamCtrl; 0; 0; 0; 0x02; 0x00; 0x8a; 0x81; 0; 0; 0; 0].

Definition innerChKey : Z := 0x05.
Definition innerChInter : Z := 0x07.
Definition innerChAudio : Z := 0x03.

Definition CodecH264 : Z := 0x4E.
Definition CodecAACADTS : Z := 0x87.

(** "Charlie is the d" *)
Definition xorKey : bytes := take 16 charlie.

(** [out[i] = x ^ xorKey[i%16]] *)
Definition xorBody (b : bytes) : bytes :=
  imap (fun i x => Z.lxor x (nth (i mod 16)%nat xorKey 0)) b.

(** ** Outer messages *)

(** The nonce is the session's eight random bytes; the source indexes its first
    two. *)
Definition buildOuter (nonce : bytes) (seq_ : Z) (body : bytes)
    (datatype channelID flags : Z) : bytes :=
  let plen := u16 (len body + 0x0C) in
  let p := zeros (0x1C + length body) in
  let p := blit 0 [0x04] p in
  let p := blit 1 [0x02] p in
  let p := blit 2 [magicVersion] p in
  let p := blit 3 [flags] p in
  let p := blit 4 (le16 plen) p in
  let p := blit 6 (le16 seq_) p in
  let p := blit 8 (le16 msgSessionC2D) p in
  let p := blit 10 (le16 0x0021) p in
  let p := blit 12 [at_ nonce 0] p in
  let p := blit 13 [at_ nonce 1] p in
  let p := blit 14 [channelID] p in
  let p := blit 15 [datatype] p in
  let p := blit 16 (le32 0x0000000C) p in
  let p := blit 20 nonce p in
  blit 28 body p.

(** [copy(p[lo:hi], src)] *)
Definition blit_to (lo hi : nat) (src p : bytes) : bytes := blit lo (take (hi - lo) src) p.

Definition buildLANSearch3 (uid nonce : bytes) (w3 : Z) : bytes :=
  let p := zeros 88 in
  let p := blit 0 [0x04; 0x02; magicVersion; flagsControl] p in
  let p := blit 4 (le16 72) p in
  let p := blit 8 (le16 msgLANSearch3) p in
  let p := blit 10 (le16 0x0021) p in
  let p := blit_to 0x10 0x24 uid p in
  let p := blit_to 0x34 0x38 sdkVersion p in
  let p := blit_to 0x38 0x40 nonce p in
  let p := blit 0x40 [w3] p in
  blit_to 0x4A 0x52 [48;48;48;48;48;48;48;48] p.

Definition buildKnock2 (uid nonce : bytes) : bytes :=
  let p := zeros 52 in
  let p := blit 0 [0x04; 0x02; magicVersion; flagsControl] p in
  let p := blit 4 (le16 36) p in
  let p := blit 8 (le16 msgKnock2) p in
  let p := blit 10 (le16 0x0033) p in
  let p := blit_to 0x10 0x24 uid p in
  let p := blit_to 0x24 0x2C nonce p in
  blit_to 0x30 0x34 sdkVersion p.

Definition buildAliveC2D (nonce : bytes) : bytes :=
  let p := zeros 24 in
  let p := blit 0 [0x04; 0x02; magicVersion; flagsAlive] p in
  let p := blit 4 (le16 8) p in
  let p := blit 8 (le16 msgAliveC2D) p in
  let p := blit 10 (le16 0x0012) p in
  blit_to 0x10 0x18 nonce p.

(** ** Inner bodies *)

Definition innerData (counter channelFamily messageSeq : Z) (payload : bytes) : bytes :=
  let b := zeros (36 + length payload) in
  let b := blit 0 [0x0c] b in
  let b := blit 2 [0x0c] b in
  let b := blit 4 (le16 counter) b in
  let b := blit 16 (le16 channelFamily) b in
  let b := blit 18 (le16 messageSeq) b in
  let b := blit 20 [0x01] b in
  let b := blit 24 (le32 (u32 (len payload))) b in
  let b := blit 28 (le32 messageSeq) b in
  blit 36 (xorBody payload) b.

(** The type-0x09 receive report. *)
Record transportACK := mkTransportACK {
  Ordinal : Z;
  AVBase : Z;
  AVHigh : Z;
  ReliableRecvACK : Z;
  Missing : list Z;
  State : Z;
  SendCount : Z;
  Tick : Z;
}.

Definition marshal (a : transportACK) : bytes :=
  let n := Nat.max (22 + 2 * length (Missing a)) 24 in
  let b := zeros n in
  let b := blit 0 [0x09] b in
  let b := blit 2 [0x0c] b in
  let b := blit 4 (le16 (Ordinal a)) b in
  let b := blit 8 (le16 (AVBase a)) b in
  let b := blit 10 (le16 (AVHigh a)) b in
  let b := blit 12 (le16 (ReliableRecvACK a)) b in
  let b := blit 14 (le16 (u16 (len (Missing a)))) b in
  let b := blit 16 (le16 (State a)) b in
  let b := blit 18 (le16 (SendCount a)) b in
  let b := blit 20 (le16 (Tick a)) b in
  foldl (fun b p => blit (22 + 2 * p.1) (le16 p.2) b) b (imap pair (Missing a)).

Definition innerTimingFeedback (ordinal lastRecv timingStamp metric : Z) : bytes :=
  let b := zeros 20 in
  let b := blit 0 [0x0b] b in
  let b := blit 2 [0x0c] b in
  let b := blit 4 (le16 ordinal) b in
  let b := blit 6 (le16 lastRecv) b in
  let b := blit 8 (le32 timingStamp) b in
  blit 12 (le32 metric) b.

Definition innerTimingProbe (ordinal timingStamp : Z) : bytes :=
  let b := zeros 16 in
  let b := blit 0 [0x0a; 0x08; 0x0c] b in
  let b := blit 4 (le16 ordinal) b in
  let b := blit 8 (le32 timingStamp) b in
  blit 12 (le16 0x0032) b.

Definition ioctlBody (ctrlID : Z) (payload : bytes) : bytes :=
  let b := zeros (4 + length payload) in
  let b := blit 0 (le32 ctrlID) b in
  blit 4 payload b.

Definition ioctlBody12 (ctrlID : Z) : bytes := ioctlBody ctrlID (zeros 8).

(** ** AV-LOGIN *)

Definition sdkPaddedLen : nat := 0x101.
(** "admin", "888888" *)
Definition viewAccount : bytes := [97;100;109;105;110].
Definition viewPassword : bytes := [56;56;56;56;56;56].
Definition viewAccountHeadLen : nat := 12.
Definition viewAccountTailLen : nat := sdkPaddedLen - viewAccountHeadLen.
Definition trailerOffset : nat := viewAccountTailLen + sdkPaddedLen.
Definition trailerLenLogin : nat := 32.
Definition trailerLenLogin1 : nat := 34.
Definition authTypePassword : Z := 0.
Definition trailerFlag0 : Z := 1.
Definition opcodeSupportCount : Z := 4.
Definition enableVideoOnConnect : Z := 1.
Definition enableAudioOnConnect : Z := 0.
Definition opcodeSupportBitmap : list Z := [0x001F07FB; 0; 0; 0x00030000].

Definition loginAWrapperHead : bytes :=
  [0x00; 0x00; 0x0c; 0x00; 0; 0; 0; 0; 0; 0; 0; 0; 0; 0; 0; 0;
   0x22; 0x02; 0x01; 0x00; 0; 0; 0; 0].
Definition loginBWrapperHead : bytes :=
  [0x00; 0x20; 0x0c; 0x00; 0; 0; 0; 0; 0; 0; 0; 0; 0; 0; 0; 0;
   0x24; 0x02; 0x00; 0x00; 0; 0; 0; 0].

(** The plaintext of the encrypted part, step 2 of [buildLogin]. *)
Definition loginPlain (isLogin1 : bool) : bytes :=
  let trailerLen := if isLogin1 then trailerLenLogin1 else trailerLenLogin in
  let pt := zeros (trailerOffset + trailerLen) in
  let pt := blit viewAccountTailLen viewPassword pt in
  let tr := (fun off => trailerOffset + off)%nat in
  let pt := blit (tr 0x00%nat) (le32 trailerFlag0) pt in
  let pt := blit (tr 0x04%nat) (le32 opcodeSupportCount) pt in
  let pt := blit (tr 0x08%nat) (le32 (nth 0 opcodeSupportBitmap 0)) pt in
  let pt := blit (tr 0x0C%nat) (le32 (nth 1 opcodeSupportBitmap 0)) pt in
  let pt := blit (tr 0x10%nat) (le32 (nth 2 opcodeSupportBitmap 0)) pt in
  let pt := blit (tr 0x14%nat) (le32 (nth 3 opcodeSupportBitmap 0)) pt in
  let pt := blit (tr 0x18%nat) [authTypePassword] pt in
  let pt := blit (tr 0x1C%nat) [enableVideoOnConnect] pt in
  if isLogin1 then blit (tr 0x20%nat) [enableAudioOnConnect] pt else pt.

Definition buildLogin (wrapperHead : bytes) (loginSerial : Z) (isLogin1 : bool) : bytes :=
  let wrapper := zeros (length wrapperHead + viewAccountHeadLen) in
  let wrapper := blit 0 wrapperHead wrapper in
  let wrapper := blit 0x14 (le32 loginSerial) wrapper in
  let wrapper := blit (length wrapperHead) viewAccount wrapper in
  let ct := ReverseTransCodePartial [] (loginPlain isLogin1) in
  wrapper ++ ct.

Definition buildLoginPair (seed : Z) : bytes * bytes :=
  (buildLogin loginAWrapperHead seed false,
   buildLogin loginBWrapperHead (u32 (seed + 1)) true).

(** ** Closed forms of the builders *)

(** Appending the body: the last store of a builder fills the tail of the
    buffer exactly. *)
Lemma blit_tail h t src :
  length src = length t -> blit (length h) src (h ++ t) = h ++ src.
Proof.
  intros Hl. unfold blit. rewrite take_app_length, length_app.
  rewrite take_ge by lia. rewrite drop_ge, app_nil_r by (rewrite length_app; lia). done.
Qed.

(** A store inside the header leaves what follows it alone. *)
Lemma blit_head off src h t :
  (off + length src <= length h)%nat -> blit off src (h ++ t) = blit off src h ++ t.
Proof.
  intros Hl. unfold blit. rewrite take_app_le by lia.
  rewrite length_app, !(take_ge src) by lia.
  rewrite drop_app_le by lia. by rewrite <- !app_assoc.
Qed.

Lemma zeros_app n m : zeros (n + m) = zeros n ++ zeros m.
Proof. apply replicate_add. Qed.

Lemma length_zeros n : length (zeros n) = n.
Proof. apply length_replicate. Qed.

Ltac header_stores :=
  with_strategy opaque [blit zeros app]
    (rewrite ?blit_head by (rewrite ?length_blit, ?length_zeros; cbn; lia)).

(** Run the stores of a fixed-size header; the stored bytes stay symbolic. *)
Ltac stores_compute :=
  unfold le16, le32;
  repeat match goal with |- context [?x mod 256] => generalize (x mod 256); intro end;
  vm_compute; reflexivity.

Definition outer_header (nonce : bytes) (seq_ plen datatype channelID flags : Z) : bytes :=
  [0x04; 0x02; magicVersion; flags] ++ le16 plen ++ le16 seq_ ++ le16 msgSessionC2D ++
  le16 0x0021 ++ [at_ nonce 0; at_ nonce 1; channelID; datatype] ++ le32 0x0C ++ nonce.

Lemma buildOuter_eq nonce seq_ body datatype channelID flags :
  length nonce = 8%nat ->
  buildOuter nonce seq_ body datatype channelID flags =
  outer_header nonce seq_ (u16 (len body + 12)) datatype channelID flags ++ body.
Proof.
  intros Hn. do 9 (destruct nonce as [|? nonce]; try discriminate Hn). clear Hn.
  unfold buildOuter. generalize (u16 (len body + 12)). intros plen. cbv zeta.
  rewrite zeros_app. header_stores.
  match goal with |- blit 28 body (?h ++ _) = ?k ++ _ =>
    replace h with k by (unfold outer_header; stores_compute); change 28%nat with (length k) end.
  apply blit_tail. unfold zeros. by rewrite length_replicate.
Qed.

Definition inner_header (counter channelFamily messageSeq paylen : Z) : bytes :=
  [0x0c; 0; 0x0c; 0] ++ le16 counter ++ zeros 10 ++ le16 channelFamily ++
  le16 messageSeq ++ [1; 0; 0; 0] ++ le32 paylen ++ le32 messageSeq ++ zeros 4.

Lemma length_xorBody b : length (xorBody b) = length b.
Proof. apply length_imap. Qed.

Lemma innerData_eq counter channelFamily messageSeq payload :
  innerData counter channelFamily messageSeq payload =
  inner_header counter channelFamily messageSeq (u32 (len payload)) ++ xorBody payload.
Proof.
  unfold innerData. generalize (u32 (len payload)). intros plen. cbv zeta.
  rewrite zeros_app. header_stores.
  match goal with |- blit 36 _ (?h ++ _) = ?k ++ _ =>
    change h with k; change 36%nat with (length k) end.
  apply blit_tail. unfold zeros. by rewrite length_replicate, length_xorBody.
Qed.

(** *** The receive report *)

Definition ack_header (a : transportACK) : bytes :=
  [0x09; 0; 0x0c; 0] ++ le16 (Ordinal a) ++ [0; 0] ++ le16 (AVBase a) ++ le16 (AVHigh a) ++
  le16 (ReliableRecvACK a) ++ le16 (u16 (len (Missing a))) ++ le16 (State a) ++
  le16 (SendCount a) ++ le16 (Tick a).

Lemma length_flat_map_le16 ms : length (flat_map le16 ms) = (2 * length ms)%nat.
Proof. induction ms as [|x ms IH]; cbn in *; lia. Qed.

(** Storing the missing offsets one after the other. *)
Lemma store_words ms : forall h n t,
  length h = (22 + 2 * n)%nat ->
  foldl (fun b p => blit (22 + 2 * p.1) (le16 p.2) b) (h ++ zeros (2 * length ms) ++ t)
    (imap (fun i x => (n + i, x)%nat) ms)
  = h ++ flat_map le16 ms ++ t.
Proof.
  induction ms as [|x ms IH]; intros h n t Hh; [done|].
  cbn [imap foldl fst snd]. rewrite Nat.add_0_r, <- Hh.
  replace (2 * length (x :: ms))%nat with (2 + 2 * length ms)%nat by (cbn; lia).
  rewrite zeros_app, <- (app_assoc (zeros 2)), (app_assoc h (zeros 2)).
  rewrite blit_head, blit_tail by (rewrite ?length_app; cbn; lia || done).
  rewrite (imap_ext _ (fun i y => (S n + i, y)%nat)) by (intros; cbn; f_equal; lia).
  rewrite IH by (rewrite length_app; cbn; lia).
  cbn [flat_map]. by rewrite <- !app_assoc.
Qed.

Lemma marshal_eq a :
  marshal a = ack_header a ++ flat_map le16 (Missing a) ++
              zeros (2 - 2 * length (Missing a)).
Proof.
  unfold marshal. cbv zeta.
  replace (Nat.max (22 + 2 * length (Missing a)) 24)
    with (22 + (2 * length (Missing a) + (2 - 2 * length (Missing a))))%nat by lia.
  rewrite !zeros_app. header_stores.
  match goal with |- foldl _ (?h ++ _) _ = ?k ++ _ =>
    replace h with k by (unfold ack_header; stores_compute) end.
  by apply (store_words (Missing a) (ack_header a) 0).
Qed.

(** The report's fields as a receiver reads them back, at the offsets of the
    builder's comment. *)
Definition ack_decode (b : bytes) : option transportACK :=
  ordinal ← rd16 b 4; base ← rd16 b 8; high ← rd16 b 10; reliable ← rd16 b 12;
  count ← rd16 b 14; state ← rd16 b 16; sends ← rd16 b 18; tick ← rd16 b 20;
  missing ← mapM (fun i => rd16 b (22 + 2 * Z.of_nat i)) (seq 0 (Z.to_nat count));
  Some (mkTransportACK ordinal base high reliable missing state sends tick).

Definition ack_ok (a : transportACK) : Prop :=
  is_u16 (Ordinal a) /\ is_u16 (AVBase a) /\ is_u16 (AVHigh a) /\ is_u16 (ReliableRecvACK a)
  /\ is_u16 (State a) /\ is_u16 (SendCount a) /\ is_u16 (Tick a)
  /\ Forall is_u16 (Missing a) /\ len (Missing a) < 65536.

Lemma rd16_le16 h v t i :
  is_u16 v -> i = len h -> rd16 (h ++ le16 v ++ t) i = Some v.
Proof.
  intros Hv ->. unfold rd16. pose proof (len_nonneg h).
  rewrite !(rd_app_r h) by lia.
  rewrite !(rd_app_l (le16 v)) by (rewrite len_le16; lia).
  replace (len h - len h) with 0 by lia. replace (len h + 1 - len h) with 1 by lia.
  change (rd (le16 v) 0) with (Some (v mod 256)).
  change (rd (le16 v) 1) with (Some (v / 256 mod 256)).
  cbn [mbind option_bind]. f_equal. by apply le16_value.
Qed.

Lemma rd16_words h ms t :
  Forall is_u16 ms ->
  mapM (fun i => rd16 (h ++ flat_map le16 ms ++ t) (len h + 2 * Z.of_nat i))
    (seq 0 (length ms)) = Some ms.
Proof.
  intros Hms. apply mapM_Some_2, Forall2_same_length_lookup_2.
  { by rewrite length_seq. }
  intros i j x Hj Hx. apply lookup_seq in Hj as [-> _].
  rewrite <- (take_drop_middle ms i x Hx), flat_map_app. cbn [flat_map plus].
  rewrite <- !app_assoc, (app_assoc h). apply rd16_le16.
  - by eapply Forall_lookup_1 in Hms.
  - rewrite len_app. unfold len. rewrite length_flat_map_le16, length_take.
    apply lookup_lt_Some in Hx. lia.
Qed.

(** A 16-bit field at a fixed offset of a header. *)
Ltac field16 := refine (eq_trans _ (f_equal Some (le16_value _ _))); [reflexivity|done].

(** A receive report carries every field losslessly, its missing list included,
    and its size is 22 bytes plus two per reported hole, never below 24. *)
Theorem transportACK_roundtrip (a : transportACK) (Ha : ack_ok a) :
  ack_decode (marshal a) = Some a /\
  len (marshal a) = Z.max 24 (22 + 2 * len (Missing a)).
Proof.
  destruct a as [ord base high rel ms st sc tk].
  destruct Ha as (?&?&?&?&?&?&?&Hms&Hlen). cbn [Ordinal AVBase AVHigh ReliableRecvACK Missing
    State SendCount Tick] in *.
  rewrite marshal_eq. split.
  - unfold ack_decode. cbn [Missing].
    assert (forall i v, is_u16 v -> rd16 (ack_header (mkTransportACK ord base high rel ms st sc
        tk)) i = Some v -> 0 <= i < 21 ->
        rd16 (ack_header (mkTransportACK ord base high rel ms st sc tk) ++ flat_map le16 ms ++
        zeros (2 - 2 * length ms)) i = Some v) as Hfield.
    { intros i v Hv Hr Hi. unfold rd16 in *. by rewrite !rd_app_l by (unfold len; cbn; lia). }
    pose proof (u16_bound (len ms)).
    rewrite (Hfield 4 ord), (Hfield 8 base), (Hfield 10 high), (Hfield 12 rel),
      (Hfield 14 (u16 (len ms))), (Hfield 16 st), (Hfield 18 sc), (Hfield 20 tk)
      by (done || lia || field16).
    cbn [mbind option_bind].
    rewrite u16_small by (pose proof (len_nonneg ms); unfold is_u16; lia).
    unfold len at 1. rewrite Nat2Z.id.
    pose proof (rd16_words (ack_header (mkTransportACK ord base high rel ms st sc tk)) ms
      (zeros (2 - 2 * length ms)) Hms) as Hw.
    change (len (ack_header _)) with 22 in Hw. by rewrite Hw.
  - cbn [Missing]. rewrite !len_app. change (len (ack_header _)) with 22.
    unfold len. rewrite length_flat_map_le16, length_zeros. lia.
Qed.

Definition sample_ack : transportACK :=
  mkTransportACK 7 0x3fff 0x4003 1 [2; 3] 0 9 1234.

Lemma transportACK_roundtrip_witness :
  ack_ok sample_ack /\ ack_decode (marshal sample_ack) = Some sample_ack.
Proof.
  assert (ack_ok sample_ack) as H
    by (unfold ack_ok, is_u16; cbn; repeat split; try lia; repeat constructor; lia).
  split; [exact H|]. apply (transportACK_roundtrip sample_ack H).
Defined.

(** *** The login pair *)

Lemma loginPlain_ok b : bytes_ok (loginPlain b).
Proof. apply (bool_decide_unpack (Forall is_byte (loginPlain b))). destruct b; vm_compute; exact I. Qed.
Lemma length_loginPlain b : length (loginPlain b) = if b then 536%nat else 534%nat.
Proof. destruct b; vm_compute; reflexivity. Qed.

(** The concatenation the byte offsets of [buildLogin] amount to. *)
Definition login_body (isLogin1 : bool) : bytes :=
  zeros 245 ++ viewPassword ++ zeros 251 ++
  flat_map le32 (trailerFlag0 :: opcodeSupportCount :: opcodeSupportBitmap) ++
  [authTypePassword; 0; 0; 0; enableVideoOnConnect; 0; 0; 0] ++
  (if isLogin1 then [enableAudioOnConnect; 0] else []).

Definition login_wrapper (head : bytes) (serial : Z) : bytes :=
  take 20 head ++ le32 serial ++ viewAccount ++ zeros 7.

Lemma buildLogin_eq head serial b :
  length head = 24%nat ->
  buildLogin head serial b = login_wrapper head serial ++
                             ReverseTransCodePartial [] (loginPlain b).
Proof.
  intros Hl. unfold buildLogin. cbv zeta. f_equal. rewrite Hl.
  do 25 (destruct head as [|? head]; try discriminate Hl).
  unfold login_wrapper. stores_compute.
Qed.

(** Both login packets have the captured sizes, consecutive serials at offset
    0x14, the account name in the clear, and a body that the receiving direction
    of the cipher opens to the documented field layout. *)
Theorem login_pair_layout (seed : Z) (Hseed : is_u32 seed) :
  let '(a, b) := buildLoginPair seed in
  len a = 570 /\ len b = 572 /\
  at32 a 0x14 = seed /\ at32 b 0x14 = u32 (seed + 1) /\
  seg a 24 36 = viewAccount ++ zeros 7 /\ seg b 24 36 = viewAccount ++ zeros 7 /\
  TransCodePartial [] (drop 36 a) = login_body false /\
  TransCodePartial [] (drop 36 b) = login_body true.
Proof.
  unfold buildLoginPair. rewrite !buildLogin_eq by done.
  assert (forall head serial b, length head = 24%nat -> is_u32 serial ->
    let p := login_wrapper head serial ++ ReverseTransCodePartial [] (loginPlain b) in
    len p = (if b then 572 else 570) /\ at32 p 0x14 = serial /\
    seg p 24 36 = viewAccount ++ zeros 7 /\
    TransCodePartial [] (drop 36 p) = login_body b) as Hside.
  { intros head serial b Hl Hs p.
    assert (length (login_wrapper head serial) = 36%nat) as Hw
      by (do 25 (destruct head as [|? head]; try discriminate Hl); done).
    repeat split.
    - unfold p, len. rewrite length_app, length_ReverseTransCodePartial, length_loginPlain, Hw
        by apply loginPlain_ok. by destruct b.
    - do 25 (destruct head as [|? head]; try discriminate Hl).
      unfold at32, at16. unfold p. rewrite !at_app_l by (unfold len; rewrite Hw; lia).
      refine (eq_trans _ (le32_value _ Hs)). reflexivity.
    - do 25 (destruct head as [|? head]; try discriminate Hl). reflexivity.
    - unfold p. rewrite drop_app_length' by done.
      rewrite Trans_Reverse by apply loginPlain_ok. destruct b; vm_compute; reflexivity. }
  destruct (Hside loginAWrapperHead seed false eq_refl Hseed) as (?&?&?&?).
  destruct (Hside loginBWrapperHead (u32 (seed + 1)) true eq_refl (u32_bound _))
    as (?&?&?&?).
  repeat split; done.
Qed.

Lemma login_pair_layout_witness :
  is_u32 0xFFFFFFFF /\ at32 (buildLoginPair 0xFFFFFFFF).2 0x14 = 0.
Proof.
  assert (is_u32 0xFFFFFFFF) as H by (unfold is_u32; lia).
  split; [exact H|]. apply (login_pair_layout 0xFFFFFFFF H).
Defined.
