(* ===== verification/Media.v ===== *)
(** Classification of the camera's inner messages ([pkg/petlibro/assembler.go]):
    the two media layouts, the frame-info trailer, the reliable control family,
    the timing probe, and the outer framing checks of [parseDatagram].  All
    indexing is in the panic monad; that none of it panics is proved. *)

From S2P Require Import Prelude Crypto Wire.

Record decodedMedia := mkMedia {
  b1 : Z;
  channel : Z;
  subFlag : Z;
  subWire : Z;
  totalFrags : Z;
  fragIdx : Z;
  payloadLen : Z;
  frameNum : Z;
  nextFrameLike : Z;
  payload : bytes;
  extraLen : Z;
  isAudio : bool;
  isEnd : bool;
  extended : bool;
}.

#[export] Instance eta_media : Eta decodedMedia := fun m =>
  mkMedia (b1 m) (channel m) (subFlag m) (subWire m) (totalFrags m) (fragIdx m)
    (payloadLen m) (frameNum m) (nextFrameLike m) (payload m) (extraLen m)
    (isAudio m) (isEnd m) (extended m).

Definition noMedia : decodedMedia := mkMedia 0 0 0 0 0 0 0 0 0 [] 0 false false false.

(** ** The frame-info trailer *)

(** [(stripped, ts, onlineNum, hasTs)] *)
Definition stripFragmentMetadataTrailer (p : bytes) : option (bytes * Z * Z * bool) :=
  if decide (len p < 16) then Some (p, 0, 0, false) else
  t ← sub p (len p - 15) (len p);
  t0 ← rd t 0; t1 ← rd t 1; t2 ← rd t 2;
  let prefixOK := (t0 =? 0) && ((t1 =? 0) || (t1 =? 1)) && (t2 =? 0) in
  reserved ← mapM (rd t) [4;5;6;7;8;9;10];
  let zerosOK := forallb (Z.eqb 0) reserved in
  codec ← rd p (len p - 16);
  let codecIDOK := codec =? CodecH264 in
  if prefixOK && zerosOK && codecIDOK then
    ts ← rd32 t 11;
    stripped ← sub p 0 (len p - 16);
    online ← rd t 3;
    Some (stripped, ts, online, true)
  else Some (p, 0, 0, false).

(** ** The extended layout *)

Definition isExtendedMediaFamily (b : Z) : bool :=
  (b =? 0x08) || (b =? 0x09) || (b =? 0x0c) || (b =? 0x0d).

(** [(m, reason, ok)]; a rejected packet keeps the fields read so far. *)
Definition decodeExtendedMedia (inner : bytes) : option (decodedMedia * string * bool) :=
  b ← (if decide (2 <= len inner) then rd inner 1 else Some 0);
  if negb (isExtendedMediaFamily b)
  then Some (noMedia <| b1 := b |> <| extended := true |>, "not_extended_family"%string, false)
  else
  sw ← (if decide (28 <= len inner) then rd16 inner 26 else Some 0);
  if decide (len inner < 44)
  then Some (mkMedia b 0 0 sw 0 0 0 0 0 [] 0 false false true, "short_header"%string, false)
  else
  ch ← rd inner 24; sf ← rd inner 25;
  tf ← rd16 inner 28; fi ← rd16 inner 30; pl ← rd16 inner 32;
  fn ← rd32 inner 36; nf ← rd32 inner 40;
  let m := mkMedia b ch sf sw tf fi pl fn nf [] 0 false false true in
  if negb (ch =? innerChKey) && negb (ch =? innerChInter)
  then Some (m, "invalid_channel"%string, false) else
  if tf =? 0 then Some (m, "zero_total_frags"%string, false) else
  if pl =? 0 then Some (m, "zero_payload"%string, false) else
  let payloadEnd := 44 + pl in
  if len inner <? payloadEnd then Some (m, "payload_overflow"%string, false) else
  if negb (nf =? u32 (fn + 1)) then Some (m, "next_frame_incoherent"%string, false) else
  pay ← sub inner 44 payloadEnd;
  let m := mkMedia b ch sf sw tf fi pl fn nf pay (len inner - payloadEnd) false false true in
  '(_, _, _, hasTrailer) ← stripFragmentMetadataTrailer pay;
  if (b =? 0x08) || (b =? 0x0c) then
    if negb (sf =? 0) then Some (m, "data_sub_flag"%string, false) else
    if tf <=? fi then Some (m, "data_frag_out_of_range"%string, false) else
    if hasTrailer : bool then Some (m, "data_has_frameinfo"%string, false) else
    Some (m, "accepted"%string, true)
  else
    let m := m <| isEnd := true |> in
    if negb (sf =? 1) then Some (m, "end_sub_flag"%string, false) else
    if negb (fi =? 16) then Some (m, "end_frag_not_16"%string, false) else
    if negb hasTrailer then Some (m, "end_missing_frameinfo"%string, false) else
    Some (m, "accepted"%string, true).

(** ** The original layout *)

Definition payloadFrom (inner : bytes) (pl start : Z) : option bytes :=
  if negb (pl =? 0) && (start + pl <=? len inner)
  then sub inner start (start + pl) else sub inner start (len inner).

(** [inner[i] == a && inner[j] == b] *)
Definition bytesAre (inner : bytes) (i a j b : Z) : option bool :=
  x ← rd inner i; y ← rd inner j; Some ((x =? a) && (y =? b)).

Definition decodeNormalMedia (inner : bytes) : option (decodedMedia * bool) :=
  if decide (len inner < 36) then Some (noMedia, false) else
  b ← rd inner 1; ch ← rd inner 16; sf ← rd inner 17; sw ← rd16 inner 18;
  tf ← rd inner 20; fi ← rd16 inner 22; pl ← rd16 inner 24; fn ← rd32 inner 28;
  let m := mkMedia b ch sf sw tf fi pl fn 0 [] 0 false false false in
  let video := (ch =? innerChKey) || (ch =? innerChInter) in
  audioA ← (if (ch =? innerChAudio) && (sf =? 0x01) && (38 <=? len inner)
            then bytesAre inner 36 0xFF 37 0xF1 else Some false);
  audioB ← (if (ch =? innerChInter) && (sf =? 0x00) && (b =? 0x0d) && (46 <=? len inner)
            then bytesAre inner 44 0xFF 45 0xF1 else Some false);
  result ←
    (if video && ((b =? 0x00) || (b =? 0x04) || (b =? 0x05)) then
       if (pl =? 0) || (len inner <? 36 + pl) then Some (m, false) else
       pay ← payloadFrom inner pl 36; Some (m <| payload := pay |>, true)
     else if video && (b =? 0x01) && (sf =? 0x01) then
       pay ← payloadFrom inner pl 36; Some (m <| payload := pay |> <| isEnd := true |>, true)
     else if audioA : bool then
       pay ← payloadFrom inner pl 36;
       Some (m <| isAudio := true |> <| payload := pay |>, true)
     else if audioB : bool then
       full ← payloadFrom inner pl 36;
       pay ← (if decide (8 < len full) then sub full 8 (len full) else Some []);
       Some (m <| isAudio := true |> <| payload := pay |>, true)
     else Some (m, false));
  let '(m, ok) := result in
  if ok && isAudio m && (len (payload m) =? 0) then Some (m, false) else Some (m, ok).

Definition decodeBootstrapMedia (inner : bytes) : option (option decodedMedia) :=
  if decide (len inner = 0) then Some None else
  x0 ← rd inner 0;
  if negb (x0 =? 0x0c) then Some None else
  x1 ← rd inner 1;
  ext ← (if isExtendedMediaFamily x1 then
           '(media, _, ok) ← decodeExtendedMedia inner;
           Some (if ok : bool then Some media else None)
         else Some None);
  match ext with
  | Some media => Some (Some media)
  | None => '(media, ok) ← decodeNormalMedia inner;
            Some (if ok : bool then Some media else None)
  end.

(** ** Control messages *)

Definition reliableControlSequence (inner : bytes) : option (option Z) :=
  if decide (len inner < 20) then Some None else
  x0 ← rd inner 0; x1 ← rd inner 1;
  if negb (x0 =? 0x0c) || negb (Z.land x1 0x08 =? 0) then Some None else
  channelFamily ← rd16 inner 16;
  if existsb (Z.eqb channelFamily) [0x0000; 0x2000; 0x2100; 0x7100; 0x7200]
  then seq_ ← rd16 inner 18; Some (Some seq_) else
  if negb (existsb (Z.eqb channelFamily) [0x1000; 0x7000]) then Some None else
  if decide (len inner < 36) then Some None else
  x20 ← rd inner 20;
  if negb (x20 =? 1) then Some None else
  payloadLen ← rd32 inner 24;
  if len inner - 36 <? payloadLen then Some None else
  seq_ ← rd16 inner 18; Some (Some seq_).

Definition timingProbeResponse (inner : bytes) : option (option bytes) :=
  if decide (len inner < 10) then Some None else
  x0 ← rd inner 0; x1 ← rd inner 1;
  if negb (x0 =? 0x0a) || (Z.land x1 0x08 =? 0) then Some None else
  stamp ← rd16 inner 8;
  Some (Some (innerTimingFeedback 0 0 stamp 0)).

(** The body [debugIOCtrlResponse] decrypts and inspects. *)
Definition ioctlResponseBody (inner : bytes) : option (option bytes) :=
  if decide (len inner < 40) then Some None else
  paylen ← rd32 inner 24;
  if (paylen <? 4) || (len inner <? 36 + paylen) then Some None else
  body ← sub inner 36 (36 + paylen);
  Some (Some (xorBody body)).

(** ** Outer framing *)

(** The declared payload of an outer message, [pkt[0x1c : 0x1c+n-0x0c]]. *)
Definition outerInner (pkt : bytes) : option (option bytes) :=
  outerPayloadLen ← rd16 pkt 4;
  if (outerPayloadLen <=? 0x0c) || (len pkt - 0x1c <? outerPayloadLen - 0x0c)
  then Some None else
  inner ← sub pkt 0x1c (0x1c + outerPayloadLen - 0x0c);
  Some (Some inner).

(** The checks [parseDatagram] makes before it looks at the inner message. *)
Definition datagramInner (pkt : bytes) : option (option bytes) :=
  if decide (len pkt < 0x1C + 1) then Some None else
  flags ← rd pkt 3;
  if negb (flags =? flagsRecv) then Some None else
  mt ← rd16 pkt 8;
  if negb (mt =? msgSessionD2C) then Some None else
  outerInner pkt.

(** ** The trailer *)

(** [sub] and [rd] on an appended buffer. *)
Lemma sub_app_r s t a : a = len s -> sub (s ++ t) a (len (s ++ t)) = Some t.
Proof.
  intros ->. pose proof (len_nonneg s). pose proof (len_nonneg t).
  rewrite len_app, sub_in by (rewrite ?len_app; lia). by rewrite seg_app_exact.
Qed.
Lemma sub_app_l s t a : a = len s -> sub (s ++ t) 0 a = Some s.
Proof.
  intros ->. pose proof (len_nonneg s). pose proof (len_nonneg t).
  rewrite sub_in by (rewrite ?len_app; lia).
  unfold seg. f_equal. rewrite drop_0. unfold len. apply take_app_length'. lia.
Qed.

Lemma strip_app s x0 x1 x2 x3 x4 x5 x6 x7 x8 x9 x10 x11 x12 x13 x14 x15 :
  let t := [x0;x1;x2;x3;x4;x5;x6;x7;x8;x9;x10;x11;x12;x13;x14;x15] in
  stripFragmentMetadataTrailer (s ++ t) = Some (
    if (x1 =? 0) && ((x2 =? 0) || (x2 =? 1)) && (x3 =? 0) &&
       forallb (Z.eqb 0) [x5;x6;x7;x8;x9;x10;x11] && (x0 =? CodecH264)
    then (s, x12 + 256 * x13 + 65536 * (x14 + 256 * x15), x4, true)
    else (s ++ t, 0, 0, false)).
Proof.
  intros t. unfold stripFragmentMetadataTrailer.
  assert (len (s ++ t) = len s + 16) as Hlen by (rewrite len_app; done).
  pose proof (len_nonneg s). rewrite decide_False by lia.
  assert (sub (s ++ t) (len (s ++ t) - 15) (len (s ++ t)) =
          Some [x1;x2;x3;x4;x5;x6;x7;x8;x9;x10;x11;x12;x13;x14;x15]) as ->.
  { change t with ([x0] ++ [x1;x2;x3;x4;x5;x6;x7;x8;x9;x10;x11;x12;x13;x14;x15]) in *.
    rewrite app_assoc in *. apply sub_app_r. rewrite len_app in *. cbn in *.
    unfold len in *. cbn in *. lia. }
  assert (rd (s ++ t) (len (s ++ t) - 16) = Some x0) as ->.
  { rewrite rd_app_r by lia. by replace (len (s ++ t) - 16 - len s) with 0 by lia. }
  assert (sub (s ++ t) 0 (len (s ++ t) - 16) = Some s) as -> by (apply sub_app_l; lia).
  set (c := _ && _ && _ && forallb _ _ && _).
  transitivity (if c then Some (s, x12 + 256 * x13 + 65536 * (x14 + 256 * x15), x4, true)
                else Some (s ++ t, 0, 0, false)); [|by destruct c].
  unfold c. reflexivity.
Qed.

(** The 16 bytes the firmware appends to the last fragment of a frame. *)
Definition trailer (frameFlag onlineNum ts : Z) : bytes :=
  [CodecH264; 0; frameFlag; 0; onlineNum] ++ zeros 7 ++ le32 ts.

Lemma split_last16 (p : bytes) :
  16 <= len p -> exists s x0 x1 x2 x3 x4 x5 x6 x7 x8 x9 x10 x11 x12 x13 x14 x15,
    p = s ++ [x0;x1;x2;x3;x4;x5;x6;x7;x8;x9;x10;x11;x12;x13;x14;x15].
Proof.
  intros Hl. unfold len in Hl. rewrite <- (take_drop (length p - 16) p).
  exists (take (length p - 16) p).
  assert (length (drop (length p - 16) p) = 16%nat) as H by (rewrite length_drop; lia).
  generalize dependent (drop (length p - 16) p). intros t Ht.
  do 17 (destruct t as [|? t]; try discriminate Ht).
  repeat eexists.
Qed.

(** Stripping never panics, and when it finds no trailer the fragment comes back
    whole. *)
Lemma strip_total (p : bytes) :
  exists s ts on h, stripFragmentMetadataTrailer p = Some (s, ts, on, h) /\
    (h = false -> s = p /\ ts = 0 /\ on = 0).
Proof.
  destruct (decide (len p < 16)) as [Hs|Hs].
  - exists p, 0, 0, false. unfold stripFragmentMetadataTrailer. by rewrite decide_True.
  - destruct (split_last16 p ltac:(lia))
      as (s&x0&x1&x2&x3&x4&x5&x6&x7&x8&x9&x10&x11&x12&x13&x14&x15&->).
    rewrite strip_app. destruct (_ && _); repeat eexists; done || congruence.
Qed.

Lemma strip_trailer s flag on ts :
  flag = 0 \/ flag = 1 -> is_u32 ts ->
  stripFragmentMetadataTrailer (s ++ trailer flag on ts) = Some (s, ts, on, true).
Proof.
  intros Hflag Hts.
  change (trailer flag on ts) with [CodecH264; 0; flag; 0; on; 0; 0; 0; 0; 0; 0; 0;
    ts mod 256; ts / 256 mod 256; ts / 65536 mod 256; ts / 16777216 mod 256].
  rewrite strip_app, le32_value by done. by destruct Hflag; subst.
Qed.

Lemma strip_inv p s ts on :
  bytes_ok p -> stripFragmentMetadataTrailer p = Some (s, ts, on, true) ->
  exists flag, (flag = 0 \/ flag = 1) /\ is_u32 ts /\ is_byte on /\ p = s ++ trailer flag on ts.
Proof.
  intros Hok H. destruct (decide (len p < 16)) as [Hs|Hs].
  { unfold stripFragmentMetadataTrailer in H. by rewrite decide_True in H. }
  destruct (split_last16 p ltac:(lia))
    as (q&x0&x1&x2&x3&x4&x5&x6&x7&x8&x9&x10&x11&x12&x13&x14&x15&->).
  rewrite strip_app in H. destruct (_ && _) eqn:E; [|discriminate].
  rewrite !andb_true_iff in E. destruct E as [[[[E1 E2] E3] E4] E5].
  cbn [forallb] in E4. rewrite !andb_true_iff in E4.
  rewrite orb_true_iff in E2. rewrite !Z.eqb_eq in *. destruct_and!.
  apply bytes_ok_app in Hok as [_ Hok]. unfold bytes_ok in Hok.
  repeat match goal with H : Forall _ (_ :: _) |- _ => apply Forall_cons in H as [? H] end.
  simplify_eq. exists x2. split; [done|].
  unfold trailer. rewrite le32_of_bytes by done.
  split; [unfold is_byte, is_u32 in *; lia|]. done.
Qed.

(** The trailer codec: what the firmware appends is removed exactly, its
    timestamp and client count recovered, and only a fragment that really ends in
    such a block is cut. *)
Theorem trailer_roundtrip (p s : bytes) (ts on : Z) (Hp : bytes_ok p) :
  stripFragmentMetadataTrailer p = Some (s, ts, on, true) <->
  exists flag, (flag = 0 \/ flag = 1) /\ is_u32 ts /\ is_byte on /\
    p = s ++ trailer flag on ts.
Proof.
  split; [by apply strip_inv|].
  intros (flag & Hf & Hts & Hon & ->). by apply strip_trailer.
Qed.

Lemma trailer_roundtrip_witness :
  stripFragmentMetadataTrailer ([1; 2; 3] ++ trailer 1 2 77777) = Some ([1; 2; 3], 77777, 2, true).
Proof.
  apply (trailer_roundtrip ([1; 2; 3] ++ trailer 1 2 77777)).
  - bytes_lit.
  - exists 1. unfold is_u32, is_byte. repeat split; lia.
Defined.

(** ** Totality of the decoders *)

(** Resolve the reads and slices that the preceding guards keep in range. *)
Ltac read_step :=
  match goal with
  | |- context [rd ?l ?i] => rewrite (rd_in l i) by lia
  | |- context [rd16 ?l ?i] => rewrite (rd16_in l i) by lia
  | |- context [rd32 ?l ?i] => rewrite (rd32_in l i) by lia
  | |- context [sub ?l ?i ?j] => rewrite (sub_in l i j) by lia
  end.
Ltac reads := repeat (read_step; cbn [mbind option_bind]).

(** Whether a payload ends in frame info. *)
Definition hasTrailer (p : bytes) : bool :=
  match stripFragmentMetadataTrailer p with Some (_, _, _, h) => h | None => false end.

(** What a long enough extended packet decodes to. *)
Definition extended_fields (inner : bytes) : decodedMedia :=
  mkMedia (at_ inner 1) (at_ inner 24) (at_ inner 25) (at16 inner 26) (at16 inner 28)
    (at16 inner 30) (at16 inner 32) (at32 inner 36) (at32 inner 40)
    (seg inner 44 (44 + at16 inner 32)) (len inner - (44 + at16 inner 32))
    false ((at_ inner 1 =? 0x09) || (at_ inner 1 =? 0x0d)) true.

(** The acceptance conditions on the decoded fields. *)
Definition extended_wf (m : decodedMedia) : bool :=
  isExtendedMediaFamily (b1 m) && ((channel m =? innerChKey) || (channel m =? innerChInter)) &&
  negb (totalFrags m =? 0) && negb (payloadLen m =? 0) &&
  (nextFrameLike m =? u32 (frameNum m + 1)) &&
  (if isEnd m
   then (subFlag m =? 1) && (fragIdx m =? 16) && hasTrailer (payload m)
   else (subFlag m =? 0) && (fragIdx m <? totalFrags m) && negb (hasTrailer (payload m))).

Lemma hasTrailer_spec p :
  exists s ts on, stripFragmentMetadataTrailer p = Some (s, ts, on, hasTrailer p).
Proof.
  unfold hasTrailer. destruct (strip_total p) as (s & ts & on & h & -> & _). eauto.
Qed.

Lemma family_cases x :
  isExtendedMediaFamily x = true -> x = 0x08 \/ x = 0x09 \/ x = 0x0c \/ x = 0x0d.
Proof. unfold isExtendedMediaFamily. rewrite !orb_true_iff, !Z.eqb_eq. lia. Qed.

Lemma decode_extended_short inner :
  len inner < 44 -> exists m r, decodeExtendedMedia inner = Some (m, r, false).
Proof.
  intros Hl. pose proof (len_nonneg inner). unfold decodeExtendedMedia.
  destruct (decide (2 <= len inner)); reads; cbn [mbind option_bind]; cbv zeta;
    match goal with |- context [isExtendedMediaFamily ?x] =>
      destruct (isExtendedMediaFamily x) end; cbn [negb]; eauto;
    destruct (decide (28 <= len inner)); reads; cbn [mbind option_bind];
    rewrite decide_True by done; eauto.
Qed.

Lemma decode_extended_long inner :
  bytes_ok inner -> 44 <= len inner ->
  exists m r, let ok := (44 + at16 inner 32 <=? len inner) && extended_wf (extended_fields inner)
  in decodeExtendedMedia inner = Some (m, r, ok) /\ (ok = true -> m = extended_fields inner).
Proof.
  intros Hok Hl. unfold decodeExtendedMedia, extended_wf, extended_fields. cbv zeta.
  cbn [b1 channel subFlag totalFrags payloadLen nextFrameLike frameNum isEnd fragIdx payload].
  rewrite (decide_True (P := 2 <= len inner)) by lia. reads.
  destruct (isExtendedMediaFamily (at_ inner 1)) eqn:Hfam; cbn [negb andb];
    [|rewrite ?andb_false_r; do 2 eexists; split; [done|discriminate]].
  rewrite (decide_True (P := 28 <= len inner)) by lia. reads.
  cbn [mbind option_bind]. rewrite (decide_False (P := len inner < 44)) by lia. reads.
  destruct (at_ inner 24 =? innerChKey), (at_ inner 24 =? innerChInter); cbn [negb andb orb];
    try (rewrite ?andb_false_r; do 2 eexists; split; [done|discriminate]).
  all: destruct (at16 inner 28 =? 0); cbn [negb andb];
    [rewrite ?andb_false_r; do 2 eexists; split; [done|discriminate]|].
  all: destruct (at16 inner 32 =? 0); cbn [negb andb];
    [rewrite ?andb_false_r; do 2 eexists; split; [done|discriminate]|].
  all: rewrite (Z.ltb_antisym (44 + at16 inner 32) (len inner));
    destruct (44 + at16 inner 32 <=? len inner) eqn:Hpl; cbn [negb andb];
    [|do 2 eexists; split; [done|discriminate]].
  all: destruct (at32 inner 40 =? u32 (at32 inner 36 + 1)); cbn [negb andb];
    [|do 2 eexists; split; [done|discriminate]].
  all: apply Z.leb_le in Hpl; pose proof (at16_bound inner 32 Hok) as Hb;
    unfold is_u16 in Hb; reads;
    destruct (hasTrailer_spec (seg inner 44 (44 + at16 inner 32))) as (s & ts & on & ->);
    cbn [mbind option_bind].
  all: unfold upd;
    destruct (family_cases _ Hfam) as [Hx|[Hx|[Hx|Hx]]]; rewrite Hx; cbn [Z.eqb Pos.eqb orb].
  all: rewrite ?(Z.leb_antisym (at16 inner 30) (at16 inner 28)).
  all: destruct (at_ inner 25 =? 0), (at_ inner 25 =? 1), (at16 inner 30 <? at16 inner 28),
    (at16 inner 30 =? 16), (hasTrailer _); cbn [negb andb];
    do 2 eexists; (split; [reflexivity|]); try discriminate; intros _; reflexivity.
Qed.

(** ** The extended layout, exactly *)

(** A packet of the extended layout: the header fields at their offsets, [x0],
    [head] and [gap] being the bytes the decoder does not look at. *)
Definition extended_packet (m : decodedMedia) (x0 : Z) (head gap extra : bytes) : bytes :=
  [x0; b1 m] ++ head ++ [channel m; subFlag m] ++ le16 (subWire m) ++ le16 (totalFrags m) ++
  le16 (fragIdx m) ++ le16 (payloadLen m) ++ gap ++ le32 (frameNum m) ++
  le32 (nextFrameLike m) ++ payload m ++ extra.

Definition extended_media_ok (m : decodedMedia) : Prop :=
  is_u16 (subWire m) /\ is_u16 (totalFrags m) /\ is_u16 (fragIdx m) /\
  is_u16 (payloadLen m) /\ is_u32 (frameNum m) /\ is_u32 (nextFrameLike m) /\
  payloadLen m = len (payload m) /\ isAudio m = false /\ extended m = true /\
  isEnd m = ((b1 m =? 0x09) || (b1 m =? 0x0d)) /\ extended_wf m = true.

Lemma at16_le16 v l : is_u16 v -> at16 (le16 v ++ l) 0 = v.
Proof. apply le16_value. Qed.

Lemma extended_fields_packet m x0 head gap extra :
  length head = 22%nat -> length gap = 2%nat -> extended_media_ok m ->
  extraLen m = len extra ->
  extended_fields (extended_packet m x0 head gap extra) = m /\
  44 <= len (extended_packet m x0 head gap extra) /\
  at16 (extended_packet m x0 head gap extra) 32 = payloadLen m.
Proof.
  intros Hh Hg (Hw & Ht & Hf & Hp & Hn & Hx & Hpl & Ha & He & Hend & _) Hextra.
  do 23 (destruct head as [|? head]; try discriminate Hh).
  do 3 (destruct gap as [|? gap]; try discriminate Hg).
  destruct m as [b ch sf sw tf fi pl fn nf pay el au en ex].
  cbn [b1 channel subFlag subWire totalFrags fragIdx payloadLen frameNum nextFrameLike
    payload extraLen isAudio isEnd extended] in *.
  set (p := extended_packet _ _ _ _ _).
  assert (len p = 44 + pl + el) as Hlen.
  { subst p pl el. unfold extended_packet, len. cbn -[Z.of_nat Z.add].
    rewrite length_app. lia. }
  assert (at16 p 32 = pl) as H32 by (refine (eq_trans _ (le16_value _ Hp)); reflexivity).
  pose proof (len_nonneg pay). pose proof (len_nonneg extra).
  split; [|split; [lia|done]].
  unfold extended_fields. rewrite H32.
  assert (seg p 44 (44 + pl) = pay) as ->.
  { unfold seg. replace (Z.to_nat (44 + pl - 44)) with (length pay) by (unfold len in *; lia).
    change (drop (Z.to_nat 44) p) with (pay ++ extra). apply take_app_length. }
  subst au ex en. f_equal.
  - refine (eq_trans _ (le16_value _ Hw)). reflexivity.
  - refine (eq_trans _ (le16_value _ Ht)). reflexivity.
  - refine (eq_trans _ (le16_value _ Hf)). reflexivity.
  - refine (eq_trans _ (le32_value _ Hn)). reflexivity.
  - refine (eq_trans _ (le32_value _ Hx)). reflexivity.
  - lia.
Qed.

Lemma le16_at16 l i : bytes_ok l -> le16 (at16 l i) = [at_ l i; at_ l (i + 1)].
Proof.
  intros Hl. pose proof (at_bound l i Hl). pose proof (at_bound l (i + 1) Hl).
  unfold le16, at16. repeat f_equal; ints.
Qed.
Lemma le32_at32 l i :
  bytes_ok l -> le32 (at32 l i) = [at_ l i; at_ l (i + 1); at_ l (i + 2); at_ l (i + 2 + 1)].
Proof. intros Hl. unfold at32, at16. by rewrite le32_of_bytes by by apply at_bound. Qed.

Lemma packet_of_fields inner :
  bytes_ok inner -> 44 <= len inner -> 44 + at16 inner 32 <= len inner ->
  exists x0 head gap extra, length head = 22%nat /\ length gap = 2%nat /\
    inner = extended_packet (extended_fields inner) x0 head gap extra /\
    extraLen (extended_fields inner) = len extra /\
    len (payload (extended_fields inner)) = at16 inner 32.
Proof.
  intros Hok Hl Hpl. pose proof (at16_bound inner 32 Hok) as Hb. unfold is_u16 in Hb.
  assert (len (seg inner 44 (44 + at16 inner 32)) = at16 inner 32) as Hs
    by (rewrite len_seg; lia).
  set (extra := drop (Z.to_nat (44 + at16 inner 32)) inner).
  assert (inner = take 44 inner ++ seg inner 44 (44 + at16 inner 32) ++ extra) as Hsplit.
  { unfold seg, extra. rewrite <- (take_drop 44 inner) at 1. f_equal.
    rewrite <- (take_drop (Z.to_nat (at16 inner 32)) (drop 44 inner)) at 1.
    rewrite drop_drop. do 3 f_equal; lia. }
  assert (length (take 44 inner) = 44%nat) as Ht
    by (rewrite length_take; unfold len in *; lia).
  exists (at_ inner 0), (take 22 (drop 2 inner)), (take 2 (drop 34 inner)), extra.
  split; [rewrite length_take, length_drop; unfold len in *; lia|].
  split; [rewrite length_take, length_drop; unfold len in *; lia|].
  split; [|split; [unfold extra, extended_fields; cbn [extraLen]; unfold len in *;
                   rewrite length_drop; lia|done]].
  unfold extended_packet, extended_fields.
  cbn [b1 channel subFlag subWire totalFrags fragIdx payloadLen frameNum nextFrameLike payload].
  rewrite !le16_at16, !le32_at32 by done.
  set (body := seg inner 44 _ ++ extra) in *. clearbody body.
  set (h := take 44 inner) in *. clearbody h. clear Hs Hb Hpl Hl Hok extra. subst inner.
  do 45 (destruct h as [|? h]; try discriminate Ht). reflexivity.
Qed.

(** The extended decoder accepts exactly the encodings of well-formed media: the
    fields it returns are the packet's, the payload is the declared window, and
    no other packet passes. *)
Theorem extended_media_exact (inner : bytes) (m : decodedMedia) (Hinner : bytes_ok inner) :
  (exists r, decodeExtendedMedia inner = Some (m, r, true)) <->
  extended_media_ok m /\
  exists x0 head gap extra, length head = 22%nat /\ length gap = 2%nat /\
    extraLen m = len extra /\ inner = extended_packet m x0 head gap extra.
Proof.
  split.
  - intros [r Hr]. destruct (decide (len inner < 44)) as [Hs|Hs].
    { destruct (decode_extended_short inner Hs) as (? & ? & E). congruence. }
    destruct (decode_extended_long inner Hinner ltac:(lia)) as (m' & r' & E & Hm).
    rewrite Hr in E. injection E as <- <- Hok. specialize (Hm (eq_sym Hok)). subst m.
    symmetry in Hok. apply andb_true_iff in Hok as [Hpl Hwf]. apply Z.leb_le in Hpl.
    destruct (packet_of_fields inner Hinner ltac:(lia) Hpl)
      as (x0 & head & gap & extra & ? & ? & Heq & ? & Hlen).
    split; [|by exists x0, head, gap, extra].
    unfold extended_media_ok. repeat split; auto with wire;
      try (by apply at16_bound); by apply at32_bound.
  - intros (Hok & x0 & head & gap & extra & Hh & Hg & Hextra & ->).
    destruct (extended_fields_packet m x0 head gap extra Hh Hg Hok Hextra) as (Hf & Hl & Hp).
    destruct (decode_extended_long _ Hinner Hl) as (m' & r' & E & Hm).
    assert (44 + payloadLen m <= len (extended_packet m x0 head gap extra)) as Hfit.
    { assert (0 <= extraLen m) as Hx by (rewrite Hextra; apply len_nonneg).
      rewrite <- Hf in Hx at 1. unfold extended_fields in Hx. cbn [extraLen] in Hx. lia. }
    rewrite Hp, Hf in *. destruct Hok as (_&_&_&_&_&_&_&_&_&_&Hwf).
    rewrite Hwf, (proj2 (Z.leb_le _ _) Hfit) in *. cbn [andb] in *.
    rewrite (Hm eq_refl) in E. by exists r'.
Qed.

Definition sample_media : decodedMedia :=
  mkMedia 0x0c 0x05 0 0x4001 3 1 5 9 10 [1;2;3;4;5] 2 false false true.

Lemma extended_media_exact_witness :
  exists r, decodeExtendedMedia (extended_packet sample_media 0x0c (zeros 22) (zeros 2) [7;7])
            = Some (sample_media, r, true).
Proof.
  apply (extended_media_exact (extended_packet sample_media 0x0c (zeros 22) (zeros 2) [7;7])).
  - bytes_lit.
  - split.
    + unfold extended_media_ok, is_u16, is_u32. cbn. repeat split; lia.
    + exists 0x0c, (zeros 22), (zeros 2), [7;7]. repeat split.
Defined.

(** ** The original layout *)

Lemma payloadFrom_total inner pl :
  0 <= pl -> 36 <= len inner ->
  exists p, payloadFrom inner pl 36 = Some p /\ exists k, p = seg inner 36 k /\ 36 <= k <= len inner
    /\ (pl <> 0 -> 36 + pl <= len inner -> k = 36 + pl).
Proof.
  intros Hp Hl. unfold payloadFrom.
  destruct (pl =? 0) eqn:E0; cbn [negb andb].
  { reads. eexists; split; [done|]. exists (len inner). repeat split; try lia. }
  destruct (Z.leb_spec (36 + pl) (len inner)); reads;
    (eexists; split; [done|]); [exists (36 + pl)|exists (len inner)];
    repeat split; lia.
Qed.

Lemma bytesAre_total inner i a j b :
  0 <= i < len inner -> 0 <= j < len inner -> exists r, bytesAre inner i a j b = Some r.
Proof. intros. unfold bytesAre. reads. eauto. Qed.

(** A window of the message starting at the media header's end. *)
Definition is_window (inner p : bytes) : Prop :=
  exists a b, (a = 36 \/ a = 44) /\ a <= b <= len inner /\ p = seg inner a b.

(** What an accepted message of the original layout decodes to. *)
Definition normal_accepted (inner : bytes) (m : decodedMedia) : Prop :=
  extended m = false /\
  b1 m = at_ inner 1 /\ channel m = at_ inner 16 /\ subFlag m = at_ inner 17 /\
  subWire m = at16 inner 18 /\ totalFrags m = at_ inner 20 /\ fragIdx m = at16 inner 22 /\
  payloadLen m = at16 inner 24 /\ frameNum m = at32 inner 28 /\
  is_window inner (payload m) /\
  (channel m = innerChKey \/ channel m = innerChInter \/ channel m = innerChAudio) /\
  (isAudio m = false -> isEnd m = false -> len (payload m) = payloadLen m /\ 0 < payloadLen m) /\
  (isAudio m = true -> 0 < len (payload m)).

Lemma seg_seg l a b c :
  0 <= a <= b -> b <= len l -> 0 <= c <= b - a -> seg (seg l a b) c (b - a) = seg l (a + c) b.
Proof.
  intros. unfold seg. rewrite skipn_firstn_comm, take_take, drop_drop.
  f_equal; [lia|f_equal; lia].
Qed.

Lemma decodeNormalMedia_total inner :
  bytes_ok inner ->
  exists m ok, decodeNormalMedia inner = Some (m, ok) /\
    (ok = true -> 36 <= len inner /\ normal_accepted inner m).
Proof.
  intros Hok. unfold decodeNormalMedia. case_decide as Hl.
  { do 2 eexists. split; [done|]. discriminate. }
  reads. pose proof (at16_bound inner 24 Hok) as Hpl. unfold is_u16 in Hpl.
  destruct (payloadFrom_total inner (at16 inner 24) ltac:(lia) ltac:(lia))
    as (p & -> & k & Hp & Hk & Hfit).
  assert (len p = k - 36) as Hlp by (subst p; rewrite len_seg; lia).
  assert (is_window inner p) as Hwin by (exists 36, k; auto).
  set (m0 := mkMedia _ _ _ _ _ _ _ _ _ _ _ _ _ _).
  destruct (if (at_ inner 16 =? innerChAudio) && _ && _ then _ else _) as [audioA|] eqn:EA.
  2:{ revert EA. destruct (_ && (38 <=? _)) eqn:E; [|discriminate].
      rewrite !andb_true_iff, Z.leb_le in E.
      destruct (bytesAre_total inner 36 0xFF 37 0xF1 ltac:(lia) ltac:(lia)) as [? ->].
      discriminate. }
  destruct (if _ && _ && (_ =? 0x0d) && (46 <=? _) then _ else _) as [audioB|] eqn:EB.
  2:{ revert EB. destruct (_ && (46 <=? _)) eqn:E; [|discriminate].
      rewrite !andb_true_iff, Z.leb_le in E.
      destruct (bytesAre_total inner 44 0xFF 45 0xF1 ltac:(lia) ltac:(lia)) as [? ->].
      discriminate. }
  cbn [mbind option_bind].
  assert (audioA = true -> at_ inner 16 = innerChAudio) as HA.
  { intros ->. destruct (_ && (38 <=? _)) eqn:E; [|discriminate].
    rewrite !andb_true_iff, !Z.eqb_eq in E. tauto. }
  assert (audioB = true -> at_ inner 16 = innerChInter) as HB.
  { intros ->. destruct (_ && (46 <=? _)) eqn:E; [|discriminate].
    rewrite !andb_true_iff, !Z.eqb_eq in E. tauto. }
  clear EA EB.
  assert (forall q, is_window inner q \/ q = [] ->
    (at_ inner 16 = innerChKey \/ at_ inner 16 = innerChInter \/ at_ inner 16 = innerChAudio) ->
    let m := m0 <| isAudio := true |> <| payload := q |> in
    exists m' ok, (if true && isAudio m && (len (payload m) =? 0)
      then Some (m, false) else Some (m, true)) = Some (m', ok) /\
      (ok = true -> 36 <= len inner /\ normal_accepted inner m')) as Haudio.
  { intros q Hq Hch m. subst m m0. unfold upd. cbn.
    pose proof (len_nonneg q). destruct (Z.eqb_spec (len q) 0) as [E|E];
      (do 2 eexists; split; [reflexivity|]); [discriminate|]. intros _.
    destruct Hq as [Hq| ->]; [|done].
    unfold normal_accepted. cbn. repeat split; auto; intuition lia. }
  match goal with |- context [if audioA then ?x else ?y] =>
    set (rest := if audioA then x else y) end.
  assert (exists m ok, (rest ≫= fun '(m, ok) =>
      if ok && isAudio m && (len (payload m) =? 0) then Some (m, false) else Some (m, ok))
      = Some (m, ok) /\ (ok = true -> 36 <= len inner /\ normal_accepted inner m)) as Hrest.
  { subst rest. destruct audioA; [|destruct audioB]; cbn [mbind option_bind].
    - apply Haudio; tauto.
    - case_decide; [rewrite sub_in by lia|]; cbn [mbind option_bind]; apply Haudio; try tauto.
      left. exists 44, k. rewrite Hp at 1. rewrite Hlp, seg_seg by lia. repeat split; auto; lia.
    - do 2 eexists. split; [reflexivity|discriminate]. }
  destruct ((at_ inner 16 =? innerChKey) || (at_ inner 16 =? innerChInter)) eqn:Hvideo;
    cbn [andb].
  1: apply orb_true_iff in Hvideo; rewrite !Z.eqb_eq in Hvideo;
     destruct (_ || (at_ inner 1 =? 5)); [|destruct ((at_ inner 1 =? 1) && _)].
  - destruct (_ || (len inner <? _)) eqn:E; cbn [mbind option_bind andb].
    { do 2 eexists. split; [done|]. discriminate. }
    apply orb_false_iff in E as [E1%Z.eqb_neq E2%Z.ltb_ge].
    do 2 eexists. split; [reflexivity|]. intros _. split; [lia|].
    unfold normal_accepted, upd, m0. cbn. repeat split; auto; intuition lia.
  - cbn [mbind option_bind andb]. do 2 eexists. split; [reflexivity|]. intros _.
    split; [lia|]. unfold normal_accepted, upd, m0. cbn.
    repeat split; auto; try discriminate; intuition lia.
  - exact Hrest.
  - exact Hrest.
Qed.
