(* ===== verification/Classify.v ===== *)
(** The classifiers of [Media]: they never panic, they tell control from media,
    and what the builders of [Wire] frame is what they take apart. *)

From S2P Require Import Prelude Crypto Wire Media.

(** ** Nothing panics *)

Lemma decodeExtendedMedia_total inner :
  bytes_ok inner -> exists m r ok, decodeExtendedMedia inner = Some (m, r, ok).
Proof.
  intros Hok. destruct (decide (len inner < 44)) as [Hl|Hl].
  - destruct (decode_extended_short inner Hl) as (m & r & ->). eauto.
  - destruct (decode_extended_long inner Hok ltac:(lia)) as (m & r & -> & _). eauto.
Qed.

Lemma reliableControlSequence_total inner :
  bytes_ok inner -> exists r, reliableControlSequence inner = Some r.
Proof.
  intros Hok. unfold reliableControlSequence. case_decide; [eauto|]. reads.
  destruct (_ || _); [eauto|]. destruct (existsb _ _); [eauto|].
  destruct (existsb _ _); cbn [negb]; [|eauto]. case_decide; [eauto|]. reads.
  destruct (negb _); [eauto|]. destruct (_ <? _); eauto.
Qed.

Lemma ioctlResponseBody_total inner :
  bytes_ok inner -> exists r, ioctlResponseBody inner = Some r.
Proof.
  intros Hok. unfold ioctlResponseBody. case_decide; [eauto|]. reads.
  destruct (_ || _) eqn:E; [eauto|].
  apply orb_false_iff in E as [E1%Z.ltb_ge E2%Z.ltb_ge]. reads. eauto.
Qed.

Lemma datagramInner_total pkt :
  bytes_ok pkt -> exists r, datagramInner pkt = Some r /\
    forall inner, r = Some inner -> 0 < len inner /\ bytes_ok inner.
Proof.
  intros Hok. unfold datagramInner, outerInner.
  case_decide; [by eexists|]. reads.
  do 2 (destruct (negb _); [by eexists|]). reads. destruct (_ || _) eqn:E; [by eexists|].
  apply orb_false_iff in E as [E1%Z.leb_gt E2%Z.ltb_ge]. reads.
  eexists; split; [done|]. intros ? [= <-]. rewrite len_seg by lia.
  split; [lia|auto with wire].
Qed.

Lemma decodeBootstrapMedia_total inner :
  bytes_ok inner -> 2 <= len inner -> exists r, decodeBootstrapMedia inner = Some r.
Proof.
  intros Hok Hl. unfold decodeBootstrapMedia. rewrite decide_False by lia. reads.
  destruct (negb _); [eauto|].
  destruct (decodeNormalMedia_total inner Hok) as (m & ok & -> & _).
  destruct (isExtendedMediaFamily _); cbn [mbind option_bind].
  - destruct (decodeExtendedMedia_total inner Hok) as (m' & r & ok' & ->). cbn.
    destruct ok'; eauto.
  - eauto.
Qed.

(** The classifiers never index out of range, whatever bytes arrive; the one
    message that would panic is the single byte 0x0c handed to
    [decodeBootstrapMedia]. *)
Theorem decoders_never_panic (inner : bytes) (Hinner : bytes_ok inner) :
  is_Some (datagramInner inner) /\ is_Some (decodeExtendedMedia inner) /\
  is_Some (decodeNormalMedia inner) /\ is_Some (reliableControlSequence inner) /\
  is_Some (timingProbeResponse inner) /\ is_Some (ioctlResponseBody inner) /\
  is_Some (stripFragmentMetadataTrailer inner) /\
  (decodeBootstrapMedia inner = None <-> inner = [0x0c]).
Proof.
  destruct (datagramInner_total inner Hinner) as (? & -> & _).
  destruct (decodeExtendedMedia_total inner Hinner) as (? & ? & ? & ->).
  destruct (decodeNormalMedia_total inner Hinner) as (? & ? & -> & _).
  destruct (reliableControlSequence_total inner Hinner) as (? & ->).
  destruct (ioctlResponseBody_total inner Hinner) as (? & ->).
  destruct (strip_total inner) as (? & ? & ? & ? & -> & _).
  repeat match goal with |- _ /\ _ => split; [by eauto|] end.
  assert (is_Some (timingProbeResponse inner)) as Ht.
  { unfold timingProbeResponse. case_decide; [eauto|]. reads. destruct (_ || _); eauto. }
  repeat (split; [by eauto|]). split; [|by intros ->].
  intros H. destruct (decide (2 <= len inner)) as [Hl|Hl].
  - destruct (decodeBootstrapMedia_total inner Hinner Hl). congruence.
  - destruct inner as [|z [|y l]]; [done| |unfold len in Hl; cbn in Hl; lia].
    destruct (decide (z = 12)) as [->|Hz]; [done|]. exfalso.
    unfold decodeBootstrapMedia in H. change (rd [z] 0) with (Some z) in H.
    cbn [mbind option_bind] in H. rewrite (proj2 (Z.eqb_neq _ _) Hz) in H. done.
Qed.

Lemma decoders_never_panic_witness : is_Some (decodeExtendedMedia [0x0c; 0x0d]).
Proof. apply (decoders_never_panic [0x0c; 0x0d]). bytes_lit. Defined.

(** ** Control and media are told apart *)

Lemma bootstrap_channel inner m :
  bytes_ok inner -> decodeBootstrapMedia inner = Some (Some m) ->
  (isExtendedMediaFamily (at_ inner 1) = true \/
   at_ inner 16 = innerChKey \/ at_ inner 16 = innerChInter \/ at_ inner 16 = innerChAudio).
Proof.
  intros Hok. unfold decodeBootstrapMedia. case_decide; [done|].
  intros (x0 & _ & H1)%bind_Some_inv. destruct (negb _); [done|].
  apply bind_Some_inv in H1 as (x1 & Hx & H1).
  destruct (decide (2 <= len inner)).
  2:{ unfold rd, len in *. rewrite decide_True in Hx by lia.
      apply lookup_lt_Some in Hx. lia. }
  rewrite rd_in in Hx by lia. injection Hx as <-.
  destruct (isExtendedMediaFamily (at_ inner 1)); [auto|].
  cbn [mbind option_bind] in H1.
  destruct (decodeNormalMedia_total inner Hok) as (m' & ok & Hn & Ha).
  rewrite Hn in H1. cbn in H1. destruct ok; [|done].
  destruct (Ha eq_refl) as (_ & _ & _ & Hch & _ & _ & _ & _ & _ & _ & _ & Hc & _).
  rewrite Hch in Hc. auto.
Qed.

(** No message is both reliable control and media, so the order in which
    [parseDatagram] and the bootstrap loop try the two does not matter. *)
Theorem control_media_disjoint (inner : bytes) (s : Z) (m : decodedMedia)
    (Hinner : bytes_ok inner) (Hcontrol : reliableControlSequence inner = Some (Some s)) :
  decodeBootstrapMedia inner <> Some (Some m).
Proof.
  intros Hm. unfold reliableControlSequence in Hcontrol.
  destruct (decide (len inner < 20)); [done|]. revert Hcontrol. reads.
  destruct (_ || _) eqn:E; [done|].
  apply orb_false_iff in E as [_ E%negb_false_iff%Z.eqb_eq].
  assert (forall x, x <> 0 -> is_byte x -> at_ inner 16 = x ->
    existsb (Z.eqb (at16 inner 16)) [0x0000; 0x2000; 0x2100; 0x7100; 0x7200] = false /\
    existsb (Z.eqb (at16 inner 16)) [0x1000; 0x7000] = false) as Hlow.
  { intros x Hx Hb Hat. unfold at16. rewrite Hat.
    pose proof (at_bound inner (16 + 1) Hinner) as Hhi.
    cbn [existsb]. rewrite !orb_false_iff, !Z.eqb_neq. unfold is_byte in *. lia. }
  destruct (bootstrap_channel inner m Hinner Hm) as [Hf|Hch].
  - destruct (family_cases _ Hf) as [Hx|[Hx|[Hx|Hx]]]; rewrite Hx in E; discriminate.
  - assert (at_ inner 16 <> 0 /\ is_byte (at_ inner 16)) as [H1 H2].
    { unfold innerChKey, innerChInter, innerChAudio, is_byte in *. lia. }
    destruct (Hlow _ H1 H2 eq_refl) as [-> ->]. done.
Qed.

Lemma control_media_disjoint_witness :
  decodeBootstrapMedia (innerData 1 0x1000 7 [1;2;3;4]) <> Some (Some sample_media).
Proof.
  apply (control_media_disjoint _ 7 sample_media); [bytes_lit|vm_compute; reflexivity].
Defined.

(** ** Round trips through the framing *)

(** What [buildOuter] frames is what the receive path extracts, for every body
    that fits the 16-bit length. *)
Theorem outer_roundtrip (nonce body : bytes) (seq_ datatype channelID flags : Z)
    (Hnonce : length nonce = 8%nat) (Hbody : 0 < len body <= 65523) :
  outerInner (buildOuter nonce seq_ body datatype channelID flags) = Some (Some body).
Proof.
  rewrite buildOuter_eq, u16_small by (done || (unfold is_u16; lia)).
  set (h := outer_header _ _ _ _ _ _).
  assert (len h = 28) as Hh.
  { unfold h, outer_header, len. rewrite !length_app, Hnonce. done. }
  assert (rd16 (h ++ body) 4 = Some (len body + 12)) as H4.
  { rewrite rd16_in by (rewrite ?len_app; lia). f_equal.
    rewrite <- (le16_value (len body + 12)) by (unfold is_u16; lia). reflexivity. }
  unfold outerInner. rewrite H4. cbn [mbind option_bind]. rewrite len_app, Hh.
  destruct (Z.leb_spec (len body + 12) 12); [lia|].
  destruct (Z.ltb_spec (28 + len body - 28) (len body + 12 - 12)); [lia|].
  cbn [orb]. rewrite sub_in by (rewrite ?len_app; lia). cbn [mbind option_bind].
  replace (28 + (len body + 12) - 12) with (28 + len body) by lia.
  by rewrite seg_app_exact.
Qed.

Lemma outer_roundtrip_witness :
  outerInner (buildOuter (zeros 8) 7 [9;8;7] 1 1 0x0a) = Some (Some [9;8;7]).
Proof. apply (outer_roundtrip (zeros 8) [9;8;7]); [reflexivity|unfold len; cbn; lia]. Defined.

Lemma xorBody_involutive b : xorBody (xorBody b) = b.
Proof.
  unfold xorBody. 
  apply list_eq; intros i. rewrite !list_lookup_imap.
  destruct (b !! i); cbn; [|done]. by rewrite lxor_cancel.
Qed.

(** The IOCtrl envelope: a message the client builds is recognised as reliable
    control with its sequence number, and its body decrypts to the payload. *)
Theorem ioctl_roundtrip (counter family seq_ : Z) (payload : bytes)
    (Hfamily : family = 0x1000 \/ family = 0x7000) (Hseq : is_u16 seq_)
    (Hlen : 4 <= len payload < 4294967260) :
  reliableControlSequence (innerData counter family seq_ payload) = Some (Some seq_) /\
  ioctlResponseBody (innerData counter family seq_ payload) = Some (Some payload).
Proof.
  rewrite innerData_eq, u32_small by (unfold is_u32; lia).
  set (h := inner_header _ _ _ _). set (x := xorBody payload).
  assert (len h = 36) as Hh by done.
  assert (len x = len payload) as Hx by (unfold len, x; by rewrite length_xorBody).
  assert (forall i, 0 <= i < 36 -> rd (h ++ x) i = rd h i) as Hrd
    by (intros; apply rd_app_l; lia).
  assert (rd16 (h ++ x) 16 = Some family) as H16.
  { unfold rd16. rewrite !Hrd by lia. transitivity (Some (family mod 256 + 256 * (family / 256 mod 256)));
      [reflexivity|f_equal; apply le16_value; unfold is_u16; lia]. }
  assert (rd16 (h ++ x) 18 = Some seq_) as H18.
  { unfold rd16. rewrite !Hrd by lia. transitivity (Some (seq_ mod 256 + 256 * (seq_ / 256 mod 256)));
      [reflexivity|f_equal; by apply le16_value]. }
  assert (rd32 (h ++ x) 24 = Some (len payload)) as H24.
  { unfold rd32, rd16. rewrite !Hrd by lia.
    refine (eq_trans _ (f_equal Some (le32_value (len payload) _)));
      [reflexivity|unfold is_u32; lia]. }
  assert (len (h ++ x) = 36 + len payload) as Hl by (rewrite len_app; lia).
  split.
  - unfold reliableControlSequence. rewrite decide_False by lia.
    rewrite (Hrd 0), (Hrd 1) by lia. rewrite H16, H18.
    destruct Hfamily as [-> | ->]; cbn [mbind option_bind existsb Z.eqb Pos.eqb orb negb];
      change (rd h 0) with (Some 12); change (rd h 1) with (Some 0);
      cbn [mbind option_bind Z.eqb Pos.eqb orb negb Z.land];
      rewrite decide_False, (Hrd 20), H24 by lia; change (rd h 20) with (Some 1);
      cbn [mbind option_bind Z.eqb Pos.eqb negb]; rewrite Hl;
      by destruct (Z.ltb_spec (36 + len payload - 36) (len payload)); [lia|].
  - unfold ioctlResponseBody. rewrite decide_False, H24 by lia. cbn [mbind option_bind].
    rewrite Hl. destruct (Z.ltb_spec (len payload) 4); [lia|].
    rewrite Z.ltb_irrefl. cbn [orb]. rewrite sub_in by lia. cbn [mbind option_bind].
    rewrite <- Hx, seg_app_exact by done.
    unfold x. by rewrite xorBody_involutive.
Qed.

Lemma ioctl_roundtrip_witness :
  ioctlResponseBody (innerData 5 0x7000 9 (ioctlBody12 ioctlGetVideoModeReq)) =
  Some (Some (ioctlBody12 ioctlGetVideoModeReq)).
Proof.
  apply (ioctl_roundtrip 5 0x7000 9 (ioctlBody12 ioctlGetVideoModeReq));
    [lia|unfold is_u16; lia|vm_compute; split; [discriminate|reflexivity]].
Defined.
