(* ===== verification/Stats.v ===== *)
(** The stream-health counters of [pkg/petlibro/client.go] and the periodic
    report of [dumpStats] ([pkg/petlibro/recv.go]). *)

From S2P Require Import Prelude.

(** The fields of [counters], which are those of [countersSnapshot]. *)
Module Ctr.
Inductive t : Set :=
| bytesIn | pktsIn | keyFrags | interFrags | audioFrags | otherFrags | vidFrags |
vidFramesIn | vidFramesOut | vidDropped | fragSkips | fragsLost | forceDrains |
recvTimeouts | readerDrops | emitDrops | fragIdxGap | frameNumJumpKey |
frameNumJumpInter | expectedDataShortfall | zeroDataHardDrop | strictIDRDrop |
strictPDrop | forceDrainFlush | forceDrainEntries | deferredDrop | framesWithLoss |
idrFramesWithLoss | pFramesWithLoss | missingFragmentsTotal | maxMissingFragmentsInFrame
| normalMediaPackets | extendedMediaCandidates | extendedMediaParsed |
extendedMediaRejected | extendedMediaDataPackets | extendedMediaEndPackets |
extendedMediaRarePackets | unknown0c08Remaining | unknown0c0dRemaining |
sequenceSeenButUnhandled | sequenceSeenAndAssembled | frameInfoChanges |
frameInfoUnexpected | frameInfoCodec | frameInfoFlag | frameInfoOnlineNum |
transportACKReceived | timingProbesReceived | timingResponsesSent |
timingFeedbackReceived | reliableRecvACK | ackNACKCount | ackSendCount | ackWatermark |
ackSeenPending | ackSeenRanges | ackTrackingOverflow | ackDuplicateOrOld | ackAdvanced |
ackHigh | ackSent | ackPrevLow16 | ackCurrentLow16.
#[global] Instance t_eq_dec : EqDecision t.
Proof. solve_decision. Defined.
End Ctr.

(** The struct of atomics, as the value of each field. *)
Definition counters : Type := Ctr.t -> Z.

Definition no_counters : counters := fun _ => 0.
Definition Store (k : Ctr.t) (v : Z) (c : counters) : counters :=
  fun k' => if decide (k' = k) then v else c k'.
Definition Add (k : Ctr.t) (n : Z) (c : counters) : counters := Store k (u64 (c k + n)) c.

(** [if old := maxX.Load(); v > old maxX.Store(v)] *)
Definition StoreMax (k : Ctr.t) (v : Z) (c : counters) : counters :=
  if c k <? v then Store k v c else c.

Lemma Store_same k v c : Store k v c k = v.
Proof. unfold Store. by rewrite decide_True. Qed.
Lemma Store_other k k' v c : k' <> k -> Store k v c k' = c k'.
Proof. intros. unfold Store. by rewrite decide_False. Qed.
Lemma Add_other k k' n c : k' <> k -> Add k n c k' = c k'.
Proof. apply Store_other. Qed.

(** ** The report *)

(** The [delta] literal of [dumpStats]: gauges are reported as they stand,
    counters as the difference since the previous report. *)
Definition delta_counters (cur prev : counters) (k : Ctr.t) : Z :=
  match k with
  | Ctr.maxMissingFragmentsInFrame | Ctr.frameInfoCodec | Ctr.frameInfoFlag |
  Ctr.frameInfoOnlineNum | Ctr.reliableRecvACK | Ctr.ackNACKCount | Ctr.ackSendCount |
  Ctr.ackWatermark | Ctr.ackSeenPending | Ctr.ackSeenRanges | Ctr.ackHigh |
  Ctr.ackPrevLow16 | Ctr.ackCurrentLow16 => cur k
  | _ => u64 (cur k - prev k)
  end.

Definition is_gauge (k : Ctr.t) : bool :=
  match k with
  | Ctr.maxMissingFragmentsInFrame | Ctr.frameInfoCodec | Ctr.frameInfoFlag |
  Ctr.frameInfoOnlineNum | Ctr.reliableRecvACK | Ctr.ackNACKCount | Ctr.ackSendCount |
  Ctr.ackWatermark | Ctr.ackSeenPending | Ctr.ackSeenRanges | Ctr.ackHigh |
  Ctr.ackPrevLow16 | Ctr.ackCurrentLow16 => true
  | _ => false
  end.

Record dumpState := mkDump {
  prevStats : counters;
  havePrevStats : bool;
  ackCurrStallWarned : bool;
  stallStatsActive : bool;
  stallStatsRepeat : Z;
  stallControlPkts : Z;
  stallStatsWatermark : Z;
  stallStatsHigh : Z;
  stallStatsCurrent : Z;
  stallStatsPending : Z;
}.

Definition dump_init : dumpState := mkDump no_counters false false false 0 0 0 0 0 0.

(** The lines [dumpStats] logs. *)
Inductive dumpLine :=
| AckStalledWarning (watermark high current pending : Z)
| StalledLine (repeat controlOnlyPackets : Z) (delta : counters)
| StatsLine (delta : counters).

(** [dumpStats], on the snapshot [cur] it takes: the lines logged and the state
    left behind. *)
Definition dumpStats (cur : counters) (d : dumpState) : list dumpLine * dumpState :=
  let delta := if havePrevStats d then delta_counters cur (prevStats d) else cur in
  let stallNow := havePrevStats d &&
    (cur Ctr.ackCurrentLow16 =? prevStats d Ctr.ackCurrentLow16) &&
    (prevStats d Ctr.ackHigh <? cur Ctr.ackHigh) && negb (ackCurrStallWarned d) in
  let warn := if stallNow
    then [AckStalledWarning (cur Ctr.ackWatermark) (cur Ctr.ackHigh)
            (u16 (cur Ctr.ackCurrentLow16)) (cur Ctr.ackSeenPending)] else [] in
  let warned :=
    if stallNow then true
    else if negb (havePrevStats d) ||
            negb (cur Ctr.ackCurrentLow16 =? prevStats d Ctr.ackCurrentLow16)
         then false else ackCurrStallWarned d in
  let stalled := (delta Ctr.keyFrags =? 0) && (delta Ctr.interFrags =? 0) &&
    (delta Ctr.audioFrags =? 0) && (delta Ctr.vidFramesIn =? 0) in
  let sameStallState := stallStatsActive d &&
    (cur Ctr.ackWatermark =? stallStatsWatermark d) && (cur Ctr.ackHigh =? stallStatsHigh d) &&
    (cur Ctr.ackCurrentLow16 =? stallStatsCurrent d) &&
    (cur Ctr.ackSeenPending =? stallStatsPending d) in
  if stalled && sameStallState then
    let repeat := u64 (stallStatsRepeat d + 1) in
    let control := u64 (stallControlPkts d + delta Ctr.otherFrags) in
    (warn ++ [StalledLine repeat control delta],
     mkDump cur (havePrevStats d) warned (stallStatsActive d) repeat control
       (stallStatsWatermark d) (stallStatsHigh d) (stallStatsCurrent d) (stallStatsPending d))
  else
    (warn ++ [StatsLine delta],
     mkDump cur true warned stalled 0 (delta Ctr.otherFrags)
       (cur Ctr.ackWatermark) (cur Ctr.ackHigh) (cur Ctr.ackCurrentLow16)
       (cur Ctr.ackSeenPending)).

(** A sequence of reports. *)
Fixpoint dumps (curs : list counters) (d : dumpState) : list (list dumpLine) * dumpState :=
  match curs with
  | [] => ([], d)
  | cur :: rest =>
      let '(lines, d1) := dumpStats cur d in
      let '(more, d2) := dumps rest d1 in (lines :: more, d2)
  end.

(** The interval a report prints. *)
Definition line_delta (l : dumpLine) : option counters :=
  match l with
  | AckStalledWarning _ _ _ _ => None
  | StalledLine _ _ d | StatsLine d => Some d
  end.
Definition reported (k : Ctr.t) (lines : list (list dumpLine)) : Z :=
  foldr Z.add 0 ((fun d => d k) <$> omap line_delta (concat lines)).

(** A stall is only tracked after a first report. *)
Definition dump_inv (d : dumpState) : Prop :=
  stallStatsActive d = true -> havePrevStats d = true.

Lemma dump_init_inv : dump_inv dump_init.
Proof. discriminate. Qed.

Lemma dumpStats_step cur d lines d' :
  dump_inv d -> dumpStats cur d = (lines, d') ->
  dump_inv d' /\ prevStats d' = cur /\ havePrevStats d' = true /\
  omap line_delta lines =
    [if havePrevStats d then delta_counters cur (prevStats d) else cur].
Proof.
  unfold dump_inv, dumpStats. intros Hinv H.
  set (delta := if havePrevStats d then _ else _) in *.
  destruct (stallStatsActive d) eqn:Ha;
    destruct (_ && _ && _ && negb (ackCurrStallWarned d)) eqn:E in H;
    repeat match type of H with context [if ?b then _ else _] =>
      let E := fresh in destruct b eqn:E end;
    injection H as <- <-; cbn in *;
    rewrite ?andb_false_r in *; try discriminate; repeat split; auto.
Qed.

Lemma delta_mod cur prev k :
  is_gauge k = false -> delta_counters cur prev k = u64 (cur k - prev k).
Proof. by destruct k. Qed.

Lemma reported_cons k l ls :
  reported k (l :: ls) = foldr Z.add 0 ((fun d => d k) <$> omap line_delta l) + reported k ls.
Proof.
  unfold reported. cbn [concat]. rewrite omap_app, fmap_app, foldr_app.
  match goal with |- foldr Z.add ?r ?xs = _ => generalize r, xs end.
  intros r xs. induction xs as [|x xs IH]; cbn [foldr]; lia.
Qed.

(** The reports partition the running totals: whatever stalls are detected in
    between, the intervals printed for a counter add up to its current value
    (modulo 2^64), so no packet is reported twice or never. *)
Theorem dump_intervals_telescope (curs : list counters) (last : counters) (k : Ctr.t)
    (Hk : is_gauge k = false) (Hlast : 0 <= last k < 18446744073709551616) :
  u64 (reported k (fst (dumps (curs ++ [last]) dump_init))) = last k.
Proof.
  assert (forall cs d, dump_inv d -> havePrevStats d = true ->
    u64 (prevStats d k + reported k (fst (dumps (cs ++ [last]) d))) = last k) as Hrun.
  { induction cs as [|c cs IH]; intros d Hinv Hp; cbn [app dumps].
    - destruct (dumpStats last d) as [ls d'] eqn:E.
      destruct (dumpStats_step _ _ _ _ Hinv E) as (_ & _ & _ & Ho). cbn [fst].
      rewrite reported_cons, Ho, Hp. cbn. rewrite delta_mod by done. ints.
    - destruct (dumpStats c d) as [ls d'] eqn:E.
      destruct (dumpStats_step _ _ _ _ Hinv E) as (Hinv' & Hc & Hp' & Ho).
      destruct (dumps (cs ++ [last]) d') as [more d2] eqn:E2. cbn [fst].
      rewrite reported_cons, Ho, Hp. cbn. rewrite delta_mod by done.
      specialize (IH d' Hinv' Hp'). rewrite E2, Hc in IH. cbn [fst] in IH.
      revert IH. generalize (reported k more). intros r IH. ints. }
  destruct curs as [|c cs]; cbn [app dumps].
  - destruct (dumpStats last dump_init) as [ls d'] eqn:E.
    destruct (dumpStats_step _ _ _ _ dump_init_inv E) as (_ & _ & _ & Ho). cbn [fst].
    rewrite reported_cons, Ho. cbn. ints.
  - destruct (dumpStats c dump_init) as [ls d'] eqn:E.
    destruct (dumpStats_step _ _ _ _ dump_init_inv E) as (Hinv' & Hc & Hp' & Ho).
    specialize (Hrun cs d' Hinv' Hp').
    destruct (dumps (cs ++ [last]) d') as [more d2]. cbn [fst] in *.
    rewrite reported_cons, Ho. cbn. rewrite <- Hrun, Hc. ints.
Qed.

Lemma dump_intervals_telescope_witness :
  u64 (reported Ctr.pktsIn (fst (dumps ([Store Ctr.pktsIn 3 no_counters;
    Store Ctr.pktsIn 3 no_counters] ++ [Store Ctr.pktsIn 10 no_counters]) dump_init))) = 10.
Proof.
  apply (dump_intervals_telescope [Store Ctr.pktsIn 3 no_counters; Store Ctr.pktsIn 3 no_counters]
    (Store Ctr.pktsIn 10 no_counters) Ctr.pktsIn); [reflexivity|].
  vm_compute; split; [discriminate|reflexivity].
Defined.
