(* ===== verification/Ack.v ===== *)
(** Receive-side acknowledgement state ([pkg/petlibro/recv.go]): the extended
    sequence counter, the received ranges above the contiguous watermark, the
    windows the receive reports describe, and the reliable control stream. *)

From S2P Require Import Prelude Crypto Wire Stats.

(** ** The extended sequence counter ([wrapSeq]) *)

Definition extend (w wire : Z) : option Z :=
  let lastWire := u16 w in
  let fwd := Z.land (u16 (wire - lastWire)) 0xFFFF in
  if fwd <? 0x8000 then Some (u64 (w + fwd)) else
  let back := Z.land (u16 (lastWire - wire)) 0xFFFF in
  if w <? back then None else Some (w - back).

Definition advanceTo (w wire : Z) : Z :=
  match extend w wire with
  | Some newExt => if w <? newExt then newExt else w
  | None => w
  end.

(** ** The tracker's state *)

Definition maxTransportNACKs : Z := 256.
Definition maxACKSeenRanges : Z := 256.

Record ackSeenRange := mkRange { first : Z; last : Z }.

(** The fields of [Client] under [ackMu].  [ackGapStarted] is [None] for the
    zero time. *)
Record ackState := mkAck {
  ackReportedExt : Z;
  ackWatermarkExt : Z;
  ackHighExt : Z;
  ackSeenRanges : list ackSeenRange;
  ackSeenPending : Z;
  reliableRecvACK : Z;
  reliableRecvSet : bool;
  reliableSeen : gset Z;
  ackSendCount : Z;
  ackGapStarted : option Z;
  ackPendingWarn : Z;
}.

Definition ack_zero : ackState := mkAck 0 0 0 [] 0 0 false ∅ 0 None 0.

Definition initACKTracking (watermark : Z) (a : ackState) (st : counters) : ackState * counters :=
  (mkAck watermark watermark watermark [] 0 (reliableRecvACK a) (reliableRecvSet a)
     (reliableSeen a) (ackSendCount a) (ackGapStarted a) 32,
   Store Ctr.ackCurrentLow16 (u16 watermark) (Store Ctr.ackPrevLow16 (u16 watermark)
     (Store Ctr.ackHigh watermark (Store Ctr.ackSeenRanges 0
       (Store Ctr.ackSeenPending 0 (Store Ctr.ackWatermark watermark st)))))).

(** [(inserted, duplicate, ranges)]; [n] is the number of ranges held. *)
Fixpoint insertACKSeenLocked (n subExt : Z) (rs : list ackSeenRange)
    : bool * bool * list ackSeenRange :=
  match rs with
  | [] => if maxACKSeenRanges <=? n then (false, false, [])
          else (true, false, [mkRange subExt subExt])
  | r :: rest =>
      if (first r <=? subExt) && (subExt <=? last r) then (false, true, rs) else
      if u64 (subExt + 1) =? first r then (true, false, mkRange subExt (last r) :: rest) else
      if subExt =? u64 (last r + 1) then
        match rest with
        | r' :: rest' =>
            if u64 (subExt + 1) =? first r'
            then (true, false, mkRange (first r) (last r') :: rest')
            else (true, false, mkRange (first r) subExt :: rest)
        | [] => (true, false, [mkRange (first r) subExt])
        end else
      if subExt <? first r then
        if maxACKSeenRanges <=? n then (false, false, rs)
        else (true, false, mkRange subExt subExt :: rs)
      else let '(i, d, rest') := insertACKSeenLocked n subExt rest in (i, d, r :: rest')
  end.

(** The loop joining ranges to the contiguous prefix: watermark, positions
    gained, ranges left. *)
Fixpoint advanceWatermark (watermark advanced : Z) (rs : list ackSeenRange)
    : Z * Z * list ackSeenRange :=
  match rs with
  | r :: rest =>
      if first r =? u64 (watermark + 1)
      then advanceWatermark (last r) (u64 (advanced + u64 (last r - watermark))) rest
      else (watermark, advanced, rs)
  | [] => (watermark, advanced, [])
  end.

Definition second : Z := 1000000000.

(** [verbose && !traceACK] is [quiet]; [now] is the clock. *)
Definition markACKReceived (quiet : bool) (now subExt : Z) (a : ackState) (st : counters)
    : ackState * counters :=
  let '(high, st) := if ackHighExt a <? subExt then (subExt, Store Ctr.ackHigh subExt st)
                     else (ackHighExt a, st) in
  let keep rs := mkAck (ackReportedExt a) (ackWatermarkExt a) high rs (ackSeenPending a)
    (reliableRecvACK a) (reliableRecvSet a) (reliableSeen a) (ackSendCount a)
    (ackGapStarted a) (ackPendingWarn a) in
  if subExt <=? ackWatermarkExt a
  then (keep (ackSeenRanges a), Add Ctr.ackDuplicateOrOld 1 st) else
  let '(inserted, duplicate, ranges) :=
    insertACKSeenLocked (len (ackSeenRanges a)) subExt (ackSeenRanges a) in
  if duplicate : bool then (keep ranges, Add Ctr.ackDuplicateOrOld 1 st) else
  if negb inserted
  then (keep ranges, Store Ctr.ackSeenRanges (len ranges) (Add Ctr.ackTrackingOverflow 1 st)) else
  let pending := u64 (ackSeenPending a + 1) in
  let '(watermark, advanced, ranges) := advanceWatermark (ackWatermarkExt a) 0 ranges in
  let moved := negb (advanced =? 0) in
  let pending := if moved then u64 (pending - advanced) else pending in
  let st := if moved then Add Ctr.ackAdvanced advanced st else st in
  let gap := match ackGapStarted a with
    | Some t => if moved && quiet && (second <=? now - t) then Some now else Some t
    | None => None
    end in
  let '(gap, warn) :=
    if pending =? 0 then (None, 32) else
    let gap := match gap with None => Some now | Some t => Some t end in
    let warn := if quiet && (ackPendingWarn a <=? pending)
                then u64 (ackPendingWarn a * 2) else ackPendingWarn a in (gap, warn) in
  (mkAck (ackReportedExt a) watermark high ranges pending (reliableRecvACK a)
     (reliableRecvSet a) (reliableSeen a) (ackSendCount a) gap warn,
   Store Ctr.ackSeenRanges (len ranges) (Store Ctr.ackSeenPending pending
     (Store Ctr.ackWatermark watermark st))).

Definition contiguousAckExt (a : ackState) : Z := ackWatermarkExt a.

(** ** Report windows *)

Record ackWindow := mkWindow {
  baseExt : Z;
  highExt : Z;
  contiguousExt : Z;
  missing : list Z;
  seenPending : Z;
}.

(** [for rangeIndex < len && ranges[rangeIndex].last < seq { rangeIndex++ }]; the
    index is the suffix it leaves. *)
Fixpoint skipRanges (seq_ : Z) (rs : list ackSeenRange) : list ackSeenRange :=
  match rs with
  | r :: rest => if last r <? seq_ then skipRanges seq_ rest else rs
  | [] => []
  end.

(** The scan over [base+1 .. high]; the result is the high end kept and the
    missing offsets. *)
Fixpoint scanWindow (fuel : nat) (seq_ high base watermark : Z) (rs : list ackSeenRange)
    (miss : list Z) : option (Z * list Z) :=
  if high <? seq_ then Some (high, miss) else
  match fuel with
  | O => None
  | S fuel =>
      let next := u64 (seq_ + 1) in
      if seq_ <=? watermark then scanWindow fuel next high base watermark rs miss else
      let rs := skipRanges seq_ rs in
      let seen := match rs with
        | r :: _ => (first r <=? seq_) && (seq_ <=? last r)
        | [] => false
        end in
      if seen then scanWindow fuel next high base watermark rs miss else
      if len miss =? maxTransportNACKs then Some (u64 (seq_ - 1), miss) else
      scanWindow fuel next high base watermark rs (miss ++ [u16 (u64 (seq_ - base))])
  end.

(** One unit per position, and one to notice the end. *)
Definition scan_fuel (base high : Z) : nat := S (Z.to_nat (high - base)).

Definition ackWindowLocked (a : ackState) : option ackWindow :=
  let base := ackReportedExt a in
  let high := if 0xffff <? u64 (ackHighExt a - base) then u64 (base + 0xffff)
              else ackHighExt a in
  '(high, miss) ← scanWindow (scan_fuel base high) (u64 (base + 1)) high base (ackWatermarkExt a)
                    (ackSeenRanges a) [];
  Some (mkWindow base high (ackWatermarkExt a) miss (ackSeenPending a)).

Definition markTransportACKSent (w : ackWindow) (a : ackState) : ackState :=
  let reported := if highExt w <? contiguousExt w then highExt w else contiguousExt w in
  if ackReportedExt a <? reported
  then mkAck reported (ackWatermarkExt a) (ackHighExt a) (ackSeenRanges a) (ackSeenPending a)
    (reliableRecvACK a) (reliableRecvSet a) (reliableSeen a) (ackSendCount a)
    (ackGapStarted a) (ackPendingWarn a)
  else a.

Definition transportACKLocked (a : ackState) (ordinal base high : Z) (miss : list Z) (tick : Z)
    : transportACK * ackState :=
  (mkTransportACK ordinal base high (reliableRecvACK a) miss 0 (ackSendCount a) tick,
   mkAck (ackReportedExt a) (ackWatermarkExt a) (ackHighExt a) (ackSeenRanges a)
     (ackSeenPending a) (reliableRecvACK a) (reliableRecvSet a) (reliableSeen a)
     (u16 (ackSendCount a + 1)) (ackGapStarted a) (ackPendingWarn a)).

Definition nextTransportACK (a : ackState) (ordinal tick : Z)
    : option (transportACK * ackWindow * ackState) :=
  w ← ackWindowLocked a;
  let '(r, a') := transportACKLocked a ordinal (u16 (baseExt w)) (u16 (highExt w)) (missing w) tick in
  Some (r, w, a').

Definition nextTransportACKForRange (a : ackState) (ordinal base high : Z) (miss : list Z)
    (tick : Z) : transportACK * ackState :=
  transportACKLocked a ordinal base high miss tick.

(** ** The reliable control stream *)

Fixpoint joinReliable (fuel : nat) (ack : Z) (seen : gset Z) : option (Z * gset Z) :=
  match fuel with
  | O => None
  | S fuel =>
      let next := u16 (ack + 1) in
      if decide (next ∈ seen) then joinReliable fuel next (seen ∖ {[next]})
      else Some (ack, seen)
  end.

Definition withReliable (a : ackState) (ack : Z) (set : bool) (seen : gset Z) : ackState :=
  mkAck (ackReportedExt a) (ackWatermarkExt a) (ackHighExt a) (ackSeenRanges a)
    (ackSeenPending a) ack set seen (ackSendCount a) (ackGapStarted a) (ackPendingWarn a).

Definition acceptReliableControl (seq_ : Z) (a : ackState) (st : counters)
    : option (ackState * counters) :=
  if negb (reliableRecvSet a)
  then Some (withReliable a seq_ true (reliableSeen a), Store Ctr.reliableRecvACK seq_ st) else
  let delta := u16 (seq_ - reliableRecvACK a) in
  if (delta =? 0) || (0x8000 <=? delta) then Some (a, st) else
  if negb (delta =? 1)
  then Some (withReliable a (reliableRecvACK a) true ({[seq_]} ∪ reliableSeen a), st) else
  '(ack, seen) ← joinReliable (S (size (reliableSeen a))) seq_ (reliableSeen a);
  Some (withReliable a ack true seen, Store Ctr.reliableRecvACK ack st).
