(* ===== verification/AckFacts.v ===== *)
(** The receive reports never lie: the tracker of [Ack] refines a set of received
    positions, its windows describe that set exactly, no interleaving of reception
    and reporting acknowledges a packet that did not arrive, and the reliable
    control stream is acknowledged in order. *)

From Stdlib Require Import Sorting.Sorted.
From S2P Require Import Prelude Crypto Wire Stats Ack.

(** ** Extending the wire counter *)

Lemma land_ffff x : Z.land x 0xFFFF = x mod 65536.
Proof. change 0xFFFF with (Z.ones 16). by rewrite Z.land_ones by lia. Qed.

(** The counter is recovered across wrap-arounds: the result is the one position
    with the received low 16 bits in the half-open window around the current
    position, and a fragment is refused exactly when that position lies before
    the start of the sequence. *)
Theorem extend_exact (w wire e : Z) (Hw : 0 <= w < 18446744073709518848) (Hwire : is_u16 wire) :
  extend w wire = Some e <-> 0 <= e /\ u16 e = wire /\ w - 0x8000 <= e < w + 0x8000.
Proof.
  unfold extend. rewrite !land_ffff. unfold u16, u64, is_u16 in *.
  rewrite !(Z.mod_mod _ 65536) by lia.
  destruct (Z.ltb_spec ((wire - w mod 65536) mod 65536) 32768).
  - rewrite Z.mod_small by ints. split; [intros [= <-]|intros; f_equal]; ints.
  - destruct (Z.ltb_spec w ((w mod 65536 - wire) mod 65536)).
    + split; [done|]. intros. exfalso. ints.
    + split; [intros [= <-]|intros; f_equal]; ints.
Qed.

Lemma extend_exact_witness : extend 0x1FFFE 0x0003 = Some 0x20003.
Proof. apply (extend_exact 0x1FFFE 0x0003 0x20003); unfold is_u16, u16; [lia|lia|]. vm_compute. repeat split; congruence. Defined.

Lemma extend_bounds w wire e :
  0 <= w < 18446744073709518848 -> is_u16 wire -> extend w wire = Some e ->
  0 <= e /\ w - 0x8000 <= e < w + 0x8000 /\ u16 e = wire.
Proof.
  unfold extend. rewrite !land_ffff. unfold u16, u64, is_u16 in *. intros Hw Hwire.
  rewrite !(Z.mod_mod _ 65536) by lia.
  destruct (Z.ltb_spec ((wire - w mod 65536) mod 65536) 32768).
  - rewrite Z.mod_small by ints. intros [= <-]. ints.
  - destruct (Z.ltb_spec w ((w mod 65536 - wire) mod 65536)); [done|]. intros [= <-]. ints.
Qed.

Lemma advanceTo_mono w wire : w <= advanceTo w wire.
Proof. unfold advanceTo. destruct (extend w wire); [|lia]. destruct (Z.ltb_spec w z); lia. Qed.

(** ** Received ranges as a set *)

Fixpoint covered (x : Z) (rs : list ackSeenRange) : Prop :=
  match rs with
  | [] => False
  | r :: rest => first r <= x <= last r \/ covered x rest
  end.

(** Sorted, disjoint and not adjacent, above [lo] and up to [top]. *)
Fixpoint ranges_wf (lo top : Z) (rs : list ackSeenRange) : Prop :=
  match rs with
  | [] => True
  | r :: rest => lo < first r /\ first r <= last r /\ last r <= top /\
                 ranges_wf (last r + 1) top rest
  end.

Fixpoint positions (rs : list ackSeenRange) : Z :=
  match rs with
  | [] => 0
  | r :: rest => last r - first r + 1 + positions rest
  end.

Lemma covered_above lo top rs x : ranges_wf lo top rs -> covered x rs -> lo < x <= top.
Proof.
  revert lo. induction rs as [|r rs IH]; intros lo; [done|].
  intros (? & ? & ? & Hrs) [|Hc]; [lia|]. specialize (IH _ Hrs Hc). lia.
Qed.

Lemma ranges_wf_weaken lo lo' top top' rs :
  lo' <= lo -> top <= top' -> ranges_wf lo top rs -> ranges_wf lo' top' rs.
Proof.
  revert lo lo'. induction rs as [|r rs IH]; intros lo lo' Hl Ht; [done|].
  intros (? & ? & ? & Hrs). repeat split; try lia. eapply IH, Hrs; lia.
Qed.

Lemma positions_bounds lo top rs :
  ranges_wf lo top rs -> 0 <= positions rs /\ (rs <> [] -> lo + positions rs <= top).
Proof.
  revert lo. induction rs as [|r rs IH]; intros lo; [done|].
  intros (G1 & G2 & G3 & Hrs). destruct (IH _ Hrs) as [Hp1 Hp2]. cbn [positions].
  split; [lia|]. intros _. destruct rs as [|r' rs]; [cbn; lia|].
  specialize (Hp2 ltac:(done)). lia.
Qed.

Definition max64 : Z := 18446744073709551615.

(** The branches that insert: well-formedness, the count and the number of ranges
    are arithmetic; what remains is that the position is new and which positions
    are covered. *)
Ltac inserted :=
  refine (conj _ (conj _ (conj (fun _ => conj eq_refl (conj _ (conj _ (conj _ _)))) _)));
  [cbn; repeat split; lia || done|discriminate| |intros x|cbn [positions first last]; lia
  |rewrite ?len_cons; unfold len; cbn [length]; lia|discriminate].

(** Inserting a position above the watermark, on every branch. *)
Lemma insert_spec n s rs lo top :
  ranges_wf lo top rs -> lo < s <= top -> 0 <= lo -> top < max64 ->
  let '(i, d, rs') := insertACKSeenLocked n s rs in
  ranges_wf lo top rs' /\
  (d = true -> i = false /\ covered s rs /\ rs' = rs) /\
  (i = true -> d = false /\ ~ covered s rs /\ (forall x, covered x rs' <-> covered x rs \/ x = s) /\
     positions rs' = positions rs + 1 /\
     (len rs' <= len rs \/ n < maxACKSeenRanges /\ len rs' = len rs + 1)) /\
  (i = false -> d = false -> ~ covered s rs /\ rs' = rs /\ maxACKSeenRanges <= n).
Proof.
  unfold max64. revert lo. induction rs as [|r rs IH]; intros lo Hwf Hs Hlo Htop.
  { cbn [insertACKSeenLocked]. destruct (Z.leb_spec maxACKSeenRanges n).
    - split; [done|]. split; [done|]. split; [done|]. intros _ _. split; [tauto|]. done.
    - cbn. repeat split; intros; try done; try lia; try tauto. }
  pose proof Hwf as (H1 & H2 & H3 & Hrs). cbn [insertACKSeenLocked].
  rewrite !(u64_small (s + 1)), (u64_small (last r + 1)) by (unfold is_u64; lia).
  assert (forall x, covered x rs -> last r + 1 < x) as Habove
    by (intros x Hx; eapply covered_above in Hx; [|done]; lia).
  destruct ((first r <=? s) && (s <=? last r)) eqn:E.
  { rewrite andb_true_iff, !Z.leb_le in E. split; [done|].
    split; [intros _; cbn; tauto|]. split; discriminate. }
  rewrite andb_false_iff, !Z.leb_gt in E.
  assert (s <> last r + 1 -> s < first r -> ~ covered s (r :: rs)) as Hnew.
  { cbn. intros ? ? [|Hc%Habove]; lia. }
  destruct (Z.eqb_spec (s + 1) (first r)) as [Ef|Ef].
  { inserted. { apply Hnew; lia. } cbn [covered first last]. intuition lia. }
  destruct (Z.eqb_spec s (last r + 1)) as [El|El].
  { assert (~ covered s (r :: rs)) as Hn by (cbn; intros [|Hc%Habove]; lia).
    destruct rs as [|r' rs'].
    - inserted; [done|]. cbn [covered first last]. intuition lia.
    - destruct Hrs as (H4 & H5 & H6 & Hrs').
      destruct (Z.eqb_spec (s + 1) (first r')) as [En|En];
        (inserted; [done|]); cbn [covered first last]; [|intuition lia].
      destruct (decide (x <= s)); intuition lia. }
  destruct (Z.ltb_spec s (first r)) as [Eb|Eb].
  { destruct (Z.leb_spec maxACKSeenRanges n) as [En|En].
    - split; [done|]. split; [done|]. split; [done|]. intros _ _. split; [|done].
      apply Hnew; lia.
    - inserted; [apply Hnew; lia|]. cbn [covered first last]. intuition lia. }
  specialize (IH (last r + 1) Hrs ltac:(lia) ltac:(lia) Htop).
  destruct (insertACKSeenLocked n s rs) as [[i d] rs'].
  destruct IH as (Hwf' & Hd & Hi & Hf). split; [cbn; repeat split; lia || done|].
  split; [intros ->; destruct (Hd eq_refl) as (-> & ? & ->); cbn; tauto|].
  split.
  - intros ->. destruct (Hi eq_refl) as (-> & Hn & Hc & Hp & Hl).
    split; [done|]. split; [cbn; intros [|]; [lia|done]|].
    split; [intros x; cbn; rewrite Hc; tauto|]. split; [cbn; lia|].
    rewrite !len_cons. lia.
  - intros -> ->. destruct (Hf eq_refl eq_refl) as (Hn & -> & ?).
    split; [cbn; intros [|]; [lia|done]|done].
Qed.

Lemma advance_spec rs : forall wm adv top wm' adv' rs',
  ranges_wf wm top rs -> 0 <= wm -> top < max64 -> 0 <= adv -> adv + positions rs <= max64 ->
  advanceWatermark wm adv rs = (wm', adv', rs') ->
  wm <= wm' /\ ranges_wf (wm' + 1) top rs' /\ adv' = adv + (wm' - wm) /\
  positions rs = positions rs' + (wm' - wm) /\ (rs <> [] -> wm' <= top) /\ len rs' <= len rs /\
  (rs = [] -> wm' = wm) /\
  (forall x, x <= wm' \/ covered x rs' <-> x <= wm \/ covered x rs).
Proof.
  unfold max64. induction rs as [|r rs IH]; intros wm adv top wm' adv' rs' Hwf Hwm Htop Hadv Hpos H.
  { injection H as <- <- <-. cbn. repeat split; try done; try lia; tauto. }
  destruct Hwf as (H1 & H2 & H3 & Hrs). cbn [advanceWatermark] in H.
  rewrite u64_small in H by (unfold is_u64; lia).
  destruct (positions_bounds _ _ _ Hrs) as [Hp _]. cbn [positions] in Hpos.
  destruct (Z.eqb_spec (first r) (wm + 1)) as [E|E].
  - rewrite (u64_small (last r - wm)), u64_small in H by (unfold is_u64; lia).
    apply (IH _ _ top) in H as (G1 & G2 & G3 & G4 & G5 & G6 & G7 & G8);
      [|by (eapply ranges_wf_weaken; [| |exact Hrs]; lia)|lia|lia|lia|lia].
    rewrite len_cons. cbn [positions covered].
    assert (wm' <= top) by (destruct rs; [specialize (G7 eq_refl); lia|by apply G5]).
    repeat split; try done; try lia.
    + intros Hx%G8. destruct (decide (x <= wm)); [tauto|]. right.
      destruct Hx; [left; lia|tauto].
    + intros Hx. apply G8. destruct Hx as [|[|]]; [left; lia|left; lia|tauto].
  - injection H as <- <- <-. pose proof (len_nonneg (r :: rs)). cbn [ranges_wf].
    repeat split; try done; try lia; tauto.
Qed.

(** ** The tracker's invariant and its specification *)

(** Positions stay far enough from 2^64 for a window to be scanned past them. *)
Definition seq_top : Z := 18446744073709486080.

Definition seen (a : ackState) (x : Z) : Prop :=
  x <= ackWatermarkExt a \/ covered x (ackSeenRanges a).

Record ack_inv (a : ackState) : Prop := {
  inv_reported : 0 <= ackReportedExt a <= ackWatermarkExt a;
  inv_high : ackWatermarkExt a <= ackHighExt a < seq_top;
  inv_ranges : ranges_wf (ackWatermarkExt a + 1) (ackHighExt a) (ackSeenRanges a);
  inv_pending : ackSeenPending a = positions (ackSeenRanges a);
  inv_cap : len (ackSeenRanges a) <= maxACKSeenRanges;
}.

(** The watermark is exact: everything up to it was seen and the next position
    was not. *)
Lemma watermark_exact a :
  ack_inv a -> (forall x, x <= ackWatermarkExt a -> seen a x) /\ ~ seen a (ackWatermarkExt a + 1).
Proof.
  intros [? ? Hr _ _]. split; [by left|]. intros [|Hc]; [lia|].
  eapply covered_above in Hc; [|exact Hr]. lia.
Qed.

(** When the tracker must refuse a position: every range slot is taken and the
    position touches none of them. *)
Definition overflows (a : ackState) (s : Z) : bool :=
  (ackWatermarkExt a <? s) &&
  match insertACKSeenLocked (len (ackSeenRanges a)) s (ackSeenRanges a) with
  | (false, false, _) => true
  | _ => false
  end.

Lemma mark_cases quiet now s a st :
  ack_inv a -> 0 <= s < seq_top ->
  let a' := fst (markACKReceived quiet now s a st) in
  ack_inv a' /\ ackReportedExt a' = ackReportedExt a /\
  ackHighExt a' = Z.max (ackHighExt a) s /\
  (overflows a s = false -> forall x, seen a' x <-> seen a x \/ x = s) /\
  (overflows a s = true -> (forall x, seen a' x <-> seen a x) /\ ~ seen a s /\
     len (ackSeenRanges a) = maxACKSeenRanges).
Proof.
  intros [Hrep Hhigh Hr Hpend Hcap] Hs. unfold seq_top in *.
  assert (exists high st', (if ackHighExt a <? s then (s, Store Ctr.ackHigh s st)
    else (ackHighExt a, st)) = (high, st') /\ high = Z.max (ackHighExt a) s) as (high & st' & E & Eh).
  { destruct (Z.ltb_spec (ackHighExt a) s); do 2 eexists; (split; [done|]); lia. }
  unfold markACKReceived. rewrite E. clear E. unfold overflows.
  assert (ranges_wf (ackWatermarkExt a + 1) high (ackSeenRanges a)) as Hr'
    by (eapply ranges_wf_weaken; [| |exact Hr]; lia).
  destruct (Z.leb_spec s (ackWatermarkExt a)) as [Hold|Hnew].
  { replace (ackWatermarkExt a <? s) with false by (symmetry; apply Z.ltb_ge; lia).
    cbn. split; [split; cbn; unfold seq_top; lia || done|]. repeat split; try done.
    - tauto.
    - intros [|]; [done|]. subst x. by left. }
  replace (ackWatermarkExt a <? s) with true by (symmetry; apply Z.ltb_lt; lia).
  assert (ranges_wf (ackWatermarkExt a) high (ackSeenRanges a)) as Hr0
    by (eapply ranges_wf_weaken; [| |exact Hr]; lia).
  pose proof (insert_spec (len (ackSeenRanges a)) s (ackSeenRanges a) (ackWatermarkExt a) high Hr0
    ltac:(lia) ltac:(lia) ltac:(unfold max64; lia)) as Hins.
  destruct (insertACKSeenLocked _ _ _) as [[i d] rs'].
  destruct Hins as (Hwf & Hd & Hi & Hf). destruct d.
  { destruct (Hd eq_refl) as (-> & Hc & ->). cbn. split; [split; cbn; unfold seq_top; lia || done|].
    repeat split; try done; [tauto|]. intros [|]; [done|]. subst x. by right. }
  destruct i; cbn [negb andb].
  2:{ destruct (Hf eq_refl eq_refl) as (Hc & -> & Hn). cbn.
      split; [split; cbn; unfold seq_top; lia || done|]. repeat split; try done; [|lia].
      intros [|]; [lia|done]. }
  destruct (Hi eq_refl) as (_ & Hc & Hiff & Hpos & Hlen).
  destruct (advanceWatermark (ackWatermarkExt a) 0 rs') as [[wm' adv] rs''] eqn:Eadv.
  destruct (positions_bounds _ _ _ Hwf) as [Hp1 Hp2].
  assert (rs' <> []) as Hne by (intros ->; apply (proj2 (Hiff s)); by right).
  specialize (Hp2 Hne).
  pose proof (advance_spec rs' (ackWatermarkExt a) 0 high wm' adv rs'' Hwf ltac:(lia)
    ltac:(unfold max64; lia) ltac:(lia) ltac:(unfold max64; lia) Eadv)
    as (G1 & G2 & G3 & G4 & G5 & G6 & _ & G8). specialize (G5 Hne).
  destruct (positions_bounds _ _ _ G2) as [Hq1 _].
  assert (forall x, x <= wm' \/ covered x rs'' <-> seen a x \/ x = s) as Hseen.
  { intros x. rewrite G8, Hiff. unfold seen. tauto. }
  assert ((if negb (adv =? 0) then u64 (u64 (ackSeenPending a + 1) - adv)
           else u64 (ackSeenPending a + 1)) = positions rs'') as ->.
  { rewrite (u64_small (ackSeenPending a + 1)) by (unfold is_u64; lia).
    destruct (Z.eqb_spec adv 0); cbn [negb]; [|rewrite u64_small by (unfold is_u64; lia)]; lia. }
  match goal with |- context [if positions rs'' =? 0 then ?x else ?y] =>
    set (gw := if positions rs'' =? 0 then x else y) end.
  destruct gw as [gap warn]. cbn.
  split; [split; cbn; unfold seq_top; try lia; done|]. repeat split; try done.
  - intros Hx. apply Hseen. exact Hx.
  - intros Hx. unfold seen. cbn. apply Hseen. exact Hx.
Qed.

(** ** The abstract tracker *)

(** What the tracker promises, as a specification: a set of received positions
    and the last position reported. *)
Record ackSpec := mkSpec { received : Z -> Prop; reported : Z; highest : Z }.

Definition refines (a : ackState) (sp : ackSpec) : Prop :=
  ack_inv a /\ (forall x, seen a x <-> received sp x) /\ reported sp = ackReportedExt a /\
  highest sp = ackHighExt a.

(** C13. Receiving a packet adds its position to the received set and nothing else;
    the one exception is a position that would need a 257th range, which is left
    out (never the other way round). *)
Theorem mark_refines (quiet : bool) (now s : Z) (a : ackState) (st : counters) (sp : ackSpec)
    (Ha : refines a sp) (Hs : 0 <= s < seq_top) :
  let a' := fst (markACKReceived quiet now s a st) in
  refines a' (mkSpec (fun x => received sp x \/ (x = s /\ overflows a s = false))
                (reported sp) (Z.max (highest sp) s)) /\
  (overflows a s = true -> len (ackSeenRanges a) = maxACKSeenRanges /\ ~ received sp s).
Proof.
  destruct Ha as (Hinv & Hseen & Hrep & Hhigh).
  destruct (mark_cases quiet now s a st Hinv Hs) as (Hinv' & Er & Eh & Hok & Hov).
  split; [split; [done|]; split; [|split; cbn; congruence]|].
  - intros x. cbn. rewrite <- Hseen. destruct (overflows a s).
    + destruct (Hov eq_refl) as (Hsame & _ & _). rewrite Hsame. intuition discriminate.
    + rewrite (Hok eq_refl). tauto.
  - intros Hx. destruct (Hov Hx) as (_ & Hn & Hl). by rewrite <- Hseen.
Qed.

Definition sample_ack : ackState :=
  fst (initACKTracking 100 ack_zero no_counters).

Lemma init_refines wm a st :
  0 <= wm < seq_top ->
  refines (fst (initACKTracking wm a st)) (mkSpec (fun x => x <= wm) wm wm).
Proof.
  intros. split; [split; cbn; try done; try lia|].
  split; [|done]. intros x. unfold seen. cbn. tauto.
Qed.

Lemma mark_refines_witness :
  refines (fst (markACKReceived false 0 102 sample_ack no_counters))
    (mkSpec (fun x => x <= 100 \/ (x = 102 /\ overflows sample_ack 102 = false)) 100 102).
Proof.
  apply (mark_refines false 0 102 sample_ack no_counters (mkSpec (fun x => x <= 100) 100 100)).
  - apply init_refines. unfold seq_top. lia.
  - unfold seq_top. lia.
Defined.

(** ** Report windows *)

Lemma skipRanges_spec rs : forall lo top s,
  ranges_wf lo top rs ->
  ranges_wf lo top (skipRanges s rs) /\
  (forall x, s <= x -> (covered x (skipRanges s rs) <-> covered x rs)) /\
  (match skipRanges s rs with
   | r :: _ => (first r <=? s) && (s <=? last r) | [] => false end = true <-> covered s rs).
Proof.
  induction rs as [|r rs IH]; intros lo top s; [cbn; intuition done|].
  intros Hwf. pose proof Hwf as (H1 & H2 & H3 & Hrs). cbn [skipRanges].
  destruct (Z.ltb_spec (last r) s) as [E|E].
  - destruct (IH _ _ s Hrs) as (G1 & G2 & G3).
    split; [eapply ranges_wf_weaken; [| |exact G1]; lia|].
    cbn [covered]. split; [intros x Hx; rewrite G2 by done|rewrite G3]; intuition lia.
  - split; [done|]. split; [done|]. rewrite andb_true_iff, !Z.leb_le. cbn [covered].
    split; [intuition lia|]. intros [|Hc]; [lia|].
    eapply covered_above in Hc; [|exact Hrs]. lia.
Qed.

(** The scan, with its fuel: it stops, and what it returns describes exactly the
    positions it passed over. *)
Lemma scan_spec fuel : forall s high base wm rs miss lo top,
  ranges_wf lo top rs -> 0 <= base < s -> s <= high + 1 -> high < max64 - 1 ->
  high - base <= 65535 -> high + 1 - s < Z.of_nat fuel -> len miss <= maxTransportNACKs ->
  exists h ms, scanWindow fuel s high base wm rs miss = Some (h, miss ++ ms) /\
    s - 1 <= h <= high /\ len (miss ++ ms) <= maxTransportNACKs /\
    (forall x, s <= x <= h -> (x - base ∈ ms <-> ~ (x <= wm \/ covered x rs))) /\
    (forall o, o ∈ ms -> s - base <= o <= h - base) /\ StronglySorted Z.lt ms /\
    (h < high -> len (miss ++ ms) = maxTransportNACKs /\ ~ (h + 1 <= wm \/ covered (h + 1) rs)).
Proof.
  unfold max64. induction fuel as [|fuel IH]; intros s high base wm rs miss lo top Hwf Hb Hs Hh Hspan Hf Hm;
    [lia|]. cbn [scanWindow].
  destruct (Z.ltb_spec high s) as [Ed|Ed].
  { exists high, []. rewrite app_nil_r.
    split; [done|]. split; [lia|]. split; [lia|]. split; [intros; lia|].
    split; [intros ? ?%elem_of_nil; done|]. split; [constructor|lia]. }
  rewrite (u64_small (s + 1)) by (unfold is_u64; lia).
  assert (forall rs', ranges_wf lo top rs' ->
    (forall x, s <= x -> (covered x rs' <-> covered x rs)) -> (s <= wm \/ covered s rs) ->
    exists h ms, scanWindow fuel (s + 1) high base wm rs' miss = Some (h, miss ++ ms) /\
    s - 1 <= h <= high /\ len (miss ++ ms) <= maxTransportNACKs /\
    (forall x, s <= x <= h -> (x - base ∈ ms <-> ~ (x <= wm \/ covered x rs))) /\
    (forall o, o ∈ ms -> s - base <= o <= h - base) /\ StronglySorted Z.lt ms /\
    (h < high -> len (miss ++ ms) = maxTransportNACKs /\ ~ (h + 1 <= wm \/ covered (h + 1) rs)))
    as Hskip.
  { intros rs' Hwf' Hrs' Hsn.
    destruct (IH (s + 1) high base wm rs' miss lo top) as (h & ms & -> & G1 & G2 & G3 & G4 & G5 & G6);
      try lia; try done.
    exists h, ms. split; [done|]. split; [lia|]. split; [done|]. split.
    - intros x Hx. destruct (decide (x = s)) as [->|].
      + split; [intros Ho%G4; lia|tauto].
      + rewrite G3, Hrs' by lia. done.
    - split; [intros o Ho%G4; lia|]. split; [done|]. intros Hlt. rewrite <- Hrs' by lia. auto. }
  destruct (Z.leb_spec s wm) as [Ew|Ew]; [apply Hskip; [done|done|lia]|].
  destruct (skipRanges_spec rs lo top s Hwf) as (Hwf' & Hc' & Hseen).
  set (seen_ := match skipRanges s rs with | r :: _ => _ | [] => false end) in *.
  destruct seen_.
  { apply Hskip; [done|done|]. right. by apply Hseen. }
  assert (~ covered s rs) as Hns by (intros Hc%Hseen; done).
  destruct (Z.eqb_spec (len miss) maxTransportNACKs) as [En|En].
  { exists (s - 1), []. rewrite u64_small by (unfold is_u64; lia). rewrite app_nil_r.
    split; [done|]. split; [lia|]. split; [lia|]. split; [intros; lia|].
    split; [intros ? ?%elem_of_nil; done|]. split; [constructor|]. intros _.
    replace (s - 1 + 1) with s by lia. split; [done|]. intuition lia. }
  rewrite (u64_small (s - base)), u16_small by (unfold is_u64, is_u16; lia).
  destruct (IH (s + 1) high base wm (skipRanges s rs) (miss ++ [s - base]) lo top)
    as (h & ms & -> & G1 & G2 & G3 & G4 & G5 & G6); try lia; try done.
  { rewrite len_app. unfold len at 2. cbn. lia. }
  exists h, ((s - base) :: ms). rewrite <- app_assoc in *. cbn [app] in *.
  split; [done|]. split; [lia|]. split; [done|]. split; [|split; [|split]].
  - intros x Hx. rewrite elem_of_cons. destruct (decide (x = s)) as [->|].
    + split; [intros _; intuition lia|auto].
    + rewrite G3, Hc' by lia. intuition lia.
  - intros o [->|Ho%G4]%elem_of_cons; lia.
  - constructor; [done|]. rewrite Forall_forall. intros o Ho%G4. lia.
  - intros Hlt. rewrite <- Hc' by lia. auto.
Qed.

(** What a report window says. *)
Definition window_exact (a : ackState) (w : ackWindow) : Prop :=
  baseExt w = ackReportedExt a /\ contiguousExt w = ackWatermarkExt a /\
  baseExt w <= highExt w <= ackHighExt a /\ highExt w - baseExt w <= 65535 /\
  len (missing w) <= maxTransportNACKs /\ StronglySorted Z.lt (missing w) /\
  (forall o, o ∈ missing w -> 1 <= o <= highExt w - baseExt w) /\
  (forall x, baseExt w < x <= highExt w -> (x - baseExt w ∈ missing w <-> ~ seen a x)) /\
  (highExt w < ackHighExt a ->
     highExt w - baseExt w = 65535 \/
     (len (missing w) = maxTransportNACKs /\ ~ seen a (highExt w + 1))).

Lemma window_spec a : ack_inv a -> exists w, ackWindowLocked a = Some w /\ window_exact a w.
Proof.
  intros [Hrep Hhigh Hr Hpend Hcap]. unfold seq_top in *. unfold ackWindowLocked.
  rewrite (u64_small (ackHighExt a - _)), (u64_small (_ + 1)) by (unfold is_u64; lia).
  set (high := if _ <? _ then _ else _).
  assert (ackReportedExt a <= high <= ackHighExt a /\ high - ackReportedExt a <= 65535 /\
    (high < ackHighExt a -> high - ackReportedExt a = 65535)) as (Hh1 & Hh2 & Hh3).
  { unfold high. destruct (Z.ltb_spec 0xffff (ackHighExt a - ackReportedExt a));
      [rewrite u64_small by (unfold is_u64; lia)|]; lia. }
  clearbody high.
  destruct (scan_spec (scan_fuel (ackReportedExt a) high) (ackReportedExt a + 1) high (ackReportedExt a) (ackWatermarkExt a)
    (ackSeenRanges a) [] _ _ Hr) as (h & ms & -> & G1 & G2 & G3 & G4 & G5 & G6);
    try (unfold max64, scan_fuel; lia).
  { done. }
  eexists. split; [reflexivity|]. unfold window_exact. cbn [app baseExt highExt contiguousExt missing] in *.
  do 6 (split; [done || lia|]). split; [intros o Ho%G4; lia|].
  split; [intros x Hx; rewrite G3 by lia; done|].
  intros Hlt. destruct (decide (h < high)) as [E|E]; [right; by apply G6|left].
  replace h with high by lia. apply Hh3. lia.
Qed.

(** C14. The report window: the scan always ends, and the window says of every position
    in it whether it was received.  It is cut short only by the 16-bit span or,
    when the 256 slots are used up, right before a position it could not list. *)
Theorem window_exactness (a : ackState) (ordinal tick : Z) (Ha : ack_inv a) :
  exists r w a', nextTransportACK a ordinal tick = Some (r, w, a') /\ window_exact a w /\
    AVBase r = u16 (baseExt w) /\ AVHigh r = u16 (highExt w) /\ Missing r = missing w /\
    ReliableRecvACK r = reliableRecvACK a /\ SendCount r = ackSendCount a /\
    ack_inv a' /\ (forall x, seen a' x <-> seen a x).
Proof.
  destruct (window_spec a Ha) as (w & Hw & Hex). unfold nextTransportACK. rewrite Hw.
  do 3 eexists. split; [reflexivity|]. repeat split; try apply Hex; by try apply Ha.
Qed.

Definition gap_ack : ackState :=
  fst (markACKReceived false 0 104 (fst (markACKReceived false 0 102 sample_ack no_counters)) no_counters).

Lemma sample_inv : ack_inv gap_ack.
Proof. split; try done; vm_compute; repeat split; congruence. Qed.

Lemma window_exactness_witness :
  exists r w a', nextTransportACK gap_ack 1 2 = Some (r, w, a') /\ window_exact gap_ack w /\
    AVBase r = u16 (baseExt w) /\ AVHigh r = u16 (highExt w) /\ Missing r = missing w /\
    ReliableRecvACK r = reliableRecvACK gap_ack /\ SendCount r = ackSendCount gap_ack /\
    ack_inv a' /\ (forall x, seen a' x <-> seen gap_ack x).
Proof. apply (window_exactness gap_ack 1 2). exact sample_inv. Defined.

(** ** Receiving and reporting, interleaved *)

(** The processor goroutine receives, the maintenance goroutine takes a window,
    writes the report and commits it; [ackMu] makes each of these atomic, but
    receptions may fall between any two.  [rcvd] and [sent] record history. *)
Record link := mkLink {
  trk : ackState;
  inflight : option (ackWindow * bool);  (* the window taken, and whether it is written *)
  rcvd : list Z;
  sent : list ackWindow;
}.

Inductive step : link -> link -> Prop :=
| Recv quiet now s st l :
    0 <= s < seq_top ->
    step l (mkLink (fst (markACKReceived quiet now s (trk l) st)) (inflight l) (s :: rcvd l) (sent l))
| Snapshot ordinal tick r w a l :
    inflight l = None -> nextTransportACK (trk l) ordinal tick = Some (r, w, a) ->
    step l (mkLink a (Some (w, false)) (rcvd l) (sent l))
| Written w l :
    inflight l = Some (w, false) ->
    step l (mkLink (trk l) (Some (w, true)) (rcvd l) (w :: sent l))
| WriteFailed w l :
    inflight l = Some (w, false) -> step l (mkLink (trk l) None (rcvd l) (sent l))
| Commit w l :
    inflight l = Some (w, true) ->
    step l (mkLink (markTransportACKSent w (trk l)) None (rcvd l) (sent l)).

Definition link_init (wm : Z) (a : ackState) (st : counters) : link :=
  mkLink (fst (initACKTracking wm a st)) None [] [].

(** [x] is positively acknowledged by the report [w]. *)
Definition acknowledged (w : ackWindow) (x : Z) : Prop :=
  baseExt w < x <= highExt w /\ x - baseExt w ∉ missing w.

#[export] Instance covered_dec x rs : Decision (covered x rs).
Proof. induction rs; cbn; apply _. Defined.

Record link_inv (wm : Z) (l : link) : Prop := {
  li_trk : ack_inv (trk l);
  li_base : wm <= ackReportedExt (trk l);
  li_seen x : wm < x -> seen (trk l) x -> x ∈ rcvd l;
  li_flight w b : inflight l = Some (w, b) ->
    baseExt w = ackReportedExt (trk l) /\ highExt w <= ackHighExt (trk l) /\
    contiguousExt w <= ackWatermarkExt (trk l) /\
    (forall x, acknowledged w x -> x ∈ rcvd l) /\
    (forall x, baseExt w < x <= highExt w -> x <= contiguousExt w -> acknowledged w x) /\
    (b = true -> w ∈ sent l);
  li_sent w x : w ∈ sent l -> acknowledged w x -> x ∈ rcvd l;
  li_sent_base w : w ∈ sent l -> wm <= baseExt w <= ackReportedExt (trk l);
  li_retired x : wm < x <= ackReportedExt (trk l) -> exists w, w ∈ sent l /\ acknowledged w x;
}.

Lemma link_init_inv wm a st : 0 <= wm < seq_top -> link_inv wm (link_init wm a st).
Proof.
  intros Hwm. destruct (init_refines wm a st Hwm) as (Hinv & Hseen & _).
  split; cbn -[initACKTracking]; try done.
  - intros x Hx Hs. apply Hseen in Hs. cbn in Hs. lia.
  - intros ? ? ?%elem_of_nil. done.
  - intros ? ?%elem_of_nil. done.
  - cbn. lia.
Qed.

Lemma commit_inv w a :
  ack_inv a -> contiguousExt w <= ackWatermarkExt a -> ack_inv (markTransportACKSent w a).
Proof.
  intros [H1 H2 H3 H4 H5] Hc. unfold markTransportACKSent.
  destruct (Z.ltb_spec (highExt w) (contiguousExt w)); 
    match goal with |- context [?x <? ?y] => destruct (Z.ltb_spec x y) end;
    split; cbn; lia || done.
Qed.

Lemma commit_seen w a x : seen (markTransportACKSent w a) x <-> seen a x.
Proof. unfold markTransportACKSent. by destruct (ackReportedExt a <? _). Qed.

Lemma commit_reported w a :
  ackReportedExt (markTransportACKSent w a) =
  Z.max (ackReportedExt a) (Z.min (highExt w) (contiguousExt w)) /\
  ackWatermarkExt (markTransportACKSent w a) = ackWatermarkExt a /\
  ackHighExt (markTransportACKSent w a) = ackHighExt a.
Proof.
  unfold markTransportACKSent. destruct (Z.ltb_spec (highExt w) (contiguousExt w));
    match goal with |- context [?x <? ?y] => destruct (Z.ltb_spec x y) end; cbn; lia.
Qed.

Lemma step_inv wm l l' : link_inv wm l -> step l l' -> link_inv wm l'.
Proof.
  intros [Ht Hb Hs Hf Hsent Hsb Hr] Hstep.
  destruct Hstep as [quiet now s st l Hrange|ordinal tick r w a l Hnone Hsnap|w l Hw|w l Hw|w l Hw].
  - pose proof (mark_cases quiet now s (trk l) st Ht Hrange) as (G1 & G2 & G3 & G4 & G5).
    set (a' := fst _) in *. clearbody a'.
    assert (forall x, seen a' x -> seen (trk l) x \/ x = s) as Hgrow.
    { intros x Hx. destruct (overflows (trk l) s).
      - left. by apply G5.
      - by apply G4. }
    assert (forall x, seen (trk l) x -> seen a' x) as Hkeep.
    { intros x Hx. destruct (overflows (trk l) s); [by apply G5|]. apply G4; auto. }
    split; cbn; rewrite ?G2; try done.
    + intros x Hx [Hx'| ->]%Hgrow; [|by left]. right. by apply Hs.
    + intros w b Hw. destruct (Hf w b Hw) as (E1 & E2 & E3 & E4 & E5 & E6).
      split; [done|]. split; [lia|]. split; [|split; [intros; right; by apply E4|done]].
      destruct (watermark_exact a' G1) as [_ Hn].
      destruct (decide (contiguousExt w <= ackWatermarkExt a')) as [|Hlt]; [done|].
      exfalso. apply Hn, Hkeep. left. lia.
    + intros w x Hw Hx. right. by eapply Hsent.
  - destruct (window_spec (trk l) Ht) as (w' & Hw' & Hex).
    unfold nextTransportACK in Hsnap. rewrite Hw' in Hsnap. injection Hsnap as <- <- <-.
    destruct Hex as (E1 & E2 & E3 & E4 & E5 & E6 & E7 & E8 & E9).
    split; cbn; try done.
    + split; apply Ht.
    + intros w b [= <- <-]. split; [done|]. split; [lia|]. split; [lia|].
      split; [|split; [|done]].
      * intros x [Hx Hn]. rewrite E8 in Hn by done. apply Hs; [lia|].
        destruct (decide (x <= ackWatermarkExt (trk l))); [by left|].
        right. apply dec_stable. intros Hc. apply Hn. intros [|]; [lia|done].
      * intros x Hx Hc. split; [done|]. rewrite E8 by done. intros Hn. apply Hn. left. lia.
  - destruct (Hf _ _ Hw) as (E1 & E2 & E3 & E4 & E5 & E6). split; cbn; try done.
    + intros w' b [= <- <-]. do 5 (split; [done|]). intros _. by left.
    + intros w' x [->|Hw']%elem_of_cons; [apply E4|by apply Hsent].
    + intros w' [->|Hw']%elem_of_cons; [lia|by apply Hsb].
    + intros x Hx. destruct (Hr x Hx) as (w' & ? & ?). exists w'. split; [by right|done].
  - split; done.
  - destruct (Hf _ _ Hw) as (E1 & E2 & E3 & E4 & E5 & E6).
    destruct (commit_reported w (trk l)) as (C1 & C2 & C3). split; cbn; rewrite ?C1; try done.
    + by apply commit_inv.
    + lia.
    + intros x Hx Hs'. apply Hs; [done|]. by apply commit_seen in Hs'.
    + intros w' Hw'. specialize (Hsb _ Hw'). lia.
    + intros x Hx. destruct (decide (x <= ackReportedExt (trk l))); [apply Hr; lia|].
      exists w. split; [by apply E6|]. apply E5; lia.
Qed.

(** C2. No report ever acknowledges a packet that did not arrive, however reception,
    reporting, failed writes and commits interleave, and the base only moves past
    positions that some written report acknowledged. *)
Theorem no_false_ack (wm : Z) (a : ackState) (st : counters) (l : link) (w : ackWindow) (x : Z)
    (Hwm : 0 <= wm < seq_top) (Hreach : rtc step (link_init wm a st) l) (Hw : w ∈ sent l) :
  (acknowledged w x -> x ∈ rcvd l) /\
  (wm < x <= baseExt w -> x ∈ rcvd l /\ exists w', w' ∈ sent l /\ acknowledged w' x).
Proof.
  assert (link_inv wm l) as Hinv.
  { assert (forall l0, rtc step l0 l -> link_inv wm l0 -> link_inv wm l) as Hind.
    { induction 1; eauto using step_inv. }
    apply (Hind _ Hreach). by apply link_init_inv. }
  split; [by apply Hinv|]. intros Hx. pose proof (li_sent_base _ _ Hinv w Hw).
  destruct (li_retired _ _ Hinv x ltac:(lia)) as (w' & Hw' & Hack).
  split; [by eapply li_sent|eauto].
Qed.

(** Packets 101 and 103 arrive, a window is taken, 102 arrives before the write,
    and the report is committed. *)
Definition sample_run : link :=
  let a1 := fst (markACKReceived false 0 101 sample_ack no_counters) in
  let a2 := fst (markACKReceived false 0 103 a1 no_counters) in
  let w := mkWindow 100 103 101 [2] 1 in
  let a3 := snd (transportACKLocked a2 1 100 103 [2] 7) in
  let a4 := fst (markACKReceived false 0 102 a3 no_counters) in
  mkLink (markTransportACKSent w a4) None [102; 103; 101] [w].

Lemma sample_run_reach : rtc step (link_init 100 ack_zero no_counters) sample_run.
Proof.
  eapply rtc_l; [apply (Recv false 0 101 no_counters); unfold seq_top; lia|].
  eapply rtc_l; [apply (Recv false 0 103 no_counters); unfold seq_top; lia|].
  eapply rtc_l; [eapply (Snapshot 1 7); [reflexivity|vm_compute; reflexivity]|].
  eapply rtc_l; [apply (Recv false 0 102 no_counters); unfold seq_top; lia|].
  eapply rtc_l; [apply Written; reflexivity|].
  eapply rtc_l; [apply Commit; reflexivity|].
  vm_compute. apply rtc_refl.
Qed.

Lemma no_false_ack_witness :
  let w := mkWindow 100 103 101 [2] 1 in
  (acknowledged w 103 -> 103 ∈ rcvd sample_run) /\
  (100 < 103 <= baseExt w -> 103 ∈ rcvd sample_run /\
     exists w', w' ∈ sent sample_run /\ acknowledged w' 103).
Proof.
  intros w. apply (no_false_ack 100 ack_zero no_counters sample_run w 103).
  - unfold seq_top. lia.
  - exact sample_run_reach.
  - by left.
Defined.

(** ** The full tracker *)

(** With every range slot taken, the next packet in order is refused although it
    would need no slot: it would move the watermark.  The packet was received and
    is reported missing. *)
Definition full_ack : ackState :=
  mkAck 0 0 600 ((fun i => mkRange (3 + 2 * Z.of_nat i) (3 + 2 * Z.of_nat i)) <$> seq 0 256) 256
    0 false ∅ 0 None 32.

Theorem full_tracker_refuses_next :
  len (ackSeenRanges full_ack) = 256 /\
  let a' := fst (markACKReceived false 0 1 full_ack no_counters) in
  ackWatermarkExt a' = 0 /\ ackSeenRanges a' = ackSeenRanges full_ack /\
  option_map (fun w => nth 0 (missing w) 0) (ackWindowLocked a') = Some 1.
Proof. vm_compute. done. Qed.

(** ** The reliable control stream *)

Lemma joinReliable_spec fuel : forall ack seen,
  (size seen < fuel)%nat -> is_u16 ack ->
  exists n : nat, joinReliable fuel ack seen =
    Some (u16 (ack + Z.of_nat n), seen ∖ list_to_set ((fun i => u16 (ack + Z.of_nat i)) <$> seq 1 n)) /\
    (forall i, 1 <= i <= Z.of_nat n -> u16 (ack + i) ∈ seen) /\
    u16 (ack + Z.of_nat n + 1) ∉ seen ∖ list_to_set ((fun i => u16 (ack + Z.of_nat i)) <$> seq 1 n).
Proof.
  induction fuel as [|fuel IH]; intros ack seen Hf Hack; [lia|]. cbn [joinReliable].
  destruct (decide (u16 (ack + 1) ∈ seen)) as [Hin|Hout].
  - destruct (IH (u16 (ack + 1)) (seen ∖ {[u16 (ack + 1)]})) as (n & -> & H1 & H2).
    { assert (size (seen ∖ {[u16 (ack + 1)]}) < size seen)%nat; [|lia].
      apply subset_size. set_solver. }
    { apply u16_bound. }
    assert (forall k, u16 (u16 (ack + 1) + k) = u16 (ack + (1 + k))) as Hshift by (intros; ints).
    assert (((fun i => u16 (u16 (ack + 1) + Z.of_nat i)) <$> seq 1 n) =
            ((fun i => u16 (ack + Z.of_nat i)) <$> seq 2 n)) as Hseq.
    { change (seq 2 n) with (seq (S 1) n). rewrite <- (fmap_S_seq 1 n), <- list_fmap_compose.
      apply list_fmap_ext. intros i k _. cbn. rewrite Hshift. do 2 f_equal. lia. }
    exists (S n). rewrite Hseq in *. cbn [seq fmap list_fmap list_to_set].
    replace (u16 (ack + Z.of_nat (S n))) with (u16 (u16 (ack + 1) + Z.of_nat n))
      by (rewrite Hshift; f_equal; lia).
    assert (forall T : gset Z, seen ∖ {[u16 (ack + 1)]} ∖ T = seen ∖ ({[u16 (ack + Z.of_nat 1)]} ∪ T))
      as Hset by (intros T; change (Z.of_nat 1) with 1; set_solver).
    rewrite Hset in *. split; [done|]. split.
    + intros i Hi. destruct (decide (i = 1)) as [->|]; [done|].
      specialize (H1 (i - 1) ltac:(lia)). rewrite Hshift in H1.
      replace (1 + (i - 1)) with i in H1 by lia. set_solver.
    + rewrite <- Z.add_assoc, Hshift in H2.
      replace (ack + Z.of_nat (S n) + 1) with (ack + (1 + (Z.of_nat n + 1))) by lia. done.
  - exists 0%nat. cbn. rewrite Z.add_0_r, u16_small by done.
    assert (seen ∖ ∅ = seen) as -> by set_solver. repeat split; try done. lia.
Qed.

Fixpoint acceptAll (seqs : list Z) (a : ackState) (st : counters) : option (ackState * counters) :=
  match seqs with
  | [] => Some (a, st)
  | s :: rest => '(a, st) ← acceptReliableControl s a st; acceptAll rest a st
  end.

(** Every position from the first message on, up to the acknowledged one, arrived. *)
Definition reliable_sound (s0 : Z) (got : list Z) (a : ackState) : Prop :=
  reliableRecvSet a = true /\ is_u16 (reliableRecvACK a) /\
  (exists n, 0 <= n /\ reliableRecvACK a = u16 (s0 + n) /\ forall i, 0 <= i <= n -> u16 (s0 + i) ∈ got) /\
  (forall x, x ∈ reliableSeen a -> x ∈ got) /\
  u16 (reliableRecvACK a + 1) ∉ reliableSeen a.

Lemma accept_sound s0 got a st s :
  reliable_sound s0 got a -> is_u16 s ->
  exists a' st', acceptReliableControl s a st = Some (a', st') /\ reliable_sound s0 (s :: got) a'.
Proof.
  intros (Hset & Hu & (n & Hn & Hack & Hgot) & Hseen & Hnext) Hs.
  unfold acceptReliableControl. rewrite Hset. cbn [negb].
  assert (reliable_sound s0 (s :: got) a) as Hsame.
  { split; [done|]. split; [done|]. split; [exists n; split; [done|]; split; [done|]|].
    - intros i Hi. right. auto.
    - split; [intros x Hx; right; auto|done]. }
  destruct (_ || _) eqn:E; [by eauto|].
  apply orb_false_iff in E as [E1%Z.eqb_neq E2%Z.leb_gt].
  destruct (Z.eqb_spec (u16 (s - reliableRecvACK a)) 1) as [E3|E3]; cbn [negb].
  - assert (s = u16 (reliableRecvACK a + 1)) as Hs' by ints.
    destruct (joinReliable_spec (S (size (reliableSeen a))) s (reliableSeen a) ltac:(lia) Hs)
      as (m & -> & H1 & H2). cbn. do 2 eexists. split; [reflexivity|].
    split; [done|]. split; [apply u16_bound|]. cbn. split; [|split].
    + exists (n + 1 + Z.of_nat m). split; [lia|].
      split; [rewrite Hs', Hack; ints|]. intros i Hi.
      destruct (decide (i <= n)); [right; apply Hgot; lia|].
      destruct (decide (i = n + 1)) as [->|].
      { apply elem_of_cons. left. rewrite Hs', Hack. ints. }
      right. apply Hseen. specialize (H1 (i - (n + 1)) ltac:(lia)).
      replace (u16 (s0 + i)) with (u16 (s + (i - (n + 1)))) by (rewrite Hs', Hack; ints). done.
    + intros x [Hx _]%elem_of_difference. right. auto.
    + intros Hx. apply H2. revert Hx. generalize (reliableSeen a ∖ list_to_set ((λ i : nat, u16 (s + Z.of_nat i)) <$> seq 1 m)).
      intros T. replace (u16 (u16 (s + Z.of_nat m) + 1)) with (u16 (s + Z.of_nat m + 1)) by ints. done.
  - do 2 eexists. split; [reflexivity|]. split; [done|]. split; [done|]. cbn.
    split; [exists n; split; [done|]; split; [done|]; intros i Hi; right; auto|]. split.
    + intros x [->%elem_of_singleton|Hx]%elem_of_union; [by left|right; auto].
    + intros [Hx%elem_of_singleton|Hx]%elem_of_union; [|done]. apply E3. rewrite <- Hx. ints.
Qed.

(** Accepting control messages always ends (each round of the join loop removes a
    parked message), and whatever arrives in whatever order, the reported sequence
    number closes a run of messages that all arrived. *)
Theorem reliable_never_overacks (s0 : Z) (rest : list Z) (a : ackState) (st : counters)
    (Hs0 : is_u16 s0) (Hrest : Forall is_u16 rest)
    (Hfresh : reliableRecvSet a = false /\ reliableSeen a = ∅) :
  exists a' st' n, acceptAll (s0 :: rest) a st = Some (a', st') /\
    0 <= n /\ reliableRecvACK a' = u16 (s0 + n) /\
    (forall i, 0 <= i <= n -> u16 (s0 + i) ∈ s0 :: rest) /\
    u16 (reliableRecvACK a' + 1) ∉ reliableSeen a'.
Proof.
  destruct Hfresh as [Hset Hseen]. cbn [acceptAll]. unfold acceptReliableControl at 1.
  rewrite Hset. cbn [negb mbind option_bind].
  assert (reliable_sound s0 [s0] (withReliable a s0 true (reliableSeen a))) as Hinit.
  { split; [done|]. split; [done|]. cbn. rewrite Hseen. split; [|split; [set_solver|set_solver]].
    exists 0. split; [lia|]. rewrite Z.add_0_r, u16_small by done. split; [done|].
    intros i Hi. replace i with 0 by lia. rewrite Z.add_0_r, u16_small by done. by left. }
  assert (forall ss got a0 st0, Forall is_u16 ss -> reliable_sound s0 got a0 ->
    exists a' st', acceptAll ss a0 st0 = Some (a', st') /\ reliable_sound s0 (reverse ss ++ got) a')
    as Hrun.
  { induction ss as [|s ss IH]; intros got a0 st0 Hss Hgot; cbn [acceptAll]; [by eauto|].
    apply Forall_cons in Hss as [Hs Hss].
    destruct (accept_sound s0 got a0 st0 s Hgot Hs) as (a1 & st1 & -> & H1). cbn [mbind option_bind].
    destruct (IH (s :: got) a1 st1 Hss H1) as (a2 & st2 & -> & H2).
    do 2 eexists. split; [done|]. by rewrite reverse_cons, <- app_assoc. }
  destruct (Hrun rest [s0] _ (Store Ctr.reliableRecvACK s0 st) Hrest Hinit)
    as (a' & st' & -> & (_ & _ & (n & Hn & Hack & Hall) & _ & Hnext)).
  exists a', st', n. split; [done|]. split; [done|]. split; [done|]. split; [|done].
  intros i Hi. specialize (Hall i Hi). rewrite elem_of_app, elem_of_reverse in Hall.
  set_solver.
Qed.

Lemma reliable_never_overacks_witness :
  exists a' st' n, acceptAll (65534 :: [0; 65535; 1; 3]) ack_zero no_counters = Some (a', st') /\
    0 <= n /\ reliableRecvACK a' = u16 (65534 + n) /\
    (forall i, 0 <= i <= n -> u16 (65534 + i) ∈ 65534 :: [0; 65535; 1; 3]) /\
    u16 (reliableRecvACK a' + 1) ∉ reliableSeen a'.
Proof.
  apply (reliable_never_overacks 65534 [0; 65535; 1; 3] ack_zero no_counters).
  - unfold is_u16. lia.
  - repeat constructor; unfold is_u16; lia.
  - done.
Defined.

(** *** Within one half-space, order does not matter *)

Definition reliable_window (s0 : Z) (offs : list Z) (n : Z) (a : ackState) : Prop :=
  reliableRecvSet a = true /\ 0 <= n < 0x8000 /\ reliableRecvACK a = u16 (s0 + n) /\
  (forall i, 1 <= i <= n -> i ∈ offs) /\ n + 1 ∉ offs /\
  (forall x, x ∈ reliableSeen a <-> exists k, k ∈ offs /\ n < k /\ x = u16 (s0 + k)) /\
  Forall (fun k => 0 <= k < 0x8000) offs.

Lemma u16_shift s a b : u16 (u16 (s + a) + b) = u16 (s + (a + b)).
Proof. ints. Qed.
Lemma u16_inj s a b : 0 <= a < 65536 -> 0 <= b < 65536 -> u16 (s + a) = u16 (s + b) -> a = b.
Proof. ints. Qed.

Lemma accept_window s0 offs n a st k :
  is_u16 s0 -> reliable_window s0 offs n a -> 0 <= k < 0x8000 ->
  exists a' st' n', acceptReliableControl (u16 (s0 + k)) a st = Some (a', st') /\
    reliable_window s0 (k :: offs) n' a'.
Proof.
  intros Hs0 (Hset & Hn & Hack & Hrun & Hnext & Hseen & Hoffs) Hk.
  assert (Forall (fun k => 0 <= k < 0x8000) (k :: offs)) as Hoffs' by by constructor.
  unfold acceptReliableControl. rewrite Hset, Hack. cbn [negb].
  destruct (Z.le_gt_cases k n) as [Hle|Hgt].
  { assert ((u16 (u16 (s0 + k) - u16 (s0 + n)) =? 0) ||
            (0x8000 <=? u16 (u16 (s0 + k) - u16 (s0 + n))) = true) as ->.
    { rewrite orb_true_iff, Z.eqb_eq, Z.leb_le. ints. }
    exists a, st, n. split; [done|]. split; [done|]. split; [done|]. split; [done|].
    split; [intros; right; auto|].
    split; [rewrite elem_of_cons; intros [|]; [lia|done]|]. split; [|done].
    intros x. rewrite Hseen. split.
    - intros (k' & ? & ? & ?). exists k'. split; [by right|done].
    - intros (k' & [->|]%elem_of_cons & ? & ?); [lia|]. eauto. }
  assert (u16 (u16 (s0 + k) - u16 (s0 + n)) = k - n) as -> by ints.
  destruct (Z.eqb_spec (k - n) 0); [lia|]. destruct (Z.leb_spec 0x8000 (k - n)); [lia|]. cbn [orb].
  destruct (Z.eqb_spec (k - n) 1) as [E|E]; cbn [negb].
  2:{ exists (withReliable a (u16 (s0 + n)) true ({[u16 (s0 + k)]} ∪ reliableSeen a)), st, n.
    split; [done|]. split; [done|]. split; [done|]. split; [done|].
    split; [intros; right; auto|].
    split; [rewrite elem_of_cons; intros [|]; [lia|done]|]. split; [|done].
    intros x. cbn. rewrite elem_of_union, elem_of_singleton, Hseen. split.
    - intros [->|(k' & ? & ? & ?)]; [exists k; split; [by left|split; [lia|done]]|].
      exists k'. split; [by right|done].
    - intros (k' & [->|]%elem_of_cons & ? & ->); [by left|right; eauto]. }
  destruct (joinReliable_spec (S (size (reliableSeen a))) (u16 (s0 + k)) (reliableSeen a)
    ltac:(lia) (u16_bound _)) as (m & -> & H1 & H2). cbn [mbind option_bind].
  assert (forall j : nat, (1 <= j <= m)%nat -> k + Z.of_nat j ∈ offs /\ k + Z.of_nat j < 0x8000) as Hjoin.
  { induction j as [|j IH]; [lia|]. intros Hj.
    assert (k + Z.of_nat (S j) < 0x8000 + 1) as Hb.
    { destruct (decide (j = 0)%nat) as [->|]; [lia|]. specialize (IH ltac:(lia)). lia. }
    specialize (H1 (Z.of_nat (S j)) ltac:(lia)). apply Hseen in H1 as (k' & Hk' & Hlt & Heq).
    pose proof (proj1 (Forall_forall _ _) Hoffs k' Hk'). cbn beta in *.
    rewrite u16_shift in Heq. apply u16_inj in Heq; [|lia|lia]. subst k'. split; [done|lia]. }
  assert (k + Z.of_nat m < 0x8000) as Hkm
    by (destruct m; [lia|]; by destruct (Hjoin (S m) ltac:(lia))).
  set (taken := list_to_set _ : gset Z) in *.
  assert (forall x, x ∈ taken <-> exists j : nat, (1 <= j <= m)%nat /\ x = u16 (s0 + (k + Z.of_nat j))) as Htaken.
  { intros x. unfold taken. rewrite elem_of_list_to_set, list_elem_of_fmap.
    split; intros (j & Hx & Hj).
    - apply elem_of_seq in Hj. exists j. split; [lia|]. rewrite Hx. ints.
    - exists j. split; [rewrite Hj; ints|]. apply elem_of_seq. lia. }
  clearbody taken.
  do 3 eexists. split; [reflexivity|].
  assert (forall x, x ∈ reliableSeen a ∖ taken <->
    exists k', k' ∈ k :: offs /\ k + Z.of_nat m < k' /\ x = u16 (s0 + k')) as Hrest.
  { intros x. rewrite elem_of_difference, Hseen, Htaken. split.
    - intros [(k' & Hk' & Hlt & ->) Hno]. exists k'. split; [by right|]. split; [|done].
      pose proof (proj1 (Forall_forall _ _) Hoffs k' Hk'). cbn beta in *.
      destruct (decide (k' <= k + Z.of_nat m)); [|lia]. exfalso. apply Hno.
      assert (k' <> k) by (intros ->; apply Hnext; by replace (n + 1) with k by lia).
      exists (Z.to_nat (k' - k)). split; [lia|]. do 2 f_equal. lia.
    - intros (k' & [->|Hk']%elem_of_cons & Hlt & ->); [lia|].
      split; [exists k'; split; [done|split; [lia|done]]|].
      pose proof (proj1 (Forall_forall _ _) Hoffs k' Hk'). cbn beta in *.
      intros (j & Hj & Heq). apply u16_inj in Heq; lia. }
  split; [done|]. split; [split; [|exact Hkm]; lia|]. cbn.
  split; [ints|]. split; [|split; [|split; [exact Hrest|done]]].
  - intros i Hi. destruct (decide (i <= n)); [right; apply Hrun; lia|].
    destruct (decide (i = k)) as [->|]; [by left|]. right.
    destruct (Hjoin (Z.to_nat (i - k)) ltac:(lia)) as [Hin _].
    by replace (k + Z.of_nat (Z.to_nat (i - k))) with i in Hin by lia.
  - intros Hin. apply H2.
    replace (u16 (u16 (s0 + k) + Z.of_nat m + 1)) with (u16 (s0 + (k + Z.of_nat m + 1))) by ints.
    apply Hrest. exists (k + Z.of_nat m + 1). split; [done|]. split; [lia|done].
Qed.

(** Messages within one half-space of the first: whatever their order and
    duplication, the acknowledged number ends exactly the run that has arrived. *)
Theorem reliable_order_independent (s0 : Z) (offs : list Z) (a : ackState) (st : counters)
    (Hs0 : is_u16 s0) (Hoffs : Forall (fun k => 0 <= k < 0x8000) offs)
    (Hfresh : reliableRecvSet a = false /\ reliableSeen a = ∅) :
  exists a' st' n, acceptAll (s0 :: ((fun k => u16 (s0 + k)) <$> offs)) a st = Some (a', st') /\
    0 <= n /\ reliableRecvACK a' = u16 (s0 + n) /\
    (forall i, 1 <= i <= n -> i ∈ offs) /\ n + 1 ∉ offs.
Proof.
  destruct Hfresh as [Hset Hseen]. cbn [acceptAll]. unfold acceptReliableControl at 1.
  rewrite Hset. cbn [negb mbind option_bind].
  assert (reliable_window s0 [] 0 (withReliable a s0 true (reliableSeen a))) as Hinit.
  { split; [done|]. split; [lia|]. cbn. rewrite Hseen, Z.add_0_r, u16_small by done.
    split; [done|]. split; [lia|]. split; [set_solver|]. split; [set_solver|done]. }
  assert (forall os pre n a0 st0, Forall (fun k => 0 <= k < 0x8000) os ->
    reliable_window s0 pre n a0 ->
    exists a' st' n', acceptAll ((fun k => u16 (s0 + k)) <$> os) a0 st0 = Some (a', st') /\
      reliable_window s0 (reverse os ++ pre) n' a') as Hrun.
  { induction os as [|o os IH]; intros pre n a0 st0 Hos Hpre; cbn [acceptAll fmap list_fmap]; [by eauto|].
    apply Forall_cons in Hos as [Ho Hos].
    destruct (accept_window s0 pre n a0 st0 o Hs0 Hpre Ho) as (a1 & st1 & n1 & -> & H1). cbn [mbind option_bind].
    destruct (IH (o :: pre) n1 a1 st1 Hos H1) as (a2 & st2 & n2 & -> & H2).
    do 3 eexists. split; [done|]. rewrite reverse_cons, <- app_assoc. exact H2. }
  destruct (Hrun offs [] 0 _ (Store Ctr.reliableRecvACK s0 st) Hoffs Hinit)
    as (a' & st' & n & -> & (_ & Hn & Hack & Hall & Hnext & _)).
  rewrite app_nil_r in *. exists a', st', n. split; [done|]. split; [lia|]. split; [done|].
  split; [intros i Hi; apply elem_of_reverse; auto|]. by rewrite elem_of_reverse in Hnext.
Qed.

Lemma reliable_order_independent_witness :
  exists a' st' n, acceptAll (65534 :: ((fun k => u16 (65534 + k)) <$> [3; 1; 5; 2; 1]))
      ack_zero no_counters = Some (a', st') /\
    0 <= n /\ reliableRecvACK a' = u16 (65534 + n) /\
    (forall i, 1 <= i <= n -> i ∈ [3; 1; 5; 2; 1]) /\ n + 1 ∉ [3; 1; 5; 2; 1].
Proof.
  apply (reliable_order_independent 65534 [3; 1; 5; 2; 1] ack_zero no_counters).
  - unfold is_u16. lia.
  - repeat constructor; lia.
  - done.
Defined.
