(* ===== verification/Annexb.v ===== *)
(** H.264 byte streams: the NAL walker of [pkg/petlibro/assembler.go], the AVCC
    walker of [pkg/petlibro/producer.go] and the Annex-B/AVCC conversion of
    [pkg/h264/annexb/annexb.go].  Loops over an index are written over the suffix
    at that index, so that an index test is a match on the suffix's length. *)

From S2P Require Import Prelude.

Definition NALUTypePFrame : Z := 1.
Definition NALUTypeIFrame : Z := 5.
Definition NALUTypeSPS : Z := 7.
Definition NALUTypePPS : Z := 8.

Definition nalType (b : Z) : Z := Z.land b 0x1F.

(** ** The Annex-B walker *)

(** How far into the suffix [l] the next start code is, or its length. *)
Fixpoint nalEnd (l : bytes) : nat :=
  match l with
  | x0 :: ((x1 :: x2 :: x3 :: _) as rest) =>
      if (x0 =? 0) && (x1 =? 0) && ((x2 =? 1) || ((x2 =? 0) && (x3 =? 1)))
      then O else S (nalEnd rest)
  | _ => length l
  end.

(** The first NAL unit of the type, [None] for nil. *)
Fixpoint annexbNAL (l : bytes) (want : Z) : option bytes :=
  match l with
  | x0 :: ((x1 :: x2 :: x3 :: tl) as rest) =>
      if negb ((x0 =? 0) && (x1 =? 0)) then annexbNAL rest want else
      let nal :=
        if x2 =? 1 then Some (x3 :: tl)
        else if (x2 =? 0) && negb (len tl =? 0) && (x3 =? 1) then Some tl
        else None in
      match nal with
      | None => annexbNAL rest want
      | Some [] => None
      | Some (n :: after) =>
          if nalType n =? want then Some (n :: take (nalEnd after) after)
          else annexbNAL rest want
      end
  | _ => None
  end.

Definition annexbContainsNALType (b : bytes) (want : Z) : bool :=
  match annexbNAL b want with Some _ => true | None => false end.

(** ** AVCC *)

Definition isAUD (b : Z) : bool :=
  (Z.land b 0x1F =? 9) || (Z.land b 0x7E =? Z.shiftl 35 1).

Fixpoint encodeLoop (annexb l : bytes) (i start : Z) (avc : bytes) : bytes :=
  let flush i := if start =? 0 then avc
                 else avc ++ be32 (u32 (i - start)) ++ seg annexb start i in
  match l with
  | x0 :: ((x1 :: x2 :: x3 :: tl) as rest) =>
      if (x0 =? 0) && (x1 =? 0) then
        if x2 =? 1 then
          encodeLoop annexb tl (i + 4) (if isAUD x3 then 0 else i + 3) (flush i)
        else if (x2 =? 0) && (x3 =? 1) then
          match tl with
          | [] => flush i
          | n :: tl' => encodeLoop annexb tl' (i + 5) (if isAUD n then 0 else i + 4) (flush i)
          end
        else encodeLoop annexb rest (i + 1) start avc
      else encodeLoop annexb rest (i + 1) start avc
  | _ => flush (len annexb)
  end.

Definition EncodeToAVCC (annexb : bytes) : bytes := encodeLoop annexb annexb 0 0 [].

Definition beU32 (b0 b1 b2 b3 : Z) : Z := b0 * 16777216 + b1 * 65536 + b2 * 256 + b3.

(** The outer [None] would be running out of fuel. *)
Fixpoint avccWalk (fuel : nat) (avcc : bytes) (want : Z) : option bool :=
  match fuel with
  | O => None
  | S fuel =>
      match avcc with
      | b0 :: b1 :: b2 :: b3 :: b4 :: _ =>
          let size := 4 + beU32 b0 b1 b2 b3 in
          if (len avcc <? size) || (size <? 5) then Some false else
          if nalType b4 =? want then Some true
          else avccWalk fuel (drop (Z.to_nat size) avcc) want
      | _ => Some false
      end
  end.

Definition avccContainsNALType (avcc : bytes) (want : Z) : option bool :=
  avccWalk (S (length avcc)) avcc want.

(** [DecodeAVCC]: the outer [None] is running out of fuel, the inner one a panic
    on a length field cut short. *)
Fixpoint decodeLoop (fuel : nat) (b : bytes) : option (option bytes) :=
  match fuel with
  | O => None
  | S fuel =>
      match b with
      | [] => Some (Some [])
      | b0 :: b1 :: b2 :: b3 :: rest =>
          let size := beU32 b0 b1 b2 b3 in
          if len rest <? size then Some (Some ([0; 0; 0; 1] ++ rest))
          else r ← decodeLoop fuel (drop (Z.to_nat size) rest);
               Some (tl ← r; Some ([0; 0; 0; 1] ++ take (Z.to_nat size) rest ++ tl))
      | _ => Some None
      end
  end.

Definition DecodeAVCC (b : bytes) : option bytes :=
  default None (decodeLoop (S (length b)) b).

(** ** Streams of NAL units *)

(** A unit that obeys emulation prevention: it holds no 00 00 00 or 00 00 01 and
    does not end in a zero byte. *)
Fixpoint clean (n : bytes) : bool :=
  match n with
  | [] => false
  | x0 :: rest =>
      match rest with
      | [] => negb (x0 =? 0)
      | x1 :: x2 :: _ => negb ((x0 =? 0) && (x1 =? 0) && ((x2 =? 0) || (x2 =? 1))) && clean rest
      | _ => clean rest
      end
  end.

(** Units with three- or four-byte start codes. *)
Definition startCode (long : bool) : bytes := if long then [0; 0; 0; 1] else [0; 0; 1].
Definition joinNALs (units : list (bool * bytes)) : bytes :=
  flat_map (fun u => startCode u.1 ++ u.2) units.
Definition unitType (n : bytes) : Z := nalType (hd 0 n).

Definition avccUnits (units : list bytes) : bytes :=
  flat_map (fun n => be32 (len n) ++ n) units.

(** What follows a unit: the end, or another start code. *)
Inductive boundary : bytes -> Prop :=
| boundary_end : boundary []
| boundary_long t : boundary (0 :: 0 :: 0 :: 1 :: t)
| boundary_short x t : boundary (0 :: 0 :: 1 :: x :: t).

Lemma join_boundary units :
  Forall (fun u => clean u.2 = true) units -> boundary (joinNALs units).
Proof.
  intros H. destruct units as [|[[] n] us]; [constructor|cbn; constructor|].
  apply Forall_cons in H as [Hn _]. cbn in *. destruct n; [done|]. constructor.
Qed.

Lemma clean_tail x y s : clean (x :: y :: s) = true -> clean (y :: s) = true.
Proof. destruct s; [done|]. intros H. apply andb_true_iff in H as [_ H]. exact H. Qed.

(** A window starting inside a clean unit is no start code. *)
Lemma clean_window x s k x1 x2 x3 t :
  clean (x :: s) = true -> s ++ k = x1 :: x2 :: x3 :: t -> boundary k ->
  (x =? 0) && (x1 =? 0) && ((x2 =? 1) || (x2 =? 0)) = false.
Proof.
  intros Hc Hk Hb. destruct s as [|y1 [|y2 s]]; cbn in Hk.
  - cbn in Hc. by destruct (x =? 0).
  - injection Hk as -> _. cbn in Hc. by destruct (x1 =? 0); rewrite ?andb_false_r.
  - injection Hk as -> -> _. cbn [clean] in Hc. apply andb_true_iff in Hc as [Hc _].
    destruct (x =? 0), (x1 =? 0), (x2 =? 0), (x2 =? 1); done.
Qed.

Lemma annexbNAL_step x0 x1 x2 x3 tl want :
  annexbNAL (x0 :: x1 :: x2 :: x3 :: tl) want =
  if negb ((x0 =? 0) && (x1 =? 0)) then annexbNAL (x1 :: x2 :: x3 :: tl) want else
  match (if x2 =? 1 then Some (x3 :: tl)
         else if (x2 =? 0) && negb (len tl =? 0) && (x3 =? 1) then Some tl else None) with
  | None => annexbNAL (x1 :: x2 :: x3 :: tl) want
  | Some [] => None
  | Some (n :: after) =>
      if nalType n =? want then Some (n :: take (nalEnd after) after)
      else annexbNAL (x1 :: x2 :: x3 :: tl) want
  end.
Proof. reflexivity. Qed.
Lemma nalEnd_step x0 x1 x2 x3 tl :
  nalEnd (x0 :: x1 :: x2 :: x3 :: tl) =
  if (x0 =? 0) && (x1 =? 0) && ((x2 =? 1) || ((x2 =? 0) && (x3 =? 1)))
  then O else S (nalEnd (x1 :: x2 :: x3 :: tl)).
Proof. reflexivity. Qed.

Ltac window_cases x1 x2 x :=
  destruct (x =? 0), (x1 =? 0); cbn [andb negb] in *; try done;
  destruct (x2 =? 1), (x2 =? 0); cbn [andb orb] in *; try done.

(** Scanning passes over a clean unit. *)
Lemma annexbNAL_skip s k want :
  clean s = true -> boundary k -> annexbNAL (s ++ k) want = annexbNAL k want.
Proof.
  intros Hc Hb. induction s as [|x s IH]; [done|].
  destruct (s ++ k) as [|x1 [|x2 [|x3 t]]] eqn:Hk.
  1-3: destruct Hb; cbn in Hk; destruct s as [|? [|? [|? s]]]; cbn in Hk; simplify_eq;
       try done; cbn [app annexbNAL]; done.
  pose proof (clean_window x s k x1 x2 x3 t Hc Hk Hb) as Hw.
  assert (annexbNAL (x1 :: x2 :: x3 :: t) want = annexbNAL k want) as Hr.
  { destruct s as [|y s]; [cbn in Hk; by rewrite Hk|]. apply IH. by apply clean_tail in Hc. }
  cbn [app]. rewrite Hk, annexbNAL_step. window_cases x1 x2 x.
Qed.

Lemma nalEnd_unit x s k : clean (x :: s) = true -> boundary k -> nalEnd (s ++ k) = length s.
Proof.
  intros Hc Hb. revert x Hc. induction s as [|y s IH]; intros x Hc.
  { destruct Hb; done. }
  apply clean_tail in Hc. specialize (IH y Hc). cbn [app].
  destruct (s ++ k) as [|x1 [|x2 [|x3 t]]] eqn:Hk; cbn [length].
  1-3: rewrite <- IH; done.
  pose proof (clean_window y s k x1 x2 x3 t Hc Hk Hb) as Hw. rewrite <- IH.
  rewrite nalEnd_step. window_cases x1 x2 y.
Qed.

(** Looking a type up in a stream finds the first unit of that type, whole. *)
Lemma annexbNAL_join units want :
  Forall (fun u => clean u.2 = true) units ->
  annexbNAL (joinNALs units) want =
  snd <$> head (filter (fun u => unitType u.2 = want) units).
Proof.
  induction units as [|[long n] us IH]; [done|]. intros [Hn Hus]%Forall_cons.
  specialize (IH Hus). pose proof (join_boundary us Hus) as Hb. cbn [snd] in Hn.
  destruct n as [|x s]; [done|].
  pose proof (nalEnd_unit x s (joinNALs us) Hn Hb) as He.
  pose proof (annexbNAL_skip (x :: s) (joinNALs us) want Hn Hb) as Hskip. rewrite IH in Hskip.
  assert (annexbNAL (0 :: 0 :: 1 :: x :: s ++ joinNALs us) want =
    snd <$> head (filter (fun u => unitType u.2 = want) ((long, x :: s) :: us))) as Hshort.
  { rewrite filter_cons. unfold unitType at 1. cbn [snd hd].
    assert (forall t want, annexbNAL (0 :: 0 :: 1 :: x :: t) want =
      if nalType x =? want then Some (x :: take (nalEnd t) t)
      else annexbNAL (0 :: 1 :: x :: t) want) as -> by reflexivity.
    destruct (Z.eqb_spec (nalType x) want) as [E|E].
    - rewrite decide_True by done. cbn. by rewrite He, take_app_length.
    - rewrite decide_False by done. rewrite <- Hskip. cbn [app].
      destruct (s ++ joinNALs us) as [|z1 [|z2 z]]; reflexivity. }
  destruct long; [|exact Hshort].
  change (joinNALs ((true, x :: s) :: us)) with (0 :: 0 :: 0 :: 1 :: x :: s ++ joinNALs us).
  rewrite <- Hshort, annexbNAL_step.
  assert ((len (x :: s ++ joinNALs us) =? 0) = false) as ->
    by (apply Z.eqb_neq; rewrite len_cons; pose proof (len_nonneg (s ++ joinNALs us)); lia).
  change (annexbNAL (0 :: 0 :: 1 :: x :: s ++ joinNALs us) want) with
    (if nalType x =? want then Some (x :: take (nalEnd (s ++ joinNALs us)) (s ++ joinNALs us))
     else annexbNAL (0 :: 1 :: x :: s ++ joinNALs us) want).
  cbn [Z.eqb Pos.eqb andb negb]. by destruct (nalType x =? want).
Qed.

(** The walker returns the first unit of the wanted type, with its exact extent,
    whatever start codes separate the units. *)
Theorem annexb_finds_first (units : list (bool * bytes)) (want : Z)
    (Hunits : Forall (fun u => clean u.2 = true) units) :
  annexbNAL (joinNALs units) want = snd <$> head (filter (fun u => unitType u.2 = want) units) /\
  (annexbContainsNALType (joinNALs units) want = true <->
     exists u, u ∈ units /\ unitType u.2 = want).
Proof.
  pose proof (annexbNAL_join units want Hunits) as H. split; [done|].
  unfold annexbContainsNALType. rewrite H.
  destruct (filter _ units) as [|u us] eqn:E; cbn.
  - split; [done|]. intros (u & Hu & Ht).
    assert (u ∈ filter (fun u : bool * bytes => unitType u.2 = want) units) as Hf
      by by apply list_elem_of_filter.
    rewrite E in Hf. by apply elem_of_nil in Hf.
  - split; [intros _|done]. exists u.
    assert (u ∈ filter (fun u : bool * bytes => unitType u.2 = want) units) as Hf by (rewrite E; by left).
    apply list_elem_of_filter in Hf as [? ?]. done.
Qed.

Lemma annexb_finds_first_witness :
  annexbNAL (joinNALs [(true, [0x67; 1; 2]); (true, [0x68; 9]); (false, [0x65; 0; 0; 3; 7])]) 5 =
  Some [0x65; 0; 0; 3; 7].
Proof.
  apply (annexb_finds_first [(true, [0x67; 1; 2]); (true, [0x68; 9]); (false, [0x65; 0; 0; 3; 7])] 5).
  repeat constructor.
Defined.

(** ** Conversion to AVCC *)

Lemma encodeLoop_step A x0 x1 x2 x3 tl i start avc :
  let flush i := if start =? 0 then avc else avc ++ be32 (u32 (i - start)) ++ seg A start i in
  encodeLoop A (x0 :: x1 :: x2 :: x3 :: tl) i start avc =
  if (x0 =? 0) && (x1 =? 0) then
    if x2 =? 1 then encodeLoop A tl (i + 4) (if isAUD x3 then 0 else i + 3) (flush i)
    else if (x2 =? 0) && (x3 =? 1) then
      match tl with
      | [] => flush i
      | n :: tl' => encodeLoop A tl' (i + 5) (if isAUD n then 0 else i + 4) (flush i)
      end
    else encodeLoop A (x1 :: x2 :: x3 :: tl) (i + 1) start avc
  else encodeLoop A (x1 :: x2 :: x3 :: tl) (i + 1) start avc.
Proof. reflexivity. Qed.

Lemma encode_scan A x s k i st avc :
  clean (x :: s) = true -> boundary k ->
  encodeLoop A (s ++ k) i st avc = encodeLoop A k (i + len s) st avc.
Proof.
  intros Hc Hb. revert x i Hc. induction s as [|y s IH]; intros x i Hc.
  { unfold len. cbn. by rewrite Z.add_0_r. }
  apply clean_tail in Hc. specialize (IH y (i + 1) Hc). cbn [app].
  rewrite len_cons. replace (i + (len s + 1)) with (i + 1 + len s) by lia. rewrite <- IH.
  destruct (s ++ k) as [|x1 [|x2 [|x3 t]]] eqn:Hk; [done..|].
  pose proof (clean_window y s k x1 x2 x3 t Hc Hk Hb) as Hw.
  rewrite encodeLoop_step. window_cases x1 x2 y.
Qed.

Lemma seg_mid pre mid post :
  seg (pre ++ mid ++ post) (len pre) (len pre + len mid) = mid.
Proof.
  unfold seg, len. rewrite drop_app_length' by lia. apply take_app_length'. lia.
Qed.

Definition keptUnits (units : list (bool * bytes)) : list bytes :=
  filter (fun n => isAUD (hd 0 n) = false) (snd <$> units).

Lemma kept_cons u us :
  keptUnits (u :: us) = (if isAUD (hd 0 u.2) then [] else [u.2]) ++ keptUnits us.
Proof.
  unfold keptUnits. cbn [fmap list_fmap]. rewrite filter_cons.
  destruct (isAUD _) eqn:E; case_decide; done.
Qed.

(** The pending unit [cur], if one is kept, ends where the scan stands. *)
Definition pending_unit (A : bytes) (i start : Z) (cur : option bytes) : Prop :=
  match cur with
  | None => start = 0
  | Some n => start <> 0 /\ 0 <= start /\ i = start + len n /\ seg A start i = n
  end.
Definition pending_avcc (cur : option bytes) : bytes :=
  match cur with None => [] | Some n => be32 (len n) ++ n end.

Lemma flush_pending A i start cur avc :
  pending_unit A i start cur -> i <= len A < 4294967296 ->
  (if start =? 0 then avc else avc ++ be32 (u32 (i - start)) ++ seg A start i) =
  avc ++ pending_avcc cur.
Proof.
  intros Hp HA. destruct cur as [n|]; cbn in *.
  - destruct Hp as (H0 & Hs & -> & Hseg). destruct (Z.eqb_spec start 0); [lia|].
    rewrite Hseg, u32_small; [by replace (start + len n - start) with (len n) by lia|].
    pose proof (len_nonneg n). unfold is_u32. lia.
  - subst. by rewrite app_nil_r.
Qed.

Lemma encode_units A us : forall pre start cur avc,
  Forall (fun u => clean u.2 = true) us -> A = pre ++ joinNALs us -> len A < 4294967296 ->
  pending_unit A (len pre) start cur ->
  encodeLoop A (joinNALs us) (len pre) start avc =
  avc ++ pending_avcc cur ++ avccUnits (keptUnits us).
Proof.
  induction us as [|[long n] us IH]; intros pre start cur avc Hus HA Hlen Hp.
  { cbn [joinNALs flat_map] in *. rewrite app_nil_r in HA. subst A.
    change (encodeLoop pre [] (len pre) start avc) with
      (if start =? 0 then avc else avc ++ be32 (u32 (len pre - start)) ++ seg pre start (len pre)).
    rewrite (flush_pending pre (len pre) start cur) by (done || lia).
    change (avccUnits (keptUnits [])) with (@nil Z). by rewrite app_nil_r. }
  apply Forall_cons in Hus as [Hn Hus]. cbn [snd] in Hn. destruct n as [|x s]; [done|].
  pose proof (join_boundary us Hus) as Hb.
  assert (len A = len pre + len (startCode long) + len (x :: s) + len (joinNALs us)) as HlA.
  { subst A. cbn [joinNALs flat_map fst snd]. rewrite !len_app. fold (joinNALs us). lia. }
  pose proof (len_nonneg pre). pose proof (len_nonneg s). pose proof (len_nonneg (joinNALs us)).
  set (i := len pre) in *. set (c := len (startCode long)) in *.
  assert (3 <= c) as Hc by (destruct long; vm_compute; discriminate).
  rewrite len_cons in HlA.
  assert (encodeLoop A (joinNALs ((long, x :: s) :: us)) i start avc =
    encodeLoop A (s ++ joinNALs us) (i + c + 1) (if isAUD x then 0 else i + c)
      (avc ++ pending_avcc cur)) as ->.
  { rewrite <- (flush_pending A i start cur avc Hp) by lia. subst c. destruct long.
    - change (joinNALs ((true, x :: s) :: us)) with (0 :: 0 :: 0 :: 1 :: x :: s ++ joinNALs us).
      rewrite encodeLoop_step. cbn [Z.eqb Pos.eqb andb].
      replace (i + len (startCode true)) with (i + 4) by (unfold len; cbn; lia).
      by replace (i + 4 + 1) with (i + 5) by lia.
    - change (joinNALs ((false, x :: s) :: us)) with (0 :: 0 :: 1 :: x :: s ++ joinNALs us).
      rewrite encodeLoop_step. cbn [Z.eqb Pos.eqb andb].
      replace (i + len (startCode false)) with (i + 3) by (unfold len; cbn; lia).
      by replace (i + 3 + 1) with (i + 4) by lia. }
  rewrite (encode_scan A x s (joinNALs us)) by done.
  assert (A = (pre ++ startCode long ++ x :: s) ++ joinNALs us) as HA'.
  { rewrite HA. cbn [joinNALs flat_map fst snd]. fold (joinNALs us). by rewrite <- !app_assoc. }
  assert (len (pre ++ startCode long ++ x :: s) = i + c + 1 + len s) as Hl'
    by (rewrite !len_app, len_cons; fold i c; lia).
  rewrite <- Hl'.
  rewrite (IH (pre ++ startCode long ++ x :: s) _ (if isAUD x then None else Some (x :: s)));
    [|done|done|done|].
  - rewrite kept_cons. cbn [snd hd]. destruct (isAUD x); cbn [pending_avcc app avccUnits flat_map];
      by rewrite <- ?app_assoc.
  - destruct (isAUD x); [done|]. cbn [pending_unit]. rewrite Hl', len_cons.
    do 2 (split; [lia|]). split; [lia|].
    rewrite HA', <- !app_assoc, (app_assoc pre).
    replace (i + c) with (len (pre ++ startCode long)) by (by rewrite len_app).
    replace (len (pre ++ startCode long) + 1 + len s) with (len (pre ++ startCode long) + len (x :: s))
      by (rewrite len_cons; lia).
    apply seg_mid.
Qed.

Lemma encode_join us :
  Forall (fun u => clean u.2 = true) us -> len (joinNALs us) < 4294967296 ->
  EncodeToAVCC (joinNALs us) = avccUnits (keptUnits us).
Proof. intros. apply (encode_units (joinNALs us) us [] 0 None []); done. Qed.

(** *** The AVCC walkers *)

Lemma beU32_be32 v : is_u32 v ->
  exists b0 b1 b2 b3, be32 v = [b0; b1; b2; b3] /\ beU32 b0 b1 b2 b3 = v.
Proof.
  intros Hv. unfold be32, le32, reverse. cbn. do 4 eexists. split; [reflexivity|].
  unfold beU32. ints.
Qed.

Lemma avccUnits_cons n ns : avccUnits (n :: ns) = be32 (len n) ++ n ++ avccUnits ns.
Proof. change (avccUnits (n :: ns)) with ((be32 (len n) ++ n) ++ avccUnits ns). by rewrite <- app_assoc. Qed.

Lemma avccWalk_units ns want : forall fuel,
  Forall (fun n => n <> [] /\ len n < 4294967296) ns -> (length (avccUnits ns) < fuel)%nat ->
  avccWalk fuel (avccUnits ns) want = Some (existsb (fun n => unitType n =? want) ns).
Proof.
  induction ns as [|n ns IH]; intros fuel Hns Hf; (destruct fuel as [|fuel]; [lia|]); [done|].
  apply Forall_cons in Hns as [[Hn Hl] Hns]. rewrite avccUnits_cons in *.
  pose proof (len_nonneg n). pose proof (len_nonneg (avccUnits ns)).
  destruct (beU32_be32 (len n) ltac:(unfold is_u32; lia)) as (b0 & b1 & b2 & b3 & E & Eb).
  rewrite E in *. destruct n as [|x n]; [done|]. cbn [app avccWalk]. rewrite Eb.
  assert (len (b0 :: b1 :: b2 :: b3 :: x :: n ++ avccUnits ns) = 4 + len (x :: n) + len (avccUnits ns))
    as -> by (rewrite !len_cons, len_app; lia).
  destruct (Z.ltb_spec (4 + len (x :: n) + len (avccUnits ns)) (4 + len (x :: n))); [lia|].
  destruct (Z.ltb_spec (4 + len (x :: n)) 5); [rewrite len_cons in *; pose proof (len_nonneg n); lia|].
  cbn [orb existsb]. change (unitType (x :: n)) with (nalType x).
  destruct (nalType x =? want); cbn [orb]; [done|].
  change (b0 :: b1 :: b2 :: b3 :: x :: n ++ avccUnits ns) with
    ([b0; b1; b2; b3] ++ (x :: n) ++ avccUnits ns).
  rewrite app_assoc, drop_app_length' by (rewrite length_app; unfold len in *; cbn [length] in *; lia).
  apply IH; [done|]. rewrite !length_app in Hf. cbn in Hf. lia.
Qed.

Lemma decodeLoop_units ns : forall fuel,
  Forall (fun n => len n < 4294967296) ns -> (length (avccUnits ns) < fuel)%nat ->
  decodeLoop fuel (avccUnits ns) = Some (Some (joinNALs ((fun n => (true, n)) <$> ns))).
Proof.
  induction ns as [|n ns IH]; intros fuel Hns Hf; (destruct fuel as [|fuel]; [lia|]); [done|].
  apply Forall_cons in Hns as [Hl Hns]. rewrite avccUnits_cons in *.
  pose proof (len_nonneg n). pose proof (len_nonneg (avccUnits ns)).
  destruct (beU32_be32 (len n) ltac:(unfold is_u32; lia)) as (b0 & b1 & b2 & b3 & E & Eb).
  rewrite E in *. cbn [app decodeLoop]. rewrite Eb, len_app.
  destruct (Z.ltb_spec (len n + len (avccUnits ns)) (len n)); [lia|].
  rewrite drop_app_length', take_app_length' by (unfold len; lia).
  rewrite IH by (rewrite ?length_app in *; cbn in *; done || lia). cbn.
  reflexivity.
Qed.

Lemma kept_ok us :
  Forall (fun u => clean u.2 = true) us -> len (joinNALs us) < 4294967296 ->
  Forall (fun n => n <> [] /\ len n < 4294967296) (keptUnits us).
Proof.
  induction us as [|[long n] us IH]; intros Hus Hlen; [constructor|].
  apply Forall_cons in Hus as [Hn Hus]. cbn [joinNALs flat_map fst snd] in Hlen.
  fold (joinNALs us) in Hlen. rewrite !len_app in Hlen.
  pose proof (len_nonneg (startCode long)). pose proof (len_nonneg n).
  pose proof (len_nonneg (joinNALs us)).
  rewrite kept_cons. apply Forall_app. split; [|apply IH; [done|lia]].
  cbn. destruct (isAUD _); [constructor|]. repeat constructor; [|lia]. by destruct n.
Qed.

(** Annex-B to AVCC and back: every unit but the delimiters is kept, whole and in
    order, behind its length; the AVCC walker sees exactly those units, and
    decoding gives the stream with long start codes. *)
Theorem avcc_conversion (units : list (bool * bytes)) (want : Z)
    (Hunits : Forall (fun u => clean u.2 = true) units)
    (Hlen : len (joinNALs units) < 4294967296) :
  EncodeToAVCC (joinNALs units) = avccUnits (keptUnits units) /\
  avccContainsNALType (EncodeToAVCC (joinNALs units)) want =
    Some (existsb (fun n => unitType n =? want) (keptUnits units)) /\
  DecodeAVCC (EncodeToAVCC (joinNALs units)) =
    Some (joinNALs ((fun n => (true, n)) <$> keptUnits units)).
Proof.
  pose proof (kept_ok units Hunits Hlen) as Hok. rewrite encode_join by done.
  split; [done|]. split; [apply avccWalk_units; [done|lia]|].
  unfold DecodeAVCC. rewrite decodeLoop_units; [done| |lia].
  eapply Forall_impl; [exact Hok|]. cbn. tauto.
Qed.

Lemma avcc_conversion_witness :
  avccContainsNALType (EncodeToAVCC (joinNALs [(true, [9; 0xF0]); (true, [0x67; 1]); (false, [0x65; 7])])) 5
  = Some true.
Proof.
  apply (avcc_conversion [(true, [9; 0xF0]); (true, [0x67; 1]); (false, [0x65; 7])] 5);
    [repeat constructor|vm_compute; reflexivity].
Defined.

(** The delimiter test also fires on H.264 units that are not delimiters: types 6
    and 7 with [nal_ref_idc] 2 or 6 (0x46, 0x47, 0xc6, 0xc7) look like the H.265
    delimiter, so a parameter set with that header byte is dropped. *)
Theorem sps_with_ref_idc_2_dropped :
  unitType [0x47; 0x42; 0; 0x1f; 0x8d] = NALUTypeSPS /\
  EncodeToAVCC (joinNALs [(true, [0x47; 0x42; 0; 0x1f; 0x8d]); (true, [0x68; 0xce])]) =
    avccUnits [[0x68; 0xce]].
Proof. vm_compute. done. Qed.
