(* ===== verification/Bits.v ===== *)
(** The bit reader of [pkg/bits/reader.go] and its abstraction: a stream of bits.
    Reads are state-passing functions of the reader. *)

From S2P Require Import Prelude.

Record Reader := mkReader {
  EOF : bool;   (* the end of the buffer was met *)
  buf : bytes;
  byte : Z;     (* current byte *)
  bits : Z;     (* bits left in it *)
  pos : Z;
}.

Definition NewReader (b : bytes) : Reader := mkReader false b 0 0 0.

(** A reading action, and sequencing. *)
Definition Rd (A : Type) : Type := Reader -> A * Reader.
Definition rret {A} (a : A) : Rd A := fun r => (a, r).
Definition rbind {A B} (m : Rd A) (k : A -> Rd B) : Rd B := fun r => let '(a, r') := m r in k a r'.

Declare Scope reader_scope.
Notation "x <- m ;; k" := (rbind m (fun x => k))
  (at level 100, m at next level, right associativity) : reader_scope.
Open Scope reader_scope.

(** [ReadByte] on a byte boundary. *)
Definition readAligned : Rd Z := fun r =>
  if len (buf r) <=? pos r then (0, mkReader true (buf r) (byte r) (bits r) (pos r))
  else (at_ (buf r) (pos r), mkReader (EOF r) (buf r) (byte r) (bits r) (pos r + 1)).

Definition ReadBit : Rd Z := fun r =>
  if bits r =? 0 then
    let '(b, r) := readAligned r in
    (Z.land (Z.shiftr b 7) 1, mkReader (EOF r) (buf r) b 7 (pos r))
  else
    let k := bits r - 1 in
    (Z.land (Z.shiftr (byte r) k) 1, mkReader (EOF r) (buf r) (byte r) k (pos r)).

(** [for i := n - 1; i != 255; i--]: from the top bit down; [w] is the width of the
    result. *)
Fixpoint readBitsInto (w : Z -> Z) (n : nat) (res : Z) : Rd Z :=
  match n with
  | O => rret res
  | S i => b <- ReadBit;; readBitsInto w i (Z.lor res (w (Z.shiftl b (Z.of_nat i))))
  end.

Definition ReadBits (n : nat) : Rd Z := readBitsInto u32 n 0.
Definition ReadBits8 (n : nat) : Rd Z := readBitsInto u8 n 0.
Definition ReadBits16 (n : nat) : Rd Z := readBitsInto u16 n 0.
Definition ReadBits64 (n : nat) : Rd Z := readBitsInto u64 n 0.

Definition ReadByte : Rd Z := fun r => if bits r =? 0 then readAligned r else ReadBits8 8 r.

Definition ReadUint16 : Rd Z := fun r =>
  if bits r =? 0 then
    (h <- ReadByte;; l <- ReadByte;; rret (Z.lor (Z.shiftl h 8) l)) r
  else ReadBits16 16 r.
Definition ReadUint24 : Rd Z := fun r =>
  if bits r =? 0 then
    (a <- ReadByte;; b <- ReadByte;; c <- ReadByte;;
     rret (Z.lor (Z.lor (Z.shiftl a 16) (Z.shiftl b 8)) c)) r
  else ReadBits 24 r.
Definition ReadUint32 : Rd Z := fun r =>
  if bits r =? 0 then
    (a <- ReadByte;; b <- ReadByte;; c <- ReadByte;; d <- ReadByte;;
     rret (Z.lor (Z.lor (Z.lor (Z.shiftl a 24) (Z.shiftl b 16)) (Z.shiftl c 8)) d)) r
  else ReadBits 32 r.

Definition ReadBytes (n : nat) : Rd bytes := fun r =>
  if bits r =? 0 then
    if len (buf r) <? pos r + Z.of_nat n
    then ([], mkReader true (buf r) (byte r) (bits r) (pos r))
    else (seg (buf r) (pos r) (pos r + Z.of_nat n),
          mkReader (EOF r) (buf r) (byte r) (bits r) (pos r + Z.of_nat n))
  else Nat.iter n (fun m => bs <- m;; b <- ReadByte;; rret (bs ++ [b])) (rret []) r.

(** The leading zeros, at most 32. *)
Fixpoint ueSize (fuel size : nat) : Rd nat := fun r =>
  match fuel with
  | O => (size, r)
  | S fuel =>
      let '(b, r) := ReadBit r in
      if negb (b =? 0) || EOF r then (size, r) else ueSize fuel (S size) r
  end.

Definition ReadUEGolomb : Rd Z :=
  size <- ueSize 32 0;; v <- ReadBits size;;
  rret (u32 (v + u32 (Z.shiftl 1 (Z.of_nat size)) - 1)).

Definition ReadSEGolomb : Rd Z :=
  b <- ReadUEGolomb;;
  rret (if b mod 2 =? 0 then - (b / 2) else u32 (b + 1) / 2).

Definition Left (r : Reader) : bytes := seg (buf r) (pos r) (len (buf r)).
Definition Pos (r : Reader) : Z * Z := (pos r - 1, bits r).

(** ** The stream a reader stands for *)

(** The low [n] bits of [v], most significant first. *)
Fixpoint bits_of (n : nat) (v : Z) : list bool :=
  match n with
  | O => []
  | S i => Z.testbit v (Z.of_nat i) :: bits_of i v
  end.

Definition stream (r : Reader) : list bool :=
  bits_of (Z.to_nat (bits r)) (byte r) ++
  flat_map (bits_of 8) (drop (Z.to_nat (pos r)) (buf r)).

Definition reader_wf (r : Reader) : Prop := 0 <= bits r < 8 /\ 0 <= pos r <= len (buf r) /\ bytes_ok (buf r).

(** A read that consumes [pre] and returns [v]. *)
Definition reads_as {A} (m : Rd A) (pre : list bool) (v : A) : Prop :=
  forall r s, reader_wf r -> EOF r = false -> stream r = pre ++ s ->
  exists r', m r = (v, r') /\ reader_wf r' /\ EOF r' = false /\ stream r' = s.

Lemma reads_ret {A} (a : A) : reads_as (rret a) [] a.
Proof. intros r s. unfold rret. eauto. Qed.

Lemma reads_bind {A B} (m : Rd A) (k : A -> Rd B) p q a b :
  reads_as m p a -> reads_as (k a) q b -> reads_as (rbind m k) (p ++ q) b.
Proof.
  intros Hm Hk r s Hr Heof Hs. rewrite <- app_assoc in Hs.
  destruct (Hm r _ Hr Heof Hs) as (r1 & E & H1 & H2 & H3). unfold rbind. rewrite E. eauto.
Qed.

Lemma land1_testbit v i : 0 <= i -> Z.land (Z.shiftr v i) 1 = Z.b2z (Z.testbit v i).
Proof.
  intros. change 1 with (Z.ones 1). rewrite Z.land_ones by lia.
  rewrite Z.shiftr_div_pow2 by lia. change (2 ^ 1) with 2. by rewrite Z.testbit_spec' by lia.
Qed.

Lemma reads_bit b : reads_as ReadBit [b] (Z.b2z b).
Proof.
  intros r s (Hb & Hp & Hok) Heof Hs. unfold ReadBit, stream, readAligned in *.
  destruct (Z.eqb_spec (bits r) 0) as [E|E].
  - rewrite E in Hs. cbn [Z.to_nat bits_of app] in Hs.
    destruct (drop (Z.to_nat (pos r)) (buf r)) as [|x l] eqn:Ed; [done|].
    assert (buf r !! Z.to_nat (pos r) = Some x) as Hx
      by (by rewrite <- (Nat.add_0_r (Z.to_nat _)), <- lookup_drop, Ed).
    assert (Z.to_nat (pos r) < length (buf r))%nat as Hlt by by apply lookup_lt_Some in Hx.
    destruct (Z.leb_spec (len (buf r)) (pos r)); [unfold len in *; lia|].
    assert (at_ (buf r) (pos r) = x) as ->
      by (unfold at_, rd; rewrite decide_True by lia; by rewrite Hx).
    cbn [EOF buf pos flat_map bits_of app] in *. injection Hs as Hb7 Hs.
    rewrite land1_testbit by lia. assert (Z.testbit x 7 = b) as -> by exact Hb7.
    eexists. split; [reflexivity|]. split; [split; [cbn; lia|]; split; [cbn; unfold len in *; lia|done]|].
    split; [done|]. cbn [bits pos byte buf]. rewrite <- Hs.
    replace (Z.to_nat (pos r + 1)) with (S (Z.to_nat (pos r))) by lia.
    assert (drop (S (Z.to_nat (pos r))) (buf r) = l) as ->.
    { rewrite <- Nat.add_1_r, <- drop_drop, Ed. done. }
    done.
  - replace (Z.to_nat (bits r)) with (S (Z.to_nat (bits r - 1))) in Hs by lia.
    cbn [bits_of app] in Hs. injection Hs as Hb1 Hs.
    rewrite land1_testbit by lia. rewrite Z2Nat.id in Hb1 by lia. rewrite Hb1.
    eexists. split; [reflexivity|]. split; [split; [cbn; lia|]; done|]. done.
Qed.

(** Or-ing a bit in below the ones already placed is addition. *)
Lemma lor_below hi b i :
  0 <= i -> Z.lor (hi * 2 ^ (i + 1)) (Z.b2z b * 2 ^ i) = hi * 2 ^ (i + 1) + Z.b2z b * 2 ^ i.
Proof.
  intros Hi. assert (Z.land (hi * 2 ^ (i + 1)) (Z.b2z b * 2 ^ i) = 0) as Hl.
  { apply Z.bits_inj'. intros n Hn. rewrite Z.land_spec, Z.bits_0.
    rewrite !Z.mul_pow2_bits by lia.
    destruct (Z.lt_ge_cases n (i + 1)).
    - by rewrite (Z.testbit_neg_r hi) by lia.
    - rewrite (Z.bits_above_log2 (Z.b2z b)), andb_false_r;
        [done|destruct b; cbn; lia|destruct b; cbn; lia]. }
  rewrite (Z.add_nocarry_lxor _ _ Hl). symmetry. by apply Z.lxor_lor.
Qed.

Lemma bits_of_split n v : 0 <= v < 2 ^ Z.of_nat (S n) ->
  v = Z.b2z (Z.testbit v (Z.of_nat n)) * 2 ^ Z.of_nat n + v mod 2 ^ Z.of_nat n.
Proof.
  intros Hv. rewrite Z.testbit_spec' by lia.
  rewrite Nat2Z.inj_succ, Z.pow_succ_r in Hv by lia.
  assert (0 < 2 ^ Z.of_nat n) by (apply Z.pow_pos_nonneg; lia).
  assert (0 <= v / 2 ^ Z.of_nat n < 2) as Hq
    by (split; [apply Z.div_pos|apply Z.div_lt_upper_bound]; lia).
  rewrite Z.mod_small by lia. rewrite Z.mul_comm. by apply Z_div_mod_eq_full.
Qed.

Lemma bits_of_mod n v : bits_of n (v mod 2 ^ Z.of_nat n) = bits_of n v.
Proof.
  assert (forall m, (n <= m)%nat -> bits_of n (v mod 2 ^ Z.of_nat m) = bits_of n v) as H;
    [|by apply H].
  induction n as [|n IH]; intros m Hm; [done|]. cbn [bits_of].
  rewrite Z.mod_pow2_bits_low by lia. by rewrite IH by lia.
Qed.

Lemma reads_bits_into w n : forall hi v,
  (forall x, 0 <= x < 2 ^ Z.of_nat n -> w x = x) -> 0 <= v < 2 ^ Z.of_nat n ->
  reads_as (readBitsInto w n (hi * 2 ^ Z.of_nat n)) (bits_of n v) (hi * 2 ^ Z.of_nat n + v).
Proof.
  induction n as [|n IH]; intros hi v Hw Hv.
  { assert (v = 0) as -> by (cbn in Hv; lia). rewrite Z.add_0_r. apply reads_ret. }
  assert (0 < 2 ^ Z.of_nat n) as Hpos by (apply Z.pow_pos_nonneg; lia).
  assert (2 ^ Z.of_nat (S n) = 2 * 2 ^ Z.of_nat n) as Hpow
    by (rewrite Nat2Z.inj_succ, Z.pow_succ_r by lia; lia).
  pose proof (bits_of_split n v Hv) as Hsplit. set (b := Z.testbit v (Z.of_nat n)) in *.
  cbn [readBitsInto bits_of]. fold b. change (b :: bits_of n v) with ([b] ++ bits_of n v).
  apply (reads_bind _ _ _ _ (Z.b2z b)); [apply reads_bit|].
  rewrite Z.shiftl_mul_pow2 by lia. rewrite Hw by (destruct b; cbn [Z.b2z]; lia).
  assert (Z.lor (hi * 2 ^ Z.of_nat (S n)) (Z.b2z b * 2 ^ Z.of_nat n) =
          (2 * hi + Z.b2z b) * 2 ^ Z.of_nat n) as ->.
  { replace (Z.of_nat (S n)) with (Z.of_nat n + 1) by lia. rewrite lor_below by lia.
    rewrite Z.pow_add_r by lia. change (2 ^ 1) with 2. lia. }
  rewrite <- bits_of_mod.
  replace (hi * 2 ^ Z.of_nat (S n) + v) with ((2 * hi + Z.b2z b) * 2 ^ Z.of_nat n + v mod 2 ^ Z.of_nat n) by lia.
  apply IH; [intros; apply Hw; lia|]. apply Z.mod_pos_bound. lia.
Qed.

Lemma reads_bits n v : (n <= 32)%nat -> 0 <= v < 2 ^ Z.of_nat n -> reads_as (ReadBits n) (bits_of n v) v.
Proof.
  intros Hn Hv. apply (reads_bits_into u32 n 0 v); [|done]. intros x Hx. apply u32_small.
  assert (2 ^ Z.of_nat n <= 2 ^ 32) by (apply Z.pow_le_mono_r; lia).
  change (2 ^ 32) with 4294967296 in *. unfold is_u32. lia.
Qed.

Lemma reads_bits8 n v : (n <= 8)%nat -> 0 <= v < 2 ^ Z.of_nat n -> reads_as (ReadBits8 n) (bits_of n v) v.
Proof.
  intros Hn Hv. apply (reads_bits_into u8 n 0 v); [|done]. intros x Hx. apply u8_small.
  assert (2 ^ Z.of_nat n <= 2 ^ 8) by (apply Z.pow_le_mono_r; lia).
  change (2 ^ 8) with 256 in *. unfold is_byte. lia.
Qed.
Lemma reads_bits16 n v : (n <= 16)%nat -> 0 <= v < 2 ^ Z.of_nat n -> reads_as (ReadBits16 n) (bits_of n v) v.
Proof.
  intros Hn Hv. apply (reads_bits_into u16 n 0 v); [|done]. intros x Hx. apply u16_small.
  assert (2 ^ Z.of_nat n <= 2 ^ 16) by (apply Z.pow_le_mono_r; lia).
  change (2 ^ 16) with 65536 in *. unfold is_u16. lia.
Qed.

Lemma bits_of_inj n x v :
  0 <= x < 2 ^ Z.of_nat n -> 0 <= v < 2 ^ Z.of_nat n -> bits_of n x = bits_of n v -> x = v.
Proof.
  revert x v. induction n as [|n IH]; intros x v Hx Hv; [cbn in *; lia|].
  pose proof (bits_of_split n x Hx) as Sx. pose proof (bits_of_split n v Hv) as Sv.
  cbn [bits_of]. intros [= Hb Hr]. rewrite <- (bits_of_mod n x), <- (bits_of_mod n v) in Hr.
  assert (0 < 2 ^ Z.of_nat n) by (apply Z.pow_pos_nonneg; lia).
  apply IH in Hr; [|by apply Z.mod_pos_bound..]. rewrite Hb, Hr in Sx. lia.
Qed.

Lemma length_bits_of n v : length (bits_of n v) = n.
Proof. induction n; cbn [bits_of length]; congruence. Qed.

Lemma bits_of_app n m v : 0 <= v ->
  bits_of (n + m) v = bits_of n (v / 2 ^ Z.of_nat m) ++ bits_of m v.
Proof.
  intros Hv. induction n as [|n IH]; [done|]. cbn [Nat.add bits_of app]. rewrite IH. f_equal.
  rewrite Z.div_pow2_bits by lia. f_equal. lia.
Qed.

Lemma lor_shift a b k : 0 <= k -> 0 <= b < 2 ^ k -> Z.lor (Z.shiftl a k) b = a * 2 ^ k + b.
Proof.
  intros Hk Hb. rewrite Z.shiftl_mul_pow2 by done.
  assert (Z.land (a * 2 ^ k) b = 0) as Hl.
  { apply Z.bits_inj'. intros n Hn. rewrite Z.land_spec, Z.bits_0, Z.mul_pow2_bits by lia.
    destruct (Z.lt_ge_cases n k); [by rewrite (Z.testbit_neg_r a) by lia|].
    destruct (Z.eq_dec b 0) as [->|]; [by rewrite Z.bits_0, andb_false_r|].
    rewrite (Z.bits_above_log2 b), andb_false_r; [done|lia|].
    apply Z.log2_lt_pow2; [lia|]. eapply Z.lt_le_trans; [apply Hb|]. apply Z.pow_le_mono_r; lia. }
  rewrite (Z.add_nocarry_lxor _ _ Hl). symmetry. by apply Z.lxor_lor.
Qed.

(** *** Bytes and wider reads, aligned or not *)

Lemma reads_byte v : is_byte v -> reads_as ReadByte (bits_of 8 v) v.
Proof.
  intros Hv r s Hwf Heof Hs. unfold ReadByte.
  destruct (Z.eqb_spec (bits r) 0) as [E|E]; [|by apply (reads_bits8 8 v)].
  destruct Hwf as (_ & Hp & Hok). unfold readAligned.
  assert (stream r = flat_map (bits_of 8) (drop (Z.to_nat (pos r)) (buf r))) as Hst
    by (unfold stream; by rewrite E).
  rewrite Hst in Hs. clear Hst.
  destruct (drop (Z.to_nat (pos r)) (buf r)) as [|x l] eqn:Ed; [done|].
  assert (buf r !! Z.to_nat (pos r) = Some x) as Hx
    by (by rewrite <- (Nat.add_0_r (Z.to_nat _)), <- lookup_drop, Ed).
  assert (Z.to_nat (pos r) < length (buf r))%nat as Hlt by by apply lookup_lt_Some in Hx.
  assert (is_byte x) as Hbx by by eapply Forall_lookup_1 in Hx.
  destruct (Z.leb_spec (len (buf r)) (pos r)); [unfold len in *; lia|].
  assert (at_ (buf r) (pos r) = x) as ->
    by (unfold at_, rd; rewrite decide_True by lia; by rewrite Hx).
  cbn [flat_map] in Hs. apply app_inj_1 in Hs as [Hxv Hs]; [|by rewrite !length_bits_of].
  apply bits_of_inj in Hxv; [|done|done]. subst x.
  eexists. split; [reflexivity|].
  split; [split; [cbn; lia|]; split; [cbn; unfold len in *; lia|done]|]. split; [done|].
  unfold stream. cbn [bits byte buf pos]. rewrite E, <- Hs. change (bits_of (Z.to_nat 0) (byte r)) with (@nil bool).
  replace (Z.to_nat (pos r + 1)) with (Z.to_nat (pos r) + 1)%nat by lia.
  by rewrite <- drop_drop, Ed.
Qed.

Lemma bits_of_byte v : bits_of 8 v = bits_of 8 (v mod 256).
Proof. symmetry. apply (bits_of_mod 8). Qed.

Lemma reads_uint16 v : is_u16 v -> reads_as ReadUint16 (bits_of 16 v) v.
Proof.
  intros Hv r s Hwf Heof Hs. unfold is_u16 in Hv. unfold ReadUint16.
  destruct (bits r =? 0); [|apply (reads_bits16 16 v); done || lia].
  eapply (reads_bind ReadByte _ (bits_of 8 (v / 256)) (bits_of 8 v) (v / 256));
    [apply reads_byte; ints| |done|done|rewrite Hs; by rewrite (bits_of_app 8 8) by lia].
  rewrite bits_of_byte, <- (app_nil_r (bits_of 8 _)).
  apply (reads_bind _ _ _ _ (v mod 256)); [apply reads_byte; ints|].
  assert (Z.lor (Z.shiftl (v / 256) 8) (v mod 256) = v) as ->; [|apply reads_ret].
  rewrite lor_shift by ints. change (2 ^ 8) with 256. ints.
Qed.

Lemma reads_last {A B} (m : Rd A) (f : A -> B) p a :
  reads_as m p a -> reads_as (x <- m;; rret (f x)) p (f a).
Proof. intros H. rewrite <- (app_nil_r p). by eapply reads_bind; [|apply reads_ret]. Qed.

Lemma reads_val {A} (m : Rd A) p v v' : reads_as m p v' -> v' = v -> reads_as m p v.
Proof. by intros ? <-. Qed.

Create HintDb reads.
#[export] Hint Resolve reads_byte reads_ret : reads.
Ltac reads_next v := apply (reads_bind _ _ _ _ v); [auto with reads|].

Lemma reads_uint24 v : is_u24 v -> reads_as ReadUint24 (bits_of 24 v) v.
Proof.
  unfold is_u24. intros Hv.
  assert (reads_as (a <- ReadByte;; b <- ReadByte;; c <- ReadByte;;
    rret (Z.lor (Z.lor (Z.shiftl a 16) (Z.shiftl b 8)) c)) (bits_of 24 v) v) as H.
  { rewrite (bits_of_app 8 16), (bits_of_app 8 8) by lia.
    change (2 ^ Z.of_nat 16) with 65536. change (2 ^ Z.of_nat 8) with 256.
    rewrite (bits_of_byte (v / 256)), (bits_of_byte v).
    reads_next (v / 65536); [apply reads_byte; ints|].
    reads_next (v / 256 mod 256); [apply reads_byte; ints|].
    assert (v = Z.lor (Z.lor (Z.shiftl (v / 65536) 16) (Z.shiftl (v / 256 mod 256) 8)) (v mod 256)) as E.
    { replace (Z.shiftl (v / 65536) 16) with (Z.shiftl (Z.shiftl (v / 65536) 8) 8)
        by (by rewrite Z.shiftl_shiftl by lia).
      rewrite <- Z.shiftl_lor, !lor_shift by ints. change (2 ^ 8) with 256. ints. }
    eapply reads_val; [|symmetry; exact E]. apply (reads_last ReadByte), reads_byte. ints. }
  intros r s Hwf Heof Hs. unfold ReadUint24.
  destruct (bits r =? 0); [by apply H|apply (reads_bits 24 v); done || lia].
Qed.

Lemma reads_uint32 v : is_u32 v -> reads_as ReadUint32 (bits_of 32 v) v.
Proof.
  intros Hv. unfold is_u32 in Hv.
  assert (reads_as (a <- ReadByte;; b <- ReadByte;; c <- ReadByte;; d <- ReadByte;;
    rret (Z.lor (Z.lor (Z.lor (Z.shiftl a 24) (Z.shiftl b 16)) (Z.shiftl c 8)) d)) (bits_of 32 v) v) as H.
  { rewrite (bits_of_app 8 24), (bits_of_app 8 16), (bits_of_app 8 8) by lia.
    change (2 ^ Z.of_nat 24) with 16777216.
    change (2 ^ Z.of_nat 16) with 65536. change (2 ^ Z.of_nat 8) with 256.
    rewrite (bits_of_byte (v / 65536)), (bits_of_byte (v / 256)), (bits_of_byte v).
    reads_next (v / 16777216); [apply reads_byte; ints|].
    reads_next (v / 65536 mod 256); [apply reads_byte; ints|].
    reads_next (v / 256 mod 256); [apply reads_byte; ints|].
    assert (v = Z.lor (Z.lor (Z.lor (Z.shiftl (v / 16777216) 24) (Z.shiftl (v / 65536 mod 256) 16))
      (Z.shiftl (v / 256 mod 256) 8)) (v mod 256)) as E.
    { replace (Z.shiftl (v / 16777216) 24) with (Z.shiftl (Z.shiftl (Z.shiftl (v / 16777216) 8) 8) 8)
        by (by rewrite !Z.shiftl_shiftl by lia).
      replace (Z.shiftl (v / 65536 mod 256) 16) with (Z.shiftl (Z.shiftl (v / 65536 mod 256) 8) 8)
        by (by rewrite Z.shiftl_shiftl by lia).
      rewrite <- !Z.shiftl_lor, !lor_shift by ints. change (2 ^ 8) with 256. ints. }
    eapply reads_val; [|symmetry; exact E]. apply (reads_last ReadByte), reads_byte. ints. }
  intros r s Hwf Heof Hs. unfold ReadUint32.
  destruct (bits r =? 0); [by apply H|apply (reads_bits 32 v); done || lia].
Qed.

(** *** Exponential Golomb codes *)

Definition ue_bits (v : Z) : list bool :=
  let size := Z.to_nat (Z.log2 (v + 1)) in
  replicate size false ++ [true] ++ bits_of size (v + 1).

Definition se_code (z : Z) : Z := if z <=? 0 then - (2 * z) else 2 * z - 1.
Definition se_bits (z : Z) : list bool := ue_bits (se_code z).

Lemma reads_ue_size n : forall fuel k, (n < fuel)%nat ->
  reads_as (ueSize fuel k) (replicate n false ++ [true]) (k + n)%nat.
Proof.
  induction n as [|n IH]; intros [|fuel] k Hn; try lia; intros r s Hwf Heof Hs;
    cbn [ueSize replicate app] in *.
  - destruct (reads_bit true r s Hwf Heof Hs) as (r' & -> & ? & ? & ?). cbn.
    rewrite Nat.add_0_r. eauto.
  - destruct (reads_bit false r _ Hwf Heof Hs) as (r' & -> & H1 & H2 & H3).
    cbn [Z.b2z Z.eqb negb orb]. rewrite H2.
    destruct (IH fuel (S k) ltac:(lia) r' s H1 H2 H3) as (r2 & -> & ?).
    exists r2. split; [f_equal; lia|done].
Qed.

Lemma reads_ue v : 0 <= v < 4294967295 -> reads_as ReadUEGolomb (ue_bits v) v.
Proof.
  intros Hv. unfold ReadUEGolomb, ue_bits. set (size := Z.to_nat (Z.log2 (v + 1))).
  destruct (Z.log2_spec (v + 1) ltac:(lia)) as [Hlo Hhi].
  pose proof (Z.log2_nonneg (v + 1)) as Hnn.
  assert (Z.of_nat size = Z.log2 (v + 1)) as Hsize by (unfold size; lia).
  rewrite <- Hsize in *. rewrite Z.pow_succ_r in Hhi by lia.
  assert (Z.of_nat size < 32) as Hs.
  { rewrite Hsize. apply Z.log2_lt_pow2; [lia|]. change (2 ^ 32) with 4294967296. lia. }
  rewrite app_assoc. apply (reads_bind _ _ _ _ size).
  { apply (reads_ue_size size 32 0). lia. }
  rewrite <- bits_of_mod. rewrite <- (app_nil_r (bits_of size _)).
  assert (0 < 2 ^ Z.of_nat size) by (apply Z.pow_pos_nonneg; lia).
  apply (reads_bind _ _ _ _ ((v + 1) mod 2 ^ Z.of_nat size)).
  { apply reads_bits; [lia|]. by apply Z.mod_pos_bound. }
  assert ((v + 1) mod 2 ^ Z.of_nat size = v + 1 - 2 ^ Z.of_nat size) as ->.
  { symmetry. apply (Zmod_unique _ _ 1); lia. }
  rewrite Z.shiftl_1_l. assert (2 ^ Z.of_nat size < 4294967296) as Hp.
  { change 4294967296 with (2 ^ 32). apply Z.pow_lt_mono_r; lia. }
  rewrite (u32_small (2 ^ _)) by (unfold is_u32; lia).
  replace (v + 1 - 2 ^ Z.of_nat size + 2 ^ Z.of_nat size - 1) with v by lia.
  rewrite u32_small by (unfold is_u32; lia). apply reads_ret.
Qed.

Lemma reads_se z : -2147483648 < z < 2147483648 -> reads_as ReadSEGolomb (se_bits z) z.
Proof.
  intros Hz. unfold ReadSEGolomb, se_bits. rewrite <- (app_nil_r (ue_bits _)).
  assert (0 <= se_code z < 4294967295) as Hc by (unfold se_code; destruct (Z.leb_spec z 0); lia).
  apply (reads_bind _ _ _ _ (se_code z)); [by apply reads_ue|].
  assert ((if se_code z mod 2 =? 0 then - (se_code z / 2) else u32 (se_code z + 1) / 2) = z) as ->;
    [|apply reads_ret].
  rewrite u32_small by (unfold is_u32; lia). unfold se_code in *.
  destruct (Z.leb_spec z 0); destruct (Z.eqb_spec (- (2 * z) mod 2) 0);
    destruct (Z.eqb_spec ((2 * z - 1) mod 2) 0); Z.to_euclidean_division_equations; lia.
Qed.

#[export] Hint Resolve reads_uint16 reads_uint24 reads_uint32 reads_ue reads_se : reads.

(** ** A fresh reader *)

Lemma NewReader_wf b : bytes_ok b -> reader_wf (NewReader b).
Proof. intros. split; [cbn; lia|]. split; [|done]. cbn. pose proof (len_nonneg b). lia. Qed.
Lemma NewReader_stream b : stream (NewReader b) = flat_map (bits_of 8) b.
Proof. reflexivity. Qed.

(** Exponential Golomb round trip: for every code the 32-bit reader can represent,
    reading the code of a number gives the number and stops right behind it, on any
    bit alignment. *)
Theorem golomb_roundtrip (b : bytes) (v z : Z) (s1 : list bool)
    (Hb : bytes_ok b) (Hv : 0 <= v < 4294967295) (Hz : -2147483648 < z < 2147483648)
    (Hstream : flat_map (bits_of 8) b = ue_bits v ++ se_bits z ++ s1) :
  exists r r', ReadUEGolomb (NewReader b) = (v, r) /\ ReadSEGolomb r = (z, r') /\
    EOF r' = false /\ stream r' = s1.
Proof.
  destruct (reads_ue v Hv (NewReader b) _ (NewReader_wf b Hb) eq_refl Hstream)
    as (r & E & Hwf & He & Hs).
  destruct (reads_se z Hz r _ Hwf He Hs) as (r' & E' & _ & He' & Hs'). eauto 10.
Qed.

Lemma golomb_roundtrip_witness :
  exists r r', ReadUEGolomb (NewReader [0x2D]) = (4, r) /\ ReadSEGolomb r = (0, r') /\
    EOF r' = false /\ stream r' = [false; true].
Proof. apply (golomb_roundtrip [0x2D] 4 0 [false; true]); [bytes_lit|lia|lia|reflexivity]. Defined.
