(* ===== verification/Sps.v ===== *)
(** The H.264 sequence parameter set decoder of [pkg/h264/sps.go]. *)

From S2P Require Import Prelude Annexb Bits.

Record SPS := mkSPS {
  profile_idc : Z;
  profile_iop : Z;
  level_idc : Z;
  seq_parameter_set_id : Z;
  chroma_format_idc : Z;
  separate_colour_plane_flag : Z;
  bit_depth_luma_minus8 : Z;
  bit_depth_chroma_minus8 : Z;
  qpprime_y_zero_transform_bypass_flag : Z;
  seq_scaling_matrix_present_flag : Z;
  log2_max_frame_num_minus4 : Z;
  pic_order_cnt_type : Z;
  log2_max_pic_order_cnt_lsb_minus4 : Z;
  delta_pic_order_always_zero_flag : Z;
  offset_for_non_ref_pic : Z;
  offset_for_top_to_bottom_field : Z;
  num_ref_frames_in_pic_order_cnt_cycle : Z;
  num_ref_frames : Z;
  gaps_in_frame_num_value_allowed_flag : Z;
  pic_width_in_mbs_minus_1 : Z;
  pic_height_in_map_units_minus_1 : Z;
  frame_mbs_only_flag : Z;
  mb_adaptive_frame_field_flag : Z;
  direct_8x8_inference_flag : Z;
  frame_cropping_flag : Z;
  frame_crop_left_offset : Z;
  frame_crop_right_offset : Z;
  frame_crop_top_offset : Z;
  frame_crop_bottom_offset : Z;
  vui_parameters_present_flag : Z;
  aspect_ratio_info_present_flag : Z;
  aspect_ratio_idc : Z;
  sar_width : Z;
  sar_height : Z;
  overscan_info_present_flag : Z;
  overscan_appropriate_flag : Z;
  video_signal_type_present_flag : Z;
  video_format : Z;
  video_full_range_flag : Z;
  colour_description_present_flag : Z;
  colour_description : Z;
  chroma_loc_info_present_flag : Z;
  chroma_sample_loc_type_top_field : Z;
  chroma_sample_loc_type_bottom_field : Z;
  timing_info_present_flag : Z;
  num_units_in_tick : Z;
  time_scale : Z;
  fixed_frame_rate_flag : Z;
}.

Definition Width (s : SPS) : Z :=
  let width := u32 (16 * u32 (pic_width_in_mbs_minus_1 s + 1)) in
  let crop := u32 (2 * u32 (frame_crop_left_offset s + frame_crop_right_offset s)) in
  u16 (width - crop).

Definition Height (s : SPS) : Z :=
  let height := u32 (16 * u32 (pic_height_in_map_units_minus_1 s + 1)) in
  let crop := u32 (2 * u32 (frame_crop_top_offset s + frame_crop_bottom_offset s)) in
  let height := if frame_mbs_only_flag s =? 0 then u32 (height * 2) else height in
  u16 (height - crop).

(** ** The decoder *)

(** Profiles that code the chroma format. *)
Definition highProfile (p : Z) : bool :=
  existsb (Z.eqb p) [100; 110; 122; 244; 44; 83; 86; 118; 128; 138; 139; 134; 135].

(** Go's remainder on the 32-bit sum. *)
Definition i32 (x : Z) : Z := (x + 2147483648) mod 4294967296 - 2147483648.

Fixpoint scaling_list (n : nat) (lastScale nextScale : Z) : Rd unit :=
  match n with
  | O => rret tt
  | S n =>
      nextScale <- (if nextScale =? 0 then rret nextScale
                    else delta_scale <- ReadSEGolomb;;
                         rret (Z.rem (i32 (i32 (lastScale + delta_scale) + 256)) 256));;
      scaling_list n (if nextScale =? 0 then lastScale else nextScale) nextScale
  end.

(** [for i := 0; i < n; i++], here from [i] with [k] rounds to go. *)
Fixpoint scalingMatrix (k : nat) (i : Z) : Rd unit :=
  match k with
  | O => rret tt
  | S k =>
      seq_scaling_list_present_flag <- ReadBit;;
      _ <- (if seq_scaling_list_present_flag =? 0 then rret tt
            else if i <? 6 then scaling_list 16 8 8 else scaling_list 64 8 8);;
      scalingMatrix k (i + 1)
  end.

Fixpoint skipSE (k : nat) : Rd unit :=
  match k with
  | O => rret tt
  | S k => _ <- ReadSEGolomb;; skipSE k
  end.

(** [if flag != 0 { x = read }], the field staying zero otherwise. *)
Definition when_ (flag : Z) (m : Rd Z) : Rd Z := if flag =? 0 then rret 0 else m.

Definition decodeChroma (profile : Z) : Rd (Z * Z * Z * Z * Z * Z) :=
  if highProfile profile then
    cfi <- ReadUEGolomb;;
    scp <- (if cfi =? 3 then ReadBit else rret 0);;
    let n := if cfi =? 3 then 12%nat else 8%nat in
    bdl <- ReadUEGolomb;; bdc <- ReadUEGolomb;; qp <- ReadBit;; smp <- ReadBit;;
    _ <- (if smp =? 0 then rret tt else scalingMatrix n 0);;
    rret (cfi, scp, bdl, bdc, qp, smp)
  else rret (0, 0, 0, 0, 0, 0).

Definition decodePOC : Rd (Z * Z * Z * Z * Z * Z) :=
  poc <- ReadUEGolomb;;
  if poc =? 0 then lsb <- ReadUEGolomb;; rret (poc, lsb, 0, 0, 0, 0)
  else if poc =? 1 then
    dz <- ReadBit;; nr <- ReadSEGolomb;; tb <- ReadSEGolomb;; cyc <- ReadUEGolomb;;
    _ <- skipSE (Z.to_nat cyc);;
    rret (poc, 0, dz, nr, tb, cyc)
  else rret (poc, 0, 0, 0, 0, 0).

Definition decodeCrop : Rd (Z * Z * Z * Z * Z) :=
  fc <- ReadBit;;
  l <- when_ fc ReadUEGolomb;; r <- when_ fc ReadUEGolomb;;
  t <- when_ fc ReadUEGolomb;; b <- when_ fc ReadUEGolomb;;
  rret (fc, l, r, t, b).

Record VUI := mkVUI {
  v_aspect : Z * Z * Z * Z;
  v_overscan : Z * Z;
  v_signal : Z * Z * Z * Z * Z;
  v_chroma : Z * Z * Z;
  v_timing : Z * Z * Z * Z;
}.
Definition noVUI : VUI := mkVUI (0, 0, 0, 0) (0, 0) (0, 0, 0, 0, 0) (0, 0, 0) (0, 0, 0, 0).

Definition decodeVUI : Rd VUI :=
  ar <- ReadBit;;
  idc <- when_ ar ReadByte;;
  sw <- (if (negb (ar =? 0)) && (idc =? 255) then ReadUint16 else rret 0);;
  sh <- (if (negb (ar =? 0)) && (idc =? 255) then ReadUint16 else rret 0);;
  os <- ReadBit;; oa <- when_ os ReadBit;;
  vs <- ReadBit;; vf <- when_ vs (ReadBits8 3);; fr <- when_ vs ReadBit;;
  cdp <- when_ vs ReadBit;; cd <- when_ cdp ReadUint24;;
  cl <- ReadBit;; ct <- when_ cl ReadUEGolomb;; cb <- when_ cl ReadUEGolomb;;
  ti <- ReadBit;; nu <- when_ ti ReadUint32;; ts <- when_ ti ReadUint32;; ff <- when_ ti ReadBit;;
  rret (mkVUI (ar, idc, sw, sh) (os, oa) (vs, vf, fr, cdp, cd) (cl, ct, cb) (ti, nu, ts, ff)).

Definition decodeBody : Rd SPS :=
  prof <- ReadByte;; iop <- ReadByte;; lev <- ReadByte;; id <- ReadUEGolomb;;
  chroma <- decodeChroma prof;;
  let '(cfi, scp, bdl, bdc, qp, smp) := chroma in
  mfn <- ReadUEGolomb;;
  poc <- decodePOC;;
  let '(poct, lsb, dz, nr, tb, cyc) := poc in
  nrf <- ReadUEGolomb;; gaps <- ReadBit;;
  w <- ReadUEGolomb;; h <- ReadUEGolomb;;
  fmo <- ReadBit;;
  maff <- (if fmo =? 0 then ReadBit else rret 0);;
  d8 <- ReadBit;;
  crop <- decodeCrop;;
  let '(fc, cl, cr, ct, cb) := crop in
  vp <- ReadBit;;
  vui <- (if vp =? 0 then rret noVUI else decodeVUI);;
  let '(mkVUI (ari, ari_idc, sw, sh) (os, oa) (vs, vf, vfr, cdp, cd) (cli, clt, clb) (ti, nu, ts, ff)) := vui in
  rret (mkSPS prof iop lev id cfi scp bdl bdc qp smp mfn poct lsb dz nr tb cyc nrf gaps w h
          fmo maff d8 fc cl cr ct cb vp ari ari_idc sw sh os oa vs vf vfr cdp cd cli clt clb
          ti nu ts ff).

(** [None] is nil. *)
Definition DecodeSPS (sps : bytes) : option SPS :=
  let '(hdr, r) := ReadByte (NewReader sps) in
  if negb (Z.land hdr 0x1F =? NALUTypeSPS) then None else
  let '(s, r) := decodeBody r in
  if EOF r then None else Some s.

(** ** The syntax the decoder reads (ITU-T H.264, 7.3.2.1.1) *)

Definition flag_bits (x : Z) : list bool := [negb (x =? 0)].
Definition if_set (x : Z) (l : list bool) : list bool := if x =? 0 then [] else l.

(** A scaling list (7.3.2.1.1.1) of [n] values, its first ones [vals]: each is coded as its
    distance from the one before it, in 8 bits with a sign, and the value 0 says that those
    behind it are like the last one, or, at the beginning, that the list is the default. *)
Definition distance (v last : Z) : Z := (v - last + 128) mod 256 - 128.
Fixpoint scaling_bits (n : nat) (last : Z) (vals : list Z) : list bool :=
  match n, vals with
  | O, _ => []
  | S n, v :: vals => se_bits (distance v last) ++ scaling_bits n v vals
  | S _, [] => se_bits (distance 0 last)
  end.

(** The lists in turn, each with its flag: six of 16 values, then those of 64. *)
Definition listSize (i : nat) : nat := if (i <? 6)%nat then 16 else 64.
Fixpoint matrix_bits (i : nat) (lists : list (option (list Z))) : list bool :=
  match lists with
  | [] => []
  | None :: lists => [false] ++ matrix_bits (S i) lists
  | Some vals :: lists => [true] ++ scaling_bits (listSize i) 8 vals ++ matrix_bits (S i) lists
  end.

Definition chroma_bits (s : SPS) (lists : list (option (list Z))) : list bool :=
  if highProfile (profile_idc s) then
    ue_bits (chroma_format_idc s) ++
    (if chroma_format_idc s =? 3 then flag_bits (separate_colour_plane_flag s) else []) ++
    ue_bits (bit_depth_luma_minus8 s) ++ ue_bits (bit_depth_chroma_minus8 s) ++
    flag_bits (qpprime_y_zero_transform_bypass_flag s) ++
    flag_bits (seq_scaling_matrix_present_flag s) ++
    if_set (seq_scaling_matrix_present_flag s) (matrix_bits 0 lists)
  else [].

Definition poc_bits (s : SPS) (offs : list Z) : list bool :=
  ue_bits (pic_order_cnt_type s) ++
  (if pic_order_cnt_type s =? 0 then ue_bits (log2_max_pic_order_cnt_lsb_minus4 s)
   else if pic_order_cnt_type s =? 1 then
     flag_bits (delta_pic_order_always_zero_flag s) ++ se_bits (offset_for_non_ref_pic s) ++
     se_bits (offset_for_top_to_bottom_field s) ++
     ue_bits (num_ref_frames_in_pic_order_cnt_cycle s) ++ flat_map se_bits offs
   else []).

Definition crop_bits (s : SPS) : list bool :=
  let fc := frame_cropping_flag s in
  flag_bits fc ++ if_set fc (ue_bits (frame_crop_left_offset s)) ++
  if_set fc (ue_bits (frame_crop_right_offset s)) ++
  if_set fc (ue_bits (frame_crop_top_offset s)) ++
  if_set fc (ue_bits (frame_crop_bottom_offset s)).

Definition sar_coded (s : SPS) : bool :=
  negb (aspect_ratio_info_present_flag s =? 0) && (aspect_ratio_idc s =? 255).

Definition vui_bits (s : SPS) : list bool :=
  let ar := aspect_ratio_info_present_flag s in let os := overscan_info_present_flag s in
  let vs := video_signal_type_present_flag s in let cd := colour_description_present_flag s in
  let cl := chroma_loc_info_present_flag s in let ti := timing_info_present_flag s in
  flag_bits ar ++ if_set ar (bits_of 8 (aspect_ratio_idc s)) ++
  (if sar_coded s then bits_of 16 (sar_width s) else []) ++
  (if sar_coded s then bits_of 16 (sar_height s) else []) ++
  flag_bits os ++ if_set os (flag_bits (overscan_appropriate_flag s)) ++
  flag_bits vs ++ if_set vs (bits_of 3 (video_format s)) ++
  if_set vs (flag_bits (video_full_range_flag s)) ++ if_set vs (flag_bits cd) ++
  if_set cd (bits_of 24 (colour_description s)) ++
  flag_bits cl ++ if_set cl (ue_bits (chroma_sample_loc_type_top_field s)) ++
  if_set cl (ue_bits (chroma_sample_loc_type_bottom_field s)) ++
  flag_bits ti ++ if_set ti (bits_of 32 (num_units_in_tick s)) ++
  if_set ti (bits_of 32 (time_scale s)) ++ if_set ti (flag_bits (fixed_frame_rate_flag s)).

(** The parameter set behind its header byte; [offs] are the frame offsets of
    picture order count type 1 and [lists] the scaling lists, which the decoder does not
    keep. *)
Definition sps_bits (s : SPS) (offs : list Z) (lists : list (option (list Z))) : list bool :=
  bits_of 8 (profile_idc s) ++ bits_of 8 (profile_iop s) ++ bits_of 8 (level_idc s) ++
  ue_bits (seq_parameter_set_id s) ++ chroma_bits s lists ++ ue_bits (log2_max_frame_num_minus4 s) ++
  poc_bits s offs ++ ue_bits (num_ref_frames s) ++
  flag_bits (gaps_in_frame_num_value_allowed_flag s) ++
  ue_bits (pic_width_in_mbs_minus_1 s) ++ ue_bits (pic_height_in_map_units_minus_1 s) ++
  flag_bits (frame_mbs_only_flag s) ++
  (if frame_mbs_only_flag s =? 0 then flag_bits (mb_adaptive_frame_field_flag s) else []) ++
  flag_bits (direct_8x8_inference_flag s) ++ crop_bits s ++
  flag_bits (vui_parameters_present_flag s) ++
  if_set (vui_parameters_present_flag s) (vui_bits s).

(** Coded values in range, and zero where the syntax codes nothing. *)
Definition ue_ok (v : Z) : Prop := 0 <= v < 4294967295.
Definition se_ok (v : Z) : Prop := -2147483648 < v < 2147483648.
Definition flag_ok (v : Z) : Prop := v = 0 \/ v = 1.
Definition coded (c : Z) (P : Z -> Prop) (v : Z) : Prop := if c =? 0 then v = 0 else P v.

(** As many lists as the chroma format has, their values 1 to 255. *)
Definition scales_ok (vals : list Z) : Prop := Forall (fun v => 1 <= v <= 255) vals.
Definition matrix_ok (s : SPS) (lists : list (option (list Z))) : Prop :=
  length lists = (if chroma_format_idc s =? 3 then 12%nat else 8%nat) /\
  Forall (fun l => match l with Some vals => scales_ok vals | None => True end) lists.

Definition chroma_ok (s : SPS) (lists : list (option (list Z))) : Prop :=
  if highProfile (profile_idc s) then
    ue_ok (chroma_format_idc s) /\
    (if chroma_format_idc s =? 3 then flag_ok (separate_colour_plane_flag s)
     else separate_colour_plane_flag s = 0) /\
    ue_ok (bit_depth_luma_minus8 s) /\ ue_ok (bit_depth_chroma_minus8 s) /\
    flag_ok (qpprime_y_zero_transform_bypass_flag s) /\ flag_ok (seq_scaling_matrix_present_flag s) /\
    (seq_scaling_matrix_present_flag s = 1 -> matrix_ok s lists)
  else chroma_format_idc s = 0 /\ separate_colour_plane_flag s = 0 /\
       bit_depth_luma_minus8 s = 0 /\ bit_depth_chroma_minus8 s = 0 /\
       qpprime_y_zero_transform_bypass_flag s = 0 /\ seq_scaling_matrix_present_flag s = 0.

Definition poc_ok (s : SPS) (offs : list Z) : Prop :=
  ue_ok (pic_order_cnt_type s) /\
  if pic_order_cnt_type s =? 1 then
    log2_max_pic_order_cnt_lsb_minus4 s = 0 /\ flag_ok (delta_pic_order_always_zero_flag s) /\
    se_ok (offset_for_non_ref_pic s) /\ se_ok (offset_for_top_to_bottom_field s) /\
    ue_ok (num_ref_frames_in_pic_order_cnt_cycle s) /\
    num_ref_frames_in_pic_order_cnt_cycle s = len offs /\ Forall se_ok offs
  else
    (if pic_order_cnt_type s =? 0 then ue_ok (log2_max_pic_order_cnt_lsb_minus4 s)
     else log2_max_pic_order_cnt_lsb_minus4 s = 0) /\
    delta_pic_order_always_zero_flag s = 0 /\ offset_for_non_ref_pic s = 0 /\
    offset_for_top_to_bottom_field s = 0 /\ num_ref_frames_in_pic_order_cnt_cycle s = 0.

Definition crop_ok (s : SPS) : Prop :=
  let fc := frame_cropping_flag s in
  flag_ok fc /\ coded fc ue_ok (frame_crop_left_offset s) /\
  coded fc ue_ok (frame_crop_right_offset s) /\ coded fc ue_ok (frame_crop_top_offset s) /\
  coded fc ue_ok (frame_crop_bottom_offset s).

Definition vui_ok (s : SPS) : Prop :=
  let ar := aspect_ratio_info_present_flag s in let os := overscan_info_present_flag s in
  let vs := video_signal_type_present_flag s in let cd := colour_description_present_flag s in
  let cl := chroma_loc_info_present_flag s in let ti := timing_info_present_flag s in
  flag_ok ar /\ coded ar is_byte (aspect_ratio_idc s) /\
  (if sar_coded s then is_u16 (sar_width s) else sar_width s = 0) /\
  (if sar_coded s then is_u16 (sar_height s) else sar_height s = 0) /\
  flag_ok os /\ coded os flag_ok (overscan_appropriate_flag s) /\
  flag_ok vs /\ coded vs (fun v => 0 <= v < 8) (video_format s) /\
  coded vs flag_ok (video_full_range_flag s) /\ coded vs flag_ok cd /\
  coded cd is_u24 (colour_description s) /\
  flag_ok cl /\ coded cl ue_ok (chroma_sample_loc_type_top_field s) /\
  coded cl ue_ok (chroma_sample_loc_type_bottom_field s) /\
  flag_ok ti /\ coded ti is_u32 (num_units_in_tick s) /\ coded ti is_u32 (time_scale s) /\
  coded ti flag_ok (fixed_frame_rate_flag s).

Definition vui_absent (s : SPS) : Prop :=
  aspect_ratio_info_present_flag s = 0 /\ aspect_ratio_idc s = 0 /\ sar_width s = 0 /\
  sar_height s = 0 /\ overscan_info_present_flag s = 0 /\ overscan_appropriate_flag s = 0 /\
  video_signal_type_present_flag s = 0 /\ video_format s = 0 /\ video_full_range_flag s = 0 /\
  colour_description_present_flag s = 0 /\ colour_description s = 0 /\
  chroma_loc_info_present_flag s = 0 /\ chroma_sample_loc_type_top_field s = 0 /\
  chroma_sample_loc_type_bottom_field s = 0 /\ timing_info_present_flag s = 0 /\
  num_units_in_tick s = 0 /\ time_scale s = 0 /\ fixed_frame_rate_flag s = 0.

Definition sps_ok (s : SPS) (offs : list Z) (lists : list (option (list Z))) : Prop :=
  is_byte (profile_idc s) /\ is_byte (profile_iop s) /\ is_byte (level_idc s) /\
  ue_ok (seq_parameter_set_id s) /\ chroma_ok s lists /\ ue_ok (log2_max_frame_num_minus4 s) /\
  poc_ok s offs /\ ue_ok (num_ref_frames s) /\ flag_ok (gaps_in_frame_num_value_allowed_flag s) /\
  ue_ok (pic_width_in_mbs_minus_1 s) /\ ue_ok (pic_height_in_map_units_minus_1 s) /\
  flag_ok (frame_mbs_only_flag s) /\
  coded (1 - frame_mbs_only_flag s) flag_ok (mb_adaptive_frame_field_flag s) /\
  flag_ok (direct_8x8_inference_flag s) /\ crop_ok s /\ flag_ok (vui_parameters_present_flag s) /\
  if vui_parameters_present_flag s =? 0 then vui_absent s else vui_ok s.

(** ** Reading it back *)

Lemma reads_flag x : flag_ok x -> reads_as ReadBit (flag_bits x) x.
Proof. intros [->| ->]; apply reads_bit. Qed.

Lemma reads_when c P m p v :
  (P v -> reads_as m p v) -> coded c P v -> reads_as (when_ c m) (if_set c p) v.
Proof.
  unfold coded, when_, if_set. intros H. destruct (c =? 0); [intros ->; apply reads_ret|auto].
Qed.

Lemma reads_if {A} (c : bool) (m1 m2 : Rd A) p q v :
  (c = true -> reads_as m1 p v) -> (c = false -> reads_as m2 q v) ->
  reads_as (if c then m1 else m2) (if c then p else q) v.
Proof. destruct c; auto. Qed.

#[export] Hint Resolve reads_flag : reads.

Lemma reads_byte3 v : 0 <= v < 8 -> reads_as (ReadBits8 3) (bits_of 3 v) v.
Proof. intros. apply reads_bits8; [lia|done]. Qed.
#[export] Hint Resolve reads_byte3 : reads.

(** One [when_] read. *)
Ltac when_next v P :=
  apply (reads_bind _ _ _ _ v);
  [apply (reads_when _ P); [intros; auto with reads|assumption]|].

(** Behind a value 0 nothing is read. *)
Lemma reads_scaling_rest n last : reads_as (scaling_list n last 0) [] tt.
Proof.
  induction n as [|n IH]; [apply reads_ret|]. cbn [scaling_list Z.eqb].
  apply (reads_bind _ _ [] [] 0); [apply reads_ret|]. exact IH.
Qed.

Lemma distance_bound v last : -128 <= distance v last <= 127.
Proof. unfold distance. pose proof (Z.mod_pos_bound (v - last + 128) 256). lia. Qed.
(** The decoder's sum gives the value again. *)
Lemma distance_undone v last : 0 <= v <= 255 -> 1 <= last <= 255 ->
  Z.rem (i32 (i32 (last + distance v last) + 256)) 256 = v.
Proof.
  intros Hv Hl. pose proof (distance_bound v last).
  assert (forall x, -2147483648 <= x < 2147483648 -> i32 x = x) as Hi.
  { intros x Hx. unfold i32. rewrite Z.mod_small; lia. }
  rewrite !Hi by (rewrite ?Hi; lia). rewrite Z.rem_mod_nonneg by lia. unfold distance.
  rewrite <- (Z.mod_small v 256) at 2 by lia.
  replace (last + ((v - last + 128) mod 256 - 128) + 256) with ((v - last + 128) mod 256 + (last + 128)) by lia.
  rewrite Zplus_mod_idemp_l. replace (v - last + 128 + (last + 128)) with (v + 1 * 256) by lia. apply Z.mod_add. lia.
Qed.

Lemma reads_scaling n : forall last vals, 1 <= last <= 255 -> scales_ok vals ->
  reads_as (scaling_list n last last) (scaling_bits n last vals) tt.
Proof.
  assert (forall v last, 0 <= v <= 255 -> 1 <= last <= 255 ->
    reads_as (if last =? 0 then rret last
              else delta_scale <- ReadSEGolomb;; rret (Z.rem (i32 (i32 (last + delta_scale) + 256)) 256))
      (se_bits (distance v last)) v) as Hnext.
  { intros v last Hv Hl. rewrite (proj2 (Z.eqb_neq last 0)) by lia. pose proof (distance_bound v last).
    eapply reads_val; [apply (reads_last ReadSEGolomb (fun d => Z.rem (i32 (i32 (last + d) + 256)) 256)), reads_se; lia|].
    by apply distance_undone. }
  induction n as [|n IH]; intros last vals Hl Hv; [apply reads_ret|]. cbn [scaling_list scaling_bits].
  destruct vals as [|v vals].
  - rewrite <- (app_nil_r (se_bits _)). eapply reads_bind; [apply Hnext; lia|]. cbn [Z.eqb]. apply reads_scaling_rest.
  - apply Forall_cons in Hv as [H1 Hv]. eapply reads_bind; [apply Hnext; lia|].
    rewrite (proj2 (Z.eqb_neq v 0)) by lia. by apply IH.
Qed.

Lemma reads_matrix lists : forall i, Forall (fun l => match l with Some vals => scales_ok vals | None => True end) lists ->
  reads_as (scalingMatrix (length lists) (Z.of_nat i)) (matrix_bits i lists) tt.
Proof.
  induction lists as [|l lists IH]; intros i Hl; [apply reads_ret|]. apply Forall_cons in Hl as [H1 Hl].
  specialize (IH (S i) Hl). rewrite Nat2Z.inj_succ in IH. cbn [length scalingMatrix].
  destruct l as [vals|]; cbn [matrix_bits].
  - apply (reads_bind _ _ _ _ 1); [apply (reads_bit true)|]. cbn [Z.eqb].
    apply (reads_bind _ _ _ _ tt); [|exact IH]. unfold listSize.
    destruct (Nat.ltb_spec i 6); [rewrite (proj2 (Z.ltb_lt _ _)) by lia|rewrite (proj2 (Z.ltb_ge _ _)) by lia]; by apply reads_scaling.
  - apply (reads_bind _ _ _ _ 0); [apply (reads_bit false)|]. cbn [Z.eqb].
    apply (reads_bind _ _ [] _ tt); [apply reads_ret|exact IH].
Qed.

Lemma reads_chroma s lists : chroma_ok s lists ->
  reads_as (decodeChroma (profile_idc s)) (chroma_bits s lists)
    (chroma_format_idc s, separate_colour_plane_flag s, bit_depth_luma_minus8 s,
     bit_depth_chroma_minus8 s, qpprime_y_zero_transform_bypass_flag s,
     seq_scaling_matrix_present_flag s).
Proof.
  unfold chroma_ok, decodeChroma, chroma_bits. destruct (highProfile _).
  2:{ intros (-> & -> & -> & -> & -> & ->). apply reads_ret. }
  intros (H1 & H2 & H3 & H4 & H5 & H6 & H7).
  reads_next (chroma_format_idc s).
  apply (reads_bind _ _ _ _ (separate_colour_plane_flag s)).
  { destruct (_ =? 3); [auto with reads|]. rewrite H2. apply reads_ret. }
  reads_next (bit_depth_luma_minus8 s). reads_next (bit_depth_chroma_minus8 s).
  reads_next (qpprime_y_zero_transform_bypass_flag s). reads_next (seq_scaling_matrix_present_flag s).
  rewrite <- (app_nil_r (if_set _ _)). apply (reads_bind _ _ _ _ tt); [|apply reads_ret].
  destruct H6 as [E|E]; rewrite E; cbn [if_set Z.eqb]; [apply reads_ret|].
  destruct (H7 E) as [Hn Hl]. replace (if _ =? 3 then 12%nat else 8%nat) with (length lists). by apply (reads_matrix lists 0).
Qed.

Lemma reads_skip offs : Forall se_ok offs ->
  reads_as (skipSE (length offs)) (flat_map se_bits offs) tt.
Proof.
  induction 1 as [|o offs Ho Hoffs IH]; [apply reads_ret|]. cbn [length skipSE flat_map].
  apply (reads_bind _ _ _ _ o); [by apply reads_se|done].
Qed.

Lemma reads_poc s offs : poc_ok s offs ->
  reads_as decodePOC (poc_bits s offs)
    (pic_order_cnt_type s, log2_max_pic_order_cnt_lsb_minus4 s, delta_pic_order_always_zero_flag s,
     offset_for_non_ref_pic s, offset_for_top_to_bottom_field s,
     num_ref_frames_in_pic_order_cnt_cycle s).
Proof.
  unfold poc_ok, decodePOC, poc_bits. intros [H0 H]. reads_next (pic_order_cnt_type s).
  destruct (Z.eqb_spec (pic_order_cnt_type s) 0) as [E|E].
  - rewrite E in *. cbn [Z.eqb] in H. destruct H as (H1 & -> & -> & -> & ->).
    apply (reads_last ReadUEGolomb (fun lsb => (0, lsb, 0, 0, 0, 0))). auto with reads.
  - destruct (Z.eqb_spec (pic_order_cnt_type s) 1) as [E1|E1].
    + destruct H as (-> & H2 & H3 & H4 & H5 & H6 & H7).
      reads_next (delta_pic_order_always_zero_flag s). reads_next (offset_for_non_ref_pic s).
      reads_next (offset_for_top_to_bottom_field s).
      reads_next (num_ref_frames_in_pic_order_cnt_cycle s).
      assert (Z.to_nat (num_ref_frames_in_pic_order_cnt_cycle s) = length offs) as ->
        by (rewrite H6; unfold len; lia).
      apply (reads_last (skipSE (length offs))
        (fun _ => (pic_order_cnt_type s, 0, delta_pic_order_always_zero_flag s,
           offset_for_non_ref_pic s, offset_for_top_to_bottom_field s,
           num_ref_frames_in_pic_order_cnt_cycle s)) _ tt).
      by apply reads_skip.
    + destruct H as (-> & -> & -> & -> & ->). apply reads_ret.
Qed.

Lemma reads_crop s : crop_ok s ->
  reads_as decodeCrop (crop_bits s)
    (frame_cropping_flag s, frame_crop_left_offset s, frame_crop_right_offset s,
     frame_crop_top_offset s, frame_crop_bottom_offset s).
Proof.
  intros (H1 & H2 & H3 & H4 & H5). unfold decodeCrop, crop_bits. cbv zeta.
  reads_next (frame_cropping_flag s).
  when_next (frame_crop_left_offset s) ue_ok. when_next (frame_crop_right_offset s) ue_ok.
  when_next (frame_crop_top_offset s) ue_ok.
  apply (reads_last (when_ _ ReadUEGolomb) (fun b => (frame_cropping_flag s,
    frame_crop_left_offset s, frame_crop_right_offset s, frame_crop_top_offset s, b))).
  apply (reads_when _ ue_ok); [intros; auto with reads|done].
Qed.

Lemma reads_vui s : vui_ok s ->
  reads_as decodeVUI (vui_bits s)
    (mkVUI (aspect_ratio_info_present_flag s, aspect_ratio_idc s, sar_width s, sar_height s)
       (overscan_info_present_flag s, overscan_appropriate_flag s)
       (video_signal_type_present_flag s, video_format s, video_full_range_flag s,
        colour_description_present_flag s, colour_description s)
       (chroma_loc_info_present_flag s, chroma_sample_loc_type_top_field s,
        chroma_sample_loc_type_bottom_field s)
       (timing_info_present_flag s, num_units_in_tick s, time_scale s, fixed_frame_rate_flag s)).
Proof.
  intros (H1 & H2 & H3 & H4 & H5 & H6 & H7 & H8 & H9 & H10 & H11 & H12 & H13 & H14 & H15 & H16 & H17 & H18).
  unfold decodeVUI, vui_bits. cbv zeta. fold (sar_coded s).
  reads_next (aspect_ratio_info_present_flag s). when_next (aspect_ratio_idc s) is_byte.
  fold (sar_coded s).
  apply (reads_bind _ _ _ _ (sar_width s)).
  { destruct (sar_coded s); [auto with reads|]. rewrite H3. apply reads_ret. }
  apply (reads_bind _ _ _ _ (sar_height s)).
  { destruct (sar_coded s); [auto with reads|]. rewrite H4. apply reads_ret. }
  reads_next (overscan_info_present_flag s). when_next (overscan_appropriate_flag s) flag_ok.
  reads_next (video_signal_type_present_flag s).
  when_next (video_format s) (fun v => 0 <= v < 8).
  when_next (video_full_range_flag s) flag_ok. when_next (colour_description_present_flag s) flag_ok.
  when_next (colour_description s) is_u24.
  reads_next (chroma_loc_info_present_flag s).
  when_next (chroma_sample_loc_type_top_field s) ue_ok.
  when_next (chroma_sample_loc_type_bottom_field s) ue_ok.
  reads_next (timing_info_present_flag s). when_next (num_units_in_tick s) is_u32.
  when_next (time_scale s) is_u32.
  match goal with |- reads_as _ _ (mkVUI ?a ?o ?v ?c (?t, ?n, ?ts, _)) =>
    apply (reads_last (when_ _ ReadBit) (fun ff => mkVUI a o v c (t, n, ts, ff))) end.
  apply (reads_when _ flag_ok); [intros; auto with reads|done].
Qed.

Lemma reads_body s offs lists : sps_ok s offs lists -> reads_as decodeBody (sps_bits s offs lists) s.
Proof.
  intros (H1 & H2 & H3 & H4 & H5 & H6 & H7 & H8 & H9 & H10 & H11 & H12 & H13 & H14 & H15 & H16 & H17).
  unfold decodeBody, sps_bits.
  reads_next (profile_idc s). reads_next (profile_iop s). reads_next (level_idc s).
  reads_next (seq_parameter_set_id s).
  eapply reads_bind; [by apply reads_chroma|]. cbv beta iota.
  reads_next (log2_max_frame_num_minus4 s).
  eapply reads_bind; [by apply reads_poc|]. cbv beta iota.
  reads_next (num_ref_frames s). reads_next (gaps_in_frame_num_value_allowed_flag s).
  reads_next (pic_width_in_mbs_minus_1 s). reads_next (pic_height_in_map_units_minus_1 s).
  reads_next (frame_mbs_only_flag s).
  apply (reads_bind _ _ _ _ (mb_adaptive_frame_field_flag s)).
  { unfold coded in H13. destruct H12 as [E|E]; rewrite E in *; cbn in H13 |- *;
      [auto with reads|rewrite H13; apply reads_ret]. }
  reads_next (direct_8x8_inference_flag s).
  eapply reads_bind; [by apply reads_crop|]. cbv beta iota.
  reads_next (vui_parameters_present_flag s).
  unfold if_set. rewrite <- (app_nil_r (if _ =? 0 then [] else vui_bits s)).
  destruct (vui_parameters_present_flag s =? 0).
  - apply (reads_bind _ _ _ _ noVUI); [apply reads_ret|]. cbv beta iota delta [noVUI].
    eapply reads_val; [apply reads_ret|]. revert H17. clear. destruct s. unfold vui_absent. cbn.
    intros H. repeat match type of H with _ /\ _ => destruct H as [-> H] end. by rewrite H.
  - eapply reads_bind; [by apply reads_vui|]. cbv beta iota.
    eapply reads_val; [apply reads_ret|]. by destruct s.
Qed.

(** C35. Decoding what the standard's syntax encodes: every field of a parameter set
    comes back, on every branch of the syntax and whatever scaling lists are coded in it,
    whatever follows it (trailing bits, the rest of the VUI). *)
Theorem sps_roundtrip (b : bytes) (hdr : Z) (s : SPS) (offs : list Z) (lists : list (option (list Z))) (rest : list bool)
    (Hb : bytes_ok b) (Hhdr : is_byte hdr /\ Z.land hdr 0x1F = NALUTypeSPS) (Hs : sps_ok s offs lists)
    (Hbits : flat_map (bits_of 8) b = bits_of 8 hdr ++ sps_bits s offs lists ++ rest) :
  DecodeSPS b = Some s.
Proof.
  destruct Hhdr as [Hh Ht]. unfold DecodeSPS.
  destruct (reads_byte hdr Hh (NewReader b) _ (NewReader_wf b Hb) eq_refl Hbits)
    as (r & -> & Hwf & He & Hst). rewrite Ht. cbn [negb].
  destruct (reads_body s offs lists Hs r rest Hwf He Hst) as (r' & -> & _ & He' & _).
  by rewrite He'.
Qed.

(** ** Picture dimensions *)

(** The cropped size the standard defines for 4:2:0 video (7.4.2.1.1): the crop
    units are 2 columns and [2 * (2 - frame_mbs_only_flag)] rows. *)
Definition spec_width (s : SPS) : Z :=
  16 * (pic_width_in_mbs_minus_1 s + 1) -
  2 * (frame_crop_left_offset s + frame_crop_right_offset s).
Definition spec_height (s : SPS) : Z :=
  (2 - frame_mbs_only_flag s) * 16 * (pic_height_in_map_units_minus_1 s + 1) -
  2 * (2 - frame_mbs_only_flag s) * (frame_crop_top_offset s + frame_crop_bottom_offset s).

Definition dims_in_range (s : SPS) : Prop :=
  0 <= pic_width_in_mbs_minus_1 s < 4095 /\ 0 <= pic_height_in_map_units_minus_1 s < 4095 /\
  0 <= frame_crop_left_offset s < 65536 /\ 0 <= frame_crop_right_offset s < 65536 /\
  0 <= frame_crop_top_offset s < 65536 /\ 0 <= frame_crop_bottom_offset s < 65536 /\
  0 <= spec_width s /\ 0 <= spec_height s.

(** For progressive video the reported dimensions are the standard's. *)
Theorem progressive_dimensions (s : SPS) (Hs : dims_in_range s)
    (Hprog : frame_mbs_only_flag s = 1) :
  Width s = spec_width s /\ Height s = spec_height s.
Proof.
  unfold dims_in_range, spec_width, spec_height, Width, Height in *. rewrite Hprog in *.
  cbn [Z.eqb Pos.eqb]. ints.
Qed.

(** A 1280x720 high-profile set with scaling lists and a VUI. *)
Definition sample_lists : list (option (list Z)) :=
  [Some [6; 13; 20; 28; 13; 20; 28; 32; 20; 28; 32; 37; 28; 32; 37; 42]; Some []; None; Some [200; 16]; None; None;
   Some [255]; None].
Definition sample_sps : SPS :=
  mkSPS 100 0 31 0 1 0 0 0 0 1 0 0 2 0 0 0 0 3 0 79 44 1 0 1 0 0 0 0 0
    1 1 1 0 0 0 0 1 5 0 1 65793 0 0 0 1 1 50 1.

Fixpoint pack (l : list bool) : bytes :=
  match l with
  | b7 :: b6 :: b5 :: b4 :: b3 :: b2 :: b1 :: b0 :: rest =>
      foldl (fun acc b => 2 * acc + Z.b2z b) 0 [b7;b6;b5;b4;b3;b2;b1;b0] :: pack rest
  | _ => []
  end.

Lemma sample_lists_ok : matrix_ok sample_sps sample_lists.
Proof.
  split; [reflexivity|]. unfold sample_lists, scales_ok.
  repeat (apply Forall_cons; split); try apply Forall_nil; try exact I; repeat (apply Forall_cons; split); try apply Forall_nil; try exact I; lia.
Qed.

Lemma sample_sps_ok : sps_ok sample_sps [] sample_lists.
Proof.
  assert (chroma_ok sample_sps sample_lists) as Hc.
  { unfold chroma_ok, ue_ok, flag_ok. cbn.
    split; [lia|]. split; [done|]. split; [lia|]. split; [lia|]. split; [by left|]. split; [by right|]. intros _. exact sample_lists_ok. }
  unfold sps_ok, poc_ok, crop_ok, vui_ok, coded, ue_ok, flag_ok, is_byte, is_u24,
    is_u32, is_u16. revert Hc. generalize (chroma_ok sample_sps sample_lists). intros P HP. cbn. repeat split; first [exact HP|lia].
Qed.

(** Its bits, with a stop bit and padding to a byte boundary. *)
Definition sample_bits : list bool := bits_of 8 0x67 ++ sps_bits sample_sps [] sample_lists.
Definition sample_tail : list bool :=
  true :: replicate (Z.to_nat ((7 - len sample_bits) mod 8)) false.

Lemma sps_roundtrip_witness :
  DecodeSPS (pack (sample_bits ++ sample_tail)) = Some sample_sps.
Proof.
  apply (sps_roundtrip (pack (sample_bits ++ sample_tail)) 0x67 sample_sps [] sample_lists sample_tail).
  - bytes_lit.
  - split; [unfold is_byte; lia|reflexivity].
  - exact sample_sps_ok.
  - vm_compute. reflexivity.
Defined.

Lemma progressive_dimensions_witness :
  Width sample_sps = spec_width sample_sps /\ Height sample_sps = spec_height sample_sps.
Proof.
  apply (progressive_dimensions sample_sps); [|reflexivity].
  unfold dims_in_range, spec_width, spec_height. cbn. lia.
Defined.

(** Interlaced video is cropped by half of what the standard says: 1080 rows coded
    as 34 field macroblock rows with a bottom crop of 2 are reported as 1084. *)
Definition interlaced_sps : SPS :=
  mkSPS 77 0 40 0 0 0 0 0 0 0 0 0 0 0 0 0 0 2 0 119 33 0 0 1 1 0 0 0 2
    0 0 0 0 0 0 0 0 0 0 0 0 0 0 0 0 0 0 0.

Theorem interlaced_height_wrong :
  sps_ok interlaced_sps [] [] /\ spec_height interlaced_sps = 1080 /\ Height interlaced_sps = 1084.
Proof.
  split; [|done].
  unfold sps_ok, chroma_ok, poc_ok, crop_ok, vui_absent, coded, ue_ok, flag_ok, is_byte. cbn.
  repeat split; try lia. by left.
Qed.
