(* ===== verification/Assembler.v ===== *)
(** Fragment reassembly ([pkg/petlibro/assembler.go]): from a decrypted datagram to
    queued access units. *)

From stdpp Require Import sorting.
From S2P Require Import Prelude Crypto Wire Media Stats Ack Annexb Bits Sps.

Definition forceDrainStallTicks : Z := 5.
Definition framesCap : Z := 1024.

Record pendingFrag := mkFrag {
  fragChannel : Z;
  fragIsAudio : bool;
  subExt : Z;
  fragFrame : Z;
  fragIndex : Z;
  fragTotal : Z;
  fragPayload : bytes;
}.

Record channelAsm := mkAsm {
  asmBuf : bytes;
  curFrameNum : Z;
  framePending : bool;
  curAUTotal : Z;
  curAUDataCount : Z;
  curAUGapped : bool;
  expectFragIdx : Z;
  receivedData : gset Z;
}.
#[export] Instance eta_asm : Eta channelAsm := fun a =>
  mkAsm (asmBuf a) (curFrameNum a) (framePending a) (curAUTotal a) (curAUDataCount a)
    (curAUGapped a) (expectFragIdx a) (receivedData a).

Definition asm_zero : channelAsm := mkAsm [] 0 false 0 0 false 0 ∅.

Definition asm_reset (a : channelAsm) : channelAsm :=
  mkAsm [] (curFrameNum a) false 0 0 false 0 ∅.

Record Packet := mkPacket {
  Codec : Z;
  Payload : bytes;
  Timestamp : Z;
  FrameNo : Z;
  CameraFrameNo : Z;
  Channel : Z;
  OnlineNum : Z;
  IsKeyframe : bool;
}.

(** ** The client's state *)

(** Options of the session, and [farTs], what the platform makes of an audio
    timestamp beyond 32 bits (a float conversion Go leaves to it). *)
Record config := mkConfig {
  strict : bool;
  verbose : bool;
  traceACK : bool;
  farTs : Z -> Z;
}.

(** In-order delivery. *)
Record reorder := mkReorder {
  wrap : Z;
  avBuffer : gmap Z pendingFrag;
  avNextExt : Z;
  avHighExt : Z;
  stallTicks : Z;
  lastHighExt : Z;
}.
#[export] Instance eta_reorder : Eta reorder := fun r =>
  mkReorder (wrap r) (avBuffer r) (avNextExt r) (avHighExt r) (stallTicks r) (lastHighExt r).

(** Outgoing packets and their clock.  [frames] is what the channel holds, [closed]
    says that [done] is closed, [observed] are the calls to [observeSPS]. *)
Record output := mkOutput {
  frames : list Packet;
  closed : bool;
  emitSeq : Z;
  emitAudioSeq : Z;
  gopPoisoned : bool;
  pendingFrameTs : Z;
  havePendingTs : bool;
  firstFrameTs : Z;
  haveFirstTs : bool;
  lastEmitTs : Z;
  lastSPS : bytes;
  observed : list (Z * Z * Z * Z);
}.
#[export] Instance eta_output : Eta output := fun o =>
  mkOutput (frames o) (closed o) (emitSeq o) (emitAudioSeq o) (gopPoisoned o)
    (pendingFrameTs o) (havePendingTs o) (firstFrameTs o) (haveFirstTs o) (lastEmitTs o)
    (lastSPS o) (observed o).

Record frameInfo := mkInfo {
  frameInfoSeen : bool;
  frameInfoCodec : Z;
  frameInfoFlag : Z;
  frameInfoOnlineNum : Z;
}.

(** The fields of [Client] the processor goroutine owns, grouped; [replies] are the
    inner bodies it handed to [sendInner]. *)
Record client := mkClient {
  ord : reorder;
  ack : ackState;
  keyAsm : channelAsm;
  interAsm : channelAsm;
  out : output;
  info : frameInfo;
  stats : counters;
  replies : list bytes;
}.
#[export] Instance eta_client : Eta client := fun c =>
  mkClient (ord c) (ack c) (keyAsm c) (interAsm c) (out c) (info c) (stats c) (replies c).

(** [c.stats.f.Add(n)] for each counter listed. *)
Definition bump (ks : list (Ctr.t * Z)) (c : client) : client :=
  c <| stats := foldl (fun s k => Add k.1 k.2 s) (stats c) ks |>.

Definition asmOf (ch : Z) (c : client) : channelAsm :=
  if ch =? innerChInter then interAsm c else keyAsm c.
Definition setAsm (ch : Z) (a : channelAsm) (c : client) : client :=
  if ch =? innerChInter then c <| interAsm := a |> else c <| keyAsm := a |>.

(** Stripping never panics ([Media.strip_total]), so the result is read directly. *)
Definition strip (p : bytes) : bytes * Z * Z * bool :=
  default (p, 0, 0, false) (stripFragmentMetadataTrailer p).

(** ** Loss accounting *)

Definition missingFragmentRanges (a : channelAsm) (hasTrailer : bool) : list Z * Z :=
  let size := Z.of_nat (size (receivedData a)) in
  if curAUTotal a =? 0 then ([], u16 size) else
  let expectedData := curAUTotal a - 1 in
  let missing := filter (fun i => i ∉ receivedData a) (seqZ 0 expectedData) in
  if hasTrailer then (missing, u16 (u16 size + 1))
  else (missing ++ [curAUTotal a - 1], u16 size).

(** [compressFragmentRanges] before it is printed: first and last of each run. *)
Fixpoint extendRun (start end_ : Z) (rest : list Z) : list (Z * Z) :=
  match rest with
  | m :: rest => if m =? u16 (end_ + 1) then extendRun start m rest
                 else (start, end_) :: extendRun m m rest
  | [] => [(start, end_)]
  end.
Definition compressFragmentRanges (missing : list Z) : list (Z * Z) :=
  match missing with [] => [] | m :: rest => extendRun m m rest end.

Definition logAVLoss (a : channelAsm) (channel : Z) (hasTrailer : bool) (c : client) : client :=
  let missing := fst (missingFragmentRanges a hasTrailer) in
  if (len missing =? 0) && negb (curAUGapped a) then c else
  let missingCount := if len missing =? 0 then 1 else len missing in
  let c := bump [(Ctr.framesWithLoss, 1);
                 (if channel =? innerChKey then Ctr.idrFramesWithLoss else Ctr.pFramesWithLoss, 1);
                 (Ctr.missingFragmentsTotal, missingCount)] c in
  c <| stats := StoreMax Ctr.maxMissingFragmentsInFrame missingCount (stats c) |>.

Definition debugAVFrameInfo (cfg : config) (e : pendingFrag) (hasTrailer : bool) (c : client) : client :=
  let p := fragPayload e in
  if negb (verbose cfg) || negb hasTrailer || (len p <? 16) then c else
  let t := seg p (len p - 16) (len p) in
  let codecID := at16 t 0 in
  let frameFlag := at_ t 2 in
  let byte4 := at_ t 4 in
  let unexpected := (1 <? frameFlag) ||
    ((fragChannel e =? innerChKey) && negb (frameFlag =? 1)) ||
    ((fragChannel e =? innerChInter) && negb (frameFlag =? 0)) in
  let changed := frameInfoSeen (info c) &&
    (negb (codecID =? frameInfoCodec (info c)) || negb (byte4 =? frameInfoOnlineNum (info c))) in
  let c := bump ((if changed then [(Ctr.frameInfoChanges, 1)] else []) ++
                 (if unexpected then [(Ctr.frameInfoUnexpected, 1)] else [])) c in
  c <| info := mkInfo true codecID frameFlag byte4 |>
    <| stats := Store Ctr.frameInfoOnlineNum byte4 (Store Ctr.frameInfoFlag frameFlag
                  (Store Ctr.frameInfoCodec codecID (stats c))) |>.

(** ** Packets *)

Definition queuePacket (p : Packet) (c : client) : client :=
  if closed (out c) then c else
  if len (frames (out c)) <? framesCap
  then c <| out := (out c) <| frames := frames (out c) ++ [p] |> |>
  else bump [(Ctr.emitDrops, 1)] c.

(** The parameter set an access unit announces. *)
Definition noteSPS (au : bytes) (o : output) : output :=
  match annexbNAL au NALUTypeSPS with
  | Some sps =>
      if bool_decide (sps = lastSPS o) then o else
      let seen := if 4 <=? len sps then
          match DecodeSPS sps with
          | Some d => [(Width d, Height d, at_ sps 1, at_ sps 3)]
          | None => []
          end else [] in
      o <| lastSPS := sps |> <| observed := observed o ++ seen |>
  | None => o
  end.

(** The 90 kHz timestamp of the next packet, and the clock state after it. *)
Definition nextPTS (o : output) : Z * output :=
  let '(pts, o) :=
    if havePendingTs o then
      let first := if haveFirstTs o then firstFrameTs o else pendingFrameTs o in
      (u32 (u32 (pendingFrameTs o - first) * 90),
       mkOutput (frames o) (closed o) (emitSeq o) (emitAudioSeq o) (gopPoisoned o)
         (pendingFrameTs o) false first true (lastEmitTs o) (lastSPS o) (observed o))
    else (u32 (lastEmitTs o + 1), o) in
  let pts := if (pts <=? lastEmitTs o) && negb (lastEmitTs o =? 0)
             then u32 (lastEmitTs o + 1) else pts in
  (pts, o <| lastEmitTs := pts |>).

Definition emitAU (cfg : config) (au : bytes) (cameraFrameNum channel onlineNum : Z) (c : client)
    : client :=
  if len au <? 5 then c else
  let c := c <| out := noteSPS au (out c) |> in
  let isKey := annexbContainsNALType au NALUTypeIFrame in
  if negb isKey && strict cfg && gopPoisoned (out c)
  then bump [(Ctr.vidDropped, 1); (Ctr.strictPDrop, 1)] c else
  let c := if isKey then c <| out := (out c) <| gopPoisoned := false |> |> else c in
  let '(pts, o) := nextPTS (out c) in
  let c := c <| out := o |> in
  let c := queuePacket (mkPacket CodecH264 au pts (emitSeq (out c)) cameraFrameNum channel
                          onlineNum isKey) c in
  bump [(Ctr.vidFramesOut, 1)]
    (c <| out := (out c) <| emitSeq := u32 (emitSeq (out c) + 1) |> |>).

(** ** Frames *)

Definition flushPendingIDR (cfg : config) (nextPFrameTs : Z) (c : client) : client :=
  let a := keyAsm c in
  if len (asmBuf a) =? 0 then c <| keyAsm := asm_reset a |> else
  let au := asmBuf a in
  let midGapped := curAUGapped a in
  let tailMissing := (0 <? curAUTotal a) && (u16 (curAUDataCount a + 1) <? curAUTotal a) in
  let c := if tailMissing then
      bump [(Ctr.fragSkips, 1);
            (Ctr.fragsLost, u16 (curAUTotal a - 1 - curAUDataCount a));
            (Ctr.expectedDataShortfall, 1)] c else c in
  let c := if midGapped || tailMissing
           then logAVLoss (a <| curAUGapped := true |>) innerChKey false c else c in
  let c := c <| keyAsm := asm_reset a |> in
  if strict cfg && (midGapped || tailMissing) then
    bump [(Ctr.vidDropped, 1); (Ctr.strictIDRDrop, 1)]
      (c <| out := (out c) <| gopPoisoned := true |> |>)
  else
  let c := if midGapped then bump [(Ctr.vidDropped, 1)] c else c in
  let c := if 40 <=? nextPFrameTs
           then c <| out := (out c) <| pendingFrameTs := nextPFrameTs - 40 |>
                                    <| havePendingTs := true |> |>
           else c in
  emitAU cfg au (curFrameNum a) innerChKey 0 c.

Definition poison (b : bool) (c : client) : client :=
  if b then c <| out := (out c) <| gopPoisoned := true |> |> else c.

(** A new frame number while a frame is in progress on the channel. *)
Definition frameJump (cfg : config) (e : pendingFrag) (c : client) : client :=
  let ch := fragChannel e in
  let a := asmOf ch c in
  if framePending a && negb (fragFrame e =? curFrameNum a) then
    let c := bump [(if ch =? innerChKey then Ctr.frameNumJumpKey else Ctr.frameNumJumpInter, 1)] c in
    if 0 <? len (asmBuf a) then
      if ch =? innerChKey then flushPendingIDR cfg 0 c
      else
        let a := a <| curAUGapped := true |> in
        let c := logAVLoss a ch false c in
        let c := bump [(Ctr.fragSkips, 1); (Ctr.fragsLost, 1); (Ctr.vidDropped, 1)] c in
        setAsm ch (asm_reset a) (poison (strict cfg) c)
    else c
  else c.

Definition frameStart (e : pendingFrag) (c : client) : client :=
  let ch := fragChannel e in
  let a := asmOf ch c in
  let '(a, c) :=
    if negb (framePending a) || negb (fragFrame e =? curFrameNum a)
    then (mkAsm (asmBuf a) (fragFrame e) true (fragTotal e) 0 false 0 ∅,
          bump [(Ctr.vidFramesIn, 1)] c)
    else (a, c) in
  let a := if (curAUTotal a =? 0) && negb (fragTotal e =? 0)
           then a <| curAUTotal := fragTotal e |> else a in
  setAsm ch a c.

(** [!hasTrailer] *)
Definition dataFragment (e : pendingFrag) (c : client) : client :=
  let ch := fragChannel e in
  let a := asmOf ch c in
  let gap := negb (fragIndex e =? expectFragIdx a) && negb (fragIndex e =? 16) in
  let c := if gap then
      bump [(Ctr.fragSkips, 1); (Ctr.fragIdxGap, 1);
            (Ctr.fragsLost, if expectFragIdx a <? fragIndex e
                            then fragIndex e - expectFragIdx a else 1)] c
    else c in
  setAsm ch
    (mkAsm (asmBuf a ++ fragPayload e) (curFrameNum a) (framePending a) (curAUTotal a)
       (u16 (curAUDataCount a + 1)) (curAUGapped a || gap) (u16 (fragIndex e + 1))
       ({[fragIndex e]} ∪ receivedData a)) c.

Definition endFragment (cfg : config) (e : pendingFrag) (stripped : bytes)
    (frameTs onlineNum : Z) (c : client) : client :=
  let ch := fragChannel e in
  let wasKey := ch =? innerChKey in
  let a := asmOf ch c in
  let a := a <| asmBuf := asmBuf a ++ stripped |> in
  let expectedData := if 0 <? curAUTotal a then curAUTotal a - 1 else 0 in
  let short := curAUDataCount a <? expectedData in
  let c := if short then
      bump [(Ctr.fragSkips, 1); (Ctr.fragsLost, expectedData - curAUDataCount a);
            (Ctr.expectedDataShortfall, 1)] c else c in
  let a := if short then a <| curAUGapped := true |> else a in
  let c := logAVLoss a ch true c in
  if (1 <=? expectedData) && (curAUDataCount a =? 0) then
    let c := bump [(Ctr.fragSkips, 1); (Ctr.fragsLost, expectedData); (Ctr.vidDropped, 1);
                   (Ctr.zeroDataHardDrop, 1)] c in
    poison (strict cfg && wasKey) (setAsm ch (asm_reset a) c)
  else
  let au := asmBuf a in
  let gapped := curAUGapped a in
  let c := setAsm ch (asm_reset a) c in
  if gapped && strict cfg then
    bump [(Ctr.vidDropped, 1); (if wasKey then Ctr.strictIDRDrop else Ctr.strictPDrop, 1)]
      (poison true c)
  else
  let c := if gapped then bump [(Ctr.vidDropped, 1)] c else c in
  if gapped && negb wasKey then c else
  let c := c <| out := (out c) <| pendingFrameTs := frameTs |> <| havePendingTs := true |> |> in
  if strict cfg && gopPoisoned (out c) && negb wasKey
  then bump [(Ctr.vidDropped, 1); (Ctr.strictPDrop, 1)] c
  else emitAU cfg au (fragFrame e) ch onlineNum c.

(** [uint32(float64(seq) * 1024 * 90000 / 44100)]: the double is exact enough for
    the floor as long as the result fits 32 bits. *)
Definition audioPTS (cfg : config) (seq_ : Z) : Z :=
  let q := seq_ * 1024 * 90000 / 44100 in
  if q <? 4294967296 then q else farTs cfg seq_.

Definition emit (cfg : config) (e : pendingFrag) (c : client) : client :=
  if fragIsAudio e then
    let seq_ := emitAudioSeq (out c) in
    let c := queuePacket (mkPacket CodecAACADTS (fragPayload e) (audioPTS cfg seq_) seq_
                            0 0 0 false) c in
    c <| out := (out c) <| emitAudioSeq := u32 (seq_ + 1) |> |>
  else
  if negb (fragChannel e =? innerChKey) && negb (fragChannel e =? innerChInter) then c else
  let c := bump [(Ctr.vidFrags, 1)] c in
  let '(stripped, frameTs, onlineNum, hasTrailer) := strip (fragPayload e) in
  let c := debugAVFrameInfo cfg e hasTrailer c in
  let c := frameJump cfg e c in
  let c := frameStart e c in
  let c := if (fragChannel e =? innerChInter) && framePending (keyAsm c) &&
              (0 <? len (asmBuf (keyAsm c)))
           then flushPendingIDR cfg frameTs c else c in
  if hasTrailer then endFragment cfg e stripped frameTs onlineNum c else dataFragment e c.

(** ** In-order delivery *)

Fixpoint drainLoop (fuel : nat) (cfg : config) (c : client) : option client :=
  match fuel with
  | O => None
  | S fuel =>
      match avBuffer (ord c) !! avNextExt (ord c) with
      | None => Some c
      | Some e =>
          let next := avNextExt (ord c) in
          drainLoop fuel cfg
            (emit cfg e (c <| ord := (ord c) <| avBuffer := delete next (avBuffer (ord c)) |>
                                             <| avNextExt := u64 (next + 1) |> |>))
      end
  end.

Definition drainContiguous (cfg : config) (c : client) : option client :=
  drainLoop (S (size (avBuffer (ord c)))) cfg c.

Definition forceFlush (cfg : config) (k : Z) (c : client) : client :=
  match avBuffer (ord c) !! k with
  | Some e => emit cfg e (c <| ord := (ord c) <| avBuffer := delete k (avBuffer (ord c)) |>
                                              <| avNextExt := u64 (k + 1) |> |>)
  | None => c
  end.

Definition bufferKeys (r : reorder) : list Z :=
  merge_sort Z.le (fst <$> map_to_list (avBuffer r)).

Definition forceDrain (cfg : config) (c : client) : client :=
  let o := ord c in
  if bool_decide (avBuffer o = ∅)
  then c <| ord := o <| stallTicks := 0 |> <| lastHighExt := avHighExt o |> |> else
  let o := if avHighExt o =? lastHighExt o then o <| stallTicks := u8 (stallTicks o + 1) |>
           else o <| stallTicks := 0 |> <| lastHighExt := avHighExt o |> in
  let c := c <| ord := o |> in
  let stalled := forceDrainStallTicks <=? stallTicks o in
  if negb stalled && (avHighExt o <? 8) then c else
  let threshold := if stalled then avHighExt o else avHighExt o - 8 in
  let keys := filter (fun k => stalled || (k <=? threshold)) (bufferKeys o) in
  if len keys =? 0 then c else
  let c := bump [(Ctr.forceDrains, 1); (Ctr.forceDrainFlush, 1); (Ctr.forceDrainEntries, len keys)] c in
  let c := foldl (fun c k => forceFlush cfg k c) c keys in
  if stalled then c <| ord := (ord c) <| stallTicks := 0 |> |> else c.

(** ** Datagrams *)

Definition sendReply (sendOK : bool) (body : bytes) (c : client) : client :=
  let c := c <| replies := replies c ++ [body] |> in
  if sendOK then bump [(Ctr.timingResponsesSent, 1)] c else c.

Definition handleTransportControl (inner : bytes) (c : client) : option (option bytes * client) :=
  x0 ← rd inner 0;
  if x0 =? 0x09 then Some (None, bump [(Ctr.transportACKReceived, 1)] c) else
  if x0 =? 0x0a then
    response ← timingProbeResponse inner;
    Some (response, match response with
                    | Some _ => bump [(Ctr.timingProbesReceived, 1)] c
                    | None => c
                    end)
  else if x0 =? 0x0b then Some (None, bump [(Ctr.timingFeedbackReceived, 1)] c)
  else Some (None, c).

(** The media branch of [parseDatagram]: what the packet decodes to, if anything,
    and the header counters. *)
Definition classifyMedia (inner : bytes) (c : client) : option (option decodedMedia * client) :=
  x1 ← rd inner 1;
  if isExtendedMediaFamily x1 then
    '(ext, _, accepted) ← decodeExtendedMedia inner;
    if accepted : bool then
      Some (Some ext,
        bump ([(Ctr.extendedMediaCandidates, 1); (Ctr.extendedMediaParsed, 1);
               (if isEnd ext then Ctr.extendedMediaEndPackets else Ctr.extendedMediaDataPackets, 1)] ++
              (if (b1 ext =? 0x09) || (b1 ext =? 0x0c) then [(Ctr.extendedMediaRarePackets, 1)] else [])) c)
    else
      '(normal, normalOK) ← decodeNormalMedia inner;
      if normalOK : bool then Some (Some normal, bump [(Ctr.normalMediaPackets, 1)] c)
      else Some (None,
        bump ([(Ctr.extendedMediaCandidates, 1); (Ctr.extendedMediaRejected, 1)] ++
              (if 28 <=? len inner then [(Ctr.sequenceSeenButUnhandled, 1)] else []) ++
              (if b1 ext =? 0x08 then [(Ctr.unknown0c08Remaining, 1)]
               else if b1 ext =? 0x0d then [(Ctr.unknown0c0dRemaining, 1)] else []) ++
              [(Ctr.otherFrags, 1)]) c)
  else
    '(normal, ok) ← decodeNormalMedia inner;
    if ok : bool then Some (Some normal, bump [(Ctr.normalMediaPackets, 1)] c)
    else Some (None, c).

Definition channelCounter (ch : Z) : Ctr.t :=
  if ch =? innerChKey then Ctr.keyFrags
  else if ch =? innerChInter then Ctr.interFrags
  else if ch =? innerChAudio then Ctr.audioFrags else Ctr.otherFrags.

(** Sequencing: the extended position, the receive report, the reorder buffer. *)
Definition acceptMedia (cfg : config) (now : Z) (media : decodedMedia) (c : client) : option client :=
  let c := bump [(channelCounter (channel media), 1)] c in
  match extend (wrap (ord c)) (subWire media) with
  | None => Some (bump [(Ctr.otherFrags, 1); (Ctr.sequenceSeenButUnhandled, 1)] c)
  | Some ext =>
      let c := if avHighExt (ord c) <? ext
               then c <| ord := (ord c) <| avHighExt := ext |>
                                        <| wrap := advanceTo (wrap (ord c)) (subWire media) |> |>
               else c in
      let '(a, s) := markACKReceived (verbose cfg && negb (traceACK cfg)) now ext (ack c) (stats c) in
      let c := c <| ack := a |> <| stats := s |> in
      if ext <? avNextExt (ord c)
      then Some (bump [(Ctr.deferredDrop, 1); (Ctr.sequenceSeenButUnhandled, 1)] c) else
      let e := mkFrag (channel media) (isAudio media) ext (frameNum media) (fragIdx media)
                 (totalFrags media) (payload media) in
      let c := c <| ord := (ord c) <| avBuffer := <[ext := e]> (avBuffer (ord c)) |> |> in
      drainContiguous cfg (bump [(Ctr.sequenceSeenAndAssembled, 1)] c)
  end.

(** [sendOK] is whether the reply could be written, [now] the clock. *)
Definition parseDatagram (cfg : config) (sendOK : bool) (now : Z) (pkt : bytes) (c : client)
    : option client :=
  d ← datagramInner pkt;
  match d with
  | None => Some c
  | Some inner =>
      x0 ← rd inner 0;
      if (x0 =? 0x09) || (x0 =? 0x0a) || (x0 =? 0x0b) then
        '(response, c) ← handleTransportControl inner c;
        Some (match response with Some r => sendReply sendOK r c | None => c end)
      else if negb (x0 =? 0x0c) then Some c else
      control ← reliableControlSequence inner;
      match control with
      | Some seq_ =>
          '(a, s) ← acceptReliableControl seq_ (ack c) (stats c);
          Some (bump [(Ctr.otherFrags, 1)] (c <| ack := a |> <| stats := s |>))
      | None =>
          if len inner <? 36 then Some c else
          '(media, c) ← classifyMedia inner c;
          match media with
          | None => Some c
          | Some m => acceptMedia cfg now m c
          end
      end
  end.

(** The end of [bootstrap]: sequencing and acknowledgement start right after the
    highest media position seen so far. *)
Definition beginStream (bootstrapAVMax : Z) (c : client) : client :=
  let ext := if bootstrapAVMax =? 0x3FFF then 0x4000 else bootstrapAVMax + 1 in
  let '(a, s) := initACKTracking bootstrapAVMax (ack c) (stats c) in
  mkClient (mkReorder ext ∅ ext (ext - 1) (stallTicks (ord c)) (lastHighExt (ord c)))
    a (keyAsm c) (interAsm c) (out c) (info c) s (replies c).

(** The zero values of a new [Client]. *)
Definition output_zero : output := mkOutput [] false 0 0 false 0 false 0 false 0 [] [].
Definition new_client : client :=
  mkClient (mkReorder 0 ∅ 0 0 0 0) ack_zero asm_zero asm_zero output_zero
    (mkInfo false 0 0 0) no_counters [].

(** Receiving a datagram off the wire. *)
Definition handleEncryptedDatagram (cfg : config) (sendOK : bool) (now : Z) (raw : bytes) (c : client)
    : option client :=
  parseDatagram cfg sendOK now (ReverseTransCodePartial [] raw) c.
