(* ===== verification/Delivery.v ===== *)
(** Delivery: what [Assembler] hands to assembly, in which order, and that the
    receive path neither panics nor loops. *)

From Stdlib Require Import Sorting.Sorted.
From stdpp Require Import sorting.
From S2P Require Import Prelude Crypto Wire Media Classify Stats Ack AckFacts Annexb Bits Sps Assembler.

(** ** What emission leaves alone *)

(** [emit] and everything below it changes assembly, output, frame info and
    counters; sequencing and acknowledgements are out of its reach. *)
Definition same (c c' : client) : Prop :=
  ord c' = ord c /\ ack c' = ack c /\ replies c' = replies c.

Lemma same_refl c : same c c.
Proof. done. Qed.
Lemma same_trans c1 c2 c3 : same c1 c2 -> same c2 c3 -> same c1 c3.
Proof. unfold same. intuition congruence. Qed.
Lemma same_out c x f : same c x -> same c (upd out f x).
Proof. done. Qed.
Lemma same_key c x f : same c x -> same c (upd keyAsm f x).
Proof. done. Qed.
Lemma same_inter c x f : same c x -> same c (upd interAsm f x).
Proof. done. Qed.
Lemma same_info c x f : same c x -> same c (upd info f x).
Proof. done. Qed.
Lemma same_stats c x f : same c x -> same c (upd stats f x).
Proof. done. Qed.
Lemma same_bump c x ks : same c x -> same c (bump ks x).
Proof. done. Qed.
Lemma same_poison c x b : same c x -> same c (poison b x).
Proof. by destruct b. Qed.
Lemma same_setAsm c x ch a : same c x -> same c (setAsm ch a x).
Proof. unfold setAsm. by destruct (_ =? _). Qed.
Create HintDb same.
#[export] Hint Resolve same_refl same_out same_key same_inter same_info same_stats same_bump
  same_poison same_setAsm : same.

(** Peel the operations off the final state one by one, splitting the tests. *)
Ltac same_step :=
  match goal with
  | |- context [match ?b with true => _ | false => _ end] => destruct b
  end.
Ltac sames := cbv zeta; repeat same_step; eauto 20 with same.

Lemma same_logAVLoss c x a ch t : same c x -> same c (logAVLoss a ch t x).
Proof. intros. unfold logAVLoss. sames. Qed.
Lemma same_queuePacket c x p : same c x -> same c (queuePacket p x).
Proof. intros. unfold queuePacket. sames. Qed.
#[export] Hint Resolve same_logAVLoss same_queuePacket : same.

Lemma same_emitAU c x cfg au fn ch on : same c x -> same c (emitAU cfg au fn ch on x).
Proof.
  intros. unfold emitAU. cbv zeta. destruct (len au <? 5); [done|].
  destruct (negb _ && _ && _); [auto with same|].
  destruct (nextPTS _) as [pts o]. destruct (annexbContainsNALType _ _); auto 10 with same.
Qed.
#[export] Hint Resolve same_emitAU : same.

Lemma same_flush c x cfg ts : same c x -> same c (flushPendingIDR cfg ts x).
Proof.
  intros. unfold flushPendingIDR. cbv zeta.
  destruct (len _ =? 0); [auto with same|].
  set (g := curAUGapped _). set (t := (0 <? _) && _). clearbody g t.
  destruct g, t, (strict cfg), (40 <=? ts); cbn [orb andb]; auto 20 with same.
Qed.
#[export] Hint Resolve same_flush : same.

Lemma same_info_update c x cfg e t : same c x -> same c (debugAVFrameInfo cfg e t x).
Proof.
  intros. unfold debugAVFrameInfo. cbv zeta. destruct (_ || _); auto 10 with same.
Qed.

Lemma same_jump c x cfg e : same c x -> same c (frameJump cfg e x).
Proof.
  intros. unfold frameJump. cbv zeta. destruct (_ && _); [|done].
  destruct (0 <? _); [|auto with same]. destruct (_ =? _); auto 10 with same.
Qed.

Lemma same_start c x e : same c x -> same c (frameStart e x).
Proof.
  intros. unfold frameStart. cbv zeta. destruct (_ || _); auto with same.
Qed.

Lemma same_data c x e : same c x -> same c (dataFragment e x).
Proof. intros. unfold dataFragment. cbv zeta. destruct (_ && _); auto with same. Qed.

Lemma same_end c x cfg e s ts on : same c x -> same c (endFragment cfg e s ts on x).
Proof.
  intros. unfold endFragment. cbv zeta.
  set (short := curAUDataCount _ <? _). clearbody short.
  match goal with |- same _ (if ?b then _ else _) => destruct b end;
    [destruct short; auto 10 with same|].
  match goal with |- same _ (if ?b then _ else _) => destruct b end;
    [destruct short; auto 10 with same|].
  set (g := curAUGapped _). clearbody g.
  destruct short, g, (_ =? innerChKey); cbn [andb negb]; auto 10 with same;
    match goal with |- same _ (if ?b then _ else _) => destruct b end; auto 10 with same.
Qed.
#[export] Hint Resolve same_info_update same_jump same_start same_data same_end : same.

Lemma same_emit cfg e c : same c (emit cfg e c).
Proof.
  unfold emit. cbv zeta. destruct (fragIsAudio e); [auto with same|].
  destruct (_ && _); [auto with same|]. destruct (strip _) as [[[s ts] on] h].
  match goal with |- same _ (if h then _ ?x else _) => assert (same c x) end.
  { destruct (_ && _); auto 10 with same. }
  destruct h; auto with same.
Qed.

Lemma ord_emit cfg e c : ord (emit cfg e c) = ord c.
Proof. apply same_emit. Qed.
Lemma ack_emit cfg e c : ack (emit cfg e c) = ack c.
Proof. apply same_emit. Qed.

(** ** In-order delivery *)

(** Every buffered fragment sits under its own position, between the next one
    expected and the highest one seen. *)
Record reorder_inv (r : reorder) : Prop := {
  ri_buf k e : avBuffer r !! k = Some e -> avNextExt r <= k <= avHighExt r /\ subExt e = k;
  ri_next : 0 <= avNextExt r <= avHighExt r + 1;
  ri_wrap : avHighExt r <= wrap r <= avHighExt r + 1;
  ri_top : 0 <= avHighExt r < seq_top;
  ri_stall : 0 <= stallTicks r < forceDrainStallTicks;
}.

Lemma ord_flush cfg k c e :
  avBuffer (ord c) !! k = Some e ->
  ord (forceFlush cfg k c) =
  mkReorder (wrap (ord c)) (delete k (avBuffer (ord c))) (u64 (k + 1)) (avHighExt (ord c))
    (stallTicks (ord c)) (lastHighExt (ord c)).
Proof. intros E. unfold forceFlush. rewrite E, ord_emit. done. Qed.

Lemma ack_flush cfg k c : ack (forceFlush cfg k c) = ack c.
Proof. unfold forceFlush. destruct (_ !! k); [|done]. by rewrite ack_emit. Qed.

(** Delivering the fragments at [keys], in that order. *)
Definition deliver (cfg : config) (keys : list Z) (c : client) : client :=
  foldl (fun c k => forceFlush cfg k c) c keys.

Lemma ack_deliver cfg keys c : ack (deliver cfg keys c) = ack c.
Proof.
  unfold deliver. revert c. induction keys as [|k ks IH]; intros c; [done|].
  cbn [foldl]. by rewrite IH, ack_flush.
Qed.

Lemma deliver_spec cfg keys : forall c,
  NoDup keys -> (forall k, k ∈ keys -> is_Some (avBuffer (ord c) !! k)) ->
  let c' := deliver cfg keys c in
  (forall k, avBuffer (ord c') !! k = if bool_decide (k ∈ keys) then None else avBuffer (ord c) !! k) /\
  avNextExt (ord c') = from_option (fun k => u64 (k + 1)) (avNextExt (ord c)) (list.last keys) /\
  wrap (ord c') = wrap (ord c) /\ avHighExt (ord c') = avHighExt (ord c) /\
  stallTicks (ord c') = stallTicks (ord c) /\ lastHighExt (ord c') = lastHighExt (ord c).
Proof.
  unfold deliver. induction keys as [|k ks IH]; intros c Hnd Hin; cbn [foldl].
  { repeat split; try done. }
  apply NoDup_cons in Hnd as [Hk Hnd].
  destruct (Hin k ltac:(by left)) as [e He]. pose proof (ord_flush cfg k c e He) as Ho.
  destruct (IH (forceFlush cfg k c) Hnd) as (H1 & H2 & H3 & H4 & H5 & H6).
  { intros k' Hk'. rewrite Ho. cbn. rewrite lookup_delete_ne by (intros ->; done).
    apply Hin. by right. }
  rewrite Ho in *. cbn in *. repeat split; try done.
  - intros k'. rewrite H1. destruct (decide (k' = k)) as [->|Hne].
    + rewrite lookup_delete_eq, (bool_decide_true (k ∈ k :: ks)) by by left.
      by destruct (bool_decide _).
    + rewrite lookup_delete_ne by done.
      destruct (decide (k' ∈ ks)); [rewrite !bool_decide_true by (done || by right)|
        rewrite !bool_decide_false by (rewrite ?elem_of_cons; tauto)]; done.
  - rewrite H2, last_cons. by destruct (list.last ks).
Qed.

(** [drainContiguous] delivers exactly the run that starts at the next position
    and stops at the first one missing; it always stops. *)
Lemma drain_run cfg fuel : forall c,
  (size (avBuffer (ord c)) < fuel)%nat ->
  (forall k e, avBuffer (ord c) !! k = Some e -> 0 <= k < max64) ->
  exists n, 0 <= n /\ drainLoop fuel cfg c = Some (deliver cfg (seqZ (avNextExt (ord c)) n) c) /\
    (forall k, avNextExt (ord c) <= k < avNextExt (ord c) + n -> is_Some (avBuffer (ord c) !! k)) /\
    avBuffer (ord c) !! (avNextExt (ord c) + n) = None.
Proof.
  induction fuel as [|fuel IH]; intros c Hf Hb; [lia|]. cbn [drainLoop].
  destruct (avBuffer (ord c) !! avNextExt (ord c)) as [e|] eqn:E.
  2:{ exists 0. rewrite Z.add_0_r. repeat split; try done. lia. }
  set (c1 := emit _ _ _).
  assert (c1 = forceFlush cfg (avNextExt (ord c)) c) as Hc1 by (unfold forceFlush; by rewrite E).
  pose proof (ord_flush cfg _ c e E) as Ho. rewrite <- Hc1 in Ho.
  destruct (Hb _ _ E) as [H0 H1].
  assert (u64 (avNextExt (ord c) + 1) = avNextExt (ord c) + 1) as Hu
    by (apply u64_small; unfold is_u64, max64 in *; lia).
  destruct (IH c1) as (n & Hn & Hd & Hall & Hstop).
  { rewrite Ho. cbn [avBuffer]. rewrite map_size_delete_Some by eauto.
    assert (size (avBuffer (ord c)) <> 0)%nat; [|lia].
    intros Hz%map_size_empty_iff. by rewrite Hz in E. }
  { intros k e'. rewrite Ho. cbn. intros [_ Hk]%lookup_delete_Some. eauto. }
  rewrite Ho in Hd, Hall, Hstop. cbn in Hd, Hall, Hstop. rewrite Hu in *.
  exists (Z.succ n). split; [lia|]. rewrite Hd. split.
  { rewrite (seqZ_cons _ (Z.succ n)) by lia. unfold deliver. cbn [foldl]. rewrite <- Hc1.
    by replace (Z.pred (Z.succ n)) with n by lia. }
  split.
  - intros k Hk. destruct (decide (k = avNextExt (ord c))) as [->|]; [eauto|].
    specialize (Hall k ltac:(lia)). rewrite lookup_delete_ne in Hall by done. done.
  - replace (avNextExt (ord c) + Z.succ n) with (avNextExt (ord c) + 1 + n) by lia.
    rewrite lookup_delete_ne in Hstop by lia. done.
Qed.

Lemma last_seqZ m n : 0 < n -> list.last (seqZ m n) = Some (m + n - 1).
Proof.
  intros. replace n with ((n - 1) + 1) at 1 by lia.
  rewrite seqZ_app by lia. rewrite last_app. cbn. f_equal. lia.
Qed.

Lemma drain_spec (cfg : config) (c : client) (Hc : reorder_inv (ord c)) :
  exists n c', drainContiguous cfg c = Some c' /\ 0 <= n /\
    c' = deliver cfg (seqZ (avNextExt (ord c)) n) c /\
    avNextExt (ord c') = avNextExt (ord c) + n /\
    (forall k, avNextExt (ord c) <= k < avNextExt (ord c) + n -> is_Some (avBuffer (ord c) !! k)) /\
    avBuffer (ord c) !! (avNextExt (ord c) + n) = None /\
    (forall k, avBuffer (ord c') !! k =
       if bool_decide (avNextExt (ord c) <= k < avNextExt (ord c) + n) then None
       else avBuffer (ord c) !! k) /\
    reorder_inv (ord c') /\ avHighExt (ord c') = avHighExt (ord c).
Proof.
  destruct Hc as [Hbuf Hnext Hwrap Htop Hstall].
  destruct (drain_run cfg (S (size (avBuffer (ord c)))) c) as (n & Hn & Hd & Hall & Hstop); [lia| |].
  { intros k e He. apply Hbuf in He. unfold seq_top, max64 in *. lia. }
  exists n, (deliver cfg (seqZ (avNextExt (ord c)) n) c).
  assert (forall k, k ∈ seqZ (avNextExt (ord c)) n <-> avNextExt (ord c) <= k < avNextExt (ord c) + n)
    as Hseq by (intros; apply elem_of_seqZ).
  destruct (deliver_spec cfg (seqZ (avNextExt (ord c)) n) c) as (H1 & H2 & H3 & H4 & H5 & H6).
  { apply NoDup_seqZ. }
  { intros k Hk%Hseq. auto. }
  assert (avNextExt (ord (deliver cfg (seqZ (avNextExt (ord c)) n) c)) = avNextExt (ord c) + n
          /\ avNextExt (ord c) + n <= avHighExt (ord c) + 1) as [Hnx Hle].
  { rewrite H2. destruct (decide (n = 0)) as [->|]; [rewrite seqZ_nil by lia; cbn; lia|].
    rewrite last_seqZ by lia. cbn.
    destruct (Hall (avNextExt (ord c) + n - 1) ltac:(lia)) as [e He].
    apply Hbuf in He. rewrite u64_small by (unfold is_u64, seq_top in *; lia). lia. }
  split; [done|]. split; [done|]. split; [done|]. split; [done|]. split; [done|]. split; [done|].
  assert (forall k, avBuffer (ord (deliver cfg (seqZ (avNextExt (ord c)) n) c)) !! k =
       if bool_decide (avNextExt (ord c) <= k < avNextExt (ord c) + n) then None
       else avBuffer (ord c) !! k) as Hlook.
  { intros k. rewrite H1. by rewrite (bool_decide_ext _ _ (Hseq k)). }
  split; [done|]. split; [|exact H4]. split; rewrite ?H3, ?H4, ?H5, ?Hnx; try done; try lia.
  intros k e. rewrite Hlook. case_bool_decide as Hin; [done|]. intros He.
  destruct (Hbuf _ _ He). split; [lia|done].
Qed.

(** ** The forced drain *)

(** What a tick of [forceDrain] flushes. *)
Definition stalled_now (o : reorder) : bool :=
  (avHighExt o =? lastHighExt o) && (forceDrainStallTicks <=? stallTicks o + 1).
Definition flushed (o : reorder) (k : Z) : bool :=
  stalled_now o || ((8 <=? avHighExt o) && (k <=? avHighExt o - 8)).

Lemma sorted_lt_of_le l : NoDup l -> StronglySorted Z.le l -> StronglySorted Z.lt l.
Proof.
  induction 2 as [|x l Hs IH Hx]; [constructor|]. apply NoDup_cons in H as [Hn Hnd].
  constructor; [auto|]. rewrite Forall_forall in *. intros y Hy. specialize (Hx y Hy).
  assert (x <> y) by (intros ->; done). lia.
Qed.

Lemma bufferKeys_spec o :
  StronglySorted Z.lt (bufferKeys o) /\ forall k, k ∈ bufferKeys o <-> is_Some (avBuffer o !! k).
Proof.
  assert (Permutation (bufferKeys o) (fst <$> map_to_list (avBuffer o))) as Hp
    by apply merge_sort_Permutation.
  split.
  - apply sorted_lt_of_le; [rewrite Hp; apply NoDup_fst_map_to_list|].
    apply Sorted_StronglySorted; [intros x y z; lia|]. apply Sorted_merge_sort.
    intros x y. lia.
  - intros k. rewrite Hp, list_elem_of_fmap. split.
    + intros ([k' e] & -> & He). apply elem_of_map_to_list in He. eauto.
    + intros [e He]. exists (k, e). split; [done|]. by apply elem_of_map_to_list.
Qed.

Lemma sorted_filter (P : Z -> Prop) `{!forall x, Decision (P x)} l :
  StronglySorted Z.lt l -> StronglySorted Z.lt (filter P l).
Proof.
  induction 1 as [|x l Hs IH Hx]; [constructor|]. rewrite filter_cons. case_decide; [|done].
  constructor; [done|]. rewrite Forall_forall in *. intros y [_ Hy]%list_elem_of_filter. auto.
Qed.

Lemma sorted_last_max l x y :
  StronglySorted Z.lt l -> list.last l = Some x -> y ∈ l -> y <= x.
Proof.
  induction 1 as [|z l Hs IH Hx]; [done|]. rewrite last_cons. intros Hl.
  rewrite Forall_forall in Hx. destruct (list.last l) as [w|] eqn:E.
  - injection Hl as ->. intros [->|Hy]%elem_of_cons; [|auto].
    apply last_Some_elem_of in E. specialize (Hx x E). lia.
  - injection Hl as ->. apply last_None in E. subst. intros ->%list_elem_of_singleton. lia.
Qed.

Lemma sorted_NoDup l : StronglySorted Z.lt l -> NoDup l.
Proof.
  induction 1 as [|x l Hs IH Hx]; constructor; [|done]. rewrite Forall_forall in Hx.
  intros Hin. specialize (Hx x Hin). lia.
Qed.

Lemma force_spec cfg c :
  reorder_inv (ord c) ->
  let c' := forceDrain cfg c in
  exists keys c1,
    StronglySorted Z.lt keys /\
    (forall k, k ∈ keys <-> is_Some (avBuffer (ord c) !! k) /\ flushed (ord c) k = true) /\
    out c1 = out c /\ keyAsm c1 = keyAsm c /\ interAsm c1 = interAsm c /\ ack c1 = ack c /\
    avBuffer (ord c1) = avBuffer (ord c) /\
    out c' = out (deliver cfg keys c1) /\ ack c' = ack c /\
    (forall k, avBuffer (ord c') !! k = if bool_decide (k ∈ keys) then None else avBuffer (ord c) !! k) /\
    avNextExt (ord c) <= avNextExt (ord c') /\ avHighExt (ord c') = avHighExt (ord c) /\
    reorder_inv (ord c') /\
    (avBuffer (ord c) <> ∅ -> stalled_now (ord c) = false ->
       lastHighExt (ord c') = avHighExt (ord c) /\
       stallTicks (ord c') = if avHighExt (ord c) =? lastHighExt (ord c)
                             then stallTicks (ord c) + 1 else 0).
Proof.
  intros [Hbuf Hnext Hwrap Htop Hstall]. unfold forceDrain.
  case_bool_decide as Hemp.
  { exists [], c. cbn. split; [constructor|]. split.
    { intros k. split; [intros ?%elem_of_nil; done|]. rewrite Hemp. intros [[? ?] _]. done. }
    do 7 (split; [done|]). split.
    { intros k. rewrite bool_decide_false; [done|]. apply not_elem_of_nil. }
    split; [lia|]. split; [done|]. split; [|done].
    split; done. }
  set (o := if avHighExt (ord c) =? lastHighExt (ord c) then _ else _).
  assert (o = mkReorder (wrap (ord c)) (avBuffer (ord c)) (avNextExt (ord c)) (avHighExt (ord c))
      (if avHighExt (ord c) =? lastHighExt (ord c) then stallTicks (ord c) + 1 else 0)
      (avHighExt (ord c))) as Ho.
  { unfold o, upd. destruct (Z.eqb_spec (avHighExt (ord c)) (lastHighExt (ord c))) as [E|E]; [|done].
    rewrite u8_small by (unfold is_byte, forceDrainStallTicks in *; lia). by rewrite <- E. }
  clearbody o. cbv zeta.
  assert ((forceDrainStallTicks <=? stallTicks o) = stalled_now (ord c)) as Hst.
  { unfold stalled_now. rewrite Ho. cbn [stallTicks]. by destruct (_ =? _). }
  rewrite Hst. clear Hst.
  assert (forall k, k ∈ bufferKeys o <-> is_Some (avBuffer (ord c) !! k)) as Hkeys.
  { intros k. rewrite (proj2 (bufferKeys_spec o)). by rewrite Ho. }
  assert (avHighExt o = avHighExt (ord c)) as Hhigh by by rewrite Ho. rewrite Hhigh.
  assert (stalled_now (ord c) = false -> reorder_inv o) as Hinv0.
  { intros Hns. rewrite Ho. split; cbn; try done. unfold stalled_now in Hns.
    unfold forceDrainStallTicks in *. destruct (_ =? _); cbn in Hns; lia. }
  assert (stalled_now (ord c) = false -> lastHighExt o = avHighExt (ord c) /\
    stallTicks o = if avHighExt (ord c) =? lastHighExt (ord c) then stallTicks (ord c) + 1 else 0)
    as Htick by (intros _; by rewrite Ho).
  set (keys := filter (fun k => stalled_now (ord c) || (k <=? (if stalled_now (ord c)
     then avHighExt (ord c) else avHighExt (ord c) - 8))) (bufferKeys o)).
  destruct (negb (stalled_now (ord c)) && (avHighExt (ord c) <? 8)) eqn:Elow.
  { apply andb_true_iff in Elow as [Ens%negb_true_iff Elow%Z.ltb_lt].
    exists [], c. cbn [deliver foldl upd ord]. split; [constructor|]. split.
    { intros k. split; [intros ?%elem_of_nil; done|]. unfold flushed. rewrite Ens. cbn [orb].
      rewrite andb_true_iff, !Z.leb_le. lia. }
    do 7 (split; [done|]). split.
    { intros k. rewrite bool_decide_false by apply not_elem_of_nil. by rewrite Ho. }
    rewrite Ho at 1. split; [cbn; lia|]. split; [by rewrite Ho|].
    split; [by apply Hinv0|]. intros _ _. by apply Htick. }
  assert (forall k, k ∈ keys <-> is_Some (avBuffer (ord c) !! k) /\ flushed (ord c) k = true) as Hk.
  { intros k. unfold keys. rewrite list_elem_of_filter, Hkeys. unfold flushed.
    destruct (stalled_now (ord c)); cbn [orb negb andb] in *; [cbn; tauto|].
    apply Z.ltb_ge in Elow. rewrite (proj2 (Z.leb_le 8 _)) by lia. cbn [andb].
    rewrite Is_true_true. tauto. }
  assert (StronglySorted Z.lt keys) as Hsorted by apply sorted_filter, bufferKeys_spec.
  clearbody keys.
  destruct (Z.eqb_spec (len keys) 0) as [Ez|Ez].
  { assert (keys = []) as -> by (destruct keys; [done|unfold len in Ez; cbn in Ez; lia]).
    exists [], c. cbn [deliver foldl upd ord]. split; [constructor|]. split; [done|].
    do 7 (split; [done|]). split.
    { intros k. rewrite bool_decide_false by apply not_elem_of_nil. by rewrite Ho. }
    rewrite Ho at 1. split; [cbn; lia|]. split; [by rewrite Ho|].
    assert (stalled_now (ord c) = false) as Hns.
    { destruct (stalled_now (ord c)) eqn:Es; [|done]. exfalso.
      apply Hemp, map_empty. intros k. destruct (avBuffer (ord c) !! k) as [e|] eqn:E; [|done].
      assert (k ∈ []) as Hbad; [|by apply elem_of_nil in Hbad].
      apply Hk. unfold flushed. rewrite Es. split; [eauto|done]. }
    split; [by apply Hinv0|]. intros _ _. by apply Htick. }
  set (c1 := bump _ _). exists keys, c1.
  assert (ord c1 = o /\ out c1 = out c /\ keyAsm c1 = keyAsm c /\ interAsm c1 = interAsm c /\
          ack c1 = ack c) as (Hc1 & E1 & E2 & E3 & E4) by done. clearbody c1.
  fold (deliver cfg keys c1).
  destruct (deliver_spec cfg keys c1) as (H1 & H2 & H3 & H4 & H5 & H6).
  { by apply sorted_NoDup. }
  { intros k Hin. rewrite Hc1, Ho. cbn. by apply Hk. }
  set (d := deliver cfg keys c1) in *.
  assert (ack d = ack c) as Hack by (unfold d; by rewrite ack_deliver).
  rewrite Hc1, Ho in *. cbn [wrap avBuffer avNextExt avHighExt stallTicks lastHighExt] in *.
  destruct (list.last keys) as [kl|] eqn:El; [|apply last_None in El; by subst].
  cbn in H2. pose proof (last_Some_elem_of _ _ El) as Hkl. apply Hk in Hkl as [[el Hel] _].
  destruct (Hbuf _ _ Hel) as [Hklb _]. rewrite u64_small in H2 by (unfold is_u64, seq_top in *; lia).
  assert (forall o2, wrap o2 = wrap (ord c) -> avHighExt o2 = avHighExt (ord c) ->
    avNextExt o2 = kl + 1 -> 0 <= stallTicks o2 < forceDrainStallTicks ->
    (forall k, avBuffer o2 !! k = if bool_decide (k ∈ keys) then None else avBuffer (ord c) !! k) ->
    reorder_inv o2) as Hinv.
  { intros o2 G1 G2 G3 G4 G5. split; rewrite ?G1, ?G2, ?G3; try done; [|lia].
    intros k e. rewrite G5. case_bool_decide as Hin; [done|]. intros He.
    destruct (Hbuf _ _ He) as [Hb Hsub]. split; [|done]. split; [|lia].
    destruct (decide (kl < k)); [lia|]. exfalso. apply Hin. apply Hk. split; [eauto|].
    pose proof (last_Some_elem_of _ _ El) as Hkl. apply Hk in Hkl as [_ Hf].
    unfold flushed in *. destruct (stalled_now (ord c)); [done|]. cbn [orb] in *.
    rewrite andb_true_iff, !Z.leb_le in *. lia. }
  destruct (stalled_now (ord c)) eqn:Es.
  - cbn [upd ord out ack]. do 8 (split; [done|]). split; [done|]. split; [exact H1|].
    split; [cbn; lia|]. split; [done|]. split; [|done].
    by apply Hinv.
  - do 9 (split; [done|]). split; [exact H1|]. split; [lia|]. split; [done|].
    split; [|intros _ _; split; congruence].
    apply Hinv; try done. rewrite H5. unfold stalled_now in Es. unfold forceDrainStallTicks in *.
    destruct (_ =? _); cbn in Es; lia.
Qed.

(** With no new packet, six ticks flush everything, however the buffer got stuck. *)
Lemma force_empty cfg c :
  avBuffer (ord c) = ∅ -> avBuffer (ord (forceDrain cfg c)) = ∅.
Proof. intros E. unfold forceDrain. by rewrite bool_decide_true. Qed.

Lemma force_step cfg c s :
  reorder_inv (ord c) -> avHighExt (ord c) = lastHighExt (ord c) -> s <= stallTicks (ord c) ->
  let c' := forceDrain cfg c in
  avBuffer (ord c') = ∅ \/
  (s + 1 < forceDrainStallTicks /\ reorder_inv (ord c') /\
   avHighExt (ord c') = lastHighExt (ord c') /\ s + 1 <= stallTicks (ord c')).
Proof.
  intros Hinv Hlast Hs. cbv zeta.
  destruct (decide (avBuffer (ord c) = ∅)) as [E|E]; [left; by apply force_empty|].
  destruct (force_spec cfg c Hinv) as (keys & c1 & _ & Hk & _ & _ & _ & _ & _ & _ & _ & Hbuf &
    _ & Hhigh & Hinv' & Htick).
  destruct (stalled_now (ord c)) eqn:Es.
  - left. apply map_empty. intros k. rewrite Hbuf. case_bool_decide as Hin; [done|].
    destruct (avBuffer (ord c) !! k) as [e|] eqn:Ek; [|done]. exfalso. apply Hin, Hk.
    unfold flushed. rewrite Es. split; [eauto|done].
  - right. destruct (Htick E eq_refl) as [Hl Ht]. rewrite Hlast, Z.eqb_refl in Ht.
    unfold stalled_now in Es. rewrite Hlast, Z.eqb_refl in Es. cbn in Es.
    apply Z.leb_gt in Es. split; [lia|]. split; [done|]. split; [congruence|lia].
Qed.

Lemma force_iter cfg n : forall c s,
  reorder_inv (ord c) -> avHighExt (ord c) = lastHighExt (ord c) -> 0 <= s <= stallTicks (ord c) ->
  forceDrainStallTicks <= s + Z.of_nat n ->
  avBuffer (ord (Nat.iter n (forceDrain cfg) c)) = ∅.
Proof.
  induction n as [|n IH]; intros c s Hinv Hlast Hs Hn.
  { pose proof (ri_stall _ Hinv). lia. }
  rewrite Nat.iter_succ_r.
  destruct (force_step cfg c s Hinv Hlast ltac:(lia)) as [He|(H1 & H2 & H3 & H4)].
  - clear -He. induction n as [|n IH]; [done|]. cbn. by apply force_empty.
  - apply (IH _ (s + 1)); done || lia.
Qed.

Lemma stall_recovery_lemma cfg c :
  reorder_inv (ord c) -> avBuffer (ord (Nat.iter 6 (forceDrain cfg) c)) = ∅.
Proof.
  intros Hinv. change 6%nat with (S 5). rewrite Nat.iter_succ_r.
  destruct (decide (avBuffer (ord c) = ∅)) as [E|E].
  { generalize 5%nat as n. intros n. pose proof (force_empty cfg c E) as He.
    induction n as [|n IH]; [done|]. cbn. by apply force_empty. }
  destruct (force_spec cfg c Hinv) as (keys & c1 & _ & Hk & _ & _ & _ & _ & _ & _ & _ & Hbuf &
    _ & Hhigh & Hinv' & Htick).
  destruct (stalled_now (ord c)) eqn:Es.
  - assert (avBuffer (ord (forceDrain cfg c)) = ∅) as He.
    { apply map_empty. intros k. rewrite Hbuf. case_bool_decide as Hin; [done|].
      destruct (avBuffer (ord c) !! k) as [e|] eqn:Ek; [|done]. exfalso. apply Hin, Hk.
      unfold flushed. rewrite Es. split; [eauto|done]. }
    generalize 5%nat as n. intros n. induction n as [|n IH]; [done|]. cbn. by apply force_empty.
  - destruct (Htick E eq_refl) as [Hl Ht].
    apply (force_iter cfg 5 _ 0); [done|congruence| |unfold forceDrainStallTicks; lia].
    pose proof (ri_stall _ Hinv'). lia.
Qed.

(** ** Datagrams *)

Record client_inv (c : client) : Prop := {
  ci_ord : reorder_inv (ord c);
  ci_ack : ack_inv (ack c);
}.

Lemma accept_total s a st :
  is_u16 s -> exists a' st', acceptReliableControl s a st = Some (a', st') /\
    (ack_inv a -> ack_inv a').
Proof.
  intros Hs. unfold acceptReliableControl.
  assert (forall ack_ set_ seen_, ack_inv a -> ack_inv (withReliable a ack_ set_ seen_)) as Hinv
    by (intros ? ? ? []; by split).
  destruct (reliableRecvSet a); cbn [negb]; [|eauto].
  destruct (_ || _); [eauto|]. destruct (negb _); [eauto|].
  destruct (joinReliable_spec (S (size (reliableSeen a))) s (reliableSeen a) ltac:(lia) Hs)
    as (n & -> & _ & _). cbn. eauto.
Qed.

Lemma decoded_subWire inner c m c' :
  bytes_ok inner -> classifyMedia inner c = Some (Some m, c') -> is_u16 (subWire m).
Proof.
  intros Hok. unfold classifyMedia. intros (x1 & _ & H)%bind_Some_inv.
  destruct (decodeNormalMedia_total inner Hok) as (nm & nok & Hn & Hacc).
  assert (nok = true -> is_u16 (subWire nm)) as Hnormal.
  { intros E. destruct (Hacc E) as (_ & _ & _ & _ & _ & -> & _). by apply at16_bound. }
  rewrite Hn in H. destruct (isExtendedMediaFamily x1).
  - destruct (decide (len inner < 44)) as [Hl|Hl].
    + destruct (decode_extended_short inner Hl) as (m' & r & E). rewrite E in H. cbn in H.
      destruct nok; simplify_eq. auto.
    + destruct (decode_extended_long inner Hok ltac:(lia)) as (m' & r & E & Hm).
      rewrite E in H. cbn in H. destruct (_ && _).
      * simplify_eq. rewrite (Hm eq_refl). by apply at16_bound.
      * destruct nok; simplify_eq. auto.
  - cbn in H. destruct nok; simplify_eq. auto.
Qed.

Lemma classify_total inner c :
  bytes_ok inner -> 2 <= len inner -> exists m c', classifyMedia inner c = Some (m, c') /\ same c c'.
Proof.
  intros Hok Hl. unfold classifyMedia. reads.
  destruct (decodeNormalMedia_total inner Hok) as (nm & nok & -> & _).
  destruct (decodeExtendedMedia_total inner Hok) as (em & r & eok & ->).
  destruct (isExtendedMediaFamily _); cbn; [destruct eok|]; [|destruct nok..];
    do 2 eexists; (split; [reflexivity|]); auto with same.
Qed.

Lemma reorder_inv_insert o ext e :
  reorder_inv o -> avNextExt o <= ext <= avHighExt o -> subExt e = ext ->
  reorder_inv (o <| avBuffer := <[ext := e]> (avBuffer o) |>).
Proof.
  intros [Hbuf Hnext Hwrap Htop Hstall] He Hsub. split; cbn; try done.
  intros k e'. rewrite lookup_insert_Some. intros [[<- <-]|[_ Hk]]; [done|]. by apply Hbuf.
Qed.

Lemma advanceTo_extend w wire ext :
  extend w wire = Some ext -> advanceTo w wire = Z.max w ext.
Proof. unfold advanceTo. intros ->. destruct (Z.ltb_spec w ext); lia. Qed.

(** The delivery position does not go back, and a datagram moves the highest position
    by less than a whole round of the 16-bit counter. *)
Definition advances (c c' : client) : Prop :=
  avNextExt (ord c) <= avNextExt (ord c') /\ avHighExt (ord c') <= avHighExt (ord c) + 65536.

Lemma advances_refl c : advances c c.
Proof. unfold advances. lia. Qed.

Lemma accept_media_total cfg now m c :
  client_inv c -> is_u16 (subWire m) -> avHighExt (ord c) < seq_top - 65536 ->
  exists c', acceptMedia cfg now m c = Some c' /\ client_inv c' /\ advances c c'.
Proof.
  intros [Hord Hack] Hm Htop. pose proof Hord as [Hbuf Hnext Hwrap Htop' Hstall].
  unfold acceptMedia. cbv zeta.
  change (ord (bump [(channelCounter (channel m), 1)] c)) with (ord c).
  destruct (extend (wrap (ord c)) (subWire m)) as [ext|] eqn:E.
  2:{ eexists. split; [reflexivity|]. split; [by split|]. unfold advances. cbn. lia. }
  pose proof (advanceTo_extend _ _ _ E) as Hadv.
  apply extend_bounds in E as (He0 & Hew & _); [|unfold seq_top in *; lia|done].
  set (c1 := if avHighExt (ord c) <? ext then _ else _).
  assert (reorder_inv (ord c1) /\ ack c1 = ack c /\ avNextExt (ord c1) = avNextExt (ord c) /\
          ext <= avHighExt (ord c1) /\ avHighExt (ord c1) <= avHighExt (ord c) + 65536)
    as (Hord' & Hack' & Hnx & Hle & Hhi).
  { unfold c1. destruct (Z.ltb_spec (avHighExt (ord c)) ext); [|split; [exact Hord|]; cbn; repeat split; lia]. cbn. rewrite Hadv.
    split; [|repeat split; lia]. split; cbn; try done; [|lia|lia|lia].
    intros k e Hk. apply Hbuf in Hk. lia. }
  clearbody c1.
  destruct (markACKReceived _ now ext (ack c1) (stats c1)) as [a s] eqn:Em.
  assert (ack_inv a) as Ha.
  { pose proof (mark_cases (verbose cfg && negb (traceACK cfg)) now ext (ack c1) (stats c1)) as H.
    rewrite Em in H. apply H; [by rewrite Hack'|unfold seq_top in *; lia]. }
  cbn [upd ord].
  destruct (Z.ltb_spec ext (avNextExt (ord c1))).
  { eexists. split; [reflexivity|]. split; [by split|]. unfold advances. cbn. lia. }
  set (c2 := bump _ _).
  assert (reorder_inv (ord c2) /\ ack c2 = a /\ avNextExt (ord c2) = avNextExt (ord c1) /\
          avHighExt (ord c2) = avHighExt (ord c1)) as (H2 & H3 & H4 & H5).
  { split; [|done]. apply (reorder_inv_insert (ord c1) ext); [done|lia|done]. }
  clearbody c2. destruct (drain_spec cfg c2 H2) as (n & c' & -> & Hn & Hc' & Hnx' & _ & _ & _ & Hinv' & Hhi').
  eexists. split; [reflexivity|]. split; [|unfold advances; lia]. split; [done|].
  rewrite Hc'. by rewrite ack_deliver, H3.
Qed.

Lemma same_inv c c' : same c c' -> client_inv c -> client_inv c'.
Proof. intros (Ho & Ha & _) [H1 H2]. split; congruence. Qed.

Lemma reliable_u16 inner s :
  bytes_ok inner -> reliableControlSequence inner = Some (Some s) -> is_u16 s.
Proof.
  intros Hok. unfold reliableControlSequence. case_decide; [done|]. reads.
  destruct (_ || _); [done|]. destruct (existsb _ _); [intros [= <-]; by apply at16_bound|].
  destruct (existsb _ _); cbn [negb]; [|done]. case_decide; [done|]. reads.
  destruct (negb _); [done|]. destruct (_ <? _); [done|]. intros [= <-]. by apply at16_bound.
Qed.

Lemma parse_total (cfg : config) (sendOK : bool) (now : Z) (pkt : bytes) (c : client)
    (Hpkt : bytes_ok pkt) (Hc : client_inv c) (Hroom : avHighExt (ord c) < seq_top - 65536) :
  exists c', parseDatagram cfg sendOK now pkt c = Some c' /\ client_inv c' /\ advances c c'.
Proof.
  unfold parseDatagram. destruct (datagramInner_total pkt Hpkt) as (r & -> & Hr).
  cbn [mbind option_bind]. destruct r as [inner|]; [|exists c; split; [done|split; [done|apply advances_refl]]].
  destruct (Hr inner eq_refl) as [Hl Hok]. clear Hr. reads.
  destruct (_ || _) eqn:Ect.
  { assert (exists r c1, handleTransportControl inner c = Some (r, c1) /\ same c c1) as (r & c1 & -> & Hs).
    { unfold handleTransportControl. reads.
      destruct (_ =? 9); [do 2 eexists; split; [reflexivity|auto with same]|].
      destruct (_ =? 10).
      - unfold timingProbeResponse. case_decide; cbn [mbind option_bind].
        { do 2 eexists; split; [reflexivity|auto with same]. }
        reads. match goal with |- context [if ?b then Some None else _] => destruct b end;
          cbn [mbind option_bind]; do 2 eexists; (split; [reflexivity|auto with same]).
      - destruct (_ =? 11); do 2 eexists; (split; [reflexivity|auto with same]). }
    cbn [mbind option_bind]. eexists. split; [reflexivity|].
    assert (client_inv c1 /\ avNextExt (ord c1) = avNextExt (ord c)) as [Hc1 Hn].
    { split; [by eapply same_inv|]. destruct Hs as (-> & _). done. }
    destruct r as [b|]; [|split; [done|unfold advances; destruct Hs as (-> & _); lia]].
    unfold sendReply. destruct sendOK; (split; [split; apply Hc1|unfold advances; cbn; destruct Hs as (-> & _); lia]). }
  destruct (negb _); [exists c; split; [done|split; [done|apply advances_refl]]|].
  destruct (reliableControlSequence_total inner Hok) as (rc & Hrc). rewrite Hrc.
  cbn [mbind option_bind]. destruct rc as [s|].
  { destruct (accept_total s (ack c) (stats c)) as (a & st & -> & Hinv);
      [by eapply reliable_u16|].
    cbn [mbind option_bind]. eexists. split; [reflexivity|]. split; [|unfold advances; cbn; lia].
    split; [apply Hc|]. apply Hinv, Hc. }
  destruct (Z.ltb_spec (len inner) 36); [exists c; split; [done|split; [done|apply advances_refl]]|].
  destruct (classify_total inner c Hok ltac:(lia)) as (m & c1 & Hcl & Hs). rewrite Hcl.
  cbn [mbind option_bind]. pose proof (same_inv _ _ Hs Hc) as Hc1. destruct Hs as (Ho & _ & _).
  destruct m as [m|]; [|exists c1; split; [done|]; split; [done|unfold advances; rewrite Ho; lia]].
  destruct (accept_media_total cfg now m c1 Hc1) as (c' & -> & Hc' & Hn).
  - by eapply decoded_subWire.
  - by rewrite Ho.
  - exists c'. unfold advances in *. rewrite Ho in Hn. done.
Qed.

(** C3. Whatever bytes arrive, handling a datagram neither panics nor loops, keeps the
    invariants of the reorder buffer and of the ACK tracker, and never moves the
    delivery position back. *)
Theorem parse_datagram_safe (cfg : config) (sendOK : bool) (now : Z) (pkt : bytes) (c : client)
    (Hpkt : bytes_ok pkt) (Hc : client_inv c) (Hroom : avHighExt (ord c) < seq_top - 65536) :
  exists c', parseDatagram cfg sendOK now pkt c = Some c' /\ client_inv c' /\
    avNextExt (ord c) <= avNextExt (ord c').
Proof.
  destruct (parse_total cfg sendOK now pkt c Hpkt Hc Hroom) as (c' & E & Hc' & Hn & _). eauto.
Qed.

(** ** The properties *)

Lemma begin_inv avMax c :
  0x3FFF <= avMax <= 0xFFFF -> 0 <= stallTicks (ord c) < forceDrainStallTicks ->
  client_inv (beginStream avMax c) /\
  avNextExt (ord (beginStream avMax c)) = contiguousAckExt (ack (beginStream avMax c)) + 1.
Proof.
  intros H Hs. unfold beginStream. pose proof (init_refines avMax (ack c) (stats c)) as Hi.
  destruct (initACKTracking avMax (ack c) (stats c)) as [a s] eqn:E. cbn in Hi.
  assert (ackWatermarkExt a = avMax) as Hw by (by injection E as <- _).
  split; [split|]; cbn.
  - split; cbn; try done; try (destruct (Z.eqb_spec avMax 0x3FFF); unfold seq_top; lia).
  - apply Hi. unfold seq_top. lia.
  - unfold contiguousAckExt. rewrite Hw. destruct (Z.eqb_spec avMax 0x3FFF); lia.
Qed.

(** C4. Draining delivers exactly the run of consecutive positions that starts at the
    next one expected, each once and in order, stops at the first one missing, and
    always stops; nothing behind the gap is touched. *)
Theorem drain_in_order (cfg : config) (c : client) (Hc : reorder_inv (ord c)) :
  exists n c', drainContiguous cfg c = Some c' /\ 0 <= n /\
    c' = deliver cfg (seqZ (avNextExt (ord c)) n) c /\
    avNextExt (ord c') = avNextExt (ord c) + n /\
    (forall k, avNextExt (ord c) <= k < avNextExt (ord c) + n -> is_Some (avBuffer (ord c) !! k)) /\
    avBuffer (ord c) !! (avNextExt (ord c) + n) = None /\
    (forall k, avBuffer (ord c') !! k =
       if bool_decide (avNextExt (ord c) <= k < avNextExt (ord c) + n) then None
       else avBuffer (ord c) !! k) /\
    reorder_inv (ord c').
Proof.
  destruct (drain_spec cfg c Hc) as (n & c' & H1 & H2 & H3 & H4 & H5 & H6 & H7 & H8 & _).
  exists n, c'. auto 10.
Qed.

(** A forced drain hands over, in ascending order, what lies at least eight
    positions behind the newest packet, or everything once the stream has stalled
    for five ticks; the acknowledgement state is out of its reach, so skipping a
    hole never acknowledges it. *)
Theorem force_drain_exact (cfg : config) (c : client) (Hc : reorder_inv (ord c)) :
  let c' := forceDrain cfg c in
  exists keys c1,
    StronglySorted Z.lt keys /\
    (forall k, k ∈ keys <-> is_Some (avBuffer (ord c) !! k) /\ flushed (ord c) k = true) /\
    out c1 = out c /\ keyAsm c1 = keyAsm c /\ interAsm c1 = interAsm c /\
    avBuffer (ord c1) = avBuffer (ord c) /\
    out c' = out (deliver cfg keys c1) /\ ack c' = ack c /\
    (forall k, avBuffer (ord c') !! k = if bool_decide (k ∈ keys) then None else avBuffer (ord c) !! k) /\
    avNextExt (ord c) <= avNextExt (ord c') /\ reorder_inv (ord c').
Proof.
  destruct (force_spec cfg c Hc) as (keys & c1 & H). exists keys, c1. tauto.
Qed.

(** C5. When packets stop arriving, at most six ticks empty the reorder buffer. *)
Theorem stall_recovery (cfg : config) (c : client) (Hc : reorder_inv (ord c)) :
  avBuffer (ord (Nat.iter 6 (forceDrain cfg) c)) = ∅.
Proof. by apply stall_recovery_lemma. Qed.

(** *** Witnesses *)

Definition sample_cfg : config := mkConfig false true false (fun _ => 0).

Definition data_frag (ch pos frame idx total : Z) (p : bytes) : pendingFrag :=
  mkFrag ch false pos frame idx total p.

(** Positions 0x4000, 0x4001 and 0x4003 are buffered; 0x4002 is missing. *)
Definition sample_client : client :=
  let c := beginStream 0x3FFF new_client in
  c <| ord := mkReorder 0x4010
         (<[0x4000 := data_frag 7 0x4000 1 0 3 [1]]>
           (<[0x4001 := data_frag 7 0x4001 1 1 3 [2]]>
             (<[0x4003 := data_frag 7 0x4003 2 0 3 [3]]> ∅)))
         0x4000 0x4010 0 0x4010 |>.

Lemma sample_reorder : reorder_inv (ord sample_client).
Proof.
  split; cbn; try done.
  intros k e H. repeat (apply lookup_insert_Some in H as [[<- <-]|[_ H]]; [by split|]).
  by rewrite lookup_empty in H.
Qed.

Lemma drain_in_order_witness :
  exists n c', drainContiguous sample_cfg sample_client = Some c' /\ 0 <= n /\
    c' = deliver sample_cfg (seqZ (avNextExt (ord sample_client)) n) sample_client /\
    avNextExt (ord c') = avNextExt (ord sample_client) + n /\
    (forall k, avNextExt (ord sample_client) <= k < avNextExt (ord sample_client) + n ->
       is_Some (avBuffer (ord sample_client) !! k)) /\
    avBuffer (ord sample_client) !! (avNextExt (ord sample_client) + n) = None /\
    (forall k, avBuffer (ord c') !! k =
       if bool_decide (avNextExt (ord sample_client) <= k < avNextExt (ord sample_client) + n) then None
       else avBuffer (ord sample_client) !! k) /\
    reorder_inv (ord c').
Proof. apply (drain_in_order sample_cfg sample_client). exact sample_reorder. Defined.

Lemma force_drain_exact_witness :
  ack (forceDrain sample_cfg sample_client) = ack sample_client.
Proof.
  destruct (force_drain_exact sample_cfg sample_client sample_reorder)
    as (keys & c1 & _ & _ & _ & _ & _ & _ & _ & H & _).
  exact H.
Defined.

Lemma stall_recovery_witness :
  avBuffer (ord (Nat.iter 6 (forceDrain sample_cfg) sample_client)) = ∅.
Proof. apply (stall_recovery sample_cfg sample_client). exact sample_reorder. Defined.

Lemma sample_client_inv : client_inv sample_client.
Proof. split; [exact sample_reorder|]. apply (begin_inv 0x3FFF new_client); [lia|done]. Qed.

Lemma parse_datagram_safe_witness :
  exists c', parseDatagram sample_cfg true 0 (buildOuter (zeros 8) 3 [0x0c; 8] 0 0 0x0b) sample_client
      = Some c' /\ client_inv c' /\ avNextExt (ord sample_client) <= avNextExt (ord c').
Proof.
  apply (parse_datagram_safe sample_cfg true 0 (buildOuter (zeros 8) 3 [0x0c; 8] 0 0 0x0b) sample_client).
  - bytes_lit.
  - exact sample_client_inv.
  - reflexivity.
Defined.
