(* ===== verification/Emission.v ===== *)
(** Emission: the sequence of packets the assembler produces, as a step relation
    on the output state, and what holds of it in every run of the client. *)

From Stdlib Require Import Sorting.Sorted.
From S2P Require Import Prelude Crypto Wire Media Classify Stats Ack AckFacts Annexb Bits Sps Assembler Delivery.

(** ** The output as a step relation *)

(** The timestamp guard of [emitAU]. *)
Definition guarded (lastTs ts : Z) : Prop := lastTs < ts \/ lastTs = 0 \/ 4294967295 <= lastTs.

(** A packet leaves the assembler: audio, or a video unit with its place in the
    clock and in the group of pictures. *)
Definition packet_ok (cfg : config) (o : output) (p : Packet) (o' : output) : Prop :=
  (Codec p = CodecAACADTS /\ lastEmitTs o' = lastEmitTs o /\ gopPoisoned o' = gopPoisoned o) \/
  (Codec p = CodecH264 /\ IsKeyframe p = annexbContainsNALType (Payload p) NALUTypeIFrame /\
   lastEmitTs o' = Timestamp p /\ guarded (lastEmitTs o) (Timestamp p) /\
   gopPoisoned o' = gopPoisoned o && negb (IsKeyframe p) /\
   (strict cfg = true -> gopPoisoned o = true -> IsKeyframe p = true)).

(** The trace lists the packets that leave, whether the queue takes them or not. *)
Inductive ostep (cfg : config) (o : output) : list Packet -> output -> Prop :=
| o_quiet o' :
    frames o' = frames o -> closed o' = closed o -> lastEmitTs o' = lastEmitTs o ->
    (gopPoisoned o = true -> gopPoisoned o' = true) -> ostep cfg o [] o'
| o_packet p o' :
    closed o' = closed o ->
    frames o' = (if negb (closed o) && (len (frames o) <? framesCap)
                 then frames o ++ [p] else frames o) ->
    packet_ok cfg o p o' -> ostep cfg o [p] o'.

Inductive osteps (cfg : config) : output -> list Packet -> output -> Prop :=
| os_refl o : osteps cfg o [] o
| os_step o1 t1 o2 t2 o3 : ostep cfg o1 t1 o2 -> osteps cfg o2 t2 o3 -> osteps cfg o1 (t1 ++ t2) o3.

Lemma osteps_trans cfg o1 t1 o2 t2 o3 :
  osteps cfg o1 t1 o2 -> osteps cfg o2 t2 o3 -> osteps cfg o1 (t1 ++ t2) o3.
Proof.
  induction 1; [done|]. intros. rewrite <- app_assoc. eapply os_step; eauto.
Qed.

(** [c'] is reached from [c] with some packets leaving. *)
Definition emits (cfg : config) (c c' : client) : Prop := exists tr, osteps cfg (out c) tr (out c').

Lemma emits_refl cfg c : emits cfg c c.
Proof. exists []. constructor. Qed.
Lemma emits_trans cfg c1 c2 c3 : emits cfg c1 c2 -> emits cfg c2 c3 -> emits cfg c1 c3.
Proof. intros [t1 H1] [t2 H2]. exists (t1 ++ t2). by eapply osteps_trans. Qed.
Lemma emits_eq cfg c x y : emits cfg c x -> out y = out x -> emits cfg c y.
Proof. intros [t H] E. exists t. by rewrite E. Qed.
Lemma emits_step cfg c x y tr : emits cfg c x -> ostep cfg (out x) tr (out y) -> emits cfg c y.
Proof.
  intros [t H] Hs. exists (t ++ tr). eapply osteps_trans; [done|].
  rewrite <- (app_nil_r tr). eapply os_step; [done|constructor].
Qed.

(** Operations that do not touch the output. *)
Lemma out_bump ks c : out (bump ks c) = out c.
Proof. done. Qed.
Lemma out_setAsm ch a c : out (setAsm ch a c) = out c.
Proof. unfold setAsm. by destruct (_ =? _). Qed.
Lemma out_logAVLoss a ch t c : out (logAVLoss a ch t c) = out c.
Proof. unfold logAVLoss. by destruct (_ && _). Qed.
Lemma out_info cfg e t c : out (debugAVFrameInfo cfg e t c) = out c.
Proof. unfold debugAVFrameInfo. by destruct (_ || _). Qed.
Lemma out_start e c : out (frameStart e c) = out c.
Proof. unfold frameStart. cbv zeta. destruct (_ || _); by rewrite out_setAsm. Qed.
Lemma out_data e c : out (dataFragment e c) = out c.
Proof. unfold dataFragment. cbv zeta. rewrite out_setAsm. by destruct (_ && _). Qed.
Create Rewrite HintDb outs.
#[export] Hint Rewrite out_bump out_setAsm out_logAVLoss out_info out_start out_data : outs.

Lemma nextPTS_spec o :
  let '(pts, o') := nextPTS o in
  lastEmitTs o' = pts /\ guarded (lastEmitTs o) pts /\ frames o' = frames o /\
  closed o' = closed o /\ gopPoisoned o' = gopPoisoned o /\ emitSeq o' = emitSeq o.
Proof.
  unfold nextPTS.
  match goal with |- context [if havePendingTs o then ?a else ?b] =>
    assert (exists p o1, (if havePendingTs o then a else b) = (p, o1) /\
      lastEmitTs o1 = lastEmitTs o /\ frames o1 = frames o /\ closed o1 = closed o /\
      gopPoisoned o1 = gopPoisoned o /\ emitSeq o1 = emitSeq o /\ is_u32 p)
      as (p & o1 & E & H1 & H2 & H3 & H4 & H5 & H6) end.
  { destruct (havePendingTs o); do 2 eexists; (split; [reflexivity|]); repeat split; try done;
      apply u32_bound. }
  rewrite E, H1. clear E. cbn.
  destruct (Z.leb_spec p (lastEmitTs o)), (Z.eqb_spec (lastEmitTs o) 0); cbn [andb negb];
    repeat split; try done; unfold guarded; ints.
Qed.

Lemma noteSPS_spec au o :
  frames (noteSPS au o) = frames o /\ closed (noteSPS au o) = closed o /\
  lastEmitTs (noteSPS au o) = lastEmitTs o /\ gopPoisoned (noteSPS au o) = gopPoisoned o.
Proof.
  unfold noteSPS. destruct (annexbNAL au NALUTypeSPS); [|done]. by case_bool_decide.
Qed.

Lemma queuePacket_out p c :
  out (queuePacket p c) = if negb (closed (out c)) && (len (frames (out c)) <? framesCap)
    then (out c) <| frames := frames (out c) ++ [p] |> else out c.
Proof.
  unfold queuePacket. destruct (closed (out c)); cbn [negb andb]; [done|].
  by destruct (_ <? _).
Qed.

Lemma emitAU_emits cfg au fn ch on c x : emits cfg c x -> emits cfg c (emitAU cfg au fn ch on x).
Proof.
  intros Hx. unfold emitAU. cbv zeta. destruct (len au <? 5); [done|].
  destruct (noteSPS_spec au (out x)) as (S1 & S2 & S3 & S4).
  set (x1 := x <| out := noteSPS au (out x) |>).
  assert (out x1 = noteSPS au (out x)) as E1 by done. clearbody x1.
  assert (emits cfg c x1) as Hx1.
  { eapply emits_step; [exact Hx|]. apply o_quiet; rewrite E1; congruence. }
  destruct (negb (annexbContainsNALType au NALUTypeIFrame) && strict cfg && gopPoisoned (out x1)) eqn:Ed.
  { by eapply emits_eq; [exact Hx1|]. }
  set (x2 := if annexbContainsNALType au NALUTypeIFrame then _ else x1).
  assert (out x2 = (out x1) <| gopPoisoned := gopPoisoned (out x1) &&
    negb (annexbContainsNALType au NALUTypeIFrame) |>) as E2.
  { unfold x2. destruct (annexbContainsNALType au NALUTypeIFrame); cbn;
      rewrite ?andb_false_r, ?andb_true_r; [done|]. by destruct (out x1). }
  clearbody x2. pose proof (nextPTS_spec (out x2)) as Hp.
  destruct (nextPTS (out x2)) as [pts o]. destruct Hp as (P1 & P2 & P3 & P4 & P5 & P6).
  set (p := mkPacket _ _ _ _ _ _ _ _).
  eapply emits_step; [exact Hx1|]. apply (o_packet _ _ p).
  - cbn [bump upd out closed]. rewrite queuePacket_out. cbn [upd out].
    transitivity (closed o); [by destruct (negb (closed o) && _)|by rewrite P4, E2].
  - cbn [bump upd out frames]. rewrite queuePacket_out. cbn [upd out].
    assert (frames o = frames (out x1)) as <- by (by rewrite P3, E2).
    assert (closed o = closed (out x1)) as <- by (by rewrite P4, E2).
    by destruct (negb (closed o) && _).
  - right. split; [done|]. split; [done|].
    cbn [bump upd out emitSeq lastEmitTs gopPoisoned]. rewrite queuePacket_out. cbn [upd out].
    set (room := negb (closed o) && _). clearbody room.
    assert (guarded (lastEmitTs (out x1)) pts) as Hg by (by rewrite E2 in P2).
    assert (gopPoisoned o = gopPoisoned (out x1) && negb (annexbContainsNALType au NALUTypeIFrame)) as Hp
      by (by rewrite P5, E2).
    destruct room; cbn; rewrite P1; (do 2 (split; [done|])); (split; [done|]); intros Hs Hg';
      rewrite Hs, Hg' in Ed; by destruct (annexbContainsNALType au NALUTypeIFrame).
Qed.

Lemma emits_quiet cfg c x y :
  emits cfg c x -> frames (out y) = frames (out x) -> closed (out y) = closed (out x) ->
  lastEmitTs (out y) = lastEmitTs (out x) ->
  (gopPoisoned (out x) = true -> gopPoisoned (out y) = true) -> emits cfg c y.
Proof. intros H ? ? ? ?. eapply emits_step; [exact H|]. by apply o_quiet. Qed.

Lemma emits_bump cfg c x ks : emits cfg c x -> emits cfg c (bump ks x).
Proof. intros. by eapply emits_eq. Qed.
Lemma emits_setAsm cfg c x ch a : emits cfg c x -> emits cfg c (setAsm ch a x).
Proof. intros. eapply emits_eq; [done|]. apply out_setAsm. Qed.
Lemma emits_loss cfg c x a ch t : emits cfg c x -> emits cfg c (logAVLoss a ch t x).
Proof. intros. eapply emits_eq; [done|]. apply out_logAVLoss. Qed.
Lemma emits_info cfg c x e t : emits cfg c x -> emits cfg c (debugAVFrameInfo cfg e t x).
Proof. intros. eapply emits_eq; [done|]. apply out_info. Qed.
Lemma emits_start cfg c x e : emits cfg c x -> emits cfg c (frameStart e x).
Proof. intros. eapply emits_eq; [done|]. apply out_start. Qed.
Lemma emits_data cfg c x e : emits cfg c x -> emits cfg c (dataFragment e x).
Proof. intros. eapply emits_eq; [done|]. apply out_data. Qed.
Lemma emits_key cfg c x f : emits cfg c x -> emits cfg c (upd keyAsm f x).
Proof. intros. by eapply emits_eq. Qed.
Lemma emits_ord cfg c x f : emits cfg c x -> emits cfg c (upd ord f x).
Proof. intros. by eapply emits_eq. Qed.
Lemma emits_poison cfg c x b : emits cfg c x -> emits cfg c (poison b x).
Proof. intros. destruct b; [|done]. by eapply emits_quiet. Qed.
Lemma emits_poisoned cfg c x :
  emits cfg c x -> emits cfg c (x <| out := (out x) <| gopPoisoned := true |> |>).
Proof. apply (emits_poison cfg c x true). Qed.
Lemma emits_clock cfg c x ts :
  emits cfg c x ->
  emits cfg c (x <| out := (out x) <| pendingFrameTs := ts |> <| havePendingTs := true |> |>).
Proof. intros. by eapply emits_quiet. Qed.
Create HintDb emits.
#[export] Hint Resolve emits_refl emits_bump emits_setAsm emits_loss emits_info emits_start
  emits_data emits_key emits_ord emits_poison emits_poisoned emits_clock emitAU_emits : emits.

Lemma flush_emits cfg c x ts : emits cfg c x -> emits cfg c (flushPendingIDR cfg ts x).
Proof.
  intros. unfold flushPendingIDR. cbv zeta. destruct (len _ =? 0); [auto with emits|].
  set (g := curAUGapped _). set (t := (0 <? _) && _). clearbody g t.
  destruct g, t, (strict cfg), (40 <=? ts); cbn [orb andb]; auto 20 with emits.
Qed.
#[export] Hint Resolve flush_emits : emits.

Lemma jump_emits cfg c x e : emits cfg c x -> emits cfg c (frameJump cfg e x).
Proof.
  intros. unfold frameJump. cbv zeta. destruct (_ && _); [|done].
  destruct (0 <? _); [|auto with emits]. destruct (_ =? _); auto 10 with emits.
Qed.

Lemma end_emits cfg c x e s ts on : emits cfg c x -> emits cfg c (endFragment cfg e s ts on x).
Proof.
  intros. unfold endFragment. cbv zeta.
  set (short := curAUDataCount _ <? _). clearbody short.
  match goal with |- emits _ _ (if ?b then _ else _) => destruct b end;
    [destruct short; auto 10 with emits|].
  match goal with |- emits _ _ (if ?b then _ else _) => destruct b end;
    [destruct short; auto 10 with emits|].
  set (g := curAUGapped _). clearbody g.
  destruct short, g, (_ =? innerChKey); cbn [andb negb]; auto 10 with emits;
    match goal with |- emits _ _ (if ?b then _ else _) => destruct b end; auto 10 with emits.
Qed.
#[export] Hint Resolve jump_emits end_emits : emits.

Lemma audio_emits cfg c p n : 
  Codec p = CodecAACADTS ->
  emits cfg c (let c := queuePacket p c in c <| out := (out c) <| emitAudioSeq := n |> |>).
Proof.
  intros Hp. cbv zeta. eapply emits_step; [apply emits_refl|]. apply (o_packet _ _ p).
  - cbn [upd out closed]. rewrite queuePacket_out. by destruct (negb (closed (out c)) && _).
  - cbn [upd out frames]. rewrite queuePacket_out. by destruct (negb (closed (out c)) && _).
  - left. split; [done|]. cbn [upd out lastEmitTs gopPoisoned]. rewrite queuePacket_out.
    by destruct (negb (closed (out c)) && _).
Qed.

Lemma emit_emits cfg e c : emits cfg c (emit cfg e c).
Proof.
  unfold emit. cbv zeta. destruct (fragIsAudio e); [by apply audio_emits|].
  destruct (_ && _); [auto with emits|]. destruct (strip _) as [[[s ts] on] h].
  match goal with |- emits _ _ (if h then _ ?x else _) => assert (emits cfg c x) end.
  { destruct (_ && _); auto 10 with emits. }
  destruct h; auto with emits.
Qed.

Lemma flush1_emits cfg k c : emits cfg c (forceFlush cfg k c).
Proof.
  unfold forceFlush. destruct (_ !! k) as [e|]; [|apply emits_refl].
  eapply emits_trans; [|apply emit_emits]. apply emits_ord, emits_refl.
Qed.
Lemma deliver_emits cfg ks : forall c, emits cfg c (deliver cfg ks c).
Proof.
  unfold deliver. induction ks as [|k ks IH]; intros c; [apply emits_refl|]. cbn [foldl].
  eapply emits_trans; [apply flush1_emits|apply IH].
Qed.
Lemma drain_emits cfg fuel : forall c c', drainLoop fuel cfg c = Some c' -> emits cfg c c'.
Proof.
  induction fuel as [|fuel IH]; intros c c'; [done|]. cbn [drainLoop].
  destruct (_ !! _) as [e|]; [|intros [= <-]; apply emits_refl].
  intros H%IH. eapply emits_trans; [|exact H]. eapply emits_trans; [|apply emit_emits].
  apply emits_ord, emits_refl.
Qed.
Lemma force_emits cfg c : emits cfg c (forceDrain cfg c).
Proof.
  unfold forceDrain. case_bool_decide; [apply emits_ord, emits_refl|]. cbv zeta.
  destruct (_ && _); [apply emits_ord, emits_refl|].
  destruct (_ =? 0); [apply emits_ord, emits_refl|].
  match goal with |- emits _ _ (if ?b then upd ord _ ?x else _) =>
    assert (emits cfg c x) as Hfold; [|destruct b; auto with emits] end.
  match goal with |- emits _ _ (foldl _ ?x ?ks) =>
    eapply emits_trans; [|apply (deliver_emits cfg ks x)] end.
  apply emits_bump, emits_ord, emits_refl.
Qed.

Lemma classify_out inner c m c' : classifyMedia inner c = Some (m, c') -> out c' = out c.
Proof.
  unfold classifyMedia. intros (x1 & _ & H)%bind_Some_inv. destruct (isExtendedMediaFamily x1).
  - apply bind_Some_inv in H as ([[em r] eok] & _ & H). destruct eok; [by simplify_eq|].
    apply bind_Some_inv in H as ([nm nok] & _ & H). by destruct nok; simplify_eq.
  - apply bind_Some_inv in H as ([nm nok] & _ & H). by destruct nok; simplify_eq.
Qed.

Lemma accept_emits cfg now m c c' : acceptMedia cfg now m c = Some c' -> emits cfg c c'.
Proof.
  unfold acceptMedia. cbv zeta. destruct (extend _ _) as [ext|].
  2:{ intros [= <-]. auto with emits. }
  set (c1 := if _ <? _ then _ else _).
  assert (out c1 = out c) as E1 by (unfold c1; by destruct (_ <? _)). clearbody c1.
  destruct (markACKReceived _ _ _ _ _) as [a s]. destruct (_ <? _).
  { intros [= <-]. eapply emits_eq; [apply emits_refl|done]. }
  intros H%drain_emits. eapply emits_trans; [|exact H].
  eapply emits_eq; [apply emits_refl|done].
Qed.

Lemma parse_emits cfg ok now pkt c c' : parseDatagram cfg ok now pkt c = Some c' -> emits cfg c c'.
Proof.
  unfold parseDatagram. intros (d & _ & H)%bind_Some_inv. destruct d as [inner|];
    [|simplify_eq; apply emits_refl].
  apply bind_Some_inv in H as (x0 & _ & H). destruct (_ || _).
  { apply bind_Some_inv in H as ([r c1] & Hc & H).
    assert (out c1 = out c) as E.
    { revert Hc. unfold handleTransportControl. intros (y & _ & Hc)%bind_Some_inv.
      destruct (_ =? 9); [by simplify_eq|]. destruct (_ =? 10); [|by destruct (_ =? 11); simplify_eq].
      apply bind_Some_inv in Hc as (z & _ & Hc). by destruct z; simplify_eq. }
    simplify_eq. eapply emits_eq; [apply emits_refl|]. destruct r; [|done].
    unfold sendReply. by destruct ok. }
  destruct (negb _); [simplify_eq; apply emits_refl|].
  apply bind_Some_inv in H as (ctl & _ & H). destruct ctl as [s|].
  { apply bind_Some_inv in H as ([a st] & _ & H). simplify_eq.
    eapply emits_eq; [apply emits_refl|done]. }
  destruct (_ <? _); [simplify_eq; apply emits_refl|].
  apply bind_Some_inv in H as ([m c1] & Hc & H). apply classify_out in Hc.
  destruct m as [m|]; simplify_eq; [|by eapply emits_eq; [apply emits_refl|]].
  apply accept_emits in H. eapply emits_trans; [|exact H]. by eapply emits_eq; [apply emits_refl|].
Qed.

(** ** Runs of the client *)

(** What the goroutines make happen: a datagram, a forced-drain tick, the consumer
    taking a packet ([ReadPacket]). *)
Inductive event :=
| Datagram (sendOK : bool) (now : Z) (pkt : bytes)
| Tick
| Read.

Definition readPacket (c : client) : list Packet * client :=
  match frames (out c) with
  | p :: rest => ([p], c <| out := (out c) <| frames := rest |> |>)
  | [] => ([], c)
  end.

(** Packets the consumer has taken, and the client. *)
Definition exec (cfg : config) (ev : event) (c : client) : option (list Packet * client) :=
  match ev with
  | Datagram ok now pkt => c' ← parseDatagram cfg ok now pkt c; Some ([], c')
  | Tick => Some ([], forceDrain cfg c)
  | Read => Some (readPacket c)
  end.

Fixpoint run (cfg : config) (evs : list event) (c : client) : option (list Packet * client) :=
  match evs with
  | [] => Some ([], c)
  | ev :: rest =>
      '(r1, c1) ← exec cfg ev c; '(r2, c2) ← run cfg rest c1; Some (r1 ++ r2, c2)
  end.

(** The packets that leave the assembler in a run, and those taken by the
    consumer. *)
Inductive orun (cfg : config) : output -> list Packet -> list Packet -> output -> Prop :=
| or_refl o : orun cfg o [] [] o
| or_step o1 t1 o2 t2 r o3 :
    ostep cfg o1 t1 o2 -> orun cfg o2 t2 r o3 -> orun cfg o1 (t1 ++ t2) r o3
| or_read o1 p rest t r o3 :
    frames o1 = p :: rest -> orun cfg (o1 <| frames := rest |>) t r o3 ->
    orun cfg o1 t (p :: r) o3.

Lemma orun_steps cfg o1 t1 o2 t2 r o3 :
  osteps cfg o1 t1 o2 -> orun cfg o2 t2 r o3 -> orun cfg o1 (t1 ++ t2) r o3.
Proof.
  induction 1; [done|]. intros. rewrite <- app_assoc. eapply or_step; eauto.
Qed.

Lemma run_orun cfg evs : forall c r c',
  run cfg evs c = Some (r, c') -> exists tr, orun cfg (out c) tr r (out c').
Proof.
  induction evs as [|ev evs IH]; intros c r c'; cbn [run].
  { intros [= <- <-]. exists []. constructor. }
  intros ([r1 c1] & H1 & H)%bind_Some_inv. apply bind_Some_inv in H as ([r2 c2] & H2 & H).
  injection H as <- <-. destruct (IH _ _ _ H2) as [t2 Ht2].
  destruct ev as [ok now pkt| |]; cbn in H1.
  - apply bind_Some_inv in H1 as (c1' & Hp & H1). simplify_eq.
    destruct (parse_emits _ _ _ _ _ _ Hp) as [t1 Ht1]. exists (t1 ++ t2). by eapply orun_steps.
  - simplify_eq. destruct (force_emits cfg c) as [t1 Ht1]. exists (t1 ++ t2). by eapply orun_steps.
  - unfold readPacket in H1. destruct (frames (out c)) as [|p rest] eqn:E; simplify_eq; [by exists t2|].
    exists t2. cbn. by eapply or_read.
Qed.

(** *** A run comes to its end

    Bytes arrive, and the positions they can reach stay clear of the end of the
    64-bit counter. *)
Definition event_ok (ev : event) : Prop :=
  match ev with Datagram _ _ pkt => bytes_ok pkt | _ => True end.
Definition fits (evs : list event) (c : client) : Prop :=
  client_inv c /\ Forall event_ok evs /\ avHighExt (ord c) + 65536 * (len evs + 1) < seq_top.

Lemma exec_total cfg ev c :
  client_inv c -> event_ok ev -> avHighExt (ord c) < seq_top - 65536 ->
  exists r c', exec cfg ev c = Some (r, c') /\ client_inv c' /\
    avHighExt (ord c') <= avHighExt (ord c) + 65536.
Proof.
  intros Hc Hev Hroom. destruct ev as [ok now pkt| |]; cbn [exec].
  - destruct (parse_total cfg ok now pkt c Hev Hc Hroom) as (c' & -> & Hc' & _ & Hh).
    exists [], c'. done.
  - exists [], (forceDrain cfg c). destruct Hc as [Ho Ha].
    destruct (force_spec cfg c Ho) as (keys & c1 & _ & _ & _ & _ & _ & _ & _ & _ & Hack & _ & _ & Hh & Hi & _).
    split; [done|]. split; [|lia]. split; [done|]. by rewrite Hack.
  - unfold readPacket. destruct (frames (out c)); do 2 eexists; (split; [reflexivity|]).
    + split; [done|lia].
    + split; [by destruct Hc|cbn; lia].
Qed.

Lemma run_total cfg evs : forall c, fits evs c ->
  exists r c', run cfg evs c = Some (r, c') /\ client_inv c'.
Proof.
  induction evs as [|ev evs IH]; intros c (Hc & Hev & Hroom); [eauto|].
  apply Forall_cons in Hev as [Hev Hevs]. rewrite len_cons in Hroom. pose proof (len_nonneg evs).
  destruct (exec_total cfg ev c Hc Hev ltac:(lia)) as (r1 & c1 & E1 & Hc1 & Hh).
  destruct (IH c1) as (r2 & c2 & E2 & Hc2); [split_and!; done || lia|].
  cbn [run]. rewrite E1. cbn [mbind option_bind]. rewrite E2. cbn. eauto.
Qed.

(** A run, the packets that leave and those that are taken. *)
Lemma run_traced cfg evs c : fits evs c ->
  exists r c' tr, run cfg evs c = Some (r, c') /\ client_inv c' /\ orun cfg (out c) tr r (out c').
Proof.
  intros H. destruct (run_total cfg evs c H) as (r & c' & E & Hc'). exists r, c'.
  destruct (run_orun _ _ _ _ _ E) as [tr Htr]. eauto.
Qed.

(** *** The queue *)

Lemma ostep_queue cfg o t o' :
  ostep cfg o t o' -> len (frames o) <= framesCap ->
  len (frames o') <= framesCap /\ (exists q, frames o' = frames o ++ q /\ sublist q t).
Proof.
  intros H Hc. destruct H as [o' Hf _ _ _|p o' _ Hf _].
  - rewrite Hf. split; [done|]. exists []. rewrite app_nil_r. split; [done|constructor].
  - rewrite Hf. destruct (Z.ltb_spec (len (frames o)) framesCap), (closed o); cbn [negb andb];
      (split; [rewrite ?len_app; unfold len in *; cbn [length]; lia|]).
    all: try (exists []; rewrite app_nil_r; split; [done|apply sublist_nil_l]).
    exists [p]. done.
Qed.

Lemma orun_queue cfg o t r o' :
  orun cfg o t r o' -> len (frames o) <= framesCap ->
  len (frames o') <= framesCap /\ sublist (r ++ frames o') (frames o ++ t).
Proof.
  induction 1 as [o|o1 t1 o2 t2 r o3 Hs _ IH|o1 p rest t r o3 Hf _ IH]; intros Hc.
  - split; [done|]. by rewrite app_nil_r.
  - destruct (ostep_queue _ _ _ _ Hs Hc) as [Hc2 (q & Hq & Hsub)].
    destruct (IH Hc2) as [H1 H2]. split; [done|]. etrans; [exact H2|].
    rewrite Hq, <- app_assoc. apply sublist_app; [done|]. by apply sublist_app.
  - cbn in IH. rewrite Hf in *. rewrite len_cons in Hc. destruct IH as [H1 H2]; [lia|].
    split; [done|]. cbn. by apply sublist_skip.
Qed.

(** C15. Whatever datagrams arrive, the queue never holds more than its 1024 packets,
    and what the consumer reads, followed by what is queued, are packets that left
    the assembler, in that order and none of them twice. *)
Theorem queue_bounded_fifo (cfg : config) (evs : list event) (c : client)
    (Hfits : fits evs c) (Hcap : len (frames (out c)) <= framesCap) :
  exists r c' tr, run cfg evs c = Some (r, c') /\ client_inv c' /\
    orun cfg (out c) tr r (out c') /\ len (frames (out c')) <= framesCap /\
    sublist (r ++ frames (out c')) (frames (out c) ++ tr).
Proof.
  destruct (run_traced cfg evs c Hfits) as (r & c' & tr & E & Hc' & Htr). exists r, c', tr.
  split; [done|]. split; [done|]. split; [done|]. by apply (orun_queue cfg).
Qed.

(** *** The clock *)

Definition video (tr : list Packet) : list Packet := filter (fun p => Codec p = CodecH264) tr.
Definition in_clock (ts : Z) : Prop := 0 < ts < 4294967295.

Lemma ostep_clock cfg o t o' :
  ostep cfg o t o' -> in_clock (lastEmitTs o) ->
  match video t with
  | [] => lastEmitTs o' = lastEmitTs o
  | [p] => lastEmitTs o < Timestamp p /\ lastEmitTs o' = Timestamp p
  | _ => False
  end.
Proof.
  intros H Hc. destruct H as [o' _ _ Hl _|p o' _ _ Hp]; [done|].
  unfold video. rewrite filter_cons, filter_nil.
  destruct Hp as [(E & Hl & _)|(E & _ & Hl & Hg & _)]; rewrite E.
  - rewrite decide_False by done. done.
  - rewrite decide_True by done. unfold guarded, in_clock in *. lia.
Qed.

Lemma orun_clock cfg o t r o' :
  orun cfg o t r o' -> in_clock (lastEmitTs o) -> Forall (fun p => in_clock (Timestamp p)) (video t) ->
  StronglySorted Z.lt (lastEmitTs o :: (Timestamp <$> video t)).
Proof.
  induction 1 as [o|o1 t1 o2 t2 r o3 Hs _ IH|o1 p rest t r o3 Hf _ IH]; intros Hc Hall.
  - repeat constructor.
  - pose proof (ostep_clock _ _ _ _ Hs Hc) as Hstep.
    unfold video in *. rewrite filter_app in *. apply Forall_app in Hall as [Ha Hb].
    fold (video t1) in *. destruct (video t1) as [|p [|p' ps]] eqn:E; [|rewrite fmap_app|done].
    + cbn [app]. rewrite Hstep in IH. by apply IH.
    + destruct Hstep as [Hlt Heq]. apply Forall_cons in Ha as [Ha _].
      rewrite Heq in IH. specialize (IH Ha Hb). cbn [fmap list_fmap app].
      constructor; [done|]. constructor; [done|]. apply StronglySorted_inv in IH as [_ IH].
      eapply Forall_impl; [exact IH|]. cbn. intros. lia.
  - by apply IH.
Qed.

(** Timestamps of video packets strictly increase over any run, bursts and forced
    drains included, as long as the 32-bit clock stays clear of 0 and of its last
    value. *)
Theorem video_clock_increases (cfg : config) (evs : list event) (c : client)
    (Hfits : fits evs c) (Hclock : in_clock (lastEmitTs (out c))) :
  exists r c' tr, run cfg evs c = Some (r, c') /\ orun cfg (out c) tr r (out c') /\
    (Forall (fun p => in_clock (Timestamp p)) (video tr) ->
     StronglySorted Z.lt (lastEmitTs (out c) :: (Timestamp <$> video tr))).
Proof.
  destruct (run_traced cfg evs c Hfits) as (r & c' & tr & E & _ & Htr). exists r, c', tr.
  split; [done|]. split; [done|]. intros. by apply (orun_clock cfg _ _ r (out c')).
Qed.

(** *** Strict mode *)

Lemma orun_strict cfg o t r o' :
  strict cfg = true -> orun cfg o t r o' -> gopPoisoned o = true ->
  forall pre p post, t = pre ++ p :: post -> Codec p = CodecH264 -> IsKeyframe p = false ->
  exists k, k ∈ pre /\ Codec k = CodecH264 /\ IsKeyframe k = true.
Proof.
  intros Hstrict. induction 1 as [o|o1 t1 o2 t2 r o3 Hs _ IH|o1 p0 rest t r o3 Hf _ IH];
    intros Hp pre p post Heq Hc Hk.
  - by destruct pre.
  - destruct Hs as [o2 _ _ _ Hg|q o2 _ _ Hq].
    + apply (IH (Hg Hp) pre p post); done.
    + destruct Hq as [(Hcq & _ & Hg)|(Hcq & _ & _ & _ & Hg & Hkey)].
      * destruct pre as [|q' pre]; cbn in Heq; injection Heq as -> Heq.
        { rewrite Hc in Hcq. discriminate. }
        destruct (IH (eq_trans Hg Hp) pre p post Heq Hc Hk) as (k & ? & ?).
        exists k. split; [by right|done].
      * specialize (Hkey Hstrict Hp). destruct pre as [|q' pre]; cbn in Heq; injection Heq as -> Heq.
        { congruence. }
        exists q'. split; [by left|done].
  - by apply (IH Hp pre p post).
Qed.

(** C16. Strict mode: once a loss has poisoned the group of pictures, no dependent video
    unit leaves the assembler before a key frame has. *)
Theorem strict_waits_for_keyframe (cfg : config) (evs : list event) (c : client)
    (Hfits : fits evs c) (Hstrict : strict cfg = true) (Hpoisoned : gopPoisoned (out c) = true) :
  exists r c' tr, run cfg evs c = Some (r, c') /\ orun cfg (out c) tr r (out c') /\
    forall pre p post, tr = pre ++ p :: post -> Codec p = CodecH264 -> IsKeyframe p = false ->
    exists k, k ∈ pre /\ Codec k = CodecH264 /\ IsKeyframe k = true.
Proof.
  destruct (run_traced cfg evs c Hfits) as (r & c' & tr & E & _ & Htr). exists r, c', tr.
  split; [done|]. split; [done|]. by eapply (orun_strict cfg).
Qed.

(** *** Witnesses *)

(** A key frame of two fragments, a lost position and a stray fragment. *)
Definition frame_client (cfg : config) (poisoned : bool) : client :=
  sample_client
    <| ord := mkReorder 0x4010
         (<[0x4000 := data_frag 5 0x4000 1 0 2 [0;0;0;1;0x65;1;2]]>
           (<[0x4001 := data_frag 5 0x4001 1 16 2 ([3] ++ trailer 1 1 5000)]>
             (<[0x4003 := data_frag 7 0x4003 2 0 3 [0;0;0;1;0x41;9]]> ∅)))
         0x4000 0x4010 0 0x4010 |>
    <| out := mkOutput [] false 0 0 poisoned 0 false 0 false 7 [] [] |>.

Definition strict_cfg : config := mkConfig true false false (fun _ => 0).
Definition ticks : list event := [Tick; Tick; Tick; Tick; Tick; Tick; Read].
Lemma frame_client_fits cfg poisoned : fits ticks (frame_client cfg poisoned).
Proof.
  split; [|split; [repeat constructor|reflexivity]]. split; [|apply sample_client_inv].
  split; cbn; try done.
  intros k e H. repeat (apply lookup_insert_Some in H as [[<- <-]|[_ H]]; [by split|]).
  by rewrite lookup_empty in H.
Qed.

Lemma queue_bounded_fifo_witness :
  exists r c', run sample_cfg ticks (frame_client sample_cfg false) = Some (r, c') /\
    len (frames (out c')) <= framesCap.
Proof.
  destruct (queue_bounded_fifo sample_cfg ticks (frame_client sample_cfg false)) as (r & c' & tr & E & _ & _ & H & _).
  - apply frame_client_fits.
  - vm_compute. discriminate.
  - eauto.
Defined.

Lemma video_clock_increases_witness :
  exists r c' tr, run sample_cfg ticks (frame_client sample_cfg false) = Some (r, c') /\
    orun sample_cfg (out (frame_client sample_cfg false)) tr r (out c') /\
    (Forall (fun p => in_clock (Timestamp p)) (video tr) ->
     StronglySorted Z.lt (7 :: (Timestamp <$> video tr))).
Proof.
  apply (video_clock_increases sample_cfg ticks (frame_client sample_cfg false)).
  - apply frame_client_fits.
  - unfold in_clock. cbn. lia.
Defined.

Lemma strict_waits_for_keyframe_witness :
  exists r c' tr, run strict_cfg ticks (frame_client strict_cfg true) = Some (r, c') /\
    orun strict_cfg (out (frame_client strict_cfg true)) tr r (out c') /\
    forall pre p post, tr = pre ++ p :: post -> Codec p = CodecH264 -> IsKeyframe p = false ->
    exists k, k ∈ pre /\ Codec k = CodecH264 /\ IsKeyframe k = true.
Proof.
  apply (strict_waits_for_keyframe strict_cfg ticks (frame_client strict_cfg true)).
  - apply frame_client_fits.
  - reflexivity.
  - reflexivity.
Defined.

(** The guard does not protect the first timestamp: with the last timestamp 0 it is
    switched off, so a second unit with the same camera time is also stamped 0. *)
Definition clock_client : client :=
  new_client <| out := mkOutput [] false 0 0 false 5000 true 0 false 0 [] [] |>.

Theorem first_timestamp_repeats :
  let au := [0; 0; 0; 1; 0x41; 1] in
  let c1 := emitAU sample_cfg au 1 innerChInter 0 clock_client in
  let c2 := emitAU sample_cfg au 2 innerChInter 0
              (c1 <| out := (out c1) <| pendingFrameTs := 5000 |> <| havePendingTs := true |> |>) in
  Timestamp <$> frames (out c2) = [0; 0].
Proof. vm_compute. done. Qed.

(** The output counter counts units the full queue refused. *)
Theorem vidFramesOut_counts_drops (cfg : config) (au : bytes) (fn ch on : Z) (c : client)
    (Hlen : 5 <= len au) (Hfull : closed (out c) = false /\ framesCap <= len (frames (out c)))
    (Hlive : strict cfg = false) :
  let c' := emitAU cfg au fn ch on c in
  frames (out c') = frames (out c) /\
  stats c' Ctr.vidFramesOut = u64 (stats c Ctr.vidFramesOut + 1).
Proof.
  destruct Hfull as [Hc Hf]. unfold emitAU. cbv zeta.
  destruct (Z.ltb_spec (len au) 5); [lia|].
  destruct (noteSPS_spec au (out c)) as (S1 & S2 & S3 & S4).
  rewrite Hlive, andb_false_r. cbn [andb].
  set (c2 := if annexbContainsNALType au NALUTypeIFrame then _ else _).
  assert (frames (out c2) = frames (out c) /\ closed (out c2) = false /\ stats c2 = stats c)
    as (F1 & F2 & F3) by (unfold c2; destruct (annexbContainsNALType _ _); cbn; by rewrite S1, S2).
  clearbody c2. pose proof (nextPTS_spec (out c2)) as Hp. destruct (nextPTS (out c2)) as [pts o].
  destruct Hp as (_ & _ & P3 & P4 & _ & _). unfold queuePacket. cbn [upd out].
  rewrite P4, F2, P3, F1. destruct (Z.ltb_spec (len (frames (out c))) framesCap); [lia|].
  split; [cbn; congruence|]. cbn. unfold Add, Store. cbn. by rewrite F3.
Qed.

Definition full_client : client :=
  new_client <| out := mkOutput (replicate 1024 (mkPacket 0x87 [] 0 0 0 0 0 false)) false
    0 0 false 0 false 0 false 0 [] [] |>.

Lemma vidFramesOut_counts_drops_witness :
  stats (emitAU sample_cfg [0;0;0;1;0x41] 1 7 0 full_client) Ctr.vidFramesOut = 1.
Proof.
  apply (vidFramesOut_counts_drops sample_cfg [0;0;0;1;0x41] 1 7 0 full_client).
  - vm_compute. discriminate.
  - split; [reflexivity|vm_compute; discriminate].
  - reflexivity.
Defined.
