(* ===== verification/Frames.v ===== *)
(** Frames: a complete frame is reassembled exactly, a lossy one is handled by the
    policy of its mode and channel, and losses are reported exactly. *)

From Stdlib Require Import Sorting.Sorted.
From S2P Require Import Prelude Crypto Wire Media Classify Stats Ack AckFacts Annexb Bits Sps Assembler Delivery Emission.

(** ** Reading the state back *)

Lemma asmOf_setAsm ch a c : asmOf ch (setAsm ch a c) = a.
Proof. unfold asmOf, setAsm. by destruct (ch =? innerChInter). Qed.
Lemma asmOf_bump ch ks c : asmOf ch (bump ks c) = asmOf ch c.
Proof. unfold asmOf. by destruct (_ =? _). Qed.
Lemma key_setAsm ch a c : ch = innerChInter -> keyAsm (setAsm ch a c) = keyAsm c.
Proof. intros ->. done. Qed.
Lemma setAsm_bump ch a ks c : setAsm ch a (bump ks c) = bump ks (setAsm ch a c).
Proof. unfold setAsm. by destruct (_ =? _). Qed.

(** The output of [emitAU] depends on the output state only. *)
Lemma emitAU_out cfg au fn ch on c1 c2 :
  out c1 = out c2 -> out (emitAU cfg au fn ch on c1) = out (emitAU cfg au fn ch on c2).
Proof.
  intros E. unfold emitAU. cbv zeta. destruct (len au <? 5); [done|]. cbn [upd out]. rewrite E.
  destruct (_ && _ && _); [done|].
  destruct (annexbContainsNALType au NALUTypeIFrame); cbn [upd out];
    destruct (nextPTS _) as [pts o]; cbn [bump upd out]; rewrite !queuePacket_out; done.
Qed.

Lemma asmOf_queue ch p c : asmOf ch (queuePacket p c) = asmOf ch c.
Proof. unfold queuePacket, asmOf. destruct (closed _); [done|]. by destruct (_ <? _), (_ =? _). Qed.

Lemma asmOf_emitAU ch cfg au fn ch' on c : asmOf ch (emitAU cfg au fn ch' on c) = asmOf ch c.
Proof.
  unfold emitAU. cbv zeta. destruct (len au <? 5); [done|].
  assert (forall o x, asmOf ch (x <| out := o |>) = asmOf ch x) as Ho
    by (intros; unfold asmOf; by destruct (_ =? _)).
  destruct (_ && _ && _); [by rewrite asmOf_bump, Ho|].
  destruct (nextPTS _) as [pts o]. rewrite asmOf_bump, Ho, asmOf_queue, Ho.
  destruct (annexbContainsNALType _ _); by rewrite !Ho.
Qed.

(** With room in the queue an access unit is queued as it is. *)
Lemma emitAU_queues cfg au fn ch on c :
  5 <= len au -> strict cfg && gopPoisoned (out c) = false -> closed (out c) = false ->
  len (frames (out c)) < framesCap ->
  exists p, frames (out (emitAU cfg au fn ch on c)) = frames (out c) ++ [p] /\
    Codec p = CodecH264 /\ Payload p = au /\ CameraFrameNo p = fn /\ Channel p = ch /\
    OnlineNum p = on /\ FrameNo p = emitSeq (out c) /\
    IsKeyframe p = annexbContainsNALType au NALUTypeIFrame.
Proof.
  intros Hlen Hpol Hc Hf. unfold emitAU. cbv zeta. destruct (Z.ltb_spec (len au) 5); [lia|].
  destruct (noteSPS_spec au (out c)) as (S1 & S2 & S3 & S4).
  assert (emitSeq (noteSPS au (out c)) = emitSeq (out c)) as S5
    by (unfold noteSPS; destruct (annexbNAL _ _); [by case_bool_decide|done]).
  cbn [upd out]. rewrite S4, <- andb_assoc, Hpol, andb_false_r.
  set (c2 := if annexbContainsNALType au NALUTypeIFrame then _ else _).
  assert (frames (out c2) = frames (out c) /\ closed (out c2) = false /\
          emitSeq (out c2) = emitSeq (out c)) as (F1 & F2 & F3)
    by (unfold c2; destruct (annexbContainsNALType _ _); cbn; by rewrite S1, S2, S5).
  clearbody c2. pose proof (nextPTS_spec (out c2)) as Hp. destruct (nextPTS (out c2)) as [pts o].
  destruct Hp as (_ & _ & P3 & P4 & _ & P6). cbn [bump upd out]. rewrite queuePacket_out.
  cbn [upd out]. rewrite P3, P4, F1, F2. cbn [negb andb].
  rewrite (proj2 (Z.ltb_lt _ _)) by done.
  eexists. split; [reflexivity|]. cbn. rewrite P6, F3. tauto.
Qed.

(** ** A frame received whole *)

Section Whole.
Context (cfg : config) (ch frame : Z) (parts : list bytes) (tail : bytes) (on flag ts endIdx : Z).

(** [parts] are the data fragments, [tail] what precedes the trailer. *)
Definition total : Z := len parts + 1.
Definition dataFrag (pos : Z) (i : nat) (p : bytes) : pendingFrag :=
  mkFrag ch false (pos + Z.of_nat i) frame (Z.of_nat i) total p.
Definition endFrag (pos : Z) : pendingFrag :=
  mkFrag ch false (pos + len parts) frame endIdx total (tail ++ trailer flag on ts).

Hypothesis Hch : ch = innerChKey \/ ch = innerChInter.
Hypothesis Hparts : Forall (fun p => hasTrailer p = false) parts.
Hypothesis Hcount : len parts <= 65534.
Hypothesis Htrailer : (flag = 0 \/ flag = 1) /\ is_u32 ts.

(** The channel's state after [i] fragments, and before the first one. *)
Definition partial (i : nat) : channelAsm :=
  mkAsm (concat (take i parts)) frame true total (Z.of_nat i) false (Z.of_nat i)
    (list_to_set (seqZ 0 (Z.of_nat i))).

Definition expecting (i : nat) (c : client) : Prop :=
  let a := asmOf ch c in
  (a = partial i \/ (i = 0%nat /\ framePending a = false /\ asmBuf a = [])) /\
  (ch = innerChInter -> framePending (keyAsm c) && (0 <? len (asmBuf (keyAsm c))) = false).

Lemma no_jump i c e : expecting i c -> fragChannel e = ch -> fragFrame e = frame ->
  frameJump cfg e c = c.
Proof.
  intros [Ha _] Hc Hf. unfold frameJump. cbv zeta. rewrite Hc, Hf.
  destruct Ha as [-> |(_ & -> & _)]; cbn; [|done]. by rewrite Z.eqb_refl.
Qed.

Lemma start_frame i c e :
  expecting i c -> fragChannel e = ch -> fragFrame e = frame -> fragTotal e = total ->
  exists ks, frameStart e c = setAsm ch (partial i) (bump ks c).
Proof.
  intros [Ha _] Hc Hf Ht. unfold frameStart. cbv zeta. rewrite Hc, Hf, Ht.
  assert (total <> 0) as H0 by (unfold total; pose proof (len_nonneg parts); lia).
  destruct Ha as [-> |(-> & Hp & Hb)].
  - cbn. rewrite Z.eqb_refl. cbn. destruct (Z.eqb_spec total 0); [done|]. cbn. by exists [].
  - rewrite Hp. cbn. destruct (Z.eqb_spec total 0); [done|]. cbn. rewrite Hb. by eexists.
Qed.

Lemma idle_key i c ks :
  expecting i c ->
  (ch =? innerChInter) && framePending (keyAsm (setAsm ch (partial i) (bump ks c))) &&
  (0 <? len (asmBuf (keyAsm (setAsm ch (partial i) (bump ks c))))) = false.
Proof.
  intros [_ Hk]. destruct (Z.eqb_spec ch innerChInter) as [E|E]; [|done].
  rewrite key_setAsm by done. by apply Hk.
Qed.

Lemma strip_plain p : hasTrailer p = false -> strip p = (p, 0, 0, false).
Proof.
  unfold hasTrailer, strip. destruct (strip_total p) as (s & t & o & h & -> & H).
  intros ->. destruct (H eq_refl) as (-> & -> & ->). done.
Qed.

Lemma is_video : negb (ch =? innerChKey) && negb (ch =? innerChInter) = false.
Proof. destruct Hch as [-> | ->]; done. Qed.

(** One data fragment in order. *)
Lemma emit_part pos i p c :
  expecting i c -> parts !! i = Some p ->
  expecting (S i) (emit cfg (dataFrag pos i p) c) /\
  out (emit cfg (dataFrag pos i p) c) = out c.
Proof.
  intros Hi Hp. assert (hasTrailer p = false) as Hnt
    by exact (Forall_lookup_1 _ _ _ _ Hparts Hp).
  assert (Z.of_nat i < len parts) as Hlt
    by (apply lookup_lt_Some in Hp; unfold len; lia).
  unfold emit. cbn [dataFrag fragIsAudio fragChannel fragPayload]. rewrite is_video. cbv zeta.
  rewrite strip_plain by done.
  set (c0 := bump [(Ctr.vidFrags, 1)] c).
  assert (expecting i c0) as Hi0.
  { destruct Hi as [H1 H2]. split; [|exact H2]. cbv zeta. unfold c0. by rewrite asmOf_bump. }
  assert (out c0 = out c) as Eo by done. clearbody c0.
  assert (debugAVFrameInfo cfg (dataFrag pos i p) false c0 = c0) as ->
    by (unfold debugAVFrameInfo; by rewrite orb_true_r).
  rewrite (no_jump i) by done.
  destruct (start_frame i c0 (dataFrag pos i p) Hi0) as [ks ->]; [done..|].
  rewrite (idle_key i c0 ks Hi0).
  unfold dataFragment. cbn [dataFrag fragChannel fragIndex fragPayload]. cbv zeta.
  rewrite asmOf_setAsm. cbn [partial expectFragIdx]. rewrite Z.eqb_refl. cbn [negb andb].
  rewrite out_setAsm, out_setAsm, out_bump. split; [|done]. split.
  - left. rewrite asmOf_setAsm. unfold partial. cbn [asmBuf curFrameNum framePending curAUTotal
      curAUDataCount curAUGapped receivedData orb].
    rewrite !u16_small by (unfold is_u16; lia).
    replace (Z.of_nat (S i)) with (Z.of_nat i + 1) by lia. f_equal.
    + rewrite (take_S_r _ _ p) by done. rewrite concat_app. cbn. by rewrite app_nil_r.
    + apply leibniz_equiv. intros x. rewrite elem_of_union, elem_of_singleton, !elem_of_list_to_set.
      rewrite !elem_of_seqZ. lia.
  - intros E. rewrite !key_setAsm by done. by apply Hi0.
Qed.

(** The accounting finds nothing missing in a complete frame. *)
Lemma no_loss c buf n :
  n = length parts ->
  logAVLoss (mkAsm buf frame true total (Z.of_nat n) false (Z.of_nat n)
    (list_to_set (seqZ 0 (Z.of_nat n)))) ch true c = c.
Proof.
  intros ->. unfold logAVLoss, missingFragmentRanges. cbn [curAUTotal receivedData curAUGapped].
  destruct (Z.eqb_spec total 0); [done|]. cbn [fst].
  replace (total - 1) with (Z.of_nat (length parts)) by (unfold total, len; lia).
  set (miss := filter _ _). assert (miss = []) as ->; [|done].
  apply elem_of_nil_inv. intros x [Hx1 Hx2]%list_elem_of_filter. apply Hx1.
  by apply elem_of_list_to_set.
Qed.

Lemma strip_end : strip (tail ++ trailer flag on ts) = (tail, ts, on, true).
Proof. unfold strip. by rewrite strip_trailer by apply Htrailer. Qed.

(** The end fragment closes the frame. *)
Lemma emit_end pos c :
  expecting (length parts) c ->
  strict cfg && gopPoisoned (out c) && negb (ch =? innerChKey) = false ->
  let c' := emit cfg (endFrag pos) c in
  out c' = out (emitAU cfg (concat parts ++ tail) frame ch on
    (c <| out := (out c) <| pendingFrameTs := ts |> <| havePendingTs := true |> |>)) /\
  framePending (asmOf ch c') = false /\ asmBuf (asmOf ch c') = [].
Proof.
  intros Hi Hpol. cbv zeta. unfold emit. cbn [endFrag fragIsAudio fragChannel fragPayload].
  rewrite is_video. cbv zeta. rewrite strip_end.
  set (c0 := debugAVFrameInfo _ _ _ _).
  assert (expecting (length parts) c0 /\ out c0 = out c) as [Hi0 Eo].
  { unfold c0. rewrite out_info. split; [|done]. destruct Hi as [H1 H2].
    unfold debugAVFrameInfo. destruct (_ || _); split; cbv zeta; try exact H2;
      unfold asmOf in *; destruct (ch =? innerChInter); exact H1. }
  clearbody c0. rewrite (no_jump (length parts)) by done.
  destruct (start_frame (length parts) c0 (endFrag pos) Hi0) as [ks ->]; [done..|].
  rewrite (idle_key (length parts) c0 ks Hi0).
  set (n := length parts).
  assert ((0 <? total) = true) as Ht by (apply Z.ltb_lt; unfold total; pose proof (len_nonneg parts); lia).
  assert ((Z.of_nat n <? total - 1) = false) as Hn
    by (apply Z.ltb_ge; unfold n, total, len; lia).
  assert ((1 <=? total - 1) && (Z.of_nat n =? 0) = false) as Hz.
  { apply andb_false_iff. rewrite Z.leb_gt, Z.eqb_neq. unfold n, total, len. lia. }
  set (c1 := setAsm ch (partial n) (bump ks c0)).
  assert (out c1 = out c) as E1 by (unfold c1; by rewrite out_setAsm, out_bump).
  assert (asmOf ch c1 = partial n) as A1 by (unfold c1; apply asmOf_setAsm). clearbody c1.
  set (a := mkAsm (concat parts ++ tail) frame true total (Z.of_nat n) false (Z.of_nat n)
    (list_to_set (seqZ 0 (Z.of_nat n)))).
  assert ((partial n) <| asmBuf := asmBuf (partial n) ++ tail |> = a) as Ea.
  { unfold partial, a, n. by rewrite take_ge by lia. }
  assert (logAVLoss a ch true c1 = c1) as Hl by by apply no_loss.
  unfold endFragment. cbn [endFrag fragChannel fragFrame]. cbv zeta. rewrite !A1, Ea.
  change (curAUTotal a) with total. change (curAUDataCount a) with (Z.of_nat n).
  rewrite Ht. cbv iota. rewrite Hn. cbv iota. change (curAUGapped a) with false.
  change (curAUDataCount a) with (Z.of_nat n). rewrite Hl, Hz. cbn [andb].
  change (asmBuf a) with (concat parts ++ tail).
  set (c2 := setAsm ch (asm_reset a) c1).
  assert (out c2 = out c) as E2 by (unfold c2; by rewrite out_setAsm).
  assert (asmOf ch c2 = asm_reset a) as A2 by (unfold c2; apply asmOf_setAsm). clearbody c2.
  cbn [upd out gopPoisoned]. rewrite E2, Hpol. split.
  - apply emitAU_out. done.
  - rewrite asmOf_emitAU. match goal with |- framePending (asmOf _ ?x) = _ /\ _ =>
      assert (asmOf ch x = asmOf ch c2) as -> by (unfold asmOf; by destruct (_ =? _)) end.
    by rewrite A2.
Qed.

Lemma emit_parts pos k c :
  (k <= length parts)%nat -> expecting 0 c ->
  let c' := foldl (fun c e => emit cfg e c) c (imap (dataFrag pos) (take k parts)) in
  expecting k c' /\ out c' = out c.
Proof.
  intros Hk H0. cbv zeta. induction k as [|k IH]; [done|].
  destruct (lookup_lt_is_Some_2 parts k) as [p Hp]; [lia|].
  rewrite (take_S_r _ _ p) by done. rewrite imap_app, foldl_app. cbn [imap foldl].
  destruct (IH ltac:(lia)) as [He Ho]. rewrite length_take, Nat.min_l, Nat.add_0_r by lia.
  destruct (emit_part pos k p _ He Hp) as [He' Ho']. split; [exact He'|congruence].
Qed.
End Whole.

(** C1. A frame whose fragments all arrive in order comes out as one access unit: the
    payloads joined and the trailer cut off, with the camera's frame number, channel
    and client count; the channel is ready for the next frame. *)
Theorem reassembly_exact (cfg : config) (ch frame pos on flag ts endIdx : Z) (parts : list bytes)
    (tail : bytes) (c : client)
    (Hch : ch = innerChKey \/ ch = innerChInter)
    (Hparts : Forall (fun p => hasTrailer p = false) parts) (Hcount : len parts <= 65534)
    (Htrailer : (flag = 0 \/ flag = 1) /\ is_u32 ts)
    (Hidle : framePending (asmOf ch c) = false /\ asmBuf (asmOf ch c) = [])
    (Hkey : ch = innerChInter -> framePending (keyAsm c) && (0 <? len (asmBuf (keyAsm c))) = false)
    (Hpol : strict cfg && gopPoisoned (out c) = false)
    (Hau : 5 <= len (concat parts ++ tail))
    (Hroom : closed (out c) = false /\ len (frames (out c)) < framesCap) :
  let es := imap (dataFrag ch frame parts pos) parts ++
            [endFrag ch frame parts tail on flag ts endIdx pos] in
  let c' := foldl (fun c e => emit cfg e c) c es in
  exists p, frames (out c') = frames (out c) ++ [p] /\
    Codec p = CodecH264 /\ Payload p = concat parts ++ tail /\ CameraFrameNo p = frame /\
    Channel p = ch /\ OnlineNum p = on /\ FrameNo p = emitSeq (out c) /\
    IsKeyframe p = annexbContainsNALType (concat parts ++ tail) NALUTypeIFrame /\
    framePending (asmOf ch c') = false /\ asmBuf (asmOf ch c') = [].
Proof.
  cbv zeta. rewrite foldl_app. cbn [foldl].
  destruct (emit_parts cfg ch frame parts Hch Hparts Hcount pos (length parts) c)
    as [He Ho]; [lia|split; [right; tauto|done]|].
  rewrite take_ge in He, Ho by lia. set (c1 := foldl _ c _) in *. clearbody c1.
  destruct (emit_end cfg ch frame parts tail on flag ts endIdx Hch Htrailer pos c1 He)
    as (Hout & H1 & H2).
  { rewrite Ho. destruct (strict cfg), (gopPoisoned (out c)); done. }
  set (c2 := emit _ _ _) in *. clearbody c2.
  destruct (emitAU_queues cfg (concat parts ++ tail) frame ch on
    (c1 <| out := (out c1) <| pendingFrameTs := ts |> <| havePendingTs := true |> |>))
    as (p & Hf & Hp); cbn [upd out]; rewrite ?Ho; try done; try tauto.
  exists p. rewrite Hout, Hf. cbn [upd out frames]. rewrite Ho. split; [done|].
  destruct Hp as (P1 & P2 & P3 & P4 & P5 & P6 & P7). cbn [upd out emitSeq] in P6. rewrite Ho in P6.
  tauto.
Qed.

Definition sample_parts : list bytes := [[0;0;0;1;0x65;1;2]; [3;4]; [5]].

Lemma reassembly_exact_witness :
  let es := imap (dataFrag 5 9 sample_parts 0x4000) sample_parts ++
            [endFrag 5 9 sample_parts [6;7] 2 1 5000 16 0x4000] in
  let c' := foldl (fun c e => emit sample_cfg e c) sample_client es in
  exists p, frames (out c') = frames (out sample_client) ++ [p] /\
    Codec p = CodecH264 /\ Payload p = concat sample_parts ++ [6;7] /\ CameraFrameNo p = 9 /\
    Channel p = 5 /\ OnlineNum p = 2 /\ FrameNo p = emitSeq (out sample_client) /\
    IsKeyframe p = annexbContainsNALType (concat sample_parts ++ [6;7]) NALUTypeIFrame /\
    framePending (asmOf 5 c') = false /\ asmBuf (asmOf 5 c') = [].
Proof.
  apply (reassembly_exact sample_cfg 5 9 0x4000 2 1 5000 16 sample_parts [6;7] sample_client);
    try done; try (vm_compute; split; congruence); try (by left).
  - repeat constructor.
  - split; [by right|unfold is_u32; lia].
Defined.

(** ** Lossy frames *)

(** What the end fragment finds lost. *)
Definition lossy (a : channelAsm) : bool :=
  curAUGapped a || (curAUDataCount a <? (if 0 <? curAUTotal a then curAUTotal a - 1 else 0)).
Definition no_data (a : channelAsm) : bool :=
  (1 <=? (if 0 <? curAUTotal a then curAUTotal a - 1 else 0)) && (curAUDataCount a =? 0).

(** The policy for a lossy frame, when its end fragment arrives: in strict mode and
    for dependent frames nothing is emitted; strict mode poisons the group of
    pictures; without strict mode a key frame that has any data is emitted with
    what there is; a frame with no data at all is never emitted. *)
Theorem lossy_frame_policy (cfg : config) (e : pendingFrag) (s : bytes) (ts on : Z) (c : client)
    (Hlossy : lossy (asmOf (fragChannel e) c) = true) :
  let ch := fragChannel e in let a := asmOf ch c in
  let c' := endFragment cfg e s ts on c in
  (strict cfg = true \/ ch <> innerChKey \/ no_data a = true ->
     frames (out c') = frames (out c)) /\
  (strict cfg = true -> no_data a = false \/ ch = innerChKey -> gopPoisoned (out c') = true) /\
  (strict cfg = false -> ch = innerChKey -> no_data a = false ->
     out c' = out (emitAU cfg (asmBuf a ++ s) (fragFrame e) ch on
       (c <| out := (out c) <| pendingFrameTs := ts |> <| havePendingTs := true |> |>))).
Proof.
  cbv zeta. set (ch := fragChannel e) in *. set (a := asmOf ch c) in *.
  unfold lossy in Hlossy. unfold endFragment, no_data. cbv zeta. fold ch. fold a.
  set (expected := if 0 <? curAUTotal a then curAUTotal a - 1 else 0) in *.
  set (a1 := a <| asmBuf := asmBuf a ++ s |>).
  change (curAUTotal a1) with (curAUTotal a). fold expected.
  change (curAUDataCount a1) with (curAUDataCount a).
  set (a2 := if curAUDataCount a <? expected then a1 <| curAUGapped := true |> else a1).
  assert (curAUGapped a2 = true /\ curAUDataCount a2 = curAUDataCount a /\
          asmBuf a2 = asmBuf a ++ s) as (A1 & A2 & A3).
  { unfold a2. destruct (curAUDataCount a <? expected); [done|].
    rewrite orb_false_r in Hlossy. done. }
  set (c1 := logAVLoss a2 ch true _).
  assert (out c1 = out c) as E1
    by (unfold c1; rewrite out_logAVLoss; by destruct (curAUDataCount a <? expected)).
  clearbody c1 a2. rewrite A1, A2.
  destruct ((1 <=? expected) && (curAUDataCount a =? 0)) eqn:Ez.
  { split; [|split].
    - intros _. unfold poison. destruct (strict cfg && (ch =? innerChKey)); cbn [upd out frames];
        by rewrite out_setAsm, out_bump, E1.
    - intros -> [|Hk]; [done|]. rewrite Hk. done.
    - done. }
  cbn [andb].
  destruct (strict cfg) eqn:Es.
  { split; [|split; [done|done]]. intros _. cbn [poison bump upd out frames]. by rewrite out_setAsm, E1. }
  destruct (Z.eqb_spec ch innerChKey) as [Ek|Ek]; cbn [negb andb].
  2:{ split; [|split; [done|done]]. intros _. cbn [bump upd out frames]. by rewrite out_setAsm, E1. }
  split; [intros [?|[?|?]]; done|]. split; [done|]. intros _ _ _.
  rewrite A3. apply emitAU_out. cbn [upd out bump]. by rewrite out_setAsm, E1.
Qed.

(** A key frame whose middle fragment was lost. *)
Definition gapped_client : client :=
  sample_client <| keyAsm := mkAsm [0;0;0;1;0x65;1;2] 9 true 3 1 false 1 {[0]} |>.

Lemma lossy_frame_policy_witness :
  gopPoisoned (out (endFragment strict_cfg (endFrag 5 9 [[1];[2]] [6;7] 2 1 5000 16 0) [6;7] 5000 2
    gapped_client)) = true.
Proof.
  apply (lossy_frame_policy strict_cfg (endFrag 5 9 [[1];[2]] [6;7] 2 1 5000 16 0) [6;7] 5000 2
    gapped_client).
  - reflexivity.
  - reflexivity.
  - left. reflexivity.
Defined.

(** In strict mode a dependent frame that lost all its data fragments is dropped
    without poisoning the group of pictures, though a frame that lost only some of
    them does: the following frames are emitted against a missing reference. *)
Theorem strict_empty_frame_not_poisoning :
  let c := new_client <| out := mkOutput [] false 0 0 false 0 false 0 false 7 [] [] |> in
  let lost := endFrag 7 1 [[1]; [2]] [6;7] 2 0 5000 16 0x4002 in
  let next := mkFrag 7 false 0x4003 2 0 1 ([0;0;0;1;0x41;9] ++ trailer 0 1 5040) in
  let c1 := emit strict_cfg lost c in
  gopPoisoned (out c1) = false /\ stats c1 Ctr.zeroDataHardDrop = 1 /\
  Payload <$> frames (out (emit strict_cfg next c1)) = [[0;0;0;1;0x41;9]].
Proof. vm_compute. done. Qed.

(** The two channels are not independent: a dependent-frame fragment arriving while
    a key frame is in progress closes it, and what arrives later of the key frame
    can no longer complete it. *)
Theorem interleaved_fragment_cuts_keyframe :
  let c := new_client <| out := mkOutput [] false 0 0 false 0 false 0 false 7 [] [] |> in
  let key0 := mkFrag 5 false 0x4000 1 0 3 [0;0;0;1;0x65;1] in
  let inter := mkFrag 7 false 0x4001 2 0 2 [0;0;0;1;0x41;2] in
  let key1 := mkFrag 5 false 0x4002 1 1 3 [7;7;7] in
  let keyEnd := mkFrag 5 false 0x4003 1 16 3 ([8;8] ++ trailer 1 1 5000) in
  Payload <$> frames (out (foldl (fun c e => emit sample_cfg e c) c [key0; key1; keyEnd])) =
    [[0;0;0;1;0x65;1;7;7;7;8;8]] /\
  Payload <$> frames (out (foldl (fun c e => emit sample_cfg e c) c [key0; inter; key1; keyEnd])) =
    [[0;0;0;1;0x65;1]; [7;7;7;8;8]].
Proof. vm_compute. done. Qed.

(** ** Loss reports *)

(** The positions a run of a report stands for. *)
Definition expandRuns (rs : list (Z * Z)) : list Z :=
  flat_map (fun r => seqZ r.1 (r.2 - r.1 + 1)) rs.

Lemma expand_extend rest : forall start end_,
  0 <= start <= end_ -> StronglySorted Z.lt (end_ :: rest) ->
  Forall (fun m => m < 65535) (end_ :: rest) ->
  expandRuns (extendRun start end_ rest) = seqZ start (end_ - start + 1) ++ rest.
Proof.
  induction rest as [|m rest IH]; intros start end_ Hs Hsort Hall; cbn [extendRun].
  { done. }
  apply StronglySorted_inv in Hsort as [Hsort Hlt]. apply Forall_cons in Hlt as [Hlt _].
  apply Forall_cons in Hall as [He Hall]. pose proof Hall as Hall'.
  apply Forall_cons in Hall' as [Hm _].
  rewrite u16_small by (unfold is_u16; lia). destruct (Z.eqb_spec m (end_ + 1)) as [->|Hne].
  - rewrite IH by (lia || done).
    replace (end_ + 1 - start + 1) with ((end_ - start + 1) + 1) by lia.
    rewrite (seqZ_app start (end_ - start + 1) 1) by lia. rewrite <- app_assoc. f_equal.
    replace (start + (end_ - start + 1)) with (end_ + 1) by lia. done.
  - change (expandRuns ((start, end_) :: extendRun m m rest)) with
      (seqZ start (end_ - start + 1) ++ expandRuns (extendRun m m rest)).
    f_equal. rewrite IH by (lia || done). by replace (m - m + 1) with 1 by lia.
Qed.

Lemma seqZ_sorted (k : nat) : forall m, StronglySorted Z.lt (seqZ m (Z.of_nat k)).
Proof.
  induction k as [|k IH]; intros m; [constructor|].
  rewrite seqZ_cons by lia. constructor.
  - replace (Z.pred (Z.of_nat (S k))) with (Z.of_nat k) by lia. apply IH.
  - rewrite Forall_forall. intros x Hx%elem_of_seqZ. lia.
Qed.

Lemma sorted_snoc (l : list Z) (m : Z) :
  StronglySorted Z.lt l -> (forall x, x ∈ l -> x < m) -> StronglySorted Z.lt (l ++ [m]).
Proof.
  induction 1 as [|x l Hs IH Hx]; intros Hm; cbn [app].
  - repeat constructor.
  - constructor; [apply IH; intros y Hy; apply Hm; set_solver|].
    apply Forall_app. split; [done|]. constructor; [apply Hm; set_solver|constructor].
Qed.

(** Compressing a sorted list of positions and expanding it again gives it back. *)
Lemma expand_compress (l : list Z) :
  StronglySorted Z.lt l -> Forall (fun m => 0 <= m < 65535) l ->
  expandRuns (compressFragmentRanges l) = l.
Proof.
  destruct l as [|m l]; intros Hs Hb; [done|]. cbn [compressFragmentRanges].
  pose proof Hb as Hb'. apply Forall_cons in Hb' as [Hm _].
  rewrite expand_extend; [by replace (m - m + 1) with 1 by lia|lia|done|].
  eapply Forall_impl; [exact Hb|]. cbn. lia.
Qed.

(** A loss report lists exactly the fragments of the frame that never arrived, each
    once and in order, and compressing it into runs loses nothing. *)
Theorem loss_report_exact (a : channelAsm) (hasTr : bool) (Htotal : 0 < curAUTotal a < 65536) :
  let ms := fst (missingFragmentRanges a hasTr) in
  (forall i, i ∈ ms <->
     (0 <= i < curAUTotal a - 1 /\ i ∉ receivedData a) \/ (hasTr = false /\ i = curAUTotal a - 1)) /\
  StronglySorted Z.lt ms /\
  (expandRuns (compressFragmentRanges ms) = ms).
Proof.
  cbv zeta. unfold missingFragmentRanges. destruct (Z.eqb_spec (curAUTotal a) 0) as [|_]; [lia|].
  set (f := filter (fun i => i ∉ receivedData a) (seqZ 0 (curAUTotal a - 1))).
  assert (forall i, i ∈ f <-> 0 <= i < curAUTotal a - 1 /\ i ∉ receivedData a) as Hf.
  { intros i. unfold f. rewrite list_elem_of_filter, elem_of_seqZ. intuition lia. }
  assert (StronglySorted Z.lt f) as Hsort.
  { apply sorted_filter. destruct (Z_le_gt_dec (curAUTotal a - 1) 0) as [Hn|Hn].
    - rewrite seqZ_nil by done. constructor.
    - replace (curAUTotal a - 1) with (Z.of_nat (Z.to_nat (curAUTotal a - 1))) by lia.
      apply seqZ_sorted. }
  assert (Forall (fun m => 0 <= m < 65535) f) as Hb
    by (rewrite Forall_forall; intros x Hx%Hf; lia).
  destruct hasTr; cbn [fst].
  - split; [intros i; rewrite Hf; intuition discriminate|]. auto using expand_compress.
  - assert (StronglySorted Z.lt (f ++ [curAUTotal a - 1])) as Hs2.
    { apply sorted_snoc; [done|]. intros x Hx%Hf. lia. }
    split; [|split; [done|]].
    + intros i. rewrite elem_of_app, list_elem_of_singleton, Hf. tauto.
    + apply expand_compress; [done|]. apply Forall_app. split; [done|]. constructor; [lia|constructor].
Qed.

Lemma loss_report_exact_witness :
  expandRuns (compressFragmentRanges (fst (missingFragmentRanges
    (mkAsm [] 1 true 9 2 true 6 {[1; 5]}) false))) =
  fst (missingFragmentRanges (mkAsm [] 1 true 9 2 true 6 {[1; 5]}) false).
Proof. apply (loss_report_exact (mkAsm [] 1 true 9 2 true 6 {[1; 5]}) false). cbn. lia. Defined.
