(* ===== verification/Discovery.v ===== *)
(** Camera discovery, [pkg/petlibro/discovery.go]: the classification of replies,
    the reader goroutine, the construction of the target plan and the staged sender
    of [resolveWithPlan].  The theorems are in [DiscoveryFacts.v]. *)

From S2P Require Import Prelude Crypto Wire.

(** ** [net.IP]

    An address is its byte slice, four or sixteen bytes long. *)

Definition v4InV6Prefix : bytes := zeros 10 ++ [255; 255].
Definition To4 (ip : bytes) : option bytes :=
  if len ip =? 4 then Some ip
  else if bool_decide (len ip = 16 /\ take 12 ip = v4InV6Prefix) then Some (drop 12 ip) else None.
Definition IsUnspecified (ip : bytes) : bool :=
  bool_decide (To4 ip = Some (zeros 4)) || bool_decide (ip = zeros 16).
Definition IPv4bcast : bytes := v4InV6Prefix ++ [255; 255; 255; 255].

(** Unset bits of a byte, and Go's big-endian words. *)
Definition flip (b : Z) : Z := 255 - b.
Definition beWord (b : bytes) : Z :=
  at_ b 0 * 16777216 + at_ b 1 * 65536 + at_ b 2 * 256 + at_ b 3.

Record UDPAddr := mkAddr { addrIP : bytes; addrPort : Z }.

(** ** [net.ParseCIDR]

    Dotted quads as [netip.ParseAddr] and [net.dtoi] read them; addresses with a
    colon go to the IPv6 parser. *)

(** [parseIPv4Fields]: the finished octets (last first), the octet being read and
    its number of digits. *)
Fixpoint ipv4Fields (s : bytes) (fields : bytes) (val digLen : Z) : option bytes :=
  match s with
  | [] => if decide (length fields = 3%nat /\ 0 < digLen) then Some (reverse (val :: fields)) else None
  | c :: s =>
      if isDigit c then
        if (digLen =? 1) && (val =? 0) then None
        else let val := val * 10 + (c - 48) in
             if 255 <? val then None else ipv4Fields s fields val (digLen + 1)
      else if c =? 46 then
        if decide (digLen = 0 \/ length fields = 3%nat) then None
        else ipv4Fields s (val :: fields) 0 0
      else None
  end.

(** [dtoi], which stops at the first other character. *)
Fixpoint dtoi (s : bytes) (n : Z) : option Z :=
  match s with
  | [] => Some n
  | c :: s => if isDigit c then let n := n * 10 + (c - 48) in
                if 0xFFFFFF <=? n then None else dtoi s n
              else None
  end.

Definition breakAt (c : Z) (s : bytes) : option (bytes * bytes) :=
  match list_find (fun x => x = c) s with
  | Some (i, _) => Some (take i s, drop (S i) s)
  | None => None
  end.

(** [CIDRMask(ones, 8 * n)] *)
Fixpoint cidrMask (n : nat) (ones : Z) : bytes :=
  match n with
  | O => []
  | S n => (if 8 <=? ones then 255 else 256 - 2 ^ (8 - ones)) :: cidrMask n (Z.max 0 (ones - 8))
  end.

Definition maskIP (ip mask : bytes) : bytes := zip_with Z.land ip mask.

(** [IPMask.Size]: the number of leading ones, and the width, of a mask that is
    a prefix; (0, 0) of any other. *)
Fixpoint leadingOnes (k : nat) (v : Z) : Z * Z :=
  match k with
  | O => (0, v)
  | S k => if Z.testbit v 7 then let '(n, v) := leadingOnes k (u8 (2 * v)) in (n + 1, v) else (0, v)
  end.
Fixpoint simpleMaskLength (mask : bytes) : option Z :=
  match mask with
  | [] => Some 0
  | v :: mask =>
      if v =? 0xff then n ← simpleMaskLength mask; Some (8 + n)
      else let '(n, v) := leadingOnes 8 v in
           if negb (v =? 0) || existsb (fun b => negb (b =? 0)) mask then None else Some n
  end.
Definition maskSize (mask : bytes) : Z * Z :=
  match simpleMaskLength mask with Some n => (n, 8 * len mask) | None => (0, 0) end.

(** ** Targets of a subnet *)

(** [for i := uint32(1); i < uint32(total-1); i++], here from [i] with [k] rounds
    to go. *)
Fixpoint subnetLoop (k : nat) (base i : Z) (ip : bytes) : list bytes :=
  match k with
  | O => []
  | S k =>
      let host := be32 (u32 (base + i)) in
      (if decide (host = ip) then [] else [host]) ++ subnetLoop k base (i + 1) ip
  end.

Definition subnetDiscoveryTargets (ip mask : bytes) (max : Z) : list bytes :=
  let '(ones, bits) := maskSize mask in
  if negb (bits =? 32) then []
  else
    let total := Z.shiftl 1 (bits - ones) in
    if max <? total then []
    else
      let base := Z.land (beWord ip) (beWord mask) in
      subnetLoop (Z.to_nat (u32 (total - 1) - 1)) base 1 ip.

Definition broadcastIP (ip mask : bytes) : bytes :=
  v4InV6Prefix ++ zip_with Z.lor (take 4 ip) (map flip (take 4 mask)).

(** ** Options and plan *)

Record ResolveOptions := mkOptions {
  oUID : bytes;
  Subnets : list bytes;
  CachedIP : bytes;
  Candidates : list bytes;
  Timeout : Z;
  BroadcastDuration : Z;
  MaxUnicastPerSecond : Z;
}.
#[export] Instance eta_options : Eta ResolveOptions := fun o =>
  mkOptions (oUID o) (Subnets o) (CachedIP o) (Candidates o) (Timeout o) (BroadcastDuration o)
    (MaxUnicastPerSecond o).

Definition millisecond : Z := 1000000.
Definition defaultDiscoveryTimeout : Z := 15000 * millisecond.
Definition defaultBroadcastDuration : Z := 750 * millisecond.
Definition defaultMaxUnicastPerSecond : Z := 32.
Definition defaultCandidateResponseWait : Z := 250 * millisecond.
Definition defaultPostScanResponseWait : Z := 300 * millisecond.
Definition maxAutomaticDiscoveryTargets : Z := 1024.

Record discoveryPlan := mkPlan {
  cached : list UDPAddr;
  broadcasts : list UDPAddr;
  candidates : list UDPAddr;
  unicasts : list UDPAddr;
}.
#[export] Instance eta_plan : Eta discoveryPlan := fun p =>
  mkPlan (cached p) (broadcasts p) (candidates p) (unicasts p).

(** A network interface: its flags and the IPv4 or IPv6 networks of its
    addresses; [None] is an address that is not an [*net.IPNet], and [ifAddrs]
    itself is [None] when [Addrs] fails. *)
Record iface := mkIface {
  ifUp : bool;
  ifLoopback : bool;
  ifBroadcast : bool;
  ifPointToPoint : bool;
  ifAddrs : option (list (option (bytes * bytes)));
}.

Inductive resolveOptionError :=
| uidLength (got : Z) | timeoutNotPositive | invalidSubnet (subnet : bytes) | rateTooHigh.

Section Plan.
(** The standard library's IPv6 parser: the sixteen bytes of an address without
    a zone. *)
Variable parseIPv6 : bytes -> option bytes.

(** The address width and the bytes of [netip.ParseAddr]. *)
Definition ParseAddr (s : bytes) : option bytes :=
  match list_find (fun c => c = 46 \/ c = 58 \/ c = 37) s with
  | Some (_, c) => if c =? 46 then ipv4Fields s [] 0 0
                   else if c =? 58 then parseIPv6 s else None
  | None => None
  end.

(** The network's address and mask. *)
Definition ParseCIDR (s : bytes) : option (bytes * bytes) :=
  '(addr, mask) ← breakAt 47 s;
  ip ← ParseAddr addr;
  n ← (if decide (mask = []) then None else dtoi mask 0);
  if 8 * len ip <? n then None
  else let m := cidrMask (length ip) n in Some (maskIP ip m, m).

Definition invalid_subnet (s : bytes) : bool :=
  match ParseCIDR s with
  | None => true
  | Some (ip, _) => bool_decide (To4 ip = None)
  end.

(** The options with their defaults, or the error. *)
Definition validateResolveOptions (o : ResolveOptions) : resolveOptionError + ResolveOptions :=
  if negb (len (oUID o) =? 20) then inl (uidLength (len (oUID o)))
  else if Timeout o <=? 0 then inl timeoutNotPositive
  else match list_find (fun s => invalid_subnet s = true) (Subnets o) with
  | Some (_, s) => inl (invalidSubnet s)
  | None =>
      let o := if BroadcastDuration o <=? 0
               then o <| BroadcastDuration := defaultBroadcastDuration |> else o in
      let o := if Timeout o <? BroadcastDuration o
               then o <| BroadcastDuration := Timeout o |> else o in
      if MaxUnicastPerSecond o <=? 0
      then inr (o <| MaxUnicastPerSecond := defaultMaxUnicastPerSecond |>)
      else if 512 <? MaxUnicastPerSecond o then inl rateTooHigh else inr o
  end.

Definition cidrBroadcast (subnet : bytes) : option bytes :=
  '(ip, mask) ← ParseCIDR subnet;
  ip4 ← To4 ip;
  if negb (len mask =? 4) then None else Some (broadcastIP ip4 mask).

Definition cidrDiscoveryTargets (subnet : bytes) (max : Z) : list bytes :=
  match ParseCIDR subnet with
  | None => []
  | Some (ip, mask) =>
      match To4 ip with
      | None => []
      | Some ip => if negb (len mask =? 4) then [] else subnetDiscoveryTargets ip mask max
      end
  end.

(** [add]: the addresses seen so far and one list of the plan. *)
Definition add (ip : bytes) (st : gset bytes * list UDPAddr) : gset bytes * list UDPAddr :=
  let '(seen, l) := st in
  match To4 ip with
  | None => st
  | Some ip4 =>
      if IsUnspecified ip4 then st
      else if decide (ip4 ∈ seen) then st
      else ({[ip4]} ∪ seen, l ++ [mkAddr ip4 lanPort])
  end.
Definition addAll (ips : list bytes) (st : gset bytes * list UDPAddr) : gset bytes * list UDPAddr :=
  foldl (fun st ip => add ip st) st ips.

Definition planState : Type := gset bytes * discoveryPlan.
Definition addCached (ips : list bytes) (st : planState) : planState :=
  let '(seen, p) := st in
  let '(seen, l) := addAll ips (seen, cached p) in (seen, p <| cached := l |>).
Definition addBroadcasts (ips : list bytes) (st : planState) : planState :=
  let '(seen, p) := st in
  let '(seen, l) := addAll ips (seen, broadcasts p) in (seen, p <| broadcasts := l |>).
Definition addCandidates (ips : list bytes) (st : planState) : planState :=
  let '(seen, p) := st in
  let '(seen, l) := addAll ips (seen, candidates p) in (seen, p <| candidates := l |>).
Definition addUnicasts (ips : list bytes) (st : planState) : planState :=
  let '(seen, p) := st in
  let '(seen, l) := addAll ips (seen, unicasts p) in (seen, p <| unicasts := l |>).

Definition addNet (automatic : bool) (st : planState) (a : option (bytes * bytes)) : planState :=
  match a with
  | None => st
  | Some (ip, mask) =>
      match To4 ip with
      | None => st
      | Some ip =>
          if negb (len mask =? 4) then st else
          let st := addBroadcasts [broadcastIP ip mask] st in
          if automatic
          then addUnicasts (subnetDiscoveryTargets ip mask maxAutomaticDiscoveryTargets) st
          else st
      end
  end.

Definition addIface (automatic : bool) (st : planState) (i : iface) : planState :=
  if negb (ifUp i) || ifLoopback i || negb (ifBroadcast i) || ifPointToPoint i then st
  else match ifAddrs i with
       | None => st
       | Some addrs => foldl (addNet automatic) st addrs
       end.

(** [interfaces] is [None] when [net.Interfaces] fails. *)
Definition buildPlanState (interfaces : option (list iface)) (o : ResolveOptions) : planState :=
  let st := (∅, mkPlan [] [] [] []) in
  let st := addCached [CachedIP o] st in
  let st := addBroadcasts [IPv4bcast] st in
  let st := addBroadcasts (omap cidrBroadcast (Subnets o)) st in
  let st := addCandidates (Candidates o) st in
  let st := addUnicasts (flat_map (fun s => cidrDiscoveryTargets s 65536) (Subnets o)) st in
  match interfaces with
  | None => st
  | Some ifs => foldl (addIface (bool_decide (Subnets o = []))) st ifs
  end.
Definition buildDiscoveryPlan (interfaces : option (list iface)) (o : ResolveOptions) : discoveryPlan :=
  snd (buildPlanState interfaces o).
End Plan.

(** ** Replies *)

Definition isASCIIAlphaNumeric (value : bytes) : bool :=
  forallb (fun b => ((97 <=? b) && (b <=? 122)) || ((65 <=? b) && (b <=? 90)) || isDigit b) value.

(** [bytes.Trim(s, "\x00")] *)
Fixpoint trimLeft (s : bytes) : bytes :=
  match s with
  | [] => []
  | b :: s' => if b =? 0 then trimLeft s' else s
  end.
Definition trimZeros (s : bytes) : bytes := reverse (trimLeft (reverse (trimLeft s))).

Inductive discoveryResponseReason :=
| discoveryResponseAccepted
| discoveryResponseMalformed
| discoveryResponseUnknown
| discoveryResponseWrongUID
| discoveryResponseNonceMismatch.
#[export] Instance reason_eq_dec : EqDecision discoveryResponseReason.
Proof. solve_decision. Defined.

(** [None] is a run-time panic. *)
Definition classifyDiscoveryResponse (pkt uid nonce : bytes) : option discoveryResponseReason :=
  if decide (len pkt < 12) then Some discoveryResponseMalformed else
  mt ← rd16 pkt 8;
  if mt =? msgLANSearchR then
    if decide (len pkt < 0x24) then Some discoveryResponseMalformed else
    candidate ← sub pkt 0x10 0x24;
    let candidate := trimZeros candidate in
    if negb (len candidate =? 20) || negb (isASCIIAlphaNumeric candidate)
    then Some discoveryResponseMalformed
    else if decide (candidate = uid) then Some discoveryResponseAccepted
    else Some discoveryResponseWrongUID
  else if mt =? msgKnockRR2 then
    if decide (len pkt < 0x2C) then Some discoveryResponseMalformed else
    u ← sub pkt 0x10 0x24;
    if negb (bool_decide (u = uid)) then Some discoveryResponseWrongUID else
    n ← sub pkt 0x24 0x2C;
    if negb (bool_decide (n = nonce)) then Some discoveryResponseNonceMismatch
    else Some discoveryResponseAccepted
  else Some discoveryResponseUnknown.

(** ** Counters *)

Record resolveCounters := mkCounters {
  lanSearchW3_1Sent : Z;
  lanSearchW3_2Sent : Z;
  knock2Sent : Z;
  lanSearchRReceived : Z;
  knockRR2Received : Z;
  wrongUIDRejected : Z;
  nonceMismatchRejected : Z;
  broadcastsSent : Z;
  unicastsSent : Z;
  received : Z;
  rejected : Z;
  sendErrors : Z;
}.
#[export] Instance eta_counters : Eta resolveCounters := fun c =>
  mkCounters (lanSearchW3_1Sent c) (lanSearchW3_2Sent c) (knock2Sent c) (lanSearchRReceived c)
    (knockRR2Received c) (wrongUIDRejected c) (nonceMismatchRejected c) (broadcastsSent c)
    (unicastsSent c) (received c) (rejected c) (sendErrors c).
Definition counters_zero : resolveCounters := mkCounters 0 0 0 0 0 0 0 0 0 0 0 0.

(** [x.Add(1)] *)
Definition inc (x : Z) : Z := u64 (x + 1).

(** ** The reader goroutine *)

(** What one [ReadFromUDP] returns.  [rx_done] is whether the context was found
    done when the reader looked: after an error, and in the [select] that hands
    over an accepted address. *)
Inductive rxResult := RxError | RxDatagram (src : option bytes) (raw : bytes).
Record rxEvent := mkRx { rx_result : rxResult; rx_done : bool }.

(** The reader stops ([true]) or reads on ([false]); [None] is a panic. *)
Definition receiveOne (uid nonce : bytes) (ev : rxEvent) (c : resolveCounters)
  : option (bool * option UDPAddr * resolveCounters) :=
  match rx_result ev with
  | RxError => Some (rx_done ev, None, c)
  | RxDatagram src raw =>
      match src with
      | None => Some (false, None, c <| rejected := inc (rejected c) |>)
      | Some ip =>
          if IsUnspecified ip then Some (false, None, c <| rejected := inc (rejected c) |>) else
          let c := c <| received := inc (received c) |> in
          let pkt := ReverseTransCodePartial [] raw in
          let c :=
            if 10 <=? len pkt then
              let mt := at16 pkt 8 in
              if mt =? msgLANSearchR then c <| lanSearchRReceived := inc (lanSearchRReceived c) |>
              else if mt =? msgKnockRR2 then c <| knockRR2Received := inc (knockRR2Received c) |>
              else c
            else c in
          reason ← classifyDiscoveryResponse pkt uid nonce;
          if decide (reason = discoveryResponseAccepted)
          then Some (true, if rx_done ev then None else Some (mkAddr ip lanPort), c)
          else
            let c := c <| rejected := inc (rejected c) |> in
            Some (false, None,
              match reason with
              | discoveryResponseWrongUID => c <| wrongUIDRejected := inc (wrongUIDRejected c) |>
              | discoveryResponseNonceMismatch =>
                  c <| nonceMismatchRejected := inc (nonceMismatchRejected c) |>
              | _ => c
              end)
      end
  end.

(** The address handed over on the [match] channel while reading [evs]. *)
Fixpoint receiveDiscoveryResponses (uid nonce : bytes) (evs : list rxEvent) (c : resolveCounters)
  : option (option UDPAddr * resolveCounters) :=
  match evs with
  | [] => Some (None, c)
  | ev :: evs =>
      '(stop, found, c) ← receiveOne uid nonce ev c;
      if (stop : bool) then Some (found, c) else receiveDiscoveryResponses uid nonce evs c
  end.

(** ** Probes and results *)

Record discoveryProbe := mkProbe { search1 : bytes; search2 : bytes; knock2 : bytes; pnonce : bytes }.
Definition newDiscoveryProbe (uid nonce : bytes) : discoveryProbe :=
  mkProbe (TransCodePartial [] (buildLANSearch3 uid nonce 1))
    (TransCodePartial [] (buildLANSearch3 uid nonce 2))
    (TransCodePartial [] (buildKnock2 uid nonce)) nonce.

Inductive ctxError := Canceled | DeadlineExceeded.
#[export] Instance ctxError_eq_dec : EqDecision ctxError.
Proof. solve_decision. Defined.

Inductive method := m_cached | m_broadcast | m_candidate | m_unicast | m_not_found.
Inductive errorCode := send_failed | invalid_response | deadline_exceeded | not_found.

Record ResolveResult := mkResult {
  UID : bytes;
  Subnet : option bytes;
  Resolved : bool;
  IPAddress : option bytes;
  Method : method;
  ElapsedMS : Z;
  ErrorCode : option errorCode;
  Stats : resolveCounters;
  StatsDeadlineExceeded : bool;
}.

Definition classifyResolveFailure (cause : option ctxError) (st : resolveCounters) : errorCode :=
  if (u64 (broadcastsSent st + unicastsSent st) =? 0) && (0 <? sendErrors st) then send_failed
  else if (0 <? received st) && (rejected st =? received st) then invalid_response
  else if decide (cause = Some DeadlineExceeded) then deadline_exceeded
  else not_found.

(** ** The staged sender

    What the resolver cannot decide is a function of its step count: the clock, the
    success of writes, the datagrams the reader has read by then, and which of two
    ready cases a [select] takes.  The context is done from [doneStep] on.  A timer,
    a ticker and the [default] case of a [select] are taken when nothing else is
    ready. *)

Record sender := mkSender {
  step : nat;
  sends : list (UDPAddr * bytes * bool);
  sctr : resolveCounters;
}.
#[export] Instance eta_sender : Eta sender := fun s => mkSender (step s) (sends s) (sctr s).

Inductive sendError := writeError | cancelled (e : ctxError).
Inductive selected := sFound (a : UDPAddr) | sDone (e : ctxError) | sNone.

Record world := mkWorld {
  now : nat -> Z;
  doneStep : nat;
  doneErr : ctxError;
  writeOK : nat -> bool;
  pick : nat -> bool;
  arrived : nat -> list rxEvent;
}.

Section Resolver.
Variables (w : world) (uid nonce : bytes).

Definition ctxErr (n : nat) : option ctxError :=
  if decide (doneStep w <= n)%nat then Some (doneErr w) else None.

(** The reader after the datagrams of step [n]; it never panics
    ([DiscoveryFacts.receive_total]). *)
Definition reader (n : nat) : option UDPAddr * resolveCounters :=
  default (None, counters_zero) (receiveDiscoveryResponses uid nonce (arrived w n) counters_zero).

Definition tickStep (s : sender) : sender := s <| step := S (step s) |>.
Definition readNow (s : sender) : Z * sender := (now w (step s), tickStep s).

(** [select] on the match channel, [ctx.Done()] when [useCtx], and a case that is
    always taken in the end. *)
Definition select (useCtx : bool) (s : sender) : selected * sender :=
  let r :=
    match fst (reader (step s)), (if useCtx then ctxErr (step s) else None) with
    | Some a, Some e => if pick w (step s) then sFound a else sDone e
    | Some a, None => sFound a
    | None, Some e => sDone e
    | None, None => sNone
    end in
  (r, tickStep s).

(** [select] on [ctx.Done()] and a timer. *)
Definition pause (s : sender) : option ctxError * sender := (ctxErr (step s), tickStep s).

(** The loop over the probe's packets from index [i]: the early return, or
    whether one was sent and whether one failed. *)
Fixpoint sendPackets (i : nat) (ps : list (bytes * (resolveCounters -> resolveCounters)))
    (target : UDPAddr) (sent failed : bool) (s : sender) : (ctxError + bool * bool) * sender :=
  match ps with
  | [] => (inr (sent, failed), s)
  | (wire, bump) :: ps =>
      match ctxErr (step s) with
      | Some e => (inl e, s)
      | None =>
          let ok := writeOK w (step s) in
          let s := tickStep (s <| sends := sends s ++ [(target, wire, ok)] |>
            <| sctr := if ok then bump (sctr s)
                       else (sctr s) <| sendErrors := inc (sendErrors (sctr s)) |> |>) in
          let '(err, s) := if Nat.eqb i 1 then pause s else (None, s) in
          match err with
          | Some e => (inl e, s)
          | None => sendPackets (S i) ps target (sent || ok) (failed || negb ok) s
          end
      end
  end.

Definition packets (p : discoveryProbe) : list (bytes * (resolveCounters -> resolveCounters)) :=
  [ (search1 p, fun c => c <| lanSearchW3_1Sent := inc (lanSearchW3_1Sent c) |>);
    (search2 p, fun c => c <| lanSearchW3_2Sent := inc (lanSearchW3_2Sent c) |>);
    (knock2 p, fun c => c <| knock2Sent := inc (knock2Sent c) |>) ].

Definition sendDiscoveryProbe (p : discoveryProbe) (target : UDPAddr) (broadcast : bool) (s : sender)
  : option sendError * sender :=
  let '(r, s) := sendPackets 0 (packets p) target false false s in
  match r with
  | inl e => (Some (cancelled e), s)
  | inr (sent, failed) =>
      let c := sctr s in
      let c := if (sent : bool) then
                 if broadcast then c <| broadcastsSent := inc (broadcastsSent c) |>
                 else c <| unicastsSent := inc (unicastsSent c) |>
               else c in
      (if (failed : bool) then Some writeError else None, s <| sctr := c |>)
  end.

(** [err != nil && ctx.Err() != nil] *)
Definition aborts (err : option sendError) (s : sender) : option ctxError :=
  match err with Some _ => ctxErr (step s) | None => None end.

Fixpoint sendTargets (p : discoveryProbe) (targets : list UDPAddr) (broadcast : bool) (s : sender)
  : selected * sender :=
  match targets with
  | [] => (sNone, s)
  | t :: targets =>
      match select true s with
      | (sNone, s) =>
          let '(err, s) := sendDiscoveryProbe p t broadcast s in
          match aborts err s with
          | Some e => (sDone e, s)
          | None => sendTargets p targets broadcast s
          end
      | r => r
      end
  end.

Definition sendStage (p : discoveryProbe) (targets : list UDPAddr) (broadcast : bool) (wait : Z)
    (s : sender) : selected * sender :=
  if decide (targets = []) then (sNone, s) else
  match sendTargets p targets broadcast s with
  | (sNone, s) => if wait <=? 0 then (sNone, s) else select true s
  | r => r
  end.

Definition waitFor (duration : Z) (s : sender) : selected * sender :=
  if duration <=? 0 then select false s else select true s.

(** Up to [k] rounds of broadcasts. *)
Fixpoint broadcastRounds (k : nat) (p : discoveryProbe) (targets : list UDPAddr) (duration until_ : Z)
    (s : sender) : selected * sender :=
  match k with
  | O => (sNone, s)
  | S k =>
      let '(t, s) := readNow s in
      if negb (t <? until_) then (sNone, s) else
      match sendStage p targets true 0 s with
      | (sNone, s) =>
          let '(t, s) := readNow s in
          let remaining := until_ - t in
          let spacing := Z.quot duration 3 in
          match waitFor (if spacing <? remaining then spacing else remaining) s with
          | (sNone, s) => broadcastRounds k p targets duration until_ s
          | r => r
          end
      | r => r
      end
  end.

Fixpoint sweep (p : discoveryProbe) (targets : list UDPAddr) (s : sender) : selected * sender :=
  match targets with
  | [] => (sNone, s)
  | t :: targets =>
      match select true s with
      | (sNone, s) =>
          match select true s with
          | (sNone, s) =>
              let '(err, s) := sendDiscoveryProbe p t false s in
              match aborts err s with
              | Some e => (sDone e, s)
              | None => sweep p targets s
              end
          | r => r
          end
      | r => r
      end
  end.

(** The reader's counters and the sender's. *)
Definition snapshot (s : sender) : resolveCounters :=
  let r := snd (reader (step s)) in
  (sctr s) <| lanSearchRReceived := lanSearchRReceived r |> <| knockRR2Received := knockRR2Received r |>
    <| wrongUIDRejected := wrongUIDRejected r |> <| nonceMismatchRejected := nonceMismatchRejected r |>
    <| received := received r |> <| rejected := rejected r |>.

Definition finish (o : ResolveOptions) (started : Z) (m : method) (addr : option UDPAddr)
    (cause : option ctxError) (s : sender) : ResolveResult * sender :=
  let st := snapshot s in
  let late := bool_decide (cause = Some DeadlineExceeded) ||
              bool_decide (ctxErr (step s) = Some DeadlineExceeded) in
  let elapsed := Z.quot (now w (step s) - started) millisecond in
  let subnet := match Subnets o with [x] => Some x | _ => None end in
  (match addr with
   | Some a => mkResult uid subnet true (Some (addrIP a)) m elapsed None st late
   | None => mkResult uid subnet false None m_not_found elapsed
               (Some (classifyResolveFailure cause st)) st late
   end, s).

(** [addr != nil || err != nil] after a stage. *)
Definition settle (o : ResolveOptions) (started : Z) (m : method) (r : selected) (s : sender)
    (k : sender -> ResolveResult * sender) : ResolveResult * sender :=
  match r with
  | sFound a => finish o started m (Some a) None s
  | sDone e => finish o started m None (Some e) s
  | sNone => k s
  end.

Definition resolveWithPlan (o : ResolveOptions) (plan : discoveryPlan) (deadline started : Z)
  : ResolveResult * sender :=
  let p := newDiscoveryProbe uid nonce in
  let s := mkSender 0 [] counters_zero in
  let '(r, s) := sendStage p (cached plan) false defaultCandidateResponseWait s in
  settle o started m_cached r s (fun s =>
  let '(t, s) := readNow s in
  let '(r, s) := broadcastRounds 3 p (broadcasts plan) (BroadcastDuration o) (t + BroadcastDuration o) s in
  settle o started m_broadcast r s (fun s =>
  let '(r, s) := sendStage p (candidates plan) false defaultCandidateResponseWait s in
  settle o started m_candidate r s (fun s =>
  let '(r, s) := sweep p (unicasts plan) s in
  settle o started m_unicast r s (fun s =>
  let '(t, s) := readNow s in
  let '(r, s) := waitFor (Z.min defaultPostScanResponseWait (deadline - t)) s in
  settle o started m_unicast r s (fun s =>
  let '(t, s) := readNow s in
  let s := if t <? deadline then s <| step := Nat.max (step s) (doneStep w) |> else s in
  finish o started m_not_found None (ctxErr (step s)) s))))).
End Resolver.

(** ** [discoverByUID] and its cache *)

(** [strings.Join(subnets, ",")] *)
Fixpoint joinComma (l : list bytes) : bytes :=
  match l with
  | [] => []
  | [x] => x
  | x :: l => x ++ [44] ++ joinComma l
  end.
Definition discoveryCacheKey (uid : bytes) (subnets : list bytes) : bytes :=
  uid ++ [124] ++ joinComma subnets.

(** The process-wide cache maps keys to addresses (the source stores their text). *)
Abbreviation discoveryCache := (gmap bytes bytes).

Definition clearDiscoveryCache (uid : bytes) (subnets : list bytes) (c : discoveryCache) : discoveryCache :=
  delete (discoveryCacheKey uid subnets) c.

Inductive discoverError := invalidOptions (e : resolveOptionError) | unresolved (code : errorCode).

Definition discoverByUID (parseIPv6 : bytes -> option bytes) (interfaces : option (list iface)) (w : world)
    (uid nonce : bytes) (subnets : list bytes) (timeout : Z) (started : Z) (cache : discoveryCache)
  : (discoverError + UDPAddr) * discoveryCache :=
  let key := discoveryCacheKey uid subnets in
  match validateResolveOptions parseIPv6 (mkOptions uid subnets [] [] timeout 0 0) with
  | inl e => (inl (invalidOptions e), cache)
  | inr o =>
      let o := match cache !! key with Some ip => o <| CachedIP := ip |> | None => o end in
      let plan := buildDiscoveryPlan parseIPv6 interfaces o in
      let '(result, _) := resolveWithPlan w uid nonce o plan (started + Timeout o) started in
      match IPAddress result, ErrorCode result with
      | Some ip, _ => (inr (mkAddr (default [] (To4 ip)) lanPort), <[key := ip]> cache)
      | None, Some code => (inl (unresolved code), cache)
      | None, None => (inl (unresolved not_found), cache)
      end
  end.
