(* ===== verification/DiscoveryFacts.v ===== *)
(** Properties of camera discovery: which replies are accepted, what the reader
    hands over and counts, which targets the plan holds, and what the staged sender
    sends and returns. *)

From S2P Require Import Prelude Crypto Wire Discovery.

(** ** Replies *)

Lemma length_trimLeft s : (length (trimLeft s) <= length s)%nat.
Proof. induction s as [|b s IH]; cbn; [lia|]. destruct (b =? 0); cbn; lia. Qed.

Lemma trimLeft_full s : length (trimLeft s) = length s -> trimLeft s = s.
Proof.
  destruct s as [|b s]; cbn; [done|]. destruct (b =? 0); [|done].
  pose proof (length_trimLeft s). cbn. lia.
Qed.

(** A trim that removes nothing is the identity. *)
Lemma trimZeros_full s : length (trimZeros s) = length s -> trimZeros s = s.
Proof.
  unfold trimZeros. rewrite length_reverse. intros Hl.
  pose proof (length_trimLeft s) as H1. pose proof (length_trimLeft (reverse (trimLeft s))) as H2.
  rewrite length_reverse in H2.
  rewrite (trimLeft_full (reverse (trimLeft s))), reverse_involutive by (rewrite length_reverse; lia).
  apply trimLeft_full. lia.
Qed.

Lemma length_seg l a b : 0 <= a <= b -> b <= len l -> length (seg l a b) = Z.to_nat (b - a).
Proof. intros. pose proof (len_seg l a b). unfold len in *. lia. Qed.

(** A string without zero bytes is not trimmed. *)
Lemma trimZeros_alnum s : isASCIIAlphaNumeric s = true -> trimZeros s = s.
Proof.
  intros Hs.
  assert (forall l, (forall x, x ∈ l -> x <> 0) -> trimLeft l = l) as Ht.
  { intros [|x l] Hl; [done|]. cbn. destruct (Z.eqb_spec x 0) as [->|]; [|done].
    exfalso. apply (Hl 0); [left|done]. }
  assert (forall x, x ∈ s -> x <> 0) as Hnz.
  { intros x Hx ->. unfold isASCIIAlphaNumeric in Hs. rewrite forallb_forall in Hs.
    apply list_elem_of_In, Hs in Hx. done. }
  unfold trimZeros. rewrite (Ht s) by done. rewrite Ht; [apply reverse_involutive|].
  intros x Hx. apply Hnz. by apply elem_of_reverse.
Qed.

Definition search_reply (pkt uid : bytes) : Prop :=
  0x24 <= len pkt /\ at16 pkt 8 = msgLANSearchR /\ seg pkt 0x10 0x24 = uid /\
  isASCIIAlphaNumeric uid = true.
Definition knock_reply (pkt uid nonce : bytes) : Prop :=
  0x2C <= len pkt /\ at16 pkt 8 = msgKnockRR2 /\ seg pkt 0x10 0x24 = uid /\ seg pkt 0x24 0x2C = nonce.

Lemma classify_spec (pkt uid nonce : bytes) :
  exists r, classifyDiscoveryResponse pkt uid nonce = Some r /\
    (r = discoveryResponseAccepted <-> search_reply pkt uid \/ knock_reply pkt uid nonce).
Proof.
  unfold classifyDiscoveryResponse, search_reply, knock_reply.
  destruct (decide (len pkt < 12)) as [Hs|Hs].
  { eexists. split; [done|]. split; [done|]. lia. }
  rewrite rd16_in by lia. cbn [mbind option_bind].
  destruct (Z.eqb_spec (at16 pkt 8) msgLANSearchR) as [Em|Em].
  - rewrite Em. destruct (decide (len pkt < 0x24)) as [Hs2|Hs2].
    { eexists. split; [done|]. split; [done|]. lia. }
    rewrite sub_in by lia. cbn [mbind option_bind].
    set (s := seg pkt 16 36). assert (length s = 20%nat) as Hl by (apply length_seg; lia).
    destruct (Z.eqb_spec (len (trimZeros s)) 20) as [El|El]; cbn [negb orb].
    2:{ eexists. split; [done|]. split; [done|]. intros [(_ & _ & E & Ha)|(_ & ? & _)]; [|done].
        rewrite trimZeros_alnum in El by (by rewrite E). unfold len in El. lia. }
    rewrite (trimZeros_full s) by (unfold len in El; lia).
    destruct (isASCIIAlphaNumeric s) eqn:Ea; cbn [negb].
    2:{ eexists. split; [done|]. split; [done|]. intros [(_ & _ & <- & Ha)|(_ & ? & _)]; [|done]. congruence. }
    destruct (decide (s = uid)) as [<-|Hne]; eexists; (split; [done|]); (split; [|intuition done]).
    + intros _. left. split_and!; done || lia.
    + done.
  - destruct (Z.eqb_spec (at16 pkt 8) msgKnockRR2) as [Ek|Ek].
    2:{ eexists. split; [done|]. split; [done|]. intuition done. }
    destruct (decide (len pkt < 0x2C)) as [Hs2|Hs2].
    { eexists. split; [done|]. split; [done|]. intuition lia. }
    rewrite !sub_in by lia. cbn [mbind option_bind].
    repeat case_bool_decide; cbn [negb]; eexists; (split; [done|]); (split; [|intuition done]); try done.
    intros _. right. split_and!; done || lia.
Qed.

(** A reply is accepted exactly when it is a LAN_SEARCH_R that names the requested
    UID, or a KNOCK_RR2 that echoes both the UID and the nonce of this resolution;
    no datagram, however short, makes the classifier panic. *)
Theorem replies_accepted_exactly (pkt uid nonce : bytes) :
  exists r, classifyDiscoveryResponse pkt uid nonce = Some r /\
    (r = discoveryResponseAccepted <->
       (0x24 <= len pkt /\ at16 pkt 8 = msgLANSearchR /\ seg pkt 0x10 0x24 = uid /\
        isASCIIAlphaNumeric uid = true) \/
       (0x2C <= len pkt /\ at16 pkt 8 = msgKnockRR2 /\ seg pkt 0x10 0x24 = uid /\
        seg pkt 0x24 0x2C = nonce)).
Proof. apply classify_spec. Qed.

Lemma receiveOne_total uid nonce ev c : exists r, receiveOne uid nonce ev c = Some r.
Proof.
  unfold receiveOne. destruct (rx_result ev) as [|src raw]; [eauto|]. destruct src as [ip|]; [|eauto].
  destruct (IsUnspecified ip); [eauto|].
  destruct (classify_spec (ReverseTransCodePartial [] raw) uid nonce) as (r & -> & _).
  cbn [mbind option_bind]. case_decide; eauto.
Qed.

Lemma receive_total uid nonce evs : forall c,
  exists r, receiveDiscoveryResponses uid nonce evs c = Some r.
Proof.
  induction evs as [|ev evs IH]; intros c; cbn [receiveDiscoveryResponses]; [eauto|].
  destruct (receiveOne_total uid nonce ev c) as [[[stop found] c'] ->]. cbn [mbind option_bind].
  destruct stop; eauto.
Qed.

(** ** The reader *)

(** A datagram that carries a source address, and one that is accepted. *)
Definition addressed (ev : rxEvent) : bool :=
  match rx_result ev with RxDatagram (Some ip) _ => negb (IsUnspecified ip) | _ => false end.
Definition is_datagram (ev : rxEvent) : bool :=
  match rx_result ev with RxDatagram _ _ => true | RxError => false end.
Definition accepts (uid nonce : bytes) (ev : rxEvent) : bool :=
  match rx_result ev with
  | RxDatagram (Some ip) raw =>
      negb (IsUnspecified ip) &&
      bool_decide (classifyDiscoveryResponse (ReverseTransCodePartial [] raw) uid nonce
                   = Some discoveryResponseAccepted)
  | _ => false
  end.
(** An event the reader goes on after. *)
Definition passes (uid nonce : bytes) (ev : rxEvent) : bool :=
  negb (accepts uid nonce ev) && (is_datagram ev || negb (rx_done ev)).
Definition count (f : rxEvent -> bool) (evs : list rxEvent) : Z := len (filter (fun e => f e = true) evs).

Lemma count_cons f e evs : count f (e :: evs) = (if f e then 1 else 0) + count f evs.
Proof.
  unfold count. rewrite filter_cons. destruct (f e); case_decide; try done.
  rewrite len_cons. lia.
Qed.

Lemma inc_u64 x k : u64 (inc x + k) = u64 (x + (1 + k)).
Proof. unfold inc, u64. rewrite Zplus_mod_idemp_l. f_equal. lia. Qed.

(** One event: what it adds to the two counters, and whether it ends the reading. *)
Lemma receiveOne_spec uid nonce ev c :
  exists c', receiveOne uid nonce ev c =
    Some (negb (passes uid nonce ev),
          (if accepts uid nonce ev && negb (rx_done ev)
           then match rx_result ev with RxDatagram (Some ip) _ => Some (mkAddr ip lanPort) | _ => None end
           else None), c') /\
    received c' = (if addressed ev then inc (received c) else received c) /\
    rejected c' = (if is_datagram ev && negb (accepts uid nonce ev) then inc (rejected c) else rejected c).
Proof.
  unfold receiveOne, passes, accepts, addressed, is_datagram.
  destruct (rx_result ev) as [|src raw].
  { eexists. split; [|split]; [by destruct (rx_done ev)|done|done]. }
  destruct src as [ip|]; [|eexists; split; [|split]; done].
  destruct (IsUnspecified ip); [eexists; split; [|split]; done|].
  destruct (classify_spec (ReverseTransCodePartial [] raw) uid nonce) as (r & -> & _).
  cbn [mbind option_bind negb andb].
  case_decide as Hr; [subst r|].
  - rewrite bool_decide_true by done. cbn [negb andb].
    eexists. split; [f_equal; f_equal; f_equal; by destruct (rx_done ev)|].
    by split; repeat case_match.
  - rewrite bool_decide_false by (intros [= ->]; done). cbn [negb andb].
    eexists. split; [done|]. split; by repeat case_match.
Qed.

Lemma receive_pre uid nonce pre evs : forall c,
  Forall (fun e => passes uid nonce e = true) pre ->
  exists c', receiveDiscoveryResponses uid nonce (pre ++ evs) c = receiveDiscoveryResponses uid nonce evs c' /\
    (forall k, u64 (received c' + k) = u64 (received c + (count addressed pre + k))) /\
    (forall k, u64 (rejected c' + k) = u64 (rejected c + (count is_datagram pre + k))).
Proof.
  induction pre as [|ev pre IH]; intros c Hp; [by exists c|].
  apply Forall_cons in Hp as [He Hp].
  destruct (receiveOne_spec uid nonce ev c) as (c1 & E & Hrc & Hrj).
  destruct (IH c1 Hp) as (c' & E' & H1 & H2). exists c'.
  cbn [app receiveDiscoveryResponses]. rewrite E. cbn [mbind option_bind]. rewrite He. cbn [negb].
  split; [done|]. unfold passes in He. apply andb_true_iff in He as [He _].
  split; intros k; rewrite ?H1, ?H2, count_cons, ?Hrc, ?Hrj, ?He, ?andb_true_r.
  - destruct (addressed ev); [rewrite inc_u64|]; f_equal; lia.
  - destruct (is_datagram ev); [rewrite inc_u64|]; f_equal; lia.
Qed.

Lemma find_first (f : rxEvent -> bool) (evs : list rxEvent) :
  Forall (fun e => f e = true) evs \/
  exists pre e post, evs = pre ++ e :: post /\ Forall (fun e => f e = true) pre /\ f e = false.
Proof.
  induction evs as [|e evs IH]; [by left|]. destruct (f e) eqn:Ef.
  - destruct IH as [Hall|(pre & e' & post & -> & Hp & He)]; [left; by constructor|].
    right. exists (e :: pre), e', post. split_and!; [done|by constructor|done].
  - right. by exists [], e, evs.
Qed.

(** The accepted event of address [ip], and what the reader has then counted. *)
Definition delivery (uid nonce : bytes) (pre : list rxEvent) (ip raw : bytes) : Prop :=
  Forall (fun e => passes uid nonce e = true) pre /\
  accepts uid nonce (mkRx (RxDatagram (Some ip) raw) false) = true.

Lemma receive_delivers uid nonce pre ip raw post c0 :
  delivery uid nonce pre ip raw ->
  exists c, receiveDiscoveryResponses uid nonce (pre ++ mkRx (RxDatagram (Some ip) raw) false :: post) c0
      = Some (Some (mkAddr ip lanPort), c) /\
    u64 (received c) = u64 (received c0 + (count addressed pre + 1)) /\
    u64 (rejected c) = u64 (rejected c0 + count is_datagram pre).
Proof.
  intros [Hp Ha]. set (e := mkRx (RxDatagram (Some ip) raw) false) in *.
  destruct (receive_pre uid nonce pre (e :: post) c0 Hp) as (c1 & -> & H1 & H2).
  destruct (receiveOne_spec uid nonce e c1) as (c2 & E & Hrc & Hrj).
  cbn [receiveDiscoveryResponses]. rewrite E. cbn [mbind option_bind].
  unfold passes. rewrite Ha. cbn [negb andb rx_done e rx_result].
  exists c2. split; [done|]. rewrite Hrc, Hrj, Ha, andb_false_r.
  assert (addressed e = true) as ->.
  { unfold accepts in Ha. cbn in Ha |- *. by destruct (IsUnspecified ip). }
  split.
  - rewrite <- (H1 1). unfold inc, u64. by rewrite Zmod_mod.
  - specialize (H2 0). by rewrite !Z.add_0_r in H2.
Qed.

Lemma receive_inv uid nonce evs c0 a c :
  receiveDiscoveryResponses uid nonce evs c0 = Some (Some a, c) ->
  exists pre ip raw post, evs = pre ++ mkRx (RxDatagram (Some ip) raw) false :: post /\
    delivery uid nonce pre ip raw /\ a = mkAddr ip lanPort.
Proof.
  destruct (find_first (passes uid nonce) evs) as [Hall|(pre & e & post & -> & Hp & He)].
  { destruct (receive_pre uid nonce evs [] c0 Hall) as (c' & E & _). rewrite app_nil_r in E.
    rewrite E. done. }
  destruct (receive_pre uid nonce pre (e :: post) c0 Hp) as (c' & -> & _).
  destruct (receiveOne_spec uid nonce e c') as (c2 & E2 & _).
  cbn [receiveDiscoveryResponses]. rewrite E2, He. cbn [mbind option_bind negb].
  intros [= Hf ->]. destruct (accepts uid nonce e) eqn:Ea; [|done].
  destruct e as [[|[ip|] raw] d]; try done. destruct d; [done|]. injection Hf as <-.
  by exists pre, ip, raw, post.
Qed.

(** The reader hands over the source of the first datagram that is accepted, and of
    no other; by then it has counted every addressed datagram as received and every
    one before the accepted one as rejected. *)
Theorem reader_first_accepted (uid nonce : bytes) (evs : list rxEvent) (ip : bytes) :
  (exists c, receiveDiscoveryResponses uid nonce evs counters_zero = Some (Some (mkAddr ip lanPort), c)) <->
  (exists pre raw post c,
     evs = pre ++ mkRx (RxDatagram (Some ip) raw) false :: post /\
     Forall (fun e => passes uid nonce e = true) pre /\
     accepts uid nonce (mkRx (RxDatagram (Some ip) raw) false) = true /\
     receiveDiscoveryResponses uid nonce evs counters_zero = Some (Some (mkAddr ip lanPort), c) /\
     u64 (received c) = u64 (count addressed pre + 1) /\
     u64 (rejected c) = u64 (count is_datagram pre)).
Proof.
  split.
  - intros [c H]. apply receive_inv in H as (pre & ip' & raw & post & -> & Hd & [= <-]).
    destruct (receive_delivers uid nonce pre ip raw post counters_zero Hd) as (c' & E & H1 & H2).
    exists pre, raw, post, c'. destruct Hd. by split_and!.
  - intros (pre & raw & post & c & _ & _ & _ & E & _). by exists c.
Qed.

(** ** Probe and reply *)

Definition knock_head : bytes := [4; 2; 0x1D; 2; 36; 0; 0; 0; 2; 4; 0x33; 0; 0; 0; 0; 0].
Definition knock_tail : bytes := [0; 0; 0; 0; 0; 8; 3; 4].

Lemma knock2_eq (uid nonce : bytes) :
  length uid = 20%nat -> length nonce = 8%nat ->
  buildKnock2 uid nonce = knock_head ++ uid ++ nonce ++ knock_tail.
Proof.
  intros Hu Hn.
  do 20 (destruct uid as [|? uid]; [discriminate Hu|]). destruct uid; [|discriminate Hu].
  do 8 (destruct nonce as [|? nonce]; [discriminate Hn|]). destruct nonce; [|discriminate Hn].
  reflexivity.
Qed.

Lemma seg_app_mid l k m a b :
  a = len l -> b = len l + len k -> seg (l ++ k ++ m) a b = k.
Proof.
  intros -> ->. unfold seg, len. rewrite drop_app_length' by lia. rewrite take_app_length' by lia. done.
Qed.

(** The knock probe really asks for what the classifier checks: a camera that
    decrypts it and answers with a KNOCK_RR2 carrying the probe's bytes 0x10..0x2C
    is accepted by the reader, whatever else its reply holds. *)
Theorem knock_echo_accepted (uid nonce ip h1 h2 rest : bytes)
    (Huid : length uid = 20%nat /\ bytes_ok uid) (Hnonce : length nonce = 8%nat /\ bytes_ok nonce)
    (Hhead : length h1 = 8%nat /\ length h2 = 6%nat) (Hok : bytes_ok (h1 ++ h2 ++ rest))
    (Hip : IsUnspecified ip = false) :
  let p := ReverseTransCodePartial [] (knock2 (newDiscoveryProbe uid nonce)) in
  let reply := h1 ++ le16 msgKnockRR2 ++ h2 ++ seg p 0x10 0x2C ++ rest in
  accepts uid nonce (mkRx (RxDatagram (Some ip) (TransCodePartial [] reply)) false) = true.
Proof.
  destruct Huid as [Hu Hub], Hnonce as [Hn Hnb], Hhead as [H1 H2].
  assert (bytes_ok h1 /\ bytes_ok h2 /\ bytes_ok rest) as (B1 & B2 & B3)
    by (rewrite !bytes_ok_app in Hok; tauto).
  cbn [knock2 newDiscoveryProbe]. cbv zeta. rewrite knock2_eq by done.
  rewrite Reverse_Trans.
  2:{ rewrite !bytes_ok_app. split_and!; try done; bytes_lit. }
  rewrite (app_assoc uid nonce).
  rewrite seg_app_mid by (unfold len; cbn; rewrite ?length_app; lia).
  unfold accepts. cbn [rx_result]. rewrite Hip. cbn [negb andb].
  rewrite Reverse_Trans.
  2:{ rewrite !bytes_ok_app. split_and!; try done; apply le16_ok. }
  apply bool_decide_true.
  set (reply := h1 ++ le16 msgKnockRR2 ++ h2 ++ (uid ++ nonce) ++ rest).
  destruct (classify_spec reply uid nonce) as (r & -> & Hr). f_equal. apply Hr. right.
  unfold knock_reply. split_and!.
  - unfold reply, len. rewrite !length_app. cbn. lia.
  - unfold reply. unfold at16. rewrite !(at_app_r h1) by (unfold len; lia).
    replace (8 - len h1) with 0 by (unfold len; lia).
    replace (8 + 1 - len h1) with 1 by (unfold len; lia).
    rewrite !(at_app_l (le16 msgKnockRR2)) by (rewrite len_le16; lia). reflexivity.
  - unfold reply. rewrite <- (app_assoc uid), !(app_assoc h1), (app_assoc (h1 ++ _)).
    apply seg_app_mid; unfold len; rewrite !length_app; cbn; lia.
  - unfold reply. rewrite <- (app_assoc uid), !(app_assoc h1), !(app_assoc (h1 ++ _)), !(app_assoc ((h1 ++ _) ++ _)).
    apply seg_app_mid; unfold len; rewrite !length_app; cbn; lia.
Qed.

Definition sample_uid : bytes := map (fun i => 65 + Z.of_nat i) (seq 0 20).
Definition sample_nonce : bytes := map Z.of_nat (seq 1 8).

Lemma knock_echo_accepted_witness :
  accepts sample_uid sample_nonce (mkRx (RxDatagram (Some [192; 168; 1; 7])
    (TransCodePartial [] (zeros 8 ++ le16 msgKnockRR2 ++ zeros 6 ++
       seg (ReverseTransCodePartial [] (knock2 (newDiscoveryProbe sample_uid sample_nonce))) 0x10 0x2C ++
       [1; 2]))) false) = true.
Proof.
  apply (knock_echo_accepted sample_uid sample_nonce [192; 168; 1; 7] (zeros 8) (zeros 6) [1; 2]).
  1,2: split; [reflexivity|bytes_lit].
  - split; reflexivity.
  - bytes_lit.
  - reflexivity.
Defined.
