(* ===== verification/Targets.v ===== *)
(** Properties of the discovery plan: no address is probed twice, nothing listed is
    lost, and a subnet contributes exactly its usable hosts. *)

From S2P Require Import Prelude Wire Discovery.

(** ** The plan has no duplicates *)

Definition planned (p : discoveryPlan) : list UDPAddr :=
  cached p ++ broadcasts p ++ candidates p ++ unicasts p.

Definition good_target (a : UDPAddr) : Prop :=
  len (addrIP a) = 4 /\ IsUnspecified (addrIP a) = false /\ addrPort a = lanPort.

(** An address the plan can hold. *)
Definition usable (ip ip4 : bytes) : Prop := To4 ip = Some ip4 /\ IsUnspecified ip4 = false.

Lemma To4_len ip ip4 : To4 ip = Some ip4 -> len ip4 = 4.
Proof.
  unfold To4. destruct (Z.eqb_spec (len ip) 4); [by intros [= <-]|].
  case_bool_decide as H; [|done]. intros [= <-]. destruct H as [H _].
  unfold len in *. rewrite length_drop. lia.
Qed.

(** What a run of [add] appends to a list, the addresses seen being [seen]. *)
Record appended (seen : gset bytes) (new : list UDPAddr) (seen' : gset bytes) : Prop := {
  app_seen : forall x, x ∈ seen' <-> x ∈ seen \/ x ∈ map addrIP new;
  app_nodup : NoDup (map addrIP new);
  app_fresh : forall x, x ∈ map addrIP new -> x ∉ seen;
  app_good : Forall good_target new;
}.

Lemma appended_nil seen : appended seen [] seen.
Proof. split; [|constructor| |constructor]; cbn [map]; intros x; rewrite elem_of_nil; tauto. Qed.

Lemma appended_app s1 n1 s2 n2 s3 :
  appended s1 n1 s2 -> appended s2 n2 s3 -> appended s1 (n1 ++ n2) s3.
Proof.
  intros [A1 B1 C1 D1] [A2 B2 C2 D2]. split.
  - intros x. rewrite A2, A1, map_app, elem_of_app. tauto.
  - rewrite map_app. apply NoDup_app. split_and!; [done| |done].
    intros x Hx Hx2. apply (C2 x Hx2), A1. by right.
  - intros x. rewrite map_app, elem_of_app. intros [Hx|Hx]; [by apply C1|].
    intros Hs. apply (C2 x Hx), A1. by left.
  - by apply Forall_app.
Qed.

Lemma add_spec ip seen l :
  exists new seen', add ip (seen, l) = (seen', l ++ new) /\ appended seen new seen' /\
    (forall ip4, usable ip ip4 -> ip4 ∈ seen').
Proof.
  unfold add, usable. destruct (To4 ip) as [ip4|] eqn:E.
  2:{ exists [], seen. rewrite app_nil_r. split_and!; [done|apply appended_nil|]. by intros ? []. }
  destruct (IsUnspecified ip4) eqn:Eu.
  { exists [], seen. rewrite app_nil_r. split_and!; [done|apply appended_nil|].
    intros ? [[= <-] ?]. congruence. }
  destruct (decide (ip4 ∈ seen)) as [Hin|Hout].
  { exists [], seen. rewrite app_nil_r. split_and!; [done|apply appended_nil|]. by intros ? [[= <-] _]. }
  exists [mkAddr ip4 lanPort], ({[ip4]} ∪ seen). split_and!; [done| |].
  - split; cbn [map addrIP].
    + intros x. rewrite elem_of_union, elem_of_singleton, list_elem_of_singleton. tauto.
    + apply NoDup_singleton.
    + intros x ->%list_elem_of_singleton. done.
    + repeat constructor; cbn; eauto using To4_len.
  - intros ? [[= <-] _]. set_solver.
Qed.

Lemma addAll_spec ips : forall seen l,
  exists new seen', addAll ips (seen, l) = (seen', l ++ new) /\ appended seen new seen' /\
    (forall ip ip4, ip ∈ ips -> usable ip ip4 -> ip4 ∈ seen').
Proof.
  unfold addAll. induction ips as [|ip ips IH]; intros seen l; cbn [foldl].
  { exists [], seen. rewrite app_nil_r. split_and!; [done|apply appended_nil|]. intros ? ? []%elem_of_nil. }
  destruct (add_spec ip seen l) as (n1 & s1 & -> & A1 & C1).
  destruct (IH s1 (l ++ n1)) as (n2 & s2 & -> & A2 & C2).
  exists (n1 ++ n2), s2. split_and!; [by rewrite app_assoc|by eapply appended_app|].
  intros ip' ip4 [->|Hin]%elem_of_cons Hu; [|by eapply C2].
  apply (app_seen _ _ _ A2). left. by apply C1.
Qed.

Record plan_ok (st : planState) : Prop := {
  plan_nodup : NoDup (map addrIP (planned (snd st)));
  plan_seen : forall x, x ∈ fst st <-> x ∈ map addrIP (planned (snd st));
  plan_good : Forall good_target (planned (snd st));
}.

(** Adding to any list of the plan: the invariant holds, what was seen stays, and
    every usable address is there afterwards. *)
Definition plan_step (ips : list bytes) (st st' : planState) : Prop :=
  plan_ok st -> plan_ok st' /\ fst st ⊆ fst st' /\
    (forall ip ip4, ip ∈ ips -> usable ip ip4 -> ip4 ∈ fst st').

Lemma plan_grows seen p new seen' p' :
  appended seen new seen' -> Permutation (planned p') (new ++ planned p) ->
  plan_ok (seen, p) -> plan_ok (seen', p') /\ seen ⊆ seen'.
Proof.
  intros [A B C D] Hperm [Hn Hs Hg]. cbn [fst snd] in *.
  assert (Permutation (map addrIP (planned p')) (map addrIP new ++ map addrIP (planned p))) as Hm
    by (rewrite <- map_app; by apply Permutation_map).
  split; [split; cbn [fst snd]|].
  - rewrite Hm. apply NoDup_app. split_and!; [done| |done]. intros x Hx Hx2. by apply (C x Hx), Hs.
  - intros x. rewrite Hm, elem_of_app, A, Hs. tauto.
  - rewrite Hperm. by apply Forall_app.
  - intros x Hx. apply A. by left.
Qed.

Ltac plan_step_tac :=
  let H := fresh "H" in let new := fresh "new" in let seen' := fresh "seen'" in
  let E := fresh "E" in let Ha := fresh "Ha" in let Hc := fresh "Hc" in
  intros H; unfold addCached, addBroadcasts, addCandidates, addUnicasts;
  lazymatch goal with |- context [addAll ?ips (?s, ?l)] =>
    destruct (addAll_spec ips s l) as (new & seen' & E & Ha & Hc) end;
  rewrite E; cbn [fst];
  lazymatch goal with |- plan_ok (_, ?p') /\ _ =>
    destruct (plan_grows _ _ _ _ p' Ha ltac:(unfold planned; cbn; solve_Permutation) H) as [? ?] end;
  tauto.

Lemma addCached_step ips seen p : plan_step ips (seen, p) (addCached ips (seen, p)).
Proof. plan_step_tac. Qed.
Lemma addBroadcasts_step ips seen p : plan_step ips (seen, p) (addBroadcasts ips (seen, p)).
Proof. plan_step_tac. Qed.
Lemma addCandidates_step ips seen p : plan_step ips (seen, p) (addCandidates ips (seen, p)).
Proof. plan_step_tac. Qed.
Lemma addUnicasts_step ips seen p : plan_step ips (seen, p) (addUnicasts ips (seen, p)).
Proof. plan_step_tac. Qed.

(** ** The interfaces *)

Definition plan_kept (st st' : planState) : Prop := plan_ok st -> plan_ok st' /\ fst st ⊆ fst st'.

Lemma plan_step_kept ips st st' : plan_step ips st st' -> plan_kept st st'.
Proof. intros H Hok. apply H in Hok. tauto. Qed.

Lemma plan_kept_trans s1 s2 s3 : plan_kept s1 s2 -> plan_kept s2 s3 -> plan_kept s1 s3.
Proof. intros H1 H2 Hok. destruct (H1 Hok) as [Ok2 ?]. destruct (H2 Ok2) as [? ?]. split; [done|set_solver]. Qed.

Lemma plan_kept_refl st : plan_kept st st.
Proof. by split. Qed.

Lemma plan_kept_fold {A} (f : planState -> A -> planState) l :
  (forall st a, plan_kept st (f st a)) -> forall st, plan_kept st (foldl f st l).
Proof.
  intros Hf. induction l as [|a l IH]; intros st; cbn [foldl]; [apply plan_kept_refl|].
  eapply plan_kept_trans; [apply Hf|apply IH].
Qed.

Lemma addNet_kept automatic st a : plan_kept st (addNet automatic st a).
Proof.
  unfold addNet. destruct a as [[ip mask]|]; [|apply plan_kept_refl].
  destruct (To4 ip) as [ip4|]; [|apply plan_kept_refl].
  destruct (negb (len mask =? 4)); [apply plan_kept_refl|].
  destruct st as [seen p]. set (st1 := addBroadcasts _ (seen, p)).
  assert (plan_kept (seen, p) st1) as H1 by (eapply plan_step_kept, addBroadcasts_step).
  destruct automatic; [|done]. eapply plan_kept_trans; [exact H1|].
  destruct st1 as [s1 p1]. eapply plan_step_kept, addUnicasts_step.
Qed.

Lemma addIface_kept automatic st i : plan_kept st (addIface automatic st i).
Proof.
  unfold addIface. destruct (_ || _); [apply plan_kept_refl|].
  destruct (ifAddrs i); [|apply plan_kept_refl]. apply plan_kept_fold. intros. apply addNet_kept.
Qed.

(** The addresses the options name, in the order they are added. *)
Definition named (parseIPv6 : bytes -> option bytes) (o : ResolveOptions) : list bytes :=
  [CachedIP o] ++ [IPv4bcast] ++ omap (cidrBroadcast parseIPv6) (Subnets o) ++ Candidates o ++
  flat_map (fun s => cidrDiscoveryTargets parseIPv6 s 65536) (Subnets o).

Lemma plan_empty : plan_ok (∅, mkPlan [] [] [] []).
Proof.
  split; cbn; [constructor| |constructor]. intros x. rewrite elem_of_empty, elem_of_nil. tauto.
Qed.

Lemma buildPlanState_ok parseIPv6 interfaces o :
  let st := buildPlanState parseIPv6 interfaces o in
  plan_ok st /\ forall ip ip4, ip ∈ named parseIPv6 o -> usable ip ip4 -> ip4 ∈ fst st.
Proof.
  cbv zeta. unfold buildPlanState.
  set (s1 := addCached _ _). set (s2 := addBroadcasts [IPv4bcast] s1).
  set (s3 := addBroadcasts _ s2). set (s4 := addCandidates _ s3). set (s5 := addUnicasts _ s4).
  destruct (addCached_step [CachedIP o] ∅ (mkPlan [] [] [] []) plan_empty) as (O1 & _ & C1).
  fold s1 in O1, C1.
  assert (plan_step [IPv4bcast] s1 s2) as P2 by (unfold s2; destruct s1; apply addBroadcasts_step).
  assert (plan_step (omap (cidrBroadcast parseIPv6) (Subnets o)) s2 s3) as P3
    by (unfold s3; destruct s2; apply addBroadcasts_step).
  assert (plan_step (Candidates o) s3 s4) as P4 by (unfold s4; destruct s3; apply addCandidates_step).
  assert (plan_step (flat_map (fun s => cidrDiscoveryTargets parseIPv6 s 65536) (Subnets o)) s4 s5) as P5
    by (unfold s5; destruct s4; apply addUnicasts_step).
  destruct (P2 O1) as (O2 & I2 & C2). destruct (P3 O2) as (O3 & I3 & C3).
  destruct (P4 O3) as (O4 & I4 & C4). destruct (P5 O4) as (O5 & I5 & C5).
  set (sf := match interfaces with None => s5 | Some l => _ end).
  assert (plan_kept s5 sf) as Hk.
  { unfold sf. destruct interfaces; [|apply plan_kept_refl]. apply plan_kept_fold.
    intros. apply addIface_kept. }
  destruct (Hk O5) as [Of If]. clearbody s1 s2 s3 s4 s5 sf. split; [done|].
  intros ip ip4 Hin Hu. unfold named in Hin. rewrite !elem_of_app in Hin.
  destruct Hin as [Hin|[Hin|[Hin|[Hin|Hin]]]];
    [pose proof (C1 _ _ Hin Hu)|pose proof (C2 _ _ Hin Hu)|pose proof (C3 _ _ Hin Hu)
    |pose proof (C4 _ _ Hin Hu)|pose proof (C5 _ _ Hin Hu)]; set_solver.
Qed.

(** Whatever the options and the interfaces, no address is in the plan twice, so no
    camera is probed twice in one stage or by two stages; every target is a
    non-zero IPv4 address on the LAN port; and the cached address, the limited and
    the directed broadcasts, the candidates and the hosts of the subnets are all
    in it. *)
Theorem plan_targets_distinct (parseIPv6 : bytes -> option bytes) (interfaces : option (list iface))
    (o : ResolveOptions) :
  let p := buildDiscoveryPlan parseIPv6 interfaces o in
  NoDup (map addrIP (planned p)) /\
  Forall good_target (planned p) /\
  (forall ip ip4, ip ∈ named parseIPv6 o -> To4 ip = Some ip4 -> IsUnspecified ip4 = false ->
     ip4 ∈ map addrIP (planned p)).
Proof.
  destruct (buildPlanState_ok parseIPv6 interfaces o) as [[Hn Hs Hg] Hall].
  cbv zeta. unfold buildDiscoveryPlan. split_and!; [done|done|].
  intros ip ip4 Hin E Hu. apply Hs. by apply (Hall ip).
Qed.

(** "10.0.0.0/30", a candidate inside it, and no interfaces. *)
Definition sample_options : ResolveOptions :=
  mkOptions (replicate 20 65) [[49;48;46;48;46;48;46;48;47;51;48]] [10;0;0;2] [[10;0;0;2]; [10;0;0;9]]
    1000000000 0 0.

Lemma plan_targets_distinct_witness :
  buildDiscoveryPlan (fun _ => None) None sample_options =
    mkPlan [mkAddr [10;0;0;2] 32761] [mkAddr [255;255;255;255] 32761; mkAddr [10;0;0;3] 32761]
      [mkAddr [10;0;0;9] 32761] [mkAddr [10;0;0;1] 32761] /\
  [10;0;0;9] ∈ map addrIP (planned (buildDiscoveryPlan (fun _ => None) None sample_options)).
Proof.
  split; [vm_compute; reflexivity|].
  apply (plan_targets_distinct (fun _ => None) None sample_options) with (ip := [10;0;0;9]);
    [|reflexivity|reflexivity].
  unfold named. rewrite !elem_of_app. do 3 right. left. right. left.
Defined.

(** ** The hosts of a subnet *)

Lemma beWord_lit a b c d : beWord [a; b; c; d] = a * 16777216 + b * 65536 + c * 256 + d.
Proof. reflexivity. Qed.
Lemma be32_lit v :
  be32 v = [v / 16777216 mod 256; v / 65536 mod 256; v / 256 mod 256; v mod 256].
Proof. reflexivity. Qed.

Lemma beWord_be32 v : is_u32 v -> beWord (be32 v) = v.
Proof. intros Hv. rewrite be32_lit, beWord_lit. ints. Qed.

Lemma be32_inj v w : is_u32 v -> is_u32 w -> be32 v = be32 w -> v = w.
Proof. intros Hv Hw E. rewrite <- (beWord_be32 v), <- (beWord_be32 w) by done. by rewrite E. Qed.

Lemma be32_beWord ip : len ip = 4 -> bytes_ok ip -> be32 (beWord ip) = ip /\ is_u32 (beWord ip).
Proof.
  intros Hl Hok. destruct ip as [|a [|b [|c [|d [|]]]]]; try (unfold len in Hl; cbn in Hl; lia).
  unfold bytes_ok in Hok. rewrite !Forall_cons in Hok. destruct Hok as (Ha & Hb & Hc & Hd & _).
  rewrite beWord_lit, be32_lit. split; [|ints]. repeat f_equal; ints.
Qed.

(** The masks, by enumeration of their 33 lengths. *)
Lemma prefix_masks n : 0 <= n <= 32 ->
  maskSize (cidrMask 4 n) = (n, 32) /\ beWord (cidrMask 4 n) = 2 ^ 32 - 2 ^ (32 - n).
Proof.
  intros Hn.
  assert (forallb (fun n => bool_decide (maskSize (cidrMask 4 n) = (n, 32) /\
            beWord (cidrMask 4 n) = 2 ^ 32 - 2 ^ (32 - n))) (seqZ 0 33) = true) as H
    by (vm_compute; reflexivity).
  rewrite forallb_forall in H. specialize (H n). rewrite <- list_elem_of_In, elem_of_seqZ in H.
  apply bool_decide_eq_true in H; [done|lia].
Qed.

Lemma land_prefix x h : is_u32 x -> 0 <= h <= 32 -> Z.land x (2 ^ 32 - 2 ^ h) = 2 ^ h * (x / 2 ^ h).
Proof.
  intros Hx Hh. replace (2 ^ 32 - 2 ^ h) with (Z.shiftl (Z.ones (32 - h)) h).
  2:{ rewrite Z.shiftl_mul_pow2, Z.ones_equiv by lia.
      replace 32 with ((32 - h) + h) at 2 by lia. rewrite Z.pow_add_r by lia. lia. }
  rewrite (Z.mul_comm (2 ^ h)), <- Z.shiftr_div_pow2, <- (Z.shiftl_mul_pow2 (Z.shiftr x h)) by lia.
  apply Z.bits_inj'. intros i Hi. rewrite Z.land_spec, !Z.shiftl_spec by lia.
  destruct (Z.lt_ge_cases i h) as [Hlt|Hge].
  { rewrite !(Z.testbit_neg_r _ (i - h)) by lia. by rewrite andb_false_r. }
  rewrite Z.shiftr_spec by lia. replace (i - h + h) with i by lia.
  destruct (Z.lt_ge_cases i 32) as [Hs|Hs].
  - rewrite Z.ones_spec_low by lia. apply andb_true_r.
  - assert (Z.testbit x i = false) as ->; [|done].
    destruct (Z.eq_dec x 0) as [->|]; [apply Z.bits_0|]. apply Z.bits_above_log2; [ints|].
    apply Z.log2_lt_pow2; [ints|]. pose proof (Z.pow_le_mono_r 2 32 i). ints.
Qed.

Lemma subnetLoop_spec ip base k : forall i x,
  x ∈ subnetLoop k base i ip <->
  x <> ip /\ exists j, i <= j < i + Z.of_nat k /\ x = be32 (u32 (base + j)).
Proof.
  induction k as [|k IH]; intros i x; cbn [subnetLoop].
  { rewrite elem_of_nil. split; [done|]. intros (_ & j & ? & _). lia. }
  rewrite elem_of_app, IH.
  assert (x ∈ (if decide (be32 (u32 (base + i)) = ip) then [] else [be32 (u32 (base + i))]) <->
          x <> ip /\ x = be32 (u32 (base + i))) as ->.
  { case_decide as E; [rewrite elem_of_nil|rewrite list_elem_of_singleton]; split; intuition congruence. }
  split.
  - intros [[Hne ->]|(Hne & j & Hj & ->)]; split; try done; [exists i|exists j]; (split; [lia|done]).
  - intros (Hne & j & Hj & ->). destruct (Z.eq_dec j i) as [->|]; [by left|].
    right. split; [done|]. exists j. split; [lia|done].
Qed.

Lemma subnetLoop_nodup ip base k : forall i,
  (forall j, i <= j < i + Z.of_nat k -> 0 <= base + j < 4294967296) -> NoDup (subnetLoop k base i ip).
Proof.
  induction k as [|k IH]; intros i Hb; cbn [subnetLoop]; [constructor|].
  apply NoDup_app. split_and!.
  - case_decide; [constructor|apply NoDup_singleton].
  - intros x Hx (Hne & j & Hj & ->)%subnetLoop_spec. case_decide; [by apply elem_of_nil in Hx|].
    apply list_elem_of_singleton in Hx. apply be32_inj in Hx; [|apply u32_bound|apply u32_bound].
    rewrite !u32_small in Hx; [lia| |]; apply Hb; lia.
  - apply IH. intros j Hj. apply Hb. lia.
Qed.

(** C22. The sweep of a subnet asks exactly its hosts, each once: the addresses that
    agree with [ip] above the mask, except the network address, the directed
    broadcast and [ip] itself; a subnet of more than [max] addresses has none. *)
Theorem subnet_hosts_exact (ip : bytes) (n max v : Z)
    (Hip : len ip = 4 /\ bytes_ok ip) (Hn : 0 <= n <= 32) (Hv : is_u32 v) :
  let size := 2 ^ (32 - n) in
  let targets := subnetDiscoveryTargets ip (cidrMask 4 n) max in
  (max < size -> targets = []) /\
  (size <= max ->
     NoDup targets /\
     (be32 v ∈ targets <->
        v / size = beWord ip / size /\ 0 < v mod size < size - 1 /\ be32 v <> ip)).
Proof.
  cbv zeta. destruct Hip as [Hl Hok]. destruct (be32_beWord ip Hl Hok) as [_ Hw].
  destruct (prefix_masks n Hn) as [Hs Hm]. unfold subnetDiscoveryTargets. rewrite Hs, Hm.
  rewrite Z.shiftl_mul_pow2, Z.mul_1_l by lia. cbn [Z.eqb negb Pos.eqb].
  rewrite land_prefix by (done || lia). set (size := 2 ^ (32 - n)).
  assert (1 <= size <= 4294967296) as Hsize.
  { unfold size. split; [apply (Z.pow_le_mono_r 2 0); lia|apply (Z.pow_le_mono_r 2 (32 - n) 32); lia]. }
  destruct (Z.ltb_spec max size) as [Hmax|Hmax]; (split; [intros|intros]); try done || lia.
  assert (exists m, size * m = 4294967296) as [m Hdiv].
  { exists (2 ^ n). unfold size. rewrite <- Z.pow_add_r by lia. by replace (32 - n + n) with 32 by lia. }
  clearbody size. set (b := beWord ip) in *.
  assert (forall j, 0 <= j < size -> 0 <= size * (b / size) + j < 4294967296) as Hrange.
  { intros j Hj. destruct Hw as [Hw0 Hw1]. assert (0 <= b / size) by (apply Z.div_pos; lia).
    assert (b / size < m) by (apply Z.div_lt_upper_bound; lia). nia. }
  rewrite u32_small by (unfold is_u32; lia).
  split; [apply subnetLoop_nodup; intros j Hj; apply Hrange; lia|].
  rewrite subnetLoop_spec. split.
  - intros (Hne & j & Hj & E). rewrite u32_small in E by (apply Hrange; lia).
    apply be32_inj in E; [|done|apply Hrange; lia]. rewrite E in Hne |- *.
    assert (0 <= j < size) as Hjs by lia.
    rewrite (Z.mul_comm size), (Z.add_comm _ j), Z.div_add, (Z.div_small j) by lia.
    rewrite Z.mod_add, (Z.mod_small j) by lia. rewrite (Z.add_comm j), (Z.mul_comm _ size).
    split_and!; done || lia.
  - intros (Hdivv & Hmod & Hne). split; [done|]. exists (v mod size). split; [lia|].
    rewrite u32_small by (apply Hrange; apply Z.mod_pos_bound; lia).
    f_equal. rewrite <- Hdivv. apply Z.div_mod. lia.
Qed.

Lemma subnet_hosts_exact_witness :
  be32 0x0A000002 ∈ subnetDiscoveryTargets [10;0;0;1] (cidrMask 4 30) 1024.
Proof.
  apply (subnet_hosts_exact [10;0;0;1] 30 1024 0x0A000002).
  - split; [reflexivity|bytes_lit].
  - lia.
  - unfold is_u32. lia.
  - lia.
  - vm_compute. repeat split; congruence.
Defined.
