(* ===== verification/Resolve.v ===== *)
(** Properties of the staged resolver: what it sends, and what it reports. *)

From S2P Require Import Prelude Crypto Wire Discovery DiscoveryFacts Targets.

Section Run.
Variables (w : world) (uid nonce : bytes).
Abbreviation probe := (newDiscoveryProbe uid nonce).
Abbreviation rd_ := (reader w uid nonce).

(** [a] was handed over by the reader: it is the source of an accepted datagram. *)
Definition delivered (a : UDPAddr) : Prop :=
  exists n pre ip raw post, arrived w n = pre ++ mkRx (RxDatagram (Some ip) raw) false :: post /\
    accepts uid nonce (mkRx (RxDatagram (Some ip) raw) false) = true /\ a = mkAddr ip lanPort.

Lemma reader_delivered n a : fst (rd_ n) = Some a -> delivered a.
Proof.
  unfold reader. destruct (receive_total uid nonce (arrived w n) counters_zero) as [[f c] E].
  rewrite E. cbn. intros ->. apply receive_inv in E as (pre & ip & raw & post & E & [_ Ha] & ->).
  by exists n, pre, ip, raw, post.
Qed.

(** What a piece of the resolver may do: send probes to [T] and count them, and
    find only delivered addresses. *)
Definition wires : list bytes := [search1 probe; search2 probe; knock2 probe].
Definition legit (T : list UDPAddr) (x : UDPAddr * bytes * bool) : Prop :=
  x.1.1 ∈ T /\ x.1.2 ∈ wires.
(** Successful sends of a list. *)
Definition sent_ok (l : list (UDPAddr * bytes * bool)) : Z := len (filter (fun x => x.2 = true) l).
Definition tally (c : resolveCounters) : Z := lanSearchW3_1Sent c + lanSearchW3_2Sent c + knock2Sent c.

Definition sends_more (T : list UDPAddr) (s s' : sender) : Prop :=
  (step s <= step s')%nat /\
  exists l, sends s' = sends s ++ l /\ Forall (legit T) l /\
    u64 (tally (sctr s')) = u64 (tally (sctr s) + sent_ok l) /\
    u64 (sendErrors (sctr s')) = u64 (sendErrors (sctr s) + (len l - sent_ok l)).
Definition sound (T : list UDPAddr) (s : sender) (r : selected * sender) : Prop :=
  sends_more T s (snd r) /\ forall a, fst r = sFound a -> delivered a.

Lemma sends_more_quiet T s s' :
  (step s <= step s')%nat -> sends s' = sends s -> tally (sctr s') = tally (sctr s) ->
  sendErrors (sctr s') = sendErrors (sctr s) -> sends_more T s s'.
Proof.
  intros ? E1 E2 E3. split; [done|]. exists []. rewrite E1, E2, E3, app_nil_r.
  split_and!; [done|by apply Forall_nil| |]; change (sent_ok []) with 0; change (@len (UDPAddr * bytes * bool) []) with 0; f_equal; lia.
Qed.
Lemma sends_more_refl T s : sends_more T s s.
Proof. by apply sends_more_quiet. Qed.
Lemma sends_more_tick T s : sends_more T s (tickStep s).
Proof. apply sends_more_quiet; [cbn; lia|done..]. Qed.

Lemma u64_trans a b c x y : u64 b = u64 (a + x) -> u64 c = u64 (b + y) -> u64 c = u64 (a + (x + y)).
Proof.
  unfold u64. intros H1 ->. rewrite Z.add_assoc, <- Zplus_mod_idemp_l, H1, Zplus_mod_idemp_l. done.
Qed.
Lemma sent_ok_app l k : sent_ok (l ++ k) = sent_ok l + sent_ok k.
Proof. unfold sent_ok. by rewrite filter_app, len_app. Qed.

Lemma sends_more_trans T s1 s2 s3 : sends_more T s1 s2 -> sends_more T s2 s3 -> sends_more T s1 s3.
Proof.
  intros [L1 (l1 & E1 & F1 & C1 & D1)] [L2 (l2 & E2 & F2 & C2 & D2)]. split; [lia|].
  exists (l1 ++ l2). rewrite E2, E1, app_assoc, sent_ok_app, len_app. split_and!; [done|by apply Forall_app| |].
  - by eapply u64_trans.
  - rewrite (u64_trans _ _ _ _ _ D1 D2). f_equal. lia.
Qed.
Lemma sends_more_mono T T' s s' : (forall t, t ∈ T -> t ∈ T') -> sends_more T s s' -> sends_more T' s s'.
Proof.
  intros Hsub [L (l & E & F & C & D)]. split; [done|]. exists l. split_and!; [done| |done|done].
  eapply Forall_impl; [exact F|]. intros x [? ?]. split; auto.
Qed.

Lemma sound_none T s s' : sends_more T s s' -> sound T s (sNone, s').
Proof. by split. Qed.
Lemma sound_done T s s' e : sends_more T s s' -> sound T s (sDone e, s').
Proof. by split. Qed.
Lemma sound_after T s s' r : sends_more T s s' -> sound T s' r -> sound T s r.
Proof. intros H [H1 H2]. split; [by eapply sends_more_trans|done]. Qed.

Lemma select_sound T useCtx s : sound T s (select w uid nonce useCtx s).
Proof.
  unfold select. split; cbn [fst snd]; [apply sends_more_tick|]. intros a.
  destruct (fst (rd_ (step s))) eqn:E; [|by repeat case_match].
  intros Ha. apply (reader_delivered (step s)). rewrite E.
  destruct (if useCtx then _ else _); [destruct (pick w (step s))|]; congruence.
Qed.

Lemma waitFor_sound T d s : sound T s (waitFor w uid nonce d s).
Proof. unfold waitFor. destruct (d <=? 0); apply select_sound. Qed.

(** A packet of the probe and the counter it adds to. *)
Definition counted (p : bytes * (resolveCounters -> resolveCounters)) : Prop :=
  p.1 ∈ wires /\ forall c, u64 (tally (p.2 c)) = u64 (tally c + 1) /\ sendErrors (p.2 c) = sendErrors c.

Lemma sendOne_more T t wire (bump : resolveCounters -> resolveCounters) (ok : bool) (s : sender) :
  t ∈ T -> counted (wire, bump) ->
  sends_more T s (tickStep (s <| sends := sends s ++ [(t, wire, ok)] |>
    <| sctr := if ok then bump (sctr s)
               else (sctr s) <| sendErrors := inc (sendErrors (sctr s)) |> |>)).
Proof.
  intros Ht [Hw Hc]. cbn [fst snd] in *. destruct (Hc (sctr s)) as [H1 H2].
  split; [cbn; lia|]. exists [(t, wire, ok)]. cbn [tickStep upd sends sctr]. split_and!.
  - done.
  - constructor; [by split|constructor].
  - destruct ok; [exact H1|]. change (sent_ok _) with 0. rewrite Z.add_0_r. done.
  - change (len [_]) with 1. destruct ok; [change (sent_ok _) with 1; rewrite H2; f_equal; lia|].
    change (sent_ok _) with 0. cbn. unfold inc, u64. by rewrite Zmod_mod.
Qed.

Lemma sendPackets_more T t ps : forall i sent failed s,
  t ∈ T -> Forall counted ps -> sends_more T s (snd (sendPackets w i ps t sent failed s)).
Proof.
  induction ps as [|[wire bump] ps IH]; intros i sent failed s Ht Hps;
    cbn [sendPackets]; [apply sends_more_refl|].
  apply Forall_cons in Hps as [Hw Hps].
  destruct (ctxErr w (step s)); [apply sends_more_refl|].
  pose proof (sendOne_more T t wire bump (writeOK w (step s)) s Ht Hw) as H1. revert H1.
  match goal with |- context [tickStep ?x] => set (s1 := tickStep x) end. clearbody s1. intros H1.
  destruct (Nat.eqb i 1); unfold pause; [destruct (ctxErr w (step s1))|].
  - eapply sends_more_trans; [exact H1|apply sends_more_tick].
  - eapply sends_more_trans; [exact H1|]. eapply sends_more_trans; [apply sends_more_tick|]. by apply IH.
  - eapply sends_more_trans; [exact H1|]. by apply IH.
Qed.

Lemma packets_counted : Forall counted (packets probe).
Proof.
  unfold packets, counted, wires, tally, inc, u64.
  apply Forall_cons_2; [|apply Forall_cons_2; [|apply Forall_cons_2; [|by apply Forall_nil]]]; cbn [fst snd];
    (split; [rewrite !elem_of_cons; tauto|]); intros c; (split; [|done]); cbn.
  all: Z.to_euclidean_division_equations; lia.
Qed.

Lemma sendDiscoveryProbe_more T t b s :
  t ∈ T -> sends_more T s (snd (sendDiscoveryProbe w probe t b s)).
Proof.
  intros Ht. unfold sendDiscoveryProbe.
  pose proof (sendPackets_more T t (packets probe) 0 false false s Ht packets_counted) as H.
  destruct (sendPackets _ _ _ _ _ _ s) as [[e|[sent failed]] s1]; [done|]. cbn [snd] in *.
  eapply sends_more_trans; [exact H|]. by apply sends_more_quiet; destruct sent, b.
Qed.

Lemma sendTargets_sound T ts b : forall s,
  (forall t, t ∈ ts -> t ∈ T) -> sound T s (sendTargets w uid nonce probe ts b s).
Proof.
  induction ts as [|t ts IH]; intros s Hsub; cbn [sendTargets]; [apply sound_none, sends_more_refl|].
  pose proof (select_sound T true s) as Hs.
  destruct (select w uid nonce true s) as [[a|e|] s1]; [done|done|].
  destruct Hs as [H1 _]. cbn [snd] in H1. eapply sound_after; [exact H1|].
  pose proof (sendDiscoveryProbe_more T t b s1 (Hsub t (list_elem_of_here _ _))) as H2.
  destruct (sendDiscoveryProbe w probe t b s1) as [err s2]. cbn [snd] in H2.
  eapply sound_after; [exact H2|].
  destruct (aborts w err s2); [apply sound_done, sends_more_refl|].
  apply IH. intros x Hx. apply Hsub. by right.
Qed.

Lemma sendStage_sound T ts b d s :
  (forall t, t ∈ ts -> t ∈ T) -> sound T s (sendStage w uid nonce probe ts b d s).
Proof.
  intros Hsub. unfold sendStage. case_decide; [apply sound_none, sends_more_refl|].
  pose proof (sendTargets_sound T ts b s Hsub) as Hs.
  destruct (sendTargets _ _ _ _ _ _ s) as [[a|e|] s1]; [done|done|].
  destruct Hs as [H1 _]. eapply sound_after; [exact H1|].
  destruct (d <=? 0); [apply sound_none, sends_more_refl|apply select_sound].
Qed.

Lemma broadcastRounds_sound T ts d u k : forall s,
  (forall t, t ∈ ts -> t ∈ T) -> sound T s (broadcastRounds w uid nonce k probe ts d u s).
Proof.
  induction k as [|k IH]; intros s Hsub; cbn [broadcastRounds]; [apply sound_none, sends_more_refl|].
  unfold readNow at 1. cbv beta zeta iota.
  destruct (negb _); [apply sound_none, sends_more_tick|].
  eapply sound_after; [apply sends_more_tick|].
  pose proof (sendStage_sound T ts true 0 (tickStep s) Hsub) as Hs.
  destruct (sendStage _ _ _ _ _ _ _ (tickStep s)) as [[a|e|] s1]; [done|done|].
  destruct Hs as [H1 _]. cbn [snd] in H1. eapply sound_after; [exact H1|].
  unfold readNow. eapply sound_after; [apply sends_more_tick|].
  pose proof (fun d => waitFor_sound T d (tickStep s1)) as Hw.
  match goal with |- context [waitFor _ _ _ ?x _] => specialize (Hw x);
    destruct (waitFor w uid nonce x (tickStep s1)) as [[a|e|] s2] end; [done|done|].
  destruct Hw as [H2 _]. cbn [snd] in H2. eapply sound_after; [exact H2|]. by apply IH.
Qed.

Lemma sweep_sound T ts : forall s,
  (forall t, t ∈ ts -> t ∈ T) -> sound T s (sweep w uid nonce probe ts s).
Proof.
  induction ts as [|t ts IH]; intros s Hsub; cbn [sweep]; [apply sound_none, sends_more_refl|].
  pose proof (select_sound T true s) as Hs.
  destruct (select w uid nonce true s) as [[a|e|] s1]; [done|done|].
  destruct Hs as [H1 _]. cbn [snd] in H1. eapply sound_after; [exact H1|].
  pose proof (select_sound T true s1) as Hs.
  destruct (select w uid nonce true s1) as [[a|e|] s2]; [done|done|].
  destruct Hs as [H2 _]. cbn [snd] in H2. eapply sound_after; [exact H2|].
  pose proof (sendDiscoveryProbe_more T t false s2 (Hsub t (list_elem_of_here _ _))) as H3.
  destruct (sendDiscoveryProbe w probe t false s2) as [err s3]. cbn [snd] in H3.
  eapply sound_after; [exact H3|].
  destruct (aborts w err s3); [apply sound_done, sends_more_refl|].
  apply IH. intros x Hx. apply Hsub. by right.
Qed.

(** ** The result *)

(** What the caller of the resolver may rely on. *)
Definition result_ok (r : ResolveResult) : Prop :=
  match IPAddress r with
  | Some ip => Resolved r = true /\ ErrorCode r = None /\ Method r <> m_not_found /\
               delivered (mkAddr ip lanPort)
  | None => Resolved r = false /\ ErrorCode r <> None /\ Method r = m_not_found
  end.
Definition run_ok (T : list UDPAddr) (s : sender) (r : ResolveResult * sender) : Prop :=
  sends_more T s (snd r) /\ result_ok (fst r).

Lemma delivered_port a : delivered a -> a = mkAddr (addrIP a) lanPort.
Proof. by intros (? & ? & ? & ? & ? & _ & _ & ->). Qed.

Lemma run_after T s s' r : sends_more T s s' -> run_ok T s' r -> run_ok T s r.
Proof. intros H [H1 H2]. split; [by eapply sends_more_trans|done]. Qed.

(** One stage of [resolveWithPlan]. *)
Lemma stage_ok T o started m s0 (x : selected * sender) k :
  m <> m_not_found -> sound T s0 x -> (forall s, run_ok T s (k s)) ->
  run_ok T s0 (let '(r, s) := x in settle w uid nonce o started m r s k).
Proof.
  intros Hm [H1 H2] Hk. destruct x as [[a|e|] s]; cbn [fst snd settle] in *.
  - split; [done|]. specialize (H2 a eq_refl). cbn.
    split_and!; [done|done|done|]. by rewrite <- delivered_port.
  - by split.
  - by eapply run_after.
Qed.

Lemma resolve_run_ok o plan deadline started :
  run_ok (planned plan) (mkSender 0 [] counters_zero)
    (resolveWithPlan w uid nonce o plan deadline started).
Proof.
  unfold resolveWithPlan.
  assert (forall t, t ∈ cached plan \/ t ∈ broadcasts plan \/ t ∈ candidates plan \/ t ∈ unicasts plan ->
            t ∈ planned plan) as HT by (intros t; unfold planned; rewrite !elem_of_app; tauto).
  set (T := planned plan) in *. cbv zeta.
  eapply stage_ok; [done|apply sendStage_sound; intros; apply HT; tauto|]. intros s1.
  unfold readNow at 1. cbv beta zeta iota. eapply run_after; [apply sends_more_tick|].
  eapply stage_ok; [done|apply broadcastRounds_sound; intros; apply HT; tauto|]. intros s2.
  eapply stage_ok; [done|apply sendStage_sound; intros; apply HT; tauto|]. intros s3.
  eapply stage_ok; [done|apply sweep_sound; intros; apply HT; tauto|]. intros s4.
  unfold readNow at 1. cbv beta zeta iota. eapply run_after; [apply sends_more_tick|].
  eapply stage_ok; [done|apply waitFor_sound|]. intros s5.
  unfold readNow. cbv beta zeta iota. eapply run_after; [apply sends_more_tick|].
  unfold finish. split; [|by cbn].
  cbn [snd]. destruct (_ <? deadline); [|apply sends_more_refl]. apply sends_more_quiet; cbn; done || lia.
Qed.
End Run.

(** C21. The resolver reports an address only if it is the source of a datagram that was
    read and accepted, under the stage that was running; otherwise it reports an
    error code and no address.  All it ever sends are the three probe packets, to
    targets of the plan, and its counters say how many went out and how many failed. *)
Theorem resolve_sound (w : world) (uid nonce : bytes) (o : ResolveOptions) (plan : discoveryPlan)
    (deadline started : Z) :
  let '(r, s) := resolveWithPlan w uid nonce o plan deadline started in
  match IPAddress r with
  | Some ip => Resolved r = true /\ ErrorCode r = None /\ Method r <> m_not_found /\
      exists n pre raw post, arrived w n = pre ++ mkRx (RxDatagram (Some ip) raw) false :: post /\
        accepts uid nonce (mkRx (RxDatagram (Some ip) raw) false) = true
  | None => Resolved r = false /\ ErrorCode r <> None /\ Method r = m_not_found
  end /\
  Forall (legit uid nonce (planned plan)) (sends s) /\
  u64 (tally (sctr s)) = u64 (sent_ok (sends s)) /\
  u64 (sendErrors (sctr s)) = u64 (len (sends s) - sent_ok (sends s)).
Proof.
  pose proof (resolve_run_ok w uid nonce o plan deadline started) as H.
  destruct (resolveWithPlan w uid nonce o plan deadline started) as [r s].
  destruct H as [[_ (l & E & Hl & Ht & He)] Hr]. cbn [fst snd sends app sctr] in *. subst l.
  split_and!; [|done|exact Ht|exact He].
  unfold result_ok in Hr. destruct (IPAddress r) as [ip|]; [|done].
  destruct Hr as (H1 & H2 & H3 & (n & pre & ip' & raw & post & E & Ha & [= <-])).
  split_and!; [done|done|done|]. by exists n, pre, raw, post.
Qed.

(** ** A silent network *)

Section Silent.
Variables (w : world) (uid nonce : bytes).
Abbreviation probe := (newDiscoveryProbe uid nonce).
Hypothesis Hsilent : forall n, fst (reader w uid nonce n) = None.

Definition attempts (s : sender) : list (UDPAddr * bytes) := map fst (sends s).
(** One target's exchange. *)
Definition exchange (t : UDPAddr) : list (UDPAddr * bytes) :=
  [(t, search1 probe); (t, search2 probe); (t, knock2 probe)].

(** The run [r] from [s] finds nothing, takes at most [c] steps and attempts [l]. *)
Definition quietly (s : sender) (c : nat) (l : list (UDPAddr * bytes)) (r : selected * sender) : Prop :=
  fst r = sNone /\ (step (snd r) <= step s + c)%nat /\ attempts (snd r) = attempts s ++ l.

Lemma ctxErr_none n : (n < doneStep w)%nat -> ctxErr w n = None.
Proof. intros. unfold ctxErr. by rewrite decide_False by lia. Qed.

Lemma select_quiet b s : (step s < doneStep w)%nat -> select w uid nonce b s = (sNone, tickStep s).
Proof. intros. unfold select. rewrite Hsilent, ctxErr_none by done. by destruct b. Qed.

Lemma sendDiscoveryProbe_quiet t b s : (step s + 4 < doneStep w)%nat ->
  exists err s', sendDiscoveryProbe w probe t b s = (err, s') /\ step s' = (step s + 4)%nat /\
    attempts s' = attempts s ++ exchange t /\ aborts w err s' = None.
Proof.
  intros Hd. unfold sendDiscoveryProbe, packets. cbn [sendPackets Nat.eqb].
  unfold pause. cbn [tickStep upd step]. rewrite !ctxErr_none by lia. cbn [tickStep upd step].
  eexists _, _. split; [reflexivity|]. cbn [tickStep upd step sends].
  split; [lia|]. split.
  - unfold attempts, exchange. cbn [upd sends tickStep]. by rewrite !map_app, <- !app_assoc.
  - unfold aborts. cbn. rewrite ctxErr_none by lia. by destruct (_ || _).
Qed.

Lemma quietly_then s c1 l1 s1 c l r :
  (step s1 <= step s + c1)%nat -> attempts s1 = attempts s ++ l1 -> quietly s1 c l r ->
  quietly s (c1 + c) (l1 ++ l) r.
Proof.
  intros Hs1 Ha1 (H1 & H2 & H3). split_and!; [done|lia|]. by rewrite H3, Ha1, app_assoc.
Qed.
Lemma quietly_nil s : quietly s 0 [] (sNone, s).
Proof. split_and!; [done|cbn; lia|]. cbn. by rewrite app_nil_r. Qed.
Lemma quietly_le s c c' l r : (c <= c')%nat -> quietly s c l r -> quietly s c' l r.
Proof. intros ? (? & ? & ?). split_and!; [done|lia|done]. Qed.
Lemma quietly_inv s c l r : quietly s c l r ->
  exists s', r = (sNone, s') /\ (step s' <= step s + c)%nat /\ attempts s' = attempts s ++ l.
Proof. intros (H1 & H2 & H3). destruct r as [r s']. cbn in *. subst r. by exists s'. Qed.

Lemma sendTargets_quiet b ts : forall s, (step s + 5 * length ts < doneStep w)%nat ->
  quietly s (5 * length ts) (flat_map exchange ts) (sendTargets w uid nonce probe ts b s).
Proof.
  induction ts as [|t ts IH]; intros s Hd; cbn [sendTargets flat_map length] in *; [apply quietly_nil|].
  rewrite select_quiet by lia.
  destruct (sendDiscoveryProbe_quiet t b (tickStep s)) as (err & s' & -> & Hs & Ha & ->); [cbn; lia|].
  cbn in Hs. replace (5 * S (length ts))%nat with (5 + 5 * length ts)%nat by lia.
  apply (quietly_then _ 5 _ s'); [lia|by rewrite Ha|]. apply IH. lia.
Qed.

Lemma sendStage_quiet ts b d s : (step s + 5 * length ts + 1 < doneStep w)%nat ->
  quietly s (5 * length ts + 1) (flat_map exchange ts) (sendStage w uid nonce probe ts b d s).
Proof.
  intros Hd. unfold sendStage. case_decide as E.
  { subst ts. eapply quietly_le; [|apply quietly_nil]. lia. }
  destruct (quietly_inv _ _ _ _ (sendTargets_quiet b ts s ltac:(lia))) as (s1 & -> & Hs & Ha).
  rewrite <- (app_nil_r (flat_map _ _)).
  apply (quietly_then _ _ _ s1); [done|done|].
  destruct (d <=? 0); [eapply quietly_le; [|apply quietly_nil]; lia|].
  rewrite select_quiet by lia. split_and!; [done|cbn; lia|]. cbn. by rewrite app_nil_r.
Qed.

Lemma waitFor_quiet d s : (step s < doneStep w)%nat -> waitFor w uid nonce d s = (sNone, tickStep s).
Proof. intros. unfold waitFor. by destruct (d <=? 0); apply select_quiet. Qed.

Lemma sweep_quiet ts : forall s, (step s + 6 * length ts < doneStep w)%nat ->
  quietly s (6 * length ts) (flat_map exchange ts) (sweep w uid nonce probe ts s).
Proof.
  induction ts as [|t ts IH]; intros s Hd; cbn [sweep flat_map length] in *; [apply quietly_nil|].
  rewrite select_quiet by lia. rewrite select_quiet by (cbn; lia).
  destruct (sendDiscoveryProbe_quiet t false (tickStep (tickStep s))) as (err & s' & -> & Hs & Ha & ->);
    [cbn; lia|].
  cbn in Hs. replace (6 * S (length ts))%nat with (6 + 6 * length ts)%nat by lia.
  apply (quietly_then _ 6 _ s'); [lia|by rewrite Ha|]. apply IH. lia.
Qed.

(** Rounds of broadcasts: as many as the clock allows, at most [k]. *)
Lemma broadcastRounds_quiet ts d u k : forall s,
  (step s + k * (5 * length ts + 4) + 1 < doneStep w)%nat ->
  exists n, (n <= k)%nat /\ ((forall m, now w m < u) -> n = k) /\
    quietly s (k * (5 * length ts + 4) + 1) (concat (replicate n (flat_map exchange ts)))
      (broadcastRounds w uid nonce k probe ts d u s).
Proof.
  induction k as [|k IH]; intros s Hd; cbn [broadcastRounds].
  { exists 0%nat. split_and!; [lia|done|]. eapply quietly_le; [|apply quietly_nil]. lia. }
  unfold readNow at 1. cbv beta zeta iota.
  destruct (Z.ltb_spec (now w (step s)) u) as [Hlt|Hge]; cbn [negb].
  2:{ exists 0%nat. split_and!; [lia|intros Hall; specialize (Hall (step s)); lia|].
      split_and!; [done|cbn; lia|]. cbn. by rewrite app_nil_r. }
  destruct (quietly_inv _ _ _ _ (sendStage_quiet ts true 0 (tickStep s) ltac:(cbn [tickStep upd step]; lia)))
    as (s1 & -> & Hs & Ha).
  cbn in Hs. unfold readNow. cbv beta zeta iota. rewrite waitFor_quiet by (cbn; lia).
  destruct (IH (tickStep (tickStep s1))) as (n & Hn & Hfull & Hq); [cbn; lia|].
  exists (S n). split_and!; [lia|intros Hall; f_equal; auto|].
  cbn [replicate concat].
  replace (S k * (5 * length ts + 4) + 1)%nat
    with ((5 * length ts + 4) + (k * (5 * length ts + 4) + 1))%nat by lia.
  apply (quietly_then _ _ _ (tickStep (tickStep s1))); [cbn; lia|exact Ha|done].
Qed.
End Silent.

(** How many steps the resolver takes at most on a silent network. *)
Definition sweep_steps (plan : discoveryPlan) : nat :=
  5 * length (cached plan) + 15 * length (broadcasts plan) + 5 * length (candidates plan) +
  6 * length (unicasts plan) + 30.

(** If nothing answers before the deadline, every target has been asked: the cached
    address, then one to three rounds of broadcasts (three if the broadcast phase
    does not run out of time), then the candidates, then the whole sweep, each target
    with the full exchange of three packets, in this order; and the result is an
    error. *)
Theorem silent_network_asks_everyone (w : world) (uid nonce : bytes) (o : ResolveOptions)
    (plan : discoveryPlan) (deadline started : Z)
    (Hsilent : forall n, fst (reader w uid nonce n) = None)
    (Htime : (sweep_steps plan < doneStep w)%nat) :
  let '(r, s) := resolveWithPlan w uid nonce o plan deadline started in
  Resolved r = false /\
  exists rounds, (rounds <= 3)%nat /\
    ((forall m n, now w m < now w n + BroadcastDuration o) -> rounds = 3%nat) /\
    attempts s =
      flat_map (exchange uid nonce)
        (cached plan ++ concat (replicate rounds (broadcasts plan)) ++ candidates plan ++ unicasts plan).
Proof.
  unfold resolveWithPlan, sweep_steps in *. cbv zeta. set (s0 := mkSender 0 [] counters_zero).
  destruct (quietly_inv _ _ _ _ (sendStage_quiet w uid nonce Hsilent (cached plan) false
    defaultCandidateResponseWait s0 ltac:(cbn; lia))) as (s1 & -> & Hs1 & Ha1).
  cbn [settle]. unfold readNow at 1. cbv beta zeta iota. cbn [step s0] in Hs1.
  destruct (broadcastRounds_quiet w uid nonce Hsilent (broadcasts plan) (BroadcastDuration o)
    (now w (step s1) + BroadcastDuration o) 3 (tickStep s1) ltac:(cbn; lia)) as (n & Hn & Hfull & Hq).
  apply quietly_inv in Hq as (s2 & -> & Hs2 & Ha2). cbn [settle].
  change (step (tickStep s1)) with (S (step s1)) in Hs2.
  destruct (quietly_inv _ _ _ _ (sendStage_quiet w uid nonce Hsilent (candidates plan) false
    defaultCandidateResponseWait s2 ltac:(lia))) as (s3 & -> & Hs3 & Ha3).
  cbn [settle].
  destruct (quietly_inv _ _ _ _ (sweep_quiet w uid nonce Hsilent (unicasts plan) s3 ltac:(lia)))
    as (s4 & -> & Hs4 & Ha4).
  cbn [settle]. unfold readNow at 1. cbv beta zeta iota.
  rewrite waitFor_quiet by (done || cbn; lia). cbn [settle]. unfold readNow, finish. cbv beta zeta iota.
  split; [done|]. exists n. split_and!; [done|intros Hc; apply Hfull; intros; apply Hc|].
  transitivity (attempts s4); [by destruct (_ <? deadline)|].
  rewrite Ha4, Ha3, Ha2. change (attempts (tickStep s1)) with (attempts s1). rewrite Ha1.
  rewrite !flat_map_app, <- !app_assoc. cbn [attempts s0 sends map app]. f_equal. f_equal.
  clear. induction n as [|n IH]; [done|]. cbn [replicate concat]. by rewrite flat_map_app, IH.
Qed.

Definition quiet_world : world :=
  mkWorld (fun _ => 0) 1000 DeadlineExceeded (fun _ => true) (fun _ => true) (fun _ => []).
Definition quiet_plan : discoveryPlan :=
  mkPlan [mkAddr [10;0;0;2] lanPort] [mkAddr [255;255;255;255] lanPort] [] [mkAddr [10;0;0;1] lanPort].

Lemma silent_network_asks_everyone_witness :
  Resolved (fst (resolveWithPlan quiet_world sample_uid sample_nonce sample_options quiet_plan 5 0)) = false.
Proof.
  pose proof (silent_network_asks_everyone quiet_world sample_uid sample_nonce sample_options quiet_plan 5 0
    ltac:(intros; reflexivity) ltac:(apply Nat.ltb_lt; reflexivity)) as H.
  destruct (resolveWithPlan quiet_world sample_uid sample_nonce sample_options quiet_plan 5 0) as [r s].
  apply H.
Defined.
