(* ===== verification/Session.v ===== *)
(** A camera session, [client.go], [handshake.go], [bootstrap.go] and the
    maintenance loop of [recv.go]: the URL options, sending, the login handshake, the
    bootstrap exchange and the periodic receive report. *)

From S2P Require Import Prelude Crypto Wire Media Stats Ack Assembler Discovery.

(** ** Options of the URL *)

Inductive streamCtrlVariant := streamCtrlLegacy | streamCtrlStandard | streamCtrlNone.

Definition parseStreamCtrlVariant (value : bytes) : option streamCtrlVariant :=
  if decide (value = []) then Some streamCtrlLegacy
  else if decide (value = str "legacy") then Some streamCtrlLegacy
  else if decide (value = str "standard") then Some streamCtrlStandard
  else if decide (value = str "none") then Some streamCtrlNone
  else None.

(** [strconv.ParseUint(value, 10, bits)] *)
Fixpoint digits (s : bytes) (n : Z) : option Z :=
  match s with
  | [] => Some n
  | c :: s => if isDigit c then digits s (n * 10 + (c - 48)) else None
  end.
Definition ParseUint (value : bytes) (bits : Z) : option Z :=
  if decide (value = []) then None else
  n ← digits value 0;
  if n <? 2 ^ bits then Some n else None.

Definition parseStreamCtrlQuality (value quality : bytes) : option Z :=
  if decide (value = []) then Some (if decide (quality = str "sd") then 2 else 1)
  else ParseUint value 8.

(** A duration in nanoseconds. *)
Definition parseHDProbeWait (value : bytes) : option Z :=
  if decide (value = [] \/ value = str "0") then Some 0 else
  ms ← ParseUint value 16;
  if 60000 <? ms then None else Some (ms * millisecond).

(** [strconv.ParseBool], whose error the source drops. *)
Definition boolQuery (v : bytes) : bool :=
  existsb (fun t => bool_decide (v = t))
    [str "1"; str "t"; str "T"; str "true"; str "TRUE"; str "True"].

Record options := mkOpts {
  audio : bool;
  quality : bytes;
  sendDelayCtrl : bool;
  variant : streamCtrlVariant;
  streamCtrlQuality : Z;
  hdProbeWait : Z;
}.

Inductive dialError :=
| uidRequired | uidLength20 (got : Z) | badVariant | badQuality | badProbeWait.

(** The query part of [Dial]; [get] is [q.Get]. *)
Definition parseOptions (get : bytes -> bytes) : dialError + options :=
  let uid := get (str "uid") in
  if decide (uid = []) then inl uidRequired
  else if negb (len uid =? 20) then inl (uidLength20 (len uid))
  else
    let q := if decide (get (str "quality") = []) then str "hd" else get (str "quality") in
    match parseStreamCtrlVariant (get (str "streamctrl_variant")) with
    | None => inl badVariant
    | Some v =>
        match parseStreamCtrlQuality (get (str "streamctrl_quality")) q with
        | None => inl badQuality
        | Some sq =>
            match parseHDProbeWait (get (str "hd_probe_wait_ms")) with
            | None => inl badProbeWait
            | Some w => inr (mkOpts (boolQuery (get (str "audio"))) q
                               (boolQuery (get (str "send_delay_ctrl"))) v sq w)
            end
        end
    end.

(** ** Sending

    [sent] are the datagrams handed to the socket and whether the write succeeded;
    the outcome of a write depends on how many came before it. *)

Record session := mkSession {
  nonce : bytes;
  kseq : Z;
  icounter : Z;
  camPort : Z;
  sent : list (bytes * bool);
  core : client;
}.
#[export] Instance eta_session : Eta session := fun s =>
  mkSession (nonce s) (kseq s) (icounter s) (camPort s) (sent s) (core s).

Section Sending.
Variable writeOK : nat -> bool.

Definition send (p : bytes) (s : session) : bool * session :=
  let ok := writeOK (length (sent s)) in
  (ok, s <| sent := sent s ++ [(TransCodePartial [] p, ok)] |>).

Definition sendInner (body : bytes) (s : session) : bool * session :=
  let out := buildOuter (nonce s) (kseq s) body 0x00 0x00 flagsSession in
  send out (s <| kseq := u16 (kseq s + 1) |>).

(** ** The handshake

    What [recvOne] returns while a deadline lasts: an error, or the source's
    address and port and the datagram. *)

Inductive received1 := recvError | recvPacket (fromCam : bool) (port : Z) (raw : bytes).

(** [recvOne]: the decrypted packet; the camera's port follows its datagrams. *)
Definition recvOne (r : received1) (s : session) : option bytes * session :=
  match r with
  | recvError => (None, s)
  | recvPacket fromCam port raw =>
      let s := if negb (camPort s =? port) && fromCam then s <| camPort := port |> else s in
      (Some (ReverseTransCodePartial [] raw), s)
  end.

(** A receive loop: until [accept]ed, or the deadline, the end of the list. *)
Fixpoint recvUntil (accept : bytes -> bool) (rs : list received1) (s : session) : bool * session :=
  match rs with
  | [] => (false, s)
  | r :: rs =>
      let '(pkt, s) := recvOne r s in
      match pkt with
      | Some pkt => if accept pkt then (true, s) else recvUntil accept rs s
      | None => recvUntil accept rs s
      end
  end.

Definition hasType (mt : Z) (pkt : bytes) : bool := (12 <=? len pkt) && (at16 pkt 8 =? mt).
Definition isLoginResp (pkt : bytes) : bool :=
  (0x1C + 0x1A <=? len pkt) && (at16 pkt 8 =? msgSessionD2C) &&
  (at_ pkt (0x1C + 1) =? 0x21) && (at_ pkt (0x1C + 0x18) =? 0).

Inductive handshakeError := sendFailed | loginTimeout.

(** [r1], [r2], [r3] are what the three loops receive; [seed] the random serial,
    its first byte made even. *)
Definition handshake (uid : bytes) (random : Z) (r1 r2 r3 : list received1) (s : session)
  : option handshakeError * session :=
  let '(ok, s) := send (buildLANSearch3 uid (nonce s) 1) s in
  if negb ok then (Some sendFailed, s) else
  let '(_, s) := recvUntil (hasType msgLANSearchR) r1 s in
  let '(_, s) := send (buildLANSearch3 uid (nonce s) 2) s in
  let '(_, s) := send (buildKnock2 uid (nonce s)) s in
  let '(_, s) := recvUntil (hasType msgKnockRR2) r2 s in
  let seed := Z.land random 0xFFFFFFFE in
  let '(loginA, loginB) := buildLoginPair seed in
  let '(ok, s) := send (buildOuter (nonce s) 0 loginA 0x00 0x00 flagsSession) s in
  if negb ok then (Some sendFailed, s) else
  let '(ok, s) := send (buildOuter (nonce s) 1 loginB 0x00 0x00 flagsSession) s in
  if negb ok then (Some sendFailed, s) else
  let '(found, s) := recvUntil isLoginResp r3 s in
  (if found then None else Some loginTimeout, s).

(** ** The bootstrap *)

Record bootstrapCmd := mkCmd { channelFamily : Z; cmdPayload : bytes }.

(** The SETSTREAMCTRL body [bootstrap] selects. *)
Definition streamBody (o : options) : bytes :=
  match variant o with
  | streamCtrlNone => []
  | streamCtrlStandard => ioctlBody ioctlSetStreamCtrlReq (blit 4 [streamCtrlQuality o] (zeros 8))
  | streamCtrlLegacy =>
      blit 4 [streamCtrlQuality o] (if decide (quality o = str "sd") then qualitySD else qualityHD)
  end.

Definition bootstrapIOCtrls (o : options) (stream : bytes) : list bootstrapCmd :=
  (if decide (stream = []) then []
   else [mkCmd (match variant o with streamCtrlStandard => 0x7000 | _ => 0x1000 end) stream]) ++
  [mkCmd 0x7000 (ioctlBody12 ioctlGetVideoModeReq);
   mkCmd 0x7000 (ioctlBody12 ioctlGetStreamCtrlReq);
   mkCmd 0x7000 (ioctlBody12 ioctlGetAudioOutFormatReq)] ++
  (if sendDelayCtrl o then [mkCmd 0x7000 (ioctlBody ioctlInnerSendDataDelay [0; 0])] else []) ++
  [mkCmd 0x7000 (ioctlBody12 ioctlStart)] ++
  (if audio o then [mkCmd 0x7000 (blit 4 [0x01] (ioctlBody12 ioctlAudioOn))] else []).

(** One datagram of an ack window: the highest media position and the client
    after it; [None] is a panic. *)
Definition bootstrapDatagram (cfg : config) (raw : bytes) (avMax : Z) (c : client)
  : option (Z * client) :=
  let pkt := ReverseTransCodePartial [] raw in
  if len pkt <? 0x1C + 20 then Some (avMax, c) else
  mt ← rd16 pkt 8;
  if negb (mt =? msgSessionD2C) then Some (avMax, c) else
  inner ← sub pkt 0x1C (len pkt);
  _ ← (if verbose cfg then ioctlResponseBody inner else Some None);
  x0 ← rd inner 0;
  if negb (x0 =? 0x0c) then Some (avMax, c) else
  control ← reliableControlSequence inner;
  c ← (match control with
       | Some seq_ => '(a, st) ← acceptReliableControl seq_ (ack c) (stats c);
                      Some (c <| ack := a |> <| stats := st |>)
       | None => Some c
       end);
  media ← decodeBootstrapMedia inner;
  Some (match media with
        | Some m => if avMax <? subWire m then subWire m else avMax
        | None => avMax
        end, c).

(** The read loop of one window, until its deadline. *)
Fixpoint bootstrapReceive (cfg : config) (raws : list bytes) (avMax : Z) (c : client)
  : option (Z * client) :=
  match raws with
  | [] => Some (avMax, c)
  | raw :: raws =>
      '(avMax, c) ← bootstrapDatagram cfg raw avMax c;
      bootstrapReceive cfg raws avMax c
  end.

Inductive bootstrapError := writeFailed | noAVChannel (got : Z).

(** A report for the given range, under the next ordinal. *)
Definition sendRangeACK (base high : Z) (tick : Z) (s : session) : bool * session :=
  let '(a, st) := nextTransportACKForRange (ack (core s)) (icounter s) base high [] tick in
  let '(ok, s) := sendInner (marshal a) (s <| core := (core s) <| ack := st |> |>) in
  if ok : bool then (true, s <| icounter := u16 (icounter s + 1) |>) else (false, s).

(** What the clock and the network decide: the two tick values by the number of
    datagrams sent, and the datagrams of each ack window. *)
Record bootstrapEnv := mkBootEnv {
  tick32 : nat -> Z;
  tick16 : nat -> Z;
  inbox : nat -> list bytes;
}.

Fixpoint runCommands (cfg : config) (env : bootstrapEnv) (i : nat) (cmds : list bootstrapCmd) (avMax : Z)
    (s : session) : option (bool * Z * session) :=
  match cmds with
  | [] => Some (true, avMax, s)
  | cm :: cmds =>
      let '(ok, s) := sendInner
        (innerData (icounter s) (channelFamily cm) (u16 (Z.of_nat i)) (cmdPayload cm)) s in
      if negb ok then Some (false, avMax, s) else
      let s := s <| icounter := u16 (icounter s + 1) |> in
      '(avMax, c) ← bootstrapReceive cfg (inbox env i) avMax (core s);
      let '(ok, s) := sendRangeACK 0xFFFF 0xFFFF (tick16 env (length (sent s))) (s <| core := c |>) in
      if negb ok then Some (false, avMax, s) else runCommands cfg env (S i) cmds avMax s
  end.

Definition bootstrap (cfg : config) (o : options) (env : bootstrapEnv) (s : session)
  : option (option bootstrapError * session) :=
  let '(ok, s) := sendInner (innerTimingFeedback 0 0x1F (tick32 env (length (sent s))) 4) s in
  if negb ok then Some (Some writeFailed, s) else
  '(a, st) ← acceptReliableControl 1 (ack (core s)) (stats (core s));
  let s := s <| core := (core s) <| ack := a |> <| stats := st |> |> in
  let '(ok, s) := sendRangeACK 0xFFFF 0xFFFF (tick16 env (length (sent s))) s in
  if negb ok then Some (Some writeFailed, s) else
  let '(ok, s) := sendInner (innerTimingProbe (icounter s) (tick32 env (length (sent s)))) s in
  if negb ok then Some (Some writeFailed, s) else
  let s := s <| icounter := u16 (icounter s + 1) |> in
  '(ok, avMax, s) ← runCommands cfg env 0 (bootstrapIOCtrls o (streamBody o)) 0x3FFF s;
  if negb ok then Some (Some writeFailed, s) else
  if avMax <? 0x3FFF then Some (Some (noAVChannel avMax), s) else
  let '(ok, s) := sendRangeACK 0x3FFF avMax (tick16 env (length (sent s))) s in
  if negb ok then Some (Some writeFailed, s) else
  Some (None, s <| core := beginStream avMax (core s) |>).

(** ** The receive report of the maintenance loop *)

(** One [ack.C] tick. *)
Definition ackTick (tick : Z) (s : session) : option session :=
  '(a, window, st) ← nextTransportACK (ack (core s)) (icounter s) tick;
  let '(ok, s) := sendInner (marshal a) (s <| core := (core s) <| ack := st |> |>) in
  let s := if ok : bool
           then s <| core := (core s) <| ack := markTransportACKSent window (ack (core s)) |> |> else s in
  let s := s <| icounter := u16 (icounter s + 1) |> in
  Some (s <| core := (core s) <| stats :=
    let st := Store Ctr.ackSendCount (SendCount a) (Store Ctr.ackNACKCount (len (Missing a))
      (Store Ctr.ackCurrentLow16 (AVHigh a) (Store Ctr.ackPrevLow16 (AVBase a) (stats (core s))))) in
    if ok then Add Ctr.ackSent 1 st else st |> |>).

(** One [alive.C] tick. *)
Definition aliveTick (s : session) : session := snd (send (buildAliveC2D (nonce s)) s).
End Sending.
