(* ===== verification/SessionFacts.v ===== *)
(** Properties of a session: the URL options, the login handshake, the bootstrap
    exchange and the periodic receive report. *)

From S2P Require Import Prelude Crypto Wire Media Classify Stats Ack AckFacts Assembler Delivery Discovery DiscoveryFacts Targets Session.

(** ** Options *)

Lemma digits_nonneg s : forall n m, digits s n = Some m -> 0 <= n -> 0 <= m.
Proof.
  induction s as [|c s IH]; intros n m; cbn [digits]; [by intros [= ->]|].
  destruct (isDigit c) eqn:E; [|done]. intros H Hn. apply IH in H; [done|].
  unfold isDigit in E. rewrite andb_true_iff, !Z.leb_le in E. lia.
Qed.

Lemma ParseUint_bounds value bits n : ParseUint value bits = Some n -> 0 <= n < 2 ^ bits.
Proof.
  unfold ParseUint. case_decide; [done|]. intros (m & Hm & Hb)%bind_Some_inv.
  apply digits_nonneg in Hm; [|done]. destruct (Z.ltb_spec m (2 ^ bits)); [|done].
  injection Hb as <-. lia.
Qed.

(** Decimal notation, as a user writes it. *)
Fixpoint decimal (ds : list Z) (n : Z) : Z :=
  match ds with [] => n | d :: ds => decimal ds (n * 10 + d) end.

Lemma digits_decimal ds : forall n,
  Forall (fun d => 0 <= d <= 9) ds -> digits (map (fun d => d + 48) ds) n = Some (decimal ds n).
Proof.
  induction ds as [|d ds IH]; intros n Hd; cbn [map digits decimal]; [done|].
  apply Forall_cons in Hd as [Hd Hds]. unfold isDigit.
  rewrite (proj2 (Z.leb_le 48 (d + 48))), (proj2 (Z.leb_le (d + 48) 57)) by lia. cbn [andb].
  rewrite IH by done. do 2 f_equal. lia.
Qed.

(** Options that parse are within their ranges; every quality byte and every wait
    of up to a minute that a user can write in decimal is accepted, with the value it
    denotes, and nothing larger. *)
Theorem options_in_range (get : bytes -> bytes) (ds : list Z)
    (Hds : ds <> [] /\ Forall (fun d => 0 <= d <= 9) ds) :
  (forall o, parseOptions get = inr o ->
     len (get (str "uid")) = 20 /\ is_byte (streamCtrlQuality o) /\
     0 <= hdProbeWait o <= 60000 * millisecond) /\
  (parseStreamCtrlQuality (map (fun d => d + 48) ds) (str "hd") =
     if decimal ds 0 <? 256 then Some (decimal ds 0) else None) /\
  (parseHDProbeWait (map (fun d => d + 48) ds) =
     if decimal ds 0 <=? 60000 then Some (decimal ds 0 * millisecond) else None).
Proof.
  destruct Hds as [Hne Hds]. split; [|split].
  - intros o. unfold parseOptions. case_decide; [done|].
    destruct (Z.eqb_spec (len (get (str "uid"))) 20); cbn [negb]; [|done].
    destruct (parseStreamCtrlVariant _); [|done].
    destruct (parseStreamCtrlQuality _ _) as [sq|] eqn:Eq; [|done].
    destruct (parseHDProbeWait _) as [w|] eqn:Ew; [|done]. intros [= <-]. cbn.
    split_and!; [done|..].
    + unfold parseStreamCtrlQuality in Eq. case_decide; [|by apply ParseUint_bounds in Eq].
      injection Eq as <-. case_decide; ints.
    + unfold parseHDProbeWait in Ew. case_decide; [injection Ew as <-; unfold millisecond; lia|].
      apply bind_Some_inv in Ew as (ms & Hms & Ew). apply ParseUint_bounds in Hms.
      destruct (Z.ltb_spec 60000 ms); [done|]. injection Ew as <-. unfold millisecond. lia.
    + unfold parseHDProbeWait in Ew. case_decide; [injection Ew as <-; unfold millisecond; lia|].
      apply bind_Some_inv in Ew as (ms & Hms & Ew). apply ParseUint_bounds in Hms.
      destruct (Z.ltb_spec 60000 ms); [done|]. injection Ew as <-. unfold millisecond. lia.
  - unfold parseStreamCtrlQuality, ParseUint.
    rewrite !decide_False by (by destruct ds). rewrite digits_decimal by done. done.
  - unfold parseHDProbeWait, ParseUint.
    assert (Hnil : map (fun d => d + 48) ds <> []) by (by destruct ds).
    assert (0 <= decimal ds 0) as Hpos by (eapply digits_nonneg; [by apply digits_decimal|done]).
    case_decide as Hz.
    + destruct Hz as [?|Hz]; [done|]. destruct ds as [|d [|]]; try done.
      cbn in Hz. injection Hz as Hz. assert (d = 0) as -> by lia. done.
    + rewrite decide_False by done. rewrite digits_decimal by done. cbn [mbind option_bind].
      change (2 ^ 16) with 65536.
      destruct (Z.leb_spec (decimal ds 0) 60000) as [Hle|Hgt].
      * rewrite (proj2 (Z.ltb_lt _ _)) by lia. cbn [mbind option_bind].
        by rewrite (proj2 (Z.ltb_ge _ _)) by lia.
      * destruct (_ <? 65536); [|done]. cbn [mbind option_bind]. by rewrite (proj2 (Z.ltb_lt _ _)) by lia.
Qed.

Lemma options_in_range_witness :
  parseStreamCtrlQuality (str "255") (str "hd") = Some 255 /\
  parseHDProbeWait (str "60001") = None.
Proof.
  split.
  - apply (options_in_range (fun _ => []) [2; 5; 5]). split; [done|repeat constructor; lia].
  - apply (options_in_range (fun _ => []) [6; 0; 0; 0; 1]). split; [done|repeat constructor; lia].
Defined.

(** ** The handshake *)

Definition answers (accept : bytes -> bool) (r : received1) : bool :=
  match r with
  | recvPacket _ _ raw => accept (ReverseTransCodePartial [] raw)
  | recvError => false
  end.

(** What receiving leaves alone. *)
Definition only_port (s s' : session) : Prop := s' = s <| camPort := camPort s' |>.

Lemma recvUntil_spec accept rs : forall s,
  exists s', recvUntil accept rs s = (existsb (answers accept) rs, s') /\ only_port s s'.
Proof.
  induction rs as [|r rs IH]; intros s; cbn [recvUntil existsb].
  { exists s. split; [done|]. unfold only_port. by destruct s. }
  destruct (recvOne r s) as [pkt s1] eqn:E.
  assert (only_port s s1 /\ match pkt with Some p => accept p = answers accept r
                                       | None => answers accept r = false end) as [Hp Ha].
  { unfold recvOne in E. destruct r as [|fromCam port raw]; injection E as <- <-.
    - split; [unfold only_port; by destruct s|done].
    - split; [|done]. unfold only_port. destruct (_ && _); by destruct s. }
  assert (forall s', only_port s1 s' -> only_port s s') as Htrans.
  { intros s' ->. rewrite Hp. unfold only_port. done. }
  destruct pkt as [p|].
  - rewrite Ha. destruct (answers accept r); [by exists s1|].
    destruct (IH s1) as (s' & -> & H'). exists s'. eauto.
  - rewrite Ha. destruct (IH s1) as (s' & -> & H'). exists s'. eauto.
Qed.

(** C23. The handshake succeeds exactly when the first probe and the two logins could be
    written and a LOGIN_RESP arrived in time; whether the camera answered the probes
    does not matter.  A successful handshake has sent the probes and the login pair
    in this order, and the pair's serials are an even number and its successor. *)
Theorem handshake_outcome (writeOK : nat -> bool) (uid : bytes) (random : Z)
    (r1 r2 r3 : list received1) (s : session) (Hrandom : is_u32 random) :
  let '(err, s') := handshake writeOK uid random r1 r2 r3 s in
  let n := length (sent s) in
  let seed := Z.land random 0xFFFFFFFE in
  (err = None <-> writeOK n = true /\ writeOK (n + 3)%nat = true /\ writeOK (n + 4)%nat = true /\
                  existsb (answers isLoginResp) r3 = true) /\
  (err = None -> map fst (sent s') = map fst (sent s) ++ map (TransCodePartial [])
     [buildLANSearch3 uid (nonce s) 1; buildLANSearch3 uid (nonce s) 2; buildKnock2 uid (nonce s);
      buildOuter (nonce s) 0 (buildLogin loginAWrapperHead seed false) 0 0 flagsSession;
      buildOuter (nonce s) 1 (buildLogin loginBWrapperHead (seed + 1) true) 0 0 flagsSession]) /\
  (kseq s', icounter s', core s') = (kseq s, icounter s, core s).
Proof.
  set (seed := Z.land random 0xFFFFFFFE).
  assert (u32 (seed + 1) = seed + 1) as Hseed.
  { apply u32_small. unfold seed. change 0xFFFFFFFE with (2 ^ 32 - 2 ^ 1). rewrite (land_prefix random 1) by (done || lia).
    ints. }
  unfold handshake. fold seed. unfold send, buildLoginPair. rewrite Hseed. cbv zeta.
  destruct (writeOK (length (sent s))) eqn:W1; cbn [negb].
  2:{ split; [intuition done|]. split; [done|]. by cbn. }
  match goal with |- context [recvUntil _ r1 ?x] =>
    destruct (recvUntil_spec (hasType msgLANSearchR) r1 x) as (s1 & -> & H1) end.
  rewrite H1. cbn [upd nonce kseq icounter camPort sent core].
  match goal with |- context [recvUntil _ r2 ?x] =>
    destruct (recvUntil_spec (hasType msgKnockRR2) r2 x) as (s2 & -> & H2) end.
  rewrite H2. cbn [upd nonce kseq icounter camPort sent core].
  rewrite !length_app. cbn [length]. replace (length (sent s) + 1 + 1 + 1)%nat with (length (sent s) + 3)%nat by lia.
  destruct (writeOK (length (sent s) + 3)%nat) eqn:W2; cbn [negb].
  2:{ split; [intuition done|]. split; [done|]. by cbn. }
  replace (length (sent s) + 3 + 1)%nat with (length (sent s) + 4)%nat by lia.
  destruct (writeOK (length (sent s) + 4)%nat) eqn:W3; cbn [negb].
  2:{ split; [intuition done|]. split; [done|]. by cbn. }
  match goal with |- context [recvUntil _ r3 ?x] =>
    destruct (recvUntil_spec isLoginResp r3 x) as (s3 & -> & H3) end.
  rewrite H3. cbn [upd nonce kseq icounter camPort sent core].
  destruct (existsb _ r3); (split; [intuition done|]); (split; [|done]); [|done].
  intros _. rewrite !map_app, <- !app_assoc. done.
Qed.

(** A LOGIN_RESP as the camera frames it. *)
Definition sample_login_resp : bytes :=
  TransCodePartial [] (blit 8 (le16 msgSessionD2C) (blit 0x1D [0x21] (zeros 60))).
Definition sample_session : session := mkSession [1;2;3;4;5;6;7;8] 2 0 32761 [] new_client.

Lemma handshake_outcome_witness :
  fst (handshake (fun _ => true) sample_uid 7 [] [recvError] [recvPacket true 40000 sample_login_resp]
    sample_session) = None.
Proof.
  pose proof (handshake_outcome (fun _ => true) sample_uid 7 [] [recvError]
    [recvPacket true 40000 sample_login_resp] sample_session ltac:(unfold is_u32; lia)) as H.
  destruct (handshake _ _ _ _ _ _ sample_session) as [err s']. apply H.
  split_and!; vm_compute; reflexivity.
Defined.

(** ** The bootstrap *)

#[local] Opaque TransCodePartial ReverseTransCodePartial buildOuter.

(** From [s] to [s'] the inner messages [bodies] were handed to the socket, each under
    the next outer sequence number. *)
Record inner_sends (s s' : session) (bodies : list bytes) : Prop := {
  is_sent : map fst (sent s') = map fst (sent s) ++
    imap (fun i b => TransCodePartial []
      (buildOuter (nonce s) (u16 (kseq s + Z.of_nat i)) b 0 0 flagsSession)) bodies;
  is_kseq : kseq s' = u16 (kseq s + len bodies);
  is_nonce : nonce s' = nonce s;
}.

Lemma inner_sends_trans s1 s2 s3 b1 b2 :
  inner_sends s1 s2 b1 -> inner_sends s2 s3 b2 -> inner_sends s1 s3 (b1 ++ b2).
Proof.
  intros [E1 K1 N1] [E2 K2 N2]. split.
  - rewrite E2, E1, imap_app, app_assoc. f_equal. apply imap_ext. intros i b _. cbn.
    rewrite N1, K1, u16_shift. do 3 f_equal. unfold len. lia.
  - rewrite K2, K1, u16_shift, len_app. f_equal. 
  - congruence.
Qed.

Lemma sendInner_spec writeOK body s : is_u16 (kseq s) ->
  exists s', sendInner writeOK body s = (writeOK (length (sent s)), s') /\
    inner_sends s s' [body] /\ core s' = core s /\ icounter s' = icounter s.
Proof.
  intros Hk. eexists. split; [reflexivity|]. split; [|done]. split; [|done|done].
  cbn [imap fst map sent upd Z.of_nat]. rewrite Z.add_0_r, (u16_small (kseq s)) by done.
  by rewrite map_app.
Qed.

Lemma inner_sends_length s s' b : inner_sends s s' b -> length (sent s') = (length (sent s) + length b)%nat.
Proof.
  intros [E _ _]. apply (f_equal length) in E.
  rewrite length_app, !length_map, length_imap in E. done.
Qed.
Lemma inner_sends_u16 s s' b : inner_sends s s' b -> is_u16 (kseq s').
Proof. intros [_ -> _]. apply u16_bound. Qed.

(** The fields [inner_sends] speaks of. *)
Definition same_wire (s s' : session) : Prop :=
  sent s' = sent s /\ kseq s' = kseq s /\ nonce s' = nonce s.
Lemma inner_sends_wire s s1 s2 s3 b :
  same_wire s s1 -> inner_sends s1 s2 b -> same_wire s2 s3 -> inner_sends s s3 b.
Proof.
  intros (A1 & A2 & A3) [E K N] (B1 & B2 & B3).
  split; by rewrite ?B1, ?B2, ?B3, ?E, ?K, ?N, ?A1, ?A2, ?A3.
Qed.

(** The report for a range, under an ordinal. *)
Definition rangeReport (a : ackState) (ordinal base high tick : Z) : transportACK :=
  mkTransportACK ordinal base high (reliableRecvACK a) [] 0 (ackSendCount a) tick.

Lemma sendRangeACK_spec writeOK base high tick s : is_u16 (kseq s) ->
  exists s' r, sendRangeACK writeOK base high tick s = (writeOK (length (sent s)), s') /\
    inner_sends s s' [marshal r] /\ r = rangeReport (ack (core s)) (icounter s) base high tick /\
    ord (core s') = ord (core s) /\
    (writeOK (length (sent s)) = true -> icounter s' = u16 (icounter s + 1)).
Proof.
  intros Hk. unfold sendRangeACK, nextTransportACKForRange, transportACKLocked.
  set (r := mkTransportACK _ _ _ _ _ _ _ _). set (a' := mkAck _ _ _ _ _ _ _ _ _ _ _).
  set (s0 := s <| core := (core s) <| ack := a' |> |>).
  destruct (sendInner_spec writeOK (marshal r) s0 Hk) as (s1 & -> & H1 & Hc & Hi).
  change (sent s0) with (sent s) in *.
  assert (inner_sends s s1 [marshal r]) as H1' by (eapply inner_sends_wire; [|exact H1|]; by split_and!).
  destruct (writeOK (length (sent s))); eexists _, r; (split; [reflexivity|]); split_and!; try done.
  - eapply inner_sends_wire; [|exact H1|]; by split_and!.
  - cbn. by rewrite Hc.
  - cbn. intros _. by rewrite Hi.
  - by rewrite Hc.
Qed.

Lemma bootstrap_subWire inner m :
  bytes_ok inner -> decodeBootstrapMedia inner = Some (Some m) -> is_u16 (subWire m).
Proof.
  intros Hok. unfold decodeBootstrapMedia. case_decide; [done|].
  intros (x0 & _ & Hd)%bind_Some_inv. destruct (negb _); [done|].
  apply bind_Some_inv in Hd as (x1 & _ & Hd).
  destruct (decodeNormalMedia_total inner Hok) as (nm & nok & Hn & Hacc).
  assert (nok = true -> is_u16 (subWire nm)) as Hnormal.
  { intros E. destruct (Hacc E) as (_ & _ & _ & _ & _ & -> & _). by apply at16_bound. }
  assert (('(media, ok) ← decodeNormalMedia inner; Some (if ok : bool then Some media else None))
            = Some (Some m) -> is_u16 (subWire m)) as Hplain.
  { rewrite Hn. cbn. destruct nok; [|done]. intros [= <-]. auto. }
  destruct (isExtendedMediaFamily x1); [|auto].
  destruct (decide (len inner < 44)) as [Hl|Hl].
  - destruct (decode_extended_short inner Hl) as (m' & r & E). rewrite E in Hd. auto.
  - destruct (decode_extended_long inner Hok ltac:(lia)) as (m' & r & E & Hm). rewrite E in Hd.
    cbn [mbind option_bind] in Hd. destruct (_ && _); [|auto].
    injection Hd as <-. rewrite (Hm eq_refl). by apply at16_bound.
Qed.

(** What a receive window leaves alone: everything but the reliable stream and its
    counter. *)
Definition only_reliable (c c' : client) : Prop :=
  c' = c <| ack := ack c' |> <| stats := stats c' |>.

Lemma only_reliable_refl c : only_reliable c c.
Proof. by destruct c. Qed.

Lemma bootstrapDatagram_spec cfg raw avMax c :
  bytes_ok raw -> exists avMax' c', bootstrapDatagram cfg raw avMax c = Some (avMax', c') /\
    (avMax' = avMax \/ (avMax < avMax' /\ is_u16 avMax')) /\ only_reliable c c'.
Proof.
  intros Hraw. unfold bootstrapDatagram. set (pkt := ReverseTransCodePartial [] raw).
  assert (bytes_ok pkt) as Hok by (apply ReverseTransCodePartial_ok, Hraw). clearbody pkt.
  destruct (Z.ltb_spec (len pkt) (0x1C + 20)) as [|Hl].
  { exists avMax, c. auto using only_reliable_refl. }
  reads. destruct (negb _); [exists avMax, c; auto using only_reliable_refl|].
  set (inner := seg pkt 0x1C (len pkt)).
  assert (bytes_ok inner) as Hi by (apply seg_ok, Hok).
  assert (20 <= len inner) as Hil by (unfold inner; rewrite len_seg; lia). clearbody inner.
  assert (exists x, (if verbose cfg then ioctlResponseBody inner else Some None) = Some x) as [x ->].
  { destruct (verbose cfg); [|eauto]. by apply ioctlResponseBody_total. }
  cbn [mbind option_bind]. rewrite rd_in by lia. cbn [mbind option_bind].
  destruct (negb _); [exists avMax, c; auto using only_reliable_refl|].
  destruct (reliableControlSequence_total inner Hi) as (rc & Hrc). rewrite Hrc. cbn [mbind option_bind].
  destruct (decodeBootstrapMedia_total inner Hi ltac:(lia)) as (m & Hm). rewrite Hm.
  match goal with |- context [match rc with Some _ => _ | None => _ end] =>
    assert (exists c', (match rc with
       | Some seq_ => '(a, st) ← acceptReliableControl seq_ (ack c) (stats c);
                      Some (c <| ack := a |> <| stats := st |>)
       | None => Some c end) = Some c' /\ only_reliable c c') as (c' & -> & Hc) end.
  { destruct rc as [q|]; [|eexists; split; [done|apply only_reliable_refl]].
    destruct (accept_total q (ack c) (stats c)) as (a & st & -> & _); [by eapply reliable_u16|].
    eexists. split; [done|]. done. }
  cbn [mbind option_bind]. eexists _, c'. split; [reflexivity|]. split; [|done].
  destruct m as [m|]; [|by left]. apply bootstrap_subWire in Hm; [|done].
  destruct (Z.ltb_spec avMax (subWire m)); [by right|by left].
Qed.

Lemma bootstrapReceive_spec cfg raws : forall avMax c,
  Forall bytes_ok raws -> 0x3FFF <= avMax <= 0xFFFF ->
  exists avMax' c', bootstrapReceive cfg raws avMax c = Some (avMax', c') /\
    avMax <= avMax' <= 0xFFFF /\ only_reliable c c'.
Proof.
  induction raws as [|raw raws IH]; intros avMax c Hr Hb; cbn [bootstrapReceive].
  { exists avMax, c. split_and!; [done|lia|lia|apply only_reliable_refl]. }
  apply Forall_cons in Hr as [Hraw Hr].
  destruct (bootstrapDatagram_spec cfg raw avMax c Hraw) as (av1 & c1 & -> & Hav & Hc1).
  cbn [mbind option_bind].
  destruct (IH av1 c1 Hr) as (av2 & c2 & -> & Hav2 & Hc2); [unfold is_u16 in Hav; lia|].
  exists av2, c2. split_and!; [done|lia|lia|]. unfold only_reliable in *. rewrite Hc2, Hc1. done.
Qed.

(** The bodies of the command phase: each command, then its report. *)
Fixpoint exchange_bodies (ic : Z) (i : nat) (cmds : list bootstrapCmd) (reports : list transportACK)
  : list bytes :=
  match cmds, reports with
  | cm :: cmds, r :: reports =>
      innerData ic (channelFamily cm) (u16 (Z.of_nat i)) (cmdPayload cm) :: marshal r ::
      exchange_bodies (u16 (ic + 2)) (S i) cmds reports
  | _, _ => []
  end.

(** A report of the bootstrap acknowledges no media position. *)
Definition empty_report (ordinal tick : Z) (r : transportACK) : Prop :=
  exists a, r = rangeReport a ordinal 0xFFFF 0xFFFF tick.
(** The reports behind the commands: under the ordinal after the command's, with the tick
    of the datagram it is, [n] being the number of datagrams before the first command. *)
Definition empty_reports (env : bootstrapEnv) (n : nat) (ic : Z) (reports : list transportACK) : Prop :=
  forall k r, reports !! k = Some r ->
    empty_report (u16 (ic + 2 * Z.of_nat k + 1)) (tick16 env (n + 2 * k + 1)) r.

Definition writes (writeOK : nat -> bool) (n k : nat) : Prop :=
  forall i, (i < k)%nat -> writeOK (n + i)%nat = true.
Lemma writes_one writeOK n : writes writeOK n 1 <-> writeOK n = true.
Proof.
  split.
  - intros H. specialize (H 0%nat ltac:(lia)). by rewrite Nat.add_0_r in H.
  - intros H i Hi. replace i with 0%nat by lia. by rewrite Nat.add_0_r.
Qed.
Lemma writes_app writeOK n k m :
  writes writeOK n (k + m) <-> writes writeOK n k /\ writes writeOK (n + k) m.
Proof.
  split.
  - intros H. split; intros i Hi; [apply H; lia|].
    replace (n + k + i)%nat with (n + (k + i))%nat by lia. apply H. lia.
  - intros [H1 H2] i Hi. destruct (decide (i < k)%nat) as [|Hge]; [by apply H1|].
    specialize (H2 (i - k)%nat ltac:(lia)). replace (n + k + (i - k))%nat with (n + i)%nat in H2 by lia. done.
Qed.

(** A part of the bootstrap that is over after [n] writes if none fails: what it
    sent, that it leaves delivery alone, and that it stops at the first failure. *)
Record phase (writeOK : nat -> bool) (s : session) (n : nat) (ok : bool) (s' : session)
    (bodies : list bytes) : Prop := {
  ph_sends : inner_sends s s' bodies;
  ph_ord : ord (core s') = ord (core s);
  ph_ok : ok = true <-> writes writeOK (length (sent s)) n;
  ph_done : ok = true -> length bodies = n;
}.

Lemma phase_trans writeOK s n1 s1 b1 n2 ok s2 b2 :
  phase writeOK s n1 true s1 b1 -> phase writeOK s1 n2 ok s2 b2 ->
  phase writeOK s (n1 + n2) ok s2 (b1 ++ b2).
Proof.
  intros [A1 B1 C1 D1] [A2 B2 C2 D2]. pose proof (inner_sends_length _ _ _ A1) as Hl.
  rewrite (D1 eq_refl) in Hl. rewrite Hl in C2. split.
  - by eapply inner_sends_trans.
  - congruence.
  - rewrite writes_app, C2. assert (writes writeOK (length (sent s)) n1) by (by apply C1). tauto.
  - intros E. rewrite length_app, (D1 eq_refl), (D2 E). done.
Qed.

Lemma phase_fail writeOK s n1 s1 b1 n :
  phase writeOK s n1 false s1 b1 -> (n1 <= n)%nat -> phase writeOK s n false s1 b1.
Proof.
  intros [A B C D] Hn. replace n with (n1 + (n - n1))%nat by lia.
  split; [done|done| |done]. rewrite writes_app, <- C. intuition done.
Qed.

Lemma phase_wire writeOK s n ok s1 s2 b :
  same_wire s1 s2 -> ord (core s2) = ord (core s1) -> phase writeOK s n ok s1 b -> phase writeOK s n ok s2 b.
Proof.
  intros Hw Ho [A B C D]. split; [|congruence|done|done]. eapply inner_sends_wire; [|exact A|done]. done.
Qed.

Lemma phase_send writeOK body s : is_u16 (kseq s) ->
  exists s', sendInner writeOK body s = (writeOK (length (sent s)), s') /\
    phase writeOK s 1 (writeOK (length (sent s))) s' [body] /\ core s' = core s /\ icounter s' = icounter s.
Proof.
  intros Hk. destruct (sendInner_spec writeOK body s Hk) as (s' & E & H & Hc & Hi).
  exists s'. split_and!; [done| |done|done]. split; [done|by rewrite Hc|by rewrite writes_one|done].
Qed.

Lemma phase_ack writeOK base high tick s : is_u16 (kseq s) ->
  exists s' r, sendRangeACK writeOK base high tick s = (writeOK (length (sent s)), s') /\
    phase writeOK s 1 (writeOK (length (sent s))) s' [marshal r] /\
    r = rangeReport (ack (core s)) (icounter s) base high tick /\
    (writeOK (length (sent s)) = true -> icounter s' = u16 (icounter s + 1)).
Proof.
  intros Hk. destruct (sendRangeACK_spec writeOK base high tick s Hk)
    as (s' & r & E & H & Hr & Ho & Hi).
  exists s', r. split_and!; try done. split; [done|done|by rewrite writes_one|done].
Qed.

Lemma phase_u16 writeOK s n ok s' b : phase writeOK s n ok s' b -> is_u16 (kseq s').
Proof. intros [A _ _ _]. by eapply inner_sends_u16. Qed.

Lemma runCommands_spec writeOK cfg env cmds : forall i avMax s,
  is_u16 (kseq s) -> is_u16 (icounter s) -> (forall j, Forall bytes_ok (inbox env j)) ->
  0x3FFF <= avMax <= 0xFFFF ->
  exists ok avMax' s' bodies, runCommands writeOK cfg env i cmds avMax s = Some (ok, avMax', s') /\
    phase writeOK s (2 * length cmds) ok s' bodies /\ avMax <= avMax' <= 0xFFFF /\
    (ok = true -> icounter s' = u16 (icounter s + 2 * len cmds)) /\
    (ok = true -> exists reports, length reports = length cmds /\
         empty_reports env (length (sent s)) (icounter s) reports /\ bodies = exchange_bodies (icounter s) i cmds reports).
Proof.
  induction cmds as [|cm cmds IH]; intros i avMax s Hk Hic Hin Hb; cbn [runCommands].
  { exists true, avMax, s, []. split_and!; try done || lia.
    - split; [split; [by rewrite app_nil_r|cbn; by rewrite Z.add_0_r, u16_small|done]|done| |done].
      split; [|done]. intros _ j Hj. cbn in Hj. lia.
    - intros _. change (len (@nil bootstrapCmd)) with 0. by rewrite Z.add_0_r, u16_small.
    - intros _. exists []. by split_and!. }
  replace (2 * length (cm :: cmds))%nat with (1 + (1 + 2 * length cmds))%nat by (cbn [length]; lia).
  set (body := innerData _ _ _ _).
  destruct (phase_send writeOK body s Hk) as (s1 & -> & P1 & Hc1 & Hi1).
  destruct (writeOK (length (sent s))); cbn [negb].
  2:{ eexists false, avMax, s1, _. split_and!; [done|apply (phase_fail _ _ _ _ _ _ P1); lia|lia|lia|done|done]. }
  set (s1' := s1 <| icounter := u16 (icounter s1 + 1) |>).
  destruct (bootstrapReceive_spec cfg (inbox env i) avMax (core s1') (Hin i) Hb) as (av & c & -> & Hav & Hc).
  cbn [mbind option_bind]. set (s2 := s1' <| core := c |>).
  assert (phase writeOK s 1 true s2 [body]) as P2.
  { eapply phase_wire; [| |exact P1]; [done|]. cbn. rewrite Hc. done. }
  destruct (phase_ack writeOK 0xFFFF 0xFFFF (tick16 env (length (sent s1'))) s2 (phase_u16 _ _ _ _ _ _ P2))
    as (s3 & r & -> & P3 & Hr & Hi3).
  destruct (writeOK (length (sent s2))); cbn [negb].
  2:{ eexists false, av, s3, _. split_and!; [done| |lia|lia|done|done].
      eapply phase_trans; [exact P2|]. apply (phase_fail _ _ _ _ _ _ P3). lia. }
  assert (icounter s3 = u16 (icounter s + 2)) as Hic3.
  { rewrite Hi3 by done. cbn. by rewrite Hi1, u16_shift. }
  destruct (IH (S i) av s3) as (ok & av' & s' & bodies & -> & P4 & Hav' & Hicn & Hdone);
    [by eapply phase_u16|rewrite Hic3; apply u16_bound|done|lia|].
  exists ok, av', s', ([body] ++ [marshal r] ++ bodies).
  split_and!; [done| |lia|lia| |].
  - eapply phase_trans; [exact P2|]. by eapply phase_trans.
  - intros Hok. rewrite (Hicn Hok), Hic3, u16_shift, len_cons. f_equal. lia.
  - intros Hok. destruct (Hdone Hok) as (reports & Hlr & Hrep & ->). exists (r :: reports).
    pose proof (inner_sends_length _ _ _ (ph_sends _ _ _ _ _ _ P2)) as L2.
    pose proof (inner_sends_length _ _ _ (ph_sends _ _ _ _ _ _ P3)) as L3. cbn [length] in L2, L3.
    split_and!; [cbn; lia| |cbn [exchange_bodies app]; by rewrite Hic3].
    intros [|k] r' Hk'; cbn in Hk'.
    + simplify_eq Hk'. intros <-. exists (ack (core s2)). rewrite Hr. f_equal; [cbn; rewrite Hi1; f_equal; lia|].
      change (sent s1') with (sent s2). f_equal. lia.
    + specialize (Hrep k r' Hk'). rewrite Hic3 in Hrep.
      replace (u16 (icounter s + 2 * Z.of_nat (S k) + 1)) with (u16 (u16 (icounter s + 2) + 2 * Z.of_nat k + 1))
        by (rewrite <- Z.add_assoc, u16_shift; f_equal; lia). 
      replace (length (sent s) + 2 * S k + 1)%nat with (length (sent s3) + 2 * k + 1)%nat by lia. exact Hrep.
Qed.

(** The number of datagrams of a bootstrap. *)
Definition bootstrap_sends (o : options) : nat := 4 + 2 * length (bootstrapIOCtrls o (streamBody o)).

Lemma bootstrap_failed writeOK s n s' b (Qs : option bootstrapError -> session -> list bytes -> Prop) :
  phase writeOK s n false s' b ->
  exists err s1 bodies, Some (Some writeFailed, s') = Some (err, s1) /\
    inner_sends s s1 bodies /\
    (err = None \/ err = Some writeFailed) /\
    (err = None <-> writes writeOK (length (sent s)) n) /\ (err = None -> Qs err s1 bodies).
Proof.
  intros [A _ C _]. exists (Some writeFailed), s', b. split_and!; [done|done|by right| |done].
  rewrite <- C. done.
Qed.


Definition sample_opts : options := mkOpts true (str "hd") true streamCtrlLegacy 1 0.
Definition sample_env : bootstrapEnv := mkBootEnv (fun _ => 0xC000) (fun _ => 7) (fun _ => [[1; 2; 3]]).


(** ** The periodic report *)

(** A tick of the maintenance loop sends one exact report of what was received.  If
    the write fails nothing counts as reported, so the next tick reports the same
    window; if it succeeds the next report starts where this one's contiguous part
    ends. *)
Theorem failed_report_is_repeated (writeOK : nat -> bool) (tick : Z) (s : session)
    (Hk : is_u16 (kseq s)) (Ha : ack_inv (ack (core s))) :
  exists w r s', ackWindowLocked (ack (core s)) = Some w /\ window_exact (ack (core s)) w /\
    ackTick writeOK tick s = Some s' /\ inner_sends s s' [marshal r] /\
    AVBase r = u16 (baseExt w) /\ AVHigh r = u16 (highExt w) /\ Missing r = missing w /\
    icounter s' = u16 (icounter s + 1) /\ ack_inv (ack (core s')) /\
    (writeOK (length (sent s)) = false ->
       ackReportedExt (ack (core s')) = ackReportedExt (ack (core s)) /\
       ackWindowLocked (ack (core s')) = Some w) /\
    (writeOK (length (sent s)) = true ->
       ackReportedExt (ack (core s')) = Z.min (highExt w) (contiguousExt w)).
Proof.
  destruct (window_spec (ack (core s)) Ha) as (w & Hw & Hex). unfold ackTick, nextTransportACK.
  rewrite Hw. cbn [mbind option_bind].
  destruct (transportACKLocked _ _ _ _ _ _) as [r st] eqn:E. injection E as <- <-.
  set (r := mkTransportACK _ _ _ _ _ _ _ _). set (st := mkAck _ _ _ _ _ _ _ _ _ _ _).
  set (s0 := s <| core := (core s) <| ack := st |> |>).
  cbn [mbind option_bind]. fold s0.  destruct (sendInner_spec writeOK (marshal r) s0 Hk) as (s1 & -> & H1 & Hc & Hi).
  change (sent s0) with (sent s) in *.
  assert (inner_sends s s1 [marshal r]) as H1' by (eapply inner_sends_wire; [|exact H1|]; done).
  assert (ack_inv st) as Hst by (destruct Ha; by split).
  destruct (commit_reported w st) as (Hrep & _). destruct Hex as (Hx1 & Hx2 & Hx).
  exists w, r. eexists. split; [done|]. split; [done|]. split; [reflexivity|].
  split; [eapply inner_sends_wire; [done|exact H1'|]; by destruct (writeOK _)|].
  do 3 (split; [done|]). split; [by destruct (writeOK _); cbn; rewrite Hi|].
  destruct (writeOK (length (sent s))); cbn; rewrite Hc; cbn [core s0 upd ack].
  - split; [apply commit_inv; [done|]; cbn; lia|]. split; [done|]. intros _.
    change (ack _) with st. rewrite Hrep. cbn. destruct Ha as [? ? _ _ _]. lia.
  - split; [done|]. split; [|done]. intros _. split; [done|]. exact Hw.
Qed.

Lemma failed_report_is_repeated_witness :
  exists s', ackTick (fun _ => false) 9 (sample_session <| core := sample_client |>) = Some s' /\
    ackReportedExt (ack (core s')) = ackReportedExt (ack sample_client).
Proof.
  destruct (failed_report_is_repeated (fun _ => false) 9 (sample_session <| core := sample_client |>))
    as (w & r & s' & _ & _ & E & _ & _ & _ & _ & _ & _ & Hf & _).
  - unfold is_u16. cbn. lia.
  - apply (ci_ack _ sample_client_inv).
  - exists s'. split; [exact E|]. apply Hf. reflexivity.
Defined.
