(* ===== verification/Lifecycle.v ===== *)
(** The goroutines of a session and how it ends ([client.go]: [Close], [ReadPacket];
    [recv.go]: [recvLoop], [readerGoroutine], [maintenanceLoop]; [assembler.go]:
    [queuePacket]): the channels they share, one step per statement that touches a
    channel, and what holds of every interleaving. *)

From S2P Require Import Prelude Crypto Wire Media Stats Ack Annexb Bits Sps Assembler.

(** ** The goroutines

    The capacity of [rawChan]. *)
Definition rawChanCap : Z := 4096.

(** [Close] runs once; the position is its next statement, [Idle] before the first
    call and [Finished] once it has returned. *)
Inductive closer :=
| Idle | AtHealth | AtOffline | AtDone | AtConn | AtD2CDump | AtC2DDump | AtFrames | Finished.

(** [readerGoroutine]: the first [select], [ReadFromUDP], the second [select] with
    the datagram in hand, the deferred [close(out)]. *)
Inductive reader := RTop | RRead | RSend (raw : bytes) | RClose | RStopped.

(** [recvLoop]: its [select]; an iteration that still has [ps] to hand to
    [queuePacket]; the two [select]s of [queuePacket]; the deferred [Close], and
    waiting for it. *)
Inductive processor :=
| PSelect
| PWork (ps : list Packet)
| PCheck (p : Packet) (ps : list Packet)
| PSend (p : Packet) (ps : list Packet)
| PDefer
| PClosing
| PStopped.

Record live := mkLive {
  doneClosed : bool;
  connClosed : bool;
  rawClosed : bool;
  framesClosed : bool;
  rawChan : list bytes;
  framesChan : list Packet;
  rdr : reader;
  proc : processor;
  maintRunning : bool;
  cls : closer;
  recvTimeouts : Z;
  pktsIn : Z;
  readerDrops : Z;
  emitDrops : Z;
  arrived : list bytes;     (* read from the socket *)
  taken : list bytes;       (* received by the processor *)
  handed : list Packet;     (* given to queuePacket *)
  refused : Z;              (* returned by queuePacket because of done *)
  delivered : list Packet;  (* returned by ReadPacket *)
  panicked : bool;
}.
#[export] Instance eta_live : Eta live := fun s =>
  mkLive (doneClosed s) (connClosed s) (rawClosed s) (framesClosed s) (rawChan s)
    (framesChan s) (rdr s) (proc s) (maintRunning s) (cls s) (recvTimeouts s) (pktsIn s)
    (readerDrops s) (emitDrops s) (arrived s) (taken s) (handed s) (refused s)
    (delivered s) (panicked s).

(** [Dial] has made the channels and starts [recvLoop] and [maintenanceLoop]. *)
Definition live_init : live :=
  mkLive false false false false [] [] RTop PSelect true Idle 0 0 0 0 [] [] [] 0 [] false.

(** ** Operations

    A [select] takes any of its ready cases, so its step says which; [None] is a
    step that is not possible in the state.  The case on [done] is ready once it is
    closed, a [default] when no case is ready. *)

Inductive choice := OnDone | OnChannel.

(** What [ReadFromUDP] returns. *)
Inductive readResult := Timeout | Failed | Datagram (raw : bytes).

(** Calling [Close]: the first call starts its body, the others wait for it. *)
Definition callClose (s : live) : live :=
  match cls s with Idle => s <| cls := AtHealth |> | _ => s end.

Definition closeStep (s : live) : option live :=
  match cls s with
  | Idle | Finished => None
  | AtHealth => Some (s <| cls := AtOffline |>)
  | AtOffline => Some (s <| cls := AtDone |>)
  | AtDone => Some (s <| cls := AtConn |> <| doneClosed := true |>)
  | AtConn => Some (s <| cls := AtD2CDump |> <| connClosed := true |>)
  | AtD2CDump => Some (s <| cls := AtC2DDump |>)
  | AtC2DDump => Some (s <| cls := AtFrames |>)
  | AtFrames => Some (s <| cls := Finished |> <| framesClosed := true |>)
  end.

Definition readerPoll (s : live) : option live :=
  match rdr s with
  | RTop => Some (s <| rdr := if doneClosed s then RClose else RRead |>)
  | _ => None
  end.

(** A closed socket only returns an error. *)
Definition readerRead (r : readResult) (s : live) : option live :=
  match rdr s, r with
  | RRead, Failed => Some (s <| rdr := RClose |>)
  | RRead, Timeout =>
      if connClosed s then None
      else Some (s <| rdr := RTop |> <| recvTimeouts := u64 (recvTimeouts s + 1) |>)
  | RRead, Datagram raw =>
      if connClosed s then None
      else if len raw =? 0 then Some (s <| rdr := RTop |>)
      else Some (s <| rdr := RSend raw |> <| arrived := arrived s ++ [raw] |>)
  | _, _ => None
  end.

Definition readerSend (ch : choice) (s : live) : option live :=
  match rdr s, ch with
  | RSend raw, OnDone => if doneClosed s then Some (s <| rdr := RClose |>) else None
  | RSend raw, OnChannel =>
      if len (rawChan s) <? rawChanCap
      then Some (s <| rdr := RTop |> <| rawChan := rawChan s ++ [raw] |>)
      else if doneClosed s then None
      else Some (s <| rdr := RTop |> <| readerDrops := u64 (readerDrops s + 1) |>)
  | _, _ => None
  end.

Definition readerExit (s : live) : option live :=
  match rdr s with
  | RClose => Some (s <| rdr := RStopped |> <| rawClosed := true |>)
  | _ => None
  end.

(** The [select] of [recvLoop]; [ps] are the packets the datagram and the periodic
    work of the iteration hand over. *)
Definition procDone (s : live) : option live :=
  match proc s with
  | PSelect => if doneClosed s then Some (s <| proc := PDefer |>) else None
  | _ => None
  end.

Definition procRaw (ps : list Packet) (s : live) : option live :=
  match proc s, rawChan s with
  | PSelect, raw :: rest =>
      Some (s <| rawChan := rest |> <| taken := taken s ++ [raw] |>
              <| pktsIn := u64 (pktsIn s + 1) |> <| proc := PWork ps |>)
  | PSelect, [] => if rawClosed s then Some (s <| proc := PDefer |>) else None
  | _, _ => None
  end.

Definition procTick (ps : list Packet) (s : live) : option live :=
  match proc s with PSelect => Some (s <| proc := PWork ps |>) | _ => None end.

(** Calling [queuePacket], or the end of the iteration. *)
Definition procNext (s : live) : option live :=
  match proc s with
  | PWork [] => Some (s <| proc := PSelect |>)
  | PWork (p :: ps) => Some (s <| proc := PCheck p ps |> <| handed := handed s ++ [p] |>)
  | _ => None
  end.

(** Its first [select]. *)
Definition queueCheck (s : live) : option live :=
  match proc s with
  | PCheck p ps =>
      Some (if doneClosed s then s <| proc := PWork ps |> <| refused := refused s + 1 |>
            else s <| proc := PSend p ps |>)
  | _ => None
  end.

(** Its second [select]; a send on a closed channel is ready, and panics. *)
Definition queueSend (ch : choice) (s : live) : option live :=
  match proc s, ch with
  | PSend p ps, OnDone =>
      if doneClosed s
      then Some (s <| proc := PWork ps |> <| refused := refused s + 1 |>) else None
  | PSend p ps, OnChannel =>
      if framesClosed s then Some (s <| panicked := true |>)
      else if len (framesChan s) <? framesCap
      then Some (s <| proc := PWork ps |> <| framesChan := framesChan s ++ [p] |>)
      else if doneClosed s then None
      else Some (s <| proc := PWork ps |> <| emitDrops := u64 (emitDrops s + 1) |>)
  | _, _ => None
  end.

(** The deferred [Close] of [recvLoop]. *)
Definition procClose (s : live) : option live :=
  match proc s with
  | PDefer => Some ((callClose s) <| proc := PClosing |>)
  | PClosing => match cls s with Finished => Some (s <| proc := PStopped |>) | _ => None end
  | _ => None
  end.

(** [maintenanceLoop]: a tick sends and comes back, [done] ends it. *)
Definition maintTick (s : live) : option live := if maintRunning s then Some s else None.
Definition maintDone (s : live) : option live :=
  if maintRunning s && doneClosed s then Some (s <| maintRunning := false |>) else None.

(** [ReadPacket]: [inl tt] is [io.EOF]. *)
Definition ReadPacket (ch : choice) (s : live) : option ((unit + Packet) * live) :=
  match ch with
  | OnDone => if doneClosed s then Some (inl tt, s) else None
  | OnChannel =>
      match framesChan s with
      | p :: rest => Some (inr p, s <| framesChan := rest |> <| delivered := delivered s ++ [p] |>)
      | [] => if framesClosed s then Some (inl tt, s) else None
      end
  end.

(** ** Interleavings *)

Inductive action :=
| CallClose | CloseStep
| ReaderPoll | ReaderRead (r : readResult) | ReaderSend (ch : choice) | ReaderExit
| ProcDone | ProcRaw (ps : list Packet) | ProcTick (ps : list Packet)
| ProcNext | QueueCheck | QueueSend (ch : choice) | ProcClose
| MaintTick | MaintDone
| Consume (ch : choice).

Definition act (a : action) (s : live) : option live :=
  if panicked s then None else
  match a with
  | CallClose => Some (callClose s)
  | CloseStep => closeStep s
  | ReaderPoll => readerPoll s
  | ReaderRead r => readerRead r s
  | ReaderSend ch => readerSend ch s
  | ReaderExit => readerExit s
  | ProcDone => procDone s
  | ProcRaw ps => procRaw ps s
  | ProcTick ps => procTick ps s
  | ProcNext => procNext s
  | QueueCheck => queueCheck s
  | QueueSend ch => queueSend ch s
  | ProcClose => procClose s
  | MaintTick => maintTick s
  | MaintDone => maintDone s
  | Consume ch => snd <$> ReadPacket ch s
  end.

Fixpoint acts (l : list action) (s : live) : option live :=
  match l with
  | [] => Some s
  | a :: l => s' ← act a s; acts l s'
  end.

Definition reachable (s : live) : Prop := exists l, acts l live_init = Some s.

(** ** Invariant *)

Definition pastDone (c : closer) : bool :=
  match c with AtConn | AtD2CDump | AtC2DDump | AtFrames | Finished => true | _ => false end.
Definition pastConn (c : closer) : bool :=
  match c with AtD2CDump | AtC2DDump | AtFrames | Finished => true | _ => false end.
Definition isFinished (c : closer) : bool := match c with Finished => true | _ => false end.

(** What the reader and the processor have in hand, and what a reader that stopped
    may have dropped. *)
Definition readerHolds (r : reader) : list bytes := match r with RSend raw => [raw] | _ => [] end.
Definition processorHolds (p : processor) : list Packet :=
  match p with PCheck p _ | PSend p _ => [p] | _ => [] end.
Definition readerStopping (r : reader) : bool :=
  match r with RClose | RStopped => true | _ => false end.

Record live_inv (s : live) : Prop := {
  lv_done : doneClosed s = pastDone (cls s);
  lv_conn : connClosed s = pastConn (cls s);
  lv_frames : framesClosed s = isFinished (cls s);
  lv_raw : rawClosed s = match rdr s with RStopped => true | _ => false end;
  lv_waits : proc s = PClosing -> cls s <> Idle;
  lv_stopped : proc s = PStopped -> cls s = Finished;
  lv_caps : len (rawChan s) <= rawChanCap /\ len (framesChan s) <= framesCap;
  lv_taken : pktsIn s = u64 (len (taken s));
  lv_arrived : sublist (taken s ++ rawChan s ++ readerHolds (rdr s)) (arrived s);
  lv_reads : exists lost, (lost = 0 \/ lost = 1 /\ readerStopping (rdr s) && doneClosed s = true) /\
    u64 (len (arrived s)) =
    u64 (len (taken s) + len (rawChan s) + len (readerHolds (rdr s)) + readerDrops s + lost);
  lv_handed : sublist (delivered s ++ framesChan s ++ processorHolds (proc s)) (handed s);
  lv_queued : u64 (len (handed s)) =
    u64 (len (delivered s) + len (framesChan s) + len (processorHolds (proc s)) + emitDrops s + refused s);
  lv_refused : 0 <= refused s /\ (doneClosed s = false -> refused s = 0);
}.

Lemma live_init_inv : live_inv live_init.
Proof.
  split; cbn; try done. exists 0. split; [by left|done].
Qed.

(** Cases of an operation, then its invariant field by field: most fields are
    untouched or computed. *)
Ltac live_cases H :=
  repeat match type of H with
         | context [match ?x with _ => _ end] => destruct x eqn:?
         end; try (cbn [fmap option_fmap option_map snd] in H); simplify_eq.
Ltac live_field :=
  cbn [pastDone pastConn isFinished readerHolds processorHolds readerStopping] in *;
  try congruence; try assumption;
  try (intros Hx; match goal with H : _ -> _ |- _ => specialize (H Hx); congruence end).
Ltac live_solve := constructor; cbn -[u64 framesCap rawChanCap len];
  repeat match goal with E : cls _ = _ |- _ => rewrite E in * end;
  repeat match goal with E : rdr _ = _ |- _ => rewrite E in * end;
  repeat match goal with E : proc _ = _ |- _ => rewrite E in * end;
  repeat match goal with E : rawChan _ = _ |- _ => rewrite E in * end;
  live_field.

Lemma callClose_inv s : live_inv s -> live_inv (callClose s).
Proof. intros []. unfold callClose. destruct (cls s) eqn:E; live_solve. Qed.

Lemma closeStep_inv s s' : live_inv s -> closeStep s = Some s' -> live_inv s'.
Proof.
  intros [] H. unfold closeStep in H. live_cases H; live_solve.
  all: try (destruct lv_refused0; split; [lia|congruence]).
  destruct lv_reads0 as (k & Hk & E). exists k. split; [|done].
  destruct Hk as [->|[-> Hk]]; [by left|right]. split; [done|]. by apply andb_true_iff in Hk as [-> _].
Qed.

(** Counts after a step: what the lengths add up to, modulo the counter's width. *)
Ltac count := rewrite ?len_app, ?len_cons in *; unfold len in *; cbn [length] in *; ints.
Ltac recount n :=
  match goal with
  | E : exists lost, _ |- exists lost, _ =>
      let k := fresh "k" in let Hk := fresh "Hk" in
      destruct E as (k & Hk & E); exists (k + n);
      split; [clear E; destruct Hk as [->|[-> ?]]; try discriminate;
             first [left; lia|right; split; [lia|congruence]]|count]
  end.

Lemma sublist_give_up {A} (a b c l : list A) :
  sublist (a ++ b ++ c) l -> sublist (a ++ b ++ []) l.
Proof. intros. etrans; [|done]. repeat apply sublist_app; done || apply sublist_nil_l. Qed.

Lemma sublist_more {A} (a b l : list A) x : sublist (a ++ b ++ []) l -> sublist (a ++ b ++ [x]) (l ++ [x]).
Proof. rewrite app_nil_r. intros. rewrite app_assoc. by apply sublist_app. Qed.

Lemma reader_inv s s' :
  live_inv s ->
  readerPoll s = Some s' \/ (exists r, readerRead r s = Some s') \/
  (exists ch, readerSend ch s = Some s') \/ readerExit s = Some s' -> live_inv s'.
Proof.
  intros [] [H|[[r H]|[[ch H]|H]]];
    unfold readerPoll, readerRead, readerSend, readerExit in H; live_cases H; live_solve.
  - recount 0.
  - recount 0.
  - by apply sublist_more.
  - recount 0.
  - by eapply sublist_give_up.
  - recount 1.
  - rewrite len_app. unfold len at 2. cbn [length]. split; [apply Z.ltb_lt in Heqb|]; lia.
  - by rewrite app_nil_r.
  - recount 0.
  - by eapply sublist_give_up.
  - recount 0.
Qed.

Lemma closing_inv s : live_inv s -> proc s = PDefer -> cls s <> Idle -> live_inv (s <| proc := PClosing |>).
Proof. intros [] E Hc. live_solve. Qed.

Lemma callClose_facts s : proc (callClose s) = proc s /\ cls (callClose s) <> Idle.
Proof. unfold callClose. destruct (cls s) eqn:E; cbn; split; congruence. Qed.

Lemma processor_inv s s' :
  live_inv s ->
  procDone s = Some s' \/ (exists ps, procRaw ps s = Some s' \/ procTick ps s = Some s') \/
  procNext s = Some s' \/ procClose s = Some s' -> live_inv s'.
Proof.
  intros Hs [H|[[ps [H|H]]|[H|H]]].
  5: { unfold procClose in H. live_cases H.
       - destruct (callClose_facts s) as [Hp Hc].
         apply closing_inv; [by apply callClose_inv|congruence|done].
       - destruct Hs. live_solve. }
  all: destruct Hs; unfold procDone, procRaw, procTick, procNext in H; live_cases H; live_solve.
  - recount 0.
  - rewrite len_cons in lv_caps0. lia.
  - count.
  - by rewrite <- app_assoc.
  - recount 0.
  - by apply sublist_more.
  - count.
Qed.

Lemma queue_inv s s' :
  live_inv s -> queueCheck s = Some s' \/ (exists ch, queueSend ch s = Some s') -> live_inv s'.
Proof.
  intros [] [H|[ch H]]; unfold queueCheck, queueSend in H; live_cases H; live_solve.
  all: try (recount 0 || (by eapply sublist_give_up)).
  - count.
  - destruct lv_refused0. split; [lia|congruence].
  - count.
  - destruct lv_refused0. split; [lia|congruence].
  - apply Z.ltb_lt in Heqb0. rewrite len_app. unfold len at 3. cbn [length]. lia.
  - by rewrite app_nil_r.
  - count.
  - count.
Qed.

Lemma consume_inv s ch r s' : live_inv s -> ReadPacket ch s = Some (r, s') -> live_inv s'.
Proof.
  intros [] H; unfold ReadPacket in H. live_cases H; try (constructor; assumption); live_solve.
  - recount 0.
  - rewrite len_cons in lv_caps0. lia.
  - by rewrite <- app_assoc.
  - count.
Qed.

Lemma act_inv a s s' : live_inv s -> act a s = Some s' -> live_inv s'.
Proof.
  intros Hs H. unfold act in H. destruct (panicked s); [done|].
  destruct a; try (apply (reader_inv s); eauto; fail); try (apply (processor_inv s); eauto; fail);
    try (apply (queue_inv s); eauto; fail).
  - injection H as <-. by apply callClose_inv.
  - by eapply closeStep_inv.
  - unfold maintTick in H. live_cases H. done.
  - unfold maintDone in H. live_cases H. destruct Hs. live_solve.
  - destruct (ReadPacket ch s) as [[r s1]|] eqn:E; [|done]. injection H as <-.
    by eapply consume_inv.
Qed.

Lemma acts_inv l : forall s s', live_inv s -> acts l s = Some s' -> live_inv s'.
Proof.
  induction l as [|a l IH]; intros s s' Hs H; cbn [acts] in H; [congruence|].
  apply bind_Some_inv in H as (s1 & H1 & H). eapply IH; [|exact H]. by eapply act_inv.
Qed.

Lemma reachable_inv s : reachable s -> live_inv s.
Proof. intros [l H]. eapply acts_inv; [|exact H]. apply live_init_inv. Qed.

(** C17. In every interleaving: both channels stay within their capacities; the processor
    gets a subsequence of what was read from the socket, in order, and the consumer
    one of what the assembler handed over; every datagram and every packet is
    accounted for by what was passed on, what is in the channel or in hand, and the
    drop counters, but for one datagram in the reader's hand and the packets in the
    processor's when the session was closed. *)
Theorem pipelines_conserve (s : live) (Hs : reachable s) :
  len (rawChan s) <= rawChanCap /\ len (framesChan s) <= framesCap /\
  sublist (taken s ++ rawChan s) (arrived s) /\ sublist (delivered s ++ framesChan s) (handed s) /\
  pktsIn s = u64 (len (taken s)) /\
  exists lostRaw lostPackets,
    (0 <= lostRaw <= 1 /\ 0 <= lostPackets) /\
    (doneClosed s = false -> lostRaw = len (readerHolds (rdr s)) /\
                             lostPackets = len (processorHolds (proc s))) /\
    u64 (len (arrived s)) = u64 (len (taken s) + len (rawChan s) + readerDrops s + lostRaw) /\
    u64 (len (handed s)) =
      u64 (len (delivered s) + len (framesChan s) + emitDrops s + lostPackets).
Proof.
  apply reachable_inv in Hs as []. destruct lv_caps0, lv_reads0 as (k & Hk & E).
  split; [done|]. split; [done|].
  split; [etrans; [|exact lv_arrived0]; rewrite app_assoc; by apply sublist_inserts_r|].
  split; [etrans; [|exact lv_handed0]; rewrite app_assoc; by apply sublist_inserts_r|].
  split; [done|]. exists (len (readerHolds (rdr s)) + k), (len (processorHolds (proc s)) + refused s).
  destruct lv_refused0 as [Hr Hr'].
  split; [split; [|pose proof (len_nonneg (processorHolds (proc s))); lia]|].
  { destruct (rdr s); cbn in Hk |- *; unfold len; cbn; intuition (discriminate || lia). }
  split; [|split; [rewrite E; f_equal; lia|rewrite lv_queued0; f_equal; lia]].
  intros Hd. rewrite Hr' by done. rewrite Hd, andb_false_r in Hk. split; [|lia].
  destruct Hk as [->|[_ ?]]; [lia|done].
Qed.

(** ** [Close] and [queuePacket]

    A schedule in which [Close] makes no step between the two [select]s of
    [queuePacket]. *)
Fixpoint atomicQueue (l : list action) (s : live) : bool :=
  match l with
  | [] => true
  | a :: l =>
      match a, proc s with CloseStep, PSend _ _ => false | _, _ => true end &&
      match act a s with Some s' => atomicQueue l s' | None => true end
  end.

Lemma frames_open s : live_inv s -> doneClosed s = false -> framesClosed s = false.
Proof. intros [] H. rewrite lv_frames0. rewrite lv_done0 in H. by destruct (cls s). Qed.

Lemma callClose_frames s : framesClosed (callClose s) = framesClosed s.
Proof. unfold callClose. by destruct (cls s). Qed.

Ltac unfold_act H :=
  unfold act, closeStep, readerPoll, readerRead, readerSend, readerExit, procDone, procRaw,
    procTick, procNext, queueCheck, queueSend, procClose, callClose, maintTick, maintDone,
    ReadPacket in H.

(** Only the send of [queuePacket] panics, and only on the closed channel. *)
Lemma panic_from a s s' :
  act a s = Some s' -> panicked s' = true ->
  exists p ps, proc s = PSend p ps /\ framesClosed s = true.
Proof.
  intros H Hp. unfold act in H. destruct (panicked s) eqn:E0; [done|].
  destruct a; unfold_act H; live_cases H; cbn in *; try congruence; by do 2 eexists.
Qed.

(** The processor reaches that send with the channel open, or [Close] moved. *)
Lemma send_from a s s' p ps :
  live_inv s -> act a s = Some s' -> proc s' = PSend p ps -> framesClosed s' = true ->
  proc s = PSend p ps /\ (framesClosed s = true \/ a = CloseStep).
Proof.
  intros Hs H Hp Hf. unfold act in H. destruct (panicked s) eqn:E0; [done|].
  destruct a; unfold_act H; live_cases H; cbn in *; try congruence; auto.
  - by rewrite frames_open in Hf.
  - split; [congruence|by left].
Qed.

Lemma atomic_safe l : forall s s',
  live_inv s -> panicked s = false ->
  (forall p ps, proc s = PSend p ps -> framesClosed s = false) ->
  atomicQueue l s = true -> acts l s = Some s' -> panicked s' = false.
Proof.
  induction l as [|a l IH]; intros s s' Hs Hp Hf Ha H; cbn [acts atomicQueue] in *; [congruence|].
  destruct (act a s) as [s1|] eqn:E; cbn [mbind option_bind] in H; [|done].
  apply andb_true_iff in Ha as [Ha Hl]. eapply IH; [by eapply act_inv| | |exact Hl|exact H].
  - apply not_true_iff_false. intros Hp1. destruct (panic_from _ _ _ E Hp1) as (p & ps & E1 & E2).
    by rewrite (Hf p ps E1) in E2.
  - intros p ps E1. apply not_true_iff_false. intros Hf1.
    destruct (send_from _ _ _ _ _ Hs E E1 Hf1) as [E2 [E3| ->]].
    + by rewrite (Hf _ _ E2) in E3.
    + by rewrite E2 in Ha.
Qed.

Definition some_packet : Packet := mkPacket CodecH264 [0; 0; 0; 1; 0x65] 0 0 0 innerChKey 0 true.
(** The processor has seen [done] open when [Close] runs from start to end. *)
Definition race : list action :=
  [ProcTick [some_packet]; ProcNext; QueueCheck; CallClose; CloseStep; CloseStep; CloseStep;
   CloseStep; CloseStep; CloseStep; CloseStep; QueueSend OnChannel].

(** The send of [queuePacket] cannot meet a closed channel as long as [Close] does
    not move between its two [select]s; when [Close] runs to its end in between,
    the send may be chosen, and panics. *)
Theorem queue_close_race :
  (forall l s, acts l live_init = Some s -> atomicQueue l live_init = true -> panicked s = false) /\
  (exists s, acts race live_init = Some s /\ panicked s = true).
Proof.
  split; [|exists (default live_init (acts race live_init)); split; vm_compute; reflexivity].
  intros l s H Ha. eapply atomic_safe; [apply live_init_inv|done|done|exact Ha|exact H].
Qed.

(** ** The session ends *)

(** Steps each part still has to make once [done] is closed; an iteration still
    offers its packets to [queuePacket]. *)
Definition closeWork (c : closer) : nat :=
  match c with
  | Finished => 0 | AtFrames => 1 | AtC2DDump => 2 | AtD2CDump => 3 | AtConn => 4
  | AtDone => 5 | AtOffline => 6 | AtHealth => 7 | Idle => 8
  end.
Definition readerWork (r : reader) : nat :=
  match r with RStopped => 0 | RClose => 1 | RTop => 2 | RSend _ => 3 | RRead => 4 end.
Definition processorWork (p : processor) : nat :=
  match p with
  | PStopped => 0 | PClosing => 1 | PDefer => 2 | PSelect => 3
  | PWork ps => 4 + 3 * length ps
  | PSend _ ps => 5 + 3 * length ps
  | PCheck _ ps => 6 + 3 * length ps
  end.
Definition shutdownWork (s : live) : nat :=
  if panicked s then 0
  else closeWork (cls s) + readerWork (rdr s) + processorWork (proc s) +
       (if maintRunning s then 1 else 0).

(** Steps of the goroutines, but for those in which a [select] with [done] ready
    chose to go on; what these begin adds to the work. *)
Definition progresses (a : action) : bool :=
  match a with
  | CallClose | Consume _ | ProcRaw _ | ProcTick _ | MaintTick => false
  | _ => true
  end.
Definition begins (a : action) : nat :=
  match a with ProcRaw ps | ProcTick ps => 1 + 3 * length ps | _ => 0 end.

Definition allStopped (s : live) : bool :=
  match rdr s, proc s, cls s with
  | RStopped, PStopped, Finished => negb (maintRunning s)
  | _, _, _ => false
  end.

Lemma done_stays a s s' : act a s = Some s' -> doneClosed s = true -> doneClosed s' = true.
Proof.
  intros H Hd. unfold act in H. destruct (panicked s); [done|].
  destruct a; unfold_act H; live_cases H; done.
Qed.

Lemma work_step a s s' :
  live_inv s -> doneClosed s = true -> act a s = Some s' ->
  (shutdownWork s' + (if progresses a then 1 else 0) <= shutdownWork s + begins a)%nat.
Proof.
  intros [] Hd H. rewrite Hd in lv_done0. unfold act in H. unfold shutdownWork.
  destruct (panicked s) eqn:E0; [done|].
  destruct a; unfold_act H; live_cases H; cbn [progresses begins];
    cbn -[Nat.mul Nat.add]; rewrite ?E0;
    repeat match goal with
           | E : cls _ = _ |- _ => rewrite E in *
           | E : rdr _ = _ |- _ => rewrite E in *
           | E : proc _ = _ |- _ => rewrite E in *
           | E : maintRunning _ && _ = true |- _ => apply andb_true_iff in E as [E _]; rewrite E
           end; cbn [closeWork readerWork processorWork length] in *; try congruence; try lia.
  by destruct (maintRunning s'); lia.
Qed.

(** A goroutine that is not finished, and its step. *)
Definition nextStop (s : live) : action :=
  match cls s with
  | Finished =>
      match rdr s with
      | RTop => ReaderPoll
      | RRead => ReaderRead Failed
      | RSend _ => ReaderSend OnDone
      | RClose => ReaderExit
      | RStopped =>
          match proc s with
          | PSelect => ProcDone
          | PWork _ => ProcNext
          | PCheck _ _ => QueueCheck
          | PSend _ _ => QueueSend OnDone
          | PDefer | PClosing => ProcClose
          | PStopped => MaintDone
          end
      end
  | _ => CloseStep
  end.

Lemma progress_possible s :
  live_inv s -> doneClosed s = true -> panicked s = false -> allStopped s = false ->
  progresses (nextStop s) = true /\ exists s', act (nextStop s) s = Some s'.
Proof.
  intros [] Hd Hp Hn. rewrite Hd in lv_done0. unfold nextStop, allStopped, act in *.
  rewrite Hp. destruct (cls s) eqn:Ec; try discriminate lv_done0;
    try (split; [done|]; cbn; unfold closeStep; rewrite Ec; by eexists).
  destruct (rdr s) eqn:Er; try (split; [done|]; cbn;
    unfold readerPoll, readerRead, readerSend, readerExit; rewrite Er, ?Hd; by eexists).
  destruct (proc s) as [|[|p ps]|p ps|p ps| | |] eqn:Epr; (split; [done|]); cbn;
    unfold procDone, procNext, queueCheck, queueSend, procClose, maintDone; rewrite ?Epr, ?Hd, ?Ec;
    try by eexists.
  apply negb_false_iff in Hn. rewrite Hn. by eexists.
Qed.

Fixpoint progress (l : list action) : nat :=
  match l with [] => 0 | a :: l => (if progresses a then 1 else 0) + progress l end.
Fixpoint begun (l : list action) : nat :=
  match l with [] => 0 | a :: l => begins a + begun l end.

(** The schedule that takes [nextStop] until all have stopped. *)
Fixpoint stopRun (n : nat) (s : live) : list action :=
  match n with
  | O => []
  | S n => if allStopped s || panicked s then []
           else nextStop s :: match act (nextStop s) s with Some s' => stopRun n s' | None => [] end
  end.

Lemma work_bound l : forall s s',
  live_inv s -> doneClosed s = true -> acts l s = Some s' ->
  (shutdownWork s' + progress l <= shutdownWork s + begun l)%nat.
Proof.
  induction l as [|a l IH]; intros s s' Hs Hd H; cbn [acts progress begun] in *; [simplify_eq; lia|].
  apply bind_Some_inv in H as (s1 & H1 & H).
  pose proof (work_step _ _ _ Hs Hd H1). apply IH in H; [lia|by eapply act_inv|by eapply done_stays].
Qed.

Lemma stopRun_stops n : forall s,
  live_inv s -> doneClosed s = true -> (shutdownWork s <= n)%nat ->
  exists s', acts (stopRun n s) s = Some s' /\ allStopped s' || panicked s' = true /\
    Forall (fun a => progresses a = true) (stopRun n s).
Proof.
  induction n as [|n IH]; intros s Hs Hd Hn; cbn [stopRun].
  - exists s. split; [done|]. split; [|constructor]. unfold shutdownWork in Hn. unfold allStopped.
    destruct (panicked s); [by rewrite orb_true_r|].
    destruct (cls s), (rdr s), (proc s), (maintRunning s); cbn in Hn; done || lia.
  - destruct (allStopped s || panicked s) eqn:E.
    { exists s. split; [done|]. split; [done|constructor]. }
    apply orb_false_iff in E as [E1 E2].
    destruct (progress_possible s Hs Hd E2 E1) as [Hp [s1 H1]]. rewrite H1.
    pose proof (work_step _ _ _ Hs Hd H1) as Hw. rewrite Hp in Hw.
    assert (begins (nextStop s) = 0)%nat as Hb.
    { destruct (nextStop s); done. }
    destruct (IH s1) as (s' & H2 & H3 & H4); [by eapply act_inv|by eapply done_stays|lia|].
    exists s'. cbn [acts]. rewrite H1. cbn [mbind option_bind]. eauto.
Qed.

(** C18. Once [Close] has closed [done] the session can end and has little left to do.  From any
    reachable state the goroutines can come to their end, or to a panic, by their own steps,
    whatever the network and the consumer do.  And under every scheduler all steps but those
    of the consumer, further calls of [Close], ticks and the beginning of an iteration of the
    processor are at most [shutdownWork], and one more for each iteration it still chose to
    begin and three for each packet of it. *)
Theorem close_completes (s : live) (Hs : reachable s) (Hdone : doneClosed s = true) :
  (exists l s', acts l s = Some s' /\ (allStopped s' || panicked s' = true) /\
     Forall (fun a => progresses a = true) l) /\
  (forall l s', acts l s = Some s' -> (progress l <= shutdownWork s + begun l)%nat).
Proof.
  apply reachable_inv in Hs. split.
  - destruct (stopRun_stops (shutdownWork s) s Hs Hdone ltac:(lia)) as (s' & H). eauto.
  - intros l s' H. pose proof (work_bound l s s' Hs Hdone H). lia.
Qed.

(** *** Witnesses *)

(** One datagram is processed into two packets, of which the consumer reads one;
    then [Close] closes [done] while the reader holds another datagram. *)
Definition sample_schedule : list action :=
  [ReaderPoll; ReaderRead (Datagram [1]); ReaderSend OnChannel;
   ProcRaw [some_packet; some_packet]; ProcNext; QueueCheck; QueueSend OnChannel;
   ProcNext; QueueCheck; QueueSend OnChannel; ProcNext; Consume OnChannel;
   ReaderPoll; ReaderRead (Datagram [2]); CallClose; CloseStep; CloseStep; CloseStep].
Definition sample_live : live := default live_init (acts sample_schedule live_init).

Lemma sample_reachable : reachable sample_live.
Proof. exists sample_schedule. vm_compute. reflexivity. Qed.

Lemma pipelines_conserve_witness :
  sublist (taken sample_live ++ rawChan sample_live) (arrived sample_live).
Proof. apply (pipelines_conserve sample_live sample_reachable). Defined.

Lemma close_completes_witness :
  exists l s', acts l sample_live = Some s' /\ (allStopped s' || panicked s' = true) /\
    Forall (fun a => progresses a = true) l.
Proof. apply (close_completes sample_live sample_reachable). vm_compute. reflexivity. Defined.
