(* ===== verification/Status.v ===== *)
(** The runtime status file ([pkg/petlibro/runtime_status.go]): the state the client
    publishes, its JSON text, the writer's operations, and the atomic replacement of
    the file on disk. *)

From stdpp Require Import sorting.
From S2P Require Import Prelude Text Stats.

(** ** The published state *)

Definition runtimeStatusSchemaVersion : Z := 1.

(** An instant is its UTC nanoseconds since 1970; [UTC] drops the monotonic reading,
    so comparisons are on these.  [ObservedAt] and [LastUpdate] are kept as instants
    and formatted when the JSON text is made. *)
Record runtimeResolution := mkResolution {
  Width : Z;
  Height : Z;
  ProfileIDC : Z;
  LevelIDC : Z;
  ObservedAt : Z;
}.

Record runtimeHDTransition := mkTransition { Observed : bool; Elapsed : option Z }.

Record runtimeHealth := mkHealth {
  GappedIDRs : Z;
  DroppedFrames : Z;
  MissingFragments : Z;
  ACKPending : Z;
  ExtendedMediaRejected : Z;
}.

Record cameraRuntimeStatus := mkStatus {
  SchemaVersion : Z;
  Status : bytes;
  RequestedQuality : bytes;
  ConfiguredHDProbeWaitMS : Z;
  ProbeResolution : option runtimeResolution;
  ActualResolution : option runtimeResolution;
  HDTransition : runtimeHDTransition;
  LastUpdate : Z;
  Health : runtimeHealth;
}.
#[export] Instance eta_status : Eta cameraRuntimeStatus := fun s =>
  mkStatus (SchemaVersion s) (Status s) (RequestedQuality s) (ConfiguredHDProbeWaitMS s)
    (ProbeResolution s) (ActualResolution s) (HDTransition s) (LastUpdate s) (Health s).

(** ** Its text

    [encoding/json] of a struct: the fields in order under their tags, [null] for a
    nil pointer. *)
Inductive json :=
| JNull
| JBool (b : bool)
| JNum (n : Z)
| JStr (s : bytes)
| JObj (fields : list (bytes * json)).

Fixpoint digitsRev (fuel : nat) (n : Z) : bytes :=
  match fuel with
  | O => []
  | S fuel => (48 + n mod 10) :: (if n <? 10 then [] else digitsRev fuel (n / 10))
  end.
(** Twenty digits hold every 64-bit value. *)
Definition decimal (n : Z) : bytes :=
  if n <? 0 then 45 :: reverse (digitsRev 20 (- n)) else reverse (digitsRev 20 n).
Definition padded (width : nat) (n : Z) : bytes :=
  let d := decimal n in replicate (width - length d) 48 ++ d.

Definition inRange (lo hi b : Z) : bool := (lo <=? b) && (b <=? hi).

(** The length of the UTF-8 sequence [s] starts with, 0 if it is no valid one. *)
Definition runeLen (s : bytes) : nat :=
  let cont := inRange 0x80 0xBF in
  match s with
  | b0 :: b1 :: rest =>
      if inRange 0xC2 0xDF b0 && cont b1 then 2%nat else
      match rest with
      | b2 :: rest =>
          let ok1 := if b0 =? 0xE0 then inRange 0xA0 0xBF b1
                     else if b0 =? 0xED then inRange 0x80 0x9F b1 else cont b1 in
          if inRange 0xE0 0xEF b0 && ok1 && cont b2 then 3%nat else
          match rest with
          | b3 :: _ =>
              let ok1 := if b0 =? 0xF0 then inRange 0x90 0xBF b1
                         else if b0 =? 0xF4 then inRange 0x80 0x8F b1 else cont b1 in
              if inRange 0xF0 0xF4 b0 && ok1 && cont b2 && cont b3 then 4%nat else 0%nat
          | [] => 0%nat
          end
      | [] => 0%nat
      end
  | _ => 0%nat
  end.

(** One ASCII byte of a string. *)
Definition escapeASCII (b : Z) : bytes :=
  if (b =? 92) || (b =? 34) then [92; b]
  else if b =? 8 then str "\b" else if b =? 12 then str "\f" else if b =? 10 then str "\n"
  else if b =? 13 then str "\r" else if b =? 9 then str "\t"
  else if (b <? 32) || (b =? 60) || (b =? 62) || (b =? 38)
  then str "\u00" ++ [hexDigit (b / 16); hexDigit (b mod 16)]
  else [b].

(** [skip] bytes of the current rune are still to be copied. *)
Fixpoint escape (skip : nat) (s : bytes) : bytes :=
  match s with
  | [] => []
  | b :: rest =>
      match skip with
      | S k => b :: escape k rest
      | O =>
          if b <? 0x80 then escapeASCII b ++ escape 0 rest
          else match runeLen s with
               | O => str "\ufffd" ++ escape 0 rest
               | S k =>
                   match rest with
                   | b1 :: b2 :: rest' =>
                       if (b =? 0xE2) && (b1 =? 0x80) && ((b2 =? 0xA8) || (b2 =? 0xA9))
                       then str "\u202" ++ [hexDigit (b2 mod 16)] ++ escape 0 rest'
                       else b :: escape k rest
                   | _ => b :: escape k rest
                   end
               end
      end
  end.

Definition quoted (s : bytes) : bytes := [34] ++ escape 0 s ++ [34].

Fixpoint commas (l : list bytes) : bytes :=
  match l with
  | [] => []
  | [x] => x
  | x :: l => x ++ [44] ++ commas l
  end.

Fixpoint encode (j : json) : bytes :=
  match j with
  | JNull => str "null"
  | JBool true => str "true"
  | JBool false => str "false"
  | JNum n => decimal n
  | JStr s => quoted s
  | JObj fields =>
      [123] ++ commas (map (fun f => quoted f.1 ++ [58] ++ encode f.2) fields) ++ [125]
  end.

(** Year, month and day of a day number counted from 1970. *)
Definition civil (days : Z) : Z * Z * Z :=
  let z := days + 719468 in
  let era := z / 146097 in
  let doe := z mod 146097 in
  let yoe := (doe - doe / 1460 + doe / 36524 - doe / 146096) / 365 in
  let doy := doe - (365 * yoe + yoe / 4 - yoe / 100) in
  let mp := (5 * doy + 2) / 153 in
  let m := if mp <? 10 then mp + 3 else mp - 9 in
  (yoe + era * 400 + (if m <=? 2 then 1 else 0), m, doy - (153 * mp + 2) / 5 + 1).

Fixpoint trimRightZeros (s : bytes) : bytes :=
  match s with 48 :: s => trimRightZeros s | _ => s end.

(** [Format(time.RFC3339Nano)] in UTC: the fraction without its trailing zeros. *)
Definition rfc3339Nano (t : Z) : bytes :=
  let secs := t / 1000000000 in
  let frac := t mod 1000000000 in
  let '(y, m, d) := civil (secs / 86400) in
  let sod := secs mod 86400 in
  let digits := reverse (trimRightZeros (reverse (padded 9 frac))) in
  padded 4 y ++ [45] ++ padded 2 m ++ [45] ++ padded 2 d ++ [84] ++
  padded 2 (sod / 3600) ++ [58] ++ padded 2 (sod / 60 mod 60) ++ [58] ++ padded 2 (sod mod 60) ++
  (if decide (digits = []) then [] else [46] ++ digits) ++ [90].

Definition jsonOpt {A} (f : A -> json) (o : option A) : json :=
  match o with Some x => f x | None => JNull end.

Definition jsonResolution (r : runtimeResolution) : json :=
  JObj [(str "width", JNum (Width r)); (str "height", JNum (Height r));
        (str "profile_idc", JNum (ProfileIDC r)); (str "level_idc", JNum (LevelIDC r));
        (str "observed_at", JStr (rfc3339Nano (ObservedAt r)))].
Definition jsonTransition (t : runtimeHDTransition) : json :=
  JObj [(str "observed", JBool (Observed t)); (str "elapsed_ms", jsonOpt JNum (Elapsed t))].
Definition jsonHealth (h : runtimeHealth) : json :=
  JObj [(str "gapped_idrs", JNum (GappedIDRs h)); (str "dropped_frames", JNum (DroppedFrames h));
        (str "missing_fragments", JNum (MissingFragments h)); (str "ack_pending", JNum (ACKPending h));
        (str "extended_media_rejected", JNum (ExtendedMediaRejected h))].
Definition jsonStatus (s : cameraRuntimeStatus) : json :=
  JObj [(str "schema_version", JNum (SchemaVersion s)); (str "status", JStr (Status s));
        (str "requested_quality", JStr (RequestedQuality s));
        (str "configured_hd_probe_wait_ms", JNum (ConfiguredHDProbeWaitMS s));
        (str "probe_resolution", jsonOpt jsonResolution (ProbeResolution s));
        (str "actual_resolution", jsonOpt jsonResolution (ActualResolution s));
        (str "hd_transition", jsonTransition (HDTransition s));
        (str "last_update", JStr (rfc3339Nano (LastUpdate s)));
        (str "health", jsonHealth (Health s))].

(** [append(data, '\n')] *)
Definition render (s : cameraRuntimeStatus) : bytes := encode (jsonStatus s) ++ [10].

Example rfc3339_2026 : rfc3339Nano 1767225600500000000 = str "2026-01-01T00:00:00.5Z".
Proof. vm_compute. reflexivity. Qed.
Example rfc3339_leap : rfc3339Nano 1709251199000000001 = str "2024-02-29T23:59:59.000000001Z".
Proof. vm_compute. reflexivity. Qed.

(** ** The file system

    Paths and the regular files at them; directories hold no state of interest. *)
Record file := mkFile { content : bytes; mode : Z }.
Notation fsys := (gmap bytes file).
(** [0o600] *)
Definition ownerOnly : Z := 384.

(** What the calls of one replacement return: [None] for success, or the text of the
    error.  [createTemp] also returns the name; [written] is how much of the data a
    failing [Write] put into the file. *)
Record fsCalls := mkCalls {
  mkdirAll : option bytes;
  createTemp : bytes + bytes;  (* error, or name *)
  chmod : option bytes;
  write_ : option bytes;
  written : nat;
  sync : option bytes;
  close_ : option bytes;
  rename : option bytes;
  remove : option bytes;
}.

(** The error, if any, and the file system after each call that changes it, the
    last one being the final one. *)
Definition atomicWriteRuntimeStatus (c : fsCalls) (path data : bytes) (fs : fsys)
    : option bytes * list fsys :=
  match mkdirAll c with
  | Some m => (Some (str "create status directory: " ++ m), [fs])
  | None =>
  match createTemp c with
  | inl m => (Some (str "create status temporary file: " ++ m), [fs])
  | inr tmp =>
      let fs1 := <[tmp := mkFile [] ownerOnly]> fs in
      (* the deferred function, when [err] is set *)
      let fail (m : bytes) (h : list fsys) (f : fsys) :=
        (Some m, h ++ [match remove c with None => delete tmp f | Some _ => f end]) in
      match chmod c with
      | Some m => fail (str "set status file mode: " ++ m) [fs; fs1] fs1
      | None =>
      match write_ c with
      | Some m =>
          let fs2 := <[tmp := mkFile (take (written c) data) ownerOnly]> fs1 in
          fail (str "write status file: " ++ m) [fs; fs1; fs2] fs2
      | None =>
          let fs2 := <[tmp := mkFile data ownerOnly]> fs1 in
          match sync c with
          | Some m => fail (str "sync status file: " ++ m) [fs; fs1; fs2] fs2
          | None =>
          match close_ c with
          | Some m => fail (str "close status file: " ++ m) [fs; fs1; fs2] fs2
          | None =>
          match rename c with
          | Some m => fail (str "replace status file: " ++ m) [fs; fs1; fs2] fs2
          | None => (None, [fs; fs1; fs2; <[path := mkFile data ownerOnly]> (delete tmp fs2)])
          end end end
      end end
  end end.

(** ** The writer

    A nil writer, made for an empty path, ignores every operation. *)
Record runtimeStatusWriter := mkWriter {
  path : bytes;
  firstSPSAt : Z;
  lastUpdate : option Z;
  state : cameraRuntimeStatus;
  lastError : bytes;
  disk : fsys;
  history : list fsys;   (* every state the disk went through *)
  warnings : list bytes;
}.
#[export] Instance eta_writer : Eta runtimeStatusWriter := fun w =>
  mkWriter (path w) (firstSPSAt w) (lastUpdate w) (state w) (lastError w) (disk w) (history w)
    (warnings w).

Definition writeLocked (now : Z) (c : fsCalls) (w : runtimeStatusWriter) : runtimeStatusWriter :=
  let now := match lastUpdate w with
             | Some t => if now <=? t then t + 1 else now
             | None => now
             end in
  let st := (state w) <| LastUpdate := now |> in
  let w := w <| lastUpdate := Some now |> <| state := st |> in
  let '(err, h) := atomicWriteRuntimeStatus c (path w) (render st) (disk w) in
  let w := w <| disk := default (disk w) (last h) |> <| history := history w ++ h |> in
  match err with
  | None => w <| lastError := [] |>
  | Some message =>
      if decide (message = lastError w) then w
      else w <| warnings := warnings w ++ [message] |> <| lastError := message |>
  end.

(** Truncation to milliseconds, as [Duration.Milliseconds]. *)
Definition milliseconds (d : Z) : Z := Z.quot d 1000000.

(** [Time.Sub] saturates at the limits of a duration. *)
Definition timeSub (t u : Z) : Z :=
  Z.max (-9223372036854775808) (Z.min 9223372036854775807 (t - u)).

Definition newRuntimeStatusWriterWithClock (path quality : bytes) (hdProbeWait : Z) (now : Z)
    (c : fsCalls) (fs : fsys) : option runtimeStatusWriter :=
  if decide (path = []) then None else
  Some (writeLocked now c
    (mkWriter path 0 None
       (mkStatus runtimeStatusSchemaVersion (str "starting") quality (milliseconds hdProbeWait)
          None None (mkTransition false None) 0 (mkHealth 0 0 0 0 0))
       [] fs [fs] [])).

Definition setStatus (status : bytes) (now : Z) (c : fsCalls) (w : runtimeStatusWriter)
    : runtimeStatusWriter :=
  writeLocked now c (w <| state := (state w) <| Status := status |> |>).

Definition markOffline (now : Z) (c : fsCalls) (w : runtimeStatusWriter) : runtimeStatusWriter :=
  let w := if decide (Status (state w) = str "error") then w
           else w <| state := (state w) <| Status := str "offline" |> |> in
  writeLocked now c w.

(** [seen] is the clock at the observation, [now] at the write. *)
Definition observeSPS (width height profileIDC levelIDC seen now : Z) (c : fsCalls)
    (w : runtimeStatusWriter) : runtimeStatusWriter :=
  let resolution := mkResolution width height profileIDC levelIDC seen in
  let w := match ProbeResolution (state w) with
           | None => w <| firstSPSAt := seen |>
                       <| state := (state w) <| ProbeResolution := Some resolution |> |>
           | Some _ => w
           end in
  let w := w <| state := (state w) <| ActualResolution := Some resolution |> |> in
  let w :=
    match ProbeResolution (state w) with
    | Some probe =>
        if bool_decide (RequestedQuality (state w) = str "hd") && (1920 <=? width) &&
           (1080 <=? height) && ((Width probe <? width) || (Height probe <? height))
        then
          let elapsed := milliseconds (timeSub seen (firstSPSAt w)) in
          w <| state := (state w) <| HDTransition :=
                mkTransition true (Some (if elapsed <? 0 then 0 else elapsed)) |> |>
        else w
    | None => w
    end in
  writeLocked now c w.

Definition updateHealth (snapshot : counters) (now : Z) (c : fsCalls) (w : runtimeStatusWriter)
    : runtimeStatusWriter :=
  writeLocked now c (w <| state := (state w) <| Health :=
    mkHealth (snapshot Ctr.idrFramesWithLoss) (snapshot Ctr.vidDropped)
      (snapshot Ctr.missingFragmentsTotal) (snapshot Ctr.ackSeenPending)
      (snapshot Ctr.extendedMediaRejected) |> |>).

(** Calls of the writer's methods, each with the clock and the file system's
    answers. *)
Inductive call :=
| SetStatus (status : bytes)
| MarkOffline
| ObserveSPS (width height profileIDC levelIDC seen : Z)
| UpdateHealth (snapshot : counters).

Definition perform (k : call) (now : Z) (c : fsCalls) (w : runtimeStatusWriter) : runtimeStatusWriter :=
  match k with
  | SetStatus s => setStatus s now c w
  | MarkOffline => markOffline now c w
  | ObserveSPS wd ht pr lv seen => observeSPS wd ht pr lv seen now c w
  | UpdateHealth s => updateHealth s now c w
  end.

Definition performAll (l : list (call * Z * fsCalls)) (w : runtimeStatusWriter) : runtimeStatusWriter :=
  foldl (fun w k => perform k.1.1 k.1.2 k.2 w) w l.

(** ** Replacement is atomic *)

(** [CreateTemp] makes a new file, which is not the status file itself. *)
Definition freshTemp (c : fsCalls) (path : bytes) (fs : fsys) : Prop :=
  match createTemp c with inr tmp => fs !! tmp = None /\ tmp <> path | inl _ => True end.

Definition callsSucceed (c : fsCalls) : Prop :=
  mkdirAll c = None /\ (exists tmp, createTemp c = inr tmp) /\ chmod c = None /\ write_ c = None /\
  sync c = None /\ close_ c = None /\ rename c = None.

Record replaced (c : fsCalls) (path data : bytes) (fs : fsys) (err : option bytes) (h : list fsys) : Prop := {
  rp_outcome : err = None <-> callsSucceed c;
  rp_always : Forall (fun f => f !! path = fs !! path \/ f !! path = Some (mkFile data ownerOnly)) h;
  rp_done : err = None -> last h = Some (<[path := mkFile data ownerOnly]> fs);
  rp_failed : err <> None -> exists f, last h = Some f /\ f !! path = fs !! path /\
                (remove c = None -> f = fs);
  rp_text : err <> Some [];
}.

Lemma temp_insert_path (fs : fsys) (tmp path : bytes) (f : file) :
  tmp <> path -> <[tmp := f]> fs !! path = fs !! path.
Proof. intros. by rewrite lookup_insert_ne. Qed.

Lemma untouched (c : fsCalls) (path data : bytes) (fs : fsys) (m : bytes) :
  m <> [] -> (mkdirAll c <> None \/ exists e, createTemp c = inl e) ->
  replaced c path data fs (Some m) [fs].
Proof.
  intros Hm Hc. split; [|constructor; [by left|constructor]|done|by exists fs|congruence].
  split; [done|]. intros (H1 & [tmp H2] & _). destruct Hc as [Hc|[e He]]; [done|congruence].
Qed.

(** Giving up with the temporary file [g]: it is removed again. *)
Lemma abandoned (c : fsCalls) (path data m tmp : bytes) (fs g : fsys) (h : list fsys) :
  m <> [] -> ~ callsSucceed c -> fs !! tmp = None -> tmp <> path ->
  (forall f, f ∈ fs :: h ++ [g] -> f = fs \/ exists x, f = <[tmp := x]> fs) ->
  replaced c path data fs (Some m)
    ((fs :: h ++ [g]) ++ [match remove c with None => delete tmp g | Some _ => g end]).
Proof.
  intros Hm Hc Hn Hne Hh.
  assert (forall f, f = fs \/ (exists x, f = <[tmp := x]> fs) -> f !! path = fs !! path) as Hsame.
  { intros f [->|[x ->]]; [done|by apply temp_insert_path]. }
  assert (g = fs \/ exists x, g = <[tmp := x]> fs) as Hg.
  { apply Hh. set_solver. }
  split; [split; [done|by intros]| |done| |congruence].
  - apply Forall_app. split; [apply Forall_forall; intros f Hf; left; apply Hsame; by apply Hh|].
    constructor; [|constructor]. left. destruct (remove c); [by apply Hsame|].
    rewrite lookup_delete_ne by done. by apply Hsame.
  - intros _. eexists. rewrite last_snoc. split; [reflexivity|]. split.
    + destruct (remove c); [by apply Hsame|]. rewrite lookup_delete_ne by done. by apply Hsame.
    + intros ->. destruct Hg as [->|[x ->]]; [by apply delete_id|by rewrite delete_insert_id].
Qed.
Lemma atomicWrite_spec (c : fsCalls) (path data : bytes) (fs : fsys) :
  freshTemp c path fs ->
  let '(err, h) := atomicWriteRuntimeStatus c path data fs in replaced c path data fs err h.
Proof.
  intros Hf. unfold atomicWriteRuntimeStatus, freshTemp in *.
  destruct (mkdirAll c) eqn:E1; [apply untouched; [done|left; congruence]|].
  destruct (createTemp c) as [m|tmp] eqn:E2; [apply untouched; [done|right; eauto]|].
  destruct Hf as [Hn Hne].
  assert (forall x y, <[tmp := y]> (<[tmp := x]> fs) = <[tmp := y]> fs) as Hii
    by (intros; apply insert_insert_eq).
  destruct (chmod c) eqn:E3.
  { apply (abandoned c path data _ tmp fs _ []); [done| |done..|].
    - intros (_ & _ & ? & _). congruence.
    - intros f. cbn. rewrite !elem_of_cons, elem_of_nil. naive_solver. }
  rewrite !Hii.
  assert (forall f x y, f ∈ fs :: [<[tmp := x]> fs] ++ [<[tmp := y]> fs] ->
            f = fs \/ exists z, f = <[tmp := z]> fs) as Hh.
  { intros f x y. cbn. rewrite !elem_of_cons, elem_of_nil. naive_solver. }
  assert (forall d m, m <> [] -> ~ callsSucceed c ->
    replaced c path data fs (Some m) ((fs :: [<[tmp := mkFile [] ownerOnly]> fs] ++ [<[tmp := mkFile d ownerOnly]> fs]) ++
      [match remove c with None => delete tmp (<[tmp := mkFile d ownerOnly]> fs)
                         | Some _ => <[tmp := mkFile d ownerOnly]> fs end])) as Hfail.
  { intros d m Hm Hc. apply (abandoned c path data m tmp fs); auto. intros f. apply Hh. }
  unfold callsSucceed in Hfail.
  destruct (write_ c) eqn:E4; [apply Hfail; [done|intuition congruence]|].
  destruct (sync c) eqn:E5; [apply Hfail; [done|intuition congruence]|].
  destruct (close_ c) eqn:E6; [apply Hfail; [done|intuition congruence]|].
  destruct (rename c) eqn:E7; [apply Hfail; [done|intuition congruence]|].
  rewrite delete_insert_id by done. cbv beta iota. split.
  - unfold callsSucceed. naive_solver.
  - repeat (apply Forall_cons; split; [first [by left|left; by apply temp_insert_path
                                              |right; by rewrite lookup_insert_eq]|]).
    constructor.
  - done.
  - done.
  - done.
Qed.

(** ** One write *)

(** What a method changes before it writes: only the state and the time of the first
    parameter set, and never the stamp of the last write. *)
Record prepared (w w' : runtimeStatusWriter) : Prop := {
  pr_path : path w' = path w;
  pr_last : lastUpdate w' = lastUpdate w;
  pr_stamp : LastUpdate (state w') = LastUpdate (state w);
  pr_error : lastError w' = lastError w;
  pr_disk : disk w' = disk w;
  pr_history : history w' = history w;
}.

Lemma perform_prepares k now c w :
  exists w', prepared w w' /\ perform k now c w = writeLocked now c w'.
Proof.
  destruct k; cbn [perform]; unfold setStatus, markOffline, observeSPS, updateHealth.
  1,2,4: eexists; split; [|reflexivity]; first [by split|case_decide; by split].
  eexists. split; [|reflexivity]. cbv zeta.
  destruct (ProbeResolution (state w)) eqn:E; cbn; rewrite ?E; cbn; case_match; by split.
Qed.

Record wrote (now : Z) (c : fsCalls) (w w' : runtimeStatusWriter) : Prop := {
  wr_path : path w' = path w;
  wr_stamp : lastUpdate w' = Some (LastUpdate (state w'));
  wr_later : now <= LastUpdate (state w') /\
             (forall t, lastUpdate w = Some t -> t < LastUpdate (state w'));
  wr_state : state w' = (state w) <| LastUpdate := LastUpdate (state w') |>;
  wr_seen : forall f, f ∈ history w' -> f ∈ history w \/
              f !! path w = disk w !! path w \/
              f !! path w = Some (mkFile (render (state w')) ownerOnly);
  wr_ok : lastError w' = [] -> disk w' = <[path w := mkFile (render (state w')) ownerOnly]> (disk w);
  wr_error : lastError w' <> [] -> disk w' !! path w = disk w !! path w;
  wr_calls : lastError w' = [] <-> callsSucceed c;
}.

#[local] Opaque render.

Lemma writeLocked_spec now c w :
  freshTemp c (path w) (disk w) -> wrote now c w (writeLocked now c w).
Proof.
  intros Hf. unfold writeLocked.
  set (t := match lastUpdate w with Some t => if now <=? t then t + 1 else now | None => now end).
  assert (now <= t /\ forall u, lastUpdate w = Some u -> u < t) as Ht.
  { unfold t. destruct (lastUpdate w) as [u|]; [|split; [lia|done]].
    destruct (Z.leb_spec now u); split; try lia; intros ? [= <-]; lia. }
  clearbody t. cbv zeta.
  set (st := (state w) <| LastUpdate := t |>).
  pose proof (atomicWrite_spec c (path w) (render st) (disk w) Hf) as H.
  cbn [path disk state lastUpdate history lastError upd].
  destruct (atomicWriteRuntimeStatus c (path w) (render st) (disk w)) as [err h] eqn:E. clear E.
  destruct H as [Ho Ha Hd Hr Hm]. rewrite Forall_forall in Ha.
  assert (forall g, g ∈ history w ++ h -> g ∈ history w \/ g !! path w = disk w !! path w \/
            g !! path w = Some (mkFile (render st) ownerOnly)) as Hseen.
  { intros g [Hg|Hg]%elem_of_app; [by left|right; by apply Ha]. }
  destruct err as [m|].
  - destruct (Hr ltac:(congruence)) as (f & Hl & Hp & _). rewrite Hl.
    assert (~ callsSucceed c) as Hn by (intros Hx%Ho; congruence).
    assert (m <> []) as Hm' by congruence.
    destruct (decide (m = lastError w)) as [->|Hne].
    + split; cbn; try reflexivity; try assumption; [congruence|intros _; exact Hp|].
      split; [congruence|intros Hx; by destruct Hn].
    + split; cbn; try reflexivity; try assumption; [congruence|intros _; exact Hp|].
      split; [congruence|intros Hx; by destruct Hn].
  - rewrite (Hd eq_refl). split; cbn; try reflexivity; try assumption; [congruence|].
    split; [intros _; by apply Ho|reflexivity].
Qed.

(** ** The life of the file *)

(** The writer after each call. *)
Fixpoint trace (l : list (call * Z * fsCalls)) (w : runtimeStatusWriter) : list runtimeStatusWriter :=
  match l with
  | [] => []
  | k :: l => let w := perform k.1.1 k.1.2 k.2 w in w :: trace l w
  end.

(** Every temporary file is a new one. *)
Fixpoint freshRun (l : list (call * Z * fsCalls)) (w : runtimeStatusWriter) : Prop :=
  match l with
  | [] => True
  | k :: l => freshTemp k.2 (path w) (disk w) /\ freshRun l (perform k.1.1 k.1.2 k.2 w)
  end.

Definition shows (old : option file) (p : bytes) (ws : list runtimeStatusWriter) (f : fsys) : Prop :=
  f !! p = old \/ exists v, v ∈ ws /\ f !! p = Some (mkFile (render (state v)) ownerOnly).

Record file_inv (old : option file) (p : bytes) (ws : list runtimeStatusWriter) (w : runtimeStatusWriter)
    : Prop := {
  fi_path : path w = p;
  fi_stamp : lastUpdate w = Some (LastUpdate (state w));
  fi_seen : forall f, f ∈ history w -> shows old p ws f;
  fi_disk : shows old p ws (disk w);
  fi_now : lastError w = [] -> disk w !! p = Some (mkFile (render (state w)) ownerOnly);
}.

Lemma perform_wrote k now c w :
  freshTemp c (path w) (disk w) ->
  exists w', prepared w w' /\ wrote now c w' (perform k now c w).
Proof.
  intros Hf. destruct (perform_prepares k now c w) as (w' & Hp & ->). exists w'.
  split; [done|]. apply writeLocked_spec. by rewrite (pr_path _ _ Hp), (pr_disk _ _ Hp).
Qed.

Lemma wrote_inv old p ws now c w w' :
  shows old p ws (disk w) -> path w = p -> (forall f, f ∈ history w -> shows old p ws f) ->
  wrote now c w w' -> file_inv old p (ws ++ [w']) w'.
Proof.
  intros Hd <- Hh [].
  assert (forall f, shows old (path w) ws f -> shows old (path w) (ws ++ [w']) f) as Hmore.
  { intros f [?|(v & ? & ?)]; [by left|right; exists v; set_solver]. }
  assert (forall f, f !! path w = disk w !! path w -> shows old (path w) (ws ++ [w']) f) as Hsame.
  { intros f Hf. apply Hmore. unfold shows in *. by rewrite Hf. }
  assert (forall f, f !! path w = Some (mkFile (render (state w')) ownerOnly) ->
            shows old (path w) (ws ++ [w']) f) as Hnew.
  { intros f Hf. right. exists w'. set_solver. }
  split; [done|done| | |].
  - intros f Hf. destruct (wr_seen0 f Hf) as [?|[?|?]]; auto.
  - destruct (decide (lastError w' = [])) as [E|E]; [|by apply Hsame, wr_error0].
    rewrite wr_ok0 by done. apply Hnew. by rewrite lookup_insert_eq.
  - intros E. rewrite wr_ok0 by done. by rewrite lookup_insert_eq.
Qed.

Lemma perform_inv old p ws k w :
  file_inv old p ws w -> freshTemp k.2 (path w) (disk w) ->
  let w' := perform k.1.1 k.1.2 k.2 w in
  file_inv old p (ws ++ [w']) w' /\ LastUpdate (state w) < LastUpdate (state w').
Proof.
  intros [] Hf. cbv zeta. destruct (perform_wrote k.1.1 k.1.2 k.2 w Hf) as (w1 & [] & Hw). split.
  - eapply (wrote_inv old p ws); [| | |exact Hw]; congruence || rewrite ?pr_history0, ?pr_disk0; done.
  - destruct Hw as [_ _ [_ Hlt] _ _ _ _ _]. apply Hlt. congruence.
Qed.

Lemma file_run old p l : forall ws w,
  file_inv old p ws w -> freshRun l w ->
  file_inv old p (ws ++ trace l w) (performAll l w) /\
  StronglySorted Z.lt (LastUpdate (state w) :: map (fun v => LastUpdate (state v)) (trace l w)).
Proof.
  induction l as [|k l IH]; intros ws w Hw Hf; cbn [trace performAll foldl map].
  { rewrite app_nil_r. split; [done|repeat constructor]. }
  destruct Hf as [Hf Hl]. destruct (perform_inv old p ws k w Hw Hf) as [Hw' Hlt].
  destruct (IH _ _ Hw' Hl) as [IH1 IH2]. rewrite <- app_assoc in IH1. split; [exact IH1|].
  constructor; [exact IH2|]. apply StronglySorted_inv in IH2 as [_ IH2].
  constructor; [done|]. eapply Forall_impl; [exact IH2|]. cbn. intros. lia.
Qed.

(** C19. At every moment, in particular if the process dies in the middle of a write, the
    file is either what it was before the session or the complete text of a state
    that was published, readable by its owner only; the texts' stamps strictly
    increase; and unless the last write failed the file shows the current state. *)
Theorem status_file (path quality : bytes) (wait now : Z) (c : fsCalls) (fs : fsys)
    (w0 : runtimeStatusWriter) (l : list (call * Z * fsCalls))
    (Hnew : newRuntimeStatusWriterWithClock path quality wait now c fs = Some w0)
    (Htemp : freshTemp c path fs /\ freshRun l w0) :
  let w := performAll l w0 in
  let ws := w0 :: trace l w0 in
  (forall f, f ∈ history w -> f !! path = fs !! path \/
     exists v, v ∈ ws /\ f !! path = Some (mkFile (render (state v)) ownerOnly)) /\
  StronglySorted Z.lt (map (fun v => LastUpdate (state v)) ws) /\
  (lastError w = [] -> disk w !! path = Some (mkFile (render (state w)) ownerOnly)).
Proof.
  destruct Htemp as [Hc Hl]. unfold newRuntimeStatusWriterWithClock in Hnew.
  case_decide; [done|]. injection Hnew as Hnew.
  match type of Hnew with writeLocked _ _ ?wi = _ =>
    assert (wrote now c wi w0) as Hw by (rewrite <- Hnew; by apply writeLocked_spec)
  end.
  eapply (wrote_inv (fs !! path) path []) in Hw; [|by left|done|].
  2: { intros f Hf. left. cbn in Hf. apply list_elem_of_singleton in Hf. by rewrite Hf. }
  destruct (file_run _ _ l _ _ Hw Hl) as [[] Hs]. split; [done|]. split; [exact Hs|done].
Qed.

(** ** What the state says *)

#[local] Arguments str _ : simpl never.

Definition observations (l : list (call * Z * fsCalls)) : list runtimeResolution :=
  omap (fun k => match k.1.1 with
                 | ObserveSPS w h p lv seen => Some (mkResolution w h p lv seen)
                 | _ => None
                 end) l.

(** The status word: a closed session is offline, unless it had failed. *)
Definition statusWord (l : list (call * Z * fsCalls)) : bytes :=
  foldl (fun s k => match k.1.1 with
                    | SetStatus s' => s'
                    | MarkOffline => if decide (s = str "error") then s else str "offline"
                    | _ => s
                    end) (str "starting") l.

(** A full-HD picture larger than the one the session was probed with. *)
Definition isUpgrade (probe r : runtimeResolution) : bool :=
  (1920 <=? Width r) && (1080 <=? Height r) &&
  ((Width probe <? Width r) || (Height probe <? Height r)).

Record reflects (quality : bytes) (l : list (call * Z * fsCalls)) (w : runtimeStatusWriter) : Prop := {
  rf_quality : RequestedQuality (state w) = quality;
  rf_probe : ProbeResolution (state w) = head (observations l);
  rf_actual : ActualResolution (state w) = last (observations l);
  rf_first : forall r, head (observations l) = Some r -> firstSPSAt w = ObservedAt r;
  rf_status : Status (state w) = statusWord l;
  rf_hd : Observed (HDTransition (state w)) = true <->
          quality = str "hd" /\ exists probe r, head (observations l) = Some probe /\
            r ∈ observations l /\ isUpgrade probe r = true;
  rf_elapsed : match Elapsed (HDTransition (state w)) with
               | Some e => 0 <= e /\ Observed (HDTransition (state w)) = true
               | None => Observed (HDTransition (state w)) = false
               end;
}.

Lemma observations_snoc l k :
  observations (l ++ [k]) =
  observations l ++ match k.1.1 with
                    | ObserveSPS w h p lv seen => [mkResolution w h p lv seen]
                    | _ => []
                    end.
Proof. unfold observations. rewrite omap_app. cbn. by destruct (k.1.1). Qed.

Lemma statusWord_snoc l k :
  statusWord (l ++ [k]) =
  match k.1.1 with
  | SetStatus s => s
  | MarkOffline => if decide (statusWord l = str "error") then statusWord l else str "offline"
  | _ => statusWord l
  end.
Proof. unfold statusWord. by rewrite foldl_app. Qed.

(** Writing changes none of this. *)
Lemma writeLocked_keeps now c w :
  let w' := writeLocked now c w in
  firstSPSAt w' = firstSPSAt w /\ exists t, state w' = (state w) <| LastUpdate := t |>.
Proof.
  unfold writeLocked. cbv zeta. destruct (atomicWriteRuntimeStatus _ _ _ _) as [[m|] h];
    cbn; [case_decide|]; (split; [reflexivity|]); eexists; reflexivity.
Qed.

Lemma reflects_write quality l now c w :
  reflects quality l w -> reflects quality l (writeLocked now c w).
Proof.
  intros []. destruct (writeLocked_keeps now c w) as [E1 [t E2]].
  split; rewrite ?E1, ?E2; cbn; assumption.
Qed.

Lemma milliseconds_nonneg d : 0 <= (if milliseconds d <? 0 then 0 else milliseconds d).
Proof. destruct (Z.ltb_spec (milliseconds d) 0); lia. Qed.

Lemma reflects_step quality l k w :
  reflects quality l w -> reflects quality (l ++ [k]) (perform k.1.1 k.1.2 k.2 w).
Proof.
  destruct k as [[k now] c]. intros Hw. cbn [fst snd].
  destruct k as [s| |wd ht pr lv seen|sn]; cbn [perform].
  - apply reflects_write. destruct Hw. split; rewrite ?observations_snoc, ?statusWord_snoc; cbn;
      rewrite ?app_nil_r; done.
  - apply reflects_write. destruct Hw. rewrite rf_status0.
    case_decide; split; rewrite ?observations_snoc, ?statusWord_snoc; cbn; rewrite ?app_nil_r; try done.
    + by rewrite decide_True.
    + by rewrite decide_False.
  - unfold observeSPS. apply reflects_write. cbv zeta.
    set (r := mkResolution wd ht pr lv seen). destruct Hw.
    assert (observations (l ++ [(ObserveSPS wd ht pr lv seen, now, c)]) = observations l ++ [r]) as Eo
      by apply observations_snoc.
    assert (statusWord (l ++ [(ObserveSPS wd ht pr lv seen, now, c)]) = statusWord l) as Es
      by (by rewrite statusWord_snoc).
    rewrite rf_probe0. destruct (observations l) as [|probe os] eqn:El; cbn [head].
    + (* the first parameter set *)
      cbn. rewrite !Z.ltb_irrefl. cbn. rewrite andb_false_r. split; cbn; rewrite ?Eo, ?Es; try done.
      * intros r0. cbn. by intros [= <-].
      * rewrite rf_hd0. split; [by intros (_ & ? & ? & ? & _)|].
        intros (_ & p & r0 & [= <-] & Hr & Hu). apply list_elem_of_singleton in Hr as ->.
        unfold isUpgrade in Hu. by rewrite !Z.ltb_irrefl, andb_false_r in Hu.
    + cbn in rf_probe0. cbn. rewrite rf_probe0. cbn.
      assert (reflects quality (l ++ [(ObserveSPS wd ht pr lv seen, now, c)])
                (w <| state := (state w) <| ActualResolution := Some r |> <| HDTransition :=
                   if bool_decide (quality = str "hd") && isUpgrade probe r
                   then mkTransition true (Some (if milliseconds (timeSub seen (firstSPSAt w)) <? 0 then 0
                          else milliseconds (timeSub seen (firstSPSAt w))))
                   else HDTransition (state w) |> |>)) as Hgoal.
      { split; cbn; rewrite ?Eo, ?Es; try done.
        - by rewrite last_snoc.
        - destruct (bool_decide_reflect (quality = str "hd")) as [Eq|Eq]; cbn.
          + destruct (isUpgrade probe r) eqn:Eu; cbn.
            * split; [intros _; split; [exact Eq|]|by intros _]. exists probe, r. set_solver.
            * rewrite rf_hd0. split; intros (_ & p & r0 & [= <-] & Hr & Hu); (split; [exact Eq|]).
              -- exists probe, r0. set_solver.
              -- exists probe, r0. assert (r0 <> r) by congruence. set_solver.
          + rewrite rf_hd0. naive_solver.
        - destruct (bool_decide (quality = str "hd") && isUpgrade probe r); cbn; [|exact rf_elapsed0].
          split; [apply milliseconds_nonneg|done]. }
      unfold isUpgrade in Hgoal. rewrite rf_quality0. rewrite !andb_assoc in Hgoal.
      destruct (_ && _); cbn in Hgoal; rewrite rf_quality0, rf_probe0 in Hgoal; [exact Hgoal|].
      destruct w as [? ? ? [] ? ? ? ?]. cbn in *. subst. exact Hgoal.
  - apply reflects_write. destruct Hw. split; rewrite ?observations_snoc, ?statusWord_snoc; cbn;
      rewrite ?app_nil_r; done.
Qed.

(** C20. The status file says what the session saw: the first resolution as the probe's,
    the last as the actual one, the last status word but for an error surviving the
    close, and an HD transition exactly when HD was asked for and a full-HD picture
    larger than the probe's arrived, with a time that is never negative. *)
Theorem status_reflects (path quality : bytes) (wait now : Z) (c : fsCalls) (fs : fsys)
    (w0 : runtimeStatusWriter) (l : list (call * Z * fsCalls))
    (Hnew : newRuntimeStatusWriterWithClock path quality wait now c fs = Some w0) :
  reflects quality l (performAll l w0).
Proof.
  assert (reflects quality [] w0) as H0.
  { unfold newRuntimeStatusWriterWithClock in Hnew. case_decide; [done|]. injection Hnew as <-.
    apply reflects_write. split; cbn; try done. by split; [|intros (_ & ? & ? & ? & _)]. }
  revert H0. rewrite <- (app_nil_l l) at 1. clear Hnew. generalize (@nil (call * Z * fsCalls)) as pre.
  intros pre. revert pre w0. induction l as [|k l IH]; intros pre w0 H0; [by rewrite app_nil_r|].
  cbn [performAll foldl]. rewrite cons_middle, app_assoc. apply IH. by apply reflects_step.
Qed.

(** ** Strings in the text

    What a reader of the file makes of a quoted string: the escapes of JSON, a
    [\u] escape as the UTF-8 bytes of its code point. *)
Definition unhex (d : Z) : option Z :=
  if isDigit d then Some (d - 48) else if inRange 97 102 d then Some (d - 87) else None.
Definition utf8 (v : Z) : bytes :=
  if v <? 0x80 then [v]
  else if v <? 0x800 then [0xC0 + v / 64; 0x80 + v mod 64]
  else [0xE0 + v / 4096; 0x80 + v / 64 mod 64; 0x80 + v mod 64].

Fixpoint unquote (s : bytes) : option (bytes * bytes) :=
  match s with
  | [] => None
  | 34 :: rest => Some ([], rest)
  | 92 :: c :: rest =>
      match c, rest with
      | 117, h1 :: h2 :: h3 :: h4 :: rest =>
          a ← unhex h1; b ← unhex h2; c ← unhex h3; d ← unhex h4;
          '(t, k) ← unquote rest; Some (utf8 (((a * 16 + b) * 16 + c) * 16 + d) ++ t, k)
      | _, _ =>
          '(t, k) ← unquote rest;
          if (c =? 92) || (c =? 34) then Some (c :: t, k)
          else if c =? 98 then Some (8 :: t, k) else if c =? 102 then Some (12 :: t, k)
          else if c =? 110 then Some (10 :: t, k) else if c =? 114 then Some (13 :: t, k)
          else if c =? 116 then Some (9 :: t, k) else None
      end
  | b :: rest => if b <? 32 then None else '(t, k) ← unquote rest; Some (b :: t, k)
  end.

(** Well-formed UTF-8, of which [skip] bytes of the first rune are past. *)
Fixpoint validUTF8 (skip : nat) (s : bytes) : bool :=
  match s with
  | [] => true
  | b :: rest =>
      match skip with
      | S k => validUTF8 k rest
      | O => if b <? 0x80 then validUTF8 0 rest
             else match runeLen s with O => false | S k => validUTF8 k rest end
      end
  end.

Lemma unquote_raw b s : 32 <= b -> b <> 34 -> b <> 92 ->
  unquote (b :: s) = ('(t, k) ← unquote s; Some (b :: t, k)).
Proof.
  intros H1 H2 H3. cbn [unquote]. rewrite (proj2 (Z.ltb_ge b 32)) by lia.
  destruct b as [|p|p]; [done| |lia].
  do 7 (destruct p as [p|p|]; try reflexivity; try lia).
Qed.

Lemma unquote_control n s : (n < 32)%nat ->
  let b := Z.of_nat n in
  unquote ((str "\u00" ++ [hexDigit (b / 16); hexDigit (b mod 16)]) ++ s) =
  ('(t, k) ← unquote s; Some (b :: t, k)).
Proof. do 32 (destruct n as [|n]; [intros _; reflexivity|]). lia. Qed.

Lemma unquote_ascii b s : 0 <= b < 0x80 ->
  unquote (escapeASCII b ++ s) = ('(t, k) ← unquote s; Some (b :: t, k)).
Proof.
  intros Hb. unfold escapeASCII.
  destruct ((b =? 92) || (b =? 34)) eqn:E1.
  { apply orb_true_iff in E1 as [->%Z.eqb_eq| ->%Z.eqb_eq]; reflexivity. }
  do 5 match goal with |- context [if b =? ?n then _ else _] =>
         destruct (Z.eqb_spec b n) as [->|]; [reflexivity|] end.
  destruct ((b <? 32) || (b =? 60) || (b =? 62) || (b =? 38)) eqn:E2.
  - assert (b < 32 \/ b = 60 \/ b = 62 \/ b = 38) as Hb' by lia. clear E1 E2.
    destruct Hb' as [Hb'|[->|[->| ->]]]; [|reflexivity..].
    rewrite <- (Z2Nat.id b) by lia. apply unquote_control. lia.
  - apply unquote_raw; lia.
Qed.

Lemma runeLen_tail b rest k : runeLen (b :: rest) = S k ->
  (k <= length rest)%nat /\ Forall (fun c => 0x80 <= c) (take k rest).
Proof.
  unfold runeLen, inRange. destruct rest as [|b1 [|b2 [|b3 rest]]]; try done; intros H;
    repeat case_match; simplify_eq; cbn; split; try lia;
    repeat (apply Forall_cons; split; [lia|]); constructor.
Qed.

Lemma unquote_separator b2 s : b2 = 0xA8 \/ b2 = 0xA9 ->
  unquote ((str "\u202" ++ [hexDigit (b2 mod 16)]) ++ s) =
  ('(t, k) ← unquote s; Some (0xE2 :: 0x80 :: b2 :: t, k)).
Proof. by intros [->| ->]. Qed.

Lemma unquote_escape s : forall skip rest,
  Forall is_byte s -> validUTF8 skip s = true -> (skip <= length s)%nat ->
  Forall (fun c => 0x80 <= c) (take skip s) ->
  unquote (escape skip s ++ 34 :: rest) = Some (s, rest).
Proof.
  induction s as [s IH] using (induction_ltof1 _ length). unfold ltof in IH.
  intros skip rest Hs Hv Hlen Htake. destruct s as [|b s]; [by destruct skip|].
  apply Forall_cons in Hs as [Hb Hs]. unfold is_byte in Hb.
  assert (forall k, validUTF8 k s = true -> (k <= length s)%nat -> Forall (fun c => 0x80 <= c) (take k s) ->
    0x80 <= b -> unquote ((b :: escape k s) ++ 34 :: rest) = Some (b :: s, rest)) as Hraw.
  { intros k Hk1 Hk2 Hk3 Hb'. cbn [app]. rewrite unquote_raw by lia.
    by rewrite (IH s ltac:(cbn; lia) k rest). }
  destruct skip as [|k]; cbn [escape validUTF8] in *.
  - destruct (Z.ltb_spec b 0x80).
    + rewrite <- app_assoc, unquote_ascii by lia.
      rewrite (IH s ltac:(cbn; lia) 0%nat rest); cbn; try done; lia.
    + destruct (runeLen (b :: s)) as [|k] eqn:Er; [done|]. apply runeLen_tail in Er as Ht.
      destruct Ht as [Ht1 Ht2].
      destruct s as [|b1 [|b2 s]]; try (apply Hraw; done || lia).
      destruct (_ && _) eqn:E; [|apply Hraw; done || lia].
      apply andb_true_iff in E as [[Eb Eb1]%andb_true_iff Eb2%orb_true_iff].
      apply Z.eqb_eq in Eb, Eb1. subst b b1. rewrite !Z.eqb_eq in Eb2.
      rewrite (app_assoc (str "\u202")), <- app_assoc, unquote_separator by done.
      assert (k = 2%nat) as -> by (destruct Eb2; subst b2; cbn in Er; congruence).
      rewrite !Forall_cons in Hs. destruct Hs as (_ & _ & Hs).
      rewrite (IH s ltac:(cbn; lia) 0%nat rest); cbn; try done; lia.
  - apply Forall_cons in Htake as [Hb' Htake]. cbn in Hlen. apply Hraw; done || lia.
Qed.

(** A requested quality, or any other string of the file, is read back as it was: for
    every well-formed UTF-8 text the reader of the quoted string gets that text and
    stops at its closing quote, whatever follows. *)
Theorem json_string_roundtrip (s rest : bytes)
    (Hbytes : Forall is_byte s) (Hvalid : validUTF8 0 s = true) :
  exists body, quoted s = 34 :: body /\ unquote (body ++ rest) = Some (s, rest).
Proof.
  exists (escape 0 s ++ [34]). split; [reflexivity|]. rewrite <- app_assoc.
  apply unquote_escape; [done..|lia|constructor].
Qed.

Definition sample : bytes := str "a" ++ [34; 10; 0xC3; 0xA9; 0xE2; 0x80; 0xA8; 60].

Lemma json_string_roundtrip_witness :
  exists body, quoted sample = 34 :: body /\ unquote (body ++ str ",") = Some (sample, str ",").
Proof.
  apply json_string_roundtrip; [|reflexivity].
  repeat (apply Forall_cons; split; [unfold is_byte; split; vm_compute; congruence|]). constructor.
Defined.

(** ** A session's file *)

Definition demoCalls (n : Z) (renamed : option bytes) : fsCalls :=
  mkCalls None (inr (str "/run/petlibro/.petlibro-status-" ++ [n])) None None 0 None None renamed None.
Definition demoPath : bytes := str "/run/petlibro/kitchen.json".
Definition demoLog : list (call * Z * fsCalls) :=
  [ (ObserveSPS 640 360 77 30 2000000000, 2000000000, demoCalls 50 None);
    (SetStatus (str "connected"), 2000000000, demoCalls 51 (Some (str "no space left on device")));
    (ObserveSPS 1920 1080 100 40 3500000000, 3500000000, demoCalls 52 None);
    (MarkOffline, 3400000000, demoCalls 53 None) ].

Example demo_transition :
  option_map (fun w => (HDTransition (state w), Status (state w), LastUpdate (state w), warnings w))
    (option_map (performAll demoLog)
       (newRuntimeStatusWriterWithClock demoPath (str "hd") 0 1000000000 (demoCalls 49 None) ∅)) =
  Some (mkTransition true (Some 1500), str "offline", 3500000001,
        [str "replace status file: no space left on device"]).
Proof. vm_compute. reflexivity. Qed.

Lemma status_file_witness :
  exists w0, newRuntimeStatusWriterWithClock demoPath (str "hd") 0 1000000000 (demoCalls 49 None) ∅ = Some w0 /\
    forall f, f ∈ history (performAll demoLog w0) -> f !! demoPath = None \/
      exists v, v ∈ w0 :: trace demoLog w0 /\ f !! demoPath = Some (mkFile (render (state v)) ownerOnly).
Proof.
  eexists. split; [reflexivity|].
  refine (proj1 (status_file demoPath (str "hd") 0 1000000000 (demoCalls 49 None) ∅ _ demoLog eq_refl _)).
  unfold demoLog, freshRun, freshTemp. repeat split; vm_compute; congruence.
Defined.

Lemma status_reflects_witness :
  exists w0, newRuntimeStatusWriterWithClock demoPath (str "hd") 0 1000000000 (demoCalls 49 None) ∅ = Some w0 /\
    reflects (str "hd") demoLog (performAll demoLog w0).
Proof.
  eexists. split; [reflexivity|].
  eapply (status_reflects demoPath (str "hd") 0 1000000000 (demoCalls 49 None) (∅ : fsys)). reflexivity.
Defined.
