(* ===== verification/Writer.v ===== *)
(** The bit writer of [pkg/bits/writer.go] and its abstraction: the bits written so
    far.  The writes are state-passing functions; the current byte, which the code
    keeps a pointer to, is the last one of the buffer while it has bits left. *)

From S2P Require Import Prelude Bits.

Record Writer := mkWriter {
  wbuf : bytes;
  room : Z;      (* bits left in the last byte *)
}.

Definition NewWriter (b : bytes) : Writer := mkWriter b 0.

(** [*w.byte |= v] *)
Definition orLast (v : Z) (b : bytes) : bytes :=
  match reverse b with [] => [] | x :: r => reverse (Z.lor x v :: r) end.

Definition WriteBit (b : Z) (w : Writer) : Writer :=
  let w := if room w =? 0 then mkWriter (wbuf w ++ [0]) 7 else mkWriter (wbuf w) (room w - 1) in
  mkWriter (orLast (Z.shiftl (Z.land b 1) (room w)) (wbuf w)) (room w).

(** [for i := n - 1; i != 255; i--], for values of any width. *)
Fixpoint WriteBits (v : Z) (n : nat) (w : Writer) : Writer :=
  match n with
  | O => w
  | S i => WriteBits v i (WriteBit (Z.land (Z.shiftr v (Z.of_nat i)) 1) w)
  end.

Definition WriteAllBits (bit : Z) (n : nat) (w : Writer) : Writer := Nat.iter n (WriteBit bit) w.
Definition WriteBool (b : bool) (w : Writer) : Writer := WriteBit (if b then 1 else 0) w.

(** Byte writes.  Off a byte boundary the code writes the bytes twice, as here, and a bit
    written after that goes to the byte before the last one, which is not modelled. *)
Definition append (b : bytes) (w : Writer) : Writer := mkWriter (wbuf w ++ b) (room w).
Definition WriteByte (b : Z) (w : Writer) : Writer :=
  append [b] (if room w =? 0 then w else WriteBits b 8 w).
Definition WriteUint16 (v : Z) (w : Writer) : Writer :=
  append [u8 (Z.shiftr v 8); u8 v] (if room w =? 0 then w else WriteBits v 16 w).
Definition WriteBytes (b : bytes) (w : Writer) : Writer :=
  append b (if room w =? 0 then w else foldl (fun w x => WriteByte x w) w b).

Definition WriterBytes (w : Writer) : bytes := wbuf w.
Definition WriterLen (w : Writer) : Z := len (wbuf w).
Definition WriterReset (w : Writer) : Writer := mkWriter [] 0.

(** ** The bits written *)

Definition writer_wf (w : Writer) : Prop :=
  bytes_ok (wbuf w) /\ 0 <= room w < 8 /\
  (0 < room w -> exists l x, wbuf w = l ++ [x] /\ x mod 2 ^ room w = 0).

Definition written (w : Writer) : list bool :=
  take (8 * length (wbuf w) - Z.to_nat (room w)) (flat_map (bits_of 8) (wbuf w)).

(** A write that appends the bits [l]. *)
Definition writes (m : Writer -> Writer) (l : list bool) : Prop :=
  forall w, writer_wf w -> writer_wf (m w) /\ written (m w) = written w ++ l.

Lemma writes_nil : writes id [].
Proof. intros w Hw. by rewrite app_nil_r. Qed.

Lemma writes_seq m k p q : writes m p -> writes k q -> writes (fun w => k (m w)) (p ++ q).
Proof.
  intros Hm Hk w Hw. destruct (Hm w Hw) as [H1 E1]. destruct (Hk _ H1) as [H2 E2].
  split; [done|]. by rewrite E2, E1, app_assoc.
Qed.

Lemma orLast_snoc v l x : orLast v (l ++ [x]) = l ++ [Z.lor x v].
Proof. unfold orLast. rewrite reverse_snoc. by rewrite reverse_cons, reverse_involutive. Qed.

Lemma length_flat_bits l : length (flat_map (bits_of 8) l) = (8 * length l)%nat.
Proof. induction l as [|x l IH]; [done|]. cbn [flat_map]. rewrite length_app, IH, length_bits_of. cbn. lia. Qed.

(** The bits of a last byte with [k] bits to go. *)
Lemma written_snoc l x k : 0 <= k < 8 ->
  written (mkWriter (l ++ [x]) k) = flat_map (bits_of 8) l ++ take (8 - Z.to_nat k) (bits_of 8 x).
Proof.
  intros Hk. unfold written. cbn [wbuf room]. rewrite flat_map_app, take_app, length_flat_bits, length_app.
  rewrite take_ge by (rewrite length_flat_bits; cbn; lia). f_equal.
  cbn [length flat_map]. rewrite app_nil_r. f_equal. lia.
Qed.

(** Setting the bit below the ones already there. *)
Lemma bits_set x k b : is_byte x -> 0 <= k < 8 -> x mod 2 ^ (k + 1) = 0 ->
  let y := Z.lor x (Z.shiftl (Z.b2z b) k) in
  is_byte y /\ y mod 2 ^ k = 0 /\
  take (8 - Z.to_nat k) (bits_of 8 y) = take (7 - Z.to_nat k) (bits_of 8 x) ++ [b].
Proof.
  intros Hx Hk Hm. cbv zeta.
  assert (exists n, x = Z.of_nat n /\ (n < 256)%nat) as (n & -> & Hn).
  { exists (Z.to_nat x). unfold is_byte in Hx. lia. }
  assert (forallb (fun n => forallb (fun k => forallb (fun b =>
    let x := Z.of_nat n in let k := Z.of_nat k in
    if x mod 2 ^ (k + 1) =? 0 then
      let y := Z.lor x (Z.shiftl (Z.b2z b) k) in
      bool_decide (is_byte y) && (y mod 2 ^ k =? 0) &&
      bool_decide (take (8 - Z.to_nat k) (bits_of 8 y) = take (7 - Z.to_nat k) (bits_of 8 x) ++ [b])
    else true) [true; false]) (seq 0 8)) (seq 0 256) = true) as Hall by (vm_compute; reflexivity).
  rewrite forallb_forall in Hall. specialize (Hall n). rewrite in_seq in Hall.
  specialize (Hall ltac:(lia)). rewrite forallb_forall in Hall. specialize (Hall (Z.to_nat k)).
  rewrite in_seq in Hall. specialize (Hall ltac:(lia)). rewrite forallb_forall in Hall.
  specialize (Hall b ltac:(destruct b; cbn; auto)). cbv zeta in Hall. rewrite Z2Nat.id in Hall by lia.
  rewrite Hm in Hall. cbn [Z.eqb] in Hall. apply andb_true_iff in Hall as [[H1 H2]%andb_true_iff H3].
  apply bool_decide_eq_true in H1, H3. apply Z.eqb_eq in H2. auto.
Qed.

Lemma writes_bit b : writes (WriteBit (Z.b2z b)) [b].
Proof.
  intros w (Hok & Hr & Hl). unfold WriteBit.
  assert (Z.land (Z.b2z b) 1 = Z.b2z b) as -> by by destruct b.
  assert (exists l x k, (if room w =? 0 then mkWriter (wbuf w ++ [0]) 7
                         else mkWriter (wbuf w) (room w - 1)) = mkWriter (l ++ [x]) k /\
            bytes_ok l /\ is_byte x /\ 0 <= k < 8 /\ x mod 2 ^ (k + 1) = 0 /\
            written w = flat_map (bits_of 8) l ++ take (7 - Z.to_nat k) (bits_of 8 x))
    as (l & x & k & -> & Hbl & Hx & Hk & Hm & Hwr).
  { destruct (Z.eqb_spec (room w) 0) as [E|E].
    - exists (wbuf w), 0, 7. split_and!; try done; try lia. unfold written. rewrite E.
      rewrite take_ge by (rewrite length_flat_bits; lia). by rewrite app_nil_r.
    - destruct Hl as (l & x & El & Hm); [lia|]. exists l, x, (room w - 1).
      rewrite El in Hok |- *. apply Forall_app in Hok as [Hbl Hx]. apply Forall_cons in Hx as [Hx _].
      split_and!; try done; try lia; [by rewrite Z.sub_add|].
      destruct w as [b0 r0]. cbn [wbuf room] in *. subst b0.
      rewrite written_snoc by lia. do 2 f_equal. lia. }
  cbn [wbuf room]. rewrite orLast_snoc.
  destruct (bits_set x k b Hx Hk Hm) as (H1 & H2 & H3). split.
  - split_and!; cbn [wbuf room]; try lia.
    + apply Forall_app. split; [done|]. by constructor.
    + intros _. eauto.
  - rewrite written_snoc, H3, Hwr by lia. by rewrite <- app_assoc.
Qed.

Lemma writes_bits v n : writes (WriteBits v n) (bits_of n v).
Proof.
  induction n as [|n IH]; [apply writes_nil|]. cbn [WriteBits bits_of].
  rewrite land1_testbit by lia. apply (writes_seq _ _ [_] _); [apply writes_bit|exact IH].
Qed.

Lemma writes_all b n : writes (WriteAllBits (Z.b2z b) n) (replicate n b).
Proof.
  unfold WriteAllBits. induction n as [|n IH]; [apply writes_nil|]. rewrite replicate_S_end.
  exact (writes_seq _ _ _ _ IH (writes_bit b)).
Qed.

Lemma writes_bool b : writes (WriteBool b) [b].
Proof. apply (writes_bit b). Qed.

(** What a writer has written, filled up with zero bits, is what a reader finds. *)
Lemma written_stream w : writer_wf w ->
  stream (NewReader (wbuf w)) = written w ++ replicate (Z.to_nat (room w)) false.
Proof.
  intros (Hok & Hr & Hl). rewrite NewReader_stream. destruct (Z.eq_dec (room w) 0) as [E|E].
  - unfold written. rewrite E, take_ge by (rewrite length_flat_bits; lia). by rewrite app_nil_r.
  - destruct Hl as (l & x & El & Hm); [lia|]. destruct w as [b r]. cbn [wbuf room] in *. subst b.
    rewrite written_snoc, flat_map_app by lia. cbn [flat_map]. rewrite app_nil_r, <- app_assoc. f_equal.
    apply Forall_app in Hok as [_ Hx]. apply Forall_cons in Hx as [Hx _].
    rewrite <- (take_drop (8 - Z.to_nat r) (bits_of 8 x)) at 1. f_equal.
    replace 8%nat with ((8 - Z.to_nat r) + Z.to_nat r)%nat at 2 by lia.
    rewrite bits_of_app, drop_app_length' by (rewrite ?length_bits_of; unfold is_byte in Hx; lia).
    rewrite <- bits_of_mod, Z2Nat.id, Hm by lia. clear. induction (Z.to_nat r) as [|n IH]; [done|].
    cbn [bits_of replicate]. by rewrite IH, Z.testbit_0_l by lia.
Qed.

Lemma NewWriter_wf : writer_wf (NewWriter []).
Proof. split; [constructor|]. split; cbn; lia. Qed.

(** A whole write from an empty writer, and reading it back. *)
Lemma written_new m l : writes m l ->
  bytes_ok (wbuf (m (NewWriter []))) /\
  exists pad, (pad < 8)%nat /\
    stream (NewReader (wbuf (m (NewWriter [])))) = l ++ replicate pad false.
Proof.
  intros H. destruct (H _ NewWriter_wf) as [Hw E]. split; [apply Hw|].
  exists (Z.to_nat (room (m (NewWriter [])))). destruct Hw as (Hok & Hr & Hl). split; [lia|].
  by rewrite (written_stream (m (NewWriter []))), E.
Qed.

(** ** Writing behind other bytes *)

Definition behind (p : bytes) (w : Writer) : Writer := mkWriter (p ++ wbuf w) (room w).

(** A write that does the same behind any bytes. *)
Definition framed (m : Writer -> Writer) : Prop :=
  forall p w, (wbuf w <> [] \/ room w = 0) ->
    m (behind p w) = behind p (m w) /\ (wbuf (m w) <> [] \/ room (m w) = 0).

Lemma framed_seq m k : framed m -> framed k -> framed (fun w => k (m w)).
Proof. intros Hm Hk p w Hw. destruct (Hm p w Hw) as [-> H]. by apply Hk. Qed.

Lemma framed_bit b : framed (WriteBit b).
Proof.
  intros p [l r] Hw. cbn [wbuf room] in Hw. unfold WriteBit, behind. cbn [wbuf room].
  destruct (Z.eqb_spec r 0) as [->|Hr]; cbn [wbuf room].
  - rewrite !orLast_snoc. split; [by rewrite app_assoc|left]. by destruct l.
  - destruct Hw as [Hl| ->]; [|done]. induction l as [|x l _] using rev_ind; [done|].
    rewrite app_assoc, !orLast_snoc. split; [by rewrite app_assoc|left]. by destruct l.
Qed.

Lemma framed_bits v n : framed (WriteBits v n).
Proof.
  induction n as [|n IH]; [done|]. cbn [WriteBits].
  exact (framed_seq _ _ (framed_bit _) IH).
Qed.

Lemma framed_append b : framed (append b).
Proof.
  intros p [l r] Hw. unfold append, behind. cbn [wbuf room] in *. split; [by rewrite app_assoc|].
  destruct Hw as [Hl| ->]; [left; by destruct l|by right].
Qed.

Lemma framed_if (m : Writer -> Writer) : framed m -> framed (fun w => if room w =? 0 then w else m w).
Proof.
  intros Hm p w Hw. unfold behind at 1. cbn [room]. destruct (room w =? 0); [done|by apply Hm].
Qed.

Lemma framed_byte b : framed (WriteByte b).
Proof. exact (framed_seq _ _ (framed_if _ (framed_bits b 8)) (framed_append [b])). Qed.

Lemma framed_uint16 v : framed (WriteUint16 v).
Proof. exact (framed_seq _ _ (framed_if _ (framed_bits v 16)) (framed_append _)). Qed.

Lemma framed_bytes b : framed (WriteBytes b).
Proof.
  assert (forall b, framed (fun w => foldl (fun w x => WriteByte x w) w b)) as H.
  { clear b. intros b. induction b as [|x b IH]; [done|]. cbn [foldl].
    exact (framed_seq _ _ (framed_byte x) IH). }
  exact (framed_seq _ _ (framed_if _ (H b)) (framed_append b)).
Qed.

#[export] Hint Resolve framed_bit framed_bits framed_byte framed_uint16 framed_bytes : framed.

(** On a byte boundary a write appends what it writes to an empty writer. *)
Lemma framed_new m l : framed m -> m (mkWriter l 0) = behind l (m (NewWriter [])).
Proof.
  intros H. destruct (H l (NewWriter [])) as [<- _]; [by right|]. unfold behind, NewWriter.
  cbn. by rewrite app_nil_r.
Qed.
