(* ===== verification/Aac.v ===== *)
(** AAC configuration and ADTS frames ([pkg/aac/aac.go], [pkg/aac/adts.go]): the codec
    of an ADTS header, the header of a codec, frame lengths.  [None] is an index or a
    slice out of range. *)

From S2P Require Import Prelude Text Bits Writer.

Definition AUTime : Z := 1024.
Definition TypeAACLC : Z := 2.
Definition TypeAACLD : Z := 23.
Definition TypeESCAPE : Z := 31.
Definition TypeAACELD : Z := 39.
Definition ADTSHeaderSize : Z := 7.

Definition FMTP : bytes :=
  str "streamtype=5;profile-level-id=1;mode=AAC-hbr;sizelength=13;indexlength=3;indexdeltalength=3;config=".

Definition sampleRates : list Z :=
  [96000; 88200; 64000; 48000; 44100; 32000; 24000; 22050; 16000; 12000; 11025; 8000; 7350; 0; 0; 0].

Definition sampleRate (i : Z) : Z := nth (Z.to_nat i) sampleRates 0.

(** The fields of [core.Codec] that are set here. *)
Record Codec := mkCodec { Name : bytes; ClockRate : Z; Channels : Z; FmtpLine : bytes }.

Definition CodecAAC : bytes := str "MPEG4-GENERIC".

(** ** The configuration *)

Definition upperHex (n : Z) : bytes :=
  if n <? 16 then [hexDigitUpper n] else [hexDigitUpper (n / 16); hexDigitUpper (n mod 16)].

(** [%X] of an object type, which has at most 7 bits. *)
Definition objectName (objType : Z) : bytes :=
  if (objType =? TypeAACLC) || (objType =? TypeAACLD) || (objType =? TypeAACELD)
  then CodecAAC else str "AAC-" ++ upperHex objType.

Definition ConfigToCodec (conf : bytes) : Codec :=
  fst ((objType <- ReadBits 5;;
        objType <- (if objType =? TypeESCAPE
                    then x <- ReadBits 6;; rret (u32 (32 + x)) else rret objType);;
        i <- ReadBits8 4;;
        rate <- (if i <? 0x0F then rret (sampleRate i) else ReadBits 24);;
        channels <- ReadBits8 4;;
        rret (mkCodec (objectName objType) rate channels (FMTP ++ hexEncode conf))) (NewReader conf)).

(** Object type, index of the sample rate, channels and sample rate. *)
Definition readConfig : Rd (Z * Z * Z * Z) :=
  objType <- ReadBits8 5;;
  objType <- (if objType =? 31 then x <- ReadBits8 6;; rret (u8 (32 + x)) else rret objType);;
  i <- ReadBits8 4;;
  rate <- (if i =? 15 then ReadBits 24 else rret (sampleRate i));;
  channels <- ReadBits8 4;;
  rret (objType, i, channels, rate).
Definition DecodeConfig (b : bytes) : Z * Z * Z * Z := fst (readConfig (NewReader b)).

Fixpoint indexUint32 (s : list Z) (v : Z) : option nat :=
  match s with
  | [] => None
  | x :: s => if v =? x then Some O else S <$> indexUint32 s v
  end.

Definition writeConfig (objType rate channels : Z) (shortFrame : bool) (w : Writer) : Writer :=
  let w := if objType <? TypeESCAPE then WriteBits objType 5 w
           else WriteBits (u8 (objType - 32)) 6 (WriteBits TypeESCAPE 5 w) in
  let w := match indexUint32 sampleRates rate with
           | Some i => WriteBits (Z.of_nat i) 4 w
           | None => WriteBits rate 24 (WriteBits 0xF 4 w)
           end in
  let w := WriteBits channels 4 w in
  if objType =? TypeAACLD then
    WriteBits 0 2 (WriteBit 0 (WriteBit 0 (WriteBool shortFrame w)))
  else if objType =? TypeAACELD then
    WriteBits 0 2 (WriteBits 0 4 (WriteBit 0 (WriteBits 0 3 (WriteBool shortFrame w))))
  else w.
Definition EncodeConfig (objType rate channels : Z) (shortFrame : bool) : bytes :=
  WriterBytes (writeConfig objType rate channels shortFrame (NewWriter [])).

(** ** ADTS *)

Definition HasCRC (b : bytes) : option bool := x ← rd b 1; Some (Z.land x 1 =? 0).
Definition ADTSHeaderLen (b : bytes) : option Z :=
  crc ← HasCRC b; Some (if (crc : bool) then 9 else ADTSHeaderSize).

Definition IsADTS (b : bytes) : bool :=
  (ADTSHeaderSize <=? len b) && (at_ b 0 =? 0xFF) && (Z.land (at_ b 1) 0xF6 =? 0xF0).

Definition readADTS : Rd (Z * Z * Z) :=
  _sync <- ReadBits 12;;
  _version <- ReadBit;;
  _layer <- ReadBits 2;;
  _absent <- ReadBit;;
  profile <- ReadBits8 2;;
  i <- ReadBits8 4;;
  _private <- ReadBit;;
  channels <- ReadBits8 3;;
  rret (u8 (profile + 1), i, channels).

Definition writeAudioConfig (objType i channels : Z) (w : Writer) : Writer :=
  WriteBits channels 4 (WriteBits i 4 (WriteBits objType 5 w)).

Definition ADTSToCodec (b : bytes) : option Codec :=
  if negb (IsADTS b) then None else
  let '(objType, i, channels) := fst (readADTS (NewReader b)) in
  let conf := WriterBytes (writeAudioConfig objType i channels (NewWriter [])) in
  Some (mkCodec CodecAAC (sampleRate i) channels (FMTP ++ hexEncode conf)).

Definition ReadADTSSize (b : bytes) : option Z :=
  b5 ← rd b 5; b3 ← rd b 3; b4 ← rd b 4;
  Some (Z.lor (Z.lor (u16 (Z.shiftl (Z.land b3 3) 11)) (u16 (Z.shiftl b4 3))) (Z.shiftr b5 5)).

(** [b[3] |= byte(size >> 11)] and so on. *)
Definition WriteADTSSize (b : bytes) (size : Z) : option bytes :=
  b5 ← rd b 5; b3 ← rd b 3;
  Some (<[3%nat := Z.lor b3 (u8 (Z.shiftr size 11))]>
          (<[4%nat := u8 (Z.shiftr size 3)]>
             (<[5%nat := Z.lor b5 (u8 (Z.shiftl size 5))]> b))).

(** The outer [None] is running out of fuel: a frame length of 0 makes no progress. *)
Fixpoint timeLoop (fuel : nat) (b : bytes) (units : Z) : option (option Z) :=
  match fuel with
  | O => None
  | S fuel =>
      if negb (ADTSHeaderSize <? len b) then Some (Some (u32 (units * AUTime))) else
      match ReadADTSSize b with
      | None => Some None
      | Some auSize =>
          if len b <? auSize then Some None
          else timeLoop fuel (drop (Z.to_nat auSize) b) (u32 (units + 1))
      end
  end.

Definition writeADTS (profile i channels : Z) (w : Writer) : Writer :=
  let w := WriteAllBits 1 12 w in
  let w := WriteBit 0 w in
  let w := WriteBits 0 2 w in
  let w := WriteBit 1 w in
  let w := WriteBits profile 2 w in
  let w := WriteBits i 4 w in
  let w := WriteBit 0 w in
  let w := WriteBits channels 3 w in
  let w := WriteBit 0 w in
  let w := WriteBit 0 w in
  let w := WriteBit 0 w in
  let w := WriteBit 0 w in
  let w := WriteBits 0 13 w in
  let w := WriteAllBits 1 11 w in
  WriteBits 0 2 w.

(** Nil when the configuration is no hexadecimal text. *)
Definition CodecToADTS (codec : Codec) : bytes :=
  let '(conf, ok) := hexDecode (Between (FmtpLine codec) (str "config=") (str ";")) in
  if negb ok then [] else
  let '(objType, i, channels, _) := DecodeConfig conf in
  WriterBytes (writeADTS (u8 (objType - 1)) i channels (NewWriter [])).

(** The payload the handler passes on. *)
Definition EncodeToADTS (codec : Codec) (payload : bytes) : option bytes :=
  if negb (IsADTS payload) then
    let b := zeros (Z.to_nat (ADTSHeaderSize + len payload)) in
    let b := blit 0 (CodecToADTS codec) b in
    let b := blit (Z.to_nat ADTSHeaderSize) payload b in
    WriteADTSSize b (u16 (len b))
  else Some payload.

(** ** Headers field by field *)

(** The number a list of bits stands for. *)
Fixpoint bits_val (l : list bool) : Z :=
  match l with [] => 0 | b :: l => Z.b2z b * 2 ^ Z.of_nat (length l) + bits_val l end.

Lemma bits_val_bound l : 0 <= bits_val l < 2 ^ Z.of_nat (length l).
Proof.
  induction l as [|b l IH]; [done|]. cbn [bits_val length].
  rewrite Nat2Z.inj_succ, Z.pow_succ_r by lia. destruct b; cbn [Z.b2z]; lia.
Qed.

Lemma bits_of_val l : bits_of (length l) (bits_val l) = l.
Proof.
  induction l as [|b l IH]; [done|]. pose proof (bits_val_bound l).
  assert (0 < 2 ^ Z.of_nat (length l)) by lia. cbn [length bits_of bits_val]. f_equal.
  - apply Z.b2z_inj. rewrite Z.testbit_spec' by lia. rewrite Z.div_add_l, Z.div_small by lia. by destruct b.
  - rewrite <- bits_of_mod, Z.add_comm, Z_mod_plus_full, Z.mod_small by lia. exact IH.
Qed.

Lemma reads8_val l : (length l <= 8)%nat -> reads_as (ReadBits8 (length l)) l (bits_val l).
Proof. intros H. rewrite <- (bits_of_val l) at 2. by apply reads_bits8, bits_val_bound. Qed.
Lemma reads32_val l : (length l <= 32)%nat -> reads_as (ReadBits (length l)) l (bits_val l).
Proof. intros H. rewrite <- (bits_of_val l) at 2. by apply reads_bits, bits_val_bound. Qed.

Definition profileOf (b : bytes) : Z := at_ b 2 / 64.
Definition rateIndexOf (b : bytes) : Z := at_ b 2 / 4 mod 16.
Definition channelsOf (b : bytes) : Z := at_ b 2 mod 2 * 4 + at_ b 3 / 64.

Lemma third_byte b : is_byte b ->
  bits_val [Z.testbit b 7; Z.testbit b 6] = b / 64 /\
  bits_val [Z.testbit b 5; Z.testbit b 4; Z.testbit b 3; Z.testbit b 2] = b / 4 mod 16 /\
  Z.b2z (Z.testbit b 0) = b mod 2.
Proof.
  intros Hb. assert (exists n, b = Z.of_nat n /\ (n < 256)%nat) as (n & -> & Hn).
  { exists (Z.to_nat b). unfold is_byte in Hb. lia. }
  assert (forallb (fun n => let b := Z.of_nat n in
    (bits_val [Z.testbit b 7; Z.testbit b 6] =? b / 64) &&
    (bits_val [Z.testbit b 5; Z.testbit b 4; Z.testbit b 3; Z.testbit b 2] =? b / 4 mod 16) &&
    (Z.b2z (Z.testbit b 0) =? b mod 2)) (seq 0 256) = true) as H by (vm_compute; reflexivity).
  rewrite forallb_forall in H. specialize (H n). rewrite in_seq in H.
  specialize (H ltac:(lia)). cbv zeta in H. rewrite !andb_true_iff, !Z.eqb_eq in H. tauto.
Qed.

Lemma readADTS_fields b : bytes_ok b -> 4 <= len b ->
  fst (readADTS (NewReader b)) = (profileOf b + 1, rateIndexOf b, channelsOf b).
Proof.
  intros Hb Hl. destruct b as [|b0 [|b1 [|b2 [|b3 k]]]]; try (unfold len in Hl; cbn in Hl; lia).
  assert (is_byte b2 /\ is_byte b3) as [H2 H3].
  { unfold bytes_ok in Hb. rewrite !Forall_cons in Hb. tauto. }
  assert (reads_as readADTS (firstn 26 (stream (NewReader (b0 :: b1 :: b2 :: b3 :: k))))
    (profileOf (b0 :: b1 :: b2 :: b3 :: k) + 1, rateIndexOf (b0 :: b1 :: b2 :: b3 :: k),
     channelsOf (b0 :: b1 :: b2 :: b3 :: k))) as H.
  { destruct (third_byte b2 H2) as (E1 & E2 & E3). destruct (third_byte b3 H3) as (E4 & _ & _).
    unfold profileOf, rateIndexOf, channelsOf.
    change (at_ (b0 :: b1 :: b2 :: b3 :: k) 2) with b2. change (at_ (b0 :: b1 :: b2 :: b3 :: k) 3) with b3.
    rewrite <- E1, <- E2, <- E3, <- E4.
    rewrite NewReader_stream. cbn [flat_map bits_of app firstn]. unfold readADTS.
    eapply (reads_bind _ _ [_; _; _; _; _; _; _; _; _; _; _; _]); [by apply (reads32_val [_; _; _; _; _; _; _; _; _; _; _; _]); cbn; lia|].
    eapply (reads_bind _ _ [_]); [apply reads_bit|].
    eapply (reads_bind _ _ [_; _]); [apply (reads32_val [_; _]); cbn; lia|].
    eapply (reads_bind _ _ [_]); [apply reads_bit|].
    eapply (reads_bind _ _ [_; _]); [apply (reads8_val [_; _]); cbn; lia|].
    eapply (reads_bind _ _ [_; _; _; _]); [apply (reads8_val [_; _; _; _]); cbn; lia|].
    eapply (reads_bind _ _ [_]); [apply reads_bit|].
    rewrite <- (app_nil_r [_; _; _]).
    eapply (reads_bind _ _ [_; _; _]); [apply (reads8_val [_; _; _]); cbn; lia|].
    rewrite u8_small. 2: { change (is_byte (bits_val [Z.testbit b2 7; Z.testbit b2 6] + 1)). rewrite E1. ints. }
    eapply reads_val; [apply reads_ret|reflexivity]. }
  destruct (H (NewReader (b0 :: b1 :: b2 :: b3 :: k)) (skipn 26 (stream (NewReader (b0 :: b1 :: b2 :: b3 :: k)))))
    as (r & -> & _); [by apply NewReader_wf|done|by rewrite firstn_skipn|done].
Qed.

(** *** Made headers *)

(** The two bytes of an AudioSpecificConfig. *)
Definition audioConfig (p i ch : Z) : bytes := [(p + 1) * 8 + i / 2; i mod 2 * 128 + ch * 8].
Definition adtsCodec (p i ch : Z) : Codec :=
  mkCodec CodecAAC (sampleRate i) ch (FMTP ++ hexEncode (audioConfig p i ch)).
Definition adtsHeader (p i ch : Z) : bytes :=
  [0xFF; 0xF1; p * 64 + i * 4 + ch / 4; ch mod 4 * 64; 0; 0x1F; 0xFC].

Lemma header_table p i ch : 0 <= p < 4 -> 0 <= i < 16 -> 0 <= ch < 8 ->
  WriterBytes (writeAudioConfig (p + 1) i ch (NewWriter [])) = audioConfig p i ch /\
  (i <> 15 -> CodecToADTS (adtsCodec p i ch) = adtsHeader p i ch).
Proof.
  intros Hp Hi Hc.
  assert (forallb (fun n => let n := Z.of_nat n in
    let p := n / 128 in let i := n / 8 mod 16 in let ch := n mod 8 in
    bool_decide (WriterBytes (writeAudioConfig (p + 1) i ch (NewWriter [])) = audioConfig p i ch) &&
    ((i =? 15) || bool_decide (CodecToADTS (adtsCodec p i ch) = adtsHeader p i ch)))
    (seq 0 512) = true) as H by (vm_compute; reflexivity).
  rewrite forallb_forall in H. specialize (H (Z.to_nat (p * 128 + i * 8 + ch))). rewrite in_seq in H.
  specialize (H ltac:(lia)). cbv zeta in H. rewrite Z2Nat.id in H by lia.
  assert ((p * 128 + i * 8 + ch) / 128 = p /\ (p * 128 + i * 8 + ch) / 8 mod 16 = i /\
          (p * 128 + i * 8 + ch) mod 8 = ch) as (E1 & E2 & E3) by (Z.to_euclidean_division_equations; lia).
  rewrite E1, E2, E3 in H. apply andb_true_iff in H as [H1 H2%orb_true_iff].
  apply bool_decide_eq_true in H1. split; [done|]. intros Hne.
  destruct H2 as [?%Z.eqb_eq|H2%bool_decide_eq_true]; [lia|done].
Qed.

Lemma fields_bound b : bytes_ok b ->
  0 <= profileOf b < 4 /\ 0 <= rateIndexOf b < 16 /\ 0 <= channelsOf b < 8.
Proof.
  intros H. pose proof (at_bound b 2 H). pose proof (at_bound b 3 H).
  unfold profileOf, rateIndexOf, channelsOf. ints.
Qed.

Lemma ADTSToCodec_fields b : bytes_ok b -> IsADTS b = true ->
  ADTSToCodec b = Some (adtsCodec (profileOf b) (rateIndexOf b) (channelsOf b)).
Proof.
  intros Hb Ha. unfold ADTSToCodec. rewrite Ha. cbn [negb].
  unfold IsADTS in Ha. rewrite !andb_true_iff in Ha. destruct Ha as [[Hl%Z.leb_le _] _].
  unfold ADTSHeaderSize in Hl. rewrite readADTS_fields by (done || lia).
  destruct (fields_bound b Hb) as (Hp & Hi & Hc).
  by rewrite (proj1 (header_table _ _ _ Hp Hi Hc)).
Qed.

(** The header with a frame length written into it. *)
Definition sizedHeader (p i ch size : Z) : bytes :=
  [0xFF; 0xF1; p * 64 + i * 4 + ch / 4; Z.lor (ch mod 4 * 64) (u8 (Z.shiftr size 11));
   u8 (Z.shiftr size 3); Z.lor 0x1F (u8 (Z.shiftl size 5)); 0xFC].

Lemma size_table m size : 0 <= m < 4 -> 0 <= size < 8192 ->
  let b3 := Z.lor (m * 64) (u8 (Z.shiftr size 11)) in
  let b5 := Z.lor 0x1F (u8 (Z.shiftl size 5)) in
  is_byte b3 /\ is_byte b5 /\ b3 / 64 = m /\
  Z.lor (Z.lor (u16 (Z.shiftl (Z.land b3 3) 11)) (u16 (Z.shiftl (u8 (Z.shiftr size 3)) 3)))
    (Z.shiftr b5 5) = size.
Proof.
  intros Hm Hs.
  assert (forallb (fun n => let size := Z.of_nat n in forallb (fun m =>
    let b3 := Z.lor (m * 64) (u8 (Z.shiftr size 11)) in
    let b5 := Z.lor 0x1F (u8 (Z.shiftl size 5)) in
    bool_decide (is_byte b3 /\ is_byte b5) && (b3 / 64 =? m) &&
    (Z.lor (Z.lor (u16 (Z.shiftl (Z.land b3 3) 11)) (u16 (Z.shiftl (u8 (Z.shiftr size 3)) 3)))
      (Z.shiftr b5 5) =? size)) [0; 1; 2; 3]) (seq 0 (Z.to_nat 8192)) = true) as H by (vm_compute; reflexivity).
  rewrite forallb_forall in H. specialize (H (Z.to_nat size)). rewrite in_seq in H.
  specialize (H ltac:(lia)). cbv zeta in H. rewrite Z2Nat.id, forallb_forall in H by lia.
  specialize (H m ltac:(cbn; lia)). rewrite !andb_true_iff, !Z.eqb_eq, bool_decide_eq_true in H.
  cbv zeta. tauto.
Qed.

Lemma blit_front h b : (length h <= length b)%nat -> blit 0 h b = h ++ drop (length h) b.
Proof. intros H. unfold blit. rewrite take_0, take_ge by lia. done. Qed.
Lemma blit_back h k z : length k = length z -> blit (length h) k (h ++ z) = h ++ k.
Proof.
  intros H. unfold blit. rewrite take_app_length, take_ge by (rewrite length_app; lia).
  rewrite drop_ge by (rewrite length_app; lia). by rewrite app_nil_r.
Qed.

Lemma EncodeToADTS_frame p i ch payload :
  0 <= p < 4 -> 0 <= i < 15 -> 0 <= ch < 8 -> IsADTS payload = false -> len payload <= 8184 ->
  EncodeToADTS (adtsCodec p i ch) payload = Some (sizedHeader p i ch (7 + len payload) ++ payload).
Proof.
  intros Hp Hi Hc Hn Hl. unfold EncodeToADTS. rewrite Hn. cbn [negb].
  destruct (header_table p i ch Hp ltac:(lia) Hc) as [_ ->]; [|lia].
  pose proof (len_nonneg payload) as Hpos. unfold ADTSHeaderSize.
  assert (len (blit (Z.to_nat 7) payload (blit 0 (adtsHeader p i ch) (zeros (Z.to_nat (7 + len payload)))))
          = 7 + len payload) as E.
  { unfold len. rewrite !length_blit. unfold zeros. rewrite length_replicate. unfold len. lia. }
  rewrite E, u16_small by (unfold is_u16; lia). clear E.
  rewrite blit_front by (unfold zeros; rewrite length_replicate; cbn; unfold len; lia).
  change (Z.to_nat 7) with (length (adtsHeader p i ch)). rewrite blit_back.
  2: { unfold zeros. rewrite length_drop, length_replicate. cbn [length adtsHeader]. unfold len. lia. }
  reflexivity.
Qed.

(** An ADTS header names its codec: the object type, the rate and the channels are
    those of its fields, and framing a payload for that codec gives a frame whose
    header is recognised, declares the frame's exact length and the same codec, and
    behind which the payload stands unchanged. *)
Theorem adts_roundtrip (b payload : bytes)
    (Hb : bytes_ok b) (Hadts : IsADTS b = true) (Hrate : rateIndexOf b <> 15)
    (Hp : bytes_ok payload) (Hraw : IsADTS payload = false) (Hlen : len payload <= 8184) :
  exists c frame,
    ADTSToCodec b = Some c /\
    Channels c = channelsOf b /\ ClockRate c = sampleRate (rateIndexOf b) /\
    FmtpLine c = FMTP ++ hexEncode (audioConfig (profileOf b) (rateIndexOf b) (channelsOf b)) /\
    EncodeToADTS c payload = Some frame /\
    IsADTS frame = true /\ ReadADTSSize frame = Some (len frame) /\
    ADTSHeaderLen frame = Some 7 /\ drop 7 frame = payload /\ ADTSToCodec frame = Some c.
Proof.
  destruct (fields_bound b Hb) as (Hp' & Hi & Hc).
  exists (adtsCodec (profileOf b) (rateIndexOf b) (channelsOf b)). eexists.
  split; [by apply ADTSToCodec_fields|]. split_and!; [done..| | | | | |].
  { apply EncodeToADTS_frame; done || lia. }
  all: set (p := profileOf b) in *; set (i := rateIndexOf b) in *; set (ch := channelsOf b) in *.
  all: pose proof (len_nonneg payload) as Hpos;
    destruct (size_table (ch mod 4) (7 + len payload)) as (B3 & B5 & E3 & Es);
      [by apply Z.mod_pos_bound|lia|].
  all: assert (len (sizedHeader p i ch (7 + len payload) ++ payload) = 7 + len payload) as El
    by (rewrite len_app; reflexivity).
  all: assert (IsADTS (sizedHeader p i ch (7 + len payload) ++ payload) = true) as Ha
    by (unfold IsADTS; rewrite El; unfold ADTSHeaderSize; rewrite (proj2 (Z.leb_le 7 (7 + len payload))) by lia; reflexivity).
  - exact Ha.
  - rewrite El. transitivity (Some (7 + len payload)); [|done]. rewrite <- Es at 2. reflexivity.
  - reflexivity.
  - reflexivity.
  - assert (bytes_ok (sizedHeader p i ch (7 + len payload) ++ payload)) as Hok.
    { apply Forall_app. split; [|done]. unfold sizedHeader.
      repeat (apply Forall_cons; split; [first [exact B3|exact B5|ints]|]). constructor. }
    rewrite ADTSToCodec_fields by done. f_equal. unfold profileOf, rateIndexOf, channelsOf.
    change (at_ (sizedHeader p i ch (7 + len payload) ++ payload) 2) with (p * 64 + i * 4 + ch / 4).
    change (at_ (sizedHeader p i ch (7 + len payload) ++ payload) 3)
      with (Z.lor (ch mod 4 * 64) (u8 (Z.shiftr (7 + len payload) 11))).
    rewrite E3. f_equal; Z.to_euclidean_division_equations; lia.
Qed.

Definition demoADTS : bytes := [0xFF; 0xF1; 0x60; 0x40; 0x01; 0x3F; 0xFC; 0x21; 0x10].

Lemma adts_roundtrip_witness :
  exists c frame, ADTSToCodec demoADTS = Some c /\ EncodeToADTS c [0x21; 0x4C; 0x8A] = Some frame /\
    ReadADTSSize frame = Some (len frame) /\ drop 7 frame = [0x21; 0x4C; 0x8A].
Proof.
  destruct (adts_roundtrip demoADTS [0x21; 0x4C; 0x8A]) as (c & frame & E1 & _ & _ & _ & E2 & _ & E3 & _ & E4 & _);
    [bytes_lit|reflexivity|discriminate|bytes_lit|reflexivity|discriminate|].
  exists c, frame. auto.
Defined.

(** A frame of 8192 bytes declares the length 0, and sets a copyright bit. *)
Lemma long_frame_length_lost :
  option_map (fun f => (len f, ReadADTSSize f, at_ f 3)) (EncodeToADTS (adtsCodec 1 8 1) (zeros 8185)) =
  Some (8192, Some 0, 0x44).
Proof. vm_compute. reflexivity. Qed.

(** *** The audio configuration *)

Definition rateIndex (rate : Z) : Z :=
  match indexUint32 sampleRates rate with Some i => Z.of_nat i | None => 15 end.

Lemma rateIndex_ok rate :
  0 <= rateIndex rate < 16 /\
  match indexUint32 sampleRates rate with
  | Some i => Z.of_nat i <> 15 /\ sampleRate (Z.of_nat i) = rate
  | None => True
  end.
Proof.
  unfold rateIndex, sampleRate, sampleRates. cbn [indexUint32].
  repeat match goal with |- context [if rate =? ?n then _ else _] =>
    destruct (Z.eqb_spec rate n) as [->|]; [vm_compute; intuition congruence|] end.
  vm_compute. intuition congruence.
Qed.

Definition objectBits (o : Z) : list bool :=
  if o <? 31 then bits_of 5 o else bits_of 5 31 ++ bits_of 6 (o - 32).
Definition rateBits (rate : Z) : list bool :=
  bits_of 4 (rateIndex rate) ++
  match indexUint32 sampleRates rate with Some _ => [] | None => bits_of 24 rate end.

Definition tailBits (o : Z) (s : bool) : list bool :=
  if o =? TypeAACLD then [s] ++ [false] ++ [false] ++ bits_of 2 0
  else if o =? TypeAACELD then [s] ++ bits_of 3 0 ++ [false] ++ bits_of 4 0 ++ bits_of 2 0
  else [].

Lemma writes_config o rate ch s : 0 <= o -> o <> 31 -> o < 96 ->
  writes (writeConfig o rate ch s) (objectBits o ++ rateBits rate ++ bits_of 4 ch ++ tailBits o s).
Proof.
  intros Ho Hne Hlt. unfold writeConfig, objectBits, rateBits, rateIndex, tailBits, TypeESCAPE.
  assert (writes (fun w => if o <? 31 then WriteBits o 5 w
            else WriteBits (u8 (o - 32)) 6 (WriteBits 31 5 w))
    (if o <? 31 then bits_of 5 o else bits_of 5 31 ++ bits_of 6 (o - 32))) as H1.
  { destruct (Z.ltb_spec o 31); [apply writes_bits|].
    rewrite u8_small by (unfold is_byte; lia). apply writes_seq; apply writes_bits. }
  assert (writes (fun w => match indexUint32 sampleRates rate with
            | Some i => WriteBits (Z.of_nat i) 4 w
            | None => WriteBits rate 24 (WriteBits 0xF 4 w) end)
    (bits_of 4 match indexUint32 sampleRates rate with Some i => Z.of_nat i | None => 15 end ++
     match indexUint32 sampleRates rate with Some _ => [] | None => bits_of 24 rate end)) as H2.
  { destruct (indexUint32 sampleRates rate); [rewrite app_nil_r; apply writes_bits|].
    apply writes_seq; apply writes_bits. }
  assert (writes (fun w => if o =? TypeAACLD then
            WriteBits 0 2 (WriteBit 0 (WriteBit 0 (WriteBool s w)))
          else if o =? TypeAACELD then
            WriteBits 0 2 (WriteBits 0 4 (WriteBit 0 (WriteBits 0 3 (WriteBool s w))))
          else w) (tailBits o s)) as H4.
  { unfold tailBits. destruct (o =? TypeAACLD); [|destruct (o =? TypeAACELD); [|apply writes_nil]].
    - exact (writes_seq _ _ _ _ (writes_bool s) (writes_seq _ _ _ _ (writes_bit false)
        (writes_seq _ _ _ _ (writes_bit false) (writes_bits 0 2)))).
    - exact (writes_seq _ _ _ _ (writes_bool s) (writes_seq _ _ _ _ (writes_bits 0 3)
        (writes_seq _ _ _ _ (writes_bit false) (writes_seq _ _ _ _ (writes_bits 0 4) (writes_bits 0 2))))). }
  exact (writes_seq _ _ _ _ H1 (writes_seq _ _ _ _ H2 (writes_seq _ _ _ _ (writes_bits ch 4) H4))).
Qed.

Lemma reads_config o rate ch :
  0 <= o -> o <> 31 -> o < 96 -> 0 <= rate < 16777216 -> 0 <= ch < 16 ->
  reads_as readConfig (objectBits o ++ rateBits rate ++ bits_of 4 ch) (o, rateIndex rate, ch, rate).
Proof.
  intros Ho Hne Hlt Hrate Hch. unfold readConfig, objectBits, rateBits.
  destruct (rateIndex_ok rate) as [Hi Hr]. unfold rateIndex in *.
  assert (reads_as (i <- ReadBits8 4;;
    rate <- (if i =? 15 then ReadBits 24 else rret (sampleRate i));;
    channels <- ReadBits8 4;; rret (o, i, channels, rate))
    ((bits_of 4 match indexUint32 sampleRates rate with Some i => Z.of_nat i | None => 15 end ++
     match indexUint32 sampleRates rate with Some _ => [] | None => bits_of 24 rate end) ++ bits_of 4 ch)
    (o, match indexUint32 sampleRates rate with Some i => Z.of_nat i | None => 15 end, ch, rate)) as H.
  { rewrite <- app_assoc.
    eapply reads_bind; [apply (reads_bits8 4); [lia|]; change (2 ^ Z.of_nat 4) with 16; lia|].
    apply (reads_bind _ _ _ _ rate).
    - destruct (indexUint32 sampleRates rate) as [i|].
      + destruct Hr as [Hn <-]. rewrite (proj2 (Z.eqb_neq _ _)) by done. apply reads_ret.
      + apply (reads_bits 24); [lia|]. change (2 ^ Z.of_nat 24) with 16777216. lia.
    - apply (reads_last (ReadBits8 4) (fun c => (o, _, c, rate))), (reads_bits8 4); [lia|].
      change (2 ^ Z.of_nat 4) with 16. lia. }
  destruct (Z.ltb_spec o 31).
  - apply (reads_bind _ _ _ _ o).
    { apply (reads_bits8 5); [lia|]. change (2 ^ Z.of_nat 5) with 32. lia. }
    rewrite (proj2 (Z.eqb_neq _ _)) by lia.
    apply (reads_bind (rret o) _ [] _ o); [apply reads_ret|exact H].
  - rewrite <- app_assoc. apply (reads_bind _ _ _ _ 31).
    { apply (reads_bits8 5); [lia|]. by split. }
    cbn [Z.eqb Pos.eqb]. apply (reads_bind _ _ _ _ o); [|exact H].
    eapply reads_val; [apply reads_last, (reads_bits8 6 (o - 32)); [lia|]|].
    + change (2 ^ Z.of_nat 6) with 64. lia.
    + rewrite u8_small; [lia|unfold is_byte; lia].
Qed.

(** An audio configuration survives its encoding: the object type, escaped or not, the
    channels, and the sample rate, by its index in the table or by its value. *)
Theorem audio_config_roundtrip (o rate ch : Z) (shortFrame : bool)
    (Ho : 0 <= o < 96 /\ o <> 31) (Hrate : 0 <= rate < 16777216) (Hch : 0 <= ch < 16) :
  DecodeConfig (EncodeConfig o rate ch shortFrame) = (o, rateIndex rate, ch, rate) /\
  (rateIndex rate = 15 <-> ~ rate ∈ sampleRates).
Proof.
  split.
  - destruct (written_new _ _ (writes_config o rate ch shortFrame ltac:(lia) ltac:(lia) ltac:(lia)))
      as (Hok & pad & _ & E).
    unfold DecodeConfig, EncodeConfig, WriterBytes.
    destruct (reads_config o rate ch ltac:(lia) ltac:(lia) ltac:(lia) Hrate Hch (NewReader _)
      (tailBits o shortFrame ++ replicate pad false) (NewReader_wf _ Hok) eq_refl) as (r & -> & _).
    + rewrite E. by rewrite <- !app_assoc.
    + reflexivity.
  - unfold rateIndex, sampleRates. rewrite !elem_of_cons, elem_of_nil. cbn [indexUint32].
    repeat match goal with |- context [if rate =? ?n then _ else _] =>
      destruct (Z.eqb_spec rate n) as [->|]; [split; [discriminate|tauto]|] end.
    split; [tauto|reflexivity].
Qed.

Lemma audio_config_roundtrip_witness :
  DecodeConfig (EncodeConfig TypeAACELD 24000 1 true) = (TypeAACELD, 6, 1, 24000).
Proof. apply (audio_config_roundtrip 39 24000 1 true); lia. Defined.

(** Object type 31, the escape itself, is read back as another one. *)
Lemma escape_type_not_kept : DecodeConfig (EncodeConfig 31 48000 2 false) = (95, 3, 2, 48000).
Proof. vm_compute. reflexivity. Qed.

(** *** Counting frames *)

Lemma timeLoop_frames frames : forall fuel units,
  Forall (fun f => 7 < len f /\ forall k, ReadADTSSize (f ++ k) = Some (len f)) frames ->
  (length (concat frames) < fuel)%nat ->
  timeLoop fuel (concat frames) units = Some (Some (u32 (u32 (units + len frames) * AUTime))) \/
  (frames = [] /\ timeLoop fuel (concat frames) units = Some (Some (u32 (units * AUTime)))).
Proof.
  induction frames as [|f frames IH]; intros fuel units H Hf; (destruct fuel as [|fuel]; [lia|]).
  { right. split; [done|]. reflexivity. }
  left. apply Forall_cons in H as [[Hl Hs] H]. cbn [concat] in *. rewrite length_app in Hf.
  cbn [timeLoop]. rewrite Hs, len_app. unfold ADTSHeaderSize.
  pose proof (len_nonneg (concat frames)).
  rewrite (proj2 (Z.ltb_lt 7 _)) by lia. cbn [negb]. rewrite (proj2 (Z.ltb_ge _ _)) by lia.
  rewrite drop_app_length' by (unfold len; lia). rewrite len_cons.
  destruct (IH fuel (u32 (units + 1)) H) as [->|[-> E]].
  - unfold len in *; lia.
  - do 4 f_equal. unfold u32. rewrite Zplus_mod_idemp_l. f_equal. lia.
  - rewrite E. reflexivity.
Qed.

(** A frame that declares length 0 is never left. *)
Lemma timeLoop_stuck fuel units : timeLoop fuel (zeros 8) units = None.
Proof. revert units. induction fuel as [|fuel IH]; intros units; [done|]. apply IH. Qed.
