(* ===== verification/Codec.v ===== *)
(** H.264 access units with length-prefixed NAL units and the codec line made from
    their parameter sets ([pkg/h264/avcc.go], [pkg/h264/h264.go]).  Every loop steps
    over a unit with its length field; the outer [None] of a loop is running out of
    fuel, the inner one a run-time panic. *)

From S2P Require Import Prelude Text Annexb.

Definition NALUTypeSEI : Z := 6.

(** [binary.BigEndian.Uint32]. *)
Definition beLoad (b : bytes) : option Z :=
  match b with b0 :: b1 :: b2 :: b3 :: _ => Some (beU32 b0 b1 b2 b3) | _ => None end.

Definition NALUType (b : bytes) : option Z := c ← rd b 4; Some (nalType c).

(** ** Units *)

(** Empty units are left out. *)
Fixpoint JoinNALU (nalus : list bytes) : bytes :=
  match nalus with
  | [] => []
  | n :: rest => (if 0 <? len n then be32 (u32 (len n)) ++ n else []) ++ JoinNALU rest
  end.

Definition Join (ps iframe : bytes) : bytes := ps ++ iframe.

Fixpoint splitLoop (fuel : nat) (avcc : bytes) : option (option (list bytes)) :=
  match fuel with
  | O => None
  | S fuel =>
      match beLoad avcc with
      | None => Some None
      | Some n =>
          let size := n + 4 in
          if size <? len avcc
          then r ← splitLoop fuel (drop (Z.to_nat size) avcc);
               Some (tl ← r; Some (take (Z.to_nat size) avcc :: tl))
          else Some (Some [avcc])
      end
  end.
Definition SplitNALU (avcc : bytes) : option (list bytes) :=
  default None (splitLoop (S (length avcc)) avcc).

Fixpoint typesLoop (fuel : nat) (avcc : bytes) : option (option (list Z)) :=
  match fuel with
  | O => None
  | S fuel =>
      match NALUType avcc, beLoad avcc with
      | Some t, Some n =>
          let size := 4 + n in
          if size <? len avcc
          then r ← typesLoop fuel (drop (Z.to_nat size) avcc); Some (tl ← r; Some (t :: tl))
          else Some (Some [t])
      | _, _ => Some None
      end
  end.
Definition NALUTypes (avcc : bytes) : option (list Z) :=
  default None (typesLoop (S (length avcc)) avcc).

Fixpoint keyframeLoop (fuel : nat) (b : bytes) : option (option bool) :=
  match fuel with
  | O => None
  | S fuel =>
      match NALUType b with
      | None => Some None
      | Some t =>
          if t =? NALUTypePFrame then Some (Some false)
          else if t =? NALUTypeIFrame then Some (Some true)
          else match beLoad b with
               | None => Some None
               | Some n =>
                   let size := n + 4 in
                   if size <? len b then keyframeLoop fuel (drop (Z.to_nat size) b)
                   else Some (Some false)
               end
      end
  end.
Definition IsKeyframe (b : bytes) : option bool :=
  default None (keyframeLoop (S (length b)) b).

(** ** The codec line

    [spare] is the memory between the length and the capacity of the slice:
    [avcc[5:8]] may reach into it, and panics only beyond. *)
Definition profileBytes (avcc spare : bytes) : option bytes := sub (avcc ++ spare) 5 8.

Fixpoint codecLoop (fuel : nat) (avcc spare buf : bytes) : option (option bytes) :=
  match fuel with
  | O => None
  | S fuel =>
      match beLoad avcc with
      | None => Some (Some buf)
      | Some n =>
          let size := 4 + n in
          if len avcc <? size then Some (Some buf) else
          match NALUType avcc with
          | None => Some None
          | Some t =>
              if t =? NALUTypeSPS then
                match profileBytes avcc spare with
                | None => Some None
                | Some p =>
                    codecLoop fuel (drop (Z.to_nat size) avcc) spare
                      (buf ++ str ";profile-level-id=" ++ hexEncode p ++
                       str ";sprop-parameter-sets=" ++ b64Encode (seg avcc 4 size))
                end
              else if t =? NALUTypePPS then
                codecLoop fuel (drop (Z.to_nat size) avcc) spare
                  (buf ++ str "," ++ b64Encode (seg avcc 4 size))
              else codecLoop fuel (drop (Z.to_nat size) avcc) spare buf
          end
      end
  end.

Definition packetizationMode : bytes := str "packetization-mode=1".

(** The [FmtpLine] of the codec. *)
Definition AVCCToCodec (avcc spare : bytes) : option bytes :=
  default None (codecLoop (S (length avcc)) avcc spare packetizationMode).

(** [avc[4:size]] may reach into the spare memory here. *)
Fixpoint fmtpLoop (fuel : nat) (avc spare s : bytes) : option (option bytes) :=
  match fuel with
  | O => None
  | S fuel =>
      match beLoad avc, NALUType avc with
      | Some n, Some t =>
          let size := 4 + n in
          let next s :=
            if size <? len avc then fmtpLoop fuel (drop (Z.to_nat size) avc) spare s
            else Some (Some s) in
          if t =? NALUTypeSPS then
            match profileBytes avc spare, sub (avc ++ spare) 4 size with
            | Some p, Some unit =>
                next (s ++ str ";profile-level-id=" ++ hexEncode p ++
                      str ";sprop-parameter-sets=" ++ b64Encode unit)
            | _, _ => Some None
            end
          else if t =? NALUTypePPS then
            match sub (avc ++ spare) 4 size with
            | Some unit => next (s ++ str "," ++ b64Encode unit)
            | None => Some None
            end
          else next s
      | _, _ => Some None
      end
  end.
Definition GetFmtpLine (avc spare : bytes) : option bytes :=
  default None (fmtpLoop (S (length avc)) avc spare packetizationMode).

(** The errors of the decoders are dropped. *)
Definition GetParameterSet (fmtp : bytes) : bytes * bytes :=
  if bool_decide (fmtp = []) then ([], []) else
  let s := Between fmtp (str "sprop-parameter-sets=") (str ";") in
  if bool_decide (s = []) then ([], []) else
  match index s (str ",") with
  | None => ([], [])
  | Some i => ((b64Decode (take i s)).1, (b64Decode (drop (i + 1) s)).1)
  end.

(** ** The profile in a codec string *)

Definition ProfileBaseline : Z := 0x42.
Definition ProfileMain : Z := 0x4D.
Definition ProfileHigh : Z := 0x64.
Definition CapabilityBaseline : Z := 0xE0.
Definition CapabilityMain : Z := 0x40.

Definition hexUpper (b : Z) : bytes := [hexDigitUpper (b / 16); hexDigitUpper (b mod 16)].

Definition GetProfileLevelID (fmtp : bytes) : bytes :=
  let conf :=
    if bool_decide (fmtp = []) then [] else
    let s := Between fmtp (str "sprop-parameter-sets=") (str ",") in
    if negb (bool_decide (s = [])) then
      let sps := (b64Decode s).1 in
      if 4 <=? len sps then seg sps 1 4 else []
    else
      let s := Between fmtp (str "profile-level-id=") (str ";") in
      if negb (bool_decide (s = [])) then (hexDecode s).1 else [] in
  let '(profile, capab, level) :=
    match conf with
    | [c0; c1; c2] =>
        (if (c0 =? ProfileBaseline) || (c0 =? ProfileMain) then c0 else ProfileHigh,
         if (c1 =? CapabilityBaseline) || (c1 =? CapabilityMain) then c1 else 0,
         if (c2 =? 30) || (c2 =? 31) || (c2 =? 40) then c2 else 41)
    | _ => (ProfileHigh, 0, 41)
    end in
  hexUpper profile ++ hexUpper capab ++ hexUpper level.

(** ** Repairing access units

    What the handler made for a codec passes on. *)
Definition RepairAVCC (fmtp payload : bytes) : option bytes :=
  let '(sps, pps) := GetParameterSet fmtp in
  let ps := JoinNALU [sps; pps] in
  t ← NALUType payload;
  payload ← (if t =? NALUTypeSEI
             then n ← beLoad payload; sub payload (n + 4) (len payload)
             else Some payload);
  t ← NALUType payload;
  Some (if t =? NALUTypeIFrame then Join ps payload else payload).

(** ** A unit in front *)

Definition goodUnit (n : bytes) : Prop := n <> [] /\ len n < 4294967296.

Section unit_in_front.
Context (n r : bytes) (Hn : goodUnit n).

Lemma unit_len : len (be32 (len n) ++ n ++ r) = 4 + len n + len r.
Proof. rewrite !len_app. change (len (be32 (len n))) with 4. lia. Qed.

Lemma unit_load : beLoad (be32 (len n) ++ n ++ r) = Some (len n).
Proof.
  pose proof (len_nonneg n). destruct Hn as [_ Hl].
  destruct (beU32_be32 (len n) ltac:(unfold is_u32; lia)) as (b0 & b1 & b2 & b3 & -> & E).
  cbn [app beLoad]. by rewrite E.
Qed.

Lemma unit_type : NALUType (be32 (len n) ++ n ++ r) = Some (unitType n).
Proof. destruct Hn as [H _]. destruct n; [done|]. reflexivity. Qed.

Lemma unit_drop k : k = len n + 4 \/ k = 4 + len n -> drop (Z.to_nat k) (be32 (len n) ++ n ++ r) = r.
Proof.
  intros Hk. rewrite app_assoc. apply drop_app_length'.
  rewrite length_app. change (length (be32 (len n))) with 4%nat. unfold len in *. lia.
Qed.

Lemma unit_take k : k = len n + 4 -> take (Z.to_nat k) (be32 (len n) ++ n ++ r) = be32 (len n) ++ n.
Proof.
  intros ->. rewrite app_assoc. apply take_app_length'.
  rewrite length_app. change (length (be32 (len n))) with 4%nat. unfold len in *. lia.
Qed.

Lemma unit_seg : seg (be32 (len n) ++ n ++ r) 4 (4 + len n) = n.
Proof.
  unfold seg. rewrite drop_app_length' by done. apply take_app_length'. unfold len. lia.
Qed.

Lemma unit_profile spare : 4 <= len n -> profileBytes (be32 (len n) ++ n ++ r) spare = Some (seg n 1 4).
Proof.
  intros H. unfold profileBytes. rewrite sub_in; [|lia|rewrite <- !app_assoc, !len_app].
  2: { change (len (be32 (len n))) with 4. pose proof (len_nonneg r). pose proof (len_nonneg spare). lia. }
  unfold len in H. destruct n as [|x0 [|x1 [|x2 [|x3 k]]]]; cbn [length] in H; try lia. reflexivity.
Qed.
End unit_in_front.

Lemma avccUnits_length n ns : length (avccUnits (n :: ns)) = (4 + length n + length (avccUnits ns))%nat.
Proof. rewrite avccUnits_cons, !length_app. reflexivity. Qed.

(** Whether another unit follows. *)
Lemma unit_more n ns : goodUnit n -> Forall goodUnit ns ->
  (len n + 4 <? len (be32 (len n) ++ n ++ avccUnits ns)) = negb (bool_decide (ns = [])).
Proof.
  intros Hn Hns. rewrite unit_len. destruct ns as [|m ns].
  { change (len (avccUnits [])) with 0. rewrite bool_decide_true by done. apply Z.ltb_ge. lia. }
  rewrite bool_decide_false by done. apply Forall_cons in Hns as [[Hm _] _].
  unfold len. rewrite avccUnits_length. apply Z.ltb_lt. lia.
Qed.

(** Opens the first unit of a loop over [avccUnits]. *)
Ltac open_unit :=
  rewrite avccUnits_cons in *; cbn [splitLoop typesLoop keyframeLoop codecLoop fmtpLoop];
  rewrite ?unit_load, ?unit_type by done; cbv zeta.

Lemma JoinNALU_units ns : Forall (fun n => len n < 4294967296) ns ->
  JoinNALU ns = avccUnits (filter (fun n => n <> []) ns).
Proof.
  induction 1 as [|n ns Hn Hns IH]; [done|]. cbn [JoinNALU]. rewrite IH, filter_cons.
  destruct n as [|x n]; [done|]. rewrite decide_True by done. rewrite avccUnits_cons.
  rewrite u32_small by (pose proof (len_nonneg (x :: n)); unfold is_u32; lia).
  rewrite (proj2 (Z.ltb_lt _ _)) by (rewrite len_cons; pose proof (len_nonneg n); lia).
  by rewrite <- app_assoc.
Qed.

Lemma JoinNALU_good ns : Forall goodUnit ns -> JoinNALU ns = avccUnits ns.
Proof.
  intros H. rewrite JoinNALU_units by (eapply Forall_impl; [exact H|]; by intros ? []).
  f_equal. induction H as [|n ns [Hn _] _ IH]; [done|]. rewrite filter_cons, decide_True by done.
  by rewrite IH.
Qed.

(** *** The walkers *)

Definition framed (n : bytes) : bytes := be32 (len n) ++ n.

Lemma splitLoop_units ns : forall n fuel,
  Forall goodUnit (n :: ns) -> (length (avccUnits (n :: ns)) < fuel)%nat ->
  splitLoop fuel (avccUnits (n :: ns)) = Some (Some (map framed (n :: ns))).
Proof.
  induction ns as [|m ns IH]; intros n fuel H Hf; destruct fuel as [|fuel]; try lia;
    apply Forall_cons in H as [Hn Hns]; open_unit; rewrite unit_more by done.
  - cbn. unfold framed. by rewrite app_nil_r.
  - rewrite bool_decide_false by done. cbn [negb]. rewrite unit_drop, unit_take by auto.
    rewrite IH; [reflexivity|done|]. rewrite !length_app in Hf. cbn in Hf |- *. lia.
Qed.

Lemma typesLoop_units ns : forall n fuel,
  Forall goodUnit (n :: ns) -> (length (avccUnits (n :: ns)) < fuel)%nat ->
  typesLoop fuel (avccUnits (n :: ns)) = Some (Some (map unitType (n :: ns))).
Proof.
  induction ns as [|m ns IH]; intros n fuel H Hf; destruct fuel as [|fuel]; try lia;
    apply Forall_cons in H as [Hn Hns]; open_unit; rewrite (Z.add_comm 4), unit_more by done.
  - reflexivity.
  - rewrite bool_decide_false by done. cbn [negb]. rewrite unit_drop by auto.
    rewrite IH; [reflexivity|done|]. rewrite !length_app in Hf. cbn in Hf |- *. lia.
Qed.

(** The first coded slice decides. *)
Fixpoint startsKey (ns : list bytes) : bool :=
  match ns with
  | [] => false
  | n :: ns => if unitType n =? NALUTypePFrame then false
               else if unitType n =? NALUTypeIFrame then true else startsKey ns
  end.

Lemma keyframeLoop_units ns : forall n fuel,
  Forall goodUnit (n :: ns) -> (length (avccUnits (n :: ns)) < fuel)%nat ->
  keyframeLoop fuel (avccUnits (n :: ns)) = Some (Some (startsKey (n :: ns))).
Proof.
  induction ns as [|m ns IH]; intros n fuel H Hf; destruct fuel as [|fuel]; try lia;
    apply Forall_cons in H as [Hn Hns]; open_unit; cbn [startsKey];
    destruct (unitType n =? NALUTypePFrame); try done;
    destruct (unitType n =? NALUTypeIFrame); try done; rewrite unit_more by done.
  - reflexivity.
  - rewrite bool_decide_false by done. cbn [negb]. rewrite unit_drop by auto.
    apply IH; [done|]. rewrite !length_app in Hf. cbn in Hf |- *. lia.
Qed.

(** On units joined behind their lengths the walkers see exactly the units: the split
    gives them back with their lengths, the types are theirs in order, and the access
    unit is a key frame when an IDR slice comes before any other slice. *)
Theorem walkers_exact (nalus : list bytes)
    (Hlen : Forall (fun n => len n < 4294967296) nalus) (Hsome : Exists (fun n => n <> []) nalus) :
  let units := filter (fun n => n <> []) nalus in
  SplitNALU (JoinNALU nalus) = Some (map framed units) /\
  NALUTypes (JoinNALU nalus) = Some (map unitType units) /\
  IsKeyframe (JoinNALU nalus) = Some (startsKey units).
Proof.
  cbv zeta. rewrite JoinNALU_units by done.
  assert (Forall goodUnit (filter (fun n => n <> []) nalus)) as Hg.
  { apply Forall_forall. intros n [Hn Hin]%list_elem_of_filter. split; [done|].
    by eapply Forall_forall in Hlen. }
  destruct (filter (fun n => n <> []) nalus) as [|n ns] eqn:E.
  { exfalso. apply Exists_exists in Hsome as (n & Hin & Hn).
    assert (n ∈ filter (fun n => n <> []) nalus) as H by (by apply list_elem_of_filter).
    rewrite E in H. by apply not_elem_of_nil in H. }
  unfold SplitNALU, NALUTypes, IsKeyframe.
  by rewrite splitLoop_units, typesLoop_units, keyframeLoop_units by (done || lia).
Qed.

Lemma walkers_exact_witness :
  IsKeyframe (JoinNALU [[0x67; 0x64; 0; 0x28]; []; [0x68; 0xEE]; [0x65; 0x88; 0x84]]) = Some true.
Proof.
  apply (walkers_exact [[0x67; 0x64; 0; 0x28]; []; [0x68; 0xEE]; [0x65; 0x88; 0x84]]).
  - repeat constructor.
  - apply Exists_cons. by left.
Defined.

(** *** The codec line *)

(** What a unit adds to the line. *)
Definition piece (n : bytes) : bytes :=
  if unitType n =? NALUTypeSPS
  then str ";profile-level-id=" ++ hexEncode (seg n 1 4) ++ str ";sprop-parameter-sets=" ++ b64Encode n
  else if unitType n =? NALUTypePPS then str "," ++ b64Encode n else [].

(** A sequence parameter set starts with its header and the three profile bytes. *)
Definition fullSPS (n : bytes) : Prop := unitType n = NALUTypeSPS -> 4 <= len n.

Lemma codecLoop_units spare ns : forall fuel buf,
  Forall goodUnit ns -> Forall fullSPS ns -> (length (avccUnits ns) < fuel)%nat ->
  codecLoop fuel (avccUnits ns) spare buf = Some (Some (buf ++ flat_map piece ns)).
Proof.
  induction ns as [|n ns IH]; intros fuel buf H Hs Hf; (destruct fuel as [|fuel]; [lia|]).
  { cbn. by rewrite app_nil_r. }
  apply Forall_cons in H as [Hn Hns]. apply Forall_cons in Hs as [Hs Hss].
  rewrite avccUnits_length in Hf. open_unit. rewrite unit_len, unit_drop, unit_seg by auto.
  pose proof (len_nonneg (avccUnits ns)). rewrite (proj2 (Z.ltb_ge _ _)) by lia.
  assert (forall buf, codecLoop fuel (avccUnits ns) spare buf = Some (Some (buf ++ flat_map piece ns))) as IH'.
  { intros. apply IH; [done..|lia]. }
  cbn [flat_map]. unfold piece at 1.
  destruct (Z.eqb_spec (unitType n) NALUTypeSPS) as [E|_].
  - rewrite unit_profile by auto. rewrite IH'. by rewrite <- (app_assoc buf).
  - destruct (unitType n =? NALUTypePPS); rewrite IH'; [by rewrite <- (app_assoc buf)|done].
Qed.

Lemma AVCCToCodec_units spare ns :
  Forall goodUnit ns -> Forall fullSPS ns ->
  AVCCToCodec (avccUnits ns) spare = Some (packetizationMode ++ flat_map piece ns).
Proof. intros. unfold AVCCToCodec. by rewrite codecLoop_units by (done || lia). Qed.

Lemma unit_sub n r spare : sub ((be32 (len n) ++ n ++ r) ++ spare) 4 (4 + len n) = Some n.
Proof.
  pose proof (len_nonneg n). pose proof (len_nonneg r). pose proof (len_nonneg spare).
  rewrite <- !app_assoc, sub_in; [by rewrite unit_seg|lia|].
  rewrite !len_app. change (len (be32 (len n))) with 4. lia.
Qed.

Lemma fmtpLoop_units spare ns : forall n fuel s,
  Forall goodUnit (n :: ns) -> Forall fullSPS (n :: ns) -> (length (avccUnits (n :: ns)) < fuel)%nat ->
  fmtpLoop fuel (avccUnits (n :: ns)) spare s = Some (Some (s ++ flat_map piece (n :: ns))).
Proof.
  induction ns as [|m ns IH]; intros n fuel s H Hs Hf; (destruct fuel as [|fuel]; [lia|]);
    apply Forall_cons in H as [Hn Hns]; apply Forall_cons in Hs as [Hs Hss];
    rewrite avccUnits_length in Hf; open_unit;
    rewrite (Z.add_comm 4), unit_more, (Z.add_comm _ 4), unit_sub, unit_drop by auto;
    cbn [flat_map]; unfold piece at 1.
  - rewrite bool_decide_true by done. cbn [negb flat_map].
    destruct (Z.eqb_spec (unitType n) NALUTypeSPS) as [E|_]; [|destruct (unitType n =? NALUTypePPS); by rewrite ?app_nil_r].
    rewrite unit_profile by auto. by rewrite (app_nil_r (str _ ++ _)).
  - rewrite bool_decide_false by done. cbn [negb].
    assert (forall s, fmtpLoop fuel (avccUnits (m :: ns)) spare s =
              Some (Some (s ++ flat_map piece (m :: ns)))) as IH'.
    { intros. apply IH; [done..|rewrite avccUnits_cons; lia]. }
    destruct (Z.eqb_spec (unitType n) NALUTypeSPS) as [E|_].
    + rewrite unit_profile by auto. rewrite IH'. by rewrite <- (app_assoc s).
    + destruct (unitType n =? NALUTypePPS); rewrite IH'; [by rewrite <- (app_assoc s)|done].
Qed.

(** The two loops that make a codec line agree on every access unit, though one steps
    over what is left at the end and the other reads on. *)
Theorem fmtp_lines_agree (spare : bytes) (n : bytes) (ns : list bytes)
    (Hgood : Forall goodUnit (n :: ns)) (Hsps : Forall fullSPS (n :: ns)) :
  GetFmtpLine (avccUnits (n :: ns)) spare = AVCCToCodec (avccUnits (n :: ns)) spare.
Proof.
  rewrite AVCCToCodec_units by done. unfold GetFmtpLine. by rewrite fmtpLoop_units by (done || lia).
Qed.

(** *** The parameter sets are recovered *)

Definition noParams (n : bytes) : bool :=
  negb ((unitType n =? NALUTypeSPS) || (unitType n =? NALUTypePPS)).

Lemma piece_none ns : forallb noParams ns = true -> flat_map piece ns = [].
Proof.
  induction ns as [|n ns IH]; [done|]. cbn. intros [Hn H]%andb_true_iff. rewrite IH by done.
  unfold noParams in Hn. unfold piece. destruct (_ =? NALUTypeSPS), (_ =? NALUTypePPS); done.
Qed.

(** No text but the base64 of a unit is foreign to base64. *)
Lemma text_avoids c s : b64Text c = false -> bytes_ok s -> Forall (fun x => x <> c) (b64Encode s).
Proof.
  intros Hc Hs. eapply Forall_impl; [by apply b64Encode_text|]. cbn. congruence.
Qed.

Lemma hexEncode_small s : bytes_ok s -> Forall (fun x => x < 103) (hexEncode s).
Proof.
  intros H. induction H as [|b s Hb _ IH]; [constructor|]. cbn.
  repeat (constructor; [unfold hexDigit; case_match; ints|]). exact IH.
Qed.

Lemma pieces_stop ns : stops (flat_map piece ns).
Proof.
  induction ns as [|n ns IH]; [done|]. cbn [flat_map]. unfold piece at 1.
  destruct (_ =? NALUTypeSPS); [done|]. by destruct (_ =? NALUTypePPS).
Qed.

#[local] Arguments str _ : simpl never.

(** Cut at the next sequence parameter set. *)
Lemma pieces_cut ns : Forall bytes_ok ns ->
  exists t k, flat_map piece ns = t ++ k /\ stops t /\ Forall (fun c => c <> 59) t /\
              (k = [] \/ exists r, k = 59 :: r).
Proof.
  induction ns as [|n ns IH]; intros H.
  { exists [], []. split_and!; [done..|constructor|by left]. }
  apply Forall_cons in H as [Hn Hns]. destruct (IH Hns) as (t & k & E & Ht & Ht' & Hk).
  cbn [flat_map]. rewrite E. unfold piece. destruct (_ =? NALUTypeSPS).
  { exists [], ((str ";profile-level-id=" ++ hexEncode (seg n 1 4) ++ str ";sprop-parameter-sets=" ++
      b64Encode n) ++ t ++ k). split_and!; [done|done|constructor|]. right. eexists. reflexivity. }
  destruct (_ =? NALUTypePPS); [|by exists t, k].
  exists (str "," ++ b64Encode n ++ t), k. split_and!; [by rewrite <- !app_assoc|done| |done].
  repeat (apply Forall_app; split); [by repeat constructor|by apply text_avoids|done].
Qed.

Lemma GetParameterSet_line h sps pps t k :
  Forall (fun c => c <> 115) h -> bytes_ok sps -> bytes_ok pps ->
  stops t -> Forall (fun c => c <> 59) t -> k = [] \/ (exists r, k = 59 :: r) ->
  GetParameterSet (h ++ str "sprop-parameter-sets=" ++ (b64Encode sps ++ str "," ++ b64Encode pps ++ t) ++ k)
  = (sps, pps).
Proof.
  intros Hh Hs Hp Ht Ht' Hk. unfold GetParameterSet.
  change (str "sprop-parameter-sets=") with (115 :: str "prop-parameter-sets=").
  change (str ";") with [59]. set (body := b64Encode sps ++ str "," ++ b64Encode pps ++ t).
  rewrite bool_decide_false by (by destruct h).
  assert (Forall (fun c => c <> 59) body) as Hb.
  { unfold body. repeat (apply Forall_app; split); [by apply text_avoids|by repeat constructor| |done].
    by apply text_avoids. }
  assert (Between (h ++ (115 :: str "prop-parameter-sets=") ++ body ++ k)
            (115 :: str "prop-parameter-sets=") [59] = body) as ->.
  { destruct Hk as [->|[r ->]]; [rewrite app_nil_r; by apply Between_rest|].
    by apply (Between_found h 115 _ body 59 [] r). }
  rewrite bool_decide_false by (unfold body; by destruct (b64Encode sps)).
  unfold body. change (str ",") with [44].
  rewrite index_found by (by apply text_avoids). rewrite take_app_length.
  rewrite (app_assoc _ [44]), drop_app_length' by (by rewrite length_app).
  f_equal; unfold b64Decode; [|by apply b64_prefix].
  rewrite <- (app_nil_r (b64Encode sps)). by apply b64_prefix.
Qed.

Definition params (pre : list bytes) (sps : bytes) (mid : list bytes) (pps : bytes) (post : list bytes)
    : list bytes := pre ++ sps :: mid ++ pps :: post.

Lemma line_params pre sps mid pps post :
  Forall bytes_ok (params pre sps mid pps post) ->
  forallb noParams pre = true -> forallb noParams mid = true ->
  unitType sps = NALUTypeSPS -> unitType pps = NALUTypePPS ->
  exists h t k,
    packetizationMode ++ flat_map piece (params pre sps mid pps post) =
      h ++ str "sprop-parameter-sets=" ++ (b64Encode sps ++ str "," ++ b64Encode pps ++ t) ++ k /\
    Forall (fun c => c <> 115) h /\ stops t /\ Forall (fun c => c <> 59) t /\
    (k = [] \/ exists r, k = 59 :: r).
Proof.
  intros H Hpre Hmid Es Ep. unfold params in *. apply Forall_app in H as [_ H].
  apply Forall_cons in H as [Hs H]. apply Forall_app in H as [_ H]. apply Forall_cons in H as [Hp H].
  destruct (pieces_cut post H) as (t & k & E & Ht & Ht' & Hk).
  exists (packetizationMode ++ str ";profile-level-id=" ++ hexEncode (seg sps 1 4) ++ str ";"), t, k.
  split_and!; [| |done..].
  - rewrite flat_map_app, piece_none by done. cbn [flat_map app].
    rewrite flat_map_app, piece_none by done. cbn [flat_map app]. rewrite E. unfold piece.
    rewrite Es, Ep. cbn [Z.eqb Pos.eqb NALUTypeSPS NALUTypePPS].
    change (str ";sprop-parameter-sets=") with (str ";" ++ str "sprop-parameter-sets=").
    by rewrite <- !app_assoc.
  - assert (bool_decide (Forall (fun c => c <> 115) (packetizationMode ++ str ";profile-level-id=" ++ str ";")) = true)
      as Hc by (vm_compute; reflexivity).
    apply bool_decide_eq_true in Hc. rewrite !Forall_app in *. split_and!; try tauto.
    eapply Forall_impl; [by apply hexEncode_small, seg_ok|]. cbn. intros. lia.
Qed.

Lemma RepairAVCC_unit fmtp sps pps u rest :
  GetParameterSet fmtp = (sps, pps) -> goodUnit sps -> goodUnit pps -> goodUnit u ->
  unitType u <> NALUTypeSEI ->
  RepairAVCC fmtp (avccUnits (u :: rest)) =
  Some (avccUnits ((if unitType u =? NALUTypeIFrame then [sps; pps] else []) ++ u :: rest)).
Proof.
  intros E Hs Hp Hu Ht. unfold RepairAVCC. rewrite E, JoinNALU_good by (by apply Forall_cons_2, Forall_cons_2).
  rewrite (avccUnits_cons u), unit_type by done. cbn [mbind option_bind].
  rewrite (proj2 (Z.eqb_neq _ _)) by done. cbn [mbind option_bind]. rewrite unit_type by done.
  cbn [mbind option_bind]. destruct (unitType u =? NALUTypeIFrame); [|by rewrite <- avccUnits_cons].
  cbn [app]. unfold Join. by rewrite !avccUnits_cons, <- !app_assoc, app_nil_l.
Qed.

Lemma RepairAVCC_sei fmtp sei us :
  goodUnit sei -> unitType sei = NALUTypeSEI -> goodUnit (hd [] us) ->
  unitType (hd [] us) <> NALUTypeSEI ->
  RepairAVCC fmtp (avccUnits (sei :: us)) = RepairAVCC fmtp (avccUnits us).
Proof.
  intros Hs E Hu Ht. destruct us as [|u rest]; [by destruct Hu|]. cbn [hd] in *.
  unfold RepairAVCC. destruct (GetParameterSet fmtp) as [sps pps].
  rewrite (avccUnits_cons sei), unit_type by done. cbn [mbind option_bind]. rewrite E, Z.eqb_refl.
  rewrite unit_load by done. cbn [mbind option_bind]. rewrite unit_len.
  pose proof (len_nonneg sei). pose proof (len_nonneg (avccUnits (u :: rest))).
  rewrite sub_in by (rewrite ?unit_len; lia). unfold seg. rewrite unit_drop by auto.
  rewrite take_ge by (unfold len in *; lia). cbn [mbind option_bind].
  rewrite avccUnits_cons, unit_type by done. cbn [mbind option_bind].
  rewrite (proj2 (Z.eqb_neq (unitType u) NALUTypeSEI)) by done. cbn [mbind option_bind].
  by rewrite unit_type by done.
Qed.

(** C28. The parameter sets of the probed access unit come back from its codec line, byte
    for byte, whatever other units surround them, and the handler made for the codec
    puts them in front of every later access unit that starts with an IDR slice, also
    behind an SEI unit; an SEI unit in front is dropped, and all other units stay as they
    are. *)
Theorem parameter_sets_roundtrip (pre : list bytes) (sps : bytes) (mid : list bytes) (pps : bytes)
    (post : list bytes) (spare : bytes)
    (Hgood : Forall goodUnit (params pre sps mid pps post) /\
             Forall fullSPS (params pre sps mid pps post) /\
             Forall bytes_ok (params pre sps mid pps post))
    (Hfirst : forallb noParams pre = true /\ forallb noParams mid = true)
    (Htypes : unitType sps = NALUTypeSPS /\ unitType pps = NALUTypePPS) :
  exists fmtp, AVCCToCodec (avccUnits (params pre sps mid pps post)) spare = Some fmtp /\
    GetParameterSet fmtp = (sps, pps) /\
    (forall u rest, goodUnit u -> unitType u <> NALUTypeSEI ->
      let repaired := (if unitType u =? NALUTypeIFrame then [sps; pps] else []) ++ u :: rest in
      RepairAVCC fmtp (avccUnits (u :: rest)) = Some (avccUnits repaired) /\
      forall sei, goodUnit sei -> unitType sei = NALUTypeSEI ->
        RepairAVCC fmtp (avccUnits (sei :: u :: rest)) = Some (avccUnits repaired)).
Proof.
  destruct Hgood as (Hg & Hs & Hb), Hfirst as [Hpre Hmid], Htypes as [Es Ep].
  eexists. split; [by apply AVCCToCodec_units|].
  destruct (line_params pre sps mid pps post Hb Hpre Hmid Es Ep) as (h & t & k & E & Hh & Ht & Ht' & Hk).
  unfold params in Hg, Hb. rewrite !Forall_app, !Forall_cons, !Forall_app, !Forall_cons in Hg, Hb.
  assert (GetParameterSet (packetizationMode ++ flat_map piece (params pre sps mid pps post)) = (sps, pps)) as G.
  { rewrite E. apply GetParameterSet_line; tauto. }
  split; [exact G|]. intros u rest Hu Hu'. cbv zeta.
  pose proof (RepairAVCC_unit _ sps pps u rest G ltac:(tauto) ltac:(tauto) Hu Hu') as R.
  split; [exact R|]. intros sei Hsei E'. by rewrite RepairAVCC_sei.
Qed.

(** ** The profile in the codec string *)

Definition profiles : list Z := [ProfileBaseline; ProfileMain; ProfileHigh].
Definition capabilities : list Z := [CapabilityBaseline; CapabilityMain; 0].
Definition levels : list Z := [30; 31; 40; 41].
Definition profileString (p c l : Z) : bytes := hexUpper p ++ hexUpper c ++ hexUpper l.

(** Whatever the codec line, the codec string names a profile, a capability and a
    level that players support; and for a line made from a stream it names the ones
    in the stream's parameter set when they are supported. *)
Theorem profile_supported (fmtp pre : bytes) (sps rest : bytes) (p c l : Z) (k : bytes)
    (Hsps : sps = 0x67 :: p :: c :: l :: k /\ bytes_ok sps)
    (Hline : fmtp = pre ++ str "sprop-parameter-sets=" ++ b64Encode sps ++ str "," ++ rest /\
             Forall (fun x => x <> 115) pre)
    (Hsupported : p ∈ profiles /\ c ∈ capabilities /\ l ∈ levels) :
  GetProfileLevelID fmtp = profileString p c l /\
  forall other, exists p' c' l', p' ∈ profiles /\ c' ∈ capabilities /\ l' ∈ levels /\
    GetProfileLevelID other = profileString p' c' l'.
Proof.
  split.
  - destruct Hsps as [-> Hb], Hline as [-> Hpre], Hsupported as (Hp & Hc & Hl).
    unfold GetProfileLevelID.
    change (str "sprop-parameter-sets=") with (115 :: str "prop-parameter-sets=").
    change (str ",") with [44]. rewrite bool_decide_false by (by destruct pre).
    rewrite (Between_found pre 115 _ _ 44 []) by (done || by apply text_avoids).
    rewrite bool_decide_false by (by destruct k as [|? [|? k]]). cbn [negb].
    rewrite reads by done. cbn [fst]. rewrite (proj2 (Z.leb_le _ _)) by (unfold len; cbn [length]; lia).
    change (seg (0x67 :: p :: c :: l :: k) 1 4) with [p; c; l]. cbv beta iota zeta.
    unfold profiles, capabilities, levels in *. rewrite !elem_of_cons, elem_of_nil in *.
    destruct Hp as [->|[->|[->|[]]]], Hc as [->|[->|[->|[]]]], Hl as [->|[->|[->|[->|[]]]]]; reflexivity.
  - intros other. unfold GetProfileLevelID, profiles, capabilities, levels. cbv zeta.
    destruct (if bool_decide (other = []) then _ else _) as [|c0 [|c1 [|c2 [|]]]];
      try (exists ProfileHigh, 0, 41; split_and!; [set_solver..|reflexivity]).
    eexists _, _, _. split_and!; [| | |reflexivity];
      rewrite !elem_of_cons; repeat case_match; try lia; auto.
Qed.

(** *** Witnesses and limits *)

Definition demoSPS : bytes := [0x67; 0x64; 0; 0x28; 0xAC].
Definition demoPPS : bytes := [0x68; 0xEE; 0x3C; 0x80].
Definition demoIDR : bytes := [0x65; 0x88; 0x84; 0; 0x33].
Definition demoSEI : bytes := [0x06; 0x05; 0x01; 0x80].

Example demo_line :
  AVCCToCodec (avccUnits [demoSPS; demoPPS; demoIDR]) [] =
  Some (str "packetization-mode=1;profile-level-id=640028;sprop-parameter-sets=Z2QAKKw=,aO48gA==").
Proof. vm_compute. reflexivity. Qed.

Ltac good_units := split_and?;
  repeat (apply Forall_cons; split; [first [split; [discriminate|reflexivity]|intros _; vm_compute; discriminate
                                          |intros E; vm_compute in E; discriminate|bytes_lit]|]);
  apply Forall_nil; exact I.

Lemma parameter_sets_roundtrip_witness :
  exists fmtp, AVCCToCodec (avccUnits [demoSEI; demoSPS; demoPPS; demoIDR]) [] = Some fmtp /\
    RepairAVCC fmtp (avccUnits [demoSEI; demoIDR]) = Some (avccUnits [demoSPS; demoPPS; demoIDR]).
Proof.
  destruct (parameter_sets_roundtrip [demoSEI] demoSPS [] demoPPS [demoIDR] []) as (fmtp & E & _ & H).
  - good_units.
  - by split.
  - by split.
  - exists fmtp. split; [exact E|].
    destruct (H demoIDR []) as [_ H']; [by split|discriminate|].
    apply (H' demoSEI); [by split|reflexivity].
Defined.

Lemma fmtp_lines_agree_witness :
  GetFmtpLine (avccUnits [demoSPS; demoPPS]) [] = AVCCToCodec (avccUnits [demoSPS; demoPPS]) [].
Proof. apply fmtp_lines_agree; good_units. Defined.

Lemma profile_supported_witness :
  GetProfileLevelID (str ";sprop-parameter-sets=Z2QAKKw=,aO48gA==") = str "640028".
Proof.
  refine (proj1 (profile_supported _ [59] demoSPS (str "aO48gA==") 0x64 0 0x28 [0xAC] _ _ _)).
  - split; [reflexivity|bytes_lit].
  - split; [vm_compute; reflexivity|repeat constructor; discriminate].
  - unfold profiles, capabilities, levels. repeat split; set_solver.
Defined.

(** A parameter set cut off after its header, at the end of the slice's memory, makes
    the profile bytes run over the capacity. *)
Lemma truncated_sps_panics : AVCCToCodec (avccUnits [[0x06]; [0x67]]) [0; 0] = None.
Proof. vm_compute. reflexivity. Qed.

(** Of two parameter sets before the picture's only the first is found, and without
    its companion. *)
Lemma second_sps_hides_pps :
  option_map GetParameterSet (AVCCToCodec (avccUnits [demoSPS; demoSPS; demoPPS]) []) = Some ([], []).
Proof. vm_compute. reflexivity. Qed.
