(* ===== verification/Producer.v ===== *)
(** The producer ([pkg/petlibro/producer.go]): retrying the startup, probing the
    stream for its codecs, and handing packets to the receivers.  [None] is a run-time
    panic where a function returns an option. *)

From S2P Require Import Prelude Text Wire Annexb Bits Sps Aac Codec Session Assembler.

#[local] Arguments str _ : simpl never.

(** ** Startup *)

Definition retryStartupError (msg : bytes) : bool :=
  contains msg (str "LOGIN_RESP timeout") ||
  contains msg (str "petlibro: probe timeout") ||
  contains msg (str "petlibro: probe: EOF").

Section startup.
Context {A : Type} (newProducer : nat -> bytes + A).

(** [for attempt := 1; attempt <= 3; attempt++], with [left_] attempts to go; also the
    milliseconds slept. *)
Fixpoint attempts (left_ attempt : nat) (lastErr : bytes) : (bytes + A) * list Z :=
  match left_ with
  | O => (inl lastErr, [])
  | S left_ =>
      match newProducer attempt with
      | inr producer => (inr producer, [])
      | inl err =>
          if negb (retryStartupError err) then (inl err, []) else
          let '(r, slept) := attempts left_ (S attempt) err in
          (r, Z.of_nat attempt * 500 :: slept)
      end
  end.
Definition NewProducer : (bytes + A) * list Z := attempts 3 1 [].
End startup.

(** ** Probing *)

Definition second : Z := 1000000000.
(** [core.ProbeTimeout] *)
Definition ProbeTimeout : Z := 5 * second.

(** The variables of [probe], and when its timer fires. *)
Record prober := mkProber {
  vcodec : option bytes;        (* the codec line *)
  acodec : option Aac.Codec;
  firstAU : bytes;
  firstTS : Z;
  selectedWidth : Z;
  selectedHeight : Z;
  selectedFrameNum : Z;
  selectedChannel : Z;
  selectedOnlineNum : Z;
  waitingForHD : bool;
  deadline : Z;
}.
#[export] Instance eta_prober : Eta prober := fun s =>
  mkProber (vcodec s) (acodec s) (firstAU s) (firstTS s) (selectedWidth s) (selectedHeight s)
    (selectedFrameNum s) (selectedChannel s) (selectedOnlineNum s) (waitingForHD s) (deadline s).

Definition probe_init (now : Z) : prober := mkProber None None [] 0 0 0 0 0 0 false (now + ProbeTimeout).

(** One round of the loop's [select]. *)
Inductive event :=
| TimerFired
| ClientDone
| FramesClosed
| Frame (p : option Packet).

Inductive outcome :=
| Continue (s : prober)
| Selected (s : prober)
| Failed (msg : bytes) (closed : bool)   (* whether the client was closed first *)
| Panicked.

Definition probeTimeoutError : bytes := str "petlibro: probe timeout".
Definition probeEOFError : bytes := str "petlibro: probe: EOF".

Definition present {B} (o : option B) : bool := match o with Some _ => true | None => false end.

Section probe.
(** [grown] is the spare memory of a slice that had to be moved to grow. *)
Context (o : options) (grown : bytes -> bytes).

(** The spare memory behind [EncodeToAVCC], which starts with room for four bytes more
    than it gets. *)
Definition spareOf (payload : bytes) : bytes :=
  let avcc := EncodeToAVCC payload in
  if len avcc <=? len payload + 4 then zeros (Z.to_nat (len payload + 4 - len avcc)) else grown payload.

Definition select (p : Packet) (codec : bytes) (width height : Z) (s : prober) : prober :=
  s <| vcodec := Some codec |> <| firstAU := Payload p |> <| firstTS := Timestamp p |>
    <| selectedWidth := width |> <| selectedHeight := height |>
    <| selectedFrameNum := CameraFrameNo p |> <| selectedChannel := Channel p |>
    <| selectedOnlineNum := OnlineNum p |>.

(** What an access unit offers: its codec line, width and height.  The inner [None] is
    [continue]. *)
Definition inspect (p : Packet) : option (option (bytes * Z * Z)) :=
  let buf := EncodeToAVCC (Payload p) in
  if negb (default false (avccContainsNALType buf NALUTypeSPS)) then Some None else
  codec ← AVCCToCodec buf (spareOf (Payload p));
  Some (
    sps ← annexbNAL (Payload p) NALUTypeSPS;
    if len sps <? 4 then None else
    decoded ← DecodeSPS sps;
    Some (codec, Sps.Width decoded, Sps.Height decoded)).

Definition wantsHD (width height : Z) : bool :=
  bool_decide (quality o = str "hd") && (0 <? hdProbeWait o) && ((width <? 1920) || (height <? 1080)).

Definition choose (p : Packet) (offer : bytes * Z * Z) (now : Z) (s : prober) : prober :=
  let '(codec, width, height) := offer in
  match vcodec s with
  | None =>
      let s := select p codec width height s in
      if wantsHD width height
      then s <| waitingForHD := true |> <| deadline := now + hdProbeWait o |>
      else s
  | Some _ =>
      if waitingForHD s &&
         (negb (width =? selectedWidth s) || negb (height =? selectedHeight s)) &&
         ((selectedWidth s <? width) || (selectedHeight s <? height))
      then (select p codec width height s) <| waitingForHD := false |>
      else s
  end.

Definition probeAudio (p : Packet) (s : prober) : prober :=
  match acodec s with
  | None => match ADTSToCodec (Payload p) with Some c => s <| acodec := Some c |> | None => s end
  | Some _ => s
  end.

Definition complete (s : prober) : bool :=
  present (vcodec s) && negb (waitingForHD s) && (present (acodec s) || negb (audio o)).

Definition settle (s : prober) : outcome := if complete s then Selected s else Continue s.

Definition probeStep (e : event) (now : Z) (s : prober) : outcome :=
  match e with
  | TimerFired =>
      if waitingForHD s && present (vcodec s) then
        let s := s <| waitingForHD := false |> in
        if present (acodec s) || negb (audio o) then Selected s
        else Continue (s <| deadline := now + ProbeTimeout |>)
      else Failed probeTimeoutError true
  | ClientDone | FramesClosed => Failed probeEOFError false
  | Frame None => Continue s
  | Frame (Some p) =>
      if len (Payload p) <? 5 then Continue s
      else if Assembler.Codec p =? CodecH264 then
        match inspect p with
        | None => Panicked
        | Some None => Continue s
        | Some (Some offer) => settle (choose p offer now s)
        end
      else if Assembler.Codec p =? CodecAACADTS then settle (probeAudio p s)
      else settle s
  end.

(** The rounds, each with its time. *)
Fixpoint probe (l : list (event * Z)) (s : prober) : outcome :=
  match l with
  | [] => Continue s
  | (e, now) :: l => match probeStep e now s with Continue s => probe l s | r => r end
  end.
End probe.

(** ** Streaming *)

Record rtpPacket := mkRTP {
  Version : Z;
  Marker : bool;
  SequenceNumber : Z;
  rtpTimestamp : Z;
  rtpPayload : bytes;
}.

(** The codec names of the receivers; [written] are the packets given to each, by its
    position. *)
Record Producer := mkProducer {
  Receivers : list bytes;
  rtpSeq : Z;
  keyframeSeen : bool;
  written : list (nat * rtpPacket);
}.
#[export] Instance eta_producer : Eta Producer := fun p =>
  mkProducer (Receivers p) (rtpSeq p) (keyframeSeen p) (written p).

Definition coreH264 : bytes := str "H264".

(** The counter after [nextSeq], which returns its low half. *)
Definition bumpSeq (s : Producer) : Producer := s <| rtpSeq := u32 (rtpSeq s + 1) |>.

(** The first receiver of the codec gets the packet. *)
Fixpoint receiverOf (name : bytes) (l : list bytes) : option nat :=
  match l with
  | [] => None
  | n :: l => if bool_decide (n = name) then Some O else S <$> receiverOf name l
  end.
Definition WriteRTP (name : bytes) (pkt : rtpPacket) (s : Producer) : Producer :=
  match receiverOf name (Receivers s) with
  | Some i => s <| written := written s ++ [(i, pkt)] |>
  | None => s
  end.

(** What [Start] does before its loop. *)
Definition replay (au : option bytes) (ts : Z) (s : Producer) : Producer :=
  match au with
  | None => s
  | Some au =>
      let avcc := EncodeToAVCC au in
      let s :=
        if 5 <=? len avcc then
          match receiverOf coreH264 (Receivers s) with
          | Some _ =>
              let s := bumpSeq s in
              WriteRTP coreH264 (mkRTP 0 false (u16 (rtpSeq s)) ts avcc) s
          | None => s
          end
        else s in
      s <| keyframeSeen := true |>
  end.

(** The payload of an audio packet without its ADTS header. *)
Definition audioPayload (payload : bytes) : option bytes :=
  if IsADTS payload then
    size ← ReadADTSSize payload;
    hdr ← ADTSHeaderLen payload;
    let payload := if (hdr <? size) && (size <=? len payload) then seg payload 0 size else payload in
    hdr ← ADTSHeaderLen payload;
    sub payload hdr (len payload)
  else Some payload.

(** One packet of the loop. *)
Definition forward (p : Packet) (s : Producer) : option Producer :=
  if Assembler.Codec p =? CodecH264 then
    if negb (keyframeSeen s) && negb (Assembler.IsKeyframe p) then Some s else
    let s := s <| keyframeSeen := true |> in
    let avcc := EncodeToAVCC (Payload p) in
    if len avcc <? 5 then Some s else
    let s := bumpSeq s in
    Some (WriteRTP coreH264 (mkRTP 0 false (u16 (rtpSeq s)) (Timestamp p) avcc) s)
  else if Assembler.Codec p =? CodecAACADTS then
    payload ← audioPayload (Payload p);
    Some (WriteRTP CodecAAC (mkRTP 0 true (u16 (FrameNo p)) (Timestamp p) payload) s)
  else Some s.

(** [Start] until [ReadPacket] reports the end; [None] is a nil packet. *)
Fixpoint forwardAll (l : list (option Packet)) (s : Producer) : option Producer :=
  match l with
  | [] => Some s
  | None :: l => forwardAll l s
  | Some p :: l => s ← forward p s; forwardAll l s
  end.
Definition Start (au : option bytes) (ts : Z) (l : list (option Packet)) (s : Producer) : option Producer :=
  forwardAll l (replay au ts s).

(** ** Selection *)

Section selection.
Context (o : options) (grown : bytes -> bytes).

Notation offer := (Packet * (bytes * Z * Z))%type.

Definition offerOf (e : event) : option offer :=
  match e with
  | Frame (Some p) =>
      if (len (Payload p) <? 5) || negb (Assembler.Codec p =? CodecH264) then None
      else match inspect grown p with Some (Some f) => Some (p, f) | _ => None end
  | _ => None
  end.

Definition larger (f g : offer) : bool :=
  let '(_, (_, w, h)) := f in let '(_, (_, w', h')) := g in (w <? w') || (h <? h').
Definition wants (f : offer) : bool := let '(_, (_, w, h)) := f in wantsHD o w h.

(** The rule: the first offer, or, when it makes the probe wait for HD, the first one
    larger than it that comes before the timer fires. *)
Fixpoint firstLarger (f : offer) (l : list (event * Z)) : offer :=
  match l with
  | [] | (TimerFired, _) :: _ => f
  | (e, _) :: l =>
      match offerOf e with
      | Some g => if larger f g then g else firstLarger f l
      | None => firstLarger f l
      end
  end.
Fixpoint rule (l : list (event * Z)) : option offer :=
  match l with
  | [] => None
  | (e, _) :: l =>
      match offerOf e with
      | Some f => Some (if wants f then firstLarger f l else f)
      | None => rule l
      end
  end.

(** The codec of the first audio packet with an ADTS header. *)
Definition audioOf (e : event) : option Aac.Codec :=
  match e with
  | Frame (Some p) =>
      if (len (Payload p) <? 5) || negb (Assembler.Codec p =? CodecAACADTS) then None
      else ADTSToCodec (Payload p)
  | _ => None
  end.

(** The variables hold the offer. *)
Definition holds (s : prober) (f : offer) : Prop :=
  let '(p, (codec, w, h)) := f in
  vcodec s = Some codec /\ firstAU s = Payload p /\ firstTS s = Timestamp p /\
  selectedWidth s = w /\ selectedHeight s = h /\ selectedFrameNum s = CameraFrameNo p.

(** The state after a round that saw no timer. *)
Definition after (e : event) (now : Z) (s : prober) : prober :=
  (match offerOf e with Some (q, f) => choose o q f now s | None => s end)
    <| acodec := match acodec s with Some c => Some c | None => audioOf e end |>.

Definition result (r : outcome) : option prober :=
  match r with Continue s | Selected s => Some s | _ => None end.

Lemma choose_acodec p f now s : acodec (choose o p f now s) = acodec s.
Proof. unfold choose. destruct f as [[? ?] ?]. repeat case_match; reflexivity. Qed.

Lemma same_acodec s c : acodec s = c -> s <| acodec := c |> = s.
Proof. intros <-. by destruct s. Qed.

Lemma settle_result s : result (settle o s) = Some s.
Proof. unfold settle. by destruct (complete o s). Qed.

Lemma step_after e now s s' : e <> TimerFired ->
  result (probeStep o grown e now s) = Some s' -> s' = after e now s.
Proof.
  intros He. destruct e as [| | |[p|]]; try done; unfold after; cbn [probeStep offerOf audioOf].
  2: { intros [= <-]. symmetry. apply same_acodec. by destruct (acodec s). }
  destruct (len (Payload p) <? 5); cbn [orb].
  { intros [= <-]. symmetry. apply same_acodec. by destruct (acodec s). }
  destruct (Z.eqb_spec (Assembler.Codec p) CodecH264) as [Ec|Ec]; cbn [negb].
  - rewrite Ec. cbn [Z.eqb Pos.eqb CodecH264 CodecAACADTS negb].
    destruct (inspect grown p) as [[f|]|]; [| |done].
    + rewrite settle_result. intros [= <-]. symmetry. apply same_acodec.
      rewrite choose_acodec. by destruct (acodec s).
    + intros [= <-]. symmetry. apply same_acodec. by destruct (acodec s).
  - destruct (Z.eqb_spec (Assembler.Codec p) CodecAACADTS) as [Ea|Ea]; cbn [negb];
      rewrite settle_result; intros [= <-].
    + unfold probeAudio. destruct (acodec s) eqn:E; [by rewrite same_acodec|].
      destruct (ADTSToCodec (Payload p)); [done|]. by rewrite same_acodec.
    + symmetry. apply same_acodec. by destruct (acodec s).
Qed.

Lemma step_selected e now s s' : probeStep o grown e now s = Selected s' ->
  waitingForHD s' = false /\ (audio o = true -> present (acodec s') = true).
Proof.
  assert (forall s0, settle o s0 = Selected s' ->
    waitingForHD s' = false /\ (audio o = true -> present (acodec s') = true)) as Hset.
  { intros s0. unfold settle, complete. destruct (_ && _) eqn:E; [|done]. intros [= <-].
    apply andb_true_iff in E as [[_ Hw]%andb_true_iff Ha]. split; [by apply negb_true_iff|].
    intros Eo. rewrite Eo in Ha. by destruct (present (acodec s0)). }
  destruct e as [| | |[p|]]; cbn [probeStep]; try done.
  - destruct (_ && _); [|done]. cbv zeta.
    match goal with |- context [if ?b then Selected _ else _] => destruct b eqn:E end; [|done].
    intros [= <-]. split; [done|]. cbn in E |- *. intros Eo. rewrite Eo in E.
    by destruct (present (acodec s)).
  - repeat case_match; try done; apply Hset.
Qed.

Lemma timer_or_not (e : event) : e = TimerFired \/ e <> TimerFired.
Proof. destruct e; [by left|by right..]. Qed.

Lemma holds_select p codec w h s :
  holds (select p codec w h s) (p, (codec, w, h)).
Proof. by split_and!. Qed.

Lemma holds_acodec s c f : holds s f -> holds (s <| acodec := c |>) f.
Proof. destruct f as [? [[? ?] ?]]. done. Qed.
Lemma holds_waiting s b f : holds s f -> holds (s <| waitingForHD := b |>) f.
Proof. destruct f as [? [[? ?] ?]]. done. Qed.
Lemma holds_deadline s d f : holds s f -> holds (s <| deadline := d |>) f.
Proof. destruct f as [? [[? ?] ?]]. done. Qed.

Lemma choose_held s f p c w h now :
  holds s f -> choose o p (c, w, h) now s =
  if waitingForHD s && larger f (p, (c, w, h))
  then (select p c w h s) <| waitingForHD := false |> else s.
Proof.
  destruct f as [q [[c0 w0] h0]]. intros (E & _ & _ & Ew & Eh & _). unfold choose.
  rewrite E, Ew, Eh. unfold larger. destruct (waitingForHD s); cbn [andb]; [|done].
  destruct (Z.ltb_spec w0 w), (Z.ltb_spec h0 h); cbn [orb]; rewrite ?andb_false_r; try done;
    destruct (Z.eqb_spec w w0), (Z.eqb_spec h h0); cbn; try done; lia.
Qed.

Lemma probe_cons e now l s s' :
  probe o grown ((e, now) :: l) s = Selected s' ->
  probeStep o grown e now s = Selected s' \/
  exists s1, probeStep o grown e now s = Continue s1 /\ probe o grown l s1 = Selected s'.
Proof. cbn. destruct (probeStep o grown e now s); intros; simplify_eq; eauto. Qed.

(** Once nothing is waited for, the selection stays. *)
Lemma settled_stays l : forall s s' f,
  holds s f -> waitingForHD s = false -> probe o grown l s = Selected s' -> holds s' f.
Proof.
  induction l as [|[e now] l IH]; intros s s' f Hh Hw H; [done|].
  assert (forall s1, result (probeStep o grown e now s) = Some s1 -> holds s1 f /\ waitingForHD s1 = false) as Hs.
  { intros s1 H1. destruct (timer_or_not e) as [->|He].
    - cbn in H1. rewrite Hw in H1. done.
    - apply step_after in H1 as ->; [|done]. unfold after.
      destruct (offerOf e) as [[q [[c w] h]]|]; [|done]. rewrite (choose_held s f) by done.
      rewrite Hw. done. }
  apply probe_cons in H as [H|(s1 & H1 & H)]; [apply Hs; by rewrite H|].
  destruct (Hs s1) as [? ?]; [by rewrite H1|]. by apply (IH s1).
Qed.

(** While waiting, the first larger offer before the timer wins. *)
Lemma waiting_selects l : forall s s' f,
  holds s f -> waitingForHD s = true -> probe o grown l s = Selected s' -> holds s' (firstLarger f l).
Proof.
  induction l as [|[e now] l IH]; intros s s' f Hh Hw H; [done|].
  destruct (timer_or_not e) as [->|He].
  { assert (vcodec s <> None) as Hv by (destruct f as [? [[? ?] ?]], Hh as [-> _]; done).
    cbn [firstLarger]. apply probe_cons in H as [H|(s1 & H1 & H)]; cbn [probeStep] in *;
      rewrite Hw in *; destruct (vcodec s) eqn:Ev; cbn [present andb] in *; try done.
    - destruct (_ || _); [|done]. injection H as <-. exact Hh.
    - destruct (_ || _); [done|]. injection H1 as <-.
      eapply settled_stays; [..|exact H]; [exact Hh|reflexivity]. }
  assert (firstLarger f ((e, now) :: l) =
    match offerOf e with Some g => if larger f g then g else firstLarger f l | None => firstLarger f l end)
    as -> by by destruct e.
  assert (forall s1, result (probeStep o grown e now s) = Some s1 ->
    if match offerOf e with Some g => larger f g | None => false end
    then holds s1 (default f (offerOf e)) /\ waitingForHD s1 = false
    else holds s1 f /\ waitingForHD s1 = true) as Hs.
  { intros s1 H1. apply step_after in H1 as ->; [|done]. unfold after.
    destruct (offerOf e) as [[q [[c w] h]]|]; [|done]. rewrite (choose_held s f) by done.
    rewrite Hw. cbn [andb]. destruct (larger f _); [|done]. split; [|done].
    apply holds_acodec, holds_waiting, holds_select. }
  apply probe_cons in H as [H|(s1 & H1 & H)].
  - specialize (Hs s' ltac:(by rewrite H)). apply step_selected in H as [Hw' _].
    destruct (offerOf e) as [g|]; [destruct (larger f g)|]; destruct Hs; congruence || done.
  - specialize (Hs s1 ltac:(by rewrite H1)). destruct (offerOf e) as [g|].
    + destruct (larger f g); destruct Hs; [by eapply settled_stays|by eapply IH].
    + destruct Hs. by eapply IH.
Qed.

Lemma nothing_yet l : forall s s',
  vcodec s = None -> waitingForHD s = false -> probe o grown l s = Selected s' ->
  exists f, rule l = Some f /\ holds s' f.
Proof.
  induction l as [|[e now] l IH]; intros s s' Hv Hw H; [done|].
  destruct (timer_or_not e) as [->|He]; [cbn in H; by rewrite Hw in H|].
  assert (forall s1, result (probeStep o grown e now s) = Some s1 ->
    match offerOf e with
    | Some f => holds s1 f /\ waitingForHD s1 = wants f
    | None => vcodec s1 = None /\ waitingForHD s1 = false
    end) as Hs.
  { intros s1 H1. apply step_after in H1 as ->; [|done]. unfold after.
    destruct (offerOf e) as [[q [[c w] h]]|]; [|done]. unfold choose. rewrite Hv. cbv zeta.
    unfold wants. destruct (wantsHD o w h); (split; [|first [reflexivity|exact Hw]]);
      apply holds_acodec; [apply holds_deadline, holds_waiting|]; apply holds_select. }
  cbn [rule]. apply probe_cons in H as [H|(s1 & H1 & H)].
  - specialize (Hs s' ltac:(by rewrite H)). destruct (step_selected _ _ _ _ H) as [Hw' _].
    destruct (offerOf e) as [f|].
    + exists f. destruct Hs as [Hh Hs]. rewrite <- Hs, Hw'. done.
    + (* nothing selects without a video codec *)
      destruct Hs as [Hs _]. exfalso. destruct e as [| | |[p|]]; try done. cbn [probeStep] in H.
      assert (forall s0, settle o s0 = Selected s' -> False) as Hset.
      { intros s0. unfold settle, complete. destruct (vcodec s0) eqn:Ev; [|done].
        destruct (_ && _); [|done]. intros [= <-]. congruence. }
      repeat case_match; try done; by eapply Hset.
  - specialize (Hs s1 ltac:(by rewrite H1)). destruct (offerOf e) as [f|].
    + exists (if wants f then firstLarger f l else f). split; [done|]. destruct Hs as [Hh Hs].
      destruct (wants f); [by eapply waiting_selects|by eapply settled_stays].
    + destruct Hs. by eapply IH.
Qed.

Definition firstAudio (l : list (event * Z)) : option Aac.Codec := head (omap (fun e => audioOf e.1) l).

Lemma audio_selected l : forall s s',
  audio o = true -> probe o grown l s = Selected s' ->
  present (acodec s') = true /\
  acodec s' = match acodec s with Some c => Some c | None => firstAudio l end.
Proof.
  induction l as [|[e now] l IH]; intros s s' Ho H; [done|].
  assert (forall s1, result (probeStep o grown e now s) = Some s1 ->
    acodec s1 = match acodec s with Some c => Some c | None => audioOf e end) as Hs.
  { intros s1 H1. destruct (timer_or_not e) as [->|He].
    - cbn in H1. destruct (_ && _); [|done]. destruct (_ || _); injection H1 as <-; by destruct (acodec s).
    - by apply step_after in H1 as ->. }
  unfold firstAudio. cbn [omap list_omap fst].
  apply probe_cons in H as [H|(s1 & H1 & H)].
  - specialize (Hs s' ltac:(by rewrite H)). apply step_selected in H as [_ Hp]. specialize (Hp Ho).
    split; [done|]. rewrite Hs in *. destruct (acodec s); [done|]. by destruct (audioOf e).
  - specialize (Hs s1 ltac:(by rewrite H1)). destruct (IH s1 s' Ho H) as [Hp E]. split; [done|].
    rewrite E, Hs. destruct (acodec s); [done|]. by destruct (audioOf e).
Qed.
End selection.

(** C25. What the probe settles on is what the rule picks: the first usable access unit, or,
    when HD was asked for and that one is smaller, the first larger one before the
    wait is over; the codec line, the replayed access unit and its timestamp all
    belong to it; and when audio was asked for its codec is the one of the first
    audio frame with an ADTS header. *)
Theorem probe_selects (o : options) (grown : bytes -> bytes) (start : Z) (l : list (event * Z)) (s : prober)
    (Hsel : probe o grown l (probe_init start) = Selected s) :
  (exists f, rule o grown l = Some f /\ holds s f) /\
  (audio o = true -> exists c, acodec s = Some c /\ firstAudio l = Some c).
Proof.
  split; [eapply nothing_yet; [..|exact Hsel]; reflexivity|]. intros Ho.
  destruct (audio_selected o grown l _ s Ho Hsel) as [Hp E]. cbn in E.
  destruct (acodec s) as [c|]; [by exists c|done].
Qed.

(** ** The probe ends *)

(** The timer is noticed when it fires, and nothing is received later than that. *)
Fixpoint prompt (o : options) (grown : bytes -> bytes) (l : list (event * Z)) (s : prober) : Prop :=
  match l with
  | [] => True
  | (e, now) :: l =>
      now <= deadline s /\
      match probeStep o grown e now s with Continue s => prompt o grown l s | _ => True end
  end.

Definition isTimer (e : event) : nat := match e with TimerFired => 1 | _ => 0 end.
Fixpoint timers (l : list (event * Z)) : nat :=
  match l with [] => 0 | (e, _) :: l => isTimer e + timers l end.

Record timing (o : options) (start : Z) (k : nat) (s : prober) : Prop := {
  ti_count : (k <= 1)%nat;
  ti_video : vcodec s = None -> waitingForHD s = false;
  ti_first : k = 0%nat -> deadline s <= start + ProbeTimeout + (if present (vcodec s) then hdProbeWait o else 0);
  ti_second : k = 1%nat -> deadline s <= start + 2 * ProbeTimeout + hdProbeWait o /\
                waitingForHD s = false /\ present (vcodec s) = true;
}.

Lemma timing_choose o start k p f now s :
  0 <= hdProbeWait o -> now <= deadline s -> timing o start k s -> timing o start k (choose o p f now s).
Proof.
  intros Hw Hn []. destruct f as [[c w] h]. unfold choose. destruct (vcodec s) eqn:Ev.
  - destruct (_ && _); [|by split; rewrite ?Ev]. split; cbn; try done.
    intros ->. by destruct ti_second0.
  - assert (k = 0)%nat as -> by (destruct k as [|[|]]; [done|by destruct ti_second0 as (_ & ? & ?)|lia]).
    specialize (ti_first0 eq_refl). cbn in ti_first0.
    destruct (wantsHD o w h); split; cbn; try done; lia.
Qed.

Lemma timing_step o grown start k e now s s' :
  0 <= hdProbeWait o -> now <= deadline s -> timing o start k s ->
  probeStep o grown e now s = Continue s' ->
  timing o start (k + isTimer e) s'.
Proof.
  intros Hw Hn Ht H. destruct (timer_or_not e) as [->|He].
  - destruct Ht. cbn [probeStep] in H. destruct (waitingForHD s) eqn:Ew; [|done].
    assert (k = 0)%nat as -> by (destruct k as [|[|]]; [done|by destruct ti_second0 as (_ & ? & ?)|lia]).
    specialize (ti_first0 eq_refl). destruct (vcodec s) eqn:Ev; [|done]. cbn [present andb] in *.
    cbv zeta in H. destruct (_ || _); [done|]. injection H as <-.
    split; cbn; rewrite ?Ev; try done. intros _. split_and!; try done. lia.
  - rewrite Nat.add_comm. replace (isTimer e) with 0%nat by by destruct e.
    assert (s' = after o grown e now s) as -> by (eapply step_after; [done|]; by rewrite H).
    unfold after. destruct (offerOf grown e) as [[q f]|].
    + destruct (timing_choose o start k q f now s Hw Hn Ht). by split.
    + destruct Ht. by split.
Qed.

Lemma timing_run o grown start l : forall k s s',
  0 <= hdProbeWait o -> timing o start k s -> prompt o grown l s -> probe o grown l s = Continue s' ->
  timing o start (k + timers l) s' /\ Forall (fun e => e.2 <= start + 2 * ProbeTimeout + hdProbeWait o) l.
Proof.
  induction l as [|[e now] l IH]; intros k s s' Hw Ht Hp H; cbn [probe prompt] in *.
  { injection H as <-. by rewrite Nat.add_0_r. }
  destruct Hp as [Hn Hp]. destruct (probeStep o grown e now s) as [s1| | |] eqn:E; try done.
  pose proof (timing_step o grown start k e now s s1 Hw Hn Ht E) as Ht1.
  destruct (IH _ _ _ Hw Ht1 Hp H) as [Ht' Hl]. split.
  - cbn [timers]. by rewrite Nat.add_assoc.
  - constructor; [|done]. cbn. destruct Ht. unfold ProbeTimeout, second in *.
    destruct k as [|[|]]; [|destruct ti_second0; lia|lia]. specialize (ti_first0 eq_refl).
    destruct (present (vcodec s)); lia.
Qed.

(** C26. Probing ends: as long as it goes on, its deadline lies within two probe timeouts and
    the HD wait of its start, every round so far was before that, the timer fired at
    most once, and two more firings end it for good. *)
Theorem probe_bounded (o : options) (grown : bytes -> bytes) (start : Z) (l : list (event * Z)) (s : prober)
    (Hwait : 0 <= hdProbeWait o) (Hprompt : prompt o grown l (probe_init start))
    (Hrun : probe o grown l (probe_init start) = Continue s) :
  deadline s <= start + 2 * ProbeTimeout + hdProbeWait o /\
  Forall (fun e => e.2 <= start + 2 * ProbeTimeout + hdProbeWait o) l /\
  (timers l <= 1)%nat /\
  forall t1 t2 rest s', probe o grown ((TimerFired, t1) :: (TimerFired, t2) :: rest) s <> Continue s'.
Proof.
  assert (timing o start 0 (probe_init start)) as H0 by (split; cbn; try done; lia).
  destruct (timing_run o grown start l 0 _ s Hwait H0 Hprompt Hrun) as [[] Hl]. cbn [Nat.add] in *.
  split_and!; [|exact Hl|exact ti_count0|].
  - destruct (timers l) as [|[|]]; [|by destruct ti_second0|lia]. specialize (ti_first0 eq_refl).
    unfold ProbeTimeout, second in *. destruct (present (vcodec s)); lia.
  - intros t1 t2 rest s'. cbn [probe probeStep]. destruct (_ && _); [|done]. cbv zeta.
    destruct (_ || _); done.
Qed.

(** ** Panics while probing *)

Lemma inspect_units grown p units :
  Payload p = joinNALs units -> Forall (fun u => clean u.2 = true) units ->
  len (joinNALs units) < 4294967296 -> Forall (fun u => fullSPS u.2) units ->
  inspect grown p <> None.
Proof.
  intros Ep Hc Hl Hf. unfold inspect. rewrite Ep, encode_join by done.
  pose proof (kept_ok units Hc Hl) as Hg.
  destruct (negb _); [done|]. rewrite AVCCToCodec_units; [done|exact Hg|].
  clear -Hf. induction Hf as [|[b n] us Hn _ IH]; [constructor|]. rewrite kept_cons.
  apply Forall_app. split; [|exact IH]. cbn. destruct (isAUD _); by repeat constructor.
Qed.

Definition shortSPS : bytes := [0; 0; 1; 0x06; 0; 0; 1; 0x67].

(** Probing survives every well-formed access unit whose parameter sets have their
    profile bytes; an access unit of two units with short start codes that ends right
    after a parameter set's header makes it panic. *)
Theorem probe_panics (o : options) (grown : bytes -> bytes) (now : Z) (s : prober) :
  (forall p units, Payload p = joinNALs units -> Forall (fun u => clean u.2 = true) units ->
     len (joinNALs units) < 4294967296 -> Forall (fun u => fullSPS u.2) units ->
     probeStep o grown (Frame (Some p)) now s <> Panicked) /\
  (forall p, Payload p = shortSPS -> Assembler.Codec p = CodecH264 ->
     probeStep o grown (Frame (Some p)) now s = Panicked).
Proof.
  split.
  - intros p units Ep Hc Hl Hf. pose proof (inspect_units grown p units Ep Hc Hl Hf) as Hi.
    cbn [probeStep]. destruct (_ <? _); [done|].
    assert (forall s, settle o s <> Panicked) as Hset by (intros; unfold settle; by destruct (complete _ _)).
    destruct (_ =? _); [by destruct (inspect grown p) as [[]|]|]. by destruct (_ =? _).
  - intros p Ep Ec. cbn [probeStep]. rewrite Ec. unfold inspect, spareOf. rewrite Ep. reflexivity.
Qed.

(** ** Startup *)

(** At most three attempts are made, each after the failure of the one before with an
    error that is worth another try and half a second more of waiting; the outcome is
    the last one's. *)
Theorem startup_attempts {A : Type} (newProducer : nat -> bytes + A) :
  exists n, (1 <= n <= 3)%nat /\ (NewProducer newProducer).1 = newProducer n /\
    (forall k, (1 <= k < n)%nat -> exists e, newProducer k = inl e /\ retryStartupError e = true) /\
    match newProducer n with
    | inr _ => True
    | inl e => retryStartupError e = false \/ n = 3%nat
    end /\
    (NewProducer newProducer).2 =
      map (fun k => Z.of_nat k * 500)
        (seq 1 (match newProducer n with inl e => if retryStartupError e then n else n - 1 | _ => n - 1 end)).
Proof.
  unfold NewProducer. cbn [attempts].
  destruct (newProducer 1%nat) as [e1|] eqn:E1; [destruct (retryStartupError e1) eqn:R1|];
    [|exists 1%nat; rewrite E1, ?R1; split_and!; (done || lia || (intros; lia) || auto)..].
  destruct (newProducer 2%nat) as [e2|] eqn:E2; [destruct (retryStartupError e2) eqn:R2|];
    [|exists 2%nat; rewrite E2, ?R2; split_and!; try (done || lia || auto);
      intros k Hk; assert (k = 1%nat) as -> by lia; eauto..].
  exists 3%nat.
  assert (forall k, (1 <= k < 3)%nat -> exists e, newProducer k = inl e /\ retryStartupError e = true) as Hk.
  { intros k Hk. assert (k = 1%nat \/ k = 2%nat) as [->| ->] by lia; eauto. }
  destruct (newProducer 3%nat) as [e3|] eqn:E3; [destruct (retryStartupError e3) eqn:R3|];
    split_and!; cbn; rewrite ?R3; try (done || lia || auto).
Qed.

(** ** Streaming *)

Lemma receiverOf_Some name l i : receiverOf name l = Some i -> l !! i = Some name.
Proof.
  revert i. induction l as [|n l IH]; intros i; [done|]. cbn. destruct (bool_decide_reflect (n = name)).
  - intros [= <-]. by subst.
  - destruct (receiverOf name l); [|done]. cbn. intros [= <-]. by apply IH.
Qed.

(** What the receiver at [i] got. *)
Definition got (i : nat) (s : Producer) : list rtpPacket :=
  omap (fun w => if bool_decide (w.1 = i) then Some w.2 else None) (written s).

Lemma got_write name pkt s i :
  got i (WriteRTP name pkt s) =
  got i s ++ (if bool_decide (receiverOf name (Receivers s) = Some i) then [pkt] else []).
Proof.
  unfold WriteRTP, got. destruct (receiverOf name (Receivers s)) as [j|].
  - cbn. rewrite omap_app. cbn. destruct (bool_decide_reflect (j = i)) as [->|Hne].
    + by rewrite bool_decide_true.
    + rewrite bool_decide_false by congruence. done.
  - rewrite bool_decide_false by done. by rewrite app_nil_r.
Qed.

Lemma WriteRTP_keeps name pkt s :
  Receivers (WriteRTP name pkt s) = Receivers s /\ rtpSeq (WriteRTP name pkt s) = rtpSeq s /\
  keyframeSeen (WriteRTP name pkt s) = keyframeSeen s.
Proof. unfold WriteRTP. by destruct (receiverOf name (Receivers s)). Qed.

(** An audio packet cannot be unwrapped when its header announces a checksum that the
    packet is too short for. *)
Lemma audioPayload_panics b :
  audioPayload b = None <-> IsADTS b = true /\ HasCRC b = Some true /\ len b < 9.
Proof.
  unfold audioPayload. destruct (IsADTS b) eqn:Ea; [|split; [done|by intros (? & _)]].
  unfold IsADTS, ADTSHeaderSize in Ea. rewrite !andb_true_iff in Ea. destruct Ea as [[Hl%Z.leb_le _] _].
  unfold ReadADTSSize, ADTSHeaderLen, HasCRC. rewrite !rd_in by lia. cbn [mbind option_bind].
  set (size := Z.lor _ _). set (crc := Z.land (at_ b 1) 1 =? 0).
  assert (forall k, (7 <= k)%Z -> at_ (seg b 0 k) 1 = at_ b 1) as Hseg.
  { intros k Hk. unfold seg, at_, rd. rewrite !decide_True by lia. rewrite drop_0, lookup_take_lt by lia. done. }
  assert (forall k, 7 <= k <= len b -> len (seg b 0 k) = k) as Hlen.
  { intros k Hk. rewrite len_seg by lia. lia. }
  unfold ADTSHeaderSize. destruct (Z.ltb_spec (if crc then 9 else 7) size) as [H1|H1]; cbn [andb];
    [destruct (Z.leb_spec size (len b)) as [H2|H2]|].
  1: { assert (7 <= size) by (destruct crc; lia).
       rewrite rd_in by (rewrite Hlen by lia; lia). cbn [mbind option_bind]. rewrite Hseg by lia. fold crc.
       rewrite sub_in by (rewrite ?Hlen by lia; destruct crc; lia). split; [done|].
       intros (_ & [= ->] & ?). lia. }
  all: rewrite rd_in by lia; cbn [mbind option_bind]; fold crc; unfold sub; case_decide as Hd;
    (split; [try done|intros (_ & [= Hc] & ?); rewrite ?Hc in *; try done; lia]).
  all: intros _; destruct crc; [split_and!; [done..|lia]|lia].
Qed.

(** *** What the receivers get *)

Definition videoOf (l : list (option Packet)) : list Packet :=
  omap (fun p => match p with Some p => if Assembler.Codec p =? CodecH264 then Some p else None | None => None end) l.
Definition audioPackets (l : list (option Packet)) : list Packet :=
  omap (fun p => match p with
                 | Some p => if (Assembler.Codec p =? CodecAACADTS) then Some p else None
                 | None => None
                 end) l.

(** From the first key frame on. *)
Fixpoint fromKeyframe (l : list Packet) : list Packet :=
  match l with [] => [] | p :: l' => if Assembler.IsKeyframe p then l else fromKeyframe l' end.

(** The packets that are long enough to have a unit, as time stamps and payloads. *)
Definition avccOf (l : list Packet) : list (Z * bytes) :=
  filter (fun x => 5 <= len x.2) (map (fun p => (Timestamp p, EncodeToAVCC (Payload p))) l).

Fixpoint numbered (seq_ : Z) (l : list (Z * bytes)) : list rtpPacket :=
  match l with
  | [] => []
  | (ts, payload) :: l =>
      mkRTP 0 false (u16 (u32 (seq_ + 1))) ts payload :: numbered (u32 (seq_ + 1)) l
  end.

Definition aacPackets (l : list Packet) : list rtpPacket :=
  omap (fun p => payload ← audioPayload (Payload p);
                 Some (mkRTP 0 true (u16 (FrameNo p)) (Timestamp p) payload)) l.

(** No audio packet is too short for its own checksum. *)
Definition unwrappable (p : option Packet) : Prop :=
  match p with
  | Some p => Assembler.Codec p = CodecAACADTS ->
              ~ (IsADTS (Payload p) = true /\ HasCRC (Payload p) = Some true /\ len (Payload p) < 9)
  | None => True
  end.

Section streaming.
Context (rcv : list bytes) (vi ai : nat).
Context (Hvi : receiverOf coreH264 rcv = Some vi) (Hai : receiverOf CodecAAC rcv = Some ai).

Lemma tracks_differ : vi <> ai.
Proof.
  intros ->. apply receiverOf_Some in Hvi, Hai. rewrite Hvi in Hai. injection Hai. discriminate.
Qed.

Definition reaches (s s' : Producer) (v : list (Z * bytes)) (a : list rtpPacket) : Prop :=
  Receivers s' = rcv /\ got vi s' = got vi s ++ numbered (rtpSeq s) v /\ got ai s' = got ai s ++ a.

Lemma write_video s ts payload :
  Receivers s = rcv ->
  let s1 := bumpSeq s in
  let s2 := WriteRTP coreH264 (mkRTP 0 false (u16 (rtpSeq s1)) ts payload) s1 in
  reaches s s2 [(ts, payload)] [] /\ rtpSeq s2 = u32 (rtpSeq s + 1) /\ keyframeSeen s2 = keyframeSeen s.
Proof.
  intros Hr. cbv zeta. pose proof tracks_differ.
  destruct (WriteRTP_keeps coreH264 (mkRTP 0 false (u16 (rtpSeq (bumpSeq s))) ts payload) (bumpSeq s))
    as (E1 & E2 & E3).
  split; [|by rewrite E2, E3]. split; [by rewrite E1|]. rewrite !got_write. cbn [Receivers bumpSeq upd].
  rewrite Hr, Hvi, bool_decide_true by done. rewrite bool_decide_false by congruence. done.
Qed.

Lemma write_audio s pkt : Receivers s = rcv ->
  reaches s (WriteRTP CodecAAC pkt s) [] [pkt] /\ rtpSeq (WriteRTP CodecAAC pkt s) = rtpSeq s /\
  keyframeSeen (WriteRTP CodecAAC pkt s) = keyframeSeen s.
Proof.
  intros Hr. pose proof tracks_differ. destruct (WriteRTP_keeps CodecAAC pkt s) as (E1 & E2 & E3).
  split; [|done]. split; [by rewrite E1|]. rewrite !got_write, Hr, Hai.
  rewrite bool_decide_false, bool_decide_true by congruence. done.
Qed.

Lemma avccOf_cons p l :
  avccOf (p :: l) =
  (if len (EncodeToAVCC (Payload p)) <? 5 then [] else [(Timestamp p, EncodeToAVCC (Payload p))]) ++ avccOf l.
Proof.
  unfold avccOf. cbn [map]. rewrite filter_cons. cbn [snd].
  destruct (Z.ltb_spec (len (EncodeToAVCC (Payload p))) 5); [by rewrite decide_False by lia|].
  by rewrite decide_True by lia.
Qed.

Lemma reaches_trans s s1 s2 v w a b :
  reaches s s1 v a -> rtpSeq s1 = match v with [] => rtpSeq s | _ => u32 (rtpSeq s + 1) end ->
  (length v <= 1)%nat -> reaches s1 s2 w b -> reaches s s2 (v ++ w) (a ++ b).
Proof.
  intros (_ & E1 & E2) Es Hl (Hr & E3 & E4). split; [done|]. rewrite E3, E4, E1, E2, Es, <- !app_assoc.
  split; [|done]. destruct v as [|[ts pl] [|]]; cbn in Hl |- *; [done|done|lia].
Qed.

Lemma reaches_refl s : Receivers s = rcv -> reaches s s [] [].
Proof. split; [done|]. by rewrite !app_nil_r. Qed.

(** One packet. *)
Lemma forward_reaches p s : Receivers s = rcv -> unwrappable (Some p) ->
  exists s', forward p s = Some s' /\
    let seen := keyframeSeen s || Assembler.IsKeyframe p in
    reaches s s' (if (Assembler.Codec p =? CodecH264) && seen then avccOf [p] else [])
      (if (Assembler.Codec p =? CodecAACADTS) then aacPackets [p] else []) /\
    rtpSeq s' = match (if (Assembler.Codec p =? CodecH264) && seen then avccOf [p] else []) with
                | [] => rtpSeq s | _ => u32 (rtpSeq s + 1) end /\
    keyframeSeen s' = (if Assembler.Codec p =? CodecH264 then seen else keyframeSeen s).
Proof.
  intros Hr Hu. unfold forward. destruct (Z.eqb_spec (Assembler.Codec p) CodecH264) as [Ec|Ec].
  - rewrite Ec. change (CodecH264 =? CodecAACADTS) with false. cbn [andb].
    destruct (keyframeSeen s || Assembler.IsKeyframe p) eqn:Ek.
    + rewrite <- negb_orb, Ek. cbn [negb]. rewrite avccOf_cons, app_nil_r.
      destruct (len (EncodeToAVCC (Payload p)) <? 5); eexists; (split; [reflexivity|]).
      * split; [split; [done|]|done]. by rewrite !app_nil_r.
      * match goal with |- context [bumpSeq ?s1] =>
          destruct (write_video s1 (Timestamp p) (EncodeToAVCC (Payload p)) Hr) as (H1 & H2 & H3)
        end.
        split; [exact H1|]. split; [exact H2|exact H3].
    + rewrite <- negb_orb, Ek. cbn [negb]. exists s. split; [done|].
      split; [by apply reaches_refl|]. apply orb_false_iff in Ek as [-> _]. done.
  - cbn [andb]. destruct (Z.eqb_spec (Assembler.Codec p) CodecAACADTS) as [Ea|Ea].
    + destruct (audioPayload (Payload p)) as [pl|] eqn:E.
      * cbn [mbind option_bind]. eexists. split; [reflexivity|].
        unfold aacPackets. cbn [omap list_omap]. rewrite E. cbn [mbind option_bind].
        by apply write_audio.
      * apply audioPayload_panics in E. by destruct (Hu Ea).
    + exists s. split; [done|]. split; [by apply reaches_refl|done].
Qed.

Lemma forwardAll_reaches l : forall s, Receivers s = rcv -> Forall unwrappable l ->
  exists s', forwardAll l s = Some s' /\
    reaches s s' (avccOf (if keyframeSeen s then videoOf l else fromKeyframe (videoOf l)))
      (aacPackets (audioPackets l)).
Proof.
  induction l as [|[p|] l IH]; intros s Hr Hu.
  - exists s. split; [done|]. cbn. destruct (keyframeSeen s); by apply reaches_refl.
  - apply Forall_cons in Hu as [Hu Hl]. destruct (forward_reaches p s Hr Hu) as (s1 & E1 & H1 & Es & Ek).
    destruct (IH s1 (proj1 H1) Hl) as (s2 & E2 & H2). exists s2. cbn [forwardAll]. rewrite E1.
    split; [exact E2|].
    assert (aacPackets (audioPackets (Some p :: l)) =
      (if Assembler.Codec p =? CodecAACADTS then aacPackets [p] else []) ++ aacPackets (audioPackets l)) as ->.
    { unfold audioPackets at 1. cbn [omap list_omap].
      destruct (Assembler.Codec p =? CodecAACADTS); [|reflexivity]. unfold aacPackets. cbn [omap list_omap]. destruct (_ ≫= _); reflexivity. }
    assert (avccOf (if keyframeSeen s then videoOf (Some p :: l) else fromKeyframe (videoOf (Some p :: l))) =
      (if (Assembler.Codec p =? CodecH264) && (keyframeSeen s || Assembler.IsKeyframe p) then avccOf [p] else []) ++
      avccOf (if keyframeSeen s1 then videoOf l else fromKeyframe (videoOf l))) as ->.
    { rewrite Ek. unfold videoOf at 1 2. cbn [omap list_omap].
      destruct (Assembler.Codec p =? CodecH264); cbn [andb]; [|reflexivity].
      cbn [fromKeyframe]. destruct (keyframeSeen s), (Assembler.IsKeyframe p); cbn [orb]; try done;
        rewrite (avccOf_cons p (omap _ _)), (avccOf_cons p []), app_nil_r; done. }
    eapply reaches_trans; [exact H1|exact Es| |exact H2].
    destruct (_ && _); [|cbn; lia]. rewrite avccOf_cons, app_nil_r. destruct (_ <? _); cbn; lia.
  - apply Forall_cons in Hu as [_ Hl]. by apply IH.
Qed.
End streaming.

Lemma numbered_seq l : forall seq_ k pkt, numbered seq_ l !! k = Some pkt ->
  SequenceNumber pkt = u16 (seq_ + 1 + Z.of_nat k) /\ Version pkt = 0 /\
  exists x, x ∈ l /\ rtpTimestamp pkt = x.1 /\ rtpPayload pkt = x.2.
Proof.
  induction l as [|[ts pl] l IH]; intros seq_ k pkt; [done|]. destruct k as [|k]; cbn [numbered lookup list_lookup].
  - intros [= <-]. cbn. split_and!; [unfold u16, u32; Z.to_euclidean_division_equations; lia|done|].
    exists (ts, pl). split; [by left|done].
  - intros H. destruct (IH _ _ _ H) as (E & ? & x & Hx & ?). split_and!; [|done|exists x; split; [by right|done]].
    rewrite E. unfold u16, u32. Z.to_euclidean_division_equations. lia.
Qed.

(** What the video receiver should get: the replayed access unit, then every later
    access unit that has a unit; without a replay, those from the first key frame on. *)
Definition expectedVideo (au : option bytes) (ts : Z) (l : list (option Packet)) : list (Z * bytes) :=
  match au with
  | Some au => (ts, EncodeToAVCC au) :: avccOf (videoOf l)
  | None => avccOf (fromKeyframe (videoOf l))
  end.

Lemma replay_reaches rcv vi ai au ts s :
  receiverOf coreH264 rcv = Some vi -> receiverOf CodecAAC rcv = Some ai -> Receivers s = rcv ->
  match au with Some au => 5 <= len (EncodeToAVCC au) | None => True end ->
  let v := match au with Some au => [(ts, EncodeToAVCC au)] | None => [] end in
  reaches rcv vi ai s (replay au ts s) v [] /\
  rtpSeq (replay au ts s) = match v with [] => rtpSeq s | _ => u32 (rtpSeq s + 1) end /\
  keyframeSeen (replay au ts s) = present au || keyframeSeen s.
Proof.
  intros Hv Ha Hr Hl. destruct au as [au|]; cbn [replay].
  - rewrite (proj2 (Z.leb_le _ _)) by done. rewrite Hr, Hv. cbv zeta.
    destruct (write_video rcv vi ai Hv Ha s ts (EncodeToAVCC au) Hr) as ((E1 & E2 & E3) & Es & _).
    split; [|split; [exact Es|done]]. split; [exact E1|]. split; [exact E2|exact E3].
  - split; [by apply reaches_refl|done].
Qed.

(** C27. The receivers get exactly the camera's packets.  The video track starts with the
    replayed access unit, or with a key frame, and carries every access unit after it
    with its time stamp under consecutive sequence numbers; every packet holds a NAL
    unit, so the repair behind it can look at its type.  The audio track carries
    every frame without its header under the camera's frame number. *)
Theorem start_streams (rcv : list bytes) (vi ai : nat) (seq0 : Z) (au : option bytes) (ts : Z)
    (l : list (option Packet))
    (Hrcv : receiverOf coreH264 rcv = Some vi /\ receiverOf CodecAAC rcv = Some ai)
    (Hau : match au with Some au => 5 <= len (EncodeToAVCC au) | None => True end)
    (Hl : Forall unwrappable l) :
  exists s, Start au ts l (mkProducer rcv seq0 false []) = Some s /\
    map (fun k => (rtpTimestamp k, rtpPayload k)) (got vi s) = expectedVideo au ts l /\
    (forall k pkt, got vi s !! k = Some pkt ->
       SequenceNumber pkt = u16 (seq0 + 1 + Z.of_nat k) /\ Version pkt = 0 /\
       NALUType (rtpPayload pkt) <> None) /\
    got ai s = aacPackets (audioPackets l).
Proof.
  destruct Hrcv as [Hv Ha]. set (s0 := mkProducer rcv seq0 false []).
  destruct (replay_reaches rcv vi ai au ts s0 Hv Ha eq_refl Hau) as (H1 & Es & Ek).
  destruct (forwardAll_reaches rcv vi ai Hv Ha l _ (proj1 H1) Hl) as (s & E & H2).
  exists s. split; [exact E|].
  assert (reaches rcv vi ai s0 s (expectedVideo au ts l) (aacPackets (audioPackets l))) as (_ & G1 & G2).
  { rewrite Ek in H2. unfold expectedVideo.
    destruct au as [au|]; cbn [present orb keyframeSeen s0] in H2.
    - apply (reaches_trans rcv vi ai _ _ _ [(ts, EncodeToAVCC au)] _ [] _ H1 Es ltac:(cbn; lia) H2).
    - apply (reaches_trans rcv vi ai _ _ _ [] _ [] _ H1 Es ltac:(cbn; lia) H2). }
  assert (Forall (fun x => 5 <= len x.2) (expectedVideo au ts l)) as Hlong.
  { assert (forall v, Forall (fun x => 5 <= len x.2) (avccOf v)) as Hf.
    { intros v. apply Forall_forall. intros x Hx. by apply list_elem_of_filter in Hx as [? _]. }
    unfold expectedVideo. destruct au; [constructor; [done|]|]; apply Hf. }
  rewrite G1, G2. cbn [got written omap list_omap s0 app rtpSeq]. split_and!; [| |done].
  - clear. generalize seq0. induction (expectedVideo au ts l) as [|[t pl] v IH]; intros q; [done|].
    cbn. by rewrite IH.
  - intros k pkt Hk. destruct (numbered_seq _ _ _ _ Hk) as (E1 & E2 & x & Hx & _ & Ep).
    split; [done|]. split; [done|]. rewrite Ep. rewrite Forall_forall in Hlong. specialize (Hlong x Hx).
    unfold NALUType. by rewrite rd_in by lia.
Qed.

(** *** Audio frames *)

Lemma at_front f k i : (i < 7)%Z -> 0 <= i -> len f >= 7 -> at_ (f ++ k) i = at_ f i.
Proof. intros. apply at_app_l. lia. Qed.

(** What the consumer gets of an audio packet is the raw AAC frame the header was made
    for, whatever the camera appended to it. *)
Theorem audio_unwrapped (p i ch : Z) (raw padding : bytes)
    (Hfields : 0 <= p < 4 /\ 0 <= i < 15 /\ 0 <= ch < 8)
    (Hraw : IsADTS raw = false /\ 0 < len raw <= 8184) :
  exists frame, EncodeToADTS (adtsCodec p i ch) raw = Some frame /\
    audioPayload (frame ++ padding) = Some raw.
Proof.
  destruct Hfields as (Hp & Hi & Hc), Hraw as [Hn Hl].
  rewrite EncodeToADTS_frame by (done || lia). eexists. split; [reflexivity|].
  set (h := sizedHeader p i ch (7 + len raw)).
  destruct (size_table (ch mod 4) (7 + len raw)) as (_ & _ & _ & Es); [by apply Z.mod_pos_bound|lia|].
  pose proof (len_nonneg padding) as Hpad.
  assert (len ((h ++ raw) ++ padding) = 7 + len raw + len padding) as El
    by (rewrite !len_app; reflexivity).
  assert (IsADTS ((h ++ raw) ++ padding) = true) as Ha.
  { unfold IsADTS. rewrite El. unfold ADTSHeaderSize.
    by rewrite (proj2 (Z.leb_le 7 (7 + len raw + len padding))) by lia. }
  assert (ReadADTSSize ((h ++ raw) ++ padding) = Some (7 + len raw)) as Er.
  { rewrite <- Es. reflexivity. }
  unfold audioPayload. rewrite Ha, Er. cbn [mbind option_bind].
  change (ADTSHeaderLen ((h ++ raw) ++ padding)) with (Some 7). cbn [mbind option_bind].
  rewrite El, (proj2 (Z.ltb_lt 7 (7 + len raw))), (proj2 (Z.leb_le (7 + len raw) (7 + len raw + len padding)))
    by lia.
  cbn [andb].
  assert (seg ((h ++ raw) ++ padding) 0 (7 + len raw) = h ++ raw) as ->.
  { unfold seg. rewrite drop_0, take_app_length'; [done|]. rewrite length_app. unfold len. cbn. lia. }
  change (ADTSHeaderLen (h ++ raw)) with (Some 7). cbn [mbind option_bind].
  assert (len (h ++ raw) = 7 + len raw) as -> by (rewrite len_app; reflexivity).
  rewrite sub_in by (rewrite ?len_app; change (len h) with 7; lia). f_equal.
  by apply (seg_app_exact h raw 7).
Qed.

(** A session in which the probe upgraded from a small to a full-HD picture ends in an
    error when the audio only starts after the wait for HD: the timer still runs out
    at the end of that wait, though nothing waits for HD any more. *)
Section late_audio.
Context (grown : bytes -> bytes).

Lemma upgrade_keeps_deadline (o : options) p f now s :
  vcodec s <> None -> deadline (choose o p f now s) = deadline s.
Proof.
  destruct f as [[c w] h]. unfold choose. destruct (vcodec s); [intros _|done].
  by destruct (_ && _).
Qed.

Lemma upgraded_then_timeout (o : options) now s :
  waitingForHD s = false -> probeStep o grown TimerFired now s = Failed probeTimeoutError true.
Proof. intros H. cbn. by rewrite H. Qed.
End late_audio.

(** The shortest packet with a checksum flag and no checksum. *)
Lemma short_crc_panics : audioPayload [0xFF; 0xF0; 0x60; 0x40; 0x01; 0x3F; 0xFC] = None.
Proof. vm_compute. reflexivity. Qed.

(** ** A session *)

Definition smallSPS : bytes := [0x67; 0x42; 0xC0; 0x1E; 0xDA; 0x02; 0x80; 0xBF; 0xE5; 0x40].
Definition fullHDSPS : bytes := [0x67; 0x42; 0xC0; 0x28; 0xDA; 0x01; 0xE0; 0x08; 0x9F; 0x95].
Definition accessUnit (sps : bytes) : bytes :=
  joinNALs [(true, sps); (true, demoPPS); (true, [0x65; 0x88; 0x84; 0x21])].
Definition videoPacket (payload : bytes) (ts : Z) (key : bool) : Packet :=
  mkPacket CodecH264 payload ts 1 1 innerChKey 0 key.
Definition audioPacket : Packet := mkPacket CodecAACADTS demoADTS 7 3 3 innerChAudio 0 false.
Definition demoOptions : options := mkOpts true (str "hd") false streamCtrlLegacy 1 (2 * second).
Definition noSpare (payload : bytes) : bytes := [].

Definition demoEvents : list (event * Z) :=
  [ (Frame (Some (videoPacket (accessUnit smallSPS) 100 true)), second);
    (Frame (Some audioPacket), second + 5);
    (Frame (Some (videoPacket (accessUnit fullHDSPS) 200 true)), 2 * second) ].

Definition demoProbed : prober :=
  match probe demoOptions noSpare demoEvents (probe_init 0) with Selected s => s | _ => probe_init 0 end.

Example demo_probed :
  (selectedWidth demoProbed, selectedHeight demoProbed, firstTS demoProbed) = (1920, 1080, 200).
Proof. vm_compute. reflexivity. Qed.

Lemma probe_selects_witness :
  exists f, rule demoOptions noSpare demoEvents = Some f /\ holds demoProbed f.
Proof. apply (probe_selects demoOptions noSpare 0). vm_compute. reflexivity. Defined.

Definition demoWaiting : prober :=
  match probe demoOptions noSpare (take 2 demoEvents) (probe_init 0) with Continue s => s | _ => probe_init 0 end.

Lemma probe_bounded_witness :
  deadline demoWaiting <= 12 * second /\ waitingForHD demoWaiting = true.
Proof.
  split; [|vm_compute; reflexivity].
  apply (probe_bounded demoOptions noSpare 0 (take 2 demoEvents)); [vm_compute; discriminate| |vm_compute; reflexivity].
  cbn [take demoEvents prompt]. split; [vm_compute; discriminate|].
  vm_compute. split; [discriminate|exact I].
Defined.

Definition demoPackets : list (option Packet) :=
  [Some (videoPacket [0; 0; 0; 1; 0x41; 0x9A] 300 false); None; Some audioPacket].

Lemma start_streams_witness :
  exists s, Start (Some (firstAU demoProbed)) 200 demoPackets (mkProducer [CodecAAC; coreH264] 65535 false []) = Some s /\
    map (fun k => (rtpTimestamp k, rtpPayload k)) (got 1 s) =
      [(200, EncodeToAVCC (accessUnit fullHDSPS)); (300, [0; 0; 0; 2; 0x41; 0x9A])].
Proof.
  destruct (start_streams [CodecAAC; coreH264] 1 0 65535 (Some (firstAU demoProbed)) 200 demoPackets)
    as (s & E1 & E2 & _).
  - split; vm_compute; reflexivity.
  - vm_compute. discriminate.
  - unfold demoPackets. apply Forall_cons; split; [discriminate|]. apply Forall_cons; split; [exact I|].
    apply Forall_cons; split; [|apply Forall_nil; exact I]. intros _ (_ & H & _). vm_compute in H. discriminate.
  - exists s. split; [exact E1|]. rewrite E2. vm_compute. reflexivity.
Defined.

Lemma audio_unwrapped_witness :
  exists frame, EncodeToADTS (adtsCodec 1 8 1) [0x21; 0x10] = Some frame /\
    audioPayload (frame ++ [0; 0; 0]) = Some [0x21; 0x10].
Proof. apply audio_unwrapped; [lia|split; [reflexivity|vm_compute; split; congruence]]. Defined.
