(* ===== verification/Rtp.v ===== *)
(** RTP packetisation of access units ([pkg/h264/payloader.go], [pkg/h264/rtp.go]) and
    the repair of byte streams in length-prefixed clothing ([FixAnnexBInAVCC] of
    [pkg/h264/annexb/annexb.go]).  A reference receiver that follows RFC 6184 says what
    the payloads mean. *)

From S2P Require Import Prelude Text Annexb Codec Producer.

Definition stapaNALUType : Z := 24.
Definition fuaNALUType : Z := 28.
Definition audNALUType : Z := 9.
Definition fillerNALUType : Z := 12.
Definition fuaHeaderSize : Z := 2.
Definition naluTypeBitmask : Z := 0x1F.
Definition naluRefIdcBitmask : Z := 0x60.
Definition outputStapAHeader : Z := 0x78.

(** ** Emitting units

    The units the callback gets; the outer [None] is running out of fuel, the inner
    one a slice out of range. *)
Fixpoint emitAVC (fuel : nat) (nals : bytes) : option (option (list bytes)) :=
  match fuel with
  | O => None
  | S fuel =>
      if u32 (len nals) <? 4 then Some (Some []) else
      match beLoad nals with
      | None => Some None
      | Some size =>
          let end_ := u32 (4 + size) in
          if u32 (len nals) <? end_ then Some (Some []) else
          match sub nals 4 end_ with
          | None => Some None
          | Some nal =>
              r ← emitAVC fuel (drop (Z.to_nat end_) nals); Some (rest ← r; Some (nal :: rest))
          end
      end
  end.

(** The next start code from index [i] on: where it starts, its zeros included, and
    its length. *)
Fixpoint nextInd (l : bytes) (i zeroCount : Z) : option (Z * Z) :=
  match l with
  | [] => None
  | b :: l =>
      if b =? 0 then nextInd l (i + 1) (zeroCount + 1)
      else if (b =? 1) && (2 <=? zeroCount) then Some (i - zeroCount, zeroCount + 1)
      else nextInd l (i + 1) 0
  end.

Fixpoint emitAnnexB (fuel : nat) (nals : bytes) (prevStart : Z) : option (list bytes) :=
  match fuel with
  | O => None
  | S fuel =>
      match nextInd (drop (Z.to_nat prevStart) nals) prevStart 0 with
      | Some (start, length_) =>
          rest ← emitAnnexB fuel nals (start + length_); Some (seg nals prevStart start :: rest)
      | None => Some [drop (Z.to_nat prevStart) nals]
      end
  end.

Definition EmitNalus (nals : bytes) (isAVC : bool) : option (list bytes) :=
  if isAVC then default None (emitAVC (S (length nals)) nals)
  else match nextInd nals 0 0 with
       | None => Some [nals]
       | Some (start, length_) => emitAnnexB (S (length nals)) nals (start + length_)
       end.

(** ** Payloads *)

(** The fragments of [data], what is left of a unit of [total] bytes behind its header. *)
Fixpoint fragments (fuel : nat) (naluRefIdc naluType maxFragmentSize total : Z) (data : bytes) : list bytes :=
  match fuel with
  | O => []
  | S fuel =>
      let remaining := len data in
      if remaining <=? 0 then [] else
      let current := Z.min maxFragmentSize remaining in
      let b1 := if remaining =? total then Z.lor naluType 0x80
                else if remaining - current =? 0 then Z.lor naluType 0x40
                else naluType in
      (Z.lor fuaNALUType naluRefIdc :: b1 :: take (Z.to_nat current) data) ::
        fragments fuel naluRefIdc naluType maxFragmentSize total (drop (Z.to_nat current) data)
  end.

(** One unit: the payloads made, and the aggregate of parameter sets kept back. *)
Definition payloadNalu (mtu : Z) (nalu : bytes) (stapANalu : option bytes) : list bytes * option bytes :=
  match nalu with
  | [] => ([], stapANalu)
  | b0 :: data =>
      let naluType := Z.land b0 naluTypeBitmask in
      let naluRefIdc := Z.land b0 naluRefIdcBitmask in
      if (naluType =? audNALUType) || (naluType =? fillerNALUType) then ([], stapANalu)
      else if (naluType =? NALUTypeSPS) || (naluType =? NALUTypePPS) then
        ([], Some (default [outputStapAHeader] stapANalu ++
                   [u8 (Z.shiftr (len nalu) 8); u8 (len nalu)] ++ nalu))
      else
        let first := match stapANalu with
                     | Some s => if len s <=? mtu then [s] else []
                     | None => []
                     end in
        if len nalu <=? mtu then (first ++ [nalu], None)
        else
          let maxFragmentSize := mtu - fuaHeaderSize in
          if Z.min maxFragmentSize (len data) <=? 0 then (first, None)
          else (first ++ fragments (length data) naluRefIdc naluType maxFragmentSize (len data) data, None)
  end.

Fixpoint payloadNalus (mtu : Z) (nalus : list bytes) (stapANalu : option bytes)
    : list bytes * option bytes :=
  match nalus with
  | [] => ([], stapANalu)
  | n :: nalus =>
      let '(p, s) := payloadNalu mtu n stapANalu in
      let '(ps, s) := payloadNalus mtu nalus s in (p ++ ps, s)
  end.

Record Payloader := mkPayloader { IsAVC : bool; stapANalu : option bytes }.

Definition PayloaderPayload (mtu : Z) (payload : bytes) (p : Payloader) : option (list bytes * Payloader) :=
  if len payload =? 0 then Some ([], p) else
  nalus ← EmitNalus payload (IsAVC p);
  let '(payloads, s) := payloadNalus mtu nalus (stapANalu p) in
  Some (payloads, mkPayloader (IsAVC p) s).

(** ** The packetiser *)

Definition RTPPacketVersionAVC : Z := 0.

Section pay.
(** The sequencer: the next number, and its state after that. *)
Context {Seq : Type} (NextSequenceNumber : Seq -> Z * Seq).

(** The packets of an access unit; only the last one has the marker. *)
Fixpoint rtpPackets (ts : Z) (payloads : list bytes) (q : Seq) : list rtpPacket * Seq :=
  match payloads with
  | [] => ([], q)
  | p :: rest =>
      let '(n, q) := NextSequenceNumber q in
      let '(packets, q) := rtpPackets ts rest q in
      (mkRTP 2 (bool_decide (rest = [])) n ts p :: packets, q)
  end.

(** The size of the payloads for the [mtu] that [RTPPay] is given. *)
Definition payMTU (mtu : Z) : Z := u16 ((if mtu =? 0 then 1472 else mtu) - 12).

(** What the handler passes on for one packet. *)
Definition RTPPay (mtu : Z) (packet : rtpPacket) (s : Payloader * Seq)
    : option (list rtpPacket * (Payloader * Seq)) :=
  if negb (Version packet =? RTPPacketVersionAVC) then Some ([packet], s) else
  '(payloads, p) ← PayloaderPayload (payMTU mtu) (rtpPayload packet) s.1;
  let '(packets, q) := rtpPackets (rtpTimestamp packet) payloads s.2 in
  Some (packets, (p, q)).
End pay.

(** ** The reference receiver (RFC 6184) *)

(** Units of an aggregation packet, each behind its 16-bit length. *)
Fixpoint aggregated (fuel : nat) (l : bytes) : option (list bytes) :=
  match fuel, l with
  | _, [] => Some []
  | S fuel, h :: k :: rest =>
      let size := Z.to_nat (256 * h + k) in
      if decide (size <= length rest)%nat
      then r ← aggregated fuel (drop size rest); Some (take size rest :: r)
      else None
  | _, _ => None
  end.

(** One payload: the complete units, and the unit being put together.  A unit in
    fragments is not interrupted, and all its fragments carry the same header, in which
    the forbidden bit is zero. *)
Definition receive (payload : bytes) (partial : option bytes) : option (list bytes * option bytes) :=
  match payload with
  | [] => None
  | b0 :: rest =>
      let t := Z.land b0 0x1F in
      if t =? fuaNALUType then
        match rest with
        | b1 :: data =>
            let header := Z.lor (Z.land b0 0xE0) (Z.land b1 0x1F) in
            let unit :=
              if Z.testbit b0 7 then None else
              match Z.testbit b1 7, partial with
              | true, None => Some (header :: data)
              | false, Some p => if hd 0 p =? header then Some (p ++ data) else None
              | _, _ => None
              end in
            match unit with
            | None => None
            | Some u => if Z.testbit b1 6 then Some ([u], None) else Some ([], Some u)
            end
        | [] => None
        end
      else match partial with
           | Some _ => None
           | None =>
               if t =? stapaNALUType then us ← aggregated (length rest) rest; Some (us, None)
               else if (1 <=? t) && (t <=? 23) then Some ([payload], None) else None
           end
  end.

Fixpoint receiveAll (payloads : list bytes) (partial : option bytes) : option (list bytes * option bytes) :=
  match payloads with
  | [] => Some ([], partial)
  | p :: rest =>
      '(us, partial) ← receive p partial;
      '(vs, partial) ← receiveAll rest partial; Some (us ++ vs, partial)
  end.

Example fu_a :
  payloadNalus 6 [[0x65; 1; 2; 3; 4; 5; 6; 7]] None =
  ([[0x7C; 0x85; 1; 2; 3; 4]; [0x7C; 0x45; 5; 6; 7]], None).
Proof. vm_compute. reflexivity. Qed.

(** ** What the receiver gets *)

(** A unit as RFC 6184 carries it: type 1 to 23, forbidden bit zero. *)
Definition wireUnit (n : bytes) : Prop :=
  bytes_ok n /\ 0 <= hd 0 n < 128 /\ 1 <= unitType n <= 23 /\ 0 < len n < 4294967296 /\
  (unitType n = NALUTypeSPS \/ unitType n = NALUTypePPS -> len n < 65536).

Definition skipped (n : bytes) : bool := (unitType n =? audNALUType) || (unitType n =? fillerNALUType).
Definition isParams (n : bytes) : bool := (unitType n =? NALUTypeSPS) || (unitType n =? NALUTypePPS).

(** An aggregate of parameter sets. *)
Definition sized (n : bytes) : bytes := [u8 (Z.shiftr (len n) 8); u8 (len n)] ++ n.
Definition aggregate (ps : list bytes) : option bytes :=
  match ps with [] => None | _ => Some (outputStapAHeader :: flat_map sized ps) end.
Definition aggregateFits (mtu : Z) (ps : list bytes) : bool :=
  match aggregate ps with Some s => len s <=? mtu | None => true end.

(** The units a receiver should see, [pending] being the parameter sets kept back, and
    the ones kept back in the end: delimiters and fillers are dropped, parameter sets
    wait for the next other unit and go in front of it, if they fit one packet. *)
Fixpoint delivered (mtu : Z) (units pending : list bytes) : list bytes * list bytes :=
  match units with
  | [] => ([], pending)
  | n :: units =>
      if skipped n then delivered mtu units pending
      else if isParams n then delivered mtu units (pending ++ [n])
      else let '(d, p) := delivered mtu units [] in
           ((if aggregateFits mtu pending then pending else []) ++ n :: d, p)
  end.

Lemma header_bits b0 : 0 <= b0 < 128 ->
  let t := Z.land b0 naluTypeBitmask in
  let ind := Z.lor fuaNALUType (Z.land b0 naluRefIdcBitmask) in
  Z.land ind 0x1F = fuaNALUType /\ Z.lor (Z.land ind 0xE0) (Z.land (Z.lor t 0x80) 0x1F) = b0 /\
  Z.testbit ind 7 = false /\ Z.lor (Z.land ind 0xE0) (Z.land (Z.lor t 0x40) 0x1F) = b0 /\
  Z.lor (Z.land ind 0xE0) (Z.land t 0x1F) = b0 /\
  Z.testbit (Z.lor t 0x80) 7 = true /\ Z.testbit (Z.lor t 0x80) 6 = false /\
  Z.testbit (Z.lor t 0x40) 7 = false /\ Z.testbit (Z.lor t 0x40) 6 = true /\
  Z.testbit t 7 = false /\ Z.testbit t 6 = false.
Proof.
  intros Hb. assert (exists n, b0 = Z.of_nat n /\ (n < 128)%nat) as (n & -> & Hn).
  { exists (Z.to_nat b0). lia. }
  clear Hb. cbv zeta.
  do 128 (destruct n as [|n]; [vm_compute; split_and!; reflexivity|]). lia.
Qed.

Lemma receive_fua ind b1 data partial :
  Z.land ind 0x1F = fuaNALUType -> Z.testbit ind 7 = false ->
  receive (ind :: b1 :: data) partial =
  match (match Z.testbit b1 7, partial with
         | true, None => Some (Z.lor (Z.land ind 0xE0) (Z.land b1 0x1F) :: data)
         | false, Some p => if hd 0 p =? Z.lor (Z.land ind 0xE0) (Z.land b1 0x1F) then Some (p ++ data) else None
         | _, _ => None
         end) with
  | None => None
  | Some u => if Z.testbit b1 6 then Some ([u], None) else Some ([], Some u)
  end.
Proof. intros H H'. unfold receive. rewrite H, H'. reflexivity. Qed.

Section one_unit.
Context (mtu b0 : Z) (Hb : 0 <= b0 < 128) (Hmtu : 3 <= mtu).
Notation t := (Z.land b0 naluTypeBitmask).
Notation nri := (Z.land b0 naluRefIdcBitmask).

(** The fragments behind the first one complete the unit. *)
Lemma later_fragments total fuel : forall data acc,
  (length data <= fuel)%nat -> 0 < len data < total ->
  receiveAll (fragments fuel nri t (mtu - 2) total data) (Some (b0 :: acc)) = Some ([b0 :: acc ++ data], None) /\
  Forall (fun p => len p <= mtu) (fragments fuel nri t (mtu - 2) total data).
Proof.
  destruct (header_bits b0 Hb) as (Hi & _ & Hf0 & Hh4 & Hh & _ & _ & H4 & H5 & H6 & H7).
  induction fuel as [|fuel IH]; intros data acc Hf Hd; [unfold len in Hd; lia|].
  cbn [fragments]. rewrite (proj2 (Z.leb_gt (len data) 0)) by lia.
  rewrite (proj2 (Z.eqb_neq (len data) total)) by lia.
  set (cur := Z.min (mtu - 2) (len data)).
  assert (len (take (Z.to_nat cur) data) = cur) as Hc.
  { unfold len. rewrite length_take. unfold cur, len in *. lia. }
  destruct (Z.eqb_spec (len data - cur) 0) as [E|E].
  - rewrite (take_ge data), (drop_ge data) by (unfold cur, len in *; lia).
    assert (fragments fuel nri t (mtu - 2) total [] = []) as -> by by destruct fuel.
    cbn [receiveAll]. rewrite receive_fua, H4, H5, Hh4 by done. cbn [hd]. rewrite Z.eqb_refl. cbn. split; [done|].
    constructor; [|constructor]. rewrite !len_cons. unfold cur in *. lia.
  - cbn [receiveAll]. rewrite receive_fua, H6, H7, Hh by done. cbn [hd]. rewrite Z.eqb_refl. cbn [mbind option_bind app].
    destruct (IH (drop (Z.to_nat cur) data) (acc ++ take (Z.to_nat cur) data)) as [E1 E2].
    { rewrite length_drop. unfold cur, len in *. lia. }
    { unfold cur, len in *. rewrite length_drop. lia. }
    rewrite E1. cbn. rewrite <- app_assoc, take_drop. split; [done|].
    constructor; [|done]. rewrite !len_cons, Hc. unfold cur. lia.
Qed.

Lemma unit_fragments data : mtu < len data + 1 ->
  receiveAll (fragments (length data) nri t (mtu - 2) (len data) data) None = Some ([b0 :: data], None) /\
  Forall (fun p => len p <= mtu) (fragments (length data) nri t (mtu - 2) (len data) data).
Proof.
  intros Hl. destruct (header_bits b0 Hb) as (Hi & Hh & Hf0 & _ & _ & H2 & H3 & _).
  destruct data as [|x data]; [change (len (@nil Z)) with 0 in Hl; lia|]. set (d := x :: data) in *.
  change (length d) with (S (length data)). cbn [fragments].
  assert (0 < len d) by (unfold d; rewrite len_cons; pose proof (len_nonneg data); lia).
  rewrite (proj2 (Z.leb_gt (len d) 0)) by lia. rewrite Z.eqb_refl.
  rewrite Z.min_l by lia.
  destruct (later_fragments (len d) (length data) (drop (Z.to_nat (mtu - 2)) d)
    (take (Z.to_nat (mtu - 2)) d)) as [E1 E2].
  { rewrite length_drop. unfold d. cbn [length]. lia. }
  { unfold len in *. rewrite length_drop. lia. }
  cbn [receiveAll]. rewrite receive_fua, H2, H3, Hh by done. cbn [mbind option_bind]. rewrite E1.
  split; [cbn; by rewrite take_drop|]. constructor; [|done].
  rewrite !len_cons. unfold len. rewrite length_take. lia.
Qed.
End one_unit.

Lemma sized_value (n : bytes) : len n < 65536 -> 256 * u8 (Z.shiftr (len n) 8) + u8 (len n) = len n.
Proof.
  intros H. pose proof (len_nonneg n). rewrite Z.shiftr_div_pow2 by lia. change (2 ^ 8) with 256. ints.
Qed.

Lemma aggregated_units ps : forall fuel, Forall (fun n : bytes => len n < 65536) ps ->
  (length (flat_map sized ps) <= fuel)%nat -> aggregated fuel (flat_map sized ps) = Some ps.
Proof.
  induction ps as [|n ps IH]; intros fuel H Hf; [by destruct fuel|].
  apply Forall_cons in H as [Hn H]. cbn [flat_map] in *. unfold sized in Hf at 1.
  rewrite !length_app in Hf. cbn in Hf. destruct fuel as [|fuel]; [lia|].
  unfold sized at 1. cbn [app aggregated]. rewrite sized_value by done.
  assert (Z.to_nat (len n) = length n) as -> by (unfold len; lia).
  rewrite decide_True by (rewrite length_app; lia).
  rewrite drop_app_length, take_app_length, IH by (done || lia). done.
Qed.

Lemma receive_aggregate ps s : Forall (fun n : bytes => len n < 65536) ps ->
  aggregate ps = Some s -> receive s None = Some (ps, None).
Proof.
  intros H E. destruct ps as [|n ps]; [done|]. injection E as <-. unfold receive.
  change (Z.land outputStapAHeader 0x1F =? fuaNALUType) with false.
  change (Z.land outputStapAHeader 0x1F =? stapaNALUType) with true. cbv iota.
  by rewrite (aggregated_units (n :: ps)).
Qed.

Lemma aggregate_snoc ps n :
  Some (default [outputStapAHeader] (aggregate ps) ++ sized n) = aggregate (ps ++ [n]).
Proof.
  destruct ps as [|m ps]; cbn [aggregate default app flat_map]; [by rewrite app_nil_r|].
  f_equal. cbn [app]. f_equal. rewrite flat_map_app. cbn [flat_map]. by rewrite app_nil_r, app_assoc.
Qed.

Lemma receive_single n : wireUnit n -> receive n None = Some ([n], None).
Proof.
  intros (_ & _ & Ht & Hl & _). destruct n as [|b0 n]; [change (len (@nil Z)) with 0 in Hl; lia|].
  change (unitType (b0 :: n)) with (Z.land b0 0x1F) in Ht. unfold receive.
  cbv zeta. unfold stapaNALUType, fuaNALUType.
  destruct (Z.eqb_spec (Z.land b0 31) 28); [lia|]. destruct (Z.eqb_spec (Z.land b0 31) 24); [lia|].
  rewrite (proj2 (Z.leb_le 1 (Z.land b0 31))), (proj2 (Z.leb_le (Z.land b0 31) 23)) by lia. done.
Qed.

Lemma receiveAll_app p q partial :
  receiveAll (p ++ q) partial =
  ('(us, partial) ← receiveAll p partial; '(vs, partial) ← receiveAll q partial; Some (us ++ vs, partial)).
Proof.
  revert partial. induction p as [|x p IH]; intros partial; cbn [app receiveAll mbind option_bind].
  { destruct (receiveAll q partial) as [[? ?]|]; done. }
  destruct (receive x partial) as [[us p1]|]; [|done]. cbn [mbind option_bind]. rewrite IH.
  destruct (receiveAll p p1) as [[vs p2]|]; [|done]. cbn [mbind option_bind].
  destruct (receiveAll q p2) as [[ws p3]|]; [|done]. cbn [mbind option_bind]. by rewrite app_assoc.
Qed.

Definition carries (mtu : Z) (payloads us : list bytes) : Prop :=
  receiveAll payloads None = Some (us, None) /\ Forall (fun p => len p <= mtu) payloads.

(** The last payload is no aggregate. *)
Definition closed (payloads : list bytes) : Prop :=
  forall p, last payloads = Some p -> Z.land (hd 0 p) 0x1F <> stapaNALUType.

Lemma closed_app p q : closed p -> closed q -> closed (p ++ q).
Proof. intros Hp Hq r. rewrite last_app. destruct (last q) eqn:E; [intros [= <-]; auto|apply Hp]. Qed.
Lemma closed_snoc p x : Z.land (hd 0 x) 0x1F <> stapaNALUType -> closed (p ++ [x]).
Proof. intros H r. rewrite last_snoc. by intros [= <-]. Qed.

Lemma fragments_closed mtu b0 total fuel data first : 0 <= b0 < 128 ->
  0 < len data -> (length data <= fuel)%nat -> 0 < mtu ->
  closed (first ++ fragments fuel (Z.land b0 naluRefIdcBitmask) (Z.land b0 naluTypeBitmask) mtu total data).
Proof.
  intros Hb Hd Hf Hm. set (fs := fragments _ _ _ _ _ _).
  assert (Forall (fun p => Z.land (hd 0 p) 0x1F <> stapaNALUType) fs) as H.
  { subst fs. clear Hd Hf Hm. revert data. induction fuel as [|fuel IH]; intros data; [constructor|].
    cbn [fragments]. destruct (len data <=? 0); constructor; [|apply IH].
    destruct (header_bits b0 Hb) as (E & _). cbn [hd]. rewrite E. done. }
  assert (fs <> []) as Hne.
  { subst fs. destruct fuel; [unfold len in Hd; lia|]. cbn [fragments].
    by rewrite (proj2 (Z.leb_gt (len data) 0)) by lia. }
  intros p. rewrite last_app. destruct (last fs) as [x|] eqn:E; [|by apply last_None in E].
  intros [= ->]. apply last_Some in E as [l' El]. rewrite El in H.
  apply Forall_app in H as [_ H]. by apply Forall_cons in H as [H _].
Qed.

Lemma carries_nil mtu : carries mtu [] [].
Proof. split; [done|constructor]. Qed.
Lemma carries_app mtu p q us vs : carries mtu p us -> carries mtu q vs -> carries mtu (p ++ q) (us ++ vs).
Proof.
  intros [E1 H1] [E2 H2]. split; [|by apply Forall_app]. rewrite receiveAll_app, E1. cbn. by rewrite E2.
Qed.

Lemma payloadNalu_spec mtu n pending :
  3 <= mtu -> wireUnit n -> Forall (fun n : bytes => len n < 65536) pending ->
  let '(d, p) := delivered mtu [n] pending in
  exists payloads, payloadNalu mtu n (aggregate pending) = (payloads, aggregate p) /\
    carries mtu payloads d /\ closed payloads /\ Forall (fun n : bytes => len n < 65536) p.
Proof.
  intros Hm Hn Hp. pose proof Hn as (_ & Hb & Ht & Hl & Hps). cbn [delivered].
  destruct n as [|b0 data]; [change (len (@nil Z)) with 0 in Hl; lia|]. cbn [hd] in Hb. unfold payloadNalu.
  change (Z.land b0 naluTypeBitmask) with (unitType (b0 :: data)). cbv zeta.
  unfold skipped. destruct (_ || _); [eexists; split; [reflexivity|]; split; [apply carries_nil|by split]|].
  unfold isParams in *. destruct ((unitType (b0 :: data) =? NALUTypeSPS) || _) eqn:Ep.
  { eexists. split; [by rewrite <- aggregate_snoc|]. split; [apply carries_nil|]. split; [done|].
    apply Forall_app. split; [done|]. constructor; [|done]. apply Hps.
    apply orb_true_iff in Ep as [?%Z.eqb_eq|?%Z.eqb_eq]; auto. }
  clear Hps.
  set (first := match aggregate pending with Some s => if len s <=? mtu then [s] else [] | None => [] end).
  assert (carries mtu first (if aggregateFits mtu pending then pending else [])) as Hfirst.
  { unfold first, aggregateFits. destruct (aggregate pending) as [s|] eqn:E.
    - destruct (Z.leb_spec (len s) mtu); [|apply carries_nil]. split; [|by constructor].
      cbn [receiveAll]. rewrite (receive_aggregate pending s) by done. cbn. by rewrite app_nil_r.
    - destruct pending; [apply carries_nil|done]. }
  destruct (Z.leb_spec (len (b0 :: data)) mtu) as [Hs|Hs].
  { exists (first ++ [b0 :: data]). split; [done|]. split; [apply carries_app; [done|]|].
    2: { split; [|done]. apply closed_snoc. cbn [hd]. unfold stapaNALUType.
         change (unitType (b0 :: data)) with (Z.land b0 0x1F) in Ht. lia. }
    split; [|by constructor]. cbn [receiveAll]. rewrite receive_single by done. reflexivity. }
  rewrite len_cons in Hs. unfold fuaHeaderSize.
  rewrite (proj2 (Z.leb_gt (Z.min (mtu - 2) (len data)) 0)) by lia.
  change (unitType (b0 :: data)) with (Z.land b0 naluTypeBitmask).
  eexists. split; [reflexivity|]. split; [|split; [|done]].
  - apply carries_app; [done|]. apply unit_fragments; lia.
  - apply fragments_closed; lia || done.
Qed.

Lemma delivered_cons mtu n units pending :
  delivered mtu (n :: units) pending =
  (let '(d, p) := delivered mtu [n] pending in let '(e, q) := delivered mtu units p in (d ++ e, q)).
Proof.
  cbn [delivered]. destruct (skipped n); [by destruct (delivered mtu units pending)|].
  destruct (isParams n); [by destruct (delivered mtu units (pending ++ [n]))|].
  destruct (delivered mtu units []) as [d p]. by rewrite <- app_assoc.
Qed.

Lemma payloadNalus_spec mtu units : forall pending,
  3 <= mtu -> Forall wireUnit units -> Forall (fun n : bytes => len n < 65536) pending ->
  let '(d, p) := delivered mtu units pending in
  exists payloads, payloadNalus mtu units (aggregate pending) = (payloads, aggregate p) /\
    carries mtu payloads d /\ closed payloads /\ Forall (fun n : bytes => len n < 65536) p.
Proof.
  induction units as [|n units IH]; intros pending Hm Hu Hp.
  { exists []. split; [done|]. split; [apply carries_nil|by split]. }
  apply Forall_cons in Hu as [Hn Hu]. rewrite delivered_cons.
  pose proof (payloadNalu_spec mtu n pending Hm Hn Hp) as H1.
  destruct (delivered mtu [n] pending) as [d p]. destruct H1 as (p1 & E1 & C1 & L1 & P1).
  specialize (IH p Hm Hu P1). destruct (delivered mtu units p) as [e q].
  destruct IH as (p2 & E2 & C2 & L2 & P2). exists (p1 ++ p2). cbn [payloadNalus]. rewrite E1, E2.
  split; [done|]. split; [by apply carries_app|]. split; [by apply closed_app|done].
Qed.

Lemma emitAVC_units ns : forall fuel,
  Forall goodUnit ns -> len (avccUnits ns) < 4294967296 -> (length (avccUnits ns) < fuel)%nat ->
  emitAVC fuel (avccUnits ns) = Some (Some ns).
Proof.
  induction ns as [|n ns IH]; intros fuel H Hl Hf; (destruct fuel as [|fuel]; [lia|]); [done|].
  apply Forall_cons in H as [Hn Hns]. rewrite avccUnits_length in Hf.
  rewrite avccUnits_cons in *. rewrite unit_len in Hl. pose proof (len_nonneg n).
  pose proof (len_nonneg (avccUnits ns)). cbn [emitAVC]. rewrite unit_load by done. cbv zeta.
  rewrite unit_len, !u32_small by (unfold is_u32; lia).
  rewrite (proj2 (Z.ltb_ge (4 + len n + len (avccUnits ns)) 4)) by lia.
  rewrite (proj2 (Z.ltb_ge (4 + len n + len (avccUnits ns)) (4 + len n))) by lia.
  rewrite sub_in by (rewrite ?unit_len; lia). rewrite unit_seg, unit_drop by auto.
  rewrite IH by (done || lia). reflexivity.
Qed.

Definition paramUnit (n : bytes) : Prop := wireUnit n /\ isParams n = true.

Lemma wireUnit_good n : wireUnit n -> goodUnit n.
Proof. intros (_ & _ & _ & Hl & _). split; [|lia]. intros ->. change (len (@nil Z)) with 0 in Hl. lia. Qed.

Lemma paramUnit_short n : paramUnit n -> len n < 65536.
Proof.
  intros [(_ & _ & _ & _ & H) Hp]. apply H. unfold isParams in Hp.
  apply orb_true_iff in Hp as [?%Z.eqb_eq|?%Z.eqb_eq]; auto.
Qed.

Lemma delivered_units mtu units : forall pending d p,
  Forall wireUnit units -> Forall paramUnit pending -> delivered mtu units pending = (d, p) ->
  Forall wireUnit d /\ Forall paramUnit p.
Proof.
  induction units as [|n units IH]; intros pending d p Hu Hp; cbn [delivered]; [by intros [= <- <-]|].
  apply Forall_cons in Hu as [Hn Hu]. destruct (skipped n); [by apply IH|].
  destruct (isParams n) eqn:E.
  { apply IH; [done|]. apply Forall_app. split; [done|]. by constructor. }
  destruct (delivered mtu units []) as [d' p'] eqn:D. intros [= <- <-].
  destruct (IH [] d' p' Hu (Forall_nil_2 _) D) as [H1 H2]. split; [|done].
  apply Forall_app. split; [|by constructor].
  destruct (aggregateFits mtu pending); [|constructor]. eapply Forall_impl; [exact Hp|]. by intros ? [].
Qed.

Section packets.
Context {Seq : Type} (NextSequenceNumber : Seq -> Z * Seq).

(** The next [k] numbers of the sequencer. *)
Fixpoint draws (k : nat) (q : Seq) : list Z :=
  match k with
  | O => []
  | S k => let '(n, q) := NextSequenceNumber q in n :: draws k q
  end.

Lemma rtpPackets_spec ts payloads : forall q,
  let packets := (rtpPackets NextSequenceNumber ts payloads q).1 in
  map rtpPayload packets = payloads /\
  map SequenceNumber packets = draws (length payloads) q /\
  Forall (fun k => Version k = 2 /\ rtpTimestamp k = ts) packets /\
  map Marker packets = match length payloads with O => [] | S k => repeat false k ++ [true] end.
Proof.
  induction payloads as [|p rest IH]; intros q; [by repeat split|]. cbn [rtpPackets length draws].
  destruct (NextSequenceNumber q) as [n q1]. specialize (IH q1).
  destruct (rtpPackets NextSequenceNumber ts rest q1) as [ks q2]. cbn [fst] in *.
  destruct IH as (H1 & H2 & H3 & H4). cbn [map rtpPayload SequenceNumber Marker].
  rewrite H1, H2, H4. split; [done|]. split; [done|]. split; [by constructor|].
  destruct rest; reflexivity.
Qed.

(** What reaches the wire for an access unit. *)
Lemma RTPPay_units mtu units pending ps' q packet :
  3 <= payMTU mtu -> Forall wireUnit units -> Forall paramUnit pending ->
  0 < len (avccUnits units) < 4294967296 -> Version packet = RTPPacketVersionAVC ->
  rtpPayload packet = avccUnits units -> ps' = mkPayloader true (aggregate pending) ->
  let '(d, p) := delivered (payMTU mtu) units pending in
  exists payloads, RTPPay NextSequenceNumber mtu packet (ps', q) =
      Some ((rtpPackets NextSequenceNumber (rtpTimestamp packet) payloads q).1,
            (mkPayloader true (aggregate p), (rtpPackets NextSequenceNumber (rtpTimestamp packet) payloads q).2)) /\
    carries (payMTU mtu) payloads d /\ closed payloads.
Proof.
  intros Hm Hu Hp Hl Hv Hpay ->.
  assert (Forall (fun n : bytes => len n < 65536) pending) as Hs.
  { eapply Forall_impl; [exact Hp|]. apply paramUnit_short. }
  pose proof (payloadNalus_spec (payMTU mtu) units pending Hm Hu Hs) as H.
  destruct (delivered (payMTU mtu) units pending) as [d p]. destruct H as (payloads & E & C & L & _).
  exists payloads. split; [|done]. unfold RTPPay. rewrite Hv, Hpay.
  change (negb (RTPPacketVersionAVC =? RTPPacketVersionAVC)) with false. cbv iota.
  unfold PayloaderPayload. rewrite (proj2 (Z.eqb_neq (len (avccUnits units)) 0)) by lia.
  cbn [fst snd IsAVC stapANalu]. unfold EmitNalus. rewrite emitAVC_units; [|..|lia].
  - cbn [default from_option id mbind option_bind fst snd stapANalu]. rewrite E.
    cbn [mbind option_bind fst snd]. by destruct (rtpPackets NextSequenceNumber (rtpTimestamp packet) payloads q).
  - eapply Forall_impl; [exact Hu|]. apply wireUnit_good.
  - lia.
Qed.

(** C30. The payloads of an access unit fit the MTU, and a receiver that follows RFC 6184 gets
    from them, in order, the units but for delimiters and fillers; parameter sets wait for
    the next other unit and come in front of it in one packet, those behind the last one wait
    for the next access unit, and sets that do not fit one packet together are dropped; only
    the last packet of the access unit has the marker, all have its timestamp, and their
    sequence numbers are consecutive draws. *)
Theorem access_unit_packets (mtu : Z) (units pending : list bytes) (q : Seq) (packet : rtpPacket)
  (Hmtu : 3 <= payMTU mtu) (Hunits : Forall wireUnit units) (Hpending : Forall paramUnit pending)
  (Hlen : 0 < len (avccUnits units) < 4294967296) (Hversion : Version packet = RTPPacketVersionAVC)
  (Hpayload : rtpPayload packet = avccUnits units) :
  let '(d, p) := delivered (payMTU mtu) units pending in
  exists packets q',
    RTPPay NextSequenceNumber mtu packet (mkPayloader true (aggregate pending), q) =
      Some (packets, (mkPayloader true (aggregate p), q')) /\
    receiveAll (map rtpPayload packets) None = Some (d, None) /\
    Forall (fun k => Version k = 2 /\ rtpTimestamp k = rtpTimestamp packet /\
                     len (rtpPayload k) <= payMTU mtu) packets /\
    map SequenceNumber packets = draws (length packets) q /\
    map Marker packets = match length packets with O => [] | S k => repeat false k ++ [true] end.
Proof.
  pose proof (RTPPay_units mtu units pending _ q packet Hmtu Hunits Hpending Hlen Hversion Hpayload eq_refl) as H.
  destruct (delivered (payMTU mtu) units pending) as [d p]. destruct H as (payloads & E & (C & S) & _).
  eexists _, _. split; [exact E|].
  destruct (rtpPackets_spec (rtpTimestamp packet) payloads q) as (H1 & H2 & H3 & H4).
  set (ks := (rtpPackets _ _ _ _).1) in *.
  assert (length payloads = length ks) as Hk by (rewrite <- H1; apply length_map).
  rewrite H2, H4, Hk, H1. split; [done|]. split; [|done].
  apply Forall_forall. intros k Hk'. rewrite Forall_forall in H3. destruct (H3 k Hk') as [Hv Ht].
  split; [done|]. split; [done|]. rewrite Forall_forall in S. apply S. rewrite <- H1.
  by apply list_elem_of_fmap_2.
Qed.
End packets.

(** A sequencer as the library documents it: the numbers follow each other. *)
Definition counter (q : Z) : Z * Z := (u16 q, q + 1).
Definition demoUnits : list bytes :=
  [[0x09; 0xF0]; [0x67; 0x64; 0; 0x28]; [0x68; 0xEE; 0x3C]; [0x65; 1; 2; 3; 4; 5; 6; 7; 8; 9; 10; 11; 12; 13; 14; 15; 16]].

Ltac bytes_in := repeat (constructor; [unfold is_byte; lia|]); constructor.

Lemma demo_wire : Forall wireUnit demoUnits.
Proof.
  repeat (constructor; [split; [bytes_in|repeat split; try (vm_compute; congruence); intros; reflexivity]|]).
  constructor.
Qed.

Lemma access_unit_packets_witness :
  exists packets q', RTPPay counter 24 (mkRTP 0 false 0 900 (avccUnits demoUnits)) (mkPayloader true None, 65535) =
    Some (packets, (mkPayloader true None, q')) /\
  map SequenceNumber packets = [65535; 0; 1].
Proof.
  destruct (access_unit_packets counter 24 demoUnits [] 65535 (mkRTP 0 false 0 900 (avccUnits demoUnits))
    ltac:(vm_compute; congruence) demo_wire (Forall_nil_2 _) ltac:(vm_compute; split; reflexivity) eq_refl eq_refl)
    as (packets & q' & E & R & _ & N & _).
  exists packets, q'. split; [exact E|]. rewrite N. clear N.
  vm_compute in E. injection E as <- <-. reflexivity.
Defined.

(** A length field in the last four values of the 32 bits wraps the end of the unit round to
    in front of its start: the slice expression panics. *)
Lemma emit_overflow_panics nals size :
  beLoad nals = Some size -> 4294967292 <= size < 4294967296 -> 4 <= u32 (len nals) ->
  EmitNalus nals true = None.
Proof.
  intros E Hs Hl. unfold EmitNalus. cbn [emitAVC]. rewrite (proj2 (Z.ltb_ge (u32 (len nals)) 4)) by lia.
  rewrite E. cbv zeta.
  assert (u32 (4 + size) = size - 4294967292) as -> by ints.
  rewrite (proj2 (Z.ltb_ge (u32 (len nals)) (size - 4294967292))) by lia.
  unfold sub. by rewrite decide_False by lia.
Qed.
