(* ===== verification/Depay.v ===== *)
(** RTP depacketisation ([RTPDepay] of [pkg/h264/rtp.go]) and the repair of byte streams in
    length-prefixed clothing ([FixAnnexBInAVCC] of [pkg/h264/annexb/annexb.go]), composed
    with the packetiser of Rtp.v. *)

From S2P Require Import Prelude Text Annexb Codec Producer Rtp.

(** ** Start codes where lengths should be *)

(** [None] would be running out of fuel; a loop over the suffix at index [i]. *)
Fixpoint fixLoop (fuel : nat) (b : bytes) : option bytes :=
  match fuel with
  | O => None
  | S fuel =>
      match b with
      | _ :: _ :: _ :: _ :: _ :: _ =>
          let body := drop 4 b in
          let size := default (length body) (index body [0; 0; 0; 1]) in
          tl ← fixLoop fuel (drop size body);
          Some (be32 (u32 (Z.of_nat size)) ++ take size body ++ tl)
      | _ => Some b
      end
  end.

Definition FixAnnexBInAVCC (b : bytes) : option bytes := fixLoop (S (length b)) b.

(** ** The depacketiser *)

Definition PSMaxSize : Z := 128.
Definition NALUTypeAUD : Z := 9.
Definition maxBuffer : Z := 5 * 1024 * 1024.

(** What the loop at the start of an access unit makes of its first payload: nothing, or
    what goes in the buffer in front of the payload, and the payload. *)
Inductive trimmed := Skipped | Kept (buf payload : bytes).

(** [None]: a panic, or a loop that does not advance. *)
Fixpoint trim (fuel : nat) (ps payload : bytes) : option trimmed :=
  match fuel with
  | O => None
  | S fuel =>
      t ← NALUType payload;
      if t =? NALUTypeIFrame then Some (Kept ps payload)
      else if (t =? NALUTypeSEI) || (t =? NALUTypeAUD) then
        size ← beLoad payload;
        let i := u32 (4 + size) in
        if i =? len payload then Some Skipped
        else rest ← sub payload i (len payload); trim fuel ps rest
      else if (t =? NALUTypePFrame) || (t =? NALUTypeSPS) || (t =? NALUTypePPS)
      then Some (Kept [] payload)
      else Some Skipped
  end.

(** A packet with the marker that holds parameter sets or an SEI only: the buffer behind it. *)
Definition markedSmall (marker : bool) (payload buf : bytes) : option (option bytes) :=
  if marker && (len payload <? PSMaxSize) then
    t ← NALUType payload;
    Some (if (t =? NALUTypeSPS) || (t =? NALUTypePPS) then Some (buf ++ payload)
          else if t =? NALUTypeSEI then Some buf else None)
  else Some None.

(** Whether the first unit says it is a sequence parameter set of no plausible size. *)
Definition oversizedSPS (payload : bytes) : option bool :=
  t ← NALUType payload;
  if t =? NALUTypeSPS then size ← beLoad payload; Some (PSMaxSize <=? size) else Some false.

Section depay.
(** The library's depacketiser: [None] for an error. *)
Context {D : Type} (Unmarshal : bytes -> D -> option bytes * D).
(** The parameter sets of the codec line, length-prefixed. *)
Context (ps : bytes).

(** One packet: what the handler gets, and the new state. *)
Definition RTPDepay (packet : rtpPacket) (s : D * bytes) : option (option rtpPacket * (D * bytes)) :=
  let '(r, d) := Unmarshal (rtpPayload packet) s.1 in
  match r with
  | None => Some (None, (d, s.2))
  | Some payload =>
      if len payload =? 0 then Some (None, (d, s.2)) else
      let buf := if maxBuffer <? len s.2 then [] else s.2 in
      early ← markedSmall (Marker packet) payload buf;
      match early with
      | Some buf => Some (None, (d, buf))
      | None =>
          k ← (if len buf =? 0 then trim (S (length payload)) ps payload else Some (Kept buf payload));
          match k with
          | Skipped => Some (None, (d, buf))
          | Kept buf payload =>
              if negb (Marker packet) then Some (None, (d, buf ++ payload)) else
              let payload := buf ++ payload in
              big ← oversizedSPS payload;
              payload ← (if (big : bool) then FixAnnexBInAVCC payload else Some payload);
              Some (Some (mkRTP RTPPacketVersionAVC (Marker packet) (SequenceNumber packet)
                            (rtpTimestamp packet) payload), (d, []))
          end
      end
  end.

Fixpoint depayAll (packets : list rtpPacket) (s : D * bytes) : option (list rtpPacket * (D * bytes)) :=
  match packets with
  | [] => Some ([], s)
  | k :: rest =>
      '(r, s) ← RTPDepay k s; '(out, s) ← depayAll rest s;
      Some (match r with Some o => o :: out | None => out end, s)
  end.
End depay.

(** ** Repair *)

Lemma clean_start n k : clean n = true -> boundary k -> startsWith [0; 0; 0; 1] (n ++ k) = false.
Proof.
  intros Hc Hb. destruct n as [|x n]; [done|]. cbn [app startsWith].
  destruct (Z.eqb_spec 0 x) as [<-|]; [|done]. destruct (n ++ k) as [|x1 [|x2 [|x3 t]]] eqn:E; try done.
  all: cbn [startsWith]; rewrite ?andb_false_r; try done.
  pose proof (clean_window 0 n k x1 x2 x3 t Hc E Hb) as Hw.
  destruct (Z.eqb_spec 0 x1) as [<-|]; [|done]. destruct (Z.eqb_spec 0 x2) as [<-|]; [|done].
  destruct (Z.eqb_spec 1 x3) as [<-|]; [|done]. exfalso. revert Hw. done.
Qed.

Lemma index_clean n k : clean n = true ->
  (k = [] \/ exists t, k = [0; 0; 0; 1] ++ t) ->
  index (n ++ k) [0; 0; 0; 1] = match k with [] => None | _ => Some (length n) end.
Proof.
  intros Hc Hk. assert (boundary k) as Hb by (destruct Hk as [->|[t ->]]; constructor).
  induction n as [|x n IH]; [done|].
  pose proof (clean_start (x :: n) k Hc Hb) as Hs. cbn [app] in *. cbn [index]. rewrite Hs.
  destruct n as [|y n].
  - destruct Hk as [->|[t ->]]; [done|]. cbn [app]. reflexivity.
  - rewrite IH by (by apply clean_tail in Hc). by destruct k.
Qed.

Definition longJoin (us : list bytes) : bytes := joinNALs (map (pair true) us).

Lemma longJoin_shape us : longJoin us = [] \/ exists t, longJoin us = [0; 0; 0; 1] ++ t.
Proof. destruct us as [|n us]; [by left|right]. eexists. reflexivity. Qed.

Lemma fixLoop_units us : forall n hdr fuel,
  length hdr = 4%nat -> Forall (fun n => clean n = true /\ len n < 4294967296) (n :: us) ->
  (length (hdr ++ n ++ longJoin us) < fuel)%nat ->
  fixLoop fuel (hdr ++ n ++ longJoin us) = Some (avccUnits (n :: us)).
Proof.
  induction us as [|m us IH]; intros n hdr fuel Hh H Hf;
    apply Forall_cons in H as [[Hc Hn] H]; (destruct fuel as [|fuel]; [lia|]);
    destruct hdr as [|h0 [|h1 [|h2 [|h3 [|]]]]]; try done;
    (destruct n as [|x n]; [done|]); cbn [app fixLoop drop];
    change (x :: n ++ ?k) with ((x :: n) ++ k); rewrite index_clean by (done || apply longJoin_shape).
  - change (longJoin []) with (@nil Z) in *. cbn [default from_option]. rewrite app_nil_r.
    rewrite drop_all, take_ge by done. rewrite u32_small by (unfold is_u32, len in *; lia).
    destruct fuel; [cbn in Hf; lia|]. cbn [fixLoop mbind option_bind]. rewrite avccUnits_cons. done.
  - change (longJoin (m :: us)) with ([0; 0; 0; 1] ++ m ++ longJoin us) in *.
    cbn [app default from_option id]. change (x :: n ++ ?k) with ((x :: n) ++ k).
    rewrite drop_app_length, take_app_length.
    rewrite u32_small by (unfold is_u32, len in *; lia).
    change (0 :: 0 :: 0 :: 1 :: ?k) with ([0; 0; 0; 1] ++ k). rewrite IH; [|done|done|].
    + cbn [mbind option_bind]. by rewrite (avccUnits_cons (x :: n)).
    + rewrite !length_app in *. cbn [length app] in *. lia.
Qed.

(** An access unit whose units are separated by start codes behind one length field comes out
    with the length of every unit in place of the start codes. *)
Theorem start_codes_repaired (hdr n : bytes) (us : list bytes)
  (Hhdr : length hdr = 4%nat) (Hunits : Forall (fun n => clean n = true /\ len n < 4294967296) (n :: us)) :
  FixAnnexBInAVCC (hdr ++ n ++ longJoin us) = Some (avccUnits (n :: us)).
Proof. apply fixLoop_units; [done|done|lia]. Qed.

(** The repair always returns, and in place. *)
Lemma fix_total fuel : forall b, (length b < fuel)%nat ->
  exists r, fixLoop fuel b = Some r /\ length r = length b.
Proof.
  induction fuel as [|fuel IH]; intros b Hf; [lia|]. cbn [fixLoop].
  destruct b as [|x0 [|x1 [|x2 [|x3 [|x4 b]]]]]; try (eexists; split; reflexivity).
  cbn [drop]. set (body := x4 :: b). set (size := default (length body) (index body [0; 0; 0; 1])).
  destruct (IH (drop size body)) as (r & -> & Hr); [rewrite length_drop; unfold body; cbn in *; lia|].
  eexists. split; [reflexivity|].
  assert (length (be32 (u32 (Z.of_nat size))) = 4)%nat as Hb by reflexivity.
  rewrite !length_app, Hb, Hr, length_take, length_drop. unfold body. cbn [length]. lia.
Qed.

(** ** Packetiser and depacketiser *)

(** What a unit at the start of an access unit may be. *)
Definition entry (n : bytes) : Prop :=
  unitType n = NALUTypePFrame \/ unitType n = NALUTypeIFrame \/
  unitType n = NALUTypeSPS \/ unitType n = NALUTypePPS.
(** A unit that may close one. *)
Definition closing (n : bytes) : Prop :=
  unitType n <> NALUTypeSPS /\ unitType n <> NALUTypePPS /\ unitType n <> NALUTypeSEI.

(** A key frame without its parameter sets gets those of the codec line. *)
Definition gathered (ps : bytes) (us : list bytes) : bytes :=
  match us with
  | [] => []
  | u :: _ => (if unitType u =? NALUTypeIFrame then ps else []) ++ avccUnits us
  end.

Lemma avccUnits_app us vs : avccUnits (us ++ vs) = avccUnits us ++ avccUnits vs.
Proof. apply flat_map_app. Qed.

Lemma gathered_app ps us vs : us <> [] -> gathered ps (us ++ vs) = gathered ps us ++ avccUnits vs.
Proof.
  intros H. destruct us as [|u us]; [done|]. change ((u :: us) ++ vs) with (u :: (us ++ vs)).
  unfold gathered. change (u :: (us ++ vs)) with ((u :: us) ++ vs). by rewrite avccUnits_app, app_assoc.
Qed.

Lemma avccUnits_pos u us : 0 < len (avccUnits (u :: us)).
Proof. unfold len. rewrite avccUnits_length. lia. Qed.

Lemma gathered_pos ps u us : 0 < len (gathered ps (u :: us)).
Proof.
  unfold gathered. rewrite len_app. pose proof (avccUnits_pos u us).
  pose proof (len_nonneg (if unitType u =? NALUTypeIFrame then ps else [])). lia.
Qed.

Lemma gathered_mono ps us vs : len (gathered ps us) <= len (gathered ps (us ++ vs)).
Proof.
  destruct us as [|u us]; [apply len_nonneg|]. rewrite gathered_app, len_app by done.
  pose proof (len_nonneg (avccUnits vs)). lia.
Qed.

Lemma NALUType_units u us : goodUnit u -> NALUType (avccUnits (u :: us)) = Some (unitType u).
Proof. intros H. rewrite avccUnits_cons. by apply unit_type. Qed.

Lemma trim_entry ps u us fuel : goodUnit u -> entry u ->
  trim (S fuel) ps (avccUnits (u :: us)) =
  Some (Kept (if unitType u =? NALUTypeIFrame then ps else []) (avccUnits (u :: us))).
Proof.
  intros Hg He. cbn [trim]. rewrite NALUType_units by done. cbn [mbind option_bind].
  by destruct He as [-> | [-> | [-> | ->]]].
Qed.

(** A last payload completes one unit. *)
Lemma receive_one p partial us :
  receive p partial = Some (us, None) -> Z.land (hd 0 p) 0x1F <> stapaNALUType -> exists n, us = [n].
Proof.
  intros E H. destruct p as [|b0 rest]; [done|]. cbn [hd] in H. unfold receive in E.
  rewrite (proj2 (Z.eqb_neq _ _) H) in E. destruct (Z.land b0 31 =? fuaNALUType).
  - destruct rest as [|b1 data]; [done|]. destruct (Z.testbit b0 7); [done|].
    destruct (Z.testbit b1 7), partial as [q|]; try done; [|destruct (hd 0 q =? _); [|done]];
      destruct (Z.testbit b1 6); simplify_eq; eauto.
  - destruct partial; [done|]. destruct (_ && _); simplify_eq; eauto.
Qed.

Lemma markedSmall_closing marker us buf :
  (marker = true -> exists n, us = [n] /\ goodUnit n /\ closing n) ->
  markedSmall marker (avccUnits us) buf = Some None.
Proof.
  intros H. unfold markedSmall. destruct marker; [|done].
  destruct (H eq_refl) as (n & -> & Hg & H1 & H2 & H3).
  destruct (_ <? _); [|done]. rewrite NALUType_units by done. cbn [andb mbind option_bind].
  by rewrite (proj2 (Z.eqb_neq _ _) H1), (proj2 (Z.eqb_neq _ _) H2), (proj2 (Z.eqb_neq _ _) H3).
Qed.

Section compose.
(** The library's depacketiser; [holds] says which unit its state is putting together.  Of
    the payloads of a sender that follows RFC 6184 it hands over the units they complete,
    each behind its length; nothing is supposed of others. *)
Context {D : Type} (Unmarshal : bytes -> D -> option bytes * D) (holds : D -> option bytes -> Prop).
Context (Hunmarshal : forall p d part us q, holds d part -> receive p part = Some (us, q) ->
  exists d', Unmarshal p d = (Some (avccUnits us), d') /\ holds d' q).
Context (ps : bytes).

(** One packet of an access unit, [got] being the units the packets before it held. *)
Lemma depay_step packet d part got us q :
  holds d part -> receive (rtpPayload packet) part = Some (us, q) -> Forall goodUnit (got ++ us) ->
  (forall u, hd_error (got ++ us) = Some u -> entry u) ->
  len (gathered ps (got ++ us)) <= maxBuffer ->
  (Marker packet = true -> (exists n, us = [n] /\ goodUnit n /\ closing n) /\
                           oversizedSPS (gathered ps (got ++ us)) = Some false) ->
  exists d', holds d' q /\
    RTPDepay Unmarshal ps packet (d, gathered ps got) =
    Some (if Marker packet
          then (Some (mkRTP RTPPacketVersionAVC true (SequenceNumber packet) (rtpTimestamp packet)
                        (gathered ps (got ++ us))), (d', []))
          else (None, (d', gathered ps (got ++ us)))).
Proof.
  intros Hp Hr Hg He Hl Hm. destruct (Hunmarshal _ _ _ _ _ Hp Hr) as (d' & Hd & Hq).
  exists d'. split; [done|]. unfold RTPDepay. cbn [fst snd]. rewrite Hd.
  destruct us as [|u us].
  { change (len (avccUnits []) =? 0) with true. cbv iota. rewrite app_nil_r.
    destruct (Marker packet); [|done]. by destruct (proj1 (Hm eq_refl)) as (n & ? & _). }
  rewrite (proj2 (Z.eqb_neq (len (avccUnits (u :: us))) 0)) by (pose proof (avccUnits_pos u us); lia).
  pose proof (gathered_mono ps got (u :: us)).
  rewrite (proj2 (Z.ltb_ge maxBuffer (len (gathered ps got)))) by lia. cbv zeta.
  rewrite markedSmall_closing by (intros E; apply (Hm E)). cbn [mbind option_bind].
  assert ((if len (gathered ps got) =? 0
           then trim (S (length (avccUnits (u :: us)))) ps (avccUnits (u :: us))
           else Some (Kept (gathered ps got) (avccUnits (u :: us)))) =
          Some (Kept (match got with [] => if unitType u =? NALUTypeIFrame then ps else [] | _ => gathered ps got end)
                  (avccUnits (u :: us)))) as ->.
  { destruct got as [|g got].
    - apply Forall_cons in Hg as [Hgu _]. apply trim_entry; [done|]. by apply He.
    - rewrite (proj2 (Z.eqb_neq (len (gathered ps (g :: got))) 0)); [done|]. pose proof (gathered_pos ps g got). lia. }
  assert (match got with [] => if unitType u =? NALUTypeIFrame then ps else [] | _ => gathered ps got end
          ++ avccUnits (u :: us) = gathered ps (got ++ u :: us)) as E.
  { destruct got; [done|]. by rewrite gathered_app. }
  cbn [mbind option_bind]. rewrite E. destruct (Marker packet); [|done].
  destruct (Hm eq_refl) as [_ Ho]. cbn [negb]. by rewrite Ho.
Qed.

Lemma depay_packets {Seq : Type} (next : Seq -> Z * Seq) ts payloads : forall q d part got us,
  payloads <> [] -> holds d part -> receiveAll payloads part = Some (us, None) -> closed payloads ->
  Forall goodUnit (got ++ us) -> (forall u, hd_error (got ++ us) = Some u -> entry u) ->
  (forall n, last us = Some n -> closing n) ->
  len (gathered ps (got ++ us)) <= maxBuffer -> oversizedSPS (gathered ps (got ++ us)) = Some false ->
  exists d' n, holds d' None /\ last (draws next (length payloads) q) = Some n /\
    depayAll Unmarshal ps (rtpPackets next ts payloads q).1 (d, gathered ps got) =
    Some ([mkRTP RTPPacketVersionAVC true n ts (gathered ps (got ++ us))], (d', [])).
Proof.
  induction payloads as [|p rest IH]; intros q d part got us Hne Hp Hr Hc Hg He Hl Hb Ho; [done|]. clear Hne.
  cbn [receiveAll] in Hr. destruct (receive p part) as [[us1 q1]|] eqn:E1; [|done].
  cbn [mbind option_bind] in Hr. destruct (receiveAll rest q1) as [[us2 q2]|] eqn:E2; [|done].
  cbn [mbind option_bind] in Hr. injection Hr as <- ->. rewrite app_assoc in *.
  cbn [rtpPackets length draws]. destruct (next q) as [n q'].
  set (packet := mkRTP 2 (bool_decide (rest = [])) n ts p).
  destruct (rtpPackets next ts rest q') as [ks q''] eqn:Ek. cbn [fst depayAll].
  destruct (depay_step packet d part got us1 q1 Hp) as (d1 & Hd1 & Hs).
  - exact E1.
  - by apply Forall_app in Hg as [? _].
  - intros u Hu. apply He. by destruct (got ++ us1).
  - pose proof (gathered_mono ps (got ++ us1) us2). lia.
  - cbn [Marker packet]. intros ->%bool_decide_eq_true. injection E2 as <- ->.
    rewrite app_nil_r in *. split; [|done].
    destruct (receive_one p part us1 E1) as [u ->]; [by apply Hc|]. exists u. split; [done|].
    split; [|by apply Hl]. apply Forall_app in Hg as [_ Hg]. by apply Forall_cons in Hg as [? _].
  - rewrite Hs. cbn [Marker packet]. destruct rest as [|p' rest].
    + injection Ek as <- <-. injection E2 as <- <-. cbn. rewrite app_nil_r.
      exists d1, n. split; [done|]. by split.
    + rewrite bool_decide_false by done. cbn [mbind option_bind].
      destruct (IH q' d1 q1 (got ++ us1) us2) as (d' & m & Hd' & Hm & Ha); try done.
      { intros u Hu. apply Hl. by rewrite last_app, Hu. }
      rewrite Ek in Ha. cbn [fst] in Ha. exists d', m. split; [done|].
      rewrite last_cons, Hm. split; [done|]. by rewrite Ha.
Qed.
End compose.

(** An access unit of parameter sets that fit one packet, then other units, is delivered whole. *)
Lemma delivered_rest mtu us : Forall (fun n => skipped n = false /\ isParams n = false) us ->
  delivered mtu us [] = (us, []).
Proof. intros H. induction H as [|n us [Hs Hp] _ IH]; [done|]. cbn [delivered]. by rewrite Hs, Hp, IH. Qed.

Lemma delivered_whole mtu sets : forall pending n rest,
  Forall (fun n => skipped n = false /\ isParams n = true) sets ->
  Forall (fun n => skipped n = false /\ isParams n = false) (n :: rest) ->
  aggregateFits mtu (pending ++ sets) = true ->
  delivered mtu (sets ++ n :: rest) pending = (pending ++ sets ++ n :: rest, []).
Proof.
  induction sets as [|s sets IH]; intros pending n rest Hs Hr Hf.
  - rewrite app_nil_r in Hf. apply Forall_cons in Hr as [[H1 H2] Hr]. cbn [app delivered].
    by rewrite H1, H2, (delivered_rest mtu rest), Hf.
  - apply Forall_cons in Hs as [[H1 H2] Hs]. cbn [app delivered]. rewrite H1, H2.
    change (s :: sets) with ([s] ++ sets) in Hf. rewrite app_assoc in Hf.
    rewrite IH by done. by rewrite <- app_assoc.
Qed.


(** A depacketiser that keeps only the data of a unit's fragments and makes its header from
    the last one. *)
Definition libraryUnmarshal (p : bytes) (d : option bytes) : option bytes * option bytes :=
  match p with
  | [] => (None, d)
  | b0 :: rest =>
      let t := Z.land b0 0x1F in
      if (1 <=? t) && (t <=? 23) then (Some (avccUnits [p]), d)
      else if t =? stapaNALUType then (avccUnits <$> aggregated (length rest) rest, d)
      else if t =? fuaNALUType then
        match rest with
        | [] => (None, d)
        | b1 :: data =>
            let data := default [] d ++ data in
            if Z.testbit b1 6 then (Some (avccUnits [Z.lor (Z.land b0 0x60) (Z.land b1 0x1F) :: data]), None)
            else (Some [], Some data)
        end
      else (None, d)
  end.
Definition libraryHolds (d part : option bytes) : Prop :=
  match part with None => d = None | Some u => u <> [] /\ d = Some (tail u) end.

Lemma land_ref b : Z.testbit b 7 = false -> Z.land b 0xE0 = Z.land b 0x60.
Proof.
  intros H. change 0xE0 with (Z.lor 0x60 (2 ^ 7)). rewrite Z.land_lor_distr_r.
  replace (Z.land b (2 ^ 7)) with 0; [apply Z.lor_0_r|]. symmetry. apply Z.bits_inj'. intros k Hk.
  rewrite Z.land_spec, Z.bits_0. destruct (decide (k = 7)) as [->|Hn]; [by rewrite H|].
  rewrite Z.pow2_bits_false by lia. apply andb_false_r.
Qed.

Lemma library_receives p d part us q : libraryHolds d part -> receive p part = Some (us, q) ->
  exists d', libraryUnmarshal p d = (Some (avccUnits us), d') /\ libraryHolds d' q.
Proof.
  intros Hd. unfold receive, libraryUnmarshal. destruct p as [|b0 rest]; [done|].
  set (t := Z.land b0 0x1F). destruct (Z.eqb_spec t fuaNALUType) as [Et|_].
  - rewrite Et. cbn [Z.leb Z.eqb Z.compare Pos.compare Pos.eqb andb]. destruct rest as [|b1 data]; [done|].
    destruct (Z.testbit b0 7) eqn:E7; [done|]. rewrite land_ref by done. set (header := Z.lor _ _).
    destruct (Z.testbit b1 7), part as [u|]; try done.
    + cbn in Hd. subst d. destruct (Z.testbit b1 6); intros [= <- <-]; (eexists; split; [reflexivity|]); [done|].
      by split.
    + destruct Hd as [Hu ->]. destruct u as [|h u]; [done|]. cbn [hd tail]. destruct (Z.eqb_spec h header) as [->|]; [|done].
      destruct (Z.testbit b1 6); intros [= <- <-]; (eexists; split; [reflexivity|]); [done|]. by split.
  - destruct part; [done|]. cbn in Hd. subst d. destruct (Z.eqb_spec t stapaNALUType) as [Et|_].
    + rewrite Et. cbn [Z.leb Z.eqb Z.compare Pos.compare Pos.eqb andb]. destruct (aggregated _ _) as [vs|]; [|done].
      intros [= <- <-]. by eexists.
    + destruct (_ && _); [|done]. intros [= <- <-]. by eexists.
Qed.


Lemma start_codes_repaired_witness :
  FixAnnexBInAVCC ([0; 0; 0; 30] ++ [0x67; 0x64; 0; 0x28] ++ longJoin [[0x68; 0xEE; 0x3C]; [0x65; 1; 2]]) =
  Some (avccUnits [[0x67; 0x64; 0; 0x28]; [0x68; 0xEE; 0x3C]; [0x65; 1; 2]]).
Proof.
  apply (start_codes_repaired [0; 0; 0; 30] [0x67; 0x64; 0; 0x28] [[0x68; 0xEE; 0x3C]; [0x65; 1; 2]]).
  - reflexivity.
  - repeat (constructor; [vm_compute; split; reflexivity|]). constructor.
Defined.
