(* ===== verification/Negotiate.v ===== *)
(** Codecs and media, and how a consumer's are matched with a producer's ([core/core.go],
    [core/codec.go], [core/media.go]).  A codec is known by its address; two codecs with the
    same fields are not the same codec. *)

From S2P Require Import Prelude Text.

Definition DirectionRecvonly : bytes := str "recvonly".
Definition DirectionSendonly : bytes := str "sendonly".
Definition KindVideo : bytes := str "video".
Definition KindAudio : bytes := str "audio".

Definition CodecH264 : bytes := str "H264".
Definition CodecH265 : bytes := str "H265".
Definition CodecVP8 : bytes := str "VP8".
Definition CodecVP9 : bytes := str "VP9".
Definition CodecAV1 : bytes := str "AV1".
Definition CodecJPEG : bytes := str "JPEG".
Definition CodecRAW : bytes := str "RAW".
Definition CodecPCMU : bytes := str "PCMU".
Definition CodecPCMA : bytes := str "PCMA".
Definition CodecAAC : bytes := str "MPEG4-GENERIC".
Definition CodecOpus : bytes := str "OPUS".
Definition CodecG722 : bytes := str "G722".
Definition CodecMP3 : bytes := str "MPA".
Definition CodecPCM : bytes := str "L16".
Definition CodecPCML : bytes := str "PCML".
Definition CodecELD : bytes := str "ELD".
Definition CodecFLAC : bytes := str "FLAC".
Definition CodecAll : bytes := str "ALL".
Definition CodecAny : bytes := str "ANY".
Definition PayloadTypeRAW : Z := 255.

Record Codec := mkCodec {
  address : nat;
  Name : bytes;
  ClockRate : Z;
  Channels : Z;
  FmtpLine : bytes;
  PayloadType : Z;
}.

Record Media := mkMedia {
  Kind : bytes;
  Direction : bytes;
  Codecs : list Codec;
}.

(** ** Codecs *)

Definition videoNames : list bytes :=
  [CodecH264; CodecH265; CodecVP8; CodecVP9; CodecAV1; CodecJPEG; CodecRAW].
Definition audioNames : list bytes :=
  [CodecPCMU; CodecPCMA; CodecAAC; CodecOpus; CodecG722; CodecMP3; CodecPCM; CodecPCML; CodecELD; CodecFLAC].

Definition GetKind (name : bytes) : bytes :=
  if decide (name ∈ videoNames) then KindVideo
  else if decide (name ∈ audioNames) then KindAudio else [].

Definition IsRTP (c : Codec) : bool := negb (PayloadType c =? PayloadTypeRAW).

Definition PrintName (c : Codec) : bytes :=
  if decide (Name c = CodecAAC) then str "AAC"
  else if decide (Name c = CodecPCM) then str "S16B"
  else if decide (Name c = CodecPCML) then str "S16L" else Name c.

(** [Codec.Match] *)
Definition Match (c remote : Codec) : bool :=
  bool_decide (Name remote = CodecAll \/ Name remote = CodecAny) ||
  (bool_decide (Name c = Name remote) &&
   ((ClockRate c =? ClockRate remote) || (ClockRate remote =? 0)) &&
   ((Channels c =? Channels remote) || (Channels remote =? 0))).

(** ** Media *)

(** The codecs in the order of the loops, the receiver's outside. *)
Definition MatchMedia (m remote : Media) : option (Codec * Codec) :=
  if negb (bool_decide (Kind m = Kind remote)) ||
     bool_decide (Direction m = DirectionSendonly) && negb (bool_decide (Direction remote = DirectionRecvonly)) ||
     bool_decide (Direction m = DirectionRecvonly) && negb (bool_decide (Direction remote = DirectionSendonly))
  then None
  else find (fun p => Match p.1 p.2) (list_prod (Codecs m) (Codecs remote)).

Definition MatchCodec (m : Media) (remote : Codec) : option Codec :=
  find (fun c => Match c remote) (Codecs m).

Definition MatchAll (m : Media) : bool := existsb (fun c => bool_decide (Name c = CodecAll)) (Codecs m).

(** ** The media of a request *)

Fixpoint split (sep : Z) (s : bytes) : list bytes :=
  match s with
  | [] => [[]]
  | c :: s =>
      if c =? sep then [] :: split sep s
      else match split sep s with w :: ws => (c :: w) :: ws | [] => [[c]] end
  end.

(** [strings.ToUpper] on ASCII text. *)
Definition upper (c : Z) : Z := if (97 <=? c) && (c <=? 122) then c - 32 else c.

Definition queryName (name : bytes) : bytes :=
  let name := map upper name in
  if decide (name = [] \/ name = str "COPY") then CodecAny
  else if decide (name = str "MJPEG") then CodecJPEG
  else if decide (name = str "AAC") then CodecAAC
  else if decide (name = str "MP3") then CodecMP3 else name.

(** The codecs asked for in one value; [next] is the first address not in use. *)
Definition queryCodecs (next : nat) (value : bytes) : list Codec :=
  imap (fun i name => mkCodec (next + i) (queryName name) 0 0 [] 0) (split 44 value).

Fixpoint queryValues (next : nat) (key : bytes) (values : list bytes) : list Media * nat :=
  match values with
  | [] => ([], next)
  | v :: vs =>
      let cs := queryCodecs next v in
      let '(ms, next) := queryValues (next + length cs) key vs in
      (mkMedia key DirectionSendonly cs :: ms, next)
  end.

(** [ParseQuery]; the entries in the order in which the walk over the map meets them. *)
Fixpoint ParseQuery (next : nat) (query : list (bytes * list bytes)) : list Media * nat :=
  match query with
  | [] => ([], next)
  | (key, values) :: query =>
      if decide (key = KindVideo \/ key = KindAudio) then
        let '(ms, next) := queryValues next key values in
        let '(rest, next) := ParseQuery next query in (ms ++ rest, next)
      else ParseQuery next query
  end.

Example query_mse : map (fun m => (Kind m, map Name (Codecs m)))
  (ParseQuery 0 [(str "src", [str "feeder"]); (str "video", [str "h264,mjpeg"]); (str "audio", [str "aac"; []])]).1 =
  [(KindVideo, [CodecH264; CodecJPEG]); (KindAudio, [CodecAAC]); (KindAudio, [CodecAny])].
Proof. vm_compute. reflexivity. Qed.

(** ** Matching *)

(** Media that may be connected: the same kind, and not both ends of one direction. *)
Definition connectable (m remote : Media) : Prop :=
  Kind m = Kind remote /\
  (Direction m = DirectionSendonly -> Direction remote = DirectionRecvonly) /\
  (Direction m = DirectionRecvonly -> Direction remote = DirectionSendonly).

Lemma MatchMedia_eq m remote : connectable m remote ->
  MatchMedia m remote = find (fun p => Match p.1 p.2) (list_prod (Codecs m) (Codecs remote)).
Proof.
  intros (Hk & Hs & Hr). unfold MatchMedia. rewrite bool_decide_true by done. cbn [negb orb].
  rewrite (bool_decide_decide (Direction m = _)), (bool_decide_decide (Direction m = _)).
  destruct (decide (Direction m = DirectionSendonly)) as [E|]; [rewrite (bool_decide_true _ (Hs E))|];
    cbn [andb negb orb]; destruct (decide (Direction m = DirectionRecvonly)) as [E'|];
    try rewrite (bool_decide_true _ (Hr E')); done.
Qed.

Lemma find_app {A} (f : A -> bool) l k : find f (l ++ k) = match find f l with Some x => Some x | None => find f k end.
Proof. induction l as [|x l IH]; [done|]. cbn. by destruct (f x). Qed.

Lemma find_split {A} (f : A -> bool) l :
  match find f l with
  | Some x => exists pre post, l = pre ++ x :: post /\ f x = true /\ Forall (fun y => f y = false) pre
  | None => Forall (fun y => f y = false) l
  end.
Proof.
  induction l as [|x l IH]; [constructor|]. cbn. destruct (f x) eqn:E.
  - exists [], l. split; [done|]. by split; [|constructor].
  - destruct (find f l); [|by constructor]. destruct IH as (pre & post & -> & Hx & Hp).
    exists (x :: pre), post. split; [done|]. split; [done|]. by constructor.
Qed.

Lemma find_map {A B} (f : B -> bool) (g : A -> B) l : find f (map g l) = g <$> find (fun x => f (g x)) l.
Proof. induction l as [|x l IH]; [done|]. cbn. by destruct (f (g x)). Qed.

(** Two media of the same kind and opposite directions are matched on the producer's first
    codec that has a match, and on the consumer's first codec that matches it; no match is
    found only where there is none. *)
Theorem MatchMedia_first (m remote : Media) (H : connectable m remote) :
  match MatchMedia m remote with
  | Some (c, r) =>
      exists cs cs' rs rs', Codecs m = cs ++ c :: cs' /\ Codecs remote = rs ++ r :: rs' /\
        Match c r = true /\ Forall (fun r' => Match c r' = false) rs /\
        Forall (fun c' => Forall (fun r' => Match c' r' = false) (Codecs remote)) cs
  | None => Forall (fun c' => Forall (fun r' => Match c' r' = false) (Codecs remote)) (Codecs m)
  end.
Proof.
  rewrite MatchMedia_eq by done. generalize (Codecs remote) as rs. clear H. intros rs.
  induction (Codecs m) as [|c cs IH]; [constructor|]. cbn [list_prod]. rewrite find_app, find_map.
  pose proof (find_split (fun r => Match c r) rs) as Hc. cbn [fst snd] in *.
  destruct (find (fun r => Match c r) rs) as [r|].
  - destruct Hc as (pre & post & -> & Hx & Hp). cbn. exists [], cs, pre, post.
    split; [done|]. split; [done|]. split; [done|]. split; [done|constructor].
  - cbn. destruct (find _ (list_prod cs rs)) as [[c' r']|].
    + destruct IH as (ds & ds' & ts & ts' & -> & -> & Hm & Ht & Hd).
      exists (c :: ds), ds', ts, ts'. split; [done|]. split; [done|]. split; [done|]. split; [done|].
      by constructor.
    + by constructor.
Qed.
