(* ===== verification/Tracks.v ===== *)
(** Receivers and senders ([core/node.go], [core/track.go]): the tracks of a producer, the
    consumers' senders hanging off them, and the packets passing from one to the other.  A
    receiver's list of children is a Go slice, kept here with the array behind it, because
    the code removes a child by moving the others inside that array while loops over an
    earlier copy of the slice may be running. *)

From S2P Require Import Prelude Text Producer Negotiate.

(** ** Slices of nodes

    An array: the cells written so far, which are never set back to nil, and how many
    more it has room for. *)
Record block := mkBlock { cells : list nat; room : nat }.
Record slice := mkSlice { array : nat; size : nat }.

(** A sender: its buffered channel, [open] while [buf] is not nil; the goroutine of
    [Start] and whether it has returned; what its handler got. *)
Record Sender := mkSender {
  bufSize : Z;
  queue : list rtpPacket;
  open : bool;
  started : bool;
  finished : bool;
  SBytes : Z;
  SPackets : Z;
  Drops : Z;
  handled : list rtpPacket;
  offered : list rtpPacket;   (* every packet given to Input *)
}.
#[export] Instance eta_sender : Eta Sender := fun s =>
  mkSender (bufSize s) (queue s) (open s) (started s) (finished s) (SBytes s) (SPackets s)
    (Drops s) (handled s) (offered s).

Inductive role := IsReceiver (bytes packets : Z) | IsSender (s : Sender).

Record Node := mkNode { codec : Codec; childs : option slice; parent : option nat; kind : role }.
#[export] Instance eta_node : Eta Node := fun n => mkNode (codec n) (childs n) (parent n) (kind n).

(** All nodes and arrays, and the deliveries under way: for a receiver, the packet, the
    copy of the slice the loop runs over, and its index. *)
Record store := mkStore {
  nodes : gmap nat Node;
  arrays : gmap nat block;
  writing : gmap nat (rtpPacket * option slice * nat);
}.
#[export] Instance eta_store : Eta store := fun s => mkStore (nodes s) (arrays s) (writing s).

Definition slice_len (s : option slice) : nat := match s with Some s => size s | None => 0 end.

Definition cells_of (s : store) (l : slice) : list nat :=
  match arrays s !! array l with Some b => cells b | None => [] end.

(** The pointer at index [i] of a slice; [None] is out of range or nil. *)
Definition slice_at (s : store) (l : option slice) (i : nat) : option nat :=
  match l with
  | Some l => if decide (i < size l)%nat then cells_of s l !! i else None
  | None => None
  end.

(** The elements of a slice. *)
Definition elements (s : store) (l : option slice) : list nat :=
  match l with Some l => take (size l) (cells_of s l) | None => [] end.

Definition children (s : store) (n : nat) : list nat :=
  match nodes s !! n with Some n => elements s (childs n) | None => [] end.

Section growth.
(** The spare capacity [append] gives a new array. *)
Context (spare : nat -> nat).

(** [append(l, x)] : in place when the array has room, else into a new array. *)
Definition append (s : store) (l : option slice) (x : nat) : store * option slice :=
  let n := slice_len l in
  let grow :=
    let a := fresh (dom (arrays s)) in
    (s <| arrays := <[a := mkBlock (elements s l ++ [x]) (spare n)]> (arrays s) |>, Some (mkSlice a (S n))) in
  match l with
  | Some l =>
      match arrays s !! array l with
      | Some b =>
          if decide (n < length (cells b))%nat then
            (s <| arrays := <[array l := mkBlock (<[n := x]> (cells b)) (room b)]> (arrays s) |>,
             Some (mkSlice (array l) (S n)))
          else if decide (0 < room b)%nat then
            (s <| arrays := <[array l := mkBlock (cells b ++ [x]) (room b - 1)]> (arrays s) |>,
             Some (mkSlice (array l) (S n)))
          else grow
      | None => grow
      end
  | None => grow
  end.

Definition AppendChild (p c : nat) (s : store) : option store :=
  n ← nodes s !! p;
  let '(s, l) := append s (childs n) c in
  let s := s <| nodes := <[p := n <| childs := l |>]> (nodes s) |> in
  m ← nodes s !! c;
  Some (s <| nodes := <[c := m <| parent := Some p |>]> (nodes s) |>).
End growth.

(** [append(l[:i], l[i+1:]...)] : the array keeps a second copy of the last pointer. *)
Definition shift_out (i n : nat) (cells : list nat) : list nat :=
  take i cells ++ take (n - i - 1) (drop (S i) cells) ++ drop (n - 1) cells.

Definition RemoveChild (p c : nat) (s : store) : option store :=
  n ← nodes s !! p;
  match childs n with
  | None => Some s
  | Some l =>
      match arrays s !! array l with
      | None => Some s
      | Some b =>
          match list_find (fun x => x = c) (take (size l) (cells b)) with
          | None => Some s
          | Some (i, _) =>
              Some (s <| arrays := <[array l := mkBlock (shift_out i (size l) (cells b)) (room b)]> (arrays s) |>
                      <| nodes := <[p := n <| childs := Some (mkSlice (array l) (size l - 1)) |>]> (nodes s) |>)
          end
      end
  end.

(** A loop over the copy [l] of a slice: its length is fixed, its cells are read when
    their turn comes.  [None] is a nil pointer. *)
Fixpoint range (body : nat -> store -> option store) (l : option slice) (k i : nat) (s : store) : option store :=
  match k with
  | O => Some s
  | S k =>
      match slice_at s l i with
      | Some c => s ← body c s; range body l k (S i) s
      | None => None
      end
  end.

(** [Node.Close] *)
Fixpoint CloseNode (fuel n : nat) (s : store) : option store :=
  match fuel with
  | O => None
  | S fuel =>
      node ← nodes s !! n;
      match parent node with
      | Some p =>
          s ← RemoveChild p n s;
          m ← nodes s !! p;
          if (slice_len (childs m) =? 0)%nat then CloseNode fuel p s else Some s
      | None => range (CloseNode fuel) (childs node) (slice_len (childs node)) 0 s
      end
  end.

(** A receiver has no parent and a sender no children, so closing goes from a receiver
    to its senders and back to the receiver, no further. *)
Definition closeDepth : nat := 3.

Definition ReceiverClose (r : nat) (s : store) : option store := CloseNode closeDepth r s.

Definition setSender (n : nat) (f : Sender -> Sender) (s : store) : option store :=
  node ← nodes s !! n;
  match kind node with
  | IsSender d => Some (s <| nodes := <[n := node <| kind := IsSender (f d) |>]> (nodes s) |>)
  | IsReceiver _ _ => None
  end.

(** [Sender.Close]: the channel under the sender's lock, then the node. *)
Definition SenderShut (n : nat) (s : store) : option store := setSender n (fun d => d <| open := false |>) s.
Definition SenderClose (n : nat) (s : store) : option store := s ← SenderShut n s; CloseNode closeDepth n s.

Definition setParent (p : nat) (s : store) (c : nat) : store :=
  match nodes s !! c with
  | Some m => s <| nodes := <[c := m <| parent := Some p |>]> (nodes s) |>
  | None => s
  end.

Definition MoveNode (dst src : nat) (s : store) : option store :=
  n ← nodes s !! src;
  let l := childs n in
  let s := s <| nodes := <[src := n <| childs := None |>]> (nodes s) |> in
  d ← nodes s !! dst;
  let s := s <| nodes := <[dst := d <| childs := l |>]> (nodes s) |> in
  Some (foldl (setParent dst) s (elements s l)).

(** ** Packets *)

Definition NewReceiver (c : Codec) (s : store) : store * nat :=
  let n := fresh (dom (nodes s)) in
  (s <| nodes := <[n := mkNode c None None (IsReceiver 0 0)]> (nodes s) |>, n).

Definition senderBuffer (c : Codec) : Z :=
  if decide (GetKind (Name c) = KindVideo) then (if IsRTP c then 4096 else 64) else 128.

Definition newSender (c : Codec) : Sender := mkSender (senderBuffer c) [] true false false 0 0 0 [] [].

Definition NewSender (c : Codec) (s : store) : store * nat :=
  let n := fresh (dom (nodes s)) in
  (s <| nodes := <[n := mkNode c None None (IsSender (newSender c))]> (nodes s) |>, n).

(** The sender's [Input]: a send on a full channel or a nil one falls through to the drop. *)
Definition SenderInput (p : rtpPacket) (d : Sender) : Sender :=
  (if open d && (len (queue d) <? bufSize d)
   then d <| queue := queue d ++ [p] |> <| SBytes := SBytes d + len (rtpPayload p) |>
          <| SPackets := SPackets d + 1 |>
   else d <| Drops := Drops d + 1 |>) <| offered := offered d ++ [p] |>.

Definition SenderStart (d : Sender) : Sender :=
  if open d && negb (started d) then d <| started := true |> else d.

(** The goroutine of [Start]: the next packet to the handler, or the end of the loop. *)
Definition SenderLoop (d : Sender) : option Sender :=
  if negb (started d) || finished d then None else
  match queue d with
  | p :: q => Some (d <| queue := q |> <| handled := handled d ++ [p] |>)
  | [] => if open d then None else Some (d <| finished := true |>)
  end.

(** The receiver's [Input], up to its loop over the children. *)
Definition WriteRTP (r : nat) (p : rtpPacket) (s : store) : option store :=
  node ← nodes s !! r;
  match kind node, writing s !! r with
  | IsReceiver b k, None =>
      Some (s <| nodes := <[r := node <| kind := IsReceiver (b + len (rtpPayload p)) (k + 1) |>]> (nodes s) |>
              <| writing := <[r := (p, childs node, 0%nat)]> (writing s) |>)
  | _, _ => None
  end.

(** One turn of that loop. *)
Definition WriteNext (r : nat) (s : store) : option store :=
  '(p, l, i) ← writing s !! r;
  if decide (i < slice_len l)%nat then
    match slice_at s l i with
    | Some c =>
        s ← setSender c (SenderInput p) s;
        Some (s <| writing := <[r := (p, l, S i)]> (writing s) |>)
    | None => None
    end
  else Some (s <| writing := delete r (writing s) |>).

(** ** What goroutines do with tracks *)

Inductive action :=
| ANewReceiver (c : Codec)
| ANewSender (c : Codec)
| AHandleRTP (sender receiver : nat)
| AStart (sender : nat)
| AWrite (receiver : nat) (p : rtpPacket)
| AWriteNext (receiver : nat)
| ALoop (sender : nat)
| ASenderShut (sender : nat)
| AClose (node : nat)
| AReplace (receiver target : nat).

Section growth2.
Context (spare : nat -> nat).

Definition HandleRTP (d r : nat) (s : store) : option store :=
  s ← AppendChild spare r d s; setSender d SenderStart s.

Definition act (a : action) (s : store) : option store :=
  match a with
  | ANewReceiver c => Some (NewReceiver c s).1
  | ANewSender c => Some (NewSender c s).1
  | AHandleRTP d r => HandleRTP d r s
  | AStart d => setSender d SenderStart s
  | AWrite r p => WriteRTP r p s
  | AWriteNext r => WriteNext r s
  | ALoop d =>
      node ← nodes s !! d;
      match kind node with
      | IsSender x => y ← SenderLoop x; setSender d (fun _ => y) s
      | IsReceiver _ _ => None
      end
  | ASenderShut d => SenderShut d s
  | AClose n => CloseNode closeDepth n s
  | AReplace r t => MoveNode t r s
  end.

Fixpoint acts (l : list action) (s : store) : option store :=
  match l with [] => Some s | a :: l => s ← act a s; acts l s end.
End growth2.

Definition emptyStore : store := mkStore ∅ ∅ ∅.

(** The packets offered to a sender, and handled by it. *)
Definition offeredTo (s : store) (n : nat) : list rtpPacket :=
  match nodes s !! n with Some (mkNode _ _ _ (IsSender d)) => offered d | _ => [] end.

Definition demoCodec : Codec := mkCodec 0 CodecH264 90000 0 [] PayloadTypeRAW.
Definition demoPacket (k : Z) : rtpPacket := mkRTP 0 false k 0 [0; 0; 0; 1; 0x65].
(** A receiver 0 with the senders 1, 2 and 3. *)
Definition demoTrack : list action :=
  [ANewReceiver demoCodec; ANewSender demoCodec; ANewSender demoCodec; ANewSender demoCodec;
   AHandleRTP 1 0; AHandleRTP 2 0; AHandleRTP 3 0].

Example demo_children : (fun s => children s 0%nat) <$> acts (fun _ => 0%nat) demoTrack emptyStore = Some [1; 2; 3]%nat.
Proof. vm_compute. reflexivity. Qed.
Example demo_close : (fun s => children s 0%nat) <$> acts (fun n => n) (demoTrack ++ [AClose 0]) emptyStore = Some [2]%nat.
Proof. vm_compute. reflexivity. Qed.
Example demo_skip : (fun s => map (fun n => map SequenceNumber (offeredTo s n)) [1; 2; 3]%nat) <$>
  acts (fun n => n) (demoTrack ++ [AWrite 0 (demoPacket 7); AWriteNext 0; ASenderShut 1; AClose 1; AWriteNext 0; AWriteNext 0; AWriteNext 0]) emptyStore
  = Some [[7]; []; [7; 7]].
Proof. vm_compute. reflexivity. Qed.
