(* ===== verification/TracksFacts.v ===== *)
(** What holds of the tracks: the tree of receivers and senders stays well-formed, every
    packet a receiver gets is offered to each of its children, no sender loses a packet
    without counting it; and what closing does to a receiver's children. *)

From S2P Require Import Prelude Text Producer Negotiate Tracks.

(** ** The tree *)

Definition isSender (s : store) (c : nat) : Prop := exists n d, nodes s !! c = Some n /\ kind n = IsSender d.
Definition isReceiver (s : store) (c : nat) : Prop := exists n x y, nodes s !! c = Some n /\ kind n = IsReceiver x y.
Definition parentOf (s : store) (c : nat) : option nat := nodes s !! c ≫= parent.

Definition good_slice (s : store) (l : option slice) : Prop :=
  forall l', l = Some l' -> exists b, arrays s !! array l' = Some b /\ (size l' <= length (cells b))%nat.

(** Slices lie within their arrays, every node has an array of its own, and a node is in
    the list of its parent only. *)
Record wf (s : store) : Prop := {
  wf_slice : forall n x, nodes s !! n = Some x -> good_slice s (childs x);
  wf_writing : forall r p l i, writing s !! r = Some (p, l, i) -> good_slice s l;
  wf_own : forall n m x y l k, nodes s !! n = Some x -> nodes s !! m = Some y ->
    childs x = Some l -> childs y = Some k -> array l = array k -> n = m;
  wf_cells : forall a b c, arrays s !! a = Some b -> c ∈ cells b -> isSender s c;
  wf_child : forall p c, c ∈ children s p -> parentOf s c = Some p;
  wf_nodup : forall p, NoDup (children s p);
  wf_receiver : forall n x, nodes s !! n = Some x -> (exists b k, kind x = IsReceiver b k) -> parent x = None;
  wf_sender : forall n x d, nodes s !! n = Some x -> kind x = IsSender d -> childs x = None;
  wf_parent : forall c p, parentOf s c = Some p -> isReceiver s p;
}.

Lemma wf_empty : wf emptyStore.
Proof.
  split; unfold emptyStore, good_slice, parentOf, children; cbn; intros;
    repeat match goal with H : ∅ !! _ = Some _ |- _ => by apply lookup_empty_Some in H end.
  - by rewrite lookup_empty in *; apply elem_of_nil in H.
  - rewrite lookup_empty. constructor.
  - by rewrite lookup_empty in H.
Qed.

Lemma elements_other s l a b : array l <> a ->
  elements (s <| arrays := <[a := b]> (arrays s) |>) (Some l) = elements s (Some l).
Proof. intros H. unfold elements, cells_of. cbn. by rewrite lookup_insert_ne. Qed.

Lemma isSender_not s c : isSender s c -> isReceiver s c -> False.
Proof. intros (n & d & E & K) (m & x & y & E' & K'). congruence. Qed.

(** A new array and slice for node [p]. *)
Definition relist (p : nat) (n : Node) (a : nat) (b : block) (k : nat) (s : store) : store :=
  s <| arrays := <[a := b]> (arrays s) |>
    <| nodes := <[p := n <| childs := Some (mkSlice a k) |>]> (nodes s) |>.

Definition owned_by (s : store) (a p : nat) : Prop :=
  forall m x l, nodes s !! m = Some x -> childs x = Some l -> array l = a -> m = p.

Lemma children_relist s p n a b k q : nodes s !! p = Some n -> owned_by s a p ->
  children (relist p n a b k s) q = if decide (q = p) then take k (cells b) else children s q.
Proof.
  intros Hp Ho. unfold children, relist. cbn. destruct (decide (q = p)) as [->|Hq].
  - rewrite lookup_insert_eq. unfold elements, cells_of. cbn. by rewrite lookup_insert_eq.
  - rewrite lookup_insert_ne by done. destruct (nodes s !! q) as [x|] eqn:E; [|done].
    destruct (childs x) as [l|] eqn:Ex; [|done]. unfold elements, cells_of. cbn.
    rewrite lookup_insert_ne; [done|]. intros ->. by apply Hq, (Ho q x l).
Qed.

Lemma nodes_relist s p n a b k c : nodes s !! p = Some n -> 
  exists f, nodes (relist p n a b k s) !! c = f <$> nodes s !! c /\ (forall x, kind (f x) = kind x /\ parent (f x) = parent x).
Proof.
  intros Hp. unfold relist. cbn. destruct (decide (c = p)) as [->|Hc].
  - rewrite lookup_insert_eq, Hp. exists (fun x => x <| childs := Some (mkSlice a k) |>). by split.
  - rewrite lookup_insert_ne by done. exists id. split; [by destruct (nodes s !! c)|done].
Qed.

Lemma parentOf_relist s p n a b k c : nodes s !! p = Some n -> parentOf (relist p n a b k s) c = parentOf s c.
Proof.
  intros Hp. unfold parentOf. destruct (nodes_relist s p n a b k c Hp) as (f & -> & Hf).
  destruct (nodes s !! c); [|done]. cbn. apply Hf.
Qed.

Lemma isSender_relist s p n a b k c : nodes s !! p = Some n -> isSender s c <-> isSender (relist p n a b k s) c.
Proof.
  intros Hp. unfold isSender. destruct (nodes_relist s p n a b k c Hp) as (f & -> & Hf). split.
  - intros (x & d & E & K). exists (f x), d. rewrite E. split; [done|]. by rewrite (proj1 (Hf x)).
  - intros (x & d & E & K). destruct (nodes s !! c) as [y|]; [|done]. injection E as <-.
    exists y, d. split; [done|]. by rewrite <- (proj1 (Hf y)).
Qed.

Lemma isReceiver_relist s p n a b k c : nodes s !! p = Some n -> isReceiver s c -> isReceiver (relist p n a b k s) c.
Proof.
  intros Hp (x & u & v & E & K). destruct (nodes_relist s p n a b k c Hp) as (f & E' & Hf).
  exists (f x), u, v. rewrite E', E. split; [done|]. by rewrite (proj1 (Hf x)).
Qed.

Lemma good_relist s p n a b k l : good_slice s l ->
  (forall b0, arrays s !! a = Some b0 -> (length (cells b0) <= length (cells b))%nat) ->
  good_slice (relist p n a b k s) l.
Proof.
  intros H Hb l' ->. destruct (H l' eq_refl) as (b0 & E & Hs). unfold relist. cbn.
  destruct (decide (array l' = a)) as [Ea|Ea].
  - rewrite Ea, lookup_insert_eq. exists b. split; [done|]. rewrite Ea in E. specialize (Hb b0 E). lia.
  - rewrite lookup_insert_ne by done. by exists b0.
Qed.

Lemma wf_relist s p n a b k : wf s -> nodes s !! p = Some n -> isReceiver s p -> owned_by s a p ->
  Forall (isSender s) (cells b) -> (k <= length (cells b))%nat ->
  (forall b0, arrays s !! a = Some b0 -> (length (cells b0) <= length (cells b))%nat) ->
  NoDup (take k (cells b)) -> (forall c, c ∈ take k (cells b) -> parentOf s c = Some p) ->
  wf (relist p n a b k s).
Proof.
  intros W Hp Hr Ho Hc Hk Hb Hn Hpar.
  assert (forall q x, nodes (relist p n a b k s) !! q = Some x ->
    (q = p /\ x = n <| childs := Some (mkSlice a k) |>) \/ (q <> p /\ nodes s !! q = Some x)) as Hq.
  { intros q x. unfold relist. cbn. destruct (decide (q = p)) as [->|Hq].
    - rewrite lookup_insert_eq. intros [= <-]. by left.
    - rewrite lookup_insert_ne by done. by right. }
  split.
  - intros q x E. destruct (Hq q x E) as [[-> ->]|[_ E']].
    + intros l' [= <-]. unfold relist. cbn. rewrite lookup_insert_eq. by exists b.
    + apply good_relist; [|done]. by apply (wf_slice s W q).
  - intros r pk l i E. apply good_relist; [|done]. by apply (wf_writing s W r pk l i).
  - intros q m x y l l' E1 E2 C1 C2 Ea.
    destruct (Hq q x E1) as [[-> ->]|[_ E1']], (Hq m y E2) as [[-> ->]|[_ E2']]; [done|..].
    + injection C1 as <-. symmetry. by apply (Ho m y l').
    + injection C2 as <-. by apply (Ho q x l).
    + by apply (wf_own s W q m x y l l').
  - intros a' b' c. unfold relist at 1. cbn. destruct (decide (a' = a)) as [->|Ha].
    + rewrite lookup_insert_eq. intros [= <-] Hin. rewrite Forall_forall in Hc.
      by apply isSender_relist, Hc.
    + rewrite lookup_insert_ne by done. intros E Hin. apply isSender_relist; [done|]. by apply (wf_cells s W a' b').
  - intros q c. rewrite children_relist, parentOf_relist by done. case_decide as D; [subst q; apply Hpar|apply (wf_child s W)].
  - intros q. rewrite children_relist by done. case_decide as D; [done|apply (wf_nodup s W)].
  - intros q x E K. destruct (Hq q x E) as [[-> ->]|[_ E']].
    + cbn in *. by apply (wf_receiver s W p).
    + by apply (wf_receiver s W q).
  - intros q x d E K. destruct (Hq q x E) as [[-> ->]|[_ E']].
    + exfalso. apply (isSender_not s p); [|done]. by exists n, d.
    + by apply (wf_sender s W q x d).
  - intros c q. rewrite parentOf_relist by done. intros E. apply isReceiver_relist; [done|].
    by apply (wf_parent s W c).
Qed.

(** ** Attaching a sender *)

Definition withParent (p c : nat) (m : Node) (s : store) : store :=
  s <| nodes := <[c := m <| parent := Some p |>]> (nodes s) |>.

Lemma children_withParent s p c m q : nodes s !! c = Some m -> children (withParent p c m s) q = children s q.
Proof.
  intros Hc. unfold children, withParent. cbn. destruct (decide (q = c)) as [->|Hq].
  - by rewrite lookup_insert_eq, Hc.
  - by rewrite lookup_insert_ne.
Qed.

Lemma nodes_withParent s p c m q x : nodes (withParent p c m s) !! q = Some x ->
  (q = c /\ x = m <| parent := Some p |>) \/ (q <> c /\ nodes s !! q = Some x).
Proof.
  unfold withParent. cbn. destruct (decide (q = c)) as [->|Hq].
  - rewrite lookup_insert_eq. intros [= <-]. by left.
  - rewrite lookup_insert_ne by done. by right.
Qed.

Lemma kinds_withParent s p c m q x : nodes s !! c = Some m -> nodes s !! q = Some x ->
  exists y, nodes (withParent p c m s) !! q = Some y /\ kind y = kind x /\ childs y = childs x.
Proof.
  intros Hc Hq. unfold withParent. cbn. destruct (decide (q = c)) as [->|Hn].
  - rewrite lookup_insert_eq. eexists. split; [done|]. by replace x with m by congruence.
  - rewrite lookup_insert_ne by done. by exists x.
Qed.

Lemma isSender_withParent s p c m q : nodes s !! c = Some m -> isSender s q -> isSender (withParent p c m s) q.
Proof.
  intros Hc (x & d & E & K). destruct (kinds_withParent s p c m q x Hc E) as (y & Hy & Ky & _).
  exists y, d. by rewrite Ky.
Qed.

Lemma isReceiver_withParent s p c m q : nodes s !! c = Some m -> isReceiver s q -> isReceiver (withParent p c m s) q.
Proof.
  intros Hc (x & u & v & E & K). destruct (kinds_withParent s p c m q x Hc E) as (y & Hy & Ky & _).
  exists y, u, v. by rewrite Ky.
Qed.

(** A sender that is in no list may get any parent. *)
Lemma wf_withParent s p c m : wf s -> nodes s !! c = Some m -> isSender s c -> isReceiver s p ->
  (forall q, c ∈ children s q -> q = p) -> wf (withParent p c m s).
Proof.
  intros W Hc Hs Hr Hin.
  assert (childs m = None) as Hm.
  { destruct Hs as (x & d & E & K). assert (x = m) as -> by congruence. by apply (wf_sender s W c m d). }
  split.
  - intros q x E. destruct (nodes_withParent s p c m q x E) as [[-> ->]|[_ E']].
    + cbn. rewrite Hm. done.
    + by apply (wf_slice s W q).
  - apply (wf_writing s W).
  - intros q r x y l k E1 E2 C1 C2 Ea.
    destruct (nodes_withParent s p c m q x E1) as [[-> ->]|[_ E1']]; [cbn in C1; congruence|].
    destruct (nodes_withParent s p c m r y E2) as [[-> ->]|[_ E2']]; [cbn in C2; congruence|].
    by apply (wf_own s W q r x y l k).
  - intros a b d E Hd. apply isSender_withParent; [done|]. by apply (wf_cells s W a b).
  - intros q d. rewrite children_withParent by done. intros Hd.
    unfold parentOf, withParent. cbn. destruct (decide (d = c)) as [->|Hdc].
    + rewrite lookup_insert_eq. cbn. by rewrite (Hin q Hd).
    + rewrite lookup_insert_ne by done. by apply (wf_child s W).
  - intros q. rewrite children_withParent by done. apply (wf_nodup s W).
  - intros q x E K. destruct (nodes_withParent s p c m q x E) as [[-> ->]|[_ E']].
    + exfalso. apply (isSender_not s c); [done|]. destruct K as (u & v & K). by exists m, u, v.
    + by apply (wf_receiver s W q).
  - intros q x d E K. destruct (nodes_withParent s p c m q x E) as [[-> ->]|[_ E']].
    + done.
    + by apply (wf_sender s W q x d).
  - intros d q. unfold parentOf at 1, withParent at 1. cbn. intros E.
    apply isReceiver_withParent; [done|]. destruct (decide (d = c)) as [->|Hd].
    + rewrite lookup_insert_eq in E. cbn in E. by injection E as <-.
    + rewrite lookup_insert_ne in E by done. by apply (wf_parent s W d).
Qed.

(** Where [append] puts the new list. *)
Lemma append_spec spare s p n c :
  wf s -> nodes s !! p = Some n -> isSender s c -> c ∉ children s p ->
  exists a b k, append spare s (childs n) c = (s <| arrays := <[a := b]> (arrays s) |>, Some (mkSlice a k)) /\
    owned_by s a p /\ Forall (isSender s) (cells b) /\ (k <= length (cells b))%nat /\
    (forall b0, arrays s !! a = Some b0 -> (length (cells b0) <= length (cells b))%nat) /\
    take k (cells b) = children s p ++ [c].
Proof.
  intros W Hp Hc Hin. unfold children in *. rewrite Hp in *.
  assert (forall m x l, nodes s !! m = Some x -> childs x = Some l -> array l <> fresh (dom (arrays s))) as Hfresh.
  { intros m x l E C Ea. destruct (wf_slice s W m x E l C) as (b & Eb & _). rewrite Ea in Eb.
    apply elem_of_dom_2 in Eb. by apply is_fresh in Eb. }
  assert (Forall (isSender s) (elements s (childs n))) as Hel.
  { apply Forall_forall. intros x Hx. destruct (childs n) as [l|] eqn:El; [|by apply elem_of_nil in Hx].
    unfold elements, cells_of in Hx. destruct (arrays s !! array l) as [b|] eqn:Eb; [|by rewrite take_nil in Hx; apply elem_of_nil in Hx].
    apply elem_of_take in Hx as (i & Hx & _). apply list_elem_of_lookup_2 in Hx. by apply (wf_cells s W (array l) b). }
  assert (forall k, k = S (length (elements s (childs n))) -> exists a b k', 
    (s <| arrays := <[fresh (dom (arrays s)) := mkBlock (elements s (childs n) ++ [c]) (spare (slice_len (childs n)))]> (arrays s) |>,
     Some (mkSlice (fresh (dom (arrays s))) k)) = (s <| arrays := <[a := b]> (arrays s) |>, Some (mkSlice a k')) /\
    owned_by s a p /\ Forall (isSender s) (cells b) /\ (k' <= length (cells b))%nat /\
    (forall b0, arrays s !! a = Some b0 -> (length (cells b0) <= length (cells b))%nat) /\
    take k' (cells b) = elements s (childs n) ++ [c]) as Hgrow.
  { intros k ->. eexists _, _, _. split; [reflexivity|]. cbn [cells].
    split; [intros m x l E C Ea; by destruct (Hfresh m x l E C)|].
    split; [apply Forall_app; by split; [|constructor]|]. rewrite length_app. cbn [length].
    split; [lia|]. split.
    - intros b0 E. apply elem_of_dom_2 in E. by apply is_fresh in E.
    - rewrite take_ge; [done|]. rewrite length_app. cbn. lia. }
  unfold append. destruct (childs n) as [l|] eqn:El; cbn [slice_len].
  2: { apply Hgrow. reflexivity. }
  destruct (wf_slice s W p n Hp l El) as (b & Eb & Hs). rewrite Eb.
  assert (owned_by s (array l) p) as Ho.
  { intros m x l' E C Ea. by apply (wf_own s W m p x n l' l). }
  assert (Forall (isSender s) (cells b)) as Hall.
  { apply Forall_forall. intros x Hx. by apply (wf_cells s W (array l) b). }
  assert (elements s (Some l) = take (size l) (cells b)) as He by (unfold elements, cells_of; by rewrite Eb).
  assert (length (elements s (Some l)) = size l) as Hle by (rewrite He, length_take; lia).
  case_decide as D1; [|case_decide as D2].
  - eexists _, _, _. split; [reflexivity|]. cbn [cells]. split; [done|].
    split; [apply Forall_insert; done|]. rewrite length_insert. split; [lia|].
    split; [intros b0 E; rewrite Eb in E; injection E as <-; lia|].
    rewrite He. rewrite (take_S_r _ _ c); [|by apply list_lookup_insert_eq]. by rewrite take_insert_ge.
  - eexists _, _, _. split; [reflexivity|]. cbn [cells]. split; [done|].
    split; [apply Forall_app; by split; [|constructor]|]. rewrite length_app. cbn [length]. split; [lia|].
    split; [intros b0 E; rewrite Eb in E; injection E as <-; lia|].
    rewrite He, !take_ge; [done|lia|rewrite length_app; cbn; lia].
  - apply Hgrow. by rewrite Hle.
Qed.

(** Attaching adds to the end of one list, and sets one parent. *)
Definition attached (p c : nat) (s s' : store) : Prop :=
  children s' p = children s p ++ [c] /\ (forall q, q <> p -> children s' q = children s q) /\
  parentOf s' c = Some p /\ (forall d, d <> c -> parentOf s' d = parentOf s d) /\
  (forall d x, nodes s !! d = Some x -> exists y, nodes s' !! d = Some y /\ kind y = kind x /\ codec y = codec x) /\
  writing s' = writing s /\ (forall d, nodes s !! d = None -> nodes s' !! d = None).

Lemma AppendChild_spec spare p c s : wf s -> isReceiver s p -> isSender s c -> parentOf s c = None ->
  exists s', AppendChild spare p c s = Some s' /\ wf s' /\ attached p c s s'.
Proof.
  intros W Hr Hc Hpar. pose proof Hr as (n & u & v & Hp & Kp). pose proof Hc as (m & d & Hm & Km).
  assert (p <> c) as Hpc. { intros ->. by apply (isSender_not s c). }
  assert (forall q, c ∉ children s q) as Hin. { intros q Hq. apply (wf_child s W) in Hq. congruence. }
  destruct (append_spec spare s p n c W Hp Hc (Hin p)) as (a & b & k & Ha & Ho & Hcs & Hk & Hb & He).
  assert (AppendChild spare p c s = Some (relist p n a b k (withParent p c m s))) as E.
  { unfold AppendChild. rewrite Hp. cbn [mbind option_bind]. rewrite Ha. cbn.
    rewrite lookup_insert_ne, Hm by done. cbn. unfold relist, withParent. cbn.
    f_equal. unfold upd. by rewrite insert_insert_ne. }
  set (s1 := withParent p c m s) in *.
  assert (nodes s1 !! p = Some n) as Hp1 by (unfold s1, withParent; cbn; by rewrite lookup_insert_ne).
  assert (wf s1) as W1. { apply wf_withParent; try done. intros q Hq. by destruct (Hin q). }
  assert (owned_by s1 a p) as Ho1.
  { intros q x l Eq Cq. destruct (nodes_withParent s p c m q x Eq) as [[-> ->]|[_ E']]; [|by apply (Ho q x l)].
    cbn in Cq. rewrite (wf_sender s W c m d Hm Km) in Cq. done. }
  assert (parentOf s1 c = Some p) as Hpc1 by (unfold parentOf, s1, withParent; cbn; by rewrite lookup_insert_eq).
  assert (forall q, q <> c -> parentOf s1 q = parentOf s q) as Hps1.
  { intros q Hq. unfold parentOf, s1, withParent. cbn. by rewrite lookup_insert_ne. }
  exists (relist p n a b k s1). split; [done|]. split.
  - apply wf_relist; try done.
    + by apply isReceiver_withParent.
    + eapply Forall_impl; [exact Hcs|]. intros x. by apply isSender_withParent.
    + rewrite He. apply NoDup_app. split; [apply (wf_nodup s W)|]. split.
      * intros x Hx ->%list_elem_of_singleton. by apply (Hin p).
      * apply NoDup_singleton.
    + intros x. rewrite He, elem_of_app. intros [Hx| ->%list_elem_of_singleton]; [|done].
      rewrite Hps1 by (intros ->; by apply (Hin p)). by apply (wf_child s W).
  - split; [|split; [|split; [|split; [|split]]]].
    + rewrite children_relist by done. by rewrite decide_True.
    + intros q Hq. rewrite children_relist by done. rewrite decide_False by done. by apply children_withParent.
    + by rewrite parentOf_relist.
    + intros q Hq. rewrite parentOf_relist by done. by apply Hps1.
    + intros q x Hx. destruct (nodes_relist s1 p n a b k q Hp1) as (f & Ef & Hf).
      unfold relist, s1, withParent. cbn. destruct (decide (q = p)) as [->|Hqp].
      { rewrite lookup_insert_eq. eexists. split; [done|]. by replace x with n by congruence. }
      rewrite lookup_insert_ne by done. destruct (decide (q = c)) as [->|Hqc].
      { rewrite lookup_insert_eq. eexists. split; [done|]. by replace x with m by congruence. }
      rewrite lookup_insert_ne by done. by exists x.
    + split; [done|]. intros q Hq. unfold relist, s1, withParent. cbn. by rewrite !lookup_insert_ne by congruence.
Qed.

(** ** Detaching *)

Lemma length_shift_out i n l : (i < n <= length l)%nat -> length (shift_out i n l) = length l.
Proof. intros H. unfold shift_out. rewrite !length_app, !length_take, !length_drop. lia. Qed.

Lemma elem_of_shift_out i n l x : x ∈ shift_out i n l -> x ∈ l.
Proof.
  unfold shift_out. rewrite !elem_of_app. intros [H|[H|H]].
  - by apply elem_of_take in H as (j & H & _); apply list_elem_of_lookup_2 in H.
  - apply elem_of_take in H as (j & H & _). rewrite lookup_drop in H. by apply list_elem_of_lookup_2 in H.
  - apply list_elem_of_lookup in H as [j H]. rewrite lookup_drop in H. by apply list_elem_of_lookup_2 in H.
Qed.

(** In the list itself, the one child is gone. *)
Lemma take_shift_out i n l : (i < n <= length l)%nat ->
  take (n - 1) (shift_out i n l) = delete i (take n l).
Proof.
  intros H. unfold shift_out. rewrite delete_take_drop, take_take, Nat.min_l by lia.
  rewrite app_assoc, take_app_le; [|rewrite length_app, !length_take, length_drop; lia].
  rewrite take_ge; [|rewrite length_app, !length_take, length_drop; lia].
  f_equal. rewrite skipn_firstn_comm. f_equal. lia.
Qed.

Definition without (c : nat) (l : list nat) : list nat := filter (fun x => x <> c) l.

Lemma without_absent c l : c ∉ l -> without c l = l.
Proof.
  intros H. unfold without. induction l as [|x l IH]; [done|]. apply not_elem_of_cons in H as [H1 H2].
  rewrite filter_cons_True by (intros ->; by apply H1). by rewrite (IH H2).
Qed.

Lemma without_delete c l i : NoDup l -> l !! i = Some c -> delete i l = without c l.
Proof.
  revert i. induction l as [|x l IH]; intros i Hn Hi; [done|]. apply NoDup_cons in Hn as [Hx Hn].
  destruct i as [|i].
  - injection Hi as ->. unfold without. rewrite filter_cons_False by (intros H; by destruct H).
    change (delete 0%nat (c :: l)) with l. symmetry. exact (without_absent c l Hx).
  - cbn in Hi. unfold without. rewrite filter_cons_True.
    + change (delete (S i) (x :: l)) with (x :: delete i l). f_equal. exact (IH i Hn Hi).
    + intros ->. apply Hx. by apply list_elem_of_lookup_2 in Hi.
Qed.

Lemma without_in c l x : x ∈ without c l <-> x <> c /\ x ∈ l.
Proof. unfold without. by rewrite list_elem_of_filter. Qed.

(** What a change of lists leaves alone. *)
Record relinked (s s' : store) : Prop := {
  rl_parent : forall c, parentOf s' c = parentOf s c;
  rl_nodes : forall c x, nodes s !! c = Some x ->
    exists y, nodes s' !! c = Some y /\ kind y = kind x /\ codec y = codec x /\ parent y = parent x;
  rl_writing : writing s' = writing s;
  rl_dom : forall c, nodes s !! c = None -> nodes s' !! c = None;
}.

Lemma relinked_refl s : relinked s s.
Proof. split; [done| |done|done]. intros c x E. by exists x. Qed.

Lemma relinked_trans s t u : relinked s t -> relinked t u -> relinked s u.
Proof.
  intros [P1 N1 W1 D1] [P2 N2 W2 D2]. split; [intros c; by rewrite P2| |by rewrite W2|auto].
  intros c x E. destruct (N1 c x E) as (y & E1 & K1 & C1 & Q1). destruct (N2 c y E1) as (z & E2 & K2 & C2 & Q2).
  exists z. split; [done|]. by rewrite K2, C2, Q2.
Qed.

Lemma RemoveChild_spec p c s n : wf s -> nodes s !! p = Some n ->
  exists s', RemoveChild p c s = Some s' /\ wf s' /\ relinked s s' /\
    (forall q, children s' q = if decide (q = p) then without c (children s q) else children s q) /\
    match childs n with Some l => arrays s' !! array l = (fun b => mkBlock
        (match list_find (fun x => x = c) (take (size l) (cells b)) with
         | Some (i, _) => shift_out i (size l) (cells b) | None => cells b end) (room b)) <$> arrays s !! array l
    | None => s' = s end.
Proof.
  intros W Hp. unfold RemoveChild. rewrite Hp. cbn [mbind option_bind].
  assert (c ∉ children s p -> forall q, children s q = if decide (q = p) then without c (children s q) else children s q) as Habs.
  { intros Hc q. case_decide as D; [|done]. subst q. by rewrite without_absent. }
  assert (children s p = elements s (childs n)) as Hch by (unfold children; by rewrite Hp).
  destruct (childs n) as [l|] eqn:El.
  2: { exists s. split; [done|]. split; [done|]. split; [apply relinked_refl|]. split; [|done].
       apply Habs. rewrite Hch. apply not_elem_of_nil. }
  destruct (wf_slice s W p n Hp l El) as (b & Eb & Hs). rewrite Eb.
  unfold elements, cells_of in Hch. rewrite Eb in Hch.
  destruct (list_find (fun x => x = c) (take (size l) (cells b))) as [[i x]|] eqn:Ef.
  2: { exists s. split; [done|]. split; [done|]. split; [apply relinked_refl|]. split.
       - apply Habs. rewrite Hch. intros Hin. apply list_find_None in Ef. rewrite Forall_forall in Ef. by apply (Ef c).
       - rewrite Eb. cbn. rewrite Ef. by destruct b. }
  apply list_find_Some in Ef as Ef'. destruct Ef' as (Hi & -> & _).
  assert (i < size l)%nat as Hil.
  { apply lookup_lt_Some in Hi. rewrite length_take in Hi. lia. }
  set (b' := mkBlock (shift_out i (size l) (cells b)) (room b)).
  assert (owned_by s (array l) p) as Ho by (intros m y k E C Ea; by apply (wf_own s W m p y n k l)).
  assert (take (size l - 1) (cells b') = without c (children s p)) as Ht.
  { cbn [cells b']. rewrite take_shift_out by lia. rewrite Hch. apply without_delete; [|done].
    rewrite <- Hch. apply (wf_nodup s W). }
  exists (relist p n (array l) b' (size l - 1) s). split; [done|]. split; [|split; [|split]].
  - apply wf_relist; try done.
    + assert (isSender s c) as Hsc.
      { apply (wf_cells s W (array l) b); [done|]. apply list_elem_of_lookup_2 in Hi.
        by apply elem_of_take in Hi as (j & Hj & _); apply list_elem_of_lookup_2 in Hj. }
      apply (wf_parent s W c). apply (wf_child s W). rewrite Hch. by apply list_elem_of_lookup_2 in Hi.
    + apply Forall_forall. intros x Hx. apply (wf_cells s W (array l) b); [done|]. by apply elem_of_shift_out in Hx.
    + cbn [cells b']. rewrite length_shift_out; lia.
    + intros b0 E0. rewrite Eb in E0. injection E0 as <-. cbn [cells b']. rewrite length_shift_out; lia.
    + rewrite Ht. apply NoDup_filter, (wf_nodup s W).
    + intros x. rewrite Ht, without_in. intros [_ Hx]. by apply (wf_child s W).
  - split; [intros d; by apply parentOf_relist| |done|].
    2: { intros d Ed. unfold relist. cbn. by rewrite lookup_insert_ne by congruence. }
    intros d x Ex. unfold relist. cbn. destruct (decide (d = p)) as [->|Hd].
    + rewrite lookup_insert_eq. eexists. split; [done|]. by replace x with n by congruence.
    + rewrite lookup_insert_ne by done. by exists x.
  - intros q. rewrite children_relist by done. case_decide as D; [subst q; done|done].
  - cbn. rewrite lookup_insert_eq. by rewrite Ef.
Qed.

(** ** Closing *)

Lemma slice_len_children s p n : wf s -> nodes s !! p = Some n -> slice_len (childs n) = length (children s p).
Proof.
  intros W Hp. unfold children. rewrite Hp. destruct (childs n) as [l|] eqn:El; [|done].
  destruct (wf_slice s W p n Hp l El) as (b & Eb & Hs). unfold elements, cells_of. rewrite Eb, length_take. cbn. lia.
Qed.

Lemma isReceiver_relinked s s' p : relinked s s' -> isReceiver s p -> isReceiver s' p.
Proof.
  intros R (x & u & v & E & K). destruct (rl_nodes _ _ R p x E) as (y & Ey & Ky & _). exists y, u, v. by rewrite Ky.
Qed.

(** Closing a node that has a parent takes it out of the parent's list; closing the parent
    behind its last child changes nothing. *)
Lemma CloseNode_child f s c p : wf s -> parentOf s c = Some p ->
  exists s', RemoveChild p c s = Some s' /\ CloseNode (S (S f)) c s = Some s'.
Proof.
  intros W Hpar. pose proof (wf_parent s W c p Hpar) as Hr. pose proof Hr as (n & u & v & Hp & Kp).
  destruct (RemoveChild_spec p c s n W Hp) as (s' & E & W' & R & _). exists s'. split; [done|].
  unfold parentOf in Hpar. destruct (nodes s !! c) as [m|] eqn:Hm; [|done].
  cbn [CloseNode]. rewrite Hm. cbn [mbind option_bind] in *. rewrite Hpar, E. cbn [mbind option_bind].
  destruct (rl_nodes _ _ R p n Hp) as (n' & Hp' & Kn & _ & Pn). rewrite Hp'. cbn [mbind option_bind].
  destruct (slice_len (childs n') =? 0)%nat eqn:El; [|done]. apply Nat.eqb_eq in El.
  rewrite (wf_receiver s' W' p n' Hp') by (exists u, v; by rewrite Kn). by rewrite El.
Qed.

(** What a loop that removes the element it is at leaves of a list: the positions it jumps
    over, the last one excepted. *)
Fixpoint survivors (l : list nat) : list nat :=
  match l with
  | _ :: b :: ((_ :: _) as rest) => b :: survivors rest
  | _ => []
  end.

Section close_receiver.
Context (r a : nat).

(** The receiver's list is the first [n] cells of its array. *)
Definition listed (s : store) (n : nat) (cs : list nat) : Prop :=
  exists x b, nodes s !! r = Some x /\ childs x = Some (mkSlice a n) /\ arrays s !! a = Some b /\ cells b = cs.

Lemma close_at s n cs c : wf s -> listed s n cs -> parentOf s c = Some r ->
  exists s', CloseNode 2 c s = Some s' /\ wf s' /\ relinked s s' /\
    (forall q, q <> r -> children s' q = children s q) /\
    match list_find (fun x => x = c) (take n cs) with
    | Some (i, _) => listed s' (n - 1) (shift_out i n cs)
    | None => s' = s
    end.
Proof.
  intros W (x & b & Hr & Hl & Hb & <-) Hpar.
  destruct (CloseNode_child 0 s c r W Hpar) as (s' & E & Ec).
  destruct (RemoveChild_spec r c s x W Hr) as (s1 & E1 & W1 & R1 & C1 & _).
  assert (s1 = s') as -> by congruence. exists s'. split; [done|]. split; [done|]. split; [done|].
  split. { intros q Hq. rewrite C1. by rewrite decide_False. }
  unfold RemoveChild in E. rewrite Hr in E. cbn [mbind option_bind] in E. rewrite Hl in E.
  cbn [array size] in E. rewrite Hb in E.
  destruct (list_find (fun x => x = c) (take n (cells b))) as [[i y]|] eqn:Ef; [|by injection E as <-].
  injection E as <-. eexists _, _. cbn. rewrite !lookup_insert_eq. done.
Qed.

Lemma find_in (pre rest : list nat) (x : nat) : x ∉ pre -> list_find (fun y => y = x) (pre ++ x :: rest) = Some (length pre, x).
Proof.
  intros H. induction pre as [|y pre IH]; cbn.
  - by rewrite decide_True.
  - apply not_elem_of_cons in H as [H1 H2]. rewrite decide_False by congruence.
    change (list_find (λ y0, y0 = x) (pre ++ x :: rest)) with (list_find (fun y => y = x) (pre ++ x :: rest)).
    by rewrite (IH H2).
Qed.

Lemma find_out (x : nat) (l : list nat) : x ∉ l -> list_find (fun y => y = x) l = None.
Proof. intros H. apply list_find_None. apply Forall_forall. intros y Hy ->. done. Qed.

Context (k : nat).

(** Once every reading is the copy of a child that is gone, nothing changes. *)
Lemma range_done z : forall m i s cs pre,
  wf s -> listed s (length pre) cs -> parentOf s z = Some r -> (i + m = k)%nat -> z ∉ pre ->
  take (length pre) cs = pre -> (forall j, (i <= j < k)%nat -> cs !! j = Some z) ->
  range (CloseNode 2) (Some (mkSlice a k)) m i s = Some s.
Proof.
  induction m as [|m IH]; intros i s cs pre W L Hz Hk Hn Ht Hc; [done|]. cbn [range].
  pose proof L as (x & b & Hr & Hl & Hb & Hcs).
  unfold slice_at. cbn [size]. rewrite decide_True by lia. unfold cells_of. cbn [array]. rewrite Hb, Hcs.
  rewrite Hc by lia. destruct (close_at s _ cs z W L Hz) as (s' & -> & _ & _ & _ & H).
  rewrite Ht, find_out in H by done. subst s'. cbn [mbind option_bind].
  apply (IH (S i) s cs pre); try done; [lia|]. intros j Hj. apply Hc. lia.
Qed.

Lemma shift_front (pre : list nat) x t z tail : last (x :: t) = Some z ->
  shift_out (length pre) (S (length pre + length t)) (pre ++ x :: t ++ tail) = pre ++ t ++ z :: tail.
Proof.
  intros Hz. unfold shift_out. rewrite take_app_length. f_equal.
  replace (S (length pre + length t) - length pre - 1)%nat with (length t) by lia.
  replace (S (length pre)) with (length pre + 1)%nat by lia. rewrite <- drop_drop, drop_app_length.
  change (drop 1 (x :: t ++ tail)) with (t ++ tail). rewrite take_app_length. f_equal.
  replace (S (length pre + length t) - 1)%nat with (length pre + length t)%nat by lia.
  rewrite <- drop_drop, drop_app_length. apply last_Some in Hz as [u Hu].
  change (x :: t ++ tail) with ((x :: t) ++ tail). assert (length t = length u) as ->.
  { apply (f_equal length) in Hu. rewrite length_app in Hu. cbn in Hu. lia. }
  by rewrite Hu, <- app_assoc, drop_app_length.
Qed.

(** The list ends as [keep]. *)
Definition ends (s s' : store) (keep : list nat) : Prop :=
  wf s' /\ relinked s s' /\ (forall q, q <> r -> children s' q = children s q) /\
  exists cs, listed s' (length keep) cs /\ take (length keep) cs = keep.

(** A turn that removes the first element not yet jumped over. *)
Lemma range_turn (pre : list nat) x t z tail s :
  wf s -> listed s (S (length pre + length t)) (pre ++ x :: t ++ tail) -> x ∉ pre ->
  last (x :: t) = Some z -> parentOf s x = Some r ->
  exists s1, wf s1 /\ relinked s s1 /\ (forall q, q <> r -> children s1 q = children s q) /\
    listed s1 (length pre + length t) (pre ++ t ++ z :: tail) /\
    forall i m, (i < k)%nat -> (pre ++ x :: t ++ tail) !! i = Some x ->
      range (CloseNode 2) (Some (mkSlice a k)) (S m) i s = range (CloseNode 2) (Some (mkSlice a k)) m (S i) s1.
Proof.
  intros W L Hx Hz Hp. destruct (close_at s _ _ x W L Hp) as (s1 & E & W1 & R1 & C1 & H).
  assert (take (S (length pre + length t)) (pre ++ x :: t ++ tail) = pre ++ x :: t) as Ht.
  { change (x :: t ++ tail) with ((x :: t) ++ tail). rewrite app_assoc. apply take_app_length'.
    rewrite length_app. cbn. lia. }
  rewrite Ht, find_in, (shift_front pre x t z tail Hz) in H by done.
  exists s1. split; [done|]. split; [done|]. split; [done|]. split.
  { by replace (length pre + length t)%nat with (S (length pre + length t) - 1)%nat by lia. }
  intros i m Hi Hat. cbn [range]. destruct L as (y & b & Hr & Hl & Hb & Hcs).
  unfold slice_at. cbn [size]. rewrite decide_True by lia. unfold cells_of. cbn [array].
  rewrite Hb, Hcs, Hat. cbv iota beta. by rewrite E.
Qed.

Lemma relinked_parents s s' (l : list nat) p : relinked s s' ->
  (forall c, c ∈ l -> parentOf s c = Some p) -> forall c, c ∈ l -> parentOf s' c = Some p.
Proof. intros R H c Hc. rewrite (rl_parent _ _ R). by apply H. Qed.

Lemma ends_trans s s1 s' keep : wf s1 -> relinked s s1 -> (forall q, q <> r -> children s1 q = children s q) ->
  ends s1 s' keep -> ends s s' keep.
Proof.
  intros W1 R1 C1 (W & R & C & H). split; [done|]. split; [by apply (relinked_trans s s1)|]. split; [|done].
  intros q Hq. by rewrite C, C1.
Qed.

(** After the last element, copies of it. *)
Lemma range_copies pre m i tail s z : wf s -> listed s (length pre) (pre ++ tail) ->
  parentOf s z = Some r -> z ∉ pre -> (i + m = k)%nat ->
  (forall j, (i <= j < k)%nat -> (pre ++ tail) !! j = Some z) ->
  exists s', range (CloseNode 2) (Some (mkSlice a k)) m i s = Some s' /\ ends s s' pre.
Proof.
  intros W L Hp Hn Hk Hc. exists s. split.
  - apply (range_done z m i s (pre ++ tail) pre); try done. apply take_app_length.
  - split; [done|]. split; [apply relinked_refl|]. split; [done|]. exists (pre ++ tail). split; [done|apply take_app_length].
Qed.

Lemma range_close : forall n rest pre j junk s z, (length rest <= n)%nat ->
  wf s -> listed s (length pre + length rest) (pre ++ rest ++ replicate j z ++ junk) ->
  NoDup (pre ++ rest) -> (forall c, c ∈ pre ++ rest -> parentOf s c = Some r) ->
  last rest = Some z -> (length pre + length rest + j = k)%nat ->
  exists s', range (CloseNode 2) (Some (mkSlice a k)) (length rest + j) (length pre) s = Some s' /\
    ends s s' (pre ++ survivors rest).
Proof.
  induction n as [|n IH]; intros rest pre j junk s z Hn W L Hd Hp Hz Hk.
  { by destruct rest; [|cbn in Hn; lia]. }
  destruct rest as [|x t]; [done|]. cbn [length] in *.
  apply NoDup_app in Hd as Hd'. destruct Hd' as (Hd1 & Hd2 & Hd3).
  assert (forall c, c ∈ x :: t -> c ∉ pre /\ parentOf s c = Some r) as Hrest.
  { intros c Hc. split; [intros H; by apply (Hd2 c H)|]. apply Hp. rewrite elem_of_app. by right. }
  destruct (Hrest x ltac:(by left)) as [Hx Hpx].
  assert (z ∈ x :: t) as Hzin by (apply last_Some in Hz as [u ->]; rewrite elem_of_app; right; by left).
  destruct (Hrest z Hzin) as [Hzp Hpz].
  destruct (range_turn pre x t z (replicate j z ++ junk) s W) as (s1 & W1 & R1 & C1 & L1 & E1);
    try done; [by rewrite Nat.add_succ_r in L|].
  rewrite Nat.add_succ_l, E1 by (lia || by rewrite lookup_app_r, Nat.sub_diag by lia).
  rewrite <- (rl_parent _ _ R1) in Hpz.
  assert (forall i, (i < S j)%nat -> (z :: replicate j z ++ junk) !! i = Some z) as Hdup.
  { intros i Hi. change (z :: replicate j z ++ junk) with (replicate (S j) z ++ junk).
    rewrite lookup_app_l by (rewrite length_replicate; lia). by apply lookup_replicate_2. }
  destruct t as [|y [|v w]].
  - rewrite app_nil_r. cbn [length app] in *. rewrite Nat.add_0_r in L1.
    destruct (range_copies pre j (S (length pre)) (z :: replicate j z ++ junk) s1 z) as (s' & E & H);
      try done; [lia| |exists s'; split; [done|by apply (ends_trans s s1)]].
    intros i Hi. rewrite lookup_app_r by lia. apply Hdup. lia.
  - injection Hz as ->. rewrite app_nil_r. cbn [length app] in *.
    destruct (range_turn pre z [] z (z :: replicate j z ++ junk) s1 W1) as (s2 & W2 & R2 & C2 & L2 & E2);
      try done; [by rewrite Nat.add_0_r; rewrite Nat.add_comm in L1|].
    cbn [app length] in *. rewrite Nat.add_succ_l, Nat.add_0_l, E2.
    2: lia.
    2: { rewrite lookup_app_r by lia. by replace (S (length pre) - length pre)%nat with 1%nat by lia. }
    rewrite Nat.add_0_r in L2.
    destruct (range_copies pre j (S (S (length pre))) (z :: z :: replicate j z ++ junk) s2 z) as (s' & E & H); try done.
    + by rewrite (rl_parent _ _ R2).
    + lia.
    + intros i Hi. rewrite lookup_app_r by lia.
      change (z :: z :: replicate j z ++ junk) with (replicate (S (S j)) z ++ junk).
      rewrite lookup_app_l by (rewrite length_replicate; lia). apply lookup_replicate_2. lia.
    + exists s'. split; [done|]. apply (ends_trans s s1); try done. by apply (ends_trans s1 s2).
  - destruct (IH (v :: w) (pre ++ [y]) (S j) junk s1 z) as (s' & E & H); try done.
    + cbn [length] in *. lia.
    + rewrite length_app. cbn [length app] in *. rewrite <- app_assoc. cbn [app].
      by replace (length pre + 1 + S (length w))%nat with (length pre + S (S (length w)))%nat by lia.
    + rewrite <- app_assoc. cbn [app]. apply NoDup_app. split; [done|]. apply NoDup_cons in Hd3 as [_ Hd3].
      split; [|done]. intros c Hc Hc'. apply (Hd2 c Hc). by right.
    + apply (relinked_parents s); [done|]. intros c. rewrite <- app_assoc. cbn [app]. intros Hc. apply Hp.
      rewrite !elem_of_app, !elem_of_cons in *. tauto.
    + rewrite length_app. cbn [length] in *. lia.
    + exists s'. rewrite length_app in E. cbn [length] in *.
      replace (S (S (length w)) + j)%nat with (S (length w) + S j)%nat by lia.
      replace (S (length pre)) with (length pre + 1)%nat by lia. split; [done|].
      apply (ends_trans s s1); try done. rewrite <- app_assoc in H. exact H.
Qed.
End close_receiver.

Lemma listed_children r a s n cs : listed r a s n cs -> children s r = take n cs.
Proof.
  intros (x & b & Hr & Hl & Hb & <-). unfold children. rewrite Hr, Hl. unfold elements, cells_of. cbn. by rewrite Hb.
Qed.

Lemma ReceiverClose_spec s r : wf s -> isReceiver s r ->
  exists s', ReceiverClose r s = Some s' /\ wf s' /\ relinked s s' /\
    children s' r = survivors (children s r) /\ (forall q, q <> r -> children s' q = children s q).
Proof.
  intros W (n & u & v & Hr & Kn). unfold ReceiverClose, closeDepth. cbn [CloseNode]. rewrite Hr.
  cbn [mbind option_bind]. rewrite (wf_receiver s W r n Hr) by (by exists u, v).
  rewrite (slice_len_children s r n W Hr).
  destruct (decide (children s r = [])) as [E|E].
  { rewrite E. cbn [length range]. exists s. split; [done|]. split; [done|]. split; [apply relinked_refl|]. by rewrite E. }
  destruct (childs n) as [[a k]|] eqn:El.
  2: { exfalso. apply E. unfold children. by rewrite Hr, El. }
  destruct (wf_slice s W r n Hr _ El) as (b & Eb & Hs). cbn [array size] in *.
  assert (listed r a s k (cells b)) as L by (exists n, b; by rewrite El).
  pose proof (listed_children r a s k (cells b) L) as Hc.
  destruct (last (children s r)) as [z|] eqn:Ez; [|by apply last_None in Ez].
  assert (length (children s r) = k) as Hk by (rewrite Hc, length_take; lia).
  destruct (range_close r a k (length (children s r)) (children s r) [] 0 (drop k (cells b)) s z)
    as (s' & Er & W' & R' & C' & cs & L' & Ht); try done.
  - cbn [app length replicate]. rewrite Hc at 2. by rewrite take_drop, Hk.
  - apply (wf_nodup s W).
  - intros c. apply (wf_child s W).
  - cbn. lia.
  - rewrite Nat.add_0_r in Er. exists s'. split; [exact Er|]. split; [done|]. split; [done|].
    split; [|done]. by rewrite (listed_children r a s' _ cs L').
Qed.

(** Closing a sender takes it out of its parent's list, and nothing else out of any list. *)
Lemma ChildClose_spec s c p : wf s -> parentOf s c = Some p ->
  exists s', CloseNode closeDepth c s = Some s' /\ wf s' /\ relinked s s' /\
    (forall q, children s' q = if decide (q = p) then without c (children s q) else children s q).
Proof.
  intros W Hp. destruct (CloseNode_child 1 s c p W Hp) as (s' & E1 & E2). exists s'. split; [exact E2|].
  destruct (wf_parent s W c p Hp) as (n & u & v & Hn & _).
  destruct (RemoveChild_spec p c s n W Hn) as (s1 & E & W1 & R1 & C1 & _). by replace s' with s1 by congruence.
Qed.

(** ** Moving children *)

Lemma setParents_spec dst l : forall s,
  let s' := foldl (setParent dst) s l in
  arrays s' = arrays s /\ writing s' = writing s /\
  (forall c x, nodes s !! c = Some x -> nodes s' !! c = Some (if decide (c ∈ l) then x <| parent := Some dst |> else x)) /\
  (forall c, nodes s !! c = None -> nodes s' !! c = None).
Proof.
  induction l as [|d l IH]; intros s; cbn [foldl].
  { split; [done|]. split; [done|]. split; [|done]. intros c x E. by rewrite decide_False by apply not_elem_of_nil. }
  destruct (IH (setParent dst s d)) as (A & Wr & N & M). unfold setParent in *.
  destruct (nodes s !! d) as [m|] eqn:Hd; cbn in *.
  - split; [done|]. split; [done|]. split.
    + intros c x E. destruct (decide (c = d)) as [->|Hcd].
      * rewrite (decide_True (P := d ∈ d :: l)) by (by left). rewrite Hd in E. injection E as <-.
        rewrite (N d (m <| parent := Some dst |>)) by (by rewrite lookup_insert_eq). by case_decide.
      * rewrite (N c x) by (by rewrite lookup_insert_ne). f_equal.
        destruct (decide (c ∈ l)) as [Hl|Hl].
        -- by rewrite decide_True by (by right).
        -- rewrite decide_False; [done|]. rewrite elem_of_cons. by intros [|].
    + intros c E. apply M. rewrite lookup_insert_ne; [done|]. congruence.
  - split; [done|]. split; [done|]. split; [|done]. intros c x E. rewrite (N c x E). f_equal.
    destruct (decide (c ∈ l)) as [Hl|Hl].
    + by rewrite decide_True by (by right).
    + rewrite decide_False; [done|]. rewrite elem_of_cons. intros [->|]; [congruence|done].
Qed.

(** How a move changes a node. *)
Definition moved (dst src : nat) (l : option slice) (cs : list nat) (c : nat) (x : Node) : Node :=
  let x := if decide (c = dst) then x <| childs := l |> else if decide (c = src) then x <| childs := None |> else x in
  if decide (c ∈ cs) then x <| parent := Some dst |> else x.

Lemma kind_moved dst src l cs c x : kind (moved dst src l cs c x) = kind x /\ codec (moved dst src l cs c x) = codec x.
Proof. unfold moved. repeat case_decide; done. Qed.

Lemma MoveNode_eq s dst src n d : nodes s !! src = Some n -> nodes s !! dst = Some d -> dst <> src ->
  exists s', MoveNode dst src s = Some s' /\ arrays s' = arrays s /\ writing s' = writing s /\
    (forall c, nodes s' !! c = moved dst src (childs n) (children s src) c <$> nodes s !! c).
Proof.
  intros Hn Hd Hne. unfold MoveNode. rewrite Hn. cbn [mbind option_bind].
  cbn. rewrite lookup_insert_ne by done. rewrite Hd. cbn [mbind option_bind].
  match goal with |- exists s', Some (foldl _ ?t ?l) = _ /\ _ =>
    set (s2 := t); change l with (elements s2 (childs n)) end.
  assert (elements s2 (childs n) = children s src) as El by (unfold children; by rewrite Hn).
  rewrite El. destruct (setParents_spec dst (children s src) s2) as (A & Wr & N & M). eexists. split; [reflexivity|]. split; [exact A|]. split; [exact Wr|].
  intros c. destruct (nodes s !! c) as [x|] eqn:E; cbn.
  - unfold moved. assert (nodes s2 !! c = Some (if decide (c = dst) then x <| childs := childs n |>
      else if decide (c = src) then x <| childs := None |> else x)) as E2.
    { unfold s2. cbn. destruct (decide (c = dst)) as [->|Hcd].
      - rewrite lookup_insert_eq. by replace x with d by congruence.
      - rewrite lookup_insert_ne by done. destruct (decide (c = src)) as [->|Hcs].
        + rewrite lookup_insert_eq. by replace x with n by congruence.
        + by rewrite lookup_insert_ne. }
    by apply N.
  - apply M. unfold s2. cbn. rewrite !lookup_insert_ne by congruence. done.
Qed.

Definition moves (dst src : nat) (s s' : store) : Prop :=
  children s' dst = children s src /\ children s' src = [] /\
  (forall q, q <> dst -> q <> src -> children s' q = children s q) /\
  (forall c, parentOf s' c = if decide (c ∈ children s src) then Some dst else parentOf s c) /\
  (forall c x, nodes s !! c = Some x -> exists y, nodes s' !! c = Some y /\ kind y = kind x /\ codec y = codec x) /\
  writing s' = writing s /\ (forall c, nodes s !! c = None -> nodes s' !! c = None).

Lemma MoveNode_spec s dst src : wf s -> isReceiver s dst -> isReceiver s src -> dst <> src ->
  exists s', MoveNode dst src s = Some s' /\ wf s' /\ moves dst src s s'.
Proof.
  intros W (d & u & v & Hd & Kd) (n & u' & v' & Hn & Kn) Hne.
  destruct (MoveNode_eq s dst src n d Hn Hd Hne) as (s' & E & A & Wr & N). exists s'. split; [done|].
  assert (forall c, c ∈ children s src -> isSender s c) as Hcs.
  { intros c Hc. unfold children in Hc. rewrite Hn in Hc. destruct (childs n) as [l|] eqn:El; [|by apply elem_of_nil in Hc].
    destruct (wf_slice s W src n Hn l El) as (b & Eb & _). unfold elements, cells_of in Hc. rewrite Eb in Hc.
    apply (wf_cells s W (array l) b); [done|].
    by apply elem_of_take in Hc as (j & Hj & _); apply list_elem_of_lookup_2 in Hj. }
  assert (forall c x, nodes s' !! c = Some x -> exists y, nodes s !! c = Some y /\ x = moved dst src (childs n) (children s src) c y) as Hback.
  { intros c x. rewrite N. destruct (nodes s !! c) as [y|]; [|done]. intros [= <-]. by exists y. }
  assert (forall c x, nodes s' !! c = Some x -> childs x = if decide (c = dst) then childs n else if decide (c = src) then None
    else nodes s !! c ≫= childs) as Hch.
  { intros c x Ex. destruct (Hback c x Ex) as (y & Ey & ->). rewrite Ey. unfold moved. repeat case_decide; done. }
  assert (forall q, children s' q = if decide (q = dst) then children s src else if decide (q = src) then [] else children s q) as Hc'.
  { intros q. unfold children at 1. destruct (nodes s' !! q) as [x|] eqn:Ex.
    - rewrite (Hch q x Ex). unfold elements, cells_of. rewrite A. case_decide as D1.
      + unfold children. by rewrite Hn.
      + case_decide as D2; [done|]. destruct (Hback q x Ex) as (y & Ey & _). unfold children. rewrite Ey. done.
    - rewrite N in Ex. destruct (nodes s !! q) as [y|] eqn:Eq; [done|].
      case_decide; [congruence|]. case_decide; [congruence|]. unfold children. by rewrite Eq. }
  assert (forall c, parentOf s' c = if decide (c ∈ children s src) then Some dst else parentOf s c) as Hp'.
  { intros c. unfold parentOf. rewrite N. destruct (nodes s !! c) as [x|] eqn:Ex; cbn.
    - unfold moved. repeat case_decide; done.
    - case_decide as D; [|done]. destruct (Hcs c D) as (y & z & Ey & _). congruence. }
  assert (forall c, isSender s c -> isSender s' c) as Hsend.
  { intros c (x & e & Ex & K). exists (moved dst src (childs n) (children s src) c x), e. rewrite N, Ex. split; [done|].
    by rewrite (proj1 (kind_moved _ _ _ _ _ _)). }
  assert (forall c, isReceiver s c -> isReceiver s' c) as Hrecv.
  { intros c (x & e & f & Ex & K). exists (moved dst src (childs n) (children s src) c x), e, f. rewrite N, Ex. split; [done|].
    by rewrite (proj1 (kind_moved _ _ _ _ _ _)). }
  assert (forall l, good_slice s l -> good_slice s' l) as Hgood by (intros l H; unfold good_slice; by rewrite A).
  split; [split|split; [|split; [|split; [|split; [|split]]]]].
  - intros q x Ex. apply Hgood. rewrite (Hch q x Ex). repeat case_decide.
    + by apply (wf_slice s W src).
    + done.
    + destruct (Hback q x Ex) as (y & Ey & _). rewrite Ey. by apply (wf_slice s W q).
  - intros r p l i Er. apply Hgood. rewrite Wr in Er. by apply (wf_writing s W r p l i).
  - intros q m x y l k Eq Em Cq Cm Ea. rewrite (Hch q x Eq) in Cq. rewrite (Hch m y Em) in Cm.
    destruct (Hback q x Eq) as (x0 & Ex0 & _), (Hback m y Em) as (y0 & Ey0 & _).
    rewrite Ex0 in Cq. rewrite Ey0 in Cm. cbn in Cq, Cm.
    destruct (decide (q = dst)) as [Q1|Q1], (decide (m = dst)) as [M1|M1]; [congruence| | |].
    + destruct (decide (m = src)) as [M2|M2]; [done|]. by destruct M2; symmetry; apply (wf_own s W src m n y0 l k).
    + destruct (decide (q = src)) as [Q2|Q2]; [done|]. by destruct Q2; apply (wf_own s W q src x0 n l k).
    + destruct (decide (q = src)), (decide (m = src)); try done. by apply (wf_own s W q m x0 y0 l k).
  - intros a b c Ea Hc. rewrite A in Ea. apply Hsend. by apply (wf_cells s W a b).
  - intros q c. rewrite Hc', Hp'. destruct (decide (q = dst)) as [->|Q1]; [|destruct (decide (q = src)) as [->|Q2]]; intros Hin.
    + by rewrite decide_True.
    + by apply elem_of_nil in Hin.
    + rewrite decide_False; [by apply (wf_child s W)|]. intros Hin'.
      pose proof (wf_child s W src c Hin') as P1. pose proof (wf_child s W q c Hin) as P2. congruence.
  - intros q. rewrite Hc'. repeat case_decide; [apply (wf_nodup s W)|constructor|apply (wf_nodup s W)].
  - intros q x Ex K. destruct (Hback q x Ex) as (y & Ey & ->). rewrite (proj1 (kind_moved _ _ _ _ _ _)) in K.
    unfold moved. case_decide as D.
    + exfalso. apply (isSender_not s q); [by apply Hcs|]. destruct K as (e & f & K). by exists y, e, f.
    + repeat case_decide; by apply (wf_receiver s W q y).
  - intros q x e Ex K. destruct (Hback q x Ex) as (y & Ey & ->). rewrite (proj1 (kind_moved _ _ _ _ _ _)) in K.
    rewrite (Hch q _ Ex). repeat case_decide; [|done|rewrite Ey; by apply (wf_sender s W q y e)].
    subst q. congruence.
  - intros c q. rewrite Hp'. case_decide as D.
    + intros [= <-]. apply Hrecv. by exists d, u, v.
    + intros Eq. apply Hrecv. by apply (wf_parent s W c).
  - rewrite Hc'. by rewrite decide_True.
  - rewrite Hc'. rewrite decide_False by congruence. by rewrite decide_True.
  - intros q H1 H2. rewrite Hc'. by rewrite !decide_False.
  - exact Hp'.
  - intros c x Ex. exists (moved dst src (childs n) (children s src) c x). rewrite N, Ex.
    split; [done|]. apply kind_moved.
  - split; [exact Wr|]. intros c Ec. by rewrite N, Ec.
Qed.

(** ** Packets *)

Definition sameRole (k k' : role) : Prop :=
  match k, k' with IsReceiver _ _, IsReceiver _ _ | IsSender _, IsSender _ => True | _, _ => False end.

(** Changing a node's counters or channel leaves the tree alone. *)
Definition rekind (n : nat) (x : Node) (k : role) (s : store) : store :=
  s <| nodes := <[n := x <| kind := k |>]> (nodes s) |>.

Lemma nodes_rekind s n x k c y : nodes s !! n = Some x -> sameRole (kind x) k -> nodes s !! c = Some y ->
  exists z, nodes (rekind n x k s) !! c = Some z /\ sameRole (kind y) (kind z) /\ codec z = codec y /\
    parent z = parent y /\ childs z = childs y /\ (c <> n -> kind z = kind y).
Proof.
  intros Hn Hk Hc. unfold rekind. cbn. destruct (decide (c = n)) as [->|Hcn].
  - rewrite lookup_insert_eq. eexists. split; [done|]. by replace y with x by congruence.
  - rewrite lookup_insert_ne by done. exists y. split; [done|]. split; [by destruct (kind y)|done].
Qed.

Lemma rekind_back s n x k c z : nodes (rekind n x k s) !! c = Some z ->
  exists y, (nodes s !! c = Some y \/ (c = n /\ y = x)) /\ parent z = parent y /\ childs z = childs y /\
    (kind z = kind y \/ (c = n /\ kind z = k)).
Proof.
  unfold rekind. cbn. destruct (decide (c = n)) as [->|Hcn].
  - rewrite lookup_insert_eq. intros [= <-]. exists x. split; [by right|]. split; [done|]. split; [done|]. by right.
  - rewrite lookup_insert_ne by done. intros E. exists z. split; [by left|]. split; [done|]. split; [done|]. by left.
Qed.

Lemma rekind_lists s n x k : nodes s !! n = Some x ->
  (forall q, children (rekind n x k s) q = children s q) /\ (forall c, parentOf (rekind n x k s) c = parentOf s c).
Proof.
  intros Hn. split; intros q; unfold children, parentOf, rekind; cbn; destruct (decide (q = n)) as [->|Hq].
  1, 3: by rewrite lookup_insert_eq, Hn.
  all: by rewrite lookup_insert_ne.
Qed.

Lemma sender_rekind s n x k c : nodes s !! n = Some x -> sameRole (kind x) k -> isSender s c -> isSender (rekind n x k s) c.
Proof.
  intros Hn Hk (y & d & E & K). destruct (nodes_rekind s n x k c y Hn Hk E) as (z & Ez & R & _).
  rewrite K in R. destruct (kind z) as [|e] eqn:Kz; [done|]. by exists z, e.
Qed.

Lemma receiver_rekind s n x k c : nodes s !! n = Some x -> sameRole (kind x) k -> isReceiver s c -> isReceiver (rekind n x k s) c.
Proof.
  intros Hn Hk (y & u & v & E & K). destruct (nodes_rekind s n x k c y Hn Hk E) as (z & Ez & R & _).
  rewrite K in R. destruct (kind z) as [u' v'|] eqn:Kz; [|done]. by exists z, u', v'.
Qed.

Lemma wf_rekind s n x k : wf s -> nodes s !! n = Some x -> sameRole (kind x) k -> wf (rekind n x k s).
Proof.
  intros W Hn Hk. destruct (rekind_lists s n x k Hn) as [Hch Hpa].
  assert (forall c z, nodes (rekind n x k s) !! c = Some z ->
    exists y, nodes s !! c = Some y /\ parent z = parent y /\ childs z = childs y /\ sameRole (kind y) (kind z)) as Hback.
  { intros c z E. destruct (rekind_back s n x k c z E) as (y & Hy & P & C & K). exists y.
    assert (nodes s !! c = Some y) as Hy' by (destruct Hy as [|[-> ->]]; done). split; [done|]. split; [done|]. split; [done|].
    destruct K as [K|[-> K]]; rewrite K; [by destruct (kind y)|]. by replace y with x by congruence. }
  split.
  - intros c z E. destruct (Hback c z E) as (y & Hy & _ & C & _). rewrite C. by apply (wf_slice s W c).
  - apply (wf_writing s W).
  - intros q m y z l l' E1 E2 C1 C2. destruct (Hback q y E1) as (y' & Hy & _ & Cy & _), (Hback m z E2) as (z' & Hz & _ & Cz & _).
    apply (wf_own s W q m y' z'); congruence.
  - intros a b c E Hc. apply sender_rekind; try done. by apply (wf_cells s W a b).
  - intros p c. rewrite Hch, Hpa. apply (wf_child s W).
  - intros p. rewrite Hch. apply (wf_nodup s W).
  - intros c z E K. destruct (Hback c z E) as (y & Hy & P & _ & R). rewrite P. apply (wf_receiver s W c y Hy).
    destruct K as (u & v & K). rewrite K in R. destruct (kind y) as [u' v'|]; [by exists u', v'|done].
  - intros c z d E K. destruct (Hback c z E) as (y & Hy & _ & C & R). rewrite C. rewrite K in R.
    destruct (kind y) as [|e] eqn:Ky; [done|]. by apply (wf_sender s W c y e).
  - intros c p. rewrite Hpa. intros E. apply receiver_rekind; try done. by apply (wf_parent s W c).
Qed.

Lemma setSender_eq s n f : isSender s n ->
  exists x d, nodes s !! n = Some x /\ kind x = IsSender d /\ setSender n f s = Some (rekind n x (IsSender (f d)) s).
Proof. intros (x & d & E & K). exists x, d. unfold setSender. rewrite E. cbn [mbind option_bind]. by rewrite K. Qed.

(** ** Goroutines *)

(** What the callers see to: a sender is attached once, a receiver is written by one
    goroutine, and a track is not replaced by itself. *)
Definition proper (s : store) (a : action) : Prop :=
  match a with
  | ANewReceiver _ | ANewSender _ => True
  | AHandleRTP d r => isSender s d /\ isReceiver s r /\ parentOf s d = None
  | AStart d | ASenderShut d => isSender s d
  | ALoop d => exists x e y, nodes s !! d = Some x /\ kind x = IsSender e /\ SenderLoop e = Some y
  | AWrite r _ => isReceiver s r /\ writing s !! r = None
  | AWriteNext r => is_Some (writing s !! r)
  | AClose n => isSender s n \/ isReceiver s n
  | AReplace r t => isReceiver s r /\ isReceiver s t /\ t <> r
  end.

Lemma wf_write s r p l i : wf s -> good_slice s l -> wf (s <| writing := <[r := (p, l, i)]> (writing s) |>).
Proof.
  intros W H. split; try apply W. intros r' p' l' i'. cbn. destruct (decide (r' = r)) as [->|Hr].
  - rewrite lookup_insert_eq. by intros [= <- <- <-].
  - rewrite lookup_insert_ne by done. apply (wf_writing s W).
Qed.

Lemma wf_unwrite s r : wf s -> wf (s <| writing := delete r (writing s) |>).
Proof.
  intros W. split; try apply W. intros r' p' l' i'. cbn. rewrite lookup_delete_Some. intros [_ E].
  by apply (wf_writing s W r' p' l' i').
Qed.

Lemma wf_new s k c : wf s -> wf (s <| nodes := <[fresh (dom (nodes s)) := mkNode c None None k]> (nodes s) |>).
Proof.
  intros W. set (n := fresh (dom (nodes s))).
  assert (nodes s !! n = None) as Hn by apply not_elem_of_dom, is_fresh.
  set (s' := s <| nodes := _ |>).
  assert (forall q x, nodes s' !! q = Some x -> (q = n /\ x = mkNode c None None k) \/ (q <> n /\ nodes s !! q = Some x)) as Hq.
  { intros q x. unfold s'. cbn. destruct (decide (q = n)) as [->|Hq].
    - rewrite lookup_insert_eq. intros [= <-]. by left.
    - rewrite lookup_insert_ne by done. by right. }
  assert (forall q, children s' q = children s q) as Hch.
  { intros q. unfold children, s'. cbn. destruct (decide (q = n)) as [->|Hqn].
    - by rewrite lookup_insert_eq, Hn.
    - by rewrite lookup_insert_ne. }
  assert (forall q, parentOf s' q = parentOf s q) as Hpa.
  { intros q. unfold parentOf, s'. cbn. destruct (decide (q = n)) as [->|Hqn].
    - by rewrite lookup_insert_eq, Hn.
    - by rewrite lookup_insert_ne. }
  assert (forall q x, nodes s !! q = Some x -> nodes s' !! q = Some x) as Hup.
  { intros q x E. unfold s'. cbn. rewrite lookup_insert_ne; [done|]. congruence. }
  split.
  - intros q x E. destruct (Hq q x E) as [[-> ->]|[_ E']]; [by intros l'|]. by apply (wf_slice s W q).
  - apply (wf_writing s W).
  - intros q m x y l l' E1 E2 C1 C2 Ea. destruct (Hq q x E1) as [[-> ->]|[_ E1']]; [done|].
    destruct (Hq m y E2) as [[-> ->]|[_ E2']]; [done|]. by apply (wf_own s W q m x y l l').
  - intros a b d E Hd. destruct (wf_cells s W a b d E Hd) as (x & e & Ex & K). exists x, e. split; [by apply Hup|done].
  - intros p d. rewrite Hch, Hpa. apply (wf_child s W).
  - intros p. rewrite Hch. apply (wf_nodup s W).
  - intros q x E K. destruct (Hq q x E) as [[-> ->]|[_ E']]; [done|]. by apply (wf_receiver s W q).
  - intros q x d E K. destruct (Hq q x E) as [[-> ->]|[_ E']]; [done|]. by apply (wf_sender s W q x d).
  - intros d p. rewrite Hpa. intros E. destruct (wf_parent s W d p E) as (x & u & v & Ex & K).
    exists x, u, v. split; [by apply Hup|done].
Qed.

(** The loop over the children never meets a nil pointer. *)
Lemma header_at s l i : wf s -> good_slice s l -> (i < slice_len l)%nat ->
  exists c, slice_at s l i = Some c /\ isSender s c.
Proof.
  intros W H Hi. destruct l as [l|]; [|cbn in Hi; lia]. destruct (H l eq_refl) as (b & E & Hs). cbn in *.
  rewrite decide_True by done. unfold cells_of. rewrite E.
  destruct (lookup_lt_is_Some_2 (cells b) i ltac:(lia)) as [c Hc]. exists c. split; [done|].
  apply (wf_cells s W (array l) b); [done|]. by apply list_elem_of_lookup_2 in Hc.
Qed.

Section run.
Context (spare : nat -> nat).

Lemma setSender_wf s n f : wf s -> isSender s n -> exists s', setSender n f s = Some s' /\ wf s'.
Proof.
  intros W H. destruct (setSender_eq s n f H) as (x & d & E & K & ->). eexists. split; [reflexivity|].
  apply wf_rekind; [done|done|]. by rewrite K.
Qed.

Lemma isSender_attached p c s s' d : attached p c s s' -> isSender s d -> isSender s' d.
Proof.
  intros (_ & _ & _ & _ & H & _) (x & e & E & K). destruct (H d x E) as (y & Ey & Ky & _).
  exists y, e. by rewrite Ky.
Qed.

(** In a well-formed tree every proper step of every goroutine succeeds, no nil pointer is
    followed, and the tree stays well-formed. *)
Lemma act_wf s a : wf s -> proper s a -> exists s', act spare a s = Some s' /\ wf s'.
Proof.
  intros W H. destruct a as [c|c|d r|d|r p|r|d|d|n|r t]; cbn [act proper] in *.
  - eexists. split; [reflexivity|]. by apply wf_new.
  - eexists. split; [reflexivity|]. by apply wf_new.
  - destruct H as (Hd & Hr & Hp). destruct (AppendChild_spec spare r d s W Hr Hd Hp) as (s1 & E & W1 & A).
    unfold HandleRTP. rewrite E. cbn [mbind option_bind]. apply setSender_wf; [done|]. by apply (isSender_attached r d s).
  - by apply setSender_wf.
  - destruct H as [(x & u & v & E & K) Hw]. unfold WriteRTP. rewrite E. cbn [mbind option_bind]. rewrite K, Hw.
    eexists. split; [reflexivity|].
    apply (wf_write (rekind r x (IsReceiver (u + len (rtpPayload p)) (v + 1)) s)).
    + apply wf_rekind; [done|done|]. by rewrite K.
    + by apply (wf_slice s W r).
  - destruct H as [[[p l] i] E]. unfold WriteNext. rewrite E. cbn [mbind option_bind].
    pose proof (wf_writing s W r p l i E) as Hg. case_decide as D.
    + destruct (header_at s l i W Hg D) as (c & -> & Hc). destruct (setSender_eq s c (SenderInput p) Hc) as (x & e & Ex & K & ->).
      cbn [mbind option_bind]. eexists. split; [reflexivity|].
      apply (wf_write (rekind c x _ s)); [|exact Hg]. apply wf_rekind; [done|done|]. by rewrite K.
    + eexists. split; [reflexivity|]. by apply wf_unwrite.
  - destruct H as (x & e & y & E & K & L). rewrite E. cbn [mbind option_bind]. rewrite K, L. cbn [mbind option_bind].
    apply setSender_wf; [done|]. by exists x, e.
  - by apply setSender_wf.
  - destruct H as [(x & e & E & K)|Hr].
    + destruct (parentOf s n) as [p|] eqn:Hp.
      * destruct (ChildClose_spec s n p W Hp) as (s' & Es & W' & _). by exists s'.
      * unfold parentOf in Hp. rewrite E in Hp. cbn in Hp. unfold closeDepth. cbn [CloseNode]. rewrite E. cbn [mbind option_bind].
        rewrite Hp, (wf_sender s W n x e E K). by exists s.
    + destruct (ReceiverClose_spec s n W Hr) as (s' & Es & W' & _). by exists s'.
  - destruct H as (Hr & Ht & Hn). destruct (MoveNode_spec s t r W Ht Hr Hn) as (s' & Es & W' & _). by exists s'.
Qed.

Inductive run : store -> list action -> store -> Prop :=
| run_nil s : run s [] s
| run_cons s a t l u : proper s a -> act spare a s = Some t -> run t l u -> run s (a :: l) u.

Lemma run_wf s l t : run s l t -> wf s -> wf t.
Proof.
  induction 1 as [|s a t l u Hp E _ IH]; [done|]. intros W. apply IH.
  destruct (act_wf s a W Hp) as (t' & E' & W'). by replace t with t' by congruence.
Qed.
End run.

(** ** What a step does to a sender *)

Definition senderAt (s : store) (c : nat) : option Sender :=
  x ← nodes s !! c; match kind x with IsSender d => Some d | IsReceiver _ _ => None end.

Definition change (s : store) (a : action) (c : nat) (d : Sender) : Sender :=
  match a with
  | AHandleRTP n _ | AStart n => if decide (n = c) then SenderStart d else d
  | ASenderShut n => if decide (n = c) then d <| open := false |> else d
  | ALoop n => if decide (n = c) then default d (SenderLoop d) else d
  | AWriteNext r =>
      match writing s !! r with
      | Some (p, l, i) => if decide (slice_at s l i = Some c) then SenderInput p d else d
      | None => d
      end
  | _ => d
  end.

Lemma senderAt_is s c d : senderAt s c = Some d -> isSender s c.
Proof.
  unfold senderAt. destruct (nodes s !! c) as [x|] eqn:E; [|done]. cbn. destruct (kind x) eqn:K; [done|].
  intros [= ->]. by exists x, d.
Qed.

Lemma senderAt_rekind s n x d c e : nodes s !! n = Some x -> kind x = IsSender d ->
  senderAt (rekind n x (IsSender e) s) c = if decide (c = n) then Some e else senderAt s c.
Proof.
  intros Hn K. unfold senderAt, rekind. cbn. destruct (decide (c = n)) as [->|Hc].
  - by rewrite lookup_insert_eq.
  - by rewrite lookup_insert_ne.
Qed.

Lemma senderAt_setSender s n f s' c : setSender n f s = Some s' ->
  senderAt s' c = if decide (c = n) then f <$> senderAt s c else senderAt s c.
Proof.
  unfold setSender. destruct (nodes s !! n) as [x|] eqn:E; [|done]. cbn [mbind option_bind].
  destruct (kind x) as [|d] eqn:K; [done|]. intros [= <-].
  change (senderAt (rekind n x (IsSender (f d)) s) c = if decide (c = n) then f <$> senderAt s c else senderAt s c).
  rewrite (senderAt_rekind s n x d c) by done. case_decide as D; [|done]. subst c. unfold senderAt. rewrite E. cbn. by rewrite K.
Qed.

(** Kinds kept, none added: no sender changes. *)
Lemma senderAt_kept s s' c :
  (forall d x, nodes s !! d = Some x -> exists y, nodes s' !! d = Some y /\ kind y = kind x /\ codec y = codec x) ->
  (forall d, nodes s !! d = None -> nodes s' !! d = None) -> senderAt s' c = senderAt s c.
Proof.
  intros H1 H2. unfold senderAt. destruct (nodes s !! c) as [x|] eqn:E.
  - destruct (H1 c x E) as (y & -> & K & _). cbn. by rewrite K.
  - by rewrite (H2 c E).
Qed.

Lemma senderAt_relinked s s' c : relinked s s' -> senderAt s' c = senderAt s c.
Proof.
  intros [_ H _ D]. apply senderAt_kept; [|done]. intros d x E. destruct (H d x E) as (y & Ey & K & C & _). by exists y.
Qed.

Lemma senderAt_receiver s r x u v k c : nodes s !! r = Some x -> kind x = IsReceiver u v -> sameRole (kind x) k ->
  senderAt (rekind r x k s) c = senderAt s c.
Proof.
  intros E K Hk. unfold senderAt, rekind. cbn. destruct (decide (c = r)) as [->|Hc].
  - rewrite lookup_insert_eq, E. cbn. rewrite K in *. by destruct k.
  - by rewrite lookup_insert_ne.
Qed.

Section effect.
Context (spare : nat -> nat).

Lemma AClose_relinked s n s' : wf s -> proper s (AClose n) -> CloseNode closeDepth n s = Some s' -> relinked s s'.
Proof.
  intros W H E. destruct H as [(x & e & En & K)|Hr].
  - destruct (parentOf s n) as [p|] eqn:Hp.
    + destruct (ChildClose_spec s n p W Hp) as (s1 & E1 & _ & R & _). by replace s' with s1 by congruence.
    + unfold parentOf in Hp. rewrite En in Hp. cbn in Hp. unfold closeDepth in E. cbn [CloseNode] in E. rewrite En in E.
      cbn [mbind option_bind] in E. rewrite Hp, (wf_sender s W n x e En K) in E. injection E as <-. apply relinked_refl.
  - destruct (ReceiverClose_spec s n W Hr) as (s1 & E1 & _ & R & _). unfold ReceiverClose in E1. by replace s' with s1 by congruence.
Qed.

Lemma act_senders s a s' c : wf s -> proper s a -> act spare a s = Some s' ->
  senderAt s' c =
  match senderAt s c with
  | Some d => Some (change s a c d)
  | None => match a with
            | ANewSender k => if decide (c = fresh (dom (nodes s))) then Some (newSender k) else None
            | _ => None
            end
  end.
Proof.
  intros W H E. assert (forall d, senderAt s c = Some d -> c <> fresh (dom (nodes s))) as Hf.
  { intros d Hd ->. unfold senderAt in Hd. by rewrite (not_elem_of_dom_1 _ _ (is_fresh (dom (nodes s)))) in Hd. }
  destruct a as [k|k|d r|d|r p|r|d|d|n|r t]; cbn [act proper change] in *.
  - injection E as <-. transitivity (senderAt s c); [|by destruct (senderAt s c)]. unfold senderAt, NewReceiver. cbn.
    destruct (decide (c = fresh (dom (nodes s)))) as [->|Hc]; [|by rewrite lookup_insert_ne].
    by rewrite lookup_insert_eq, (not_elem_of_dom_1 _ _ (is_fresh (dom (nodes s)))).
  - injection E as <-. unfold NewSender. unfold senderAt at 1. cbn.
    destruct (decide (c = fresh (dom (nodes s)))) as [->|Hc].
    + rewrite lookup_insert_eq. destruct (senderAt s (fresh (dom (nodes s)))) eqn:Es; [by destruct (Hf _ eq_refl)|done].
    + rewrite lookup_insert_ne by done. change (senderAt s c = match senderAt s c with Some d => Some d | None => None end).
      by destruct (senderAt s c).
  - destruct H as (Hs & Hr & Hp). destruct (AppendChild_spec spare r d s W Hr Hs Hp) as (s1 & E1 & W1 & _ & _ & _ & _ & Hk & _ & Hn).
    unfold HandleRTP in E. rewrite E1 in E. cbn [mbind option_bind] in E.
    rewrite (senderAt_setSender _ _ _ _ c E), (senderAt_kept s s1 c Hk Hn).
    destruct (decide (c = d)), (decide (d = c)), (senderAt s c); congruence || done.
  - rewrite (senderAt_setSender _ _ _ _ c E). destruct (decide (c = d)), (decide (d = c)), (senderAt s c); congruence || done.
  - destruct H as [(x & u & v & Ex & K) Hw]. unfold WriteRTP in E. rewrite Ex in E. cbn [mbind option_bind] in E.
    rewrite K, Hw in E. injection E as <-. transitivity (senderAt s c); [|by destruct (senderAt s c)].
    apply (senderAt_receiver s r x u v (IsReceiver (u + len (rtpPayload p)) (v + 1)) c Ex K). by rewrite K.
  - destruct H as [[[p l] i] Ew]. unfold WriteNext in E. rewrite Ew in *. cbn [mbind option_bind] in E.
    case_decide as D.
    + destruct (slice_at s l i) as [b|] eqn:Eb; [|done]. destruct (setSender b (SenderInput p) s) as [s1|] eqn:E1; [|done].
      injection E as <-. transitivity (senderAt s1 c); [done|]. rewrite (senderAt_setSender _ _ _ _ c E1).
      destruct (decide (c = b)), (decide (Some b = Some c)), (senderAt s c); congruence || done.
    + injection E as <-. transitivity (senderAt s c); [done|].
      destruct (senderAt s c); [|done]. cbv iota. rewrite decide_False; [done|].
      destruct l as [l|]; [|done]. cbn in *. by rewrite decide_False by lia.
  - destruct H as (x & e & y & Ex & K & L). rewrite Ex in E. cbn [mbind option_bind] in E. rewrite K, L in E. cbn [mbind option_bind] in E.
    rewrite (senderAt_setSender _ _ _ _ c E). destruct (decide (c = d)) as [->|Hc].
    + assert (senderAt s d = Some e) as -> by (unfold senderAt; rewrite Ex; cbn; by rewrite K).
      cbv iota beta. rewrite decide_True by done. by rewrite L.
    + destruct (senderAt s c); [|done]. cbv iota beta. by rewrite decide_False by congruence.
  - rewrite (senderAt_setSender _ _ _ _ c E). destruct (decide (c = d)), (decide (d = c)), (senderAt s c); congruence || done.
  - rewrite (senderAt_relinked s s') by by apply (AClose_relinked s n). by destruct (senderAt s c).
  - destruct H as (Hr & Ht & Hn). destruct (MoveNode_spec s t r W Ht Hr Hn) as (s1 & E1 & _ & _ & _ & _ & _ & Hk & _ & Hn').
    replace s1 with s' in * by congruence. rewrite (senderAt_kept s s' c Hk Hn'). by destruct (senderAt s c).
Qed.
End effect.

(** ** Senders lose nothing uncounted *)

Definition total (ps : list rtpPacket) : Z := fold_right (fun p n => len (rtpPayload p) + n) 0 ps.

(** What was queued came in, in order; everything else that came in is counted as dropped. *)
Record sender_inv (d : Sender) : Prop := {
  si_order : (handled d ++ queue d) `sublist_of` offered d;
  si_packets : SPackets d = len (handled d ++ queue d);
  si_drops : SPackets d + Drops d = len (offered d);
  si_bytes : SBytes d = total (handled d ++ queue d);
  si_bound : len (queue d) <= bufSize d;
  si_finished : finished d = true -> open d = false /\ queue d = [];
}.

Lemma total_app p q : total (p ++ q) = total p + total q.
Proof. unfold total. induction p as [|x p IH]; [done|]. cbn [app fold_right]. rewrite IH. lia. Qed.

Lemma sender_inv_new c : sender_inv (newSender c).
Proof.
  split; cbn; try done. unfold senderBuffer. destruct (decide _); [destruct (IsRTP c)|]; unfold len; cbn; lia.
Qed.

Lemma sender_inv_input p d : sender_inv d -> sender_inv (SenderInput p d).
Proof.
  intros [H1 H2 H3 H4 H5 H6]. unfold SenderInput. destruct (open d && (len (queue d) <? bufSize d)) eqn:E.
  - apply andb_true_iff in E as [E1 E2%Z.ltb_lt]. split; cbn.
    + rewrite app_assoc. by apply sublist_app.
    + rewrite app_assoc, len_app, <- H2. done.
    + rewrite len_app, <- H3. unfold len. cbn. lia.
    + rewrite app_assoc, total_app, <- H4. cbn. lia.
    + rewrite len_app. unfold len in *. cbn. lia.
    + intros F. destruct (H6 F). congruence.
  - split; cbn; try done; [by apply sublist_inserts_r|rewrite len_app; unfold len in *; cbn; lia].
Qed.

Lemma sender_inv_loop d d' : sender_inv d -> SenderLoop d = Some d' -> sender_inv d'.
Proof.
  intros [H1 H2 H3 H4 H5 H6]. unfold SenderLoop. destruct (negb (started d) || finished d) eqn:E; [done|].
  apply orb_false_iff in E as [_ E]. destruct (queue d) as [|p q] eqn:Q.
  - destruct (open d) eqn:O; [done|]. intros [= <-]. split; cbn; rewrite ?Q; done.
  - intros [= <-]. split; cbn; rewrite <- ?app_assoc; cbn; try done.
    + rewrite len_cons in H5. lia.
    + intros F. congruence.
Qed.

Lemma sender_inv_change s a c d : sender_inv d -> sender_inv (change s a c d).
Proof.
  intros I. assert (sender_inv (SenderStart d)) as Hs.
  { unfold SenderStart. destruct (open d && negb (started d)); [|done]. destruct I. by split. }
  assert (sender_inv (d <| open := false |>)) as Ho. { destruct I. split; cbn; naive_solver. }
  assert (sender_inv (default d (SenderLoop d))) as Hl.
  { destruct (SenderLoop d) eqn:E; [|done]. by apply (sender_inv_loop d). }
  destruct a; cbn [change]; try done; try case_decide; try done.
  destruct (writing s !! receiver) as [[[p l] i]|]; [|done]. case_decide; [|done]. by apply sender_inv_input.
Qed.

(** C9. Whatever the goroutines do, the tree of tracks stays well-formed, the next step never
    follows a nil pointer, and every sender accounts for every packet it was offered: those
    accepted reach its handler in the order they came, no more than its buffer holds are
    waiting, and all the others are counted as dropped. *)
Theorem tracks_conserve (spare : nat -> nat) (l : list action) (s : store)
  (Hrun : run spare emptyStore l s) :
  wf s /\ (forall a, proper s a -> is_Some (act spare a s)) /\
  forall c d, senderAt s c = Some d -> sender_inv d.
Proof.
  assert (forall s0, run spare s0 l s -> wf s0 -> (forall c d, senderAt s0 c = Some d -> sender_inv d) ->
    forall c d, senderAt s c = Some d -> sender_inv d) as H.
  { clear Hrun. induction l as [|a l IH]; intros s0 R W I c d; inversion R; subst; [apply I|].
    match goal with E : act _ _ _ = Some ?t |- _ => rename t into t0; rename E into Ea end.
    apply (IH t0); [done| |].
    - destruct (act_wf spare s0 a W ltac:(done)) as (t' & E' & W'). by replace t0 with t' by congruence.
    - intros c' d'. rewrite (act_senders spare s0 a t0 c' W ltac:(done) Ea).
      destruct (senderAt s0 c') as [e|] eqn:Ec.
      + intros [= <-]. apply sender_inv_change. by apply (I c').
      + destruct a; try done. case_decide; [|done]. intros [= <-]. apply sender_inv_new. }
  pose proof (run_wf spare _ _ _ Hrun wf_empty) as W. split; [done|]. split.
  - intros a Hp. destruct (act_wf spare s a W Hp) as (t & -> & _). by eexists.
  - apply (H emptyStore); [done|apply wf_empty|]. intros c d. unfold senderAt. cbn. by rewrite lookup_empty.
Qed.

(** ** Fan-out *)

(** What may go on during a delivery without disturbing it: handlers and buffers at work,
    and consumers joining.  Leaving is not among it. *)
Definition quiet (a : action) : Prop :=
  match a with
  | ANewReceiver _ | ANewSender _ | AHandleRTP _ _ | AStart _ | ASenderShut _ | ALoop _ => True
  | _ => False
  end.

(** The cells of a slice, and that no list in use is a shorter one in the same array. *)
Definition intact (s : store) (l : slice) (cs : list nat) : Prop :=
  (exists b, arrays s !! array l = Some b /\ take (size l) (cells b) = cs /\ (size l <= length (cells b))%nat) /\
  forall q x l', nodes s !! q = Some x -> childs x = Some l' -> array l' = array l -> (size l <= size l')%nat.

Lemma intact_at s l cs i : intact s l cs -> slice_at s (Some l) i = cs !! i.
Proof.
  intros [(b & E & <- & Hs) _]. cbn. unfold cells_of. rewrite E. case_decide as D.
  - by rewrite lookup_take, decide_True by lia.
  - symmetry. apply lookup_ge_None_2. rewrite length_take. lia.
Qed.

Lemma intact_nodes s s' l cs : arrays s' = arrays s ->
  (forall q x, nodes s' !! q = Some x -> childs x = None \/ exists y, nodes s !! q = Some y /\ childs y = childs x) ->
  intact s l cs -> intact s' l cs.
Proof.
  intros A N [H1 H2]. split; [by rewrite A|]. intros q x l' E C Ea. destruct (N q x E) as [?|(y & Ey & Cy)]; [congruence|].
  apply (H2 q y); congruence.
Qed.

Lemma intact_append spare p c s s' l cs : wf s -> AppendChild spare p c s = Some s' -> intact s l cs -> intact s' l cs.
Proof.
  intros W E I. pose proof I as [(b & Eb & Ht & Hs) Hq]. unfold AppendChild in E.
  destruct (nodes s !! p) as [n|] eqn:Hp; [|done]. cbn [mbind option_bind] in E.
  assert (exists a b' k, append spare s (childs n) c = (s <| arrays := <[a := b']> (arrays s) |>, Some (mkSlice a k)) /\
    (a = array l -> take (size l) (cells b') = cs /\ (size l <= length (cells b'))%nat /\ (size l <= k)%nat)) as (a & b' & k & Ea & Hab).
  { unfold append. assert (fresh (dom (arrays s)) = array l -> False) as Hf.
    { intros Hf. pose proof (is_fresh (dom (arrays s))) as F. rewrite Hf in F. apply F, elem_of_dom. by exists b. }
    destruct (childs n) as [l'|] eqn:El; [destruct (arrays s !! array l') as [b0|] eqn:Eb0|]; [|do 3 eexists; split; [reflexivity|by intros ?%Hf]..].
    case_decide as D; [|case_decide as D2; [|do 3 eexists; split; [reflexivity|by intros ?%Hf]]].
    - do 3 eexists. split; [reflexivity|]. intros Ea. pose proof (Hq p n l' Hp El Ea) as Hle. rewrite Ea, Eb in Eb0.
      injection Eb0 as ->. cbn in *. rewrite take_insert_ge by lia. rewrite length_insert. split; [done|]. lia.
    - do 3 eexists. split; [reflexivity|]. intros Ea. pose proof (Hq p n l' Hp El Ea) as Hle. rewrite Ea, Eb in Eb0.
      injection Eb0 as ->. cbn in *. rewrite take_app_le, length_app by lia. cbn. split; [done|]. lia. }
  rewrite Ea in E. cbn in E.
  destruct (<[p:=_]> (nodes s) !! c) as [m|] eqn:Hm; [|done]. cbn in E. injection E as <-. split.
  - cbn. destruct (decide (a = array l)) as [Hal|Hal].
    + rewrite Hal, lookup_insert_eq. exists b'. destruct (Hab Hal) as (? & ? & ?). done.
    + rewrite lookup_insert_ne by done. by exists b.
  - assert (forall q x l', <[p:=n <| childs := Some (mkSlice a k) |>]> (nodes s) !! q = Some x -> childs x = Some l' ->
      array l' = array l -> (size l <= size l')%nat) as H1.
    { intros q x l'. destruct (decide (q = p)) as [->|Hqp].
      - rewrite lookup_insert_eq. intros [= <-] [= <-] Hal. cbn in *. by destruct (Hab Hal) as (_ & _ & ?).
      - rewrite lookup_insert_ne by done. apply Hq. }
    intros q x l'. cbn. destruct (decide (q = c)) as [->|Hqc].
    + rewrite lookup_insert_eq. intros [= <-]. cbn. by apply (H1 c m).
    + rewrite lookup_insert_ne by done. apply H1.
Qed.

Lemma writing_setSender s n f s' : setSender n f s = Some s' -> writing s' = writing s.
Proof.
  unfold setSender. destruct (nodes s !! n) as [x|]; [|done]. cbn [mbind option_bind]. destruct (kind x); [done|]. by intros [= <-].
Qed.

Lemma intact_setSender s n f s' l cs : setSender n f s = Some s' -> intact s l cs -> intact s' l cs.
Proof.
  intros E. unfold setSender in E. destruct (nodes s !! n) as [x|] eqn:En; [|done]. cbn [mbind option_bind] in E.
  destruct (kind x); [done|]. injection E as <-. apply intact_nodes; [done|]. intros q y. cbn.
  destruct (decide (q = n)) as [->|Hq].
  - rewrite lookup_insert_eq. intros [= <-]. right. by exists x.
  - rewrite lookup_insert_ne by done. intros E. right. by exists y.
Qed.

Lemma intact_new s k c l cs : intact s l cs ->
  intact (s <| nodes := <[fresh (dom (nodes s)) := mkNode c None None k]> (nodes s) |>) l cs.
Proof.
  apply intact_nodes; [done|]. intros q x. cbn. destruct (decide (q = fresh (dom (nodes s)))) as [->|Hq].
  - rewrite lookup_insert_eq. intros [= <-]. by left.
  - rewrite lookup_insert_ne by done. intros E. right. by exists x.
Qed.

Lemma quiet_step spare s a s' l cs : wf s -> proper s a -> quiet a -> act spare a s = Some s' ->
  writing s' = writing s /\ (intact s l cs -> intact s' l cs).
Proof.
  intros W H Q E. destruct a as [k|k|d r|d|r p|r|d|d|n|r t]; try done; cbn [act proper] in *.
  - injection E as <-. split; [done|apply intact_new].
  - injection E as <-. split; [done|apply intact_new].
  - destruct H as (Hs & Hr & Hp). destruct (AppendChild_spec spare r d s W Hr Hs Hp) as (s1 & E1 & W1 & _ & _ & _ & _ & _ & Hw & _).
    unfold HandleRTP in E. rewrite E1 in E. cbn [mbind option_bind] in E.
    split; [by rewrite (writing_setSender _ _ _ _ E)|]. intros I. apply (intact_setSender _ _ _ _ _ _ E).
    by apply (intact_append spare r d s).
  - split; [by apply (writing_setSender _ _ _ _ E)|by apply (intact_setSender _ _ _ _ _ _ E)].
  - destruct H as (x & e & y & Ex & K & L). rewrite Ex in E. cbn [mbind option_bind] in E. rewrite K, L in E. cbn [mbind option_bind] in E.
    split; [by apply (writing_setSender _ _ _ _ E)|by apply (intact_setSender _ _ _ _ _ _ E)].
  - split; [by apply (writing_setSender _ _ _ _ E)|by apply (intact_setSender _ _ _ _ _ _ E)].
Qed.

Lemma offeredTo_senderAt s c : offeredTo s c = match senderAt s c with Some d => offered d | None => [] end.
Proof. unfold offeredTo, senderAt. destruct (nodes s !! c) as [[? ? ? []]|]; done. Qed.

Lemma offered_step spare s a s' c : wf s -> proper s a -> act spare a s = Some s' ->
  offeredTo s' c = match senderAt s c with Some d => offered (change s a c d) | None => [] end.
Proof.
  intros W H E. rewrite offeredTo_senderAt, (act_senders spare s a s' c W H E).
  destruct (senderAt s c); [done|]. destruct a; try done. by case_decide.
Qed.

Lemma offered_quiet s a c d : quiet a -> offered (change s a c d) = offered d.
Proof.
  intros Q. destruct a; try done; cbn [change]; try case_decide; try done;
    unfold SenderStart, SenderLoop; repeat case_match; done.
Qed.

Section delivery.
Context (spare : nat -> nat) (r : nat) (p : rtpPacket).

Lemma offered_quiet_step s a s' c : wf s -> proper s a -> quiet a -> act spare a s = Some s' -> offeredTo s' c = offeredTo s c.
Proof.
  intros W H Q E. rewrite (offered_step spare s a s' c W H E), offeredTo_senderAt.
  destruct (senderAt s c); [|done]. by apply offered_quiet.
Qed.

Lemma no_delivery_run l t u : run spare t l u -> Forall (fun a => a = AWriteNext r \/ quiet a) l -> wf t ->
  writing t !! r = None -> forall c, offeredTo u c = offeredTo t c.
Proof.
  induction 1 as [|s a t l u Hp E R IH]; [done|]. intros [[->|Q] HF]%Forall_cons W Hw c.
  { cbn in Hp. rewrite Hw in Hp. by destruct Hp. }
  destruct (act_wf spare s a W Hp) as (t' & E' & W'). replace t' with t in * by congruence.
  destruct (quiet_step spare s a t (mkSlice 0 0) [] W Hp Q E) as [Hw' _].
  rewrite IH by (done || by rewrite Hw'). by apply (offered_quiet_step s a).
Qed.

(** A delivery that has come to index [i]. *)
Lemma delivery_run l t u : run spare t l u ->
  forall h cs i, Forall (fun a => a = AWriteNext r \/ quiet a) l -> wf t ->
  writing t !! r = Some (p, h, i) -> writing u !! r = None ->
  (forall k, h = Some k -> intact t k cs) -> NoDup cs -> length cs = slice_len h ->
  forall c, offeredTo u c = offeredTo t c ++ if decide (c ∈ drop i cs) then [p] else [].
Proof.
  induction 1 as [s|s a t l u Hp E R IH]; intros h cs i HF W Hw Hu Hk Hn Hl c; [congruence|].
  apply Forall_cons in HF as [Ha HF].
  destruct (act_wf spare s a W Hp) as (t' & E' & W'). replace t' with t in * by congruence. clear t' E'.
  destruct Ha as [->|Q].
  - cbn [act] in E. unfold WriteNext in E. rewrite Hw in E. cbn [mbind option_bind] in E. case_decide as D.
    + destruct h as [k|]; [|cbn in D; lia]. rewrite (intact_at s k cs i (Hk k eq_refl)) in E.
      destruct (cs !! i) as [b|] eqn:Eb; [|done]. destruct (setSender b (SenderInput p) s) as [s1|] eqn:E1; [|done].
      injection E as <-.
      rewrite (IH (Some k) cs (S i) HF W'); try done; cbn.
      2: by rewrite lookup_insert_eq.
      2: { intros k' [= <-]. pose proof (intact_setSender _ _ _ _ k cs E1 (Hk k eq_refl)) as I. exact I. }
      rewrite (drop_S cs b i Eb). assert (b ∉ drop (S i) cs) as Hb.
      { rewrite <- (take_drop i cs), (drop_S cs b i Eb) in Hn. apply NoDup_app in Hn as (_ & _ & Hn). by apply NoDup_cons in Hn as [? _]. }
      transitivity (offeredTo s1 c ++ (if decide (c ∈ drop (S i) cs) then [p] else [])); [done|].
      rewrite !offeredTo_senderAt, (senderAt_setSender _ _ _ _ c E1).
      destruct (decide (c = b)) as [->|Hc].
      * rewrite (decide_False (P := b ∈ drop (S i) cs)), decide_True by (done || by left).
        unfold setSender in E1. unfold senderAt. destruct (nodes s !! b) as [x|]; [|done]. cbn [mbind option_bind] in *.
        destruct (kind x); [done|]. cbn. unfold SenderInput. rewrite app_nil_r. reflexivity.
      * f_equal. destruct (decide (c ∈ drop (S i) cs)) as [Hin|Hin].
        -- by rewrite decide_True by by right.
        -- rewrite decide_False; [done|]. rewrite elem_of_cons. by intros [|].
    + injection E as <-. rewrite drop_ge by lia. rewrite decide_False, app_nil_r by apply not_elem_of_nil.
      transitivity (offeredTo (s <| writing := delete r (writing s) |>) c); [|done].
      apply (no_delivery_run l); [done|done|done|]. cbn. by rewrite lookup_delete_eq.
  - destruct (quiet_step spare s a t (mkSlice 0 0) [] W Hp Q E) as [Hw' _].
    rewrite (IH h cs i HF W'); try done; [|by rewrite Hw'|].
    + by rewrite (offered_quiet_step s a).
    + intros k Ek. by apply (proj2 (quiet_step spare s a t k cs W Hp Q E)), Hk.
Qed.

(** C10. A packet written to a receiver is offered to each of its children exactly once and to no
    other sender, however the steps of the delivery are interleaved with the handlers of
    senders, the closing of their buffers, and new receivers, senders and their joining any
    receiver.  Other deliveries, senders that leave and receivers that are closed or replaced
    are not among it. *)
Theorem delivery_exact (l : list action) (s u : store)
  (Hrun : run spare s (AWrite r p :: l) u) (Hwf : wf s)
  (Hquiet : Forall (fun a => a = AWriteNext r \/ quiet a) l) (Hdone : writing u !! r = None) :
  forall c, offeredTo u c = offeredTo s c ++ if decide (c ∈ children s r) then [p] else [].
Proof.
  inversion Hrun as [|? ? t ? ? Hp E R]; subst. intros c.
  destruct (act_wf spare s _ Hwf Hp) as (t' & E' & Wt). replace t' with t in * by congruence. clear t' E'.
  destruct Hp as [(x & a & b & Ex & K) Hw]. pose proof E as E0. cbn [act] in E. unfold WriteRTP in E. rewrite Ex in E. cbn [mbind option_bind] in E.
  rewrite K, Hw in E. injection E as Et.
  rewrite (delivery_run l t u R (childs x) (children s r) 0); try done.
  - rewrite drop_0. f_equal. rewrite (offered_step spare s (AWrite r p) t c Hwf) by (done || (split; [by exists x, a, b|done])).
    by rewrite offeredTo_senderAt.
  - rewrite <- Et. cbn. by rewrite lookup_insert_eq.
  - intros k Hk. unfold children. rewrite Ex, Hk. destruct (wf_slice s Hwf r x Ex k Hk) as (b0 & Eb & Hs). split.
    + exists b0. rewrite <- Et. cbn. unfold cells_of. by rewrite Eb.
    + intros q y l' Ey Cy Ea. rewrite <- Et in Ey. cbn in Ey. destruct (decide (q = r)) as [->|Hq].
      * rewrite lookup_insert_eq in Ey. injection Ey as <-. cbn in Cy. by replace l' with k by congruence.
      * rewrite lookup_insert_ne in Ey by done. destruct Hq. by apply (wf_own s Hwf q r y x l' k).
  - apply (wf_nodup s Hwf).
  - symmetry. by apply slice_len_children.
Qed.
End delivery.

(** ** Closing and replacing *)

(** Closing a receiver leaves attached to it the senders its loop jumps over: every second
    one, but never the last.  No buffer is closed and no other list changes. *)
Theorem receiver_close_exact (s : store) (r : nat) (Hwf : wf s) (Hr : isReceiver s r) :
  exists s', ReceiverClose r s = Some s' /\ wf s' /\ children s' r = survivors (children s r) /\
    (forall q, q <> r -> children s' q = children s q) /\ (forall c, senderAt s' c = senderAt s c).
Proof.
  destruct (ReceiverClose_spec s r Hwf Hr) as (s' & E & W & R & C & O). exists s'.
  split; [done|]. split; [done|]. split; [done|]. split; [done|]. intros c. by apply senderAt_relinked.
Qed.

(** Closing a sender shuts its buffer and takes it, and it alone, out of its receiver's list. *)
Theorem sender_close_exact (s : store) (d r : nat) (x : Sender)
  (Hwf : wf s) (Hd : senderAt s d = Some x) (Hr : parentOf s d = Some r) :
  exists s', SenderClose d s = Some s' /\ wf s' /\
    children s' r = without d (children s r) /\ (forall q, q <> r -> children s' q = children s q) /\
    senderAt s' d = Some (x <| open := false |>) /\ (forall c, c <> d -> senderAt s' c = senderAt s c).
Proof.
  destruct (setSender_wf s d (fun e => e <| open := false |>) Hwf (senderAt_is s d x Hd)) as (s1 & E1 & W1).
  assert (forall q, children s1 q = children s q) as Hch.
  { intros q. destruct (setSender_eq s d (fun e => e <| open := false |>) (senderAt_is s d x Hd)) as (n & e & En & K & E).
    replace s1 with (rekind d n (IsSender (e <| open := false |>)) s) by congruence. by apply rekind_lists. }
  assert (parentOf s1 d = Some r) as Hp1.
  { destruct (setSender_eq s d (fun e => e <| open := false |>) (senderAt_is s d x Hd)) as (n & e & En & K & E).
    replace s1 with (rekind d n (IsSender (e <| open := false |>)) s) by congruence.
    by rewrite (proj2 (rekind_lists s d n _ En)). }
  destruct (ChildClose_spec s1 d r W1 Hp1) as (s' & E' & W' & R' & C'). exists s'.
  unfold SenderClose, SenderShut. rewrite E1. split; [exact E'|]. split; [done|].
  split; [by rewrite C', decide_True, Hch|]. split; [intros q Hq; by rewrite C', decide_False, Hch|].
  split; [|intros c Hc]; rewrite (senderAt_relinked s1 s' _ R'), (senderAt_setSender _ _ _ _ _ E1).
  - by rewrite decide_True, Hd.
  - by rewrite decide_False.
Qed.

(** ** Runs by evaluation *)

Definition properb (s : store) (a : action) : bool :=
  let snd n := match senderAt s n with Some _ => true | None => false end in
  let rcv n := match nodes s !! n with Some x => match kind x with IsReceiver _ _ => true | _ => false end | None => false end in
  match a with
  | ANewReceiver _ | ANewSender _ => true
  | AHandleRTP d r => snd d && rcv r && bool_decide (parentOf s d = None)
  | AStart d | ASenderShut d => snd d
  | ALoop d => match senderAt s d with Some e => match SenderLoop e with Some _ => true | None => false end | None => false end
  | AWrite r _ => rcv r && match writing s !! r with None => true | _ => false end
  | AWriteNext r => match writing s !! r with None => false | _ => true end
  | AClose n => snd n || rcv n
  | AReplace r t => rcv r && rcv t && bool_decide (t <> r)
  end.

Lemma properb_proper s a : properb s a = true -> proper s a.
Proof.
  assert (forall n, match senderAt s n with Some _ => true | None => false end = true -> isSender s n) as Hs.
  { intros n. destruct (senderAt s n) eqn:E; [|done]. intros _. by apply (senderAt_is s n s0). }
  assert (forall n, match nodes s !! n with Some x => match kind x with IsReceiver _ _ => true | _ => false end | None => false end = true ->
    isReceiver s n) as Hr.
  { intros n. destruct (nodes s !! n) as [x|] eqn:E; [|done]. destruct (kind x) as [u v|] eqn:K; [|done].
    intros _. by exists x, u, v. }
  destruct a as [c|c|d r|d|r p|r|d|d|n|r t]; cbn [properb proper]; try done; auto.
  - rewrite !andb_true_iff, bool_decide_eq_true. intros [[H1 H2] H3]. auto.
  - rewrite andb_true_iff. intros [H1 H2]. split; [auto|]. by destruct (writing s !! r).
  - destruct (writing s !! r); [|done]. by intros _; eexists.
  - destruct (senderAt s d) as [e|] eqn:E; [|done]. destruct (SenderLoop e) as [y|] eqn:L; [|done]. intros _.
    unfold senderAt in E. destruct (nodes s !! d) as [x|]; [|done]. cbn in E. destruct (kind x) eqn:K; [done|].
    injection E as ->. by exists x, e, y.
  - rewrite orb_true_iff. intros [H|H]; auto.
  - rewrite !andb_true_iff, bool_decide_eq_true. intros [[H1 H2] H3]. auto.
Qed.

Fixpoint runb (spare : nat -> nat) (l : list action) (s : store) : option store :=
  match l with
  | [] => Some s
  | a :: l => if properb s a then t ← act spare a s; runb spare l t else None
  end.

Lemma runb_run spare l : forall s u, runb spare l s = Some u -> run spare s l u.
Proof.
  induction l as [|a l IH]; intros s u; cbn [runb]; [intros [= <-]; constructor|].
  destruct (properb s a) eqn:Hp; [|done]. destruct (act spare a s) as [t|] eqn:E; [|done]. cbn [mbind option_bind].
  intros H. apply (run_cons spare s a t l u); [by apply properb_proper|done|]. by apply IH.
Qed.

Definition demoSpare (n : nat) : nat := n.
Definition demoStore : store := default emptyStore (runb demoSpare demoTrack emptyStore).

Lemma demoStore_run : run demoSpare emptyStore demoTrack demoStore.
Proof. apply runb_run. vm_compute. reflexivity. Qed.
Lemma demoStore_wf : wf demoStore.
Proof. apply (run_wf demoSpare _ _ _ demoStore_run wf_empty). Qed.

(** A consumer that leaves during a delivery makes the packet go past one of those that
    stay, and to another of them twice. *)
Theorem leaving_disturbs :
  exists u, run demoSpare demoStore
    [AWrite 0 (demoPacket 7); AWriteNext 0; ASenderShut 1; AClose 1; AWriteNext 0; AWriteNext 0; AWriteNext 0] u /\
    writing u !! 0%nat = None /\ children u 0 = [2; 3]%nat /\
    offeredTo u 2 = [] /\ offeredTo u 3 = [demoPacket 7; demoPacket 7].
Proof.
  eexists. split; [apply runb_run; vm_compute; reflexivity|]. vm_compute. repeat split.
Qed.

Definition demoRun : list action :=
  [AWrite 0 (demoPacket 7); AWriteNext 0; ALoop 1; ASenderShut 2; ANewSender demoCodec; AHandleRTP 4 0;
   AWriteNext 0; AWriteNext 0; AWriteNext 0].

Lemma tracks_conserve_witness :
  wf demoStore /\ (forall a, proper demoStore a -> is_Some (act demoSpare a demoStore)) /\
  forall c d, senderAt demoStore c = Some d -> sender_inv d.
Proof. exact (tracks_conserve demoSpare demoTrack demoStore demoStore_run). Defined.

Lemma delivery_exact_witness :
  exists u, writing u !! 0%nat = None /\
    forall c, offeredTo u c = offeredTo demoStore c ++ if decide (c ∈ children demoStore 0) then [demoPacket 7] else [].
Proof.
  exists (default emptyStore (runb demoSpare demoRun demoStore)). split; [vm_compute; reflexivity|].
  apply (delivery_exact demoSpare 0 (demoPacket 7) (tail demoRun)).
  - apply runb_run. vm_compute. reflexivity.
  - exact demoStore_wf.
  - repeat constructor; ((by left) || (by right)).
  - vm_compute. reflexivity.
Defined.

Lemma receiver_close_exact_witness :
  exists s', ReceiverClose 0 demoStore = Some s' /\ wf s' /\ children s' 0 = survivors (children demoStore 0) /\
    (forall q, q <> 0%nat -> children s' q = children demoStore q) /\ (forall c, senderAt s' c = senderAt demoStore c).
Proof.
  apply (receiver_close_exact demoStore 0 demoStore_wf).
  eexists _, _, _. split; vm_compute; reflexivity.
Defined.

Lemma sender_close_exact_witness :
  exists s', SenderClose 2 demoStore = Some s' /\ wf s' /\
    children s' 0 = without 2 (children demoStore 0) /\ (forall q, q <> 0%nat -> children s' q = children demoStore q) /\
    senderAt s' 2 = Some ((default (newSender demoCodec) (senderAt demoStore 2)) <| open := false |>) /\
    (forall c, c <> 2%nat -> senderAt s' c = senderAt demoStore c).
Proof.
  apply (sender_close_exact demoStore 2 0 _ demoStore_wf); vm_compute; reflexivity.
Defined.
