(* ===== verification/Streams.v ===== *)
(** Streams: which sources are dialled, started, reconnected and stopped as consumers come
    and go ([internal/streams/stream.go], [producer.go], [add_consumer.go]; connections from
    [core/connection.go]).

    The code is written as programs over atomic operations, one for each section under a
    mutex, so that they can be run one after the other or interleaved. *)

From S2P Require Import Prelude Text Negotiate Tracks.

(** ** Connections

    A [core.Connection]: the source a producer dialled, or a consumer.  [source] is what
    [GetSource] returns, [consumes] and [produces] the interfaces it has; [owner] is the
    producer that dialled it. *)
Record Conn := mkConn {
  Medias : list Media;
  Receivers : list nat;
  Senders : list nat;
  source : option bytes;
  consumes : bool;
  produces : bool;
  stopped : bool;
  owner : option nat;
}.
#[export] Instance eta_conn : Eta Conn := fun c =>
  mkConn (Medias c) (Receivers c) (Senders c) (source c) (consumes c) (produces c) (stopped c) (owner c).

Inductive state := stateNone | stateMedias | stateTracks | stateStart | stateExternal | stateInternal.
#[export] Instance state_eq : EqDecision state.
Proof. solve_decision. Defined.

Record Producer := mkProducer {
  url : bytes;
  conn : option nat;
  receivers : list nat;
  senders : list nat;
  st : state;
  workerID : Z;
}.
#[export] Instance eta_producer : Eta Producer := fun p =>
  mkProducer (url p) (conn p) (receivers p) (senders p) (st p) (workerID p).

(** One stream with everything it reaches; [locked] is the stream's mutex, [results] what
    the calls of [AddConsumer] returned. *)
Record sys := mkSys {
  tracks : store;
  conns : gmap nat Conn;
  prods : gmap nat Producer;
  producers : list nat;
  consumers : list nat;
  pending : Z;
  locked : bool;
  results : list (nat * option bytes);
}.
#[export] Instance eta_sys : Eta sys := fun s =>
  mkSys (tracks s) (conns s) (prods s) (producers s) (consumers s) (pending s) (locked s) (results s).

(** [RemoveConsumer] takes the consumer out of the list once. *)
Definition dropConsumer (c : nat) (l : list nat) : list nat :=
  match list_find (fun x => x = c) l with Some (i, _) => delete i l | None => l end.

(** What the outside answers: a dial, or the end of a connection's [Start]. *)
Inductive answer := Dialled (r : bytes + Conn) | Ended (err : option bytes).

(** A goroutine to start: the worker of a connection, or a retry after a pause. *)
Inductive task := Worker (p c : nat) (id : Z) | Timer (p : nat) (id retry pause : Z).

Section streams.
Context (spare : nat -> nat).
(** Whether a consumer can handle a track of the codec, and the error if not. *)
Context (refusal : Codec -> option bytes).

Definition setConn (c : nat) (C : Conn) (s : sys) : sys := s <| conns := <[c := C]> (conns s) |>.
Definition setProd (p : nat) (P : Producer) (s : sys) : sys := s <| prods := <[p := P]> (prods s) |>.
Definition setTracks (t : store) (s : sys) : sys := s <| tracks := t |>.

Definition codecOf (t : store) (n : nat) : option Codec := codec <$> nodes t !! n.

(** The track of the list with that very codec. *)
Definition trackOf (t : store) (k : Codec) (l : list nat) : option nat :=
  find (fun n => match codecOf t n with Some k' => bool_decide (address k' = address k) | None => false end) l.

(** [Connection.GetTrack] *)
Definition connGetTrack (c : nat) (k : Codec) (s : sys) : option (nat * sys) :=
  C ← conns s !! c;
  match trackOf (tracks s) k (Receivers C) with
  | Some n => Some (n, s)
  | None =>
      let '(t, n) := NewReceiver k (tracks s) in
      Some (n, setConn c (C <| Receivers := Receivers C ++ [n] |>) (setTracks t s))
  end.

(** [AddTrack] of a consumer: a sender for the track, unless its codec is refused. *)
Definition connAddTrack (c track : nat) (s : sys) : option (option bytes * sys) :=
  C ← conns s !! c;
  k ← codecOf (tracks s) track;
  match refusal k with
  | Some err => Some (Some err, s)
  | None =>
      let '(t, n) := NewSender k (tracks s) in
      t ← HandleRTP spare n track t;
      Some (None, setConn c (C <| Senders := Senders C ++ [n] |>) (setTracks t s))
  end.

Fixpoint closeAll (close : nat -> store -> option store) (l : list nat) (t : store) : option store :=
  match l with [] => Some t | n :: l => t ← close n t; closeAll close l t end.

(** [Connection.Stop] *)
Definition connStop (c : nat) (s : sys) : option sys :=
  C ← conns s !! c;
  t ← closeAll ReceiverClose (Receivers C) (tracks s);
  t ← closeAll SenderClose (Senders C) t;
  Some (setConn c (C <| stopped := true |>) (setTracks t s)).

(** ** Producers *)

(** A connection the outside handed over. *)
Definition adopt (p : nat) (C : Conn) (s : sys) : nat * sys :=
  let c := fresh (dom (conns s)) in (c, setConn c (C <| owner := Some p |> <| stopped := false |>) s).

Definition Dial (p : nat) (ins : list answer) (s : sys) : option (option bytes * sys * list answer) :=
  P ← prods s !! p;
  match st P with
  | stateNone =>
      match ins with
      | Dialled (inl err) :: ins => Some (Some err, s, ins)
      | Dialled (inr C) :: ins =>
          let '(c, s) := adopt p C s in
          Some (None, setProd p (P <| conn := Some c |> <| st := stateMedias |>) s, ins)
      | _ => None
      end
  | _ => Some (None, s, ins)
  end.

Definition GetMedias (p : nat) (s : sys) : option (list Media) :=
  P ← prods s !! p;
  match conn P with None => Some [] | Some c => C ← conns s !! c; Some (Medias C) end.

Definition withTrack (P : Producer) : Producer :=
  match st P with stateMedias => P <| st := stateTracks |> | _ => P end.

Definition GetTrack (p : nat) (k : Codec) (s : sys) : option ((bytes + nat) * sys) :=
  P ← prods s !! p;
  match st P with
  | stateNone => Some (inl (str "get track from none state"), s)
  | _ =>
      match trackOf (tracks s) k (receivers P) with
      | Some n => Some (inr n, s)
      | None =>
          c ← conn P;
          '(n, s) ← connGetTrack c k s;
          Some (inr n, setProd p (withTrack (P <| receivers := receivers P ++ [n] |>)) s)
      end
  end.

Definition AddTrack (p track : nat) (s : sys) : option (option bytes * sys) :=
  P ← prods s !! p;
  match st P with
  | stateNone => Some (Some (str "add track from none state"), s)
  | _ =>
      c ← conn P;
      C ← conns s !! c;
      if negb (consumes C) then None else
      '(e, s) ← connAddTrack c track s;
      match e with
      | Some err => Some (Some err, s)
      | None => Some (None, setProd p (withTrack (P <| senders := senders P ++ [track] |>)) s)
      end
  end.

Definition start (p : nat) (s : sys) : option (sys * list task) :=
  P ← prods s !! p;
  match st P with
  | stateTracks =>
      c ← conn P;
      let id := workerID P + 1 in
      Some (setProd p (P <| st := stateStart |> <| workerID := id |>) s, [Worker p c id])
  | _ => Some (s, [])
  end.

Definition stop (p : nat) (s : sys) : option sys :=
  P ← prods s !! p;
  match st P with
  | stateExternal | stateNone => Some s
  | _ =>
      let P := match st P with stateStart => P <| workerID := workerID P + 1 |> | _ => P end in
      s ← (match conn P with Some c => connStop c s | None => Some s end);
      Some (setProd p (P <| conn := None |> <| st := stateNone |> <| receivers := [] |> <| senders := [] |>) s)
  end.

(** A published source joins the producers. *)
Definition publish (c : nat) (s : sys) : sys :=
  let p := fresh (dom (prods s)) in
  (setProd p (mkProducer (str "external") (Some c) [] [] stateExternal 0) s) <| producers := producers s ++ [p] |>.

(** ** Reconnecting *)

Definition second : Z := 1000000000.
Definition retryDelay (retry : Z) : Z :=
  if retry <? 5 then second
  else if retry <? 10 then second * 5
  else if retry <? 20 then second * 10
  else 60 * second.

(** One media of the new connection: the first receiver with a codec it matches moves. *)
Fixpoint moveReceiver (c : nat) (m : Media) (rs : list nat) (s : sys) : option (list nat * sys) :=
  match rs with
  | [] => Some ([], s)
  | r :: rs =>
      k ← codecOf (tracks s) r;
      match MatchCodec m k with
      | None => '(rs, s) ← moveReceiver c m rs s; Some (r :: rs, s)
      | Some k' =>
          '(t, s) ← connGetTrack c k' s;
          tr ← MoveNode t r (tracks s);
          Some (t :: rs, setTracks tr s)
      end
  end.

Fixpoint moveSenders (c : nat) (m : Media) (ts : list nat) (s : sys) : option sys :=
  match ts with
  | [] => Some s
  | t :: ts =>
      k ← codecOf (tracks s) t;
      match MatchCodec m k with
      | None => moveSenders c m ts s
      | Some _ =>
          C ← conns s !! c;
          if negb (consumes C) then None else '(_, s) ← connAddTrack c t s; moveSenders c m ts s
      end
  end.

Fixpoint moveTracks (c : nat) (ms : list Media) (rs ts : list nat) (s : sys) : option (list nat * sys) :=
  match ms with
  | [] => Some (rs, s)
  | m :: ms =>
      if decide (Direction m = DirectionRecvonly) then
        '(rs, s) ← moveReceiver c m rs s; moveTracks c ms rs ts s
      else if decide (Direction m = DirectionSendonly) then
        s ← moveSenders c m ts s; moveTracks c ms rs ts s
      else moveTracks c ms rs ts s
  end.

Definition reconnect (p : nat) (id retry : Z) (ins : list answer) (s : sys)
    : option (sys * list task * list answer) :=
  P ← prods s !! p;
  if negb (workerID P =? id) then Some (s, [], ins) else
  match ins with
  | Dialled (inl _) :: ins => Some (s, [Timer p id (retry + 1) (retryDelay retry)], ins)
  | Dialled (inr C) :: ins =>
      let '(c, s) := adopt p C s in
      '(rs, s) ← moveTracks c (Medias C) (receivers P) (senders P) s;
      old ← conn P;
      s ← connStop old s;
      Some (setProd p (P <| conn := Some c |> <| receivers := rs |>) s, [Worker p c id], ins)
  | _ => None
  end.

(** A producer whose tracks no consumer reads. *)
Definition idle (p : nat) (s : sys) : option bool :=
  P ← prods s !! p;
  Some (forallb (fun t => bool_decide (children (tracks s) t = [])) (receivers P ++ senders P)).
End streams.

(** ** Programs

    One operation for each section under a mutex, each atomic counter access and each call
    to the outside. *)
Inductive op : Type -> Type :=
| OPendingAdd (d : Z) : op Z
| OPendingLoad : op Z
| OLock : op unit
| OUnlock : op unit
| OProducers : op (list nat)
| OSourceOf (p c : nat) : op bool
| ODial (p : nat) : op (option bytes)
| OGetMedias (p : nat) : op (list Media)
| OConsMedias (c : nat) : op (list Media)
| OGetTrack (p : nat) (k : Codec) : op (bytes + nat)
| OConsAddTrack (c track : nat) : op (option bytes)
| OConsGetTrack (c : nat) (k : Codec) : op nat
| OAddTrack (p track : nat) : op (option bytes)
| OAppendConsumer (c : nat) : op unit
| OAppendProducer (c : nat) : op unit
| ORemoveConsumer (c : nat) : op unit
| OStart (p : nat) : op unit
| OStop (p : nat) : op unit
| OIdle (p : nat) : op bool
| OConnStop (c : nat) : op unit
| OConnStart (c : nat) : op (option bytes)
| OClosed (p : nat) (id : Z) : op bool
| OReconnect (p : nat) (id retry : Z) : op unit
| OReport (c : nat) (e : option bytes) : op unit.

(** [Crash] is an index out of range. *)
Inductive prog (A : Type) : Type :=
| Ret (a : A)
| Crash
| Op {X : Type} (o : op X) (k : X -> prog A).
Arguments Ret {A} a.
Arguments Crash {A}.
Arguments Op {A X} o k.

Fixpoint bind {A B} (m : prog A) (f : A -> prog B) : prog B :=
  match m with Ret a => f a | Crash => Crash | Op o k => Op o (fun x => bind (k x) f) end.

Declare Scope prog_scope.
Notation "x <- o ; k" := (Op o (fun x => k)) (at level 20, o at level 100, k at level 200) : prog_scope.
Notation "'do' x <- m ; k" := (bind m (fun x => k)) (at level 20, x pattern, m at level 100, k at level 200) : prog_scope.
#[local] Open Scope prog_scope.

(** *** [AddConsumer] *)

Record adding := mkAdding {
  prodErrors : list (option bytes);
  prodMedias : list Media;
  prodStarts : list nat;
}.
#[export] Instance eta_adding : Eta adding := fun a => mkAdding (prodErrors a) (prodMedias a) (prodStarts a).

Definition failed (n : nat) (err : bytes) (a : adding) : adding := a <| prodErrors := <[n := Some err]> (prodErrors a) |>.

(** Steps 4 and 5 for a matched pair of codecs: the error of the producer, or whether a
    track was added. *)
Definition connect (c p n : nat) (m : Media) (pk ck : Codec) (a : adding) : prog (bool * adding) :=
  if decide (Direction m = DirectionRecvonly) then
    r <- OGetTrack p pk;
    match r with
    | inl err => Ret (false, failed n err a)
    | inr track => e <- OConsAddTrack c track; Ret (match e with None => true | Some _ => false end, a)
    end
  else if decide (Direction m = DirectionSendonly) then
    track <- OConsGetTrack c ck;
    e <- OAddTrack p track;
    Ret (match e with None => (true, a) | Some err => (false, failed n err a) end)
  else Ret (true, a).

(** The media of one producer; [true] breaks out of the loop over the producers. *)
Fixpoint tryMedias (c p n : nat) (consMedia : Media) (ms : list Media) (a : adding) : prog (bool * adding) :=
  match ms with
  | [] => Ret (false, a)
  | m :: ms =>
      let a := a <| prodMedias := prodMedias a ++ [m] |> in
      match MatchMedia m consMedia with
      | None => tryMedias c p n consMedia ms a
      | Some (pk, ck) =>
          do (added, a) <- connect c p n m pk ck a;
          if (added : bool) then
            let a := a <| prodStarts := prodStarts a ++ [p] |> in
            if MatchAll consMedia then tryMedias c p n consMedia ms a else Ret (true, a)
          else tryMedias c p n consMedia ms a
      end
  end.

Fixpoint tryProducers (c : nat) (consMedia : Media) (ps : list nat) (n : nat) (a : adding) : prog adding :=
  match ps with
  | [] => Ret a
  | p :: ps =>
      loop <- OSourceOf p c;
      if (loop : bool) then tryProducers c consMedia ps (S n) a else
      match prodErrors a !! n with
      | None => Crash
      | Some (Some _) => tryProducers c consMedia ps (S n) a
      | Some None =>
          e <- ODial p;
          match e with
          | Some err => tryProducers c consMedia ps (S n) (failed n err a)
          | None =>
              ms <- OGetMedias p;
              do (brk, a) <- tryMedias c p n consMedia ms a;
              if (brk : bool) then Ret a else tryProducers c consMedia ps (S n) a
          end
      end
  end.

Fixpoint tryAll (c : nat) (consMedias : list Media) (a : adding) : prog adding :=
  match consMedias with
  | [] => Ret a
  | m :: ms => ps <- OProducers; do a <- tryProducers c m ps 0 a; tryAll c ms a
  end.

(** *** Errors *)

Definition appendString (s elem : bytes) : bytes :=
  if contains s elem then s else if decide (s = []) then elem else s ++ str ", " ++ elem.

Definition codecText (dir : bytes) (ms : list Media) : bytes :=
  fold_left (fun t m => if decide (Direction m = dir)
                        then fold_left (fun t k => appendString t (Kind m ++ str ":" ++ PrintName k)) (Codecs m) t
                        else t) ms [].

Definition formatError (consMedias prodMedias : list Media) (prodErrors : list (option bytes)) : bytes :=
  let text := fold_left (fun t e => match e with Some err => appendString t err | None => t end) prodErrors [] in
  if negb (len text =? 0) then str "streams: " ++ text
  else if negb (bool_decide (prodMedias = [])) then
    str "streams: codecs not matched: " ++ codecText DirectionRecvonly prodMedias ++ str " => " ++
    codecText DirectionSendonly consMedias
  else str "streams: unknown error".

(** *** Stopping *)

Fixpoint stopIdle (ps : list nat) : prog unit :=
  match ps with
  | [] => Ret tt
  | p :: ps => i <- OIdle p; if (i : bool) then _ <- OStop p; stopIdle ps else stopIdle ps
  end.

Definition stopProducers : prog unit :=
  n <- OPendingLoad;
  if 0 <? n then Ret tt else
  _ <- OLock; ps <- OProducers; do _ <- stopIdle ps; _ <- OUnlock; Ret tt.

Fixpoint startAll (ps : list nat) : prog unit :=
  match ps with [] => Ret tt | p :: ps => _ <- OStart p; startAll ps end.

Definition AddConsumer (c : nat) : prog (option bytes) :=
  _ <- OPendingAdd 1;
  ps <- OProducers;
  ms <- OConsMedias c;
  do a <- tryAll c ms (mkAdding (map (fun _ => None) ps) [] []);
  n <- OPendingAdd (-1);
  do _ <- (if n =? 0 then stopProducers else Ret tt);
  if decide (prodStarts a = []) then Ret (Some (formatError ms (prodMedias a) (prodErrors a)))
  else _ <- OAppendConsumer c; do _ <- startAll (prodStarts a); Ret None.

(** A source that connects by itself, as when a stream is published to. *)
Definition AddProducer (c : nat) : prog unit := _ <- OAppendProducer c; Ret tt.

Definition RemoveConsumer (c : nat) : prog unit :=
  _ <- OConnStop c; _ <- ORemoveConsumer c; stopProducers.

(** *** Goroutines *)

Definition worker (p c : nat) (id : Z) : prog unit :=
  e <- OConnStart c;
  match e with
  | Some _ => closed <- OClosed p id; if (closed : bool) then Ret tt else _ <- OReconnect p id 0; Ret tt
  | None => _ <- OReconnect p id 0; Ret tt
  end.

Definition program (t : task) : prog unit :=
  match t with Worker p c id => worker p c id | Timer p id retry _ => _ <- OReconnect p id retry; Ret tt end.

(** ** Running

    What an operation returns, changes, starts and consumes; [None] is a panic, or an
    operation that has to wait. *)
Section running.
Context (spare : nat -> nat) (refusal : Codec -> option bytes).

Definition done {X} (x : X) (s : sys) (ins : list answer) : option (X * sys * list task * list answer) :=
  Some (x, s, [], ins).

Definition perform {X} (o : op X) (ins : list answer) (s : sys) : option (X * sys * list task * list answer) :=
  match o in op X return option (X * sys * list task * list answer) with
  | OPendingAdd d => done (pending s + d) (s <| pending := pending s + d |>) ins
  | OPendingLoad => done (pending s) s ins
  | OLock => if locked s then None else done tt (s <| locked := true |>) ins
  | OUnlock => done tt (s <| locked := false |>) ins
  | OProducers => done (producers s) s ins
  | OSourceOf p c =>
      P ← prods s !! p; C ← conns s !! c;
      done (match source C with Some src => bool_decide (url P = src) | None => false end) s ins
  | ODial p => '(e, s, ins) ← Dial p ins s; done e s ins
  | OGetMedias p => ms ← GetMedias p s; done ms s ins
  | OConsMedias c => C ← conns s !! c; done (Medias C) s ins
  | OGetTrack p k => '(r, s) ← GetTrack p k s; done r s ins
  | OConsAddTrack c track => '(e, s) ← connAddTrack spare refusal c track s; done e s ins
  | OConsGetTrack c k =>
      C ← conns s !! c; if negb (produces C) then None else '(n, s) ← connGetTrack c k s; done n s ins
  | OAddTrack p track => '(e, s) ← AddTrack spare refusal p track s; done e s ins
  | OAppendConsumer c => if locked s then None else done tt (s <| consumers := consumers s ++ [c] |>) ins
  | OAppendProducer c =>
      if locked s then None else
      done tt (publish c s) ins
  | ORemoveConsumer c =>
      if locked s then None else
      done tt (s <| consumers := dropConsumer c (consumers s) |>) ins
  | OStart p => '(s, ts) ← start p s; Some (tt, s, ts, ins)
  | OStop p => s ← stop p s; done tt s ins
  | OIdle p => b ← idle p s; done b s ins
  | OConnStop c => s ← connStop c s; done tt s ins
  | OConnStart c => match ins with Ended e :: ins => done e s ins | _ => None end
  | OClosed p id => P ← prods s !! p; done (negb (workerID P =? id)) s ins
  | OReconnect p id retry => '(s, ts, ins) ← reconnect spare refusal p id retry ins s; Some (tt, s, ts, ins)
  | OReport c e => done tt (s <| results := results s ++ [(c, e)] |>) ins
  end.

(** A program alone. *)
Fixpoint exec {A} (m : prog A) (ins : list answer) (s : sys) : option (A * sys * list task * list answer) :=
  match m with
  | Ret a => Some (a, s, [], ins)
  | Crash => None
  | Op o k =>
      '(x, s, ts, ins) ← perform o ins s; '(a, s, ts', ins) ← exec (k x) ins s; Some (a, s, ts ++ ts', ins)
  end.

(** Programs interleaved: one operation of the [i]-th goroutine. *)
Definition turn (i : nat) (ins : list answer) (c : sys * list (prog unit)) : option (sys * list (prog unit)) :=
  m ← c.2 !! i;
  match m with
  | Op o k =>
      '(x, s, ts, _) ← perform o ins c.1; Some (s, <[i := k x]> c.2 ++ map program ts)
  | _ => None
  end.

Fixpoint turns (l : list (nat * list answer)) (c : sys * list (prog unit)) : option (sys * list (prog unit)) :=
  match l with [] => Some c | (i, ins) :: l => c ← turn i ins c; turns l c end.
End running.

(** A call of [AddConsumer] as a goroutine. *)
Definition adder (c : nat) : prog unit := bind (AddConsumer c) (fun e => Op (OReport c e) Ret).

(** ** A demonstration: a camera and two consumers *)

Definition camVideo : Codec := mkCodec 1 CodecH264 90000 0 [] PayloadTypeRAW.
Definition camAudio : Codec := mkCodec 2 CodecAAC 16000 1 [] PayloadTypeRAW.
Definition camConn : Conn :=
  mkConn [mkMedia KindVideo DirectionRecvonly [camVideo]; mkMedia KindAudio DirectionRecvonly [camAudio]]
    [] [] None false true false None.
Definition mp4Conn : Conn :=
  mkConn [mkMedia KindVideo DirectionSendonly [mkCodec 3 CodecH264 0 0 [] 0; mkCodec 4 CodecH265 0 0 [] 0];
          mkMedia KindAudio DirectionSendonly [mkCodec 5 CodecAAC 0 0 [] 0]] [] [] None true false false None.
Definition videoConn : Conn :=
  mkConn [mkMedia KindVideo DirectionSendonly [mkCodec 6 CodecH264 0 0 [] 0]] [] [] None true false false None.
Definition newProducer (u : bytes) : Producer := mkProducer u None [] [] stateNone 0.
(** Producer 0; the consumers are the connections 10 and 11. *)
Definition demoSys : sys :=
  mkSys emptyStore {[ 10%nat := mp4Conn; 11%nat := videoConn ]} {[ 0%nat := newProducer (str "petlibro://feeder") ]}
    [0%nat] [] 0 false [].
Definition anything (_ : Codec) : option bytes := None.

Definition view (s : sys) : list state * list Z * list nat * Z :=
  let P := default (newProducer []) (prods s !! 0%nat) in
  ([st P], [workerID P], consumers s, pending s).

Example demo_add : (fun r : option bytes * sys * list task * list answer => let '(e, s, ts, _) := r in (e, view s, ts, map (children (tracks s)) [0; 2]%nat)) <$>
  exec (fun n => n) anything (AddConsumer 10) [Dialled (inr camConn)] demoSys =
  Some (None, ([stateStart], [1], [10%nat], 0), [Worker 0 12 1], [[1]; [3]]%nat).
Proof. vm_compute. reflexivity. Qed.
Example demo_remove : (fun r : unit * sys * list task * list answer => let '(_, s, ts, _) := r in (view s, ts)) <$>
  exec (fun n => n) anything (do _ <- AddConsumer 10; RemoveConsumer 10) [Dialled (inr camConn)] demoSys =
  Some (([stateNone], [2], [], 0), [Worker 0 12 1]).
Proof. vm_compute. reflexivity. Qed.
