(* ===== verification/StreamsFacts.v ===== *)
(** What holds of streams: one live worker for a started producer and none otherwise, no
    connection left open, and what adding, removing and reconnecting do. *)

From S2P Require Import Prelude Text Negotiate Tracks TracksFacts Streams.

(** ** Workers and connections

    A worker or pending retry, by its producer and number. *)
Definition ticket := (nat * Z)%type.
Definition ticketOf (t : task) : ticket := match t with Worker p _ id => (p, id) | Timer p id _ _ => (p, id) end.

Definition countOf (p : nat) (id : Z) (L : list ticket) : nat := length (filter (fun t => t = (p, id)) L).

(** Given the tickets of the goroutines at work. *)
Record sys_inv (s : sys) (L : list ticket) : Prop := {
  iv_known : forall p id, (p, id) ∈ L -> exists P, prods s !! p = Some P /\ id <= workerID P;
  iv_one : forall p P, prods s !! p = Some P ->
    countOf p (workerID P) L = if decide (st P = stateStart) then 1%nat else 0%nat;
  iv_none : forall p P, prods s !! p = Some P -> st P = stateNone ->
    conn P = None /\ receivers P = [] /\ senders P = [];
  iv_open : forall c C p, conns s !! c = Some C -> owner C = Some p -> stopped C = false ->
    exists P, prods s !! p = Some P /\ conn P = Some c;
}.

Lemma countOf_app p id L M : countOf p id (L ++ M) = (countOf p id L + countOf p id M)%nat.
Proof. unfold countOf. by rewrite filter_app, length_app. Qed.

Lemma countOf_none p id L : (forall q i, (q, i) ∈ L -> q = p -> i < id) -> countOf p id L = 0%nat.
Proof.
  intros H. unfold countOf. destruct (filter _ L) as [|[q i] l] eqn:E; [done|].
  assert ((q, i) ∈ filter (fun t => t = (p, id)) L) as Hin by (rewrite E; by left).
  apply list_elem_of_filter in Hin as [Heq Hin]. injection Heq as -> ->. specialize (H p id Hin eq_refl). lia.
Qed.

Lemma countOf_cons p id q i L : countOf p id ((q, i) :: L) = ((if decide ((q, i) = (p, id)) then 1 else 0) + countOf p id L)%nat.
Proof. unfold countOf. rewrite filter_cons. by case_decide. Qed.

(** ** Operations that leave producers alone *)

(** Connections may stop and get tracks, and unowned ones may appear. *)
Definition conns_kept (s s' : sys) : Prop :=
  forall c C', conns s' !! c = Some C' -> exists C, conns s !! c = Some C /\ owner C' = owner C /\
    (stopped C' = false -> stopped C = false).

Lemma inv_kept s s' L : prods s' = prods s -> conns_kept s s' -> sys_inv s L -> sys_inv s' L.
Proof.
  intros Hp Hc [I1 I2 I3 I4]. split; rewrite ?Hp; try done.
  intros c C' p E Ho Hs. destruct (Hc c C' E) as (C & EC & O & S). rewrite Ho in O. apply (I4 c C p); auto.
Qed.

Lemma conns_kept_refl s : conns_kept s s.
Proof. intros c C E. by exists C. Qed.
Lemma conns_kept_trans s t u : conns_kept s t -> conns_kept t u -> conns_kept s u.
Proof.
  intros H1 H2 c C E. destruct (H2 c C E) as (C1 & E1 & O1 & S1). destruct (H1 c C1 E1) as (C2 & E2 & O2 & S2).
  exists C2. split; [done|]. split; [congruence|auto].
Qed.

Lemma conns_kept_set s c C C' : conns s !! c = Some C -> owner C' = owner C -> (stopped C' = false -> stopped C = false) ->
  conns_kept s (setConn c C' s).
Proof.
  intros E O S d D. unfold setConn. cbn. destruct (decide (d = c)) as [->|Hd].
  - rewrite lookup_insert_eq. intros [= <-]. by exists C.
  - rewrite lookup_insert_ne by done. intros E'. by exists D.
Qed.

Section ops.
Context (spare : nat -> nat) (refusal : Codec -> option bytes).

Lemma connGetTrack_kept c k s n s' : connGetTrack c k s = Some (n, s') -> prods s' = prods s /\ conns_kept s s'.
Proof.
  unfold connGetTrack. destruct (conns s !! c) as [C|] eqn:E; [|done]. cbn [mbind option_bind].
  destruct (trackOf (tracks s) k (Receivers C)).
  - intros [= <- <-]. split; [done|apply conns_kept_refl].
  - destruct (NewReceiver k (tracks s)) as [t m]. intros [= <- <-]. split; [done|].
    by apply (conns_kept_set (setTracks t s) c C).
Qed.

Lemma connAddTrack_kept c t s e s' : connAddTrack spare refusal c t s = Some (e, s') -> prods s' = prods s /\ conns_kept s s'.
Proof.
  unfold connAddTrack. destruct (conns s !! c) as [C|] eqn:E; [|done]. cbn [mbind option_bind].
  destruct (codecOf (tracks s) t); [|done]. cbn [mbind option_bind]. destruct (refusal _).
  - intros [= <- <-]. split; [done|apply conns_kept_refl].
  - destruct (NewSender _ _) as [t1 n]. destruct (HandleRTP _ _ _ _) as [t2|]; [|done]. intros [= <- <-]. split; [done|].
    by apply (conns_kept_set (setTracks t2 s) c C).
Qed.

Lemma connStop_kept c s s' : connStop c s = Some s' ->
  prods s' = prods s /\ conns_kept s s' /\ (forall C, conns s' !! c = Some C -> stopped C = true).
Proof.
  unfold connStop. destruct (conns s !! c) as [C|] eqn:E; [|done]. cbn [mbind option_bind].
  destruct (closeAll _ _ _) as [t|]; [|done]. cbn [mbind option_bind]. destruct (closeAll _ _ _) as [t'|]; [|done].
  intros [= <-]. split; [done|]. split; [by apply (conns_kept_set (setTracks t' s) c C)|].
  intros D. unfold setConn. cbn. rewrite lookup_insert_eq. by intros [= <-].
Qed.

Lemma moveReceiver_kept c m rs : forall s rs' s', moveReceiver c m rs s = Some (rs', s') -> prods s' = prods s /\ conns_kept s s'.
Proof.
  induction rs as [|r rs IH]; intros s rs' s'; cbn [moveReceiver]; [intros [= <- <-]; split; [done|apply conns_kept_refl]|].
  destruct (codecOf (tracks s) r); [|done]. cbn [mbind option_bind]. destruct (MatchCodec m _).
  - destruct (connGetTrack c _ s) as [[t s1]|] eqn:E1; [|done]. cbn [mbind option_bind].
    destruct (MoveNode t r (tracks s1)) as [tr|]; [|done]. intros [= <- <-]. apply connGetTrack_kept in E1 as [P1 C1].
    split; [done|]. exact C1.
  - destruct (moveReceiver c m rs s) as [[rs1 s1]|] eqn:E1; [|done]. intros [= <- <-]. by apply (IH s rs1).
Qed.

Lemma moveSenders_kept c m ts : forall s s', moveSenders spare refusal c m ts s = Some s' -> prods s' = prods s /\ conns_kept s s'.
Proof.
  induction ts as [|t ts IH]; intros s s'; cbn [moveSenders]; [intros [= <-]; split; [done|apply conns_kept_refl]|].
  destruct (codecOf (tracks s) t); [|done]. cbn [mbind option_bind]. destruct (MatchCodec m _); [|by apply IH].
  destruct (conns s !! c) as [C|]; [|done]. cbn [mbind option_bind]. destruct (negb _); [done|].
  destruct (connAddTrack spare refusal c t s) as [[e s1]|] eqn:E1; [|done]. cbn [mbind option_bind]. intros E2.
  apply connAddTrack_kept in E1 as [P1 C1]. destruct (IH s1 s' E2) as [P2 C2].
  split; [congruence|by apply (conns_kept_trans s s1)].
Qed.

Lemma moveTracks_kept c ms : forall rs ts s rs' s', moveTracks spare refusal c ms rs ts s = Some (rs', s') ->
  prods s' = prods s /\ conns_kept s s'.
Proof.
  induction ms as [|m ms IH]; intros rs ts s rs' s'; cbn [moveTracks]; [intros [= <- <-]; split; [done|apply conns_kept_refl]|].
  case_decide; [|case_decide; [|apply IH]].
  - destruct (moveReceiver c m rs s) as [[rs1 s1]|] eqn:E1; [|done]. cbn [mbind option_bind]. intros E2.
    apply moveReceiver_kept in E1 as [P1 C1]. destruct (IH rs1 ts s1 rs' s' E2) as [P2 C2].
    split; [congruence|by apply (conns_kept_trans s s1)].
  - destruct (moveSenders spare refusal c m ts s) as [s1|] eqn:E1; [|done]. cbn [mbind option_bind]. intros E2.
    apply moveSenders_kept in E1 as [P1 C1]. destruct (IH rs ts s1 rs' s' E2) as [P2 C2].
    split; [congruence|by apply (conns_kept_trans s s1)].
Qed.
End ops.

(** ** Operations on a producer *)

Definition quietProd (P : Producer) : Prop := st P = stateNone -> conn P = None /\ receivers P = [] /\ senders P = [].

Lemma inv_set s L p P P' s' M : sys_inv s L -> prods s !! p = Some P -> prods s' = <[p := P']> (prods s) ->
  workerID P <= workerID P' ->
  (forall q i, (q, i) ∈ M -> (q, i) ∈ L \/ (q = p /\ i <= workerID P')) ->
  countOf p (workerID P') M = (if decide (st P' = stateStart) then 1%nat else 0%nat) ->
  (forall q i, q <> p -> countOf q i M = countOf q i L) -> quietProd P' ->
  (forall c C q, conns s' !! c = Some C -> owner C = Some q -> stopped C = false ->
    (q <> p /\ exists C0, conns s !! c = Some C0 /\ owner C0 = Some q /\ stopped C0 = false) \/ (q = p /\ conn P' = Some c)) ->
  sys_inv s' M.
Proof.
  intros [I1 I2 I3 I4] Hp Hs Hw Hin Hc Ho Hq Hop. split.
  - intros q i Hqi. rewrite Hs. destruct (decide (q = p)) as [->|Hqp].
    + rewrite lookup_insert_eq. exists P'. split; [done|]. destruct (Hin p i Hqi) as [H|[_ H]]; [|done].
      destruct (I1 p i H) as (P0 & E & Hle). replace P0 with P in * by congruence. lia.
    + rewrite lookup_insert_ne by done. destruct (Hin q i Hqi) as [H|[-> _]]; [by apply I1|done].
  - intros q Q. rewrite Hs. destruct (decide (q = p)) as [->|Hqp].
    + rewrite lookup_insert_eq. by intros [= <-].
    + rewrite lookup_insert_ne by done. intros E. rewrite Ho by done. by apply I2.
  - intros q Q. rewrite Hs. destruct (decide (q = p)) as [->|Hqp].
    + rewrite lookup_insert_eq. by intros [= <-].
    + rewrite lookup_insert_ne by done. by apply I3.
  - intros c C q E O S. rewrite Hs. destruct (Hop c C q E O S) as [(Hqp & C0 & E0 & O0 & S0)|[-> H]].
    + rewrite lookup_insert_ne by done. by apply (I4 c C0).
    + rewrite lookup_insert_eq. by exists P'.
Qed.

(** The connections when producer [p] keeps or loses its own. *)
Lemma open_kept s s' L p P : sys_inv s L -> prods s !! p = Some P -> conns_kept s s' ->
  forall c C q, conns s' !! c = Some C -> owner C = Some q -> stopped C = false ->
    (q <> p /\ exists C0, conns s !! c = Some C0 /\ owner C0 = Some q /\ stopped C0 = false) \/ (q = p /\ conn P = Some c).
Proof.
  intros I Hp K c C q E O S. destruct (K c C E) as (C0 & E0 & O0 & S0). rewrite O in O0.
  destruct (decide (q = p)) as [->|Hq].
  - right. split; [done|]. destruct (iv_open _ _ I c C0 p E0 (eq_sym O0) (S0 S)) as (P0 & EP & H). congruence.
  - left. split; [done|]. exists C0. auto.
Qed.

Lemma open_adopted s s1 C0 L p P (c0 : nat) : sys_inv s L -> prods s !! p = Some P -> adopt p C0 s = (c0, s1) ->
  prods s1 = prods s /\ tracks s1 = tracks s /\ conns s !! c0 = None /\
  conns s1 = <[c0 := C0 <| owner := Some p |> <| stopped := false |>]> (conns s).
Proof.
  intros I Hp. unfold adopt. intros [= <- <-]. split; [done|]. split; [done|]. split; [|done].
  apply not_elem_of_dom, is_fresh.
Qed.

(** The state may go on from medias to tracks, the worker and the connection stay. *)
Definition sameWorker (P P' : Producer) : Prop :=
  workerID P' = workerID P /\ conn P' = conn P /\ (st P' = stateStart <-> st P = stateStart) /\ st P' <> stateNone.

Lemma inv_tracks s s' L p P P' : sys_inv s L -> prods s !! p = Some P -> prods s' = <[p := P']> (prods s) ->
  conns_kept s s' -> sameWorker P P' -> sys_inv s' L.
Proof.
  intros I Hp Hs K (W & C & S & N). apply (inv_set s L p P P' s' L); try done.
  - lia.
  - intros q i H. by left.
  - rewrite W, (iv_one _ _ I p P Hp). repeat case_decide; try done; exfalso; tauto.
  - rewrite C. by apply (open_kept s s' L p P).
Qed.

Lemma sameWorker_track P P1 : workerID P1 = workerID P -> conn P1 = conn P -> st P1 = st P -> st P <> stateNone ->
  sameWorker P (withTrack P1).
Proof.
  intros W C S N. unfold withTrack, sameWorker. rewrite <- S in N |- *. destruct (st P1) eqn:E; cbn; rewrite ?E; try done;
    (split; [done|]; split; [done|]; split; [|done]; split; congruence).
Qed.

Section changes.
Context (spare : nat -> nat) (refusal : Codec -> option bytes).

Lemma Dial_inv p ins s L e s' ins' : sys_inv s L -> Dial p ins s = Some (e, s', ins') -> sys_inv s' L.
Proof.
  intros I. unfold Dial. destruct (prods s !! p) as [P|] eqn:Hp; [|done]. cbn [mbind option_bind].
  destruct (st P) eqn:S; try (intros [= <- <- <-]; exact I).
  destruct ins as [|[[err|C]|] ins]; try done; [intros [= <- <- <-]; exact I|].
  destruct (adopt p C s) as [c s1] eqn:A. destruct (open_adopted s s1 C L p P c I Hp A) as (P1 & T1 & N1 & C1).
  intros [= <- <- <-]. destruct (iv_none _ _ I p P Hp S) as (Hc & _ & _).
  apply (inv_set s L p P (P <| conn := Some c |> <| st := stateMedias |>) _ L I Hp); [cbn; by rewrite P1|done|by left|..]; cbn.
  - rewrite (iv_one _ _ I p P Hp), S. done.
  - done.
  - done.
  - intros d D q. rewrite C1. destruct (decide (d = c)) as [->|Hd].
    + rewrite lookup_insert_eq. intros [= <-] [= <-] _. by right.
    + rewrite lookup_insert_ne by done. intros E O Hst. left. destruct (decide (q = p)) as [->|Hq].
      * destruct (iv_open _ _ I d D p E O Hst) as (P0 & EP & H). congruence.
      * split; [done|]. by exists D.
Qed.

Lemma GetTrack_inv p k s L r s' : sys_inv s L -> GetTrack p k s = Some (r, s') -> sys_inv s' L.
Proof.
  intros I. unfold GetTrack. destruct (prods s !! p) as [P|] eqn:Hp; [|done]. cbn [mbind option_bind].
  destruct (decide (st P = stateNone)) as [S|S]; [rewrite S; intros [= <- <-]; exact I|].
  intros E. assert ((match trackOf (tracks s) k (receivers P) with
      | Some n => Some (inr n, s)
      | None => c ← conn P; '(n, s) ← connGetTrack c k s;
          Some (inr n, setProd p (withTrack (P <| receivers := receivers P ++ [n] |>)) s) end) = Some (r, s')) as E'
    by (destruct (st P); done). clear E.
  destruct (trackOf _ _ _); [injection E' as <- <-; exact I|].
  destruct (conn P) as [c|] eqn:Hc; [|done]. cbn [mbind option_bind] in E'.
  destruct (connGetTrack c k s) as [[n s1]|] eqn:E1; [|done]. injection E' as <- <-.
  destruct (connGetTrack_kept c k s n s1 E1) as [P1 K1].
  apply (inv_tracks s _ L p P (withTrack (P <| receivers := receivers P ++ [n] |>)) I Hp); [cbn; by rewrite P1|exact K1|].
  by apply sameWorker_track.
Qed.

Lemma AddTrack_inv p t s L r s' : sys_inv s L -> AddTrack spare refusal p t s = Some (r, s') -> sys_inv s' L.
Proof.
  intros I. unfold AddTrack. destruct (prods s !! p) as [P|] eqn:Hp; [|done]. cbn [mbind option_bind].
  destruct (decide (st P = stateNone)) as [S|S]; [rewrite S; intros [= <- <-]; exact I|].
  intros E. assert ((c ← conn P; C ← conns s !! c; if negb (consumes C) then None else
      '(e, s) ← connAddTrack spare refusal c t s;
      match e with Some err => Some (Some err, s)
      | None => Some (None, setProd p (withTrack (P <| senders := senders P ++ [t] |>)) s) end) = Some (r, s')) as E'
    by (destruct (st P); done). clear E.
  destruct (conn P) as [c|] eqn:Hc; [|done]. cbn [mbind option_bind] in E'.
  destruct (conns s !! c) as [C|]; [|done]. cbn [mbind option_bind] in E'. destruct (negb _); [done|].
  destruct (connAddTrack spare refusal c t s) as [[e s1]|] eqn:E1; [|done]. cbn [mbind option_bind] in E'.
  destruct (connAddTrack_kept spare refusal c t s e s1 E1) as [P1 K1].
  destruct e; injection E' as <- <-; [by apply (inv_kept s)|].
  apply (inv_tracks s _ L p P (withTrack (P <| senders := senders P ++ [t] |>)) I Hp); [cbn; by rewrite P1|exact K1|].
  by apply sameWorker_track.
Qed.

Lemma external_inv c s L p : sys_inv s L -> prods s !! p = None ->
  sys_inv (setProd p (mkProducer (str "external") (Some c) [] [] stateExternal 0) s) L.
Proof.
  intros [I1 I2 I3 I4] Hp. split; cbn.
  - intros q i H. destruct (I1 q i H) as (P & E & Hle). exists P. rewrite lookup_insert_ne by congruence. by split.
  - intros q P. rewrite lookup_insert_Some. intros [[<- <-]|[_ E]]; [|by apply I2]. cbn.
    rewrite decide_False by done. apply countOf_none. intros r i H ->. destruct (I1 _ i H) as (P0 & E & _). congruence.
  - intros q P. rewrite lookup_insert_Some. intros [[<- <-]|[_ E]]; [done|]. by apply (I3 q P).
  - intros d D q E O S. destruct (I4 d D q E O S) as (P & EP & H). exists P. rewrite lookup_insert_ne by congruence. by split.
Qed.

(** The number a producer is about to take is not in use. *)
Lemma next_unused s L p P : sys_inv s L -> prods s !! p = Some P -> countOf p (workerID P + 1) L = 0%nat.
Proof.
  intros I Hp. apply countOf_none. intros q i H ->. destruct (iv_known _ _ I p i H) as (P0 & E & Hle).
  replace P0 with P in * by congruence. lia.
Qed.

Lemma start_inv p s L s' ts : sys_inv s L -> start p s = Some (s', ts) -> sys_inv s' (L ++ map ticketOf ts).
Proof.
  intros I. unfold start. destruct (prods s !! p) as [P|] eqn:Hp; [|done]. cbn [mbind option_bind].
  destruct (decide (st P = stateTracks)) as [S|S].
  2: { intros E. assert (Some (s, []) = Some (s', ts)) as [= <- <-] by (rewrite <- E; by destruct (st P)).
       cbn. by rewrite app_nil_r. }
  rewrite S. destruct (conn P) as [c|] eqn:Hc; [|done]. cbn [mbind option_bind]. intros [= <- <-]. cbn [map ticketOf].
  apply (inv_set s L p P (P <| st := stateStart |> <| workerID := workerID P + 1 |>)); cbn; try done.
  - lia.
  - intros q i. rewrite elem_of_app, list_elem_of_singleton. intros [H|[= -> ->]]; [by left|]. right. split; [done|lia].
  - rewrite countOf_app, (next_unused s L p P I Hp), countOf_cons, decide_True by done. done.
  - intros q i Hq. rewrite countOf_app, countOf_cons, decide_False by congruence. unfold countOf. cbn. lia.
  - by apply (open_kept s s L p P I Hp (conns_kept_refl s)).
Qed.

Lemma stop_inv p s L s' : sys_inv s L -> stop p s = Some s' -> sys_inv s' L.
Proof.
  clear spare refusal. intros I. unfold stop. destruct (prods s !! p) as [P|] eqn:Hp; [|done]. cbn [mbind option_bind].
  destruct (decide (st P = stateExternal \/ st P = stateNone)) as [S|S].
  { intros E. assert (Some s = Some s') as [= <-] by (rewrite <- E; by destruct S as [-> | ->]). exact I. }
  set (P1 := match st P with stateStart => P <| workerID := workerID P + 1 |> | _ => P end).
  intros E. assert ((s1 ← (match conn P with Some c => connStop c s | None => Some s end);
    Some (setProd p (P1 <| conn := None |> <| st := stateNone |> <| receivers := [] |> <| senders := [] |>) s1)) = Some s') as E'.
  { rewrite <- E. unfold P1. destruct (st P) eqn:Es; try done; exfalso; tauto. }
  clear E. destruct (match conn P with Some c => connStop c s | None => Some s end) as [s1|] eqn:E1; [|done].
  cbn [mbind option_bind] in E'. injection E' as <-.
  assert (prods s1 = prods s /\ conns_kept s s1 /\ forall c C, conn P = Some c -> conns s1 !! c = Some C -> stopped C = true) as (H1 & H2 & H3).
  { destruct (conn P) as [c|].
    - destruct (connStop_kept c s s1 E1) as (A & B & D). split; [done|]. split; [done|]. intros c' C [= <-]. apply D.
    - injection E1 as <-. split; [done|]. split; [apply conns_kept_refl|done]. }
  assert (workerID P1 = if decide (st P = stateStart) then workerID P + 1 else workerID P) as HW.
  { unfold P1. case_decide as D; [by rewrite D|]. by destruct (st P). }
  apply (inv_set s L p P (P1 <| conn := None |> <| st := stateNone |> <| receivers := [] |> <| senders := [] |>));
    cbn; try done.
  - by rewrite H1.
  - rewrite HW. case_decide; lia.
  - by left.
  - rewrite HW. case_decide as D; [by apply (next_unused s)|]. rewrite (iv_one _ _ I p P Hp). by rewrite decide_False.
  - intros d D q Ed O Hs. destruct (open_kept s s1 L p P I Hp H2 d D q Ed O Hs) as [H|[-> H]]; [by left|].
    exfalso. rewrite (H3 d D H Ed) in Hs. done.
Qed.

Lemma inv_drop s L p i : sys_inv s ((p, i) :: L) -> (forall P, prods s !! p = Some P -> workerID P <> i) -> sys_inv s L.
Proof.
  intros [I1 I2 I3 I4] H. split; try done.
  - intros q j Hq. apply I1. by right.
  - intros q Q E. rewrite <- (I2 q Q E), countOf_cons, decide_False; [done|]. intros [= -> ->]. by apply (H Q).
Qed.

Lemma inv_perm s L M : L ≡ₚ M -> sys_inv s L -> sys_inv s M.
Proof.
  intros HP [I1 I2 I3 I4]. split; try done.
  - intros p i. rewrite <- HP. apply I1.
  - intros p P E. rewrite <- (I2 p P E). unfold countOf. by rewrite HP.
Qed.

Lemma reconnect_inv p i retry ins s L s' ts ins' : sys_inv s ((p, i) :: L) ->
  reconnect spare refusal p i retry ins s = Some (s', ts, ins') -> sys_inv s' (L ++ map ticketOf ts).
Proof.
  intros I. unfold reconnect. destruct (prods s !! p) as [P|] eqn:Hp; [|done]. cbn [mbind option_bind].
  destruct (Z.eqb_spec (workerID P) i) as [W|W]; cbn [negb].
  2: { intros [= <- <- <-]. cbn. rewrite app_nil_r. apply (inv_drop s L p i I). intros P0 E. congruence. }
  assert ((p, i) :: L ≡ₚ L ++ [(p, i)]) as Hperm by apply Permutation_cons_append.
  destruct ins as [|[[err|C]|] ins]; try done.
  { intros [= <- <- <-]. cbn. apply (inv_perm s ((p, i) :: L)); [exact Hperm|exact I]. }
  destruct (adopt p C s) as [c s1] eqn:A. destruct (open_adopted s s1 C _ p P c I Hp A) as (P1 & T1 & N1 & C1).
  destruct (moveTracks spare refusal c (Medias C) (receivers P) (senders P) s1) as [[rs s2]|] eqn:E2; [|done].
  cbn [mbind option_bind]. destruct (conn P) as [old|] eqn:Hold; [|done]. cbn [mbind option_bind].
  destruct (connStop old s2) as [s3|] eqn:E3; [|done]. cbn [mbind option_bind]. intros [= <- <- <-]. cbn [map ticketOf].
  destruct (moveTracks_kept spare refusal _ _ _ _ _ _ _ E2) as [P2 K2]. destruct (connStop_kept old s2 s3 E3) as (P3 & K3 & S3).
  apply (inv_perm _ ((p, i) :: L)); [exact Hperm|].
  apply (inv_set s ((p, i) :: L) p P (P <| conn := Some c |> <| receivers := rs |>)); cbn; try done.
  - congruence.
  - by left.
  - exact (iv_one _ _ I p P Hp).
  - intros Hst. cbn in Hst. destruct (iv_none _ _ I p P Hp Hst) as (H & _). congruence.
  - intros d D q Ed O Hs. destruct (K3 d D Ed) as (D2 & E2' & O2 & S2). destruct (K2 d D2 E2') as (D1 & E1' & O1 & S1).
    specialize (S1 (S2 Hs)). rewrite C1 in E1'. destruct (decide (d = c)) as [->|Hd].
    + right. rewrite lookup_insert_eq in E1'. injection E1' as <-. cbn in O1. split; [congruence|done].
    + rewrite lookup_insert_ne in E1' by done. assert (owner D1 = Some q) as OD by congruence. left.
      destruct (decide (q = p)) as [->|Hq]; [|split; [done|]; by exists D1].
      destruct (iv_open _ _ I d D1 p E1' OD S1) as (P0 & EP & H). replace P0 with P in * by congruence.
      replace d with old in * by congruence. rewrite (S3 D Ed) in Hs. done.
Qed.
End changes.

(** ** Interleavings *)

(** The ticket that an operation uses up. *)
Definition ticketIn {X} (o : op X) : option ticket :=
  match o with OReconnect p id _ => Some (p, id) | _ => None end.

Lemma op_inv spare refusal {X} (o : op X) ins s L x s' ts ins' :
  sys_inv s (match ticketIn o with Some t => t :: L | None => L end) ->
  perform spare refusal o ins s = Some (x, s', ts, ins') -> sys_inv s' (L ++ map ticketOf ts).
Proof.
  intros I E. assert (forall u, sys_inv u L -> sys_inv u (L ++ map ticketOf [])) as Hnil.
  { intros u Hu. cbn. by rewrite app_nil_r. }
  assert (forall u, prods u = prods s -> conns u = conns s -> sys_inv s L -> sys_inv u (L ++ map ticketOf [])) as Hsame.
  { intros u Hp Hc Hs. apply Hnil, (inv_kept s); [done| |done]. intros c C Ec. rewrite Hc in Ec. by exists C. }
  destruct o; cbn [perform ticketIn] in *; unfold done in E;
    try (injection E as <- <- <- <-; by apply Hsame).
  - destruct (locked s); [done|]. injection E as <- <- <- <-. by apply Hsame.
  - destruct (prods s !! p); [|done]. cbn [mbind option_bind] in E. destruct (conns s !! c); [|done].
    injection E as <- <- <- <-. by apply Hsame.
  - destruct (Dial p ins s) as [[[e s1] i1]|] eqn:E1; [|done]. injection E as <- <- <- <-. apply Hnil. by apply (Dial_inv p ins s L e s1 i1).
  - destruct (GetMedias p s); [|done]. injection E as <- <- <- <-. by apply Hsame.
  - destruct (conns s !! c); [|done]. injection E as <- <- <- <-. by apply Hsame.
  - destruct (GetTrack p k s) as [[r s1]|] eqn:E1; [|done]. injection E as <- <- <- <-. apply Hnil. by apply (GetTrack_inv p k s L r).
  - destruct (connAddTrack spare refusal c track s) as [[e s1]|] eqn:E1; [|done]. injection E as <- <- <- <-.
    destruct (connAddTrack_kept _ _ _ _ _ _ _ E1) as [P1 K1]. apply Hnil. by apply (inv_kept s).
  - destruct (conns s !! c) as [C|]; [|done]. cbn [mbind option_bind] in E. destruct (negb _); [done|].
    destruct (connGetTrack c k s) as [[n s1]|] eqn:E1; [|done]. injection E as <- <- <- <-.
    destruct (connGetTrack_kept _ _ _ _ _ E1) as [P1 K1]. apply Hnil. by apply (inv_kept s).
  - destruct (AddTrack spare refusal p track s) as [[e s1]|] eqn:E1; [|done]. injection E as <- <- <- <-.
    apply Hnil. by apply (AddTrack_inv spare refusal p track s L e).
  - destruct (locked s); [done|]. injection E as <- <- <- <-. by apply Hsame.
  - destruct (locked s); [done|]. injection E as <- <- <- <-. apply Hnil.
    pose proof (external_inv c s L (fresh (dom (prods s))) I ltac:(by apply not_elem_of_dom, is_fresh)) as H.
    apply (inv_kept (setProd (fresh (dom (prods s))) (mkProducer (str "external") (Some c) [] [] stateExternal 0) s)); [done| |exact H].
    apply (conns_kept_refl s).
  - destruct (locked s); [done|]. injection E as <- <- <- <-. by apply Hsame.
  - destruct (start p s) as [[s1 t1]|] eqn:E1; [|done]. injection E as <- <- <- <-. by apply (start_inv p s).
  - destruct (stop p s) as [s1|] eqn:E1; [|done]. injection E as <- <- <- <-. apply Hnil. by apply (stop_inv p s).
  - destruct (idle p s); [|done]. injection E as <- <- <- <-. by apply Hsame.
  - destruct (connStop c s) as [s1|] eqn:E1; [|done]. injection E as <- <- <- <-.
    destruct (connStop_kept _ _ _ E1) as (P1 & K1 & _). apply Hnil. by apply (inv_kept s).
  - destruct ins as [|[|]]; try done. injection E as <- <- <- <-. by apply Hsame.
  - destruct (prods s !! p); [|done]. injection E as <- <- <- <-. by apply Hsame.
  - destruct (reconnect spare refusal p id retry ins s) as [[[s1 t1] i1]|] eqn:E1; [|done]. injection E as <- <- <- <-.
    by apply (reconnect_inv spare refusal p id retry ins s L s1 t1 i1).
Qed.

(** A program that is no worker. *)
Inductive calm {A} : prog A -> Prop :=
| calm_ret a : calm (Ret a)
| calm_crash : calm Crash
| calm_op X (o : op X) k : ticketIn o = None -> (forall x, calm (k x)) -> calm (Op o k).

Lemma calm_bind {A B} (m : prog A) (f : A -> prog B) : calm m -> (forall a, calm (f a)) -> calm (bind m f).
Proof. intros H Hf. induction H; cbn [bind]; [apply Hf|constructor|by constructor]. Qed.

Lemma calm_connect c p n m pk ck a : calm (connect c p n m pk ck a).
Proof.
  unfold connect. case_decide; [|case_decide]; [..|constructor]; (apply calm_op; [done|]).
  - intros []; [constructor|]. by repeat constructor.
  - intros t. apply calm_op; [done|]. constructor.
Qed.

Lemma calm_tryMedias c p n cm ms : forall a, calm (tryMedias c p n cm ms a).
Proof.
  induction ms as [|m ms IH]; intros a; cbn [tryMedias]; [constructor|].
  destruct (MatchMedia m cm) as [[pk ck]|]; [|apply IH]. apply calm_bind; [apply calm_connect|].
  intros [[] a']; [|apply IH]. destruct (MatchAll cm); [apply IH|constructor].
Qed.

Lemma calm_tryProducers c cm ps : forall n a, calm (tryProducers c cm ps n a).
Proof.
  induction ps as [|p ps IH]; intros n a; cbn [tryProducers]; [constructor|].
  apply calm_op; [done|]. intros []; [apply IH|]. destruct (prodErrors a !! n) as [[err|]|]; [apply IH| |constructor].
  apply calm_op; [done|]. intros [err|]; [apply IH|]. apply calm_op; [done|]. intros ms.
  apply calm_bind; [apply calm_tryMedias|]. intros [[] a']; [constructor|apply IH].
Qed.

Lemma calm_stopProducers : calm stopProducers.
Proof.
  unfold stopProducers. apply calm_op; [done|]. intros n. destruct (0 <? n); [constructor|].
  apply calm_op; [done|]. intros _. apply calm_op; [done|]. intros ps.
  apply calm_bind; [|intros _; by repeat constructor].
  induction ps as [|p ps IH]; cbn [stopIdle]; [constructor|]. apply calm_op; [done|]. intros []; [|done].
  by apply calm_op.
Qed.

(** [AddConsumer] and [RemoveConsumer] are no workers. *)
Lemma calm_adder c : calm (adder c).
Proof.
  unfold adder. apply calm_bind; [|intros e; apply calm_op; [done|constructor]].
  unfold AddConsumer. apply calm_op; [done|]. intros _. apply calm_op; [done|]. intros ps. apply calm_op; [done|]. intros ms.
  apply calm_bind.
  { generalize (mkAdding (map (fun _ => None) ps) [] []). induction ms as [|m ms IH]; intros a; cbn [tryAll]; [constructor|].
    apply calm_op; [done|]. intros ps'. apply calm_bind; [apply calm_tryProducers|apply IH]. }
  intros a. apply calm_op; [done|]. intros n. apply calm_bind; [destruct (n =? 0); [apply calm_stopProducers|constructor]|].
  intros _. case_decide; [constructor|]. apply calm_op; [done|]. intros _.
  apply calm_bind; [|intros; constructor]. generalize (prodStarts a). clear. intros l.
  induction l as [|p l IH]; cbn [startAll]; [constructor|].
  by apply calm_op.
Qed.

Lemma calm_RemoveConsumer c : calm (RemoveConsumer c).
Proof.
  unfold RemoveConsumer. apply calm_op; [done|]. intros _. apply calm_op; [done|]. intros _. apply calm_stopProducers.
Qed.

Lemma calm_AddProducer c : calm (AddProducer c).
Proof. by repeat constructor. Qed.

(** The goroutines that are workers or retries. *)
Inductive stage : prog unit -> option ticket -> Prop :=
| stage_calm m : calm m -> stage m None
| stage_worker p c id : stage (worker p c id) (Some (p, id))
| stage_closed p id : stage (Op (OClosed p id) (fun closed => if (closed : bool) then Ret tt
                                                              else Op (OReconnect p id 0) (fun _ => Ret tt))) (Some (p, id))
| stage_reconnect p id retry : stage (Op (OReconnect p id retry) (fun _ => Ret tt)) (Some (p, id)).

(** The tickets of the goroutines of a pool. *)
Definition atWork (threads : list (prog unit)) (L : list ticket) : Prop :=
  exists hs, Forall2 stage threads hs /\ L = omap id hs.

Lemma omap_insert_none (hs : list (option ticket)) i :
  hs !! i = Some None -> omap id (<[i := None]> hs) = omap id hs.
Proof. intros H. by rewrite list_insert_id. Qed.

Lemma omap_taken (hs : list (option ticket)) : forall i t, hs !! i = Some (Some t) ->
  omap id hs ≡ₚ t :: omap id (<[i := None]> hs).
Proof.
  induction hs as [|h hs IH]; intros i t Hi; [done|]. destruct i as [|i].
  - injection Hi as ->. reflexivity.
  - cbn in Hi. change (<[S i := None]> (h :: hs)) with (h :: <[i := None]> hs).
    destruct h as [u|]; cbn [omap list_omap id].
    + change (omap id (Some u :: hs)) with (u :: omap id hs).
      change (omap id (Some u :: <[i := None]> hs)) with (u :: omap id (<[i := None]> hs)).
      rewrite (IH i t Hi). apply Permutation_swap.
    + change (omap id (None :: hs)) with (omap id hs).
      change (omap id (None :: <[i := None]> hs)) with (omap id (<[i := None]> hs)). by apply IH.
Qed.

Lemma stage_program t : stage (program t) (Some (ticketOf t)).
Proof. destruct t; constructor. Qed.

Lemma spawn_stages ts : Forall2 stage (map program ts) (map (fun t => Some (ticketOf t)) ts).
Proof. induction ts as [|t ts IH]; constructor; [apply stage_program|done]. Qed.

Lemma omap_spawned ts : omap id (map (fun t => Some (ticketOf t)) ts) = map ticketOf ts.
Proof. induction ts as [|t ts IH]; [done|]. cbn. f_equal. exact IH. Qed.

(** A turn: the goroutine goes on at stage [h], and starts others. *)
Lemma pool_turn threads hs i m h ts : Forall2 stage threads hs -> stage m h -> (i < length threads)%nat ->
  Forall2 stage (<[i := m]> threads ++ map program ts) (<[i := h]> hs ++ map (fun t => Some (ticketOf t)) ts).
Proof.
  intros H Hm Hi. apply Forall2_app; [|apply spawn_stages]. by apply Forall2_insert.
Qed.

Lemma calm_inv {A X} (o : op X) (k : X -> prog A) : calm (Op o k) -> ticketIn o = None /\ forall x, calm (k x).
Proof.
  intros H. change (match Op o k with Op o k => ticketIn o = None /\ forall x, calm (k x) | _ => True end).
  by destruct H.
Qed.

Section pool.
Context (spare : nat -> nat) (refusal : Codec -> option bytes).

Lemma turn_inv i ins s threads L c' : atWork threads L -> sys_inv s L ->
  turn spare refusal i ins (s, threads) = Some c' -> exists L', atWork c'.2 L' /\ sys_inv c'.1 L'.
Proof.
  intros (hs & F & ->) I. unfold turn. cbn [snd fst]. destruct (threads !! i) as [m|] eqn:Ei; [|done]. cbn [mbind option_bind].
  destruct (Forall2_lookup_l _ _ _ _ _ F Ei) as (h & Eh & Hst). pose proof (lookup_lt_Some _ _ _ Ei) as Hi.
  assert (forall m' ts, stage m' None -> h = None -> sys_inv c'.1 (omap id hs ++ map ticketOf ts) ->
    c'.2 = <[i := m']> threads ++ map program ts -> exists L', atWork c'.2 L' /\ sys_inv c'.1 L') as Hcalm.
  { intros m' ts Hm -> Hinv ->. exists (omap id hs ++ map ticketOf ts). split; [|done].
    exists (<[i := None]> hs ++ map (fun t => Some (ticketOf t)) ts). split; [by apply pool_turn|].
    by rewrite omap_app, omap_spawned, omap_insert_none. }
  destruct Hst as [m Hm|p c w|p w|p w retry].
  - destruct m as [|a|X o k]; try done. destruct (calm_inv o k Hm) as [Ho Hk].
    destruct (perform spare refusal o ins s) as [[[[x s1] ts] i1]|] eqn:E; [|done]. intros [= <-].
    apply (Hcalm (k x) ts); try done; [by constructor|]. apply (op_inv spare refusal o ins s (omap id hs) x s1 ts i1); [|done]. by rewrite Ho.
  - unfold worker. cbn [perform]. destruct ins as [|[|e] ins]; try done. cbn. intros [= <-]. cbn [fst snd]. rewrite app_nil_r.
    exists (omap id hs). split; [|done]. exists hs. split; [|done].
    rewrite <- (list_insert_id hs i (Some (p, w)) Eh). apply Forall2_insert; [done|]. destruct e; constructor.
  - cbn [perform]. destruct (prods s !! p) as [P|] eqn:Hp; [|done]. cbn. intros [= <-]. cbn [fst snd]. rewrite app_nil_r.
    destruct (Z.eqb_spec (workerID P) w) as [W|W]; cbn [negb].
    + exists (omap id hs). split; [|done]. exists hs. split; [|done].
      rewrite <- (list_insert_id hs i (Some (p, w)) Eh). apply Forall2_insert; [done|]. constructor.
    + exists (omap id (<[i := None]> hs)). split.
      * exists (<[i := None]> hs). split; [|done]. apply Forall2_insert; [done|]. constructor. constructor.
      * apply (inv_drop s _ p w); [|intros P0 E; congruence]. apply (inv_perm s (omap id hs)); [by apply omap_taken|done].
  - destruct (perform spare refusal (OReconnect p w retry) ins s) as [[[[x s1] ts] i1]|] eqn:E; [|done]. intros [= <-].
    exists (omap id (<[i := None]> hs) ++ map ticketOf ts). cbn [fst snd]. split.
    + exists (<[i := None]> hs ++ map (fun t => Some (ticketOf t)) ts). split; [|by rewrite omap_app, omap_spawned].
      apply pool_turn; [done|repeat constructor|done].
    + apply (op_inv spare refusal (OReconnect p w retry) ins s _ x s1 ts i1); [|done]. cbn [ticketIn].
      apply (inv_perm s (omap id hs)); [by apply omap_taken|done].
Qed.
End pool.

(** A stream before anything happened: no producer has been dialled. *)
Definition initial (s : sys) : Prop :=
  (forall p P, prods s !! p = Some P -> st P = stateNone /\ conn P = None /\ receivers P = [] /\ senders P = []) /\
  (forall c C, conns s !! c = Some C -> owner C = None).

Lemma initial_inv s : initial s -> sys_inv s [].
Proof.
  intros [H1 H2]. split.
  - intros p id H. by apply elem_of_nil in H.
  - intros p P E. destruct (H1 p P E) as (-> & _). done.
  - intros p P E _. by apply (H1 p P).
  - intros c C p E O. rewrite (H2 c C E) in O. done.
Qed.

Lemma calm_pool threads : Forall calm threads -> atWork threads [].
Proof.
  intros H. exists (map (fun _ => None) threads). split.
  - induction H; constructor; [by constructor|done].
  - clear H. induction threads as [|m l IH]; [done|]. cbn. exact IH.
Qed.

(** A stale worker, or a stale retry, leaves the stream as it is. *)
Lemma stale_reconnect spare refusal p id retry ins s P :
  prods s !! p = Some P -> workerID P <> id -> reconnect spare refusal p id retry ins s = Some (s, [], ins).
Proof.
  intros Hp H. unfold reconnect. rewrite Hp. cbn [mbind option_bind].
  by rewrite (proj2 (Z.eqb_neq (workerID P) id) H).
Qed.

(** A worker whose connection ended, or a retry: it is about to look whether its number is
    the current one. *)
Definition resuming (p : nat) (id : Z) (m : prog unit) : Prop :=
  m = Op (OClosed p id) (fun closed => if (closed : bool) then Ret tt else Op (OReconnect p id 0) (fun _ => Ret tt)) \/
  exists retry, m = Op (OReconnect p id retry) (fun _ => Ret tt).

(** With an old number it is at its end after its next step, whatever the outside would
    answer (nothing is asked), and the stream is as it was. *)
Definition staleEnd (spare : nat -> nat) (refusal : Codec -> option bytes) (s : sys) (threads : list (prog unit)) : Prop :=
  forall i p id P m ins, threads !! i = Some m -> resuming p id m -> prods s !! p = Some P -> workerID P <> id ->
    turn spare refusal i ins (s, threads) = Some (s, <[i := Ret tt]> threads).

Lemma stale_turn spare refusal s threads : staleEnd spare refusal s threads.
Proof.
  intros i p id P m ins Hi [->|[retry ->]] HP HW; unfold turn; cbn [snd fst]; rewrite Hi; cbn [mbind option_bind perform].
  - rewrite HP. cbn [mbind option_bind]. rewrite (proj2 (Z.eqb_neq (workerID P) id) HW). cbn. by rewrite app_nil_r.
  - rewrite (stale_reconnect spare refusal p id retry ins s P HP HW). cbn. by rewrite app_nil_r.
Qed.

(** C7. However calls of [AddConsumer] and [RemoveConsumer], connections that end and retries
    are interleaved: a started producer has exactly one worker or pending retry with its
    current number and any other producer has none, a worker or retry with an old number
    ends at its next step without a dial and leaves the stream as it is, and every
    connection that was dialled for a producer is stopped or the producer's current one. *)
Theorem workers_exact (spare : nat -> nat) (refusal : Codec -> option bytes) (s0 : sys) (clients : list (prog unit))
  (l : list (nat * list answer)) (s : sys) (threads : list (prog unit))
  (Hinit : initial s0) (Hclients : Forall calm clients)
  (Hturns : turns spare refusal l (s0, clients) = Some (s, threads)) :
  (exists L, atWork threads L /\ sys_inv s L) /\ staleEnd spare refusal s threads.
Proof.
  split; [|apply stale_turn].
  assert (forall l c c' L, atWork c.2 L -> sys_inv c.1 L -> turns spare refusal l c = Some c' ->
    exists L', atWork c'.2 L' /\ sys_inv c'.1 L') as H.
  { clear. induction l as [|[i ins] l IH]; intros [s ms] c' L A I; cbn [turns]; [intros [= <-]; by exists L|].
    destruct (turn spare refusal i ins (s, ms)) as [c1|] eqn:E; [|done]. cbn [mbind option_bind].
    destruct (turn_inv spare refusal i ins s ms L c1 A I E) as (L1 & A1 & I1). by apply (IH c1 c' L1). }
  apply (H l (s0, clients) (s, threads) []); [by apply calm_pool|by apply initial_inv|done].
Qed.

(** ** Joining while the last consumer leaves *)

Definition playing : sys :=
  match exec (fun n => n) anything (AddConsumer 10) [Dialled (inr camConn)] demoSys with
  | Some (_, s, _, _) => s
  | None => demoSys
  end.

(** [RemoveConsumer 10] up to the counter, [AddConsumer 11] up to its first track, the rest
    of the one, the rest of the other. *)
Definition raceSchedule : list (nat * list answer) :=
  map (fun i => (i, [])) ([0; 0; 0] ++ [1; 1; 1; 1; 1; 1; 1; 1] ++ [0; 0; 0; 0; 0] ++ replicate 11 1)%nat.

(** [stopProducers] reads the counter before it takes the lock.  A consumer that joins
    between the two, and has got its track but not yet attached to it, is left with a track
    of a connection that is stopped, while its [AddConsumer] reports success. *)
Theorem join_races_stop :
  exists s threads, turns (fun n => n) anything raceSchedule (playing, [RemoveConsumer 10; adder 11]) = Some (s, threads) /\
    threads = [Ret tt; Ret tt] /\ results s = [(11%nat, None)] /\ consumers s = [11%nat] /\
    (st <$> prods s !! 0%nat) = Some stateNone /\ (stopped <$> conns s !! 12%nat) = Some true /\
    (Senders <$> conns s !! 11%nat) = Some [4%nat] /\ children (tracks s) 0 = [4%nat].
Proof. eexists _, _. split; [vm_compute; reflexivity|]. vm_compute. repeat split. Qed.

(** A source that is published while a consumer joins lengthens the list of producers, but
    not the list of their errors. *)
Lemma publishing_panics :
  exists s threads, turns (fun n => n) anything (map (fun i => (i, [])) [0; 0; 1; 0; 0; 0]%nat)
    (demoSys <| producers := [] |> <| conns := <[20%nat := camConn]> (conns demoSys) |>,
     [adder 10; AddProducer 20]) = Some (s, threads) /\ threads !! 0%nat = Some Crash.
Proof. eexists _, _. split; [vm_compute; reflexivity|reflexivity]. Qed.

Lemma demoSys_initial : initial demoSys.
Proof.
  split.
  - intros p P. cbn. rewrite lookup_singleton_Some. intros [<- <-]. by repeat split.
  - intros c C. cbn. rewrite lookup_insert_Some, lookup_singleton_Some. intros [[<- <-]|[_ [<- <-]]]; done.
Qed.

Lemma workers_exact_witness :
  exists s threads L, turns (fun n => n) anything
      (map (fun i => (i, [Dialled (inr camConn)])) [0; 1; 0; 0; 0; 0; 0]%nat ++ [(2%nat, [])]) (demoSys, [adder 10; adder 11; RemoveConsumer 10]) =
      Some (s, threads) /\ atWork threads L /\ sys_inv s L.
Proof.
  eexists _, _.
  destruct (workers_exact (fun n => n) anything demoSys [adder 10; adder 11; RemoveConsumer 10]
    (map (fun i => (i, [Dialled (inr camConn)])) [0; 1; 0; 0; 0; 0; 0]%nat ++ [(2%nat, [])]) _ _ demoSys_initial
    ltac:(repeat (apply Forall_cons_2; [first [apply calm_adder|apply calm_RemoveConsumer]|]); apply Forall_nil_2) ltac:(vm_compute; reflexivity)) as ((L & A & I) & _).
  exists L. split; [vm_compute; reflexivity|]. split; [exact A|exact I].
Defined.
