(* ===== verification/Viewers.v ===== *)
(** The state of a stream with its viewers ([internal/streams/stream.go]): what holds between
    the calls, and that each operation of [AddConsumer] and [stopProducers] keeps it. *)

From S2P Require Import Prelude Text Producer Negotiate Tracks TracksFacts Streams StreamsFacts.

(** ** What the streams need of the tracks *)

(** Nodes keep what they are. *)
Record keeps (t t' : store) : Prop := {
  kp_receiver : forall n, isReceiver t n -> isReceiver t' n;
  kp_sender : forall n, isSender t n -> isSender t' n;
  kp_codec : forall n k, codecOf t n = Some k -> codecOf t' n = Some k;
}.

Lemma keeps_refl t : keeps t t.
Proof. by split. Qed.

Lemma keeps_trans t u v : keeps t u -> keeps u v -> keeps t v.
Proof. intros [R1 S1 C1] [R2 S2 C2]. split; auto. Qed.

(** Each node becomes a node of the same kind and codec. *)
Lemma keeps_nodes t t' :
  (forall n x, nodes t !! n = Some x -> exists y, nodes t' !! n = Some y /\ kind y = kind x /\ codec y = codec x) -> keeps t t'.
Proof.
  intros H. split.
  - intros n (x & a & b & E & K). destruct (H n x E) as (y & Ey & Ky & _). exists y, a, b. by rewrite Ky.
  - intros n (x & d & E & K). destruct (H n x E) as (y & Ey & Ky & _). exists y, d. by rewrite Ky.
  - intros n k. unfold codecOf. destruct (nodes t !! n) as [x|] eqn:E; [|done].
    destruct (H n x E) as (y & -> & _ & Cy). cbn. by rewrite Cy.
Qed.

(** They keep their parents too. *)
Record grows (t t' : store) : Prop := {
  gr_keeps : keeps t t';
  gr_parent : forall n p, parentOf t n = Some p -> parentOf t' n = Some p;
}.

Lemma gr_receiver t t' : grows t t' -> forall n, isReceiver t n -> isReceiver t' n.
Proof. intros G. apply G. Qed.
Lemma gr_sender t t' : grows t t' -> forall n, isSender t n -> isSender t' n.
Proof. intros G. apply G. Qed.

Lemma grows_refl t : grows t t.
Proof. by split; [apply keeps_refl|]. Qed.

Lemma grows_trans t u v : grows t u -> grows u v -> grows t v.
Proof. intros [K1 P1] [K2 P2]. split; [by apply (keeps_trans t u)|auto]. Qed.

Lemma grows_nodes t t' :
  (forall n x, nodes t !! n = Some x -> exists y, nodes t' !! n = Some y /\ kind y = kind x /\ codec y = codec x) ->
  (forall n p, parentOf t n = Some p -> parentOf t' n = Some p) -> grows t t'.
Proof. intros H HP. split; [by apply keeps_nodes|exact HP]. Qed.

Lemma grows_relinked t t' : relinked t t' -> grows t t'.
Proof.
  intros R. apply grows_nodes; [|intros m p; by rewrite (rl_parent _ _ R)].
  intros m x E. destruct (rl_nodes _ _ R m x E) as (y & Ey & Ky & Cy & _). by exists y.
Qed.

Lemma new_node t k r : wf t -> let n := fresh (dom (nodes t)) in
  let t' := t <| nodes := <[n := mkNode k None None r]> (nodes t) |> in
  wf t' /\ nodes t !! n = None /\ grows t t' /\ (forall q, children t' q = children t q) /\
  parentOf t' n = None /\ forall c, c <> n -> nodes t' !! c = nodes t !! c.
Proof.
  intros W n t'. assert (nodes t !! n = None) as Hn by apply not_elem_of_dom, is_fresh.
  assert (forall c, c <> n -> nodes t' !! c = nodes t !! c) as Hc by (intros c Hc; unfold t'; cbn; by rewrite lookup_insert_ne).
  split; [by apply wf_new|]. split; [done|]. split; [|split; [|split; [|done]]].
  - apply grows_nodes.
    + intros m x E. exists x. rewrite Hc; [done|]. congruence.
    + intros m p. unfold parentOf. destruct (decide (m = n)) as [->|Hm]; [by rewrite Hn|by rewrite Hc].
  - intros q. unfold children. destruct (decide (q = n)) as [->|Hq]; [|by rewrite Hc]. unfold t'. cbn. by rewrite lookup_insert_eq, Hn.
  - unfold parentOf, t'. cbn. by rewrite lookup_insert_eq.
Qed.

Lemma NewReceiver_spec t k t' n : wf t -> NewReceiver k t = (t', n) ->
  wf t' /\ grows t t' /\ isReceiver t' n /\ codecOf t' n = Some k /\ nodes t !! n = None /\
  (forall q, children t' q = children t q) /\ (forall c, senderAt t' c = senderAt t c).
Proof.
  intros W. unfold NewReceiver. intros [= <- <-].
  destruct (new_node t k (IsReceiver 0 0) W) as (W' & Hn & G & C & _ & Hc). cbn zeta in *.
  split; [exact W'|]. split; [exact G|]. split; [eexists _, 0, 0; cbn; by rewrite lookup_insert_eq|].
  split; [unfold codecOf; cbn; by rewrite lookup_insert_eq|]. split; [exact Hn|]. split; [exact C|].
  intros c. unfold senderAt. destruct (decide (c = fresh (dom (nodes t)))) as [->|D]; [|by rewrite Hc].
  cbn. by rewrite lookup_insert_eq, Hn.
Qed.

Lemma setSender_spec t n f : wf t -> isSender t n -> exists t', setSender n f t = Some t' /\ wf t' /\ grows t t' /\
  (forall q, children t' q = children t q) /\
  forall c, senderAt t' c = if decide (c = n) then f <$> senderAt t c else senderAt t c.
Proof.
  intros W H. destruct (setSender_eq t n f H) as (x & d & Ex & Kx & E).
  assert (sameRole (kind x) (IsSender (f d))) as HR by (by rewrite Kx).
  destruct (rekind_lists t n x (IsSender (f d)) Ex) as [Hl Hp]. exists (rekind n x (IsSender (f d)) t).
  split; [exact E|]. split; [by apply wf_rekind|]. split; [|split; [exact Hl|intros c; by apply senderAt_setSender]].
  split; [split|intros m p; by rewrite Hp].
  - intros m. by apply receiver_rekind.
  - intros m. by apply sender_rekind.
  - intros m k. unfold codecOf. destruct (nodes t !! m) as [y|] eqn:E'; [|done].
    destruct (nodes_rekind t n x (IsSender (f d)) m y Ex HR E') as (z & -> & _ & Cz & _). cbn. by rewrite Cz.
Qed.

Lemma senderAt_new t t' n r k : nodes t !! n = None ->
  nodes t' = <[n := mkNode k None None r]> (nodes t) -> forall c,
  senderAt t' c = if decide (c = n) then match r with IsSender d => Some d | _ => None end else senderAt t c.
Proof.
  intros Hn E c. unfold senderAt. rewrite E. case_decide as D; [subst c; by rewrite lookup_insert_eq|by rewrite lookup_insert_ne].
Qed.

(** A new sender attached to a track, its goroutine running. *)
Lemma newSender_spec spare t k r t1 n : wf t -> isReceiver t r -> NewSender k t = (t1, n) ->
  exists t', HandleRTP spare n r t1 = Some t' /\ wf t' /\ grows t t' /\ nodes t !! n = None /\ parentOf t' n = Some r /\
    (forall q, children t' q = if decide (q = r) then children t r ++ [n] else children t q) /\
    forall c, senderAt t' c = if decide (c = n) then Some (SenderStart (newSender k)) else senderAt t c.
Proof.
  intros W Hr. unfold NewSender. cbn zeta. destruct (new_node t k (IsSender (newSender k)) W) as (W1 & Hn & G1 & C1 & P1 & Hc).
  revert W1 Hn G1 C1 P1 Hc. set (m := fresh (dom (nodes t))). cbn zeta. set (u := t <| nodes := _ |>).
  intros W1 Hn G1 C1 P1 Hc [= <- <-].
  assert (forall c, senderAt u c = if decide (c = m) then Some (newSender k) else senderAt t c) as S1.
  { apply (senderAt_new t u m (IsSender (newSender k)) k Hn). done. }
  assert (isSender u m) as I1 by (apply (senderAt_is u m (newSender k)); by rewrite S1, decide_True).
  destruct (AppendChild_spec spare r m u W1 (gr_receiver _ _ G1 r Hr) I1 P1) as (t2 & E3 & W2 & A).
  pose proof A as (A1 & A2 & A3 & A4 & A5 & _ & A7).
  destruct (setSender_spec t2 m SenderStart W2 (isSender_attached r m u t2 m A I1)) as (t' & E4 & W' & G' & C' & S').
  exists t'. unfold HandleRTP. rewrite E3. split; [exact E4|]. split; [exact W'|]. split.
  { apply (grows_trans t u); [exact G1|]. apply (grows_trans u t2); [|exact G'].
    apply grows_nodes; [exact A5|]. intros v p Hv. rewrite A4; [done|]. intros ->. congruence. }
  split; [exact Hn|]. split; [by apply (gr_parent _ _ G')|]. split.
  - intros q. rewrite C'. case_decide as D; [subst q; by rewrite A1, C1|by rewrite A2, C1].
  - intros c. rewrite S', (senderAt_kept u t2 c A5 A7), S1. by case_decide.
Qed.

(** Closing a sender, whoever still lists it. *)
Lemma SenderClose_spec t n r : wf t -> isSender t n -> parentOf t n = Some r ->
  exists t', SenderClose n t = Some t' /\ wf t' /\ grows t t' /\
    (forall q, children t' q = without n (children t q)) /\
    forall c, senderAt t' c = if decide (c = n) then (fun d => d <| open := false |>) <$> senderAt t c else senderAt t c.
Proof.
  intros W Hn Hr. destruct (setSender_spec t n (fun d => d <| open := false |>) W Hn) as (t1 & E1 & W1 & G1 & C1 & S1).
  destruct (ChildClose_spec t1 n r W1 (gr_parent _ _ G1 n r Hr)) as (t' & E' & W' & R' & C').
  exists t'. unfold SenderClose, SenderShut. rewrite E1. split; [exact E'|]. split; [exact W'|]. split.
  { apply (grows_trans t t1); [exact G1|]. by apply grows_relinked. }
  split; [|intros c; by rewrite (senderAt_relinked t1 t' c R'), S1].
  intros q. rewrite C', C1. case_decide as D; [done|]. symmetry. apply without_absent. intros Hin.
  apply (wf_child t W) in Hin. congruence.
Qed.

(** Closing tracks nobody reads changes nothing. *)
Lemma closeAll_idle l : forall t, wf t -> (forall r, r ∈ l -> isReceiver t r /\ children t r = []) ->
  exists t', closeAll ReceiverClose l t = Some t' /\ wf t' /\ grows t t' /\
    (forall q, children t' q = children t q) /\ forall c, senderAt t' c = senderAt t c.
Proof.
  induction l as [|r l IH]; intros t W H; cbn [closeAll].
  - exists t. split; [done|]. split; [done|]. split; [apply grows_refl|done].
  - destruct (H r ltac:(by left)) as [Hr Hc]. destruct (ReceiverClose_spec t r W Hr) as (t1 & -> & W1 & R1 & C1 & D1).
    assert (forall q, children t1 q = children t q) as Hch.
    { intros q. destruct (decide (q = r)) as [->|Hq]; [by rewrite C1, Hc|by apply D1]. }
    cbn [mbind option_bind]. destruct (IH t1 W1) as (t' & E' & W' & G' & C' & S').
    { intros q Hq. rewrite Hch. destruct (H q ltac:(by right)) as [Hq1 Hq2]. split; [|done]. by apply (grows_relinked t t1 R1). }
    exists t'. split; [done|]. split; [done|]. split; [apply (grows_trans t t1); [by apply grows_relinked|done]|].
    split; intros q; [by rewrite C'|by rewrite S', (senderAt_relinked t t1 q R1)].
Qed.

Lemma closeAll_senders l : forall t, wf t -> (forall n, n ∈ l -> isSender t n /\ exists r, parentOf t n = Some r) ->
  exists t', closeAll SenderClose l t = Some t' /\ wf t' /\ grows t t' /\
    (forall q n, n ∈ children t' q <-> n ∈ children t q /\ n ∉ l) /\ forall n, n ∉ l -> senderAt t' n = senderAt t n.
Proof.
  induction l as [|m l IH]; intros t W H; cbn [closeAll].
  - exists t. split; [done|]. split; [done|]. split; [apply grows_refl|]. split; [|done]. intros q n. split; [|by intros [? _]].
    intros Hn. split; [done|]. apply not_elem_of_nil.
  - destruct (H m ltac:(by left)) as (Hm & r & Hr). destruct (SenderClose_spec t m r W Hm Hr) as (t1 & -> & W1 & G1 & C1 & S1).
    cbn [mbind option_bind]. destruct (IH t1 W1) as (t' & E' & W' & G' & C' & S').
    { intros n Hn. destruct (H n ltac:(by right)) as (A & q & B). split; [by apply (gr_sender _ _ G1)|]. exists q. by apply (gr_parent _ _ G1). }
    exists t'. split; [done|]. split; [done|]. split; [by apply (grows_trans t t1)|]. split.
    + intros q n. rewrite C', C1, without_in, not_elem_of_cons. naive_solver.
    + intros n Hn. apply not_elem_of_cons in Hn as [Hn Hl]. by rewrite S', S1, decide_False.
Qed.

Lemma trackOf_in t k l n : trackOf t k l = Some n -> n ∈ l.
Proof. unfold trackOf. intros H. apply find_some in H as [H _]. by apply list_elem_of_In. Qed.

Lemma trackOf_codec t k l n : trackOf t k l = Some n -> exists k', codecOf t n = Some k' /\ address k' = address k.
Proof.
  unfold trackOf. intros H. apply find_some in H as [_ H]. destruct (codecOf t n) as [k'|]; [|done].
  exists k'. split; [done|]. by apply bool_decide_eq_true in H.
Qed.

(** ** What holds between the calls *)

(** Media with a direction. *)
Definition directed (ms : list Media) : Prop :=
  Forall (fun m => Direction m = DirectionRecvonly \/ Direction m = DirectionSendonly) ms.

(** The connection of a producer has the producer's tracks, and no others when it is one
    that the producer dialled. *)
Definition conn_ok (p : nat) (P : Producer) (C : Conn) : Prop :=
  directed (Medias C) /\
  (forall t, t ∈ receivers P -> t ∈ Receivers C) /\
  (st P = stateExternal /\ owner C = None \/
   st P <> stateExternal /\ owner C = Some p /\ stopped C = false /\ Senders C = [] /\
   forall t, t ∈ Receivers C -> t ∈ receivers P).

Record source_ok (s : sys) (p : nat) (P : Producer) : Prop := {
  so_senders : senders P = [];
  so_receivers : forall t, t ∈ receivers P -> isReceiver (tracks s) t;
  so_state : st P <> stateInternal;
  so_empty : st P = stateNone \/ st P = stateMedias -> receivers P = [];
  so_none : st P = stateNone <-> conn P = None;
  so_conn : forall c, conn P = Some c -> exists C, conns s !! c = Some C /\ conn_ok p P C;
}.

(** A consumer that only watches. *)
Definition viewer (s : sys) (c : nat) (C : Conn) : Prop :=
  owner C = None /\ Receivers C = [] /\ Forall (fun m => Direction m = DirectionSendonly) (Medias C) /\
  forall p P, prods s !! p = Some P -> conn P <> Some c.

(** A sender that gets packets. *)
Definition watching (s : sys) (n : nat) : Prop :=
  exists d t p P, senderAt (tracks s) n = Some d /\ open d = true /\ n ∈ children (tracks s) t /\
    prods s !! p = Some P /\ t ∈ receivers P.

(** The tracks and senders of the connections; none is on two of them. *)
Record lists (s : sys) : Prop := {
  li_tracks : forall c C t, conns s !! c = Some C -> t ∈ Receivers C -> isReceiver (tracks s) t;
  li_senders : forall c C n, conns s !! c = Some C -> n ∈ Senders C -> isSender (tracks s) n;
  li_apart_t : forall c c' C C' t, conns s !! c = Some C -> conns s !! c' = Some C' ->
    t ∈ Receivers C -> t ∈ Receivers C' -> c = c';
  li_apart_n : forall c c' C C' n, conns s !! c = Some C -> conns s !! c' = Some C' ->
    n ∈ Senders C -> n ∈ Senders C' -> c = c';
}.

(** Some connections get new tracks [T] or new senders [N]. *)
Lemma lists_grown s s' (T N : nat -> nat -> Prop) : lists s -> keeps (tracks s) (tracks s') ->
  (forall c C, conns s' !! c = Some C -> (exists C0, conns s !! c = Some C0 /\
     (forall t, t ∈ Receivers C -> t ∈ Receivers C0 \/ T c t) /\ forall n, n ∈ Senders C -> n ∈ Senders C0 \/ N c n) \/
     (forall t, t ∈ Receivers C -> T c t) /\ forall n, n ∈ Senders C -> N c n) ->
  (forall c t, T c t -> isReceiver (tracks s') t /\
     forall c' C', (T c' t \/ conns s !! c' = Some C' /\ t ∈ Receivers C') -> c' = c) ->
  (forall c n, N c n -> isSender (tracks s') n /\
     forall c' C', (N c' n \/ conns s !! c' = Some C' /\ n ∈ Senders C') -> c' = c) -> lists s'.
Proof.
  intros [L1 L2 L3 L4] G HC HT HN.
  assert (forall c C t, conns s' !! c = Some C -> t ∈ Receivers C -> T c t \/ exists C0, conns s !! c = Some C0 /\ t ∈ Receivers C0) as BT.
  { intros c C t E H. destruct (HC c C E) as [(C0 & E0 & A & _)|[A _]]; [|left; by apply A].
    destruct (A t H); [right; by exists C0|by left]. }
  assert (forall c C n, conns s' !! c = Some C -> n ∈ Senders C -> N c n \/ exists C0, conns s !! c = Some C0 /\ n ∈ Senders C0) as BN.
  { intros c C n E H. destruct (HC c C E) as [(C0 & E0 & _ & A)|[_ A]]; [|left; by apply A].
    destruct (A n H); [right; by exists C0|by left]. }
  split.
  - intros c C t E H. destruct (BT c C t E H) as [K|(C0 & E0 & K)]; [by apply (HT c)|]. by apply (kp_receiver _ _ G), (L1 c C0).
  - intros c C n E H. destruct (BN c C n E H) as [K|(C0 & E0 & K)]; [by apply (HN c)|]. by apply (kp_sender _ _ G), (L2 c C0).
  - intros c c' C C' t E E' H H'. destruct (BT c C t E H) as [K|(D & ED & K)], (BT c' C' t E' H') as [K'|(D' & ED' & K')].
    + symmetry. apply (proj2 (HT c t K) c' C). by left.
    + symmetry. apply (proj2 (HT c t K) c' D'). by right.
    + apply (proj2 (HT c' t K') c D). by right.
    + by apply (L3 c c' D D' t).
  - intros c c' C C' n E E' H H'. destruct (BN c C n E H) as [K|(D & ED & K)], (BN c' C' n E' H') as [K'|(D' & ED' & K')].
    + symmetry. apply (proj2 (HN c n K) c' C). by left.
    + symmetry. apply (proj2 (HN c n K) c' D'). by right.
    + apply (proj2 (HN c' n K') c D). by right.
    + by apply (L4 c c' D D' n).
Qed.

(** Connections that keep their tracks and senders. *)
Lemma lists_kept s s' : lists s -> keeps (tracks s) (tracks s') ->
  (forall c C, conns s' !! c = Some C -> (exists C0, conns s !! c = Some C0 /\ Receivers C = Receivers C0 /\ Senders C = Senders C0) \/
     Receivers C = [] /\ Senders C = []) -> lists s'.
Proof.
  intros L G H. apply (lists_grown s s' (fun _ _ => False) (fun _ _ => False)); try done.
  intros c C E. destruct (H c C E) as [(C0 & E0 & -> & ->)|[-> ->]]; [left; exists C0; by auto|].
  right. split; intros x Hx; by apply elem_of_nil in Hx.
Qed.

Lemma listed_insert (m : gmap nat Producer) (l : list nat) p P P' : (forall q, q ∈ l <-> is_Some (m !! q)) -> m !! p = Some P ->
  forall q, q ∈ l <-> is_Some (<[p := P']> m !! q).
Proof.
  intros H HP q. rewrite H, lookup_insert_is_Some. clear - HP.
  destruct (decide (p = q)) as [->|N]; [rewrite HP; split; [by left|by exists P]|naive_solver].
Qed.

(** The consumers in [J] are being added. *)
Record live (J : list nat) (s : sys) : Prop := {
  lv_wf : wf (tracks s);
  lv_lists : lists s;
  lv_listed : forall p, p ∈ producers s <-> is_Some (prods s !! p);
  lv_sources : forall p P, prods s !! p = Some P -> source_ok s p P;
  lv_viewers : forall c, c ∈ J ++ consumers s ->
    exists C, conns s !! c = Some C /\ viewer s c C /\ forall n, n ∈ Senders C -> watching s n;
  lv_watched : forall t n, n ∈ children (tracks s) t ->
    exists c C, c ∈ J ++ consumers s /\ conns s !! c = Some C /\ n ∈ Senders C;
  lv_nodup : NoDup (J ++ consumers s);
}.

Lemma lv_tracks J s : live J s -> forall c C t, conns s !! c = Some C -> t ∈ Receivers C -> isReceiver (tracks s) t.
Proof. intros L. apply (li_tracks _ (lv_lists _ _ L)). Qed.
Lemma lv_senders J s : live J s -> forall c C n, conns s !! c = Some C -> n ∈ Senders C -> isSender (tracks s) n.
Proof. intros L. apply (li_senders _ (lv_lists _ _ L)). Qed.
Lemma lv_apart_t J s : live J s -> forall c c' C C' t, conns s !! c = Some C -> conns s !! c' = Some C' ->
  t ∈ Receivers C -> t ∈ Receivers C' -> c = c'.
Proof. intros L. apply (li_apart_t _ (lv_lists _ _ L)). Qed.

(** A connection that is just dialled. *)
Definition newConn (a : answer) : Prop :=
  match a with Dialled (inl _) => True | Dialled (inr C) => Receivers C = [] /\ Senders C = [] /\ directed (Medias C) | Ended _ => False end.

(** Enough answers for [k] dials. *)
Definition ample (k : nat) (ins : list answer) : Prop := Forall newConn ins /\ (k <= length ins)%nat.

Lemma ample_le k k' ins : (k' <= k)%nat -> ample k ins -> ample k' ins.
Proof. intros H [A B]. split; [done|lia]. Qed.

(** A producer with a track somebody reads, and not started. *)
Definition busy (s : sys) (p : nat) : Prop :=
  exists P t, prods s !! p = Some P /\ st P = stateTracks /\ t ∈ receivers P /\ children (tracks s) t <> [].

(** What the calls on producers do not touch. *)
Record framed (J : list nat) (s s' : sys) : Prop := {
  fr_producers : producers s' = producers s;
  fr_consumers : consumers s' = consumers s;
  fr_pending : pending s' = pending s;
  fr_locked : locked s' = locked s;
  fr_results : results s' = results s;
  fr_viewers : forall c, c ∈ J ++ consumers s -> conns s' !! c = conns s !! c;
  fr_children : forall t, children (tracks s') t = children (tracks s) t;
  fr_busy : forall p, busy s' p -> busy s p;
}.

Lemma framed_refl J s : framed J s s.
Proof. by split. Qed.

Lemma framed_trans J s t u : framed J s t -> framed J t u -> framed J s u.
Proof.
  intros [A1 A2 A3 A4 A5 A6 A7 A8] [B1 B2 B3 B4 B5 B6 B7 B8]. split; [congruence..| | |auto].
  - intros c Hc. rewrite B6; [by apply A6|]. by rewrite A2.
  - intros q. by rewrite B7.
Qed.

(** *** Dialling *)

Lemma source_ok_kept s s' p P : (forall t, isReceiver (tracks s) t -> isReceiver (tracks s') t) ->
  (forall c, conn P = Some c -> conns s' !! c = conns s !! c) -> source_ok s p P -> source_ok s' p P.
Proof.
  intros HT HC [S1 S2 S3 S4 S5 S6]. split; try done; [intros t Ht; by apply HT, S2|].
  intros c Ec. rewrite (HC c Ec). by apply S6.
Qed.

(** The same stream with the same consumers, added or being added. *)
Lemma live_moved J J' s s' : live J s -> J' ++ consumers s' ≡ₚ J ++ consumers s -> tracks s' = tracks s ->
  conns s' = conns s -> prods s' = prods s -> producers s' = producers s -> live J' s'.
Proof.
  intros L HP E1 E2 E3 E4. assert (forall n, watching s n -> watching s' n) as HW.
  { intros n (d & t & p & P & H). exists d, t, p, P. by rewrite E1, E3. }
  split; rewrite ?E1, ?E2, ?E3, ?E4; try apply L; try done.
  - apply (lists_kept s); [apply L|rewrite E1; apply keeps_refl|]. rewrite E2. intros c C E. left. by exists C.
  - intros p P EP. apply (source_ok_kept s); [by rewrite E1|by rewrite E2|by apply (lv_sources _ _ L)].
  - intros c Hc. rewrite HP in Hc. destruct (lv_viewers _ _ L c Hc) as (C & EC & V & HS). exists C. split; [done|].
    split; [|auto]. unfold viewer. by rewrite E3.
  - intros t n Hn. destruct (lv_watched _ _ L t n Hn) as (c & C & H1 & H2). exists c, C. by rewrite HP.
  - rewrite HP. apply (lv_nodup _ _ L).
Qed.

Lemma live_same J s s' : live J s -> tracks s' = tracks s -> conns s' = conns s -> prods s' = prods s ->
  producers s' = producers s -> consumers s' = consumers s -> live J s'.
Proof. intros L E1 E2 E3 E4 E5. apply (live_moved J J s); try done. by rewrite E5. Qed.

Section viewers.
Context (J : list nat).

(** A new connection with nothing on it, for a producer that had none. *)
Lemma live_dialled s p P c C s' : live J s -> prods s !! p = Some P -> st P = stateNone ->
  conns s !! c = None -> owner C = Some p -> stopped C = false -> Receivers C = [] -> Senders C = [] -> directed (Medias C) ->
  tracks s' = tracks s -> conns s' = <[c := C]> (conns s) ->
  prods s' = <[p := P <| conn := Some c |> <| st := stateMedias |>]> (prods s) ->
  producers s' = producers s -> consumers s' = consumers s -> live J s'.
Proof.
  intros L HP S Hc Ho Hst R1 R2 R3 Et Ec Ep El Es. destruct (lv_sources _ _ L p P HP) as [S1 _ _ S2 _ _].
  specialize (S2 (or_introl S)).
  assert (forall d D, conns s' !! d = Some D -> (d = c /\ D = C) \/ conns s !! d = Some D) as Hback.
  { intros d D. rewrite Ec, lookup_insert_Some. intros [[<- <-]|[_ E]]; [by left|by right]. }
  assert (forall d D, conns s !! d = Some D -> conns s' !! d = Some D) as Hup.
  { intros d D E. rewrite Ec, lookup_insert_ne; [done|congruence]. }
  assert (forall x (l : list nat), x ∈ l -> l = [] -> False) as Hnil by (intros x l H ->; by apply elem_of_nil in H).
  split; rewrite ?Et, ?El, ?Es.
  - apply (lv_wf _ _ L).
  - apply (lists_kept s); [apply L|rewrite Et; apply keeps_refl|]. intros d D E.
    destruct (Hback d D E) as [[-> ->]|E']; [by right|left; by exists D].
  - rewrite Ep. by apply (listed_insert _ _ p P); [apply L|].
  - intros q Q. rewrite Ep, lookup_insert_Some. intros [[<- <-]|[Hq E]].
    + assert (forall t, t ∈ receivers P -> False) as HP0 by (intros t H; by destruct (Hnil _ _ H)).
      split; cbn; try done; [intros t H; by destruct (HP0 t)|]. intros d [= <-]. exists C. rewrite Ec, lookup_insert_eq.
      split; [done|]. split; [done|]. split; [intros t H; by destruct (HP0 t)|]. right. split; [done|]. split; [done|]. split; [done|].
      split; [done|]. intros t H. by destruct (Hnil _ _ H).
    + apply (source_ok_kept s); [by rewrite Et| |by apply (lv_sources _ _ L)]. intros d Ed. rewrite Ec, lookup_insert_ne; [done|].
      intros <-. destruct (so_conn _ _ _ (lv_sources _ _ L q Q E) c Ed) as (C0 & E0 & _). congruence.
  - intros d Hin. destruct (lv_viewers _ _ L d Hin) as (D & ED & (V1 & V2 & V3 & V4) & HW). exists D. split; [by apply Hup|].
    split.
    + split; [done|]. split; [done|]. split; [done|]. intros q Q. rewrite Ep, lookup_insert_Some.
      intros [[<- <-]|[_ E]]; [cbn; congruence|by apply (V4 q)].
    + intros n Hn. destruct (HW n Hn) as (x & t & q & Q & W1 & W2 & W3 & W4 & W5). exists x, t, q, Q. rewrite Et, Ep.
      split; [done|]. split; [done|]. split; [done|]. split; [|done]. rewrite lookup_insert_ne; [done|]. intros <-.
      replace Q with P in * by congruence. by destruct (Hnil _ _ W5).
  - intros t n Hin. destruct (lv_watched _ _ L t n Hin) as (d & D & H1 & H2 & H3). exists d, D. split; [done|]. by split; [apply Hup|].
  - apply (lv_nodup _ _ L).
Qed.

Lemma Dial_live p ins k s : live J s -> p ∈ producers s -> ample (S k) ins ->
  exists e s' ins', Dial p ins s = Some (e, s', ins') /\ live J s' /\ ample k ins' /\ framed J s s' /\
    (e = None -> exists P, prods s' !! p = Some P /\ st P <> stateNone).
Proof.
  intros L Hp [A B]. apply (lv_listed _ _ L) in Hp as [P HP]. unfold Dial. rewrite HP. cbn [mbind option_bind].
  destruct (decide (st P = stateNone)) as [S|S].
  2: { exists None, s, ins. split; [by destruct (st P)|]. split; [done|]. split; [split; [done|lia]|]. split; [apply framed_refl|].
       intros _. by exists P. }
  rewrite S. destruct ins as [|a ins]; [cbn in B; lia|]. apply Forall_cons in A as [A1 A2].
  assert (ample k ins) as A' by (split; [done|cbn in B; lia]).
  destruct a as [[err|C]|e]; [|..|done].
  { exists (Some err), s, ins. split; [done|]. split; [done|]. split; [done|]. split; [apply framed_refl|done]. }
  destruct A1 as (R1 & R2 & R3). cbn [adopt]. set (c := fresh (dom (conns s))). assert (conns s !! c = None) as Hn by apply not_elem_of_dom, is_fresh.
  eexists None, _, ins. split; [done|]. split; [by apply (live_dialled s p P c (C <| owner := Some p |> <| stopped := false |>))|].
  split; [done|]. split.
  - split; try done.
    + intros d Hd. cbn. rewrite lookup_insert_ne; [done|]. intros <-.
      destruct (lv_viewers _ _ L c Hd) as (D & ED & _). congruence.
    + intros q (Q & t & EQ & H). cbn in EQ. rewrite lookup_insert_Some in EQ. destruct EQ as [[<- <-]|[_ E]]; [by destruct H as [H _]|].
      by exists Q, t.
  - intros _. eexists. cbn. by rewrite lookup_insert_eq.
Qed.

(** *** Tracks *)

Lemma st_withTrack P : st (withTrack P) = match st P with stateMedias => stateTracks | x => x end /\
  conn (withTrack P) = conn P /\ receivers (withTrack P) = receivers P /\ senders (withTrack P) = senders P.
Proof. unfold withTrack. by destruct (st P) eqn:E; cbn; rewrite ?E. Qed.

Lemma source_track s s' p P Rs n c C : source_ok s p P -> conn P = Some c -> conns s !! c = Some C ->
  (forall t, t ∈ Rs <-> t ∈ Receivers C \/ t = n) -> (forall t, isReceiver (tracks s) t -> isReceiver (tracks s') t) ->
  isReceiver (tracks s') n -> conns s' !! c = Some (C <| Receivers := Rs |>) ->
  source_ok s' p (withTrack (P <| receivers := receivers P ++ [n] |>)).
Proof.
  intros [S1 S2 S3 S4 S5 S6] Hc HC HR HT Hn EC.
  set (P1 := P <| receivers := receivers P ++ [n] |>). destruct (st_withTrack P1) as (E1 & E2 & E3 & E4).
  change (conn P1) with (conn P) in E2. change (receivers P1) with (receivers P ++ [n]) in E3.
  change (senders P1) with (senders P) in E4. change (st P1) with (st P) in E1.
  assert (forall t, t ∈ receivers P ++ [n] <-> t ∈ receivers P \/ t = n) as HP.
  { intros t. by rewrite elem_of_app, list_elem_of_singleton. }
  assert (st P <> stateNone) as HN by (rewrite S5, Hc; done).
  split; rewrite ?E1, ?E2, ?E3, ?E4; try done.
  - intros t. rewrite HP. intros [H| ->]; [by apply HT, S2|done].
  - by destruct (st P).
  - intros [H|H]; by destruct (st P).
  - rewrite Hc. split; [|done]. by destruct (st P).
  - intros d Ed. replace d with c in * by congruence. exists (C <| Receivers := Rs |>). split; [done|].
    destruct (S6 c Ed) as (C0 & EC0 & A0 & A & B). replace C0 with C in * by congruence. unfold conn_ok. rewrite E1, E3. cbn.
    split; [done|].
    split; [intros t; rewrite HP, HR; intros [H| ->]; [left; by apply A|by right]|].
    destruct B as [[B1 B2]|(B1 & B2 & B3 & B4 & B5)]; [left; by rewrite B1|right]. split; [by destruct (st P)|].
    split; [done|]. split; [done|]. split; [done|]. intros t. rewrite HP, HR. intros [H| ->]; [left; by apply B5|by right].
Qed.

Lemma busy_track s p P n C : live J s -> prods s !! p = Some P -> source_ok s p P ->
  (exists c, conn P = Some c /\ conns s !! c = Some C) ->
  (n ∈ Receivers C \/ children (tracks s) n = []) -> st (withTrack P) = stateTracks ->
  forall t, t ∈ receivers P ++ [n] -> children (tracks s) t <> [] -> busy s p.
Proof.
  intros L HP [_ _ _ S4 _ S6] (c & Ec & EC) Hn HS t Ht Hch. destruct (st_withTrack P) as (E1 & _). rewrite E1 in HS. clear E1.
  assert (t ∈ receivers P) as Hin.
  { apply elem_of_app in Ht as [Ht|Ht]; [done|]. apply list_elem_of_singleton in Ht as ->. destruct Hn as [Hn|Hn]; [|done].
    destruct (S6 c Ec) as (C0 & EC0 & _ & _ & [[B _]|(_ & _ & _ & _ & B)]); [by rewrite B in HS|]. apply B. congruence. }
  exists P, t. split; [done|]. split; [|done]. destruct (st P) eqn:E; try done.
  rewrite S4 in Hin by auto. by apply elem_of_nil in Hin.
Qed.

(** A viewer's connection is no producer's. *)
Lemma viewer_conn s p P c : live J s -> prods s !! p = Some P -> conn P = Some c -> forall d, d ∈ J ++ consumers s -> c <> d.
Proof. intros L HP Hc d Hd <-. destruct (lv_viewers _ _ L c Hd) as (D & _ & (_ & _ & _ & V) & _). by apply (V p P). Qed.

(** A producer's track, found or new. *)
Section track.
Context (s s' : sys) (p : nat) (P : Producer) (c : nat) (C : Conn) (n : nat) (Rs : list nat).
Context (L : live J s) (HP : prods s !! p = Some P) (Hc : conn P = Some c) (HC : conns s !! c = Some C)
  (W : wf (tracks s')) (G : grows (tracks s) (tracks s')) (Hch : forall t, children (tracks s') t = children (tracks s) t)
  (HS : forall m, senderAt (tracks s') m = senderAt (tracks s) m) (Hn : isReceiver (tracks s') n)
  (Hfresh : n ∈ Receivers C \/ nodes (tracks s) !! n = None) (HR : forall t, t ∈ Rs <-> t ∈ Receivers C \/ t = n)
  (Ec : conns s' = <[c := C <| Receivers := Rs |>]> (conns s))
  (Ep : prods s' = <[p := withTrack (P <| receivers := receivers P ++ [n] |>)]> (prods s))
  (El : producers s' = producers s) (Es : consumers s' = consumers s).

Lemma track_lists : lists s'.
Proof.
  assert (forall d D, conns s !! d = Some D -> n ∈ Receivers D -> d = c) as Hown.
  { intros d D E Hin. destruct Hfresh as [Hf|Hf]; [by apply (lv_apart_t _ _ L d c D C n)|].
    destruct (lv_tracks _ _ L d D n E Hin) as (x & a & b & Ex & _). congruence. }
  apply (lists_grown s s' (fun e t => e = c /\ t = n) (fun _ _ => False)); [apply L|apply G|..|done].
  - intros d D. rewrite Ec, lookup_insert_Some. intros [[<- <-]|[Hd E]]; left.
    + exists C. split; [done|]. cbn. split; [intros t; rewrite HR; naive_solver|by left].
    + exists D. split; [done|]. split; by left.
  - intros e t [-> ->]. split; [done|]. intros e' D [[-> _]|[E H]]; [done|by apply (Hown e' D)].
Qed.

Lemma track_sources q Q : prods s' !! q = Some Q -> source_ok s' q Q.
Proof.
  rewrite Ep, lookup_insert_Some. intros [[<- <-]|[Hq E]].
  { apply (source_track s s' p P Rs n c C); try done; [by apply (lv_sources _ _ L)|apply (gr_receiver _ _ G)|]. by rewrite Ec, lookup_insert_eq. }
  pose proof (lv_sources _ _ L q Q E) as [Q1 Q2 Q3 Q4 Q5 Q6]. split; try done; [intros t Ht; by apply (gr_receiver _ _ G), Q2|].
  intros d Ed. destruct (Q6 d Ed) as (D & ED & B0 & B1 & B2). destruct (decide (d = c)) as [->|Hd].
  - replace D with C in * by congruence. exists (C <| Receivers := Rs |>). rewrite Ec, lookup_insert_eq. split; [done|].
    destruct (so_conn _ _ _ (lv_sources _ _ L p P HP) c Hc) as (C0 & EC0 & _ & _ & A2). replace C0 with C in * by congruence.
    split; [done|]. split; [intros t Ht; cbn; apply HR; left; by apply B1|]. destruct B2 as [B2|(_ & B2 & _)]; [by left|].
    destruct A2 as [[_ A2]|(_ & A2 & _)]; congruence.
  - exists D. rewrite Ec, lookup_insert_ne by done. split; [done|]. by split; [|split].
Qed.

Lemma live_track : live J s'.
Proof.
  destruct (st_withTrack (P <| receivers := receivers P ++ [n] |>)) as (_ & ECn & ERc & _).
  change (conn (P <| receivers := receivers P ++ [n] |>)) with (conn P) in ECn.
  change (receivers (P <| receivers := receivers P ++ [n] |>)) with (receivers P ++ [n]) in ERc.
  pose proof (viewer_conn s p P c L HP Hc) as Hv.
  split; rewrite ?El, ?Es; [done|apply track_lists| |apply track_sources|..].
  - rewrite Ep. by apply (listed_insert _ _ p P); [apply L|].
  - intros d Hin. destruct (lv_viewers _ _ L d Hin) as (D & ED & (V1 & V2 & V3 & V4) & HW). exists D.
    split; [rewrite Ec, lookup_insert_ne; [done|by apply Hv]|]. split.
    + split; [done|]. split; [done|]. split; [done|]. intros q Q. rewrite Ep, lookup_insert_Some.
      intros [[<- <-]|[_ E]]; [|by apply (V4 q)]. rewrite ECn. by apply (V4 p).
    + intros m Hm. destruct (HW m Hm) as (x & t & q & Q & W1 & W2 & W3 & W4 & W5). exists x, t, q. rewrite HS, Hch, Ep.
      destruct (decide (q = p)) as [->|Hq]; [rewrite lookup_insert_eq|by rewrite lookup_insert_ne; [exists Q|]].
      eexists. split; [done|]. split; [done|]. split; [done|]. split; [done|]. rewrite ERc. apply elem_of_app. left.
      by replace P with Q by congruence.
  - intros t m. rewrite Hch. intros Hin. destruct (lv_watched _ _ L t m Hin) as (d & D & H1 & H2 & H3). exists d, D.
    split; [done|]. split; [|done]. rewrite Ec, lookup_insert_ne; [done|by apply Hv].
  - apply (lv_nodup _ _ L).
Qed.

Lemma framed_track : pending s' = pending s -> locked s' = locked s -> results s' = results s -> framed J s s'.
Proof.
  intros E1 E2 E3. split; try done.
  - intros d Hd. rewrite Ec, lookup_insert_ne; [done|by apply (viewer_conn s p P c)].
  - intros q (Q & t & EQ & ST & Ht & Ech). rewrite Ep, lookup_insert_Some in EQ. rewrite Hch in Ech.
    destruct EQ as [[<- <-]|[Hq E]]; [|by exists Q, t].
    destruct (st_withTrack (P <| receivers := receivers P ++ [n] |>)) as (E4 & _ & E5 & _). rewrite ST in E4. rewrite E5 in Ht.
    apply (busy_track s p P n C L HP (lv_sources _ _ L p P HP)) with (t := t); [by exists c| | |exact Ht|done].
    + destruct Hfresh as [H|H]; [by left|right]. unfold children. by rewrite H.
    + destruct (st_withTrack P) as (-> & _). symmetry. exact E4.
Qed.
End track.

Lemma connGetTrack_spec c C k s : wf (tracks s) -> conns s !! c = Some C ->
  (forall t, t ∈ Receivers C -> isReceiver (tracks s) t) ->
  exists n t Rs, connGetTrack c k s = Some (n, setConn c (C <| Receivers := Rs |>) (setTracks t s)) /\ wf t /\
    grows (tracks s) t /\ (forall q, children t q = children (tracks s) q) /\ (forall m, senderAt t m = senderAt (tracks s) m) /\
    isReceiver t n /\ (exists k', codecOf t n = Some k' /\ address k' = address k) /\
    (n ∈ Receivers C \/ nodes (tracks s) !! n = None) /\ forall u, u ∈ Rs <-> u ∈ Receivers C \/ u = n.
Proof.
  intros W HC HR. unfold connGetTrack. rewrite HC. cbn [mbind option_bind].
  destruct (trackOf (tracks s) k (Receivers C)) as [n|] eqn:E.
  - exists n, (tracks s), (Receivers C). split.
    { unfold setConn, setTracks. cbn. destruct s, C. cbn in *. by rewrite insert_id. }
    split; [done|]. split; [apply grows_refl|]. split; [done|]. split; [done|]. pose proof (trackOf_in _ _ _ _ E) as Hin.
    split; [by apply HR|]. split; [by apply trackOf_codec in E|]. split; [by left|]. intros u. split; [by left|]. by intros [H| ->].
  - destruct (NewReceiver k (tracks s)) as [t n] eqn:EN.
    destruct (NewReceiver_spec (tracks s) k t n W EN) as (W' & G & Rn & Cn & Hn & Ch & Se).
    exists n, t, (Receivers C ++ [n]). split; [done|]. split; [done|]. split; [done|]. split; [done|]. split; [done|].
    split; [done|]. split; [by exists k|]. split; [by right|]. intros u. by rewrite elem_of_app, list_elem_of_singleton.
Qed.

Lemma GetTrack_live p P k s : live J s -> prods s !! p = Some P -> st P <> stateNone ->
  exists n s', GetTrack p k s = Some (inr n, s') /\ live J s' /\ framed J s s' /\ isReceiver (tracks s') n /\
    (exists k', codecOf (tracks s') n = Some k' /\ address k' = address k) /\
    exists P', prods s' !! p = Some P' /\ n ∈ receivers P'.
Proof.
  intros L HP N. pose proof (lv_sources _ _ L p P HP) as S. unfold GetTrack. rewrite HP. cbn [mbind option_bind].
  assert (forall T (a b : T), match st P with stateNone => a | _ => b end = b) as -> by (by destruct (st P)).
  destruct (trackOf (tracks s) k (receivers P)) as [n|] eqn:E.
  - exists n, s. split; [done|]. split; [done|]. split; [apply framed_refl|]. pose proof (trackOf_in _ _ _ _ E) as Hin.
    split; [by apply (so_receivers _ _ _ S)|]. split; [by apply trackOf_codec in E|]. by exists P.
  - destruct (conn P) as [c|] eqn:Hc; [|by destruct N; apply (so_none _ _ _ S)].
    destruct (so_conn _ _ _ S c Hc) as (C & HC & _). cbn [mbind option_bind].
    destruct (connGetTrack_spec c C k s (lv_wf _ _ L) HC) as (n & t & Rs & -> & W & G & Ch & Se & Rn & Cn & Hn & HR);
      [intros t; by apply (lv_tracks _ _ L c)|]. cbn [mbind option_bind].
    eexists n, _. split; [done|].
    split; [by apply (live_track s _ p P c C n Rs)|]. split; [by apply (framed_track s _ p P c C n Rs)|]. split; [done|]. split; [done|].
    exists (withTrack (P <| receivers := receivers P ++ [n] |>)). split; [cbn; by rewrite lookup_insert_eq|].
    destruct (st_withTrack (P <| receivers := receivers P ++ [n] |>)) as (_ & _ & -> & _). apply elem_of_app. right. by left.
Qed.

(** The producer stays connected to what it was. *)
Lemma connGetTrack_same c k s n s' : connGetTrack c k s = Some (n, s') ->
  prods s' = prods s /\ forall d, Medias <$> conns s' !! d = Medias <$> conns s !! d.
Proof.
  unfold connGetTrack. destruct (conns s !! c) as [C|] eqn:EC; [|done]. cbn [mbind option_bind].
  destruct (trackOf _ _ _) as [u|]; [by intros [= <- <-]|]. destruct (NewReceiver _ _) as [t m]. intros [= <- <-].
  split; [done|]. intros d. cbn. destruct (decide (d = c)) as [->|Hd]; [by rewrite lookup_insert_eq, EC|by rewrite lookup_insert_ne].
Qed.
Lemma GetMedias_same p s s' : conn <$> prods s' !! p = conn <$> prods s !! p ->
  (forall d, Medias <$> conns s' !! d = Medias <$> conns s !! d) -> GetMedias p s' = GetMedias p s.
Proof.
  intros Hp Hc. unfold GetMedias. destruct (prods s' !! p) as [P'|], (prods s !! p) as [P|]; try done. cbn in Hp |- *.
  injection Hp as ->. destruct (conn P) as [d|]; [|done]. specialize (Hc d).
  destruct (conns s' !! d), (conns s !! d); cbn in Hc |- *; congruence.
Qed.
Lemma GetTrack_same p P k s n s' : prods s !! p = Some P -> GetTrack p k s = Some (inr n, s') ->
  GetMedias p s' = GetMedias p s /\ url <$> prods s' !! p = Some (url P).
Proof.
  intros HP. unfold GetTrack. rewrite HP. cbn [mbind option_bind].
  destruct (decide (st P = stateNone)) as [->|N]; [done|].
  assert (forall T (a b : T), match st P with stateNone => a | _ => b end = b) as -> by (by destruct (st P)).
  destruct (trackOf _ _ _) as [u|]; [intros [= <- <-]; by rewrite HP|]. destruct (conn P) as [d|] eqn:Ed; [|done].
  cbn [mbind option_bind]. destruct (connGetTrack d k s) as [[m s1]|] eqn:E1; [|done]. cbn [mbind option_bind].
  intros [= <- <-]. apply connGetTrack_same in E1 as [_ Hc]. set (P1 := P <| receivers := receivers P ++ [m] |>).
  assert (url (withTrack P1) = url P) as Hu by (unfold withTrack; destruct (st P1); done).
  split; [|cbn; rewrite lookup_insert_eq; cbn; f_equal; exact Hu].
  apply GetMedias_same; [|exact Hc]. cbn. rewrite lookup_insert_eq, HP. cbn. f_equal. apply (st_withTrack P1).
Qed.

(** Two producers share a track only when both were published. *)
Lemma track_owner s p q P Q t : live J s -> prods s !! p = Some P -> prods s !! q = Some Q -> t ∈ receivers P ->
  t ∈ receivers Q -> st Q <> stateExternal -> p = q.
Proof.
  intros L HP HQ Hp Hq N. destruct (lv_sources _ _ L p P HP) as [_ _ _ P4 P5 P6], (lv_sources _ _ L q Q HQ) as [_ _ _ Q4 Q5 Q6].
  destruct (conn P) as [c|] eqn:Ec.
  2: { rewrite P4 in Hp by (left; by apply P5). by apply elem_of_nil in Hp. }
  destruct (conn Q) as [d|] eqn:Ed.
  2: { rewrite Q4 in Hq by (left; by apply Q5). by apply elem_of_nil in Hq. }
  destruct (P6 c eq_refl) as (C & EC & _ & A1 & A2), (Q6 d eq_refl) as (D & ED & _ & B1 & B2).
  assert (c = d) as <- by (apply (lv_apart_t _ _ L c d C D t); auto). replace D with C in * by congruence.
  destruct B2 as [[B2 _]|(_ & B2 & _)]; [done|]. destruct A2 as [[_ A2]|(_ & A2 & _)]; congruence.
Qed.

(** A new sender of a consumer that is being added, on a track of a producer. *)
Lemma live_watch s s' c C m n p P : live J s -> c ∈ J -> conns s !! c = Some C -> prods s !! p = Some P -> n ∈ receivers P ->
  wf (tracks s') -> grows (tracks s) (tracks s') -> nodes (tracks s) !! m = None ->
  (forall q, children (tracks s') q = if decide (q = n) then children (tracks s) n ++ [m] else children (tracks s) q) ->
  (exists d, open d = true /\ forall x, senderAt (tracks s') x = if decide (x = m) then Some d else senderAt (tracks s) x) ->
  conns s' = <[c := C <| Senders := Senders C ++ [m] |>]> (conns s) -> prods s' = prods s ->
  producers s' = producers s -> consumers s' = consumers s -> live J s'.
Proof.
  intros L Hc HC HP Hp W G Hm Ch (d & Hop & Se) Ec Ep El Es.
  assert (forall e D x, conns s !! e = Some D -> x ∈ Senders D -> x <> m) as Hfresh.
  { intros e D x E H ->. destruct (lv_senders _ _ L e D m E H) as (y & z & Ey & _). congruence. }
  assert (forall e D, conns s' !! e = Some D -> exists D0, conns s !! e = Some D0 /\ Receivers D = Receivers D0 /\
    forall x, x ∈ Senders D <-> x ∈ Senders D0 \/ (e = c /\ x = m)) as Hback.
  { intros e D. rewrite Ec, lookup_insert_Some. intros [[<- <-]|[He E]].
    - exists C. split; [done|]. split; [done|]. intros x. cbn. rewrite elem_of_app, list_elem_of_singleton. naive_solver.
    - exists D. split; [done|]. split; [done|]. intros x. naive_solver. }
  assert (senderAt (tracks s') m = Some d) as Hd by (by rewrite Se, decide_True).
  assert (forall x, watching s x -> watching s' x) as HW.
  { intros x (y & t & q & Q & W1 & W2 & W3 & W4 & W5). exists y, t, q, Q. rewrite Ep. split; [|split; [done|split; [|done]]].
    - rewrite Se, decide_False; [done|]. intros ->. apply senderAt_is in W1 as (z & e & Ez & _). congruence.
    - rewrite Ch. case_decide; [subst t; apply elem_of_app; by left|done]. }
  destruct (lv_viewers _ _ L c ltac:(apply elem_of_app; by left)) as (C0 & EC0 & (_ & _ & _ & HVc) & _).
  split; rewrite ?Ep, ?El, ?Es; try apply L; try done.
  - apply (lists_grown s s' (fun _ _ => False) (fun e x => e = c /\ x = m)); [apply L|apply G|..|done|].
    + intros e D E. left. destruct (Hback e D E) as (D0 & E0 & R0 & S0). exists D0. split; [done|]. rewrite R0.
      split; [by left|intros x; apply S0].
    + intros e x [-> ->]. split; [by apply (senderAt_is _ _ d)|]. intros e' D [[-> _]|[E H]]; [done|by destruct (Hfresh e' D m)].
  - intros q Q EQ. pose proof (lv_sources _ _ L q Q EQ) as [Q1 Q2 Q3 Q4 Q5 Q6].
    split; try done; [intros t Ht; by apply (gr_receiver _ _ G), Q2|]. intros e Ee. destruct (Q6 e Ee) as (D & ED & B).
    exists D. split; [|done]. rewrite Ec, lookup_insert_ne; [done|]. intros <-. by apply (HVc q Q).
  - intros e He. destruct (lv_viewers _ _ L e He) as (D & ED & (V1 & V2 & V3 & V4) & HS).
    assert (forall q Q, prods s' !! q = Some Q -> conn Q <> Some e) as V4' by (by rewrite Ep).
    rewrite Ec. destruct (decide (e = c)) as [->|Hec].
    + rewrite lookup_insert_eq. eexists. split; [done|]. replace D with C in * by congruence. split; [done|]. cbn.
      intros x. rewrite elem_of_app, list_elem_of_singleton. intros [Hx| ->]; [by apply HW, HS|].
      exists d, n, p, P. rewrite Ep, Ch, decide_True by done. split; [done|]. split; [done|].
      split; [apply elem_of_app; right; by left|done].
    + rewrite lookup_insert_ne by done. exists D. split; [done|]. split; [done|]. intros x Hx. by apply HW, HS.
  - intros t x Hx. rewrite Ch in Hx.
    assert (x ∈ children (tracks s) t \/ x = m) as [H| ->].
    { case_decide; [subst t; apply elem_of_app in Hx as [Hx|Hx]; [by left|right; by apply list_elem_of_singleton in Hx]|by left]. }
    + destruct (lv_watched _ _ L t x H) as (e & D & H1 & H2 & H3). rewrite Ec. destruct (decide (e = c)) as [->|He].
      * exists c. eexists. rewrite lookup_insert_eq. split; [done|]. split; [done|]. cbn. apply elem_of_app. left. by replace C with D by congruence.
      * exists e, D. by rewrite lookup_insert_ne.
    + exists c. eexists. rewrite Ec, lookup_insert_eq. split; [apply elem_of_app; by left|]. split; [done|]. apply elem_of_app. right. by left.
Qed.

(** A consumer being added gets a sender for a track. *)
Lemma connAddTrack_live spare refusal c C n p P s : live J s -> c ∈ J -> conns s !! c = Some C ->
  isReceiver (tracks s) n -> prods s !! p = Some P -> n ∈ receivers P ->
  exists k', codecOf (tracks s) n = Some k' /\
  match refusal k' with
  | Some err => connAddTrack spare refusal c n s = Some (Some err, s)
  | None => exists s' m, connAddTrack spare refusal c n s = Some (None, s') /\ live J s' /\
      conns s' = <[c := C <| Senders := Senders C ++ [m] |>]> (conns s) /\ prods s' = prods s /\
      producers s' = producers s /\ consumers s' = consumers s /\ pending s' = pending s /\ locked s' = locked s /\
      results s' = results s /\ forall q, busy s' q -> busy s q \/ q = p
  end.
Proof.
  intros L Hc HC Hn HP Hp. destruct (codecOf (tracks s) n) as [k'|] eqn:Ek.
  2: { destruct Hn as (x & a & b & E & _). unfold codecOf in Ek. by rewrite E in Ek. }
  exists k'. split; [done|]. unfold connAddTrack. rewrite HC. cbn [mbind option_bind]. rewrite Ek. cbn [mbind option_bind].
  destruct (refusal k') as [err|]; [done|].
  destruct (NewSender k' (tracks s)) as [t1 m] eqn:EN.
  destruct (newSender_spec spare (tracks s) k' n t1 m (lv_wf _ _ L) Hn EN) as (t & E & W & G & Hm & Pm & Ch & Se).
  rewrite E. cbn [mbind option_bind]. eexists _, m. split; [done|]. split; [|repeat split].
  2: { intros q (Q & u & EQ & ST & Hu & Hne). cbn in EQ, Hne. rewrite Ch in Hne. case_decide as D.
       - subst u. right. symmetry. apply (track_owner s p q P Q n); try done. by rewrite ST.
       - left. by exists Q, u. }
  apply (live_watch s _ c C m n p P); try done. exists (SenderStart (newSender k')). by split.
Qed.

(** *** Stopping *)

(** A producer that dialled, none of whose tracks is read, is stopped. *)
Lemma live_stopped s s' p P P' c C : live J s -> prods s !! p = Some P -> conn P = Some c -> conns s !! c = Some C ->
  st P <> stateExternal -> (forall t, t ∈ receivers P -> children (tracks s) t = []) ->
  wf (tracks s') -> grows (tracks s) (tracks s') -> (forall t, children (tracks s') t = children (tracks s) t) ->
  (forall m, senderAt (tracks s') m = senderAt (tracks s) m) ->
  conns s' = <[c := C <| stopped := true |>]> (conns s) -> prods s' = <[p := P']> (prods s) ->
  conn P' = None -> st P' = stateNone -> receivers P' = [] -> senders P' = [] ->
  producers s' = producers s -> consumers s' = consumers s -> live J s'.
Proof.
  intros L HP Hc HC N Hidle W G Ch Se Ec Ep P1 P2 P3 P4 El Es.
  assert (forall e D, conns s' !! e = Some D -> exists D0, conns s !! e = Some D0 /\ Receivers D = Receivers D0 /\
    Senders D = Senders D0) as Hback.
  { intros e D. rewrite Ec, lookup_insert_Some. intros [[<- <-]|[He E]]; [by exists C|by exists D]. }
  assert (forall e, e ∈ J ++ consumers s -> conns s' !! e = conns s !! e) as Hv.
  { intros e He. rewrite Ec, lookup_insert_ne; [done|by apply (viewer_conn s p P)]. }
  split; rewrite ?El, ?Es; try apply L; try done.
  - apply (lists_kept s); [apply L|apply G|]. intros e D E. left. by apply Hback.
  - rewrite Ep. by apply (listed_insert _ _ p P); [apply L|].
  - intros q Q. rewrite Ep, lookup_insert_Some. intros [[<- <-]|[Hq EQ]].
    + split; rewrite ?P1, ?P2, ?P3; try done. intros t H. by apply elem_of_nil in H.
    + pose proof (lv_sources _ _ L q Q EQ) as [Q1 Q2 Q3 Q4 Q5 Q6].
      split; try done; [intros t Ht; by apply (gr_receiver _ _ G), Q2|]. intros e Ee. destruct (Q6 e Ee) as (D & ED & B0 & B1 & B2).
      rewrite Ec, lookup_insert_ne; [by exists D|]. intros <-. replace D with C in * by congruence.
      destruct (so_conn _ _ _ (lv_sources _ _ L p P HP) c Hc) as (C0 & EC0 & _ & _ & [[A _]|(_ & A & _)]); [done|].
      destruct B2 as [[_ B2]|(_ & B2 & _)]; congruence.
  - intros e He. destruct (lv_viewers _ _ L e He) as (D & ED & (V1 & V2 & V3 & V4) & HS). exists D. rewrite Hv by done.
    split; [done|]. split.
    + split; [done|]. split; [done|]. split; [done|]. intros q Q. rewrite Ep, lookup_insert_Some.
      intros [[<- <-]|[_ E]]; [congruence|by apply (V4 q)].
    + intros x Hx. destruct (HS x Hx) as (y & t & q & Q & W1 & W2 & W3 & W4 & W5). exists y, t, q, Q. rewrite Se, Ch, Ep.
      split; [done|]. split; [done|]. split; [done|]. split; [|done]. rewrite lookup_insert_ne; [done|]. intros <-.
      replace Q with P in * by congruence. rewrite (Hidle t W5) in W3. by apply elem_of_nil in W3.
  - intros t x. rewrite Ch. intros Hin. destruct (lv_watched _ _ L t x Hin) as (e & D & H1 & H2 & H3). exists e, D.
    by rewrite Hv.
Qed.

Definition stopped_ok (s : sys) (p : nat) : Prop := exists P, prods s !! p = Some P /\
  (st P = stateNone \/ st P = stateExternal \/
   st P <> stateMedias /\ exists t, t ∈ receivers P /\ children (tracks s) t <> []).

(** One turn of the loop of [stopProducers]. *)
Lemma stop_live p P s : live J s -> prods s !! p = Some P -> exists b, idle p s = Some b /\
  if b then exists s', stop p s = Some s' /\ live J s' /\ framed J s s' /\ stopped_ok s' p /\
    forall q, stopped_ok s q -> stopped_ok s' q
  else stopped_ok s p.
Proof.
  intros L HP. pose proof (lv_sources _ _ L p P HP) as S. unfold idle. rewrite HP. cbn [mbind option_bind].
  rewrite (so_senders _ _ _ S), app_nil_r. eexists. split; [done|]. destruct (forallb _ (receivers P)) eqn:Ei.
  2: { exists P. split; [done|]. right. right. assert (exists t, t ∈ receivers P /\ children (tracks s) t <> []) as (t & Ht & Hc).
       { apply not_true_iff_false in Ei. clear - Ei. induction (receivers P) as [|t l IH]; [done|]. cbn in Ei.
         destruct (decide (children (tracks s) t = [])) as [E|E]; [|exists t; split; [by left|done]].
         rewrite bool_decide_true in Ei by done. destruct (IH Ei) as (u & Hu & Hc). exists u. split; [by right|done]. }
       split; [|by exists t]. intros E. rewrite (so_empty _ _ _ S) in Ht by auto. by apply elem_of_nil in Ht. }
  assert (forall t, t ∈ receivers P -> children (tracks s) t = []) as Hidle.
  { intros t Ht. rewrite forallb_forall in Ei. apply list_elem_of_In, Ei in Ht. by apply bool_decide_eq_true in Ht. }
  unfold stop. rewrite HP. cbn [mbind option_bind].
  destruct (decide (st P = stateExternal \/ st P = stateNone)) as [D|D].
  { exists s. split; [by destruct D as [-> | ->]|]. split; [done|]. split; [apply framed_refl|]. split; [|done]. exists P. tauto. }
  set (P1 := match st P with stateStart => P <| workerID := workerID P + 1 |> | _ => P end).
  assert (forall T (a b : T), match st P with stateExternal | stateNone => a | _ => b end = b) as ->.
  { intros. destruct (st P); try done; tauto. }
  destruct (conn P) as [c|] eqn:Hc; [|destruct D; right; by apply (so_none _ _ _ S)].
  destruct (so_conn _ _ _ S c Hc) as (C & HC & _ & A1 & [[A2 _]|(A2 & A3 & A4 & A5 & A6)]); [tauto|].
  assert (conn P1 = Some c) as -> by (unfold P1; by destruct (st P)). unfold connStop. rewrite HC. cbn [mbind option_bind].
  destruct (closeAll_idle (Receivers C) (tracks s) (lv_wf _ _ L)) as (t & -> & W & G & Ch & Se).
  { intros r Hr. split; [by apply (lv_tracks _ _ L c C)|by apply Hidle, A6]. }
  cbn [mbind option_bind]. rewrite A5. cbn [closeAll mbind option_bind]. eexists. split; [done|].
  split; [by apply (live_stopped s _ p P (P1 <| conn := None |> <| st := stateNone |> <| receivers := [] |> <| senders := [] |>) c C)|].
  split; [split; try done|split].
  - intros e He. cbn. rewrite lookup_insert_ne; [done|by apply (viewer_conn s p P)].
  - intros q (Q & u & EQ & ST & Hu & Hne). cbn in EQ, Hne. rewrite Ch in Hne. rewrite lookup_insert_Some in EQ.
    destruct EQ as [[<- <-]|[_ E]]; [done|by exists Q, u].
  - eexists. cbn. rewrite lookup_insert_eq. split; [done|]. by left.
  - intros q (Q & EQ & HQ). destruct (decide (q = p)) as [->|Hq].
    + eexists. cbn. rewrite lookup_insert_eq. split; [done|]. by left.
    + exists Q. cbn. rewrite lookup_insert_ne by done. split; [done|].
      destruct HQ as [HQ|[HQ|(HQ & u & Hu & Hne)]]; [by left|right; by left|]. right. right. split; [done|]. exists u. by rewrite Ch.
Qed.

(** *** Programs *)

Context (spare : nat -> nat) (refusal : Codec -> option bytes).

(** The program runs to its end, to a result as described. *)
Definition wp {A} (m : prog A) (ins : list answer) (s : sys) (Q : A -> sys -> list answer -> Prop) : Prop :=
  exists a s' ts ins', exec spare refusal m ins s = Some (a, s', ts, ins') /\ Q a s' ins'.

Lemma wp_ret {A} (a : A) ins s (Q : A -> sys -> list answer -> Prop) : Q a s ins -> wp (Ret a) ins s Q.
Proof. intros H. by exists a, s, [], ins. Qed.

Lemma wp_op {A X} (o : op X) (k : X -> prog A) ins s Q x s1 ts i1 :
  perform spare refusal o ins s = Some (x, s1, ts, i1) -> wp (k x) i1 s1 Q -> wp (Op o k) ins s Q.
Proof.
  intros E (a & s' & ts' & i' & E' & H). exists a, s', (ts ++ ts'), i'. split; [|done]. cbn [exec]. rewrite E.
  cbn [mbind option_bind]. by rewrite E'.
Qed.

Lemma wp_mono {A} (m : prog A) ins s (Q Q' : A -> sys -> list answer -> Prop) :
  wp m ins s Q -> (forall a s' i', Q a s' i' -> Q' a s' i') -> wp m ins s Q'.
Proof. intros (a & s' & ts & i' & E & H) HQ. exists a, s', ts, i'. auto. Qed.

Lemma wp_bind {A B} (m : prog A) (f : A -> prog B) ins s Q :
  wp m ins s (fun a s' i' => wp (f a) i' s' Q) -> wp (bind m f) ins s Q.
Proof.
  intros (a & s1 & ts & i1 & E & (b & s' & ts' & i' & E' & H)).
  exists b, s', (ts ++ ts'), i'. split; [|done]. revert ins s ts E.
  induction m as [a0| |X o k IH]; intros ins s ts; cbn [exec bind].
  - intros [= -> -> <- ->]. exact E'.
  - done.
  - destruct (perform spare refusal o ins s) as [[[[x s2] t2] i2]|]; [|done]. cbn [mbind option_bind].
    destruct (exec spare refusal (k x) i2 s2) as [[[[a1 s3] t3] i3]|] eqn:E3; [|done]. intros [= -> -> <- ->].
    rewrite (IH x i2 s2 t3 E3). cbn. by rewrite app_assoc.
Qed.

Lemma stopIdle_live ins l : forall s, live J s -> (forall p, p ∈ l -> p ∈ producers s) ->
  wp (stopIdle l) ins s (fun _ s' ins' => ins' = ins /\ live J s' /\ framed J s s' /\ (forall p, p ∈ l -> stopped_ok s' p) /\
    forall q, stopped_ok s q -> stopped_ok s' q).
Proof.
  induction l as [|p l IH]; intros s L Hl; cbn [stopIdle].
  { apply wp_ret. split; [done|]. split; [done|]. split; [apply framed_refl|]. split; [|done]. intros p H. by apply elem_of_nil in H. }
  destruct (proj1 (lv_listed _ _ L p) (Hl p ltac:(by left))) as [P HP]. destruct (stop_live p P s L HP) as (b & Eb & H).
  eapply (wp_op (OIdle p)); [cbn [perform]; by rewrite Eb|]. destruct b.
  - destruct H as (s1 & Es & L1 & F1 & S1 & K1). eapply (wp_op (OStop p)); [cbn [perform]; by rewrite Es|].
    eapply wp_mono; [apply IH; [done|]; intros q Hq; rewrite (fr_producers _ _ _ F1); apply Hl; by right|].
    intros _ s' i' (-> & L' & F' & A & B). split; [done|]. split; [done|]. split; [by apply (framed_trans J s s1)|].
    split; [|auto]. intros q Hq. apply elem_of_cons in Hq as [->|Hq]; auto.
  - eapply wp_mono; [apply IH; [done|]; intros q Hq; apply Hl; by right|].
    intros _ s' i' (-> & L' & F' & A & B). split; [done|]. split; [done|]. split; [done|]. split; [|done].
    intros q Hq. apply elem_of_cons in Hq as [->|Hq]; auto.
Qed.

Lemma stopProducers_live ins s : live J s -> pending s = 0 -> locked s = false ->
  wp stopProducers ins s (fun _ s' ins' => ins' = ins /\ live J s' /\ framed J s s' /\ forall p, p ∈ producers s' -> stopped_ok s' p).
Proof.
  intros L Hp Hk. unfold stopProducers. eapply (wp_op OPendingLoad); [done|]. rewrite Hp. cbn.
  eapply (wp_op OLock); [cbn [perform]; by rewrite Hk|]. eapply (wp_op OProducers); [done|]. apply wp_bind.
  eapply wp_mono; [apply stopIdle_live; [by apply (live_same J s)|done]|].
  intros _ s' i' (-> & L' & [F1 F2 F3 F4 F5 F6 F7 F8] & A & _). eapply (wp_op OUnlock); [done|]. apply wp_ret. split; [done|].
  split; [by apply (live_same J s')|]. split; [by split; [..|intros p Hb; apply F8; destruct Hb as (P & t & Hb); by exists P, t]|].
  cbn. rewrite F1. intros p Hpp. destruct (A p Hpp) as (P & HP). by exists P.
Qed.
End viewers.

Arguments wp_op {spare refusal A X} o k ins s Q {x s1 ts i1}.

(** *** Joining *)

Section joining.
Context (spare : nat -> nat) (refusal : Codec -> option bytes).
(** The consumer, the stream before the call, and producers that are to be started anyway. *)
Context (c : nat) (s0 : sys) (base : list nat).

Record joining (a : adding) (s : sys) : Prop := {
  jo_live : live [c] s;
  jo_producers : producers s = producers s0;
  jo_consumers : consumers s = consumers s0;
  jo_pending : pending s = 1;
  jo_locked : locked s = false;
  jo_busy : forall p, busy s p -> p ∈ prodStarts a;
  jo_none : forall C, conns s !! c = Some C -> prodStarts a = [] <-> Senders C = [];
  jo_errs : length (prodErrors a) = length (producers s0);
  jo_starts : forall p, p ∈ prodStarts a -> p ∈ producers s0;
  jo_others : forall d, d ∈ consumers s0 -> conns s !! d = conns s0 !! d;
  jo_base : forall p, p ∈ base -> p ∈ prodStarts a;
}.

(** A step that only concerns producers. *)
Lemma joining_framed a s s' : joining a s -> live [c] s' -> framed [c] s s' -> joining a s'.
Proof.
  intros [L J1 J2 J3 J4 J5 J6 J7 J8 J9 J10] L' [F1 F2 F3 F4 F5 F6 F7 F8]. split; try done; try congruence; [auto|..].
  - intros C. rewrite F6 by (by left). auto.
  - intros d Hd. rewrite F6; [auto|]. right. by rewrite J2.
Qed.

(** What is noted about errors and media does not matter here. *)
Lemma joining_note a a' s : joining a s -> prodStarts a' = prodStarts a -> length (prodErrors a') = length (prodErrors a) ->
  joining a' s.
Proof. intros [L J1 J2 J3 J4 J5 J6 J7 J8 J9 J10] E1 E2. split; rewrite ?E1, ?E2; done. Qed.

Lemma viewer_media m pk ck cm : Direction cm = DirectionSendonly -> MatchMedia m cm = Some (pk, ck) ->
  Direction m <> DirectionSendonly.
Proof.
  intros E H Hm. unfold MatchMedia in H. rewrite E, Hm in H. cbn in H.
  rewrite (bool_decide_false (DirectionSendonly = DirectionRecvonly)), orb_true_r in H by done. done.
Qed.

(** One matched pair of codecs: an added track is started with its producer. *)
Lemma connect_live p n m pk ck cm a ins s : joining a s -> p ∈ producers s0 ->
  (exists P, prods s !! p = Some P /\ st P <> stateNone) ->
  Direction cm = DirectionSendonly -> MatchMedia m cm = Some (pk, ck) ->
  Direction m = DirectionRecvonly \/ Direction m = DirectionSendonly ->
  wp spare refusal (connect c p n m pk ck a) ins s (fun r s' ins' => ins' = ins /\
    joining (if r.1 then r.2 <| prodStarts := prodStarts r.2 ++ [p] |> else r.2) s' /\
    (exists P, prods s' !! p = Some P /\ st P <> stateNone) /\
    (exists k, address k = address pk /\ r.1 = bool_decide (refusal k = None)) /\
    (r.1 = false -> r.2 = a /\ conns s' !! c = conns s !! c /\ GetMedias p s' = GetMedias p s /\
       url <$> prods s' !! p = url <$> prods s !! p)).
Proof.
  intros Jo Hp (P & HP & N) Hcm HM [D1|D1]; [|by destruct (viewer_media m pk ck cm Hcm HM)].
  unfold connect. rewrite decide_True by done.
  destruct (GetTrack_live [c] p P pk s (jo_live _ _ Jo) HP N) as (t & s1 & E1 & L1 & F1 & Rt & (k1 & Ek1 & Ak1) & P1 & HP1 & Ht).
  eapply (wp_op (OGetTrack p pk)); [cbn [perform]; by rewrite E1|]. cbv beta iota.
  pose proof (joining_framed a s s1 Jo L1 F1) as J1.
  assert (st P1 <> stateNone) as N1.
  { intros E. rewrite (so_empty _ _ _ (lv_sources _ _ L1 p P1 HP1)) in Ht by auto. by apply elem_of_nil in Ht. }
  destruct (lv_viewers _ _ L1 c ltac:(by left)) as (C & HC & _ & _).
  destruct (connAddTrack_live [c] spare refusal c C t p P1 s1 L1 ltac:(by left) HC Rt HP1 Ht) as (k' & Ek' & H).
  assert (k1 = k') as -> by congruence. destruct (GetTrack_same p P pk s t s1 HP E1) as [EM EU].
  destruct (refusal k') as [err|] eqn:Er.
  - eapply (wp_op (OConsAddTrack c t)); [cbn [perform]; by rewrite H|]. apply wp_ret. split; [done|]. split; [done|]. split; [by exists P1|]. split; [exists k'; by rewrite Er|].
    intros _. cbn [snd]. split; [done|]. split; [apply (fr_viewers _ _ _ F1); by left|]. split; [done|]. by rewrite EU, HP.
  - destruct H as (s2 & v & E2 & L2 & Ec & Ep & El & Es & Epn & Elk & Ers & HB).
    eapply (wp_op (OConsAddTrack c t)); [cbn [perform]; by rewrite E2|]. apply wp_ret. split; [done|].
    split; [|split; [exists P1; by rewrite Ep|split; [exists k'; by rewrite Er|done]]]. cbn [fst snd]. destruct J1 as [_ J1 J2 J3 J4 J5 J6 J7 J8 J9 J10].
    split; try done; try congruence; cbn.
    + intros q Hq. apply elem_of_app. destruct (HB q Hq) as [H| ->]; [left; auto|right; by left].
    + intros C'. rewrite Ec, lookup_insert_eq. intros [= <-]. cbn. split; intros E; by apply app_eq_nil in E as [_ E].
    + intros q. rewrite elem_of_app, list_elem_of_singleton. intros [Hq| ->]; auto.
    + intros d Hd. rewrite Ec, lookup_insert_ne; [auto|]. intros <-. rewrite <- J2 in Hd.
      apply (NoDup_cons_1_1 c (consumers s1)); [apply (lv_nodup _ _ L1)|done].
    + intros q Hq. apply elem_of_app. left. auto.
Qed.

Lemma tryMedias_live p n cm ms ins : forall a s, joining a s -> p ∈ producers s0 ->
  (exists P, prods s !! p = Some P /\ st P <> stateNone) -> Direction cm = DirectionSendonly -> directed ms ->
  wp spare refusal (tryMedias c p n cm ms a) ins s (fun r s' ins' => ins' = ins /\ joining r.2 s').
Proof.
  induction ms as [|m ms IH]; intros a s Jo Hp HP Hcm Hd; cbn [tryMedias]; [by apply wp_ret|].
  apply Forall_cons in Hd as [Hd Hds].
  assert (joining (a <| prodMedias := prodMedias a ++ [m] |>) s) as Jm by (by apply (joining_note a)).
  destruct (MatchMedia m cm) as [[pk ck]|] eqn:HM; [|by apply IH].
  apply wp_bind. eapply wp_mono; [by apply (connect_live p n m pk ck cm)|].
  intros [[] a1] s1 i1 (-> & J1 & HP1 & _); cbn [fst snd] in J1; [|by apply IH].
  destruct (MatchAll cm); [by apply IH|]. by apply wp_ret.
Qed.

Lemma tryProducers_live cm ps : forall n a k ins s, joining a s -> (forall p, p ∈ ps -> p ∈ producers s0) ->
  (n + length ps <= length (producers s0))%nat -> Direction cm = DirectionSendonly -> ample (length ps + k) ins ->
  wp spare refusal (tryProducers c cm ps n a) ins s (fun a' s' ins' => ample k ins' /\ joining a' s').
Proof.
  induction ps as [|p ps IH]; intros n a k ins s Jo Hps Hn Hcm HA; cbn [tryProducers].
  { by apply wp_ret. }
  cbn [length Nat.add] in Hn, HA. assert (p ∈ producers s0) as Hp by (apply Hps; by left).
  assert (p ∈ producers s) as Hp' by (by rewrite (jo_producers _ _ Jo)).
  destruct (proj1 (lv_listed _ _ (jo_live _ _ Jo) p) Hp') as [P HP].
  destruct (lv_viewers _ _ (jo_live _ _ Jo) c ltac:(by left)) as (C & HC & _ & _).
  eapply (wp_op (OSourceOf p c)); [cbn [perform]; rewrite HP, HC; done|].
  assert (forall ins' a' s', ample (length ps + k) ins' -> joining a' s' ->
    wp spare refusal (tryProducers c cm ps (S n) a') ins' s' (fun a' s' ins' => ample k ins' /\ joining a' s')) as Hgo.
  { intros ins' a' s' HA' J'. apply IH; [done| |lia|done|done]. intros q Hq. apply Hps. by right. }
  assert (ample (length ps + k) ins) as HA0 by (apply (ample_le (S (length ps + k))); [lia|done]).
  destruct (match source C with Some _ => _ | None => _ end); [by apply Hgo|].
  destruct (prodErrors a !! n) as [[err|]|] eqn:Ee; [by apply Hgo| |].
  2: { apply lookup_ge_None in Ee. rewrite (jo_errs _ _ Jo) in Ee. lia. }
  destruct (Dial_live [c] p ins (length ps + k) s (jo_live _ _ Jo) Hp' HA) as (e & s1 & i1 & E1 & L1 & A1 & F1 & HS).
  pose proof (joining_framed a s s1 Jo L1 F1) as J1.
  eapply (wp_op (ODial p)); [cbn [perform]; by rewrite E1|]. destruct e as [err|].
  { apply Hgo; [done|]. apply (joining_note a); [done|done|]. unfold failed. cbn. by rewrite length_insert. }
  destruct (HS eq_refl) as (P1 & HP1 & N1).
  assert (exists ms, GetMedias p s1 = Some ms /\ directed ms) as (ms & Ems & Hms).
  { unfold GetMedias. rewrite HP1. cbn. destruct (conn P1) as [d|] eqn:Ed; [|exists []; split; [done|constructor]].
    destruct (so_conn _ _ _ (lv_sources _ _ L1 p P1 HP1) d Ed) as (D & -> & H & _). by eexists. }
  eapply (wp_op (OGetMedias p)); [cbn [perform]; by rewrite Ems|]. apply wp_bind.
  eapply wp_mono; [apply (tryMedias_live p n cm ms i1 a s1); try done; by exists P1|].
  intros [[] a2] s2 i2 (-> & J2); cbn [fst snd] in J2; [|by apply Hgo]. apply wp_ret. split; [|done].
  apply (ample_le (length ps + k)); [lia|done].
Qed.

Lemma tryAll_live ms : forall a k ins s, joining a s -> Forall (fun m => Direction m = DirectionSendonly) ms ->
  ample (length ms * length (producers s0) + k) ins ->
  wp spare refusal (tryAll c ms a) ins s (fun a' s' ins' => ample k ins' /\ joining a' s').
Proof.
  induction ms as [|m ms IH]; intros a k ins s Jo Hms HA; cbn [tryAll]; [by apply wp_ret|].
  apply Forall_cons in Hms as [Hm Hms]. eapply (wp_op OProducers); [done|]. apply wp_bind.
  rewrite (jo_producers _ _ Jo). cbn [length Nat.mul] in HA. rewrite <- Nat.add_assoc in HA.
  eapply wp_mono; [by apply (tryProducers_live m (producers s0) 0 a (length ms * length (producers s0) + k) ins s)|].
  intros a1 s1 i1 [A1 J1]. by apply IH.
Qed.
End joining.

(** *** Starting *)

Lemma start_live J p P s : live J s -> prods s !! p = Some P -> exists s' ts, start p s = Some (s', ts) /\ live J s' /\
  framed J s s' /\ ~ busy s' p /\ (forall q, stopped_ok s q -> stopped_ok s' q).
Proof.
  intros L HP. pose proof (lv_sources _ _ L p P HP) as S. unfold start. rewrite HP. cbn [mbind option_bind].
  destruct (decide (st P = stateTracks)) as [D|D].
  2: { exists s, []. split; [by destruct (st P)|]. split; [done|]. split; [apply framed_refl|]. split; [|done].
       intros (Q & t & EQ & ST & _). replace Q with P in * by congruence. done. }
  rewrite D. destruct (conn P) as [c|] eqn:Ec; [|by rewrite (proj2 (so_none _ _ _ S) Ec) in D]. cbn [mbind option_bind].
  set (P' := P <| st := stateStart |> <| workerID := workerID P + 1 |>). eexists _, _. split; [done|].
  assert (forall q Q, <[p := P']> (prods s) !! q = Some Q -> (q = p /\ Q = P') \/ (q <> p /\ prods s !! q = Some Q)) as HQ.
  { intros q Q. rewrite lookup_insert_Some. intros [[<- <-]|[? ?]]; [by left|right; by split]. }
  assert (forall n, watching s n -> watching (setProd p P' s) n) as HW.
  { intros n (d & t & q & Q & W1 & W2 & W3 & W4 & W5). destruct (decide (q = p)) as [->|Hq].
    - exists d, t, p, P'. cbn. rewrite lookup_insert_eq. replace P with Q by congruence. done.
    - exists d, t, q, Q. cbn. by rewrite lookup_insert_ne. }
  split; [split; try apply L|split; [split|split]]; try done.
  - apply (lists_kept s); [apply L|apply keeps_refl|]. intros d D' E. left. by exists D'.
  - by apply (listed_insert _ _ p P); [apply L|].
  - intros q Q EQ. destruct (HQ q Q EQ) as [[-> ->]|[_ E]]; [|by apply (source_ok_kept s); [..|apply (lv_sources _ _ L)]].
    destruct S as [S1 S2 S3 S4 S5 S6]. split; try done.
    + by intros [?|?].
    + cbn. rewrite Ec. done.
    + intros d Ed. destruct (S6 d Ed) as (C & EC & A0 & A & B). exists C. split; [done|]. split; [done|]. split; [done|].
      destruct B as [[B _]|(_ & B)]; [congruence|]. by right.
  - intros d Hd. destruct (lv_viewers _ _ L d Hd) as (C & EC & (V1 & V2 & V3 & V4) & HS). exists C. split; [done|].
    split; [|auto]. split; [done|]. split; [done|]. split; [done|]. intros q Q EQ.
    destruct (HQ q Q EQ) as [[-> ->]|[_ E]]; [by apply (V4 p P)|by apply (V4 q)].
  - intros q (Q & t & EQ & ST & H). destruct (HQ q Q EQ) as [[-> ->]|[_ E]]; [done|by exists Q, t].
  - intros (Q & t & EQ & ST & H). destruct (HQ p Q EQ) as [[_ ->]|[? _]]; done.
  - intros q (Q & EQ & H). destruct (decide (q = p)) as [->|Hq].
    + exists P'. cbn. rewrite lookup_insert_eq. split; [done|]. replace Q with P in * by congruence. rewrite D in H.
      destruct H as [H|[H|[_ H]]]; try done. right. by right.
    + exists Q. cbn. by rewrite lookup_insert_ne.
Qed.

Lemma startAll_live spare refusal J ins l : forall s, live J s -> (forall p, p ∈ l -> p ∈ producers s) ->
  wp spare refusal (startAll l) ins s (fun _ s' ins' => ins' = ins /\ live J s' /\ framed J s s' /\
    (forall p, busy s' p -> p ∉ l) /\ forall q, stopped_ok s q -> stopped_ok s' q).
Proof.
  induction l as [|p l IH]; intros s L Hl; cbn [startAll].
  { apply wp_ret. split; [done|]. split; [done|]. split; [apply framed_refl|]. split; [|done]. intros p _ H. by apply elem_of_nil in H. }
  destruct (proj1 (lv_listed _ _ L p) (Hl p ltac:(by left))) as [P HP].
  destruct (start_live J p P s L HP) as (s1 & ts & E & L1 & F1 & B1 & K1).
  eapply (wp_op (OStart p)); [cbn [perform]; by rewrite E|].
  eapply wp_mono; [apply IH; [done|]; intros q Hq; rewrite (fr_producers _ _ _ F1); apply Hl; by right|].
  intros _ s' i' (-> & L' & F' & B' & K'). split; [done|]. split; [done|]. split; [by apply (framed_trans J s s1)|].
  split; [|auto]. intros q Hq Hin. apply elem_of_cons in Hin as [->|Hin]; [|by apply (B' q)].
  by apply B1, (fr_busy _ _ _ F').
Qed.
