(* ===== verification/Resume.v ===== *)
(** A source that comes back ([internal/streams/producer.go], [reconnect]): when the new
    connection has a media for each track, every track's consumers hang off a track of the
    new connection afterwards, and the old one can be stopped without touching them. *)

From S2P Require Import Prelude Text Producer Negotiate Tracks TracksFacts Streams StreamsFacts Viewers.

(** ** Kinds *)

Definition kindOf (t : store) (n : nat) : bytes :=
  match codecOf t n with Some k => GetKind (Name k) | None => [] end.

(** Media of one kind each, whose codecs are of that kind. *)
Record sorted (ms : list Media) : Prop := {
  so_kind : forall m k, m ∈ ms -> k ∈ Codecs m -> GetKind (Name k) = Kind m;
  so_nodup : NoDup (map Kind (filter (fun m => Direction m = DirectionRecvonly) ms));
  so_address : forall m m' k k', m ∈ ms -> m' ∈ ms -> k ∈ Codecs m -> k' ∈ Codecs m' -> address k = address k' -> k = k';
}.

Lemma MatchCodec_in m k k' : MatchCodec m k = Some k' -> k' ∈ Codecs m /\ Match k' k = true.
Proof. unfold MatchCodec. intros H. apply find_some in H as [H1 H2]. split; [by apply list_elem_of_In|done]. Qed.

(** A codec of a known kind matches codecs of that kind only. *)
Lemma Match_kind k' k : Match k' k = true -> GetKind (Name k) <> [] -> GetKind (Name k') = GetKind (Name k).
Proof.
  unfold Match. intros H N. apply orb_prop in H as [H|H].
  - exfalso. apply bool_decide_eq_true in H. apply N. by destruct H as [-> | ->]; vm_compute.
  - apply andb_prop in H as [H _]. apply andb_prop in H as [H _]. apply bool_decide_eq_true in H. by rewrite H.
Qed.

Lemma MatchCodec_kind ms m k k' : sorted ms -> m ∈ ms -> GetKind (Name k) <> [] -> MatchCodec m k = Some k' ->
  k' ∈ Codecs m /\ GetKind (Name k') = GetKind (Name k) /\ Kind m = GetKind (Name k).
Proof.
  intros S Hm N H. apply MatchCodec_in in H as [H1 H2]. pose proof (Match_kind k' k H2 N) as E.
  split; [done|]. split; [done|]. by rewrite <- E, (so_kind ms S m k').
Qed.

(** At most one receiving media of a kind. *)
Lemma nodup_later pre m ms x : NoDup (map Kind (filter (fun m => Direction m = DirectionRecvonly) (pre ++ m :: ms))) ->
  Direction m = DirectionRecvonly -> x ∈ ms -> Direction x = DirectionRecvonly -> Kind x = Kind m -> False.
Proof.
  intros N Dm Hx Dx E. rewrite filter_app, map_app in N. apply NoDup_app in N as (_ & _ & N).
  rewrite filter_cons_True in N by done. cbn [map] in N. apply NoDup_cons in N as [N _]. apply N. rewrite <- E.
  apply list_elem_of_fmap. exists x. split; [done|]. by apply list_elem_of_filter.
Qed.

Lemma nodup_kind ms m m' : NoDup (map Kind (filter (fun m => Direction m = DirectionRecvonly) ms)) -> m ∈ ms -> m' ∈ ms ->
  Direction m = DirectionRecvonly -> Direction m' = DirectionRecvonly -> Kind m = Kind m' -> m' = m.
Proof.
  intros N Hm Hm' D D' E. apply list_elem_of_split in Hm as (pre & post & ->). apply elem_of_app in Hm' as [H|H].
  - apply list_elem_of_split in H as (a & b & ->). rewrite <- app_assoc in N. cbn [app] in N.
    destruct (nodup_later a m' (b ++ m :: post) m N); try done. apply elem_of_app. right. by left.
  - apply elem_of_cons in H as [->|H]; [done|]. by destruct (nodup_later pre m post m' N).
Qed.

(** ** Moving the tracks *)

Lemma Forall2_in_impl {A B} (P Q : A -> B -> Prop) l k : Forall2 P l k -> (forall x y, x ∈ l -> P x y -> Q x y) -> Forall2 Q l k.
Proof.
  induction 1 as [|x y l k H _ IH]; intros HQ; constructor; [apply HQ; [by left|done]|].
  apply IH. intros a b Ha. apply HQ. by right.
Qed.

Lemma moveReceiver_miss c m rs : forall s, (forall r, r ∈ rs -> exists k, codecOf (tracks s) r = Some k /\ MatchCodec m k = None) ->
  moveReceiver c m rs s = Some (rs, s).
Proof.
  induction rs as [|r rs IH]; intros s H; cbn [moveReceiver]; [done|].
  destruct (H r ltac:(by left)) as (k & -> & E). cbn [mbind option_bind]. rewrite E, IH; [done|]. intros x Hx. apply H. by right.
Qed.

Lemma moveReceiver_hit c m pre r post k k' n s s1 t : 
  (forall x, x ∈ pre -> exists k, codecOf (tracks s) x = Some k /\ MatchCodec m k = None) ->
  codecOf (tracks s) r = Some k -> MatchCodec m k = Some k' -> connGetTrack c k' s = Some (n, s1) ->
  MoveNode n r (tracks s1) = Some t -> moveReceiver c m (pre ++ r :: post) s = Some (pre ++ n :: post, setTracks t s1).
Proof.
  intros H Ek Em Et Emv. induction pre as [|x pre IH]; cbn [app moveReceiver].
  - rewrite Ek. cbn [mbind option_bind]. rewrite Em, Et. cbn [mbind option_bind]. by rewrite Emv.
  - destruct (H x ltac:(by left)) as (kx & -> & E). cbn [mbind option_bind]. rewrite E, IH; [done|]. intros y Hy. apply H. by right.
Qed.

Section moving.
(** The new connection [c], with nothing on it yet, and the tracks to move. *)
Context (s1 : sys) (c : nat) (C : Conn) (rs0 : list nat).
Context (Hsorted : sorted (Medias C)) (Hnew : Receivers C = []).
Context (HC : conns s1 !! c = Some C) (Hwf : wf (tracks s1)).
Context (Hrs : forall r, r ∈ rs0 -> isReceiver (tracks s1) r).
Context (Hkinds : NoDup (map (kindOf (tracks s1)) rs0)) (Hkind : [] ∉ map (kindOf (tracks s1)) rs0).

(** After the media with the kinds in [done]: [rs] are the tracks now, [T] those of the new
    connection. *)
Record moving (done : list bytes) (rs T : list nat) (s : sys) : Prop := {
  mv_wf : wf (tracks s);
  mv_keeps : keeps (tracks s1) (tracks s);
  mv_senders : forall n, senderAt (tracks s) n = senderAt (tracks s1) n;
  mv_sys : s = setConn c (C <| Receivers := T |>) (setTracks (tracks s) s1);
  mv_fresh : forall t, t ∈ T -> isReceiver (tracks s) t /\ nodes (tracks s1) !! t = None /\
    exists k m, m ∈ Medias C /\ k ∈ Codecs m /\ codecOf (tracks s) t = Some k /\ GetKind (Name k) ∈ done;
  mv_same : Forall2 (fun r r0 => (r = r0 \/ r ∈ T) /\ kindOf (tracks s) r = kindOf (tracks s1) r0 /\
    children (tracks s) r = children (tracks s1) r0) rs rs0;
  mv_done : forall r, r ∈ rs -> kindOf (tracks s) r ∈ done -> r ∈ T;
  mv_used : forall t, t ∈ T -> t ∈ rs;
  mv_other : forall q, q ∉ rs -> children (tracks s) q = if decide (q ∈ rs0) then [] else children (tracks s1) q;
}.

Lemma moving_kinds done rs T s : moving done rs T s -> map (kindOf (tracks s)) rs = map (kindOf (tracks s1)) rs0.
Proof.
  intros M. pose proof (mv_same _ _ _ _ M) as H. clear - H. induction H as [|r r0 l l0 (_ & E & _) _ IH]; [done|]. cbn. by rewrite E, IH.
Qed.

Lemma moving_begins : moving [] rs0 [] s1.
Proof.
  split; try done.
  - unfold setConn, setTracks. cbn. rewrite <- Hnew. destruct s1 as [a b d e f g h i], C. cbn in *. by rewrite insert_id.
  - intros t H. by apply elem_of_nil in H.
  - clear. induction rs0 as [|r l IH]; constructor; [|done]. split; [by left|done].
  - intros r _ H. by apply elem_of_nil in H.
  - intros t H. by apply elem_of_nil in H.
  - intros q Hq. by rewrite decide_False.
Qed.

(** A track that has not moved yet, by its kind. *)
Lemma moving_unmoved done rs T s r : moving done rs T s -> r ∈ rs -> kindOf (tracks s) r ∉ done ->
  r ∈ rs0 /\ r ∉ T.
Proof.
  intros M Hr Hk. assert (r ∉ T) as HT.
  { intros H. destruct (mv_fresh _ _ _ _ M r H) as (_ & _ & k & m & _ & _ & E & D). apply Hk. unfold kindOf. by rewrite E. }
  split; [|done]. apply list_elem_of_lookup_1 in Hr as [i Ei].
  destruct (Forall2_lookup_l _ _ _ _ _ (mv_same _ _ _ _ M) Ei) as (r0 & E0 & ([-> |H] & _)); [|done].
  by apply list_elem_of_lookup_2 in E0.
Qed.

Lemma moving_codec done rs T s r : moving done rs T s -> r ∈ rs -> exists k, codecOf (tracks s) r = Some k /\ isReceiver (tracks s) r.
Proof.
  intros M Hr. assert (isReceiver (tracks s) r) as (x & a & b & E & K).
  { apply list_elem_of_lookup_1 in Hr as [i Ei]. destruct (Forall2_lookup_l _ _ _ _ _ (mv_same _ _ _ _ M) Ei) as (r0 & E0 & ([-> |H] & _)).
    - apply (kp_receiver _ _ (mv_keeps _ _ _ _ M)), Hrs. by apply list_elem_of_lookup_2 in E0.
    - by apply (mv_fresh _ _ _ _ M). }
  exists (codec x). unfold codecOf. rewrite E. split; [done|]. by exists x, a, b.
Qed.

Lemma moving_nodup done rs T s : moving done rs T s -> NoDup (map (kindOf (tracks s)) rs) /\ forall r, r ∈ rs -> kindOf (tracks s) r <> [].
Proof.
  intros M. pose proof (moving_kinds done rs T s M) as E. rewrite E. split; [done|]. intros r Hr Hk. apply Hkind. rewrite <- E, <- Hk.
  apply list_elem_of_fmap. by exists r.
Qed.

(** No track has a codec of the media. *)
Lemma moving_miss done rs T s m : moving done rs T s -> m ∈ Medias C -> (forall r, r ∈ rs -> kindOf (tracks s) r <> Kind m) ->
  moveReceiver c m rs s = Some (rs, s) /\ moving (Kind m :: done) rs T s.
Proof.
  intros M Hm H. destruct (moving_nodup done rs T s M) as [_ Hne]. split.
  - apply moveReceiver_miss. intros r Hr. destruct (moving_codec done rs T s r M Hr) as (k & Ek & _). exists k. split; [done|].
    destruct (MatchCodec m k) as [k'|] eqn:E; [|done]. specialize (H r Hr). specialize (Hne r Hr). unfold kindOf in H, Hne.
    rewrite Ek in H, Hne. destruct (MatchCodec_kind _ m k k' Hsorted Hm Hne E) as (_ & _ & Hk). congruence.
  - destruct M as [M1 M2 M3 M4 M5 M6 M7 M8 M9]. split; try done.
    + intros t Ht. destruct (M5 t Ht) as (A & B & k & m' & D & E & F & G). split; [done|]. split; [done|]. exists k, m'.
      split; [done|]. split; [done|]. split; [done|]. by right.
    + intros r Hr Hk. apply elem_of_cons in Hk as [Hk|Hk]; [by destruct (H r)|by apply M7].
Qed.

(** The new connection makes a new track for the codec. *)
Lemma moving_newTrack done rs T s m k' : moving done rs T s -> m ∈ Medias C -> k' ∈ Codecs m -> Kind m ∉ done ->
  exists t n, connGetTrack c k' s = Some (n, setConn c (C <| Receivers := T ++ [n] |>) (setTracks t s1)) /\
    NewReceiver k' (tracks s) = (t, n).
Proof.
  intros M Hm Hk Hd. destruct (NewReceiver k' (tracks s)) as [t n] eqn:EN. exists t, n. split; [|done].
  assert (conns s !! c = Some (C <| Receivers := T |>)) as Es.
  { rewrite (mv_sys _ _ _ _ M). unfold setConn. cbn. by rewrite lookup_insert_eq. }
  unfold connGetTrack. rewrite Es. cbn [mbind option_bind].
  change (Receivers (C <| Receivers := T |>)) with T.
  assert (trackOf (tracks s) k' T = None) as ->.
  { unfold trackOf. destruct (find _ T) as [x|] eqn:E; [|done]. apply find_some in E as [E1 E2]. apply list_elem_of_In in E1.
    destruct (mv_fresh _ _ _ _ M x E1) as (_ & _ & k & m' & D1 & D2 & D3 & D4). rewrite D3 in E2. apply bool_decide_eq_true in E2.
    rewrite (so_address _ Hsorted m' m k k' D1 Hm D2 Hk E2), (so_kind _ Hsorted m k' Hm Hk) in D4. done. }
  rewrite EN. f_equal. f_equal. rewrite (mv_sys _ _ _ _ M). unfold setConn, setTracks. cbn. by rewrite insert_insert_eq.
Qed.

(** One track of the kind [Kind m], and no other. *)
Lemma moving_others done pre r post T s m : moving done (pre ++ r :: post) T s -> kindOf (tracks s) r = Kind m ->
  forall x, x ∈ pre ++ post -> x ∈ pre ++ r :: post /\ x <> r /\ kindOf (tracks s) x <> Kind m.
Proof.
  intros M Er x Hx. pose proof (moving_nodup _ _ _ _ M) as [Hnd _].
  split; [apply elem_of_app; apply elem_of_app in Hx as [?|?]; [by left|right; by right]|].
  assert (kindOf (tracks s) x <> Kind m) as HK; [|split; [congruence|done]]. intros E.
  rewrite map_app in Hnd. cbn [map] in Hnd. apply NoDup_app in Hnd as (_ & N1 & N2). apply NoDup_cons in N2 as [N2 _].
  apply elem_of_app in Hx as [Hx|Hx].
  - apply (N1 (kindOf (tracks s) x)); [apply list_elem_of_fmap; by exists x|]. rewrite E, <- Er. by left.
  - apply N2. rewrite Er, <- E. apply list_elem_of_fmap. by exists x.
Qed.

(** The track [r] has become the track [n] of the new connection. *)
Lemma moving_moved done pre r post T s m k' n t : moving done (pre ++ r :: post) T s -> m ∈ Medias C ->
  kindOf (tracks s) r = Kind m -> Kind m ∉ done -> k' ∈ Codecs m ->
  wf t -> keeps (tracks s) t -> (forall x, senderAt t x = senderAt (tracks s) x) -> isReceiver t n ->
  nodes (tracks s) !! n = None -> codecOf t n = Some k' -> children t n = children (tracks s) r -> children t r = [] ->
  (forall q, q <> n -> q <> r -> children t q = children (tracks s) q) ->
  moving (Kind m :: done) (pre ++ n :: post) (T ++ [n]) (setConn c (C <| Receivers := T ++ [n] |>) (setTracks t s1)).
Proof.
  intros M Hm Er Hd Hk' W K Se Rn Hn Cn V1 V2 V3. pose proof (moving_others _ _ _ _ _ _ _ M Er) as Hother.
  destruct (moving_unmoved _ _ _ _ r M ltac:(apply elem_of_app; right; by left)) as [Hr0 HrT]; [by rewrite Er|].
  assert (forall x, x ∈ pre ++ r :: post -> x <> n /\ kindOf t x = kindOf (tracks s) x) as Hx.
  { intros x Hx. destruct (moving_codec _ _ _ _ x M Hx) as (kx & Ekx & _). split.
    - intros ->. unfold codecOf in Ekx. by rewrite Hn in Ekx.
    - unfold kindOf. by rewrite Ekx, (kp_codec _ _ K x kx Ekx). }
  assert (kindOf t n = Kind m) as En by (unfold kindOf; rewrite Cn; by apply (so_kind _ Hsorted)).
  assert (forall x, x ∈ pre ++ n :: post -> x = n \/ x ∈ pre ++ post) as Hin.
  { intros x. rewrite !elem_of_app, elem_of_cons. tauto. }
  destruct M as [M1 M2 M3 M4 M5 M6 M7 M8 M9].
  assert (forall x x0, x ∈ pre ++ post -> ((x = x0 \/ x ∈ T) /\ kindOf (tracks s) x = kindOf (tracks s1) x0 /\
    children (tracks s) x = children (tracks s1) x0) -> (x = x0 \/ x ∈ T ++ [n]) /\ kindOf t x = kindOf (tracks s1) x0 /\
    children t x = children (tracks s1) x0) as Hstep.
  { intros x x0 Hxp (B1 & B2 & B3). destruct (Hother x Hxp) as (Hxo & Hxr & _). destruct (Hx x Hxo) as [Hxn EK].
    split; [destruct B1 as [B1|B1]; [by left|right; apply elem_of_app; by left]|]. split; [by rewrite EK|by rewrite V3]. }
  split; unfold setConn, setTracks; cbn; try done.
  - by apply (keeps_trans _ (tracks s)).
  - intros x. by rewrite Se.
  - intros x. rewrite elem_of_app, list_elem_of_singleton. intros [Ht| ->].
    + destruct (M5 x Ht) as (A & B & k & m' & D & E & F & G). split; [by apply (kp_receiver _ _ K)|]. split; [done|].
      exists k, m'. split; [done|]. split; [done|]. split; [by apply (kp_codec _ _ K)|]. by right.
    + split; [done|]. split.
      * destruct (nodes (tracks s1) !! n) as [y|] eqn:E; [|done]. assert (codecOf (tracks s1) n = Some (codec y)) as E' by (unfold codecOf; by rewrite E).
        apply (kp_codec _ _ M2) in E'. unfold codecOf in E'. by rewrite Hn in E'.
      * exists k', m. split; [done|]. split; [done|]. split; [done|]. rewrite (so_kind _ Hsorted m k' Hm Hk'). by left.
  - apply Forall2_app_inv_l in M6 as (l1 & l2 & F1 & F2 & ->). inversion F2 as [|? r0 ? l2' (A1 & A2 & A3) F3]; subst.
    apply Forall2_app; [|constructor].
    + apply (Forall2_in_impl _ _ _ _ F1). intros x x0 Hxp. apply Hstep. apply elem_of_app. by left.
    + split; [right; apply elem_of_app; right; by left|]. split; [congruence|]. by rewrite V1.
    + apply (Forall2_in_impl _ _ _ _ F3). intros x x0 Hxp. apply Hstep. apply elem_of_app. by right.
  - intros x Hxin HK. destruct (Hin x Hxin) as [->|Hxp]; [apply elem_of_app; right; by left|].
    destruct (Hother x Hxp) as (Hxo & _ & HKx). destruct (Hx x Hxo) as [_ EK]. rewrite EK in HK.
    apply elem_of_cons in HK as [HK|HK]; [done|]. apply elem_of_app. left. by apply M7.
  - intros x. rewrite elem_of_app, list_elem_of_singleton. intros [Ht| ->]; [|apply elem_of_app; right; by left].
    pose proof (M8 x Ht) as Hxo. rewrite elem_of_app, elem_of_cons in Hxo |- *. destruct Hxo as [?|[->|?]]; [by left|done|right; by right].
  - intros q Hq. assert (q <> n) as Hqn by (intros ->; apply Hq, elem_of_app; right; by left).
    destruct (decide (q = r)) as [->|Hqr]; [by rewrite V2, decide_True|]. rewrite V3 by done. apply M9.
    intros H. apply Hq. rewrite elem_of_app, elem_of_cons in H |- *. tauto.
Qed.

(** The track with a codec of the media moves. *)
Lemma moving_hit done pre r post T s m k k' : moving done (pre ++ r :: post) T s -> m ∈ Medias C -> Kind m ∉ done ->
  codecOf (tracks s) r = Some k -> GetKind (Name k) = Kind m -> MatchCodec m k = Some k' ->
  exists n s', moveReceiver c m (pre ++ r :: post) s = Some (pre ++ n :: post, s') /\
    moving (Kind m :: done) (pre ++ n :: post) (T ++ [n]) s'.
Proof.
  intros M Hm Hd Ek Hk Em. pose proof (moving_nodup _ _ _ _ M) as [_ Hne].
  assert (kindOf (tracks s) r = Kind m) as Er by (unfold kindOf; by rewrite Ek).
  assert (GetKind (Name k) <> []) as HNk. { pose proof (Hne r ltac:(apply elem_of_app; right; by left)) as H. unfold kindOf in H. by rewrite Ek in H. }
  destruct (MatchCodec_kind _ m k k' Hsorted Hm HNk Em) as (Hk' & _).
  destruct (moving_newTrack _ _ _ _ m k' M Hm Hk' Hd) as (t1 & n & Et & EN).
  destruct (NewReceiver_spec (tracks s) k' t1 n (mv_wf _ _ _ _ M) EN) as (W1 & G1 & Rn & Cn & Hn & Ch1 & Se1).
  destruct (moving_unmoved _ _ _ _ r M ltac:(apply elem_of_app; right; by left)) as [Hr0 HrT]; [by rewrite Er|].
  assert (n <> r) as Hnr. { intros ->. unfold codecOf in Ek. by rewrite Hn in Ek. }
  assert (isReceiver t1 r) as Rr by (apply (gr_receiver _ _ G1), (kp_receiver _ _ (mv_keeps _ _ _ _ M)), Hrs, Hr0).
  destruct (MoveNode_spec t1 n r W1 Rn Rr Hnr) as (t2 & Emv & W2 & V1 & V2 & V3 & _ & V5 & _ & V7).
  pose proof (keeps_nodes t1 t2 V5) as K2. exists n, (setTracks t2 (setConn c (C <| Receivers := T ++ [n] |>) (setTracks t1 s1))). split.
  - eapply (moveReceiver_hit c m pre r post k k' n s); [|done|done|exact Et|exact Emv]. intros x Hx.
    destruct (moving_others _ _ _ _ _ _ _ M Er x ltac:(apply elem_of_app; by left)) as (Hin & _ & HK).
    destruct (moving_codec _ _ _ _ x M Hin) as (kx & Ekx & _). exists kx. split; [done|].
    destruct (MatchCodec m kx) as [k2|] eqn:E; [|done]. specialize (Hne x Hin). unfold kindOf in HK, Hne.
    rewrite Ekx in HK, Hne. destruct (MatchCodec_kind _ m kx k2 Hsorted Hm Hne E) as (_ & _ & ?). congruence.
  - apply (moving_moved done pre r post T s m k' n t2 M Hm Er Hd Hk'); try done.
    + apply (keeps_trans _ t1); [apply G1|done].
    + intros x. by rewrite (senderAt_kept t1 t2 x V5 V7), Se1.
    + by apply (kp_receiver _ _ K2).
    + by apply (kp_codec _ _ K2).
    + by rewrite V1, Ch1.
    + intros q Q1 Q2. by rewrite V3, Ch1.
Qed.

(** All media. *)
Lemma moveTracks_moving spare refusal (Hmatch : forall r k, r ∈ rs0 -> codecOf (tracks s1) r = Some k -> exists m, m ∈ Medias C /\
    Direction m = DirectionRecvonly /\ is_Some (MatchCodec m k)) ms : forall pms done rs T s, Medias C = pms ++ ms ->
  moving done rs T s -> (forall m, m ∈ ms -> Direction m = DirectionRecvonly -> Kind m ∉ done) ->
  (forall m, m ∈ pms -> Direction m = DirectionRecvonly -> Kind m ∈ done) ->
  exists done' rs' T' s', moveTracks spare refusal c ms rs [] s = Some (rs', s') /\ moving done' rs' T' s' /\
    forall m, m ∈ Medias C -> Direction m = DirectionRecvonly -> Kind m ∈ done'.
Proof.
  induction ms as [|m ms IH]; intros pms done rs T s EC M Hd Hp; cbn [moveTracks].
  { exists done, rs, T, s. split; [done|]. split; [done|]. intros m Hm. apply Hp. by rewrite EC, app_nil_r in Hm. }
  assert (Medias C = (pms ++ [m]) ++ ms) as EC' by (by rewrite <- app_assoc). assert (m ∈ Medias C) as Hm by (rewrite EC; apply elem_of_app; right; by left).
  case_decide as D.
  2: { assert (exists done' rs' T' s', moveTracks spare refusal c ms rs [] s = Some (rs', s') /\ moving done' rs' T' s' /\
         forall m, m ∈ Medias C -> Direction m = DirectionRecvonly -> Kind m ∈ done') as H.
       { apply (IH (pms ++ [m]) done rs T s EC' M); [intros x Hx; apply Hd; by right|].
         intros x Hx. apply elem_of_app in Hx as [Hx|Hx]; [by apply Hp|]. apply list_elem_of_singleton in Hx as ->. done. }
       case_decide; exact H. }
  assert (exists rs1 T1 s2, moveReceiver c m rs s = Some (rs1, s2) /\ moving (Kind m :: done) rs1 T1 s2) as (rs1 & T1 & s2 & -> & M1).
  { destruct (decide (Kind m ∈ map (kindOf (tracks s)) rs)) as [Hin|Hin].
    - apply list_elem_of_fmap in Hin as (r & Er & Hr). apply list_elem_of_split in Hr as (pre & post & ->).
      destruct (moving_unmoved _ _ _ _ r M ltac:(apply elem_of_app; right; by left)) as [Hr0 _]; [rewrite <- Er; apply Hd; [by left|done]|].
      destruct (Hrs r Hr0) as (x & a & b & Ex & _). assert (codecOf (tracks s1) r = Some (codec x)) as Ek by (unfold codecOf; by rewrite Ex).
      destruct (Hmatch r _ Hr0 Ek) as (m' & Hm' & D' & [k' Em]). pose proof (kp_codec _ _ (mv_keeps _ _ _ _ M) _ _ Ek) as Ek'.
      pose proof (moving_nodup _ _ _ _ M) as [_ Hne]. specialize (Hne r ltac:(apply elem_of_app; right; by left)).
      unfold kindOf in Er, Hne. rewrite Ek' in Er, Hne. destruct (MatchCodec_kind _ m' _ k' Hsorted Hm' Hne Em) as (_ & _ & EKm).
      assert (m' = m) as ->. { apply (nodup_kind (Medias C)); try done; [apply Hsorted|congruence]. }
      destruct (moving_hit done pre r post T s m _ k' M Hm (Hd m ltac:(by left) D) Ek' (eq_sym Er) Em) as (n & s' & E & M').
      by eexists _, _, _.
    - exists rs, T, s. apply moving_miss; [done|done|]. intros r Hr E. apply Hin. rewrite <- E. apply list_elem_of_fmap. by exists r. }
  cbn [mbind option_bind]. apply (IH (pms ++ [m]) (Kind m :: done) rs1 T1 s2 EC' M1).
  - intros x Hx Dx Hk. apply elem_of_cons in Hk as [Hk|Hk]; [|apply (Hd x); [by right|done|done]].
    apply (nodup_later (pms) m ms x); try done. rewrite <- EC. apply Hsorted.
  - intros x Hx Dx. apply elem_of_app in Hx as [Hx|Hx]; [right; by apply Hp|]. apply list_elem_of_singleton in Hx as ->. by left.
Qed.
End moving.

(** ** Reconnecting *)

(** The new connection has a receiving media of its own for each track. *)
Record resumes (t : store) (P : Producer) (C : Conn) : Prop := {
  re_new : newConn (Dialled (inr C));
  re_sorted : sorted (Medias C);
  re_kinds : NoDup (map (kindOf t) (receivers P));
  re_kind : [] ∉ map (kindOf t) (receivers P);
  re_match : forall r k, r ∈ receivers P -> codecOf t r = Some k -> exists m, m ∈ Medias C /\
    Direction m = DirectionRecvonly /\ is_Some (MatchCodec m k);
}.

Section resuming.
Context (J : list nat) (s s' : sys) (p : nat) (P : Producer) (old c : nat) (Cold C : Conn) (rs : list nat).
Context (L : live J s) (HP : prods s !! p = Some P) (HN : st P <> stateExternal) (Hold : conn P = Some old)
  (HCold : conns s !! old = Some Cold) (Hc : conns s !! c = None).
(** What has become of the stream. *)
Context (W : wf (tracks s')) (K : keeps (tracks s) (tracks s')) (Se : forall n, senderAt (tracks s') n = senderAt (tracks s) n)
  (Ec : conns s' = <[old := Cold <| stopped := true |>]> (<[c := C]> (conns s)))
  (Ep : prods s' = <[p := P <| conn := Some c |> <| receivers := rs |>]> (prods s))
  (El : producers s' = producers s) (Es : consumers s' = consumers s)
  (Hown : owner C = Some p) (Hstop : stopped C = false) (Hsend : Senders C = []) (Hdir : directed (Medias C))
  (HT : forall t, t ∈ rs <-> t ∈ Receivers C)
  (Hfresh : forall t, t ∈ Receivers C -> isReceiver (tracks s') t /\ nodes (tracks s) !! t = None)
  (Hsame : Forall2 (fun r r0 => children (tracks s') r = children (tracks s) r0) rs (receivers P))
  (Hother : forall q, q ∉ rs -> children (tracks s') q = if decide (q ∈ receivers P) then [] else children (tracks s) q).

Lemma resumed_conn e D : conns s' !! e = Some D -> (e = c /\ D = C) \/
  (e <> c /\ exists D0, conns s !! e = Some D0 /\ Receivers D = Receivers D0 /\ Senders D = Senders D0 /\ (e <> old -> D = D0)).
Proof.
  rewrite Ec, lookup_insert_Some. intros [[<- <-]|[He E]].
  - right. split; [congruence|]. by exists Cold.
  - rewrite lookup_insert_Some in E. destruct E as [[<- <-]|[Hec E]]; [by left|]. right. split; [done|]. by exists D.
Qed.

Lemma resumed_up e D : conns s !! e = Some D -> e <> old -> conns s' !! e = Some D.
Proof. intros E He. rewrite Ec, lookup_insert_ne by done. rewrite lookup_insert_ne; [done|congruence]. Qed.

(** The packets of a track go on to its consumers. *)
Lemma resumed_track t q Q n : prods s !! q = Some Q -> t ∈ receivers Q -> n ∈ children (tracks s) t ->
  exists t' Q', prods s' !! q = Some Q' /\ t' ∈ receivers Q' /\ n ∈ children (tracks s') t'.
Proof.
  intros EQ Ht Hn. destruct (decide (q = p)) as [->|Hq].
  - replace Q with P in * by congruence. apply list_elem_of_lookup_1 in Ht as [i Ei].
    destruct (Forall2_lookup_r _ _ _ _ _ Hsame Ei) as (t' & E' & Hch). exists t'. rewrite Ep, lookup_insert_eq. eexists. split; [done|].
    split; [by apply list_elem_of_lookup_2 in E'|by rewrite Hch].
  - exists t, Q. rewrite Ep, lookup_insert_ne by done. split; [done|]. split; [done|].
    assert (t ∉ rs) as Hrs. { intros H. apply HT, Hfresh in H as [_ H]. destruct (so_receivers _ _ _ (lv_sources _ _ L q Q EQ) t Ht) as (x & a & b & E & _). congruence. }
    rewrite Hother by done. rewrite decide_False; [done|]. intros H. apply Hq, (track_owner J s q p Q P t); try done.
Qed.

Lemma resumed_live : live J s'.
Proof.
  pose proof (viewer_conn J s p P old L HP Hold) as Hv.
  assert (forall e, e ∈ J ++ consumers s -> conns s' !! e = conns s !! e) as Hvc.
  { intros e He. destruct (lv_viewers _ _ L e He) as (D & ED & _). rewrite ED. apply resumed_up; [done|]. by apply not_eq_sym, Hv. }
  split; rewrite ?El, ?Es; [done|..|apply (lv_nodup _ _ L)].
  - apply (lists_grown s s' (fun e t => e = c /\ t ∈ Receivers C) (fun _ _ => False)); [apply L|done|..|done].
    + intros e D E. destruct (resumed_conn e D E) as [[-> ->]|(_ & D0 & E0 & R0 & S0 & _)].
      * right. split; [by intros t Ht|]. rewrite Hsend. intros n Hn. by apply elem_of_nil in Hn.
      * left. exists D0. split; [done|]. rewrite R0, S0. split; by left.
    + intros e t [-> Ht]. destruct (Hfresh t Ht) as [Rt Nt]. split; [done|]. intros e' D [[-> _]|[E H]]; [done|].
      destruct (lv_tracks _ _ L e' D t E H) as (x & a & b & Ex & _). congruence.
  - rewrite Ep. by apply (listed_insert _ _ p P); [apply L|].
  - intros q Q. rewrite Ep, lookup_insert_Some. intros [[<- <-]|[Hq EQ]].
    + destruct (lv_sources _ _ L p P HP) as [S1 S2 S3 S4 S5 S6].
      assert (st P <> stateNone) as SN by (rewrite S5, Hold; done). split; cbn; try done.
      * intros t Ht. by apply Hfresh, HT.
      * intros [H|H]; [done|]. rewrite S4 in Hsame by auto. by inversion Hsame.
      * intros e [= <-]. exists C. split; [rewrite Ec, lookup_insert_ne by congruence; by rewrite lookup_insert_eq|].
        split; [done|]. split; [by intros t; apply HT|]. right. split; [done|]. split; [done|]. split; [done|]. split; [done|].
        by intros t; apply HT.
    + apply (source_ok_kept s); [apply (kp_receiver _ _ K)| |by apply (lv_sources _ _ L)]. intros e Ee.
      destruct (so_conn _ _ _ (lv_sources _ _ L q Q EQ) e Ee) as (D & ED & _ & _ & B). rewrite ED. apply resumed_up; [done|].
      intros ->. destruct (so_conn _ _ _ (lv_sources _ _ L p P HP) old Hold) as (D' & ED' & _ & _ & [[A _]|(_ & A & _)]); [done|].
      destruct B as [[_ B]|(_ & B & _)]; congruence.
  - intros e He. destruct (lv_viewers _ _ L e He) as (D & ED & (V1 & V2 & V3 & V4) & HW). exists D. rewrite Hvc by done.
    split; [done|]. split.
    + split; [done|]. split; [done|]. split; [done|]. intros q Q. rewrite Ep, lookup_insert_Some.
      intros [[<- <-]|[_ E]]; [|by apply (V4 q)]. cbn. intros [= ->]. congruence.
    + intros n Hn. destruct (HW n Hn) as (d & t & q & Q & W1 & W2 & W3 & W4 & W5).
      destruct (resumed_track t q Q n W4 W5 W3) as (t' & Q' & E1 & E2 & E3). exists d, t', q, Q'. by rewrite Se.
  - intros t n Hn. assert (exists t0, n ∈ children (tracks s) t0) as [t0 Ht0].
    { destruct (decide (t ∈ rs)) as [Ht|Ht].
      - apply list_elem_of_lookup_1 in Ht as [i Ei]. destruct (Forall2_lookup_l _ _ _ _ _ Hsame Ei) as (r0 & _ & Hch). exists r0. by rewrite <- Hch.
      - rewrite Hother in Hn by done. case_decide; [by apply elem_of_nil in Hn|by exists t]. }
    destruct (lv_watched _ _ L t0 n Ht0) as (e & D & H1 & H2 & H3). exists e, D. by rewrite Hvc.
Qed.
End resuming.

Lemma Forall2_unconj {A B} (P Q R : A -> B -> Prop) l k : Forall2 (fun x y => P x y /\ Q x y /\ R x y) l k -> Forall2 R l k.
Proof. intros H. apply (Forall2_impl _ _ _ _ H). by intros x y (_ & _ & ?). Qed.

(** The tracks after the loop over the media. *)
Lemma resume_tracks J spare refusal s p P C c : live J s -> prods s !! p = Some P -> conns s !! c = None -> resumes (tracks s) P C ->
  exists rs T t, moveTracks spare refusal c (Medias C) (receivers P) (senders P)
      (setConn c (C <| owner := Some p |> <| stopped := false |>) s) =
      Some (rs, setConn c (C <| owner := Some p |> <| stopped := false |> <| Receivers := T |>) (setTracks t s)) /\
    wf t /\ keeps (tracks s) t /\ (forall n, senderAt t n = senderAt (tracks s) n) /\ (forall x, x ∈ rs <-> x ∈ T) /\
    (forall x, x ∈ T -> isReceiver t x /\ nodes (tracks s) !! x = None) /\
    Forall2 (fun r r0 => children t r = children (tracks s) r0) rs (receivers P) /\
    forall q, q ∉ rs -> children t q = if decide (q ∈ receivers P) then [] else children (tracks s) q.
Proof.
  intros L HP Hc [(R1 & R2 & R3) R4 R5 R6 R7]. pose proof (lv_sources _ _ L p P HP) as S. rewrite (so_senders _ _ _ S).
  set (C1 := C <| owner := Some p |> <| stopped := false |>). set (s1 := setConn c C1 s).
  assert (conns s1 !! c = Some C1) as HC1 by (unfold s1, setConn; cbn; by rewrite lookup_insert_eq).
  destruct (moveTracks_moving s1 c C1 (receivers P) R4 (so_receivers _ _ _ S) R5 R6 spare refusal R7 (Medias C) [] [] (receivers P) [] s1)
    as (done' & rs & T & s2 & -> & M & Hd); [done|apply moving_begins; try done; [apply (lv_wf _ _ L)|apply (so_receivers _ _ _ S)]|..].
  { intros m _ _ H. by apply elem_of_nil in H. }
  { intros m H. by apply elem_of_nil in H. }
  exists rs, T, (tracks s2). destruct M as [M1 M2 M3 M4 M5 M6 M7 M8 M9]. split.
  { rewrite M4 at 1. unfold setConn, setTracks, s1. cbn. by rewrite insert_insert_eq. }
  split; [done|]. split; [done|]. split; [done|]. split.
  { intros r. split; [|apply M8]. intros Hr. apply M7; [done|]. apply list_elem_of_lookup_1 in Hr as [i Ei].
    destruct (Forall2_lookup_l _ _ _ _ _ M6 Ei) as (r0 & E0 & _ & -> & _).
    apply list_elem_of_lookup_2 in E0. destruct (so_receivers _ _ _ S r0 E0) as (x & a & b & Ex & _).
    assert (codecOf (tracks s) r0 = Some (codec x)) as Ek by (unfold codecOf; by rewrite Ex).
    destruct (R7 r0 _ E0 Ek) as (m & Hm & Dm & [k' Em]). specialize (Hd m Hm Dm).
    assert (kindOf (tracks s) r0 <> []) as Hne. { intros H. apply R6. rewrite <- H. apply list_elem_of_fmap. by exists r0. }
    unfold kindOf in Hne |- *. change (tracks s1) with (tracks s). rewrite Ek in Hne |- *.
    destruct (MatchCodec_kind _ m _ k' R4 Hm Hne Em) as (_ & _ & <-). exact Hd. }
  split; [intros x Hx; by destruct (M5 x Hx) as (A & B & _)|]. split; [by apply Forall2_unconj in M6|done].
Qed.

(** [reconnect] after a dial that succeeded. *)
Lemma reconnect_live J spare refusal s p P C retry ins : live J s -> prods s !! p = Some P -> st P = stateStart ->
  resumes (tracks s) P C ->
  exists s' c, reconnect spare refusal p (workerID P) retry (Dialled (inr C) :: ins) s = Some (s', [Worker p c (workerID P)], ins) /\
    live J s' /\ producers s' = producers s /\ consumers s' = consumers s /\ pending s' = pending s /\ locked s' = locked s /\
    (forall e, e ∈ J ++ consumers s -> conns s' !! e = conns s !! e) /\
    (forall q Q, prods s !! q = Some Q -> exists Q', prods s' !! q = Some Q' /\ st Q' = st Q) /\
    forall q Q t n, prods s !! q = Some Q -> t ∈ receivers Q -> n ∈ children (tracks s) t ->
      exists t' Q', prods s' !! q = Some Q' /\ t' ∈ receivers Q' /\ n ∈ children (tracks s') t'.
Proof.
  intros L HP HS HR. pose proof (lv_sources _ _ L p P HP) as S. pose proof (re_new _ _ _ HR) as (R1 & R2 & R3).
  unfold reconnect. rewrite HP. cbn [mbind option_bind]. rewrite Z.eqb_refl. cbn [negb adopt].
  set (c := fresh (dom (conns s))). assert (conns s !! c = None) as Hc by apply not_elem_of_dom, is_fresh.
  destruct (resume_tracks J spare refusal s p P C c L HP Hc HR) as (rs & T & t1 & -> & W1 & K1 & Se1 & HT & HF & H2 & Ho).
  cbn [mbind option_bind].
  destruct (conn P) as [old|] eqn:Hold; [|by rewrite (proj2 (so_none _ _ _ S) Hold) in HS].
  destruct (so_conn _ _ _ S old Hold) as (Cold & HCold & _ & _ & [[B _]|(_ & Bo & _ & Bs & Bt)]); [congruence|].
  assert (old <> c) as Hoc by congruence. cbn [mbind option_bind]. unfold connStop, setConn. cbn.
  rewrite lookup_insert_ne, HCold by done. cbn [mbind option_bind].
  destruct (closeAll_idle (Receivers Cold) t1 W1) as (t & -> & W & G & Ch & Se).
  { intros r Hr. split; [by apply (kp_receiver _ _ K1), (so_receivers _ _ _ S), Bt|].
    rewrite Ho; [rewrite decide_True; [done|by apply Bt]|]. intros H. apply HT, HF in H as [_ H].
    destruct (lv_tracks _ _ L old Cold r HCold Hr) as (x & a & b & Ex & _). congruence. }
  cbn [mbind option_bind]. rewrite Bs. cbn [closeAll mbind option_bind]. eexists _, c. split; [done|].
  set (C1 := C <| owner := Some p |> <| stopped := false |> <| Receivers := T |>).
  assert (forall x, x ∈ Receivers C1 -> isReceiver t x /\ nodes (tracks s) !! x = None) as HF'.
  { intros x Hx. destruct (HF x Hx) as [A B]. split; [by apply (gr_receiver _ _ G)|done]. }
  assert (Forall2 (fun r r0 => children t r = children (tracks s) r0) rs (receivers P)) as H2'.
  { apply (Forall2_impl _ _ _ _ H2). intros x y E. by rewrite Ch. }
  assert (forall q, q ∉ rs -> children t q = if decide (q ∈ receivers P) then [] else children (tracks s) q) as Ho'.
  { intros q Hq. by rewrite Ch, Ho. }
  split; [apply (resumed_live J s _ p P old c Cold C1 rs); try done;
    [congruence|apply (keeps_trans _ t1); [done|apply G]|intros n; cbn; by rewrite Se, Se1|cbn; by rewrite <- Bs]|].
  split; [done|]. split; [done|]. split; [done|]. split; [done|]. split; [|split].
  - intros e He. cbn. rewrite lookup_insert_ne by (by apply (viewer_conn J s p P)). rewrite lookup_insert_ne; [done|].
    intros <-. destruct (lv_viewers _ _ L c He) as (D & ED & _). congruence.
  - intros q Q EQ. cbn. destruct (decide (q = p)) as [->|Hq]; [rewrite lookup_insert_eq|rewrite lookup_insert_ne by done; by exists Q].
    eexists. split; [done|]. cbn. by replace Q with P by congruence.
  - intros q Q x n EQ Hx Hn. apply (resumed_track J s _ p P c C1 rs L HP ltac:(congruence)) with (t := x) (Q := Q); try done.
Qed.
