(* ===== verification/Served.v ===== *)
(** Viewers of a stream, one call after the other: after every [AddConsumer],
    [RemoveConsumer] and [reconnect] each consumer's tracks are fed by a started source with
    an open connection, and no source is connected that nobody watches. *)

From S2P Require Import Prelude Text Producer Negotiate Tracks TracksFacts Streams StreamsFacts Viewers Resume.

(** *** The calls *)

(** A quiet stream whose sources are started exactly while somebody watches. *)
Definition settled (s : sys) (p : nat) : Prop := exists P, prods s !! p = Some P /\
  (st P = stateNone \/ st P = stateExternal \/
   st P = stateStart /\ exists t, t ∈ receivers P /\ children (tracks s) t <> []).

Definition steady (s : sys) : Prop :=
  live [] s /\ pending s = 0 /\ locked s = false /\ (forall p, p ∈ producers s -> settled s p) /\
  forall c C, c ∈ consumers s -> conns s !! c = Some C -> Senders C <> [].

(** A consumer that has not been added. *)
Definition joinable (s : sys) (c : nat) (C : Conn) : Prop :=
  conns s !! c = Some C /\ viewer s c C /\ Senders C = [] /\ c ∉ consumers s.

Lemma settled_of J s p : live J s -> stopped_ok s p -> ~ busy s p -> settled s p.
Proof.
  intros L (P & HP & H) B. exists P. split; [done|]. destruct H as [H|[H|(H & t & Ht & Hc)]]; [by left|by right; left|].
  pose proof (lv_sources _ _ L p P HP) as S. destruct (st P) eqn:E.
  - by left.
  - done.
  - destruct B. by exists P, t.
  - right. right. split; [done|]. by exists t.
  - right. by left.
  - by destruct (so_state _ _ _ S).
Qed.

Lemma live_join s s' c C : live [] s -> joinable s c C -> tracks s' = tracks s -> conns s' = conns s -> prods s' = prods s ->
  producers s' = producers s -> consumers s' = consumers s -> live [c] s'.
Proof.
  intros L (HC & HV & HS & Hc) E1 E2 E3 E4 E5. apply (live_same [c] s); try done. clear s' E1 E2 E3 E4 E5.
  split; try apply L.
  - intros d Hd. apply elem_of_cons in Hd as [->|Hd]; [|by apply (lv_viewers _ _ L)]. exists C. split; [done|]. split; [done|].
    rewrite HS. intros n Hn. by apply elem_of_nil in Hn.
  - intros t n Hn. destruct (lv_watched _ _ L t n Hn) as (d & D & H1 & H2). exists d, D. split; [by right|done].
  - apply NoDup_cons. split; [done|]. apply (lv_nodup _ _ L).
Qed.

Lemma live_gave_up s c C : live [c] s -> conns s !! c = Some C -> Senders C = [] -> live [] s.
Proof.
  intros L HC HS. split; try apply L.
  - intros d Hd. apply (lv_viewers _ _ L). by right.
  - intros t n Hn. destruct (lv_watched _ _ L t n Hn) as (d & D & H1 & H2 & H3). exists d, D. split; [|done].
    apply elem_of_cons in H1 as [->|H1]; [|done]. replace D with C in H3 by congruence. rewrite HS in H3. by apply elem_of_nil in H3.
  - by apply (NoDup_cons_1_2 c), (lv_nodup _ _ L).
Qed.

Section calls.
Context (spare : nat -> nat) (refusal : Codec -> option bytes).

Lemma joining_begins c C s : steady s -> joinable s c C ->
  joining c s [] (mkAdding (map (fun _ => None) (producers s)) [] []) (s <| pending := pending s + 1 |>).
Proof.
  clear spare refusal. intros (L & Hp & Hk & HS & HN) HJ. pose proof HJ as (HC & HV & HSn & Hc). split; try done; cbn.
  - by apply (live_join s _ c C).
  - by rewrite Hp.
  - intros p (P & t & EP & ST & Ht & Hne). destruct (HS p ltac:(apply (lv_listed _ _ L); by exists P)) as (Q & EQ & H).
    cbn in EP. replace Q with P in H by congruence. rewrite ST in H. by destruct H as [H|[H|[H _]]].
  - intros C'. cbn. rewrite HC. intros [= <-]. by rewrite HSn.
  - by rewrite length_map.
  - intros p H. by apply elem_of_nil in H.
Qed.

(** [AddConsumer] after its loops: [R] is what they come to. *)
Lemma AddConsumer_ends c C k ins s (R : adding -> Prop) : steady s -> joinable s c C ->
  wp spare refusal (tryAll c (Medias C) (mkAdding (map (fun _ => None) (producers s)) [] [])) ins (s <| pending := pending s + 1 |>)
    (fun a s' ins' => ample k ins' /\ joining c s [] a s' /\ R a) ->
  wp spare refusal (AddConsumer c) ins s (fun e s' ins' => (ample k ins' /\ steady s' /\ producers s' = producers s /\
    consumers s' = match e with None => consumers s ++ [c] | Some _ => consumers s end) /\
    exists a, R a /\ e = if decide (prodStarts a = []) then Some (formatError (Medias C) (prodMedias a) (prodErrors a)) else None).
Proof.
  intros (L & Hp & Hk & HS & HN) HJ Htry. pose proof HJ as (HC & HV & HSn & Hc). unfold AddConsumer.
  eapply (wp_op (OPendingAdd 1)); [done|]. eapply (wp_op OProducers); [done|].
  eapply (wp_op (OConsMedias c)); [cbn [perform]; cbn; by rewrite HC|]. cbn [producers].
  apply wp_bind. eapply wp_mono; [exact Htry|]. intros a s2 i2 (A2 & J2 & HR).
  eapply (wp_op (OPendingAdd (-1))); [done|]. rewrite (jo_pending _ _ _ _ _ J2). cbn [Z.add Z.eqb Z.opp Z.pos_sub].
  apply wp_bind. eapply wp_mono.
  { apply (stopProducers_live [c] spare refusal i2 (s2 <| pending := 0 |>)); [|done|by apply J2].
    by apply (live_same [c] s2); [apply (jo_live _ _ _ _ _ J2)|..]. }
  intros _ s3 i3 (-> & L3 & [F1 F2 F3 F4 F5 F6 F7 F8] & S3). cbn in F1, F2, F3, F4, F5.
  assert (forall p, busy s3 p -> p ∈ prodStarts a) as B3.
  { intros p Hb. apply (jo_busy _ _ _ _ _ J2). destruct (F8 p Hb) as (P & t & H). by exists P, t. }
  assert (producers s3 = producers s /\ consumers s3 = consumers s /\ locked s3 = false) as (G1 & G2 & G3).
  { rewrite F1, F2, F4. destruct J2. done. }
  assert (forall d, d ∈ consumers s -> conns s3 !! d = conns s !! d) as K3.
  { intros d Hd. rewrite F6; [by apply (jo_others _ _ _ _ _ J2)|]. right. cbn. by rewrite (jo_consumers _ _ _ _ _ J2). }
  destruct (lv_viewers _ _ L3 c ltac:(by left)) as (C3 & HC3 & _).
  case_decide as D.
  - apply wp_ret. split; [|exists a; split; [done|by rewrite decide_True]]. split; [done|]. split; [|done].
    assert (Senders C3 = []) as E3. { apply (jo_none _ _ _ _ _ J2); [|done]. rewrite <- HC3. symmetry. apply F6. by left. }
    split; [by apply (live_gave_up s3 c C3)|]. split; [done|]. split; [done|]. split.
    + intros p Hpp. apply (settled_of [c]); [done|by apply S3|].
      intros Hb. specialize (B3 p Hb). rewrite D in B3. by apply elem_of_nil in B3.
    + intros d E Hd. rewrite G2 in Hd. rewrite K3 by done. by apply HN.
  - eapply (wp_op (OAppendConsumer c)); [cbn [perform]; by rewrite G3|].
    set (s4 := s3 <| consumers := consumers s3 ++ [c] |>).
    assert (live [] s4) as L4. { apply (live_moved [c] [] s3 s4 L3); try done. cbn. by rewrite Permutation_app_comm. }
    apply wp_bind. eapply wp_mono.
    { apply (startAll_live spare refusal [] i2 (prodStarts a) s4 L4). intros p Hpp. cbn. rewrite G1. by apply (jo_starts _ _ _ _ _ J2). }
    intros _ s5 i5 (-> & L5 & [H1 H2 H3 H4 H5 H6 H7 H8] & B5 & K5). cbn in H1, H2, H3, H4. apply wp_ret.
    split; [|exists a; split; [done|by rewrite decide_False]]. split; [done|]. split; [|split; [congruence|by rewrite H2, G2]]. split; [done|]. split; [congruence|]. split; [congruence|]. split.
    + intros p Hpp. apply (settled_of []); [done| |].
      * apply K5. destruct (S3 p ltac:(congruence)) as (P & HP). by exists P.
      * intros Hb. apply (B5 p Hb), B3. destruct (H8 p Hb) as (P & t & H). by exists P, t.
    + intros d E Hd. rewrite H2 in Hd. rewrite H6 by done. cbn. apply elem_of_app in Hd as [Hd|Hd].
      * rewrite K3 by (by rewrite <- G2). apply HN. by rewrite <- G2.
      * apply list_elem_of_singleton in Hd as ->. rewrite HC3. intros [= <-] E3. apply D, (jo_none _ _ _ _ _ J2 C3); [|done].
        rewrite <- HC3. symmetry. apply F6. by left.
Qed.

Lemma AddConsumer_steady c C k ins s : steady s -> joinable s c C ->
  ample (length (Medias C) * length (producers s) + k) ins ->
  wp spare refusal (AddConsumer c) ins s (fun e s' ins' => ample k ins' /\ steady s' /\ producers s' = producers s /\
    consumers s' = match e with None => consumers s ++ [c] | Some _ => consumers s end).
Proof.
  intros HS HJ HA. eapply wp_mono; [apply (AddConsumer_ends c C k ins s (fun _ => True) HS HJ)|by intros e s' i' [H _]].
  eapply wp_mono; [apply (tryAll_live spare refusal c s [] (Medias C)); [by apply (joining_begins c C)|apply HJ|exact HA]|].
  by intros a s' i' [H1 H2].
Qed.

(** A viewer that leaves. *)
Lemma live_left s s' c C : live [] s -> c ∈ consumers s -> conns s !! c = Some C ->
  wf (tracks s') -> grows (tracks s) (tracks s') ->
  (forall q n, n ∈ children (tracks s') q <-> n ∈ children (tracks s) q /\ n ∉ Senders C) ->
  (forall n, n ∉ Senders C -> senderAt (tracks s') n = senderAt (tracks s) n) ->
  conns s' = <[c := C <| stopped := true |>]> (conns s) -> prods s' = prods s -> producers s' = producers s ->
  consumers s' = without c (consumers s) -> live [] s'.
Proof.
  intros L Hc HC W G Ch Se Ec Ep El Es.
  assert (forall e D, conns s' !! e = Some D -> exists D0, conns s !! e = Some D0 /\ Receivers D = Receivers D0 /\
    Senders D = Senders D0) as Hback.
  { intros e D. rewrite Ec, lookup_insert_Some. intros [[<- <-]|[He E]]; [by exists C|by exists D]. }
  destruct (lv_viewers _ _ L c Hc) as (C0 & EC0 & (_ & _ & _ & HVc) & _).
  split; rewrite ?Ep, ?El, ?Es; try apply L; try done.
  - apply (lists_kept s); [apply L|apply G|]. intros e D E. left. by apply Hback.
  - intros q Q EQ. apply (source_ok_kept s); [apply (gr_receiver _ _ G)| |by apply (lv_sources _ _ L)].
    intros d Ed. rewrite Ec, lookup_insert_ne; [done|]. intros <-. by apply (HVc q Q).
  - intros e He. apply without_in in He as [Hne He]. destruct (lv_viewers _ _ L e He) as (D & ED & V & HS). exists D.
    rewrite Ec, lookup_insert_ne by done. split; [done|]. split; [unfold viewer; by rewrite Ep|]. intros x Hx.
    assert (x ∉ Senders C) as HxC. { intros H. by apply Hne, (li_apart_n _ (lv_lists _ _ L) e c D C x). }
    destruct (HS x Hx) as (y & t & q & Q & W1 & W2 & W3 & W4). exists y, t, q, Q. by rewrite Se, Ch, Ep.
  - intros t x Hx. apply Ch in Hx as [Hx HxC]. destruct (lv_watched _ _ L t x Hx) as (e & D & H1 & H2 & H3).
    assert (e <> c) as Hec. { intros ->. by replace D with C in * by congruence. }
    exists e, D. rewrite Ec, lookup_insert_ne by done. split; [|done]. by apply without_in.
  - apply NoDup_filter, (lv_nodup _ _ L).
Qed.

Lemma RemoveConsumer_steady c ins s : steady s -> c ∈ consumers s ->
  wp spare refusal (RemoveConsumer c) ins s (fun _ s' ins' => ins' = ins /\ steady s' /\ producers s' = producers s /\
    consumers s' = without c (consumers s)).
Proof.
  intros (L & Hp & Hk & HS & HN) Hc. unfold RemoveConsumer. destruct (lv_viewers _ _ L c Hc) as (C & HC & (V1 & V2 & V3 & V4) & HW).
  destruct (closeAll_senders (Senders C) (tracks s) (lv_wf _ _ L)) as (t & Et & W & G & Ch & Se).
  { intros n Hn. split; [by apply (lv_senders _ _ L c C)|]. destruct (HW n Hn) as (_ & r & _ & _ & _ & _ & H & _). exists r.
    by apply (wf_child _ (lv_wf _ _ L)). }
  eapply (wp_op (OConnStop c)); [cbn [perform]; unfold connStop; rewrite HC; cbn [mbind option_bind]; rewrite V2; cbn [closeAll];
    cbn [mbind option_bind]; rewrite Et; cbn [mbind option_bind]; reflexivity|].
  assert (exists i, list_find (fun x => x = c) (consumers s) = Some (i, c)) as [i Ei].
  { destruct (list_find_elem_of (fun x => x = c) (consumers s) c Hc eq_refl) as [[i x] E]. exists i. rewrite E.
    by apply list_find_Some in E as (_ & -> & _). }
  assert (delete i (consumers s) = without c (consumers s)) as Edel.
  { apply without_delete; [apply (lv_nodup _ _ L)|]. by apply list_find_Some in Ei as (H & _). }
  set (s1 := (setConn c (C <| stopped := true |>) (setTracks t s)) <| consumers := without c (consumers s) |>).
  assert (perform spare refusal (ORemoveConsumer c) ins (setConn c (C <| stopped := true |>) (setTracks t s)) = Some (tt, s1, [], ins))
    as E by (unfold s1; cbn; unfold dropConsumer; by rewrite Hk, Ei, Edel).
  eapply (wp_op (ORemoveConsumer c)); [exact E|]. clear E.
  eapply wp_mono; [apply (stopProducers_live [] spare refusal ins s1); [by apply (live_left s s1 c C)|done|done]|].
  intros _ s2 i2 (-> & L2 & [F1 F2 F3 F4 F5 F6 F7 F8] & S2). split; [done|]. split; [|by rewrite F1, F2].
  split; [done|]. split; [by rewrite F3|]. split; [by rewrite F4|]. split.
  - intros p Hpp. apply (settled_of []); [done|by apply S2|].
    intros Hb. destruct (F8 p Hb) as (P & u & EP & ST & Hu & Hne). cbn in EP.
    destruct (HS p ltac:(apply (lv_listed _ _ L); by exists P)) as (Q & EQ & H).
    replace Q with P in H by congruence. rewrite ST in H. by destruct H as [H|[H|[H _]]].
  - intros d D Hd. rewrite F2 in Hd. rewrite F6 by done. cbn in Hd |- *. apply without_in in Hd as [Hdc Hd].
    rewrite lookup_insert_ne by done. by apply HN.
Qed.
End calls.

(** ** Sequences of calls *)

Inductive call := Join (c : nat) | Leave (c : nat) | Reconnect (p : nat) (id retry : Z).

(** What the callers see to: a consumer is added once and as a viewer, removed once, and
    every dial has its answer.  A worker whose connection ended reconnects: it finds that
    it is stale, or that the source does not answer, or the source comes back with a media
    for each of its tracks. *)
Definition allowed (s : sys) (k : call) (ins : list answer) : Prop :=
  match k with
  | Join c => exists C, joinable s c C /\ ample (length (Medias C) * length (producers s)) ins
  | Leave c => c ∈ consumers s
  | Reconnect p id retry => exists P, prods s !! p = Some P /\
      (workerID P <> id \/
       st P = stateStart /\ match ins with
                           | Dialled (inl _) :: _ => True | Dialled (inr C) :: _ => resumes (tracks s) P C | _ => False end)
  end.

Definition callOf (k : call) : prog (option bytes) :=
  match k with
  | Join c => AddConsumer c | Leave c => bind (RemoveConsumer c) (fun _ => Ret None)
  | Reconnect p id retry => Op (OReconnect p id retry) (fun _ => Ret None) end.

(** The consumers after a call. *)
Definition after (k : call) (e : option bytes) (cs : list nat) : list nat :=
  match k, e with Join c, None => cs ++ [c] | Leave c, _ => without c cs | _, _ => cs end.

Inductive calling (spare : nat -> nat) (refusal : Codec -> option bytes) : sys -> list call -> sys -> Prop :=
| calling_none s : calling spare refusal s [] s
| calling_one s k ins e s1 ts ins' l s' : allowed s k ins ->
    exec spare refusal (callOf k) ins s = Some (e, s1, ts, ins') -> calling spare refusal s1 l s' ->
    calling spare refusal s (k :: l) s'.

(** A stream nobody uses yet. *)
Record unused (s : sys) : Prop := {
  un_wf : wf (tracks s);
  un_children : forall t, children (tracks s) t = [];
  un_consumers : consumers s = [];
  un_pending : pending s = 0;
  un_locked : locked s = false;
  un_conns : forall c C, conns s !! c = Some C -> Receivers C = [] /\ Senders C = [] /\ owner C = None;
  un_listed : forall p, p ∈ producers s <-> is_Some (prods s !! p);
  un_prods : forall p P, prods s !! p = Some P -> receivers P = [] /\ senders P = [] /\
    (st P = stateNone /\ conn P = None \/
     st P = stateExternal /\ exists c C, conn P = Some c /\ conns s !! c = Some C /\ directed (Medias C));
}.

Lemma unused_steady s : unused s -> steady s.
Proof.
  intros [U1 U2 U3 U4 U5 U6 U7 U8]. assert (forall t (l : list nat), t ∈ l -> l = [] -> False) as Hnil.
  { intros t l H ->. by apply elem_of_nil in H. }
  split; [|split; [done|split; [done|split]]].
  - split; try done; rewrite ?U3.
    + split.
      * intros c C t E H. destruct (U6 c C E) as (R & _). by destruct (Hnil _ _ H).
      * intros c C t E H. destruct (U6 c C E) as (_ & R & _). by destruct (Hnil _ _ H).
      * intros c c' C C' t E E' H. destruct (U6 c C E) as (R & _). by destruct (Hnil _ _ H).
      * intros c c' C C' t E E' H. destruct (U6 c C E) as (_ & R & _). by destruct (Hnil _ _ H).
    + intros p P E. destruct (U8 p P E) as (R1 & R2 & H). split; try done.
      * intros t Ht. by destruct (Hnil _ _ Ht).
      * by destruct H as [[-> _]|[-> _]].
      * destruct H as [[-> ->]|(-> & c & C & -> & _)]; done.
      * intros c Hc. destruct H as [[_ H]|(S & d & C & Ed & EC & Hd)]; [congruence|]. replace d with c in * by congruence.
        exists C. split; [done|]. split; [done|]. split; [intros t Ht; by destruct (Hnil _ _ Ht)|]. left. split; [done|].
        by destruct (U6 c C EC) as (_ & _ & O).
    + intros c Hc. by apply elem_of_nil in Hc.
    + intros t n Hn. by destruct (Hnil _ _ Hn).
    + constructor.
  - intros p Hp. apply U7 in Hp as [P HP]. exists P. split; [done|]. destruct (U8 p P HP) as (_ & _ & [[H _]|[H _]]); auto.
  - rewrite U3. intros c C H. by apply elem_of_nil in H.
Qed.

Section served.
Context (spare : nat -> nat) (refusal : Codec -> option bytes).

(** Every allowed call returns, and leaves the stream steady. *)
Lemma call_steady s k ins : steady s -> allowed s k ins ->
  wp spare refusal (callOf k) ins s (fun e s' _ => steady s' /\
    consumers s' = after k e (consumers s)).
Proof.
  intros HS HA. destruct k as [c|c|p id retry]; cbn [callOf allowed after] in *.
  - destruct HA as (C & HJ & HA). eapply wp_mono; [apply (AddConsumer_steady spare refusal c C 0); [done|done|]|].
    + by rewrite Nat.add_0_r.
    + intros e s' i' (_ & H & _ & E). split; [done|]. by destruct e.
  - apply wp_bind. eapply wp_mono; [by apply (RemoveConsumer_steady spare refusal c ins s)|].
    intros _ s' i' (_ & H & _ & E). apply wp_ret. by split.
  - destruct HA as (P & HP & HA). destruct (decide (workerID P = id)) as [<-|Hid].
    2: { eapply (wp_op (OReconnect p id retry)); [cbn [perform]; by rewrite (stale_reconnect spare refusal p id retry ins s P)|]. by apply wp_ret. }
    destruct HA as [HA|[ST HA]]; [done|]. destruct ins as [|[[err|C]|e] ins]; try done.
    { eapply (wp_op (OReconnect p (workerID P) retry)); [|by apply wp_ret]. cbn [perform]. unfold reconnect.
      rewrite HP. cbn [mbind option_bind]. by rewrite Z.eqb_refl. }
    destruct HS as (L & Hp & Hk & HS & HN).
    destruct (reconnect_live [] spare refusal s p P C retry ins L HP ST HA) as (s' & c & E & L' & E1 & E2 & E3 & E4 & Hv & Hst & Ht).
    eapply (wp_op (OReconnect p (workerID P) retry)); [cbn [perform]; by rewrite E|]. apply wp_ret. split; [|done].
    split; [done|]. split; [by rewrite E3|]. split; [by rewrite E4|]. split.
    + intros q Hq. rewrite E1 in Hq. destruct (HS q Hq) as (Q & EQ & H). destruct (Hst q Q EQ) as (Q' & EQ' & ES).
      exists Q'. rewrite ES. split; [done|]. destruct H as [H|[H|(H & t & Ht1 & Ht2)]]; [by left|by right; left|]. right. right. split; [done|].
      destruct (children (tracks s) t) as [|n l] eqn:En; [done|].
      destruct (Ht q Q t n EQ Ht1) as (t' & Q2 & EQ2 & Ht' & Hn'); [rewrite En; by left|]. exists t'. replace Q' with Q2 by congruence.
      split; [done|]. intros E0. rewrite E0 in Hn'. by apply elem_of_nil in Hn'.
    + intros d D Hd. rewrite E2 in Hd. rewrite Hv by done. by apply HN.
Qed.

Lemma calling_steady l s s' : calling spare refusal s l s' -> steady s -> steady s'.
Proof.
  induction 1 as [|s k ins e s1 ts ins' l s' HA E _ IH]; [done|]. intros HS. apply IH.
  destruct (call_steady s k ins HS HA) as (e' & s2 & ts' & i2 & E' & H & _). rewrite E in E'. by injection E' as <- <- <- <-.
Qed.

End served.

(** *** Sequences by evaluation *)

Definition joinableb (s : sys) (c : nat) : option Conn :=
  C ← conns s !! c;
  if bool_decide (owner C = None) && bool_decide (Receivers C = []) &&
     forallb (fun m => bool_decide (Direction m = DirectionSendonly)) (Medias C) &&
     forallb (fun x => negb (bool_decide (conn x.2 = Some c))) (map_to_list (prods s)) &&
     bool_decide (Senders C = []) && bool_decide (c ∉ consumers s)
  then Some C else None.

Lemma joinableb_ok s c C : joinableb s c = Some C -> joinable s c C.
Proof.
  unfold joinableb. destruct (conns s !! c) as [D|] eqn:E; [|done]. cbn [mbind option_bind].
  destruct (_ && _) eqn:B; [|done]. intros [= ->]. repeat apply andb_prop in B as [B ?]. repeat match goal with
  | H : bool_decide _ = true |- _ => apply bool_decide_eq_true in H | H : forallb _ _ = true |- _ => rewrite forallb_forall in H end.
  split; [done|]. split; [|by split]. split; [done|]. split; [done|]. split.
  - apply Forall_forall. intros m Hm. apply list_elem_of_In in Hm. specialize (H2 m Hm). by apply bool_decide_eq_true in H2.
  - intros p P HP Hc. assert (In (p, P) (map_to_list (prods s))) as Hin by (by apply list_elem_of_In, elem_of_map_to_list).
    specialize (H1 _ Hin). cbn in H1. rewrite bool_decide_true in H1 by done. done.
Qed.

Definition newConnb (a : answer) : bool :=
  match a with
  | Dialled (inl _) => true
  | Dialled (inr C) => bool_decide (Receivers C = []) && bool_decide (Senders C = []) &&
      forallb (fun m => bool_decide (Direction m = DirectionRecvonly) || bool_decide (Direction m = DirectionSendonly)) (Medias C)
  | Ended _ => false
  end.

Lemma newConnb_ok a : newConnb a = true -> newConn a.
Proof.
  destruct a as [[e|C]|e]; try done. cbn. intros B. apply andb_prop in B as [B B3]. apply andb_prop in B as [B1 B2].
  apply bool_decide_eq_true in B1, B2. split; [done|]. split; [done|]. rewrite forallb_forall in B3. apply Forall_forall.
  intros m Hm. apply list_elem_of_In in Hm. specialize (B3 m Hm). apply orb_prop in B3 as [B|B]; apply bool_decide_eq_true in B; auto.
Qed.

#[export] Instance Codec_eq : EqDecision Codec.
Proof. solve_decision. Defined.

Definition sortedb (ms : list Media) : bool :=
  forallb (fun m => forallb (fun k => bool_decide (GetKind (Name k) = Kind m)) (Codecs m)) ms &&
  bool_decide (NoDup (map Kind (filter (fun m => Direction m = DirectionRecvonly) ms))) &&
  let ks := concat (map Codecs ms) in
  forallb (fun k => forallb (fun k' => negb (address k =? address k')%nat || bool_decide (k = k')) ks) ks.

Lemma sortedb_ok ms : sortedb ms = true -> sorted ms.
Proof.
  unfold sortedb. intros B. apply andb_prop in B as [B B3]. apply andb_prop in B as [B1 B2]. apply bool_decide_eq_true in B2.
  rewrite forallb_forall in B1. rewrite forallb_forall in B3.
  assert (forall m k, m ∈ ms -> k ∈ Codecs m -> In k (concat (map Codecs ms))) as Hin.
  { intros m k Hm Hk. apply in_concat. exists (Codecs m). split; [apply in_map|]; by apply list_elem_of_In. }
  split; [|done|].
  - intros m k Hm Hk. apply list_elem_of_In in Hm, Hk. specialize (B1 m Hm). rewrite forallb_forall in B1.
    specialize (B1 k Hk). by apply bool_decide_eq_true in B1.
  - intros m m' k k' Hm Hm' Hk Hk' E. specialize (B3 k (Hin m k Hm Hk)). rewrite forallb_forall in B3.
    specialize (B3 k' (Hin m' k' Hm' Hk')). rewrite E, Nat.eqb_refl in B3. by apply bool_decide_eq_true in B3.
Qed.

Definition resumesb (t : store) (P : Producer) (C : Conn) : bool :=
  newConnb (Dialled (inr C)) && sortedb (Medias C) && bool_decide (NoDup (map (kindOf t) (receivers P))) &&
  bool_decide ([] ∉ map (kindOf t) (receivers P)) &&
  forallb (fun r => match codecOf t r with
                    | Some k => existsb (fun m => bool_decide (Direction m = DirectionRecvonly) && bool_decide (is_Some (MatchCodec m k))) (Medias C)
                    | None => true end) (receivers P).

Lemma resumesb_ok t P C : resumesb t P C = true -> resumes t P C.
Proof.
  unfold resumesb. intros B. apply andb_prop in B as [B H]. apply andb_prop in B as [B H0]. apply andb_prop in B as [B H1].
  apply andb_prop in B as [B H2]. apply bool_decide_eq_true in H0, H1.
  split; [by apply newConnb_ok|by apply sortedb_ok|done|done|].
  intros r k Hr Ek. rewrite forallb_forall in H. apply list_elem_of_In in Hr. specialize (H r Hr). rewrite Ek in H.
  apply existsb_exists in H as (m & Hm & H). apply andb_prop in H as [H3 H4]. apply bool_decide_eq_true in H3, H4.
  exists m. split; [by apply list_elem_of_In|done].
Qed.

Definition allowedb (s : sys) (k : call) (ins : list answer) : bool :=
  match k with
  | Join c => match joinableb s c with
              | Some C => forallb newConnb ins && (length (Medias C) * length (producers s) <=? length ins)%nat | None => false end
  | Leave c => bool_decide (c ∈ consumers s)
  | Reconnect p id retry => match prods s !! p with
                          | Some P => negb (workerID P =? id) || bool_decide (st P = stateStart) &&
                              match ins with
                              | Dialled (inl _) :: _ => true | Dialled (inr C) :: _ => resumesb (tracks s) P C | _ => false end
                          | None => false end
  end.

Lemma allowedb_ok s k ins : allowedb s k ins = true -> allowed s k ins.
Proof.
  destruct k as [c|c|p id retry]; cbn; [|by intros H; apply bool_decide_eq_true in H|].
  2: { destruct (prods s !! p) as [P|]; [|done]. intros H. exists P. split; [done|].
       apply orb_prop in H as [H|H]; [left; lia|right]. apply andb_prop in H as [H1 H2]. apply bool_decide_eq_true in H1. split; [done|].
       destruct ins as [|[[err|C]|e] ins]; try done. by apply resumesb_ok. }
  destruct (joinableb s c) as [C|] eqn:E; [|done]. intros H. apply andb_prop in H as [H1 H2]. exists C.
  split; [by apply joinableb_ok|]. split; [|by apply Nat.leb_le]. rewrite forallb_forall in H1. apply Forall_forall.
  intros a Ha. by apply newConnb_ok, H1, list_elem_of_In.
Qed.

Fixpoint callb (spare : nat -> nat) (refusal : Codec -> option bytes) (l : list (call * list answer)) (s : sys) : option sys :=
  match l with
  | [] => Some s
  | (k, ins) :: l =>
      if allowedb s k ins then
        match exec spare refusal (callOf k) ins s with Some (_, s, _, _) => callb spare refusal l s | None => None end
      else None
  end.

Lemma callb_calling spare refusal l : forall s s', callb spare refusal l s = Some s' -> calling spare refusal s (map fst l) s'.
Proof.
  induction l as [|[k ins] l IH]; intros s s'; cbn [callb map fst]; [intros [= <-]; constructor|].
  destruct (allowedb s k ins) eqn:HA; [|done]. destruct (exec _ _ _ _ _) as [[[[e s1] ts] i1]|] eqn:E; [|done].
  intros H. by apply (calling_one spare refusal s k ins e s1 ts i1); [apply allowedb_ok| |apply IH].
Qed.

Lemma demoSys_unused : unused demoSys.
Proof.
  assert (forall c C, conns demoSys !! c = Some C -> C = mp4Conn \/ C = videoConn) as HC.
  { intros c C. cbn. rewrite lookup_insert_Some, lookup_singleton_Some. intros [[_ <-]|[_ [_ <-]]]; auto. }
  split; try done.
  - apply wf_empty.
  - intros c C H. by destruct (HC c C H) as [-> | ->].
  - intros p. cbn. rewrite list_elem_of_singleton. split; [intros ->; by eexists|]. intros [P HP].
    by apply lookup_singleton_Some in HP as [<- _].
  - intros p P HP. cbn in HP. apply lookup_singleton_Some in HP as [_ <-]. split; [done|]. split; [done|]. by left.
Qed.

(** The camera back with new codecs. *)
Definition camConn2 : Conn :=
  mkConn [mkMedia KindVideo DirectionRecvonly [mkCodec 21 CodecH264 90000 0 [] PayloadTypeRAW];
          mkMedia KindAudio DirectionRecvonly [mkCodec 22 CodecAAC 16000 1 [] PayloadTypeRAW]] [] [] None false true false None.
Definition demoVisits : list (call * list answer) :=
  [(Join 10, [Dialled (inr camConn); Dialled (inr camConn)]); (Join 11, [Dialled (inr camConn)]);
   (Reconnect 0 1 0, [Dialled (inl (str "timeout"))]); (Reconnect 0 1 1, [Dialled (inr camConn2)]); (Leave 10, [])]%nat.
Definition demoServed : sys := default demoSys (callb (fun n => n) anything demoVisits demoSys).

