(* ===== verification/Outcome.v ===== *)
(** What a viewer is told that joins a stream with one source ([internal/streams/add_consumer.go]):
    the error of the dial, the codecs that did not match, or nothing. *)

From S2P Require Import Prelude Text Producer Negotiate Tracks TracksFacts Streams StreamsFacts Viewers Served.

(** A media of the consumer that matches one of the source, in a codec that the consumer
    does not refuse. *)
Definition suits (refusal : Codec -> option bytes) (m cm : Media) : bool :=
  match MatchMedia m cm with Some (pk, _) => bool_decide (refusal pk = None) | None => false end.
Definition acceptable (refusal : Codec -> option bytes) (ms : list Media) (cm : Media) : bool :=
  existsb (fun m => suits refusal m cm) ms.

(** Whether the source is the consumer itself. *)
Definition loops (C : Conn) (P : Producer) : bool :=
  match source C with Some src => bool_decide (url P = src) | None => false end.

(** The error of the dial, or the source's media. *)
Definition offered (s : sys) (p : nat) (P : Producer) (ins : list answer) : bytes + list Media :=
  match st P, ins with
  | stateNone, Dialled (inl err) :: _ => inl err
  | stateNone, Dialled (inr D) :: _ => inr (Medias D)
  | _, _ => inr (default [] (GetMedias p s))
  end.

Section outcome.
Context (spare : nat -> nat) (refusal : Codec -> option bytes).
(** A codec is known by its address. *)
Context (Hrefusal : forall k k', address k = address k' -> refusal k = refusal k').

Section one.
Context (c p : nat) (s0 : sys) (Hone : producers s0 = [p]).

Lemma joining_based a s : joining c s0 [] a s -> p ∈ prodStarts a -> joining c s0 [p] a s.
Proof. intros [J0 J1 J2 J3 J4 J5 J6 J7 J8 J9 J10] H. split; try done. intros q Hq. by apply list_elem_of_singleton in Hq as ->. Qed.

Lemma joining_unbased a s : joining c s0 [p] a s -> joining c s0 [] a s /\ prodStarts a <> [].
Proof.
  intros [J0 J1 J2 J3 J4 J5 J6 J7 J8 J9 J10]. split; [split; try done; intros q Hq; by apply elem_of_nil in Hq|].
  intros E. specialize (J10 p ltac:(by left)). rewrite E in J10. by apply elem_of_nil in J10.
Qed.

(** A source that is connected and not the consumer, which has no track of it yet. *)
Record untouched (C : Conn) (ms : list Media) (s : sys) : Prop := {
  ut_source : exists P, prods s !! p = Some P /\ loops C P = false /\ st P <> stateNone;
  ut_conn : conns s !! c = Some C;
  ut_medias : GetMedias p s = Some ms;
}.

Lemma tryMedias_some n cm ins ms : forall a s, joining c s0 [] a s -> (exists P, prods s !! p = Some P /\ st P <> stateNone) ->
  Direction cm = DirectionSendonly -> directed ms -> acceptable refusal ms cm = true ->
  wp spare refusal (tryMedias c p n cm ms a) ins s (fun r s' ins' => ins' = ins /\ joining c s0 [p] r.2 s').
Proof.
  assert (p ∈ producers s0) as Hp by (rewrite Hone; by left).
  induction ms as [|m ms IH]; intros a s Jo HP Hcm Hd HA; [done|]. cbn [tryMedias]. apply Forall_cons in Hd as [Hd Hds].
  assert (joining c s0 [] (a <| prodMedias := prodMedias a ++ [m] |>) s) as Jm by (by apply (joining_note c s0 [] a)).
  unfold acceptable, suits in HA. cbn [existsb] in HA. destruct (MatchMedia m cm) as [[pk ck]|] eqn:HM; [|by apply IH].
  apply wp_bind. eapply wp_mono; [by apply (connect_live spare refusal c s0 [] p n m pk ck cm)|].
  intros [b a1] s1 i1 (-> & J1 & HP1 & (k & Hk & Hb) & Hf). cbn [fst snd] in *. rewrite (Hrefusal k pk Hk) in Hb. rewrite <- Hb in HA.
  destruct b; [|destruct (Hf eq_refl) as (-> & _); by apply IH].
  assert (joining c s0 [p] (a1 <| prodStarts := prodStarts a1 ++ [p] |>) s1) as J2.
  { apply joining_based; [done|]. cbn. apply elem_of_app. right. by left. }
  destruct (MatchAll cm); [|by apply wp_ret]. by apply tryMedias_live.
Qed.

Lemma tryMedias_none n cm ins C ms0 ms : forall a s, joining c s0 [] a s -> untouched C ms0 s ->
  Direction cm = DirectionSendonly -> directed ms -> acceptable refusal ms cm = false ->
  wp spare refusal (tryMedias c p n cm ms a) ins s (fun r s' ins' => ins' = ins /\
    r = (false, a <| prodMedias := prodMedias a ++ ms |>) /\ joining c s0 [] r.2 s' /\ untouched C ms0 s').
Proof.
  assert (p ∈ producers s0) as Hp by (rewrite Hone; by left).
  induction ms as [|m ms IH]; intros a s Jo HU Hcm Hd HA; cbn [tryMedias].
  { apply wp_ret. rewrite app_nil_r. split; [done|]. split; [by destruct a|]. split; [by destruct a|done]. }
  apply Forall_cons in Hd as [Hd Hds]. unfold acceptable in HA. cbn [existsb] in HA. apply orb_false_elim in HA as [H1 H2].
  assert (joining c s0 [] (a <| prodMedias := prodMedias a ++ [m] |>) s) as Jm by (by apply (joining_note c s0 [] a)).
  assert (forall s1, joining c s0 [] (a <| prodMedias := prodMedias a ++ [m] |>) s1 -> untouched C ms0 s1 ->
    wp spare refusal (tryMedias c p n cm ms (a <| prodMedias := prodMedias a ++ [m] |>)) ins s1 (fun r s' ins' => ins' = ins /\
      r = (false, a <| prodMedias := prodMedias a ++ m :: ms |>) /\ joining c s0 [] r.2 s' /\ untouched C ms0 s')) as Hgo.
  { intros s1 J1 U1. eapply wp_mono; [by apply (IH _ s1 J1 U1)|]. intros r s' i' (-> & -> & J' & U').
    assert (forall x : adding, x <| prodMedias := prodMedias a ++ [m] |> <| prodMedias := (prodMedias a ++ [m]) ++ ms |>
      = x <| prodMedias := prodMedias a ++ m :: ms |>) as E by (intros x; cbn; by rewrite <- app_assoc).
    cbn [snd] in J'. rewrite E in *. by split. }
  unfold suits in H1. destruct (MatchMedia m cm) as [[pk ck]|] eqn:HM; [|by apply Hgo].
  pose proof (ut_source _ _ _ HU) as (P & HP & HL & N).
  apply wp_bind. eapply wp_mono; [apply (connect_live spare refusal c s0 [] p n m pk ck cm); try done; by exists P|].
  intros [b a1] s1 i1 (-> & J1 & (P1 & HP1 & N1) & (k & Hk & Hb) & Hf). cbn [fst snd] in *.
  rewrite (Hrefusal k pk Hk), H1 in Hb. subst b. destruct (Hf eq_refl) as (-> & Ec & Em & Eu). apply Hgo; [done|].
  split; [|rewrite Ec; apply HU|rewrite Em; apply HU]. exists P1. split; [done|]. split; [|done].
  rewrite HP1, HP in Eu. injection Eu as Eu. unfold loops. by rewrite Eu.
Qed.

(** The loops over a source that is connected. *)
Lemma tryAll_connected C ms k ins cms : forall a s, joining c s0 [] a s -> untouched C ms s ->
  directed ms -> Forall (fun m => Direction m = DirectionSendonly) cms -> ample (Nat.pred (length cms) + k) ins ->
  prodErrors a = [None] -> prodStarts a = [] ->
  wp spare refusal (tryAll c cms a) ins s (fun a' s' ins' => ample k ins' /\ joining c s0 [] a' s' /\
    if existsb (acceptable refusal ms) cms then prodStarts a' <> []
    else a' = a <| prodMedias := prodMedias a ++ concat (map (fun _ => ms) cms) |>).
Proof.
  induction cms as [|cm cms IH]; intros a s Jo HU Hd Hcms HA Ee Es; cbn [tryAll existsb].
  { apply wp_ret. split; [done|]. split; [done|]. cbn. rewrite app_nil_r. by destruct a. }
  cbn [length Nat.pred] in HA. apply Forall_cons in Hcms as [Hcm Hcms]. pose proof HU as [(P & HP & HL & HN) HC HG].
  eapply (wp_op OProducers); [done|]. rewrite (jo_producers _ _ _ _ _ Jo), Hone. apply wp_bind. cbn [tryProducers].
  eapply (wp_op (OSourceOf p c)); [cbn [perform]; by rewrite HP, HC|]. unfold loops in HL. rewrite HL, Ee. cbn [lookup list_lookup].
  eapply (wp_op (ODial p)); [cbn [perform]; unfold Dial; rewrite HP; cbn [mbind option_bind]; by destruct (st P)|].
  eapply (wp_op (OGetMedias p)); [cbn [perform]; by rewrite HG|]. apply wp_bind.
  destruct (acceptable refusal ms cm) eqn:Ea; cbn [orb].
  - eapply wp_mono; [apply (tryMedias_some 0 cm ins ms a s); try done; by exists P|].
    intros [b a1] s1 i1 (-> & J1). cbn [fst snd] in J1.
    assert (wp spare refusal (tryAll c cms a1) ins s1 (fun a' s' ins' => ample k ins' /\ joining c s0 [] a' s' /\ prodStarts a' <> [])) as H.
    { eapply wp_mono; [apply (tryAll_live spare refusal c s0 [p] cms a1 k ins s1 J1 Hcms)|].
      - rewrite Hone. cbn [length]. by rewrite Nat.mul_1_r.
      - intros a' s' i' [A J2]. apply joining_unbased in J2 as [J2 N]. by split. }
    destruct b; by apply wp_ret.
  - eapply wp_mono; [by apply (tryMedias_none 0 cm ins C ms ms a s)|].
    intros r s' i' (-> & -> & J1 & U1). apply wp_ret. cbn [snd] in J1.
    eapply wp_mono; [apply (IH (a <| prodMedias := prodMedias a ++ ms |>) s'); try done|].
    + apply (ample_le (length cms + k)); [lia|done].
    + intros a' s2 i2 (A & J2 & H). split; [done|]. split; [done|]. destruct (existsb _ cms); [done|]. rewrite H. cbn.
      by rewrite <- app_assoc.
Qed.

(** A source that is passed over. *)
Lemma tryAll_skipped ins cms : forall a s P C, producers s = [p] -> prods s !! p = Some P -> conns s !! c = Some C ->
  loops C P = true \/ (exists err, prodErrors a = [Some err]) ->
  exec spare refusal (tryAll c cms a) ins s = Some (a, s, [], ins).
Proof.
  induction cms as [|cm cms IH]; intros a s P C Hp HP HC H; [done|].
  cbn [tryAll exec perform bind]. unfold done at 1. rewrite Hp. cbn [mbind option_bind tryProducers bind exec perform].
  rewrite HP, HC. cbn [mbind option_bind]. unfold done at 1. fold (loops C P). cbn [mbind option_bind].
  destruct H as [H|[err H]].
  - rewrite H. cbn [bind]. rewrite (IH a s P C) by auto. done.
  - destruct (loops C P); [|rewrite H; cbn [lookup list_lookup]]; cbn [bind]; rewrite (IH a s P C) by eauto; done.
Qed.
End one.
End outcome.

(** ** The text of the error *)

Lemma startsWith_spec p : forall s, startsWith p s = true <-> exists b, s = p ++ b.
Proof.
  induction p as [|x p IH]; intros s; cbn; [split; [by exists s|done]|]. destruct s as [|y s]; [split; [done|by intros [b Hb]]|].
  rewrite andb_true_iff, IH. split.
  - intros [E [b ->]]. exists b. apply Z.eqb_eq in E. by subst.
  - intros [b [= -> ->]]. split; [apply Z.eqb_refl|by exists b].
Qed.

Lemma contains_spec p : forall s, contains s p = true <-> exists a b, s = a ++ p ++ b.
Proof.
  unfold contains. induction s as [|x s IH]; rewrite bool_decide_eq_true in *; cbn [index].
  - destruct (startsWith p []) eqn:E.
    + split; [|by eexists]. intros _. apply startsWith_spec in E as [b E]. by exists [], b.
    + split; [by intros [? H]|]. intros (a & b & H). symmetry in H. apply app_eq_nil in H as [_ H]. apply app_eq_nil in H as [-> _]. done.
  - destruct (startsWith p (x :: s)) eqn:E.
    + split; [|by eexists]. intros _. apply startsWith_spec in E as [b E]. by exists [], b.
    + rewrite fmap_is_Some, IH. split.
      * intros (a & b & ->). by exists (x :: a), b.
      * intros (a & b & H). destruct a as [|y a]; [|injection H as _ ->; by exists a, b].
        apply not_true_iff_false in E. destruct E. apply startsWith_spec. by exists b.
Qed.

Lemma appendString_contains s e : contains (appendString s e) e = true.
Proof.
  unfold appendString. destruct (contains s e) eqn:E; [done|]. apply contains_spec. case_decide.
  - exists [], []. by rewrite app_nil_r.
  - exists (s ++ str ", "), []. by rewrite app_nil_r, <- app_assoc.
Qed.

Lemma appendString_keeps s e x : contains s x = true -> contains (appendString s e) x = true.
Proof.
  intros H. unfold appendString. destruct (contains s e) eqn:E; [done|]. apply contains_spec in H as (a & b & ->). apply contains_spec.
  case_decide as D; [|exists a, (b ++ str ", " ++ e); by rewrite <- !app_assoc].
  apply app_eq_nil in D as [-> D]. apply app_eq_nil in D as [-> ->]. by exists [], e.
Qed.

Lemma append_all_keeps l x : forall s, contains s x = true -> contains (fold_left appendString l s) x = true.
Proof. induction l as [|e l IH]; intros s H; cbn; [done|]. by apply IH, appendString_keeps. Qed.

Lemma append_all_contains l x : forall s, x ∈ l -> contains (fold_left appendString l s) x = true.
Proof.
  induction l as [|e l IH]; intros s H; [by apply elem_of_nil in H|]. cbn.
  apply elem_of_cons in H as [->|H]; [apply append_all_keeps, appendString_contains|by apply IH].
Qed.

Lemma append_all_known l : forall s, (forall x, x ∈ l -> contains s x = true) -> fold_left appendString l s = s.
Proof.
  induction l as [|e l IH]; intros s H; cbn; [done|]. unfold appendString at 2. rewrite (H e) by (by left).
  apply IH. intros x Hx. apply H. by right.
Qed.

(** The names of the codecs of one direction. *)
Definition names (dir : bytes) (ms : list Media) : list bytes :=
  concat (map (fun m => if decide (Direction m = dir) then map (fun k => Kind m ++ str ":" ++ PrintName k) (Codecs m) else []) ms).

Lemma codecText_names dir ms : codecText dir ms = fold_left appendString (names dir ms) [].
Proof.
  unfold codecText. generalize (@nil Z). induction ms as [|m ms IH]; intros t; [done|]. cbn. unfold names. cbn. rewrite fold_left_app, IH.
  f_equal. case_decide; [|done]. generalize (Codecs m). clear. intros ks. revert t. induction ks as [|k ks IH]; intros t; [done|]. cbn. apply IH.
Qed.

(** Saying the same again adds nothing. *)
Lemma codecText_again dir ms n : codecText dir (concat (replicate (S n) ms)) = codecText dir ms.
Proof.
  rewrite !codecText_names. assert (forall a b, names dir (a ++ b) = names dir a ++ names dir b) as Happ.
  { intros a b. unfold names. by rewrite map_app, concat_app. }
  assert (forall n t, (forall x, x ∈ names dir ms -> contains t x = true) ->
    fold_left appendString (names dir (concat (replicate n ms))) t = t) as H.
  { clear n. induction n as [|n IH]; intros t Ht; [done|]. cbn [replicate concat]. rewrite Happ, fold_left_app, (append_all_known (names dir ms)) by done. by apply IH. }
  cbn [replicate concat]. rewrite Happ, fold_left_app. apply H. intros x Hx. by apply append_all_contains.
Qed.

Lemma formatError_dial cms err : formatError cms [] [Some err] =
  if decide (err = []) then str "streams: unknown error" else str "streams: " ++ err.
Proof.
  unfold formatError. cbn [fold_left]. assert (appendString [] err = err) as ->.
  { unfold appendString. destruct (contains [] err) eqn:E; [|done]. apply contains_spec in E as (a & b & E). symmetry in E.
    apply app_eq_nil in E as [_ E]. by apply app_eq_nil in E as [-> _]. }
  case_decide as D; [by rewrite D|]. destruct err as [|x err]; [done|]. unfold len. cbn [length].
  by rewrite (proj2 (Z.eqb_neq _ _)) by lia.
Qed.

Lemma formatError_codecs cms ms n : formatError cms (concat (replicate (S n) ms)) [None] =
  if decide (ms = []) then str "streams: unknown error"
  else str "streams: codecs not matched: " ++ codecText DirectionRecvonly ms ++ str " => " ++ codecText DirectionSendonly cms.
Proof.
  unfold formatError. cbn [fold_left len length Z.of_nat Z.eqb negb]. case_decide as D.
  - rewrite D. assert (concat (replicate (S n) ([] : list Media)) = []) as -> by (clear; induction n; [done|cbn in *; done]). done.
  - rewrite bool_decide_false, codecText_again; [done|]. destruct ms; [done|]. done.
Qed.

(** ** The outcome *)

Lemma map_constant {A B} (x : B) (l : list A) : map (fun _ => x) l = replicate (length l) x.
Proof. induction l as [|y l IH]; [done|]. cbn. by rewrite IH. Qed.

Lemma wp_exec {A} spare refusal (m : prog A) ins s ins' s' Q : exec spare refusal m ins s = exec spare refusal m ins' s' ->
  wp spare refusal m ins' s' Q -> wp spare refusal m ins s Q.
Proof. intros E (a & s2 & ts & i2 & E2 & H). exists a, s2, ts, i2. by rewrite E. Qed.

Lemma exec_op {A X} spare refusal (o : op X) (k : X -> prog A) ins s x s1 i1 :
  perform spare refusal o ins s = Some (x, s1, [], i1) -> exec spare refusal (Op o k) ins s = exec spare refusal (k x) i1 s1.
Proof. intros E. cbn [exec]. rewrite E. cbn [mbind option_bind]. by destruct (exec spare refusal (k x) i1 s1) as [[[[? ?] ?] ?]|]. Qed.

(** The first dial, and then as if the source had been connected before. *)
Lemma dial_first spare refusal c p cm cms a s s' C P P' D ins : producers s = [p] -> prods s !! p = Some P -> conns s !! c = Some C ->
  loops C P = false -> prodErrors a = [None] -> Dial p (Dialled (inr D) :: ins) s = Some (None, s', ins) ->
  producers s' = [p] -> prods s' !! p = Some P' -> conns s' !! c = Some C -> loops C P' = false -> st P' <> stateNone ->
  exec spare refusal (tryAll c (cm :: cms) a) (Dialled (inr D) :: ins) s = exec spare refusal (tryAll c (cm :: cms) a) ins s'.
Proof.
  intros H1 H2 H3 H4 H5 H6 K1 K2 K3 K4 K5.
  assert (Dial p ins s' = Some (None, s', ins)) as K6 by (unfold Dial; rewrite K2; cbn; by destruct (st P')).
  assert (forall s P ins i1 s1, producers s = [p] -> prods s !! p = Some P -> conns s !! c = Some C -> loops C P = false ->
    Dial p ins s = Some (None, s1, i1) -> exec spare refusal (tryAll c (cm :: cms) a) ins s =
    exec spare refusal (bind (Op (OGetMedias p) (fun ms => bind (tryMedias c p 0 cm ms a) (fun r => let '(brk, a) := r in
      if (brk : bool) then Ret a else Ret a))) (fun a => tryAll c cms a)) i1 s1) as Hgo.
  { intros u Q i i1 u1 E1 E2 E3 E4 E5. cbn [tryAll bind]. rewrite (exec_op spare refusal OProducers _ i u _ u i) by done.
    rewrite E1. cbn [tryProducers bind]. unfold loops in E4.
    rewrite (exec_op spare refusal (OSourceOf p c) _ i u false u i) by (cbn [perform]; rewrite E2, E3; cbn [mbind option_bind]; by rewrite E4).
    rewrite H5. cbn [lookup list_lookup bind].
    by rewrite (exec_op spare refusal (ODial p) _ i u None u1 i1) by (cbn [perform]; by rewrite E5). }
  by rewrite (Hgo s P _ ins s'), (Hgo s' P' ins ins s').
Qed.

Lemma Dial_new p P D ins s : prods s !! p = Some P -> st P = stateNone -> exists s' P', Dial p (Dialled (inr D) :: ins) s = Some (None, s', ins) /\
  prods s' !! p = Some P' /\ st P' = stateMedias /\ url P' = url P /\ GetMedias p s' = Some (Medias D) /\
  forall d X, conns s !! d = Some X -> conns s' !! d = Some X.
Proof.
  intros HP S. unfold Dial. rewrite HP. cbn [mbind option_bind]. rewrite S. cbn [adopt]. set (c := fresh (dom (conns s))).
  assert (conns s !! c = None) as Hc by apply not_elem_of_dom, is_fresh.
  eexists _, _. split; [done|]. cbn. rewrite lookup_insert_eq. split; [done|]. split; [done|]. split; [done|]. split.
  - unfold GetMedias. cbn. rewrite lookup_insert_eq. cbn. by rewrite lookup_insert_eq.
  - intros d X E. rewrite lookup_insert_ne; [done|congruence].
Qed.

(** ** The outcome *)

Lemma outcome_tried spare refusal s c p C P ins : (forall k k', address k = address k' -> refusal k = refusal k') -> steady s -> joinable s c C -> producers s = [p] ->
  prods s !! p = Some P -> Medias C <> [] -> ample (length (Medias C)) ins -> loops C P = false ->
  let a0 := mkAdding (map (fun _ => None) (producers s)) [] [] in
  wp spare refusal (tryAll c (Medias C) a0) ins (s <| pending := pending s + 1 |>)
    (fun a s' ins' => ample 0 ins' /\ joining c s [] a s' /\ match offered s p P ins with
      | inl err => a = a0 <| prodErrors := [Some err] |>
      | inr ms => if existsb (acceptable refusal ms) (Medias C) then prodStarts a <> []
                  else a = a0 <| prodMedias := concat (map (fun _ => ms) (Medias C)) |> end).
Proof.
  intros Hrefusal Hsteady Hjoin Hone HP Hmedias Hins HL a0. set (s1 := s <| pending := pending s + 1 |>).
  pose proof (joining_begins c C s Hsteady Hjoin) as J1. fold a0 s1 in J1. pose proof Hsteady as (L & _).
  pose proof Hjoin as (HC & (_ & _ & HV & _) & _). assert (prodErrors a0 = [None]) as Ea by (unfold a0; by rewrite Hone).
  destruct (decide (st P = stateNone)) as [S|S].
  - unfold offered. rewrite S. destruct Hins as [A B]. destruct (Medias C) as [|cm cms] eqn:EM; [done|].
    destruct ins as [|[[err|D]|e] ins]; [cbn in B; lia|..|by apply Forall_cons in A as [A _]]; apply Forall_cons in A as [A1 A2].
    + cbn [tryAll]. eapply (wp_op OProducers); [done|]. change (producers s1) with (producers s). rewrite Hone. apply wp_bind. cbn [tryProducers].
      eapply (wp_op (OSourceOf p c)); [cbn [perform]; change (prods s1) with (prods s); change (conns s1) with (conns s); by rewrite HP, HC|].
      unfold loops in HL. rewrite HL, Ea. cbn [lookup list_lookup].
      eapply (wp_op (ODial p)); [cbn [perform]; unfold Dial; change (prods s1) with (prods s); rewrite HP; cbn [mbind option_bind]; by rewrite S|].
      apply wp_ret. assert (failed 0 err a0 = a0 <| prodErrors := [Some err] |>) as EF by (unfold failed; by rewrite Ea). rewrite EF.
      exists (a0 <| prodErrors := [Some err] |>), s1, [], ins.
      split; [by apply (tryAll_skipped spare refusal c p ins cms _ s1 P C); [..|right; exists err]|]. split; [split; [done|lia]|]. split; [|done].
      apply (joining_note c s [] a0); [done|done|]. by rewrite Ea.
    + destruct (Dial_new p P D ins s1 HP S) as (s2 & P2 & E2 & HP2 & S2 & U2 & G2 & C2).
      destruct (Dial_live [c] p (Dialled (inr D) :: ins) (length cms) s1 (jo_live _ _ _ _ _ J1)) as (e' & s2' & i2 & E2' & L2 & AM & F2 & _);
        [change (producers s1) with (producers s); rewrite Hone; by left|split; [by constructor|exact B]|].
      rewrite E2 in E2'. injection E2' as <- <- <-. pose proof (joining_framed c s [] a0 s1 s2 J1 L2 F2) as J2.
      assert (loops C P2 = false) as HL2 by (unfold loops; by rewrite U2).
      assert (producers s2 = [p]) as Hp2 by (rewrite (jo_producers _ _ _ _ _ J2); done).
      eapply wp_exec; [apply (dial_first spare refusal c p cm cms a0 s1 s2 C P P2 D ins); try done; [by apply C2|by rewrite S2]|].
      eapply wp_mono; [apply (tryAll_connected spare refusal Hrefusal c p s Hone C (Medias D) 0 ins (cm :: cms) a0 s2); try done|].
      * split; [exists P2; by rewrite S2|by apply C2|done].
      * by destruct A1 as (_ & _ & A1).
      * cbn [length Nat.pred]. by rewrite Nat.add_0_r.
      * done.
  - assert (GetMedias p s1 = GetMedias p s) as EG by done. pose proof (lv_sources _ _ L p P HP) as HS.
    destruct (conn P) as [d|] eqn:Ed; [|by destruct S; apply (so_none _ _ _ HS)]. destruct (so_conn _ _ _ HS d Ed) as (D & HD & Hdir & _).
    assert (GetMedias p s = Some (Medias D)) as EM by (unfold GetMedias; rewrite HP; cbn; rewrite Ed; cbn; by rewrite HD).
    assert (offered s p P ins = inr (Medias D)) as -> by (unfold offered; rewrite EM; by destruct (st P)).
    eapply wp_mono; [apply (tryAll_connected spare refusal Hrefusal c p s Hone C (Medias D) 0 ins (Medias C) a0 s1); try done|].
    + split; [by exists P|done|by rewrite EG].
    + rewrite Nat.add_0_r. apply (ample_le (length (Medias C))); [lia|done].
    + done.
Qed.


(** A camera that only speaks VP8. *)
Definition vp8Conn : Conn := mkConn [mkMedia KindVideo DirectionRecvonly [mkCodec 7 CodecVP8 90000 0 [] 96]] [] [] None false true false None.

