(* ===== verification/TutkFrames.v ===== *)
(** Frames of the cameras that speak [tutk] over DTLS: packet headers, frame
    information, and the handler that puts the packets of a frame together
    ([pkg/tutk/frame.go], [pkg/tutk/codec.go]).  [None] is an index or a slice out of
    range. *)

From S2P Require Import Prelude Text Aac.

(** ** Codecs ([codec.go]) *)

Definition CodecMPEG4 : Z := 0x4C.
Definition CodecH265 : Z := 0x50.
Definition CodecAACRaw : Z := 0x86.
Definition CodecAACADTS : Z := 0x87.
Definition CodecAACLATM : Z := 0x88.
Definition CodecPCMU : Z := 0x89.
Definition CodecPCMA : Z := 0x8A.
Definition CodecADPCM : Z := 0x8B.
Definition CodecPCML : Z := 0x8C.
Definition CodecSPEEX : Z := 0x8D.
Definition CodecMP3 : Z := 0x8E.
Definition CodecG726 : Z := 0x8F.
Definition CodecAACAlt : Z := 0x90.
Definition CodecOpus : Z := 0x92.

Definition sampleRates : list Z :=
  [8000; 11025; 12000; 16000; 22050; 24000; 32000; 44100; 48000].

Fixpoint rateIndexFrom (i : Z) (rates : list Z) (sampleRate : Z) : Z :=
  match rates with
  | [] => 3
  | rate :: rates => if rate =? sampleRate then u8 i else rateIndexFrom (i + 1) rates sampleRate
  end.
Definition GetSampleRateIndex (sampleRate : Z) : Z := rateIndexFrom 0 sampleRates sampleRate.

Definition isAAC (codecID : Z) : bool :=
  (codecID =? CodecAACRaw) || (codecID =? CodecAACADTS) || (codecID =? CodecAACLATM)
  || (codecID =? CodecAACAlt).

Definition GetSamplesPerFrame (codecID : Z) : Z :=
  if isAAC codecID then 1024
  else if (codecID =? CodecPCMU) || (codecID =? CodecPCMA) || (codecID =? CodecPCML)
       || (codecID =? CodecADPCM) || (codecID =? CodecSPEEX) || (codecID =? CodecG726) then 160
  else if codecID =? CodecMP3 then 1152
  else if codecID =? CodecOpus then 960
  else 1024.

Definition IsVideoCodec (id : Z) : bool := (CodecMPEG4 <=? id) && (id <=? CodecH265).
Definition IsAudioCodec (id : Z) : bool := (CodecAACRaw <=? id) && (id <=? CodecOpus).

(** ** Headers *)

Definition FrameTypeStart : Z := 0x08.
Definition FrameTypeStartAlt : Z := 0x09.
Definition FrameTypeCont : Z := 0x00.
Definition FrameTypeContAlt : Z := 0x04.
Definition FrameTypeEndSingle : Z := 0x01.
Definition FrameTypeEndMulti : Z := 0x05.
Definition FrameTypeEndExt : Z := 0x0d.

Definition ChannelIVideo : Z := 0x05.
Definition ChannelAudio : Z := 0x03.
Definition ChannelPVideo : Z := 0x07.

Definition frameInfoSize : Z := 40.

(** [PayloadSize] and [FrameNo] of the frame information are [InfoSize] and [InfoNo],
    of the packet header [PktSize] and [FrameNo]. *)
Record FrameInfo := mkFrameInfo {
  CodecID : Z;
  Flags : Z;
  CamIndex : Z;
  OnlineNum : Z;
  FPS : Z;
  ResTier : Z;
  Bitrate : Z;
  Timestamp : Z;
  SessionID : Z;
  InfoSize : Z;
  InfoNo : Z;
}.

Definition IsKeyframe (fi : FrameInfo) : bool := Flags fi =? 0x01.
Definition SampleRate (fi : FrameInfo) : Z :=
  let idx := Z.land (Z.shiftr (Flags fi) 2) 0x0F in
  if idx <? u8 (len sampleRates) then nth (Z.to_nat idx) sampleRates 0 else 16000.
Definition Channels (fi : FrameInfo) : Z := if Z.land (Flags fi) 1 =? 1 then 2 else 1.

(** The inner [None] is the nil pointer. *)
Definition ParseFrameInfo (data : bytes) : option (option FrameInfo) :=
  if len data <? frameInfoSize then Some None else
  fi ← sub data (len data - frameInfoSize) (len data);
  c ← rd fi 0; f ← rd fi 2; cam ← rd fi 3; onl ← rd fi 4; fps ← rd fi 5; tier ← rd fi 6;
  rate ← rd fi 7; ts ← rd32 fi 8; sid ← rd32 fi 12; size ← rd32 fi 16; no ← rd32 fi 20;
  Some (Some (mkFrameInfo c f cam onl fps tier rate ts sid size no)).

Record PacketHeader := mkHeader {
  Channel : Z;
  FrameType : Z;
  HeaderSize : Z;
  FrameNo : Z;
  PktIdx : Z;
  PktTotal : Z;
  PktSize : Z;
  HasFrameInfo : bool;
}.

Definition IsStartFrame (frameType : Z) : bool :=
  (frameType =? FrameTypeStart) || (frameType =? FrameTypeStartAlt).
Definition IsEndFrame (frameType : Z) : bool :=
  (frameType =? FrameTypeEndSingle) || (frameType =? FrameTypeEndMulti)
  || (frameType =? FrameTypeEndExt).
Definition IsContinuationFrame (frameType : Z) : bool :=
  (frameType =? FrameTypeCont) || (frameType =? FrameTypeContAlt).

(** The fields of a header of one size; the two branches differ in where they are. *)
Definition headerFields (data : bytes) (frameType size total : Z) : option PacketHeader :=
  channel ← rd data 0;
  pktTotal ← rd16 data total;
  pktIdxOrMarker ← rd16 data (total + 2);
  payloadSize ← rd16 data (total + 4);
  frameNo ← rd32 data (size - 4);
  Some (if (pktIdxOrMarker =? 0x0028) && (IsEndFrame frameType || (pktTotal =? 1))
        then mkHeader channel frameType size frameNo
               (if 0 <? pktTotal then u16 (pktTotal - 1) else 0) pktTotal payloadSize true
        else mkHeader channel frameType size frameNo pktIdxOrMarker pktTotal payloadSize false).

Definition ParsePacketHeader (data : bytes) : option (option PacketHeader) :=
  if len data <? 28 then Some None else
  frameType ← rd data 1;
  let size := if (frameType =? FrameTypeStart) || (frameType =? FrameTypeStartAlt)
                 || (frameType =? FrameTypeEndExt) then 36 else 28 in
  if len data <? size then Some None else
  if size =? 28 then Some <$> headerFields data frameType 28 12
  else Some <$> headerFields data frameType 36 20.

(** Header size and size of the frame information [extractPayload] goes by. *)
Definition extents (data : bytes) (frameType : Z) : option (Z * Z) :=
  if frameType =? FrameTypeStart then Some (36, 0)
  else if frameType =? FrameTypeStartAlt then
    if 22 <=? len data then
      pktTotal ← rd16 data 20;
      Some (36, if pktTotal =? 1 then frameInfoSize else 0)
    else Some (36, 0)
  else if (frameType =? FrameTypeCont) || (frameType =? FrameTypeContAlt) then Some (28, 0)
  else if (frameType =? FrameTypeEndSingle) || (frameType =? FrameTypeEndMulti)
  then Some (28, frameInfoSize)
  else if frameType =? FrameTypeEndExt then Some (36, frameInfoSize)
  else Some (28, 0).

(** The inner [None] is the nil slice. *)
Definition extractPayload (data : bytes) (channel : Z)
    : option (option bytes * option FrameInfo) :=
  if len data <? 2 then Some (None, None) else
  frameType ← rd data 1;
  '(headerSize, fiSize) ← extents data frameType;
  if len data <? headerSize then Some (None, None) else
  let rest := p ← sub data headerSize (len data); Some (Some p, None) in
  if fiSize =? 0 then rest else
  if len data <? headerSize + fiSize then rest else
  ofi ← ParseFrameInfo data;
  fi ← ofi;
  let validCodec :=
    if (channel =? ChannelIVideo) || (channel =? ChannelPVideo) then IsVideoCodec (CodecID fi)
    else if channel =? ChannelAudio then IsAudioCodec (CodecID fi) else false in
  if (validCodec : bool)
  then payload ← sub data headerSize (len data - fiSize); Some (Some payload, Some fi)
  else rest.

(** ** The handler *)

Record Packet := mkPacket {
  pChannel : Z;
  pCodec : Z;
  pTimestamp : Z;
  pPayload : bytes;
  pIsKeyframe : bool;
  pFrameNo : Z;
  pSampleRate : Z;
  pChannels : Z;
}.

Record channelState := mkChannel {
  frameNo : Z;
  pktTotal : Z;
  waitSeq : Z;
  waitData : bytes;
  frameInfo : option FrameInfo;
  hasStarted : bool;
  lastPktIdx : Z;
}.
#[export] Instance eta_channelState : Eta channelState := fun c =>
  mkChannel (frameNo c) (pktTotal c) (waitSeq c) (waitData c) (frameInfo c) (hasStarted c)
    (lastPktIdx c).

Definition zeroChannel : channelState := mkChannel 0 0 0 [] None false 0.
Definition reset (cs : channelState) : channelState := mkChannel 0 0 0 [] None false 0.

Definition tsWrapPeriod : Z := 1000000.

Record tsTracker := mkTs { lastRawTS : Z; accumUS : Z; firstTS : bool }.

Definition update (t : tsTracker) (rawTS : Z) : tsTracker * Z :=
  if negb (firstTS t) then (mkTs rawTS (accumUS t) true, 0) else
  let delta := if lastRawTS t <=? rawTS then rawTS - lastRawTS t
               else u32 (u32 (tsWrapPeriod - lastRawTS t) + rawTS) in
  let accum := u64 (accumUS t + delta) in
  (mkTs rawTS accum true, accum).

(** [output] is what the channel holds. *)
Record FrameHandler := mkHandler {
  channels : gmap Z channelState;
  videoTS : tsTracker;
  audioTS : tsTracker;
  output : list Packet;
  closed : bool;
}.
#[export] Instance eta_FrameHandler : Eta FrameHandler := fun h =>
  mkHandler (channels h) (videoTS h) (audioTS h) (output h) (closed h).

Definition outputCap : Z := 128.
Definition NewFrameHandler : FrameHandler :=
  mkHandler ∅ (mkTs 0 0 false) (mkTs 0 0 false) [] false.

Definition Close (h : FrameHandler) : FrameHandler := h <| closed := true |>.

(** A full queue loses its oldest packet.  [taken] are the packets the reader takes
    between the first [select] and the second. *)
Definition queue (taken : nat) (pkt : Packet) (h : FrameHandler) : FrameHandler :=
  if closed h then h else
  if len (output h) <? outputCap then h <| output := output h ++ [pkt] |> else
  let rest := drop 1 (drop taken (output h)) in
  h <| output := if len rest <? outputCap then rest ++ [pkt] else rest |>.

Definition setChannel (channel : Z) (cs : channelState) (h : FrameHandler) : FrameHandler :=
  h <| channels := <[channel := cs]> (channels h) |>.

(** The part of [handleVideo] behind the last early return before a frame is complete. *)
Definition completeFrame (taken : nat) (channel : Z) (cs : channelState) (fi : FrameInfo)
    (h : FrameHandler) : FrameHandler :=
  if (0 <? InfoSize fi) && negb (u32 (len (waitData cs)) =? InfoSize fi)
  then setChannel channel (reset cs) h else
  if len (waitData cs) =? 0 then setChannel channel (reset cs) h else
  let '(ts, accumUS) := update (videoTS h) (Timestamp fi) in
  let rtpTS := u32 (u64 (accumUS * 90000) / 1000000) in
  let pkt := mkPacket channel (CodecID fi) rtpTS (waitData cs) (IsKeyframe fi) (InfoNo fi) 0 0 in
  setChannel channel (reset cs) (queue taken pkt (h <| videoTS := ts |>)).

Definition handleVideo (taken : nat) (channel : Z) (hdr : PacketHeader) (payload : bytes)
    (fi : option FrameInfo) (h : FrameHandler) : FrameHandler :=
  let cs := default zeroChannel (channels h !! channel) in
  let cs := if FrameNo hdr =? frameNo cs then cs
            else (reset cs) <| frameNo := FrameNo hdr |> <| pktTotal := PktTotal hdr |> in
  if negb (PktIdx hdr =? waitSeq cs) then setChannel channel (reset cs) h else
  let cs := if waitSeq cs =? 0 then cs <| hasStarted := true |> else cs in
  let cs := cs <| waitData := waitData cs ++ payload |> <| waitSeq := u16 (waitSeq cs + 1) |> in
  let cs := match fi with Some _ => cs <| frameInfo := fi |> | None => cs end in
  if negb (waitSeq cs =? pktTotal cs) then setChannel channel cs h else
  match frameInfo cs with
  | None => setChannel channel cs h
  | Some fi => completeFrame taken channel cs fi h
  end.

Definition parseAudioParams (payload : bytes) (fi : option FrameInfo) : Z * Z :=
  match (if IsADTS payload then ADTSToCodec payload else None) with
  | Some codec => (ClockRate codec, Aac.Channels codec)
  | None =>
      match fi with Some fi => (SampleRate fi, Channels fi) | None => (16000, 1) end
  end.

Definition handleAudio (taken : nat) (payload : bytes) (fi : option FrameInfo)
    (h : FrameHandler) : FrameHandler :=
  if len payload =? 0 then h else
  match fi with
  | None => h
  | Some fi =>
      let '(sampleRate, channels) :=
        if isAAC (CodecID fi) then parseAudioParams payload (Some fi)
        else (SampleRate fi, Channels fi) in
      let '(ts, accumUS) := update (audioTS h) (Timestamp fi) in
      let rtpTS := u32 (u64 (accumUS * sampleRate) / 1000000) in
      queue taken (mkPacket ChannelAudio (CodecID fi) rtpTS payload false (InfoNo fi) sampleRate channels)
        (h <| audioTS := ts |>)
  end.

Definition Handle (taken : nat) (data : bytes) (h : FrameHandler) : option FrameHandler :=
  ohdr ← ParsePacketHeader data;
  match ohdr with
  | None => Some h
  | Some hdr =>
      '(opayload, fi) ← extractPayload data (Channel hdr);
      match opayload with
      | None => Some h
      | Some payload => Some (
          if Channel hdr =? ChannelAudio then handleAudio taken payload fi h
          else if (Channel hdr =? ChannelIVideo) || (Channel hdr =? ChannelPVideo)
          then handleVideo taken (Channel hdr) hdr payload fi h else h)
      end
  end.

(** [hex.EncodeToString] with a space between the bytes. *)
Fixpoint spaced (s : bytes) : bytes :=
  match s with
  | [] => []
  | [a] => [a]
  | [a; b] => [a; b]
  | a :: b :: s => a :: b :: 32 :: spaced s
  end.
Definition dumpHex (fi : FrameInfo) : bytes :=
  let b := [CodecID fi; 0; Flags fi; CamIndex fi; OnlineNum fi; FPS fi; ResTier fi; Bitrate fi]
           ++ le32 (Timestamp fi) ++ le32 (SessionID fi) ++ le32 (InfoSize fi) ++ le32 (InfoNo fi)
           ++ zeros 16 in
  spaced (hexEncode b).
