(* ===== verification/TutkFramesFacts.v ===== *)
(** Properties of the frame handler of [tutk]: it never panics, only whole frames
    leave it, a frame whose packets arrive in order leaves it exactly, and the clock
    goes on over the wrap of the camera's time stamps. *)

From S2P Require Import Prelude Text Aac TutkFrames.

(** ** What a datagram carries *)

Abbreviation piece := (PacketHeader * bytes * option FrameInfo)%type.
Definition pieceHdr (p : piece) : PacketHeader := p.1.1.
Definition piecePayload (p : piece) : bytes := p.1.2.
Definition pieceInfo (p : piece) : option FrameInfo := p.2.

Definition view (data : bytes) : option piece :=
  match ParsePacketHeader data with
  | Some (Some hdr) =>
      match extractPayload data (Channel hdr) with
      | Some (Some payload, fi) => Some (hdr, payload, fi)
      | _ => None
      end
  | _ => None
  end.

Definition dispatch (taken : nat) (p : piece) (h : FrameHandler) : FrameHandler :=
  let '(hdr, payload, fi) := p in
  if Channel hdr =? ChannelAudio then handleAudio taken payload fi h
  else if (Channel hdr =? ChannelIVideo) || (Channel hdr =? ChannelPVideo)
  then handleVideo taken (Channel hdr) hdr payload fi h else h.

Lemma headerFields_total data t size total :
  28 <= size <= len data -> 0 <= total -> total + 5 < size ->
  exists hdr, headerFields data t size total = Some hdr.
Proof.
  intros. unfold headerFields. rewrite rd_in, !rd16_in, rd32_in by lia. cbn [mbind option_bind]. eauto.
Qed.

Lemma ParsePacketHeader_total data : exists r, ParsePacketHeader data = Some r.
Proof.
  unfold ParsePacketHeader. destruct (len data <? 28) eqn:E; [eauto|].
  rewrite rd_in by lia. cbn [mbind option_bind].
  set (size := if _ || _ then 36 else 28).
  destruct (len data <? size) eqn:E'; [eauto|].
  assert (size = 28 \/ size = 36) as [->| ->] by (subst size; destruct (_ || _); auto); cbn [Z.eqb Pos.eqb].
  - destruct (headerFields_total data (at_ data 1) 28 12) as [hdr ->]; [lia..|]. eauto.
  - destruct (headerFields_total data (at_ data 1) 36 20) as [hdr ->]; [lia..|]. eauto.
Qed.

Lemma ParseFrameInfo_total data :
  frameInfoSize <= len data -> exists fi, ParseFrameInfo data = Some (Some fi).
Proof.
  intros H. unfold ParseFrameInfo, frameInfoSize in *.
  destruct (len data <? 40) eqn:E; [lia|].
  rewrite sub_in by lia. cbn [mbind option_bind].
  assert (len (seg data (len data - 40) (len data)) = 40) by (rewrite len_seg; lia).
  rewrite !rd_in, !rd32_in by lia. cbn [mbind option_bind]. eauto.
Qed.

Lemma extents_total data t :
  2 <= len data ->
  exists size fiSize, extents data t = Some (size, fiSize) /\ 28 <= size
    /\ (fiSize = 0 \/ fiSize = frameInfoSize).
Proof.
  intros. unfold extents.
  repeat case_match; rewrite ?rd16_in by lia; cbn [mbind option_bind];
    repeat case_match; eexists _, _; split_and!; try done; auto; lia.
Qed.

Lemma extractPayload_total data ch : exists p fi, extractPayload data ch = Some (p, fi).
Proof.
  unfold extractPayload. destruct (len data <? 2) eqn:E; [eauto|].
  rewrite rd_in by lia. cbn [mbind option_bind].
  destruct (extents_total data (at_ data 1)) as (size & fiSize & -> & Hs & Hf); [lia|].
  cbn [mbind option_bind]. destruct (len data <? size) eqn:E1; [eauto|].
  rewrite (sub_in data size) by lia. cbn [mbind option_bind].
  destruct (fiSize =? 0) eqn:E2; [eauto|]. destruct Hf as [->| ->]; [done|].
  destruct (len data <? size + frameInfoSize) eqn:E3; [eauto|].
  destruct (ParseFrameInfo_total data) as [fi ->]; [lia|]. cbn [mbind option_bind].
  unfold frameInfoSize in *. rewrite sub_in by lia. cbn [mbind option_bind].
  repeat case_match; eauto.
Qed.

(** Handling a datagram never panics, and is handling what it carries. *)
Lemma Handle_view taken data h :
  Handle taken data h = Some (match view data with Some p => dispatch taken p h | None => h end).
Proof.
  unfold Handle, view. destruct (ParsePacketHeader_total data) as [[hdr|] ->]; [|done].
  cbn [mbind option_bind]. destruct (extractPayload_total data (Channel hdr)) as (p & fi & ->).
  by destruct p.
Qed.

(** ** Gathering a frame *)

Fixpoint lastInfo (parts : list piece) : option FrameInfo :=
  match parts with
  | [] => None
  | p :: parts => match lastInfo parts with Some fi => Some fi | None => pieceInfo p end
  end.

(** The packets [parts] make up the frame with number [n], from its first packet on:
    consecutive, all of that frame.  Packet indices are 16 bits wide. *)
Definition consecutive (n : Z) (parts : list piece) : Prop :=
  forall i p, parts !! i = Some p ->
    FrameNo (pieceHdr p) = n /\ PktIdx (pieceHdr p) = u16 (Z.of_nat i).

(** [t] is the number of packets announced by the first one; frame 0 may be waited for
    with the total 0. *)
Definition announced (n t : Z) (parts : list piece) : Prop :=
  match parts with
  | [] => n = 0 /\ t = 0
  | p :: _ => t = PktTotal (pieceHdr p) \/ n = 0 /\ t = 0
  end.

Record gathers (parts : list piece) (cs : channelState) : Prop := {
  g_run : consecutive (frameNo cs) parts;
  g_seq : waitSeq cs = u16 (len parts);
  g_data : waitData cs = concat (map piecePayload parts);
  g_info : frameInfo cs = lastInfo parts;
}.

Lemma gathers_none cs :
  waitSeq cs = 0 -> waitData cs = [] -> frameInfo cs = None -> gathers [] cs.
Proof. intros H1 H2 H3. constructor; [|done..]. intros i p. by rewrite lookup_nil. Qed.

Lemma lastInfo_snoc parts p :
  lastInfo (parts ++ [p]) = match pieceInfo p with Some fi => Some fi | None => lastInfo parts end.
Proof.
  induction parts as [|q parts IH]; cbn; [by destruct (pieceInfo p)|].
  rewrite IH. destruct (pieceInfo p); [done|]. by destruct (lastInfo parts).
Qed.

(** The state after one more packet that fits. *)
Definition extend (p : piece) (cs : channelState) : channelState :=
  let cs := if waitSeq cs =? 0 then cs <| hasStarted := true |> else cs in
  let cs := cs <| waitData := waitData cs ++ piecePayload p |> <| waitSeq := u16 (waitSeq cs + 1) |> in
  match pieceInfo p with Some _ => cs <| frameInfo := pieceInfo p |> | None => cs end.

Lemma extend_fields p cs :
  frameNo (extend p cs) = frameNo cs /\ pktTotal (extend p cs) = pktTotal cs
  /\ waitSeq (extend p cs) = u16 (waitSeq cs + 1)
  /\ waitData (extend p cs) = waitData cs ++ piecePayload p
  /\ frameInfo (extend p cs)
     = match pieceInfo p with Some fi => Some fi | None => frameInfo cs end.
Proof. unfold extend. repeat case_match; split_and!; reflexivity. Qed.

Lemma gathers_snoc parts cs p :
  gathers parts cs -> FrameNo (pieceHdr p) = frameNo cs -> PktIdx (pieceHdr p) = waitSeq cs ->
  gathers (parts ++ [p]) (extend p cs).
Proof.
  intros [Hr Hs Hd Hi] Hn Hx. destruct (extend_fields p cs) as (En & _ & Es & Ed & Ei).
  constructor.
  - rewrite En. intros i q [Hq|[Hl Hq]]%lookup_app_Some; [by apply Hr|].
    apply list_lookup_singleton_Some in Hq as [H0 <-]. split; [done|].
    rewrite Hx, Hs. f_equal. unfold len. lia.
  - rewrite Es, Hs, len_app. change (len [p]) with 1. pose proof (len_nonneg parts). ints.
  - rewrite Ed, Hd, map_app, concat_app. cbn. by rewrite app_nil_r.
  - by rewrite Ei, Hi, lastInfo_snoc.
Qed.

(** [handleVideo] in terms of the packet it is given. *)
Definition current (channel : Z) (p : piece) (h : FrameHandler) : channelState :=
  let cs := default zeroChannel (channels h !! channel) in
  if FrameNo (pieceHdr p) =? frameNo cs then cs
  else (reset cs) <| frameNo := FrameNo (pieceHdr p) |> <| pktTotal := PktTotal (pieceHdr p) |>.

Lemma handleVideo_cases taken ch p h :
  handleVideo taken ch (pieceHdr p) (piecePayload p) (pieceInfo p) h =
  let cs := current ch p h in
  if PktIdx (pieceHdr p) =? waitSeq cs then
    let cs := extend p cs in
    if waitSeq cs =? pktTotal cs then
      match frameInfo cs with
      | None => setChannel ch cs h
      | Some fi => completeFrame taken ch cs fi h
      end
    else setChannel ch cs h
  else setChannel ch zeroChannel h.
Proof.
  unfold handleVideo, extend. fold (current ch p h). cbv zeta.
  destruct (_ =? _) eqn:E; [|done]. cbn [negb].
  destruct (negb _) eqn:E1; [apply negb_true_iff in E1|apply negb_false_iff in E1]; by rewrite E1.
Qed.

(** ** Only whole frames leave the handler *)

(** What happens to a handler: a datagram, the reader taking a packet, the end. *)
Inductive event :=
  | EData (taken : nat) (data : bytes)
  | ETake
  | EClose.

Definition step (h : FrameHandler) (e : event) : option FrameHandler :=
  match e with
  | EData taken data => Handle taken data h
  | ETake => Some (h <| output := drop 1 (output h) |>)
  | EClose => Some (Close h)
  end.
Fixpoint run (evs : list event) (h : FrameHandler) : option FrameHandler :=
  match evs with
  | [] => Some h
  | e :: evs => h ← step h e; run evs h
  end.

Definition carried (e : event) : option piece :=
  match e with EData _ data => view data | _ => None end.
(** The packets of a channel, in the order they arrived. *)
Definition pieces (ch : Z) (evs : list event) : list piece :=
  filter (fun p => Channel (pieceHdr p) = ch) (omap carried evs).

Definition is_video (ch : Z) : Prop := ch = ChannelIVideo \/ ch = ChannelPVideo.

Definition whole_frame (parts : list piece) (pkt : Packet) : Prop :=
  exists n fi,
    consecutive n parts /\ parts <> [] /\ announced n (u16 (len parts)) parts
    /\ lastInfo parts = Some fi
    /\ pPayload pkt = concat (map piecePayload parts) /\ pPayload pkt <> []
    /\ (0 < InfoSize fi -> u32 (len (pPayload pkt)) = InfoSize fi)
    /\ pCodec pkt = CodecID fi /\ pIsKeyframe pkt = IsKeyframe fi /\ pFrameNo pkt = InfoNo fi.

Definition stateOf (ch : Z) (h : FrameHandler) : channelState :=
  default zeroChannel (channels h !! ch).

(** Channel states hold the packets that arrived last. *)
Definition gathering (evs : list event) (h : FrameHandler) : Prop :=
  forall ch, is_video ch ->
    exists pre parts, pieces ch evs = pre ++ parts /\ gathers parts (stateOf ch h)
      /\ announced (frameNo (stateOf ch h)) (pktTotal (stateOf ch h)) parts.
Definition vouched (evs : list event) (pkt : Packet) : Prop :=
  pChannel pkt = ChannelAudio
  \/ exists pre parts post,
       pieces (pChannel pkt) evs = pre ++ parts ++ post /\ whole_frame parts pkt.
Definition sound (evs : list event) (h : FrameHandler) : Prop :=
  gathering evs h /\ Forall (vouched evs) (output h).

Lemma pieces_snoc ch evs e :
  pieces ch (evs ++ [e])
  = pieces ch evs ++ match carried e with
                     | Some p => if decide (Channel (pieceHdr p) = ch) then [p] else []
                     | None => []
                     end.
Proof.
  unfold pieces. rewrite omap_app, filter_app. cbn.
  destruct (carried e) as [p|]; [|done]. by rewrite filter_cons, filter_nil.
Qed.

Lemma vouched_snoc evs e pkt : vouched evs pkt -> vouched (evs ++ [e]) pkt.
Proof.
  intros [H|(pre & parts & post & Hp & Hw)]; [by left|right].
  exists pre, parts. rewrite pieces_snoc, Hp. eexists. by rewrite <-!app_assoc.
Qed.
Lemma all_vouched_snoc evs e l : Forall (vouched evs) l -> Forall (vouched (evs ++ [e])) l.
Proof. intros H. eapply Forall_impl; [exact H|]. intros. by apply vouched_snoc. Qed.

Lemma queue_output taken pkt h :
  exists keep, (keep = output h \/ exists k, keep = drop k (output h))
    /\ (output (queue taken pkt h) = keep \/ output (queue taken pkt h) = keep ++ [pkt]).
Proof.
  unfold queue. destruct (closed h); [by eauto|]. destruct (_ <? _); [by eauto|].
  rewrite drop_drop. eexists. split; [right; by eexists|]. cbn [output].
  destruct (_ <? _); cbn; auto.
Qed.
Lemma queue_forall (P : Packet -> Prop) taken pkt h :
  Forall P (output h) -> P pkt -> Forall P (output (queue taken pkt h)).
Proof.
  intros Ho Hp. destruct (queue_output taken pkt h) as (keep & Hk & Hq).
  assert (Forall P keep) by (destruct Hk as [->|[k ->]]; auto using Forall_drop).
  destruct Hq as [->| ->]; [done|]. apply Forall_app; auto.
Qed.
Lemma queue_channels taken pkt h : channels (queue taken pkt h) = channels h.
Proof. unfold queue. by split_cases. Qed.

Lemma stateOf_set ch ch' cs h :
  stateOf ch (setChannel ch' cs h) = if decide (ch' = ch) then cs else stateOf ch h.
Proof.
  unfold stateOf, setChannel. cbn. case_decide; subst; by simplify_map_eq.
Qed.

(** The queue keeps to its capacity, and the newest packet is always in it. *)
Lemma queue_newest taken pkt h :
  closed h = false -> len (output h) <= outputCap ->
  exists k, output (queue taken pkt h) = drop k (output h) ++ [pkt]
    /\ len (output (queue taken pkt h)) <= outputCap.
Proof.
  intros Hc Hl. unfold queue. rewrite Hc. unfold outputCap in *.
  destruct (Z.ltb_spec (len (output h)) 128).
  - exists 0%nat. cbn. rewrite len_app. change (len [pkt]) with 1. split; [done|lia].
  - rewrite drop_drop. assert (len (drop (taken + 1) (output h)) < 128) as Hd
      by (unfold len in *; rewrite length_drop; lia).
    exists (taken + 1)%nat. cbn [output]. rewrite (proj2 (Z.ltb_lt _ _) Hd). cbn.
    rewrite len_app. change (len [pkt]) with 1. split; [done|lia].
Qed.

(** What a step leaves of a channel it does not touch. *)
Lemma gathering_quiet evs e h h' ch :
  (forall p, carried e = Some p -> Channel (pieceHdr p) <> ch) ->
  stateOf ch h' = stateOf ch h -> is_video ch -> gathering evs h ->
  exists pre parts, pieces ch (evs ++ [e]) = pre ++ parts /\ gathers parts (stateOf ch h')
    /\ announced (frameNo (stateOf ch h')) (pktTotal (stateOf ch h')) parts.
Proof.
  intros Hq -> Hv Hg. rewrite pieces_snoc.
  destruct (carried e) as [p|]; [rewrite decide_False by eauto|]; rewrite app_nil_r; by apply Hg.
Qed.

Lemma sound_quiet evs e h h' :
  (forall p, carried e = Some p -> ~ is_video (Channel (pieceHdr p))) ->
  channels h' = channels h -> Forall (vouched (evs ++ [e])) (output h') ->
  gathering evs h -> sound (evs ++ [e]) h'.
Proof.
  intros Hq Hc Ho Hg. split; [|done]. intros ch Hv.
  eapply gathering_quiet; [|by unfold stateOf; rewrite Hc|done..].
  intros p Hp Hc'. apply (Hq p Hp). by rewrite Hc'.
Qed.

Lemma gathers_current parts ch p h :
  gathers parts (stateOf ch h) ->
  announced (frameNo (stateOf ch h)) (pktTotal (stateOf ch h)) parts ->
  exists drop parts', parts = drop ++ parts' /\ gathers parts' (current ch p h)
    /\ FrameNo (pieceHdr p) = frameNo (current ch p h)
    /\ announced (frameNo (current ch p h)) (pktTotal (current ch p h)) (parts' ++ [p]).
Proof.
  intros Hg Ha. unfold current. fold (stateOf ch h).
  destruct (Z.eqb_spec (FrameNo (pieceHdr p)) (frameNo (stateOf ch h))) as [He|He].
  - exists [], parts. split_and!; [done|done|done|]. destruct parts; cbn [app announced] in *; auto.
  - exists parts, []. rewrite app_nil_r. split_and!; [done|by apply gathers_none|reflexivity|].
    cbn. by left.
Qed.

Lemma completeFrame_sound evs e taken ch cs fi h p pre parts :
  is_video ch -> carried e = Some p -> Channel (pieceHdr p) = ch ->
  pieces ch (evs ++ [e]) = pre ++ parts -> gathers parts cs -> parts <> [] ->
  announced (frameNo cs) (pktTotal cs) parts -> waitSeq cs = pktTotal cs ->
  frameInfo cs = Some fi -> sound evs h ->
  sound (evs ++ [e]) (completeFrame taken ch cs fi h).
Proof.
  intros Hv He Hch Hp [Hr Hs Hd Hi] Hne Ha Ht Hfi [Hg Ho].
  assert (forall h', channels h' = channels h -> Forall (vouched (evs ++ [e])) (output h') ->
            sound (evs ++ [e]) (setChannel ch zeroChannel h')) as Hset.
  { intros h' Hc Ho'. split; [|done]. intros ch' Hv'.
    destruct (decide (ch = ch')) as [<-|Hn].
    - exists (pieces ch (evs ++ [e])), []. rewrite app_nil_r, stateOf_set, decide_True by done.
      split_and!; [done|by apply gathers_none|done..].
    - eapply gathering_quiet; [intros p' Hp'; by simplify_eq| |done..].
      rewrite stateOf_set, decide_False by done. unfold stateOf. by rewrite Hc. }
  unfold completeFrame.
  destruct (_ && _) eqn:E1; [apply Hset; [done|by apply all_vouched_snoc]|].
  destruct (len (waitData cs) =? 0) eqn:E2; [apply Hset; [done|by apply all_vouched_snoc]|].
  destruct (update _ _) as [ts accum]. apply Hset; [by rewrite queue_channels|].
  apply queue_forall; [by apply all_vouched_snoc|]. right. exists pre, parts, [].
  cbn [pChannel]. rewrite app_nil_r. split; [done|]. exists (frameNo cs), fi. cbn.
  rewrite <-Hs, Ht, <-Hi, <-Hd. split_and!; try done.
  - intros Hnil. by rewrite Hnil in E2.
  - intros Hpos. destruct (Z.eqb_spec (u32 (len (waitData cs))) (InfoSize fi)); [done|].
    cbn in E1. lia.
Qed.

Lemma handleVideo_sound evs e taken p h :
  is_video (Channel (pieceHdr p)) -> carried e = Some p -> sound evs h ->
  sound (evs ++ [e])
    (handleVideo taken (Channel (pieceHdr p)) (pieceHdr p) (piecePayload p) (pieceInfo p) h).
Proof.
  intros Hv He Hsd. set (ch := Channel (pieceHdr p)) in *. pose proof Hsd as [Hg Ho].
  destruct (Hg ch Hv) as (pre & parts & Hp & Hgp & Hap).
  destruct (gathers_current parts ch p h Hgp Hap) as (dr & parts' & -> & Hgc & Hn & Hac).
  assert (pieces ch (evs ++ [e]) = (pre ++ dr) ++ parts' ++ [p]) as Hpc.
  { rewrite pieces_snoc, Hp, He, decide_True by done. by rewrite <-!app_assoc. }
  assert (forall cs parts pre, pieces ch (evs ++ [e]) = pre ++ parts -> gathers parts cs ->
            announced (frameNo cs) (pktTotal cs) parts ->
            sound (evs ++ [e]) (setChannel ch cs h)) as Hset.
  { intros cs parts pre' Hp' Hg' Ha'. split; [|by apply all_vouched_snoc]. intros ch' Hv'.
    destruct (decide (ch = ch')) as [<-|Hc].
    - exists pre', parts. by rewrite stateOf_set, decide_True.
    - eapply gathering_quiet; [intros p' Hp''; by simplify_eq| |done..].
      by rewrite stateOf_set, decide_False. }
  rewrite handleVideo_cases. cbv zeta.
  destruct (Z.eqb_spec (PktIdx (pieceHdr p)) (waitSeq (current ch p h))) as [Hx|Hx].
  2: { apply (Hset _ [] (pieces ch (evs ++ [e]))); [by rewrite app_nil_r|by apply gathers_none|done]. }
  pose proof (gathers_snoc _ _ _ Hgc Hn Hx) as Hge.
  destruct (extend_fields p (current ch p h)) as (En & Et & _). rewrite <-En, <-Et in Hac.
  destruct (Z.eqb_spec (waitSeq (extend p (current ch p h))) (pktTotal (extend p (current ch p h)))) as [Hw|Hw];
    [|by eapply Hset].
  destruct (frameInfo (extend p (current ch p h))) as [fi|] eqn:Hfi; [|by eapply Hset].
  eapply completeFrame_sound; try done. by destruct parts'.
Qed.

Lemma handleAudio_channels taken payload fi h : channels (handleAudio taken payload fi h) = channels h.
Proof.
  unfold handleAudio. destruct (_ =? _); [done|]. destruct fi as [fi|]; [|done].
  destruct (if isAAC _ then _ else _). destruct (update _ _). by rewrite queue_channels.
Qed.
Lemma handleAudio_forall (P : Packet -> Prop) taken payload fi h :
  (forall pkt, pChannel pkt = ChannelAudio -> P pkt) -> Forall P (output h) ->
  Forall P (output (handleAudio taken payload fi h)).
Proof.
  intros HP Ho. unfold handleAudio. destruct (_ =? _); [done|]. destruct fi as [fi|]; [|done].
  destruct (if isAAC _ then _ else _). destruct (update _ _). apply queue_forall; auto.
Qed.

Lemma step_sound evs e h : sound evs h -> exists h', step h e = Some h' /\ sound (evs ++ [e]) h'.
Proof.
  intros Hs. pose proof Hs as [Hg Ho]. destruct e as [taken data| |]; cbn [step].
  - rewrite Handle_view. eexists. split; [done|].
    destruct (view data) as [[[hdr payload] fi]|] eqn:Hview.
    2: { apply sound_quiet with h; cbn; [by rewrite Hview|done|by apply all_vouched_snoc|done]. }
    cbn [dispatch]. destruct (Z.eqb_spec (Channel hdr) ChannelAudio) as [Ha|Ha].
    + apply sound_quiet with h; [|apply handleAudio_channels| |done].
      * cbn. rewrite Hview. intros p [= <-]. cbn. rewrite Ha. by intros [?|?].
      * apply handleAudio_forall; [|by apply all_vouched_snoc]. intros; by left.
    + destruct (_ || _) eqn:Hc.
      * apply (handleVideo_sound evs (EData taken data) taken (hdr, payload, fi)); [|done..].
        unfold is_video. cbn. lia.
      * apply sound_quiet with h; [|done|by apply all_vouched_snoc|done].
        cbn. rewrite Hview. intros p [= <-]. cbn. unfold is_video. lia.
  - eexists. split; [done|]. apply sound_quiet with h; [done..| |done].
    apply all_vouched_snoc. by apply Forall_drop.
  - eexists. split; [done|]. apply sound_quiet with h; [done..| |done]. by apply all_vouched_snoc.
Qed.

Lemma run_sound evs' evs h :
  sound evs h -> exists h', run evs' h = Some h' /\ sound (evs ++ evs') h'.
Proof.
  revert evs h. induction evs' as [|e evs' IH]; intros evs h Hs; cbn.
  - rewrite app_nil_r. eauto.
  - destruct (step_sound evs e h Hs) as (h1 & -> & Hs1). cbn.
    destruct (IH _ _ Hs1) as (h' & Hr & Hs'). exists h'. by rewrite <-app_assoc in Hs'.
Qed.

(** C12. Whatever datagrams arrive, handling them never panics, and every video packet that
    waits in the queue is a whole frame: packets of one frame number that arrived one
    after the other on their channel, from index 0 on, as many as the first one
    announced (modulo 65536; frame 0 may go without an announcement), their payloads
    joined, of the size the frame information gives. *)
Theorem delivered_frames_whole evs :
  exists h, run evs NewFrameHandler = Some h
    /\ forall pkt, pkt ∈ output h -> pChannel pkt <> ChannelAudio ->
         exists pre parts post,
           pieces (pChannel pkt) evs = pre ++ parts ++ post /\ whole_frame parts pkt.
Proof.
  destruct (run_sound evs [] NewFrameHandler) as (h & Hr & _ & Ho).
  - split; [|by constructor]. intros ch _. exists [], []. unfold stateOf. cbn. rewrite lookup_empty.
    split_and!; [done|by apply gathers_none|done..].
  - exists h. split; [done|]. intros pkt Hp Ha. rewrite Forall_forall in Ho.
    destruct (Ho pkt Hp) as [|Hv]; [done|exact Hv].
Qed.

(** ** A frame whose packets all arrive *)

Lemma run_views taken ds parts h :
  map view ds = map Some parts ->
  run (map (EData taken) ds) h = Some (foldl (fun h p => dispatch taken p h) h parts).
Proof.
  revert ds h. induction parts as [|p parts IH]; intros [|d ds] h Hv; try done.
  cbn in Hv. injection Hv as Hd Hds. cbn. rewrite Handle_view, Hd. by apply IH.
Qed.

Lemma dispatch_video taken p h :
  is_video (Channel (pieceHdr p)) ->
  dispatch taken p h
  = handleVideo taken (Channel (pieceHdr p)) (pieceHdr p) (piecePayload p) (pieceInfo p) h.
Proof.
  destruct p as [[hdr payload] fi]. unfold is_video, pieceHdr, dispatch. cbn.
  intros [-> | ->]; reflexivity.
Qed.

(** The packet a whole frame becomes. *)
Definition frame_packet (ch : Z) (parts : list piece) (fi : FrameInfo) (h : FrameHandler) : Packet :=
  mkPacket ch (CodecID fi) (u32 (u64 ((update (videoTS h) (Timestamp fi)).2 * 90000) / 1000000))
    (concat (map piecePayload parts)) (IsKeyframe fi) (InfoNo fi) 0 0.

(** The packets of a frame: what makes it complete and deliverable. *)
Record frame_of (ch n : Z) (parts : list piece) (fi : FrameInfo) : Prop := {
  f_channel : Forall (fun p => Channel (pieceHdr p) = ch) parts;
  f_run : consecutive n parts;
  f_total : exists p rest, parts = p :: rest /\ PktTotal (pieceHdr p) = len parts;
  f_len : len parts < 65536;
  f_info : lastInfo parts = Some fi;
  f_data : concat (map piecePayload parts) <> [];
  f_size : 0 < InfoSize fi -> u32 (len (concat (map piecePayload parts))) = InfoSize fi;
}.

Definition ready (h : FrameHandler) : Prop := closed h = false /\ len (output h) < outputCap.

Lemma completeFrame_exact taken ch parts cs fi h :
  gathers parts cs -> ready h -> concat (map piecePayload parts) <> [] ->
  (0 < InfoSize fi -> u32 (len (concat (map piecePayload parts))) = InfoSize fi) ->
  completeFrame taken ch cs fi h
  = setChannel ch zeroChannel
      (h <| videoTS := (update (videoTS h) (Timestamp fi)).1 |>
         <| output := output h ++ [frame_packet ch parts fi h] |>).
Proof.
  intros [Hr Hs Hd Hi] [Hc Ho] Hne Hsz. unfold completeFrame. rewrite Hd.
  destruct (_ && _) eqn:E1.
  { apply andb_true_iff in E1 as [Hp Hn]. rewrite (Hsz ltac:(lia)), Z.eqb_refl in Hn. done. }
  destruct (len _ =? 0) eqn:E2.
  { apply Z.eqb_eq in E2. destruct Hne. apply nil_length_inv. unfold len in E2. lia. }
  unfold frame_packet. destruct (update _ _) as [ts accum]. cbn [fst snd].
  unfold queue. cbn. rewrite Hc. by rewrite (proj2 (Z.ltb_lt _ _) Ho).
Qed.

Lemma frame_rest taken ch n fi rest : forall pre p h,
  frame_of ch n (pre ++ p :: rest) fi -> is_video ch -> ready h ->
  gathers pre (current ch p h) -> frameNo (current ch p h) = n ->
  pktTotal (current ch p h) = len (pre ++ p :: rest) ->
  exists h', foldl (fun h p => dispatch taken p h) h (p :: rest) = h'
    /\ output h' = output h ++ [frame_packet ch (pre ++ p :: rest) fi h]
    /\ closed h' = false /\ stateOf ch h' = zeroChannel
    /\ forall ch', ch' <> ch -> stateOf ch' h' = stateOf ch' h.
Proof.
  induction rest as [|q rest IH]; intros pre p h Hfo Hv Hrd Hg Hn Hp;
    pose proof Hfo as [Hch Hr Ht Hl Hi Hd Hsz]; cbn [foldl]; assert (Channel (pieceHdr p) = ch) as Hc by
      (rewrite Forall_forall in Hch; apply Hch, elem_of_app; right; left);
    (rewrite (dispatch_video taken p h) by (by rewrite Hc)); rewrite Hc, (handleVideo_cases taken ch p h); cbv zeta;
    (assert (PktIdx (pieceHdr p) = waitSeq (current ch p h)) as Hx by
       (rewrite (g_seq _ _ Hg); unfold len; apply (Hr (length pre) p), list_lookup_middle; done));
    (assert (FrameNo (pieceHdr p) = n) as Hno by
       (apply (Hr (length pre) p), list_lookup_middle; done));
    rewrite (proj2 (Z.eqb_eq _ _) Hx);
    pose proof (gathers_snoc _ _ p Hg ltac:(congruence) Hx) as Hg';
    destruct (extend_fields p (current ch p h)) as (En & Et & _);
    rewrite Et, Hp, (g_seq _ _ Hg'), !len_app, !len_cons in *; change (len []) with 0 in *;
    pose proof (len_nonneg pre).
  - rewrite u16_small by (unfold is_u16; lia). rewrite Z.eqb_refl, (g_info _ _ Hg'), Hi.
    rewrite (completeFrame_exact taken ch (pre ++ [p])) by done.
    eexists. split; [done|]. split_and!; [done|by destruct Hrd|by rewrite stateOf_set, decide_True|].
    intros ch' Hne. by rewrite stateOf_set, decide_False.
  - pose proof (len_nonneg rest).
    rewrite u16_small by (unfold is_u16; lia).
    destruct (Z.eqb_spec (len pre + (0 + 1)) (len pre + (len rest + 1 + 1))); [lia|].
    set (h1 := setChannel ch (extend p (current ch p h)) h).
    assert (current ch q h1 = extend p (current ch p h)) as Hcur.
    { unfold current at 1. fold (stateOf ch h1). unfold h1.
      rewrite stateOf_set, decide_True by done. rewrite En, Hn.
      assert (FrameNo (pieceHdr q) = n) as ->; [|by rewrite Z.eqb_refl].
      apply (Hr (S (length pre)) q). rewrite cons_middle, app_assoc.
      apply list_lookup_middle. rewrite length_app. cbn. lia. }
    destruct (IH (pre ++ [p]) q h1) as (h' & Hf & Ho & Hcl & Hz & Hoth).
    + by rewrite <-app_assoc.
    + done.
    + done.
    + by rewrite Hcur.
    + by rewrite Hcur, En.
    + rewrite Hcur, Et, !len_app, !len_cons. change (len []) with 0. lia.
    + exists h'. rewrite <-app_assoc in Ho. split_and!; [exact Hf|exact Ho|done..|].
      intros ch' Hne. rewrite Hoth by done. unfold h1. by rewrite stateOf_set, decide_False.
Qed.

(** The packets of one video frame, arriving in order at a handler that is not in the
    middle of a frame of that number, come out as one packet with the frame's bytes,
    codec, number and key frame flag; the channel is ready for the next frame and the
    other channels are as before. *)
Theorem frame_delivered taken ch n ds parts fi h :
  map view ds = map Some parts -> frame_of ch n parts fi -> is_video ch -> ready h ->
  n <> frameNo (stateOf ch h) ->
  exists h', run (map (EData taken) ds) h = Some h'
    /\ output h' = output h ++ [frame_packet ch parts fi h]
    /\ closed h' = false /\ stateOf ch h' = zeroChannel
    /\ forall ch', ch' <> ch -> stateOf ch' h' = stateOf ch' h.
Proof.
  intros Hv Hf Hvid Hr Hn. rewrite (run_views _ _ _ _ Hv).
  destruct (f_total _ _ _ _ Hf) as (p & rest & Hparts & Ht). subst parts.
  assert (FrameNo (pieceHdr p) = n) as Hno by (by apply (f_run _ _ _ _ Hf 0%nat)).
  assert (current ch p h
          = (reset (stateOf ch h)) <| frameNo := n |> <| pktTotal := PktTotal (pieceHdr p) |>) as Hc.
  { unfold current. fold (stateOf ch h). rewrite Hno. by rewrite (proj2 (Z.eqb_neq _ _) Hn). }
  assert (gathers [] (current ch p h)) as Hg by (rewrite Hc; by apply gathers_none).
  destruct (frame_rest taken ch n fi rest [] p h) as (h' & Hh & H');
    [done..|by rewrite Hc|by rewrite Hc|].
  exists h'. rewrite Hh. split; [done|exact H'].
Qed.

(** A frame of three packets, the middle one a continuation, on a handler in use. *)
Definition header28 (ty idx total size no : Z) : bytes :=
  [5; ty; 0; 0; 0; 0; 0; 0; 0; 0; 0; 0] ++ le16 total ++ le16 idx ++ le16 size ++ zeros 6 ++ le32 no.
Definition demoInfo : bytes :=
  [0x4E; 0; 1; 0; 1; 20; 4; 100] ++ le32 50000 ++ le32 77 ++ le32 7 ++ le32 12 ++ zeros 16.
Definition demoDatagrams : list bytes :=
  [header28 0 0 3 2 9 ++ [101; 102]; header28 4 1 3 3 9 ++ [103; 104; 105];
   header28 5 0x28 3 2 9 ++ [106; 107] ++ demoInfo].
Definition demoPieces : list piece := omap view demoDatagrams.
Definition demoFrameInfo : FrameInfo := mkFrameInfo 0x4E 1 0 1 20 4 100 50000 77 7 12.

Lemma frame_delivered_witness :
  map view demoDatagrams = map Some demoPieces
  /\ exists h', run (map (EData 0) demoDatagrams) NewFrameHandler = Some h'
       /\ output h' = [mkPacket 5 0x4E 0 [101; 102; 103; 104; 105; 106; 107] true 12 0 0]
       /\ closed h' = false /\ stateOf 5 h' = zeroChannel
       /\ forall ch', ch' <> 5 -> stateOf ch' h' = stateOf ch' NewFrameHandler.
Proof.
  split; [vm_compute; reflexivity|].
  refine (frame_delivered 0 5 9 demoDatagrams demoPieces demoFrameInfo NewFrameHandler _ _ _ _ _).
  - vm_compute; reflexivity.
  - constructor.
    + repeat constructor.
    + intros [|[|[|i]]] p Hp; vm_compute in Hp; try injection Hp as <-; try discriminate Hp;
        vm_compute; split; reflexivity.
    + eexists _, _. split; [vm_compute; reflexivity|vm_compute; reflexivity].
    + vm_compute; reflexivity.
    + vm_compute; reflexivity.
    + vm_compute; discriminate.
    + intros _. vm_compute; reflexivity.
  - by left.
  - split; vm_compute; reflexivity.
  - vm_compute; discriminate.
Defined.

(** ** The clock *)

(** The camera's time stamps start over every second. *)
Definition rawOf (t : Z) : Z := t mod tsWrapPeriod.

Fixpoint paced (t : Z) (ts : list Z) : Prop :=
  match ts with
  | [] => True
  | t' :: ts => t <= t' < t + tsWrapPeriod /\ paced t' ts
  end.

Definition follow (t : tsTracker) (raws : list Z) : tsTracker :=
  foldl (fun t raw => (update t raw).1) t raws.

Lemma update_step t t' acc :
  0 <= t -> t <= t' < t + tsWrapPeriod -> is_u64 acc ->
  update (mkTs (rawOf t) acc true) (rawOf t')
  = (mkTs (rawOf t') (u64 (acc + (t' - t))) true, u64 (acc + (t' - t))).
Proof.
  intros Ht Hp Ha. unfold update. cbn [firstTS negb lastRawTS accumUS].
  enough ((if rawOf t <=? rawOf t' then rawOf t' - rawOf t
           else u32 (u32 (tsWrapPeriod - rawOf t) + rawOf t')) = t' - t) as -> by done.
  unfold rawOf, tsWrapPeriod, u32 in *. Z.to_euclidean_division_equations.
  destruct (Z.leb_spec r r0); nia.
Qed.

(** As long as less than a second passes from one frame to the next, the accumulated
    time is the time that passed since the first frame, whatever the time stamps did. *)
Theorem clock_unwraps t0 ts t :
  0 <= t0 -> paced t0 (ts ++ [t]) -> t - t0 < 18446744073709551616 ->
  let clock := follow (mkTs 0 0 false) (map rawOf (t0 :: ts)) in
  (update clock (rawOf t)).2 = t - t0.
Proof.
  intros H0 Hp Ht. cbn zeta. unfold follow. cbn [map foldl].
  change ((update (mkTs 0 0 false) (rawOf t0)).1) with (mkTs (rawOf t0) 0 true).
  replace 0 with (u64 (t0 - t0)) by (rewrite Z.sub_diag; reflexivity).
  assert (forall ts t1, t0 <= t1 -> paced t1 (ts ++ [t]) ->
            (update (foldl (fun t raw => (update t raw).1) (mkTs (rawOf t1) (u64 (t1 - t0)) true)
                       (map rawOf ts)) (rawOf t)).2 = u64 (t - t0)) as Hgen.
  { clear Hp. intros ts'. induction ts' as [|t2 ts' IH]; cbn [app paced map foldl];
      intros t1 H1 [Hp1 Hp]; rewrite update_step by (done || lia || apply u64_bound); cbn [fst snd].
    - unfold u64. rewrite Zplus_mod_idemp_l. f_equal. lia.
    - rewrite <-(IH t2) by (done || lia). do 4 f_equal.
      unfold u64. rewrite Zplus_mod_idemp_l. f_equal. lia. }
  rewrite Hgen by (done || lia). apply u64_small. unfold is_u64.
  assert (forall ts t1, paced t1 (ts ++ [t]) -> t1 <= t) as Hmon; [|specialize (Hmon _ _ Hp); lia].
  clear. intros ts. induction ts as [|t2 ts IH]; cbn [app paced]; intros t1 [? Hp]; [lia|].
  specialize (IH _ Hp). lia.
Qed.
Lemma clock_unwraps_witness :
  paced 950000 [1000000; 1050000; 2000000]
  /\ (update (follow (mkTs 0 0 false) (map rawOf [950000; 1000000; 1050000])) (rawOf 2000000)).2
     = 1050000.
Proof.
  assert (paced 950000 [1000000; 1050000; 2000000]) as Hp
    by (cbn; unfold tsWrapPeriod; repeat split; lia).
  split; [exact Hp|].
  exact (clock_unwraps 950000 [1000000; 1050000] 2000000 ltac:(lia) Hp ltac:(lia)).
Defined.

(** ** Frame 0

    A channel that is between frames counts as being at frame 0 with no packets
    announced, so the total of a frame with number 0 is not looked at and the frame is
    never complete. *)
Lemma frame_zero_lost :
  let ds := [header28 1 0x28 1 2 0 ++ [101; 102] ++ demoInfo] in
  (exists p, map view ds = [Some p] /\ PktTotal (pieceHdr p) = 1 /\ PktIdx (pieceHdr p) = 0)
  /\ output <$> run (map (EData 0) ds) NewFrameHandler = Some [].
Proof. split; [eexists; split; [vm_compute; reflexivity|by split]|vm_compute; reflexivity]. Qed.
