(* ===== verification/TutkSession.v ===== *)
(** Sessions of the cameras that speak [tutk] over UDP ([pkg/tutk]): the messages
    ([helpers.go], [session0.go]), the session of protocol 16 and older
    ([session16.go]), the one of protocol 25 with its reorder buffer ([session25.go]),
    and the connection that reads datagrams and hands them to the session ([conn.go]).
    [None] is a run-time panic. *)

From S2P Require Import Prelude Text Crypto.

(** ** Stores into a message *)

(** [b[off] = v], or a store of [encoding/binary]. *)
Definition put (off : Z) (src p : bytes) : option bytes :=
  if (0 <=? off) && (off + len src <=? len p) then Some (blit (Z.to_nat off) src p) else None.
(** [copy(b[off:], src)]. *)
Definition copyAt (off : Z) (src p : bytes) : option bytes :=
  if (0 <=? off) && (off <=? len p) then Some (blit (Z.to_nat off) src p) else None.
Definition make (size : Z) : bytes := zeros (Z.to_nat size).

Definition magic : bytes := [0x04; 0x02; 0x19].
Definition sdkVersion : bytes := [0x06; 0x00; 0x03; 0x03].

(** ** Messages ([helpers.go], [session0.go]) *)

Definition GenSessionID (now : Z) : bytes := le64 (u64 now).

(** The count is a byte, and so is the length of the message. *)
Definition ICAM (cmd : Z) (args : bytes) : option bytes :=
  let n := u8 (len args) in
  let b := make (u8 (23 + n)) in
  b ← copyAt 0 (str "ICAM") b;
  b ← put 4 (le32 cmd) b;
  b ← put 15 [n] b;
  copyAt 23 args b.

Definition HL (cmdID : Z) (payload : bytes) : option bytes :=
  let b := make (16 + len payload) in
  b ← copyAt 0 (str "HL") b;
  b ← put 2 [5] b;
  b ← put 4 (le16 cmdID) b;
  b ← put 6 (le16 (u16 (len payload))) b;
  copyAt 16 payload b.

(** [16+payloadLen] is computed in 16 bits. *)
Definition ParseHL (data : bytes) : option (Z * bytes * bool) :=
  if len data <? 16 then Some (0, [], false) else
  b0 ← rd data 0; b1 ← rd data 1;
  if negb ((b0 =? 72) && (b1 =? 76)) then Some (0, [], false) else
  cmdID ← rd16 data 4;
  payloadLen ← rd16 data 6;
  if 16 + payloadLen <=? len data
  then payload ← sub data 16 (u16 (16 + payloadLen)); Some (cmdID, payload, true)
  else if 16 <? len data
  then payload ← sub data 16 (len data); Some (cmdID, payload, true)
  else Some (cmdID, [], true).

Fixpoint findLoop (fuel : nat) (data : bytes) (i : Z) : option (option bytes) :=
  match fuel with
  | O => Some None
  | S fuel =>
      if negb (i + 16 <=? len data) then Some None else
      b0 ← rd data i;
      b1 ← (if b0 =? 72 then rd data (i + 1) else Some 0);
      if (b0 =? 72) && (b1 =? 76)
      then rest ← sub data i (len data); Some (Some rest)
      else findLoop fuel data (i + 1)
  end.
Definition FindHL (data : bytes) (offset : Z) : option (option bytes) :=
  findLoop (S (length data)) data offset.

Definition stageBroadcast : Z := 1.
Definition stageDirect : Z := 2.
Definition stageGetPublicIP : Z := 3.
Definition stageGetRemoteIP : Z := 4.
Definition stageRemoteReq : Z := 5.
Definition stageRemoteAck : Z := 6.
Definition stageRemoteOK : Z := 7.

Definition ConnectByUID (stage : Z) (uid sid8 : bytes) : option bytes :=
  b ← (if (stage =? stageBroadcast) || (stage =? stageDirect) then
         b ← copyAt 8 [0x01; 0x06; 0x21] (make 68);
         b ← copyAt 52 sdkVersion b;
         b ← copyAt 56 sid8 b;
         put 64 [stage] b
       else if stage =? stageGetPublicIP then copyAt 8 [0x07; 0x10; 0x18] (make 54)
       else if stage =? stageGetRemoteIP then
         b ← copyAt 8 [0x03; 0x02; 0x34] (make 112);
         b ← copyAt 100 sid8 b;
         put 108 [stageDirect] b
       else if stage =? stageRemoteReq then
         b ← copyAt 8 [0x01; 0x04; 0x33] (make 52);
         b ← copyAt 36 sid8 b;
         copyAt 48 sdkVersion b
       else if stage =? stageRemoteAck then
         b ← copyAt 8 [0x02; 0x04; 0x33] (make 44);
         copyAt 36 sid8 b
       else if stage =? stageRemoteOK then
         b ← copyAt 8 [0x04; 0x04; 0x33] (make 52);
         b ← copyAt 36 sid8 b;
         copyAt 48 sdkVersion b
       else Some []);
  b ← copyAt 0 magic b;
  b ← put 3 [0x02] b;
  b ← put 4 (le16 (u16 (u16 (len b) - 16))) b;
  copyAt 16 uid b.

(** ** The session of protocol 16 ([session16.go]) *)

Inductive msgType :=
  | msgUnknown
  | msgError
  | msgPing
  | msgUnknownPing
  | msgClientStart
  | msgClientStart2
  | msgClientStartAck2
  | msgCommand
  | msgCommandAck
  | msgCounters
  | msgMediaChunk
  | msgMediaFrame
  | msgMediaReorder
  | msgMediaLost
  | msgCh5
  | msgUnknown0007
  | msgUnknown0008
  | msgUnknown0010
  | msgUnknown0013
  | msgUnknown0900
  | msgUnknown0a08
  | msgUnknownCh1c
  | msgDafang0012.
#[export] Instance msgType_dec : EqDecision msgType.
Proof. solve_decision. Defined.

(** What waits in [rawCmd]: a copy, or the part of the connection's read buffer from
    one offset to another. *)
Inductive cmdRef :=
  | Copied (data : bytes)
  | Shared (from to : Z).

(** [sent] are the messages handed to [conn.Write]. *)
Record Session16 := mkSession16 {
  sid16 : bytes;
  rawCmd : list cmdRef;
  rawPkt : list (bytes * bytes);
  chClosed : bool;
  seqSendCh0 : Z;
  seqSendCh1 : Z;
  seqSendCmd1 : Z;
  seqSendAud : Z;
  waitFSeq : Z;
  waitCSeq : Z;
  waitSize : Z;
  waitData : bytes;
  sent : list bytes;
}.
#[export] Instance eta_Session16 : Eta Session16 := fun s =>
  mkSession16 (sid16 s) (rawCmd s) (rawPkt s) (chClosed s) (seqSendCh0 s) (seqSendCh1 s)
    (seqSendCmd1 s) (seqSendAud s) (waitFSeq s) (waitCSeq s) (waitSize s) (waitData s) (sent s).

Definition rawCmdCap : Z := 10.
Definition rawPktCap : Z := 100.

Definition NewSession16 (sid8 : bytes) : option Session16 :=
  sid16 ← copyAt 8 sid8 (make 16);
  first ← sub sid8 0 2;
  sid16 ← copyAt 0 first sid16;
  sid16 ← put 4 [0x0c] sid16;
  Some (mkSession16 sid16 [] [] false 0 0 0 0 0 0 0 [] []).

Definition Close (s : Session16) : option Session16 :=
  if chClosed s then None else Some (s <| chClosed := true |>).

Definition Msg (size : Z) (s : Session16) : option bytes :=
  b ← copyAt 0 magic (make size);
  b ← put 3 [0x0a] b;
  b ← put 4 (le16 (u16 (size - 16))) b;
  b ← copyAt 8 [0x07; 0x04; 0x21] b;
  copyAt 12 (sid16 s) b.

Definition msgHhrSize : Z := 28.
Definition cmdHdrSize : Z := 24.

(** [now] is the clock in milliseconds. *)
Definition ClientStart (i : Z) (username password : bytes) (now : Z) (s : Session16)
    : option bytes :=
  let size := 566 + 32 in
  msg ← Msg size s;
  msg ← copyAt 28 [0x00; 0x00; 0x0b; 0x00] msg;
  msg ← put (28 + 16) (le16 (size - 52)) msg;
  msg ← (if i =? 0 then put (28 + 18) [1] msg else put (28 + 1) [0x20] msg);
  msg ← put (28 + 20) (le32 (u32 now)) msg;
  msg ← copyAt (28 + 24) username msg;
  msg ← copyAt (28 + 24 + 257) password msg;
  msg ← put (28 + 24 + 514 + 4) [4] msg;
  msg ← copyAt (28 + 24 + 514 + 8) [0xfb; 0x07; 0x1f; 0x00] msg;
  put (28 + 24 + 514 + 22) [3] msg.

(** Sizes are 16 bits wide. *)
Definition SendIOCtrl (ctrlType : Z) (ctrlData : bytes) (now : Z) (s : Session16)
    : option (bytes * Session16) :=
  let dataSize := u16 (4 + u16 (len ctrlData)) in
  msg ← Msg (u16 (msgHhrSize + cmdHdrSize + dataSize)) s;
  msg ← copyAt 28 [0x00; 0x70; 0x0b; 0x00] msg;
  let s := s <| seqSendCmd1 := u16 (seqSendCmd1 s + 1) |> in
  msg ← put (28 + 4) (le16 (seqSendCmd1 s)) msg;
  msg ← put (28 + 16) (le16 dataSize) msg;
  msg ← put (28 + 20) (le32 (u32 now)) msg;
  msg ← put (28 + 24) (le32 ctrlType) msg;
  msg ← copyAt (28 + 24 + 4) ctrlData msg;
  Some (msg, s).

Definition SendFrameData (frameInfo frameData : bytes) (now : Z) (s : Session16)
    : option (bytes * Session16) :=
  let n := u16 (len frameData) in
  let dataSize := u16 (n + 8 + 32) in
  msg ← Msg (u16 (msgHhrSize + cmdHdrSize + dataSize)) s;
  msg ← copyAt 28 [0x01; 0x03; 0x0b; 0x00] msg;
  msg ← put (28 + 4) (le16 (seqSendAud s)) msg;
  let s := s <| seqSendAud := u16 (seqSendAud s + 1) |> in
  msg ← put (28 + 8) (le16 n) msg;
  msg ← put (28 + 14) [0x28] msg;
  msg ← put (28 + 16) (le16 dataSize) msg;
  msg ← put (28 + 18) (le16 (u16 now)) msg;
  msg ← put (28 + 20) [1] msg;
  msg ← copyAt 52 frameData msg;
  msg ← copyAt (52 + n) (str "ODUA" ++ [0x20; 0; 0; 0]) msg;
  msg ← copyAt (52 + u16 (n + 8)) frameInfo msg;
  Some (msg, s).

(** What a receive from a channel does: it blocks, finds the channel closed and empty,
    or gets something. *)
Inductive received (A : Type) :=
  | Blocks
  | AtEOF
  | Got (a : A).
Arguments Blocks {A}.
Arguments AtEOF {A}.
Arguments Got {A} a.

(** The bytes a queued command has by now; [mem] is the connection's read buffer. *)
Definition deref (mem : bytes) (r : cmdRef) : option bytes :=
  match r with Copied data => Some data | Shared from to => sub mem from to end.

Definition RecvIOCtrl (mem : bytes) (s : Session16) : option (received (Z * bytes) * Session16) :=
  match rawCmd s with
  | [] => Some (if chClosed s then AtEOF else Blocks, s)
  | r :: rest =>
      buf ← deref mem r;
      ctrlType ← rd32 buf 0;
      data ← sub buf 4 (len buf);
      Some (Got (ctrlType, data), s <| rawCmd := rest |>)
  end.
Definition RecvFrameData (s : Session16) : received (bytes * bytes) * Session16 :=
  match rawPkt s with
  | [] => (if chClosed s then AtEOF else Blocks, s)
  | p :: rest => (Got p, s <| rawPkt := rest |>)
  end.

Definition SessionWrite (chID : Z) (buf : bytes) (s : Session16) : option Session16 :=
  '(buf, s) ←
    (if chID =? 0 then
       buf ← put 6 (le16 (seqSendCh0 s)) buf;
       Some (buf, s <| seqSendCh0 := u16 (seqSendCh0 s + 1) |>)
     else if chID =? 1 then
       buf ← put 6 (le16 (seqSendCh1 s)) buf;
       buf ← put 14 [1] buf;
       Some (buf, s <| seqSendCh1 := u16 (seqSendCh1 s + 1) |>)
     else Some (buf, s));
  Some (s <| sent := sent s ++ [buf] |>).

(** [cmd] is the message behind its header, [spare] what the read buffer holds behind
    it: [cmd[a:b]] with a constant [b] reaches into it. *)
Definition cut (cmd spare : bytes) (a b : Z) : option bytes := sub (cmd ++ spare) a b.

Definition msgAck0070 (cmd spare : bytes) (s : Session16) : option bytes :=
  msg ← Msg (msgHhrSize + cmdHdrSize) s;
  msg ← copyAt 28 [0x00; 0x71] msg;
  v ← cut cmd spare 2 6;
  msg ← copyAt (28 + 2) v msg;
  r ← cut cmd spare 20 24;
  copyAt (28 + 20) r msg.

Definition msgAck0012 (cmd : bytes) (s : Session16) : option bytes :=
  msg ← Msg (msgHhrSize + cmdHdrSize + 20) s;
  msg ← copyAt 28 [0x00; 0x13; 0x0b; 0x00] msg;
  msg ← put (28 + 16) [20] msg;
  data ← sub cmd cmdHdrSize (len cmd);
  copyAt (28 + 24) data msg.

Definition msgAck0000 (cmd spare : bytes) (s : Session16) : option bytes :=
  msg ← Msg (msgHhrSize + cmdHdrSize + 32) s;
  msg ← copyAt 28 [0x00; 0x14; 0x0b; 0x00] msg;
  msg ← put (28 + 16) [32] msg;
  r ← cut cmd spare 20 24;
  msg ← copyAt (28 + 20) r msg;
  data ← sub cmd (len cmd - 32) (len cmd);
  copyAt (28 + 24) data msg.

Definition msg0012 (s : Session16) : option bytes :=
  msg ← Msg (msgHhrSize + cmdHdrSize + 12) s;
  msg ← copyAt 28 [0x00; 0x12; 0x0b; 0x00] msg;
  msg ← put (28 + 16) [12] msg;
  msg ← put (28 + 24) [2] msg;
  msg ← put (28 + 24 + 4) [1] msg;
  put (28 + 24 + 9) [1] msg.

Definition msgAck0007 (s : Session16) : option bytes :=
  msg ← Msg (msgHhrSize + 28) s;
  msg ← copyAt 28 [0x01; 0x0a; 0x0b; 0x00] msg;
  put (28 + 20) [1] msg.

Definition msgAck0008 (cmd : bytes) (s : Session16) : option bytes :=
  msg ← Msg (msgHhrSize + 28) s;
  msg ← copyAt 28 [0x01; 0x09; 0x0b; 0x00] msg;
  data ← sub cmd 20 (len cmd);
  copyAt (28 + 20) data msg.

Definition handleCh1 (cmd spare : bytes) (s : Session16) : option (msgType * Session16) :=
  cid ← cut cmd spare 0 2;
  if decide (cid = [0x00; 0x00]) then
    ack ← msgAck0000 cmd spare s; s ← SessionWrite 1 ack s;
    m ← msg0012 s; s ← SessionWrite 1 m s;
    Some (msgClientStart, s)
  else if decide (cid = [0x00; 0x07]) then
    ack ← msgAck0007 s; s ← SessionWrite 1 ack s; Some (msgUnknown0007, s)
  else if decide (cid = [0x00; 0x08]) then
    ack ← msgAck0008 cmd s; s ← SessionWrite 1 ack s; Some (msgUnknown0008, s)
  else if decide (cid = [0x00; 0x13]) then Some (msgUnknown0013, s)
  else Some (msgUnknown, s).

(** Sends with a [default]; a send on a closed channel panics. *)
Definition sendPkt (p : bytes * bytes) (s : Session16) : option (msgType * Session16) :=
  if chClosed s then None else
  if len (rawPkt s) <? rawPktCap then Some (msgMediaFrame, s <| rawPkt := rawPkt s ++ [p] |>)
  else Some (msgError, s).
Definition sendCmd (r : cmdRef) (s : Session16) : option Session16 :=
  if chClosed s then None else
  Some (if len (rawCmd s) <? rawCmdCap then s <| rawCmd := rawCmd s ++ [r] |> else s).

(** The chunks of a frame (command 0103). *)
Definition mediaChunk (cmd : bytes) (s : Session16) : option (msgType * Session16) :=
  frameSeq ← rd16 cmd 4;
  chunkSeq ← rd16 cmd 12;
  start ← (if chunkSeq =? 0 then
             payloadSize ← rd32 cmd 8;
             hdrSize ← rd16 cmd 14;
             Some (Some (s <| waitFSeq := frameSeq |> <| waitCSeq := 0 |> <| waitData := [] |>
                           <| waitSize := hdrSize + payloadSize |>))
           else if negb (frameSeq =? waitFSeq s) || negb (chunkSeq =? waitCSeq s) then Some None
           else Some (Some s));
  match start with
  | None => Some (msgMediaLost, s <| waitCSeq := 0 |>)
  | Some s =>
      data ← sub cmd 24 (len cmd);
      let s := s <| waitData := waitData s ++ data |> in
      if len (waitData s) <? waitSize s
      then Some (msgMediaChunk, s <| waitCSeq := u16 (waitCSeq s + 1) |>) else
      let s := s <| waitCSeq := 0 |> in
      payloadSize ← rd32 cmd 8;
      info ← sub (waitData s) payloadSize (len (waitData s));
      payload ← sub (waitData s) 0 payloadSize;
      sendPkt (info, payload) s
  end.

(** A frame in one message (command 0104). *)
Definition mediaSingle (cmd spare : bytes) (s : Session16) : option (msgType * Session16) :=
  data ← sub cmd 24 (len cmd);
  hdrSize ← rd16 cmd 14;
  info ← sub (data ++ spare) 0 hdrSize;
  payload ← sub data hdrSize (len data);
  sendPkt (info, payload) s.

Definition SessionRead (chID : Z) (cmd spare : bytes) (s : Session16)
    : option (msgType * Session16) :=
  if negb (chID =? 0) then handleCh1 cmd spare s else
  c0 ← rd cmd 0;
  if c0 =? 0x01 then
    c1 ← rd cmd 1;
    if c1 =? 0x03 then mediaChunk cmd s
    else if c1 =? 0x04 then mediaSingle cmd spare s
    else Some (msgUnknown, s)
  else if c0 =? 0x00 then
    c1 ← rd cmd 1;
    if c1 =? 0x70 then
      ack ← msgAck0070 cmd spare s; s ← SessionWrite 0 ack s;
      data ← sub cmd 24 (len cmd);
      s ← sendCmd (Copied data) s;
      Some (msgCommand, s)
    else if c1 =? 0x12 then
      ack ← msgAck0012 cmd s; s ← SessionWrite 0 ack s; Some (msgDafang0012, s)
    else if c1 =? 0x71 then Some (msgCommandAck, s)
    else Some (msgUnknown, s)
  else Some (msgUnknown, s).

(** ** The reorder buffer ([session25.go]) *)

Record ReorderBuffer := mkReorderBuffer { buf : gmap Z bytes; seq : Z; bufSize : Z }.
#[export] Instance eta_ReorderBuffer : Eta ReorderBuffer := fun r =>
  mkReorderBuffer (buf r) (seq r) (bufSize r).

Definition NewReorderBuffer (size : Z) : ReorderBuffer := mkReorderBuffer ∅ 0 size.
Definition RbCheck (s : Z) (r : ReorderBuffer) : bool := s =? seq r.
Definition Next (r : ReorderBuffer) : ReorderBuffer := r <| seq := u16 (seq r + 1) |>.
Definition Available (r : ReorderBuffer) : Z := bufSize r - Z.of_nat (size (buf r)).
Definition Push (s : Z) (data : bytes) (r : ReorderBuffer) : ReorderBuffer :=
  r <| buf := <[s := data]> (buf r) |>.

(** [None] is running out of fuel. *)
Fixpoint popLoop (fuel : nat) (r : ReorderBuffer) : option (option bytes * ReorderBuffer) :=
  match fuel with
  | O => None
  | S fuel =>
      match buf r !! seq r with
      | Some data => Some (Some data, Next (r <| buf := delete (seq r) (buf r) |>))
      | None => if 0 <? Available r then Some (None, r) else popLoop fuel (Next r)
      end
  end.
(** A full buffer has a chunk under one of the 65536 sequence numbers. *)
Definition popFuel : nat := Z.to_nat 65537.
Definition Pop (r : ReorderBuffer) : option (option bytes * ReorderBuffer) := popLoop popFuel r.

(** ** The session of protocol 25 ([session25.go]) *)

Record Session25 := mkSession25 {
  base : Session16;
  rb : ReorderBuffer;
  seqSendCmd2 : Z;
  seqSendCnt : Z;
  seqRecvPkt0 : Z;
  seqRecvPkt1 : Z;
  seqRecvCmd2 : Z;
}.
#[export] Instance eta_Session25 : Eta Session25 := fun s =>
  mkSession25 (base s) (rb s) (seqSendCmd2 s) (seqSendCnt s) (seqRecvPkt0 s) (seqRecvPkt1 s)
    (seqRecvCmd2 s).

Definition cmdHdrSize25 : Z := 28.

Definition NewSession25 (sid : bytes) : option Session25 :=
  base ← NewSession16 sid;
  Some (mkSession25 base (NewReorderBuffer 5) 0 0 0 0 0).

Definition SendIOCtrl25 (ctrlType : Z) (ctrlData : bytes) (s : Session25)
    : option (bytes * Session25) :=
  let size := u16 (msgHhrSize + cmdHdrSize25 + 4 + u16 (len ctrlData)) in
  msg ← Msg size (base s);
  msg ← copyAt 28 [0x00; 0x70; 0x0b; 0x00] msg;
  msg ← put (28 + 4) (le16 (seqSendCmd1 (base s))) msg;
  let s := s <| base := (base s) <| seqSendCmd1 := u16 (seqSendCmd1 (base s) + 1) |> |> in
  msg ← put (28 + 9) [0x70] msg;
  msg ← put (28 + 12) [1] msg;
  msg ← put (28 + 16) (le16 (u16 (size - 52))) msg;
  msg ← put (28 + 10) (le16 (seqSendCmd2 s)) msg;
  msg ← put (28 + 20) (le16 (seqSendCmd2 s)) msg;
  let s := s <| seqSendCmd2 := u16 (seqSendCmd2 s + 1) |> in
  msg ← put (28 + 28) (le32 ctrlType) msg;
  msg ← copyAt (28 + 28 + 4) ctrlData msg;
  Some (msg, s).

Definition SendFrameData25 (frameInfo frameData : bytes) : bytes := [].

(** [Session16.SessionWrite] on the embedded session. *)
Definition write25 (chID : Z) (msg : bytes) (s : Session25) : option Session25 :=
  b ← SessionWrite chID msg (base s); Some (s <| base := b |>).

Definition msgAckCounters (now : Z) (s : Session25) : option (bytes * Session25) :=
  msg ← Msg (msgHhrSize + cmdHdrSize) (base s);
  msg ← copyAt 28 [0x09; 0x00; 0x0b; 0x00] msg;
  msg ← put (28 + 4) (le16 (seqSendCmd1 (base s))) msg;
  let s := s <| base := (base s) <| seqSendCmd1 := u16 (seqSendCmd1 (base s) + 1) |> |> in
  msg ← put (28 + 8) (le16 (seqRecvPkt0 s)) msg;
  let s := s <| seqRecvPkt0 := seqRecvPkt1 s |> in
  msg ← put (28 + 10) (le16 (seqRecvPkt1 s)) msg;
  msg ← put (28 + 12) (le16 (seqRecvCmd2 s)) msg;
  msg ← put (28 + 18) (le16 (seqSendCnt s)) msg;
  let s := s <| seqSendCnt := u16 (seqSendCnt s + 1) |> in
  msg ← put (28 + 20) (le16 (u16 now)) msg;
  Some (msg, s).
Definition ackCounters (now : Z) (s : Session25) : option Session25 :=
  '(msg, s) ← msgAckCounters now s; write25 0 msg s.

Definition msgAck0020 (cmd spare : bytes) (s : Session25) : option bytes :=
  msg ← Msg (msgHhrSize + cmdHdrSize25 + 36) (base s);
  msg ← copyAt 28 [0x00; 0x21; 0x0b; 0x00] msg;
  msg ← put (28 + 16) [36] msg;
  r ← cut cmd spare 20 24;
  msg ← copyAt (28 + 20) r msg;
  msg ← put (56 + 5) [1] msg;
  msg ← put (56 + 7) [1] msg;
  msg ← put (56 + 8) [1] msg;
  msg ← put (56 + 12) [4] msg;
  msg ← copyAt (56 + 16) [0xfb; 0x07; 0x1f; 0x00] msg;
  msg ← put (56 + 30) [3] msg;
  put (56 + 32) [1] msg.

Definition msgAck0A08 (cmd spare : bytes) (s : Session25) : option bytes :=
  msg ← Msg (msgHhrSize + 20) (base s);
  msg ← copyAt 28 [0x0b; 0x00; 0x0b; 0x00] msg;
  v ← cut cmd spare 8 10;
  copyAt (28 + 8) v msg.

Definition handleCh1_25 (cmd spare : bytes) (s : Session25) : option (msgType * Session25) :=
  cid ← cut cmd spare 0 2;
  if decide (cid = [0x00; 0x00]) then Some (msgClientStart, s)
  else if decide (cid = [0x00; 0x07]) then
    ack ← msgAck0007 (base s); s ← write25 1 ack s; Some (msgUnknown0007, s)
  else if decide (cid = [0x00; 0x20]) then
    ack ← msgAck0020 cmd spare s; s ← write25 1 ack s; Some (msgClientStart2, s)
  else if decide (cid = [0x09; 0x00]) then Some (msgUnknown0900, s)
  else if decide (cid = [0x0a; 0x08]) then Some (msgUnknown0a08, s)
  else Some (msgUnknown, s).

(** The second header of a chunk, which the flags place. *)
Definition chunkBody (cmd : bytes) : option bytes :=
  flags ← rd cmd 1;
  if Z.land flags 8 =? 0 then sub cmd 8 (len cmd) else sub cmd 16 (len cmd).

(** What [handleChunk] does to a chunk whose turn it is. *)
Definition acceptChunk (now : Z) (cmd : bytes) (s : Session25) : option (msgType * Session25) :=
  flags ← rd cmd 1;
  cmd2 ← chunkBody cmd;
  sq ← rd16 cmd2 2;
  no ← rd16 cmd2 6;
  count ← (if no =? 0 then Some 1 else rd16 cmd2 4);
  let b := base s in
  let start :=
    if (no =? 0) || (count =? 1) then Some (b <| waitData := [] |> <| waitCSeq := sq |>)
    else if negb (sq =? waitCSeq b) then None else Some b in
  match start with
  | None => Some (msgMediaLost, s)
  | Some b =>
      data ← sub cmd2 20 (len cmd2);
      let b := b <| waitData := waitData b ++ data |> in
      if Z.land flags 1 =? 0
      then Some (msgMediaChunk, s <| base := b <| waitCSeq := u16 (waitCSeq b + 1) |> |>) else
      let s := s <| base := b |> <| seqRecvPkt1 := sq |> in
      s ← ackCounters now s;
      let b := base s in
      let n := len (waitData b) - 32 in
      info ← sub (waitData b) n (len (waitData b));
      payload ← sub (waitData b) 0 n;
      '(r, b) ← sendPkt (info, payload) b;
      Some (r, s <| base := b |>)
  end.

Definition handleChunk (now : Z) (cmd : bytes) (checkSeq : bool) (s : Session25)
    : option (msgType * Session25) :=
  cmd2 ← chunkBody cmd;
  sq ← rd16 cmd2 2;
  if checkSeq then
    if RbCheck sq (rb s) then acceptChunk now cmd (s <| rb := Next (rb s) |>)
    else Some (msgMediaReorder, s <| rb := Push sq cmd (rb s) |>)
  else acceptChunk now cmd s.

(** A chunk, and after it the ones the buffer releases.  The outer [None] is running
    out of fuel, the inner one a panic. *)
Fixpoint chunkLoop (fuel : nat) (now : Z) (cmd : bytes) (first : bool) (s : Session25)
    : option (option (msgType * Session25)) :=
  match fuel with
  | O => None
  | S fuel =>
      match handleChunk now cmd first s with
      | None => Some None
      | Some (res, s) =>
          '(next, r) ← Pop (rb s);
          let s := s <| rb := r |> in
          match next with
          | Some cmd => chunkLoop fuel now cmd false s
          | None => Some (Some (res, s))
          end
      end
  end.
(** Every round but the first takes a chunk out of the buffer. *)
Definition chunkFuel (s : Session25) : nat := S (S (size (buf (rb s)))).

(** [from] is where [cmd] starts in the read buffer. *)
Definition SessionRead25 (now chID from : Z) (cmd spare : bytes) (s : Session25)
    : option (option (msgType * Session25)) :=
  if negb (chID =? 0) then Some (handleCh1_25 cmd spare s) else
  match rd cmd 0 with
  | None => Some None
  | Some c0 =>
      if (c0 =? 0x03) || (c0 =? 0x05) || (c0 =? 0x07)
      then chunkLoop (chunkFuel s) now cmd true s
      else Some (
        if c0 =? 0x00 then
          s ← ackCounters now s;
          sq ← rd16 cmd 2;
          let s := s <| seqRecvCmd2 := sq |> in
          c1 ← rd cmd 1;
          if c1 =? 0x10 then Some (msgUnknown0010, s)
          else if c1 =? 0x21 then Some (msgClientStartAck2, s)
          else if c1 =? 0x70 then
            _ ← sub cmd 28 (len cmd);
            b ← sendCmd (Shared (from + 28) (from + len cmd)) (base s);
            Some (msgCommand, s <| base := b |>)
          else if c1 =? 0x71 then Some (msgCommandAck, s)
          else Some (msgUnknown, s)
        else if c0 =? 0x09 then
          sq ← rd16 cmd 12;
          Some (if sq <? seqSendCmd1 (base s) then (msgCommandAck, s) else (msgCounters, s))
        else if c0 =? 0x0a then
          ack ← msgAck0A08 cmd spare s; s ← write25 0 ack s; Some (msgUnknown0a08, s)
        else Some (msgUnknown, s))
  end.

(** ** The connection ([conn.go]) *)

Inductive session :=
  | S16 (s : Session16)
  | S25 (s : Session25).

Definition sessionBase (s : session) : Session16 :=
  match s with S16 b => b | S25 s => base s end.
Definition onBase (f : Session16 -> option Session16) (s : session) : option session :=
  match s with
  | S16 b => S16 <$> f b
  | S25 s => b ← f (base s); Some (S25 (s <| base := b |>))
  end.

(** [mem] is the worker's read buffer, [answers] what the connection wrote by itself,
    [acks] counts the calls of [cmdAck]. *)
Record Conn := mkConn {
  mem : bytes;
  addrIP : bytes;
  addrPort : Z;
  theSession : session;
  answers : list bytes;
  acks : Z;
  connDown : bool;
}.
#[export] Instance eta_Conn : Eta Conn := fun c =>
  mkConn (mem c) (addrIP c) (addrPort c) (theSession c) (answers c) (acks c) (connDown c).

Definition bufferSize : Z := 1200.

(** One datagram of the socket: source and bytes. *)
Record datagram := mkDatagram { srcIP : bytes; srcPort : Z; raw : bytes }.

(** [Read] for one datagram: [None] is one that is skipped, otherwise the length. *)
Definition Read (d : datagram) (c : Conn) : Conn * option Z :=
  let data := take (length (mem c)) (raw d) in
  let c := c <| mem := data ++ drop (length data) (mem c) |> in
  let n := len data in
  if negb (bool_decide (addrIP c = srcIP d)) || (n <? 16) then (c, None) else
  let c := c <| addrPort := srcPort d |> in
  (c <| mem := ReverseTransCodePartial (mem c) data |>, Some n).

Definition msgAckPing (m : bytes) : bytes := <[10%nat := 0x21]> (<[8%nat := 0x27]> m).
Definition msgAckCh5 (m : bytes) : bytes :=
  <[32%nat := 0x41]> (<[10%nat := 0x21]> (<[8%nat := 0x07]> m)).

(** The answers are written into the read buffer.  The results are those of the
    chunk loop: running out of fuel, a panic, a kind of message. *)
Definition handleMsg (now n : Z) (c : Conn) : option (option (msgType * Conn)) :=
  let msg := take (Z.to_nat n) (mem c) in
  let spare := drop (Z.to_nat n) (mem c) in
  let answer m := c <| mem := m ++ spare |> <| answers := answers c ++ [m] |> in
  match rd msg 8 with
  | None => Some None
  | Some kind =>
      if kind =? 0x08 then
        match rd msg 14 with
        | None => Some None
        | Some ch =>
            if (ch =? 0) || (ch =? 1) then
              match sub msg 28 (len msg) with
              | None => Some None
              | Some cmd =>
                  match theSession c with
                  | S16 s =>
                      Some ('(r, s) ← SessionRead ch cmd spare s;
                            Some (r, c <| theSession := S16 s |>))
                  | S25 s =>
                      o ← SessionRead25 now ch 28 cmd spare s;
                      Some ('(r, s) ← o; Some (r, c <| theSession := S25 s |>))
                  end
              end
            else if ch =? 5 then
              Some (Some (if len msg =? 48 then (msgCh5, answer (msgAckCh5 msg)) else (msgUnknown, c)))
            else if ch =? 0x1c then Some (Some (msgUnknownCh1c, c))
            else Some (Some (msgUnknown, c))
        end
      else if kind =? 0x18 then Some (Some (msgUnknownPing, c))
      else if kind =? 0x28 then
        Some (Some (if len msg =? 24 then (msgPing, answer (msgAckPing msg)) else (msgUnknown, c)))
      else Some (Some (msgUnknown, c))
  end.

(** One round of [worker], and its end, which closes the session. *)
Definition workerStop (c : Conn) : option Conn :=
  s ← onBase Close (theSession c); Some (c <| theSession := s |> <| connDown := true |>).
Definition workerStep (now : Z) (d : datagram) (c : Conn) : option (option Conn) :=
  let '(c, got) := Read d c in
  match got with
  | None => Some (Some c)
  | Some n =>
      o ← handleMsg now n c;
      Some ('(r, c) ← o;
            if decide (r = msgError) then workerStop c
            else Some (if decide (r = msgCommandAck) then c <| acks := acks c + 1 |> else c))
  end.

(** *** Commands *)

Inductive sendResult :=
  | CommandSent
  | WriteFailed
  | NotAcknowledged.

(** Per round: whether the write succeeded and whether [cmdAck] was called before the
    tick.  The outer [None] is a wait for rounds that are not given. *)
Fixpoint sendLoop (repeat : Z) (rounds : list (bool * bool)) (msg : bytes) (b : Session16)
    : option (option (sendResult * Session16)) :=
  match rounds with
  | [] => None
  | (written, acked) :: rounds =>
      match SessionWrite 0 msg b with
      | None => Some None
      | Some b =>
          if negb written then Some (Some (WriteFailed, b)) else
          let r := (if (acked : bool) then 0 else repeat) - 1 in
          if r <? 0 then Some (Some (CommandSent, b))
          else if r =? 0 then Some (Some (NotAcknowledged, b))
          else sendLoop r rounds msg b
      end
  end.

Definition WriteCommand (ctrlType : Z) (ctrlData : bytes) (now : Z) (rounds : list (bool * bool))
    (s : session) : option (option (sendResult * session)) :=
  let prepared :=
    match s with
    | S16 b => '(msg, b) ← SendIOCtrl ctrlType ctrlData now b; Some (msg, S16 b)
    | S25 s => '(msg, s) ← SendIOCtrl25 ctrlType ctrlData s; Some (msg, S25 s)
    end in
  match prepared with
  | None => Some None
  | Some (msg, s) =>
      o ← sendLoop 5 rounds msg (sessionBase s);
      Some ('(r, b) ← o;
            Some (r, match s with S16 _ => S16 b | S25 s => S25 (s <| base := b |>) end))
  end.

Definition WritePacket (hdr payload : bytes) (now : Z) (s : session) : option session :=
  match s with
  | S16 b => '(msg, b) ← SendFrameData hdr payload now b; S16 <$> SessionWrite 1 msg b
  | S25 s => S25 <$> write25 1 (SendFrameData25 hdr payload) s
  end.

(** *** Connecting ([session0.go]) *)

(** The first message [ok] holds of; [None] is a failed or timed out read. *)
Fixpoint writeAndWait (ok : bytes -> option bool) (msgs : list bytes)
    : option (option (bytes * list bytes)) :=
  match msgs with
  | [] => Some None
  | res :: msgs =>
      good ← ok res;
      if (good : bool) then Some (Some (res, msgs)) else writeAndWait ok msgs
  end.
Definition answers8 (p : bytes) (res : bytes) : option bool :=
  Some (bool_decide (index res p = Some 8%nat)).

(** Results: [None] a panic, [Some None] an error. *)
Definition connectDirect (msgs : list bytes) : option (option (bytes * list bytes)) :=
  o ← writeAndWait (answers8 [0x02; 0x06; 0x12; 0x00]) msgs;
  match o with
  | None => Some None
  | Some (res, msgs) =>
      let n := len res in
      v ← rd res 2; a ← rd res (n - 13); b ← rd res (n - 14); c ← rd res (n - 15);
      d ← rd res (n - 16);
      Some (Some ([v; a; b; c; d], msgs))
  end.

Record remote := mkRemote { remoteIP : bytes; remotePort : Z; remoteVer : bytes }.

Definition connectRemote (msgs : list bytes) : option (option (remote * list bytes)) :=
  o ← writeAndWait (answers8 [0x01; 0x03; 0x43]) msgs;
  match o with
  | None => Some None
  | Some (res, msgs) =>
      a ← rd res 40; b ← rd res 41; c ← rd res 42; d ← rd res 43;
      hi ← rd res 38; lo ← rd res 39;
      o ← writeAndWait (answers8 [0x04; 0x04; 0x33]) msgs;
      match o with
      | None => Some None
      | Some (res, msgs) =>
          v ← rd res 2;
          ver ← (if len res =? 52 then
                   e ← rd res 51; f ← rd res 50; g ← rd res 49; h ← rd res 48;
                   Some [v; e; f; g; h]
                 else Some [v]);
          Some (Some (mkRemote [a; b; c; d] (256 * hi + lo) ver, msgs))
      end
  end.

(** What [clientStart] waits for. *)
Definition startAnswer (res : bytes) : option bool :=
  if negb (84 <=? len res) then Some false else
  a ← rd res 28;
  if negb (a =? 0) then Some false else
  b ← rd res 29; Some ((b =? 0x14) || (b =? 0x21)).

(** [Dial] behind the socket: which session speaks to the camera. *)
Definition openSession (ver sid : bytes) : option session :=
  v ← rd ver 0;
  if 25 <=? v then S25 <$> NewSession25 sid else S16 <$> NewSession16 sid.

Definition Version (ver : bytes) : option (list Z) :=
  if len ver =? 1 then v ← rd ver 0; Some [v]
  else v ← rd ver 0; a ← rd ver 1; b ← rd ver 2; c ← rd ver 3; d ← rd ver 4;
       Some [v; a; b; c; d].
