(* ===== verification/TutkReorder.v ===== *)
(** The reorder buffer of [tutk]'s protocol 25 ([pkg/tutk/session25.go]) as a machine on
    positions that do not wrap round, what it delivers, and that the buffer of the code
    is that machine. *)

From stdpp Require Import sorting.
From S2P Require Import Prelude Text Crypto TutkSession.

(** ** The machine

    [N] is the next position, [B] what is held; [cap] is the buffer's size. *)

Section Machine.
Context (cap : Z) (cap_pos : 0 < cap).

Abbreviation item := (Z * bytes)%type.
Definition held (B : gmap Z bytes) : Z := Z.of_nat (size B).

(** What leaves the buffer: the next position, or the lowest one held when the
    buffer is full, again and again. *)
Inductive released : Z -> gmap Z bytes -> list item -> Z -> gmap Z bytes -> Prop :=
  | released_stop N B : B !! N = None -> held B < cap -> released N B [] N B
  | released_pop N B m x out N' B' :
      B !! m = Some x -> (forall p, is_Some (B !! p) -> m <= p) -> N <= m ->
      m = N \/ cap <= held B ->
      released (m + 1) (delete m B) out N' B' ->
      released N B ((m, x) :: out) N' B'.

Definition arrives (N : Z) (B : gmap Z bytes) (a : item) (out : list item) (N' : Z)
    (B' : gmap Z bytes) : Prop :=
  if decide (a.1 = N)
  then exists out', out = a :: out' /\ released (N + 1) B out' N' B'
  else released N (<[a.1 := a.2]> B) out N' B'.

Inductive runs : Z -> gmap Z bytes -> list item -> list item -> Z -> gmap Z bytes -> Prop :=
  | runs_nil N B : runs N B [] [] N B
  | runs_snoc N B arrivals out N1 B1 a out' N2 B2 :
      runs N B arrivals out N1 B1 -> arrives N1 B1 a out' N2 B2 ->
      runs N B (arrivals ++ [a]) (out ++ out') N2 B2.

(** ** What the machine delivers *)

Definition before (a b : item) : Prop := a.1 < b.1.
#[local] Instance before_antisymm : AntiSymm (=) before.
Proof. intros a b. unfold before. lia. Qed.
Definition above (r : Z) (l : list item) : Z := len (filter (fun a => r < a.1) l).

(** No packet is overtaken by as many others as the buffer has room for. *)
Definition timely (arrivals : list item) : Prop :=
  forall pre a post, arrivals = pre ++ a :: post -> above a.1 pre < cap.
(** No packet is 65536 positions ahead of one that is still waited for. *)
Definition near (s0 : Z) (arrivals : list item) : Prop :=
  forall pre a post r, arrivals = pre ++ a :: post -> s0 <= r -> r < a.1 ->
    r ∉ pre.*1 -> above r pre < cap -> a.1 < r + 65536.

Record ordered (s0 : Z) (arrived : list item) (out : list item) (N : Z) (B : gmap Z bytes)
    : Prop := {
  o_sorted : StronglySorted before out;
  o_below : Forall (fun a => s0 <= a.1 < N) out;
  o_held : forall p, is_Some (B !! p) -> N <= p;
  o_all : out ++ map_to_list B ≡ₚ arrived;
  o_skipped : forall r, s0 <= r < N -> r ∉ arrived.*1 -> cap <= above r arrived;
  o_start : s0 <= N;
}.

Lemma above_perm r l k : l ≡ₚ k -> above r l = above r k.
Proof. intros H. unfold above, len. by rewrite H. Qed.
#[local] Instance above_proper r : Proper ((≡ₚ) ==> (=)) (above r).
Proof. exact (above_perm r). Qed.
Lemma above_app r l k : above r (l ++ k) = above r l + above r k.
Proof. unfold above. by rewrite filter_app, len_app. Qed.
Lemma above_all r l : Forall (fun a => r < a.1) l -> above r l = len l.
Proof.
  intros H. unfold above. f_equal. induction H as [|a l Ha Hl IH]; [done|].
  by rewrite filter_cons_True, IH.
Qed.
Lemma above_none r l : Forall (fun a => a.1 <= r) l -> above r l = 0.
Proof.
  intros H. unfold above. induction H as [|a l Ha Hl IH]; [done|].
  rewrite filter_cons_False by lia. exact IH.
Qed.
Lemma above_nonneg r l : 0 <= above r l.
Proof. apply len_nonneg. Qed.

Lemma len_map_to_list B : len (map_to_list B) = held B.
Proof. unfold len, held. by rewrite length_map_to_list. Qed.
Lemma forall_held (P : Z -> Prop) (B : gmap Z bytes) :
  (forall p, is_Some (B !! p) -> P p) -> Forall (fun a => P a.1) (map_to_list B).
Proof.
  intros H. apply Forall_forall. intros [p x] Hp%elem_of_map_to_list. apply H. by eexists.
Qed.

Lemma before_snoc out m x :
  StronglySorted before out -> Forall (fun a => a.1 < m) out ->
  StronglySorted before (out ++ [(m, x)]).
Proof.
  intros Hs Hf. induction Hs as [|a out Hs IH Ha]; cbn; [by repeat constructor|].
  inversion Hf; subst. constructor; [by apply IH|].
  apply Forall_app. split; [done|]. by constructor.
Qed.

Lemma ordered_pop s0 arrived out N B m x :
  ordered s0 arrived out N B -> B !! m = Some x ->
  (forall p, is_Some (B !! p) -> m <= p) -> m = N \/ cap <= held B ->
  ordered s0 arrived (out ++ [(m, x)]) (m + 1) (delete m B).
Proof.
  intros [Hs Hb Hh Ha Hsk H0] Hm Hmin Hor. assert (N <= m) by (apply Hh; by eexists).
  constructor.
  - apply before_snoc; [done|]. eapply Forall_impl; [exact Hb|]. cbn. lia.
  - apply Forall_app. split; [|repeat constructor; cbn; lia].
    eapply Forall_impl; [exact Hb|]. cbn. lia.
  - intros p [y Hp]. rewrite lookup_delete_Some in Hp. destruct Hp as [Hne Hp].
    assert (m <= p) by (apply Hmin; by eexists). lia.
  - rewrite <-app_assoc. cbn. rewrite <-Ha.
    by rewrite <-(map_to_list_delete B m x Hm).
  - intros r Hr Hnr. destruct (decide (r < N)) as [Hlt|Hge]; [apply Hsk; [lia|done]|].
    assert (r <> m).
    { intros ->. apply Hnr. rewrite <-Ha, fmap_app. apply elem_of_app. right.
      apply list_elem_of_fmap. exists (m, x). split; [done|]. by apply elem_of_map_to_list. }
    rewrite <-(above_perm _ _ _ Ha), above_app.
    rewrite (above_all r (map_to_list B)), len_map_to_list.
    + pose proof (above_nonneg r out). lia.
    + apply forall_held. intros p Hp. specialize (Hmin p Hp). lia.
  - lia.
Qed.

Lemma ordered_released s0 arrived out N B out' N' B' :
  released N B out' N' B' -> ordered s0 arrived out N B ->
  ordered s0 arrived (out ++ out') N' B' /\ B' !! N' = None /\ held B' < cap.
Proof.
  intros Hr. revert out. induction Hr as [N B HN Hc|N B m x out' N' B' Hm Hmin HNm Hor Hr IH];
    intros out Ho.
  - by rewrite app_nil_r.
  - rewrite cons_middle, app_assoc. apply IH. by eapply ordered_pop.
Qed.

(** Between two arrivals the next position is missing and the buffer is not full. *)
Definition resting (N : Z) (B : gmap Z bytes) : Prop := B !! N = None /\ held B < cap.

Lemma next_missing s0 arrived out N B :
  ordered s0 arrived out N B -> resting N B -> (N ∉ arrived.*1) /\ above N arrived < cap.
Proof.
  intros [Hs Hb Hh Ha Hsk H0] [HN Hc]. split.
  - rewrite <-Ha, fmap_app. intros [Hin|Hin]%elem_of_app; apply list_elem_of_fmap in Hin
      as ([p x] & Hp & Hin); cbn in Hp; subst.
    + rewrite Forall_forall in Hb. specialize (Hb _ Hin). cbn in Hb. lia.
    + apply elem_of_map_to_list in Hin. congruence.
  - rewrite <-(above_perm _ _ _ Ha), above_app, above_none.
    + rewrite <-len_map_to_list in Hc. unfold above, len in *.
      pose proof (length_filter (fun a : item => N < a.1) (map_to_list B)). lia.
    + eapply Forall_impl; [exact Hb|]. cbn. lia.
Qed.

(** Where an arrival falls. *)
Lemma arrival_window s0 pre a post out N B :
  NoDup (pre ++ a :: post).*1 -> timely (pre ++ a :: post) -> near s0 (pre ++ a :: post) ->
  s0 <= a.1 -> ordered s0 pre out N B -> resting N B ->
  N <= a.1 < N + 65536 /\ B !! a.1 = None.
Proof.
  intros Hnd Ht Hn H0 Ho Hr. destruct (next_missing _ _ _ _ _ Ho Hr) as [HN Hab].
  assert (a.1 ∉ pre.*1) as Hna.
  { rewrite fmap_app, fmap_cons in Hnd. apply NoDup_app in Hnd as (_ & Hd & _).
    intros Hin. by apply (Hd _ Hin), elem_of_cons; left. }
  assert (N <= a.1) as Hge.
  { destruct (decide (a.1 < N)) as [Hlt|]; [|lia].
    pose proof (o_skipped _ _ _ _ _ Ho a.1 ltac:(lia) Hna) as Hs.
    pose proof (Ht pre a post eq_refl). lia. }
  split.
  - split; [done|]. destruct (decide (a.1 = N)) as [->|]; [lia|].
    apply (Hn pre a post N); [done| |lia|done..]. apply (o_start _ _ _ _ _ Ho).
  - destruct (B !! a.1) as [x|] eqn:E; [|done]. exfalso. apply Hna.
    rewrite <-(o_all _ _ _ _ _ Ho), fmap_app. apply elem_of_app. right.
    apply list_elem_of_fmap. exists (a.1, x). split; [done|]. by apply elem_of_map_to_list.
Qed.

Lemma ordered_arrives s0 pre a out N B out' N' B' :
  ordered s0 pre out N B -> resting N B -> N <= a.1 -> a.1 ∉ pre.*1 ->
  arrives N B a out' N' B' ->
  ordered s0 (pre ++ [a]) (out ++ out') N' B' /\ resting N' B'.
Proof.
  intros Ho Hr Hge Hna Har. pose proof Ho as [Hs Hb Hh Ha Hsk H0]. unfold arrives in Har.
  destruct a as [p x]. cbn in *.
  assert (forall r, s0 <= r < N -> r ∉ (pre ++ [(p, x)]).*1 -> cap <= above r (pre ++ [(p, x)])) as Hsk'.
  { intros r Hr1 Hr2. rewrite above_app. pose proof (above_nonneg r [(p, x)]).
    rewrite fmap_app, elem_of_app in Hr2. specialize (Hsk r Hr1 ltac:(tauto)). lia. }
  case_decide as Hp.
  - destruct Har as (out1 & -> & Hrel). change ((p, x) :: out1) with ([(p, x)] ++ out1).
    rewrite (app_assoc out).
    apply (ordered_released _ _ _ _ _ _ _ _ Hrel). subst p. constructor; try done; try lia.
    + apply before_snoc; [done|]. eapply Forall_impl; [exact Hb|]. cbn. lia.
    + apply Forall_app. split; [|repeat constructor; cbn; lia].
      eapply Forall_impl; [exact Hb|]. cbn. lia.
    + intros q Hq. specialize (Hh q Hq). destruct Hr as [HN _].
      destruct (decide (q = N)) as [->|]; [|lia]. rewrite HN in Hq. by destruct Hq.
    + by rewrite <-Ha, <-app_assoc, (Permutation_app_comm [_]), app_assoc.
    + intros r Hr1 Hr2. destruct (decide (r = N)) as [->|]; [|apply Hsk'; [lia|done]].
      exfalso. apply Hr2. rewrite fmap_app. apply elem_of_app. right. by left.
  - apply (ordered_released _ _ _ _ _ _ _ _ Har). constructor; try done.
    + intros q [y Hq]. apply lookup_insert_Some in Hq as [[<- _]|[_ Hq]]; [done|].
      apply Hh. by eexists.
    + rewrite map_to_list_insert.
      * rewrite <-Ha. by rewrite <-app_assoc, (Permutation_app_comm _ [_]).
      * destruct (B !! p) as [y|] eqn:E; [|done]. exfalso. apply Hna.
        rewrite <-Ha, fmap_app. apply elem_of_app. right. apply list_elem_of_fmap.
        exists (p, y). split; [done|]. by apply elem_of_map_to_list.
Qed.

Definition fits (s0 : Z) (arrivals : list item) : Prop :=
  NoDup arrivals.*1 /\ Forall (fun a => s0 <= a.1) arrivals /\ timely arrivals /\ near s0 arrivals.

Lemma fits_prefix s0 l k : fits s0 (l ++ k) -> fits s0 l.
Proof.
  intros (Hnd & Hf & Ht & Hn). split_and!.
  - rewrite fmap_app in Hnd. by apply NoDup_app in Hnd as [? _].
  - by apply Forall_app in Hf as [? _].
  - intros pre a post ->. apply (Ht pre a (post ++ k)). by rewrite <-app_assoc.
  - intros pre a post r ->. apply (Hn pre a (post ++ k) r). by rewrite <-app_assoc.
Qed.

Lemma ordered_nil s0 : ordered s0 [] [] s0 ∅.
Proof.
  constructor; try done; try lia; try by constructor.
  intros p [x Hp]. by rewrite lookup_empty in Hp.
Qed.

Lemma ordered_runs s0 arrivals out N B :
  runs s0 ∅ arrivals out N B -> fits s0 arrivals ->
  ordered s0 arrivals out N B /\ resting N B.
Proof.
  remember (∅ : gmap Z bytes) as B0 eqn:E0. intros Hr.
  induction Hr as [N B|N B arrivals out N1 B1 a out' N2 B2 Hr IH Ha]; intros Hf; subst.
  - split; [apply ordered_nil|]. split; [apply lookup_empty|]. unfold held. by rewrite map_size_empty.
  - destruct (IH eq_refl) as [Ho Hrest]; [by eapply fits_prefix|]. destruct Hf as (Hnd & Hs & Ht & Hn).
    apply Forall_app in Hs as [_ Hs]. apply Forall_cons in Hs as [Hs _].
    destruct (arrival_window N arrivals a [] out N1 B1) as [Hw Hna]; try done.
    apply (ordered_arrives _ _ _ _ N1 B1); [done|done|lia| |done].
    rewrite fmap_app in Hnd. apply NoDup_app in Hnd as (_ & Hd & _).
    intros Hin. by apply (Hd _ Hin), elem_of_cons; left.
Qed.

(** Nothing arrives twice and nothing is lost: everything comes out in order. *)
Lemma runs_in_order s0 sent arrivals out N B :
  runs s0 ∅ arrivals out N B -> fits s0 arrivals -> arrivals ≡ₚ sent ->
  sent.*1 = seqZ s0 (len sent) ->
  out = sent /\ B = ∅ /\ N = s0 + len sent.
Proof.
  intros Hr Hf Hp Hs. destruct (ordered_runs _ _ _ _ _ Hr Hf) as [Ho Hrest].
  pose proof Ho as [Hso Hb Hh Ha Hsk H0].
  destruct (next_missing _ _ _ _ _ Ho Hrest) as [HN _]. rewrite Hp, Hs, elem_of_seqZ in HN.
  assert (B = ∅) as ->.
  { apply map_empty. intros p. destruct (B !! p) as [x|] eqn:E; [|done]. exfalso.
    assert (N <= p) by (apply Hh; by eexists).
    assert (p ∈ sent.*1) as Hin.
    { rewrite <-Hp, <-Ha, fmap_app. apply elem_of_app. right. apply list_elem_of_fmap.
      exists (p, x). split; [done|]. by apply elem_of_map_to_list. }
    rewrite Hs, elem_of_seqZ in Hin. lia. }
  rewrite map_to_list_empty, app_nil_r in Ha.
  assert (out ≡ₚ sent) as Hos by (by rewrite Ha).
  assert (out = sent) as ->.
  { apply (StronglySorted_unique before); [done| |done].
    clear -Hs. unfold len in Hs. revert s0 Hs. induction sent as [|a sent IH]; intros s0 Hs; [constructor|].
      rewrite fmap_cons in Hs. cbn [length] in Hs. rewrite seqZ_cons in Hs by lia. injection Hs as Ha Hs.
      replace (Z.pred (Z.of_nat (S (length sent)))) with (Z.of_nat (length sent)) in Hs by lia.
      constructor; [by eapply IH|]. apply Forall_forall. intros b Hb.
      assert (b.1 ∈ sent.*1) as Hin by (by apply list_elem_of_fmap_2). rewrite Hs, elem_of_seqZ in Hin.
      unfold before. lia. }
  split_and!; [done..|]. destruct (decide (N < s0 + len sent)); [lia|].
  destruct (decide (N = s0 + len sent)); [done|]. exfalso.
  pose proof (Hsk (s0 + len sent) ltac:(pose proof (len_nonneg sent); lia)) as Hs'.
  rewrite Hp, Hs, elem_of_seqZ in Hs'. specialize (Hs' ltac:(lia)).
  rewrite above_none in Hs'; [lia|].
  apply Forall_forall. intros b Hin'. assert (b.1 ∈ sent.*1) as Hin by (by apply list_elem_of_fmap_2).
  rewrite Hs, elem_of_seqZ in Hin. lia.
Qed.
End Machine.

(** ** The buffer of the code is the machine *)

Record models (N : Z) (B : gmap Z bytes) (r : ReorderBuffer) : Prop := {
  m_seq : seq r = u16 N;
  m_buf : forall k x, buf r !! k = Some x <-> exists p, u16 p = k /\ B !! p = Some x;
  m_window : forall p, is_Some (B !! p) -> N <= p < N + 65536;
  m_size : size (buf r) = size B;
}.

Lemma u16_window N p q :
  N <= p < N + 65536 -> N <= q < N + 65536 -> u16 p = u16 q -> p = q.
Proof. unfold u16. intros. Z.to_euclidean_division_equations. lia. Qed.

Lemma models_lookup N B r p :
  models N B r -> N <= p < N + 65536 -> buf r !! u16 p = B !! p.
Proof.
  intros [Hs Hb Hw Hz] Hp. apply option_eq. intros x. rewrite Hb. split; [|by eauto].
  intros (q & Hq & Hx). assert (q = p) as ->; [|done].
  apply (u16_window N); [apply Hw; by eexists|done..].
Qed.

Lemma models_next N B r : models N B r -> B !! N = None -> models (N + 1) B (Next r).
Proof.
  intros [Hs Hb Hw Hz] HN. constructor; [|done| |done].
  - cbn. rewrite Hs. ints.
  - intros p Hp. specialize (Hw p Hp). destruct (decide (p = N)) as [->|]; [|lia].
    rewrite HN in Hp. by destruct Hp.
Qed.

Lemma models_take N B r x :
  models N B r -> B !! N = Some x ->
  models N (delete N B) (r <| buf := delete (seq r) (buf r) |>).
Proof.
  intros Hm HN. pose proof Hm as [Hs Hb Hw Hz]. constructor; cbn.
  - done.
  - intros k y. rewrite lookup_delete_Some, Hb, Hs. split.
    + intros [Hne (p & <- & Hp)]. exists p. rewrite lookup_delete_Some. split_and!; [done| |done].
      by intros ->.
    + intros (p & <- & Hp). rewrite lookup_delete_Some in Hp. destruct Hp as [Hne Hp].
      split; [|by eauto]. intros He. apply Hne. apply (u16_window N); [lia| |done].
      apply Hw. by eexists.
  - intros p [y Hp]. rewrite lookup_delete_Some in Hp. destruct Hp as [Hne Hp].
    apply Hw. by eexists.
  - pose proof (models_lookup N B r N Hm ltac:(lia)) as Hl. rewrite HN, <-Hs in Hl.
    rewrite !map_size_delete, Hl, HN. by rewrite Hz.
Qed.

Lemma models_delete N B r x :
  models N B r -> B !! N = Some x ->
  models (N + 1) (delete N B) (Next (r <| buf := delete (seq r) (buf r) |>)).
Proof.
  intros Hm HN. apply models_next; [by eapply models_take|]. apply lookup_delete_eq.
Qed.

Lemma models_push N B r p x :
  models N B r -> N < p < N + 65536 -> B !! p = None ->
  models N (<[p := x]> B) (Push (u16 p) x r).
Proof.
  intros Hm Hp Hn. pose proof Hm as [Hs Hb Hw Hz]. constructor; cbn.
  - done.
  - intros k y. rewrite lookup_insert_Some, Hb. split.
    + intros [[<- <-]|[Hne (q & <- & Hq)]].
      * exists p. by rewrite lookup_insert_eq.
      * exists q. rewrite lookup_insert_ne by (by intros ->). done.
    + intros (q & <- & Hq). rewrite lookup_insert_Some in Hq. destruct Hq as [[-> ->]|[Hne Hq]]; [by left|].
      right. split; [|by eauto]. intros He. apply Hne. apply (u16_window N); [lia| |done].
      apply Hw. by eexists.
  - intros q [y Hq]. rewrite lookup_insert_Some in Hq. destruct Hq as [[<- _]|[_ Hq]]; [lia|].
    apply Hw. by eexists.
  - rewrite map_size_insert_None by (rewrite (models_lookup N B r p Hm) by lia; done).
    rewrite map_size_insert_None by done. by rewrite Hz.
Qed.

Lemma popFuel_enough : exists d, popFuel = S d /\ 65536 <= Z.of_nat d.
Proof.
  exists (pred popFuel). unfold popFuel. rewrite <-Z2Nat.inj_pred. rewrite Z2Nat.id by lia.
  split; [|lia]. rewrite <-Z2Nat.inj_succ by lia. f_equal.
Qed.

(** What [Pop] takes out: the next one, or from a full buffer the lowest. *)
Lemma popLoop_full d : forall N B r,
  models N B r -> bufSize r <= held B -> (exists p, is_Some (B !! p) /\ p - N < Z.of_nat d) ->
  exists m x r', popLoop d r = Some (Some x, r') /\ B !! m = Some x
    /\ (forall p, is_Some (B !! p) -> m <= p) /\ N <= m /\ models (m + 1) (delete m B) r'
    /\ bufSize r' = bufSize r.
Proof.
  induction d as [|d IH]; intros N B r Hm Hf (p & Hp & Hd).
  { pose proof (m_window _ _ _ Hm p Hp). lia. }
  cbn [popLoop]. rewrite (m_seq _ _ _ Hm), (models_lookup _ _ _ _ Hm) by lia.
  destruct (B !! N) as [x|] eqn:HN.
  - eexists N, x, _. split; [by rewrite <-(m_seq _ _ _ Hm)|]. split; [done|]. split_and!; try done; try lia.
    + intros q Hq. pose proof (m_window _ _ _ Hm q Hq). lia.
    + rewrite (m_seq _ _ _ Hm). rewrite <-(m_seq _ _ _ Hm). by eapply models_delete.
  - unfold Available. rewrite (m_size _ _ _ Hm). unfold held in Hf.
    destruct (Z.ltb_spec 0 (bufSize r - Z.of_nat (size B))) as [|_]; [lia|].
    destruct (IH (N + 1) B (Next r)) as (m & x & r' & Hr & Hx & Hmin & Hge & Hm' & Hc).
    + by apply models_next.
    + done.
    + exists p. split; [done|]. assert (p <> N) by (intros ->; rewrite HN in Hp; by destruct Hp). lia.
    + exists m, x, r'. split_and!; try done. lia.
Qed.

Lemma Pop_sim N B r :
  models N B r -> 0 < bufSize r ->
  (B !! N = None /\ held B < bufSize r /\ Pop r = Some (None, r))
  \/ exists m x r', Pop r = Some (Some x, r') /\ B !! m = Some x
       /\ (forall p, is_Some (B !! p) -> m <= p) /\ N <= m
       /\ (m = N \/ bufSize r <= held B) /\ models (m + 1) (delete m B) r'
       /\ bufSize r' = bufSize r.
Proof.
  intros Hm Hpos. unfold Pop. destruct popFuel_enough as (fuel & -> & Hfuel).
  destruct (B !! N) as [x|] eqn:HN.
  - right. exists N, x. cbn [popLoop].
    rewrite (m_seq _ _ _ Hm), (models_lookup _ _ _ _ Hm), HN by lia.
    eexists. split; [done|]. rewrite <-(m_seq _ _ _ Hm). split_and!; try done; try lia; auto.
    + intros q Hq. pose proof (m_window _ _ _ Hm q Hq). lia.
    + by eapply models_delete.
  - destruct (decide (held B < bufSize r)) as [Hlt|Hge].
    + left. split_and!; [done..|]. cbn [popLoop].
      rewrite (m_seq _ _ _ Hm), (models_lookup _ _ _ _ Hm), HN by lia. unfold Available.
      rewrite (m_size _ _ _ Hm). unfold held in Hlt.
      by destruct (Z.ltb_spec 0 (bufSize r - Z.of_nat (size B))); [|lia].
    + right. destruct (map_choose B) as (p & x & Hp).
      { intros ->. unfold held in Hge. rewrite map_size_empty in Hge. lia. }
      destruct (popLoop_full (S fuel) N B r Hm ltac:(lia)) as (m & y & r' & Hr & H').
      { exists p. split; [by eexists|]. pose proof (m_window _ _ _ Hm p ltac:(by eexists)). lia. }
      exists m, y, r'. destruct H' as (? & ? & ? & ? & ?). split_and!; try done. right. lia.
Qed.

(** ** Chunks in the order the buffer gives them *)

Definition chunkSeq (cmd : bytes) : option Z := cmd2 ← chunkBody cmd; rd16 cmd2 2.

Fixpoint acceptAll (now : Z) (cmds : list bytes) (s : Session25) : option Session25 :=
  match cmds with
  | [] => Some s
  | cmd :: cmds => '(_, s) ← acceptChunk now cmd s; acceptAll now cmds s
  end.

Lemma acceptAll_app now a b s :
  acceptAll now (a ++ b) s = (s ← acceptAll now a s; acceptAll now b s).
Proof.
  revert s. induction a as [|cmd a IH]; intros s; [done|]. cbn.
  destruct (acceptChunk now cmd s) as [[r s1]|]; cbn; [apply IH|done].
Qed.

(** The buffer is no part of what a chunk is put into. *)
Lemma ackCounters_rb now r s :
  ackCounters now (s <| rb := r |>) = (fun s => s <| rb := r |>) <$> ackCounters now s.
Proof.
  unfold ackCounters, msgAckCounters, write25. cbn.
  repeat (match goal with |- context [put ?a ?b ?c] => destruct (put a b c) end
          || match goal with |- context [copyAt ?a ?b ?c] => destruct (copyAt a b c) end
          || match goal with |- context [Msg ?a ?b] => destruct (Msg a b) end; cbn; try done).
Qed.

Lemma acceptChunk_rb now cmd r s :
  acceptChunk now cmd (s <| rb := r |>)
  = (fun '(m, s) => (m, s <| rb := r |>)) <$> acceptChunk now cmd s.
Proof.
  unfold acceptChunk. cbn.
  destruct (rd cmd 1) as [flags|]; [|done]. destruct (chunkBody cmd) as [cmd2|]; [|done]. cbn.
  destruct (rd16 cmd2 2) as [sq|]; [|done]. destruct (rd16 cmd2 6) as [no|]; [|done]. cbn.
  destruct (if no =? 0 then _ else _) as [count|]; [|done]. cbn.
  destruct (if (no =? 0) || (count =? 1) then _ else _) as [b|]; [|done].
  destruct (sub cmd2 20 _) as [data|]; [|done]. cbn.
  destruct (_ =? 0); [done|].
  match goal with |- mbind _ (ackCounters now ?s1) = _ <$> mbind _ (ackCounters now ?s2) =>
    change s1 with (s2 <| rb := r |>) end.
  rewrite ackCounters_rb. destruct (ackCounters now _) as [s1|]; [|done]. cbn.
  destruct (sub _ (_ - 32) _) as [info|]; [|done]. cbn. destruct (sub _ 0 _) as [payload|]; [|done]. cbn.
  by destruct (sendPkt (info, payload) (base s1)) as [[m b1]|].
Qed.

Lemma acceptAll_rb now cmds r s :
  acceptAll now cmds (s <| rb := r |>) = (fun s => s <| rb := r |>) <$> acceptAll now cmds s.
Proof.
  revert s. induction cmds as [|cmd cmds IH]; intros s; [done|]. cbn [acceptAll].
  rewrite acceptChunk_rb. destruct (acceptChunk now cmd s) as [[m s1]|]; [|done]. cbn. apply IH.
Qed.

Lemma chunkBody_flags cmd cmd2 : chunkBody cmd = Some cmd2 -> exists flags, rd cmd 1 = Some flags.
Proof. unfold chunkBody. destruct (rd cmd 1); [eauto|done]. Qed.

(** The tail of a round of [chunkLoop]. *)
Definition drainChunks (fuel : nat) (now : Z) (res : msgType) (s : Session25)
    : option (option (msgType * Session25)) :=
  '(next, r) ← Pop (rb s);
  let s := s <| rb := r |> in
  match next with
  | Some cmd => chunkLoop fuel now cmd false s
  | None => Some (Some (res, s))
  end.

Lemma chunkLoop_step fuel now cmd first s :
  chunkLoop (S fuel) now cmd first s
  = match handleChunk now cmd first s with
    | None => Some None
    | Some (res, s) => drainChunks fuel now res s
    end.
Proof. cbn [chunkLoop]. destruct (handleChunk _ _ _ _) as [[]|]; done. Qed.

Lemma handleChunk_unchecked now cmd s :
  handleChunk now cmd false s = acceptChunk now cmd s.
Proof.
  unfold handleChunk, acceptChunk. destruct (chunkBody cmd) as [cmd2|] eqn:E; cbn.
  - destruct (chunkBody_flags _ _ E) as [flags ->]. cbn. by destruct (rd16 cmd2 2).
  - by destruct (rd cmd 1).
Qed.

Lemma drain_sim fuel : forall N B r,
  models N B r -> 0 < bufSize r -> (size B <= fuel)%nat ->
  exists out N' B' r', released (bufSize r) N B out N' B' /\ models N' B' r'
    /\ bufSize r' = bufSize r
    /\ forall now res s s', rb s = r -> acceptAll now out.*2 s = Some s' ->
         exists res', drainChunks fuel now res s = Some (Some (res', s' <| rb := r' |>)).
Proof.
  induction fuel as [|fuel IH]; intros N B r Hm Hpos Hsz;
    destruct (Pop_sim N B r Hm Hpos) as [(HN & Hlt & Hp)|(m & x & r1 & Hp & Hx & Hmin & Hge & Hor & Hm1 & Hc)];
    try (assert (size B <> 0)%nat by (intros H0%map_size_empty_inv; by rewrite H0, lookup_empty in Hx);
         assert (size (delete m B) = pred (size B)) by (by rewrite map_size_delete, Hx));
    try lia;
    try (exists [], N, B, r; split; [by constructor|]; split_and!; try done;
         intros now res s s' Hr [= <-]; exists res; unfold drainChunks; by rewrite Hr, Hp).
  - assert (size (delete m B) <= fuel)%nat as Hsz' by lia.
    destruct (IH (m + 1) (delete m B) r1 Hm1 ltac:(lia) Hsz') as (out & N' & B' & r' & Hrel & Hm' & Hc' & Hrun).
    exists ((m, x) :: out), N', B', r'. split; [eapply released_pop; try done; by rewrite <-Hc|].
    split_and!; [done|congruence|]. intros now res s s' Hr Hacc. cbn in Hacc.
    destruct (acceptChunk now x s) as [[m1 s1]|] eqn:E; [|done]. cbn in Hacc.
    unfold drainChunks. rewrite Hr, Hp. cbn [mbind option_bind]. rewrite chunkLoop_step, handleChunk_unchecked.
    rewrite acceptChunk_rb, E. cbn.
    destruct (Hrun now m1 (s1 <| rb := r1 |>) (s' <| rb := r1 |>)) as [res' Hres]; [done| |].
    + by rewrite acceptAll_rb, Hacc.
    + exists res'. exact Hres.
Qed.

(** One arriving chunk. *)
Lemma arrive_sim N B r p cmd :
  models N B r -> 0 < bufSize r -> resting (bufSize r) N B -> N <= p < N + 65536 ->
  B !! p = None -> chunkSeq cmd = Some (u16 p) ->
  exists out N' B' r', arrives (bufSize r) N B (p, cmd) out N' B' /\ models N' B' r'
    /\ bufSize r' = bufSize r
    /\ forall now s s', rb s = r -> acceptAll now out.*2 s = Some s' ->
         exists res, chunkLoop (chunkFuel s) now cmd true s = Some (Some (res, s' <| rb := r' |>)).
Proof.
  intros Hm Hpos [HN Hlt] Hp HBp Hseq. unfold chunkSeq in Hseq.
  destruct (chunkBody cmd) as [cmd2|] eqn:Ebody; [|done]. cbn in Hseq.
  assert (forall now s, rb s = r -> handleChunk now cmd true s
            = if decide (p = N) then acceptChunk now cmd (s <| rb := Next r |>)
              else Some (msgMediaReorder, s <| rb := Push (u16 p) cmd r |>)) as Hh.
  { intros now s Hr. unfold handleChunk. rewrite Ebody. cbn. rewrite Hseq. cbn.
    unfold RbCheck. rewrite Hr, (m_seq _ _ _ Hm). case_decide as Hpn.
    - subst. by rewrite Z.eqb_refl.
    - destruct (Z.eqb_spec (u16 p) (u16 N)) as [He|]; [|done].
      exfalso. apply Hpn. by apply (u16_window N); [lia|lia|]. }
  unfold arrives. cbn [fst snd]. case_decide as Hpn.
  - subst p. destruct (drain_sim (S (size B)) (N + 1) B (Next r)) as (out & N' & B' & r' & Hrel & Hm' & Hc' & Hrun);
      [by apply models_next|done|lia|].
    exists ((N, cmd) :: out), N', B', r'. split; [by exists out|]. split_and!; [done|done|].
    intros now s s' Hr Hacc. cbn in Hacc.
    destruct (acceptChunk now cmd s) as [[m1 s1]|] eqn:E; [|done]. cbn in Hacc.
    unfold chunkFuel. rewrite Hr, (m_size _ _ _ Hm), chunkLoop_step, Hh by done.
    rewrite acceptChunk_rb, E. cbn.
    destruct (Hrun now m1 (s1 <| rb := Next r |>) (s' <| rb := Next r |>)) as [res' Hres]; [done| |].
    + by rewrite acceptAll_rb, Hacc.
    + exists res'. exact Hres.
  - destruct (drain_sim (S (size B)) N (<[p := cmd]> B) (Push (u16 p) cmd r))
      as (out & N' & B' & r' & Hrel & Hm' & Hc' & Hrun).
    { apply models_push; [done|lia|done]. }
    { done. }
    { rewrite map_size_insert_None by done. lia. }
    exists out, N', B', r'. split_and!; [done..|]. intros now s s' Hr Hacc.
    unfold chunkFuel. rewrite Hr, (m_size _ _ _ Hm), chunkLoop_step, Hh by done.
    destruct (Hrun now msgMediaReorder (s <| rb := Push (u16 p) cmd r |>)
                (s' <| rb := Push (u16 p) cmd r |>)) as [res Hres]; [done| |].
    + by rewrite acceptAll_rb, Hacc.
    + exists res. exact Hres.
Qed.
