(* ===== verification/TutkSessionFacts.v ===== *)
(** Properties of the [tutk] sessions: frames of protocol 25 come out whole and in order
    however their chunks are shuffled within the buffer's reach, frames of protocol 16
    and commands of both are received as they were sent, when sending a command
    succeeds, and what breaks the connection. *)

From S2P Require Import Prelude Text Crypto TutkSession TutkReorder.

(** ** Stores that are in range *)

Lemma length_blit_len off src p : len (blit off src p) = len p.
Proof. unfold len. by rewrite length_blit. Qed.

Lemma put_some k off src p :
  len src = k -> 0 <= off -> off + k <= len p ->
  put off src p = Some (blit (Z.to_nat off) src p).
Proof.
  intros Hk H0 H. unfold put. rewrite Hk, (proj2 (Z.leb_le _ _) H0), (proj2 (Z.leb_le _ _) H). done.
Qed.
Lemma copyAt_some off src p :
  0 <= off -> off <= len p -> copyAt off src p = Some (blit (Z.to_nat off) src p).
Proof.
  intros H0 H. unfold copyAt. by rewrite (proj2 (Z.leb_le _ _) H0), (proj2 (Z.leb_le _ _) H).
Qed.

Lemma len_make size : 0 <= size -> len (make size) = size.
Proof. intros. unfold len, make, zeros. rewrite length_replicate. lia. Qed.

(** Does the stores of a message whose length is known, one after the other. *)
Ltac stores :=
  repeat (cbn [mbind option_bind];
    match goal with
    | |- context [put ?off ?src ?p] =>
        let k := eval vm_compute in (Z.of_nat (length src)) in
        rewrite (put_some k off src p) by (reflexivity || (rewrite ?length_blit_len; lia))
    | |- context [copyAt ?off ?src ?p] =>
        rewrite (copyAt_some off src p) by (rewrite ?length_blit_len; lia)
    end); cbn [mbind option_bind].

Lemma Msg_some size s :
  12 <= size -> exists m, Msg size s = Some m /\ len m = size.
Proof.
  intros H. unfold Msg. assert (len (make size) = size) by (apply len_make; lia). stores.
  eexists. split; [done|]. by rewrite !length_blit_len.
Qed.

Lemma SessionWrite_some chID m s :
  15 <= len m ->
  exists m', len m' = len m /\ SessionWrite chID m s
    = Some ((if chID =? 0 then s <| seqSendCh0 := u16 (seqSendCh0 s + 1) |>
             else if chID =? 1 then s <| seqSendCh1 := u16 (seqSendCh1 s + 1) |>
             else s) <| sent := sent s ++ [m'] |>).
Proof.
  intros H. unfold SessionWrite. destruct (chID =? 0); [|destruct (chID =? 1)]; stores.
  - eexists. split; [|done]. by rewrite length_blit_len.
  - eexists. split; [|done]. by rewrite !length_blit_len.
  - by exists m.
Qed.

(** ** Counters are acknowledged whatever the state *)

Definition counted (m : bytes) (s : Session25) : Session25 :=
  s <| base := (base s) <| seqSendCmd1 := u16 (seqSendCmd1 (base s) + 1) |>
                 <| seqSendCh0 := u16 (seqSendCh0 (base s) + 1) |>
                 <| sent := sent (base s) ++ [m] |> |>
    <| seqRecvPkt0 := seqRecvPkt1 s |> <| seqSendCnt := u16 (seqSendCnt s + 1) |>.

Lemma ackCounters_some now s : exists m, ackCounters now s = Some (counted m s).
Proof.
  unfold ackCounters, msgAckCounters. destruct (Msg_some (msgHhrSize + cmdHdrSize) (base s)) as (m & -> & Hm);
    [done|]. unfold msgHhrSize, cmdHdrSize in Hm. cbn [mbind option_bind].
  stores. unfold write25.
  match goal with |- context [SessionWrite 0 ?m' ?b] =>
    destruct (SessionWrite_some 0 m' b) as (m'' & _ & ->) end.
  { rewrite !length_blit_len. lia. }
  by exists m''.
Qed.

(** ** The clock and the buffer do not matter for media *)

(** The session without what it wrote and without the buffer. *)
Definition erase (s : Session25) : Session25 :=
  s <| rb := NewReorderBuffer 0 |> <| base := (base s) <| sent := [] |> |>.
Definition same (s t : Session25) : Prop := erase s = erase t.
#[export] Instance same_equiv : Equivalence same.
Proof. unfold same. split; [by intros s|by intros s t ->|by intros s t u -> ->]. Qed.

Definition varied (r : ReorderBuffer) (l : list bytes) (s : Session25) : Session25 :=
  s <| rb := r |> <| base := (base s) <| sent := l |> |>.

Lemma same_varied r l s : same (varied r l s) s.
Proof. done. Qed.
Lemma same_is_varied s t : same s t -> t = varied (rb t) (sent (base t)) s.
Proof.
  destruct s as [[] ? ? ? ? ? ?], t as [[] ? ? ? ? ? ?].
  unfold same, erase, varied. cbn. intros H. by injection H as -> -> -> -> -> -> -> -> -> -> -> -> -> -> -> -> ->.
Qed.

Lemma acceptChunk_varied now now' cmd r l s res s' :
  acceptChunk now cmd s = Some (res, s') ->
  exists t', acceptChunk now' cmd (varied r l s) = Some (res, t') /\ same s' t'.
Proof.
  unfold acceptChunk. destruct (rd cmd 1) as [flags|]; [|done].
  destruct (chunkBody cmd) as [cmd2|]; [|done]. cbn [mbind option_bind].
  destruct (rd16 cmd2 2) as [sq|]; [|done]. destruct (rd16 cmd2 6) as [no|]; [|done].
  cbn [mbind option_bind].
  destruct (if no =? 0 then _ else _) as [count|]; [|done]. cbn [mbind option_bind].
  change (waitCSeq (base (varied r l s))) with (waitCSeq (base s)).
  destruct ((no =? 0) || (count =? 1)); [|destruct (negb _)].
  2: { intros [= <- <-]. eexists. split; [done|]. symmetry. apply same_varied. }
  all: destruct (sub cmd2 20 _) as [data|]; [|done]; cbn [mbind option_bind];
    destruct (Z.land flags 1 =? 0); [intros [= <- <-]; by eexists|].
  all: repeat match goal with |- context [ackCounters ?n ?s0] =>
         let m := fresh "m" in destruct (ackCounters_some n s0) as [m ->] end; cbn.
  all: destruct (sub _ (_ - 32) _) as [info|]; [|done]; cbn;
    destruct (sub _ 0 _) as [payload|]; [|done]; cbn.
  all: unfold sendPkt; cbn; destruct (chClosed (base s)); [done|];
    destruct (_ <? _); cbn; intros [= <- <-]; by eexists.
Qed.

Lemma acceptAll_same now now' cmds : forall s t s',
  same s t -> acceptAll now cmds s = Some s' ->
  exists t', acceptAll now' cmds t = Some t' /\ same s' t'.
Proof.
  induction cmds as [|cmd cmds IH]; intros s t s' Hst; cbn [acceptAll].
  - intros [= <-]. eauto.
  - destruct (acceptChunk now cmd s) as [[res s1]|] eqn:E; [|done]. cbn [mbind option_bind].
    intros Hs. rewrite (same_is_varied s t Hst).
    destruct (acceptChunk_varied now now' cmd (rb t) (sent (base t)) s res s1 E) as (t1 & -> & Ht1).
    by apply (IH s1 t1).
Qed.

(** ** Media of protocol 25 *)

(** A chunk that arrives: its position in the stream, the clock, what the read buffer
    holds behind it. *)
Record arrival := mkArrival { aPos : Z; aNow : Z; aCmd : bytes; aSpare : bytes }.
Definition item (d : arrival) : Z * bytes := (aPos d, aCmd d).

Fixpoint feed (ds : list arrival) (s : Session25) : option (option Session25) :=
  match ds with
  | [] => Some (Some s)
  | d :: ds =>
      o ← SessionRead25 (aNow d) 0 28 (aCmd d) (aSpare d) s;
      match o with Some (_, s) => feed ds s | None => Some None end
  end.

Lemma feed_app ds ds' s :
  feed (ds ++ ds') s = (o ← feed ds s; match o with Some s => feed ds' s | None => Some None end).
Proof.
  revert s. induction ds as [|d ds IH]; intros s; cbn [app feed]; [done|].
  destruct (SessionRead25 _ _ _ _ _ _) as [[[res s1]|]|]; cbn [mbind option_bind]; [apply IH|done..].
Qed.

(** A chunk of media under the sequence number of its position. *)
Definition is_chunk (d : arrival) : Prop :=
  (exists c, rd (aCmd d) 0 = Some c /\ (c = 3 \/ c = 5 \/ c = 7))
  /\ chunkSeq (aCmd d) = Some (u16 (aPos d)).

Lemma read_chunk d s :
  is_chunk d ->
  SessionRead25 (aNow d) 0 28 (aCmd d) (aSpare d) s = chunkLoop (chunkFuel s) (aNow d) (aCmd d) true s.
Proof. intros [(c & Hc & Hk) _]. unfold SessionRead25. cbn. rewrite Hc. by destruct Hk as [->|[->| ->]]. Qed.

Lemma models_start s0 r : seq r = u16 s0 -> buf r = ∅ -> models s0 ∅ r.
Proof.
  intros Hs Hb. constructor.
  - done.
  - intros k x. rewrite Hb, lookup_empty. split; [done|]. intros (p & _ & Hp). by rewrite lookup_empty in Hp.
  - intros p [x Hp]. by rewrite lookup_empty in Hp.
  - by rewrite Hb.
Qed.

(** Feeding the arrivals does to the session what accepting the chunks does in the
    order the machine gives. *)
Lemma feed_runs s0 ds s :
  fits (bufSize (rb s)) s0 (map item ds) -> Forall is_chunk ds ->
  models s0 ∅ (rb s) -> 0 < bufSize (rb s) ->
  exists out N B r, runs (bufSize (rb s)) s0 ∅ (map item ds) out N B /\ models N B r
    /\ bufSize r = bufSize (rb s)
    /\ forall s1, acceptAll 0 out.*2 s = Some s1 ->
         exists s', feed ds s = Some (Some s') /\ same s1 s' /\ rb s' = r.
Proof.
  intros Hf Hch Hm Hpos. induction ds as [|d ds IH] using rev_ind.
  { exists [], s0, ∅, (rb s). split; [constructor|]. split_and!; [done..|].
    intros s1 [= <-]. by exists s. }
  rewrite map_app in *. cbn [map] in *. apply Forall_app in Hch as [Hch Hd]. apply Forall_cons in Hd as [Hd _].
  pose proof (fits_prefix _ _ _ _ Hf) as Hf'.
  destruct (IH Hf' Hch) as (out & N & B & r & Hr & Hmr & Hc & Hrun).
  destruct (ordered_runs _ Hpos _ _ _ _ _ Hr Hf') as [Ho Hrest].
  destruct Hf as (Hnd & Hs & Ht & Hn). apply Forall_app in Hs as [_ Hs]. apply Forall_cons in Hs as [Hs _].
  destruct (arrival_window (bufSize (rb s)) s0 (map item ds) (item d) [] out N B) as [Hw HB]; [done..|].
  cbn [item fst] in Hw, HB.
  destruct (arrive_sim N B r (aPos d) (aCmd d)) as (out' & N' & B' & r' & Ha & Hm' & Hc' & Hstep);
    [done|by rewrite Hc|by rewrite Hc|done|done|by apply Hd|]. rewrite Hc in *.
  exists (out ++ out'), N', B', r'. split; [by eapply runs_snoc|]. split_and!; [done|congruence|].
  intros s2 Hacc. rewrite fmap_app, acceptAll_app in Hacc.
  destruct (acceptAll 0 out.*2 s) as [s1|] eqn:E; [|done]. cbn [mbind option_bind] in Hacc.
  destruct (Hrun s1 eq_refl) as (s' & Hfeed & Hsame & Hrb).
  destruct (acceptAll_same 0 (aNow d) _ _ _ _ Hsame Hacc) as (t & Hacc' & Ht').
  destruct (Hstep (aNow d) s' t Hrb Hacc') as [res Hloop].
  exists (t <| rb := r' |>). split_and!; [|by rewrite Ht'|done].
  rewrite feed_app, Hfeed. cbn [mbind option_bind feed]. rewrite read_chunk by done. by rewrite Hloop.
Qed.

(** What a chunk says: first of its frame, last of its frame, and its bytes. *)
Definition chunkView (cmd : bytes) : option (bool * bool * bytes) :=
  flags ← rd cmd 1;
  cmd2 ← chunkBody cmd;
  no ← rd16 cmd2 6;
  count ← rd16 cmd2 4;
  data ← sub cmd2 20 (len cmd2);
  Some ((no =? 0) || (count =? 1), negb (Z.land flags 1 =? 0), data).

Abbreviation frame := (bytes * bytes)%type.

(** The chunks [cmds] from position [p] on carry the frame: the first and only the first
    says so, the last and only the last, and their bytes are the payload and then the
    32 bytes of frame information. *)
Record carries (p : Z) (cmds : list bytes) (f : frame) : Prop := {
  c_seq : forall i cmd, cmds !! i = Some cmd -> chunkSeq cmd = Some (u16 (p + Z.of_nat i));
  c_some : cmds <> [];
  c_view : exists datas, length datas = length cmds /\ concat datas = f.2 ++ f.1
    /\ forall i cmd, cmds !! i = Some cmd ->
         chunkView cmd = Some (bool_decide (i = 0%nat), bool_decide (S i = length cmds), datas !!! i);
  c_info : len f.1 = 32;
}.

Lemma acceptChunk_view now cmd s first last data sq :
  chunkView cmd = Some (first, last, data) -> chunkSeq cmd = Some sq ->
  acceptChunk now cmd s
  = let b := base s in
    if first || (sq =? waitCSeq b) then
      let b := if first then b <| waitData := [] |> <| waitCSeq := sq |> else b in
      let b := b <| waitData := waitData b ++ data |> in
      if (last : bool) then
        s ← ackCounters now (s <| base := b |> <| seqRecvPkt1 := sq |>);
        let b := base s in
        let n := len (waitData b) - 32 in
        info ← sub (waitData b) n (len (waitData b));
        payload ← sub (waitData b) 0 n;
        '(r, b) ← sendPkt (info, payload) b;
        Some (r, s <| base := b |>)
      else Some (msgMediaChunk, s <| base := b <| waitCSeq := u16 (waitCSeq b + 1) |> |>)
    else Some (msgMediaLost, s).
Proof.
  unfold chunkView, chunkSeq, acceptChunk.
  destruct (rd cmd 1) as [flags|]; [|done]. destruct (chunkBody cmd) as [cmd2|]; [|done].
  cbn [mbind option_bind]. destruct (rd16 cmd2 6) as [no|]; [|done].
  destruct (rd16 cmd2 4) as [count|]; [|done]. cbn [mbind option_bind].
  destruct (sub cmd2 20 _) as [d|]; [|done]. cbn [mbind option_bind].
  intros [= <- <- <-] ->. cbn [mbind option_bind].
  assert ((no =? 0) || ((if no =? 0 then 1 else count) =? 1) = (no =? 0) || (count =? 1)) as Hfirst
    by (destruct (no =? 0); done).
  destruct (no =? 0) eqn:Eno; cbn [mbind option_bind].
  - cbn. by destruct (Z.land flags 1 =? 0).
  - destruct (count =? 1) eqn:Ec; cbn; [by destruct (Z.land flags 1 =? 0)|].
    destruct (sq =? waitCSeq (base s)); cbn; [|done]. by destruct (Z.land flags 1 =? 0).
Qed.

(** A session that can take a packet. *)
Definition accepting (k : Z) (b : Session16) : Prop :=
  chClosed b = false /\ len (rawPkt b) + k <= rawPktCap.

Lemma split_frame (payload info : bytes) :
  len info = 32 ->
  let w := payload ++ info in
  sub w (len w - 32) (len w) = Some info /\ sub w 0 (len w - 32) = Some payload.
Proof.
  intros Hi w. subst w. pose proof (len_nonneg payload). rewrite !len_app, Hi.
  replace (len payload + 32 - 32) with (len payload) by lia.
  split; (rewrite sub_in by (rewrite ?len_app; lia)); f_equal.
  - rewrite <-Hi. apply seg_app_exact. done.
  - unfold seg, len. rewrite drop_0. by rewrite take_app_length' by lia.
Qed.

Section Frame.
Context (now p : Z) (cmds : list bytes) (f : frame) (datas : list bytes).
Context (Hseq : forall i cmd, cmds !! i = Some cmd -> chunkSeq cmd = Some (u16 (p + Z.of_nat i))).
Context (Hlen : length datas = length cmds) (Hall : concat datas = f.2 ++ f.1) (Hinfo : len f.1 = 32).
Context (Hview : forall i cmd, cmds !! i = Some cmd ->
  chunkView cmd = Some (bool_decide (i = 0%nat), bool_decide (S i = length cmds), datas !!! i)).

Definition gathered (i : nat) (b : Session16) : Prop :=
  waitData b = concat (take i datas) /\ waitCSeq b = u16 (p + Z.of_nat i).

Lemma data_step i cmd :
  cmds !! i = Some cmd -> concat (take (S i) datas) = concat (take i datas) ++ datas !!! i.
Proof.
  intros Hc%lookup_lt_Some. rewrite <-Hlen in Hc.
  rewrite (take_S_r _ _ (datas !!! i)) by (by apply list_lookup_lookup_total_lt).
  rewrite concat_app. cbn. by rewrite app_nil_r.
Qed.

Lemma frame_steps rest : forall i s,
  drop i cmds = rest -> rest <> [] -> i = 0%nat \/ gathered i (base s) ->
  accepting 1 (base s) ->
  exists s1, acceptAll now rest s = Some s1
    /\ rawPkt (base s1) = rawPkt (base s) ++ [f] /\ chClosed (base s1) = false.
Proof.
  induction rest as [|cmd rest IH]; intros i s Hd Hne Hg [Hcl Hr]; [done|].
  assert (cmds !! i = Some cmd) as Hi by (rewrite <-(Nat.add_0_r i), <-lookup_drop, Hd; done).
  cbn [acceptAll]. rewrite (acceptChunk_view _ _ _ _ _ _ _ (Hview i cmd Hi) (Hseq i cmd Hi)). cbv zeta.
  assert (bool_decide (i = 0%nat) || (u16 (p + Z.of_nat i) =? waitCSeq (base s)) = true) as ->.
  { destruct Hg as [->|[_ ->]]; [done|]. rewrite Z.eqb_refl. apply orb_true_r. }
  set (b := if bool_decide (i = 0%nat) then _ else base s).
  assert (waitData b ++ datas !!! i = concat (take (S i) datas) /\ waitCSeq b = u16 (p + Z.of_nat i)
          /\ rawPkt b = rawPkt (base s) /\ chClosed b = false) as (Hw & Hs & Hp & Hc).
  { subst b. rewrite (data_step i cmd Hi). case_bool_decide as H0; cbn; [by subst|].
    by destruct Hg as [|[-> ->]]. }
  clearbody b. destruct (decide (S i = length cmds)) as [Hlast|Hlast].
  - rewrite bool_decide_eq_true_2 by done.
    match goal with |- context [ackCounters now ?s0] => destruct (ackCounters_some now s0) as [m ->] end.
    cbn. rewrite Hw. rewrite <-Hlen in Hlast. rewrite Hlast, take_ge by lia. rewrite Hall.
    destruct (split_frame f.2 f.1 Hinfo) as [-> ->]. cbn. unfold sendPkt. cbn.
    rewrite Hc, Hp. unfold rawPktCap in *.
    rewrite (proj2 (Z.ltb_lt (len (rawPkt (base s))) 100)) by lia. cbn.
    assert (rest = []) as ->.
    { apply nil_length_inv. apply (f_equal length) in Hd. rewrite length_drop in Hd. cbn in Hd. lia. }
    eexists. split; [done|]. by destruct f.
  - rewrite bool_decide_eq_false_2 by done. cbn [mbind option_bind].
    assert (drop (S i) cmds = rest) as Hd' by (by rewrite <-Nat.add_1_r, <-drop_drop, Hd).
    match goal with |- context [acceptAll now rest ?s0] =>
      destruct (IH (S i) s0) as (s1 & Ha & Hr1 & Hc1) end.
    + done.
    + intros ->. apply (f_equal length) in Hd'. rewrite length_drop in Hd'.
      apply lookup_lt_Some in Hi. cbn in Hd'. lia.
    + right. split; cbn; [done|]. rewrite Hs. ints.
    + split; cbn; [done|]. by rewrite Hp.
    + exists s1. split; [done|]. cbn in Hr1. by rewrite Hr1, Hp.
Qed.
End Frame.

(** Frames one after the other, the first one's first chunk at position [p]. *)
Fixpoint stream (p : Z) (frames : list (list bytes * frame)) : Prop :=
  match frames with
  | [] => True
  | (cmds, f) :: frames => carries p cmds f /\ stream (p + len cmds) frames
  end.

Lemma stream_accepted now frames : forall p s,
  stream p frames -> accepting (len frames) (base s) ->
  exists s1, acceptAll now (concat frames.*1) s = Some s1
    /\ rawPkt (base s1) = rawPkt (base s) ++ frames.*2.
Proof.
  induction frames as [|[cmds f] frames IH]; intros p s Hst Hacc.
  { exists s. by rewrite app_nil_r. }
  destruct Hst as [[Hseq Hne (datas & Hlen & Hall & Hview) Hinfo] Hst]. destruct Hacc as [Hc Hr].
  rewrite len_cons in Hr. pose proof (len_nonneg frames).
  cbn [fmap list_fmap fst snd concat]. rewrite acceptAll_app.
  destruct (frame_steps now p cmds f datas Hseq Hlen Hall Hinfo Hview cmds 0 s) as (s1 & -> & Hr1 & Hc1);
    [done|done|by left|split; [done|lia]|].
  cbn [mbind option_bind].
  destruct (IH (p + len cmds) s1) as (s2 & Ha & Hr2); [done| |].
  - split; [done|]. rewrite Hr1, len_app. change (len [f]) with 1. lia.
  - exists s2. split; [exact Ha|]. rewrite Hr2, Hr1. by rewrite <-app_assoc.
Qed.

(** The chunks of a stream at their positions. *)
Definition placed (p : Z) (frames : list (list bytes * frame)) : list (Z * bytes) :=
  zip (seqZ p (len (concat frames.*1))) (concat frames.*1).

Lemma placed_fst p frames :
  (placed p frames).*1 = seqZ p (len (placed p frames)).
Proof.
  unfold placed. rewrite fst_zip by (rewrite length_seqZ; unfold len; lia).
  f_equal. unfold len. rewrite length_zip_with, length_seqZ. lia.
Qed.
Lemma placed_snd p frames : (placed p frames).*2 = concat frames.*1.
Proof. unfold placed. by rewrite snd_zip by (rewrite length_seqZ; unfold len; lia). Qed.

(** C11. Frames sent as chunks over a network that shuffles them, no chunk being overtaken by
    as many others as the buffer has room for, come out of a protocol 25 session exactly
    and in order, whatever the clock and the sequence numbers' wrap; the buffer is
    empty again and at the next position. *)
Theorem shuffled_frames_delivered s0 frames ds s :
  stream s0 frames -> map item ds ≡ₚ placed s0 frames -> Forall is_chunk ds ->
  fits (bufSize (rb s)) s0 (map item ds) ->
  seq (rb s) = u16 s0 -> buf (rb s) = ∅ -> 0 < bufSize (rb s) ->
  accepting (len frames) (base s) ->
  exists s', feed ds s = Some (Some s')
    /\ rawPkt (base s') = rawPkt (base s) ++ frames.*2
    /\ seq (rb s') = u16 (s0 + len (concat frames.*1)) /\ buf (rb s') = ∅.
Proof.
  intros Hst Hperm Hch Hf Hseq Hbuf Hpos Hacc.
  destruct (feed_runs s0 ds s Hf Hch (models_start _ _ Hseq Hbuf) Hpos)
    as (out & N & B & r & Hr & Hm & Hc & Hrun).
  destruct (runs_in_order _ Hpos _ _ _ _ _ _ Hr Hf Hperm (placed_fst _ _)) as (-> & -> & ->).
  destruct (stream_accepted 0 frames s0 s Hst Hacc) as (s1 & Ha & Hp).
  rewrite <-(placed_snd s0 frames) in Ha.
  destruct (Hrun s1 Ha) as (s' & Hfeed & Hsame & <-). exists s'. split; [done|]. split_and!.
  - rewrite <-Hp. by rewrite (same_is_varied _ _ Hsame).
  - rewrite (m_seq _ _ _ Hm). do 2 f_equal. unfold placed, len.
    rewrite length_zip_with, length_seqZ. lia.
  - apply map_empty. intros k. destruct (buf (rb s') !! k) as [x|] eqn:E; [|done].
    apply (m_buf _ _ _ Hm) in E as (p & _ & Hp'). by rewrite lookup_empty in Hp'.
Qed.

(** Few packets always fit. *)
Lemma fits_short cap s0 l :
  0 < cap -> NoDup l.*1 -> Forall (fun a => s0 <= a.1 < s0 + 65536) l -> len l <= cap -> fits cap s0 l.
Proof.
  intros Hc Hnd Hf Hl. split_and!; [done| | |].
  - eapply Forall_impl; [exact Hf|]. cbn. lia.
  - intros pre a post ->. unfold above, len in *. rewrite length_app in Hl. cbn in Hl.
    pose proof (length_filter (fun b : Z * bytes => a.1 < b.1) pre). lia.
  - intros pre a post r -> H0 _ _ _. apply Forall_app in Hf as [_ Hf].
    apply Forall_cons in Hf as [Ha _]. cbn in Ha. lia.
Qed.

(** Two frames, of three chunks and of one, over the wrap of the sequence numbers,
    arriving shuffled; the single chunk is in the form with a longer first header. *)
Definition demoChunk (flags sq count no : Z) (data : bytes) : bytes :=
  [7; flags; 0x0b; 0; 0; 0; 0; 0; 7; 0] ++ le16 sq ++ le16 count ++ le16 no ++ zeros 12 ++ data.
Definition demoLong (sq count no : Z) (data : bytes) : bytes :=
  [7; 9; 0x0b; 0] ++ zeros 12 ++ [7; 1] ++ le16 sq ++ le16 count ++ le16 no ++ zeros 12 ++ data.
Definition demoTail : bytes := replicate 32 0xEE.
Definition demoFrames : list (list bytes * frame) :=
  [([demoChunk 0 65534 3 0 [1; 2]; demoChunk 0 65535 3 1 [3]; demoChunk 1 0 3 0x20 ([4; 5] ++ demoTail)],
    (demoTail, [1; 2; 3; 4; 5]));
   ([demoLong 1 1 0x20 ([6] ++ demoTail)], (demoTail, [6]))].
Definition demoArrivals : list arrival :=
  map (fun '(p, now, i) => mkArrival p now (concat demoFrames.*1 !!! i) [])
    [(65535, 10, 1%nat); (65537, 11, 3%nat); (65534, 13, 0%nat); (65536, 20, 2%nat)].
Definition demoSession : Session25 :=
  mkSession25 (mkSession16 (zeros 16) [] [] false 0 0 0 0 0 0 0 [] []) (mkReorderBuffer ∅ 65534 5) 0 0 0 0 0.

Lemma demo_stream : stream 65534 demoFrames.
Proof.
  repeat split.
  - intros [|[|[|i]]] cmd; intros H; vm_compute in H; try injection H as <-; try done; vm_compute; done.
  - done.
  - exists [[1; 2]; [3]; [4; 5] ++ demoTail]. split_and!; [done|done|].
    intros [|[|[|i]]] cmd; intros H; vm_compute in H; try injection H as <-; try done; vm_compute; done.
  - intros [|i] cmd; intros H; vm_compute in H; try injection H as <-; try done; vm_compute; done.
  - done.
  - exists [[6] ++ demoTail]. split_and!; [done|done|].
    intros [|i] cmd; intros H; vm_compute in H; try injection H as <-; try done; vm_compute; done.
Qed.

Lemma shuffled_frames_delivered_witness :
  exists s', feed demoArrivals demoSession = Some (Some s')
    /\ rawPkt (base s') = [(demoTail, [1; 2; 3; 4; 5]); (demoTail, [6])]
    /\ seq (rb s') = 2 /\ buf (rb s') = ∅.
Proof.
  refine (shuffled_frames_delivered 65534 demoFrames demoArrivals demoSession demo_stream _ _ _ _ _ _ _).
  - change (placed 65534 demoFrames) with
      (map (fun i => (65534 + Z.of_nat i, concat demoFrames.*1 !!! i)) [0; 1; 2; 3]%nat).
    change (map item demoArrivals) with
      (map (fun i => (65534 + Z.of_nat i, concat demoFrames.*1 !!! i)) [1; 3; 0; 2]%nat).
    apply Permutation_map. apply (bool_decide_unpack ([1; 3; 0; 2]%nat ≡ₚ [0; 1; 2; 3]%nat)).
    vm_compute. exact I.
  - repeat constructor; try (eexists; split; [vm_compute; reflexivity|lia]); vm_compute; reflexivity.
  - apply fits_short; [done| |repeat constructor; cbn; lia|done].
    apply (bool_decide_unpack (NoDup _)). vm_compute. exact I.
  - done.
  - done.
  - done.
  - split; [done|]. vm_compute. discriminate.
Defined.

(** ** Reading always ends *)

Definition rb_ok (r : ReorderBuffer) : Prop :=
  0 < bufSize r /\ is_u16 (seq r) /\ forall k, is_Some (buf r !! k) -> is_u16 k.

Lemma rb_ok_next r : rb_ok r -> rb_ok (Next r).
Proof. intros (Hb & _ & Hk). split_and!; [done|apply u16_bound|done]. Qed.

Lemma popLoop_ends d : forall r,
  rb_ok r ->
  0 < Available r /\ (0 < d)%nat
  \/ (exists k, is_Some (buf r !! k) /\ u16 (k - seq r) < Z.of_nat d) ->
  exists o r', popLoop d r = Some (o, r') /\ rb_ok r'
    /\ size (buf r) = (size (buf r') + match o with Some _ => 1 | None => 0 end)%nat.
Proof.
  induction d as [|d IH]; intros r Hr Hd.
  { destruct Hd as [[_ ?]|(k & _ & Hk)]; [lia|]. pose proof (u16_bound (k - seq r)) as Hu.
    unfold is_u16 in Hu. lia. }
  cbn [popLoop]. destruct (buf r !! seq r) as [x|] eqn:Hx.
  - eexists _, _. split; [done|]. split.
    + apply rb_ok_next. destruct Hr as (Hb & Hs & Hk). split_and!; [done..|]. cbn. intros k [y Hy].
      rewrite lookup_delete_Some in Hy. apply Hk. exists y. apply Hy.
    + cbn. rewrite map_size_delete, Hx. assert (size (buf r) <> 0)%nat; [|lia].
      intros H0%map_size_empty_inv. by rewrite H0, lookup_empty in Hx.
  - destruct (Z.ltb_spec 0 (Available r)); [exists None, r; split_and!; [done..|lia]|].
    destruct (IH (Next r)) as (o & r' & Hp & Hok & Hsz); [by apply rb_ok_next| |by exists o, r'].
    right. destruct Hd as [[? _]|(k & Hk & Hd)]; [lia|]. exists k. split; [done|].
    assert (k <> seq r) by (intros ->; rewrite Hx in Hk; by destruct Hk).
    destruct Hr as (_ & Hs & Hku). specialize (Hku k Hk). cbn. ints.
Qed.

Lemma Pop_ends r :
  rb_ok r -> exists o r', Pop r = Some (o, r') /\ rb_ok r'
    /\ size (buf r) = (size (buf r') + match o with Some _ => 1 | None => 0 end)%nat.
Proof.
  intros Hr. unfold Pop. destruct popFuel_enough as (d & -> & Hd). apply popLoop_ends; [done|].
  destruct (decide (0 < Available r)); [left; split; [done|lia]|right].
  destruct (map_choose (buf r)) as (k & x & Hk).
  { intros He. destruct Hr as [Hb _]. unfold Available in *. rewrite He, map_size_empty in *. lia. }
  exists k. split; [by eexists|]. pose proof (u16_bound (k - seq r)) as Hu. unfold is_u16 in Hu. lia.
Qed.

Lemma acceptChunk_keeps_rb now cmd s res s' :
  acceptChunk now cmd s = Some (res, s') -> rb s' = rb s.
Proof.
  intros H. pose proof (acceptChunk_rb now cmd (rb s) s) as Hr.
  assert (s <| rb := rb s |> = s) as E by (by destruct s).
  rewrite E, H in Hr. cbn in Hr. injection Hr as Hr. apply (f_equal rb) in Hr. exact Hr.
Qed.

Lemma chunkLoop_ends fuel : forall now cmd s,
  rb_ok (rb s) -> (size (buf (rb s)) < fuel)%nat ->
  exists o, chunkLoop fuel now cmd false s = Some o
    /\ forall res s', o = Some (res, s') -> rb_ok (rb s').
Proof.
  induction fuel as [|fuel IH]; intros now cmd s Hok Hsz; [lia|].
  rewrite chunkLoop_step, handleChunk_unchecked.
  destruct (acceptChunk now cmd s) as [[res s1]|] eqn:E; [|by exists None].
  unfold drainChunks. rewrite (acceptChunk_keeps_rb _ _ _ _ _ E).
  destruct (Pop_ends (rb s) Hok) as (o & r' & -> & Hok' & Hsz'). cbn [mbind option_bind].
  destruct o as [x|]; [apply IH; [done|cbn; lia]|]. eexists. split; [done|].
  by intros res' s' [= <- <-].
Qed.

Lemma rd16_u16 l i x : bytes_ok l -> rd16 l i = Some x -> is_u16 x.
Proof.
  intros Hl. unfold rd16, rd. repeat case_decide; cbn; try done.
  all: destruct (l !! Z.to_nat i) as [a|] eqn:Ea; cbn; [|done].
  all: try (destruct (l !! Z.to_nat (i + 1)) as [b|] eqn:Eb; cbn; [|done]).
  all: intros [= <-] || done.
  pose proof (Forall_lookup_1 _ _ _ _ Hl Ea). pose proof (Forall_lookup_1 _ _ _ _ Hl Eb). ints.
Qed.

Lemma chunkSeq_u16 cmd sq : bytes_ok cmd -> chunkSeq cmd = Some sq -> is_u16 sq.
Proof.
  intros Hb. unfold chunkSeq, chunkBody. destruct (rd cmd 1) as [flags|]; [|done]. cbn [mbind option_bind].
  intros H. destruct (if Z.land flags 8 =? 0 then _ else _) as [cmd2|] eqn:E; [|done].
  eapply rd16_u16; [|exact H].
  destruct (Z.land flags 8 =? 0); apply sub_Some in E as (_ & _ & ->); by apply seg_ok.
Qed.

Lemma write25_keeps_rb c m t t' : write25 c m t = Some t' -> rb t' = rb t.
Proof. unfold write25. destruct (SessionWrite c m (base t)); [|done]. by intros [= <-]. Qed.
Lemma ackCounters_keeps_rb now t t' : ackCounters now t = Some t' -> rb t' = rb t.
Proof. destruct (ackCounters_some now t) as [m ->]. by intros [= <-]. Qed.
Lemma answer_keeps_rb (o : option bytes) c (m : msgType) s res s' :
  (ack ← o; t ← write25 c ack s; Some (m, t)) = Some (res, s') -> rb s' = rb s.
Proof.
  destruct o as [ack|]; [|done]. cbn [mbind option_bind].
  destruct (write25 c ack s) as [t|] eqn:E; [|done]. cbn [mbind option_bind].
  intros [= <- <-]. by apply write25_keeps_rb in E.
Qed.
Lemma handleCh1_25_keeps_rb cmd spare s res s' :
  handleCh1_25 cmd spare s = Some (res, s') -> rb s' = rb s.
Proof.
  unfold handleCh1_25. destruct (cut cmd spare 0 2) as [cid|]; [|done]. cbn [mbind option_bind].
  destruct (decide (cid = _)); [by intros [= <- <-]|].
  destruct (decide (cid = _)); [apply answer_keeps_rb|].
  destruct (decide (cid = _)); [apply answer_keeps_rb|].
  destruct (decide (cid = _)); [by intros [= <- <-]|].
  destruct (decide (cid = _)); by intros [= <- <-].
Qed.

(** Whatever arrives, reading it ends, with or without a panic, and the buffer is fit
    for the next message. *)
Theorem reading_ends now chID from cmd spare s :
  bytes_ok cmd -> rb_ok (rb s) ->
  exists o, SessionRead25 now chID from cmd spare s = Some o
    /\ forall res s', o = Some (res, s') -> rb_ok (rb s').
Proof.
  intros Hb Hok. unfold SessionRead25.
  destruct (negb (chID =? 0)).
  { eexists. split; [done|]. intros res s' H. by rewrite (handleCh1_25_keeps_rb _ _ _ _ _ H). }
  destruct (rd cmd 0) as [c0|]; [|by exists None].
  destruct (_ || _ || _).
  - unfold chunkFuel. rewrite chunkLoop_step. unfold handleChunk.
    destruct (chunkBody cmd) as [cmd2|] eqn:Eb; [|by exists None]. cbn [mbind option_bind].
    destruct (rd16 cmd2 2) as [sq|] eqn:Es; [|by exists None]. cbn [mbind option_bind].
    assert (is_u16 sq) as Hsq by (apply (chunkSeq_u16 cmd); [done|]; unfold chunkSeq; by rewrite Eb).
    assert (forall t res, rb_ok (rb t) -> (size (buf (rb t)) <= S (size (buf (rb s))))%nat ->
              exists o, drainChunks (S (size (buf (rb s)))) now res t = Some o
                /\ forall res s', o = Some (res, s') -> rb_ok (rb s')) as Hdrain.
    { intros t res Ht Hz. unfold drainChunks.
      destruct (Pop_ends _ Ht) as (o & r' & -> & Hok' & Hsz'). cbn [mbind option_bind].
      destruct o as [x|]; [apply chunkLoop_ends; [done|cbn; lia]|]. eexists. split; [done|].
      by intros res' s' [= <- <-]. }
    destruct (RbCheck sq (rb s)).
    + destruct (acceptChunk now cmd _) as [[res s1]|] eqn:E; [|by exists None].
      apply acceptChunk_keeps_rb in E. apply Hdrain; rewrite E; cbn; [by apply rb_ok_next|lia].
    + apply Hdrain; cbn.
      * destruct Hok as (H1 & H2 & H3). split_and!; [done..|]. cbn. intros k [y Hy].
        rewrite lookup_insert_Some in Hy. destruct Hy as [[<- _]|[_ Hy]]; [done|]. apply H3. by exists y.
      * rewrite map_size_insert. destruct (buf (rb s) !! sq); unfold id; lia.
  - eexists. split; [done|]. intros res s'.
    destruct (c0 =? 0).
    + destruct (ackCounters now s) as [t|] eqn:Ea; [|done]. apply ackCounters_keeps_rb in Ea. cbn [mbind option_bind].
      destruct (rd16 cmd 2); [|done]. destruct (rd cmd 1) as [c1|]; [|done]. cbn [mbind option_bind].
      repeat case_match; try (intros [= <- <-]; cbn; by rewrite Ea).
      destruct (sub cmd 28 _); [|done]. destruct (sendCmd _ _); [|done].
      intros [= <- <-]. cbn. by rewrite Ea.
    + destruct (c0 =? 9).
      { destruct (rd16 cmd 12); [|done]. cbn [mbind option_bind]. case_match; by intros [= <- <-]. }
      destruct (c0 =? 10); [|by intros [= <- <-]].
      intros H. by rewrite (answer_keeps_rb _ _ _ _ _ _ H).
Qed.

Lemma reading_ends_witness :
  bytes_ok (demoChunk 1 7 2 1 demoTail) /\ rb_ok (rb demoSession)
  /\ exists o, SessionRead25 0 0 28 (demoChunk 1 7 2 1 demoTail) [] demoSession = Some o
       /\ forall res s', o = Some (res, s') -> rb_ok (rb s').
Proof.
  assert (bytes_ok (demoChunk 1 7 2 1 demoTail)) as Hb by bytes_lit.
  assert (rb_ok (rb demoSession)) as Hok.
  { split_and!; [done|unfold is_u16; cbn; lia|]. intros k [x Hx]. discriminate Hx. }
  split_and!; [exact Hb|exact Hok|].
  exact (reading_ends 0 0 28 (demoChunk 1 7 2 1 demoTail) [] demoSession Hb Hok).
Defined.
