(* ===== verification/TutkCommands.v ===== *)
(** Commands and messages of the [tutk] sessions, frames of protocol 16, and inputs that
    break a connection. *)

From S2P Require Import Prelude Text Crypto TutkSession TutkReorder TutkSessionFacts.

(** ** Reading what was stored *)

Lemma rd_blit_in off src p i :
  Z.of_nat off <= i < Z.of_nat off + len src -> i < len p ->
  rd (blit off src p) i = rd src (i - Z.of_nat off).
Proof.
  intros Hi Hp. unfold rd, len in *. rewrite !decide_True by lia. unfold blit.
  rewrite lookup_app_r by (rewrite length_take; lia). rewrite length_take, Nat.min_l by lia.
  rewrite lookup_app_l by (rewrite length_take; lia).
  rewrite lookup_take_lt by lia. f_equal. lia.
Qed.
Lemma rd_blit_out off src p i :
  (off <= length p)%nat -> ~ (Z.of_nat off <= i < Z.of_nat off + len src) ->
  rd (blit off src p) i = rd p i.
Proof.
  intros Ho Hi. unfold rd, len in *. case_decide as H0; [|done]. unfold blit.
  destruct (decide (Z.to_nat i < off)%nat) as [Hlt|Hge].
  - rewrite lookup_app_l by (rewrite length_take; lia). by rewrite lookup_take_lt.
  - rewrite lookup_app_r by (rewrite length_take; lia). rewrite length_take, Nat.min_l by lia.
    destruct (decide (Z.to_nat i < length p)%nat) as [Hp|Hp].
    + rewrite lookup_app_r by (rewrite length_take; lia). rewrite length_take, lookup_drop.
      rewrite Nat.min_r by lia. f_equal. lia.
    + rewrite (lookup_ge_None_2 p) by lia.
      apply lookup_ge_None_2. rewrite length_app, length_take, length_drop. lia.
Qed.

(** A store that reaches exactly to the end. *)
Lemma blit_end off src p :
  length p = (off + length src)%nat -> blit off src p = take off p ++ src.
Proof.
  intros H. unfold blit. rewrite (take_ge src) by lia. rewrite drop_ge by lia. by rewrite app_nil_r.
Qed.

(** ** The HL messages ([helpers.go]) *)

(** Parsing gives back the command and the payload, as long as header and payload
    together are shorter than 65536 bytes. *)
Theorem hl_roundtrip cmdID payload :
  is_u16 cmdID -> len payload + 16 < 65536 ->
  exists b, HL cmdID payload = Some b /\ len b = 16 + len payload
    /\ ParseHL b = Some (cmdID, payload, true).
Proof.
  intros Hc Hl. pose proof (len_nonneg payload) as Hp. unfold HL.
  assert (len (make (16 + len payload)) = 16 + len payload) as Hm by (apply len_make; lia).
  stores. eexists. split; [done|].
  assert (make (16 + len payload) = zeros 16 ++ zeros (length payload)) as ->.
  { unfold make, zeros, len. rewrite <-replicate_add. f_equal. lia. }
  rewrite blit_end by (rewrite !length_blit, length_app; unfold zeros; rewrite !length_replicate; lia).
  rewrite len_app. split.
  { unfold len. rewrite length_take, !length_blit, length_app. unfold zeros. rewrite !length_replicate. lia. }
  change (Z.to_nat 16) with 16%nat. change (Z.to_nat 0) with 0%nat. change (Z.to_nat 2) with 2%nat.
  change (Z.to_nat 4) with 4%nat. change (Z.to_nat 6) with 6%nat.
  rewrite (u16_small (len payload)) by (unfold is_u16; lia).
  change (take 16 _) with ([72; 76; 5; 0] ++ le16 cmdID ++ le16 (len payload) ++ zeros 8).
  set (b := _ ++ payload). assert (len b = 16 + len payload) as Hb by (subst b; rewrite len_app; done).
  unfold ParseHL. rewrite Hb. rewrite (proj2 (Z.ltb_ge _ _)) by lia.
  change (rd b 0) with (Some 72). change (rd b 1) with (Some 76). cbn [mbind option_bind].
  change (rd16 b 4) with (Some (cmdID mod 256 + 256 * (cmdID / 256 mod 256))).
  change (rd16 b 6) with (Some (len payload mod 256 + 256 * (len payload / 256 mod 256))).
  rewrite !le16_value by (done || (unfold is_u16; lia)). cbn [mbind option_bind].
  change (negb ((72 =? 72) && (76 =? 76))) with false. cbn match.
  rewrite Z.leb_refl, (u16_small (16 + len payload)) by (unfold is_u16; lia).
  rewrite sub_in by lia. cbn [mbind option_bind].
  do 3 f_equal. by apply seg_app_exact.
Qed.

Lemma hl_roundtrip_witness :
  exists b, HL 0x2A0 [1; 2; 3] = Some b /\ len b = 19 /\ ParseHL b = Some (0x2A0, [1; 2; 3], true).
Proof. apply (hl_roundtrip 0x2A0 [1; 2; 3]); [unfold is_u16; lia|reflexivity]. Defined.

(** ** Commands from one session to the other *)

Lemma rd_drop n l i : 0 <= i -> rd (drop n l) i = rd l (Z.of_nat n + i).
Proof.
  intros Hi. unfold rd. rewrite !decide_True by lia. rewrite lookup_drop. f_equal. lia.
Qed.
Lemma sub_drop n l a b : 0 <= a -> (n <= length l)%nat ->
  sub (drop n l) a b = sub l (Z.of_nat n + a) (Z.of_nat n + b).
Proof.
  intros Ha Hn. unfold sub, len. rewrite length_drop. repeat case_decide; try lia; try done.
  rewrite drop_drop. do 3 f_equal; lia.
Qed.
Lemma take_blit off src p :
  (off + length src <= length p)%nat ->
  take (off + length src) (blit off src p) = take off p ++ src.
Proof.
  intros H. unfold blit. rewrite (take_ge src) by lia.
  rewrite (app_assoc (take off p)). apply take_app_length'. rewrite length_app, length_take. lia.
Qed.

(** The end of a command message, from the offset of the command's type on. *)
Lemma command_tail (o : nat) ctrlType data p :
  length p = (o + 4 + length data)%nat ->
  drop o (blit (o + 4) data (blit o (le32 ctrlType) p)) = le32 ctrlType ++ data.
Proof.
  intros H. rewrite blit_end by (rewrite length_blit; done).
  pose proof (take_blit o (le32 ctrlType) p) as Ht. change (length (le32 ctrlType)) with 4%nat in Ht.
  rewrite Ht by lia.
  rewrite <-app_assoc. apply drop_app_length'. rewrite length_take. lia.
Qed.

Lemma sub_to_end l a : 0 <= a <= len l -> sub l a (len l) = Some (drop (Z.to_nat a) l).
Proof.
  intros H. rewrite sub_in by lia. unfold seg. f_equal. apply take_ge. rewrite length_drop.
  unfold len in *. lia.
Qed.

Lemma recv_command (mem : bytes) (s : Session16) (r : cmdRef) ctrlType data :
  is_u32 ctrlType -> rawCmd s = [r] -> deref mem r = Some (le32 ctrlType ++ data) ->
  fst <$> RecvIOCtrl mem s = Some (Got (ctrlType, data)).
Proof.
  intros Ht Hr Hd. unfold RecvIOCtrl. rewrite Hr, Hd. cbn [mbind option_bind].
  assert (rd32 (le32 ctrlType ++ data) 0 = Some ctrlType) as ->.
  { rewrite rd32_in by (rewrite ?len_app, ?len_le32; pose proof (len_nonneg data); lia).
    f_equal. by apply le32_value. }
  cbn [mbind option_bind].
  rewrite sub_to_end by (rewrite len_app, len_le32; pose proof (len_nonneg data); lia). done.
Qed.

Ltac outside := rewrite rd_blit_out by (rewrite ?length_blit; unfold len in *; cbn; lia).

(** A command sent by a protocol 16 session is the command such a session receives; the
    sender counts it, the receiver acknowledges it with its sequence number. *)
Theorem command16_roundtrip ctrlType data now b c spare mem :
  is_u32 ctrlType -> len data < 65480 -> chClosed c = false -> rawCmd c = [] ->
  exists msg b',
    SendIOCtrl ctrlType data now b = Some (msg, b')
    /\ seqSendCmd1 b' = u16 (seqSendCmd1 b + 1)
    /\ exists ack c',
    SessionRead 0 (drop 28 msg) spare c = Some (msgCommand, c')
    /\ sent c' = sent c ++ [ack]
    /\ fst <$> RecvIOCtrl mem c' = Some (Got (ctrlType, data)).
Proof.
  intros Ht Hl Hc Hr. pose proof (len_nonneg data) as Hd. unfold SendIOCtrl.
  rewrite (u16_small (len data)), (u16_small (4 + len data)) by (unfold is_u16; lia).
  cbv zeta. unfold msgHhrSize, cmdHdrSize.
  rewrite (u16_small (28 + 24 + (4 + len data))) by (unfold is_u16; lia).
  destruct (Msg_some (28 + 24 + (4 + len data)) b ltac:(lia)) as (m & -> & Hm). stores.
  set (p := blit (Z.to_nat (28 + 20)) _ _).
  set (msg := blit _ data _).
  assert (len p = 56 + len data) as Hp by (subst p; rewrite !length_blit_len; lia).
  assert (len msg = 56 + len data) as Hmsg by (subst msg; rewrite !length_blit_len; lia).
  assert (drop 52 msg = le32 ctrlType ++ data) as Htail.
  { apply (command_tail 52). unfold len in *. lia. }
  assert (rd (drop 28 msg) 0 = Some 0x00 /\ rd (drop 28 msg) 1 = Some 0x70) as [H0 H1].
  { rewrite !rd_drop by lia. subst msg p. split; repeat outside; rewrite rd_blit_in by (unfold len in *; cbn; lia); done. }
  assert (len (drop 28 msg) = 28 + len data) as Hcmd.
  { unfold len in *. rewrite length_drop. lia. }
  exists msg. eexists. split; [reflexivity|]. split; [reflexivity|].
  unfold SessionRead. cbn [Z.eqb negb]. rewrite H0. cbn [mbind option_bind Z.eqb].
  rewrite H1. cbn [mbind option_bind]. change (0x70 =? 0x70) with true. cbn match.
  unfold msgAck0070. destruct (Msg_some (msgHhrSize + cmdHdrSize) c) as (a & -> & Ha); [done|].
  unfold msgHhrSize, cmdHdrSize in Ha. unfold cut.
  pose proof (len_nonneg spare). cbn [mbind option_bind].
  rewrite (copyAt_some 28) by lia. cbn [mbind option_bind].
  rewrite (sub_in _ 2 6) by (rewrite ?len_app; lia). cbn [mbind option_bind].
  rewrite (copyAt_some (28 + 2)) by (rewrite ?length_blit_len; lia). cbn [mbind option_bind].
  rewrite (sub_in _ 20 24) by (rewrite ?len_app; lia). cbn [mbind option_bind].
  rewrite (copyAt_some (28 + 20)) by (rewrite ?length_blit_len; lia). cbn [mbind option_bind].
  match goal with |- context [SessionWrite 0 ?x c] =>
    destruct (SessionWrite_some 0 x c) as (ack & _ & ->) end; [rewrite !length_blit_len; lia|].
  cbn [mbind option_bind]. rewrite sub_to_end by lia. cbn [mbind option_bind].
  replace (drop (Z.to_nat 24) (drop 28 msg)) with (le32 ctrlType ++ data) by (by rewrite drop_drop).
  unfold sendCmd. cbn [chClosed]. cbn. rewrite Hc, Hr. cbn.
  exists ack. eexists. split; [reflexivity|]. split; [reflexivity|].
  by apply (recv_command _ _ (Copied (le32 ctrlType ++ data))).
Qed.

Definition demoBase : Session16 := mkSession16 (zeros 16) [] [] false 0 0 0 0 0 0 0 [] [].
Lemma command16_roundtrip_witness :
  exists msg b', SendIOCtrl 0x1FF [1; 2] 5 demoBase = Some (msg, b') /\ seqSendCmd1 b' = 1
    /\ exists ack c', SessionRead 0 (drop 28 msg) [9] demoBase = Some (msgCommand, c')
         /\ sent c' = [ack] /\ fst <$> RecvIOCtrl [] c' = Some (Got (0x1FF, [1; 2])).
Proof.
  apply (command16_roundtrip 0x1FF [1; 2] 5 demoBase demoBase [9] []); [unfold is_u32; lia|reflexivity..].
Defined.

(** The same between two sessions of protocol 25.  The receiver keeps a reference into
    the read buffer, so the command is what was sent as long as the buffer [msg ++ spare]
    is not read into again. *)
Theorem command25_roundtrip ctrlType data b s spare now :
  is_u32 ctrlType -> len data < 65476 -> chClosed (base s) = false -> rawCmd (base s) = [] ->
  exists msg b',
    SendIOCtrl25 ctrlType data b = Some (msg, b')
    /\ seqSendCmd1 (base b') = u16 (seqSendCmd1 (base b) + 1)
    /\ seqSendCmd2 b' = u16 (seqSendCmd2 b + 1)
    /\ exists s',
         SessionRead25 now 0 28 (drop 28 msg) spare s = Some (Some (msgCommand, s'))
         /\ fst <$> RecvIOCtrl (msg ++ spare) (base s') = Some (Got (ctrlType, data)).
Proof.
  intros Ht Hl Hc Hr. pose proof (len_nonneg data) as Hd. unfold SendIOCtrl25.
  rewrite (u16_small (len data)) by (unfold is_u16; lia). cbv zeta. unfold msgHhrSize, cmdHdrSize25.
  rewrite (u16_small (28 + 28 + 4 + len data)) by (unfold is_u16; lia).
  destruct (Msg_some (28 + 28 + 4 + len data) (base b) ltac:(lia)) as (m & -> & Hm). stores.
  set (p := blit (Z.to_nat (28 + 20)) _ _). set (msg := blit _ data _).
  assert (len p = 60 + len data) as Hp by (subst p; rewrite !length_blit_len; lia).
  assert (len msg = 60 + len data) as Hmsg by (subst msg; rewrite !length_blit_len; lia).
  assert (drop 56 msg = le32 ctrlType ++ data) as Htail.
  { apply (command_tail 56). unfold len in *. lia. }
  assert (rd (drop 28 msg) 0 = Some 0x00 /\ rd (drop 28 msg) 1 = Some 0x70) as [H0 H1].
  { rewrite !rd_drop by lia. subst msg p. split; repeat outside;
      rewrite rd_blit_in by (unfold len in *; cbn; lia); done. }
  assert (len (drop 28 msg) = 32 + len data) as Hcmd.
  { unfold len in *. rewrite length_drop. lia. }
  exists msg. eexists. split; [reflexivity|]. split; [reflexivity|]. split; [reflexivity|].
  unfold SessionRead25. cbn [Z.eqb negb]. rewrite H0. cbn match.
  change ((0 =? 3) || (0 =? 5) || (0 =? 7)) with false. change (0 =? 0) with true. cbn match.
  destruct (ackCounters_some now s) as [ack ->]. cbn [mbind option_bind].
  rewrite rd16_in by lia. cbn [mbind option_bind]. rewrite H1. cbn [mbind option_bind].
  change (0x70 =? 16) with false. change (0x70 =? 33) with false. change (0x70 =? 112) with true. cbn match.
  rewrite sub_to_end by lia. cbn [mbind option_bind]. unfold sendCmd. cbn [chClosed]. cbn. rewrite Hc, Hr. cbn.
  eexists. split; [reflexivity|].
  apply (recv_command _ _ (Shared (28 + 28) (28 + len (drop 28 msg)))); [done|done|].
  cbn [deref]. rewrite Hcmd. rewrite sub_in by (rewrite ?len_app; pose proof (len_nonneg spare); lia).
  rewrite <-Htail. unfold seg. f_equal.
  rewrite drop_app_le by (unfold len in *; lia). change (Z.to_nat (28 + 28)) with 56%nat.
  apply take_app_length'. rewrite length_drop. unfold len in *. lia.
Qed.
Lemma command25_roundtrip_witness :
  exists msg b', SendIOCtrl25 0x1FF [1; 2] demoSession = Some (msg, b')
    /\ seqSendCmd1 (base b') = 1 /\ seqSendCmd2 b' = 1
    /\ exists s', SessionRead25 7 0 28 (drop 28 msg) [9] demoSession = Some (Some (msgCommand, s'))
         /\ fst <$> RecvIOCtrl (msg ++ [9]) (base s') = Some (Got (0x1FF, [1; 2])).
Proof.
  apply (command25_roundtrip 0x1FF [1; 2] demoSession demoSession [9] 7); [unfold is_u32; lia|reflexivity..].
Defined.

(** ** When a command counts as sent *)

(** The round that ends the sending: a failed write or an acknowledgement. *)
Definition ending (round : bool * bool) : Prop := round.1 = false \/ round.2 = true.
#[export] Instance ending_dec round : Decision (ending round).
Proof. unfold ending. apply _. Defined.

Definition outcome (rounds : list (bool * bool)) : sendResult * nat :=
  match list_find ending rounds with
  | Some (i, (written, _)) => (if (written : bool) then CommandSent else WriteFailed, S i)
  | None => (NotAcknowledged, length rounds)
  end.

Lemma sendLoop_outcome msg : 15 <= len msg -> forall k rounds b,
  (0 < k)%nat -> (k <= length rounds)%nat ->
  exists b', sendLoop (Z.of_nat k) rounds msg b = Some (Some ((outcome (take k rounds)).1, b'))
    /\ exists ms, sent b' = sent b ++ ms /\ length ms = (outcome (take k rounds)).2
         /\ Forall (fun m => len m = len msg) ms.
Proof.
  intros Hm. induction k as [|k IH]; intros [|[w a] rounds] b Hk Hl; cbn in Hl; try lia.
  cbn [sendLoop take]. destruct (SessionWrite_some 0 msg b Hm) as (m' & Hm' & ->). cbn match.
  unfold outcome at 1 2. cbn [list_find].
  destruct w; cbn [negb].
  2: { rewrite decide_True by (by left). eexists. split; [done|].
       exists [m']. split_and!; [done|done|by constructor]. }
  destruct a.
  { rewrite decide_True by (by right). cbn. eexists. split; [done|].
    exists [m']. split_and!; [done|done|by constructor]. }
  rewrite decide_False by (intros [|]; done).
  destruct (Z.ltb_spec (Z.of_nat (S k) - 1) 0); [lia|].
  destruct (Z.eqb_spec (Z.of_nat (S k) - 1) 0) as [He|He].
  - assert (k = 0%nat) as -> by lia. cbn. eexists. split; [done|].
    exists [m']. split_and!; [done|done|by constructor].
  - replace (Z.of_nat (S k) - 1) with (Z.of_nat k) by lia.
    match goal with |- context [sendLoop _ _ _ ?b0] =>
      destruct (IH rounds b0) as (b' & Hs & ms & Hms & Hlen & Hall); [lia|lia|] end.
    exists b'. unfold outcome in Hs, Hlen. rewrite Hs.
    destruct (list_find ending (take k rounds)) as [[i [w' a']]|]; cbn in *;
      (split; [done|]; exists (m' :: ms); rewrite Hms, <-app_assoc; split_and!;
       [done|cbn; lia|by constructor]).
Qed.

(** With five rounds' worth of time, sending a command always comes to an end: it
    succeeds exactly when an acknowledgement comes in one of the five rounds before a
    write fails, fails with the write when one does, and otherwise gives up; each round
    has sent the message once. *)
Theorem command_outcome ctrlType data now rounds b :
  len data < 65480 -> (5 <= length rounds)%nat ->
  exists b' ms, WriteCommand ctrlType data now rounds (S16 b)
      = Some (Some ((outcome (take 5 rounds)).1, S16 b'))
    /\ sent b' = sent b ++ ms /\ length ms = (outcome (take 5 rounds)).2
    /\ Forall (fun m => len m = 56 + len data) ms.
Proof.
  intros Hl Hr. pose proof (len_nonneg data) as Hd. unfold WriteCommand, SendIOCtrl.
  rewrite (u16_small (len data)), (u16_small (4 + len data)) by (unfold is_u16; lia).
  cbv zeta. unfold msgHhrSize, cmdHdrSize.
  rewrite (u16_small (28 + 24 + (4 + len data))) by (unfold is_u16; lia).
  destruct (Msg_some (28 + 24 + (4 + len data)) b ltac:(lia)) as (m & -> & Hm). stores.
  set (msg := blit _ data _).
  assert (len msg = 56 + len data) as Hmsg by (subst msg; rewrite !length_blit_len; lia).
  clearbody msg. cbn [sessionBase].
  match goal with |- context [sendLoop _ _ _ ?b0] =>
    destruct (sendLoop_outcome msg ltac:(lia) 5 rounds b0) as (b' & Hs & ms & Hms & Hlen & Hall); [lia|lia|] end.
  change (Z.of_nat 5) with 5 in Hs. exists b', ms. rewrite Hs. cbn. split_and!; [done|done|done|].
  by rewrite <-Hmsg.
Qed.
Lemma command_outcome_witness :
  exists b' ms, WriteCommand 0x1FF [1] 3 [(true, false); (true, true); (true, false); (true, false); (true, false)]
      (S16 demoBase) = Some (Some (CommandSent, S16 b'))
    /\ sent b' = ms /\ length ms = 2%nat /\ Forall (fun m => len m = 57) ms.
Proof.
  exact (command_outcome 0x1FF [1] 3 [(true, false); (true, true); (true, false); (true, false); (true, false)]
    demoBase eq_refl (le_n 5)).
Defined.

(** ** Frames of protocol 16 *)

(** A chunk of the frame with sequence number [fs]: its place, the bytes, and the sizes
    of payload and frame information it announces. *)
Record chunk16 (fs : Z) (f : frame) (i : nat) (cmd data : bytes) : Prop := {
  k_kind : rd cmd 0 = Some 0x01 /\ rd cmd 1 = Some 0x03;
  k_frame : rd16 cmd 4 = Some fs;
  k_chunk : rd16 cmd 12 = Some (Z.of_nat i);
  k_payload : rd32 cmd 8 = Some (len f.2);
  k_info : rd16 cmd 14 = Some (len f.1);
  k_data : sub cmd 24 (len cmd) = Some data;
}.

Fixpoint read16 (cmds : list (bytes * bytes)) (s : Session16) : option Session16 :=
  match cmds with
  | [] => Some s
  | (cmd, spare) :: cmds => '(_, s) ← SessionRead 0 cmd spare s; read16 cmds s
  end.

Lemma read_chunk16 fs f i cmd data spare s :
  chunk16 fs f i cmd data ->
  SessionRead 0 cmd spare s
  = if (Z.of_nat i =? 0) || (fs =? waitFSeq s) && (Z.of_nat i =? waitCSeq s) then
      let s := if Z.of_nat i =? 0
               then s <| waitFSeq := fs |> <| waitCSeq := 0 |> <| waitData := [] |>
                      <| waitSize := len f.1 + len f.2 |> else s in
      let s := s <| waitData := waitData s ++ data |> in
      if len (waitData s) <? waitSize s
      then Some (msgMediaChunk, s <| waitCSeq := u16 (waitCSeq s + 1) |>)
      else info ← sub (waitData s) (len f.2) (len (waitData s));
           payload ← sub (waitData s) 0 (len f.2);
           sendPkt (info, payload) (s <| waitCSeq := 0 |>)
    else Some (msgMediaLost, s <| waitCSeq := 0 |>).
Proof.
  intros [[H0 H1] Hf Hc Hp Hi Hd]. unfold SessionRead. cbn [Z.eqb negb]. rewrite H0.
  cbn [mbind option_bind]. change (1 =? 1) with true. cbn match. rewrite H1. cbn [mbind option_bind].
  change (3 =? 3) with true. cbn match. unfold mediaChunk. rewrite Hf, Hc, Hp, Hi, Hd.
  cbn [mbind option_bind].
  destruct (Z.of_nat i =? 0); cbn [orb mbind option_bind]; [by destruct (_ <? _)|].
  destruct (fs =? waitFSeq s); cbn [negb andb orb mbind option_bind]; [|done].
  destruct (Z.of_nat i =? waitCSeq s); cbn [negb mbind option_bind]; [|done].
  by destruct (_ <? _).
Qed.

Section Frame16.
Context (fs : Z) (f : frame) (parts : list (bytes * bytes * bytes)).
Context (Hchunks : forall i c, parts !! i = Some c -> chunk16 fs f i c.1.1 c.2).
Context (Hall : concat parts.*2 = f.2 ++ f.1).
Context (Hlast : forall i, (i < length parts)%nat -> len (concat (take i parts.*2)) < len f.2 + len f.1).
Context (Hlen : len parts < 65536).

Lemma split16 :
  let w := f.2 ++ f.1 in
  sub w (len f.2) (len w) = Some f.1 /\ sub w 0 (len f.2) = Some f.2.
Proof.
  intros w. subst w. pose proof (len_nonneg f.1). pose proof (len_nonneg f.2).
  split; (rewrite sub_in by (rewrite ?len_app; lia)); f_equal.
  - rewrite len_app. by apply seg_app_exact.
  - unfold seg, len. rewrite drop_0. by rewrite take_app_length' by lia.
Qed.

Lemma steps16 rest : forall i s,
  drop i parts = rest -> rest <> [] ->
  i = 0%nat \/ (waitData s = concat (take i parts.*2) /\ waitFSeq s = fs
                /\ waitCSeq s = Z.of_nat i /\ waitSize s = len f.1 + len f.2) ->
  accepting 1 s ->
  exists s', read16 rest.*1 s = Some s' /\ rawPkt s' = rawPkt s ++ [f] /\ chClosed s' = false
    /\ waitCSeq s' = 0.
Proof.
  induction rest as [|[[cmd spare] data] rest IH]; intros i s Hd Hne Hg [Hcl Hr]; [done|].
  assert (parts !! i = Some (cmd, spare, data)) as Hi
    by (by rewrite <-(Nat.add_0_r i), <-lookup_drop, Hd).
  pose proof (lookup_lt_Some _ _ _ Hi) as Hil.
  assert (concat (take (S i) parts.*2) = concat (take i parts.*2) ++ data) as Hstep.
  { rewrite (take_S_r _ _ data) by (by rewrite list_lookup_fmap, Hi).
    rewrite concat_app. cbn. by rewrite app_nil_r. }
  cbn [fmap list_fmap fst read16].
  pose proof (Hchunks _ _ Hi) as Hk. cbn [fst snd] in Hk. rewrite (read_chunk16 _ _ _ _ _ spare s Hk).
  assert ((Z.of_nat i =? 0) || (fs =? waitFSeq s) && (Z.of_nat i =? waitCSeq s) = true) as ->.
  { destruct Hg as [->|(_ & -> & -> & _)]; [done|]. rewrite !Z.eqb_refl. apply orb_true_r. }
  cbv zeta. set (b := if Z.of_nat i =? 0 then _ else s).
  assert (waitData b ++ data = concat (take (S i) parts.*2) /\ waitFSeq b = fs
          /\ waitCSeq b = Z.of_nat i /\ waitSize b = len f.1 + len f.2
          /\ rawPkt b = rawPkt s /\ chClosed b = false) as (Hw & Hfs & Hcs & Hsz & Hp & Hc).
  { subst b. rewrite Hstep. destruct (Z.eqb_spec (Z.of_nat i) 0) as [H0|H0]; cbn.
    - assert (i = 0%nat) as -> by lia. done.
    - by destruct Hg as [->|(-> & ? & ? & ?)]. }
  clearbody b. cbn. rewrite Hw, Hsz.
  destruct (decide (S i = length parts)) as [Hl|Hl].
  - rewrite Hl, take_ge by (rewrite length_fmap; lia). rewrite Hall.
    destruct (Z.ltb_spec (len (f.2 ++ f.1)) (len f.1 + len f.2)) as [Hlt|_]; [rewrite len_app in Hlt; lia|].
    destruct split16 as [-> ->]. cbn. unfold sendPkt. cbn. rewrite Hc, Hp. unfold rawPktCap in *.
    rewrite (proj2 (Z.ltb_lt (len (rawPkt s)) 100)) by lia. cbn.
    assert (rest = []) as ->.
    { apply nil_length_inv. apply (f_equal length) in Hd. rewrite length_drop in Hd. cbn in Hd. lia. }
    eexists. split; [reflexivity|]. by destruct f.
  - destruct (Z.ltb_spec (len (concat (take (S i) parts.*2))) (len f.1 + len f.2)) as [_|Hge].
    2: { specialize (Hlast (S i) ltac:(lia)). lia. }
    cbn [mbind option_bind].
    assert (drop (S i) parts = rest) as Hd' by (by rewrite <-Nat.add_1_r, <-drop_drop, Hd).
    match goal with |- context [read16 _ ?s0] => destruct (IH (S i) s0) as (s1 & Ha & Hr1 & Hc1 & Hz) end.
    + done.
    + intros ->. apply (f_equal length) in Hd'. rewrite length_drop in Hd'. cbn in Hd'. lia.
    + right. cbn. split_and!; [done|done| |done]. rewrite Hcs. rewrite u16_small by (unfold is_u16, len in *; lia). lia.
    + split; cbn; [done|]. by rewrite Hp.
    + exists s1. split; [exact Ha|]. cbn in Hr1. by rewrite Hr1, Hp.
Qed.
End Frame16.

(** A frame whose chunks are read in order comes out of a protocol 16 session exactly,
    whatever the session was waiting for, and the session waits for a new frame. *)
Theorem frame16_delivered fs f parts s :
  (forall i c, parts !! i = Some c -> chunk16 fs f i c.1.1 c.2) ->
  parts <> [] -> len parts < 65536 -> concat parts.*2 = f.2 ++ f.1 ->
  (forall i, (i < length parts)%nat -> len (concat (take i parts.*2)) < len f.2 + len f.1) ->
  accepting 1 s ->
  exists s', read16 parts.*1 s = Some s' /\ rawPkt s' = rawPkt s ++ [f] /\ chClosed s' = false
    /\ waitCSeq s' = 0.
Proof. intros. by apply (steps16 fs f parts) with (i := 0%nat); [..|by left|]. Qed.

Definition demo16 (i : Z) (data : bytes) : bytes :=
  [1; 3; 8; 0; 7; 0; 0; 0] ++ le32 3 ++ le16 i ++ le16 2 ++ zeros 8 ++ data.
Definition demoParts : list (bytes * bytes * bytes) :=
  [(demo16 0 [1; 2], [99], [1; 2]); (demo16 1 [3; 21; 22], [], [3; 21; 22])].
Lemma frame16_delivered_witness :
  exists s', read16 demoParts.*1 demoBase = Some s' /\ rawPkt s' = [([21; 22], [1; 2; 3])]
    /\ chClosed s' = false /\ waitCSeq s' = 0.
Proof.
  apply (frame16_delivered 7 ([21; 22], [1; 2; 3]) demoParts demoBase).
  - intros [|[|i]] c H; vm_compute in H; try injection H as <-; try discriminate H;
      constructor; vm_compute; auto.
  - discriminate.
  - reflexivity.
  - reflexivity.
  - intros [|[|i]] H; vm_compute; try reflexivity. exfalso. vm_compute in H. lia.
  - split; [reflexivity|vm_compute; discriminate].
Defined.

(** ** Inputs that break a connection

    Every datagram below is enciphered as the camera would. *)

Definition demoConn (s : session) : Conn :=
  mkConn (make bufferSize) [192; 168; 1; 5] 32761 s [] 0 false.
Definition fromCamera (m : bytes) : datagram :=
  mkDatagram [192; 168; 1; 5] 32761 (TransCodePartial [] m).
Definition sessionMsg (ch : Z) (cmd : bytes) : bytes :=
  [4; 2; 0x19; 0x0a] ++ le16 (12 + len cmd) ++ [0; 0; 8; 4; 0x12; 0; 0; 0; ch; 0] ++ zeros 12 ++ cmd.

(** A message that ends inside the session header makes the worker panic. *)
Lemma short_message_panics :
  workerStep 0 (fromCamera (take 20 (sessionMsg 0 []))) (demoConn (S16 demoBase)) = Some None
  /\ workerStep 0 (fromCamera (take 20 (sessionMsg 0 []))) (demoConn (S25 demoSession)) = Some None.
Proof. split; vm_compute; reflexivity. Qed.

(** So does the last chunk of a protocol 25 frame with less than 32 bytes, *)
Lemma short_frame_panics :
  workerStep 0 (fromCamera (sessionMsg 0 (demoChunk 1 65534 1 0 [1; 2; 3]))) (demoConn (S25 demoSession))
  = Some None.
Proof. vm_compute. reflexivity. Qed.

(** and a protocol 16 chunk whose payload size is more than its frame has. *)
Lemma lying_chunk_panics :
  let c0 := [1; 3; 8; 0; 7; 0; 0; 0] ++ le32 3 ++ le16 0 ++ le16 0 ++ zeros 8 ++ [1] in
  let c1 := [1; 3; 8; 0; 7; 0; 0; 0] ++ le32 9 ++ le16 1 ++ le16 0 ++ zeros 8 ++ [2; 3] in
  (exists s, SessionRead 0 c0 [] demoBase = Some (msgMediaChunk, s)
     /\ SessionRead 0 c1 [] s = None).
Proof. eexists. split; vm_compute; reflexivity. Qed.

(** A command of a protocol 25 camera that waits to be read is overwritten by the next
    datagram, even one from somewhere else. *)
Lemma waiting_command_overwritten :
  let command := sessionMsg 0 ([0; 0x70] ++ zeros 26 ++ le32 0x1FF ++ [1; 2; 3; 4]) in
  (o ← workerStep 0 (fromCamera command) (demoConn (S25 demoSession)); c ← o;
   before ← RecvIOCtrl (mem c) (sessionBase (theSession c));
   o ← workerStep 0 (mkDatagram [10; 0; 0; 1] 7 (replicate 64 0xAA)) c; c ← o;
   after ← RecvIOCtrl (mem c) (sessionBase (theSession c));
   Some (before.1, after.1))
  = Some (Got (0x1FF, [1; 2; 3; 4]), Got (0xAAAAAAAA, [0xAA; 0xAA; 0xAA; 0xAA])).
Proof. vm_compute. reflexivity. Qed.

(** Five late duplicates fill the buffer, which then skips forward until it comes round
    to the first of them: they are handled as new, and the session waits for a position
    that is long past. *)
Definition lateDuplicates : list arrival :=
  map (fun q => mkArrival q 0 (demoChunk 0 q 9 1 []) []) [90; 91; 92; 93; 94].
Lemma late_duplicates_rewind :
  (o ← feed lateDuplicates (demoSession <| rb := mkReorderBuffer ∅ 100 5 |>);
   s ← o; Some (seq (rb s), size (buf (rb s)))) = Some (95, 0%nat).
Proof. vm_compute. reflexivity. Qed.

(** Sending audio over a protocol 25 session panics: the message is nil. *)
Lemma audio25_panics hdr payload now s : WritePacket hdr payload now (S25 s) = None.
Proof. reflexivity. Qed.

(** An answer of the cloud server that is too short panics. *)
Lemma short_cloud_answer_panics :
  connectRemote [zeros 8 ++ [0x01; 0x03; 0x43] ++ zeros 9] = None.
Proof. reflexivity. Qed.

(** A datagram from the camera's address, whatever its port: answers go to that port from
    then on. *)
Lemma port_followed d c :
  srcIP d = addrIP c -> 16 <= len (raw d) -> 16 <= len (mem c) ->
  addrPort (Read d c).1 = srcPort d /\ (Read d c).2 = Some (Z.min (len (mem c)) (len (raw d))).
Proof.
  intros Hip Hraw Hmem. unfold Read.
  assert (len (take (length (mem c)) (raw d)) = Z.min (len (mem c)) (len (raw d))) as Hl
    by (unfold len; rewrite length_take; lia).
  rewrite Hl. cbn [addrIP upd]. cbn. rewrite <-Hip, bool_decide_eq_true_2 by done.
  destruct (Z.ltb_spec (Z.min (len (mem c)) (len (raw d))) 16); [lia|]. done.
Qed.
