(* ===== verification/Cs2.v ===== *)
(** The CS2 connection of other cameras ([pkg/xiaomi/miss/cs2/conn.go]): packets with
    sequence numbers that may be lost, repeated or reordered, put together into streams
    of messages.  [None] is a run-time panic. *)

From S2P Require Import Prelude Text TutkSession.

Definition magic : Z := 0xF1.
Definition magicDrw : Z := 0xD1.
Definition magicTCP : Z := 0x68.
Definition msgLanSearch : Z := 0x30.
Definition msgPunchPkt : Z := 0x41.
Definition msgP2PRdyUDP : Z := 0x42.
Definition msgP2PRdyTCP : Z := 0x43.
Definition msgDrw : Z := 0xD0.
Definition msgDrwAck : Z := 0xD1.
Definition msgPing : Z := 0xE0.
Definition msgPong : Z := 0xE1.
Definition msgClose : Z := 0xF0.
Definition msgCloseAck : Z := 0xF1.

(** ** Data channels

    [popBuf] is what the channel to the reader holds. *)
Record dataChannel := mkDataChannel {
  waitSeq : Z;
  pushBuf : gmap Z bytes;
  pushSize : Z;
  waitData : bytes;
  waitSize : Z;
  popBuf : list bytes;
  popCap : Z;
  popClosed : bool;
}.
#[export] Instance eta_dataChannel : Eta dataChannel := fun c =>
  mkDataChannel (waitSeq c) (pushBuf c) (pushSize c) (waitData c) (waitSize c) (popBuf c)
    (popCap c) (popClosed c).

Definition newDataChannel (pushSize popSize : Z) : dataChannel :=
  mkDataChannel 0 ∅ (if 0 <? pushSize then pushSize else 0) [] 0 [] popSize false.

(** What [Push] came to. *)
Inductive pushResult :=
  | Pushed
  | PopBufferFull.

(** The rounds of [Push].  The outer [None] is running out of fuel, the inner one a send
    on a closed channel. *)
Fixpoint pushLoop (fuel : nat) (c : dataChannel) : option (option (pushResult * dataChannel)) :=
  match fuel with
  | O => None
  | S fuel =>
      if len (waitData c) <=? 4 then Some (Some (Pushed, c)) else
      let c := if waitSize c =? 0
               then c <| waitSize := default 0 (rdbe32 (waitData c) 0) |>
                      <| waitData := drop 4 (waitData c) |>
               else c in
      if len (waitData c) <? waitSize c then Some (Some (Pushed, c)) else
      if popClosed c then Some None else
      if popCap c <=? len (popBuf c) then Some (Some (PopBufferFull, c)) else
      pushLoop fuel
        (c <| popBuf := popBuf c ++ [take (Z.to_nat (waitSize c)) (waitData c)] |>
           <| waitData := drop (Z.to_nat (waitSize c)) (waitData c) |>
           <| waitSize := 0 |>)
  end.

Definition Push (b : bytes) (c : dataChannel) : option (option (pushResult * dataChannel)) :=
  let c := c <| waitData := waitData c ++ b |> in
  pushLoop (S (length (waitData c))) c.

Definition Pop (c : dataChannel) : received bytes * dataChannel :=
  match popBuf c with
  | [] => (if popClosed c then AtEOF else Blocks, c)
  | data :: rest => (Got data, c <| popBuf := rest |>)
  end.

Definition Close (c : dataChannel) : option dataChannel :=
  if popClosed c then None else Some (c <| popClosed := true |>).

(** [int16(x)]. *)
Definition int16 (x : Z) : Z := let y := u16 x in if y <? 32768 then y else y - 65536.

(** The data that arrived, and what the buffer has behind it. *)
Fixpoint seqLoop (fuel : nat) (i : Z) (data : bytes) (c : dataChannel)
    : option (option (Z * pushResult * dataChannel)) :=
  match fuel with
  | O => None
  | S fuel =>
      o ← Push data c;
      match o with
      | None => Some None
      | Some (PopBufferFull, c) => Some (Some (i, PopBufferFull, c))
      | Some (Pushed, c) =>
          let c := c <| waitSeq := u16 (waitSeq c + 1) |> in
          match pushBuf c !! waitSeq c with
          | Some data => seqLoop fuel (i + 1) data (c <| pushBuf := delete (waitSeq c) (pushBuf c) |>)
          | None => Some (Some (i, Pushed, c))
          end
      end
  end.

Definition PushSeq (seq : Z) (data : bytes) (c : dataChannel)
    : option (option (Z * pushResult * dataChannel)) :=
  let diff := int16 (seq - waitSeq c) in
  if 0 <? diff then
    Some (Some (
      if pushSize c =? 0 then (-1, Pushed, c)
      else match pushBuf c !! seq with
           | Some _ => (0, Pushed, c)
           | None =>
               if Z.of_nat (size (pushBuf c)) =? pushSize c then (-1, Pushed, c)
               else (0, Pushed, c <| pushBuf := <[seq := data]> (pushBuf c) |>)
           end))
  else if diff <? 0 then Some (Some (0, Pushed, c))
  else seqLoop (S (size (pushBuf c))) 1 data c.

(** ** Messages *)

Definition marshalCmd (channel seq cmd : Z) (payload : bytes) : bytes :=
  let size := len payload in
  [magic; msgDrw] ++ be16 (u16 (4 + 4 + 4 + size)) ++ [magicDrw; channel] ++ be16 seq
  ++ be32 (u32 (4 + size)) ++ be32 cmd ++ payload.

Definition hdrSize : Z := 32.

(** [hdr] is copied twice. *)
Definition marshalPacket (seq : Z) (hdr payload : bytes) : option bytes :=
  let n := u32 (hdrSize + u32 (len payload)) in
  let req := make (u32 (n + 12)) in
  req ← put 0 [magic] req;
  req ← put 1 [msgDrw] req;
  req ← put 2 (be16 (u16 (u32 (n + 8)))) req;
  req ← put 4 [magicDrw] req;
  req ← put 5 [3] req;
  req ← put 6 (be16 seq) req;
  req ← put 8 (be32 n) req;
  req ← copyAt 12 hdr req;
  copyAt (12 + hdrSize) hdr req.

(** ** The connection *)

(** [channels] are those of index 0 and 2; the other two are nil.  [written] is what was
    handed to the transport, [acks] counts the calls of [cmdAck]. *)
Record Conn := mkConn {
  isTCP : bool;
  seqCh0 : Z;
  seqCh3 : Z;
  ch0 : dataChannel;
  ch2 : dataChannel;
  keepaliveTS : Z;
  written : list bytes;
  acks : Z;
  failed : bool;
}.
#[export] Instance eta_Conn : Eta Conn := fun c =>
  mkConn (isTCP c) (seqCh0 c) (seqCh3 c) (ch0 c) (ch2 c) (keepaliveTS c) (written c) (acks c)
    (failed c).

Definition NewConn (isTCP : bool) : Conn :=
  mkConn isTCP 0 0 (newDataChannel 0 10) (newDataChannel 250 100) (-1) [] 0 false.

Definition write (b : bytes) (c : Conn) : Conn := c <| written := written c ++ [b] |>.

(** [c.channels[ch]]: [None] is an index out of range or a nil channel. *)
Definition channel (ch : Z) (c : Conn) : option dataChannel :=
  if ch =? 0 then Some (ch0 c) else if ch =? 2 then Some (ch2 c) else None.
Definition setChannel (ch : Z) (d : dataChannel) (c : Conn) : Conn :=
  if ch =? 0 then c <| ch0 := d |> else c <| ch2 := d |>.

(** The end of [worker]. *)
Definition stop (c : Conn) : option Conn :=
  a ← Close (ch0 c); b ← Close (ch2 c);
  Some (c <| ch0 := a |> <| ch2 := b |> <| failed := true |>).

(** A DRW message in [buf[:n]]; the inner [None] is a panic.  [now] and [keepaliveTS] are
    in milliseconds. *)
Definition handleDrw (now n : Z) (buf : bytes) (c : Conn) : option (option Conn) :=
  match rd buf 5 with
  | None => Some None
  | Some ch =>
      match sub buf 8 n, channel ch c with
      | Some data, Some d =>
          if isTCP c then
            let c := if keepaliveTS c <? now
                     then (write [magic; msgPing; 0; 0] c) <| keepaliveTS := now + 1000 |> else c in
            o ← Push data d;
            Some ('(r, d) ← o;
                  match r with
                  | Pushed => Some (setChannel ch d c)
                  | PopBufferFull => stop (setChannel ch d c)
                  end)
          else
            match rd buf 6, rd buf 7 with
            | Some hi, Some lo =>
                o ← PushSeq (256 * hi + lo) data d;
                Some ('(pushed, r, d) ← o;
                      let c := setChannel ch d c in
                      let c := if 0 <=? pushed
                               then write [magic; msgDrwAck; 0; 6; magicDrw; ch; 0; 1; hi; lo] c else c in
                      match r with
                      | Pushed => Some c
                      | PopBufferFull => stop c
                      end)
            | _, _ => Some None
            end
      | _, _ => Some None
      end
  end.

(** One round of [worker]. *)
Definition workerStep (now n : Z) (buf : bytes) (c : Conn) : option (option Conn) :=
  match rd buf 1 with
  | None => Some None
  | Some kind =>
      if kind =? msgDrw then handleDrw now n buf c
      else Some (Some (
        if kind =? msgPing then write [magic; msgPong; 0; 0] c
        else if kind =? msgDrwAck then c <| acks := acks c + 1 |>
        else c))
  end.

Definition ReadCommand (c : Conn) : option (received (Z * bytes) * Conn) :=
  let '(r, d) := Pop (ch0 c) in
  let c := c <| ch0 := d |> in
  match r with
  | Blocks => Some (Blocks, c)
  | AtEOF => Some (AtEOF, c)
  | Got buf => cmd ← rd32 buf 0; data ← sub buf 4 (len buf); Some (Got (cmd, data), c)
  end.

(** [data[:hdrSize]] can reach behind [data], then the other slice panics. *)
Definition ReadPacket (c : Conn) : option (received (bytes * bytes) * Conn) :=
  let '(r, d) := Pop (ch2 c) in
  let c := c <| ch2 := d |> in
  match r with
  | Blocks => Some (Blocks, c)
  | AtEOF => Some (AtEOF, c)
  | Got data => hdr ← sub data 0 hdrSize; payload ← sub data hdrSize (len data); Some (Got (hdr, payload), c)
  end.

(** Per round: whether the write succeeded, and whether [cmdAck] was called before the
    tick.  [None] is a wait for rounds that are not given. *)
Fixpoint sendLoop (repeat : Z) (rounds : list (bool * bool)) (req : bytes) (c : Conn)
    : option (sendResult * Conn) :=
  match rounds with
  | [] => None
  | (ok, acked) :: rounds =>
      let c := write req c in
      if negb ok then Some (WriteFailed, c) else
      let r := (if (acked : bool) then 0 else repeat) - 1 in
      if r <? 0 then Some (CommandSent, c)
      else if r =? 0 then Some (NotAcknowledged, c)
      else sendLoop r rounds req c
  end.
Definition WriteCommand (cmd : Z) (data : bytes) (rounds : list (bool * bool)) (c : Conn)
    : option (sendResult * Conn) :=
  let req := marshalCmd 0 (seqCh0 c) cmd data in
  let c := c <| seqCh0 := u16 (seqCh0 c + 1) |> in
  if isTCP c then
    match rounds with
    | [] => None
    | (ok, _) :: _ => Some (if (ok : bool) then CommandSent else WriteFailed, write req c)
    end
  else sendLoop 5 rounds req c.

Definition WritePacket (hdr payload : bytes) (c : Conn) : option Conn :=
  req ← marshalPacket (seqCh3 c) hdr payload;
  Some (write req (c <| seqCh3 := u16 (seqCh3 c + 1) |>)).

(** ** The TCP framing *)

(** [Read] into a buffer of [cap] bytes; the stream ends where the list does. *)
Inductive tcpRead :=
  | ReadMsg (msg rest : bytes)
  | TooSmall
  | ReadEnds.

Definition readTCP (cap : Z) (stream : bytes) : tcpRead :=
  if len stream <? 8 then ReadEnds else
  let n := default 0 (rdbe16 stream 0) in
  if cap <? n then TooSmall else
  let rest := drop 8 stream in
  if len rest <? n then ReadEnds else ReadMsg (take (Z.to_nat n) rest) (drop (Z.to_nat n) rest).
Definition writeTCP (req : bytes) : bytes :=
  be16 (u16 (len req)) ++ [magicTCP] ++ zeros 5 ++ req.

(** ** The handshake *)

Record datagram := mkDatagram { fromCamera : bool; srcPort : Z; raw : bytes }.

(** [udpConn.Read]: any datagram of 8 bytes is taken, whoever sent it. *)
Definition acceptUDP (d : datagram) : bool := fromCamera d || (8 <=? len (raw d)).

(** [None] is a failed or timed out read. *)
Fixpoint writeUntil (ok : bytes -> bool) (ds : list datagram) : option (datagram * list datagram) :=
  match ds with
  | [] => None
  | d :: ds =>
      if negb (fromCamera d) || (len (raw d) <? 16) then writeUntil ok ds
      else if ok (raw d) then Some (d, ds) else writeUntil ok ds
  end.

Inductive transport := AnyTransport | UDPOnly | TCPOnly | OtherTransport.
#[export] Instance transport_dec : EqDecision transport.
Proof. solve_decision. Defined.

(** The port to talk to, and whether over TCP. *)
Definition handshake (t : transport) (ds : list datagram) : option (Z * bool) :=
  '(_, ds) ← writeUntil (fun res => at_ res 1 =? msgPunchPkt) ds;
  let msgUDP := if decide (t = AnyTransport \/ t = UDPOnly) then msgP2PRdyUDP else 0 in
  let msgTCP := if decide (t = AnyTransport \/ t = TCPOnly) then msgP2PRdyTCP else 0 in
  '(d, _) ← writeUntil (fun res => (at_ res 1 =? msgUDP) || (at_ res 1 =? msgTCP)) ds;
  Some (srcPort d, at_ (raw d) 1 =? msgTCP).
