(* ===== verification/Cs2Facts.v ===== *)
(** Properties of the CS2 connection: what is read from a data channel is what was sent,
    in order and once, whatever the network loses, repeats and reorders; what is
    acknowledged is not lost; the TCP framing is read back. *)

From S2P Require Import Prelude Text TutkSession TutkReorder Cs2.

(** ** Framing *)

Definition framed (m : bytes) : bytes := be32 (len m) ++ m.
Definition framedAll (ms : list bytes) : bytes := concat (map framed ms).

Lemma rdbe32_be32 v l : is_u32 v -> rdbe32 (be32 v ++ l) 0 = Some v.
Proof.
  intros Hv.
  change (rdbe32 (be32 v ++ l) 0) with
    (Some (65536 * (256 * (v / 16777216 mod 256) + v / 65536 mod 256) + (256 * (v / 256 mod 256) + v mod 256))).
  f_equal. ints.
Qed.

(** A channel that has [rest] of the stream still to come is about to deliver [ms]. *)
Definition expects (c : dataChannel) (rest : bytes) (ms : list bytes) : Prop :=
  if decide (waitSize c = 0) then waitData c ++ rest = framedAll ms
  else exists m ms', ms = m :: ms' /\ len m = waitSize c /\ waitData c ++ rest = m ++ framedAll ms'.

Definition short (ms : list bytes) : Prop := Forall (fun m => len m < 4294967296) ms.

(** Nothing more can be taken out of the data at hand. *)
Definition settled (c : dataChannel) : Prop :=
  len (waitData c) <= 4 \/ 0 < waitSize c /\ len (waitData c) < waitSize c.

(** The parts of a channel that putting messages together leaves alone. *)
Definition untouched (c c' : dataChannel) : Prop :=
  waitSeq c' = waitSeq c /\ pushBuf c' = pushBuf c /\ pushSize c' = pushSize c
  /\ popCap c' = popCap c /\ popClosed c' = popClosed c.

Lemma untouched_trans a b c : untouched a b -> untouched b c -> untouched a c.
Proof. unfold untouched. intuition congruence. Qed.

(** Taking the size off the front. *)
Lemma expects_size c rest ms :
  waitSize c = 0 -> 4 < len (waitData c) -> short ms -> expects c rest ms ->
  exists m ms', ms = m :: ms' /\ default 0 (rdbe32 (waitData c) 0) = len m
    /\ drop 4 (waitData c) ++ rest = m ++ framedAll ms'.
Proof.
  intros Hz Hl Hs He. unfold expects in He. rewrite decide_True in He by done.
  destruct ms as [|m ms].
  { apply (f_equal len) in He. rewrite len_app in He. change (len (framedAll [])) with 0 in He.
    pose proof (len_nonneg rest). lia. }
  exists m, ms. split; [done|]. apply Forall_cons in Hs as [Hm _].
  unfold framedAll in He. cbn [map concat] in He. fold (framedAll ms) in He. unfold framed in He.
  rewrite <-app_assoc in He.
  assert (waitData c = be32 (len m) ++ drop 4 (waitData c)) as Hd.
  { rewrite <-(take_drop 4 (waitData c)) at 1. f_equal.
    apply (f_equal (take 4)) in He. rewrite take_app_le in He by (unfold len in Hl; lia).
    rewrite He. by rewrite take_app_length' by done. }
  split.
  - rewrite Hd, rdbe32_be32 by (unfold is_u32; pose proof (len_nonneg m); lia). done.
  - apply (f_equal (drop 4)) in He. rewrite drop_app_le in He by (unfold len in Hl; lia).
    rewrite He. by rewrite drop_app_length' by done.
Qed.

Lemma pushLoop_spec fuel : forall c rest ms,
  (length (waitData c) < fuel)%nat -> popClosed c = false -> short ms -> expects c rest ms ->
  exists r c' out ms', pushLoop fuel c = Some (Some (r, c')) /\ untouched c c'
    /\ ms = out ++ ms' /\ popBuf c' = popBuf c ++ out
    /\ (r = Pushed -> expects c' rest ms' /\ settled c').
Proof.
  induction fuel as [|fuel IH]; intros c rest ms Hf Hcl Hs He; [lia|]. cbn [pushLoop].
  destruct (Z.leb_spec (len (waitData c)) 4) as [H4|H4].
  { exists Pushed, c, [], ms. rewrite app_nil_r. split_and!; try done. intros _. split; [done|by left]. }
  set (c1 := if waitSize c =? 0 then _ else c).
  assert (exists m ms', ms = m :: ms' /\ waitSize c1 = len m /\ waitData c1 ++ rest = m ++ framedAll ms'
          /\ untouched c c1 /\ popBuf c1 = popBuf c /\ (length (waitData c1) <= length (waitData c))%nat
          /\ (waitSize c = 0 -> (length (waitData c1) < length (waitData c))%nat)
          /\ (waitSize c <> 0 -> 0 < len m)) as (m & ms' & -> & Hsz & Hd & Hu & Hp & Hle & Hlt & Hpos).
  { subst c1. destruct (Z.eqb_spec (waitSize c) 0) as [Hz|Hz].
    - destruct (expects_size c rest ms Hz H4 Hs He) as (m & ms' & -> & Hm & Hd).
      exists m, ms'. cbn. split_and!; try done; rewrite ?length_drop; unfold len in *; lia.
    - unfold expects in He. rewrite decide_False in He by done.
      destruct He as (m & ms' & -> & Hm & Hd). exists m, ms'.
      split_and!; try done; try lia. pose proof (len_nonneg m). lia. }
  apply Forall_cons in Hs as [Hm Hs]. pose proof (len_nonneg m) as Hm0.
  destruct (Z.ltb_spec (len (waitData c1)) (waitSize c1)) as [Hlen|Hlen].
  { exists Pushed, c1, [], (m :: ms'). rewrite app_nil_r. split_and!; try done. intros _.
    pose proof (len_nonneg (waitData c1)). split; [|right; lia].
    unfold expects. rewrite decide_False by lia. by exists m, ms'. }
  destruct Hu as (Hu1 & Hu2 & Hu3 & Hu4 & Hu5). rewrite Hu5, Hcl.
  destruct (Z.leb_spec (popCap c1) (len (popBuf c1))) as [Hfull|Hroom].
  { exists PopBufferFull, c1, [], (m :: ms'). rewrite app_nil_r. by split_and!. }
  assert (take (Z.to_nat (waitSize c1)) (waitData c1) = m
          /\ drop (Z.to_nat (waitSize c1)) (waitData c1) ++ rest = framedAll ms') as [Ht Hdr].
  { rewrite Hsz in *. unfold len in *. rewrite Nat2Z.id. split.
    - apply (f_equal (take (length m))) in Hd. rewrite take_app_le in Hd by lia.
      rewrite Hd. by rewrite take_app_length.
    - apply (f_equal (drop (length m))) in Hd. rewrite drop_app_le in Hd by lia.
      rewrite Hd. by rewrite drop_app_length. }
  match goal with |- context [pushLoop fuel ?c2] =>
    destruct (IH c2 rest ms') as (r & c' & out & ms'' & Hl & Hu' & -> & Hp' & Hr) end.
  - cbn. rewrite length_drop. unfold len in *.
    destruct (decide (waitSize c = 0)) as [Hz|Hz]; [specialize (Hlt Hz); lia|].
    specialize (Hpos Hz). lia.
  - cbn. congruence.
  - done.
  - unfold expects. rewrite decide_True by done. exact Hdr.
  - exists r, c', (m :: out), ms''. split_and!; [exact Hl| |done| |done].
    + eapply untouched_trans; [|exact Hu']. done.
    + rewrite Hp'. cbn. rewrite Ht, Hp. by rewrite <-app_assoc.
Qed.

(** [Push] takes the next bytes of the stream. *)
Lemma Push_spec b c rest ms :
  popClosed c = false -> short ms -> expects c (b ++ rest) ms ->
  exists r c' out ms', Push b c = Some (Some (r, c')) /\ untouched c c'
    /\ ms = out ++ ms' /\ popBuf c' = popBuf c ++ out
    /\ (r = Pushed -> expects c' rest ms' /\ settled c').
Proof.
  intros Hc Hs He. unfold Push.
  destruct (pushLoop_spec (S (length (waitData c ++ b))) (c <| waitData := waitData c ++ b |>) rest ms)
    as (r & c' & out & ms' & H); [cbn; lia|done|done| |by exists r, c', out, ms'].
  unfold expects in *. cbn. case_decide; [by rewrite <-app_assoc|].
  destruct He as (m & ms' & Hms & Hm & Hd). exists m, ms'. by rewrite <-app_assoc.
Qed.

(** ** Sequence numbers *)

(** The buffer of a channel, in the terms of [TutkReorder]. *)
Definition bufView (c : dataChannel) : ReorderBuffer := mkReorderBuffer (pushBuf c) (waitSeq c) (pushSize c).

Lemma int16_window N p :
  N - 32768 <= p < N + 32768 -> int16 (u16 p - u16 N) = p - N.
Proof.
  intros H. unfold int16. assert (u16 (u16 p - u16 N) = u16 (p - N)) as ->.
  { unfold u16. by rewrite <-Zminus_mod. }
  unfold u16. destruct (Z.ltb_spec ((p - N) mod 65536) 32768); Z.to_euclidean_division_equations; lia.
Qed.

Section Stream.
Context (chunks ms : list bytes).
Context (Hshort : short ms) (Hstream : concat chunks = framedAll ms).

(** The bytes from position [N] on. *)
Definition after (N : Z) : bytes := concat (drop (Z.to_nat N) chunks).

Definition delivered (c : dataChannel) (taken : list bytes) (rest : bytes) : Prop :=
  exists ms', ms = taken ++ popBuf c ++ ms' /\ expects c rest ms'.

(** All chunks before [N] were put together, those of [B] wait. *)
Record receiving (N : Z) (B : gmap Z bytes) (c : dataChannel) (taken : list bytes) : Prop := {
  r_models : models N B (bufView c);
  r_true : forall p x, B !! p = Some x -> 0 <= p /\ chunks !! Z.to_nat p = Some x;
  r_range : 0 <= N <= len chunks;
  r_open : popClosed c = false;
  r_msgs : delivered c taken (after N);
}.

Lemma after_step N data :
  0 <= N -> chunks !! Z.to_nat N = Some data -> after N = data ++ after (N + 1).
Proof.
  intros H0 H. unfold after. rewrite (drop_S chunks data (Z.to_nat N)) by done. cbn. do 3 f_equal. lia.
Qed.

Lemma push_chunk N B c taken data :
  receiving N B c taken -> chunks !! Z.to_nat N = Some data -> B !! N = None ->
  exists r c', Push data c = Some (Some (r, c')) /\ untouched c c'
    /\ (r = Pushed -> settled c'
        /\ receiving (N + 1) B (c' <| waitSeq := u16 (waitSeq c' + 1) |>) taken).
Proof.
  intros [Hm Ht Hr Ho (ms' & Hms & He)] Hd HN. rewrite (after_step N data) in He by (done || lia).
  destruct (Push_spec data c (after (N + 1)) ms') as (r & c' & out & ms'' & Hp & Hu & Hout & Hbuf & Hres);
    [done| |done|].
  { unfold short in *. rewrite Hms in Hshort. by apply Forall_app in Hshort as [_ [_ ?]%Forall_app]. }
  exists r, c'. split_and!; [done..|]. intros Hpu. destruct (Hres Hpu) as [He' Hset]. split; [done|].
  destruct Hu as (Hu1 & Hu2 & Hu3 & Hu4 & Hu5).
  pose proof (lookup_lt_Some _ _ _ Hd) as Hlt.
  constructor; cbn; try done; try congruence.
  - unfold bufView. cbn. rewrite Hu2, Hu3, Hu1. exact (models_next _ _ _ Hm HN).
  - unfold len in *. lia.
  - exists ms''. split; [|exact He']. cbn. rewrite Hms, Hout, Hbuf. by rewrite !app_assoc.
Qed.

Lemma seqLoop_spec fuel : forall i N B c taken data,
  receiving N B c taken -> chunks !! Z.to_nat N = Some data -> B !! N = None -> (size B < fuel)%nat ->
  exists n r c', seqLoop fuel i data c = Some (Some (n, r, c'))
    /\ popClosed c' = false /\ (0 < i -> 0 < n)
    /\ (r = Pushed -> exists B', receiving (N + 1 + (n - i)) B' c' taken /\ settled c' /\ i <= n
          /\ B' !! (N + 1 + (n - i)) = None
          /\ forall p x, B !! p = Some x -> p < N + 1 + (n - i) \/ B' !! p = Some x).
Proof.
  induction fuel as [|fuel IH]; intros i N B c taken data Hrec Hd HN Hf; [lia|]. cbn [seqLoop].
  destruct (push_chunk N B c taken data Hrec Hd HN) as (r & c1 & -> & Hu & Hres). cbn [mbind option_bind].
  assert (popClosed c1 = false) as Hop.
  { destruct Hu as (_ & _ & _ & _ & ->). apply (r_open _ _ _ _ Hrec). }
  destruct r; [|by exists i, PopBufferFull, c1].
  destruct (Hres eq_refl) as [Hset Hrec1]. set (c2 := c1 <| waitSeq := _ |>) in *.
  pose proof (r_models _ _ _ _ Hrec1) as Hm.
  assert (pushBuf c2 !! waitSeq c2 = B !! (N + 1)) as ->.
  { pose proof (models_lookup _ _ _ (N + 1) Hm ltac:(lia)) as Hl.
    pose proof (m_seq _ _ _ Hm) as Hs. cbn [seq bufView] in Hs. cbn [buf bufView] in Hl. by rewrite Hs, Hl. }
  destruct (B !! (N + 1)) as [x|] eqn:HB.
  - destruct (r_true _ _ _ _ Hrec1 _ _ HB) as [_ Hx].
    destruct (IH (i + 1) (N + 1) (delete (N + 1) B) (c2 <| pushBuf := delete (waitSeq c2) (pushBuf c2) |>) taken x)
      as (n & r & c' & Hl & Hc' & Hi & Hr').
    + destruct Hrec1 as [Hm1 Ht1 Hr1 Ho1 Hms1]. constructor; try done.
      * exact (models_take _ _ _ _ Hm1 HB).
      * intros p y. rewrite lookup_delete_Some. intros [_ Hp]. by apply Ht1.
    + done.
    + apply lookup_delete_eq.
    + rewrite map_size_delete, HB. assert (size B <> 0)%nat; [|lia].
      intros H0%map_size_empty_inv. by rewrite H0, lookup_empty in HB.
    + exists n, r, c'. split_and!; [exact Hl|done|intros; apply Hi; lia|]. intros ->.
      destruct (Hr' eq_refl) as (B' & Hrec' & Hset' & Hin & HBn & Hkeep). exists B'.
      replace (N + 1 + 1 + (n - (i + 1))) with (N + 1 + (n - i)) in * by lia.
      split_and!; try done; try lia. intros p y Hp. destruct (decide (p = N + 1)) as [->|Hne]; [left; lia|].
      apply Hkeep. by rewrite lookup_delete_ne.
  - exists i, Pushed, c2. split_and!; [done|done|done|]. intros _. exists B.
    replace (N + 1 + (i - i)) with (N + 1) by lia. split_and!; try done; try lia. by right.
Qed.

(** One arriving chunk, at most 32768 positions away from the next. *)
Lemma PushSeq_spec N B c taken p data :
  receiving N B c taken -> settled c -> B !! N = None -> 0 <= p -> chunks !! Z.to_nat p = Some data ->
  N - 32768 <= p < N + 32768 ->
  exists n r c', PushSeq (u16 p) data c = Some (Some (n, r, c')) /\ popClosed c' = false
    /\ (r = Pushed -> exists B', receiving (N + Z.max 0 n) B' c' taken /\ settled c'
          /\ B' !! (N + Z.max 0 n) = None
          /\ (forall q x, B !! q = Some x -> q < N + Z.max 0 n \/ B' !! q = Some x)
          /\ (0 <= n -> p < N + Z.max 0 n \/ is_Some (B' !! p))).
Proof.
  intros Hrec Hset HN Hp Hd Hw. pose proof Hrec as [Hm Ht Hr Ho Hms]. unfold PushSeq.
  pose proof (m_seq _ _ _ Hm) as Hs. cbn [seq bufView] in Hs. rewrite Hs, int16_window by done.
  destruct (Z.ltb_spec 0 (p - N)) as [Hfut|Hnf].
  - destruct (pushSize c =? 0).
    { exists (-1), Pushed, c. split_and!; [done..|]. intros _. exists B. rewrite Z.add_0_r.
      split_and!; try done; try (intros; lia). by right. }
    pose proof (models_lookup _ _ _ p Hm ltac:(lia)) as Hl. cbn [buf bufView] in Hl. rewrite Hl.
    destruct (B !! p) as [x|] eqn:HB.
    { exists 0, Pushed, c. split_and!; [done..|]. intros _. exists B. rewrite Z.add_0_r.
      split_and!; try done; [by right|]. intros _. right. by eexists. }
    destruct (_ =? pushSize c).
    { exists (-1), Pushed, c. split_and!; [done..|]. intros _. exists B. rewrite Z.add_0_r.
      split_and!; try done; try (intros; lia). by right. }
    eexists 0, Pushed, _. split_and!; [reflexivity|done|]. intros _. exists (<[p := data]> B).
    rewrite Z.add_0_r. split_and!.
    + constructor; try done.
      * exact (models_push N B (bufView c) p data Hm ltac:(lia) HB).
      * intros q y. rewrite lookup_insert_Some. intros [[<- <-]|[_ Hq]]; [done|by apply Ht].
    + done.
    + rewrite lookup_insert_ne by lia. done.
    + intros q y Hq. right. rewrite lookup_insert_ne by congruence. done.
    + intros _. right. rewrite lookup_insert_eq. by eexists.
  - destruct (Z.ltb_spec (p - N) 0) as [Hpast|Hnow].
    { exists 0, Pushed, c. split_and!; [done..|]. intros _. exists B. rewrite Z.add_0_r.
      split_and!; try done; [by right|]. left. lia. }
    assert (p = N) as -> by lia.
    destruct (seqLoop_spec (S (size (pushBuf c))) 1 N B c taken data Hrec Hd HN) as (n & r & c' & Hl & Hc & Hn & Hres).
    { pose proof (m_size _ _ _ Hm) as Hz. cbn in Hz. lia. }
    exists n, r, c'. split_and!; [done..|]. intros Hr'. specialize (Hn ltac:(lia)).
    destruct (Hres Hr') as (B' & Hrec' & Hset' & Hin & HBn & Hkeep). exists B'.
    replace (N + 1 + (n - 1)) with (N + Z.max 0 n) in * by lia. split_and!; try done. intros _. left. lia.
Qed.
End Stream.

(** ** A channel over an unreliable network *)

(** The states of a data channel that is sent [chunks]: any of them may arrive, again
    and again or never, as long as it is at most 32768 positions from the next one, and
    the reader takes messages in between.  [N] is the next position, [taken] what the
    reader got, [acked] the positions that were answered with an acknowledgement. *)
Inductive reach (chunks : list bytes) (pushSize popSize : Z) :
    Z -> dataChannel -> list bytes -> gset Z -> Prop :=
  | reach_new : reach chunks pushSize popSize 0 (newDataChannel pushSize popSize) [] ∅
  | reach_chunk N c taken acked p data n c' :
      reach chunks pushSize popSize N c taken acked ->
      0 <= p -> chunks !! Z.to_nat p = Some data -> N - 32768 <= p < N + 32768 ->
      PushSeq (u16 p) data c = Some (Some (n, Pushed, c')) ->
      reach chunks pushSize popSize (N + Z.max 0 n) c' taken
        (if 0 <=? n then {[p]} ∪ acked else acked)
  | reach_pop N c taken acked m c' :
      reach chunks pushSize popSize N c taken acked ->
      Pop c = (Got m, c') ->
      reach chunks pushSize popSize N c' (taken ++ [m]) acked.

Section Reached.
Context (chunks ms : list bytes) (pushCap popCap : Z).
Context (Hshort : short ms) (Hstream : concat chunks = framedAll ms).

Lemma receiving_pop N B c taken m c' :
  receiving chunks ms N B c taken -> settled c -> Pop c = (Got m, c') ->
  receiving chunks ms N B c' (taken ++ [m]) /\ settled c'.
Proof.
  intros [Hm Ht Hr Ho (ms' & Hms & He)] Hs. unfold Pop.
  destruct (popBuf c) as [|x rest] eqn:Hb; [by destruct (popClosed c)|]. intros [= <- <-].
  split; [|done]. constructor; try done. exists ms'. split; [|done]. cbn.
  by rewrite <-app_assoc.
Qed.

Lemma reach_inv N c taken acked :
  reach chunks pushCap popCap N c taken acked ->
  exists B, receiving chunks ms N B c taken /\ settled c /\ B !! N = None
    /\ forall p, p ∈ acked -> p < N \/ is_Some (B !! p).
Proof.
  induction 1 as [|N c taken acked p data n c' _ IH Hp Hd Hw Hpush|N c taken acked m c' _ IH Hpop].
  - exists ∅. split_and!; [|by left|apply lookup_empty|set_solver].
    constructor; try done.
    + constructor; try done.
      * intros k x. cbn. rewrite lookup_empty. split; [done|]. intros (q & _ & Hq). by rewrite lookup_empty in Hq.
      * intros q [x Hq]. by rewrite lookup_empty in Hq.
    + pose proof (len_nonneg chunks). lia.
    + exists ms. split; [done|]. unfold expects. cbn. unfold after. by rewrite drop_0.
  - destruct IH as (B & Hrec & Hset & HN & Hack).
    destruct (PushSeq_spec chunks ms Hshort N B c taken p data Hrec Hset HN Hp Hd Hw)
      as (n' & r & c1 & Hp1 & _ & Hres). rewrite Hpush in Hp1. injection Hp1 as <- <- <-.
    destruct (Hres eq_refl) as (B' & Hrec' & Hset' & HBn & Hkeep & Hself). exists B'. split_and!; try done.
    intros q Hq. assert (q ∈ acked \/ q = p /\ 0 <= n) as [Hin|[-> Hn]].
    { destruct (Z.leb_spec 0 n); set_solver. }
    + destruct (Hack q Hin) as [Hlt|[x Hx]]; [left; lia|].
      destruct (Hkeep q x Hx) as [?|Hy]; [by left|right; by exists x].
    + by apply Hself.
  - destruct IH as (B & Hrec & Hset & HN & Hack). exists B.
    destruct (receiving_pop _ _ _ _ _ _ Hrec Hset Hpop). by split_and!.
Qed.

(** Nothing is left of the stream, so nothing is left of the messages. *)
Lemma all_delivered c ms' :
  expects c [] ms' -> settled c -> (forall m, last ms' = Some m -> 4 < len m) -> ms' = [].
Proof.
  intros He Hset Hlast.
  assert (forall k, k <> [] -> (forall m, last k = Some m -> 4 < len m) -> 4 < len (framedAll k)) as Hbig.
  { clear. induction k as [|m k IH]; intros Hk Hl; [done|].
    unfold framedAll. cbn [map concat]. fold (framedAll k). rewrite len_app. unfold framed.
    rewrite len_app. change (len (be32 (len m))) with 4. pose proof (len_nonneg m).
    destruct k as [|m' k]; [specialize (Hl m eq_refl); pose proof (len_nonneg (framedAll [])); lia|].
    specialize (IH ltac:(done) ltac:(intros x Hx; by apply Hl)). lia. }
  destruct ms' as [|m ms']; [done|exfalso]. unfold expects in He. case_decide as Hz.
  - rewrite app_nil_r in He. specialize (Hbig (m :: ms') ltac:(done) Hlast). rewrite <-He in Hbig.
    destruct Hset as [|[? _]]; lia.
  - destruct He as (x & k & [= <- <-] & Hlen & Hd). rewrite app_nil_r in Hd.
    assert (len (waitData c) = len m + len (framedAll ms')) as Hl by (by rewrite Hd, len_app).
    pose proof (len_nonneg (framedAll ms')). pose proof (len_nonneg m).
    destruct Hset as [H4|[_ Hlt]]; [|lia].
    destruct ms' as [|m' ms']; [specialize (Hlast m eq_refl); lia|].
    specialize (Hbig (m' :: ms') ltac:(done) ltac:(intros y Hy; by apply Hlast)). lia.
Qed.
End Reached.

(** C32. Whatever the network does, the reader gets the messages that were sent, each once and
    in order: what it took and what waits for it is a beginning of them.  A chunk that
    arrives is always handled.  And what was acknowledged is not lost: once every chunk
    has been, all messages are there, provided the last one is longer than 4 bytes. *)
Theorem channel_exact chunks ms pushCap popCap N c taken acked :
  short ms -> concat chunks = framedAll ms -> reach chunks pushCap popCap N c taken acked ->
  (exists ms', ms = taken ++ popBuf c ++ ms')
  /\ (forall p data, 0 <= p -> chunks !! Z.to_nat p = Some data -> N - 32768 <= p < N + 32768 ->
        exists n r c', PushSeq (u16 p) data c = Some (Some (n, r, c')))
  /\ ((forall p, 0 <= p < len chunks -> p ∈ acked) -> (forall m, last ms = Some m -> 4 < len m) ->
        taken ++ popBuf c = ms).
Proof.
  intros Hs Hst Hr. destruct (reach_inv chunks ms pushCap popCap Hs Hst _ _ _ _ Hr) as (B & Hrec & Hset & HN & Hack).
  pose proof Hrec as [Hm Ht Hrg Ho (ms' & Hms & He)]. split_and!.
  - by exists ms'.
  - intros p data Hp Hd Hw.
    destruct (PushSeq_spec chunks ms Hs N B c taken p data Hrec Hset HN Hp Hd Hw) as (n & r & c' & H & _).
    by exists n, r, c'.
  - intros Hall Hlast. assert (N = len chunks) as ->.
    { destruct (decide (N < len chunks)) as [Hlt|]; [|lia].
      destruct (Hack N (Hall N ltac:(lia))) as [|[x Hx]]; [lia|]. by rewrite HN in Hx. }
    unfold after, len in He. rewrite Nat2Z.id, drop_all in He. cbn in He.
    rewrite (all_delivered c ms' He Hset) in Hms; [by rewrite app_nil_r in Hms|].
    intros m Hm'. apply Hlast. rewrite Hms, app_assoc. destruct ms' as [|x k]; [done|].
    by rewrite last_app, Hm'.
Qed.

(** Two messages in three chunks, the second message's size cut in two; the second chunk
    arrives first, the first one twice. *)
Definition demoMs : list bytes := [[1; 2; 3; 4; 5; 6]; [7; 8; 9; 10; 11]].
Definition demoChunks : list bytes := [[0; 0; 0; 6; 1; 2]; [3; 4; 5; 6; 0; 0]; [0; 5; 7; 8; 9; 10; 11]].
Definition pushed (p : Z) (data : bytes) (c : dataChannel) : dataChannel :=
  match PushSeq (u16 p) data c with Some (Some (_, _, c)) => c | _ => c end.
Definition demoC (k : nat) : dataChannel :=
  foldl (fun c p => pushed p (demoChunks !!! Z.to_nat p) c) (newDataChannel 250 100)
    (take k [1; 0; 0; 2]).

Lemma channel_exact_witness :
  reach demoChunks 250 100 3 (demoC 4) [] {[2; 0; 1]}
  /\ [] ++ popBuf (demoC 4) = demoMs.
Proof.
  assert (reach demoChunks 250 100 3 (demoC 4) [] {[2; 0; 1]}) as Hr.
  { replace {[2; 0; 1]} with ({[2]} ∪ ({[0]} ∪ ({[0]} ∪ ({[1]} ∪ (∅ : gset Z))))) by set_solver.
    apply (reach_chunk demoChunks 250 100 2 (demoC 3) [] ({[0]} ∪ ({[0]} ∪ ({[1]} ∪ ∅))) 2 [0; 5; 7; 8; 9; 10; 11] 1).
    - apply (reach_chunk demoChunks 250 100 2 (demoC 2) [] ({[0]} ∪ ({[1]} ∪ ∅)) 0 [0; 0; 0; 6; 1; 2] 0).
      + apply (reach_chunk demoChunks 250 100 0 (demoC 1) [] ({[1]} ∪ ∅) 0 [0; 0; 0; 6; 1; 2] 2).
        * apply (reach_chunk demoChunks 250 100 0 (demoC 0) [] ∅ 1 [3; 4; 5; 6; 0; 0] 0).
          -- apply reach_new.
          -- lia.
          -- reflexivity.
          -- lia.
          -- vm_compute. reflexivity.
        * lia.
        * reflexivity.
        * lia.
        * vm_compute. reflexivity.
      + lia.
      + reflexivity.
      + lia.
      + vm_compute. reflexivity.
    - lia.
    - reflexivity.
    - lia.
    - vm_compute. reflexivity. }
  split; [exact Hr|].
  apply (channel_exact demoChunks demoMs 250 100 3 (demoC 4) [] {[2; 0; 1]}).
  - repeat constructor.
  - reflexivity.
  - exact Hr.
  - intros p Hp. change (len demoChunks) with 3 in Hp.
    assert (p = 0 \/ p = 1 \/ p = 2) as [->|[->| ->]] by lia; set_solver.
  - intros m Hm. injection Hm as <-. reflexivity.
Defined.


(** ** Framing over TCP *)

(** What one side writes over TCP the other side reads, as far as it fits the buffer. *)
Lemma tcp_roundtrip cap req rest :
  len req < 65536 ->
  readTCP cap (writeTCP req ++ rest)
  = if cap <? len req then TooSmall else ReadMsg req rest.
Proof.
  intros Hl. unfold readTCP, writeTCP. pose proof (len_nonneg req). pose proof (len_nonneg rest).
  unfold u16. rewrite (Z.mod_small (len req)) by lia. rewrite <-!app_assoc.
  rewrite rdbe16_be16 by (unfold is_u16; lia). change (default 0 (Some (len req))) with (len req).
  rewrite !len_app. change (len (be16 (len req))) with 2. change (len [magicTCP]) with 1.
  change (len (zeros 5)) with 5. replace (_ <? 8) with false by lia. destruct (cap <? len req); [reflexivity|].
  change (drop 8 (be16 (len req) ++ [magicTCP] ++ zeros 5 ++ req ++ rest)) with (req ++ rest).
  rewrite len_app. replace (_ <? len req) with false by lia.
  unfold len. by rewrite Nat2Z.id, take_app_length, drop_app_length.
Qed.

(** ** Where the code falls short *)

(** [WritePacket] sends the header twice and never the payload. *)
Lemma WritePacket_sends_no_payload hdr p p' c :
  len p = len p' -> WritePacket hdr p c = WritePacket hdr p' c.
Proof. intros H. unfold WritePacket, marshalPacket. by rewrite H. Qed.

(** Datagrams of 8 bytes are taken from anyone, and a shorter one of the camera's that
    looks like data ends the program. *)
Lemma anyone_is_heard d : 8 <= len (raw d) -> acceptUDP d = true.
Proof. intros H. unfold acceptUDP. destruct (fromCamera d); cbn; lia. Qed.

Lemma short_data_panics now n buf c :
  n < 8 -> rd buf 1 = Some msgDrw -> workerStep now n buf c = Some None.
Proof.
  intros Hn Hk. unfold workerStep. rewrite Hk. cbn. unfold handleDrw.
  destruct (rd buf 5); [|done]. unfold sub.
  by rewrite decide_False by lia.
Qed.

(** So does a channel other than 0 and 2. *)
Lemma other_channel_panics now n buf ch c :
  rd buf 1 = Some msgDrw -> rd buf 5 = Some ch -> ch <> 0 -> ch <> 2 ->
  workerStep now n buf c = Some None.
Proof.
  intros Hk Hch H0 H2. unfold workerStep. rewrite Hk. cbn. unfold handleDrw. rewrite Hch.
  unfold channel. rewrite (proj2 (Z.eqb_neq ch 0)), (proj2 (Z.eqb_neq ch 2)) by done.
  by destruct (sub buf 8 n).
Qed.

(** A message of at most 4 bytes may wait for the next one. *)
Lemma short_message_waits :
  exists c c', Push [0; 0; 0; 2; 7] (newDataChannel 250 100) = Some (Some (Pushed, c))
    /\ Push [8] c = Some (Some (Pushed, c')) /\ popBuf c' = [] /\ waitData c' = [7; 8] /\ waitSize c' = 2.
Proof. do 2 eexists. split; [vm_compute; reflexivity|]. split; [vm_compute; reflexivity|done]. Qed.

(** Asked for UDP alone, the camera's message of type 0 still switches to TCP. *)
Lemma udp_only_goes_tcp :
  handshake UDPOnly [mkDatagram true 32108 (msgPunchPkt :: msgPunchPkt :: zeros 14);
                     mkDatagram true 40000 (zeros 16)] = Some (40000, true).
Proof. reflexivity. Qed.
