(* ===== verification/AacRtp.v ===== *)
(** AAC in RTP packets ([pkg/aac/rtp.go]): units behind a section of 16-bit headers.
    Handlers return the packets they pass on; [None] is an index or a slice out of
    range. *)

From S2P Require Import Prelude Text Bits Writer Aac Producer.

Definition RTPPacketVersionAAC : Z := 0.

Definition beHead (h0 h1 : Z) : Z := Z.shiftr (256 * h0 + h1) 3.

Definition rawUnit (unit : bytes) : bytes :=
  if IsADTS unit then drop (Z.to_nat ADTSHeaderSize) unit else unit.

Definition aacPacket (packet : rtpPacket) (timestamp : Z) (payload : bytes) : rtpPacket :=
  mkRTP RTPPacketVersionAAC (Marker packet) (SequenceNumber packet) timestamp payload.

(** The units, as long as all their bytes are there. *)
Fixpoint depayUnits (packet : rtpPacket) (headers units : bytes) (timestamp : Z)
    : list rtpPacket * Z :=
  match headers with
  | h0 :: h1 :: headers =>
      let unitSize := beHead h0 h1 in
      if len units <? unitSize then ([], timestamp) else
      let timestamp := u32 (timestamp + AUTime) in
      let '(ps, t) := depayUnits packet headers (drop (Z.to_nat unitSize) units) timestamp in
      (aacPacket packet timestamp (rawUnit (take (Z.to_nat unitSize) units)) :: ps, t)
  | _ => ([], timestamp)
  end.

Definition RTPDepay (packet : rtpPacket) (timestamp : Z) : option (list rtpPacket * Z) :=
  let payload := rtpPayload packet in
  v ← rdbe16 payload 0;
  let headersSize := Z.shiftr v 3 in
  if len payload <? u16 (2 + headersSize) then
    Some (if IsADTS payload
          then [aacPacket packet timestamp (drop (Z.to_nat ADTSHeaderSize) payload)] else [], timestamp)
  else
    headers ← sub payload 2 (u16 (2 + headersSize));
    units ← sub payload (u16 (2 + headersSize)) (len payload);
    Some (depayUnits packet headers units timestamp).

(** The sequence number and timestamp of the next packet are the state. *)
Definition RTPPay (packet : rtpPacket) (s : Z * Z) : option (rtpPacket * (Z * Z)) :=
  if negb (Version packet =? RTPPacketVersionAAC) then Some (packet, s) else
  let '(seq, ts) := s in
  let auSize := u16 (len (rtpPayload packet)) in
  let payload := zeros (Z.to_nat (u16 (2 + 2 + auSize))) in
  if len payload <? 4 then None else
  let payload := blit 1 [16] payload in
  let payload := blit 2 (be16 (u16 (Z.shiftl auSize 3))) payload in
  let payload := blit 4 (rtpPayload packet) payload in
  Some (mkRTP 2 true seq ts payload, (u16 (seq + 1), u32 (ts + AUTime))).

(** The headers of the frames; a frame that declares length 0 is met again and again,
    and the fuel runs out. *)
Fixpoint adtsHeaders (fuel : nat) (src dst : bytes) : option (option bytes) :=
  match fuel with
  | O => None
  | S fuel =>
      if negb (ADTSHeaderSize <? len src) then Some (Some dst) else
      match ReadADTSSize src with
      | None => Some None
      | Some auSize =>
          adtsHeaders fuel (drop (Z.to_nat auSize) src)
            (dst ++ [u8 (Z.shiftr auSize 5); u8 (Z.shiftl auSize 3)])
      end
  end.

Definition ADTStoRTP (src : bytes) : option (option bytes) :=
  o ← adtsHeaders (S (length src)) src [];
  Some (headers ← o; Some (be16 (u16 (Z.shiftl (u16 (len headers)) 3)) ++ headers ++ src)).

Definition RTPTimeSize (b : bytes) : option Z :=
  v ← rdbe16 b 0; Some (u32 (Z.shiftr v 4 * AUTime)).

Fixpoint adtsUnits (adts headers units dst : bytes) : option bytes :=
  match headers with
  | [] => Some dst
  | [_] => None
  | h0 :: h1 :: headers =>
      let unitSize := beHead h0 h1 in
      unit ← sub units 0 unitSize;
      units ← sub units unitSize (len units);
      frame ← (if negb (IsADTS unit) then
                 hdr ← WriteADTSSize adts (u16 (ADTSHeaderSize + u16 (len unit)));
                 Some (hdr ++ unit)
               else Some unit);
      adtsUnits adts headers units (dst ++ frame)
  end.

(** The packet that is passed on. *)
Definition RTPToADTS (codec : Codec) (packet : rtpPacket) : option rtpPacket :=
  let adts := CodecToADTS codec in
  let src := rtpPayload packet in
  v ← rdbe16 src 0;
  let headersSize := Z.shiftr v 3 in
  headers ← sub src 2 (u16 (2 + headersSize));
  units ← sub src (u16 (2 + headersSize)) (len src);
  dst ← adtsUnits adts headers units [];
  Some (aacPacket packet (rtpTimestamp packet) dst).

(** The inner [None] is that there is no codec. *)
Definition RTPToCodec (b : bytes) : option (option Codec) :=
  v ← rdbe16 b 0;
  b ← sub b (u16 (2 + v / 8)) (len b);
  Some (ADTSToCodec b).

(** ** Packing units *)

(** The payload of a packet with the given units. *)
Definition unitHeader (u : bytes) : bytes := be16 (8 * len u).
Definition packUnits (units : list bytes) : bytes :=
  be16 (16 * len units) ++ flat_map unitHeader units ++ concat units.

Definition smallUnit (u : bytes) : Prop := len u < 8192.

Lemma unitHeader_value u : smallUnit u ->
  exists h0 h1, unitHeader u = [h0; h1] /\ beHead h0 h1 = len u.
Proof.
  intros Hu. unfold smallUnit in Hu. pose proof (len_nonneg u).
  exists (8 * len u / 256 mod 256), (8 * len u mod 256). split; [done|].
  unfold beHead. rewrite Z.shiftr_div_pow2 by lia. change (2 ^ 3) with 8.
  rewrite (Z.mod_small (_ / 256)) by (split; [apply Z.div_pos|apply Z.div_lt_upper_bound]; lia).
  rewrite <-Z.div_mod by lia. rewrite Z.mul_comm. by apply Z.div_mul.
Qed.

Lemma length_headers (units : list bytes) : length (flat_map unitHeader units) = (2 * length units)%nat.
Proof. induction units as [|u us IH]; [done|]. cbn [flat_map]. rewrite length_app, IH. cbn. lia. Qed.

(** The two sections of a packed payload. *)
Lemma packUnits_sections units : len units < 4096 ->
  rdbe16 (packUnits units) 0 = Some (16 * len units)
  /\ u16 (2 + Z.shiftr (16 * len units) 3) = 2 + 2 * len units
  /\ sub (packUnits units) 2 (2 + 2 * len units) = Some (flat_map unitHeader units)
  /\ sub (packUnits units) (2 + 2 * len units) (len (packUnits units)) = Some (concat units)
  /\ len (packUnits units) = 2 + 2 * len units + len (concat units).
Proof.
  intros Hn. pose proof (len_nonneg units). pose proof (len_nonneg (concat units)).
  pose proof (length_headers units) as Hh.
  assert (len (packUnits units) = 2 + 2 * len units + len (concat units)) as Hl.
  { unfold packUnits. rewrite !len_app. change (len (be16 _)) with 2. unfold len in *. lia. }
  split_and!.
  - apply rdbe16_be16. unfold is_u16. lia.
  - rewrite Z.shiftr_div_pow2 by lia. change (2 ^ 3) with 8.
    replace (16 * len units) with (2 * len units * 8) by lia. rewrite Z.div_mul by done.
    apply u16_small. unfold is_u16. lia.
  - rewrite sub_in by lia. f_equal. unfold seg.
    change (drop (Z.to_nat 2) (packUnits units)) with (flat_map unitHeader units ++ concat units).
    rewrite take_app_length' by (unfold len in *; lia). done.
  - rewrite sub_in by lia. f_equal. unfold seg. unfold packUnits.
    rewrite app_assoc, drop_app_length' by (rewrite length_app; cbn [length be16]; unfold len in *; lia).
    rewrite take_ge; [done|]. rewrite <-app_assoc. fold (packUnits units). unfold len in *. lia.
  - done.
Qed.

(** [adtsHeaders] finds the frames of a stream. *)
Definition frameOK (f : bytes) : Prop :=
  7 < len f < 8192 /\ forall k, ReadADTSSize (f ++ k) = Some (len f).

Lemma adtsHeaders_frames frames : forall fuel dst,
  Forall frameOK frames -> (length (concat frames) < fuel)%nat ->
  adtsHeaders fuel (concat frames) dst = Some (Some (dst ++ flat_map unitHeader frames)).
Proof.
  induction frames as [|f frames IH]; intros fuel dst H Hf; (destruct fuel as [|fuel]; [lia|]).
  { cbn. by rewrite app_nil_r. }
  apply Forall_cons in H as [[[Hl Hu] Hs] H]. cbn [concat] in *. rewrite length_app in Hf.
  cbn [adtsHeaders]. rewrite Hs, len_app. unfold ADTSHeaderSize.
  pose proof (len_nonneg (concat frames)). rewrite (proj2 (Z.ltb_lt 7 _)) by lia. cbn [negb].
  rewrite drop_app_length' by (unfold len; lia). rewrite IH by (done || unfold len in *; lia).
  cbn [flat_map]. rewrite <-app_assoc. do 4 f_equal.
  unfold unitHeader, be16, u8. rewrite Z.shiftr_div_pow2, Z.shiftl_mul_pow2 by lia.
  change (2 ^ 5) with 32. change (2 ^ 3) with 8. rewrite (Z.mul_comm (len f)).
  apply (f_equal2 cons); [|done]. Z.to_euclidean_division_equations; lia.
Qed.

(** A stream of frames becomes the payload with those frames as units. *)
Lemma ADTStoRTP_frames frames : Forall frameOK frames -> len frames < 4096 ->
  ADTStoRTP (concat frames) = Some (Some (packUnits frames)).
Proof.
  intros H Hn. unfold ADTStoRTP. rewrite adtsHeaders_frames by (done || lia). cbn.
  pose proof (len_nonneg frames).
  assert (len (flat_map unitHeader frames) = 2 * len frames) as ->.
  { pose proof (length_headers frames). unfold len in *. lia. }
  rewrite Z.shiftl_mul_pow2 by lia. change (2 ^ 3) with 8.
  rewrite (u16_small (2 * len frames)) by (unfold is_u16; lia). rewrite u16_small by (unfold is_u16; lia).
  unfold packUnits. by replace (2 * len frames * 8) with (16 * len frames) by lia.
Qed.

(** The units come out one by one, each later by the samples of one. *)
Definition depaid (packet : rtpPacket) (ts : Z) (i : nat) (u : bytes) : rtpPacket :=
  aacPacket packet (u32 (ts + (Z.of_nat i + 1) * AUTime)) (rawUnit u).

Lemma depayUnits_packed packet units : forall ts, is_u32 ts -> Forall smallUnit units ->
  depayUnits packet (flat_map unitHeader units) (concat units) ts
  = (imap (depaid packet ts) units, u32 (ts + len units * AUTime)).
Proof.
  induction units as [|u us IH]; intros ts Ht Hs.
  { cbn. by rewrite Z.add_0_r, u32_small. }
  apply Forall_cons in Hs as [Hu Hs]. cbn [flat_map concat].
  destruct (unitHeader_value u Hu) as (h0 & h1 & -> & Hv). cbn [app depayUnits]. rewrite Hv, len_app.
  pose proof (len_nonneg (concat us)). rewrite (proj2 (Z.ltb_ge _ _)) by lia.
  rewrite take_app_length', drop_app_length' by (unfold len; lia).
  rewrite IH by (done || apply u32_bound). rewrite imap_cons. f_equal; [f_equal|].
  - apply imap_ext. intros i v _. unfold depaid, u32, AUTime. cbn [compose].
    rewrite Zplus_mod_idemp_l. do 2 f_equal. lia.
  - unfold u32, AUTime. rewrite Zplus_mod_idemp_l, len_cons. f_equal. lia.
Qed.

Lemma RTPDepay_packed packet units ts : is_u32 ts -> Forall smallUnit units -> len units < 4096 ->
  rtpPayload packet = packUnits units ->
  RTPDepay packet ts = Some (imap (depaid packet ts) units, u32 (ts + len units * AUTime)).
Proof.
  intros Ht Hs Hn E. destruct (packUnits_sections units Hn) as (H1 & H2 & H3 & H4 & H5).
  pose proof (len_nonneg units). pose proof (len_nonneg (concat units)).
  unfold RTPDepay. rewrite E, H1. cbn [mbind option_bind]. rewrite H2, (proj2 (Z.ltb_ge _ _)), H3, H4 by lia.
  cbn. by rewrite depayUnits_packed.
Qed.

(** ** Round trips *)

(** A unit through the packetiser and back. *)
Lemma pay_depay packet seq ts t : is_u32 t -> Version packet = 0 -> smallUnit (rtpPayload packet) ->
  exists p, RTPPay packet (seq, ts) = Some (p, (u16 (seq + 1), u32 (ts + AUTime)))
    /\ SequenceNumber p = seq /\ rtpTimestamp p = ts /\ Marker p = true
    /\ RTPDepay p t = Some ([aacPacket p (u32 (t + AUTime)) (rawUnit (rtpPayload packet))], u32 (t + AUTime)).
Proof.
  intros Ht Hv Hs. unfold smallUnit in Hs. set (u := rtpPayload packet) in *. pose proof (len_nonneg u).
  assert (RTPPay packet (seq, ts)
    = Some (mkRTP 2 true seq ts (packUnits [u]), (u16 (seq + 1), u32 (ts + AUTime)))) as ->.
  { unfold RTPPay. rewrite Hv. cbn [negb Z.eqb RTPPacketVersionAAC]. fold u.
    assert (u16 (len u) = len u) as -> by (apply u16_small; unfold is_u16; lia).
    assert (u16 (2 + 2 + len u) = 4 + len u) as -> by (rewrite u16_small; unfold is_u16; lia).
    unfold len at 1. unfold zeros. rewrite length_replicate. rewrite (proj2 (Z.ltb_ge _ _)) by lia.
    do 3 f_equal. replace (Z.to_nat (4 + len u)) with (4 + length u)%nat by (unfold len; lia).
    rewrite replicate_add. rewrite Z.shiftl_mul_pow2 by lia. change (2 ^ 3) with 8.
    rewrite u16_small by (unfold is_u16; lia). set (z := replicate (length u) 0).
    change (blit 1 [16] (replicate 4 0 ++ z)) with ([0; 16; 0; 0] ++ z).
    assert (forall x y, blit 2 [x; y] ([0; 16; 0; 0] ++ z) = [0; 16] ++ [x; y] ++ z) as E2.
    { intros x y. unfold blit. cbn. by rewrite take_nil. }
    unfold be16 at 1. rewrite E2. fold (be16 (len u * 8)).
    change 4%nat with (length ([0; 16] ++ be16 (len u * 8))). rewrite app_assoc, blit_back
      by (unfold z; by rewrite length_replicate).
    unfold packUnits, unitHeader. cbn [flat_map concat]. by rewrite !app_nil_r, (Z.mul_comm 8). }
  eexists. split; [done|]. split_and!; [done..|].
  rewrite (RTPDepay_packed _ [u]); [|done|by repeat constructor|done|done].
  cbn. unfold depaid. by rewrite !Z.mul_1_l.
Qed.

(** Raw units, their frames, and the headers in front. *)
Section Frames.
Context (p i ch : Z) (Hp : 0 <= p < 4) (Hi : 0 <= i < 15) (Hch : 0 <= ch < 8).

Definition frameOf (u : bytes) : bytes := sizedHeader p i ch (7 + len u) ++ u.
Definition rawOK (u : bytes) : Prop := IsADTS u = false /\ 0 < len u <= 8184.

Lemma len_frame u : len (frameOf u) = 7 + len u.
Proof. unfold frameOf. by rewrite len_app. Qed.

Lemma IsADTS_frame u : IsADTS (frameOf u) = true.
Proof.
  unfold IsADTS. pose proof (len_frame u) as E. pose proof (len_nonneg u). unfold ADTSHeaderSize.
  rewrite E, (proj2 (Z.leb_le 7 (7 + len u))) by lia. reflexivity.
Qed.

Lemma rawUnit_frame u : rawUnit (frameOf u) = u.
Proof. unfold rawUnit. by rewrite IsADTS_frame. Qed.

Lemma frameOf_ok u : rawOK u -> frameOK (frameOf u).
Proof.
  intros [_ Hu]. unfold frameOK. rewrite len_frame. split; [lia|]. intros k.
  destruct (size_table (ch mod 4) (7 + len u)) as (_ & _ & _ & Es); [by apply Z.mod_pos_bound|lia|].
  unfold frameOf. transitivity (Some (7 + len u)); [|done]. rewrite <-Es at 2. reflexivity.
Qed.

Lemma write_size u : rawOK u ->
  WriteADTSSize (CodecToADTS (adtsCodec p i ch)) (u16 (ADTSHeaderSize + u16 (len u)))
  = Some (sizedHeader p i ch (7 + len u)).
Proof.
  intros [_ Hu]. destruct (header_table p i ch Hp ltac:(lia) Hch) as [_ ->]; [|lia].
  rewrite (u16_small (len u)) by (unfold is_u16; lia). unfold ADTSHeaderSize.
  rewrite u16_small by (unfold is_u16; lia). reflexivity.
Qed.

Lemma adtsUnits_packed units : forall dst, Forall rawOK units ->
  adtsUnits (CodecToADTS (adtsCodec p i ch)) (flat_map unitHeader units) (concat units) dst
  = Some (dst ++ concat (frameOf <$> units)).
Proof.
  induction units as [|u us IH]; intros dst H; [cbn; by rewrite app_nil_r|].
  apply Forall_cons in H as [Hu H]. destruct Hu as [Hraw Hl].
  destruct (unitHeader_value u) as (h0 & h1 & E & Hv); [unfold smallUnit; lia|].
  cbn [flat_map concat fmap list_fmap]. rewrite E. cbn [app adtsUnits]. rewrite Hv, len_app.
  pose proof (len_nonneg (concat us)). rewrite !sub_in by (rewrite ?len_app; lia). cbn [mbind option_bind].
  unfold seg. rewrite Z.sub_0_r, Z.add_simpl_l, drop_0, take_app_length', drop_app_length' by (unfold len; lia).
  rewrite take_ge by (unfold len; lia). rewrite Hraw, write_size by (by split). cbn.
  rewrite IH by done. by rewrite <-!app_assoc.
Qed.
End Frames.

(** C33. Raw AAC units survive both ways of the RTP packets: their ADTS frames, put into one
    payload, are taken out of it as the units, in order and each later by the samples of
    one; and the units of a payload are framed for the codec of their configuration. *)
Theorem aac_packets p i ch units ts :
  0 <= p < 4 -> 0 <= i < 15 -> 0 <= ch < 8 -> Forall rawOK units -> len units < 4096 -> is_u32 ts ->
  exists payload frames,
    mapM (EncodeToADTS (adtsCodec p i ch)) units = Some frames
    /\ ADTStoRTP (concat frames) = Some (Some payload)
    /\ (forall packet, rtpPayload packet = payload ->
          RTPDepay packet ts
          = Some (imap (fun k u => aacPacket packet (u32 (ts + (Z.of_nat k + 1) * 1024)) u) units,
                  u32 (ts + len units * 1024)))
    /\ (forall packet, rtpPayload packet = packUnits units ->
          RTPToADTS (adtsCodec p i ch) packet
          = Some (aacPacket packet (rtpTimestamp packet) (concat frames))).
Proof.
  intros Hp Hi Hch Hu Hn Ht. set (frames := frameOf p i ch <$> units).
  assert (Forall frameOK frames) as Hf.
  { apply Forall_fmap. eapply Forall_impl; [exact Hu|]. intros u. apply frameOf_ok; lia. }
  assert (len frames = len units) as Hlen by (unfold len, frames; by rewrite length_fmap).
  exists (packUnits frames), frames. split_and!.
  - apply mapM_Some. unfold frames. apply Forall2_fmap_r, Forall_Forall2_diag.
    eapply Forall_impl; [exact Hu|]. intros u [H1 H2]. apply EncodeToADTS_frame; done || lia.
  - apply ADTStoRTP_frames; [done|lia].
  - intros packet E. rewrite (RTPDepay_packed packet frames); [|done| |lia|done].
    + rewrite Hlen. unfold frames. rewrite imap_fmap. do 2 f_equal. apply imap_ext. intros k u _.
      unfold depaid. cbn beta. unfold compose. by rewrite rawUnit_frame.
    + eapply Forall_impl; [exact Hf|]. intros f [H _]. unfold smallUnit. lia.
  - intros packet E. destruct (packUnits_sections units Hn) as (H1 & H2 & H3 & H4 & H5).
    unfold RTPToADTS. rewrite E, H1. cbn [mbind option_bind]. rewrite H2, H3, H4. cbn [mbind option_bind].
    rewrite adtsUnits_packed by (done || lia). done.
Qed.

Lemma aac_packets_witness :
  rawOK [0x21; 0x10] /\ exists payload frames,
    mapM (EncodeToADTS (adtsCodec 1 4 2)) [[0x21; 0x10]; [0x42]] = Some frames
    /\ ADTStoRTP (concat frames) = Some (Some payload).
Proof.
  assert (rawOK [0x21; 0x10]) as H1 by (split; [reflexivity|unfold len; cbn; lia]).
  assert (rawOK [0x42]) as H2 by (split; [reflexivity|unfold len; cbn; lia]).
  split; [exact H1|].
  destruct (aac_packets 1 4 2 [[0x21; 0x10]; [0x42]] 0) as (payload & frames & E1 & E2 & _);
    [lia|lia|lia|exact (Forall_cons_2 _ _ _ H1 (Forall_cons_2 _ _ _ H2 (Forall_nil_2 _)))|reflexivity
    |unfold is_u32; lia|].
  exists payload, frames. split; [exact E1|exact E2].
Defined.

(** ** Where the code falls short *)

(** A frame that declares length 0 is never left, and a header is added each time. *)
Lemma zero_frame_hangs fuel dst : adtsHeaders fuel (zeros 8) dst = None.
Proof. revert dst. induction fuel as [|fuel IH]; intros dst; [done|]. apply IH. Qed.

(** A packet that announces a unit and does not have it: the depacketiser skips it,
    the framing panics. *)
Lemma missing_unit_panics codec packet : rtpPayload packet = [0; 16; 0; 80] ->
  RTPDepay packet 0 = Some ([], 0) /\ RTPToADTS codec packet = None.
Proof. intros E. unfold RTPDepay, RTPToADTS. rewrite E. by split. Qed.

(** A payload of one byte panics everywhere. *)
Lemma short_payload_panics codec packet b : rtpPayload packet = [b] ->
  RTPDepay packet 0 = None /\ RTPToADTS codec packet = None /\ RTPToCodec [b] = None.
Proof. intros E. unfold RTPDepay, RTPToADTS. rewrite E. by split. Qed.

(** Behind a header with a checksum the depacketiser leaves the checksum. *)
Lemma checksum_left c0 c1 x : rawUnit [0xFF; 0xF0; 0x50; 0x80; 1; 0x5F; 0xFC; c0; c1; x] = [c0; c1; x].
Proof. reflexivity. Qed.

(** The size of a unit of 8192 bytes does not fit its header. *)
Lemma long_unit_lost :
  ('(p, _) ← RTPPay (mkRTP 0 true 0 0 (zeros (Z.to_nat 8192))) (0, 0);
   '(ps, _) ← RTPDepay p 0; Some (map rtpPayload ps)) = Some ([[]] : list bytes).
Proof. vm_compute. reflexivity. Qed.
