(* ===== verification/Ts.v ===== *)
(** The MPEG transport stream writer ([pkg/mpegts/muxer.go], [checksum.go]) and the
    elementary streams it shares with the reader.  [None] is a run-time panic. *)

From S2P Require Import Prelude Annexb Writer.

Definition PacketSize : Z := 188.
Definition SyncByte : Z := 0x47.
Definition MpegClockRate : Z := 90000.

Definition StreamTypeMetadata : Z := 0.
Definition StreamTypePrivate : Z := 0x06.
Definition StreamTypeAAC : Z := 0x0F.
Definition StreamTypeH264 : Z := 0x1B.
Definition StreamTypeH265 : Z := 0x24.
Definition StreamTypePCMATapo : Z := 0x90.
Definition StreamTypePCMUTapo : Z := 0x91.
Definition StreamTypePrivateOPUS : Z := 0xEB.

(** The writer of an elementary stream, which [GetPayload] empties first, is not kept. *)
Record PES := mkPES {
  StreamID : Z;
  StreamType : Z;
  Sequence : Z;
  Timestamp : Z;
  PTS : Z;
  DTS : Z;
  pesPayload : bytes;
  Size : Z;
}.
#[export] Instance eta_PES : Eta PES := fun p =>
  mkPES (StreamID p) (StreamType p) (Sequence p) (Timestamp p) (PTS p) (DTS p) (pesPayload p) (Size p).
Definition newPES (streamType : Z) : PES := mkPES 0 streamType 0 0 0 0 [] 0.

(** ** The checksum *)

Definition table : list Z := [
   0x00000000; 0xB71DC104; 0x6E3B8209; 0xD926430D; 0xDC760413; 0x6B6BC517;
   0xB24D861A; 0x0550471E; 0xB8ED0826; 0x0FF0C922; 0xD6D68A2F; 0x61CB4B2B;
   0x649B0C35; 0xD386CD31; 0x0AA08E3C; 0xBDBD4F38; 0x70DB114C; 0xC7C6D048;
   0x1EE09345; 0xA9FD5241; 0xACAD155F; 0x1BB0D45B; 0xC2969756; 0x758B5652;
   0xC836196A; 0x7F2BD86E; 0xA60D9B63; 0x11105A67; 0x14401D79; 0xA35DDC7D;
   0x7A7B9F70; 0xCD665E74; 0xE0B62398; 0x57ABE29C; 0x8E8DA191; 0x39906095;
   0x3CC0278B; 0x8BDDE68F; 0x52FBA582; 0xE5E66486; 0x585B2BBE; 0xEF46EABA;
   0x3660A9B7; 0x817D68B3; 0x842D2FAD; 0x3330EEA9; 0xEA16ADA4; 0x5D0B6CA0;
   0x906D32D4; 0x2770F3D0; 0xFE56B0DD; 0x494B71D9; 0x4C1B36C7; 0xFB06F7C3;
   0x2220B4CE; 0x953D75CA; 0x28803AF2; 0x9F9DFBF6; 0x46BBB8FB; 0xF1A679FF;
   0xF4F63EE1; 0x43EBFFE5; 0x9ACDBCE8; 0x2DD07DEC; 0x77708634; 0xC06D4730;
   0x194B043D; 0xAE56C539; 0xAB068227; 0x1C1B4323; 0xC53D002E; 0x7220C12A;
   0xCF9D8E12; 0x78804F16; 0xA1A60C1B; 0x16BBCD1F; 0x13EB8A01; 0xA4F64B05;
   0x7DD00808; 0xCACDC90C; 0x07AB9778; 0xB0B6567C; 0x69901571; 0xDE8DD475;
   0xDBDD936B; 0x6CC0526F; 0xB5E61162; 0x02FBD066; 0xBF469F5E; 0x085B5E5A;
   0xD17D1D57; 0x6660DC53; 0x63309B4D; 0xD42D5A49; 0x0D0B1944; 0xBA16D840;
   0x97C6A5AC; 0x20DB64A8; 0xF9FD27A5; 0x4EE0E6A1; 0x4BB0A1BF; 0xFCAD60BB;
   0x258B23B6; 0x9296E2B2; 0x2F2BAD8A; 0x98366C8E; 0x41102F83; 0xF60DEE87;
   0xF35DA999; 0x4440689D; 0x9D662B90; 0x2A7BEA94; 0xE71DB4E0; 0x500075E4;
   0x892636E9; 0x3E3BF7ED; 0x3B6BB0F3; 0x8C7671F7; 0x555032FA; 0xE24DF3FE;
   0x5FF0BCC6; 0xE8ED7DC2; 0x31CB3ECF; 0x86D6FFCB; 0x8386B8D5; 0x349B79D1;
   0xEDBD3ADC; 0x5AA0FBD8; 0xEEE00C69; 0x59FDCD6D; 0x80DB8E60; 0x37C64F64;
   0x3296087A; 0x858BC97E; 0x5CAD8A73; 0xEBB04B77; 0x560D044F; 0xE110C54B;
   0x38368646; 0x8F2B4742; 0x8A7B005C; 0x3D66C158; 0xE4408255; 0x535D4351;
   0x9E3B1D25; 0x2926DC21; 0xF0009F2C; 0x471D5E28; 0x424D1936; 0xF550D832;
   0x2C769B3F; 0x9B6B5A3B; 0x26D61503; 0x91CBD407; 0x48ED970A; 0xFFF0560E;
   0xFAA01110; 0x4DBDD014; 0x949B9319; 0x2386521D; 0x0E562FF1; 0xB94BEEF5;
   0x606DADF8; 0xD7706CFC; 0xD2202BE2; 0x653DEAE6; 0xBC1BA9EB; 0x0B0668EF;
   0xB6BB27D7; 0x01A6E6D3; 0xD880A5DE; 0x6F9D64DA; 0x6ACD23C4; 0xDDD0E2C0;
   0x04F6A1CD; 0xB3EB60C9; 0x7E8D3EBD; 0xC990FFB9; 0x10B6BCB4; 0xA7AB7DB0;
   0xA2FB3AAE; 0x15E6FBAA; 0xCCC0B8A7; 0x7BDD79A3; 0xC660369B; 0x717DF79F;
   0xA85BB492; 0x1F467596; 0x1A163288; 0xAD0BF38C; 0x742DB081; 0xC3307185;
   0x99908A5D; 0x2E8D4B59; 0xF7AB0854; 0x40B6C950; 0x45E68E4E; 0xF2FB4F4A;
   0x2BDD0C47; 0x9CC0CD43; 0x217D827B; 0x9660437F; 0x4F460072; 0xF85BC176;
   0xFD0B8668; 0x4A16476C; 0x93300461; 0x242DC565; 0xE94B9B11; 0x5E565A15;
   0x87701918; 0x306DD81C; 0x353D9F02; 0x82205E06; 0x5B061D0B; 0xEC1BDC0F;
   0x51A69337; 0xE6BB5233; 0x3F9D113E; 0x8880D03A; 0x8DD09724; 0x3ACD5620;
   0xE3EB152D; 0x54F6D429; 0x7926A9C5; 0xCE3B68C1; 0x171D2BCC; 0xA000EAC8;
   0xA550ADD6; 0x124D6CD2; 0xCB6B2FDF; 0x7C76EEDB; 0xC1CBA1E3; 0x76D660E7;
   0xAFF023EA; 0x18EDE2EE; 0x1DBDA5F0; 0xAAA064F4; 0x738627F9; 0xC49BE6FD;
   0x09FDB889; 0xBEE0798D; 0x67C63A80; 0xD0DBFB84; 0xD58BBC9A; 0x62967D9E;
   0xBBB03E93; 0x0CADFF97; 0xB110B0AF; 0x060D71AB; 0xDF2B32A6; 0x6836F3A2;
   0x6D66B4BC; 0xDA7B75B8; 0x035D36B5; 0xB440F7B1].

Definition checksum (data : bytes) : Z :=
  foldl (fun crc b => Z.lxor (nth (Z.to_nat (Z.lxor b (u8 crc))) table 0) (Z.shiftr crc 8))
    0xFFFFFFFF data.

(** [byte(crc), byte(crc>>8), byte(crc>>16), byte(crc>>24)] *)
Definition crcBytes (crc : Z) : bytes :=
  [u8 crc; u8 (Z.shiftr crc 8); u8 (Z.shiftr crc 16); u8 (Z.shiftr crc 24)].

(** ** Tables *)

Definition patPID : Z := 0.
Definition pmtPID : Z := 0x1000.
Definition pes0PID : Z := 0x100.

Abbreviation Muxer := (gmap Z PES).

Definition muxerStreamID (streamType : Z) : Z :=
  if (streamType =? StreamTypeH264) || (streamType =? StreamTypeH265) then 0xE0
  else if (streamType =? StreamTypeAAC) || (streamType =? StreamTypePCMATapo) then 0xC0 else 0.

Definition AddTrack (streamType : Z) (m : Muxer) : Z * Muxer :=
  let pes := (newPES streamType) <| StreamID := muxerStreamID streamType |> in
  let pid := u16 (pes0PID + u16 (Z.of_nat (size m))) in
  (pid, <[pid := pes]> m).

Definition writeHeader (pid : Z) (w : Writer) : Writer :=
  let w := WriteByte SyncByte w in
  let w := WriteBit 0 w in
  let w := WriteBit 1 w in
  let w := WriteBit 0 w in
  let w := WriteBits pid 13 w in
  let w := WriteBits 0 2 w in
  let w := WriteBit 0 w in
  let w := WriteBit 1 w in
  WriteBits 0 4 w.

Definition writePSIHeader (tableID size : Z) (w : Writer) : Writer :=
  let w := WriteByte 0 w in
  let w := WriteByte tableID w in
  let w := WriteBit 1 w in
  let w := WriteBit 0 w in
  let w := WriteBits 3 2 w in
  let w := WriteBits 0 2 w in
  let w := WriteBits (u16 (5 + size + 4)) 10 w in
  let w := WriteUint16 1 w in
  let w := WriteBits 3 2 w in
  let w := WriteBits 0 5 w in
  let w := WriteBit 1 w in
  let w := WriteByte 0 w in
  WriteByte 0 w.

(** Fills the packet up; a full packet gets another one of zeros. *)
Definition WriteTail (w : Writer) : Writer :=
  WriteBytes (zeros (Z.to_nat (PacketSize - WriterLen w mod PacketSize))) w.

(** The checksum of what was written from position [i] on, and the tail. *)
Definition writeCRC (i : Z) (w : Writer) : Writer :=
  WriteTail (WriteBytes (crcBytes (checksum (seg (WriterBytes w) i (WriterLen w)))) w).

Definition writePAT (w : Writer) : Writer :=
  let w := writeHeader patPID w in
  let i := WriterLen w + 1 in
  let w := writePSIHeader 0 4 w in
  let w := WriteUint16 1 w in
  let w := WriteBits 7 3 w in
  let w := WriteBits pmtPID 13 w in
  writeCRC i w.

Definition writeEntry (streamType pid : Z) (w : Writer) : Writer :=
  let w := WriteByte streamType w in
  let w := WriteBits 7 3 w in
  let w := WriteBits pid 13 w in
  let w := WriteBits 15 4 w in
  let w := WriteBits 0 2 w in
  WriteBits 0 10 w.

(** The tracks from [pid] on; [None] is running out of fuel. *)
Fixpoint entryLoop (fuel : nat) (pid : Z) (m : Muxer) (w : Writer) : option Writer :=
  match fuel with
  | O => None
  | S fuel =>
      match m !! pid with
      | None => Some w
      | Some pes => entryLoop fuel (u16 (pid + 1)) m (writeEntry (StreamType pes) pid w)
      end
  end.

Definition writePMT (m : Muxer) (w : Writer) : option Writer :=
  let w := writeHeader pmtPID w in
  let i := WriterLen w + 1 in
  let w := writePSIHeader 2 (u16 (4 + u16 (Z.of_nat (size m)) * 5)) w in
  let w := WriteBits 7 3 w in
  let w := WriteBits 0x1FFF 13 w in
  let w := WriteBits 15 4 w in
  let w := WriteBits 0 2 w in
  let w := WriteBits 0 10 w in
  w ← entryLoop (S (size m)) pes0PID m w;
  Some (writeCRC i w).

Definition GetHeader (m : Muxer) : option bytes :=
  w ← writePMT m (writePAT (NewWriter []));
  Some (WriterBytes w).

(** ** Payloads *)

Definition startAUD : bytes := [0; 0; 0; 1; 0x09; 0xF0].

Definition DecodeAVCCWithAUD (src : bytes) : option bytes :=
  dst ← DecodeAVCC src; Some (startAUD ++ dst).

Definition WriteTime (t : Z) : bytes :=
  [Z.lor (Z.lor 0x20 (u8 (Z.shiftr t 29))) 1; u8 (Z.shiftr t 22); Z.lor (u8 (Z.shiftr t 14)) 1;
   u8 (Z.shiftr t 7); Z.lor (u8 (Z.shiftl t 1)) 1].

Definition flagPUSI : Z := 0x4000.
Definition flagAdaptation : Z := 0x20.
Definition flagPayload : Z := 0x10.

(** One packet of the stream: what is left of the payload, or its next 184 bytes. *)
Definition writePES (pid : Z) (pes : PES) (w : Writer) : Writer * PES :=
  let w := WriteByte SyncByte w in
  let pid := if Size pes =? 0 then pid else Z.lor pid flagPUSI in
  let w := WriteUint16 pid w in
  let counter := Z.land (u8 (Sequence pes)) 0xF in
  let size := len (pesPayload pes) in
  if size <? PacketSize - 4 then
    let w := WriteByte (Z.lor (Z.lor flagAdaptation flagPayload) counter) w in
    let adSize := u8 (PacketSize - 4 - 1 - u8 size) in
    let w := WriteByte adSize w in
    let w := WriteBytes (zeros (Z.to_nat adSize)) w in
    let w := WriteBytes (pesPayload pes) w in
    (w, pes <| pesPayload := [] |>)
  else
    let w := WriteByte (Z.lor flagPayload counter) w in
    let w := WriteBytes (take (Z.to_nat (PacketSize - 4)) (pesPayload pes)) w in
    (w, pes <| pesPayload := drop (Z.to_nat (PacketSize - 4)) (pesPayload pes) |>).

(** [None] is running out of fuel. *)
Fixpoint pesLoop (fuel : nat) (pid : Z) (pes : PES) (w : Writer) : option (Writer * PES) :=
  match fuel with
  | O => None
  | S fuel =>
      if len (pesPayload pes) =? 0 then Some (w, pes) else
      let '(w, pes) := writePES pid pes w in
      pesLoop fuel pid ((pes <| Sequence := u16 (Sequence pes + 1) |>) <| Size := 0 |>) w
  end.

Definition isVideo (streamType : Z) : bool :=
  (streamType =? StreamTypeH264) || (streamType =? StreamTypeH265).

(** The header in front of the payload. *)
Definition pesHeader (id pts : Z) (payload : bytes) : bytes :=
  let size := 3 + 5 + len payload in
  [0; 0; 1; id] ++ (if size <=? 0xFFFF then [u8 (Z.shiftr size 8); u8 size] else [0; 0])
  ++ [0x80; 0x80; 5] ++ WriteTime pts.

(** The inner [None] is a panic. *)
Definition GetPayload (pid timestamp : Z) (payload : bytes) (m : Muxer)
    : option (option (bytes * Muxer)) :=
  match m !! pid with
  | None => Some None
  | Some pes =>
      match (if isVideo (StreamType pes) then DecodeAVCCWithAUD payload else Some payload) with
      | None => Some None
      | Some payload =>
          let pes := if Timestamp pes =? 0 then pes
                     else pes <| PTS := u32 (PTS pes + u32 (timestamp - Timestamp pes)) |> in
          let pes := pes <| Timestamp := timestamp |> in
          let pes := (pes <| pesPayload := pesHeader (StreamID pes) (PTS pes) payload ++ payload |>)
                     <| Size := 1 |> in
          '(w, pes) ← pesLoop (S (length (pesPayload pes))) pid pes (NewWriter []);
          Some (Some (WriterBytes w, <[pid := pes]> m))
      end
  end.
