(* ===== verification/TsCrc.v ===== *)
(** The checksum of the stream tables is the CRC of ISO 13818-1: the code's table is in
    the other byte order, and so are the bytes it writes. *)

From S2P Require Import Prelude Ts.

(** One bit of the polynomial division, 0x04C11DB7 without its top term. *)
Definition crcBit (x : Z) : Z :=
  Z.lxor (u32 (Z.shiftl x 1)) (if Z.testbit x 31 then 0x04C11DB7 else 0).
Definition crcByte (x b : Z) : Z := Nat.iter 8 crcBit (Z.lxor x (Z.shiftl b 24)).
Definition crc32 (data : bytes) : Z := foldl crcByte 0xFFFFFFFF data.

(** ** Linearity *)

Lemma mod_lxor a b k : 0 <= k -> Z.lxor a b mod 2 ^ k = Z.lxor (a mod 2 ^ k) (b mod 2 ^ k).
Proof.
  intros Hk. apply Z.bits_inj'. intros n Hn. rewrite Z.lxor_spec. destruct (Z.ltb_spec n k).
  - by rewrite !Z.mod_pow2_bits_low, Z.lxor_spec by lia.
  - by rewrite !Z.mod_pow2_bits_high by lia.
Qed.

Lemma u32_lxor a b : u32 (Z.lxor a b) = Z.lxor (u32 a) (u32 b).
Proof. apply (mod_lxor a b 32). lia. Qed.
Lemma u8_lxor a b : u8 (Z.lxor a b) = Z.lxor (u8 a) (u8 b).
Proof. apply (mod_lxor a b 8). lia. Qed.

Lemma lxor_swap a b c d : Z.lxor (Z.lxor a b) (Z.lxor c d) = Z.lxor (Z.lxor a c) (Z.lxor b d).
Proof. rewrite !Z.lxor_assoc. f_equal. by rewrite <-!Z.lxor_assoc, (Z.lxor_comm b c). Qed.

Lemma crcBit_lxor x y : crcBit (Z.lxor x y) = Z.lxor (crcBit x) (crcBit y).
Proof.
  unfold crcBit. rewrite Z.shiftl_lxor, u32_lxor, Z.lxor_spec, lxor_swap. f_equal.
  by destruct (Z.testbit x 31), (Z.testbit y 31).
Qed.

Lemma crcBits_lxor n x y :
  Nat.iter n crcBit (Z.lxor x y) = Z.lxor (Nat.iter n crcBit x) (Nat.iter n crcBit y).
Proof. induction n as [|n IH]; [done|]. by rewrite !Nat.iter_succ, IH, crcBit_lxor. Qed.

(** The low 24 bits only move up. *)
Lemma crcBits_low n x : 0 <= x -> x * 2 ^ Z.of_nat n < 4294967296 ->
  Nat.iter n crcBit x = x * 2 ^ Z.of_nat n.
Proof.
  induction n as [|n IH]; intros Hx Hlt; [cbn; lia|].
  rewrite Nat2Z.inj_succ, Z.pow_succ_r in * by lia. pose proof (Z.pow_pos_nonneg 2 (Z.of_nat n)).
  assert (0 <= x * 2 ^ Z.of_nat n < 2147483648) as H' by nia.
  rewrite Nat.iter_succ, IH by lia. unfold crcBit. rewrite Z.shiftl_mul_pow2 by lia. change (2 ^ 1) with 2.
  rewrite u32_small by (unfold is_u32; lia).
  assert (Z.testbit (x * 2 ^ Z.of_nat n) 31 = false) as ->.
  { apply Z.testbit_false; [lia|]. rewrite Z.div_small by (change (2 ^ 31) with 2147483648; lia). done. }
  rewrite Z.lxor_0_r. lia.
Qed.

(** ** The table *)

Lemma table_entries t : is_byte t ->
  crcBytes (nth (Z.to_nat t) table 0) = be32 (Nat.iter 8 crcBit (Z.shiftl t 24))
  /\ is_u32 (nth (Z.to_nat t) table 0).
Proof.
  intros Ht.
  assert (forallb (fun n => bool_decide (crcBytes (nth n table 0)
      = be32 (Nat.iter 8 crcBit (Z.shiftl (Z.of_nat n) 24)))
    && (0 <=? nth n table 0) && (nth n table 0 <? 4294967296)) (seq 0 256) = true) as Hall
    by (vm_compute; reflexivity).
  rewrite forallb_forall in Hall. specialize (Hall (Z.to_nat t)). rewrite in_seq in Hall.
  unfold is_byte in Ht. specialize (Hall ltac:(lia)).
  apply andb_true_iff in Hall as [[H%bool_decide_eq_true H1]%andb_true_iff H2].
  rewrite Z2Nat.id in H by lia. split; [done|]. unfold is_u32. lia.
Qed.

Lemma crcBytes_lxor a b : crcBytes (Z.lxor a b) = zip_with Z.lxor (crcBytes a) (crcBytes b).
Proof. unfold crcBytes. cbn. by rewrite !Z.shiftr_lxor, !u8_lxor. Qed.

Lemma be32_shifts v : be32 v = [u8 (Z.shiftr v 24); u8 (Z.shiftr v 16); u8 (Z.shiftr v 8); u8 v].
Proof. unfold be32, le32, reverse, u8. cbn. by rewrite !Z.shiftr_div_pow2 by lia. Qed.

Lemma be32_lxor a b : be32 (Z.lxor a b) = zip_with Z.lxor (be32 a) (be32 b).
Proof. rewrite !be32_shifts. cbn. by rewrite !Z.shiftr_lxor, !u8_lxor. Qed.

(** One byte, in either order. *)
Lemma checksum_step c r b : is_byte b -> is_u32 c -> is_u32 r -> crcBytes c = be32 r ->
  let c' := Z.lxor (nth (Z.to_nat (Z.lxor b (u8 c))) table 0) (Z.shiftr c 8) in
  crcBytes c' = be32 (crcByte r b) /\ is_u32 c' /\ is_u32 (crcByte r b).
Proof.
  intros Hb Hc Hr E c'. unfold c'. rewrite be32_shifts in E. unfold crcBytes in E. injection E as E0 E1 E2 E3.
  assert (is_byte (u8 c)) as Hbc by (unfold is_byte, u8; lia || (apply Z.mod_pos_bound; lia)).
  set (t := Z.lxor b (u8 c)). assert (is_byte t) as Ht by by apply lxor_byte.
  destruct (table_entries t Ht) as [Et Hu].
  assert (crcByte r b = Z.lxor (Nat.iter 8 crcBit (Z.shiftl t 24)) (r mod 16777216 * 256)) as Ec.
  { unfold crcByte. replace (Z.lxor r (Z.shiftl b 24)) with (Z.lxor (Z.shiftl t 24) (r mod 16777216)).
    - rewrite crcBits_lxor. f_equal. pose proof (Z.mod_pos_bound r 16777216).
      change 256 with (2 ^ Z.of_nat 8). apply crcBits_low; [lia|]. change (2 ^ Z.of_nat 8) with 256. lia.
    - assert (r = Z.lxor (Z.shiftl (u8 c) 24) (r mod 16777216)) as Er; [|].
      { rewrite E0. apply Z.bits_inj'. intros n Hn. rewrite Z.lxor_spec.
        change 16777216 with (2 ^ 24). unfold u8. change 256 with (2 ^ 8).
        destruct (Z.ltb_spec n 24).
        - rewrite Z.mod_pow2_bits_low, Z.shiftl_spec_low by lia. by destruct (Z.testbit r n).
        - rewrite Z.mod_pow2_bits_high, Z.shiftl_spec_high, xorb_false_r by lia.
          destruct (Z.ltb_spec n 32).
          + rewrite Z.mod_pow2_bits_low, Z.shiftr_spec by lia. f_equal. lia.
          + rewrite Z.mod_pow2_bits_high by lia. apply (Z.mod_small r (2 ^ 32)) in Hr.
            rewrite <-Hr, Z.mod_pow2_bits_high by lia. done. }
      unfold t. rewrite Z.shiftl_lxor. set (low := r mod 16777216) in *. clearbody low. rewrite Er.
      by rewrite (Z.lxor_comm (Z.lxor _ low)), Z.lxor_assoc. }
  split.
  - rewrite Ec, crcBytes_lxor, be32_lxor, Et. f_equal.
    rewrite be32_shifts. unfold crcBytes. rewrite !Z.shiftr_shiftr by lia.
    unfold u8. rewrite !Z.shiftr_div_pow2 in * by lia. unfold u8, is_u32 in *.
    change (2 ^ 24) with 16777216 in *. change (2 ^ 16) with 65536 in *. change (2 ^ 8) with 256 in *.
    change (2 ^ (8 + 8)) with 65536. change (2 ^ (8 + 16)) with 16777216. change (2 ^ (8 + 24)) with 4294967296.
    rewrite E1, E2, E3. clear - Hc Hr.
    repeat (apply (f_equal2 cons); [Z.to_euclidean_division_equations; lia|]). done.
  - assert (forall x y, is_u32 x -> is_u32 y -> is_u32 (Z.lxor x y)) as Hx.
    { clear. intros x y Hx Hy. unfold is_u32 in *.
      rewrite <-(Z.mod_small x (2 ^ 32)), <-(Z.mod_small y (2 ^ 32)), <-mod_lxor by lia.
      apply Z.mod_pos_bound. lia. }
    split.
    + apply Hx; [done|]. unfold is_u32 in *. rewrite Z.shiftr_div_pow2 by lia. change (2 ^ 8) with 256.
      split; [apply Z.div_pos|apply Z.div_lt_upper_bound]; lia.
    + unfold crcByte. cbn [Nat.iter]. apply Hx; [apply u32_bound|]. by destruct (Z.testbit _ 31).
Qed.

(** The bytes the writer puts behind a table are its CRC, most significant byte first. *)
Theorem checksum_is_crc data : bytes_ok data -> crcBytes (checksum data) = be32 (crc32 data).
Proof.
  intros Hd. unfold checksum, crc32.
  assert (forall c r, is_u32 c -> is_u32 r -> crcBytes c = be32 r ->
    crcBytes (foldl (fun crc b => Z.lxor (nth (Z.to_nat (Z.lxor b (u8 crc))) table 0) (Z.shiftr crc 8)) c data)
    = be32 (foldl crcByte r data)) as H.
  { induction Hd as [|b data Hb _ IH]; intros c r Hc Hr E; [done|]. cbn [foldl].
    destruct (checksum_step c r b Hb Hc Hr E) as (E' & Hc' & Hr'). by apply IH. }
  apply H; unfold is_u32; [lia|lia|reflexivity].
Qed.

Lemma checksum_is_crc_witness :
  bytes_ok [0; 0xB0; 0x0D; 0; 1; 0xC1; 0; 0; 0; 1; 0xF0; 0]
  /\ crcBytes (checksum [0; 0xB0; 0x0D; 0; 1; 0xC1; 0; 0; 0; 1; 0xF0; 0]) = [0x2A; 0xB1; 0x04; 0xB2].
Proof.
  assert (bytes_ok [0; 0xB0; 0x0D; 0; 1; 0xC1; 0; 0; 0; 1; 0xF0; 0]) as H by bytes_lit.
  split; [exact H|]. rewrite (checksum_is_crc _ H). vm_compute. reflexivity.
Defined.
