(* ===== verification/TsDemux.v ===== *)
(** The MPEG transport stream reader ([pkg/mpegts/demuxer.go], [opus.go]). *)

From S2P Require Import Prelude Annexb Bits AacRtp Ts.

(** [None] in the place of the streams is a nil map: the table of them was not read yet. *)
Record Demuxer := mkDemuxer {
  dbuf : bytes;
  dbyte : Z;
  dbits : Z;
  dpos : Z;
  dend : Z;
  pmtID : Z;
  dpes : option (gmap Z PES);
}.
#[export] Instance eta_Demuxer : Eta Demuxer := fun d =>
  mkDemuxer (dbuf d) (dbyte d) (dbits d) (dpos d) (dend d) (pmtID d) (dpes d).

Definition NewDemuxer : Demuxer := mkDemuxer (zeros 188) 0 0 0 0 0 None.

Definition skipRead : Z := 0xFF.

(** The packets that are handed on; of the RTP header what the reader sets. *)
Record tsPacket := mkTsPacket {
  tsVersion : Z;
  tsMarker : bool;
  PayloadType : Z;
  tsSequence : Z;
  tsTimestamp : Z;
  ExtensionProfile : Z;
  tsPayload : bytes;
}.

(** ** The bit reader

    [None] is an index or a slice out of the packet. *)

Definition dAligned (d : Demuxer) : option (Z * Demuxer) :=
  b ← rd (dbuf d) (dpos d); Some (b, d <| dpos := u8 (dpos d + 1) |>).

Definition dreadBit (d : Demuxer) : option (Z * Demuxer) :=
  if dbits d =? 0 then
    '(b, d) ← dAligned d;
    Some (Z.land (Z.shiftr b 7) 1, (d <| dbyte := b |>) <| dbits := 7 |>)
  else
    let k := dbits d - 1 in
    Some (Z.land (Z.shiftr (dbyte d) k) 1, d <| dbits := k |>).

Fixpoint dbitsInto (w : Z -> Z) (n : nat) (res : Z) (d : Demuxer) : option (Z * Demuxer) :=
  match n with
  | O => Some (res, d)
  | S i => '(b, d) ← dreadBit d; dbitsInto w i (Z.lor res (w (Z.shiftl b (Z.of_nat i)))) d
  end.

Definition dreadBits (n : nat) : Demuxer -> option (Z * Demuxer) := dbitsInto u32 n 0.
Definition dreadBits16 (n : nat) : Demuxer -> option (Z * Demuxer) := dbitsInto u16 n 0.

Definition dreadByte (d : Demuxer) : option (Z * Demuxer) :=
  if dbits d =? 0 then dAligned d else '(b, d) ← dreadBits 8 d; Some (u8 b, d).

(** A read whose result is not used. *)
Definition ignore (m : Demuxer -> option (Z * Demuxer)) (d : Demuxer) : option Demuxer :=
  '(_, d) ← m d; Some d.

Definition dskip (i : Z) (d : Demuxer) : Demuxer := d <| dpos := u8 (dpos d + i) |>.

Definition dreadBytes (i : Z) (d : Demuxer) : option (bytes * Demuxer) :=
  let d := dskip i d in
  b ← sub (dbuf d) (u8 (dpos d - i)) (dpos d); Some (b, d).

Definition readTime (d : Demuxer) : option (Z * Demuxer) :=
  d ← ignore (dreadBits 4) d;
  '(a, d) ← dreadBits 3 d;
  d ← ignore (dreadBits 1) d;
  '(b, d) ← dreadBits 15 d;
  d ← ignore (dreadBits 1) d;
  '(c, d) ← dreadBits 15 d;
  d ← ignore (dreadBits 1) d;
  Some (Z.lor (Z.lor (u32 (Z.shiftl a 30)) (u32 (Z.shiftl b 15))) c, d).

Definition dbytes (d : Demuxer) : option bytes := sub (dbuf d) (dpos d) PacketSize.
Definition dleft (d : Demuxer) : Z := u8 (dend d - dpos d).
Definition setSize (size : Z) (d : Demuxer) : Demuxer := d <| dend := u8 (dpos d + size) |>.
Definition dreset (d : Demuxer) : Demuxer := ((d <| dpos := 0 |>) <| dend := PacketSize |>) <| dbits := 0 |>.

(** ** Headers and tables *)

Inductive tsError := ReadFails | WrongSync | WrongAdaptation.

Definition readPacketHeader (d : Demuxer) : option (((Z * bool) + tsError) * Demuxer) :=
  let d := dreset d in
  '(sb, d) ← dreadByte d;
  if negb (sb =? SyncByte) then Some (inr WrongSync, d) else
  d ← ignore dreadBit d;
  '(pusi, d) ← dreadBit d;
  d ← ignore dreadBit d;
  '(pid, d) ← dreadBits16 13 d;
  d ← ignore (dreadBits 2) d;
  '(af, d) ← dreadBit d;
  d ← ignore dreadBit d;
  d ← ignore (dreadBits 4) d;
  if negb (af =? 0) then
    '(adSize, d) ← dreadByte d;
    if PacketSize - 6 <? adSize then Some (inr WrongAdaptation, d)
    else Some (inl (pid, negb (pusi =? 0)), dskip adSize d)
  else Some (inl (pid, negb (pusi =? 0)), d).

Definition readPSIHeader (d : Demuxer) : option Demuxer :=
  '(pointer, d) ← dreadByte d;
  let d := dskip pointer d in
  d ← ignore dreadByte d;
  d ← ignore dreadBit d;
  d ← ignore dreadBit d;
  d ← ignore (dreadBits 2) d;
  d ← ignore (dreadBits 2) d;
  '(size, d) ← dreadBits 10 d;
  let d := setSize (u8 size) d in
  d ← ignore (dreadBits 16) d;
  d ← ignore (dreadBits 2) d;
  d ← ignore (dreadBits 5) d;
  d ← ignore dreadBit d;
  d ← ignore dreadByte d;
  ignore dreadByte d.

Definition CRCSize : Z := 4.

(** The rounds of the two tables; the outer [None] is running out of fuel. *)
Fixpoint patLoop (fuel : nat) (d : Demuxer) : option (option Demuxer) :=
  match fuel with
  | O => None
  | S fuel =>
      if negb (CRCSize <? dleft d) then Some (Some d) else
      match
        ('(num, d) ← dreadBits 16 d;
         d ← ignore (dreadBits 3) d;
         '(pid, d) ← dreadBits16 13 d;
         Some (if num =? 0 then d else d <| pmtID := pid |>))
      with
      | Some d => patLoop fuel d
      | None => Some None
      end
  end.

Definition readPAT (d : Demuxer) : option (option Demuxer) :=
  match readPSIHeader d with
  | None => Some None
  | Some d => o ← patLoop 65 d; Some (d ← o; Some (dskip 4 d))
  end.

Definition opusInfo : bytes := [0x05; 0x04; 79; 112; 117; 115].

Definition readEntry (d : Demuxer) : option ((Z * PES) * Demuxer) :=
  '(streamType, d) ← dreadByte d;
  d ← ignore (dreadBits 3) d;
  '(pid, d) ← dreadBits16 13 d;
  d ← ignore (dreadBits 4) d;
  d ← ignore (dreadBits 2) d;
  '(size, d) ← dreadBits 10 d;
  '(info, d) ← dreadBytes (u8 size) d;
  let streamType := if (streamType =? StreamTypePrivate) && bool_decide (take 6 info = opusInfo)
                    then StreamTypePrivateOPUS else streamType in
  Some ((pid, newPES streamType), d).

Fixpoint pmtLoop (fuel : nat) (pes : gmap Z PES) (d : Demuxer)
    : option (option (gmap Z PES * Demuxer)) :=
  match fuel with
  | O => None
  | S fuel =>
      if negb (CRCSize <? dleft d) then Some (Some (pes, d)) else
      match readEntry d with
      | Some ((pid, p), d) => pmtLoop fuel (<[pid := p]> pes) d
      | None => Some None
      end
  end.

Definition readPMT (d : Demuxer) : option (option Demuxer) :=
  match
    (d ← readPSIHeader d;
     d ← ignore (dreadBits 3) d;
     d ← ignore (dreadBits 13) d;
     d ← ignore (dreadBits 4) d;
     d ← ignore (dreadBits 2) d;
     '(size, d) ← dreadBits 10 d;
     Some (dskip (u8 size) d))
  with
  | None => Some None
  | Some d =>
      o ← pmtLoop 65 ∅ d;
      Some ('(pes, d) ← o; Some ((dskip 4 d) <| dpes := Some pes |>))
  end.

(** ** Elementary streams *)

Definition SetBuffer (size : Z) (b : bytes) (p : PES) : PES :=
  (p <| pesPayload := b |>) <| Size := size |>.
Definition AppendBuffer (b : bytes) (p : PES) : PES := p <| pesPayload := pesPayload p ++ b |>.

Definition opusDT : Z := 960 * 90000 / 48000.

(** [None] is running out of fuel, which does not happen: behind the end the reader
    gives zeros. *)
Fixpoint opusSize (fuel : nat) (size : Z) (r : Reader) : option (Z * Reader) :=
  match fuel with
  | O => None
  | S fuel =>
      let '(i, r) := ReadByte r in
      if i <? 255 then Some (size + i, r) else opusSize fuel (size + i) r
  end.

Definition opus_control_header (r : Reader) : option (Z * Reader) :=
  let '(prefix, r) := ReadBits 11 r in
  if negb (prefix =? 0x3FF) then Some (0, r) else
  let '(start_trim, r) := ReadBit r in
  let '(end_trim, r) := ReadBit r in
  let '(extension, r) := ReadBit r in
  let '(_, r) := ReadBits 2 r in
  '(payload_size, r) ← opusSize (S (length (buf r))) 0 r;
  let trim (b : Z) (r : Reader) := if b =? 0 then r else snd (ReadBits 13 (snd (ReadBits 3 r))) in
  let r := trim start_trim r in
  let r := trim end_trim r in
  let r := if extension =? 0 then r
           else let '(n, r) := ReadByte r in snd (ReadBytes (Z.to_nat n) r) in
  Some (payload_size, r).

Definition CutOPUSPacket (b : bytes) : option (bytes * bytes) :=
  '(size, r) ← opus_control_header (NewReader b);
  if size =? 0 then Some ([], []) else
  let '(packet, r) := ReadBytes (Z.to_nat size) r in
  Some (packet, Left r).

(** The packet that is complete, if its type is one of those handled; the outer [None]
    is that a frame of length 0 keeps it busy. *)
Definition GetPacket (p : PES) : option (option (option tsPacket * PES)) :=
  let seq := u16 (Sequence p + 1) in
  if isVideo (StreamType p) then
    let payload := EncodeToAVCC (pesPayload p) in
    Some (Some (Some (
      if DTS p =? 0 then mkTsPacket 0 false (StreamType p) 0 (PTS p) 0 payload
      else mkTsPacket 0 false (StreamType p) 0 (DTS p) (u16 (u32 (PTS p - DTS p))) payload),
      p <| pesPayload := [] |>))
  else if StreamType p =? StreamTypeAAC then
    o ← ADTStoRTP (pesPayload p);
    Some (payload ← o;
          Some (Some (mkTsPacket 2 true (StreamType p) seq (PTS p) 0 payload),
                (p <| Sequence := seq |>) <| pesPayload := [] |>))
  else if (StreamType p =? StreamTypePCMATapo) || (StreamType p =? StreamTypePCMUTapo) then
    Some (Some (Some (mkTsPacket 2 true (StreamType p) seq (PTS p) 0 (pesPayload p)),
                (p <| Sequence := seq |>) <| pesPayload := [] |>))
  else if StreamType p =? StreamTypePrivateOPUS then
    '(packet, rest) ← CutOPUSPacket (pesPayload p);
    Some (Some (Some (mkTsPacket 2 true (StreamType p) seq (PTS p) 0 packet),
                ((p <| Sequence := seq |>) <| pesPayload := rest |>) <| PTS := u32 (PTS p + opusDT) |>))
  else Some (Some (None, p <| pesPayload := [] |>)).

(** The header of a stream's packet and the data behind it: nothing when it does not
    start with the start code. *)
Definition readPESHeader (pes : PES) (d : Demuxer) : option (option PES * Demuxer) :=
  '(a, d) ← dreadByte d;
  if negb (a =? 0) then Some (None, d) else
  '(b, d) ← dreadByte d;
  if negb (b =? 0) then Some (None, d) else
  '(c, d) ← dreadByte d;
  if negb (c =? 1) then Some (None, d) else
  '(id, d) ← dreadByte d;
  '(packetSize, d) ← dreadBits16 16 d;
  d ← ignore (dreadBits 2) d;
  d ← ignore (dreadBits 2) d;
  d ← ignore dreadBit d;
  d ← ignore dreadBit d;
  d ← ignore dreadBit d;
  d ← ignore dreadBit d;
  '(ptsi, d) ← dreadBit d;
  '(dtsi, d) ← dreadBit d;
  d ← ignore dreadBit d;
  d ← ignore dreadBit d;
  d ← ignore dreadBit d;
  d ← ignore dreadBit d;
  d ← ignore dreadBit d;
  d ← ignore dreadBit d;
  '(headerSize, d) ← dreadByte d;
  let packetSize := if packetSize =? 0 then packetSize else u16 (packetSize - u8 (3 + headerSize)) in
  '(pts, d, headerSize) ← (if ptsi =? 0 then Some (0, d, headerSize)
                           else '(t, d) ← readTime d; Some (t, d, u8 (headerSize - 5)));
  '(dts, d, headerSize) ← (if dtsi =? 0 then Some (0, d, headerSize)
                           else '(t, d) ← readTime d; Some (t, d, u8 (headerSize - 5)));
  let d := dskip headerSize d in
  b ← dbytes d;
  let pes := ((pes <| StreamID := id |>) <| PTS := pts |>) <| DTS := dts |> in
  Some (Some (SetBuffer packetSize b pes), d).

(** Stores what [GetPacket] leaves of a stream. *)
Definition finish (pid : Z) (p : PES) (d : Demuxer) (m : gmap Z PES)
    : option (option (option tsPacket * Demuxer)) :=
  o ← GetPacket p;
  Some ('(pkt, p) ← o; Some (pkt, d <| dpes := Some (<[pid := p]> m) |>)).

Definition readPES (pid : Z) (start : bool) (m : gmap Z PES) (d : Demuxer)
    : option (option (option tsPacket * Demuxer)) :=
  match m !! pid with
  | None => Some (Some (None, d))
  | Some pes =>
      if (start : bool) && negb (len (pesPayload pes) =? 0)
      then finish pid pes (d <| dpos := skipRead |>) m
      else
        match (if (start : bool) then readPESHeader pes d
               else b ← dbytes d; Some (Some (AppendBuffer b pes), d)) with
        | None => Some None
        | Some (None, d) => Some (Some (None, d))
        | Some (Some pes, d) =>
            if negb (Size pes =? 0) && (Size pes <=? len (pesPayload pes)) then finish pid pes d m
            else Some (Some (None, d <| dpes := Some (<[pid := pes]> m) |>))
        end
  end.

(** ** Reading a packet *)

(** What a round of [ReadPacket] comes to. *)
Inductive tsStep :=
  | Emit (p : tsPacket) (rest : bytes) (d : Demuxer)
  | Next (rest : bytes) (d : Demuxer)
  | TsFailed (e : tsError)
  | TsPanic.

Section read.
(** The order in which Go walks the map. *)
Context (walk : gmap Z PES -> list PES).

Definition metadata (m : gmap Z PES) : tsPacket :=
  mkTsPacket 0 false StreamTypeMetadata 0 0 0 (map StreamType (walk m)).

(** What is done with the packet in the buffer. *)
Definition handlePacket (stream : bytes) (d : Demuxer) : option tsStep :=
  match readPacketHeader d with
  | None => Some TsPanic
  | Some (inr e, _) => Some (TsFailed e)
  | Some (inl (pid, start), d) =>
      match dpes d with
      | None =>
          if pid =? patPID then
            o ← readPAT d;
            Some match o with None => TsPanic | Some d => Next stream d end
          else if pid =? pmtID d then
            o ← readPMT d;
            Some match o with
                 | None => TsPanic
                 | Some d => Emit (metadata (default ∅ (dpes d))) stream d
                 end
          else Some (Next stream d)
      | Some m =>
          o ← readPES pid start m d;
          Some match o with
               | None => TsPanic
               | Some (Some pkt, d) => Emit pkt stream d
               | Some (None, d) => Next stream d
               end
      end
  end.

Definition packetStep (stream : bytes) (d : Demuxer) : option tsStep :=
  if dpos d =? skipRead then handlePacket stream d
  else if len stream <? PacketSize then Some (TsFailed ReadFails)
  else handlePacket (drop 188 stream) (d <| dbuf := take 188 stream |>).

(** [None] is running out of fuel. *)
Fixpoint ReadPacket (fuel : nat) (stream : bytes) (d : Demuxer) : option tsStep :=
  match fuel with
  | O => None
  | S fuel =>
      r ← packetStep stream d;
      match r with
      | Next stream d => ReadPacket fuel stream d
      | _ => Some r
      end
  end.
End read.
