(* ===== verification/TsReads.v ===== *)
(** The bit reader of the transport stream reader gives what [Bits.Reader] gives as long
    as it stays inside the packet, so the same description of reads applies to it. *)

From S2P Require Import Prelude Bits Ts TsDemux.

Definition rdr (d : Demuxer) : Reader := mkReader false (dbuf d) (dbyte d) (dbits d) (dpos d).

Definition dwf (d : Demuxer) : Prop :=
  0 <= dbits d < 8 /\ 0 <= dpos d <= 188 /\ len (dbuf d) = 188 /\ bytes_ok (dbuf d).

(** What a read leaves alone. *)
Definition same (d d' : Demuxer) : Prop :=
  dbuf d' = dbuf d /\ dend d' = dend d /\ pmtID d' = pmtID d /\ dpes d' = dpes d.

Lemma dsame_refl d : same d d.
Proof. by split_and!. Qed.
Lemma dsame_trans d1 d2 d3 : same d1 d2 -> same d2 d3 -> same d1 d3.
Proof. intros (?&?&?&?) (?&?&?&?). unfold same. split_and!; congruence. Qed.

(** ** Following the other reader *)

Lemma sim_aligned d v r : dwf d -> readAligned (rdr d) = (v, r) -> EOF r = false ->
  exists d', dAligned d = Some (v, d') /\ rdr d' = r /\ dwf d' /\ same d d'.
Proof.
  intros (Hb & Hp & Hl & Hok) H HE. unfold readAligned in H. cbn in H. rewrite Hl in H.
  destruct (Z.leb_spec 188 (dpos d)); injection H as <- <-; [done|].
  unfold dAligned. rewrite rd_in by lia. cbn. eexists. split; [reflexivity|].
  assert (u8 (dpos d + 1) = dpos d + 1) as E by (apply u8_small; unfold is_byte; lia).
  unfold rdr, dwf. cbn. rewrite E. split_and!; try done; lia.
Qed.

Lemma sim_bit d v r : dwf d -> ReadBit (rdr d) = (v, r) -> EOF r = false ->
  exists d', dreadBit d = Some (v, d') /\ rdr d' = r /\ dwf d' /\ same d d'.
Proof.
  intros Hd H HE. unfold ReadBit in H. cbn [bits rdr] in H. unfold dreadBit.
  destruct (Z.eqb_spec (dbits d) 0) as [E|E].
  - destruct (readAligned (rdr d)) as [b r1] eqn:Hr. injection H as <- <-. cbn in HE.
    destruct (sim_aligned d b r1 Hd Hr HE) as (d1 & -> & <- & Hd1 & Hs). cbn.
    eexists. split; [reflexivity|]. destruct Hd1 as (?&?&?&?).
    split; [done|]. split; [|done]. unfold dwf. cbn. split_and!; done || lia.
  - injection H as <- <-. eexists. split; [reflexivity|]. split; [done|]. split; [|done].
    destruct Hd as (?&?&?&?). unfold dwf. cbn. split_and!; done || lia.
Qed.

Lemma EOF_bit r : EOF r = true -> EOF (snd (ReadBit r)) = true.
Proof.
  intros H. unfold ReadBit, readAligned. destruct (bits r =? 0); [|done].
  by destruct (len (buf r) <=? pos r).
Qed.

Lemma EOF_bits w n : forall res r, EOF r = true -> EOF (snd (readBitsInto w n res r)) = true.
Proof.
  induction n as [|n IH]; intros res r H; [done|]. cbn [readBitsInto]. unfold rbind.
  pose proof (EOF_bit r H) as H1. destruct (ReadBit r) as [b r1]. by apply IH.
Qed.

Lemma sim_bits w n : forall res d v r, dwf d -> readBitsInto w n res (rdr d) = (v, r) -> EOF r = false ->
  exists d', dbitsInto w n res d = Some (v, d') /\ rdr d' = r /\ dwf d' /\ same d d'.
Proof.
  induction n as [|n IH]; intros res d v r Hd H HE.
  { injection H as <- <-. exists d. by split_and!. }
  cbn [readBitsInto dbitsInto] in *. unfold rbind in H. destruct (ReadBit (rdr d)) as [b r1] eqn:Hb.
  destruct (EOF r1) eqn:HE1.
  { pose proof (EOF_bits w n (Z.lor res (w (Z.shiftl b (Z.of_nat n)))) r1 HE1) as H1. rewrite H in H1.
    cbn in H1. congruence. }
  destruct (sim_bit d b r1 Hd Hb HE1) as (d1 & -> & E1 & Hd1 & Hs1). subst r1. cbn.
  destruct (IH _ d1 v r Hd1 H HE) as (d2 & -> & E2 & Hd2 & Hs2).
  exists d2. split_and!; try done. by eapply dsame_trans.
Qed.

(** ** Reads *)

(** A read that consumes the bits [pre] and returns [v]. *)
Definition dreads {A} (m : Demuxer -> option (A * Demuxer)) (pre : list bool) (v : A) : Prop :=
  forall d s, dwf d -> stream (rdr d) = pre ++ s ->
  exists d', m d = Some (v, d') /\ dwf d' /\ stream (rdr d') = s /\ same d d'.

(** A read whose result is not used. *)
Definition dskips (m : Demuxer -> option Demuxer) (pre : list bool) : Prop :=
  forall d s, dwf d -> stream (rdr d) = pre ++ s ->
  exists d', m d = Some d' /\ dwf d' /\ stream (rdr d') = s /\ same d d'.

Lemma dwf_reader d : dwf d -> reader_wf (rdr d).
Proof. intros (?&?&Hl&?). unfold reader_wf. cbn. rewrite Hl. split_and!; done || lia. Qed.

Lemma dreads_sim {m : Demuxer -> option (Z * Demuxer)} {rm : Rd Z} pre v :
  (forall d v r, dwf d -> rm (rdr d) = (v, r) -> EOF r = false ->
     exists d', m d = Some (v, d') /\ rdr d' = r /\ dwf d' /\ same d d') ->
  reads_as rm pre v -> dreads m pre v.
Proof.
  intros Hsim Hr d s Hd Hs. destruct (Hr (rdr d) s (dwf_reader d Hd) eq_refl Hs) as (r & E & _ & HE & Hs').
  destruct (Hsim d v r Hd E HE) as (d' & H1 & <- & H3 & H4). by exists d'.
Qed.

Lemma dreads_bit b : dreads dreadBit [b] (Z.b2z b).
Proof. exact (dreads_sim [b] _ sim_bit (reads_bit b)). Qed.

Lemma dreads_bits n v : (n <= 32)%nat -> 0 <= v < 2 ^ Z.of_nat n -> dreads (dreadBits n) (bits_of n v) v.
Proof. intros Hn Hv. exact (dreads_sim _ _ (sim_bits u32 n 0) (reads_bits n v Hn Hv)). Qed.

Lemma dreads_bits16 n v : (n <= 16)%nat -> 0 <= v < 2 ^ Z.of_nat n -> dreads (dreadBits16 n) (bits_of n v) v.
Proof. intros Hn Hv. exact (dreads_sim _ _ (sim_bits u16 n 0) (reads_bits16 n v Hn Hv)). Qed.

Lemma dreads_byte v : is_byte v -> dreads dreadByte (bits_of 8 v) v.
Proof.
  intros Hv d s Hd Hs. unfold dreadByte. destruct (Z.eqb_spec (dbits d) 0) as [E|E].
  - destruct (reads_byte v Hv (rdr d) s (dwf_reader d Hd) eq_refl Hs) as (r & E1 & _ & HE & Hs').
    unfold ReadByte in E1. cbn [bits rdr] in E1. rewrite E in E1. cbn in E1.
    destruct (sim_aligned d v r Hd E1 HE) as (d' & H1 & <- & H3 & H4). by exists d'.
  - destruct (dreads_bits 8 v ltac:(lia) Hv d s Hd Hs) as (d' & -> & H'). cbn. exists d'.
    by rewrite u8_small.
Qed.

Lemma dreads_skip m pre v : dreads m pre v -> dskips (ignore m) pre.
Proof.
  intros H d s Hd Hs. destruct (H d s Hd Hs) as (d' & E & H'). exists d'. unfold ignore. by rewrite E.
Qed.

Lemma dskip_bit b : dskips (ignore dreadBit) [b].
Proof. exact (dreads_skip _ _ _ (dreads_bit b)). Qed.

(** Any bits can be skipped. *)
Fixpoint value_of (l : list bool) : Z :=
  match l with [] => 0 | b :: l => Z.b2z b * 2 ^ len l + value_of l end.

Lemma value_bound l : 0 <= value_of l < 2 ^ len l.
Proof.
  induction l as [|b l IH]; cbn [value_of]; [done|]. rewrite len_cons, Z.pow_add_r by (lia || apply len_nonneg).
  destruct b; cbn [Z.b2z]; lia.
Qed.

Lemma bits_of_value l : bits_of (length l) (value_of l) = l.
Proof.
  induction l as [|b l IH]; [done|]. cbn [length bits_of value_of]. pose proof (value_bound l) as Hv.
  pose proof (len_nonneg l). f_equal.
  - change (Z.of_nat (length l)) with (len l). rewrite Z.testbit_eqb, Z.add_comm, Z.div_add, Z.div_small by lia.
    by destruct b.
  - rewrite <-bits_of_mod. change (Z.of_nat (length l)) with (len l).
    by rewrite Z.add_comm, Z_mod_plus_full, Z.mod_small.
Qed.

Lemma dskip_bits n l : length l = n -> (n <= 32)%nat -> dskips (ignore (dreadBits n)) l.
Proof.
  intros <- Hn. rewrite <-(bits_of_value l) at 2. eapply dreads_skip, dreads_bits; [done|apply value_bound].
Qed.

Lemma dskip_byte l : length l = 8%nat -> dskips (ignore dreadByte) l.
Proof.
  intros Hl. rewrite <-(bits_of_value l), Hl. eapply dreads_skip, dreads_byte.
  pose proof (value_bound l) as H. unfold len in H. rewrite Hl in H. exact H.
Qed.

(** ** Positions *)

(** In front of [rest], on a byte boundary. *)
Definition at_rest (d : Demuxer) (rest : bytes) : Prop :=
  dwf d /\ bytes_ok rest /\ stream (rdr d) = flat_map (bits_of 8) rest.

Lemma length_bytes_bits (l : bytes) : length (flat_map (bits_of 8) l) = (8 * length l)%nat.
Proof. induction l as [|x l IH]; [done|]. cbn [flat_map]. rewrite length_app, IH, length_bits_of. cbn. lia. Qed.

Lemma bytes_bits_inj l k : bytes_ok l -> bytes_ok k ->
  flat_map (bits_of 8) l = flat_map (bits_of 8) k -> l = k.
Proof.
  revert k. induction l as [|x l IH]; intros [|y k] Hl Hk E; try done.
  cbn [flat_map] in E. apply app_inj_1 in E as [Exy E]; [|by rewrite !length_bits_of].
  apply Forall_cons in Hl as [Hx Hl], Hk as [Hy Hk]. f_equal; [|by apply IH].
  exact (bits_of_inj 8 x y Hx Hy Exy).
Qed.

Lemma at_rest_pos d rest : at_rest d rest ->
  dbits d = 0 /\ dpos d = 188 - len rest /\ drop (Z.to_nat (dpos d)) (dbuf d) = rest.
Proof.
  intros ((Hb & Hp & Hl & Hok) & Hr & Hs). unfold stream in Hs. cbn [bits byte buf pos rdr] in Hs.
  assert (dbits d = 0 /\ dpos d = 188 - len rest) as [E1 E2].
  { apply (f_equal length) in Hs. rewrite length_app, length_bits_of, !length_bytes_bits, length_drop in Hs.
    unfold len in *. lia. }
  split_and!; [done..|]. rewrite E1 in Hs. cbn [Z.to_nat bits_of app] in Hs.
  apply bytes_bits_inj; [by apply Forall_drop|done|done].
Qed.

Lemma at_rest_bytes d rest : at_rest d rest -> dbytes d = Some rest.
Proof.
  intros H. destruct (at_rest_pos d rest H) as (_ & E & Hd). destruct H as ((_ & Hp & Hl & _) & _ & _).
  unfold dbytes. rewrite sub_in by (unfold PacketSize in *; lia). f_equal. unfold seg. rewrite Hd.
  apply take_ge. unfold PacketSize, len in *. lia.
Qed.

(** Skipping bytes. *)
Lemma at_rest_skip d a rest : at_rest d (a ++ rest) -> at_rest (dskip (len a) d) rest.
Proof.
  intros H. destruct (at_rest_pos _ _ H) as (Eb & Ep & Ed). destruct H as ((Hb & Hp & Hl & Hok) & Hr & Hs).
  rewrite len_app in Ep. pose proof (len_nonneg a). pose proof (len_nonneg rest).
  assert (u8 (dpos d + len a) = dpos d + len a) as Eu by (apply u8_small; unfold is_byte; lia).
  unfold at_rest, dwf, rdr, stream, dskip in *. cbn in *. rewrite Eu, Eb. cbn.
  apply Forall_app in Hr as [_ Hr]. split_and!; try done; try lia. f_equal.
  rewrite Z2Nat.inj_add by lia. rewrite <-drop_drop, Ed. unfold len. by rewrite Nat2Z.id, drop_app_length.
Qed.

(** The front of a new packet. *)
Lemma at_rest_front d : len (dbuf d) = 188 -> bytes_ok (dbuf d) -> at_rest (dreset d) (dbuf d).
Proof.
  intros Hl Hok. unfold at_rest, dwf, rdr, stream, dreset. cbn. rewrite drop_0. split_and!; try done; lia.
Qed.

(** After reading the bits of some bytes. *)
Lemma at_rest_after d rest : dwf d -> bytes_ok rest -> stream (rdr d) = flat_map (bits_of 8) rest ->
  at_rest d rest.
Proof. by intros. Qed.

(** One read after the other: [run L] does the next one by its lemma; what the reads so
    far left alone is kept in one hypothesis. *)
Ltac run L :=
  match goal with
  | Hd : dwf ?d, Hs : stream (rdr ?d) = _, Hx : same ?d0 ?d |- _ =>
      let d' := fresh "d" in let E := fresh "E" in let Hd' := fresh "Hd" in let Hs' := fresh "Hs" in
      let Hx' := fresh "Hsame" in
      destruct (L d _ Hd Hs) as (d' & E & Hd' & Hs' & Hx'); rewrite E; apply (dsame_trans _ _ _ Hx) in Hx';
      clear E Hx Hs Hd; try clear d; cbn [mbind option_bind]
  end.
