(* ===== verification/TsFacts.v ===== *)
(** What the transport stream writer writes the reader reads ([mpegts/muxer.go],
    [mpegts/demuxer.go]). *)

From S2P Require Import Prelude Annexb Bits Writer Aac AacRtp Ts TsDemux TsReads.

(** ** A packet of the stream *)

(** The packet that carries [chunk]. *)
Definition tsBytes (pid : Z) (start : bool) (seq : Z) (chunk : bytes) : bytes :=
  [SyncByte] ++ be16 (if start then pid + 0x4000 else pid)
  ++ (if len chunk <? 184
      then [0x30 + seq mod 16; 183 - len chunk] ++ zeros (Z.to_nat (183 - len chunk))
      else [0x10 + seq mod 16]) ++ chunk.

Lemma bits_pid pid (start : bool) : 0 <= pid < 8192 ->
  flat_map (bits_of 8) (be16 (if start then pid + 0x4000 else pid))
  = [false] ++ [start] ++ [false] ++ bits_of 13 pid.
Proof.
  intros Hp.
  assert (forallb (fun n => forallb (fun start : bool => let pid := Z.of_nat n in
    bool_decide (flat_map (bits_of 8) (be16 (if start then pid + 0x4000 else pid))
      = [false] ++ [start] ++ [false] ++ bits_of 13 pid)) [true; false]) (seq 0 (Z.to_nat 8192)) = true) as H
    by (vm_compute; reflexivity).
  rewrite forallb_forall in H. specialize (H (Z.to_nat pid)). rewrite in_seq in H.
  specialize (H ltac:(lia)). rewrite forallb_forall in H. specialize (H start ltac:(destruct start; cbn; auto)).
  rewrite Z2Nat.id in H by lia. by apply bool_decide_eq_true in H.
Qed.

Lemma bits_flags (af : bool) c : 0 <= c < 16 ->
  bits_of 8 ((if af then 0x30 else 0x10) + c) = bits_of 2 0 ++ [af] ++ [true] ++ bits_of 4 c.
Proof.
  intros Hc.
  assert (forallb (fun n => forallb (fun af : bool => let c := Z.of_nat n in
    bool_decide (bits_of 8 ((if af then 0x30 else 0x10) + c)
      = bits_of 2 0 ++ [af] ++ [true] ++ bits_of 4 c)) [true; false]) (seq 0 16) = true) as H
    by (vm_compute; reflexivity).
  rewrite forallb_forall in H. specialize (H (Z.to_nat c)). rewrite in_seq in H.
  specialize (H ltac:(lia)). rewrite forallb_forall in H. specialize (H af ltac:(destruct af; cbn; auto)).
  rewrite Z2Nat.id in H by lia. by apply bool_decide_eq_true in H.
Qed.

(** What handling a packet leaves alone. *)
Definition keeps (d d' : Demuxer) : Prop := dbuf d' = dbuf d /\ pmtID d' = pmtID d /\ dpes d' = dpes d.

Lemma len_zeros n : len (zeros n) = Z.of_nat n.
Proof. unfold len, zeros. by rewrite length_replicate. Qed.

Lemma len_tsBytes pid start seq chunk : 0 < len chunk <= 184 -> len (tsBytes pid start seq chunk) = 188.
Proof.
  intros Hc. unfold tsBytes. rewrite !len_app. change (len [SyncByte]) with 1. change (len (be16 _)) with 2.
  destruct (Z.ltb_spec (len chunk) 184).
  - rewrite len_app, len_zeros. change (len [_; _]) with 2. lia.
  - change (len [_]) with 1. lia.
Qed.

Lemma be16_ok v : bytes_ok (be16 v).
Proof. repeat constructor; apply Z.mod_pos_bound; lia. Qed.

Lemma tsBytes_ok pid start seq chunk : 0 < len chunk <= 184 -> bytes_ok chunk -> bytes_ok (tsBytes pid start seq chunk).
Proof.
  intros Hl Hc. pose proof (Z.mod_pos_bound seq 16 ltac:(lia)). unfold tsBytes. apply Forall_app; split; [by repeat constructor|].
  apply Forall_app; split; [apply be16_ok|]. apply Forall_app; split; [|done].
  destruct (Z.ltb_spec (len chunk) 184).
  - apply Forall_app; split; [|apply zeros_ok].
    apply Forall_cons; split; [unfold is_byte; lia|]. apply Forall_cons; split; [unfold is_byte; lia|constructor].
  - apply Forall_cons; split; [unfold is_byte; lia|constructor].
Qed.

Lemma header_read d pid start seq chunk :
  0 <= pid < 8192 -> 0 < len chunk <= 184 -> bytes_ok chunk -> dbuf d = tsBytes pid start seq chunk ->
  exists d', readPacketHeader d = Some (inl (pid, start), d') /\ at_rest d' chunk /\ keeps d d'.
Proof.
  intros Hp Hl Hok Hb. pose proof (Z.mod_pos_bound seq 16 ltac:(lia)) as Hc.
  destruct (at_rest_front d) as (Hd & _ & Hs).
  { rewrite Hb. by apply len_tsBytes. }
  { rewrite Hb. by apply tsBytes_ok. }
  unfold readPacketHeader. set (d0 := dreset d) in *.
  assert (same d0 d0) as Hx by apply dsame_refl. assert (keeps d d0) as Hk by by split_and!.
  set (af := len chunk <? 184).
  set (rest := if af then [183 - len chunk] ++ zeros (Z.to_nat (183 - len chunk)) ++ chunk else chunk).
  rewrite Hb in Hs.
  assert (flat_map (bits_of 8) (tsBytes pid start seq chunk)
    = bits_of 8 SyncByte ++ [false] ++ [start] ++ [false] ++ bits_of 13 pid ++ bits_of 2 0 ++ [af] ++ [true]
      ++ bits_of 4 (seq mod 16) ++ flat_map (bits_of 8) rest) as Hbits.
  { unfold tsBytes. rewrite !flat_map_app, bits_pid by done. cbn [flat_map]. rewrite app_nil_r, <-!app_assoc.
    do 5 f_equal. pose proof (bits_flags af (seq mod 16) Hc) as Hf. unfold rest. fold af. destruct af.
    - rewrite <-flat_map_app, <-app_assoc. cbn [flat_map app]. rewrite Hf, <-!app_assoc. done.
    - cbn [flat_map app]. rewrite Hf, <-!app_assoc. done. }
  rewrite Hbits in Hs. clearbody d0.
  run (dreads_byte SyncByte ltac:(unfold is_byte, SyncByte; lia)).
  change (negb (SyncByte =? SyncByte)) with false. cbv iota.
  run (dskip_bit false). run (dreads_bit start). run (dskip_bit false).
  run (dreads_bits16 13 pid ltac:(lia) ltac:(change (2 ^ Z.of_nat 13) with 8192; lia)).
  run (dskip_bits 2 (bits_of 2 0) (length_bits_of _ _) ltac:(lia)).
  run (dreads_bit af). run (dskip_bit true).
  run (dskip_bits 4 (bits_of 4 (seq mod 16)) (length_bits_of _ _) ltac:(lia)).
  assert (negb (Z.b2z start =? 0) = start) as -> by by destruct start.
  assert (forall d', same d0 d' -> keeps d d') as Hkeep.
  { intros d' (? & _ & ? & ?). destruct Hk as (? & ? & ?). unfold keeps. split_and!; congruence. }
  subst af rest. destruct (Z.ltb_spec (len chunk) 184) as [H184|H184]; cbn [Z.b2z Z.eqb negb].
  - cbn [app flat_map] in Hs0. run (dreads_byte (183 - len chunk) ltac:(unfold is_byte; lia)).
    rewrite (proj2 (Z.ltb_ge _ _)) by (unfold PacketSize; lia). eexists. split; [reflexivity|].
    replace (183 - len chunk) with (len (zeros (Z.to_nat (183 - len chunk)))) at 1 by (rewrite len_zeros; lia).
    split; [|by apply Hkeep].
    apply at_rest_skip. split_and!; [done| |done]. apply Forall_app. split; [apply zeros_ok|done].
  - eexists. split; [reflexivity|]. split; [by split_and!|by apply Hkeep].
Qed.

(** ** The header of an elementary stream's packet *)

Lemma testbit_u8 v i : 0 <= i < 8 -> Z.testbit (u8 v) i = Z.testbit v i.
Proof. intros Hi. unfold u8. change 256 with (2 ^ 8). apply Z.mod_pow2_bits_low; lia. Qed.

Lemma bits_time t : is_u32 t ->
  flat_map (bits_of 8) (WriteTime t)
  = bits_of 4 2 ++ bits_of 3 (t / 2 ^ 30) ++ [true] ++ bits_of 15 (t / 2 ^ 15 mod 2 ^ 15) ++ [true]
    ++ bits_of 15 (t mod 2 ^ 15) ++ [true].
Proof.
  intros Ht. unfold WriteTime. cbn [flat_map]. rewrite app_nil_r.
  assert (forall i, 32 <= i -> Z.testbit t i = false) as Hhi.
  { intros i Hi. unfold is_u32 in Ht. rewrite Z.testbit_eqb, Z.div_small; [done| |lia].
    assert (2 ^ 32 <= 2 ^ i) by (apply Z.pow_le_mono_r; lia). lia. }
  change (2 ^ 15) with (2 ^ Z.of_nat 15). rewrite !bits_of_mod. change (2 ^ Z.of_nat 15) with (2 ^ 15).
  rewrite <-!(Z.shiftr_div_pow2 t) by lia. cbn [bits_of app].
  rewrite !Z.lor_spec, !testbit_u8, !Z.shiftr_spec, ?Z.shiftl_spec by lia.
  rewrite (Hhi (Z.of_nat 7 + 29)), (Hhi (Z.of_nat 6 + 29)), (Hhi (Z.of_nat 5 + 29)), (Hhi (Z.of_nat 4 + 29)),
    (Hhi (Z.of_nat 3 + 29)), (Hhi (Z.of_nat 2 + 30)) by lia.
  generalize (Z.testbit t). intros f. vm_compute.
  repeat match goal with
  | |- context [if f ?i then true else false] =>
      replace (if f i then true else false) with (f i) by (by destruct (f i))
  | |- context [if f ?i then true else true] =>
      replace (if f i then true else true) with true by (by destruct (f i))
  end. done.
Qed.

(** The three parts of a time. *)
Lemma time_parts t : is_u32 t ->
  Z.lor (Z.lor (u32 (Z.shiftl (t / 2 ^ 30) 30)) (u32 (Z.shiftl (t / 2 ^ 15 mod 2 ^ 15) 15))) (t mod 2 ^ 15) = t.
Proof.
  intros Ht. unfold is_u32 in Ht.
  assert (0 <= t / 2 ^ 30 < 4) by (split; [apply Z.div_pos|apply Z.div_lt_upper_bound]; lia).
  pose proof (Z.mod_pos_bound (t / 2 ^ 15) (2 ^ 15) ltac:(lia)). pose proof (Z.mod_pos_bound t (2 ^ 15) ltac:(lia)).
  rewrite !(Z.shiftl_mul_pow2 _ _) by lia. rewrite !u32_small by (unfold is_u32; lia).
  rewrite <-(Z.shiftl_mul_pow2 (t / 2 ^ 30)) by lia. rewrite (lor_shift (t / 2 ^ 30)) by lia.
  replace (t / 2 ^ 30 * 2 ^ 30 + t / 2 ^ 15 mod 2 ^ 15 * 2 ^ 15) with ((t / 2 ^ 15) * 2 ^ 15).
  - rewrite <-Z.shiftl_mul_pow2, lor_shift by lia. rewrite Z.mul_comm. symmetry. apply Z.div_mod. lia.
  - change (2 ^ 30) with (2 ^ 15 * 2 ^ 15). rewrite <-Z.div_div by lia. rewrite Z.mul_assoc, <-Z.mul_add_distr_r.
    f_equal. rewrite Z.mul_comm. apply Z.div_mod. lia.
Qed.

Lemma readTime_written t : is_u32 t -> dreads readTime (flat_map (bits_of 8) (WriteTime t)) t.
Proof.
  intros Ht d s Hd Hs. rewrite bits_time, <-!app_assoc in Hs by done. unfold is_u32 in Ht.
  assert (same d d) as Hx by apply dsame_refl. unfold readTime.
  pose proof (Z.mod_pos_bound (t / 2 ^ 15) (2 ^ 15) ltac:(lia)). pose proof (Z.mod_pos_bound t (2 ^ 15) ltac:(lia)).
  assert (0 <= t / 2 ^ 30 < 4) by (split; [apply Z.div_pos|apply Z.div_lt_upper_bound]; lia).
  run (dskip_bits 4 (bits_of 4 2) (length_bits_of _ _) ltac:(lia)).
  run (dreads_bits 3 (t / 2 ^ 30) ltac:(lia) ltac:(lia)).
  run (dskip_bits 1 [true] eq_refl ltac:(lia)).
  run (dreads_bits 15 (t / 2 ^ 15 mod 2 ^ 15) ltac:(lia) ltac:(lia)).
  run (dskip_bits 1 [true] eq_refl ltac:(lia)).
  run (dreads_bits 15 (t mod 2 ^ 15) ltac:(lia) ltac:(lia)).
  run (dskip_bits 1 [true] eq_refl ltac:(lia)).
  rewrite time_parts by done. eexists. by split_and!.
Qed.

(** The size in the header, and what the reader takes it for: 0 is "not known". *)
Definition announced (payload : bytes) : Z := if 8 + len payload <=? 65535 then len payload else 0.

Definition opened (id pts : Z) (payload c : bytes) (p : PES) : PES :=
  SetBuffer (announced payload) c (((p <| StreamID := id |>) <| PTS := pts |>) <| DTS := 0 |>).

Lemma bits_be16 v : is_u16 v -> flat_map (bits_of 8) (be16 v) = bits_of 16 v.
Proof.
  intros Hv. unfold is_u16 in Hv. change 16%nat with (8 + 8)%nat. rewrite bits_of_app by lia.
  cbn [flat_map be16]. rewrite app_nil_r. f_equal; [|apply (bits_of_mod 8 v)].
  change (2 ^ Z.of_nat 8) with 256. apply (bits_of_mod 8 (v / 256)).
Qed.

Lemma readPESHeader_written d id pts payload c pes :
  is_byte id -> is_u32 pts -> bytes_ok c -> at_rest d (pesHeader id pts payload ++ c) ->
  exists d', readPESHeader pes d = Some (Some (opened id pts payload c pes), d')
    /\ at_rest d' c /\ keeps d d'.
Proof.
  intros Hid Hpts Hc (Hd & _ & Hs). pose proof (len_nonneg payload) as Hl.
  set (sz := if 8 + len payload <=? 65535 then 8 + len payload else 0).
  assert (is_u16 sz) as Hsz by (unfold sz, is_u16; destruct (Z.leb_spec (8 + len payload) 65535); lia).
  assert (flat_map (bits_of 8) (pesHeader id pts payload ++ c)
    = bits_of 8 0 ++ bits_of 8 0 ++ bits_of 8 1 ++ bits_of 8 id ++ bits_of 16 sz
      ++ bits_of 2 2 ++ bits_of 2 0 ++ [false] ++ [false] ++ [false] ++ [false]
      ++ [true] ++ [false] ++ [false] ++ [false] ++ [false] ++ [false] ++ [false] ++ [false] ++ bits_of 8 5
      ++ flat_map (bits_of 8) (WriteTime pts) ++ flat_map (bits_of 8) c) as Hbits.
  { unfold pesHeader. rewrite !flat_map_app, <-!app_assoc. rewrite <-bits_be16 by done.
    assert ((if 3 + 5 + len payload <=? 0xFFFF
             then [u8 (Z.shiftr (3 + 5 + len payload) 8); u8 (3 + 5 + len payload)] else [0; 0]) = be16 sz) as ->.
    { unfold sz. change (3 + 5 + len payload) with (8 + len payload).
      destruct (Z.leb_spec (8 + len payload) 65535); [|done].
      unfold be16, u8. rewrite Z.shiftr_div_pow2 by lia. done. }
    cbn [flat_map]. rewrite app_nil_r, <-!app_assoc. reflexivity. }
  rewrite Hbits in Hs. clear Hbits. assert (same d d) as Hx by apply dsame_refl. unfold readPESHeader.
  run (dreads_byte 0 ltac:(unfold is_byte; lia)). cbn [Z.eqb negb].
  run (dreads_byte 0 ltac:(unfold is_byte; lia)). cbn [Z.eqb negb].
  run (dreads_byte 1 ltac:(unfold is_byte; lia)). cbn [Z.eqb Pos.eqb negb].
  run (dreads_byte id Hid).
  run (dreads_bits16 16 sz ltac:(lia) Hsz).
  run (dskip_bits 2 (bits_of 2 2) (length_bits_of _ _) ltac:(lia)).
  run (dskip_bits 2 (bits_of 2 0) (length_bits_of _ _) ltac:(lia)).
  do 4 run (dskip_bit false).
  run (dreads_bit true). run (dreads_bit false).
  do 6 run (dskip_bit false).
  run (dreads_byte 5 ltac:(unfold is_byte; lia)). cbn [Z.b2z Z.eqb].
  run (readTime_written pts Hpts).
  change (u8 (5 - 5)) with 0.
  match goal with Hd : dwf ?d, Hs : stream (rdr ?d) = _ |- _ =>
    assert (at_rest (dskip (len (@nil Z)) d) c) as Hr by (apply at_rest_skip; by split_and!) end.
  change (len (@nil Z)) with 0 in Hr. rewrite (at_rest_bytes _ _ Hr). cbn [mbind option_bind].
  eexists. split; [|split; [exact Hr|]].
  - unfold opened, announced. do 4 f_equal. unfold sz. change (u8 (3 + 5)) with 8.
    destruct (Z.leb_spec (8 + len payload) 65535); [|done].
    destruct (Z.eqb_spec (8 + len payload) 0); [lia|]. rewrite u16_small; [lia|unfold is_u16; lia].
  - match goal with Hx : same _ _ |- _ => destruct Hx as (E0 & _ & E1 & E2) end.
    unfold keeps. split_and!; cbn; congruence.
Qed.
