(* ===== verification/TsFlow.v ===== *)
(** A payload on its way: the packets the writer cuts it into, and the reader putting them
    together. *)

From S2P Require Import Prelude Annexb Bits Writer Ts TsDemux TsReads TsFacts.

(** ** The writer *)

(** The packets of what is left of a payload. *)
Fixpoint packets (fuel : nat) (pid : Z) (start : bool) (seq : Z) (payload : bytes) : bytes :=
  match fuel with
  | O => []
  | S fuel =>
      if len payload =? 0 then []
      else tsBytes pid start seq (take 184 payload) ++ packets fuel pid false (u16 (seq + 1)) (drop 184 payload)
  end.

Lemma lor_flag pid : 0 <= pid < 512 -> Z.lor pid flagPUSI = pid + 0x4000.
Proof.
  intros Hp. rewrite Z.lor_comm. unfold flagPUSI. change 0x4000 with (Z.shiftl 1 14).
  rewrite lor_shift by (change (2 ^ 14) with 16384; lia). change (Z.shiftl 1 14) with 16384. lia.
Qed.

Lemma counter_value seq : Z.land (u8 seq) 0xF = seq mod 16.
Proof.
  change 0xF with (Z.ones 4). rewrite Z.land_ones by lia. unfold u8. change (2 ^ 4) with 16.
  Z.to_euclidean_division_equations. lia.
Qed.

Lemma flags_value (af : bool) c : 0 <= c < 16 ->
  Z.lor (if af then Z.lor flagAdaptation flagPayload else flagPayload) c = (if af then 0x30 else 0x10) + c.
Proof.
  intros Hc. rewrite <-(Z.mod_small c (2 ^ 4)) at 1 by (change (2 ^ 4) with 16; lia).
  destruct af.
  - change (Z.lor flagAdaptation flagPayload) with (Z.shiftl 3 4). rewrite Z.mod_small by (change (2 ^ 4) with 16; lia).
    rewrite lor_shift by (change (2 ^ 4) with 16; lia). done.
  - change flagPayload with (Z.shiftl 1 4). rewrite Z.mod_small by (change (2 ^ 4) with 16; lia).
    rewrite lor_shift by (change (2 ^ 4) with 16; lia). done.
Qed.

Lemma writePES_bytes pid pes l : 0 <= pid < 512 -> 0 < len (pesPayload pes) ->
  writePES pid pes (mkWriter l 0)
  = (mkWriter (l ++ tsBytes pid (negb (Size pes =? 0)) (Sequence pes) (take 184 (pesPayload pes))) 0,
     pes <| pesPayload := drop 184 (pesPayload pes) |>).
Proof.
  intros Hp Hl. unfold writePES. rewrite counter_value.
  pose proof (Z.mod_pos_bound (Sequence pes) 16 ltac:(lia)) as Hc.
  assert ((if Size pes =? 0 then pid else Z.lor pid flagPUSI)
    = (if negb (Size pes =? 0) then pid + 0x4000 else pid)) as ->.
  { destruct (Size pes =? 0); [done|]. by apply lor_flag. }
  set (v := if negb (Size pes =? 0) then pid + 0x4000 else pid).
  assert ([u8 (Z.shiftr v 8); u8 v] = be16 v) as Ev.
  { unfold u8, be16. by rewrite Z.shiftr_div_pow2 by lia. }
  unfold WriteByte, WriteUint16, WriteBytes, append. cbn [room wbuf Z.eqb]. rewrite Ev.
  change (PacketSize - 4) with 184. unfold tsBytes. fold v.
  destruct (Z.ltb_spec (len (pesPayload pes)) 184) as [H184|H184].
  - rewrite (take_ge (pesPayload pes) 184), (drop_ge (pesPayload pes) 184) by (unfold len in *; lia).
    rewrite (proj2 (Z.ltb_lt _ _) H184). rewrite (flags_value true) by done.
    assert (u8 (184 - 1 - u8 (len (pesPayload pes))) = 183 - len (pesPayload pes)) as ->.
    { rewrite (u8_small (len _)) by (unfold is_byte; lia). rewrite u8_small; [lia|unfold is_byte; lia]. }
    f_equal. f_equal. rewrite <-!app_assoc. reflexivity.
  - assert (len (take 184 (pesPayload pes)) = 184) as El by (unfold len in *; rewrite length_take; lia).
    rewrite El. cbn [Z.ltb Z.compare Pos.compare Pos.compare_cont]. rewrite (flags_value false) by done.
    f_equal. f_equal. rewrite <-!app_assoc. reflexivity.
Qed.

(** What stays of a stream when its payload was written. *)
Definition flushed (pes : PES) (seq : Z) : PES :=
  ((pes <| Sequence := seq |>) <| pesPayload := [] |>) <| Size := 0 |>.

Lemma pesLoop_packets fuel pid : forall pes l, 0 <= pid < 512 ->
  (length (pesPayload pes) < fuel)%nat -> pesPayload pes <> [] ->
  exists seq, pesLoop fuel pid pes (mkWriter l 0)
    = Some (mkWriter (l ++ packets fuel pid (negb (Size pes =? 0)) (Sequence pes) (pesPayload pes)) 0,
            flushed pes seq).
Proof.
  induction fuel as [|fuel IH]; intros pes l Hp Hf Hne; [lia|]. cbn [pesLoop packets].
  assert (0 < len (pesPayload pes)) as Hl.
  { destruct (pesPayload pes); [done|]. rewrite len_cons. pose proof (len_nonneg l0). lia. }
  destruct (Z.eqb_spec (len (pesPayload pes)) 0); [lia|]. rewrite writePES_bytes by done.
  set (l' := l ++ tsBytes _ _ _ _).
  set (pes' := ((pes <| pesPayload := _ |>) <| Sequence := _ |>) <| Size := 0 |>).
  destruct (decide (drop 184 (pesPayload pes) = [])) as [E|E].
  - exists (u16 (Sequence pes + 1)). rewrite E. destruct fuel as [|fuel]; [unfold len in *; lia|].
    unfold pes'. cbn [pesLoop packets pesPayload]. rewrite E. cbn. by rewrite app_nil_r.
  - destruct (IH pes' l' Hp) as (seq & Hs); [|done|].
    { unfold pes'. cbn. rewrite length_drop. unfold len in *. lia. }
    exists seq. rewrite Hs. unfold l'. rewrite <-app_assoc. reflexivity.
Qed.

(** A payload becomes the packets of its header and itself. *)
Lemma GetPayload_packets m pid pes ts payload inner :
  0 <= pid < 512 -> m !! pid = Some pes ->
  (if isVideo (StreamType pes) then DecodeAVCCWithAUD payload else Some payload) = Some inner ->
  let pts := if Timestamp pes =? 0 then PTS pes else u32 (PTS pes + u32 (ts - Timestamp pes)) in
  let body := pesHeader (StreamID pes) pts inner ++ inner in
  exists seq, GetPayload pid ts payload m
    = Some (Some (packets (S (length body)) pid true (Sequence pes) body,
                  <[pid := (((pes <| Sequence := seq |>) <| Timestamp := ts |>) <| PTS := pts |>)
                           <| pesPayload := [] |> <| Size := 0 |>]> m)).
Proof.
  intros Hp Hm Hi pts body. unfold GetPayload. rewrite Hm, Hi.
  set (pes1 := if Timestamp pes =? 0 then pes else _).
  assert (PTS pes1 = pts /\ StreamID pes1 = StreamID pes /\ Sequence pes1 = Sequence pes
    /\ StreamType pes1 = StreamType pes /\ DTS pes1 = DTS pes) as (E1 & E2 & E3 & E4 & E5).
  { unfold pes1, pts. by destruct (Timestamp pes =? 0). }
  match goal with |- context [pesLoop _ _ ?p _] => set (pes2 := p) end.
  assert (pesPayload pes2 = body) as Eb by (unfold pes2; cbn; by rewrite E1, E2).
  destruct (pesLoop_packets (S (length (pesPayload pes2))) pid pes2 [] Hp) as (seq & Hs); [lia|by rewrite Eb|].
  unfold NewWriter. exists seq. rewrite Hs. cbn [mbind option_bind]. rewrite Eb.
  unfold flushed, pes2. cbn -[packets]. by rewrite E3, E4, E5, E2, E1.
Qed.

(** ** Rounds of the reader *)

Section reading.
Context (walk : gmap Z PES -> list PES).

(** From one position to another, with the packets that come out on the way. *)
Inductive runs : bytes -> Demuxer -> list tsPacket -> bytes -> Demuxer -> Prop :=
  | runs_nil s d : runs s d [] s d
  | runs_emit s d p s1 d1 ps s2 d2 :
      packetStep walk s d = Some (Emit p s1 d1) -> runs s1 d1 ps s2 d2 -> runs s d (p :: ps) s2 d2
  | runs_next s d s1 d1 ps s2 d2 :
      packetStep walk s d = Some (Next s1 d1) ->
      dpos d1 <> skipRead -> (length s1 < length s)%nat \/ (dpos d = skipRead /\ s1 = s) ->
      runs s1 d1 ps s2 d2 -> runs s d ps s2 d2.

Lemma runs_app s d ps s1 d1 qs s2 d2 :
  runs s d ps s1 d1 -> runs s1 d1 qs s2 d2 -> runs s d (ps ++ qs) s2 d2.
Proof.
  induction 1; intros Hq; [done| |].
  - eapply runs_emit; [done|]. by apply IHruns.
  - eapply runs_next; [done..|]. by apply IHruns.
Qed.

(** Calls of [ReadPacket] until one gives no packet. *)
Fixpoint readAll (calls : nat) (s : bytes) (d : Demuxer) : option (list tsPacket * tsStep) :=
  match calls with
  | O => None
  | S calls =>
      r ← ReadPacket walk (length s + 2) s d;
      match r with
      | Emit p s d => '(ps, r) ← readAll calls s d; Some (p :: ps, r)
      | _ => Some ([], r)
      end
  end.

Lemma ReadPacket_mono f : forall f' s d r, (f <= f')%nat ->
  ReadPacket walk f s d = Some r -> ReadPacket walk f' s d = Some r.
Proof.
  induction f as [|f IH]; intros f' s d r Hf H; [done|]. destruct f' as [|f']; [lia|].
  cbn [ReadPacket] in *. destruct (packetStep walk s d) as [[]|]; try done. cbn in *.
  apply IH; [lia|done].
Qed.

(** The fuel a call needs. *)
Definition needed (s : bytes) (d : Demuxer) : nat :=
  (length s + (if decide (dpos d = skipRead) then 2 else 1))%nat.

Lemma readAll_runs s d ps s2 d2 r :
  runs s d ps s2 d2 -> ReadPacket walk (needed s2 d2) s2 d2 = Some r ->
  (forall p s' d', r <> Emit p s' d') -> readAll (S (length ps)) s d = Some (ps, r).
Proof.
  intros H Hend Hr.
  assert (exists r1, ReadPacket walk (needed s d) s d = Some r1 /\
    match ps with
    | [] => r1 = r
    | p :: ps => exists s1 d1, r1 = Emit p s1 d1 /\ readAll (S (length ps)) s1 d1 = Some (ps, r)
    end) as (r1 & H1 & H2).
  { induction H as [s d|s d p s1 d1 ps s2 d2 Hs Hrun IH|s d s1 d1 ps s2 d2 Hs Hpos Hlen Hrun IH].
    - by exists r.
    - specialize (IH Hend). destruct IH as (r1 & H1 & H2). exists (Emit p s1 d1). split.
      + unfold needed. rewrite Nat.add_comm. destruct (decide (dpos d = skipRead)); cbn; by rewrite Hs.
      + exists s1, d1. split; [done|]. cbn [readAll].
        rewrite (ReadPacket_mono (needed s1 d1) _ s1 d1 r1) by (done || (unfold needed; case_decide; lia)).
        cbn [mbind option_bind]. destruct ps as [|q ps].
        * subst r1. cbn. by destruct r; try (exfalso; by eapply Hr).
        * destruct H2 as (s3 & d3 & -> & H2). cbn [length]. rewrite H2. done.
    - specialize (IH Hend). destruct IH as (r1 & H1 & H2). exists r1. split; [|done].
      destruct (needed s d) as [|f] eqn:Ef; [unfold needed in Ef; case_decide; lia|].
      cbn [ReadPacket]. rewrite Hs. cbn [mbind option_bind].
      apply (ReadPacket_mono (needed s1 d1)); [|done]. unfold needed in *.
      rewrite (decide_False (P := dpos d1 = skipRead)) by done.
      destruct Hlen as [Hl|[Hd ->]]; [destruct (decide (dpos d = skipRead)); lia|].
      rewrite decide_True in Ef by done. lia. }
  cbn [readAll]. rewrite (ReadPacket_mono (needed s d) _ s d r1) by (done || (unfold needed; case_decide; lia)).
  cbn [mbind option_bind]. destruct ps as [|p ps].
  - subst r1. by destruct r; try (exfalso; by eapply Hr).
  - destruct H2 as (s1 & d1 & -> & H2). cbn [length]. by rewrite H2.
Qed.

(** ** One packet *)

Lemma take_front (a rest : bytes) : len a = 188 -> take 188 (a ++ rest) = a /\ drop 188 (a ++ rest) = rest.
Proof. intros H. unfold len in H. split; [apply take_app_length'|apply drop_app_length']; lia. Qed.

(** A fresh packet is looked at in the buffer. *)
Lemma step_fresh d pid start seq chunk rest :
  dpos d <> skipRead -> 0 < len chunk <= 184 ->
  packetStep walk (tsBytes pid start seq chunk ++ rest) d
  = handlePacket walk rest (d <| dbuf := tsBytes pid start seq chunk |>).
Proof.
  intros Hd Hl. pose proof (len_tsBytes pid start seq chunk Hl) as E. unfold packetStep.
  destruct (Z.eqb_spec (dpos d) skipRead); [done|]. rewrite len_app, E.
  pose proof (len_nonneg rest). rewrite (proj2 (Z.ltb_ge _ _)) by (unfold PacketSize; lia).
  by destruct (take_front _ rest E) as [-> ->].
Qed.

(** Once the streams are known. *)
Lemma handle_stream d pid start seq chunk rest m :
  0 <= pid < 512 -> 0 < len chunk <= 184 -> bytes_ok chunk -> dbuf d = tsBytes pid start seq chunk ->
  dpes d = Some m ->
  exists d', handlePacket walk rest d
    = (o ← readPES pid start m d';
       Some match o with
            | None => TsPanic
            | Some (Some pkt, d) => Emit pkt rest d
            | Some (None, d) => Next rest d
            end)
    /\ at_rest d' chunk /\ keeps d d'.
Proof.
  intros Hp Hl Hok Hb Hm. destruct (header_read d pid start seq chunk ltac:(lia) Hl Hok Hb) as (d' & E & Hr & Hk).
  exists d'. split; [|done]. unfold handlePacket. rewrite E. destruct Hk as (_ & _ & Hk). by rewrite Hk, Hm.
Qed.

Lemma at_rest_noskip d rest : at_rest d rest -> dpos d <> skipRead.
Proof. intros [(_ & H & _) _]. unfold skipRead. lia. Qed.

(** ** The rest of a payload *)

(** What is there at the end of a payload: nothing yet when the size is not known. *)
Definition settled (p : PES) (outs : list tsPacket) (q : PES) : Prop :=
  if Size p =? 0 then outs = [] /\ q = p
  else exists pkt, outs = [pkt] /\ GetPacket p = Some (Some (Some pkt, q)).

Lemma feed_rest fuel pid : forall rem seq rest d m p outs q,
  0 <= pid < 512 -> bytes_ok rem -> rem <> [] -> (length rem < fuel)%nat -> dpos d <> skipRead ->
  dpes d = Some m -> m !! pid = Some p ->
  (Size p = 0 \/ Size p = len (pesPayload p) + len rem) ->
  settled (p <| pesPayload := pesPayload p ++ rem |>) outs q ->
  exists d', runs (packets fuel pid false seq rem ++ rest) d outs rest d'
    /\ dpos d' <> skipRead /\ dpes d' = Some (<[pid := q]> m).
Proof.
  induction fuel as [|fuel IH]; intros rem seq rest d m p outs q Hp Hok Hne Hf Hd Hm Hpid Hsz Hset; [lia|].
  cbn [packets].
  assert (0 < len rem) as Hl by (destruct rem as [|x rem]; [done|]; rewrite len_cons; pose proof (len_nonneg rem); lia).
  destruct (Z.eqb_spec (len rem) 0); [lia|]. rewrite <-app_assoc.
  set (chunk := take 184 rem). set (rem' := drop 184 rem).
  assert (0 < len chunk <= 184) as Hc by (unfold chunk, len in *; rewrite length_take; lia).
  assert (bytes_ok chunk) as Hcok by by apply Forall_take.
  assert (chunk ++ rem' = rem) as Hcat by apply take_drop.
  set (rest' := packets fuel pid false (u16 (seq + 1)) rem' ++ rest).
  pose proof (step_fresh d pid false seq chunk rest' Hd Hc) as Hstep.
  set (d0 := d <| dbuf := tsBytes pid false seq chunk |>) in Hstep.
  destruct (handle_stream d0 pid false seq chunk rest' m Hp Hc Hcok eq_refl Hm) as (d1 & Hh & Hr & _).
  rewrite Hh in Hstep. clear Hh. unfold readPES in Hstep. rewrite Hpid in Hstep. cbn [andb] in Hstep.
  rewrite (at_rest_bytes _ _ Hr) in Hstep. cbn [mbind option_bind] in Hstep.
  pose proof (at_rest_noskip _ _ Hr) as Hns.
  assert (length rest' < length (tsBytes pid false seq chunk ++ rest'))%nat as Hshort.
  { rewrite length_app. pose proof (len_tsBytes pid false seq chunk Hc). unfold len in *. lia. }
  set (p1 := AppendBuffer chunk p) in *. change (Size p1) with (Size p) in Hstep.
  change (pesPayload p1) with (pesPayload p ++ chunk) in Hstep. rewrite len_app in Hstep.
  assert (len rem = len chunk + len rem') as Hlr by (by rewrite <-Hcat, len_app).
  destruct (decide (rem' = [])) as [E|E].
  - assert (rest' = rest) as Er by (unfold rest'; rewrite E; by destruct fuel).
    assert (p1 = p <| pesPayload := pesPayload p ++ rem |>) as Ep.
    { unfold p1, AppendBuffer. by rewrite <-Hcat, E, app_nil_r. }
    rewrite E in Hlr. change (len []) with 0 in Hlr. unfold settled in Hset. rewrite <-Ep in Hset.
    change (Size p1) with (Size p) in Hset. destruct (Z.eqb_spec (Size p) 0) as [Ez|Ez].
    + destruct Hset as [-> ->]. cbn [negb andb] in Hstep.
      exists (d1 <| dpes := Some (<[pid := p1]> m) |>). split; [|done].
      eapply runs_next; [exact Hstep|done|by left|]. rewrite Er. apply runs_nil.
    + destruct Hset as (pkt & -> & Hg). rewrite (proj2 (Z.leb_le _ _)) in Hstep by lia.
      cbn [negb andb] in Hstep. unfold finish in Hstep. rewrite Hg in Hstep. cbn [mbind option_bind] in Hstep.
      exists (d1 <| dpes := Some (<[pid := q]> m) |>). split; [|done].
      eapply runs_emit; [exact Hstep|]. rewrite Er. apply runs_nil.
  - assert (0 < len rem') as Hl' by (destruct rem' as [|x k]; [done|]; rewrite len_cons; pose proof (len_nonneg k); lia).
    assert (negb (Size p =? 0) && (Size p <=? len (pesPayload p) + len chunk) = false) as Eb.
    { destruct Hsz as [->|Hsz]; [done|]. rewrite (proj2 (Z.leb_gt _ _)) by lia. by rewrite andb_false_r. }
    rewrite Eb in Hstep. set (d2 := d1 <| dpes := Some (<[pid := p1]> m) |>) in *.
    destruct (IH rem' (u16 (seq + 1)) rest d2 (<[pid := p1]> m) p1 outs q) as (d3 & Hrun & H3 & H4); try done.
    + by apply Forall_drop.
    + unfold rem'. rewrite length_drop. unfold len in *. lia.
    + by rewrite lookup_insert_eq.
    + destruct Hsz as [Hsz|Hsz]; [by left|right]. unfold p1, AppendBuffer. cbn. rewrite len_app. lia.
    + replace (p1 <| pesPayload := pesPayload p1 ++ rem' |>) with (p <| pesPayload := pesPayload p ++ rem |>); [done|].
      unfold p1, AppendBuffer. cbn. by rewrite <-app_assoc, Hcat.
    + exists d3. split; [|split; [done|by rewrite insert_insert_eq in H4]].
      eapply runs_next; [exact Hstep|done|by left|exact Hrun].
Qed.

(** ** A whole payload *)

Lemma len_pesHeader id pts payload : len (pesHeader id pts payload) = 14.
Proof. unfold pesHeader. by destruct (3 + 5 + len payload <=? 0xFFFF). Qed.

Lemma pesHeader_ok id pts payload : is_byte id -> bytes_ok (pesHeader id pts payload).
Proof.
  intros Hid. assert (forall v, is_byte (u8 v)) as Hu by (intros v; apply Z.mod_pos_bound; lia).
  assert (forall a b, is_byte a -> is_byte b -> is_byte (Z.lor a b)) as Hlor.
  { intros a b Ha Hb. unfold is_byte in *. rewrite <-(Z.mod_small a (2 ^ 8)), <-(Z.mod_small b (2 ^ 8)) by lia.
    rewrite <-!Z.land_ones, <-Z.land_lor_distr_l, Z.land_ones by lia. apply Z.mod_pos_bound. lia. }
  assert (forall x l, is_byte x -> bytes_ok l -> bytes_ok (x :: l)) as Hcons by (intros; by apply Forall_cons).
  assert (is_byte 0 /\ is_byte 1 /\ is_byte 0x20 /\ is_byte 0x80 /\ is_byte 5) as (H0 & H1 & H20 & H80 & H5)
    by (unfold is_byte; lia).
  assert (bytes_ok []) as Hnil by constructor. unfold pesHeader.
  apply Forall_app; split; [auto 6|].
  apply Forall_app; split; [destruct (_ <=? _); auto|].
  apply Forall_app; split; [auto|]. unfold WriteTime. auto 8.
Qed.

(** The packet with the header is in the buffer, looked at for the first time or again. *)
Lemma start_rest fuel pid id pts payload c rem seq seq' s d d0 m p outs q rest :
  0 <= pid < 512 -> is_byte id -> is_u32 pts -> bytes_ok payload -> payload = c ++ rem -> payload <> [] ->
  len c <= 170 -> (rem <> [] -> c <> []) -> (length rem < fuel)%nat ->
  dbuf d0 = tsBytes pid true seq (pesHeader id pts payload ++ c) -> dpes d0 = Some m -> m !! pid = Some p ->
  pesPayload p = [] -> settled (opened id pts payload payload p) outs q ->
  let s1 := packets fuel pid false seq' rem ++ rest in
  packetStep walk s d = handlePacket walk s1 d0 ->
  (length s1 < length s)%nat \/ (dpos d = skipRead /\ s1 = s) ->
  exists d', runs s d outs rest d' /\ dpos d' <> skipRead /\ dpes d' = Some (<[pid := q]> m).
Proof.
  intros Hp Hid Hpts Hok Hcat Hne Hc Hcne Hf Hb Hm Hpid Hempty Hset s1 Hstep Hlen.
  assert (bytes_ok c /\ bytes_ok rem) as [Hcok Hrok] by (rewrite Hcat in Hok; by apply Forall_app in Hok).
  pose proof (len_nonneg c). pose proof (len_pesHeader id pts payload) as H14.
  destruct (handle_stream d0 pid true seq (pesHeader id pts payload ++ c) s1 m Hp) as (d1 & Hh & Hr & Hk); try done.
  { rewrite len_app. lia. }
  { apply Forall_app. split; [by apply pesHeader_ok|done]. }
  rewrite Hh in Hstep. clear Hh. unfold readPES in Hstep. rewrite Hpid, Hempty in Hstep. cbn [andb negb len length] in Hstep.
  change (Z.of_nat 0 =? 0) with true in Hstep. cbn [negb andb] in Hstep.
  destruct (readPESHeader_written d1 id pts payload c p Hid Hpts Hcok Hr) as (d2 & Eh & Hr2 & _).
  rewrite Eh in Hstep. clear Eh.
  pose proof (at_rest_noskip _ _ Hr2) as Hns. cbn [mbind option_bind] in Hstep.
  set (p1 := opened id pts payload c p) in *.
  assert (Size p1 = announced payload /\ pesPayload p1 = c) as [E1 E2] by done.
  rewrite E1, E2 in Hstep. unfold settled in Hset.
  change (Size (opened id pts payload payload p)) with (announced payload) in Hset.
  assert (len payload = len c + len rem) as Hl by (by rewrite Hcat, len_app).
  assert (announced payload = 0 \/ announced payload = len payload) as Ha.
  { unfold announced. destruct (8 + len payload <=? 65535); [by right|by left]. }
  assert (0 < len payload) as Hpos by (destruct payload as [|x k]; [done|]; rewrite len_cons; pose proof (len_nonneg k); lia).
  destruct (decide (rem = [])) as [E|E].
  - subst rem. assert (s1 = rest) as Er by (unfold s1; by destruct fuel).
    rewrite app_nil_r in Hcat. subst c. change (len []) with 0 in Hl.
    destruct (Z.eqb_spec (announced payload) 0) as [Ez|Ez].
    + destruct Hset as [-> ->]. cbn [negb andb] in Hstep.
      eexists. split; [eapply runs_next; [exact Hstep|done|done|]; rewrite Er; apply runs_nil|done].
    + destruct Hset as (pkt & -> & Hg). rewrite (proj2 (Z.leb_le _ _)) in Hstep by lia.
      cbn [negb andb] in Hstep. unfold finish in Hstep. fold p1 in Hg. rewrite Hg in Hstep. cbn [mbind option_bind] in Hstep.
      eexists. split; [eapply runs_emit; [exact Hstep|]; rewrite Er; apply runs_nil|done].
  - assert (0 < len rem) as Hl' by (destruct rem as [|x k]; [done|]; rewrite len_cons; pose proof (len_nonneg k); lia).
    assert (negb (announced payload =? 0) && (announced payload <=? len c) = false) as Eb.
    { destruct Ha as [->| ->]; [done|]. rewrite (proj2 (Z.leb_gt _ _)) by lia. by rewrite andb_false_r. }
    rewrite Eb in Hstep. set (d3 := d2 <| dpes := Some (<[pid := p1]> m) |>) in *.
    destruct (feed_rest fuel pid rem seq' rest d3 (<[pid := p1]> m) p1 outs q) as (d4 & Hrun & H3 & H4); try done.
    + by rewrite lookup_insert_eq.
    + rewrite E1, E2. destruct Ha as [->| ->]; [by left|right; lia].
    + unfold settled. replace (p1 <| pesPayload := pesPayload p1 ++ rem |>) with (opened id pts payload payload p); [done|].
      rewrite E2, <-Hcat. done.
    + exists d4. split; [|split; [done|by rewrite insert_insert_eq in H4]].
      eapply runs_next; [exact Hstep|done|done|exact Hrun].
Qed.

(** What the payload before, whose size was not known, comes out as. *)
Definition cleared (p : PES) (outs : list tsPacket) (q : PES) : Prop :=
  pesPayload q = [] /\
  if decide (pesPayload p = []) then outs = [] /\ q = p
  else exists pkt, outs = [pkt] /\ GetPacket p = Some (Some (Some pkt, q)).

Lemma read_payload pid id pts payload seq rest d m p p0 outs0 outs q :
  0 <= pid < 512 -> is_byte id -> is_u32 pts -> bytes_ok payload -> payload <> [] -> dpos d <> skipRead ->
  dpes d = Some m -> m !! pid = Some p -> cleared p outs0 p0 ->
  settled (opened id pts payload payload p0) outs q ->
  let body := pesHeader id pts payload ++ payload in
  exists d', runs (packets (S (length body)) pid true seq body ++ rest) d (outs0 ++ outs) rest d'
    /\ dpos d' <> skipRead /\ dpes d' = Some (<[pid := q]> m).
Proof.
  intros Hp Hid Hpts Hok Hne Hd Hm Hpid [Hq Hclr] Hset body.
  pose proof (len_pesHeader id pts payload) as H14. pose proof (len_nonneg payload) as Hl.
  assert (0 < len payload) as Hpos by (destruct payload as [|x k]; [done|]; rewrite len_cons; pose proof (len_nonneg k); lia).
  set (c := take 170 payload). set (rem := drop 170 payload).
  assert (payload = c ++ rem) as Hcat by (symmetry; apply take_drop).
  assert (len body = 14 + len payload) as Hbl by (unfold body; rewrite len_app; lia).
  cbn [packets]. destruct (Z.eqb_spec (len body) 0); [lia|].
  assert (take 184 body = pesHeader id pts payload ++ c) as ->.
  { unfold body. rewrite take_app. rewrite take_ge by (unfold len in *; lia). do 2 f_equal. unfold len in *. lia. }
  assert (drop 184 body = rem) as ->.
  { unfold body. rewrite drop_app. rewrite drop_ge by (unfold len in *; lia). cbn [app]. unfold rem. f_equal.
    unfold len in *. lia. }
  rewrite <-app_assoc. set (chunk := pesHeader id pts payload ++ c).
  assert (0 < len chunk <= 184) as Hc.
  { unfold chunk. rewrite len_app. pose proof (len_nonneg c). unfold c, len in *. rewrite length_take in *. lia. }
  assert (bytes_ok chunk) as Hcok.
  { unfold chunk. apply Forall_app. split; [by apply pesHeader_ok|]. by apply Forall_take. }
  set (s1 := packets (length body) pid false (u16 (seq + 1)) rem ++ rest).
  pose proof (step_fresh d pid true seq chunk s1 Hd Hc) as Hstep.
  set (d0 := d <| dbuf := tsBytes pid true seq chunk |>) in Hstep.
  assert (length s1 < length (tsBytes pid true seq chunk ++ s1))%nat as Hshort.
  { rewrite length_app. pose proof (len_tsBytes pid true seq chunk Hc). unfold len in *. lia. }
  assert (len c <= 170) by (unfold c, len; rewrite length_take; lia).
  assert (rem <> [] -> c <> []) as Hcn.
  { intros _ E. assert (len c = Z.min 170 (len payload)) as El by (unfold c, len; rewrite length_take; lia).
    rewrite E in El. change (len []) with 0 in El. lia. }
  assert (length rem < length body)%nat by (unfold rem; rewrite length_drop; unfold len in *; lia).
  destruct (decide (pesPayload p = [])) as [E|E].
  - destruct Hclr as [-> ->]. cbn [app].
    exact (start_rest _ pid id pts payload c rem seq (u16 (seq + 1)) _ d d0 m p outs q rest
             Hp Hid Hpts Hok Hcat Hne ltac:(done) Hcn ltac:(done) eq_refl Hm Hpid E Hset Hstep (or_introl Hshort)).
  - destruct Hclr as (pkt & -> & Hg).
    destruct (handle_stream d0 pid true seq chunk s1 m Hp Hc Hcok eq_refl Hm) as (d1 & Hh & Hr & Hk & _).
    rewrite Hh in Hstep. clear Hh. unfold readPES in Hstep. rewrite Hpid in Hstep.
    destruct (Z.eqb_spec (len (pesPayload p)) 0) as [E0|E0].
    { destruct (pesPayload p); [done|]. rewrite len_cons in E0. pose proof (len_nonneg l). lia. }
    cbn [negb andb] in Hstep. unfold finish in Hstep. rewrite Hg in Hstep. cbn [mbind option_bind] in Hstep.
    set (d2 := (d1 <| dpos := skipRead |>) <| dpes := Some (<[pid := p0]> m) |>) in Hstep.
    destruct (start_rest (length body) pid id pts payload c rem seq (u16 (seq + 1)) s1 d2 d2
                (<[pid := p0]> m) p0 outs q rest) as (d3 & Hrun & H3 & H4); try done.
    + by rewrite lookup_insert_eq.
    + by right.
    + exists d3. split; [|split; [done|by rewrite insert_insert_eq in H4]].
      cbn [app]. eapply runs_emit; [exact Hstep|exact Hrun].
Qed.
End reading.
