(* ===== verification/TsTables.v ===== *)
(** The tables at the front of a transport stream: what the writer puts into them and
    that the reader finds the streams in them. *)

From S2P Require Import Prelude Annexb Bits Writer Ts TsDemux TsReads TsFacts.

(** ** The tables as bytes *)

Definition crcOf (section : bytes) : bytes := crcBytes (checksum section).

(** The section behind the pointer field, and the packet around it. *)
Definition tablePacket (pid : Z) (section : bytes) : bytes :=
  let body := [0] ++ section ++ crcOf section in
  [SyncByte] ++ be16 (pid + 0x4000) ++ [0x10] ++ body ++ zeros (Z.to_nat (184 - len body)).

Definition sectionHeader (tableID size : Z) : bytes := [tableID; 0xB0; size; 0; 1; 0xC1; 0; 0].
Definition patSection : bytes := sectionHeader 0 13 ++ [0; 1; 0xF0; 0].
Definition entryBytes (i : nat) (streamType : Z) : bytes := [streamType; 0xE1; Z.of_nat i; 0xF0; 0].
Definition entries (types : list Z) : bytes := concat (imap entryBytes types).
Definition pmtSection (types : list Z) : bytes :=
  sectionHeader 2 (13 + 5 * len types) ++ [0xFF; 0xFF; 0xF0; 0] ++ entries types.

(** ** Tracks *)

Definition tracksOf (types : list Z) : Muxer := foldl (fun m t => snd (AddTrack t m)) ∅ types.
Definition pidOf (i : nat) : Z := 256 + Z.of_nat i.
Definition fresh (t : Z) : PES := (newPES t) <| StreamID := muxerStreamID t |>.

Lemma tracks_spec types : (length types <= 33)%nat ->
  size (tracksOf types) = length types
  /\ (forall i, tracksOf types !! pidOf i = fresh <$> types !! i)
  /\ (forall pid, is_Some (tracksOf types !! pid) -> exists i, pid = pidOf i).
Proof.
  induction types as [|t types IH] using rev_ind; intros Hn.
  - split_and!; [done| |].
    + intros i. unfold tracksOf. cbn. by rewrite lookup_empty.
    + intros pid [x H]. unfold tracksOf in H. cbn in H. by rewrite lookup_empty in H.
  - rewrite length_app in Hn. cbn in Hn. destruct IH as (Hs & Hl & Hd); [lia|].
    unfold tracksOf in *. rewrite foldl_app. cbn [foldl]. set (m := foldl _ ∅ types) in *.
    unfold AddTrack. cbn [snd]. rewrite Hs.
    assert (u16 (pes0PID + u16 (Z.of_nat (length types))) = pidOf (length types)) as ->.
    { unfold pidOf, pes0PID. rewrite (u16_small (Z.of_nat _)) by (unfold is_u16; lia).
      apply u16_small. unfold is_u16. lia. }
    fold (fresh t).
    assert (m !! pidOf (length types) = None) as Hnone by (rewrite Hl, lookup_ge_None_2 by lia; done).
    split_and!.
    + rewrite map_size_insert, Hnone, Hs, length_app. cbn. lia.
    + intros i. destruct (decide (i = length types)) as [->|Hne].
      * by rewrite lookup_insert_eq, lookup_app_r, Nat.sub_diag by lia.
      * rewrite lookup_insert_ne by (unfold pidOf; lia). rewrite Hl.
        destruct (decide (i < length types)%nat); [by rewrite lookup_app_l by lia|].
        rewrite (lookup_ge_None_2 types) by lia. by rewrite lookup_ge_None_2 by (rewrite length_app; cbn; lia).
    + intros pid Hp. destruct (decide (pid = pidOf (length types))) as [->|Hne]; [by eexists|].
      rewrite lookup_insert_ne in Hp by done. by apply Hd.
Qed.

(** ** The writer *)

#[local] Instance writer_dec : EqDecision Writer.
Proof. solve_decision. Defined.

(** Equations between computed writers, for all small numbers at once. *)
Lemma small_nat {A} `{EqDecision A} (f g : nat -> A) n k :
  forallb (fun k => bool_decide (f k = g k)) (seq 0 n) = true -> (k < n)%nat -> f k = g k.
Proof.
  rewrite forallb_forall. intros H0 Hk. apply (bool_decide_eq_true_1 (f k = g k)), H0. rewrite in_seq. lia.
Qed.

(** The bits of an entry behind its type. *)
Definition entryTail (pid : Z) (w : Writer) : Writer :=
  WriteBits 0 10 (WriteBits 0 2 (WriteBits 15 4 (WriteBits pid 13 (WriteBits 7 3 w)))).

Lemma framed_entryTail pid : framed (entryTail pid).
Proof.
  unfold entryTail. do 4 (apply (framed_seq _ (WriteBits _ _)); [|apply framed_bits]). apply framed_bits.
Qed.

Lemma writeEntry_bytes l t i : (i < 33)%nat ->
  writeEntry t (pidOf i) (mkWriter l 0) = mkWriter (l ++ entryBytes i t) 0.
Proof.
  intros Hi.
  assert (entryTail (pidOf i) (NewWriter []) = mkWriter [0xE1; Z.of_nat i; 0xF0; 0] 0) as E.
  { apply (small_nat (fun i => entryTail (pidOf i) (NewWriter [])) (fun i => mkWriter [0xE1; Z.of_nat i; 0xF0; 0] 0) 33);
      [vm_compute; reflexivity|done]. }
  unfold writeEntry. change (WriteByte t (mkWriter l 0)) with (mkWriter (l ++ [t]) 0).
  fold (entryTail (pidOf i) (mkWriter (l ++ [t]) 0)). rewrite (framed_new _ _ (framed_entryTail _)), E.
  unfold behind. cbn [wbuf room]. by rewrite <-app_assoc.
Qed.

Lemma entryLoop_bytes types : (length types <= 33)%nat -> forall fuel done rest l,
  types = done ++ rest -> (length rest < fuel)%nat ->
  entryLoop fuel (pidOf (length done)) (tracksOf types) (mkWriter l 0)
  = Some (mkWriter (l ++ concat (imap (fun i => entryBytes (length done + i)) rest)) 0).
Proof.
  intros Hn. destruct (tracks_spec types Hn) as (_ & Hl & _).
  induction fuel as [|fuel IH]; intros dn rest l E Hf; [lia|]. cbn [entryLoop]. rewrite Hl, E.
  assert (length dn + length rest <= 33)%nat by (rewrite E, length_app in Hn; lia).
  rewrite lookup_app_r, Nat.sub_diag by lia. destruct rest as [|t rest].
  - cbn. by rewrite app_nil_r.
  - cbn [lookup list_lookup fmap option_fmap option_map length] in *.
    change (StreamType (fresh t)) with t. rewrite writeEntry_bytes by lia. rewrite <-E.
    assert (u16 (pidOf (length dn) + 1) = pidOf (length (dn ++ [t]))) as ->.
    { unfold pidOf. rewrite length_app. cbn. rewrite u16_small; [lia|unfold is_u16; lia]. }
    rewrite (IH (dn ++ [t]) rest) by (cbn [length] in *; rewrite ?E, <-?app_assoc; done || lia).
    rewrite imap_cons. cbn [concat]. rewrite app_assoc, Nat.add_0_r. do 4 f_equal.
    apply imap_ext. intros i x _. cbn. f_equal. rewrite length_app. cbn. lia.
Qed.

(** The packet is filled up behind the checksum. *)
Lemma writeCRC_bytes k pid section :
  len section <= 178 -> (length k mod 188 = 0)%nat ->
  writeCRC (len k + 5) (mkWriter (k ++ [SyncByte] ++ be16 (pid + 0x4000) ++ [0x10; 0] ++ section) 0)
  = mkWriter (k ++ tablePacket pid section) 0.
Proof.
  intros Hl Hk. unfold writeCRC, WriteTail, WriteBytes, append, WriterBytes, WriterLen. cbn [room wbuf Z.eqb].
  pose proof (len_nonneg section). pose proof (len_nonneg k).
  set (front := k ++ [SyncByte] ++ be16 (pid + 0x4000) ++ [0x10; 0]).
  assert (k ++ [SyncByte] ++ be16 (pid + 0x4000) ++ [0x10; 0] ++ section = front ++ section) as ->
    by (unfold front; by rewrite <-!app_assoc).
  assert (len front = len k + 5) as Hf by (unfold front; rewrite !len_app; done).
  assert (seg (front ++ section) (len k + 5) (len (front ++ section)) = section) as ->.
  { unfold seg. rewrite drop_app_length' by (unfold len in *; lia). apply take_ge. rewrite len_app. unfold len in *. lia. }
  fold (crcOf section). assert (len (crcOf section) = 4) as Hc by done.
  assert (PacketSize - len ((front ++ section) ++ crcOf section) mod PacketSize
    = 184 - len ([0] ++ section ++ crcOf section)) as ->.
  { rewrite !len_app, Hf, Hc. change (len [0]) with 1. unfold PacketSize.
    assert (len k mod 188 = 0) as Hkm by (unfold len; rewrite <-(Nat2Z.inj_mod _ 188); lia).
    replace (len k + 5 + len section + 4) with (len k + (len section + 9)) by lia.
    rewrite <-Zplus_mod_idemp_l, Hkm. rewrite Z.mod_small; lia. }
  unfold tablePacket, front. by rewrite <-!app_assoc.
Qed.

Lemma writePAT_bytes : writePAT (NewWriter []) = mkWriter (tablePacket patPID patSection) 0.
Proof. vm_compute. reflexivity. Qed.

Definition pmtFixed (w : Writer) : Writer :=
  WriteBits 0 10 (WriteBits 0 2 (WriteBits 15 4 (WriteBits 0x1FFF 13 (WriteBits 7 3 w)))).

Lemma framed_pmtFixed : framed pmtFixed.
Proof.
  unfold pmtFixed. do 4 (apply (framed_seq _ (WriteBits _ _)); [|apply framed_bits]). apply framed_bits.
Qed.

Lemma framed_header pid : framed (writeHeader pid).
Proof.
  unfold writeHeader. do 8 (apply (framed_seq _ (fun w => _ w)); [|auto with framed]). apply framed_byte.
Qed.

Lemma framed_psi tid size : framed (writePSIHeader tid size).
Proof.
  unfold writePSIHeader. do 12 (apply (framed_seq _ (fun w => _ w)); [|auto with framed]). apply framed_byte.
Qed.

Lemma len_entries types : len (entries types) = 5 * len types.
Proof.
  unfold entries. generalize 0%nat as k. intros _.
  induction types as [|t types IH] using rev_ind; [done|].
  rewrite imap_app. cbn [imap]. rewrite concat_app, !len_app, IH. cbn [concat]. rewrite app_nil_r.
  change (len (entryBytes _ _)) with 5. change (len [t]) with 1. lia.
Qed.

Lemma len_pmtSection types : (length types <= 33)%nat -> len (pmtSection types) <= 178.
Proof.
  intros Hn. unfold pmtSection. rewrite !len_app, len_entries.
  change (len (sectionHeader _ _)) with 8. change (len [_; _; _; _]) with 4. unfold len. lia.
Qed.

Lemma writePMT_bytes types l : (length types <= 33)%nat -> (length l mod 188 = 0)%nat ->
  writePMT (tracksOf types) (mkWriter l 0) = Some (mkWriter (l ++ tablePacket pmtPID (pmtSection types)) 0).
Proof.
  intros Hn Hmod. destruct (tracks_spec types Hn) as (Hs & _ & _). unfold writePMT. rewrite Hs.
  rewrite (framed_new _ _ (framed_header pmtPID)).
  assert (writeHeader pmtPID (NewWriter []) = mkWriter [SyncByte; 0x50; 0; 0x10] 0) as -> by reflexivity.
  unfold behind. cbn [wbuf room]. set (l1 := l ++ [SyncByte; 0x50; 0; 0x10]).
  rewrite (framed_new _ _ (framed_psi 2 _)).
  assert (writePSIHeader 2 (u16 (4 + u16 (Z.of_nat (length types)) * 5)) (NewWriter [])
    = mkWriter (0 :: sectionHeader 2 (13 + 5 * Z.of_nat (length types))) 0) as ->.
  { apply (small_nat (fun n => writePSIHeader 2 (u16 (4 + u16 (Z.of_nat n) * 5)) (NewWriter []))
      (fun n => mkWriter (0 :: sectionHeader 2 (13 + 5 * Z.of_nat n)) 0) 34); [vm_compute; reflexivity|lia]. }
  unfold behind. cbn [wbuf room]. set (l2 := l1 ++ _).
  fold (pmtFixed (mkWriter l2 0)). rewrite (framed_new _ _ framed_pmtFixed).
  assert (pmtFixed (NewWriter []) = mkWriter [0xFF; 0xFF; 0xF0; 0] 0) as -> by reflexivity.
  unfold behind. cbn [wbuf room]. set (l3 := l2 ++ _).
  change pes0PID with (pidOf (length (@nil Z))).
  rewrite (entryLoop_bytes types Hn (S (length types)) [] types l3 eq_refl ltac:(lia)).
  cbn [mbind option_bind]. f_equal.
  assert (WriterLen (mkWriter l1 0) + 1 = len l + 5) as -> by (unfold WriterLen, l1; cbn [wbuf]; rewrite len_app; change (len [_; _; _; _]) with 4; lia).
  rewrite <-writeCRC_bytes; [|by apply len_pmtSection|done].
  f_equal. f_equal. unfold l3, l2, l1, pmtSection. rewrite <-!app_assoc. done.
Qed.

Lemma len_tablePacket pid section : len section <= 178 -> len (tablePacket pid section) = 188.
Proof.
  intros Hl. unfold tablePacket. rewrite !len_app, len_zeros. pose proof (len_nonneg section).
  change (len [SyncByte]) with 1. change (len (be16 _)) with 2. change (len [0x10]) with 1.
  change (len [0]) with 1. change (len (crcOf section)) with 4. lia.
Qed.

Lemma GetHeader_bytes types : (length types <= 33)%nat ->
  GetHeader (tracksOf types)
  = Some (tablePacket patPID patSection ++ tablePacket pmtPID (pmtSection types)).
Proof.
  intros Hn. unfold GetHeader. rewrite writePAT_bytes, writePMT_bytes by done. reflexivity.
Qed.

(** ** The reader *)

(** A table packet is a packet of the stream without stuffing. *)
Lemma tablePacket_ts pid section : len section <= 178 ->
  tablePacket pid section
  = tsBytes pid true 0 ([0] ++ section ++ crcOf section ++ zeros (Z.to_nat (179 - len section))).
Proof.
  intros Hl. pose proof (len_nonneg section). unfold tsBytes, tablePacket.
  assert (len ([0] ++ section ++ crcOf section ++ zeros (Z.to_nat (179 - len section))) = 184) as ->.
  { rewrite !len_app, len_zeros. change (len [0]) with 1. change (len (crcOf section)) with 4. lia. }
  rewrite !len_app. change (len [0]) with 1. change (len (crcOf section)) with 4.
  replace (184 - (1 + (len section + 4))) with (179 - len section) by lia.
  rewrite <-!app_assoc. reflexivity.
Qed.

Lemma bits_section tid size : 0 <= size < 256 ->
  flat_map (bits_of 8) ([0] ++ sectionHeader tid size)
  = bits_of 8 0 ++ bits_of 8 tid ++ [true] ++ [false] ++ bits_of 2 3 ++ bits_of 2 0 ++ bits_of 10 size
    ++ bits_of 16 1 ++ bits_of 2 3 ++ bits_of 5 0 ++ [true] ++ bits_of 8 0 ++ bits_of 8 0.
Proof.
  intros Hs. assert (bits_of 10 size = [false; false] ++ bits_of 8 size) as ->.
  { change 10%nat with (2 + 8)%nat. rewrite bits_of_app by lia.
    rewrite Z.div_small by (change (2 ^ Z.of_nat 8) with 256; lia). done. }
  unfold sectionHeader. cbn [flat_map app]. rewrite ?app_nil_r, <-?app_assoc. reflexivity.
Qed.

Lemma at_rest_setSize size d rest : at_rest d rest -> at_rest (setSize size d) rest.
Proof. done. Qed.

Lemma dskip_0 d : dwf d -> dskip 0 d = d.
Proof.
  intros (_ & Hp & _). destruct d. cbn in Hp. unfold dskip. cbn. f_equal.
  rewrite Z.add_0_r. apply u8_small. unfold is_byte. lia.
Qed.

(** What was read so far is at rest in front of the bytes still to come. *)
Lemma readPSIHeader_written d tid size rest :
  is_byte tid -> 5 <= size < 256 -> bytes_ok rest -> len rest - size <= 183 -> size - 5 <= len rest ->
  at_rest d ([0] ++ sectionHeader tid size ++ rest) ->
  exists d', readPSIHeader d = Some d' /\ at_rest d' rest /\ dend d' = 188 - len rest + (size - 5) /\ keeps d d'.
Proof.
  intros Htid Hsize Hok Hr1 Hr2 Hat. pose proof Hat as (Hd & _ & Hs).
  rewrite app_assoc, flat_map_app, bits_section, <-!app_assoc in Hs by lia.
  assert (same d d) as Hx by apply dsame_refl. unfold readPSIHeader.
  run (dreads_byte 0 ltac:(unfold is_byte; lia)).
  match goal with Hd : dwf ?d |- _ => rewrite (dskip_0 d Hd) end.
  run (dskip_byte (bits_of 8 tid) (length_bits_of _ _)).
  run (dskip_bit true). run (dskip_bit false).
  run (dskip_bits 2 (bits_of 2 3) (length_bits_of _ _) ltac:(lia)).
  run (dskip_bits 2 (bits_of 2 0) (length_bits_of _ _) ltac:(lia)).
  run (dreads_bits 10 size ltac:(lia) ltac:(change (2 ^ Z.of_nat 10) with 1024; lia)).
  rewrite u8_small by (unfold is_byte; lia).
  match goal with Hd : dwf ?d, Hs : stream (rdr ?d) = _ |- _ => rename d into d1, Hd into Hd1, Hs into Hs1 end.
  assert (at_rest d1 ([0; 1; 0xC1; 0; 0] ++ rest)) as H1.
  { split_and!; [done| |]; [apply Forall_app; split; [bytes_lit|done]|]. rewrite Hs1, flat_map_app. done. }
  destruct (at_rest_pos _ _ H1) as (_ & Ep & _). rewrite len_app in Ep. change (len [0; 1; 0xC1; 0; 0]) with 5 in Ep.
  assert (dend (setSize size d1) = 183 - len rest + size) as Eend.
  { unfold setSize. cbn. rewrite Ep, u8_small by (unfold is_byte; lia). lia. }
  set (d2 := setSize size d1) in *. assert (dwf d2) as Hd2 by done.
  assert (stream (rdr d2) = _) as Hs2 by exact Hs1.
  assert (keeps d d2) as Hk2.
  { match goal with Hx : same d d1 |- _ => destruct Hx as (? & _ & ? & ?) end. by split_and!. }
  clearbody d2. clear - Hd2 Hs2 Eend Hk2 Hok. assert (same d2 d2) as Hx by apply dsame_refl.
  run (dskip_bits 16 (bits_of 16 1) (length_bits_of _ _) ltac:(lia)).
  run (dskip_bits 2 (bits_of 2 3) (length_bits_of _ _) ltac:(lia)).
  run (dskip_bits 5 (bits_of 5 0) (length_bits_of _ _) ltac:(lia)).
  run (dskip_bit true).
  run (dskip_byte (bits_of 8 0) (length_bits_of _ _)).
  match goal with Hd : dwf ?d, Hs : stream (rdr ?d) = _ |- _ =>
    destruct (dskip_byte (bits_of 8 0) (length_bits_of _ _) d _ Hd Hs) as (d3 & E3 & Hd3 & Hs3 & Hx3) end.
  exists d3. split; [exact E3|]. split; [by split_and!|].
  match goal with Hx : same d2 _ |- _ => destruct (dsame_trans _ _ _ Hx Hx3) as (Q1 & Q2 & Q3 & Q4) end.
  destruct Hk2 as (? & ? & ?). split; [lia|]. unfold keeps. split_and!; congruence.
Qed.

Lemma bits_entry i t : (i < 33)%nat ->
  flat_map (bits_of 8) (entryBytes i t)
  = bits_of 8 t ++ bits_of 3 7 ++ bits_of 13 (pidOf i) ++ bits_of 4 15 ++ bits_of 2 0 ++ bits_of 10 0.
Proof.
  intros Hi. unfold entryBytes. cbn [flat_map]. f_equal.
  apply (small_nat (fun i => bits_of 8 0xE1 ++ bits_of 8 (Z.of_nat i) ++ bits_of 8 0xF0 ++ bits_of 8 0 ++ [])
    (fun i => bits_of 3 7 ++ bits_of 13 (pidOf i) ++ bits_of 4 15 ++ bits_of 2 0 ++ bits_of 10 0) 33);
    [vm_compute; reflexivity|done].
Qed.

Lemma readEntry_written d i t rest :
  (i < 33)%nat -> is_byte t -> bytes_ok rest -> at_rest d (entryBytes i t ++ rest) ->
  exists d', readEntry d = Some ((pidOf i, newPES t), d') /\ at_rest d' rest /\ same d d'.
Proof.
  intros Hi Ht Hok (Hd & _ & Hs). rewrite flat_map_app, bits_entry, <-!app_assoc in Hs by done.
  assert (same d d) as Hx by apply dsame_refl. unfold readEntry.
  run (dreads_byte t Ht). run (dskip_bits 3 (bits_of 3 7) (length_bits_of _ _) ltac:(lia)).
  run (dreads_bits16 13 (pidOf i) ltac:(lia) ltac:(change (2 ^ Z.of_nat 13) with 8192; unfold pidOf; lia)).
  run (dskip_bits 4 (bits_of 4 15) (length_bits_of _ _) ltac:(lia)).
  run (dskip_bits 2 (bits_of 2 0) (length_bits_of _ _) ltac:(lia)).
  run (dreads_bits 10 0 ltac:(lia) ltac:(change (2 ^ Z.of_nat 10) with 1024; lia)).
  match goal with Hd : dwf ?d, Hs : stream (rdr ?d) = _, Hx : same _ ?d |- _ =>
    rename d into d1, Hd into Hd1, Hs into Hs1, Hx into Hx1 end.
  assert (dreadBytes (u8 0) d1 = Some ([], d1)) as ->.
  { change (u8 0) with 0. unfold dreadBytes. rewrite (dskip_0 d1 Hd1), Z.sub_0_r.
    destruct Hd1 as (_ & Hp & Hl & _). rewrite u8_small by (unfold is_byte; lia).
    rewrite sub_in by lia. unfold seg. by rewrite Z.sub_diag. }
  cbn [mbind option_bind]. rewrite (bool_decide_false (take 6 [] = opusInfo)) by done. rewrite andb_false_r.
  exists d1. split; [done|]. split; [by split_and!|done].
Qed.

Lemma dleft_at d rest : at_rest d rest -> 188 - len rest <= dend d < 256 -> dleft d = dend d - (188 - len rest).
Proof.
  intros H Hb. destruct (at_rest_pos d rest H) as (_ & Ep & _). pose proof (len_nonneg rest).
  destruct H as ((_ & Hp & _) & _). unfold dleft. rewrite Ep. apply u8_small. unfold is_byte. lia.
Qed.

(** The streams the reader knows after the tables. *)
Fixpoint known (k : nat) (types : list Z) (pes : gmap Z PES) : gmap Z PES :=
  match types with
  | [] => pes
  | t :: types => known (S k) types (<[pidOf k := newPES t]> pes)
  end.

Lemma known_lookup types : forall k pes i, (i < k + length types)%nat ->
  known k types pes !! pidOf i = if decide (i < k)%nat then pes !! pidOf i else newPES <$> types !! (i - k)%nat.
Proof.
  induction types as [|t types IH]; intros k pes i Hi; cbn [known length] in *.
  - by rewrite decide_True by lia.
  - rewrite IH by lia. destruct (decide (i = k)) as [->|Hne].
    + rewrite decide_True, lookup_insert_eq, decide_False, Nat.sub_diag by lia. done.
    + destruct (decide (i < k)%nat).
      * rewrite decide_True by lia. by rewrite lookup_insert_ne by (unfold pidOf; lia).
      * rewrite decide_False by lia. by replace (i - k)%nat with (S (i - S k)) by lia.
Qed.

Lemma known_list types : forall k pes, (forall i, (k <= i)%nat -> pes !! pidOf i = None) ->
  map snd (map_to_list (known k types pes)) ≡ₚ map snd (map_to_list pes) ++ map newPES types.
Proof.
  induction types as [|t types IH]; intros k pes Hf; cbn [known map].
  - by rewrite app_nil_r.
  - rewrite IH.
    + rewrite map_to_list_insert by (by apply Hf). apply Permutation_middle.
    + intros i Hi. rewrite lookup_insert_ne by (unfold pidOf; lia). apply Hf. lia.
Qed.

Lemma pmtLoop_written types : forall fuel k pes d rest,
  (k + length types <= 33)%nat -> Forall is_byte types -> bytes_ok rest -> 4 <= len rest ->
  at_rest d (concat (imap (fun i => entryBytes (k + i)) types) ++ rest) ->
  dend d = 192 - len rest -> (length types < fuel)%nat ->
  exists d', pmtLoop fuel pes d = Some (Some (known k types pes, d')) /\ at_rest d' rest /\ same d d'.
Proof.
  induction types as [|t types IH]; intros fuel k pes d rest Hk Ht Hok Hr Hat He Hf;
    (destruct fuel as [|fuel]; [lia|]); cbn [pmtLoop known].
  - cbn in Hat. rewrite (dleft_at _ _ Hat) by lia. rewrite He.
    replace (192 - len rest - (188 - len rest)) with 4 by lia. cbn. exists d. by split_and!.
  - apply Forall_cons in Ht as [Ht Hts]. cbn [length] in *. rewrite imap_cons in Hat. cbn [concat] in Hat.
    rewrite <-app_assoc, Nat.add_0_r in Hat.
    assert (imap ((fun i => entryBytes (k + i)) ∘ S) types = imap (fun i => entryBytes (S k + i)) types) as Ei.
    { apply imap_ext. intros i x _. cbn. f_equal. lia. }
    rewrite Ei in Hat. set (more := concat _ ++ rest) in *.
    assert (bytes_ok more) as Hmore by (destruct Hat as (_ & H & _); by apply Forall_app in H as [_ H]).
    assert (len rest <= len more) as Hm by (unfold more; rewrite len_app; pose proof (len_nonneg (concat (imap (fun i => entryBytes (S k + i)) types))); lia).
    pose proof (dleft_at _ _ Hat) as Hleft. rewrite len_app in Hleft. change (len (entryBytes k t)) with 5 in Hleft.
    rewrite Hleft by lia. rewrite (proj2 (Z.ltb_lt _ _)) by (unfold CRCSize; lia). cbn [negb].
    destruct (readEntry_written d k t more) as (d1 & -> & Hat1 & Hs1); [lia|done|done|done|].
    destruct (IH fuel (S k) (<[pidOf k := newPES t]> pes) d1 rest) as (d2 & H2 & Hat2 & Hs2); try done; try lia.
    + destruct Hs1 as (_ & -> & _). done.
    + exists d2. split; [exact H2|]. split; [done|]. by eapply dsame_trans.
Qed.

Lemma readPMT_written types d tail :
  (length types <= 33)%nat -> Forall is_byte types -> bytes_ok tail -> 4 <= len tail ->
  at_rest d ([0] ++ pmtSection types ++ tail) ->
  exists d', readPMT d = Some (Some d') /\ dpos d' <> skipRead /\ dpes d' = Some (known 0 types ∅) /\ pmtID d' = pmtID d.
Proof.
  intros Hn Ht Hok Hl Hat. unfold readPMT.
  set (front := [0xFF; 0xFF; 0xF0; 0]). set (more := entries types ++ tail).
  assert ([0] ++ pmtSection types ++ tail = [0] ++ sectionHeader 2 (13 + 5 * len types) ++ front ++ more) as E.
  { unfold pmtSection, front, more. by rewrite <-!app_assoc. }
  rewrite E in Hat. clear E.
  assert (bytes_ok (front ++ more)) as Hrest.
  { destruct Hat as (_ & H & _). apply Forall_app in H as [_ H]. by apply Forall_app in H as [_ H]. }
  assert (len (front ++ more) = 4 + 5 * len types + len tail) as Hlen.
  { unfold more. rewrite !len_app, len_entries. change (len front) with 4. lia. }
  destruct (at_rest_pos _ _ Hat) as (_ & Ep & _). rewrite !len_app in Ep. change (len [0]) with 1 in Ep.
  change (len (sectionHeader _ _)) with 8 in Ep. rewrite len_app in Hlen.
  assert (0 <= dpos d) by apply Hat. pose proof (len_nonneg types).
  destruct (readPSIHeader_written d 2 (13 + 5 * len types) (front ++ more)) as (d1 & -> & Hat1 & He & Hk1);
    [by unfold is_byte|unfold len in *; lia|done|rewrite len_app; lia|rewrite len_app; lia|done|].
  cbn [mbind option_bind]. destruct Hat1 as (Hd & _ & Hs). rewrite flat_map_app in Hs.
  assert (flat_map (bits_of 8) front = bits_of 3 7 ++ bits_of 13 0x1FFF ++ bits_of 4 15 ++ bits_of 2 0 ++ bits_of 10 0)
    as Ef by reflexivity.
  rewrite Ef, <-!app_assoc in Hs. assert (same d1 d1) as Hx by apply dsame_refl.
  run (dskip_bits 3 (bits_of 3 7) (length_bits_of _ _) ltac:(lia)).
  run (dskip_bits 13 (bits_of 13 0x1FFF) (length_bits_of _ _) ltac:(lia)).
  run (dskip_bits 4 (bits_of 4 15) (length_bits_of _ _) ltac:(lia)).
  run (dskip_bits 2 (bits_of 2 0) (length_bits_of _ _) ltac:(lia)).
  run (dreads_bits 10 0 ltac:(lia) ltac:(change (2 ^ Z.of_nat 10) with 1024; lia)).
  change (u8 0) with 0.
  match goal with Hd : dwf ?d, Hs : stream (rdr ?d) = _, Hx : same d1 ?d |- _ =>
    rewrite (dskip_0 d Hd); rename d into d2, Hd into Hd2, Hs into Hs2, Hx into Hx2 end.
  assert (bytes_ok more) as Hmok by (by apply Forall_app in Hrest as [_ ?]).
  destruct Hx2 as (Q1 & Q2 & Q3 & Q4).
  destruct (pmtLoop_written types 65 0 ∅ d2 tail) as (d3 & -> & Hat3 & Hs3); try done; try lia.
  - rewrite Q2, He, len_app, Hlen. lia.
  - cbn [mbind option_bind]. eexists. split; [reflexivity|]. cbn.
    destruct (at_rest_pos _ _ Hat3) as (_ & Ep3 & _). destruct Hat3 as ((_ & Hp3 & _) & _).
    destruct Hs3 as (_ & _ & R3 & _). destruct Hk1 as (_ & K2 & _). split_and!; [|done|congruence].
    rewrite u8_small by (unfold is_byte; lia). unfold skipRead. lia.
Qed.

Lemma readPAT_written d tail : bytes_ok tail -> 4 <= len tail ->
  at_rest d ([0] ++ patSection ++ tail) ->
  exists d', readPAT d = Some (Some d') /\ dpos d' <> skipRead /\ dpes d' = dpes d /\ pmtID d' = pmtPID.
Proof.
  intros Hok Hl Hat. unfold readPAT. set (prog := [0; 1; 0xF0; 0]).
  assert ([0] ++ patSection ++ tail = [0] ++ sectionHeader 0 13 ++ prog ++ tail) as E by done.
  rewrite E in Hat. clear E.
  assert (len (prog ++ tail) = 4 + len tail) as Hlen by (by rewrite len_app).
  destruct (at_rest_pos _ _ Hat) as (_ & Ep & _). rewrite !len_app in Ep. change (len [0]) with 1 in Ep.
  change (len (sectionHeader _ _)) with 8 in Ep. change (len prog) with 4 in Ep. assert (0 <= dpos d) by apply Hat.
  destruct (readPSIHeader_written d 0 13 (prog ++ tail)) as (d1 & -> & Hat1 & He & Hk1 & Hk2 & Hk3);
    [by unfold is_byte|lia|apply Forall_app; split; [bytes_lit|done]|lia|lia|done|].
  cbn [patLoop]. rewrite (dleft_at _ _ Hat1) by lia. rewrite (proj2 (Z.ltb_lt _ _)) by (unfold CRCSize; lia). cbn [negb].
  destruct Hat1 as (Hd & _ & Hs). rewrite flat_map_app in Hs.
  assert (flat_map (bits_of 8) prog = bits_of 16 1 ++ bits_of 3 7 ++ bits_of 13 pmtPID) as Ef by reflexivity.
  rewrite Ef, <-!app_assoc in Hs. assert (same d1 d1) as Hx by apply dsame_refl.
  run (dreads_bits 16 1 ltac:(lia) ltac:(change (2 ^ Z.of_nat 16) with 65536; lia)).
  run (dskip_bits 3 (bits_of 3 7) (length_bits_of _ _) ltac:(lia)).
  run (dreads_bits16 13 pmtPID ltac:(lia) ltac:(change (2 ^ Z.of_nat 13) with 8192; unfold pmtPID; lia)).
  cbn [Z.eqb]. match goal with Hd : dwf ?d, Hs : stream (rdr ?d) = _, Hx : same d1 ?d |- _ =>
    rename d into d2, Hd into Hd2, Hs into Hs2, Hx into Hx2 end.
  destruct Hx2 as (Q1 & Q2 & Q3 & Q4). set (d3 := d2 <| pmtID := pmtPID |>).
  assert (at_rest d3 tail) as Hat3 by (by split_and!).
  assert (dend d3 = 192 - len tail) as He3 by (change (dend d3) with (dend d2); lia).
  change (patLoop 64 d3) with (if negb (CRCSize <? dleft d3) then Some (Some d3) else
    match ('(num, d) ← dreadBits 16 d3; d ← ignore (dreadBits 3) d; '(pid, d) ← dreadBits16 13 d;
           Some (if num =? 0 then d else d <| pmtID := pid |>))
    with Some d => patLoop 63 d | None => Some None end).
  rewrite (dleft_at _ _ Hat3) by lia. rewrite He3. replace (192 - len tail - (188 - len tail)) with 4 by lia.
  change (negb (CRCSize <? 4)) with true. cbn [mbind option_bind]. eexists. split; [reflexivity|].
  destruct (at_rest_pos _ _ Hat3) as (_ & Ep3 & _). destruct Hat3 as ((_ & Hp3 & _) & _).
  split_and!; [|cbn; congruence|done]. cbn. change (dpos d2) with (dpos d3).
  rewrite u8_small by (unfold is_byte; lia). unfold skipRead. lia.
Qed.

(** ** Both tables *)

Section walk.
Context (walk : gmap Z PES -> list PES).
Context (walk_all : forall m, walk m ≡ₚ map snd (map_to_list m)).

Lemma step_table d pid section rest : 0 <= pid < 8192 -> len section <= 178 -> bytes_ok section ->
  dpos d <> skipRead ->
  exists d1, packetStep walk (tablePacket pid section ++ rest) d
    = match dpes d with
      | None =>
          if pid =? patPID then
            o ← readPAT d1; Some match o with None => TsPanic | Some d => Next rest d end
          else if pid =? pmtID d1 then
            o ← readPMT d1;
            Some match o with None => TsPanic | Some d => Emit (metadata walk (default ∅ (dpes d))) rest d end
          else Some (Next rest d1)
      | Some m =>
          o ← readPES pid true m d1;
          Some match o with
               | None => TsPanic
               | Some (Some pkt, d) => Emit pkt rest d
               | Some (None, d) => Next rest d
               end
      end
    /\ at_rest d1 ([0] ++ section ++ crcOf section ++ zeros (Z.to_nat (179 - len section)))
    /\ pmtID d1 = pmtID d /\ dpes d1 = dpes d.
Proof.
  intros Hp Hl Hok Hd. rewrite tablePacket_ts by done.
  set (chunk := [0] ++ section ++ crcOf section ++ zeros (Z.to_nat (179 - len section))).
  pose proof (len_nonneg section).
  assert (len chunk = 184) as Hc.
  { unfold chunk. rewrite !len_app, len_zeros. change (len [0]) with 1. change (len (crcOf section)) with 4. lia. }
  assert (bytes_ok chunk) as Hcok.
  { apply Forall_app; split; [bytes_lit|]. apply Forall_app; split; [done|]. apply Forall_app; split; [|apply zeros_ok].
    repeat constructor; apply Z.mod_pos_bound; lia. }
  pose proof (len_tsBytes pid true 0 chunk ltac:(lia)) as E. unfold packetStep.
  destruct (Z.eqb_spec (dpos d) skipRead); [done|]. rewrite len_app, E. pose proof (len_nonneg rest).
  rewrite (proj2 (Z.ltb_ge _ _)) by (unfold PacketSize; lia).
  assert (take 188 (tsBytes pid true 0 chunk ++ rest) = tsBytes pid true 0 chunk
    /\ drop 188 (tsBytes pid true 0 chunk ++ rest) = rest) as [-> ->].
  { unfold len in E. split; [apply take_app_length'|apply drop_app_length']; lia. }
  set (d0 := d <| dbuf := tsBytes pid true 0 chunk |>).
  destruct (header_read d0 pid true 0 chunk Hp ltac:(lia) Hcok eq_refl) as (d1 & Eh & Hr & _ & K1 & K2).
  exists d1. split; [|done]. unfold handlePacket. rewrite Eh, K2. done.
Qed.

(** The tables are read in two rounds, the second one gives the list of the streams. *)
Lemma tables_read types rest : (length types <= 33)%nat -> Forall is_byte types ->
  exists d1 d2,
    packetStep walk (tablePacket patPID patSection ++ tablePacket pmtPID (pmtSection types) ++ rest) NewDemuxer
      = Some (Next (tablePacket pmtPID (pmtSection types) ++ rest) d1) /\ dpos d1 <> skipRead
    /\ packetStep walk (tablePacket pmtPID (pmtSection types) ++ rest) d1
      = Some (Emit (metadata walk (known 0 types ∅)) rest d2)
    /\ dpos d2 <> skipRead /\ dpes d2 = Some (known 0 types ∅).
Proof.
  intros Hn Ht. pose proof (len_pmtSection types Hn) as Hl. pose proof (len_nonneg (pmtSection types)).
  assert (forall l, bytes_ok (crcOf l)) as Hcrc by (intros l; repeat constructor; apply Z.mod_pos_bound; lia).
  set (second := tablePacket pmtPID (pmtSection types) ++ rest).
  destruct (step_table NewDemuxer patPID patSection second) as (da & Ea & Hra & Ka1 & Ka2);
    [done|done|bytes_lit|done|].
  destruct (readPAT_written da (crcOf patSection ++ zeros (Z.to_nat (179 - len patSection)))) as (d1 & E1 & H1 & H2 & H3).
  { apply Forall_app. split; [apply Hcrc|apply zeros_ok]. }
  { rewrite len_app. pose proof (len_nonneg (zeros (Z.to_nat (179 - len patSection)))). change (len (crcOf patSection)) with 4. lia. }
  { exact Hra. }
  change (dpes NewDemuxer) with (@None (gmap Z PES)) in *. cbn [patPID Z.eqb] in Ea. change (patPID =? patPID) with true in Ea.
  rewrite E1 in Ea. cbn [mbind option_bind] in Ea. rewrite Ka2 in H2.
  assert (bytes_ok (pmtSection types)) as Hok.
  { unfold pmtSection, sectionHeader. apply Forall_app; split.
    - unfold len in *. repeat (apply Forall_cons; split; [unfold is_byte; lia|]). constructor.
    - apply Forall_app; split; [bytes_lit|]. unfold entries. apply Forall_concat, Forall_forall.
      intros l Hin. apply list_elem_of_lookup in Hin as [i Hi]. rewrite list_lookup_imap in Hi.
      destruct (types !! i) as [t|] eqn:Hti; [|done]. injection Hi as <-.
      pose proof (lookup_lt_Some _ _ _ Hti). pose proof (Forall_lookup_1 _ _ _ _ Ht Hti).
      unfold entryBytes. repeat (apply Forall_cons; split; [first [done|unfold is_byte; lia]|]). constructor. }
  destruct (step_table d1 pmtPID (pmtSection types) rest) as (db & Eb & Hrb & Kb1 & Kb2); [done|done|done|done|].
  destruct (readPMT_written types db (crcOf (pmtSection types) ++ zeros (Z.to_nat (179 - len (pmtSection types)))))
    as (d2 & E2 & H4 & H5 & _); [done|done| | |exact Hrb|].
  { apply Forall_app. split; [apply Hcrc|apply zeros_ok]. }
  { rewrite len_app. pose proof (len_nonneg (zeros (Z.to_nat (179 - len (pmtSection types))))).
    change (len (crcOf (pmtSection types))) with 4. lia. }
  rewrite H2, Kb1, H3 in Eb. change (pmtPID =? patPID) with false in Eb. change (pmtPID =? pmtPID) with true in Eb.
  rewrite E2 in Eb. cbn [mbind option_bind] in Eb. rewrite H5 in Eb.
  exists d1, d2. by split_and!.
Qed.

Lemma metadata_types types : tsPayload (metadata walk (known 0 types ∅)) ≡ₚ types.
Proof.
  cbn. rewrite walk_all, known_list by (intros; apply lookup_empty). rewrite map_to_list_empty. cbn [map app].
  rewrite map_map. cbn. by rewrite map_id.
Qed.
End walk.
