(* ===== verification/TsStream.v ===== *)
(** A whole transport stream: what the tracks of a muxer are given, the demuxer gives
    back. *)

From S2P Require Import Prelude Annexb Bits Writer Aac AacRtp Ts TsDemux TsReads TsFacts TsFlow TsTables.

(** ** What is carried *)

(** The units of a picture, the frames of an audio packet, or samples. *)
Inductive content :=
  | Video (units : list bytes)
  | Frames (frames : list bytes)
  | Samples (b : bytes).

(** As [GetPayload] gets it, as it travels, and as the reader hands it on. *)
Definition wire (c : content) : bytes :=
  match c with Video us => avccUnits us | Frames fs => concat fs | Samples b => b end.
Definition inside (c : content) : bytes :=
  match c with Video us => startAUD ++ joinNALs (pair true <$> us) | Frames fs => concat fs | Samples b => b end.
Definition outside (c : content) : bytes :=
  match c with Video us => avccUnits us | Frames fs => packUnits fs | Samples b => b end.

(** What a track of the type can carry. *)
Definition fits (streamType : Z) (c : content) : Prop :=
  bytes_ok (inside c) /\
  match c with
  | Video us => isVideo streamType = true
      /\ Forall (fun n => clean n = true /\ isAUD (hd 0 n) = false) us /\ len (inside c) < 4294967296
  | Frames fs => streamType = StreamTypeAAC /\ Forall frameOK fs /\ 0 < len fs < 4096
  | Samples b => streamType = StreamTypePCMATapo /\ b <> []
  end.

(** ** What is to come out *)

Record track := mkTrack {
  trType : Z;
  trPTS : Z;
  trLast : Z;                      (* the timestamp before *)
  trSeq : Z;
  trPending : option (Z * content); (* a long payload that is not complete for the reader *)
}.
#[export] Instance eta_track : Eta track := fun t =>
  mkTrack (trType t) (trPTS t) (trLast t) (trSeq t) (trPending t).
Definition newTrack (t : Z) : track := mkTrack t 0 0 0 None.

(** The time of a payload: from 0 on by the distance of the timestamps, a timestamp 0
    being taken for "none yet". *)
Definition timeOf (tr : track) (ts : Z) : Z :=
  if trLast tr =? 0 then trPTS tr else u32 (trPTS tr + u32 (ts - trLast tr)).

Definition handOut (tr : track) (pts : Z) (c : content) : tsPacket * track :=
  if isVideo (trType tr) then (mkTsPacket 0 false (trType tr) 0 pts 0 (outside c), tr)
  else let seq := u16 (trSeq tr + 1) in
       (mkTsPacket 2 true (trType tr) seq pts 0 (outside c), tr <| trSeq := seq |>).

(** A payload of more than 65527 bytes has no size in its header, and comes out when the
    next one of its track begins. *)
Definition deliver (tr : track) (ts : Z) (c : content) : list tsPacket * track :=
  let pts := timeOf tr ts in
  let '(before, tr) := match trPending tr with
                       | Some (p, c0) => let '(x, tr) := handOut tr p c0 in ([x], tr)
                       | None => ([], tr)
                       end in
  let tr := ((tr <| trPTS := pts |>) <| trLast := ts |>) <| trPending := None |> in
  if announced (inside c) =? 0 then (before, tr <| trPending := Some (pts, c) |>)
  else let '(x, tr) := handOut tr pts c in (before ++ [x], tr).

Record write := mkWrite { wTrack : nat; wTs : Z; wContent : content }.

Fixpoint delivered (trs : list track) (ws : list write) : list tsPacket :=
  match ws with
  | [] => []
  | w :: ws =>
      match trs !! wTrack w with
      | None => []
      | Some tr => let '(ps, tr) := deliver tr (wTs w) (wContent w) in
                   ps ++ delivered (<[wTrack w := tr]> trs) ws
      end
  end.

(** The payloads one after the other. *)
Fixpoint muxAll (ws : list write) (m : Muxer) : option (option bytes) :=
  match ws with
  | [] => Some (Some [])
  | w :: ws =>
      o ← GetPayload (pidOf (wTrack w)) (wTs w) (wire (wContent w)) m;
      match o with
      | None => Some None
      | Some (b, m) => o ← muxAll ws m; Some (k ← o; Some (b ++ k))
      end
  end.

(** ** One payload *)

Lemma inside_wire t c : fits t c ->
  (if isVideo t then DecodeAVCCWithAUD (wire c) else Some (wire c)) = Some (inside c).
Proof.
  intros [Hok H]. destruct c as [us|fs|b]; cbn [wire inside] in *.
  - destruct H as (-> & Hus & Hl). unfold DecodeAVCCWithAUD, DecodeAVCC.
    rewrite decodeLoop_units; [done| |lia]. apply Forall_forall. intros n Hn.
    rewrite len_app in Hl. change (len startAUD) with 6 in Hl.
    assert (len n <= len (joinNALs (pair true <$> us))); [|lia].
    clear - Hn. induction us as [|u us IH]; [by apply not_elem_of_nil in Hn|].
    unfold joinNALs in *. cbn [fmap list_fmap flat_map]. rewrite !len_app.
    pose proof (len_nonneg (startCode (true, u).1)). cbn [snd]. pose proof (len_nonneg u).
    pose proof (len_nonneg (flat_map (fun u => startCode u.1 ++ u.2) (pair true <$> us))).
    apply elem_of_cons in Hn as [->|Hn]; [lia|]. specialize (IH Hn). lia.
  - destruct H as (-> & _). done.
  - destruct H as (-> & _). done.
Qed.

Lemma inside_nonempty t c : fits t c -> inside c <> [].
Proof.
  intros [_ H]. destruct c as [us|fs|b]; cbn [inside]; [done| |by destruct H].
  destruct H as (_ & Hf & Hl). destruct fs as [|f fs]; [change (len []) with 0 in Hl; lia|].
  apply Forall_cons in Hf as [[[Hf _] _] _]. destruct f; [change (len []) with 0 in Hf; lia|done].
Qed.

(** A complete payload comes out as what was put in. *)
Lemma GetPacket_inside p pts c tr :
  fits (StreamType p) c -> pesPayload p = inside c -> PTS p = pts -> DTS p = 0 ->
  trType tr = StreamType p -> trSeq tr = Sequence p ->
  exists q, GetPacket p = Some (Some (Some (fst (handOut tr pts c)), q))
    /\ pesPayload q = [] /\ StreamType q = StreamType p /\ Sequence q = trSeq (snd (handOut tr pts c)).
Proof.
  intros [Hok H] Hp <- Hd Ht Hs. unfold GetPacket, handOut. rewrite Ht, Hp, Hd, Hs.
  destruct c as [us|fs|b]; cbn [inside outside] in *.
  - destruct H as (-> & Hus & Hl). cbn [Z.eqb fst snd].
    assert (EncodeToAVCC (startAUD ++ joinNALs (pair true <$> us)) = avccUnits us) as ->.
    { change (startAUD ++ joinNALs (pair true <$> us)) with (joinNALs ((true, [9; 0xF0]) :: (pair true <$> us))).
      rewrite encode_join; [|apply Forall_cons; split; [done|]|exact Hl].
      - rewrite kept_cons. cbn [snd]. change (isAUD (hd 0 [9; 240])) with true. cbn [app]. f_equal.
        clear - Hus. induction us as [|u us IH]; [done|]. apply Forall_cons in Hus as [[_ Hu] Hus].
        cbn [fmap list_fmap]. rewrite kept_cons. cbn [snd]. rewrite Hu. cbn [app]. f_equal. by apply IH.
      - apply Forall_fmap. eapply Forall_impl; [exact Hus|]. by intros n [H _]. }
    eexists. split; [reflexivity|done].
  - destruct H as (Et & Hf & Hl). rewrite Et. change (isVideo StreamTypeAAC) with false. cbn [Z.eqb].
    rewrite ADTStoRTP_frames by (done || lia). eexists. by split; [reflexivity|].
  - destruct H as (Et & _). rewrite Et. change (isVideo StreamTypePCMATapo) with false.
    eexists. by split; [reflexivity|].
Qed.

Lemma handOut_type tr pts c : trType (snd (handOut tr pts c)) = trType tr.
Proof. unfold handOut. by destruct (isVideo (trType tr)). Qed.
Lemma handOut_seq tr tr' pts c : trType tr = trType tr' -> trSeq tr = trSeq tr' ->
  fst (handOut tr pts c) = fst (handOut tr' pts c) /\ trSeq (snd (handOut tr pts c)) = trSeq (snd (handOut tr' pts c)).
Proof. intros E1 E2. unfold handOut. rewrite E1, E2. by destruct (isVideo (trType tr')). Qed.

(** How a track stands on the two sides. *)
Record agrees (tr : track) (P Q : PES) : Prop := {
  a_type : StreamType P = trType tr;
  a_id : is_byte (StreamID P);
  a_pts : PTS P = trPTS tr;
  a_u32 : is_u32 (trPTS tr);
  a_last : Timestamp P = trLast tr;
  b_type : StreamType Q = trType tr;
  b_seq : Sequence Q = trSeq tr;
  b_pending : match trPending tr with
              | None => pesPayload Q = []
              | Some (pts, c) => fits (trType tr) c /\ pesPayload Q = inside c /\ PTS Q = pts /\ DTS Q = 0
              end;
}.

Lemma timeOf_u32 tr ts : is_u32 (trPTS tr) -> is_u32 (timeOf tr ts).
Proof. intros H. unfold timeOf. destruct (trLast tr =? 0); [done|apply u32_bound]. Qed.

Section walk.
Context (walk : gmap Z PES -> list PES).

(** What was left over from the payload before. *)
Lemma pending_out tr Q : StreamType Q = trType tr -> Sequence Q = trSeq tr ->
  (match trPending tr with
   | None => pesPayload Q = []
   | Some (pts, c) => fits (trType tr) c /\ pesPayload Q = inside c /\ PTS Q = pts /\ DTS Q = 0
   end) ->
  exists Q0, cleared Q (match trPending tr with Some (p, c) => [fst (handOut tr p c)] | None => [] end) Q0
    /\ StreamType Q0 = trType tr
    /\ Sequence Q0 = trSeq (match trPending tr with Some (p, c) => snd (handOut tr p c) | None => tr end).
Proof.
  intros Ht Hs H. unfold cleared. destruct (trPending tr) as [[pts c]|].
  - destruct H as (Hf & Hp & Hpts & Hd). rewrite <-Ht in Hf.
    destruct (GetPacket_inside Q pts c tr Hf Hp Hpts Hd (eq_sym Ht) (eq_sym Hs)) as (Q0 & Hg & H0 & H1 & H2).
    exists Q0. split; [|split; [congruence|done]]. split; [done|].
    rewrite decide_False by (rewrite Hp; by eapply inside_nonempty). by eexists.
  - exists Q. rewrite decide_True by done. by split_and!.
Qed.

(** One payload through the writer and the reader. *)
Lemma write_read tr P Q m md d i ts c :
  (i < 33)%nat -> agrees tr P Q -> fits (trType tr) c ->
  m !! pidOf i = Some P -> dpes d = Some md -> md !! pidOf i = Some Q -> dpos d <> skipRead ->
  exists b P', GetPayload (pidOf i) ts (wire c) m = Some (Some (b, <[pidOf i := P']> m))
  /\ forall rest, exists Q' d', runs walk (b ++ rest) d (fst (deliver tr ts c)) rest d'
    /\ dpos d' <> skipRead /\ dpes d' = Some (<[pidOf i := Q']> md)
    /\ agrees (snd (deliver tr ts c)) P' Q'.
Proof.
  intros Hi [A1 A2 A3 A4 A5 B1 B2 B3] Hfit Hm Hd Hmd Hpos.
  assert (0 <= pidOf i < 512) as Hpid by (unfold pidOf; lia).
  pose proof (inside_wire _ _ Hfit) as Hin. rewrite <-A1 in Hin.
  destruct (GetPayload_packets m (pidOf i) P ts (wire c) (inside c) Hpid Hm Hin) as (seq & Hget).
  rewrite A3, A5 in Hget. fold (timeOf tr ts) in Hget.
  set (pts := timeOf tr ts) in *. pose proof (timeOf_u32 tr ts A4) as Hpts. fold pts in Hpts.
  destruct (pending_out tr Q B1 B2 B3) as (Q0 & Hclr & T0 & S0).
  set (outs0 := match trPending tr with Some _ => _ | None => _ end) in Hclr.
  set (tr0 := match trPending tr with Some _ => _ | None => _ end) in S0.
  assert (trType tr0 = trType tr) as Ttr0.
  { unfold tr0. destruct (trPending tr) as [[p0 c0]|]; [apply handOut_type|done]. }
  set (tr1 := ((tr0 <| trPTS := pts |>) <| trLast := ts |>) <| trPending := None |>).
  assert (deliver tr ts c = if announced (inside c) =? 0 then (outs0, tr1 <| trPending := Some (pts, c) |>)
    else (outs0 ++ [fst (handOut tr1 pts c)], snd (handOut tr1 pts c))) as ->.
  { unfold deliver, outs0, tr1, tr0. fold pts. destruct (trPending tr) as [[p0 c0]|].
    - destruct (handOut tr p0 c0) as [x t]. cbn [fst snd]. destruct (announced (inside c) =? 0); [done|].
      by destruct (handOut _ pts c).
    - destruct (announced (inside c) =? 0); [done|]. by destruct (handOut _ pts c). }
  set (Q1 := opened (StreamID P) pts (inside c) (inside c) Q0).
  assert (fits (StreamType Q1) c) as Hfit1 by (change (StreamType Q1) with (StreamType Q0); by rewrite T0).
  set (P' := _ <| Size := 0 |>) in Hget.
  assert (exists outs q, settled Q1 outs q
    /\ fst (if announced (inside c) =? 0 then (outs0, tr1 <| trPending := Some (pts, c) |>)
            else (outs0 ++ [fst (handOut tr1 pts c)], snd (handOut tr1 pts c))) = outs0 ++ outs
    /\ agrees (snd (if announced (inside c) =? 0 then (outs0, tr1 <| trPending := Some (pts, c) |>)
            else (outs0 ++ [fst (handOut tr1 pts c)], snd (handOut tr1 pts c)))) P' q) as (outs & q & Hset & Eouts & Hag).
  { unfold settled. change (Size Q1) with (announced (inside c)).
    destruct (announced (inside c) =? 0).
    - exists [], Q1. split; [done|]. split; [by rewrite app_nil_r|]. cbn [snd].
      constructor; try done; cbn; try congruence. by rewrite Ttr0.
    - destruct (GetPacket_inside Q1 pts c tr1) as (q & Hg & H0 & H1 & H2); try done.
      + change (trType tr1) with (trType tr0). change (StreamType Q1) with (StreamType Q0). congruence.
      + exists [fst (handOut tr1 pts c)], q. split; [by eexists|]. split; [done|]. cbn [snd].
        assert (trPTS (snd (handOut tr1 pts c)) = pts /\ trLast (snd (handOut tr1 pts c)) = ts
          /\ trPending (snd (handOut tr1 pts c)) = None) as (K1 & K2 & K3).
        { unfold handOut. by destruct (isVideo (trType tr1)). }
        constructor; rewrite ?handOut_type, ?K1, ?K2, ?K3; try done; cbn; try congruence.
        rewrite H1. change (StreamType Q1) with (StreamType Q0). congruence. }
  eexists _, P'. split; [exact Hget|]. intros rest.
  destruct (read_payload walk (pidOf i) (StreamID P) pts (inside c) (Sequence P) rest d md Q Q0 outs0 outs q
    Hpid A2 Hpts (proj1 Hfit) (inside_nonempty _ _ Hfit) Hpos Hd Hmd Hclr Hset) as (d' & Hrun & Hpos' & Hd').
  exists q, d'. rewrite Eouts. by split_and!.
Qed.

(** The tracks of both sides. *)
Definition together (trs : list track) (m md : gmap Z PES) : Prop :=
  forall i tr, trs !! i = Some tr ->
    exists P Q, m !! pidOf i = Some P /\ md !! pidOf i = Some Q /\ agrees tr P Q.

Lemma together_insert trs m md i tr P Q : together trs m md -> agrees tr P Q ->
  together (<[i := tr]> trs) (<[pidOf i := P]> m) (<[pidOf i := Q]> md).
Proof.
  intros H Ha j x Hj. apply list_lookup_insert_Some in Hj as [(<- & <- & _)|[Hne Hj]].
  - exists P, Q. by rewrite !lookup_insert_eq.
  - destruct (H j x Hj) as (P' & Q' & H'). exists P', Q'. by rewrite !lookup_insert_ne by (unfold pidOf; lia).
Qed.

(** The writes fit their tracks. *)
Definition fitting (types : list Z) (w : write) : Prop :=
  exists t, types !! wTrack w = Some t /\ fits t (wContent w).

Lemma deliver_type tr ts c : trType (snd (deliver tr ts c)) = trType tr.
Proof.
  unfold deliver. destruct (trPending tr) as [[p0 c0]|].
  - pose proof (handOut_type tr p0 c0) as E. destruct (handOut tr p0 c0) as [x t]. cbn [snd] in E.
    destruct (announced (inside c) =? 0); [done|].
    match goal with |- context [handOut ?a ?b ?c] => pose proof (handOut_type a b c) as E2; destruct (handOut a b c) end.
    cbn [snd] in *. rewrite E2. done.
  - destruct (announced (inside c) =? 0); [done|].
    match goal with |- context [handOut ?a ?b ?c] => pose proof (handOut_type a b c) as E2; destruct (handOut a b c) end.
    cbn [snd] in *. rewrite E2. done.
Qed.

Lemma writes_read ws : forall trs m md d,
  (length trs <= 33)%nat -> together trs m md -> dpes d = Some md -> dpos d <> skipRead ->
  Forall (fitting (trType <$> trs)) ws ->
  exists body d', muxAll ws m = Some (Some body)
    /\ runs walk body d (delivered trs ws) [] d' /\ dpos d' <> skipRead.
Proof.
  induction ws as [|w ws IH]; intros trs m md d Hn Htog Hd Hpos Hws.
  { exists [], d. split_and!; [done|apply runs_nil|done]. }
  apply Forall_cons in Hws as [(t & Ht & Hfit) Hws]. rewrite list_lookup_fmap in Ht.
  destruct (trs !! wTrack w) as [tr|] eqn:Htr; [|done]. injection Ht as <-.
  destruct (Htog _ _ Htr) as (P & Q & HP & HQ & Hag). pose proof (lookup_lt_Some _ _ _ Htr) as Hlt.
  cbn [muxAll delivered]. rewrite Htr.
  destruct (write_read tr P Q m md d (wTrack w) (wTs w) (wContent w) ltac:(lia) Hag Hfit HP Hd HQ Hpos)
    as (b & P' & Hget & Hstep).
  rewrite Hget. cbn [mbind option_bind]. pose proof (deliver_type tr (wTs w) (wContent w)) as Ety.
  destruct (deliver tr (wTs w) (wContent w)) as [ps tr'] eqn:Edel. cbn [fst snd] in *.
  assert (trType <$> <[wTrack w := tr']> trs = trType <$> trs) as Etys.
  { by rewrite list_fmap_insert, Ety, list_insert_id by (by rewrite list_lookup_fmap, Htr). }
  set (m' := <[pidOf (wTrack w) := P']> m) in *. set (trs' := <[wTrack w := tr']> trs) in *.
  assert (forall Q1 d1, agrees tr' P' Q1 -> dpes d1 = Some (<[pidOf (wTrack w) := Q1]> md) -> dpos d1 <> skipRead ->
    exists body d', muxAll ws m' = Some (Some body) /\ runs walk body d1 (delivered trs' ws) [] d'
      /\ dpos d' <> skipRead) as Hnext.
  { intros Q1 d1 Hag1 Hd1 Hp1. apply (IH trs' m' (<[pidOf (wTrack w) := Q1]> md) d1); [|by apply together_insert|done|done|].
    - unfold trs'. by rewrite length_insert.
    - by rewrite Etys. }
  destruct (Hstep []) as (Q0 & d0 & _ & Hp0 & Hd0 & Hag0).
  destruct (Hnext Q0 d0 Hag0 Hd0 Hp0) as (body & _ & Hbody & _).
  destruct (Hstep body) as (Q1 & d1 & Hrun1 & Hp1 & Hd1 & Hag1).
  destruct (Hnext Q1 d1 Hag1 Hd1 Hp1) as (body' & d2 & Hb & Hrun2 & Hp2).
  rewrite Hbody in Hb. injection Hb as <-. exists (b ++ body), d2. rewrite Hbody. split; [done|].
  split; [|done]. by eapply runs_app.
Qed.
End walk.

(** ** The whole stream *)

Lemma tracks_agree types : (length types <= 33)%nat ->
  together (newTrack <$> types) (tracksOf types) (known 0 types ∅).
Proof.
  intros Hn i tr Hi. rewrite list_lookup_fmap in Hi. destruct (types !! i) as [t|] eqn:Ht; [|done].
  injection Hi as <-. pose proof (lookup_lt_Some _ _ _ Ht) as Hlt.
  destruct (tracks_spec types Hn) as (_ & Hl & _). exists (fresh t), (newPES t). split_and!.
  - by rewrite Hl, Ht.
  - rewrite known_lookup by lia. rewrite decide_False, Nat.sub_0_r, Ht by lia. done.
  - constructor; try done. unfold fresh, muxerStreamID. cbn.
    destruct (_ || _); [done|]. by destruct (_ || _).
Qed.

(** C31. What a muxer writes, its tables and the payloads of its tracks in any order, a demuxer
    reads: first the types of the streams, then what was put in, each payload as one
    packet of its type and with its time, payloads with a known size at once and longer
    ones when the next of their track begins; then the stream ends. *)
Theorem stream_roundtrip walk types ws :
  (forall m, walk m ≡ₚ map snd (map_to_list m)) ->
  (length types <= 33)%nat -> Forall is_byte types -> Forall (fitting types) ws ->
  exists h body meta, GetHeader (tracksOf types) = Some h
    /\ muxAll ws (tracksOf types) = Some (Some body)
    /\ PayloadType meta = StreamTypeMetadata /\ tsPayload meta ≡ₚ types
    /\ let out := meta :: delivered (newTrack <$> types) ws in
       readAll walk (S (length out)) (h ++ body) NewDemuxer = Some (out, TsFailed ReadFails).
Proof.
  intros Hw Hn Ht Hws. rewrite (GetHeader_bytes types Hn).
  destruct (tables_read walk types [] Hn Ht) as (_ & d0 & _ & _ & _ & Hp0 & Hd0).
  destruct (writes_read walk ws (newTrack <$> types) (tracksOf types) (known 0 types ∅) d0)
    as (body & _ & Hbody & _); [by rewrite length_fmap|by apply tracks_agree|done|done| |].
  { rewrite <-list_fmap_compose. change (trType ∘ newTrack) with (@id Z). by rewrite list_fmap_id. }
  destruct (tables_read walk types body Hn Ht) as (d1 & d2 & Es1 & Hp1 & Es2 & Hp2 & Hd2).
  destruct (writes_read walk ws (newTrack <$> types) (tracksOf types) (known 0 types ∅) d2)
    as (body2 & d3 & Hbody2 & Hrun & Hp3); [by rewrite length_fmap|by apply tracks_agree|done|done| |].
  { rewrite <-list_fmap_compose. change (trType ∘ newTrack) with (@id Z). by rewrite list_fmap_id. }
  rewrite Hbody in Hbody2. injection Hbody2 as <-.
  eexists _, body, (metadata walk (known 0 types ∅)). split; [reflexivity|]. split; [done|]. split; [done|].
  split; [by apply metadata_types|]. cbv zeta. apply (readAll_runs walk _ _ _ [] d3).
  - rewrite <-app_assoc. eapply runs_next; [exact Es1|exact Hp1| |].
    { left. rewrite (length_app (tablePacket patPID patSection)).
      assert (len (tablePacket patPID patSection) = 188) as El by reflexivity. unfold len in El. lia. }
    eapply runs_emit; [exact Es2|exact Hrun].
  - unfold needed. rewrite decide_False by done. cbn [length Nat.add ReadPacket]. unfold packetStep.
    destruct (Z.eqb_spec (dpos d3) skipRead); [done|]. reflexivity.
  - done.
Qed.

(** A stream with a picture, samples and a picture. *)
Definition demoTypes : list Z := [StreamTypeH264; StreamTypePCMATapo].
Definition demoWrites : list write :=
  [mkWrite 0 9000 (Video [[0x67; 1]; [0x65; 2; 3]]); mkWrite 1 800 (Samples [1; 2; 3]);
   mkWrite 0 12600 (Video [[0x41; 7]])].
Definition demoWalk (m : gmap Z PES) : list PES := map snd (map_to_list m).

Lemma stream_roundtrip_witness :
  Forall (fitting demoTypes) demoWrites
  /\ exists h body meta, GetHeader (tracksOf demoTypes) = Some h
    /\ muxAll demoWrites (tracksOf demoTypes) = Some (Some body)
    /\ readAll demoWalk 5 (h ++ body) NewDemuxer
       = Some ([meta; mkTsPacket 0 false 27 0 0 0 [0; 0; 0; 2; 0x67; 1; 0; 0; 0; 3; 0x65; 2; 3];
                mkTsPacket 2 true 144 1 0 0 [1; 2; 3]; mkTsPacket 0 false 27 0 3600 0 [0; 0; 0; 2; 0x41; 7]],
               TsFailed ReadFails).
Proof.
  assert (Forall (fitting demoTypes) demoWrites) as Hf.
  { apply Forall_cons_2; [|apply Forall_cons_2; [|apply Forall_cons_2; [|apply Forall_nil_2]]];
      (eexists; split; [reflexivity|]).
    - split; [bytes_lit|]. split; [reflexivity|]. split; [|reflexivity].
      repeat (apply Forall_cons_2; [split; reflexivity|]). apply Forall_nil_2.
    - split; [bytes_lit|]. split; [reflexivity|]. discriminate.
    - split; [bytes_lit|]. split; [reflexivity|]. split; [|reflexivity].
      repeat (apply Forall_cons_2; [split; reflexivity|]). apply Forall_nil_2. }
  split; [exact Hf|].
  destruct (stream_roundtrip demoWalk demoTypes demoWrites) as (h & body & meta & H1 & H2 & _ & _ & H3).
  - intros m. reflexivity.
  - cbn. lia.
  - unfold demoTypes. apply Forall_cons_2; [split; [discriminate|reflexivity]|].
    apply Forall_cons_2; [split; [discriminate|reflexivity]|apply Forall_nil_2].
  - exact Hf.
  - exists h, body, meta. split; [exact H1|]. split; [exact H2|]. exact H3.
Defined.

(** ** Times and order of one track *)

Lemma one_track t ts0 ws : forall tr, trType tr = t -> trPending tr = None -> trLast tr <> 0 ->
  trPTS tr = u32 (trLast tr - ts0) ->
  Forall (fun w => wTrack w = 0%nat /\ wTs w <> 0 /\ announced (inside (wContent w)) <> 0) ws ->
  map tsTimestamp (delivered [tr] ws) = map (fun w => u32 (wTs w - ts0)) ws
  /\ map tsPayload (delivered [tr] ws) = map (fun w => outside (wContent w)) ws.
Proof.
  induction ws as [|w ws IH]; intros tr Ht Hp Hl Hpts H; [done|]. apply Forall_cons in H as [(Hw & Hts & Ha) H].
  cbn [delivered map]. rewrite Hw. change ([tr] !! 0%nat) with (Some tr). cbv iota.
  unfold deliver. rewrite Hp. destruct (Z.eqb_spec (announced (inside (wContent w))) 0); [done|].
  set (tr1 := ((tr <| trPTS := timeOf tr (wTs w) |>) <| trLast := wTs w |>) <| trPending := None |>).
  assert (timeOf tr (wTs w) = u32 (wTs w - ts0)) as Et.
  { unfold timeOf. destruct (Z.eqb_spec (trLast tr) 0); [done|]. rewrite Hpts. unfold u32.
    rewrite <-Z.add_mod by lia. f_equal. lia. }
  destruct (handOut tr1 (timeOf tr (wTs w)) (wContent w)) as [x tr2] eqn:Eh. cbn [app map].
  assert (tsTimestamp x = timeOf tr (wTs w) /\ tsPayload x = outside (wContent w) /\ trType tr2 = t
    /\ trPending tr2 = None /\ trLast tr2 = wTs w /\ trPTS tr2 = timeOf tr (wTs w)) as (E1 & E2 & E3 & E4 & E5 & E6).
  { unfold handOut in Eh. destruct (isVideo (trType tr1)); injection Eh as <- <-; by split_and!. }
  change (<[0%nat := tr2]> [tr]) with [tr2].
  destruct (IH tr2) as [-> ->]; [done|done|by rewrite E5|by rewrite E6, E5|done|]. by rewrite E1, E2, Et.
Qed.

(** Short payloads of one track come out in order, the first at time 0 and the others at
    their distance from it, as long as no timestamp is 0. *)
Lemma track_times t w ws :
  Forall (fun w => wTrack w = 0%nat /\ wTs w <> 0 /\ announced (inside (wContent w)) <> 0) (w :: ws) ->
  map tsTimestamp (delivered [newTrack t] (w :: ws)) = 0 :: map (fun v => u32 (wTs v - wTs w)) ws
  /\ map tsPayload (delivered [newTrack t] (w :: ws)) = map (fun w => outside (wContent w)) (w :: ws).
Proof.
  intros H. apply Forall_cons in H as [(Hw & Hts & Ha) H]. cbn [delivered map]. rewrite Hw.
  change ([newTrack t] !! 0%nat) with (Some (newTrack t)). cbv iota. unfold deliver. cbn [trPending newTrack].
  destruct (Z.eqb_spec (announced (inside (wContent w))) 0); [done|].
  set (tr1 := upd trPending _ _).
  destruct (handOut tr1 (timeOf (newTrack t) (wTs w)) (wContent w)) as [x tr2] eqn:Eh. cbn [app map].
  assert (tsTimestamp x = 0 /\ tsPayload x = outside (wContent w) /\ trType tr2 = t
    /\ trPending tr2 = None /\ trLast tr2 = wTs w /\ trPTS tr2 = 0) as (E1 & E2 & E3 & E4 & E5 & E6).
  { unfold handOut in Eh. destruct (isVideo (trType tr1)); injection Eh as <- <-; by split_and!. }
  change (<[0%nat := tr2]> [newTrack t]) with [tr2].
  destruct (one_track t (wTs w) ws tr2) as [-> ->]; [done|done|by rewrite E5| |done|by rewrite E1, E2].
  by rewrite E6, E5, Z.sub_diag.
Qed.

(** ** Where the code falls short *)

(** After a payload with timestamp 0 the clock stands still for one payload. *)
Lemma zero_timestamp_forgotten t c : announced (inside c) <> 0 ->
  timeOf (snd (deliver (newTrack t) 0 c)) 3600 = 0.
Proof.
  intros H. unfold deliver. cbn. destruct (Z.eqb_spec (announced (inside c)) 0); [done|].
  unfold handOut. cbn. by destruct (isVideo t).
Qed.

(** A table whose section is shorter than its header makes the reader run out of the
    packet. *)
Lemma short_table_panics walk :
  packetStep walk ([0x47; 0x40; 0; 0x10; 0; 0; 0xB0; 0; 0; 1; 0xC1; 0; 0] ++ zeros 175) NewDemuxer = Some TsPanic.
Proof. vm_compute. reflexivity. Qed.

(** So does a stream's header that claims to be longer than the packet. *)
Lemma long_header_panics walk m d :
  dpes d = Some m -> m !! 256 = Some (newPES StreamTypeH264) -> dpos d = 0 -> dbits d = 0 ->
  packetStep walk ([0x47; 0x41; 0; 0x10; 0; 0; 1; 0xE0; 0; 0; 0x80; 0; 200] ++ zeros 175) d = Some TsPanic.
Proof.
  intros Hm H256 Hp Hb. destruct d as [b y k q e i s]. cbn in *. subst. unfold packetStep. cbn [dpos].
  change (0 =? skipRead) with false. cbv iota.
  change (len _ <? PacketSize) with false. cbv iota. unfold handlePacket.
  match goal with |- context [readPacketHeader ?x] => let r := eval vm_compute in (readPacketHeader x) in
    change (readPacketHeader x) with r end.
  cbv beta iota. cbn [dpes]. unfold readPES. rewrite H256. vm_compute. reflexivity.
Qed.

(** An audio frame that declares length 0 keeps the reader busy for ever. *)
Lemma zero_frame_hangs_reader p : StreamType p = StreamTypeAAC -> pesPayload p = zeros 8 -> GetPacket p = None.
Proof. intros Ht Hp. unfold GetPacket. rewrite Ht, Hp. reflexivity. Qed.
