(* ===== verification/Buffers.v ===== *)
(** The buffers between sources, muxers and their readers ([pkg/core/readbuffer.go],
    [pkg/core/writebuffer.go]) and the waiter ([pkg/core/waiter.go]). *)

From S2P Require Import Prelude.

(** ** Reading ahead *)

Definition ProbeSize : Z := 5 * 1024 * 1024.
Definition BufferDisable : Z := 0.
Definition BufferDrainAndClear : Z := -1.

Record ReadBuffer := mkReadBuffer {
  BufferSize : Z;
  rbuf : bytes;
  rpos : Z;
}.
#[export] Instance eta_ReadBuffer : Eta ReadBuffer := fun b => mkReadBuffer (BufferSize b) (rbuf b) (rpos b).

(** A fresh one; a reader that is one already is used as it is. *)
Definition NewReadBuffer : ReadBuffer := mkReadBuffer 0 [] 0.

(** What the reader behind it answers: the bytes, and whether there was an error. *)
Inductive rbOut :=
  | FromBuffer (out : bytes)
  | Passed (out : bytes) (err : bool)
  | Overflow.

(** [Read] into [cap] bytes; [got] and [err] are what the reader behind it gives, if it is
    asked. *)
Definition rbRead (cap : Z) (got : bytes) (err : bool) (r : ReadBuffer) : rbOut * ReadBuffer :=
  if BufferSize r =? BufferDisable then (Passed got err, r)
  else if rpos r <? len (rbuf r) then
    let out := take (Z.to_nat cap) (drop (Z.to_nat (rpos r)) (rbuf r)) in
    (FromBuffer out, r <| rpos := rpos r + len out |>)
  else if BufferSize r <? 0 then (Passed got err, mkReadBuffer BufferDisable [] 0)
  else if BufferSize r <? len (rbuf r) + len got then (Overflow, r)
  else (Passed got err, (r <| rbuf := rbuf r ++ got |>) <| rpos := rpos r + len got |>).

(** The three ways of counting. *)
Inductive whence := SeekStart | SeekCurrent | SeekEnd.

Definition Seek (offset : Z) (w : whence) (r : ReadBuffer) : Z * ReadBuffer :=
  let pos := match w with
             | SeekStart => offset
             | SeekCurrent => rpos r + offset
             | SeekEnd => len (rbuf r) + offset
             end in
  let r := if pos <? 0 then (r <| rbuf := [] |>) <| rpos := 0 |>
           else if len (rbuf r) <=? pos then r <| rpos := len (rbuf r) |>
           else r <| rpos := pos |> in
  (rpos r, r).

Definition rbReset (r : ReadBuffer) : ReadBuffer :=
  (r <| BufferSize := BufferDrainAndClear |>) <| rpos := 0 |>.

(** [io.ReadAtLeast] with the answers of the reader behind the buffer; [None] is a call
    for which there is no answer. *)
Fixpoint readAtLeast (fuel : nat) (n : Z) (got : bytes) (answers : list (bytes * bool)) (r : ReadBuffer)
    : option (bool * bytes * list (bytes * bool) * ReadBuffer) :=
  if n <=? len got then Some (true, got, answers, r) else
  match fuel with
  | O => None
  | S fuel =>
      let '(a, e) := hd ([], true) answers in
      match rbRead (n - len got) a e r with
      | (FromBuffer out, r) => readAtLeast fuel n (got ++ out) answers r
      | (Passed out err, r) =>
          match answers with
          | [] => None
          | _ :: answers =>
              let got := got ++ out in
              if err then Some (n <=? len got, got, answers, r) else readAtLeast fuel n got answers r
          end
      | (Overflow, r) => Some (false, got, tl answers, r)
      end
  end.

(** The bytes, unless reading fails. *)
Definition Peek (fuel : nat) (n : Z) (answers : list (bytes * bool)) (r : ReadBuffer)
    : option (option bytes * list (bytes * bool) * ReadBuffer) :=
  '(ok, b, answers, r) ← readAtLeast fuel n [] answers (r <| BufferSize := n |>);
  Some (if (ok : bool) then (Some b, answers, rbReset r) else (None, answers, r)).

(** *** What is still to come *)

(** The bytes a reader of the buffer will get, [behind] being those the reader behind it
    still has. *)
Definition view (r : ReadBuffer) (behind : bytes) : bytes :=
  if BufferSize r =? 0 then behind else drop (Z.to_nat (rpos r)) (rbuf r) ++ behind.

Definition rb_wf (r : ReadBuffer) : Prop :=
  0 <= rpos r <= len (rbuf r) /\ (BufferSize r = 0 -> rbuf r = [] /\ rpos r = 0).

(** Reads, each with what came out; none of them overflows. *)
Inductive reading : ReadBuffer -> bytes -> list bytes -> ReadBuffer -> bytes -> Prop :=
  | reading_nil r s : reading r s [] r s
  | reading_buffer r s cap got err out r1 outs r2 s2 :
      0 <= cap -> rbRead cap got err r = (FromBuffer out, r1) ->
      reading r1 s outs r2 s2 -> reading r s (out :: outs) r2 s2
  | reading_behind r s cap got err r1 outs r2 s2 :
      rbRead cap got err r = (Passed got err, r1) ->
      reading r1 s outs r2 s2 -> reading r (got ++ s) (got :: outs) r2 s2.

Lemma rbRead_view cap got err r : rb_wf r -> 0 <= cap ->
  match rbRead cap got err r with
  | (FromBuffer out, r1) => rb_wf r1 /\ (forall s, view r s = out ++ view r1 s)
      /\ rbuf r1 = rbuf r /\ BufferSize r1 = BufferSize r
  | (Passed out _, r1) => out = got /\ rb_wf r1 /\ (forall s, view r (got ++ s) = got ++ view r1 s)
      /\ (0 < BufferSize r -> rbuf r1 = rbuf r ++ got /\ BufferSize r1 = BufferSize r)
  | (Overflow, r1) => r1 = r
  end.
Proof.
  intros [Hp H0] Hcap. unfold rbRead, view. destruct (Z.eqb_spec (BufferSize r) BufferDisable) as [E|E].
  { change BufferDisable with 0 in E. split; [done|]. split; [by split|]. split; [intros s; by rewrite E|lia]. }
  change BufferDisable with 0 in *. destruct (Z.ltb_spec (rpos r) (len (rbuf r))) as [Hlt|Hge].
  - set (out := take _ (drop _ (rbuf r))).
    assert (len out <= len (rbuf r) - rpos r) as Ho.
    { unfold out, len. rewrite length_take, length_drop. unfold len in *. lia. }
    pose proof (len_nonneg out). unfold rb_wf. cbn. split; [split; [lia|done]|]. split; [|done].
    intros s. destruct (Z.eqb_spec (BufferSize r) 0); [done|]. rewrite app_assoc. f_equal.
    rewrite Z2Nat.inj_add, <-drop_drop by lia. unfold len. rewrite Nat2Z.id. unfold out at 2.
    rewrite length_take. set (d := drop (Z.to_nat (rpos r)) (rbuf r)). unfold out. fold d.
    rewrite <-(take_drop (Z.to_nat cap) d) at 1. f_equal.
    destruct (decide (Z.to_nat cap <= length d)%nat); [by rewrite Nat.min_l by lia|].
    by rewrite Nat.min_r, !drop_ge by lia.
  - assert (rpos r = len (rbuf r)) as Ep by lia.
    assert (drop (Z.to_nat (rpos r)) (rbuf r) = []) as Ed by (rewrite Ep; unfold len; rewrite Nat2Z.id; apply drop_all).
    destruct (Z.ltb_spec (BufferSize r) 0) as [Hneg|Hpos].
    + split; [done|]. unfold rb_wf. cbn. split; [done|]. split; [|lia]. intros s.
      destruct (Z.eqb_spec (BufferSize r) 0); [lia|]. by rewrite Ed.
    + destruct (BufferSize r <? len (rbuf r) + len got); [done|]. split; [done|].
      pose proof (len_nonneg got). unfold rb_wf. cbn. rewrite len_app.
      split; [split; [lia|done]|]. split; [|done]. intros s.
      destruct (Z.eqb_spec (BufferSize r) 0); [done|]. rewrite Ed. cbn [app]. do 2 f_equal.
      rewrite drop_ge; [done|]. rewrite Ep, length_app. unfold len. lia.
Qed.

(** Reads give what is to come, in order. *)
Lemma reading_view r s outs r2 s2 : reading r s outs r2 s2 -> rb_wf r ->
  rb_wf r2 /\ view r s = concat outs ++ view r2 s2.
Proof.
  induction 1 as [r s|r s cap got err out r1 outs r2 s2 Hc Hr _ IH|r s cap got err r1 outs r2 s2 Hr _ IH]; intros Hwf.
  - done.
  - pose proof (rbRead_view cap got err r Hwf Hc) as H. rewrite Hr in H. destruct H as (H1 & H2 & _).
    destruct (IH H1) as [H3 H4]. split; [done|]. cbn [concat]. by rewrite <-app_assoc, <-H4, <-H2.
  - assert (rbRead (Z.max 0 cap) got err r = (Passed got err, r1)) as Hr'.
    { revert Hr. unfold rbRead. destruct (_ =? _); [done|]. by destruct (_ <? _). }
    pose proof (rbRead_view (Z.max 0 cap) got err r Hwf ltac:(lia)) as H. rewrite Hr' in H.
    destruct H as (_ & H1 & H2 & _). destruct (IH H1) as [H3 H4]. split; [done|].
    cbn [concat]. by rewrite <-app_assoc, <-H4, <-H2.
Qed.

(** While it buffers, it keeps everything. *)
Lemma reading_keeps r s outs r2 s2 : reading r s outs r2 s2 -> rb_wf r -> 0 < BufferSize r ->
  0 < BufferSize r2 /\ rbuf r2 ++ s2 = rbuf r ++ s.
Proof.
  induction 1 as [r s|r s cap got err out r1 outs r2 s2 Hc Hr _ IH|r s cap got err r1 outs r2 s2 Hr _ IH]; intros Hwf Hs.
  - done.
  - pose proof (rbRead_view cap got err r Hwf Hc) as H. rewrite Hr in H. destruct H as (H1 & _ & H2 & H3).
    rewrite <-H2, <-H3 in *. by apply IH.
  - assert (rbRead (Z.max 0 cap) got err r = (Passed got err, r1)) as Hr'.
    { revert Hr. unfold rbRead. destruct (_ =? _); [done|]. by destruct (_ <? _). }
    pose proof (rbRead_view (Z.max 0 cap) got err r Hwf ltac:(lia)) as H. rewrite Hr' in H.
    destruct H as (_ & H1 & _ & H2). destruct (H2 Hs) as [E1 E2]. destruct (IH H1) as [H3 H4]; [lia|].
    split; [done|]. by rewrite H4, E1, <-app_assoc.
Qed.

(** Probing leaves no trace: while a source is probed its reader gets the stream as it
    is, and after the reset it gets the whole stream again from where the probe began,
    each byte once and in order, until the buffer is used up and beyond. *)
Theorem probe_transparent r s size outs r1 s1 again r2 s2 :
  rb_wf r -> rpos r = 0 -> 0 < size ->
  reading (r <| BufferSize := size |>) s outs r1 s1 ->
  reading (rbReset r1) s1 again r2 s2 ->
  view r s = concat outs ++ view r1 s1
  /\ view (rbReset r1) s1 = view r s
  /\ view r s = concat again ++ view r2 s2.
Proof.
  intros Hwf Hpos Hsize Hread Hagain. set (r0 := r <| BufferSize := size |>) in *.
  assert (rb_wf r0) as Hwf0 by (destruct Hwf; split; [done|cbn; lia]).
  assert (view r0 s = view r s) as Ev.
  { unfold view, r0. cbn. rewrite Hpos. destruct (Z.eqb_spec size 0); [lia|].
    destruct (Z.eqb_spec (BufferSize r) 0) as [E|E]; [|done].
    destruct Hwf as [_ Hw]. destruct (Hw E) as [-> _]. done. }
  destruct (reading_view _ _ _ _ _ Hread Hwf0) as [Hwf1 E1].
  destruct (reading_keeps _ _ _ _ _ Hread Hwf0 Hsize) as [_ E2].
  assert (view (rbReset r1) s1 = view r s) as E3.
  { rewrite <-Ev. unfold view. cbn. rewrite drop_0, E2. unfold r0. cbn. rewrite Hpos.
    destruct (Z.eqb_spec size 0); [lia|]. by rewrite drop_0. }
  assert (rb_wf (rbReset r1)) as Hwf2.
  { unfold rb_wf. cbn. pose proof (len_nonneg (rbuf r1)). split; [lia|done]. }
  destruct (reading_view _ _ _ _ _ Hagain Hwf2) as [_ E4].
  split_and!; [by rewrite <-Ev|done|by rewrite <-E3].
Qed.

Lemma probe_transparent_witness :
  reading (NewReadBuffer <| BufferSize := 100 |>) [1; 2; 3; 4; 5] [[1; 2]; [3]] (mkReadBuffer 100 [1; 2; 3] 3) [4; 5]
  /\ view NewReadBuffer [1; 2; 3; 4; 5] = concat [[1; 2]; [3]; [4]] ++ [5].
Proof.
  assert (reading (NewReadBuffer <| BufferSize := 100 |>) [1; 2; 3; 4; 5] [[1; 2]; [3]] (mkReadBuffer 100 [1; 2; 3] 3) [4; 5])
    as H1.
  { apply (reading_behind _ [3; 4; 5] 2 [1; 2] false (mkReadBuffer 100 [1; 2] 2)); [reflexivity|].
    apply (reading_behind _ [4; 5] 2 [3] false (mkReadBuffer 100 [1; 2; 3] 3)); [reflexivity|].
    apply reading_nil. }
  split; [exact H1|].
  apply (probe_transparent NewReadBuffer [1; 2; 3; 4; 5] 100 [[1; 2]; [3]] (mkReadBuffer 100 [1; 2; 3] 3) [4; 5]
    [[1; 2]; [3]; [4]] (mkReadBuffer 0 [] 0) [5]).
  - split; [split; [reflexivity|discriminate]|done].
  - reflexivity.
  - reflexivity.
  - exact H1.
  - apply (reading_buffer _ _ 2 [] false [1; 2] (mkReadBuffer (-1) [1; 2; 3] 2)); [discriminate|reflexivity|].
    apply (reading_buffer _ _ 2 [] false [3] (mkReadBuffer (-1) [1; 2; 3] 3)); [discriminate|reflexivity|].
    apply (reading_behind _ [5] 2 [4] false (mkReadBuffer 0 [] 0)); [reflexivity|].
    apply reading_nil.
Defined.

(** Peeking gives the first bytes to come and takes none of them, if nothing of the
    buffer was taken before. *)
Lemma readAtLeast_view fuel : forall n got answers r b answers' r',
  rb_wf r -> 0 < BufferSize r ->
  readAtLeast fuel n got answers r = Some (true, b, answers', r') ->
  exists out used, answers = used ++ answers' /\ b = got ++ out /\ rb_wf r' /\ 0 < BufferSize r'
    /\ (forall s, view r (concat (map fst used) ++ s) = out ++ view r' s)
    /\ (forall s, rbuf r ++ concat (map fst used) ++ s = rbuf r' ++ s).
Proof.
  induction fuel as [|fuel IH]; intros n got answers r b answers' r' Hwf Hs H; cbn [readAtLeast] in H;
    (destruct (Z.leb_spec n (len got)) as [Hle|Hgt];
     [injection H as <- <- <-; exists [], []; rewrite app_nil_r; by split_and!|]); [done|].
  destruct (hd ([], true) answers) as [a e] eqn:Ha.
  pose proof (rbRead_view (n - len got) a e r Hwf ltac:(lia)) as Hr.
  destruct (rbRead (n - len got) a e r) as [[out|out err|] r1].
  - destruct Hr as (H1 & H2 & H3 & H4).
    destruct (IH n (got ++ out) answers r1 b answers' r' H1 ltac:(lia) H) as (out2 & used & -> & -> & H7 & H8 & H9 & H10).
    exists (out ++ out2), used. split_and!; [done|by rewrite app_assoc|done|done| |].
    + intros s. by rewrite H2, H9, app_assoc.
    + intros s. by rewrite <-H3, H10.
  - destruct answers as [|[a0 e0] answers]; [done|]. injection Ha as -> ->.
    destruct Hr as (-> & H1 & H2 & H3). destruct (H3 Hs) as [E1 E2].
    destruct err.
    + injection H as Hle <- <- <-. exists a, [(a, e)]. cbn. rewrite !app_nil_r.
      split_and!; [done|done|done|lia|by intros; rewrite H2|intros s; by rewrite E1, <-app_assoc].
    + destruct (IH n (got ++ a) answers r1 b answers' r' H1 ltac:(lia) H) as (out2 & used & -> & -> & H7 & H8 & H9 & H10).
      exists (a ++ out2), ((a, e) :: used). cbn. split_and!; [done|by rewrite app_assoc|done|done| |].
      * intros s. by rewrite <-app_assoc, H2, H9, app_assoc.
      * intros s. rewrite <-H10, E1, <-!app_assoc. done.
  - done.
Qed.

Lemma Peek_view fuel n answers r b answers' r' s : rb_wf r -> rpos r = 0 -> 0 < n ->
  Peek fuel n answers r = Some (Some b, answers', r') ->
  exists used, answers = used ++ answers' /\
    let behind := concat (map fst used) ++ s in
    (exists more, view r behind = b ++ more) /\ view r' s = view r behind.
Proof.
  intros Hwf Hpos Hn H. unfold Peek in H. set (r0 := r <| BufferSize := n |>) in *.
  destruct (readAtLeast fuel n [] answers r0) as [[[[ok b0] answers0] r1]|] eqn:Hr; [|done].
  cbn [mbind option_bind] in H. destruct ok; [|done]. injection H as <- <- <-.
  destruct (readAtLeast_view fuel n [] answers r0 b0 answers0 r1) as (out & used & -> & -> & H1 & H2 & H3 & H4);
    [destruct Hwf; split; [done|cbn; lia]|done|done|].
  assert (forall t, view r0 t = view r t) as Ev.
  { intros t. unfold view, r0. cbn. rewrite Hpos. destruct (Z.eqb_spec n 0); [lia|].
    destruct (Z.eqb_spec (BufferSize r) 0) as [E|E]; [|done].
    destruct Hwf as [_ Hw]. destruct (Hw E) as [-> _]. done. }
  exists used. split; [done|]. cbv zeta. split.
  - rewrite <-Ev, H3. cbn. by eexists.
  - rewrite <-Ev. unfold view at 1. cbn. rewrite drop_0, <-H4. unfold view, r0. cbn. rewrite Hpos.
    destruct (Z.eqb_spec n 0); [lia|]. by rewrite drop_0.
Qed.

(** Peeking after a part of the buffer was taken gives that part again. *)
Lemma Peek_goes_back :
  let r := mkReadBuffer (-1) [1; 2; 3; 4] 2 in
  view r [5] = [3; 4; 5] /\ Peek 4 1 [([5], false)] r = Some (Some [3], [([5], false)], mkReadBuffer (-1) [1; 2; 3; 4] 0).
Proof. split; reflexivity. Qed.

(** A read that would overflow the buffer takes bytes from the stream and loses them. *)
Lemma overflow_loses : rbRead 4 [3; 4] false (mkReadBuffer 3 [1; 2] 2) = (Overflow, mkReadBuffer 3 [1; 2] 2).
Proof. reflexivity. Qed.

(** ** Writing to a reader that comes later *)

(** Where it writes: into memory, or to a writer by number. *)
Inductive sink := Memory (b : bytes) | Out (w : nat).
Inductive wbStage := none | start | ended.
#[export] Instance wbStage_dec : EqDecision wbStage.
Proof. solve_decision. Defined.

(** [sentTo] is what the writers got, [waits] the counter of the wait group. *)
Record WriteBuffer := mkWriteBuffer {
  wbSink : sink;
  wbErr : bool;
  stage : wbStage;
  waits : Z;
  sentTo : list (nat * bytes);
}.
#[export] Instance eta_WriteBuffer : Eta WriteBuffer := fun w =>
  mkWriteBuffer (wbSink w) (wbErr w) (stage w) (waits w) (sentTo w).

Definition NewWriteBuffer : WriteBuffer := mkWriteBuffer (Memory []) false none 0 [].

Definition wbAdd (w : WriteBuffer) : WriteBuffer :=
  if decide (stage w = none) then (w <| stage := start |>) <| waits := waits w + 1 |> else w.

(** [None] is the panic of a negative counter. *)
Definition wbDone (w : WriteBuffer) : option WriteBuffer :=
  if decide (stage w = start) then
    if waits w <=? 0 then None else Some ((w <| stage := ended |>) <| waits := waits w - 1 |>)
  else Some w.

(** A write to a writer: all of it, or an error behind the first [k] bytes. *)
Definition sendTo (o : nat) (p : bytes) (fails : option nat) (w : WriteBuffer) : bool * WriteBuffer :=
  match fails with
  | None => (true, w <| sentTo := sentTo w ++ [(o, p)] |>)
  | Some k => (false, w <| sentTo := sentTo w ++ [(o, take k p)] |>)
  end.

(** Whether it succeeded. *)
Definition wbWrite (p : bytes) (fails : option nat) (w : WriteBuffer) : option (bool * WriteBuffer) :=
  if wbErr w then Some (false, w) else
  match wbSink w with
  | Memory b => Some (true, w <| wbSink := Memory (b ++ p) |>)
  | Out o =>
      let '(ok, w) := sendTo o p fails w in
      if (ok : bool) then Some (true, w)
      else w ← wbDone (w <| wbErr := true |>); Some (false, w)
  end.

Definition resetTo (o : nat) (fails : option nat) (w : WriteBuffer) : option WriteBuffer :=
  let w := wbAdd w in
  w ← match wbSink w with
      | Memory b =>
          if len b =? 0 then Some w else
          let '(ok, w) := sendTo o b fails w in
          if (ok : bool) then Some w else wbDone (w <| wbErr := true |>)
      | Out _ => Some w
      end;
  Some (w <| wbSink := Out o |>).

(** [closer] says whether the writer can be closed. *)
Definition wbClose (closer : bool) (w : WriteBuffer) : option WriteBuffer :=
  match wbSink w with
  | Out _ => if closer then Some w else wbDone w
  | Memory _ => wbDone w
  end.

(** [WriteTo] goes on when this holds. *)
Definition released (w : WriteBuffer) : bool := waits w =? 0.

(** Calls in any order; [offered] is what was written as long as there was no error. *)
Inductive wbReach : WriteBuffer -> bytes -> Prop :=
  | wb_new : wbReach NewWriteBuffer []
  | wb_write w offered p fails ok w' :
      wbReach w offered -> wbWrite p fails w = Some (ok, w') ->
      wbReach w' (if wbErr w then offered else offered ++ p)
  | wb_reset w offered o fails w' :
      wbReach w offered -> resetTo o fails w = Some w' -> wbReach w' offered
  | wb_close w offered closer w' :
      wbReach w offered -> wbClose closer w = Some w' -> wbReach w' offered.

Definition sentBytes (w : WriteBuffer) : bytes := concat (map snd (sentTo w)).
Definition kept (w : WriteBuffer) : bytes := match wbSink w with Memory b => b | Out _ => [] end.

Record wb_inv (w : WriteBuffer) (offered : bytes) : Prop := {
  wi_waits : waits w = if decide (stage w = start) then 1 else 0;
  wi_all : wbErr w = false -> sentBytes w ++ kept w = offered;
  wi_prefix : exists rest, offered = sentBytes w ++ rest;
  wi_err : wbErr w = true -> exists o, wbSink w = Out o;
  wi_ended : wbErr w = true -> stage w = ended;
  wi_out : forall o, wbSink w = Out o -> stage w <> none;
  wi_mem : forall b, wbSink w = Memory b -> sentTo w = [];
}.

Definition waiting (w : WriteBuffer) : Prop := waits w = if decide (stage w = start) then 1 else 0.

Lemma wbDone_ok w : waiting w ->
  exists w', wbDone w = Some w' /\ waiting w' /\ stage w' = (if decide (stage w = start) then ended else stage w)
    /\ sentTo w' = sentTo w /\ wbSink w' = wbSink w /\ wbErr w' = wbErr w.
Proof.
  unfold waiting. intros H. unfold wbDone. destruct (decide (stage w = start)) as [E|E].
  - rewrite H. cbn. eexists. split; [reflexivity|]. by split_and!.
  - exists w. split; [done|]. rewrite decide_False by done. by split_and!.
Qed.

Lemma sentBytes_snoc w o p w' : sentTo w' = sentTo w ++ [(o, p)] -> sentBytes w' = sentBytes w ++ p.
Proof. intros E. unfold sentBytes. rewrite E, map_app, concat_app. cbn. by rewrite app_nil_r. Qed.

Lemma wbWrite_inv w offered p fails : wb_inv w offered ->
  exists ok w', wbWrite p fails w = Some (ok, w') /\ wb_inv w' (if wbErr w then offered else offered ++ p).
Proof.
  intros [H1 H2 (rest & H3) H4 H4' H4o H5]. unfold wbWrite. destruct (wbErr w) eqn:He.
  { exists false, w. split; [done|]. constructor; try done; [congruence|by exists rest|auto|auto]. }
  specialize (H2 eq_refl). unfold kept in H2. destruct (wbSink w) as [b|o] eqn:Hs.
  - exists true. eexists. split; [reflexivity|].
    assert (sentBytes w = []) as E0 by (unfold sentBytes; by rewrite (H5 b eq_refl)).
    constructor; cbn; try done; try congruence.
    + intros _. unfold sentBytes, kept in *. cbn. rewrite E0 in *. cbn in *. by rewrite H2.
    + exists (offered ++ p). unfold sentBytes in *. cbn. by rewrite E0.
    + intros b' _. by apply (H5 b).
  - rewrite app_nil_r in H2. pose proof (H4o o eq_refl) as Hst. destruct fails as [k|]; cbn [sendTo].
    + match goal with |- context [wbDone ?x] => destruct (wbDone_ok x) as (w' & E & Hw & Hst' & Hsent & Hsk & Herr); [exact H1|] end.
      rewrite E. cbn [mbind option_bind]. exists false, w'. split; [done|]. cbn in Hst', Hsent, Hsk, Herr.
      pose proof (sentBytes_snoc w o (take k p) w' Hsent) as Eb.
      assert (stage w' = ended) as Hend by (rewrite Hst'; destruct (decide _); [done|by destruct (stage w)]).
      constructor; [done|congruence| | |done| |].
      * exists (drop k p). by rewrite Eb, H2, <-app_assoc, take_drop.
      * intros _. exists o. congruence.
      * intros o' _. by rewrite Hend.
      * intros b Hb. congruence.
    + exists true. eexists. split; [reflexivity|].
      assert (sentBytes (w <| sentTo := sentTo w ++ [(o, p)] |>) = offered ++ p) as Eb.
      { rewrite (sentBytes_snoc w o p) by done. by rewrite H2. }
      constructor; cbn; try done; try congruence.
      * intros _. unfold kept. cbn. rewrite Hs, app_nil_r. exact Eb.
      * exists []. rewrite app_nil_r. symmetry. exact Eb.
Qed.

Lemma resetTo_inv w offered o fails : wb_inv w offered ->
  exists w', resetTo o fails w = Some w' /\ wb_inv w' offered.
Proof.
  intros [H1 H2 (rest & H3) H4 H4' H4o H5]. unfold resetTo. set (w1 := wbAdd w).
  assert (waiting w1 /\ wbSink w1 = wbSink w /\ wbErr w1 = wbErr w /\ sentTo w1 = sentTo w
    /\ stage w1 <> none /\ (wbErr w = true -> stage w1 = ended)) as (A1 & A2 & A3 & A4 & A5 & A6).
  { unfold w1, wbAdd, waiting. destruct (decide (stage w = none)) as [E|E].
    - cbn. rewrite H1, E. split_and!; try done. intros He. specialize (H4' He). congruence.
    - by split_and!. }
  clearbody w1. rewrite A2.
  assert (sentBytes w1 = sentBytes w) as A7 by (unfold sentBytes; by rewrite A4).
  assert (forall w2, waiting w2 -> wbErr w2 = wbErr w -> sentBytes w2 = offered \/ wbErr w = true /\ sentBytes w2 = sentBytes w ->
    stage w2 <> none -> (wbErr w = true -> stage w2 = ended) ->
    exists w', Some (w2 <| wbSink := Out o |>) = Some w' /\ wb_inv w' offered) as Hfin.
  { intros w2 B1 B2 B3 B4 B5. eexists. split; [reflexivity|]. constructor; cbn; try done.
    - intros He. rewrite B2 in He. unfold kept. cbn. destruct B3 as [B3|[B3 _]]; [|congruence].
      unfold sentBytes in *. cbn. by rewrite app_nil_r.
    - destruct B3 as [B3|[_ B3]]; [exists []|exists rest]; unfold sentBytes in *; cbn; rewrite B3; [by rewrite app_nil_r|exact H3].
    - intros _. by exists o.
    - rewrite B2. auto. }
  unfold kept in H2. destruct (wbSink w) as [b|o1] eqn:Hs.
  - assert (wbErr w = false) as He by (destruct (wbErr w) eqn:He; [destruct (H4 eq_refl); congruence|done]).
    assert (sentBytes w = []) as E0 by (unfold sentBytes; by rewrite (H5 b eq_refl)).
    specialize (H2 He). rewrite E0 in H2. cbn in H2. subst b.
    destruct (Z.eqb_spec (len offered) 0) as [El|El].
    + assert (offered = []) as -> by (destruct offered; [done|rewrite len_cons in El; pose proof (len_nonneg offered); lia]).
      apply Hfin; try done. left. congruence.
    + destruct fails as [k|]; cbn [sendTo].
      * match goal with |- context [wbDone ?x] => destruct (wbDone_ok x) as (w' & E & Hw & Hst' & Hsent & Hsk & Herr); [exact A1|] end.
        rewrite E. cbn [mbind option_bind]. cbn in Hst', Hsent, Hsk, Herr. eexists. split; [reflexivity|].
        pose proof (sentBytes_snoc w1 o (take k offered) w' Hsent) as Eb. rewrite A7, E0 in Eb. cbn in Eb.
        assert (stage w' = ended) as Hend by (rewrite Hst'; destruct (decide (stage w1 = start)); [done|by destruct (stage w1)]).
        constructor; cbn; try done; try congruence.
        -- exists (drop k offered). unfold sentBytes in *. cbn. by rewrite Eb, take_drop.
        -- intros _. by exists o.
      * assert (sentBytes (w1 <| sentTo := sentTo w1 ++ [(o, offered)] |>) = offered) as Eb.
        { rewrite (sentBytes_snoc w1 o offered) by done. by rewrite A7, E0. }
        apply Hfin; try done. by left.
  - destruct (wbErr w) eqn:He.
    + apply Hfin; auto.
    + apply Hfin; try done. left. rewrite A7. specialize (H2 eq_refl). by rewrite app_nil_r in H2.
Qed.

Lemma wbClose_inv w offered closer : wb_inv w offered ->
  exists w', wbClose closer w = Some w' /\ wb_inv w' offered.
Proof.
  intros Hinv. pose proof Hinv as [H1 H2 (rest & H3) H4 H4' H4o H5].
  assert (exists w', wbDone w = Some w' /\ wb_inv w' offered) as Hd.
  { destruct (wbDone_ok w H1) as (w' & E & Hw & Hst & Hsent & Hsk & Herr). exists w'. split; [done|].
    constructor; unfold sentBytes, kept in *; rewrite ?Hsent, ?Hsk, ?Herr; try done.
    - by exists rest.
    - intros He. rewrite Hst, (H4' He). done.
    - intros o Ho. rewrite Hst. specialize (H4o o Ho). by destruct (decide _). }
  unfold wbClose. destruct (wbSink w); [done|]. destruct closer; [by exists w|done].
Qed.

(** Whatever calls are made, none panics; the writers get what was written, in order and
    without gaps, all of it as long as nothing failed and it is not in memory still; and
    after an error nobody waits. *)
Theorem writes_pass w offered : wbReach w offered ->
  (wbErr w = false -> sentBytes w ++ kept w = offered)
  /\ (exists rest, offered = sentBytes w ++ rest)
  /\ (wbErr w = true -> released w = true)
  /\ (forall p fails, is_Some (wbWrite p fails w))
  /\ (forall o fails, is_Some (resetTo o fails w))
  /\ (forall closer, is_Some (wbClose closer w)).
Proof.
  intros H. assert (wb_inv w offered) as Hinv.
  { induction H as [|w offered p fails ok w' _ IH E|w offered o fails w' _ IH E|w offered closer w' _ IH E].
    - constructor; try done. by exists [].
    - destruct (wbWrite_inv w offered p fails IH) as (ok1 & w1 & E1 & H1). rewrite E in E1. by injection E1 as <- <-.
    - destruct (resetTo_inv w offered o fails IH) as (w1 & E1 & H1). rewrite E in E1. by injection E1 as <-.
    - destruct (wbClose_inv w offered closer IH) as (w1 & E1 & H1). rewrite E in E1. by injection E1 as <-. }
  split_and!.
  - apply Hinv.
  - apply Hinv.
  - intros He. unfold released. rewrite (wi_waits _ _ Hinv), (wi_ended _ _ Hinv He). done.
  - intros p fails. destruct (wbWrite_inv w offered p fails Hinv) as (ok & w' & E & _). by rewrite E.
  - intros o fails. destruct (resetTo_inv w offered o fails Hinv) as (w' & E & _). by rewrite E.
  - intros closer. destruct (wbClose_inv w offered closer Hinv) as (w' & E & _). by rewrite E.
Qed.

Lemma writes_pass_witness :
  exists w, wbReach w [1; 2; 3] /\ sentTo w = [(7%nat, [1; 2]); (7%nat, [3])] /\ sentBytes w ++ kept w = [1; 2; 3].
Proof.
  exists (mkWriteBuffer (Out 7) false start 1 [(7%nat, [1; 2]); (7%nat, [3])]).
  assert (wbReach (mkWriteBuffer (Out 7) false start 1 [(7%nat, [1; 2]); (7%nat, [3])]) [1; 2; 3]) as H.
  { apply (wb_write (mkWriteBuffer (Out 7) false start 1 [(7%nat, [1; 2])]) [1; 2] [3] None true); [|reflexivity].
    apply (wb_reset (mkWriteBuffer (Memory [1; 2]) false none 0 []) [1; 2] 7 None); [|reflexivity].
    apply (wb_write NewWriteBuffer [] [1; 2] None true); [apply wb_new|reflexivity]. }
  split; [exact H|]. split; [reflexivity|]. destruct (writes_pass _ _ H) as [H1 _]. apply H1. reflexivity.
Defined.

(** Closing before anyone waits is forgotten: a later [WriteTo] waits all the same. *)
Lemma close_too_early :
  exists w w', wbClose false NewWriteBuffer = Some w /\ resetTo 0 None w = Some w' /\ released w' = false.
Proof. do 2 eexists. by split_and!. Qed.

(** ** The waiter *)

(** [wCount] is the counter of the wait group. *)
Record Waiter := mkWaiter { wState : Z; wCount : Z; wErr : option bytes }.
#[export] Instance eta_Waiter : Eta Waiter := fun w => mkWaiter (wState w) (wCount w) (wErr w).
Definition NewWaiter : Waiter := mkWaiter 0 0 None.

(** [None] is the panic of a negative counter. *)
Definition wgAdd (delta : Z) (w : Waiter) : option Waiter :=
  if wCount w + delta <? 0 then None else Some (w <| wCount := wCount w + delta |>).

Definition wAdd (delta : Z) (w : Waiter) : option Waiter :=
  if 0 <=? wState w then wgAdd delta (w <| wState := wState w + delta |>) else Some w.

(** [Wait] up to where it blocks until the counter is 0. *)
Definition waitStart (w : Waiter) : option Waiter :=
  if wState w =? 0 then wgAdd 1 (w <| wState := 1 |>) else Some w.

Definition waitReturns (w : Waiter) : option (option bytes) :=
  if wCount w =? 0 then Some (wErr w) else None.

Definition Done (err : option bytes) (w : Waiter) : option Waiter :=
  w ← (if 0 <? wState w then wgAdd (-1) (w <| wState := wState w - 1 |>) else Some w);
  Some (if wState w =? 0 then (w <| wState := -1 |>) <| wErr := err |> else w).

(** Whether there is a channel; the goroutine behind it calls [Wait]. *)
Definition WaitChan (w : Waiter) : bool := 0 <=? wState w.

Inductive waiterCall := CallAdd (delta : Z) | CallWait | CallDone (err : option bytes).

Definition waiterStep (c : waiterCall) (w : Waiter) : option Waiter :=
  match c with
  | CallAdd delta => wAdd delta w
  | CallWait => waitStart w
  | CallDone err => Done err w
  end.

Fixpoint waiterRun (cs : list waiterCall) (w : Waiter) : option Waiter :=
  match cs with [] => Some w | c :: cs => w ← waiterStep c w; waiterRun cs w end.

Definition waiter_inv (w : Waiter) : Prop := -1 <= wState w /\ wCount w = Z.max 0 (wState w).

Definition adds (c : waiterCall) : Prop := match c with CallAdd delta => 0 < delta | _ => True end.

Lemma waiterStep_inv c w : waiter_inv w -> adds c -> exists w', waiterStep c w = Some w' /\ waiter_inv w'
  /\ (wState w = -1 -> w' = w).
Proof.
  intros [H1 H2] Hc. unfold waiter_inv. destruct c as [delta| |err]; cbn [waiterStep adds] in *.
  - unfold wAdd, wgAdd. destruct (Z.leb_spec 0 (wState w)); [|exists w; split_and!; done || lia].
    cbn. rewrite (proj2 (Z.ltb_ge _ _)) by lia. eexists. split; [reflexivity|]. cbn. split; [lia|]. intros; lia.
  - unfold waitStart, wgAdd. destruct (Z.eqb_spec (wState w) 0) as [E|E]; [|exists w; split_and!; done || lia].
    cbn. rewrite (proj2 (Z.ltb_ge _ _)) by lia. eexists. split; [reflexivity|]. cbn. split; [lia|]. intros; lia.
  - unfold Done, wgAdd. destruct (Z.ltb_spec 0 (wState w)).
    + cbn. rewrite (proj2 (Z.ltb_ge _ _)) by lia. cbn. eexists. split; [reflexivity|].
      destruct (Z.eqb_spec (wState w - 1) 0); cbn; (split; [lia|intros; lia]).
    + cbn. eexists. split; [reflexivity|]. destruct (Z.eqb_spec (wState w) 0); cbn; (split; [lia|]); [intros; lia|done].
Qed.

(** Calls in any order, with positive additions, never panic; a waiter goes on exactly when
    there is nothing to wait for, and once it ended nothing changes any more. *)
Lemma waiter_safe cs : forall w, waiter_inv w -> Forall adds cs ->
  exists w', waiterRun cs w = Some w' /\ waiter_inv w' /\ (wState w = -1 -> w' = w)
    /\ (is_Some (waitReturns w') <-> wState w' <= 0).
Proof.
  induction cs as [|c cs IH]; intros w Hw Hcs.
  - exists w. split_and!; [done|done|done|]. destruct Hw as [H1 H2]. unfold waitReturns. rewrite H2.
    destruct (Z.eqb_spec (Z.max 0 (wState w)) 0); split; intros H; try lia; [by eexists|by destruct H].
  - apply Forall_cons in Hcs as [Hc Hcs]. destruct (waiterStep_inv c w Hw Hc) as (w1 & E1 & H1 & K1).
    destruct (IH w1 H1 Hcs) as (w2 & E2 & H2 & K2 & R2). exists w2. cbn [waiterRun]. rewrite E1. cbn.
    split_and!; try done. intros H. specialize (K1 H). subst w1. auto.
Qed.
