(* ===== verification/Hevc.v ===== *)
(** H.265 access units ([pkg/h265]: helper.go, avcc.go, payloader.go, rtp.go): the codec
    line, the RTP payloads of RFC 7798, the depacketiser, and the packets for Safari.  A
    reference receiver says what the payloads mean.  [None] is a run-time panic, an
    outer one in a loop is running out of fuel. *)

From S2P Require Import Prelude Text Annexb Codec Producer Rtp Depay.
From S2P Require TutkSession.
Import TutkSession(put, copyAt, make).

(** ** Units and the codec line *)

Definition hevcPFrame : Z := 1.
Definition hevcIFrame : Z := 19.
Definition hevcIFrame2 : Z := 20.
Definition hevcIFrame3 : Z := 21.
Definition hevcVPS : Z := 32.
Definition hevcSPS : Z := 33.
Definition hevcPPS : Z := 34.
Definition hevcPrefixSEI : Z := 39.
Definition hevcSuffixSEI : Z := 40.
Definition hevcFU : Z := 49.

(** The type in the first byte of a unit. *)
Definition hevcType (b0 : Z) : Z := Z.land (Z.shiftr b0 1) 0x3F.
Definition hevcNALUType (b : bytes) : option Z := c ← rd b 4; Some (hevcType c).

Definition isIFrame (t : Z) : bool := (t =? hevcIFrame) || (t =? hevcIFrame2) || (t =? hevcIFrame3).

Fixpoint hevcKeyLoop (fuel : nat) (b : bytes) : option (option bool) :=
  match fuel with
  | O => None
  | S fuel =>
      match hevcNALUType b with
      | None => Some None
      | Some t =>
          if t =? hevcPFrame then Some (Some false)
          else if isIFrame t then Some (Some true)
          else match beLoad b with
               | None => Some None
               | Some n =>
                   let size := n + 4 in
                   if size <? len b then hevcKeyLoop fuel (drop (Z.to_nat size) b)
                   else Some (Some false)
               end
      end
  end.
Definition hevcIsKeyframe (b : bytes) : option bool := default None (hevcKeyLoop (S (length b)) b).

Fixpoint hevcTypesLoop (fuel : nat) (data : bytes) : option (option (list Z)) :=
  match fuel with
  | O => None
  | S fuel =>
      match hevcNALUType data, beLoad data with
      | Some t, Some n =>
          let size := 4 + n in
          if size <? len data
          then r ← hevcTypesLoop fuel (drop (Z.to_nat size) data); Some (tl ← r; Some (t :: tl))
          else Some (Some [t])
      | _, _ => Some None
      end
  end.
Definition hevcTypes (data : bytes) : option (list Z) :=
  default None (hevcTypesLoop (S (length data)) data).

Definition hevcParameterSets (fmtp : bytes) : bytes * bytes * bytes :=
  if len fmtp =? 0 then ([], [], []) else
  let get key := fst (b64Decode (Between fmtp key (str ";"))) in
  (get (str "sprop-vps="), get (str "sprop-sps="), get (str "sprop-pps=")).

(** The sets with their lengths. *)
Definition hevcPS (fmtp : bytes) : bytes :=
  let '(vps, sps, pps) := hevcParameterSets fmtp in JoinNALU [vps; sps; pps].

Definition hevcRepairAVCC (fmtp payload : bytes) : option bytes :=
  let ps := hevcPS fmtp in
  t ← hevcNALUType payload;
  Some (if isIFrame t then Join ps payload else payload).

(** What a unit adds to the line; [spare] is the memory between the length and the
    capacity of the slice. *)
Definition hevcCodecPiece (avcc spare : bytes) (size t : Z) : option bytes :=
  let key := if t =? hevcVPS then Some (str ";sprop-vps=")
             else if t =? hevcSPS then Some (str ";sprop-sps=")
             else if t =? hevcPPS then Some (str ";sprop-pps=") else None in
  match key with
  | Some k => set ← sub (avcc ++ spare) 4 size; Some (k ++ b64Encode set)
  | None => Some []
  end.

Fixpoint hevcCodecLoop (fuel : nat) (avcc spare buf : bytes) : option (option bytes) :=
  match fuel with
  | O => None
  | S fuel =>
      match beLoad avcc, hevcNALUType avcc with
      | Some n, Some t =>
          let size := 4 + n in
          match hevcCodecPiece avcc spare size t with
          | None => Some None
          | Some text =>
              let buf := buf ++ text in
              if size <? len avcc then hevcCodecLoop fuel (drop (Z.to_nat size) avcc) spare buf
              else Some (Some buf)
          end
      | _, _ => Some None
      end
  end.
Definition hevcAVCCToCodec (avcc spare : bytes) : option bytes :=
  default None (hevcCodecLoop (S (length avcc)) avcc spare (str "profile-id=1")).

(** ** Headers of RFC 7798 *)

Definition h265NaluHeaderSize : Z := 2.
Definition h265NaluAggregationPacketType : Z := 48.
Definition h265NaluFragmentationUnitType : Z := 49.
Definition h265NaluPACIPacketType : Z := 50.
Definition h265FragmentationUnitHeaderSize : Z := 1.

(** A header is a 16-bit word. *)
Definition newH265NALUHeader (highByte lowByte : Z) : Z := Z.lor (u16 (Z.shiftl highByte 8)) lowByte.
Definition headerF (h : Z) : bool := negb (Z.shiftr h 15 =? 0).
Definition headerType (h : Z) : Z := u8 (Z.shiftr (Z.land h (Z.shiftl 0x7E 8)) 9).
Definition IsTypeVCLUnit (h : Z) : bool := Z.land (headerType h) 0x20 =? 0.
Definition LayerID (h : Z) : Z := u8 (Z.shiftr (Z.land h (Z.lor (Z.shiftl 1 8) 0xF8)) 3).
Definition TID (h : Z) : Z := u8 (Z.land h 7).
Definition IsAggregationPacket (h : Z) : bool := headerType h =? h265NaluAggregationPacketType.
Definition IsFragmentationUnit (h : Z) : bool := headerType h =? h265NaluFragmentationUnitType.
Definition IsPACIPacket (h : Z) : bool := headerType h =? h265NaluPACIPacketType.

Definition fuS (h : Z) : bool := negb (Z.shiftr (Z.land h 0x80) 7 =? 0).
Definition fuE (h : Z) : bool := negb (Z.shiftr (Z.land h 0x40) 6 =? 0).
Definition FuType (h : Z) : Z := Z.land h 0x3F.

(** The header of a unit's first two bytes. *)
Definition unitHeader265 (nalu : bytes) : option Z :=
  hi ← rd nalu 0; lo ← rd nalu 1; Some (newH265NALUHeader hi lo).

(** ** Payloads *)

Record HPayloader := mkHPayloader { AddDONL : bool; SkipAggregation : bool; donl : Z }.

(** The variables of [Payload] that its closures share. *)
Record hstate := mkHstate {
  bufferedNALUs : list bytes;
  aggregationBufferSize : Z;
  payloads : list bytes;
  hdonl : Z;
}.
#[export] Instance eta_hstate : Eta hstate := fun s =>
  mkHstate (bufferedNALUs s) (aggregationBufferSize s) (payloads s) (hdonl s).

(** The header of an aggregation packet has the lowest layer and temporal identifier. *)
Definition lowest (f : Z -> Z) (headers : list Z) : Z := foldl (fun m h => if f h <? m then f h else m) 255 headers.

Fixpoint aggregateLoop (addDONL : bool) (dn i index : Z) (nalus : list bytes) (buf : bytes) : option bytes :=
  match nalus with
  | [] => Some buf
  | nalu :: nalus =>
      '(buf, index) ← (if addDONL then
                         if i =? 0 then b ← put index (be16 dn) buf; Some (b, index + 2)
                         else b ← put index [u8 (i - 1)] buf; Some (b, index + 1)
                       else Some (buf, index));
      buf ← put index (be16 (u16 (len nalu))) buf;
      let index := index + 2 in
      let copied := Z.min (len nalu) (len buf - index) in
      buf ← copyAt index nalu buf;
      aggregateLoop addDONL dn (i + 1) (index + copied) nalus buf
  end.

Definition flushBufferedNals (addDONL : bool) (s : hstate) : option hstate :=
  match bufferedNALUs s with
  | [] => Some s
  | [nalu] =>
      '(buf, dn) ← (if addDONL then
                      h ← sub nalu 0 h265NaluHeaderSize;
                      rest ← sub nalu h265NaluHeaderSize (len nalu);
                      Some (h ++ be16 (hdonl s) ++ rest, u16 (hdonl s + 1))
                    else Some (nalu, hdonl s));
      Some (mkHstate [] 0 (payloads s ++ [buf]) dn)
  | nalus =>
      headers ← mapM unitHeader265 nalus;
      buf ← put 0 (be16 (Z.lor (Z.lor (Z.shiftl h265NaluAggregationPacketType 9)
                                     (u16 (Z.shiftl (lowest LayerID headers) 3)))
                              (lowest TID headers)))
              (make (aggregationBufferSize s + 2));
      buf ← aggregateLoop addDONL (hdonl s) 0 2 nalus buf;
      Some (mkHstate [] 0 (payloads s ++ [buf]) (hdonl s))
  end.

(** The fragments of what is left of a unit; [total] is what there was behind the header. *)
Fixpoint fragments265 (fuel : nat) (addDONL : bool) (hi lo ty maxSize total dn : Z) (data : bytes)
    : list bytes * Z :=
  match fuel with
  | O => ([], dn)
  | S fuel =>
      let remaining := len data in
      if remaining <=? 0 then ([], dn) else
      let current := Z.min maxSize remaining in
      let b0 := Z.lor (Z.land hi 0x81) (Z.shiftl h265NaluFragmentationUnitType 1) in
      let b2 := if remaining =? total then Z.lor ty 0x80
                else if remaining - current =? 0 then Z.lor ty 0x40
                else ty in
      let out := [b0; lo; b2] ++ (if addDONL then be16 dn else []) ++ take (Z.to_nat current) data in
      let '(rest, dn) := fragments265 fuel addDONL hi lo ty maxSize total
                           (if addDONL then u16 (dn + 1) else dn) (drop (Z.to_nat current) data) in
      (out :: rest, dn)
  end.

(** The callback for one unit.  Without room for a fragment's header the packet made for
    it is too short for the header. *)
Definition payloadUnit (p : HPayloader) (mtu : Z) (nalu : bytes) (s : hstate) : option hstate :=
  if len nalu =? 0 then Some s else
  if len nalu <=? mtu then
    let marginal := len nalu + 2 + (if AddDONL p then 1 else 0) in
    s ← (if mtu <? aggregationBufferSize s + marginal then flushBufferedNals (AddDONL p) s else Some s);
    let s := s <| bufferedNALUs := bufferedNALUs s ++ [nalu] |>
               <| aggregationBufferSize := aggregationBufferSize s + marginal |> in
    if SkipAggregation p then flushBufferedNals (AddDONL p) s else Some s
  else
    let fuHeaderSize := h265FragmentationUnitHeaderSize + 2 + (if AddDONL p then 2 else 0) in
    let maxSize := mtu - fuHeaderSize in
    hi ← rd nalu 0; lo ← rd nalu 1;
    let data := drop 2 nalu in
    if (maxSize =? 0) || (len data =? 0) then Some s else
    s ← flushBufferedNals (AddDONL p) s;
    if maxSize <? 0 then None else
    let '(fs, dn) := fragments265 (length data) (AddDONL p) hi lo
                       (headerType (newH265NALUHeader hi lo)) maxSize (len data) (hdonl s) data in
    Some (s <| payloads := payloads s ++ fs |> <| hdonl := dn |>).

Fixpoint payloadUnits (p : HPayloader) (mtu : Z) (nalus : list bytes) (s : hstate) : option hstate :=
  match nalus with
  | [] => Some s
  | n :: nalus => s ← payloadUnit p mtu n s; payloadUnits p mtu nalus s
  end.

Definition hevcPayload (p : HPayloader) (mtu : Z) (payload : bytes) : option (list bytes * HPayloader) :=
  if len payload =? 0 then Some ([], p) else
  nalus ← EmitNalus payload true;
  s ← payloadUnits p mtu nalus (mkHstate [] 0 [] (donl p));
  s ← flushBufferedNals (AddDONL p) s;
  Some (payloads s, mkHPayloader (AddDONL p) (SkipAggregation p) (hdonl s)).

(** ** The depacketiser *)

Record HDepay := mkHDepay { dbuf : bytes; nuStart : Z; seqNum : Z }.
#[export] Instance eta_HDepay : Eta HDepay := fun d => mkHDepay (dbuf d) (nuStart d) (seqNum d).

Definition newHDepay : HDepay := mkHDepay [] 0 0.

(** Behind a unit: the access unit, if the packet has the marker. *)
Definition collected (marker : bool) (packet : rtpPacket) (d : HDepay) : option rtpPacket * HDepay :=
  if negb marker then (None, d)
  else (Some (mkRTP RTPPacketVersionAVC marker (SequenceNumber packet) (rtpTimestamp packet) (dbuf d)),
        d <| dbuf := [] |>).

(** A payload of at least 3 bytes that starts with [d0 d1 d2]; [rest] is what follows
    them. *)
Definition depayData (ps : bytes) (marker : bool) (packet : rtpPacket) (d0 d1 d2 : Z) (rest : bytes) (d : HDepay)
    : option (option rtpPacket * HDepay) :=
  let header t := [Z.lor (Z.land d0 0x81) (u8 (Z.shiftl t 1)); d1] in
  if hevcType d0 =? hevcFU then
    let t := Z.land d2 0x3F in
    let part := Z.shiftr d2 6 in
    if part =? 2 then
      let buf := if (len (dbuf d) =? 0) && (19 <=? t) && (t <=? 21) then dbuf d ++ ps else dbuf d in
      Some (None, d <| nuStart := len buf |> <| dbuf := buf ++ zeros 4 ++ header t ++ rest |>)
    else if part =? 0 then
      Some (None, if len (dbuf d) =? 0 then d else d <| dbuf := dbuf d ++ rest |>)
    else if part =? 1 then
      if len (dbuf d) =? 0 then Some (None, d) else
      let buf := dbuf d ++ rest in
      if len buf + 4 <? nuStart d then Some (None, d <| dbuf := [] |>) else
      buf ← put (nuStart d) (be32 (u32 (len buf - nuStart d - 4))) buf;
      Some (collected marker packet (d <| dbuf := buf |>))
    else
      Some (collected marker packet
        (d <| dbuf := dbuf d ++ be32 (u32 (u32 (3 + len rest) - 1)) ++ header t ++ rest |>))
  else
    let data := d0 :: d1 :: d2 :: rest in
    Some (collected marker packet (d <| dbuf := dbuf d ++ be32 (u32 (len data)) ++ data |>)).

(** One packet: what the handler gets, and the new state.  The marker that is taken off a
    packet with a parameter set is also off for whoever else has the packet. *)
Definition hevcRTPDepay (ps : bytes) (packet : rtpPacket) (d : HDepay) : option (option rtpPacket * HDepay) :=
  match rtpPayload packet with
  | d0 :: d1 :: d2 :: rest =>
      let t := hevcType d0 in
      let small := Marker packet && (len (rtpPayload packet) <? PSMaxSize) in
      if small && ((t =? hevcPrefixSEI) || (t =? hevcSuffixSEI)) then Some (None, d) else
      let marker := if small && ((t =? hevcVPS) || (t =? hevcSPS) || (t =? hevcPPS)) then false
                    else Marker packet in
      if (0 <? len (dbuf d)) && negb (u16 (SequenceNumber packet - seqNum d) =? 1) then
        Some (None, d <| dbuf := [] |>)
      else depayData ps marker packet d0 d1 d2 rest (d <| seqNum := SequenceNumber packet |>)
  | _ => Some (None, d)
  end.

Fixpoint hevcDepayAll (ps : bytes) (packets : list rtpPacket) (d : HDepay)
    : option (list rtpPacket * HDepay) :=
  match packets with
  | [] => Some ([], d)
  | k :: rest =>
      '(r, d) ← hevcRTPDepay ps k d; '(out, d) ← hevcDepayAll ps rest d;
      Some (match r with Some o => o :: out | None => out end, d)
  end.

(** ** The packetisers *)

Section pay.
Context {Seq : Type} (NextSequenceNumber : Seq -> Z * Seq).

Definition hevcRTPPay (mtu : Z) (packet : rtpPacket) (s : HPayloader * Seq)
    : option (list rtpPacket * (HPayloader * Seq)) :=
  if negb (Version packet =? RTPPacketVersionAVC) then Some ([packet], s) else
  '(payloads, p) ← hevcPayload s.1 (payMTU mtu) (rtpPayload packet);
  let '(packets, q) := rtpPackets NextSequenceNumber (rtpTimestamp packet) payloads s.2 in
  Some (packets, (p, q)).

(** Start codes in place of the lengths, from index [i] on, which is where [au] starts. *)
Fixpoint safariMark (fuel : nat) (au : bytes) (start : Z) : option (option (bytes * Z)) :=
  match fuel with
  | O => None
  | S fuel =>
      match au with
      | [] => Some (Some ([], start))
      | _ =>
          match beLoad au, hevcNALUType au with
          | Some n, Some t =>
              let size := Z.to_nat (n + 4) in
              let start := if isIFrame t then 3 else if start =? 0 then 2 else start in
              let unit := [0; 0; 0; 1] ++ drop 4 (take size au) in
              r ← safariMark fuel (drop size au) start;
              Some ('(rest, start) ← r; Some (unit ++ rest, start))
          | _, _ => Some None
          end
      end
  end.

(** The packets of at most [size] bytes behind the first; a [size] of 0 goes on for
    ever.  Each payload is what it is when the handler is called: they share a buffer. *)
Fixpoint safariCut (fuel : nat) (size ts start : Z) (au : bytes) (q : Seq) : option (list rtpPacket * Seq) :=
  match fuel with
  | O => None
  | S fuel =>
      let b0 := start in
      let start := if 1 <? start then start - 2 else start in
      let '(n, q) := NextSequenceNumber q in
      if size <? len au then
        '(rest, q) ← safariCut fuel size ts start (drop (Z.to_nat size) au) q;
        Some (mkRTP 2 false n ts (b0 :: take (Z.to_nat size) au) :: rest, q)
      else Some ([mkRTP 2 true n ts (b0 :: au)], q)
  end.

Definition safariSize (mtu : Z) : Z := u16 (mtu - 12).

(** The state is [size] and the sequencer's; the size goes down with every access unit.
    The outer [None] is not coming back. *)
Definition SafariPay (packet : rtpPacket) (s : Z * Seq) : option (option (list rtpPacket * (Z * Seq))) :=
  if negb (Version packet =? RTPPacketVersionAVC) then Some (Some ([packet], s)) else
  r ← safariMark (S (length (rtpPayload packet))) (rtpPayload packet) 0;
  match r with
  | None => Some None
  | Some (au, start) =>
      if s.1 <? 1 then Some None else
      let size := s.1 - 1 in
      '(packets, q) ← safariCut (S (length au)) size (rtpTimestamp packet) start au s.2;
      Some (Some (packets, (size, q)))
  end.
End pay.

(** ** The reference receiver (RFC 7798)

    One payload: the complete units, and the unit being put together.  A unit in
    fragments is not interrupted. *)
Definition receive265 (payload : bytes) (partial : option bytes) : option (list bytes * option bytes) :=
  match payload with
  | h0 :: h1 :: rest =>
      let t := hevcType h0 in
      if t =? 49 then
        match rest with
        | f :: data =>
            let unit :=
              match Z.testbit f 7, partial with
              | true, None => Some (Z.lor (Z.land h0 0x81) (Z.shiftl (Z.land f 0x3F) 1) :: h1 :: data)
              | false, Some p => Some (p ++ data)
              | _, _ => None
              end in
            match unit with
            | None => None
            | Some u => if Z.testbit f 6 then Some ([u], None) else Some ([], Some u)
            end
        | [] => None
        end
      else match partial with
           | Some _ => None
           | None =>
               if t =? 48 then us ← aggregated (length rest) rest; Some (us, None)
               else if t <? 48 then Some ([payload], None) else None
           end
  | _ => None
  end.

Fixpoint receiveAll265 (payloads : list bytes) (partial : option bytes) : option (list bytes * option bytes) :=
  match payloads with
  | [] => Some ([], partial)
  | p :: rest =>
      '(us, partial) ← receive265 p partial;
      '(vs, partial) ← receiveAll265 rest partial; Some (us ++ vs, partial)
  end.

Example two_units_one_packet :
  hevcPayload (mkHPayloader false false 0) 100 (avccUnits [[0x40; 1; 7]; [0x42; 1; 8; 9]]) =
  Some ([[0x60; 1; 0; 3; 0x40; 1; 7; 0; 4; 0x42; 1; 8; 9]], mkHPayloader false false 0).
Proof. vm_compute. reflexivity. Qed.
Example fragments_of_a_unit :
  hevcPayload (mkHPayloader false false 0) 6 (avccUnits [[0x26; 1; 1; 2; 3; 4; 5]]) =
  Some ([[0x62; 1; 0x93; 1; 2; 3]; [0x62; 1; 0x53; 4; 5]], mkHPayloader false false 0).
Proof. vm_compute. reflexivity. Qed.
Example safari_bytes :
  SafariPay (fun q => (q, q + 1)) (mkRTP 0 false 7 900 (avccUnits [[0x26; 1; 2]; [0x28; 3]])) (8, 5) =
  Some (Some ([mkRTP 2 false 5 900 [3; 0; 0; 0; 1; 0x26; 1; 2]; mkRTP 2 true 6 900 [1; 0; 0; 0; 1; 0x28; 3]], (7, 7))).
Proof. vm_compute. reflexivity. Qed.
