(* ===== verification/HevcFacts.v ===== *)
(** H.265 over RTP: a receiver that follows RFC 7798 gets the units that went into the
    packets, and the depacketiser puts an access unit together again. *)

From S2P Require Import Prelude Text Annexb Codec Producer Rtp Depay Hevc.
From S2P Require TutkSession.
Import TutkSession(put, copyAt, make).

(** ** Headers *)

Lemma range_cases (k : Z) (P : Z -> bool) b :
  forallb P (seqZ 0 k) = true -> 0 <= b < k -> P b = true.
Proof.
  intros H Hb. rewrite forallb_forall in H. apply H. apply list_elem_of_In, elem_of_seqZ. lia.
Qed.
Arguments range_cases k P b : clear implicits.

(** What a property of two small numbers is checked by. *)
Lemma range_cases2 (k l : Z) (P : Z -> Z -> bool) a b :
  forallb (fun a => forallb (P a) (seqZ 0 l)) (seqZ 0 k) = true -> 0 <= a < k -> 0 <= b < l -> P a b = true.
Proof.
  intros H Ha Hb. pose proof (range_cases k _ a H Ha) as H1. cbv beta in H1. by apply (range_cases l (P a)).
Qed.
Arguments range_cases2 k l P a b : clear implicits.

Lemma header_type hi lo : is_byte hi -> is_byte lo -> headerType (newH265NALUHeader hi lo) = hevcType hi.
Proof.
  intros Hh Hl. apply Z.eqb_eq.
  apply (range_cases2 256 256 (fun hi lo => headerType (newH265NALUHeader hi lo) =? hevcType hi)); [|done..].
  vm_compute. reflexivity.
Qed.

Lemma header_ids hi lo : is_byte hi -> is_byte lo ->
  0 <= LayerID (newH265NALUHeader hi lo) < 64 /\ 0 <= TID (newH265NALUHeader hi lo) < 8.
Proof.
  intros Hh Hl.
  assert (let h := newH265NALUHeader hi lo in
    (0 <=? LayerID h) && (LayerID h <? 64) && ((0 <=? TID h) && (TID h <? 8)) = true) as H; [|cbv zeta in H; lia].
  apply (range_cases2 256 256 (fun hi lo => let h := newH265NALUHeader hi lo in
    (0 <=? LayerID h) && (LayerID h <? 64) && ((0 <=? TID h) && (TID h <? 8)))); [|done..].
  vm_compute. reflexivity.
Qed.

Definition aggregateHeader (layer tid : Z) : bytes :=
  be16 (Z.lor (Z.lor (Z.shiftl h265NaluAggregationPacketType 9) (u16 (Z.shiftl layer 3))) tid).
Lemma aggregate_type layer tid : 0 <= layer < 64 -> 0 <= tid < 8 ->
  hevcType (hd 0 (aggregateHeader layer tid)) = 48.
Proof.
  intros Hl Ht. apply Z.eqb_eq.
  apply (range_cases2 64 8 (fun l t => hevcType (hd 0 (aggregateHeader l t)) =? 48)); [|done..].
  vm_compute. reflexivity.
Qed.

(** The first byte of a fragment and its header, for each place in the unit. *)
Definition fuHead (hi : Z) : Z := Z.lor (Z.land hi 0x81) (Z.shiftl h265NaluFragmentationUnitType 1).
Lemma fragment_bits hi : is_byte hi ->
  let t := hevcType hi in
  hevcType (fuHead hi) = 49
  /\ Z.lor (Z.land (fuHead hi) 0x81) (Z.shiftl (Z.land (Z.lor t 0x80) 0x3F) 1) = hi
  /\ (Z.testbit (Z.lor t 0x80) 7 = true /\ Z.testbit (Z.lor t 0x80) 6 = false)
  /\ (Z.testbit (Z.lor t 0x40) 7 = false /\ Z.testbit (Z.lor t 0x40) 6 = true)
  /\ (Z.testbit t 7 = false /\ Z.testbit t 6 = false)
  /\ (Z.shiftr (Z.lor t 0x80) 6 = 2 /\ Z.shiftr (Z.lor t 0x40) 6 = 1 /\ Z.shiftr t 6 = 0)
  /\ Z.land (Z.lor t 0x80) 0x3F = t
  /\ Z.lor (Z.land (fuHead hi) 0x81) (u8 (Z.shiftl t 1)) = hi.
Proof.
  intros Hh. cbv zeta. set (P := fun hi => let t := hevcType hi in
    (hevcType (fuHead hi) =? 49)
    && (Z.lor (Z.land (fuHead hi) 0x81) (Z.shiftl (Z.land (Z.lor t 0x80) 0x3F) 1) =? hi)
    && (Z.testbit (Z.lor t 0x80) 7 && negb (Z.testbit (Z.lor t 0x80) 6))
    && (negb (Z.testbit (Z.lor t 0x40) 7) && Z.testbit (Z.lor t 0x40) 6)
    && (negb (Z.testbit t 7) && negb (Z.testbit t 6))
    && ((Z.shiftr (Z.lor t 0x80) 6 =? 2) && (Z.shiftr (Z.lor t 0x40) 6 =? 1) && (Z.shiftr t 6 =? 0))
    && (Z.land (Z.lor t 0x80) 0x3F =? t)
    && (Z.lor (Z.land (fuHead hi) 0x81) (u8 (Z.shiftl t 1)) =? hi)).
  assert (P hi = true) as H by (apply (range_cases 256 P); [vm_compute; reflexivity|done]).
  unfold P in H. rewrite !andb_true_iff, !negb_true_iff, !Z.eqb_eq in H. tauto.
Qed.

Lemma lowest_bound f hs k : hs <> [] -> k <= 255 -> Forall (fun h => 0 <= f h < k) hs -> 0 <= lowest f hs < k.
Proof.
  intros Hne Hk H. unfold lowest.
  assert (forall hs m, Forall (fun h => 0 <= f h < k) hs -> 0 <= m <= 255 -> (m < k \/ hs <> []) ->
    0 <= foldl (fun m h => if f h <? m then f h else m) m hs < k) as G; [|apply G; [done|lia|by right]].
  clear H Hne hs. induction hs as [|h hs IH]; intros m H Hm Hor; cbn [foldl].
  - destruct Hor; [lia|done].
  - apply Forall_cons in H as [Hh H]. apply IH; [done| |]; destruct (Z.ltb_spec (f h) m); lia.
Qed.

(** ** Aggregation packets *)

Lemma put_mid pre mid post src : length src = length mid ->
  put (len pre) src (pre ++ mid ++ post) = Some (pre ++ src ++ post).
Proof.
  intros H. unfold put. rewrite (proj2 (Z.leb_le _ _)) by apply len_nonneg.
  rewrite !len_app. unfold len at 2 4. rewrite H. pose proof (len_nonneg post).
  rewrite (proj2 (Z.leb_le _ _)) by (unfold len in *; lia). cbn [andb]. f_equal.
  unfold blit, len. rewrite Nat2Z.id, take_app_length. f_equal. rewrite !length_app.
  rewrite take_ge by lia. f_equal. rewrite app_assoc, drop_app_length'; [done|]. rewrite length_app. lia.
Qed.

Lemma copyAt_mid pre mid post src : length src = length mid ->
  copyAt (len pre) src (pre ++ mid ++ post) = Some (pre ++ src ++ post).
Proof.
  intros H. pose proof (put_mid pre mid post src H) as E. unfold put in E. unfold copyAt.
  destruct (_ && _) eqn:Hc in E; [|done]. apply andb_true_iff in Hc as [H1 _]. rewrite H1.
  rewrite (proj2 (Z.leb_le _ _)) by (rewrite len_app; pose proof (len_nonneg (mid ++ post)); lia). exact E.
Qed.

Lemma sized_be n : len n < 65536 -> sized n = be16 (u16 (len n)) ++ n.
Proof.
  intros H. pose proof (len_nonneg n). unfold sized, be16. rewrite Z.shiftr_div_pow2 by lia.
  rewrite (u16_small (len n)) by (unfold is_u16; lia). reflexivity.
Qed.

Lemma aggregateLoop_plain dn nalus : forall i pre, Forall (fun n : bytes => len n < 65536) nalus ->
  aggregateLoop false dn i (len pre) nalus (pre ++ zeros (length (flat_map sized nalus)))
  = Some (pre ++ flat_map sized nalus).
Proof.
  induction nalus as [|n nalus IH]; intros i pre H; [done|].
  apply Forall_cons in H as [Hn H]. cbn [flat_map aggregateLoop mbind option_bind].
  rewrite (sized_be n Hn), !length_app. change (length (be16 (u16 (len n)))) with 2%nat.
  unfold zeros. rewrite <-Nat.add_assoc, replicate_add, replicate_add.
  rewrite put_mid by done. cbn [mbind option_bind].
  set (rest := replicate (length (flat_map sized nalus)) 0).
  assert (len pre + 2 = len (pre ++ be16 (u16 (len n)))) as -> by (rewrite len_app; reflexivity).
  rewrite (app_assoc pre), copyAt_mid by (by rewrite length_replicate). cbn [mbind option_bind].
  assert (Z.min (len n) (len ((pre ++ be16 (u16 (len n))) ++ replicate (length n) 0 ++ rest)
            - len (pre ++ be16 (u16 (len n)))) = len n) as ->.
  { rewrite !len_app. pose proof (len_nonneg rest). unfold len at 5. rewrite length_replicate. fold (len n). lia. }
  rewrite <-len_app, (app_assoc _ n). fold (zeros (length (flat_map sized nalus))).
  unfold rest. rewrite IH by done. by rewrite <-!app_assoc.
Qed.

(** ** What the receiver gets *)

(** A unit as RFC 7798 carries it: a header of two bytes, of a type below 48. *)
Definition wire265 (n : bytes) : Prop :=
  bytes_ok n /\ 2 <= len n < 4294967296 /\ hevcType (hd 0 n) < 48.

Lemma wire265_good n : wire265 n -> goodUnit n.
Proof. intros (_ & Hl & _). split; [|lia]. intros ->. change (len (@nil Z)) with 0 in Hl. lia. Qed.

Lemma wire265_cases n : wire265 n ->
  exists hi lo data, n = hi :: lo :: data /\ is_byte hi /\ is_byte lo /\ bytes_ok data /\ hevcType hi < 48.
Proof.
  intros (Hb & Hl & Ht). destruct n as [|hi [|lo data]]; [change (len (@nil Z)) with 0 in Hl; lia|
    change (len [hi]) with 1 in Hl; lia|].
  apply Forall_cons in Hb as [Hhi Hb]. apply Forall_cons in Hb as [Hlo Hb]. by exists hi, lo, data.
Qed.

Lemma receiveAll265_app p q partial :
  receiveAll265 (p ++ q) partial =
  ('(us, partial) ← receiveAll265 p partial; '(vs, partial) ← receiveAll265 q partial; Some (us ++ vs, partial)).
Proof.
  revert partial. induction p as [|x p IH]; intros partial; cbn [app receiveAll265 mbind option_bind].
  { destruct (receiveAll265 q partial) as [[? ?]|]; done. }
  destruct (receive265 x partial) as [[us p1]|]; [|done]. cbn [mbind option_bind]. rewrite IH.
  destruct (receiveAll265 p p1) as [[vs p2]|]; [|done]. cbn [mbind option_bind].
  destruct (receiveAll265 q p2) as [[ws p3]|]; [|done]. cbn [mbind option_bind]. by rewrite app_assoc.
Qed.

(** Payloads of at most [most] bytes that carry [us]. *)
Definition carries265 (most : Z) (ps us : list bytes) : Prop :=
  receiveAll265 ps None = Some (us, None) /\ Forall (fun p => len p <= most) ps.

Lemma carries265_app most p q us vs :
  carries265 most p us -> carries265 most q vs -> carries265 most (p ++ q) (us ++ vs).
Proof.
  intros [E1 H1] [E2 H2]. split; [|by apply Forall_app]. rewrite receiveAll265_app, E1. cbn. by rewrite E2.
Qed.

Lemma carries265_single most n : wire265 n -> len n <= most -> carries265 most [n] [n].
Proof.
  intros Hn Hl. split; [|by constructor].
  destruct (wire265_cases n Hn) as (hi & lo & data & -> & _ & _ & _ & Ht).
  cbn [receiveAll265 receive265]. rewrite (proj2 (Z.eqb_neq _ 49)), (proj2 (Z.eqb_neq _ 48)) by lia.
  by rewrite (proj2 (Z.ltb_lt _ 48)) by lia.
Qed.

(** *** One unit in fragments *)

Section one_unit.
Context (mtu hi lo : Z) (Hhi : is_byte hi) (Hmtu : 4 <= mtu).
Notation t := (hevcType hi).
Notation pieces fuel total dn data := (fragments265 fuel false hi lo t (mtu - 3) total dn data).

(** Without order numbers the counter stays. *)
Lemma fragments265_donl fuel total dn data : pieces fuel total dn data = ((pieces fuel total 0 data).1, dn).
Proof.
  revert data. induction fuel as [|fuel IH]; intros data; cbn [fragments265]; [done|].
  destruct (len data <=? 0); [done|]. rewrite IH.
  destruct (fragments265 fuel false hi lo t (mtu - 3) total 0 _) as [rest d0]. reflexivity.
Qed.

(** One round. *)
Lemma fragments265_step fuel total data : 0 < len data ->
  let cur := Z.to_nat (Z.min (mtu - 3) (len data)) in
  (pieces (S fuel) total 0 data).1
  = ([fuHead hi; lo; if len data =? total then Z.lor t 0x80
                     else if len data - Z.min (mtu - 3) (len data) =? 0 then Z.lor t 0x40 else t]
     ++ take cur data) :: (pieces fuel total 0 (drop cur data)).1.
Proof.
  intros Hd. cbn [fragments265]. rewrite (proj2 (Z.leb_gt _ _)) by lia.
  destruct (fragments265 fuel false hi lo t (mtu - 3) total 0 _) as [rest d0]. reflexivity.
Qed.

Lemma receive265_fu f data partial :
  receive265 (fuHead hi :: lo :: f :: data) partial =
  match (match Z.testbit f 7, partial with
         | true, None => Some (Z.lor (Z.land (fuHead hi) 0x81) (Z.shiftl (Z.land f 0x3F) 1) :: lo :: data)
         | false, Some p => Some (p ++ data)
         | _, _ => None
         end) with
  | None => None
  | Some u => if Z.testbit f 6 then Some ([u], None) else Some ([], Some u)
  end.
Proof. destruct (fragment_bits hi Hhi) as [H _]. cbn [receive265]. rewrite H. reflexivity. Qed.

(** The fragments behind the first one complete the unit. *)
Lemma later_fragments265 total fuel : forall data acc,
  (length data <= fuel)%nat -> 0 < len data < total ->
  receiveAll265 (pieces fuel total 0 data).1 (Some acc) = Some ([acc ++ data], None)
  /\ Forall (fun p => len p <= mtu) (pieces fuel total 0 data).1.
Proof.
  destruct (fragment_bits hi Hhi) as (_ & _ & _ & (H4 & H5) & (H6 & H7) & _).
  induction fuel as [|fuel IH]; intros data acc Hf Hd; [unfold len in Hd; lia|].
  rewrite fragments265_step by lia. cbv zeta. rewrite (proj2 (Z.eqb_neq (len data) total)) by lia.
  set (cur := Z.min (mtu - 3) (len data)).
  assert (len (take (Z.to_nat cur) data) = cur) as Hc.
  { unfold len. rewrite length_take. unfold cur, len in *. lia. }
  cbn [receiveAll265 app]. rewrite receive265_fu.
  destruct (Z.eqb_spec (len data - cur) 0) as [E|E].
  - rewrite (take_ge data), (drop_ge data) by (unfold cur, len in *; lia).
    assert (pieces fuel total 0 [] = ([], 0)) as -> by by destruct fuel.
    rewrite H4, H5. cbn. split; [done|]. constructor; [|constructor]. rewrite !len_cons. unfold cur in *. lia.
  - rewrite H6, H7. cbn [mbind option_bind].
    destruct (IH (drop (Z.to_nat cur) data) (acc ++ take (Z.to_nat cur) data)) as [E1 E2].
    { rewrite length_drop. unfold cur, len in *. lia. }
    { unfold cur, len in *. rewrite length_drop. lia. }
    rewrite E1. cbn. rewrite <-app_assoc, take_drop. split; [done|].
    constructor; [|done]. rewrite !len_cons, Hc. unfold cur. lia.
Qed.

Lemma carries265_fragments data : mtu < len data + 2 ->
  carries265 mtu (pieces (length data) (len data) 0 data).1 [hi :: lo :: data].
Proof.
  intros Hl. destruct (fragment_bits hi Hhi) as (_ & Hh & (H2 & H3) & _).
  destruct data as [|x data]; [change (len (@nil Z)) with 0 in Hl; lia|]. set (d := x :: data) in *.
  change (length d) with (S (length data)).
  assert (0 < len d) by (unfold d; rewrite len_cons; pose proof (len_nonneg data); lia).
  rewrite fragments265_step by done. cbv zeta. rewrite Z.eqb_refl, Z.min_l by lia.
  destruct (later_fragments265 (len d) (length data) (drop (Z.to_nat (mtu - 3)) d)
    (hi :: lo :: take (Z.to_nat (mtu - 3)) d)) as [E1 E2].
  { rewrite length_drop. unfold d. cbn [length]. lia. }
  { unfold len in *. rewrite length_drop. lia. }
  split.
  - cbn [receiveAll265 app]. rewrite receive265_fu, H2, H3, Hh. cbn [mbind option_bind]. rewrite E1.
    cbn. by rewrite take_drop.
  - constructor; [|done]. cbn [app]. rewrite !len_cons. unfold len. rewrite length_take. lia.
Qed.
End one_unit.

(** *** Short units together *)

Definition together265 (us : list bytes) : Z := foldr (fun n acc => len n + 2 + acc) 0 us.

Lemma together265_snoc us n : together265 (us ++ [n]) = together265 us + (len n + 2).
Proof. unfold together265. induction us as [|u us IH]; cbn [app foldr]; [lia|]. rewrite IH. lia. Qed.
Lemma together265_len us : Forall (fun n : bytes => len n < 65536) us -> together265 us = len (flat_map sized us).
Proof.
  induction us as [|n us IH]; intros H; [done|]. apply Forall_cons in H as [Hn H]. cbn [flat_map together265 foldr].
  rewrite len_app, (sized_be n Hn), len_app. change (len (be16 _)) with 2. fold (together265 us). rewrite IH by done. lia.
Qed.

Lemma headers265 us : Forall wire265 us ->
  exists hs, mapM unitHeader265 us = Some hs /\ length hs = length us
    /\ Forall (fun h => 0 <= LayerID h < 64) hs /\ Forall (fun h => 0 <= TID h < 8) hs.
Proof.
  induction 1 as [|n us Hn _ (hs & E & Hl & H1 & H2)]; [by exists []|].
  destruct (wire265_cases n Hn) as (hi & lo & data & -> & Hhi & Hlo & _).
  exists (newH265NALUHeader hi lo :: hs). destruct (header_ids hi lo Hhi Hlo).
  cbn [mapM mbind option_bind]. change (unitHeader265 (hi :: lo :: data)) with (Some (newH265NALUHeader hi lo)).
  cbn. rewrite E. cbn. split; [done|]. split; [by rewrite Hl|]. split; by constructor.
Qed.

(** The header and the units of an aggregation packet. *)
Lemma flush_many n m us ps dn :
  let nalus := n :: m :: us in
  Forall wire265 nalus -> Forall (fun n => len n < 65536) nalus ->
  exists layer tid, 0 <= layer < 64 /\ 0 <= tid < 8
    /\ flushBufferedNals false (mkHstate nalus (together265 nalus) ps dn)
       = Some (mkHstate [] 0 (ps ++ [aggregateHeader layer tid ++ flat_map sized nalus]) dn).
Proof.
  intros nalus Hw Hs. destruct (headers265 nalus Hw) as (hs & E & Hl & H1 & H2).
  assert (hs <> []) as Hne by (intros ->; done).
  exists (lowest LayerID hs), (lowest TID hs). split; [by apply lowest_bound|]. split; [by apply lowest_bound|].
  unfold flushBufferedNals, nalus. cbn [bufferedNALUs aggregationBufferSize payloads hdonl]. fold nalus.
  rewrite E. cbn [mbind option_bind]. fold (aggregateHeader (lowest LayerID hs) (lowest TID hs)).
  assert (make (together265 nalus + 2) = [] ++ zeros 2 ++ zeros (length (flat_map sized nalus))) as ->.
  { rewrite (together265_len nalus) by done. unfold make, zeros. cbn [app]. rewrite <-replicate_add. f_equal.
    unfold len. lia. }
  rewrite (put_mid [] (zeros 2) (zeros (length (flat_map sized nalus)))
    (aggregateHeader (lowest LayerID hs) (lowest TID hs)) eq_refl : put 0 _ _ = _).
  cbn [mbind option_bind app].
  change 2 with (len (aggregateHeader (lowest LayerID hs) (lowest TID hs))).
  rewrite aggregateLoop_plain by done. reflexivity.
Qed.

Lemma carries265_aggregate most layer tid us :
  0 <= layer < 64 -> 0 <= tid < 8 -> Forall (fun n : bytes => len n < 65536) us -> together265 us + 2 <= most ->
  carries265 most [aggregateHeader layer tid ++ flat_map sized us] us.
Proof.
  intros Hl Ht Hs Hm. split.
  2: { constructor; [|done]. rewrite len_app, <-together265_len by done. change (len (aggregateHeader _ _)) with 2. lia. }
  pose proof (aggregate_type layer tid Hl Ht) as E. unfold aggregateHeader, be16 in *. cbn [hd app] in *.
  cbn [receiveAll265 receive265]. rewrite E. change (48 =? 49) with false. change (48 =? 48) with true. cbv iota.
  rewrite aggregated_units by (done || lia). cbn. by rewrite app_nil_r.
Qed.

(** *** All units *)

Section payload.
Context (p : HPayloader) (mtu : Z) (Hdonl : AddDONL p = false) (Hmtu : 4 <= mtu < 65536).

Definition most265 : Z := mtu + (if SkipAggregation p then 0 else 2).

(** What the closures hold when [done] was given to the callback; without aggregation at
    most [k] units wait. *)
Record held (k : nat) (done : list bytes) (s : hstate) : Prop := {
  held_carried : exists us, carries265 most265 (payloads s) us /\ done = us ++ bufferedNALUs s;
  held_size : aggregationBufferSize s = together265 (bufferedNALUs s);
  held_units : Forall wire265 (bufferedNALUs s);
  held_short : Forall (fun n => len n <= mtu) (bufferedNALUs s);
  held_skip : SkipAggregation p = true -> (length (bufferedNALUs s) <= k)%nat;
  held_fits : (1 < length (bufferedNALUs s))%nat -> together265 (bufferedNALUs s) <= mtu;
}.

Lemma most_mtu : mtu <= most265.
Proof. unfold most265. destruct (SkipAggregation p); lia. Qed.

Lemma flush_held done s : held 1 done s ->
  exists ps us, flushBufferedNals false s = Some (mkHstate [] 0 ps (hdonl s))
    /\ carries265 most265 ps us /\ done = us.
Proof.
  intros [(us & Hc & ->) Hsz Hu Hs Hk Hf]. pose proof most_mtu. destruct s as [nalus size ps dn].
  cbn [bufferedNALUs aggregationBufferSize payloads hdonl] in *. subst size.
  destruct nalus as [|n [|m nalus]].
  - exists ps, us. by rewrite app_nil_r.
  - exists (ps ++ [n]), (us ++ [n]). split; [done|]. split; [|done]. apply carries265_app; [done|].
    apply Forall_cons in Hu as [Hn _]. apply Forall_cons in Hs as [Hl _]. apply carries265_single; [done|lia].
  - assert (Forall (fun n => len n < 65536) (n :: m :: nalus)) as H6.
    { eapply Forall_impl; [exact Hs|]. cbn. intros ? ?. lia. }
    destruct (flush_many n m nalus ps dn Hu H6) as (layer & tid & Hl & Ht & E). rewrite E.
    eexists _, (us ++ n :: m :: nalus). split; [done|]. split; [|done]. apply carries265_app; [done|].
    apply carries265_aggregate; [done..|]. unfold most265.
    destruct (SkipAggregation p); [specialize (Hk eq_refl); cbn in Hk; lia|].
    specialize (Hf ltac:(cbn; lia)). lia.
Qed.

Lemma held_flushed k ps us dn : carries265 most265 ps us -> held k us (mkHstate [] 0 ps dn).
Proof.
  intros H. constructor; cbn; try done; try lia.
  exists us. by rewrite app_nil_r.
Qed.

Lemma held_more k done s : held 0 done s -> held k done s.
Proof. intros [? ? ? ? Hk ?]. constructor; try done. intros E. specialize (Hk E). lia. Qed.

Lemma held_append done s n : held 0 done s -> wire265 n -> len n <= mtu ->
  (together265 (bufferedNALUs s) + (len n + 2) <= mtu \/ bufferedNALUs s = []) ->
  held 1 (done ++ [n]) (s <| bufferedNALUs := bufferedNALUs s ++ [n] |>
                          <| aggregationBufferSize := aggregationBufferSize s + (len n + 2) |>).
Proof.
  intros [(us & Hc & ->) Hsz Hu Hs Hk Hf] Hn Hl Hor. constructor; cbn.
  - exists us. split; [done|]. by rewrite app_assoc.
  - by rewrite Hsz, together265_snoc.
  - apply Forall_app. by split; [|constructor].
  - apply Forall_app. by split; [|constructor].
  - intros E. specialize (Hk E). rewrite length_app. cbn. lia.
  - rewrite together265_snoc. destruct Hor as [?| ->]; [done|]. cbn. lia.
Qed.

Lemma payloadUnit_held done s n : held 0 done s -> wire265 n ->
  exists s', payloadUnit p mtu n s = Some s' /\ held 0 (done ++ [n]) s' /\ hdonl s' = hdonl s.
Proof.
  intros Hs Hn. destruct (wire265_cases n Hn) as (hi & lo & data & En & Hhi & Hlo & Hb & Ht).
  pose proof Hn as (_ & Hl & _). unfold payloadUnit. rewrite Hdonl.
  rewrite (proj2 (Z.eqb_neq (len n) 0)) by lia.
  destruct (flush_held done s (held_more 1 _ _ Hs)) as (ps & us & Efl & Hc & ->).
  destruct (Z.leb_spec (len n) mtu) as [Hshort|Hlong].
  - rewrite Z.add_0_r. cbv zeta.
    set (s1 := if mtu <? aggregationBufferSize s + (len n + 2) then mkHstate [] 0 ps (hdonl s) else s).
    assert ((if mtu <? aggregationBufferSize s + (len n + 2) then flushBufferedNals false s else Some s) = Some s1) as ->.
    { unfold s1. by destruct (mtu <? _). }
    cbn [mbind option_bind].
    assert (held 1 (us ++ [n]) (s1 <| bufferedNALUs := bufferedNALUs s1 ++ [n] |>
                          <| aggregationBufferSize := aggregationBufferSize s1 + (len n + 2) |>)) as H1.
    { apply held_append; [|done..|].
      - unfold s1. destruct (mtu <? _); [by apply held_flushed|done].
      - unfold s1. destruct (Z.ltb_spec mtu (aggregationBufferSize s + (len n + 2))); [by right|left].
        rewrite <-(held_size _ _ _ Hs). lia. }
    assert (hdonl s1 = hdonl s) as Hd by (unfold s1; by destruct (mtu <? _)).
    destruct (SkipAggregation p) eqn:Esk.
    + destruct (flush_held _ _ H1) as (ps2 & us2 & E2 & Hc2 & ->).
      eexists. split; [exact E2|]. split; [by apply held_flushed|]. exact Hd.
    + eexists. split; [reflexivity|]. split; [|exact Hd]. destruct H1 as [? ? ? ? _ ?]. constructor; try done.
      by rewrite Esk.
  - subst n. change (rd (hi :: lo :: data) 0) with (Some hi). change (rd (hi :: lo :: data) 1) with (Some lo).
    cbn [mbind option_bind]. change (drop 2 (hi :: lo :: data)) with data. rewrite !len_cons in Hlong.
    unfold h265FragmentationUnitHeaderSize. change (1 + 2 + 0) with 3.
    rewrite (proj2 (Z.eqb_neq (mtu - 3) 0)), (proj2 (Z.eqb_neq (len data) 0)) by lia. cbn [orb].
    rewrite Efl. cbn [mbind option_bind]. rewrite (proj2 (Z.ltb_ge (mtu - 3) 0)) by lia.
    rewrite header_type, fragments265_donl by done.
    eexists. split; [reflexivity|]. split; [|done].
    cbn. apply held_flushed. apply carries265_app; [done|].
    destruct (carries265_fragments mtu hi lo Hhi ltac:(lia) data ltac:(lia)) as [H1 H2]. split; [done|].
    eapply Forall_impl; [exact H2|]. cbn. pose proof most_mtu. intros ? ?. lia.
Qed.

Lemma payloadUnits_held units : forall done s, held 0 done s -> Forall wire265 units ->
  exists s', payloadUnits p mtu units s = Some s' /\ held 0 (done ++ units) s' /\ hdonl s' = hdonl s.
Proof.
  induction units as [|n units IH]; intros done s Hs Hu; cbn [payloadUnits].
  { exists s. by rewrite app_nil_r. }
  apply Forall_cons in Hu as [Hn Hu]. destruct (payloadUnit_held done s n Hs Hn) as (s1 & E1 & H1 & D1).
  destruct (IH _ s1 H1 Hu) as (s2 & E2 & H2 & D2). exists s2. rewrite E1. cbn [mbind option_bind].
  rewrite <-app_assoc in H2. split; [done|]. split; [done|]. by rewrite D2.
Qed.
End payload.

Lemma EmitNalus_units units : Forall goodUnit units -> len (avccUnits units) < 4294967296 ->
  EmitNalus (avccUnits units) true = Some units.
Proof. intros H Hl. unfold EmitNalus. by rewrite emitAVC_units by (done || lia). Qed.

(** A receiver that follows RFC 7798 gets from the payloads exactly the units, in order,
    short ones joined in one packet, long ones put together from their fragments.  Every
    payload fits, up to the 2 bytes of an aggregation packet's own header, which are not
    counted, and without aggregation every one does; nothing is kept for the next access
    unit. *)
Theorem hevc_packets (p : HPayloader) (mtu : Z) (units : list bytes) :
  AddDONL p = false -> 4 <= mtu < 65536 -> Forall wire265 units ->
  0 < len (avccUnits units) < 4294967296 ->
  exists ps, hevcPayload p mtu (avccUnits units) = Some (ps, p)
    /\ receiveAll265 ps None = Some (units, None)
    /\ Forall (fun q => len q <= mtu + (if SkipAggregation p then 0 else 2)) ps.
Proof.
  intros Hd Hm Hu Hl. unfold hevcPayload. rewrite (proj2 (Z.eqb_neq (len (avccUnits units)) 0)) by lia.
  rewrite EmitNalus_units by first [lia|eapply Forall_impl; [exact Hu|apply wire265_good]]. cbn [mbind option_bind].
  assert (held p mtu 0 [] (mkHstate [] 0 [] (donl p))) as H0.
  { apply held_flushed. split; [done|constructor]. }
  destruct (payloadUnits_held p mtu Hd Hm units [] _ H0 Hu) as (s & E & Hs & D). rewrite E. cbn [mbind option_bind].
  destruct (flush_held p mtu Hm _ _ (held_more _ _ 1 _ _ Hs)) as (ps & us & E2 & [Hr Hf] & E3).
  cbn [app] in E3. subst us. rewrite Hd, E2. cbn [mbind option_bind]. exists ps. cbn [payloads hdonl]. rewrite D. cbn [hdonl].
  split; [|by split]. destruct p; cbn in *. by subst.
Qed.

Lemma hevc_packets_witness :
  Forall wire265 [[0x40; 1; 7]; [0x42; 1; 8; 9]; [0x26; 1; 1; 2; 3; 4; 5; 6; 7; 8; 9; 10; 11; 12; 13]]
  /\ exists ps, hevcPayload (mkHPayloader false false 0) 12
       (avccUnits [[0x40; 1; 7]; [0x42; 1; 8; 9]; [0x26; 1; 1; 2; 3; 4; 5; 6; 7; 8; 9; 10; 11; 12; 13]])
       = Some (ps, mkHPayloader false false 0)
    /\ receiveAll265 ps None
       = Some ([[0x40; 1; 7]; [0x42; 1; 8; 9]; [0x26; 1; 1; 2; 3; 4; 5; 6; 7; 8; 9; 10; 11; 12; 13]], None)
    /\ Forall (fun q => len q <= 14) ps.
Proof.
  assert (Forall wire265 [[0x40; 1; 7]; [0x42; 1; 8; 9]; [0x26; 1; 1; 2; 3; 4; 5; 6; 7; 8; 9; 10; 11; 12; 13]]) as H.
  { repeat (constructor; [split; [bytes_lit|split; [vm_compute; split; [discriminate|reflexivity]|reflexivity]]|]). constructor. }
  split; [exact H|].
  apply (hevc_packets (mkHPayloader false false 0) 12 _ eq_refl ltac:(lia) H). vm_compute. split; reflexivity.
Defined.
