(* ===== verification/HevcTrip.v ===== *)
(** H.265 access units through the packetiser and the depacketiser. *)

From S2P Require Import Prelude Text Annexb Codec Producer Rtp Depay Hevc HevcFacts.
From S2P Require TutkSession.
Import TutkSession(put, copyAt, make).

(** ** Units that are not joined

    The depacketiser takes an aggregation packet for a unit, so the units have to be too
    long for two neighbours to share one. *)

Definition pieces265 (mtu : Z) (n : bytes) : list bytes :=
  match n with
  | hi :: lo :: data =>
      if len n <=? mtu then [n]
      else (fragments265 (length data) false hi lo (hevcType hi) (mtu - 3) (len data) 0 data).1
  | _ => []
  end.

Fixpoint apart (mtu : Z) (us : list bytes) : Prop :=
  match us with
  | a :: rest => match rest with b :: _ => mtu < len a + 2 + (len b + 2) | [] => True end /\ apart mtu rest
  | [] => True
  end.

Lemma apart_app mtu xs ys : apart mtu (xs ++ ys) -> apart mtu ys.
Proof. induction xs as [|x xs IH]; [done|]. cbn [app apart]. intros [_ H]. auto. Qed.

Section alone.
Context (mtu dn : Z) (Hmtu : 4 <= mtu < 65536).
Notation p := (mkHPayloader false false dn).

Lemma flush_alone b ps : (length b <= 1)%nat ->
  flushBufferedNals false (mkHstate b (together265 b) ps dn) = Some (mkHstate [] 0 (ps ++ b) dn).
Proof. intros Hb. destruct b as [|n [|]]; [by rewrite app_nil_r|done|cbn in Hb; lia]. Qed.

Lemma payloadUnits_alone units : forall b ps,
  (length b <= 1)%nat -> apart mtu (b ++ units) -> Forall wire265 units ->
  exists s, payloadUnits p mtu units (mkHstate b (together265 b) ps dn) = Some s
    /\ flushBufferedNals false s = Some (mkHstate [] 0 (ps ++ b ++ flat_map (pieces265 mtu) units) dn).
Proof.
  induction units as [|n units IH]; intros b ps Hb Ha Hu; cbn [payloadUnits flat_map].
  { eexists. split; [reflexivity|]. by rewrite app_nil_r, flush_alone. }
  apply Forall_cons in Hu as [Hn Hu].
  destruct (wire265_cases n Hn) as (hi & lo & data & En & Hhi & Hlo & _). pose proof Hn as (_ & Hl & _).
  unfold payloadUnit. cbn [AddDONL SkipAggregation aggregationBufferSize bufferedNALUs payloads hdonl].
  rewrite (proj2 (Z.eqb_neq (len n) 0)) by lia. rewrite Z.add_0_r. cbv zeta.
  assert (pieces265 mtu n = if len n <=? mtu then [n]
    else (fragments265 (length data) false hi lo (hevcType hi) (mtu - 3) (len data) 0 data).1) as Ep by (by subst n).
  destruct (Z.leb_spec (len n) mtu) as [Hs|Hs]; rewrite Ep.
  - assert (exists b', (if mtu <? together265 b + (len n + 2)
      then flushBufferedNals false (mkHstate b (together265 b) ps dn) else Some (mkHstate b (together265 b) ps dn))
      = Some (mkHstate [] 0 b' dn) /\ b' = ps ++ b) as (b' & -> & ->).
    { rewrite flush_alone by done. destruct b as [|a [|]]; [|..|cbn in Hb; lia].
      - cbn [together265 foldr]. rewrite app_nil_r. destruct (mtu <? _); by exists ps.
      - cbn [app apart] in Ha. cbn [together265 foldr]. rewrite (proj2 (Z.ltb_lt _ _)) by lia. by exists (ps ++ [a]). }
    cbn [mbind option_bind].
    destruct (IH [n] (ps ++ b) ltac:(cbn; lia)) as (s & E & Ef); [by apply (apart_app mtu b)|done|].
    exists s. rewrite Ef. split; [|by rewrite <-!app_assoc].
    rewrite <-E. f_equal. cbn. f_equal. lia.
  - rewrite flush_alone by done. subst n.
    change (rd (hi :: lo :: data) 0) with (Some hi). change (rd (hi :: lo :: data) 1) with (Some lo).
    cbn [mbind option_bind]. change (drop 2 (hi :: lo :: data)) with data. rewrite !len_cons in Hs.
    unfold h265FragmentationUnitHeaderSize. change (1 + 2 + 0) with 3.
    rewrite (proj2 (Z.eqb_neq (mtu - 3) 0)), (proj2 (Z.eqb_neq (len data) 0)) by lia. cbn [orb].
    rewrite (proj2 (Z.ltb_ge (mtu - 3) 0)) by lia. cbn [hdonl]. rewrite header_type, fragments265_donl by done.
    change (b ++ (hi :: lo :: data) :: units) with (b ++ [hi :: lo :: data] ++ units) in Ha.
    rewrite app_assoc in Ha. apply apart_app in Ha.
    destruct (IH [] (ps ++ b ++ (fragments265 (length data) false hi lo (hevcType hi) (mtu - 3) (len data) 0 data).1)
      ltac:(cbn; lia) Ha Hu) as (s & E & Ef).
    exists s. split; [|by rewrite Ef, <-!app_assoc]. rewrite <-E. f_equal. cbn. by rewrite <-app_assoc.
Qed.

Lemma payload_alone units : Forall wire265 units -> 0 < len (avccUnits units) < 4294967296 -> apart mtu units ->
  hevcPayload p mtu (avccUnits units) = Some (flat_map (pieces265 mtu) units, p).
Proof.
  intros Hu Hl Ha. unfold hevcPayload. rewrite (proj2 (Z.eqb_neq (len (avccUnits units)) 0)) by lia.
  rewrite EmitNalus_units by first [lia|eapply Forall_impl; [exact Hu|apply wire265_good]]. cbn [mbind option_bind].
  destruct (payloadUnits_alone units [] [] ltac:(cbn; lia) Ha Hu) as (s & E & Ef).
  change (together265 []) with 0 in E. cbn [donl AddDONL]. rewrite E. cbn [mbind option_bind]. by rewrite Ef.
Qed.
End alone.

(** ** Packets in sequence *)

(** The packets of some payloads from number [n] on; [final] if they end the access unit. *)
Fixpoint numbered (ts n : Z) (payloads : list bytes) (final : bool) : list rtpPacket :=
  match payloads with
  | [] => []
  | p :: rest => mkRTP 2 (bool_decide (rest = []) && final) (u16 n) ts p :: numbered ts (n + 1) rest final
  end.

Lemma numbered_app ts n p q final : q <> [] ->
  numbered ts n (p ++ q) final = numbered ts n p false ++ numbered ts (n + len p) q final.
Proof.
  intros Hq. revert n. induction p as [|x p IH]; intros n; cbn [app numbered].
  { change (len (@nil bytes)) with 0. by rewrite Z.add_0_r. }
  rewrite IH, andb_false_r, (bool_decide_false (p ++ q = [])) by (by intros [-> ?]%app_eq_nil).
  rewrite len_cons. do 2 f_equal. f_equal. lia.
Qed.

(** A sequencer counts. *)
Definition sequences {Seq} (next : Seq -> Z * Seq) : Prop :=
  forall q, is_u16 (next q).1 /\ (next (next q).2).1 = u16 ((next q).1 + 1).

Lemma rtpPackets_numbered {Seq} (next : Seq -> Z * Seq) ts payloads : sequences next ->
  forall q n, (next q).1 = u16 n -> (rtpPackets next ts payloads q).1 = numbered ts n payloads true.
Proof.
  intros Hs. induction payloads as [|p rest IH]; intros q n Hn; [done|]. cbn [rtpPackets numbered].
  destruct (Hs q) as [_ Hnext]. destruct (next q) as [k q1]. cbn [fst snd] in *. subst k.
  specialize (IH q1 (n + 1)). destruct (rtpPackets next ts rest q1) as [ks q2]. cbn [fst] in *.
  rewrite IH, andb_true_r; [done|]. rewrite Hnext. ints.
Qed.

Lemma hevcDepayAll_app ps xs ys d :
  hevcDepayAll ps (xs ++ ys) d =
  ('(a, d) ← hevcDepayAll ps xs d; '(b, d) ← hevcDepayAll ps ys d; Some (a ++ b, d)).
Proof.
  revert d. induction xs as [|x xs IH]; intros d; cbn [app hevcDepayAll mbind option_bind].
  { destruct (hevcDepayAll ps ys d) as [[? ?]|]; done. }
  destruct (hevcRTPDepay ps x d) as [[r d1]|]; [|done]. cbn [mbind option_bind]. rewrite IH.
  destruct (hevcDepayAll ps xs d1) as [[a d2]|]; [|done]. cbn [mbind option_bind].
  destruct (hevcDepayAll ps ys d2) as [[b d3]|]; [|done]. cbn [mbind option_bind]. by destruct r.
Qed.

(** ** The depacketiser on one unit *)

(** Where the depacketiser is behind a unit with the packet of number [k]. *)
Definition finish (final : bool) (k ts : Z) (d : HDepay) : list rtpPacket * HDepay :=
  if final then ([mkRTP RTPPacketVersionAVC true (u16 k) ts (dbuf d)], d <| dbuf := [] |>) else ([], d).

Definition ready (d : HDepay) (n : Z) : Prop := dbuf d = [] \/ seqNum d = u16 (n - 1).

(** The record updates of the depacketiser. *)
Lemma seqNum_set a b c x : (mkHDepay a b c) <| seqNum := x |> = mkHDepay a b x.
Proof. done. Qed.
Lemma dbuf_set a b c x : (mkHDepay a b c) <| dbuf := x |> = mkHDepay x b c.
Proof. done. Qed.

Lemma ready_check d n : ready d n -> (0 <? len (dbuf d)) && negb (u16 (u16 n - seqNum d) =? 1) = false.
Proof.
  intros [->| ->]; [done|]. assert (u16 (u16 n - u16 (n - 1)) = 1) as -> by ints. by rewrite andb_false_r.
Qed.

Section fragments.
Context (ps : bytes) (mtu ts hi lo : Z) (Hhi : is_byte hi) (Hmtu : 4 <= mtu).
Notation t := (hevcType hi).
Notation pieces fuel total data := (fragments265 fuel false hi lo t (mtu - 3) total 0 data).1.

Lemma depay_fragment m k f rest d : ready d k ->
  let packet := mkRTP 2 m (u16 k) ts (fuHead hi :: lo :: f :: rest) in
  hevcRTPDepay ps packet d = depayData ps m packet (fuHead hi) lo f rest (d <| seqNum := u16 k |>).
Proof.
  intros Hr. destruct (fragment_bits hi Hhi) as [H _]. unfold hevcRTPDepay. cbn [rtpPayload Marker SequenceNumber].
  rewrite H, ready_check by done. cbv zeta.
  change ((49 =? hevcPrefixSEI) || (49 =? hevcSuffixSEI)) with false.
  change ((49 =? hevcVPS) || (49 =? hevcSPS) || (49 =? hevcPPS)) with false. by rewrite !andb_false_r.
Qed.

(** The fragments behind the first one. *)
Lemma later_depaid total fuel : forall data acc pre k final,
  (length data <= fuel)%nat -> 0 < len data < total ->
  let ks := pieces fuel total data in
  let k' := k + len ks - 1 in
  hevcDepayAll ps (numbered ts k ks final) (mkHDepay (pre ++ zeros 4 ++ acc) (len pre) (u16 (k - 1)))
  = Some (finish final k' ts
      (mkHDepay (pre ++ be32 (u32 (len (acc ++ data))) ++ acc ++ data) (len pre) (u16 k'))).
Proof.
  destruct (fragment_bits hi Hhi) as (H49 & _ & _ & _ & _ & (_ & S1 & S0) & _).
  induction fuel as [|fuel IH]; intros data acc pre k final Hf Hd; [unfold len in Hd; lia|].
  rewrite fragments265_step by lia. cbv zeta. rewrite (proj2 (Z.eqb_neq (len data) total)) by lia.
  set (cur := Z.min (mtu - 3) (len data)).
  cbn [app numbered hevcDepayAll]. rewrite depay_fragment by (by right).
  rewrite seqNum_set. unfold depayData. rewrite H49. change (49 =? hevcFU) with true. cbv iota zeta.
  assert (forall x, (len (pre ++ zeros 4 ++ x) =? 0) = false) as Hne.
  { intros x. apply Z.eqb_neq. rewrite !len_app. change (len (zeros 4)) with 4.
    pose proof (len_nonneg pre). pose proof (len_nonneg x). lia. }
  destruct (Z.eqb_spec (len data - cur) 0) as [E|E].
  - rewrite (take_ge data), (drop_ge data) by (unfold cur, len in *; lia).
    assert (pieces fuel total [] = []) as -> by by destruct fuel.
    rewrite S1. change (1 =? 2) with false. change (1 =? 0) with false. change (1 =? 1) with true. cbv iota.
    cbn [dbuf nuStart]. rewrite Hne. rewrite <-!app_assoc.
    rewrite (proj2 (Z.ltb_ge _ _)) by (rewrite len_app; pose proof (len_nonneg (zeros 4 ++ acc ++ data)); lia).
    rewrite put_mid by done. cbn [mbind option_bind numbered hevcDepayAll]. rewrite dbuf_set.
    assert (len (pre ++ zeros 4 ++ acc ++ data) - len pre - 4 = len (acc ++ data)) as ->.
    { rewrite (len_app pre), (len_app (zeros 4)). change (len (zeros 4)) with 4. lia. }
    change (len [_]) with 1. rewrite Z.add_simpl_r. unfold collected, finish. by destruct final.
  - rewrite S0. change (0 =? 2) with false. change (0 =? 0) with true. cbv iota. cbn [dbuf].
    rewrite Hne, dbuf_set. cbn [mbind option_bind]. rewrite <-!app_assoc.
    assert (u16 k = u16 (k + 1 - 1)) as -> by (f_equal; lia).
    rewrite (IH (drop (Z.to_nat cur) data) (acc ++ take (Z.to_nat cur) data) pre (k + 1) final).
    2: { rewrite length_drop. unfold cur, len in *. lia. }
    2: { unfold cur, len in *. rewrite length_drop. lia. }
    cbn [mbind option_bind]. rewrite len_cons, <-!app_assoc, take_drop.
    assert (k + 1 + len (pieces fuel total (drop (Z.to_nat cur) data)) - 1
      = k + (len (pieces fuel total (drop (Z.to_nat cur) data)) + 1) - 1) as -> by lia.
    by destruct (finish _ _ _ _).
Qed.

(** What goes in front of a key frame that starts an access unit. *)
Definition frontPS (d : HDepay) : bytes := if (len (dbuf d) =? 0) && isIFrame t then ps else [].

Lemma fragments_depaid data d k final : ready d k -> mtu < len data + 2 ->
  let ks := pieces (length data) (len data) data in
  let k' := k + len ks - 1 in
  exists ns, hevcDepayAll ps (numbered ts k ks final) d
  = Some (finish final k' ts
      (mkHDepay (dbuf d ++ frontPS d ++ be32 (u32 (len data + 2)) ++ hi :: lo :: data) ns (u16 k'))).
Proof.
  intros Hr Hl. destruct (fragment_bits hi Hhi) as (H49 & _ & _ & _ & _ & (S2 & _) & Ht & Hh).
  destruct data as [|x data0] eqn:Ed; [change (len (@nil Z)) with 0 in Hl; lia|]. rewrite <-Ed in *.
  assert (length data = S (length data0)) as -> by (by subst data).
  assert (0 < len data) by (subst data; rewrite len_cons; pose proof (len_nonneg data0); lia).
  rewrite fragments265_step by done. cbv zeta. rewrite Z.eqb_refl, Z.min_l by lia.
  set (cur := Z.to_nat (mtu - 3)).
  cbn [app numbered hevcDepayAll].
  destruct (pieces (length data0) (len data) (drop cur data)) as [|k1 ks] eqn:Ek.
  { exfalso. assert (0 < len (drop cur data)) as H1 by (unfold cur, len in *; rewrite length_drop; lia).
    destruct (length data0) as [|f] eqn:Ef; [|rewrite fragments265_step in Ek by done; done].
    unfold len in H1. rewrite length_drop in H1. subst data. cbn in H1. rewrite Ef in H1. unfold cur in H1. lia. }
  rewrite <-Ek. rewrite bool_decide_false by (by rewrite Ek). cbn [andb].
  rewrite depay_fragment by done. unfold depayData. rewrite H49, S2, Ht.
  change (49 =? hevcFU) with true. change (2 =? 2) with true. cbv iota zeta. cbn [dbuf seqNum nuStart].
  rewrite Hh. cbn [mbind option_bind].
  assert ((if (len (dbuf d) =? 0) && (19 <=? t) && (t <=? 21) then dbuf d ++ ps else dbuf d)
    = dbuf d ++ frontPS d) as Efr.
  { unfold frontPS. assert (isIFrame t = (19 <=? t) && (t <=? 21)) as ->.
    { unfold isIFrame, hevcIFrame, hevcIFrame2, hevcIFrame3. lia. }
    rewrite andb_assoc. destruct (_ && _); [done|]. by rewrite app_nil_r. }
  cbn. rewrite Efr. exists (len (dbuf d ++ frontPS d)). set (pre := dbuf d ++ frontPS d).
  change (0 :: 0 :: 0 :: 0 :: hi :: lo :: take cur data) with (zeros 4 ++ hi :: lo :: take cur data).
  assert (u16 k = u16 (k + 1 - 1)) as -> by (f_equal; lia).
  rewrite (later_depaid (len data) (length data0) (drop cur data) (hi :: lo :: take cur data) pre (k + 1) final).
  2: { rewrite length_drop. subst data. cbn [length]. unfold cur. lia. }
  2: { unfold cur, len in *. rewrite length_drop. lia. }
  cbn [mbind option_bind app]. rewrite take_drop, len_cons, !len_cons. unfold pre. rewrite <-!app_assoc.
  replace (len data + 1 + 1) with (len data + 2) by lia.
  set (m := len (pieces _ _ _)). replace (k + 1 + m - 1) with (k + (m + 1) - 1) by lia.
  by destruct (finish _ _ _ _).
Qed.
End fragments.

(** ** Units *)

(** A unit that may end an access unit: a short parameter set loses its marker and a short
    SEI unit is dropped. *)
Definition closing265 (n : bytes) : Prop :=
  PSMaxSize <= len n \/ hevcType (hd 0 n) ∉ [hevcVPS; hevcSPS; hevcPPS; hevcPrefixSEI; hevcSuffixSEI].

Section units.
Context (ps : bytes) (mtu ts : Z) (Hmtu : 4 <= mtu).

Lemma single_depaid n d k final : wire265 n -> 3 <= len n -> ready d k -> (final = true -> closing265 n) ->
  hevcDepayAll ps (numbered ts k [n] final) d
  = Some (finish final k ts (mkHDepay (dbuf d ++ be32 (u32 (len n)) ++ n) (nuStart d) (u16 k))).
Proof.
  intros Hn Hl Hr Hc. destruct (wire265_cases n Hn) as (hi & lo & data & -> & _ & _ & _ & Ht).
  destruct data as [|x data]; [change (len [hi; lo]) with 2 in Hl; lia|]. destruct d as [b ns sq].
  cbn [numbered hevcDepayAll]. rewrite bool_decide_true by done. cbn [andb].
  unfold hevcRTPDepay. cbn [rtpPayload Marker SequenceNumber]. rewrite ready_check by done.
  set (n := hi :: lo :: x :: data) in *. cbv zeta.
  assert (final && (len n <? PSMaxSize) && ((hevcType hi =? hevcPrefixSEI) || (hevcType hi =? hevcSuffixSEI)) = false
    /\ final && (len n <? PSMaxSize) && ((hevcType hi =? hevcVPS) || (hevcType hi =? hevcSPS) || (hevcType hi =? hevcPPS)) = false)
    as [-> ->].
  { destruct final; [|done]. cbn [andb]. destruct (Hc eq_refl) as [H|H].
    { rewrite (proj2 (Z.ltb_ge _ _)) by done. done. }
    cbn [hd n] in H. rewrite !not_elem_of_cons in H. rewrite (proj2 (Z.eqb_neq _ hevcPrefixSEI)),
      (proj2 (Z.eqb_neq _ hevcSuffixSEI)), (proj2 (Z.eqb_neq _ hevcVPS)), (proj2 (Z.eqb_neq _ hevcSPS)),
      (proj2 (Z.eqb_neq _ hevcPPS)) by tauto. cbn [orb]. by rewrite andb_false_r. }
  cbv iota. unfold depayData, hevcFU. rewrite (proj2 (Z.eqb_neq (hevcType hi) 49)) by lia. cbv iota zeta.
  fold n. rewrite seqNum_set. cbn [dbuf nuStart]. rewrite dbuf_set. unfold collected, finish. by destruct final.
Qed.

(** What goes in front of a unit. *)
Definition unitFront (d : HDepay) (n : bytes) : bytes := if mtu <? len n then frontPS ps (hd 0 n) d else [].

Lemma unit_depaid n d k final : wire265 n -> 3 <= len n -> ready d k -> (final = true -> closing265 n) ->
  let k' := k + len (pieces265 mtu n) - 1 in
  exists ns, hevcDepayAll ps (numbered ts k (pieces265 mtu n) final) d
  = Some (finish final k' ts (mkHDepay (dbuf d ++ unitFront d n ++ be32 (len n) ++ n) ns (u16 k'))).
Proof.
  intros Hn Hl Hr Hc. pose proof Hn as (_ & Hlen & _). cbv zeta.
  rewrite <-(u32_small (len n)) by (unfold is_u32; lia).
  pose proof (fun H => single_depaid n d k final Hn Hl Hr H) as Hsingle.
  destruct (wire265_cases n Hn) as (hi & lo & data & -> & Hhi & Hlo & _). unfold unitFront, pieces265.
  destruct (Z.leb_spec (len (hi :: lo :: data)) mtu) as [Hs|Hs].
  - rewrite (proj2 (Z.ltb_ge mtu _)) by lia. change (len [_]) with 1. rewrite Z.add_simpl_r.
    exists (nuStart d). by apply Hsingle.
  - rewrite (proj2 (Z.ltb_lt mtu _)) by lia. rewrite !len_cons in Hs |- *.
    replace (len data + 1 + 1) with (len data + 2) by lia. cbn [hd].
    apply fragments_depaid; [done..|lia].
Qed.

Lemma pieces265_some n : wire265 n -> pieces265 mtu n <> [].
Proof.
  intros Hn. destruct (wire265_cases n Hn) as (hi & lo & data & -> & _). unfold pieces265.
  destruct (Z.leb_spec (len (hi :: lo :: data)) mtu); [done|]. rewrite !len_cons in *.
  destruct data as [|x data0] eqn:Ed; [change (len (@nil Z)) with 0 in *; lia|].
  change (length (x :: data0)) with (S (length data0)). rewrite fragments265_step; [done|].
  rewrite len_cons. pose proof (len_nonneg data0). lia.
Qed.

Lemma units_depaid units : forall n d k,
  Forall wire265 (n :: units) -> Forall (fun n => 3 <= len n) (n :: units) -> ready d k ->
  (forall z, last (n :: units) = Some z -> closing265 z) ->
  exists ns k', hevcDepayAll ps (numbered ts k (flat_map (pieces265 mtu) (n :: units)) true) d
    = Some ([mkRTP RTPPacketVersionAVC true (u16 k') ts (dbuf d ++ unitFront d n ++ avccUnits (n :: units))],
            mkHDepay [] ns (u16 k')).
Proof.
  induction units as [|m units IH]; intros n d k Hw H3 Hr Hc;
    apply Forall_cons in Hw as [Hn Hw]; apply Forall_cons in H3 as [Hn3 H3].
  - cbn [flat_map]. rewrite app_nil_r.
    destruct (unit_depaid n d k true Hn Hn3 Hr ltac:(intros _; by apply Hc)) as (ns & E).
    rewrite E. eexists ns, _. unfold finish. rewrite dbuf_set. cbn [dbuf].
    rewrite avccUnits_cons. change (avccUnits []) with (@nil Z). by rewrite app_nil_r.
  - change (flat_map (pieces265 mtu) (n :: m :: units)) with
      (pieces265 mtu n ++ flat_map (pieces265 mtu) (m :: units)).
    rewrite numbered_app.
    2: { cbn [flat_map]. apply Forall_cons in Hw as [Hm _]. pose proof (pieces265_some m Hm). by intros [? _]%app_eq_nil. }
    destruct (unit_depaid n d k false Hn Hn3 Hr ltac:(done)) as (ns & E). rewrite hevcDepayAll_app, E.
    unfold finish at 1. cbn [mbind option_bind].
    set (d1 := mkHDepay _ ns _).
    destruct (IH m d1 (k + len (pieces265 mtu n)) Hw H3) as (ns2 & k2 & E2).
    { right. unfold d1. cbn. f_equal. }
    { intros z Hz. apply Hc. by rewrite last_cons, Hz. }
    rewrite E2. cbn [mbind option_bind]. exists ns2, k2. cbn [app]. do 2 f_equal. f_equal. f_equal.
    rewrite (avccUnits_cons n). unfold d1. cbn [dbuf].
    assert (unitFront d1 m = []) as Hf.
    { unfold unitFront, frontPS, d1. cbn [dbuf]. rewrite (proj2 (Z.eqb_neq (len _) 0)).
      - cbn [andb]. by destruct (mtu <? len m).
      - rewrite !len_app. change (len (be32 (len n))) with 4.
        pose proof (len_nonneg (dbuf d)). pose proof (len_nonneg (unitFront d n)). lia. }
    unfold d1 in Hf. rewrite Hf. cbn [app]. by rewrite <-!app_assoc.
Qed.
End units.

(** C38. An access unit whose neighbouring units do not share a packet, and whose last unit is
    neither an SEI unit nor a parameter set that is shorter than [PSMaxSize], goes through the
    packetiser and the depacketiser as it is: one access unit with its timestamp and nothing
    left over; in front of it come the parameter sets of the codec line, if its first unit is
    of a key frame and is sent in fragments. *)
Theorem hevc_roundtrip {Seq : Type} (next : Seq -> Z * Seq) (ps : bytes) (mtu dn : Z) (q : Seq)
    (first : bytes) (units : list bytes) (d : HDepay) (packet : rtpPacket) :
  sequences next -> 4 <= payMTU mtu ->
  Forall wire265 (first :: units) -> Forall (fun n => 3 <= len n) (first :: units) ->
  len (avccUnits (first :: units)) < 4294967296 -> apart (payMTU mtu) (first :: units) ->
  (forall z, last (first :: units) = Some z -> closing265 z) ->
  Version packet = RTPPacketVersionAVC -> rtpPayload packet = avccUnits (first :: units) -> dbuf d = [] ->
  exists packets q' n ns,
    hevcRTPPay next mtu packet (mkHPayloader false false dn, q) = Some (packets, (mkHPayloader false false dn, q'))
    /\ hevcDepayAll ps packets d
       = Some ([mkRTP RTPPacketVersionAVC true n (rtpTimestamp packet)
                  ((if (payMTU mtu <? len first) && isIFrame (hevcType (hd 0 first)) then ps else [])
                   ++ avccUnits (first :: units))], mkHDepay [] ns n).
Proof.
  intros Hseq Hm Hw H3 Hl Ha Hc Hv Hp Hd. unfold hevcRTPPay. rewrite Hv, Hp. change (_ =? _) with true.
  cbn [negb fst snd].
  assert (payMTU mtu < 65536) by (unfold payMTU; ints).
  assert (0 < len (avccUnits (first :: units))).
  { rewrite avccUnits_cons, len_app. change (len (be32 _)) with 4. pose proof (len_nonneg (first ++ avccUnits units)). lia. }
  rewrite payload_alone by (done || lia). cbn [mbind option_bind].
  destruct (Hseq q) as [Hn _].
  pose proof (rtpPackets_numbered next (rtpTimestamp packet) (flat_map (pieces265 (payMTU mtu)) (first :: units))
    Hseq q (next q).1 ltac:(symmetry; by apply u16_small)) as E.
  destruct (rtpPackets _ _ _ _) as [packets q']. cbn [fst] in E. subst packets.
  destruct (units_depaid ps (payMTU mtu) (rtpTimestamp packet) Hm units first d (next q).1 Hw H3 ltac:(by left) Hc)
    as (ns & k' & E2).
  eexists _, q', (u16 k'), ns. split; [reflexivity|]. rewrite E2, Hd. cbn [app]. do 2 f_equal. f_equal. f_equal. f_equal.
  unfold unitFront, frontPS. rewrite Hd. change (len (@nil Z) =? 0) with true. cbn [andb].
  by destruct (payMTU mtu <? len first).
Qed.

Lemma hevc_roundtrip_witness :
  exists packets q' n ns,
    hevcRTPPay counter 20 (mkRTP 0 false 0 900 (avccUnits [[0x26; 1; 1; 2; 3; 4; 5; 6; 7; 8]; [0x02; 1; 5]]))
      (mkHPayloader false false 0, 65535) = Some (packets, (mkHPayloader false false 0, q'))
    /\ hevcDepayAll [9; 9] packets newHDepay
       = Some ([mkRTP 0 true n 900 ([9; 9] ++ avccUnits [[0x26; 1; 1; 2; 3; 4; 5; 6; 7; 8]; [0x02; 1; 5]])],
               mkHDepay [] ns n).
Proof.
  apply (hevc_roundtrip counter [9; 9] 20 0 65535 [0x26; 1; 1; 2; 3; 4; 5; 6; 7; 8] [[0x02; 1; 5]] newHDepay
    (mkRTP 0 false 0 900 (avccUnits [[0x26; 1; 1; 2; 3; 4; 5; 6; 7; 8]; [0x02; 1; 5]]))).
  - intros q. unfold counter. cbn. split; [apply u16_bound|ints].
  - vm_compute. discriminate.
  - repeat (constructor; [split; [bytes_lit|split; [vm_compute; split; [discriminate|reflexivity]|reflexivity]]|]). constructor.
  - repeat constructor; vm_compute; discriminate.
  - vm_compute. reflexivity.
  - vm_compute. split; [reflexivity|by split].
  - intros z [= <-]. right. rewrite !not_elem_of_cons. vm_compute. by split_and!; [..|intros ?%elem_of_nil].
  - reflexivity.
  - reflexivity.
  - reflexivity.
Defined.
