(* ===== verification/HevcLine.v ===== *)
(** The codec line of an H.265 stream: its parameter sets come back from it and go in
    front of key frames. *)

From S2P Require Import Prelude Text Annexb Codec Rtp Hevc.

(** ** Searching behind text of another alphabet *)

Section cut.
Context (p : bytes) (c y : Z) (Hy : y ∈ p) (Hc : c ∉ p).

Lemma startsWith_cut pre s : y ∉ pre -> startsWith p (pre ++ c :: s) = false.
Proof.
  clear -Hy Hc. revert pre. induction p as [|x q IH]; intros pre Hpre; [by apply elem_of_nil in Hy|].
  apply not_elem_of_cons in Hc as [Hcx Hc']. destruct pre as [|z pre]; cbn [app startsWith].
  { by rewrite (proj2 (Z.eqb_neq x c)) by congruence. }
  apply not_elem_of_cons in Hpre as [Hz Hpre]. destruct (Z.eqb_spec x z) as [->|]; [|done]. cbn [andb].
  apply elem_of_cons in Hy as [->|Hy']; [done|]. by apply IH.
Qed.

(** A pattern without [c] is not found across one, nor where [y] is missing. *)
Lemma index_cut pre s : y ∉ pre -> index (pre ++ c :: s) p = Nat.add (length pre) <$> index (c :: s) p.
Proof.
  induction pre as [|z pre IH]; intros Hpre; cbn [app length].
  { by destruct (index (c :: s) p). }
  pose proof (startsWith_cut (z :: pre) s Hpre) as E. cbn [app] in E.
  apply not_elem_of_cons in Hpre as [_ Hpre]. specialize (IH Hpre).
  destruct (index (c :: s) p) as [i|]; cbn [index]; by rewrite E, IH.
Qed.

Lemma startsWith_missing s : y ∉ s -> startsWith p s = false.
Proof.
  clear -Hy. revert s. induction p as [|x q IH]; intros s Hs; [by apply elem_of_nil in Hy|].
  destruct s as [|z s]; [done|]. apply not_elem_of_cons in Hs as [Hz Hs]. cbn [startsWith].
  destruct (Z.eqb_spec x z) as [->|]; [|done]. apply elem_of_cons in Hy as [->|Hy']; [done|]. by apply IH.
Qed.

Lemma index_missing s : y ∉ s -> index s p = None.
Proof.
  induction s as [|z s IH]; intros Hs; cbn [index]; rewrite startsWith_missing by done; [done|].
  apply not_elem_of_cons in Hs as [_ Hs]. by rewrite IH.
Qed.
End cut.

(** Text up to the next semicolon or the end. *)
Lemma Between_until pre x k body post :
  index (pre ++ (x :: k) ++ body ++ post) (x :: k) = Some (length pre) -> 59 ∉ body ->
  post = [] \/ (exists r, post = 59 :: r) ->
  Between (pre ++ (x :: k) ++ body ++ post) (x :: k) (str ";") = body.
Proof.
  intros Hi Hb Hp. unfold Between. rewrite Hi. cbv iota zeta.
  rewrite (app_assoc pre), drop_app_length' by (by rewrite length_app). change (str ";") with [59].
  assert (Forall (fun c => c <> 59) body) as Hb'.
  { apply Forall_forall. intros c Hc ->. done. }
  destruct Hp as [->|[r ->]].
  - rewrite app_nil_r, index_absent by done. done.
  - change (59 :: r) with ([59] ++ r). rewrite index_found by done. by rewrite take_app_length.
Qed.

(** ** The line *)

Definition setKey (t : Z) : bytes :=
  if t =? hevcVPS then str "sprop-vps=" else if t =? hevcSPS then str "sprop-sps=" else str "sprop-pps=".
Definition isSet (t : Z) : bool := (t =? hevcVPS) || (t =? hevcSPS) || (t =? hevcPPS).
Definition type265 (n : bytes) : Z := hevcType (hd 0 n).
Definition piece265 (n : bytes) : bytes :=
  if isSet (type265 n) then 59 :: setKey (type265 n) ++ b64Encode n else [].
Definition line265 (us : list bytes) : bytes := flat_map piece265 us.

Definition first265 (t : Z) (us : list bytes) : option bytes := head (filter (fun n => type265 n = t) us).
Definition sets265 (us : list bytes) : list bytes := omap (fun t => first265 t us) [hevcVPS; hevcSPS; hevcPPS].

Lemma unit_type265 n r : goodUnit n -> hevcNALUType (be32 (len n) ++ n ++ r) = Some (type265 n).
Proof. intros [Hn _]. destruct n as [|x n]; [done|]. reflexivity. Qed.

Lemma hevcCodecPiece_unit n r spare : goodUnit n ->
  hevcCodecPiece (be32 (len n) ++ n ++ r) spare (4 + len n) (type265 n) = Some (piece265 n).
Proof.
  intros Hn. pose proof (len_nonneg n). pose proof (len_nonneg r). pose proof (len_nonneg spare).
  unfold hevcCodecPiece. rewrite sub_in by (rewrite ?len_app; change (len (be32 (len n))) with 4; lia).
  rewrite <-!app_assoc, (unit_seg n (r ++ spare)). unfold piece265, isSet, setKey.
  destruct (type265 n =? hevcVPS); [done|]. destruct (type265 n =? hevcSPS); [done|].
  by destruct (type265 n =? hevcPPS).
Qed.

Lemma hevcCodecLoop_units spare units : forall n fuel buf,
  Forall goodUnit (n :: units) -> (length (avccUnits (n :: units)) < fuel)%nat ->
  hevcCodecLoop fuel (avccUnits (n :: units)) spare buf = Some (Some (buf ++ line265 (n :: units))).
Proof.
  induction units as [|m units IH]; intros n fuel buf H Hf; (destruct fuel as [|fuel]; [lia|]);
    apply Forall_cons in H as [Hn H]; rewrite avccUnits_cons in *; cbn [hevcCodecLoop];
    rewrite unit_load, unit_type265 by done; cbv zeta; rewrite hevcCodecPiece_unit by done;
    rewrite (Z.add_comm 4), unit_more by done.
  - rewrite bool_decide_true by done. cbn [negb]. unfold line265. cbn [flat_map]. by rewrite app_nil_r.
  - rewrite bool_decide_false by done. cbn [negb]. rewrite unit_drop by auto.
    rewrite IH; [|done|rewrite !length_app in Hf; cbn in Hf |- *; lia].
    unfold line265. cbn [flat_map]. by rewrite <-!app_assoc.
Qed.

Lemma b64_alphabet n c : bytes_ok n -> b64Text c = false -> c ∉ b64Encode n.
Proof.
  intros Hn Hc Hin. pose proof (b64Encode_text n Hn) as H. rewrite Forall_forall in H. rewrite (H c Hin) in Hc. done.
Qed.

Lemma line_shape us : line265 us = [] \/ exists r, line265 us = 59 :: r.
Proof.
  induction us as [|n us IH]; [by left|]. unfold line265 in *. cbn [flat_map]. unfold piece265 at 1 3.
  destruct (isSet (type265 n)); [by right; eexists|exact IH].
Qed.

Lemma setKey_alphabet t : 45 ∈ setKey t /\ 59 ∉ setKey t.
Proof.
  unfold setKey. split; [apply (bool_decide_unpack (_ ∈ _))|apply (bool_decide_unpack (_ ∉ _))];
    destruct (t =? hevcVPS); destruct (t =? hevcSPS); vm_compute; exact I.
Qed.

Lemma index_text n us t : bytes_ok n ->
  index (b64Encode n ++ line265 us) (setKey t) = Nat.add (length (b64Encode n)) <$> index (line265 us) (setKey t).
Proof.
  intros Hn. destruct (setKey_alphabet t) as [H45 H59].
  pose proof (b64_alphabet n 45 Hn eq_refl) as Hd. destruct (line_shape us) as [->|[r ->]].
  - rewrite app_nil_r, (index_missing (setKey t) 45 H45 _ Hd). symmetry.
    rewrite (index_missing (setKey t) 45 H45 [] ltac:(by apply not_elem_of_nil)). done.
  - by apply (index_cut (setKey t) 59 45).
Qed.

(** Another set's key is not this one's. *)
Lemma index_other t t' s : isSet t = true -> isSet t' = true -> t <> t' ->
  index (59 :: setKey t' ++ s) (setKey t) = Nat.add 11 <$> index s (setKey t).
Proof.
  unfold isSet. rewrite !orb_true_iff, !Z.eqb_eq. intros Ht Ht' Hne.
  destruct Ht as [[->| ->]| ->]; destruct Ht' as [[->| ->]| ->]; try done;
    cbn -[index]; match goal with |- _ = _ <$> index s ?k => destruct (index s k) as [i|] eqn:E end;
    cbn -[index] in E; cbn; rewrite E; reflexivity.
Qed.

Lemma line_find t us : isSet t = true -> Forall bytes_ok us ->
  match first265 t us with
  | None => index (line265 us) (setKey t) = None
  | Some u => bytes_ok u /\ exists pre post, line265 us = pre ++ setKey t ++ b64Encode u ++ post
      /\ index (line265 us) (setKey t) = Some (length pre) /\ (post = [] \/ exists r, post = 59 :: r)
  end.
Proof.
  intros Ht. induction us as [|n us IH]; intros Hu.
  { destruct (setKey_alphabet t) as [H45 _]. apply (index_missing _ 45 H45). apply not_elem_of_nil. }
  apply Forall_cons in Hu as [Hn Hu]. specialize (IH Hu). unfold first265 in *. rewrite filter_cons.
  change (line265 (n :: us)) with (piece265 n ++ line265 us). unfold piece265.
  destruct (decide (type265 n = t)) as [E|E].
  - cbn [head]. rewrite E, Ht. split; [done|]. exists [59], (line265 us). split; [cbn [app]; by rewrite <-!app_assoc|].
    split; [|apply line_shape]. cbn [app]. rewrite <-app_assoc.
    destruct (setKey_alphabet t) as [_ H59]. cbn [index].
    assert (forall s, startsWith (setKey t) (59 :: s) = false) as ->.
    { intros s. destruct (setKey_alphabet t) as [H45 _]. apply (startsWith_cut _ 59 45 H45 H59 []). by apply not_elem_of_nil. }
    by rewrite index_here.
  - destruct (isSet (type265 n)) eqn:En; [|exact IH].
    assert (index ((59 :: setKey (type265 n) ++ b64Encode n) ++ line265 us) (setKey t)
      = Nat.add (11 + length (b64Encode n)) <$> index (line265 us) (setKey t)) as Ei.
    { cbn [app]. rewrite <-app_assoc, index_other, index_text by done.
      destruct (index (line265 us) (setKey t)); cbn; [f_equal; lia|done]. }
    rewrite Ei. destruct (head (filter _ us)) as [u|]; [|by rewrite IH].
    destruct IH as (Hok & pre & post & El & Epos & Hpost). split; [done|].
    exists ((59 :: setKey (type265 n) ++ b64Encode n) ++ pre), post. rewrite El at 1. split; [by rewrite <-!app_assoc|].
    split; [|done]. rewrite Epos. cbn [fmap option_fmap option_map]. f_equal.
    rewrite length_app. cbn [length]. rewrite length_app.
    assert (length (setKey (type265 n)) = 10%nat) as -> by (unfold setKey; destruct (_ =? _); [done|]; by destruct (_ =? _)).
    lia.
Qed.

Lemma get_set t us : isSet t = true -> Forall bytes_ok us ->
  fst (b64Decode (Between (str "profile-id=1" ++ line265 us) (setKey t) (str ";"))) = default [] (first265 t us).
Proof.
  intros Ht Hu. pose proof (line_find t us Ht Hu) as H.
  assert (exists k, setKey t = 115 :: k) as [k Ek].
  { unfold setKey. destruct (t =? hevcVPS); [by eexists|]. destruct (t =? hevcSPS); by eexists. }
  rewrite Ek in *.
  assert (index (str "profile-id=1" ++ line265 us) (115 :: k) = Nat.add 12 <$> index (line265 us) (115 :: k)) as Ei.
  { rewrite index_skip; [done|]. apply (bool_decide_unpack (Forall _ _)). vm_compute. exact I. }
  destruct (first265 t us) as [u|].
  - destruct H as (Hok & pre & post & El & Epos & Hpost). rewrite El in *.
    rewrite (app_assoc _ pre), Between_until; [|..|done].
    + by rewrite (reads u Hok).
    + rewrite <-app_assoc, Ei, Epos. cbn [fmap option_fmap option_map]. by rewrite length_app.
    + by apply b64_alphabet.
  - unfold Between. rewrite Ei, H. reflexivity.
Qed.

Lemma hevcParameterSets_line us : Forall bytes_ok us ->
  hevcParameterSets (str "profile-id=1" ++ line265 us)
  = (default [] (first265 hevcVPS us), default [] (first265 hevcSPS us), default [] (first265 hevcPPS us)).
Proof.
  intros Hu. unfold hevcParameterSets. rewrite (proj2 (Z.eqb_neq (len _) 0)).
  2: { rewrite len_app. change (len (str "profile-id=1")) with 12. pose proof (len_nonneg (line265 us)). lia. }
  change (str "sprop-vps=") with (setKey hevcVPS). change (str "sprop-sps=") with (setKey hevcSPS).
  change (str "sprop-pps=") with (setKey hevcPPS). by rewrite !get_set.
Qed.

Lemma first265_in t us u : first265 t us = Some u -> u ∈ us.
Proof.
  unfold first265. destruct (filter _ us) as [|v l] eqn:E; [done|]. intros [= ->].
  assert (u ∈ filter (fun n => type265 n = t) us) as H by (rewrite E; by left).
  by apply list_elem_of_filter in H as [_ H].
Qed.

Lemma hevcPS_line us : Forall bytes_ok us -> Forall goodUnit us ->
  hevcPS (str "profile-id=1" ++ line265 us) = avccUnits (sets265 us).
Proof.
  intros Hu Hg. unfold hevcPS. rewrite hevcParameterSets_line by done. rewrite Forall_forall in Hg.
  rewrite JoinNALU_units.
  2: { repeat constructor; match goal with |- len (default [] (first265 ?t us)) < _ =>
         destruct (first265 t us) as [u|] eqn:E; [apply (Hg u), (first265_in t), E|reflexivity] end. }
  f_equal. unfold sets265. cbn [omap list_omap].
  assert (forall t l, filter (fun n : bytes => n <> []) (default [] (first265 t us) :: l)
    = match first265 t us with Some u => u :: filter (fun n => n <> []) l | None => filter (fun n => n <> []) l end) as H.
  { intros t l. rewrite filter_cons. destruct (first265 t us) as [u|] eqn:E; [|done].
    destruct (Hg u (first265_in t us u E)) as [Hne _]. by rewrite decide_True. }
  by rewrite !H.
Qed.

(** The first parameter set of each kind in a probed access unit comes back from its codec
    line byte for byte, a kind that is missing empty; and the repair puts them in front
    of every later access unit that starts with an I-frame, and changes nothing else. *)
Theorem hevc_sets_roundtrip (n : bytes) (units : list bytes) (spare : bytes) :
  Forall goodUnit (n :: units) -> Forall bytes_ok (n :: units) ->
  exists fmtp, hevcAVCCToCodec (avccUnits (n :: units)) spare = Some fmtp
    /\ hevcParameterSets fmtp = (default [] (first265 hevcVPS (n :: units)),
         default [] (first265 hevcSPS (n :: units)), default [] (first265 hevcPPS (n :: units)))
    /\ forall u rest, goodUnit u ->
         hevcRepairAVCC fmtp (avccUnits (u :: rest))
         = Some (avccUnits ((if isIFrame (type265 u) then sets265 (n :: units) else []) ++ u :: rest)).
Proof.
  intros Hg Hb. exists (str "profile-id=1" ++ line265 (n :: units)). split; [|split].
  - unfold hevcAVCCToCodec. by rewrite hevcCodecLoop_units by (done || lia).
  - by apply hevcParameterSets_line.
  - intros u rest Hu. unfold hevcRepairAVCC. rewrite hevcPS_line by done.
    rewrite (avccUnits_cons u) at 1. rewrite unit_type265 by done. cbn [mbind option_bind]. f_equal.
    destruct (isIFrame (type265 u)); [|done]. unfold Join, avccUnits. by rewrite flat_map_app.
Qed.

Lemma hevc_sets_roundtrip_witness :
  exists fmtp, hevcAVCCToCodec (avccUnits [[0x40; 1; 12]; [0x42; 1; 1; 96]; [0x44; 1; 193]; [0x26; 1; 175]]) [] = Some fmtp
    /\ hevcParameterSets fmtp = ([0x40; 1; 12], [0x42; 1; 1; 96], [0x44; 1; 193])
    /\ forall u rest, goodUnit u ->
         hevcRepairAVCC fmtp (avccUnits (u :: rest))
         = Some (avccUnits ((if isIFrame (type265 u) then [[0x40; 1; 12]; [0x42; 1; 1; 96]; [0x44; 1; 193]] else []) ++ u :: rest)).
Proof.
  apply (hevc_sets_roundtrip [0x40; 1; 12] [[0x42; 1; 1; 96]; [0x44; 1; 193]; [0x26; 1; 175]] []).
  - repeat constructor; done.
  - repeat (constructor; [bytes_lit|]). constructor.
Defined.
