(* ===== verification/HevcSafari.v ===== *)
(** The packets for Safari ([SafariPay] of [pkg/h265/rtp.go]), and where the H.265 code
    falls short. *)

From S2P Require Import Prelude Text Annexb Codec Producer Rtp Depay Hevc HevcFacts HevcTrip HevcLine.

(** ** Start codes in place of lengths *)

(** The mark of a packet that starts an access unit: 3 with a key frame in it, else 2. *)
Definition startMark (start : Z) (us : list bytes) : Z :=
  foldl (fun s u => if isIFrame (type265 u) then 3 else if s =? 0 then 2 else s) start us.

Lemma safariMark_units us : forall fuel start,
  Forall goodUnit us -> (length (avccUnits us) < fuel)%nat ->
  safariMark fuel (avccUnits us) start = Some (Some (longJoin us, startMark start us)).
Proof.
  induction us as [|n us IH]; intros fuel start H Hf; (destruct fuel as [|fuel]; [lia|]); [done|].
  apply Forall_cons in H as [Hn H]. rewrite avccUnits_cons in *. cbn [safariMark].
  rewrite unit_load, unit_type265 by done. cbv zeta.
  destruct (be32 (len n) ++ n ++ avccUnits us) as [|x l] eqn:E; [|rewrite <-E].
  { apply (f_equal length) in E. rewrite length_app in E. done. }
  rewrite unit_drop by auto.
  rewrite IH; [|done|rewrite <-E, !length_app in Hf; cbn in Hf |- *; lia]. cbn [mbind option_bind].
  assert (drop 4 (take (Z.to_nat (len n + 4)) (be32 (len n) ++ n ++ avccUnits us)) = n) as ->.
  { rewrite app_assoc, take_app_length'; [done|]. rewrite length_app. change (length (be32 (len n))) with 4%nat.
    unfold len. lia. }
  reflexivity.
Qed.

Lemma startMark_cases us start : us <> [] -> start = 0 \/ start = 2 \/ start = 3 ->
  startMark start us = 2 \/ startMark start us = 3.
Proof.
  intros Hne Hs. assert (forall us s, s = 2 \/ s = 3 -> startMark s us = 2 \/ startMark s us = 3) as H.
  { clear. induction us as [|u us IH]; intros s Hs; [done|]. cbn [startMark foldl].
    apply IH. destruct (isIFrame _); [by right|]. destruct Hs as [->| ->]; [by left|by right]. }
  destruct us as [|u us]; [done|]. cbn [startMark foldl]. apply H.
  destruct (isIFrame _); [by right|]. destruct Hs as [->|[->| ->]]; [by left|by left|by right].
Qed.

(** ** Packets *)

Section cut.
Context {Seq : Type} (next : Seq -> Z * Seq) (size ts : Z) (Hsize : 1 <= size).

(** The packets behind an access unit: its bytes in order behind one byte each. *)
Record cuts (start : Z) (au : bytes) (q : Seq) (packets : list rtpPacket) : Prop := {
  cuts_bytes : concat (map (fun k => drop 1 (rtpPayload k)) packets) = au;
  cuts_fit : Forall (fun k => 0 < len (rtpPayload k) <= size + 1) packets;
  cuts_marks : exists n, map (fun k => hd 0 (rtpPayload k)) packets
                         = start :: repeat (if 1 <? start then start - 2 else start) n;
  cuts_last : exists n, map Marker packets = repeat false n ++ [true];
  cuts_header : Forall (fun k => Version k = 2 /\ rtpTimestamp k = ts) packets;
  cuts_numbers : map SequenceNumber packets = draws next (length packets) q;
}.

Lemma safariCut_spec fuel : forall start au q, (length au < fuel)%nat -> start <= 3 ->
  exists packets q', safariCut next fuel size ts start au q = Some (packets, q') /\ cuts start au q packets.
Proof.
  induction fuel as [|fuel IH]; intros start au q Hf Hs; [lia|]. cbn [safariCut].
  destruct (next q) as [n q1] eqn:Eq. destruct (Z.ltb_spec size (len au)) as [Hl|Hl].
  - set (start' := if 1 <? start then start - 2 else start).
    destruct (IH start' (drop (Z.to_nat size) au) q1) as (ks & q' & E & [H1 H2 [k H3] [l H4] H5 H6]).
    { rewrite length_drop. unfold len in Hl. lia. }
    { unfold start'. destruct (1 <? start); lia. }
    rewrite E. cbn [mbind option_bind]. eexists _, q'. split; [reflexivity|].
    assert ((if 1 <? start' then start' - 2 else start') = start') as Es.
    { destruct (Z.ltb_spec 1 start'); [|done]. unfold start' in *. destruct (Z.ltb_spec 1 start); lia. }
    rewrite Es in H3. constructor.
    + cbn [map concat rtpPayload]. rewrite H1. cbn [drop]. rewrite drop_0. apply take_drop.
    + constructor; [|done]. cbn [rtpPayload]. rewrite len_cons. unfold len in *. rewrite length_take. lia.
    + exists (S k). cbn [map rtpPayload hd]. fold start'. by rewrite H3.
    + exists (S l). cbn [map Marker]. by rewrite H4.
    + by constructor.
    + cbn [map length draws SequenceNumber]. by rewrite Eq, H6.
  - eexists _, q1. split; [reflexivity|]. constructor.
    + cbn. by rewrite app_nil_r.
    + constructor; [|done]. cbn [rtpPayload]. rewrite len_cons. pose proof (len_nonneg au). lia.
    + by exists 0%nat.
    + by exists 0%nat.
    + by constructor.
    + cbn [map length draws SequenceNumber]. by rewrite Eq.
Qed.
End cut.

(** While the size is at least 2, an access unit goes out as its Annex-B bytes, cut into
    packets that fit and start with a mark: 3 or 2 for the first, with a key frame or
    without, 1 or 0 for the others; the marker is on the last one.  Each access unit makes
    the size one smaller. *)
Theorem safari_packets {Seq : Type} (next : Seq -> Z * Seq) (size : Z) (q : Seq) (us : list bytes) (packet : rtpPacket) :
  2 <= size -> us <> [] -> Forall goodUnit us ->
  Version packet = RTPPacketVersionAVC -> rtpPayload packet = avccUnits us ->
  exists packets q', SafariPay next packet (size, q) = Some (Some (packets, (size - 1, q')))
    /\ cuts next (size - 1) (rtpTimestamp packet) (if existsb (fun u => isIFrame (type265 u)) us then 3 else 2)
         (longJoin us) q packets.
Proof.
  intros Hs Hne Hg Hv Hp. unfold SafariPay. rewrite Hv, Hp. change (_ =? _) with true. cbn [negb fst snd].
  rewrite safariMark_units by (done || lia). cbn [mbind option_bind].
  rewrite (proj2 (Z.ltb_ge size 1)) by lia.
  assert (startMark 0 us = if existsb (fun u => isIFrame (type265 u)) us then 3 else 2) as Em.
  { assert (forall us s, s = 2 \/ s = 3 -> startMark s us = if existsb (fun u => isIFrame (type265 u)) us then 3 else s) as H.
    { clear. induction us as [|u us IH]; intros s Hs; [done|]. cbn [startMark foldl existsb].
      destruct (isIFrame (type265 u)); cbn [orb].
      - fold (startMark 3 us). rewrite IH by (by right). by destruct (existsb _ us).
      - rewrite (proj2 (Z.eqb_neq s 0)) by lia. by apply IH. }
    destruct us as [|u us]; [done|]. cbn [startMark foldl existsb].
    destruct (isIFrame (type265 u)); cbn [orb]; change (0 =? 0) with true; cbv iota.
    - fold (startMark 3 us). rewrite H by (by right). by destruct (existsb _ us).
    - apply H. by left. }
  rewrite Em.
  destruct (safariCut_spec next (size - 1) (rtpTimestamp packet) ltac:(lia) (S (length (longJoin us)))
    (if existsb (fun u => isIFrame (type265 u)) us then 3 else 2) (longJoin us) q) as (ks & q' & E & H);
    [lia|destruct (existsb _ us); lia|].
  rewrite E. cbn [mbind option_bind]. by exists ks, q'.
Qed.

Lemma safari_packets_witness :
  exists packets q', SafariPay counter (mkRTP 0 false 7 900 (avccUnits [[0x26; 1; 2]; [0x28; 3]])) (8, 5)
    = Some (Some (packets, (7, q')))
    /\ cuts counter 7 900 3 (longJoin [[0x26; 1; 2]; [0x28; 3]]) 5 packets.
Proof.
  apply (safari_packets counter 8 5 [[0x26; 1; 2]; [0x28; 3]] (mkRTP 0 false 7 900 (avccUnits [[0x26; 1; 2]; [0x28; 3]]))).
  - lia.
  - discriminate.
  - repeat constructor; discriminate || reflexivity.
  - reflexivity.
  - reflexivity.
Defined.

(** ** Where the code falls short *)

(** The size is the closure's, not the access unit's: with 1188 bytes at the start, the
    1188th access unit makes packets of no bytes for ever. *)
Lemma no_room_for_ever {Seq : Type} (next : Seq -> Z * Seq) ts fuel : forall start au q,
  au <> [] -> safariCut next fuel 0 ts start au q = None.
Proof.
  induction fuel as [|fuel IH]; intros start au q Hne; [done|]. cbn [safariCut].
  destruct (next q) as [n q1]. destruct au as [|x au]; [done|].
  rewrite (proj2 (Z.ltb_lt 0 (len (x :: au)))) by (rewrite len_cons; pose proof (len_nonneg au); lia).
  cbn [Z.to_nat drop]. rewrite IH by done. done.
Qed.

Lemma safari_never_returns {Seq : Type} (next : Seq -> Z * Seq) q us packet :
  us <> [] -> Forall goodUnit us -> Version packet = RTPPacketVersionAVC -> rtpPayload packet = avccUnits us ->
  SafariPay next packet (1, q) = None.
Proof.
  intros Hne Hg Hv Hp. unfold SafariPay. rewrite Hv, Hp. change (_ =? _) with true. cbn [negb fst snd].
  rewrite safariMark_units by (done || lia). cbn [mbind option_bind]. change (1 <? 1) with false. cbv iota.
  change (1 - 1) with 0. rewrite no_room_for_ever; [done|]. by destruct us.
Qed.

(** Two short units share a packet, and the depacketiser of the same package takes it for
    one unit of type 48. *)
Lemma aggregate_not_split :
  exists packets q d,
    hevcRTPPay counter 100 (mkRTP 0 false 0 900 (avccUnits [[0x40; 1; 7]; [0x02; 1; 8; 9]]))
      (mkHPayloader false false 0, 0) = Some (packets, q)
    /\ hevcDepayAll [] packets newHDepay
       = Some ([mkRTP 0 true 0 900 (avccUnits [[0x60; 1; 0; 3; 0x40; 1; 7; 0; 4; 0x02; 1; 8; 9]])], d).
Proof. do 3 eexists. split; [vm_compute; reflexivity|]. vm_compute. reflexivity. Qed.

(** The header of an aggregation packet is not counted: it can be 2 bytes too long. *)
Lemma aggregate_too_long :
  hevcPayload (mkHPayloader false false 0) 10 (avccUnits [[0x40; 1; 7]; [0x42; 1; 8]])
  = Some ([[0x60; 1; 0; 3; 0x40; 1; 7; 0; 3; 0x42; 1; 8]], mkHPayloader false false 0).
Proof. vm_compute. reflexivity. Qed.

(** With order numbers the last byte of an aggregation packet is cut off. *)
Lemma order_number_cuts :
  hevcPayload (mkHPayloader true false 5) 100 (avccUnits [[0x40; 1; 7]; [0x42; 1; 8]])
  = Some ([[0x60; 1; 0; 5; 0; 3; 0x40; 1; 7; 0; 0; 3; 0x42; 1]], mkHPayloader true false 5).
Proof. vm_compute. reflexivity. Qed.

(** A unit of one byte between two others makes the packetiser panic. *)
Lemma one_byte_panics :
  hevcPayload (mkHPayloader false false 0) 100 (avccUnits [[0x40; 1; 7]; [0x42]]) = None.
Proof. vm_compute. reflexivity. Qed.

(** The check of where a fragmented unit starts adds 4 on the wrong side: an end fragment
    behind the start of another unit makes the depacketiser panic. *)
Lemma lost_start_panics :
  let small := [0x02; 1; 5] in
  let fu f := [0x62; 1; f; 0] in
  hevcDepayAll [] [mkRTP 2 false 1 0 small; mkRTP 2 false 2 0 (fu 0x81); mkRTP 2 false 9 0 small;
                   mkRTP 2 false 10 0 small; mkRTP 2 false 11 0 [0x62; 1; 0x41]] newHDepay = None.
Proof. vm_compute. reflexivity. Qed.

(** A packet behind a gap is dropped with the unit before it, also when it is whole. *)
Lemma whole_unit_dropped :
  ('(out, d) ← hevcDepayAll [] [mkRTP 2 false 1 0 [0x02; 1; 5]; mkRTP 2 true 3 900 [0x02; 1; 6]] newHDepay;
   Some (out, dbuf d)) = Some ([], []).
Proof. vm_compute. reflexivity. Qed.
