(* ===== verification/Config.v ===== *)
(** Decoder configurations of MP4 and RTMP ([pkg/h264/mpeg4.go], [pkg/h265/mpeg4.go]):
    parameter sets in a record of their own, and the codec line made from it.  [None] is
    a run-time panic. *)

From S2P Require Import Prelude Text Annexb Codec Hevc HevcLine.
From S2P Require TutkSession.
Import TutkSession(put, copyAt, make).

(** ** H.264 *)

(** One list of [n] sets: the first one, kept if there was one before, and what is behind
    the list, or nothing when it breaks off. *)
Fixpoint configSets (n : nat) (found : option bytes) (conf : bytes) : option bytes * option bytes :=
  match n with
  | O => (found, Some conf)
  | S n =>
      match rdbe16 conf 0 with
      | None => (found, None)
      | Some k =>
          let size := 2 + k in
          if len conf <? size then (found, None) else
          configSets n (match found with None => Some (seg conf 2 size) | Some _ => found end)
            (drop (Z.to_nat size) conf)
      end
  end.

Record avcConfig := mkAvcConfig { cProfile : option bytes; cSPS : option bytes; cPPS : option bytes }.

Definition DecodeConfig (conf : bytes) : option avcConfig :=
  if (len conf <? 6) || negb (at_ conf 0 =? 1) then Some (mkAvcConfig None None None) else
  let profile := Some (seg conf 1 4) in
  let '(sps, rest) := configSets (Z.to_nat (Z.land (at_ conf 5) 0x1F)) None (drop 6 conf) in
  match rest with
  | None => Some (mkAvcConfig profile sps None)
  | Some conf =>
      count ← rd conf 0;
      Some (mkAvcConfig profile sps (configSets (Z.to_nat count) None (drop 1 conf)).1)
  end.

(** [spare] is the memory between the length and the capacity of [sps]. *)
Definition EncodeConfig (sps pps spare : bytes) : option bytes :=
  let spsSize := u16 (len sps) in
  let ppsSize := u16 (len pps) in
  let buf := make (u16 (5 + 3 + spsSize + 3 + ppsSize)) in
  buf ← put 0 [1] buf;
  profile ← sub (sps ++ spare) 1 4;
  buf ← copyAt 1 profile buf;
  buf ← put 4 [0xFF] buf;
  _ ← rd buf (5 + 3);
  buf ← put 5 [0xE1] buf;
  buf ← put 6 (be16 spsSize) buf;
  buf ← copyAt 8 sps buf;
  let b := u16 (5 + 3 + spsSize) in
  _ ← rd buf (b + 3);
  buf ← put b [1] buf;
  buf ← put (b + 1) (be16 ppsSize) buf;
  copyAt (b + 3) pps buf.

(** The codec line. *)
Definition ConfigToCodec (conf : bytes) : option bytes :=
  c ← DecodeConfig conf;
  Some (str "packetization-mode=1"
    ++ match cProfile c with Some p => str ";profile-level-id=" ++ hexEncode p | None => [] end
    ++ match cSPS c, cPPS c with
       | Some sps, Some pps => str ";sprop-parameter-sets=" ++ b64Encode sps ++ str "," ++ b64Encode pps
       | _, _ => []
       end).

(** ** H.265 *)

Record hevcConfig := mkHevcConfig { hProfile : bytes; hVPS : option bytes; hSPS : option bytes; hPPS : option bytes }.

(** The set at [off]: nothing when its list does not hold exactly one.  [spare] is the
    memory behind [conf], which a slice expression may reach into. *)
Definition configSet (conf spare : bytes) (off : Z) : option (option (Z * bytes)) :=
  b ← sub conf off (len conf);
  n ← rdbe16 b 1;
  if negb (n =? 1) then Some None else
  size ← rdbe16 b 3;
  set ← sub (b ++ spare) 5 (u16 (5 + size));
  Some (Some (size, set)).

Definition hevcDecodeConfig (conf spare : bytes) : option hevcConfig :=
  profile ← sub (conf ++ spare) 1 4;
  v ← configSet conf spare 23;
  match v with
  | None => Some (mkHevcConfig profile None None None)
  | Some (vpsSize, vps) =>
      s ← configSet conf spare (u16 (23 + 5 + vpsSize));
      match s with
      | None => Some (mkHevcConfig profile (Some vps) None None)
      | Some (spsSize, sps) =>
          p ← configSet conf spare (u16 (23 + 5 + vpsSize + 5 + spsSize));
          match p with
          | None => Some (mkHevcConfig profile (Some vps) (Some sps) None)
          | Some (_, pps) => Some (mkHevcConfig profile (Some vps) (Some sps) (Some pps))
          end
      end
  end.

(** A set written at [b]: its type, the number 1, its size and the set. *)
Definition writeSet (b : Z) (set : bytes) (buf : bytes) : option bytes :=
  _ ← rd buf (b + 5);
  c ← rd set 0;
  buf ← put b [hevcType c] buf;
  buf ← put (b + 1) (be16 1) buf;
  buf ← put (b + 3) (be16 (u16 (len set))) buf;
  copyAt (b + 5) set buf.

Definition hevcEncodeConfig (vps sps pps spare : bytes) : option bytes :=
  let vpsSize := u16 (len vps) in
  let spsSize := u16 (len sps) in
  let ppsSize := u16 (len pps) in
  let buf := make (u16 (23 + 5 + vpsSize + 5 + spsSize + 5 + ppsSize)) in
  buf ← put 0 [1] buf;
  profile ← sub (sps ++ spare) 3 6;
  buf ← copyAt 1 profile buf;
  buf ← put 21 [3] buf;
  buf ← put 22 [3] buf;
  buf ← writeSet 23 vps buf;
  buf ← writeSet (u16 (23 + 5 + vpsSize)) sps buf;
  writeSet (u16 (23 + 5 + vpsSize + 5 + spsSize)) pps buf.

Definition hevcConfigToCodec (conf spare : bytes) : option bytes :=
  c ← hevcDecodeConfig conf spare;
  let set (key : bytes) (s : option bytes) := match s with Some s => key ++ b64Encode s | None => [] end in
  Some (str "profile-id=1" ++ set (str ";sprop-vps=") (hVPS c) ++ set (str ";sprop-sps=") (hSPS c)
        ++ set (str ";sprop-pps=") (hPPS c)).

Example config_bytes :
  EncodeConfig [0x67; 0x64; 0; 0x28; 9] [0x68; 0xEE] []
  = Some [1; 0x64; 0; 0x28; 0xFF; 0xE1; 0; 5; 0x67; 0x64; 0; 0x28; 9; 1; 0; 2; 0x68; 0xEE].
Proof. vm_compute. reflexivity. Qed.

(** ** Writing from left to right *)

Lemma put_next off pre src n : off = len pre -> (length src <= n)%nat ->
  put off src (pre ++ zeros n) = Some ((pre ++ src) ++ zeros (n - length src)).
Proof.
  intros -> H. unfold put. rewrite (proj2 (Z.leb_le _ _)) by apply len_nonneg.
  rewrite len_app. unfold zeros. unfold len at 4. rewrite length_replicate.
  rewrite (proj2 (Z.leb_le _ _)) by (unfold len; lia). cbn [andb]. f_equal.
  unfold blit, len. rewrite Nat2Z.id, take_app_length, length_app, length_replicate.
  rewrite take_ge by lia. rewrite drop_app_ge, drop_replicate by lia. rewrite <-app_assoc. do 3 f_equal. lia.
Qed.

Lemma copy_next off pre src n : off = len pre -> (length src <= n)%nat ->
  copyAt off src (pre ++ zeros n) = Some ((pre ++ src) ++ zeros (n - length src)).
Proof.
  intros Ho H. pose proof (put_next off pre src n Ho H) as E. unfold put in E. unfold copyAt.
  destruct (_ && _) eqn:Hc in E; [|done]. apply andb_true_iff in Hc as [H1 _]. rewrite H1.
  rewrite (proj2 (Z.leb_le _ _)) by (rewrite len_app; pose proof (len_nonneg (zeros n)); lia). exact E.
Qed.

(** What was not written is zero. *)
Lemma skip_next pre n k : (k <= n)%nat -> pre ++ zeros n = (pre ++ zeros k) ++ zeros (n - k).
Proof.
  intros H. unfold zeros. rewrite <-app_assoc, <-replicate_add. do 2 f_equal. lia.
Qed.

Lemma rd_zeros pre n i : len pre <= i < len pre + Z.of_nat n -> rd (pre ++ zeros n) i = Some 0.
Proof.
  intros H. rewrite rd_app_r by lia. unfold rd. rewrite decide_True by lia. apply lookup_replicate_2. lia.
Qed.

(** ** Configurations are read back *)

Definition avcConf (sps pps : bytes) : bytes :=
  [1] ++ seg sps 1 4 ++ [0xFF; 0xE1] ++ be16 (len sps) ++ sps ++ [1] ++ be16 (len pps) ++ pps.

Lemma len_seg3 l a : 0 <= a -> a + 3 <= len l -> len (seg l a (a + 3)) = 3.
Proof. intros. rewrite len_seg by lia. lia. Qed.

(** Proves that the next place to write at is where the last write ended. *)
Ltac at_end := rewrite ?len_app, ?len_cons; change (len (@nil Z)) with 0; change (len (be16 _)) with 2; lia.
Ltac at_zeros :=
  change (len [1]) with 1; change (len (zeros 17)) with 17; change (len [3]) with 1; change (len (@nil Z)) with 0; lia.
(** The same for what is left of the buffer. *)
Ltac left_over := rewrite ?length_app; unfold len in *; cbn [length be16] in *; lia.

Lemma EncodeConfig_bytes sps pps spare :
  4 <= len sps -> 1 <= len pps -> len sps + len pps + 11 < 65536 ->
  EncodeConfig sps pps spare = Some (avcConf sps pps).
Proof.
  intros Hs Hp Hl. unfold EncodeConfig. cbv zeta.
  rewrite (u16_small (len sps)), (u16_small (len pps)) by (unfold is_u16; lia).
  rewrite !u16_small by (unfold is_u16; lia).
  rewrite sub_in by (rewrite ?len_app; pose proof (len_nonneg spare); lia).
  assert (seg (sps ++ spare) 1 4 = seg sps 1 4) as ->.
  { unfold seg, len in *. rewrite drop_app_le by lia. apply take_app_le. rewrite length_drop. lia. }
  pose proof (len_seg3 sps 1 ltac:(lia) ltac:(lia)) as H3. change (1 + 3) with 4 in H3.
  unfold make. set (n := Z.to_nat (5 + 3 + len sps + 3 + len pps)).
  assert (n = (11 + length sps + length pps)%nat) as Hn by (unfold n, len in *; lia). clearbody n.
  change (zeros n) with ([] ++ zeros n). rewrite put_next by (done || left_over). cbn [mbind option_bind].
  rewrite copy_next by (at_end || left_over). cbn [mbind option_bind].
  rewrite put_next by (at_end || left_over). cbn [mbind option_bind].
  rewrite rd_zeros by (split; [at_end|rewrite ?len_app, ?len_cons; unfold len in *; cbn [length]; lia]).
  cbn [mbind option_bind].
  rewrite put_next by (at_end || left_over). cbn [mbind option_bind].
  rewrite put_next by (at_end || left_over). cbn [mbind option_bind].
  rewrite copy_next by (at_end || left_over). cbn [mbind option_bind].
  rewrite rd_zeros by (split; [at_end|rewrite ?len_app, ?len_cons; unfold len in *; cbn [length be16]; lia]).
  cbn [mbind option_bind].
  rewrite put_next by (at_end || left_over). cbn [mbind option_bind].
  rewrite put_next by (at_end || left_over). cbn [mbind option_bind].
  rewrite copy_next by (at_end || left_over).
  match goal with |- context [zeros ?k] => replace k with 0%nat by left_over end.
  cbn [zeros replicate]. unfold avcConf. rewrite app_nil_r, <-!app_assoc. reflexivity.
Qed.

Lemma configSets_one set rest : len set < 65536 ->
  configSets 1 None (be16 (len set) ++ set ++ rest) = (Some set, Some rest).
Proof.
  intros H. pose proof (len_nonneg set). pose proof (len_nonneg rest). unfold configSets.
  rewrite rdbe16_be16 by (unfold is_u16; lia). rewrite !len_app. change (len (be16 (len set))) with 2.
  rewrite (proj2 (Z.ltb_ge _ _)) by lia. unfold seg.
  rewrite (drop_app_length' (be16 (len set))) by done.
  rewrite take_app_length' by (unfold len; lia). do 2 f_equal.
  rewrite app_assoc. apply drop_app_length'. rewrite length_app. cbn [length be16]. unfold len. lia.
Qed.

Lemma avcConf_decoded sps pps : 4 <= len sps -> 1 <= len pps -> len sps + len pps + 11 < 65536 ->
  DecodeConfig (avcConf sps pps) = Some (mkAvcConfig (Some (seg sps 1 4)) (Some sps) (Some pps)).
Proof.
  intros Hs Hp Hl. pose proof (len_seg3 sps 1 ltac:(lia) ltac:(lia)) as H3. change (1 + 3) with 4 in H3.
  unfold DecodeConfig, avcConf. destruct (seg sps 1 4) as [|p [|c [|l [|]]]];
    try (exfalso; unfold len in H3; cbn in H3; lia). cbn [app].
  rewrite (proj2 (Z.ltb_ge _ _)) by (rewrite !len_cons; pose proof (len_nonneg (be16 (len sps) ++ sps ++ 1 :: be16 (len pps) ++ pps)); lia).
  change (at_ (1 :: ?x) 0) with 1. change (1 =? 1) with true. cbn [orb negb].
  set (tl := be16 (len sps) ++ sps ++ 1 :: be16 (len pps) ++ pps).
  change (seg (1 :: p :: c :: l :: 255 :: 225 :: tl) 1 4) with [p; c; l].
  change (at_ (1 :: p :: c :: l :: 255 :: 225 :: tl) 5) with 225. change (Z.to_nat (Z.land 225 0x1F)) with 1%nat.
  change (drop 6 (1 :: p :: c :: l :: 255 :: 225 :: tl)) with tl. unfold tl.
  rewrite configSets_one by lia. change (rd (1 :: ?x) 0) with (Some 1). cbn [mbind option_bind].
  change (Z.to_nat 1) with 1%nat. change (drop 1 (1 :: ?x)) with x.
  pose proof (configSets_one pps [] ltac:(lia)) as E. rewrite app_nil_r in E. by rewrite E.
Qed.

(** The parameter sets of an H.264 codec go into a configuration and come out of it as
    they were, and again out of the codec line made from it. *)
Theorem avc_config_roundtrip (sps pps spare : bytes) :
  4 <= len sps -> 1 <= len pps -> len sps + len pps + 11 < 65536 -> bytes_ok sps -> bytes_ok pps ->
  exists conf line, EncodeConfig sps pps spare = Some conf
    /\ DecodeConfig conf = Some (mkAvcConfig (Some (seg sps 1 4)) (Some sps) (Some pps))
    /\ ConfigToCodec conf = Some line /\ GetParameterSet line = (sps, pps).
Proof.
  intros Hs Hp Hl Hsb Hpb. eexists _, _. split; [by apply EncodeConfig_bytes|].
  pose proof (avcConf_decoded sps pps Hs Hp Hl) as E. split; [exact E|].
  split; [unfold ConfigToCodec; rewrite E; reflexivity|]. cbn [cProfile cSPS cPPS].
  set (h := str "packetization-mode=1" ++ str ";profile-level-id=" ++ hexEncode (seg sps 1 4) ++ str ";").
  assert (Forall (fun c => c <> 115) h) as Hh.
  { repeat (apply Forall_app; split); try (apply (bool_decide_unpack (Forall _ _)); vm_compute; exact I).
    eapply Forall_impl; [by apply hexEncode_small, seg_ok|]. cbn. intros. lia. }
  pose proof (GetParameterSet_line h sps pps [] [] Hh Hsb Hpb ltac:(done) ltac:(constructor) ltac:(by left)) as G.
  unfold h in G. change (str ";sprop-parameter-sets=") with (str ";" ++ str "sprop-parameter-sets=").
  rewrite !app_nil_r, <-!app_assoc in G. rewrite <-!app_assoc. exact G.
Qed.

Lemma avc_config_roundtrip_witness :
  exists conf line, EncodeConfig [0x67; 0x64; 0; 0x28; 9] [0x68; 0xEE] [] = Some conf
    /\ DecodeConfig conf = Some (mkAvcConfig (Some [0x64; 0; 0x28]) (Some [0x67; 0x64; 0; 0x28; 9]) (Some [0x68; 0xEE]))
    /\ ConfigToCodec conf = Some line /\ GetParameterSet line = ([0x67; 0x64; 0; 0x28; 9], [0x68; 0xEE]).
Proof. apply (avc_config_roundtrip [0x67; 0x64; 0; 0x28; 9] [0x68; 0xEE] []); try (vm_compute; congruence); bytes_lit. Defined.

(** ** The same for H.265 *)

Definition hevcSetBytes (set : bytes) : bytes := [hevcType (hd 0 set)] ++ be16 1 ++ be16 (len set) ++ set.
Definition hevcConf (vps sps pps : bytes) : bytes :=
  [1] ++ seg sps 3 6 ++ zeros 17 ++ [3; 3] ++ hevcSetBytes vps ++ hevcSetBytes sps ++ hevcSetBytes pps.

Lemma len_setBytes set : len (hevcSetBytes set) = 5 + len set.
Proof. unfold hevcSetBytes. rewrite !len_app. change (len [_]) with 1. change (len (be16 _)) with 2. lia. Qed.

Lemma writeSet_next b pre set n : b = len pre -> 1 <= len set < 65536 -> (5 + length set <= n)%nat ->
  writeSet b set (pre ++ zeros n) = Some ((pre ++ hevcSetBytes set) ++ zeros (n - (5 + length set))).
Proof.
  intros -> Hs Hn. unfold writeSet. rewrite rd_zeros by (unfold len in *; lia). cbn [mbind option_bind].
  destruct set as [|c set0] eqn:Es; [change (len (@nil Z)) with 0 in Hs; lia|]. rewrite <-Es in *.
  assert (rd set 0 = Some (hd 0 set)) as -> by (by subst set). cbn [mbind option_bind].
  rewrite (u16_small (len set)) by (unfold is_u16; lia).
  rewrite put_next by (at_end || left_over). cbn [mbind option_bind].
  rewrite put_next by (at_end || left_over). cbn [mbind option_bind].
  rewrite put_next by (at_end || left_over). cbn [mbind option_bind].
  rewrite copy_next by (at_end || left_over). f_equal. unfold hevcSetBytes. rewrite <-!app_assoc. do 6 f_equal.
  cbn [length be16]. lia.
Qed.

Lemma hevcEncodeConfig_bytes vps sps pps spare :
  1 <= len vps -> 6 <= len sps -> 1 <= len pps -> len vps + len sps + len pps + 38 < 65536 ->
  hevcEncodeConfig vps sps pps spare = Some (hevcConf vps sps pps).
Proof.
  intros Hv Hs Hp Hl. unfold hevcEncodeConfig. cbv zeta.
  rewrite (u16_small (len vps)), (u16_small (len sps)), (u16_small (len pps)) by (unfold is_u16; lia).
  rewrite !u16_small by (unfold is_u16; lia).
  rewrite sub_in by (rewrite ?len_app; pose proof (len_nonneg spare); lia).
  assert (seg (sps ++ spare) 3 6 = seg sps 3 6) as ->.
  { unfold seg, len in *. rewrite drop_app_le by lia. apply take_app_le. rewrite length_drop. lia. }
  pose proof (len_seg3 sps 3 ltac:(lia) ltac:(lia)) as H3. change (3 + 3) with 6 in H3.
  unfold make. set (n := Z.to_nat (23 + 5 + len vps + 5 + len sps + 5 + len pps)).
  assert (n = (38 + length vps + length sps + length pps)%nat) as Hn by (unfold n, len in *; lia). clearbody n.
  change (zeros n) with ([] ++ zeros n). rewrite put_next by (done || left_over). cbn [mbind option_bind].
  rewrite copy_next by (at_end || left_over). cbn [mbind option_bind].
  rewrite (skip_next _ _ 17) by left_over.
  rewrite put_next; [|rewrite !len_app, H3; reflexivity|left_over]. cbn [mbind option_bind].
  rewrite put_next; [|rewrite !len_app, H3; reflexivity|left_over]. cbn [mbind option_bind].
  rewrite writeSet_next; [|rewrite !len_app, H3; reflexivity|lia|left_over]. cbn [mbind option_bind].
  rewrite writeSet_next; [|rewrite !len_app, len_setBytes, H3; at_zeros|lia|left_over]. cbn [mbind option_bind].
  rewrite writeSet_next; [|rewrite !len_app, !len_setBytes, H3; at_zeros|lia|left_over].
  match goal with |- context [zeros (?a - (5 + length pps))] => replace (a - (5 + length pps))%nat with 0%nat by left_over end.
  unfold hevcConf. cbn [zeros replicate]. rewrite app_nil_r, <-!app_assoc. reflexivity.
Qed.

Lemma configSet_here pre set rest spare off : off = len pre -> len set + 5 < 65536 ->
  configSet (pre ++ hevcSetBytes set ++ rest) spare off = Some (Some (len set, set)).
Proof.
  intros -> Hs. unfold configSet.
  pose proof (len_nonneg pre). pose proof (len_nonneg set). pose proof (len_nonneg rest). pose proof (len_nonneg spare).
  assert (sub (pre ++ hevcSetBytes set ++ rest) (len pre) (len (pre ++ hevcSetBytes set ++ rest))
    = Some (hevcSetBytes set ++ rest)) as ->.
  { pose proof (len_nonneg (hevcSetBytes set ++ rest)).
    rewrite len_app, sub_in by (rewrite ?len_app in *; lia). by rewrite seg_app_exact. }
  cbn [mbind option_bind]. set (c := hevcType (hd 0 set)).
  assert (hevcSetBytes set ++ rest = [c] ++ be16 1 ++ be16 (len set) ++ set ++ rest) as ->
    by (unfold hevcSetBytes, c; by rewrite <-!app_assoc).
  change (rdbe16 ([c] ++ be16 1 ++ ?x) 1) with (Some 1 : option Z). cbn [mbind option_bind]. change (1 =? 1) with true. cbn [negb].
  assert (rdbe16 ([c] ++ be16 1 ++ be16 (len set) ++ set ++ rest) 3 = Some (len set)) as ->.
  { rewrite <-(rdbe16_be16 (len set) (set ++ rest)) by (unfold is_u16; lia). reflexivity. }
  cbn [mbind option_bind]. rewrite u16_small by (unfold is_u16; lia).
  rewrite sub_in by (rewrite ?len_app; change (len [c]) with 1; change (len (be16 _)) with 2; lia).
  unfold seg. rewrite Z.add_simpl_l.
  change (drop (Z.to_nat 5) (([c] ++ be16 1 ++ be16 (len set) ++ set ++ rest) ++ spare)) with ((set ++ rest) ++ spare).
  rewrite <-app_assoc, take_app_length' by (unfold len; lia). done.
Qed.

Lemma hevcConf_decoded vps sps pps spare :
  1 <= len vps -> 6 <= len sps -> 1 <= len pps -> len vps + len sps + len pps + 38 < 65536 ->
  hevcDecodeConfig (hevcConf vps sps pps) spare = Some (mkHevcConfig (seg sps 3 6) (Some vps) (Some sps) (Some pps)).
Proof.
  intros Hv Hs Hp Hl. pose proof (len_seg3 sps 3 ltac:(lia) ltac:(lia)) as H3. change (3 + 3) with 6 in H3.
  unfold hevcDecodeConfig, hevcConf.
  set (head := [1] ++ seg sps 3 6 ++ zeros 17 ++ [3; 3]).
  assert (len head = 23) as H23 by (unfold head; rewrite !len_app, H3; reflexivity).
  assert ([1] ++ seg sps 3 6 ++ zeros 17 ++ [3; 3] ++ hevcSetBytes vps ++ hevcSetBytes sps ++ hevcSetBytes pps
    = head ++ hevcSetBytes vps ++ hevcSetBytes sps ++ hevcSetBytes pps) as -> by (unfold head; by rewrite <-!app_assoc).
  rewrite sub_in by (rewrite ?len_app, ?H23, ?len_setBytes; pose proof (len_nonneg spare); lia).
  assert (seg ((head ++ hevcSetBytes vps ++ hevcSetBytes sps ++ hevcSetBytes pps) ++ spare) 1 4 = seg sps 3 6) as ->.
  { unfold head. destruct (seg sps 3 6) as [|p [|c [|l [|]]]]; try (exfalso; unfold len in H3; cbn in H3; lia). reflexivity. }
  cbn [mbind option_bind]. rewrite configSet_here by lia. cbn [mbind option_bind].
  rewrite (app_assoc head), configSet_here; [|rewrite u16_small by (unfold is_u16; lia); rewrite len_app, len_setBytes; lia|lia].
  cbn [mbind option_bind]. rewrite (app_assoc (head ++ hevcSetBytes vps)).
  rewrite <-(app_nil_r (hevcSetBytes pps)), configSet_here;
    [done|rewrite u16_small by (unfold is_u16; lia); rewrite !len_app, !len_setBytes; lia|lia].
Qed.

Theorem hevc_config_roundtrip (vps sps pps spare spare' : bytes) :
  type265 vps = hevcVPS -> type265 sps = hevcSPS -> type265 pps = hevcPPS ->
  1 <= len vps -> 6 <= len sps -> 1 <= len pps -> len vps + len sps + len pps + 38 < 65536 ->
  bytes_ok vps -> bytes_ok sps -> bytes_ok pps ->
  exists conf line, hevcEncodeConfig vps sps pps spare = Some conf
    /\ hevcDecodeConfig conf spare' = Some (mkHevcConfig (seg sps 3 6) (Some vps) (Some sps) (Some pps))
    /\ hevcConfigToCodec conf spare' = Some line /\ hevcParameterSets line = (vps, sps, pps).
Proof.
  intros Tv Ts Tp Hv Hs Hp Hl Bv Bs Bp. eexists _, _. split; [by apply hevcEncodeConfig_bytes|].
  pose proof (hevcConf_decoded vps sps pps spare' Hv Hs Hp Hl) as E. split; [exact E|].
  split; [unfold hevcConfigToCodec; rewrite E; reflexivity|]. cbn [hVPS hSPS hPPS].
  pose proof (hevcParameterSets_line [vps; sps; pps] ltac:(by repeat constructor)) as G.
  unfold first265 in G. rewrite !filter_cons, Tv, Ts, Tp in G.
  transitivity (hevcParameterSets (str "profile-id=1" ++ line265 [vps; sps; pps])); [|exact G].
  f_equal. unfold line265, piece265. cbn [flat_map]. rewrite Tv, Ts, Tp. cbn [app]. by rewrite app_nil_r, <-?app_assoc.
Qed.

(** ** Where the code falls short *)

(** A configuration that ends behind its sequence parameter sets makes the decoder panic. *)
Lemma config_without_pps_panics : DecodeConfig [1; 0x64; 0; 0x28; 0xFF; 0xE1; 0; 1; 0x67] = None.
Proof. reflexivity. Qed.

(** So does any short one for H.265. *)
Lemma short_hevc_config_panics conf : len conf < 23 -> hevcDecodeConfig conf [] = None.
Proof.
  intros H. unfold hevcDecodeConfig. destruct (sub (conf ++ []) 1 4); [|done]. cbn [mbind option_bind].
  unfold configSet, sub. by rewrite decide_False by lia.
Qed.

(** Without a picture parameter set the encoder panics. *)
Lemma config_needs_pps : EncodeConfig [0x67; 0x64; 0; 0x28] [] [] = None.
Proof. reflexivity. Qed.
