(* ===== verification/HevcSps.v ===== *)
(** The H.265 sequence parameter set ([pkg/h265/sps.go]): the size of the picture, read
    from the unit with the bytes taken out that keep start codes from appearing in it. *)

From S2P Require Import Prelude Bits Sps.

Record SPS265 := mkSPS265 {
  sps_video_parameter_set_id : Z;
  sps_max_sub_layers_minus1 : Z;
  sps_temporal_id_nesting_flag : Z;
  general_profile_space : Z;
  general_tier_flag : Z;
  general_profile_idc : Z;
  general_profile_compatibility_flags : Z;
  general_level_idc : Z;
  sub_layer_present_flags : list (Z * Z);  (* of the profile and of the level *)
  sps_seq_parameter_set_id : Z;
  chroma_format_idc265 : Z;
  separate_colour_plane_flag265 : Z;
  pic_width_in_luma_samples : Z;
  pic_height_in_luma_samples : Z;
}.

Definition Width265 (s : SPS265) : Z := u16 (pic_width_in_luma_samples s).
Definition Height265 (s : SPS265) : Z := u16 (pic_height_in_luma_samples s).

(** [bytes.ReplaceAll(b, {0, 0, 3}, {0, 0})]. *)
Fixpoint replaceAll003 (b : bytes) : bytes :=
  match b with
  | 0 :: ((0 :: (3 :: rest)) as tl) => 0 :: 0 :: replaceAll003 rest
  | x :: rest => x :: replaceAll003 rest
  | [] => []
  end.

(** ** The decoder *)

Fixpoint readFlags (n : nat) : Rd (list (Z * Z)) :=
  match n with
  | O => rret []
  | S n => p <- ReadBit;; l <- ReadBit;; rest <- readFlags n;; rret ((p, l) :: rest)
  end.

Fixpoint skipTimes (n : nat) : Rd unit :=
  match n with O => rret tt | S n => _ <- ReadBits8 2;; skipTimes n end.

(** Whether all the profiles are of the one kind that is supported. *)
Fixpoint readSubLayers (flags : list (Z * Z)) : Rd bool :=
  match flags with
  | [] => rret true
  | (p, l) :: rest =>
      let level := if l =? 0 then readSubLayers rest else (_ <- ReadBits8 8;; readSubLayers rest) in
      if p =? 0 then level else
      _ <- ReadBits8 2;; _ <- ReadBit;; idc <- ReadBits8 5;;
      _ <- ReadBits 32;; _ <- ReadBits64 48;;
      if negb (idc =? 1) then rret false else level
  end.

(** [None] where the code returns false. *)
Definition profile_tier_level (max : Z) : Rd (option (Z * Z * Z * Z * Z * list (Z * Z))) :=
  space <- ReadBits8 2;; tier <- ReadBit;; idc <- ReadBits8 5;;
  compat <- ReadBits 32;; _ <- ReadBits64 48;;
  if negb (idc =? 1) then rret None else
  level <- ReadBits8 8;;
  flags <- readFlags (Z.to_nat max);;
  _ <- (if 0 <? max then skipTimes (Z.to_nat (8 - max)) else rret tt);;
  ok <- readSubLayers flags;;
  rret (if (ok : bool) then Some (space, tier, idc, compat, level, flags) else None).

Definition decodeSPS265 : Rd (option SPS265) :=
  vps <- ReadBits8 4;; max <- ReadBits8 3;; nesting <- ReadBit;;
  ptl <- profile_tier_level max;;
  match ptl with
  | None => rret None
  | Some (space, tier, idc, compat, level, flags) =>
      id <- ReadUEGolomb;; chroma <- ReadUEGolomb;;
      plane <- (if chroma =? 3 then ReadBit else rret 0);;
      width <- ReadUEGolomb;; height <- ReadUEGolomb;;
      rret (Some (mkSPS265 vps max nesting space tier idc compat level flags id chroma plane width height))
  end.

(** [None] is a panic, an inner one the nil that is returned. *)
Definition DecodeSPS265 (nalu : bytes) : option (option SPS265) :=
  b ← sub nalu 2 (len nalu);
  let '(s, r) := decodeSPS265 (NewReader (replaceAll003 b)) in
  Some (if EOF r then None else s).

(** ** The syntax the decoder reads (ITU-T H.265, 7.3.2.2 and 7.3.3) *)

(** What is skipped of a profile, and a sub-layer. *)
Record sub265 := mkSub265 { subSpace : Z; subTier : Z; subCompat : Z; subOther : Z; subLevel : Z }.

Definition profile_bits (space tier compat other : Z) : list bool :=
  bits_of 2 space ++ flag_bits tier ++ bits_of 5 1 ++ bits_of 32 compat ++ bits_of 48 other.
Definition sub_bits (flags : Z * Z) (x : sub265) : list bool :=
  if_set flags.1 (profile_bits (subSpace x) (subTier x) (subCompat x) (subOther x))
  ++ if_set flags.2 (bits_of 8 (subLevel x)).

Definition ptl_bits (s : SPS265) (other : Z) (pads : list Z) (subs : list sub265) : list bool :=
  profile_bits (general_profile_space s) (general_tier_flag s) (general_profile_compatibility_flags s) other
  ++ bits_of 8 (general_level_idc s)
  ++ flat_map (fun f => flag_bits f.1 ++ flag_bits f.2) (sub_layer_present_flags s)
  ++ flat_map (bits_of 2) pads ++ concat (zip_with sub_bits (sub_layer_present_flags s) subs).

Definition sps265_bits (s : SPS265) (other : Z) (pads : list Z) (subs : list sub265) : list bool :=
  bits_of 4 (sps_video_parameter_set_id s) ++ bits_of 3 (sps_max_sub_layers_minus1 s)
  ++ flag_bits (sps_temporal_id_nesting_flag s) ++ ptl_bits s other pads subs
  ++ ue_bits (sps_seq_parameter_set_id s) ++ ue_bits (chroma_format_idc265 s)
  ++ (if chroma_format_idc265 s =? 3 then flag_bits (separate_colour_plane_flag265 s) else [])
  ++ ue_bits (pic_width_in_luma_samples s) ++ ue_bits (pic_height_in_luma_samples s).

Definition below (n : nat) (v : Z) : Prop := 0 <= v < 2 ^ Z.of_nat n.
Definition sub_ok (x : sub265) : Prop :=
  below 2 (subSpace x) /\ flag_ok (subTier x) /\ below 32 (subCompat x) /\ below 48 (subOther x) /\ below 8 (subLevel x).

(** The main profile. *)
Record sps265_ok (s : SPS265) (other : Z) (pads : list Z) (subs : list sub265) : Prop := {
  ok_ids : below 4 (sps_video_parameter_set_id s) /\ below 3 (sps_max_sub_layers_minus1 s)
           /\ flag_ok (sps_temporal_id_nesting_flag s);
  ok_profile : below 2 (general_profile_space s) /\ flag_ok (general_tier_flag s) /\ general_profile_idc s = 1
           /\ below 32 (general_profile_compatibility_flags s) /\ below 48 other /\ below 8 (general_level_idc s);
  ok_layers : len (sub_layer_present_flags s) = sps_max_sub_layers_minus1 s
           /\ Forall (fun f => flag_ok f.1 /\ flag_ok f.2) (sub_layer_present_flags s)
           /\ len pads = (if 0 <? sps_max_sub_layers_minus1 s then 8 - sps_max_sub_layers_minus1 s else 0)
           /\ Forall (below 2) pads
           /\ length subs = length (sub_layer_present_flags s) /\ Forall sub_ok subs;
  ok_picture : ue_ok (sps_seq_parameter_set_id s) /\ ue_ok (chroma_format_idc265 s)
           /\ (if chroma_format_idc265 s =? 3 then flag_ok (separate_colour_plane_flag265 s)
               else separate_colour_plane_flag265 s = 0)
           /\ ue_ok (pic_width_in_luma_samples s) /\ ue_ok (pic_height_in_luma_samples s);
}.

(** ** Reading it back *)

Lemma reads_bits64 n v : (n <= 64)%nat -> below n v -> reads_as (ReadBits64 n) (bits_of n v) v.
Proof.
  intros Hn Hv. apply (reads_bits_into u64 n 0 v); [|done]. intros x Hx. apply u64_small.
  assert (2 ^ Z.of_nat n <= 2 ^ 64) by (apply Z.pow_le_mono_r; lia). unfold is_u64. lia.
Qed.

Lemma reads_skip_then {A B} (m : Rd A) (k : Rd B) p q a b :
  reads_as m p a -> reads_as k q b -> reads_as (_ <- m;; k) (p ++ q) b.
Proof. intros Hm Hk. by eapply reads_bind. Qed.

Lemma readFlags_spec flags : Forall (fun f => flag_ok f.1 /\ flag_ok f.2) flags ->
  reads_as (readFlags (length flags)) (flat_map (fun f => flag_bits f.1 ++ flag_bits f.2) flags) flags.
Proof.
  induction 1 as [|[p l] flags [Hp Hl] _ IH]; [apply reads_ret|]. cbn [flat_map length readFlags fst snd] in *.
  rewrite <-!app_assoc. eapply reads_bind; [by apply reads_flag|]. eapply reads_bind; [by apply reads_flag|].
  by apply (reads_last _ (fun rest => (p, l) :: rest)).
Qed.

Lemma skipTimes_spec pads : Forall (below 2) pads ->
  reads_as (skipTimes (length pads)) (flat_map (bits_of 2) pads) tt.
Proof.
  induction 1 as [|v pads Hv _ IH]; [apply reads_ret|]. cbn [flat_map length skipTimes].
  eapply reads_skip_then; [|exact IH]. apply reads_bits8; [lia|exact Hv].
Qed.

Lemma readSubLayers_spec flags : forall subs, length subs = length flags -> Forall sub_ok subs ->
  Forall (fun f => flag_ok f.1 /\ flag_ok f.2) flags ->
  reads_as (readSubLayers flags) (concat (zip_with sub_bits flags subs)) true.
Proof.
  induction flags as [|[p l] flags IH]; intros subs Hl Hs Hf; destruct subs as [|x subs]; try done; [apply reads_ret|].
  apply Forall_cons in Hs as [(H1 & H2 & H3 & H4 & H5) Hs]. apply Forall_cons in Hf as [_ Hf].
  cbn [zip_with concat readSubLayers]. unfold sub_bits at 1. cbn [fst snd]. rewrite <-app_assoc.
  specialize (IH subs ltac:(cbn in Hl; lia) Hs Hf).
  assert (reads_as (if l =? 0 then readSubLayers flags else (_ <- ReadBits8 8;; readSubLayers flags))
    (if_set l (bits_of 8 (subLevel x)) ++ concat (zip_with sub_bits flags subs)) true) as Hlevel.
  { unfold if_set. destruct (l =? 0); [exact IH|]. eapply reads_skip_then; [|exact IH].
    apply reads_bits8; [lia|exact H5]. }
  cbv zeta. unfold if_set at 1, profile_bits. destruct (p =? 0); [exact Hlevel|]. rewrite <-!app_assoc.
  eapply reads_skip_then; [apply reads_bits8; [lia|exact H1]|].
  eapply reads_skip_then; [by apply reads_flag|].
  eapply reads_bind; [apply (reads_bits8 5 1); [lia|cbn; lia]|].
  eapply reads_skip_then; [apply reads_bits; [lia|exact H3]|].
  eapply reads_skip_then; [apply reads_bits64; [lia|exact H4]|]. exact Hlevel.
Qed.

Lemma ptl_spec s other pads subs : sps265_ok s other pads subs ->
  reads_as (profile_tier_level (sps_max_sub_layers_minus1 s)) (ptl_bits s other pads subs)
    (Some (general_profile_space s, general_tier_flag s, general_profile_idc s,
           general_profile_compatibility_flags s, general_level_idc s, sub_layer_present_flags s)).
Proof.
  intros [_ (H1 & H2 & H3 & H4 & H5 & H6) (L1 & L2 & L3 & L4 & L5 & L6) _].
  unfold profile_tier_level, ptl_bits, profile_bits. rewrite <-!app_assoc, H3.
  eapply reads_bind; [apply reads_bits8; [lia|exact H1]|].
  eapply reads_bind; [by apply reads_flag|].
  eapply reads_bind; [apply (reads_bits8 5 1); [lia|cbn; lia]|].
  eapply reads_bind; [apply reads_bits; [lia|exact H4]|].
  eapply reads_skip_then; [apply reads_bits64; [lia|exact H5]|]. change (negb (1 =? 1)) with false. cbv iota.
  eapply reads_bind; [apply reads_bits8; [lia|exact H6]|].
  rewrite <-L1. unfold len at 1. rewrite Nat2Z.id.
  eapply reads_bind; [by apply readFlags_spec|]. rewrite L1.
  eapply reads_skip_then.
  { destruct (Z.ltb_spec 0 (sps_max_sub_layers_minus1 s)).
    - rewrite <-L3. unfold len. rewrite Nat2Z.id. by apply skipTimes_spec.
    - destruct pads; [apply reads_ret|unfold len in L3; cbn in L3; lia]. }
  by apply (reads_last _ (fun ok : bool => if ok then Some _ else None) _ true), readSubLayers_spec.
Qed.

Lemma decodeSPS265_spec s other pads subs : sps265_ok s other pads subs ->
  reads_as decodeSPS265 (sps265_bits s other pads subs) (Some s).
Proof.
  intros Hok. pose proof (ptl_spec _ _ _ _ Hok) as Hptl.
  destruct Hok as [(I1 & I2 & I3) _ _ (P1 & P2 & P3 & P4 & P5)].
  unfold decodeSPS265, sps265_bits.
  eapply reads_bind; [apply reads_bits8; [lia|exact I1]|].
  eapply reads_bind; [apply reads_bits8; [lia|exact I2]|].
  eapply reads_bind; [by apply reads_flag|].
  eapply reads_bind; [exact Hptl|]. cbv iota beta.
  eapply reads_bind; [by apply reads_ue|]. eapply reads_bind; [by apply reads_ue|].
  eapply reads_bind.
  { apply (reads_if _ ReadBit (rret 0) _ _ (separate_colour_plane_flag265 s)).
    - intros E. rewrite E in P3. by apply reads_flag.
    - intros E. rewrite E in P3. rewrite P3. apply reads_ret. }
  eapply reads_bind; [by apply reads_ue|].
  destruct s. cbn in *. apply (reads_last _ (fun h => Some (mkSPS265 _ _ _ _ _ _ _ _ _ _ _ _ _ h))). by apply reads_ue.
Qed.

(** ** Emulation prevention *)

(** What an encoder does: a 3 in front of a byte up to 3 behind two zeros. *)
Fixpoint escape (zeros : nat) (b : bytes) : bytes :=
  match b with
  | [] => []
  | x :: rest =>
      if (2 <=? zeros)%nat && (x <=? 3) then 3 :: x :: escape (if x =? 0 then 1 else 0) rest
      else x :: escape (if x =? 0 then S zeros else 0) rest
  end.

Lemma replace_other x b : x <> 0 -> replaceAll003 (x :: b) = x :: replaceAll003 b.
Proof. intros H. destruct x; done. Qed.
Lemma replace_zero_other x b : x <> 0 -> replaceAll003 (0 :: x :: b) = 0 :: x :: replaceAll003 b.
Proof. intros H. destruct x; done. Qed.
Lemma replace_zeros_other x b : x <> 0 -> x <> 3 -> replaceAll003 (0 :: 0 :: x :: b) = 0 :: 0 :: x :: replaceAll003 b.
Proof. intros H H3. destruct x as [|[[|p|]|p|]|p]; done. Qed.

Lemma replace_escape b : bytes_ok b -> forall z, (z <= 2)%nat ->
  replaceAll003 (replicate z 0 ++ escape z b) = replicate z 0 ++ b.
Proof.
  induction 1 as [|x b Hx _ IH]; intros z Hz.
  { rewrite !app_nil_r. destruct z as [|[|[|]]]; [done..|lia]. }
  unfold is_byte in Hx. cbn [escape]. destruct z as [|[|[|]]]; [| | |lia]; cbn [Nat.leb andb replicate app].
  - destruct (Z.eqb_spec x 0) as [->|Hn]; [apply (IH 1%nat); lia|]. rewrite replace_other by done.
    f_equal. by apply (IH 0%nat); lia.
  - destruct (Z.eqb_spec x 0) as [->|Hn]; [apply (IH 2%nat); lia|]. rewrite replace_zero_other by done.
    do 2 f_equal. by apply (IH 0%nat); lia.
  - destruct (Z.leb_spec x 3).
    + change (replaceAll003 (0 :: 0 :: 3 :: ?r)) with (0 :: 0 :: replaceAll003 r). do 2 f_equal.
      destruct (Z.eqb_spec x 0) as [->|Hn]; [apply (IH 1%nat); lia|]. rewrite replace_other by done.
      f_equal. by apply (IH 0%nat); lia.
    + rewrite (proj2 (Z.eqb_neq x 0)) by lia. rewrite replace_zeros_other by lia. do 3 f_equal.
      by apply (IH 0%nat); lia.
Qed.

(** Decoding the encoding of a sequence parameter set of the main profile, with any
    sub-layers and its emulation prevention bytes, returns that set. *)
Theorem hevc_sps_roundtrip (h0 h1 : Z) (b : bytes) (s : SPS265) (other : Z) (pads : list Z) (subs : list sub265)
    (rest : list bool) :
  bytes_ok b -> sps265_ok s other pads subs ->
  flat_map (bits_of 8) b = sps265_bits s other pads subs ++ rest ->
  DecodeSPS265 (h0 :: h1 :: escape 0 b) = Some (Some s).
Proof.
  intros Hb Hs Hbits. unfold DecodeSPS265.
  rewrite sub_in by (rewrite !len_cons; pose proof (len_nonneg (escape 0 b)); lia). cbn [mbind option_bind].
  assert (seg (h0 :: h1 :: escape 0 b) 2 (len (h0 :: h1 :: escape 0 b)) = escape 0 b) as ->.
  { unfold seg. change (drop (Z.to_nat 2) (h0 :: h1 :: escape 0 b)) with (escape 0 b). apply take_ge.
    rewrite !len_cons. unfold len. lia. }
  pose proof (replace_escape b Hb 0 ltac:(lia)) as Er. cbn [replicate app] in Er. rewrite Er.
  destruct (decodeSPS265_spec s other pads subs Hs (NewReader b) rest (NewReader_wf b Hb) eq_refl Hbits)
    as (r & E & _ & He & _).
  by rewrite E, He.
Qed.

Example camera_sps :
  option_map (option_map (fun s => (Width265 s, Height265 s)))
    (DecodeSPS265 [0x42; 1; 1; 1; 0x40; 0; 0; 3; 0; 0x90; 0; 0; 3; 0; 0; 3; 0; 0x78; 0xA0; 2; 0x80; 0x80; 0x2D; 0x16; 0x59])
  = Some (Some (1280, 720)).
Proof. vm_compute. reflexivity. Qed.
