(* ===== verification/Iso.v ===== *)
(** MP4 boxes ([pkg/iso]: iso.go, atoms.go, codecs.go): a writer with the open boxes on a
    stack, and what is written with it.  [None] is a run-time panic. *)

From S2P Require Import Prelude Text.
From S2P Require TutkSession.
Import TutkSession(put, make).

Record Movie := mkMovie { mb : bytes; mstart : list Z }.
#[export] Instance eta_Movie : Eta Movie := fun m => mkMovie (mb m) (mstart m).

Definition NewMovie : Movie := mkMovie [] [].

(** A method that changes the movie, and one after the other. *)
Definition Wr : Type := Movie -> option Movie.
Definition wseq (f g : Wr) : Wr := fun m => m ← f m; g m.
Definition wskip : Wr := Some.

Declare Scope iso_scope.
Notation "f >> g" := (wseq f g) (at level 60, right associativity) : iso_scope.
Open Scope iso_scope.

Definition Write (b : bytes) : Wr := fun m => Some (m <| mb := mb m ++ b |>).
Definition StartAtom (name : bytes) : Wr := fun m =>
  Some (mkMovie (mb m ++ [0; 0; 0; 0] ++ name) (mstart m ++ [len (mb m)])).
Definition EndAtom : Wr := fun m =>
  i ← last (mstart m);
  b ← put i (be32 (u32 (len (mb m) - i))) (mb m);
  Some (mkMovie b (take (length (mstart m) - 1) (mstart m))).

Definition Skip (n : Z) : Wr := Write (make n).
Definition WriteUint16 (v : Z) : Wr := Write [u8 (Z.shiftr v 8); u8 v].
Definition WriteUint24 (v : Z) : Wr := Write [u8 (Z.shiftr v 16); u8 (Z.shiftr v 8); u8 v].
Definition WriteUint32 (v : Z) : Wr :=
  Write [u8 (Z.shiftr v 24); u8 (Z.shiftr v 16); u8 (Z.shiftr v 8); u8 v].
Definition WriteUint64 (v : Z) : Wr :=
  Write [u8 (Z.shiftr v 56); u8 (Z.shiftr v 48); u8 (Z.shiftr v 40); u8 (Z.shiftr v 32);
         u8 (Z.shiftr v 24); u8 (Z.shiftr v 16); u8 (Z.shiftr v 8); u8 v].

(** Of floating-point values only integers are written, so the fraction is 0.  A value
    above 255 or 65535 is cut to the low bits, as the conversion does on the usual
    machines; the language leaves it open. *)
Definition WriteFloat16 (f : Z) : Wr := Write [u8 f; 0].
Definition WriteFloat32 (f : Z) : Wr := Write [u8 (Z.shiftr (u16 f) 8); u8 f; 0; 0].

Definition WriteMatrix : Wr :=
  WriteUint32 0x00010000 >> Skip 4 >> Skip 4 >> Skip 4 >> WriteUint32 0x00010000 >>
  Skip 4 >> Skip 4 >> Skip 4 >> WriteUint32 0x40000000.

(** ** Boxes *)

Definition Ftyp := str "ftyp".
Definition Moov := str "moov".
Definition MoovMvhd := str "mvhd".
Definition MoovTrak := str "trak".
Definition MoovTrakTkhd := str "tkhd".
Definition MoovTrakMdia := str "mdia".
Definition MoovTrakMdiaMdhd := str "mdhd".
Definition MoovTrakMdiaHdlr := str "hdlr".
Definition MoovTrakMdiaMinf := str "minf".
Definition MoovTrakMdiaMinfVmhd := str "vmhd".
Definition MoovTrakMdiaMinfSmhd := str "smhd".
Definition MoovTrakMdiaMinfDinf := str "dinf".
Definition MoovTrakMdiaMinfDinfDref := str "dref".
Definition MoovTrakMdiaMinfDinfDrefUrl := str "url ".
Definition MoovTrakMdiaMinfStbl := str "stbl".
Definition MoovTrakMdiaMinfStblStsd := str "stsd".
Definition MoovTrakMdiaMinfStblStts := str "stts".
Definition MoovTrakMdiaMinfStblStsc := str "stsc".
Definition MoovTrakMdiaMinfStblStsz := str "stsz".
Definition MoovTrakMdiaMinfStblStco := str "stco".
Definition MoovMvex := str "mvex".
Definition MoovMvexTrex := str "trex".
Definition Moof := str "moof".
Definition MoofMfhd := str "mfhd".
Definition MoofTraf := str "traf".
Definition MoofTrafTfhd := str "tfhd".
Definition MoofTrafTfdt := str "tfdt".
Definition MoofTrafTrun := str "trun".
Definition Mdat := str "mdat".

Definition sampleIsNonSync : Z := 0x10000.
Definition sampleDependsOn1 : Z := 0x1000000.
Definition sampleDependsOn2 : Z := 0x2000000.
Definition SampleVideoIFrame : Z := sampleDependsOn2.
Definition SampleVideoNonIFrame : Z := Z.lor sampleDependsOn1 sampleIsNonSync.
Definition SampleAudio : Z := sampleDependsOn2.

Definition WriteFileType : Wr :=
  StartAtom Ftyp >> Write (str "iso5") >> WriteUint32 512 >> Write (str "iso5") >>
  Write (str "iso6") >> Write (str "mp41") >> EndAtom.

Definition WriteMovieHeader : Wr :=
  StartAtom MoovMvhd >> Skip 1 >> Skip 3 >> Skip 4 >> Skip 4 >> WriteUint32 1000 >> Skip 4 >>
  WriteFloat32 1 >> WriteFloat16 1 >> Skip 10 >> WriteMatrix >> Skip (6 * 4) >>
  WriteUint32 0xFFFFFFFF >> EndAtom.

Definition TkhdTrackEnabled : Z := 1.
Definition TkhdTrackInMovie : Z := 2.

Definition WriteTrackHeader (id width height : Z) : Wr :=
  StartAtom MoovTrakTkhd >> Skip 1 >> WriteUint24 (Z.lor TkhdTrackEnabled TkhdTrackInMovie) >>
  Skip 4 >> Skip 4 >> WriteUint32 id >> Skip 4 >> Skip 4 >> Skip 8 >> Skip 2 >>
  (if 0 <? width then Skip 2 >> Skip 2 else WriteUint16 1 >> WriteFloat16 1) >>
  Skip 2 >> WriteMatrix >>
  (if 0 <? width then WriteFloat32 width >> WriteFloat32 height else Skip 4 >> Skip 4) >> EndAtom.

Definition WriteMediaHeader (timescale : Z) : Wr :=
  StartAtom MoovTrakMdiaMdhd >> Skip 1 >> Skip 3 >> Skip 4 >> Skip 4 >> WriteUint32 timescale >>
  Skip 4 >> WriteUint16 0x55C4 >> Skip 2 >> EndAtom.

Definition WriteMediaHandler (s name : bytes) : Wr :=
  StartAtom MoovTrakMdiaHdlr >> Skip 1 >> Skip 3 >> Skip 4 >> Write s >> Skip (3 * 4) >>
  Write name >> Skip 1 >> EndAtom.

Definition WriteVideoMediaInfo : Wr :=
  StartAtom MoovTrakMdiaMinfVmhd >> Skip 1 >> WriteUint24 1 >> Skip 2 >> Skip (3 * 2) >> EndAtom.

Definition WriteAudioMediaInfo : Wr :=
  StartAtom MoovTrakMdiaMinfSmhd >> Skip 1 >> Skip 3 >> Skip 4 >> EndAtom.

Definition WriteDataInfo : Wr :=
  StartAtom MoovTrakMdiaMinfDinf >> StartAtom MoovTrakMdiaMinfDinfDref >> Skip 1 >> Skip 3 >>
  WriteUint32 1 >>
  StartAtom MoovTrakMdiaMinfDinfDrefUrl >> Skip 1 >> WriteUint24 1 >> EndAtom >>
  EndAtom >> EndAtom.

Definition WriteSampleTable (writeSampleDesc : Wr) : Wr :=
  StartAtom MoovTrakMdiaMinfStbl >>
  StartAtom MoovTrakMdiaMinfStblStsd >> Skip 1 >> Skip 3 >> WriteUint32 1 >> writeSampleDesc >> EndAtom >>
  StartAtom MoovTrakMdiaMinfStblStts >> Skip 1 >> Skip 3 >> Skip 4 >> EndAtom >>
  StartAtom MoovTrakMdiaMinfStblStsc >> Skip 1 >> Skip 3 >> Skip 4 >> EndAtom >>
  StartAtom MoovTrakMdiaMinfStblStsz >> Skip 1 >> Skip 3 >> Skip 4 >> Skip 4 >> EndAtom >>
  StartAtom MoovTrakMdiaMinfStblStco >> Skip 1 >> Skip 3 >> Skip 4 >> EndAtom >>
  EndAtom.

Definition WriteTrackExtend (id : Z) : Wr :=
  StartAtom MoovMvexTrex >> Skip 1 >> Skip 3 >> WriteUint32 id >> WriteUint32 1 >> Skip 4 >> Skip 4 >>
  Skip 4 >> EndAtom.

(** ** Codecs

    A codec name other than those handled is an explicit panic. *)

Definition isH264 (codec : bytes) : bool := bool_decide (codec = str "H264").
Definition isH265 (codec : bytes) : bool := bool_decide (codec = str "H265").
Definition isAAC (codec : bytes) : bool := bool_decide (codec = str "MPEG4-GENERIC").
Definition isMP3 (codec : bytes) : bool := bool_decide (codec = str "MPA").
Definition isFLAC (codec : bytes) : bool := bool_decide (codec = str "FLAC").
Definition isOpus (codec : bytes) : bool := bool_decide (codec = str "OPUS").
Definition isPCMU (codec : bytes) : bool := bool_decide (codec = str "PCMU").
Definition isPCMA (codec : bytes) : bool := bool_decide (codec = str "PCMA").

Definition WriteVideo (codec : bytes) (width height : Z) (conf : bytes) : Wr :=
  (if isH264 codec then StartAtom (str "avc1")
   else if isH265 codec then StartAtom (str "hev1") else fun _ => None) >>
  Skip 6 >> WriteUint16 1 >> Skip 2 >> Skip 2 >> Skip 4 >> Skip 4 >> Skip 4 >>
  WriteUint16 width >> WriteUint16 height >> WriteFloat32 72 >> WriteFloat32 72 >> Skip 4 >>
  WriteUint16 1 >> Skip 32 >> WriteUint16 24 >> WriteUint16 0xFFFF >>
  (if isH264 codec then StartAtom (str "avcC")
   else if isH265 codec then StartAtom (str "hvcC") else wskip) >>
  Write conf >> EndAtom >>
  StartAtom (str "pasp") >> WriteUint32 1 >> WriteUint32 1 >> EndAtom >>
  EndAtom.

Definition esdsHeader : Z := 5.
Definition size3 : Z := 3.
Definition size4 : Z := 13.
Definition size6 : Z := 1.

Definition WriteEsdsAAC (conf : bytes) : Wr :=
  let size5 := u8 (len conf) in
  StartAtom (str "esds") >> Skip 1 >> Skip 3 >>
  Write [3; 0x80; 0x80; 0x80; u8 (size3 + esdsHeader + size4 + esdsHeader + size5 + esdsHeader + size6)] >>
  Skip 2 >> Skip 1 >>
  Write [4; 0x80; 0x80; 0x80; u8 (size4 + esdsHeader + size5)] >>
  Write [0x40] >> Write [0x15] >> Skip 3 >> Skip 4 >> Skip 4 >>
  Write [5; 0x80; 0x80; 0x80; size5] >> Write conf >>
  Write [6; 0x80; 0x80; 0x80; 1] >> Write [2] >> EndAtom.

Definition WriteEsdsMP3 : Wr :=
  StartAtom (str "esds") >> Skip 1 >> Skip 3 >>
  Write [3; 0x80; 0x80; 0x80; size3 + esdsHeader + size4 + esdsHeader + size6] >>
  Skip 2 >> Skip 1 >>
  Write [4; 0x80; 0x80; 0x80; size4] >>
  Write [0x6B] >> Write [0x15] >> Skip 3 >> Skip 4 >> Skip 4 >>
  Write [6; 0x80; 0x80; 0x80; 1] >> Write [2] >> EndAtom.

Definition WriteOpus (channels sampleRate : Z) : Wr :=
  StartAtom (str "dOps") >> Skip 1 >> Write [u8 channels] >> WriteUint16 0 >> WriteUint32 sampleRate >>
  Skip 2 >> Skip 1 >> EndAtom.

(** [FLACHeader] of [pkg/pcm/flac.go]. *)
Definition FLACHeader (magic : bool) (sampleRate : Z) : bytes :=
  (if magic then str "fLaC" else zeros 4) ++ [0x80; 0; 0; 0x22] ++ be16 32768 ++ be16 32768 ++ zeros 6
  ++ [u8 (Z.shiftr sampleRate 12); u8 (Z.shiftr sampleRate 4); u8 (Z.shiftl sampleRate 4)] ++ [0xF0] ++ zeros 20.

Definition WriteAudio (codec : bytes) (channels sampleRate : Z) (conf : bytes) : Wr :=
  let channels' := if channels =? 0 then 1 else channels in
  (if isAAC codec || isMP3 codec then StartAtom (str "mp4a")
   else if isFLAC codec then StartAtom (str "fLaC")
   else if isOpus codec then StartAtom (str "Opus")
   else if isPCMU codec then StartAtom (str "ulaw")
   else if isPCMA codec then StartAtom (str "alaw") else fun _ => None) >>
  Skip 6 >> WriteUint16 1 >> Skip 2 >> Skip 2 >> Skip 4 >> WriteUint16 channels' >> WriteUint16 16 >>
  Skip 2 >> Skip 2 >> WriteFloat32 sampleRate >>
  (if isAAC codec then WriteEsdsAAC conf
   else if isMP3 codec then WriteEsdsMP3
   else if isFLAC codec then StartAtom (str "dfLa") >> Write (FLACHeader false sampleRate) >> EndAtom
   else if isOpus codec then WriteOpus channels' sampleRate
   else if isPCMU codec || isPCMA codec then
     StartAtom (str "chan") >> Write [0; 0; 0; 0; 0; 1; 0; 0; 0; 0; 0; 4; 0; 0; 0; 0] >> EndAtom
   else wskip) >>
  EndAtom.

(** ** Tracks and fragments *)

Definition WriteVideoTrack (id : Z) (codec : bytes) (timescale width height : Z) (conf : bytes) : Wr :=
  StartAtom MoovTrak >> WriteTrackHeader id width height >>
  StartAtom MoovTrakMdia >> WriteMediaHeader timescale >>
  WriteMediaHandler (str "vide") (str "VideoHandler") >>
  StartAtom MoovTrakMdiaMinf >> WriteVideoMediaInfo >> WriteDataInfo >>
  WriteSampleTable (WriteVideo codec width height conf) >> EndAtom >>
  EndAtom >> EndAtom.

Definition WriteAudioTrack (id : Z) (codec : bytes) (timescale channels : Z) (conf : bytes) : Wr :=
  StartAtom MoovTrak >> WriteTrackHeader id 0 0 >>
  StartAtom MoovTrakMdia >> WriteMediaHeader timescale >>
  WriteMediaHandler (str "soun") (str "SoundHandler") >>
  StartAtom MoovTrakMdiaMinf >> WriteAudioMediaInfo >> WriteDataInfo >>
  WriteSampleTable (WriteAudio codec channels timescale conf) >> EndAtom >>
  EndAtom >> EndAtom.

Definition TfhdDefaultSampleDuration : Z := 0x000008.
Definition TfhdDefaultSampleSize : Z := 0x000010.
Definition TfhdDefaultSampleFlags : Z := 0x000020.
Definition TfhdDefaultBaseIsMoof : Z := 0x020000.
Definition TrunDataOffset : Z := 0x000001.
Definition TrunFirstSampleFlags : Z := 0x000004.
Definition TrunSampleDuration : Z := 0x0000100.
Definition TrunSampleSize : Z := 0x0000200.
Definition TrunSampleFlags : Z := 0x0000400.
Definition TrunSampleCTS : Z := 0x0000800.

(** A value that depends on where it is written. *)
Definition WriteOffset (more : Z) : Wr := fun m => WriteUint32 (u32 (u32 (len (mb m)) + more)) m.

Definition WriteMovieFragment (seq tid duration size flags dts cts : Z) : Wr :=
  StartAtom Moof >>
  StartAtom MoofMfhd >> Skip 1 >> Skip 3 >> WriteUint32 seq >> EndAtom >>
  StartAtom MoofTraf >>
  StartAtom MoofTrafTfhd >> Skip 1 >>
  WriteUint24 (Z.lor (Z.lor (Z.lor TfhdDefaultSampleDuration TfhdDefaultSampleSize) TfhdDefaultSampleFlags)
                 TfhdDefaultBaseIsMoof) >>
  WriteUint32 tid >> WriteUint32 duration >> WriteUint32 size >> WriteUint32 flags >> EndAtom >>
  StartAtom MoofTrafTfdt >> Write [1] >> Skip 3 >> WriteUint64 dts >> EndAtom >>
  StartAtom MoofTrafTrun >> Skip 1 >>
  (if cts =? 0 then WriteUint24 TrunDataOffset >> WriteUint32 1 >> WriteOffset (4 + 8)
   else WriteUint24 (Z.lor TrunDataOffset TrunSampleCTS) >> WriteUint32 1 >> WriteOffset (4 + 4 + 8) >> WriteUint32 cts) >>
  EndAtom >> EndAtom >> EndAtom.

Definition WriteData (b : bytes) : Wr := StartAtom Mdat >> Write b >> EndAtom.
