(* ===== verification/IsoRead.v ===== *)
(** Reading MP4 boxes ([pkg/iso/reader.go]).  The containers of interest are flattened. *)

From S2P Require Import Prelude Text Codec Bits Iso.

Inductive atom :=
  | Atom (name data : bytes)
  | AtomTkhd (TrackID : Z)
  | AtomMdhd (TimeScale : Z)
  | AtomVideo (name config : bytes)
  | AtomAudio (name : bytes) (channels sampleRate : Z) (config : option bytes)
  | AtomMfhd (Sequence : Z)
  | AtomMdat (data : bytes)
  | AtomTfhd (TrackID SampleDuration SampleSize SampleFlags : Z)
  | AtomTfdt (DecodeTime : Z)
  | AtomTrun (DataOffset FirstSampleFlags : Z) (durations sizes flags cts : list Z).

(** What decoding a box gives: one thing, or those of a container. *)
Inductive decoded := One (a : atom) | Many (l : list atom).

(** What a call comes to: out of fuel, a panic, the error at the end of the input, or a
    result. *)
Inductive result (A : Type) := Stuck | Panics | Ends | Ok (a : A).
Arguments Stuck {A}.
Arguments Panics {A}.
Arguments Ends {A}.
Arguments Ok {A} a.

Definition andThen {A B} (x : result A) (k : A -> result B) : result B :=
  match x with Stuck => Stuck | Panics => Panics | Ends => Ends | Ok a => k a end.
Definition orPanic {A B} (x : option A) (k : A -> result B) : result B :=
  match x with None => Panics | Some a => k a end.

Definition rdbe64 (l : bytes) (i : Z) : option Z :=
  hi ← rdbe32 l i; lo ← rdbe32 l (i + 4); Some (4294967296 * hi + lo).

(** [ReadFloat32] of [pkg/bits]: the whole part and the 65536ths. *)
Definition ReadFloat32 : Rd (Z * Z) := i <- ReadUint16;; f <- ReadUint16;; rret (i, f).

Definition flagSet (flags f : Z) : bool := negb (Z.land flags f =? 0).
Definition readIf (c : bool) : Rd Z := if c then ReadUint32 else rret 0.

Definition readTfhd : Rd atom :=
  _ <- ReadByte;; flags <- ReadUint24;; id <- ReadUint32;;
  duration <- readIf (flagSet flags TfhdDefaultSampleDuration);;
  size <- readIf (flagSet flags TfhdDefaultSampleSize);;
  sampleFlags <- readIf (flagSet flags TfhdDefaultSampleFlags);;
  rret (AtomTfhd id duration size sampleFlags).

(** The columns of the sample table that are there. *)
Fixpoint readSamples (n : nat) (flags : Z) (d s f c : list Z) : Rd (list Z * list Z * list Z * list Z) :=
  match n with
  | O => rret (d, s, f, c)
  | S n =>
      let column (flag : Z) (l : list Z) : Rd (list Z) :=
        if flagSet flags flag then v <- ReadUint32;; rret (l ++ [v]) else rret l in
      d <- column TrunSampleDuration d;; s <- column TrunSampleSize s;;
      f <- column TrunSampleFlags f;; c <- column TrunSampleCTS c;;
      readSamples n flags d s f c
  end.

Definition readTrun : Rd atom :=
  _ <- ReadByte;; flags <- ReadUint24;; samples <- ReadUint32;;
  offset <- readIf (flagSet flags TrunDataOffset);;
  first <- readIf (flagSet flags TrunFirstSampleFlags);;
  columns <- readSamples (Z.to_nat samples) flags [] [] [] [];;
  let '(d, s, f, c) := columns in
  rret (AtomTrun offset first d s f c).

(** The configuration in the descriptor of an audio box.  [1+b[0]] is a byte. *)
Definition esdsConfig (data : bytes) : option (option bytes) :=
  match index data [5; 0x80; 0x80; 0x80] with
  | None => Some None
  | Some i =>
      match drop (i + 4) data with
      | [] => Some None
      | n :: rest =>
          if 1 + n <? len (n :: rest) then c ← sub (n :: rest) 1 (u8 (1 + n)); Some (Some c)
          else Some None
      end
  end.

Definition containers : list bytes :=
  [Moov; MoovTrak; MoovTrakMdia; MoovTrakMdiaMinf; MoovTrakMdiaMinfStbl; Moof; MoofTraf].

Definition videoEntry : Z := 6 + 2 + 2 + 2 + 4 + 4 + 4 + 2 + 2 + 4 + 4 + 4 + 2 + 32 + 2 + 2.

Section decode.
Context (DecodeAtom : bytes -> result decoded).

Fixpoint atomsLoop (fuel : nat) (b : bytes) : result (list atom) :=
  match fuel with
  | O => Stuck
  | S fuel =>
      if len b <=? 0 then Ok [] else
      andThen (DecodeAtom b) (fun a =>
        orPanic (rdbe32 b 0) (fun size =>
          orPanic (sub b size (len b)) (fun b =>
            andThen (atomsLoop fuel b) (fun rest =>
              Ok (match a with One x => [x] | Many l => l end ++ rest)))))
  end.
Definition atomsOf (b : bytes) : result (list atom) := atomsLoop (S (length b)) b.

(** The audio entry: the configuration of the descriptor behind it, if that is a box. *)
Definition decodeAudio (name data : bytes) : result decoded :=
  let '(_, r) := ReadBytes 16 (NewReader data) in
  let '(channels, r) := ReadUint16 r in
  let '(_, r) := ReadBytes 6 r in
  let '((rate, _), r) := ReadFloat32 r in
  let done config := Ok (One (AtomAudio name channels rate config)) in
  match DecodeAtom (Left r) with
  | Stuck => Stuck
  | Panics => Panics
  | Ok (One (Atom _ conf)) => orPanic (esdsConfig conf) done
  | _ => done None
  end.

Definition decodeNamed (name data : bytes) : result decoded :=
  let other := Ok (One (Atom name data)) in
  if decide (name ∈ containers) then andThen (atomsOf data) (fun l => Ok (Many l))
  else if decide (name = MoovTrakTkhd) then orPanic (rdbe32 data (1 + 3 + 4 + 4)) (fun v => Ok (One (AtomTkhd v)))
  else if decide (name = MoovTrakMdiaMdhd) then orPanic (rdbe32 data (1 + 3 + 4 + 4)) (fun v => Ok (One (AtomMdhd v)))
  else if decide (name = MoovTrakMdiaMinfStblStsd) then
    orPanic (rdbe32 data (1 + 3)) (fun n =>
      if n =? 1 then orPanic (sub data (1 + 3 + 4) (len data)) DecodeAtom else other)
  else if decide (name = str "avc1" \/ name = str "hev1") then
    orPanic (sub data videoEntry (len data)) (fun b =>
      andThen (DecodeAtom b) (fun a =>
        match a with One (Atom _ conf) => Ok (One (AtomVideo name conf)) | _ => other end))
  else if decide (name = str "mp4a") then decodeAudio name data
  else if decide (name = MoofMfhd) then orPanic (rdbe32 data 4) (fun v => Ok (One (AtomMfhd v)))
  else if decide (name = MoofTrafTfhd) then Ok (One (readTfhd (NewReader data)).1)
  else if decide (name = MoofTrafTfdt) then orPanic (rdbe64 data 4) (fun v => Ok (One (AtomTfdt v)))
  else if decide (name = MoofTrafTrun) then Ok (One (readTrun (NewReader data)).1)
  else if decide (name = Mdat) then Ok (One (AtomMdat data))
  else other.

Definition decodeBox (b : bytes) : result decoded :=
  orPanic (rdbe32 b 0) (fun size =>
    if len b <? size then Ends else
    orPanic (sub b 8 size) (fun data => decodeNamed (seg b 4 8) data)).
End decode.

(** Boxes in boxes are shorter. *)
Fixpoint DecodeAtom (fuel : nat) (b : bytes) : result decoded :=
  match fuel with O => Stuck | S fuel => decodeBox (DecodeAtom fuel) b end.
Definition DecodeAtoms (b : bytes) : result (list atom) :=
  atomsLoop (DecodeAtom (S (length b))) (S (length b)) b.

(** ** Reading always ends *)

(** Whole bytes are read from the same buffer. *)
Definition aligned (m r : Reader) : Prop := bits r = 0 /\ buf r = buf m.

Lemma aligned_byte m r : aligned m r -> aligned m (ReadByte r).2.
Proof. intros [H1 H2]. unfold ReadByte, readAligned. rewrite H1. cbn. by destruct (len (buf r) <=? pos r). Qed.
Lemma aligned_bytes m n r : aligned m r -> aligned m (ReadBytes n r).2.
Proof. intros [H1 H2]. unfold ReadBytes. rewrite H1. cbn. by destruct (len (buf r) <? _). Qed.
Lemma aligned_uint16 m r : aligned m r -> aligned m (ReadUint16 r).2.
Proof.
  intros H. unfold ReadUint16. destruct H as [H1 H2]. rewrite H1. change (0 =? 0) with true. cbv iota. unfold rbind.
  pose proof (aligned_byte m r (conj H1 H2)) as Ha. destruct (ReadByte r) as [h r1].
  pose proof (aligned_byte m r1 Ha) as Hb. by destruct (ReadByte r1) as [l r2].
Qed.

Lemma Left_shorter m r : aligned m r -> (length (Left r) <= length (buf m))%nat.
Proof. intros [_ <-]. unfold Left, seg. rewrite length_take, length_drop. lia. Qed.

(** [decode] gives an answer for boxes of at most [n] bytes. *)
Definition answers (decode : bytes -> result decoded) (n : nat) : Prop :=
  forall b, (length b <= n)%nat -> decode b <> Stuck.

Lemma atomsLoop_ends decode n : answers decode n ->
  (forall b a, decode b = Ok a -> exists size, rdbe32 b 0 = Some size /\ 8 <= size) ->
  forall fuel b, (length b < fuel)%nat -> (length b <= n)%nat -> atomsLoop decode fuel b <> Stuck.
Proof.
  intros Ha Hs. induction fuel as [|fuel IH]; intros b Hf Hn; [lia|]. cbn [atomsLoop].
  destruct (Z.leb_spec (len b) 0) as [|Hpos]; [done|]. specialize (Ha b Hn). destruct (decode b) as [| | |a] eqn:E; try done.
  destruct (Hs b a E) as (size & Hsize & H8). cbn [andThen]. rewrite Hsize. cbn [orPanic].
  destruct (sub b size (len b)) as [rest|] eqn:Er; [|done]. apply sub_Some in Er as (_ & H1 & ->). cbn [orPanic].
  assert (length (seg b size (len b)) < length b)%nat as Hl.
  { unfold seg, len in *. rewrite length_take, length_drop. lia. }
  specialize (IH (seg b size (len b)) ltac:(lia) ltac:(lia)).
  by destruct (atomsLoop decode fuel (seg b size (len b))).
Qed.

Lemma decodeBox_size decode b a : decodeBox decode b = Ok a -> exists size, rdbe32 b 0 = Some size /\ 8 <= size.
Proof.
  unfold decodeBox. destruct (rdbe32 b 0) as [size|] eqn:Hr; [|done]. cbn [orPanic]. destruct (len b <? size); [done|].
  destruct (sub b 8 size) eqn:E; [|done]. intros _. apply sub_Some in E as (H & _). exists size. split; [done|lia].
Qed.

Lemma decodeNamed_ends decode n : answers decode n ->
  (forall b a, decode b = Ok a -> exists size, rdbe32 b 0 = Some size /\ 8 <= size) ->
  forall name data, (length data <= n)%nat -> decodeNamed decode name data <> Stuck.
Proof.
  intros Ha Hs name data Hn. unfold decodeNamed. cbv zeta.
  assert (forall b, (length b <= length data)%nat -> decode b <> Stuck) as Hd by (intros b Hb; apply Ha; lia).
  assert (forall x, length (seg data x (len data)) <= length data)%nat as Hseg.
  { intros x. unfold seg. rewrite length_take, length_drop. lia. }
  case_decide.
  { pose proof (atomsLoop_ends decode n Ha Hs (S (length data)) data ltac:(lia) Hn) as Hl.
    unfold atomsOf. by destruct (atomsLoop decode (S (length data)) data). }
  case_decide; [by destruct (rdbe32 _ _)|]. case_decide; [by destruct (rdbe32 _ _)|].
  case_decide.
  { destruct (rdbe32 data (1 + 3)) as [k|]; [|done]. cbn [orPanic]. destruct (k =? 1); [|done].
    destruct (sub data (1 + 3 + 4) (len data)) as [x|] eqn:E; [|done]. apply sub_Some in E as (_ & _ & ->). by apply Hd. }
  case_decide.
  { destruct (sub data videoEntry (len data)) as [x|] eqn:E; [|done]. apply sub_Some in E as (_ & _ & ->).
    cbn [orPanic]. specialize (Hd (seg data videoEntry (len data)) (Hseg _)).
    destruct (decode (seg data videoEntry (len data))) as [| | |[[]|]]; done. }
  case_decide.
  { unfold decodeAudio, ReadFloat32, rbind. set (m := NewReader data).
    assert (aligned m m) as A0 by done.
    pose proof (aligned_bytes m 16 m A0) as A1. destruct (ReadBytes 16 m) as [b1 r1].
    pose proof (aligned_uint16 m r1 A1) as A2. destruct (ReadUint16 r1) as [c r2].
    pose proof (aligned_bytes m 6 r2 A2) as A3. destruct (ReadBytes 6 r2) as [b3 r3].
    pose proof (aligned_uint16 m r3 A3) as A4. destruct (ReadUint16 r3) as [v r4'].
    pose proof (aligned_uint16 m r4' A4) as A5. destruct (ReadUint16 r4') as [w r4].
    pose proof (Left_shorter m r4 A5 : (_ <= length data)%nat) as Hl. cbn [rret].
    specialize (Hd _ Hl). destruct (decode (Left r4)) as [| | |[[]|]]; try done.
    cbn [orPanic]. by destruct (esdsConfig _). }
  repeat (case_decide; [first [done|by destruct (rdbe32 _ _)|by destruct (rdbe64 _ _)]|]). done.
Qed.

Lemma DecodeAtom_sized fuel b a : DecodeAtom fuel b = Ok a -> exists size, rdbe32 b 0 = Some size /\ 8 <= size.
Proof. destruct fuel; [done|]. apply decodeBox_size. Qed.

Lemma DecodeAtom_ends fuel : forall n, (n < fuel)%nat -> answers (DecodeAtom fuel) n.
Proof.
  induction fuel as [|fuel IH]; intros n Hf b Hb; [lia|]. cbn [DecodeAtom]. unfold decodeBox.
  destruct (rdbe32 b 0) as [size|]; [|done]. cbn [orPanic]. destruct (len b <? size); [done|].
  destruct (sub b 8 size) as [data|] eqn:E; [|done]. apply sub_Some in E as (H & Hl & ->). cbn [orPanic].
  assert (length (seg b 8 size) < length b)%nat as Hd.
  { unfold seg, len in *. rewrite length_take, length_drop. lia. }
  apply (decodeNamed_ends (DecodeAtom fuel) (length (seg b 8 size)));
    [apply IH; lia|apply DecodeAtom_sized|done].
Qed.

(** Whatever bytes come, reading boxes ends: a box is at least its header, and the boxes
    in it are shorter. *)
Theorem decoding_ends b : DecodeAtoms b <> Stuck.
Proof.
  unfold DecodeAtoms. apply (atomsLoop_ends _ (length b)); [apply DecodeAtom_ends; lia|apply DecodeAtom_sized|lia|done].
Qed.

(** ** Where the code falls short *)

(** A box that gives a size below that of its header makes the reader panic: also size 0,
    which stands for the rest of the file. *)
Lemma small_size_panics name : DecodeAtoms ([0; 0; 0; 0] ++ name ++ zeros 8) = Panics.
Proof.
  unfold DecodeAtoms, atomsLoop. rewrite (proj2 (Z.leb_gt _ _)).
  { reflexivity. }
  rewrite !len_app. change (len [0; 0; 0; 0]) with 4. pose proof (len_nonneg name). pose proof (len_nonneg (zeros 8)). lia.
Qed.

(** So does a file that breaks off in a header. *)
Lemma short_header_panics : DecodeAtoms [0; 0; 0] = Panics.
Proof. reflexivity. Qed.

(** The number of samples is not compared with the size of the box: 16 bytes can make the
    reader go round 2^32 times. *)
Lemma samples_unbounded n : exists flags, forall d s f c r,
  (readSamples n flags d s f c r) = ((d, s, f, c), r).
Proof. exists 0. induction n as [|n IH]; intros d s f c r; [done|]. cbn. unfold rbind, rret. cbn. apply IH. Qed.
