(* ===== verification/IsoFacts.v ===== *)
(** What the box writer of Iso.v writes.  The writer patches the size of a box when it is
    closed; the reference is a tree: every open box has a name and the contents so far,
    and a closed one becomes the encoding of a box in the one around it.  The writer
    refines it, and the boxes of a file come out as the format has them. *)

From S2P Require Import Prelude Text Codec Bits Iso.
From S2P Require TsCrc HevcFacts TsFacts.

(** ** Boxes and the open ones *)

Definition box (name b : bytes) : bytes := be32 (u32 (4 + len name + len b)) ++ name ++ b.

Inductive building := Outer (b : bytes) | Inside (s : building) (name b : bytes).
Definition add (x : bytes) (s : building) : building :=
  match s with Outer b => Outer (b ++ x) | Inside s name b => Inside s name (b ++ x) end.
Definition close (s : building) : building :=
  match s with Outer b => Outer b | Inside s name b => add (box name b) s end.

(** The writer that has come as far. *)
Fixpoint flatBytes (s : building) : bytes :=
  match s with Outer b => b | Inside s name b => flatBytes s ++ [0; 0; 0; 0] ++ name ++ b end.
Fixpoint starts (s : building) : list Z :=
  match s with Outer _ => [] | Inside s _ _ => starts s ++ [len (flatBytes s)] end.
Definition flat (s : building) : Movie := mkMovie (flatBytes s) (starts s).

Lemma flat_add x s : flat (add x s) = mkMovie (flatBytes s ++ x) (starts s).
Proof. destruct s; unfold flat; cbn [add flatBytes starts]; by rewrite <- ?app_assoc. Qed.
Lemma add_add x y s : add y (add x s) = add (x ++ y) s.
Proof. destruct s; cbn; by rewrite app_assoc. Qed.

(** Where the next byte goes. *)
Fixpoint depth (s : building) : Z :=
  match s with Outer b => len b | Inside s name b => depth s + 4 + len name + len b end.
Lemma len_flat s : len (mb (flat s)) = depth s.
Proof.
  unfold flat. cbn [mb]. induction s as [|s IH name b]; [done|]. cbn [flatBytes depth].
  rewrite !len_app, IH. change (len [0; 0; 0; 0]) with 4. lia.
Qed.

Section runs.
Context (s : building).

Lemma run_write x : Write x (flat s) = Some (flat (add x s)).
Proof. by rewrite flat_add. Qed.
Lemma run_start name : StartAtom name (flat s) = Some (flat (Inside s name [])).
Proof. unfold StartAtom, flat. cbn. by rewrite app_nil_r. Qed.

(** Closing a box writes the size where the box began. *)
Lemma run_end name b : EndAtom (flat (Inside s name b)) = Some (flat (close (Inside s name b))).
Proof.
  unfold EndAtom. pose proof (len_flat (Inside s name b)) as Hl. cbn [depth] in Hl.
  pose proof (len_flat s) as Hs. unfold flat in Hs. cbn [mb] in Hs.
  change (flat (Inside s name b)) with
    (mkMovie (flatBytes s ++ [0; 0; 0; 0] ++ name ++ b) (starts s ++ [len (flatBytes s)])) in *.
  cbn [mb mstart] in *. rewrite last_snoc. cbn [mbind option_bind]. rewrite Hl, Hs.
  rewrite <- Hs, (HevcFacts.put_mid (flatBytes s) [0; 0; 0; 0] (name ++ b)) by done.
  cbn [mbind option_bind close]. rewrite flat_add. unfold box. do 2 f_equal.
  - do 4 f_equal. lia.
  - rewrite length_app. cbn. rewrite Nat.add_sub. apply take_app_length.
Qed.
End runs.

Lemma run_seq f g m m' : f m = Some m' -> (f >> g) m = g m'.
Proof. intros H. unfold wseq. by rewrite H. Qed.

(** ** What a method writes, wherever it is called *)

Definition wrote (w : Wr) (x : bytes) : Prop := forall s, w (flat s) = Some (flat (add x s)).

Lemma wrote_Write x : wrote (Write x) x.
Proof. intros s. apply run_write. Qed.
Lemma wrote_skip : wrote wskip [].
Proof. intros s. unfold wskip. destruct s; cbn [add]; by rewrite app_nil_r. Qed.
Lemma wrote_Skip n : wrote (Skip n) (zeros (Z.to_nat n)).
Proof. apply wrote_Write. Qed.
Lemma wrote_seq f g x y : wrote f x -> wrote g y -> wrote (f >> g) (x ++ y).
Proof. intros Hf Hg s. by rewrite (run_seq _ _ _ _ (Hf s)), Hg, add_add. Qed.
Lemma wrote_if (c : bool) f g x y : wrote f x -> wrote g y -> wrote (if c then f else g) (if c then x else y).
Proof. by destruct c. Qed.

Definition be24 (v : Z) : bytes := [u8 (Z.shiftr v 16); u8 (Z.shiftr v 8); u8 v].
Definition be64 (v : Z) : bytes := be32 (Z.shiftr v 32) ++ be32 v.

Lemma wrote_16 v : wrote (WriteUint16 v) (be16 v).
Proof.
  assert (be16 v = [u8 (Z.shiftr v 8); u8 v]) as ->; [|apply wrote_Write].
  unfold be16, u8. by rewrite Z.shiftr_div_pow2 by lia.
Qed.
Lemma wrote_24 v : wrote (WriteUint24 v) (be24 v).
Proof. apply wrote_Write. Qed.
Lemma wrote_32 v : wrote (WriteUint32 v) (be32 v).
Proof. rewrite TsCrc.be32_shifts. apply wrote_Write. Qed.
Lemma wrote_64 v : wrote (WriteUint64 v) (be64 v).
Proof.
  unfold be64. rewrite !TsCrc.be32_shifts, !Z.shiftr_shiftr by lia. apply wrote_Write.
Qed.

Create HintDb wrote discriminated.
#[export] Hint Constants Opaque : wrote.
#[export] Hint Resolve wrote_Write wrote_skip wrote_Skip wrote_seq wrote_if wrote_16 wrote_24 wrote_32 wrote_64 : wrote.

(** A whole method: one call after the other, the boxes opened and closed on the way. *)
Definition turns (w : Wr) (s s' : building) : Prop := w (flat s) = Some (flat s').

Lemma turns_start n g s s' : turns g (Inside s n []) s' -> turns (StartAtom n >> g) s s'.
Proof. unfold turns. by rewrite (run_seq _ _ _ _ (run_start s n)). Qed.
Lemma turns_close n b g s s' : turns g (add (box n b) s) s' -> turns (EndAtom >> g) (Inside s n b) s'.
Proof. unfold turns. by rewrite (run_seq _ _ _ _ (run_end s n b)). Qed.
Lemma turns_end n b s s' : s' = add (box n b) s -> turns EndAtom (Inside s n b) s'.
Proof. intros ->. apply run_end. Qed.
Lemma turns_wrote f x g s s' : wrote f x -> turns g (add x s) s' -> turns (f >> g) s s'.
Proof. intros H. unfold turns. by rewrite (run_seq _ _ _ _ (H s)). Qed.
Lemma turns_last f x s s' : wrote f x -> s' = add x s -> turns f s s'.
Proof. intros H ->. apply H. Qed.

Lemma turns_assoc f g h s s' : turns (f >> g >> h) s s' -> turns ((f >> g) >> h) s s'.
Proof. unfold turns, wseq. by destruct (f (flat s)). Qed.

Ltac turn :=
  lazymatch goal with
  | |- turns (StartAtom _ >> _) _ _ => apply turns_start
  | |- turns (EndAtom >> _) _ _ => apply turns_close
  | |- turns EndAtom _ _ => apply turns_end
  | |- turns ((_ >> _) >> _) _ _ => apply turns_assoc
  | |- turns (_ >> _) _ _ => eapply turns_wrote; [solve [eauto with wrote]|]
  | |- turns _ _ _ => eapply turns_last; [solve [eauto with wrote]|]
  end; cbn [add].
Ltac writes :=
  let s := fresh "s" in intros s;
  lazymatch goal with |- ?w (flat _) = Some (flat ?s') => change (turns w s s') end;
  repeat turn; rewrite ?add_add, ?app_nil_l, <- ?app_assoc; reflexivity.

(** ** The boxes *)

Definition matrix : bytes := be32 0x00010000 ++ zeros 12 ++ be32 0x00010000 ++ zeros 12 ++ be32 0x40000000.
Lemma wrote_Matrix : wrote WriteMatrix matrix.
Proof. unfold WriteMatrix. writes. Qed.
#[export] Hint Resolve wrote_Matrix : wrote.

Definition ftyp : bytes := box Ftyp (str "iso5" ++ be32 512 ++ str "iso5" ++ str "iso6" ++ str "mp41").
Lemma wrote_FileType : wrote WriteFileType ftyp.
Proof. unfold WriteFileType. writes. Qed.

Definition mvhd : bytes :=
  box MoovMvhd (zeros 12 ++ be32 1000 ++ zeros 4 ++ [0; 1; 0; 0] ++ [1; 0] ++ zeros 10 ++ matrix ++ zeros 24
    ++ be32 0xFFFFFFFF).
Lemma wrote_MovieHeader : wrote WriteMovieHeader mvhd.
Proof. unfold WriteMovieHeader, WriteFloat32, WriteFloat16. writes. Qed.

(** The header of a track: both flags, the number, and either the size of the picture or
    the group and volume of sound. *)
Definition float32 (v : Z) : bytes := be16 (u16 v) ++ [0; 0].
Lemma wrote_Float32 v : wrote (WriteFloat32 v) (float32 v).
Proof.
  assert (float32 v = [u8 (Z.shiftr (u16 v) 8); u8 v; 0; 0]) as ->; [|apply wrote_Write].
  unfold float32, be16, u8, u16. rewrite Z.shiftr_div_pow2 by lia. change (2 ^ 8) with 256.
  cbn [app]. do 2 f_equal. ints.
Qed.
#[export] Hint Resolve wrote_Float32 : wrote.

Definition tkhd (id width height : Z) : bytes :=
  box MoovTrakTkhd ([0] ++ be24 3 ++ zeros 8 ++ be32 id ++ zeros 18
    ++ (if 0 <? width then zeros 4 else be16 1 ++ [1; 0]) ++ zeros 2 ++ matrix
    ++ (if 0 <? width then float32 width ++ float32 height else zeros 8)).
Lemma wrote_TrackHeader id width height : wrote (WriteTrackHeader id width height) (tkhd id width height).
Proof. unfold WriteTrackHeader, WriteFloat16, tkhd. destruct (0 <? width); writes. Qed.

Definition mdhd (timescale : Z) : bytes :=
  box MoovTrakMdiaMdhd (zeros 12 ++ be32 timescale ++ zeros 4 ++ be16 0x55C4 ++ zeros 2).
Lemma wrote_MediaHeader timescale : wrote (WriteMediaHeader timescale) (mdhd timescale).
Proof. unfold WriteMediaHeader. writes. Qed.

Definition hdlr (s name : bytes) : bytes :=
  box MoovTrakMdiaHdlr (zeros 8 ++ s ++ zeros 12 ++ name ++ zeros 1).
Lemma wrote_MediaHandler k name : wrote (WriteMediaHandler k name) (hdlr k name).
Proof. unfold WriteMediaHandler. writes. Qed.

Definition vmhd : bytes := box MoovTrakMdiaMinfVmhd (zeros 1 ++ be24 1 ++ zeros 8).
Lemma wrote_VideoMediaInfo : wrote WriteVideoMediaInfo vmhd.
Proof. unfold WriteVideoMediaInfo. writes. Qed.

Definition smhd : bytes := box MoovTrakMdiaMinfSmhd (zeros 8).
Lemma wrote_AudioMediaInfo : wrote WriteAudioMediaInfo smhd.
Proof. unfold WriteAudioMediaInfo. writes. Qed.

Definition dinf : bytes :=
  box MoovTrakMdiaMinfDinf (box MoovTrakMdiaMinfDinfDref (zeros 4 ++ be32 1
    ++ box MoovTrakMdiaMinfDinfDrefUrl (zeros 1 ++ be24 1))).
Lemma wrote_DataInfo : wrote WriteDataInfo dinf.
Proof. unfold WriteDataInfo. writes. Qed.

(** A sample table with one description and no samples: they come in the fragments. *)
Definition stbl (desc : bytes) : bytes :=
  box MoovTrakMdiaMinfStbl (box MoovTrakMdiaMinfStblStsd (zeros 4 ++ be32 1 ++ desc)
    ++ box MoovTrakMdiaMinfStblStts (zeros 8) ++ box MoovTrakMdiaMinfStblStsc (zeros 8)
    ++ box MoovTrakMdiaMinfStblStsz (zeros 12) ++ box MoovTrakMdiaMinfStblStco (zeros 8)).
Lemma wrote_SampleTable w desc : wrote w desc -> wrote (WriteSampleTable w) (stbl desc).
Proof. unfold WriteSampleTable. intros H. writes. Qed.

Definition trex (id : Z) : bytes := box MoovMvexTrex (zeros 4 ++ be32 id ++ be32 1 ++ zeros 12).
Lemma wrote_TrackExtend id : wrote (WriteTrackExtend id) (trex id).
Proof. unfold WriteTrackExtend. writes. Qed.

#[export] Hint Resolve wrote_FileType wrote_MovieHeader wrote_TrackHeader wrote_MediaHeader wrote_MediaHandler
  wrote_VideoMediaInfo wrote_AudioMediaInfo wrote_DataInfo wrote_SampleTable wrote_TrackExtend : wrote.

(** ** Sample descriptions *)

Definition avcx (h265 : bool) (width height : Z) (conf : bytes) : bytes :=
  box (if h265 then str "hev1" else str "avc1")
    (zeros 6 ++ be16 1 ++ zeros 16 ++ be16 width ++ be16 height ++ float32 72 ++ float32 72 ++ zeros 4 ++ be16 1
     ++ zeros 32 ++ be16 24 ++ be16 0xFFFF ++ box (if h265 then str "hvcC" else str "avcC") conf
     ++ box (str "pasp") (be32 1 ++ be32 1)).
Definition videoCodec (h265 : bool) : bytes := if h265 then str "H265" else str "H264".
Lemma wrote_Video h265 width height conf :
  wrote (WriteVideo (videoCodec h265) width height conf) (avcx h265 width height conf).
Proof.
  unfold WriteVideo. destruct h265; cbn [videoCodec];
    [change (isH264 (str "H265")) with false; change (isH265 (str "H265")) with true
    |change (isH264 (str "H264")) with true]; cbv iota; unfold avcx; writes.
Qed.

(** The descriptor of AAC: the bytes of the configuration after a tag and their number. *)
Definition esds (conf : bytes) : bytes :=
  box (str "esds") (zeros 4 ++ [3; 0x80; 0x80; 0x80; u8 (32 + u8 (len conf))] ++ zeros 3
    ++ [4; 0x80; 0x80; 0x80; u8 (18 + u8 (len conf))] ++ [0x40; 0x15] ++ zeros 11
    ++ [5; 0x80; 0x80; 0x80; u8 (len conf)] ++ conf ++ [6; 0x80; 0x80; 0x80; 1; 2]).
Lemma wrote_EsdsAAC conf : wrote (WriteEsdsAAC conf) (esds conf).
Proof.
  unfold WriteEsdsAAC, esds. cbv zeta.
  replace (size3 + esdsHeader + size4 + esdsHeader + u8 (len conf) + esdsHeader + size6) with (32 + u8 (len conf))
    by (unfold size3, esdsHeader, size4, size6; lia).
  change (size4 + esdsHeader + u8 (len conf)) with (18 + u8 (len conf)).
  writes.
Qed.
#[export] Hint Resolve wrote_Video wrote_EsdsAAC : wrote.

Definition esdsMP3 : bytes :=
  box (str "esds") (zeros 4 ++ [3; 0x80; 0x80; 0x80; 27] ++ zeros 3 ++ [4; 0x80; 0x80; 0x80; 13] ++ [0x6B; 0x15]
    ++ zeros 11 ++ [6; 0x80; 0x80; 0x80; 1; 2]).
Lemma wrote_EsdsMP3 : wrote WriteEsdsMP3 esdsMP3.
Proof. unfold WriteEsdsMP3. writes. Qed.
Definition dOps (channels sampleRate : Z) : bytes :=
  box (str "dOps") (zeros 1 ++ [u8 channels] ++ be16 0 ++ be32 sampleRate ++ zeros 3).
Lemma wrote_Opus channels sampleRate : wrote (WriteOpus channels sampleRate) (dOps channels sampleRate).
Proof. unfold WriteOpus. writes. Qed.
Lemma wrote_box name b : wrote (StartAtom name >> Write b >> EndAtom) (box name b).
Proof. writes. Qed.
#[export] Hint Resolve wrote_EsdsMP3 wrote_Opus wrote_box : wrote.

(** The sound codecs: the name of their entry and what follows its fields. *)
Inductive sound := AAC | MP3 | FLAC | Opus | PCMU | PCMA.
Definition soundCodec (k : sound) : bytes :=
  match k with
  | AAC => str "MPEG4-GENERIC" | MP3 => str "MPA" | FLAC => str "FLAC" | Opus => str "OPUS"
  | PCMU => str "PCMU" | PCMA => str "PCMA"
  end.
Definition soundName (k : sound) : bytes :=
  match k with
  | AAC | MP3 => str "mp4a" | FLAC => str "fLaC" | Opus => str "Opus" | PCMU => str "ulaw" | PCMA => str "alaw"
  end.
Definition soundConfig (k : sound) (channels sampleRate : Z) (conf : bytes) : bytes :=
  match k with
  | AAC => esds conf
  | MP3 => esdsMP3
  | FLAC => box (str "dfLa") (FLACHeader false sampleRate)
  | Opus => dOps channels sampleRate
  | PCMU | PCMA => box (str "chan") [0; 0; 0; 0; 0; 1; 0; 0; 0; 0; 0; 4; 0; 0; 0; 0]
  end.
Definition someChannels (channels : Z) : Z := if channels =? 0 then 1 else channels.
Definition soundEntry (k : sound) (channels sampleRate : Z) (conf : bytes) : bytes :=
  box (soundName k) (zeros 6 ++ be16 1 ++ zeros 8 ++ be16 (someChannels channels) ++ be16 16 ++ zeros 4
    ++ float32 sampleRate ++ soundConfig k (someChannels channels) sampleRate conf).

Lemma wrote_Audio k channels sampleRate conf :
  wrote (WriteAudio (soundCodec k) channels sampleRate conf) (soundEntry k channels sampleRate conf).
Proof.
  unfold WriteAudio, soundEntry. cbv zeta. fold (someChannels channels). generalize (someChannels channels) as c. intros c.
  destruct k; lazymatch goal with |- context [soundCodec ?k] =>
    let n := eval vm_compute in (soundCodec k) in change (soundCodec k) with n;
    repeat match goal with
      |- context [?f n] =>
        lazymatch f with
        | isAAC => idtac | isMP3 => idtac | isFLAC => idtac | isOpus => idtac | isPCMU => idtac | isPCMA => idtac
        end;
        let b := eval vm_compute in (f n) in change (f n) with b
      end end; cbn [orb soundName soundConfig]; cbv iota; writes.
Qed.
#[export] Hint Resolve wrote_Audio : wrote.

(** ** Tracks and fragments *)

Definition videoTrack (id : Z) (h265 : bool) (timescale width height : Z) (conf : bytes) : bytes :=
  box MoovTrak (tkhd id width height
    ++ box MoovTrakMdia (mdhd timescale ++ hdlr (str "vide") (str "VideoHandler")
         ++ box MoovTrakMdiaMinf (vmhd ++ dinf ++ stbl (avcx h265 width height conf)))).
Lemma wrote_VideoTrack id h265 timescale width height conf :
  wrote (WriteVideoTrack id (videoCodec h265) timescale width height conf)
    (videoTrack id h265 timescale width height conf).
Proof. unfold WriteVideoTrack. writes. Qed.

Definition audioTrack (id : Z) (k : sound) (timescale channels : Z) (conf : bytes) : bytes :=
  box MoovTrak (tkhd id 0 0
    ++ box MoovTrakMdia (mdhd timescale ++ hdlr (str "soun") (str "SoundHandler")
         ++ box MoovTrakMdiaMinf (smhd ++ dinf ++ stbl (soundEntry k channels timescale conf)))).
Lemma wrote_AudioTrack id k timescale channels conf :
  wrote (WriteAudioTrack id (soundCodec k) timescale channels conf) (audioTrack id k timescale channels conf).
Proof. unfold WriteAudioTrack. writes. Qed.

(** The place of the data in a fragment that begins the output: behind the fragment's
    headers and the header of the data. *)
Definition dataOffset (cts : Z) : Z := if cts =? 0 then 108 else 112.
Definition moof (seq tid duration size flags dts cts : Z) : bytes :=
  box Moof (box MoofMfhd (zeros 4 ++ be32 seq)
    ++ box MoofTraf (box MoofTrafTfhd ([0] ++ be24 0x020038 ++ be32 tid ++ be32 duration ++ be32 size ++ be32 flags)
         ++ box MoofTrafTfdt ([1; 0; 0; 0] ++ be64 dts)
         ++ box MoofTrafTrun ([0] ++ be24 (if cts =? 0 then 1 else 0x801) ++ be32 1 ++ be32 (dataOffset cts)
              ++ (if cts =? 0 then [] else be32 cts)))).

Lemma turns_offset more g s s' :
  turns g (add (be32 (u32 (u32 (depth s) + more))) s) s' -> turns (WriteOffset more >> g) s s'.
Proof.
  intros H. unfold turns. erewrite run_seq; [exact H|]. unfold WriteOffset. rewrite len_flat. apply wrote_32.
Qed.
(** The offset is that of a known place. *)
Ltac offset :=
  lazymatch goal with |- turns (WriteOffset _ >> _) _ _ => apply turns_offset end;
  lazymatch goal with |- context [u32 (u32 (depth ?s) + ?m)] =>
    let n := eval vm_compute in (u32 (u32 (depth s) + m)) in change (u32 (u32 (depth s) + m)) with n
  end; cbn [add].

Lemma wrote_Fragment seq tid duration size flags dts cts :
  WriteMovieFragment seq tid duration size flags dts cts NewMovie
    = Some (flat (Outer (moof seq tid duration size flags dts cts))).
Proof.
  change NewMovie with (flat (Outer [])).
  lazymatch goal with |- ?w (flat ?s) = Some (flat ?s') => change (turns w s s') end.
  unfold WriteMovieFragment, moof, dataOffset.
  destruct (cts =? 0); repeat (offset || turn);
    rewrite ?app_nil_r, ?app_nil_l, <- ?app_assoc; reflexivity.
Qed.

Lemma wrote_Data b : wrote (WriteData b) (box Mdat b).
Proof. apply wrote_box. Qed.
