(* ===== verification/IsoTrip.v ===== *)
(** Boxes that were written are read back: the boxes of Iso.v through the reader of
    IsoRead.v. *)

From S2P Require Import Prelude Text Codec Bits Iso IsoRead IsoFacts.
From S2P Require Cs2Facts TsFacts.

(** ** Whole bytes *)

Definition atByte (r : Reader) (l : bytes) : Prop :=
  bits r = 0 /\ 0 <= pos r <= len (buf r) /\ drop (Z.to_nat (pos r)) (buf r) = l.

(** [m] takes the bytes [x] and gives [a]. *)
Definition takes {A} (m : Rd A) (x : bytes) (a : A) : Prop :=
  forall r l, atByte r (x ++ l) -> exists r', m r = (a, r') /\ atByte r' l.

Lemma atByte_new l : atByte (NewReader l) l.
Proof. repeat split; try done. apply len_nonneg. Qed.
Lemma atByte_Left r l : atByte r l -> Left r = l.
Proof.
  intros (_ & Hp & <-). unfold Left, seg. apply take_ge. rewrite length_drop. unfold len. lia.
Qed.

Lemma takes_ret {A} (a : A) : takes (rret a) [] a.
Proof. intros r l H. by exists r. Qed.
Lemma takes_bind {A B} (m : Rd A) (k : A -> Rd B) x y a b :
  takes m x a -> takes (k a) y b -> takes (rbind m k) (x ++ y) b.
Proof.
  intros Hm Hk r l H. rewrite <- app_assoc in H. destruct (Hm r _ H) as (r1 & E & H1). unfold rbind. rewrite E.
  apply (Hk r1 l H1).
Qed.
Lemma takes_last {A B} (m : Rd A) (f : A -> B) x a : takes m x a -> takes (y <- m;; rret (f y)) x (f a).
Proof. intros H. rewrite <- (app_nil_r x). by eapply takes_bind; [exact H|apply takes_ret]. Qed.

Lemma drop_past (b x l : bytes) p : 0 <= p <= len b -> drop (Z.to_nat p) b = x ++ l ->
  p + len x <= len b /\ drop (Z.to_nat (p + len x)) b = l /\ seg b p (p + len x) = x.
Proof.
  intros Hp H. assert (length b - Z.to_nat p = length x + length l)%nat as Hl.
  { rewrite <- length_drop, H. apply length_app. }
  unfold len in *. repeat split; [lia| |].
  - rewrite Z2Nat.inj_add, Nat2Z.id by lia. rewrite <- drop_drop, H. by rewrite drop_app_length.
  - unfold seg. rewrite H. replace (Z.to_nat (p + Z.of_nat (length x) - p)) with (length x) by lia.
    apply take_app_length.
Qed.

Lemma takes_byte c : takes ReadByte [c] c.
Proof.
  intros r l (Hb & Hp & H). destruct (drop_past (buf r) [c] l (pos r) Hp H) as (H1 & H2 & H3).
  change (len [c]) with 1 in *. unfold ReadByte, readAligned. rewrite Hb. change (0 =? 0) with true. cbv iota.
  rewrite (proj2 (Z.leb_gt _ _)) by lia. eexists. split.
  - f_equal. unfold at_, rd. rewrite decide_True by lia.
    assert (drop (Z.to_nat (pos r)) (buf r) !! 0%nat = Some c) as E by by rewrite H. rewrite lookup_drop in E.
    rewrite Nat.add_0_r in E. by rewrite E.
  - repeat split; cbn; done || lia.
Qed.
Lemma takes_bytes n b : length b = n -> takes (ReadBytes n) b b.
Proof.
  intros <- r l (Hb & Hp & H). destruct (drop_past (buf r) b l (pos r) Hp H) as (H1 & H2 & H3).
  unfold ReadBytes. rewrite Hb. change (0 =? 0) with true. cbv iota. fold (len b) in *.
  change (Z.of_nat (length b)) with (len b). rewrite (proj2 (Z.ltb_ge _ _)) by lia. rewrite H3.
  eexists. split; [done|]. pose proof (len_nonneg b). repeat split; cbn; done || lia.
Qed.

Lemma takes_16 v : is_u16 v -> takes ReadUint16 (be16 v) v.
Proof.
  intros Hv r l Hr. unfold ReadUint16. rewrite (proj1 Hr). change (0 =? 0) with true. cbv iota.
  assert (takes (h <- ReadByte;; l <- ReadByte;; rret (Z.lor (Z.shiftl h 8) l)) (be16 v) v) as H; [|by apply H].
  assert (v = Z.lor (Z.shiftl (v / 256 mod 256) 8) (v mod 256)) as Ev.
  { rewrite lor_shift by ints. ints. }
  rewrite Ev at 2. apply (takes_bind _ _ [_] [_] _ _ (takes_byte _)).
  apply (takes_last _ (Z.lor (Z.shiftl (v / 256 mod 256) 8))). apply takes_byte.
Qed.

Lemma be32_digits v : is_u32 v ->
  v = Z.lor (Z.lor (Z.lor (Z.shiftl (v / 16777216 mod 256) 24) (Z.shiftl (v / 65536 mod 256) 16))
        (Z.shiftl (v / 256 mod 256) 8)) (v mod 256).
Proof.
  intros Hv. unfold is_u32 in Hv.
  replace (Z.shiftl (v / 16777216 mod 256) 24) with (Z.shiftl (Z.shiftl (Z.shiftl (v / 16777216 mod 256) 8) 8) 8)
    by (by rewrite !Z.shiftl_shiftl by lia).
  replace (Z.shiftl (v / 65536 mod 256) 16) with (Z.shiftl (Z.shiftl (v / 65536 mod 256) 8) 8)
    by (by rewrite Z.shiftl_shiftl by lia).
  rewrite <- !Z.shiftl_lor, !lor_shift by ints. change (2 ^ 8) with 256. ints.
Qed.

Lemma takes_32 v : is_u32 v -> takes ReadUint32 (be32 v) v.
Proof.
  intros Hv r l Hr. unfold ReadUint32. rewrite (proj1 Hr). change (0 =? 0) with true. cbv iota.
  assert (takes (a <- ReadByte;; b <- ReadByte;; c <- ReadByte;; d <- ReadByte;;
    rret (Z.lor (Z.lor (Z.lor (Z.shiftl a 24) (Z.shiftl b 16)) (Z.shiftl c 8)) d)) (be32 v) v) as H; [|by apply H].
  rewrite (be32_digits v Hv) at 2.
  do 3 apply (takes_bind _ _ [_] _ _ _ (takes_byte _)).
  apply (takes_last ReadByte (Z.lor _)), takes_byte.
Qed.

(** Three bytes that are written as they are. *)
Lemma takes_24 a b c : takes ReadUint24 [a; b; c] (Z.lor (Z.lor (Z.shiftl a 16) (Z.shiftl b 8)) c).
Proof.
  intros r l Hr. unfold ReadUint24. rewrite (proj1 Hr). change (0 =? 0) with true. cbv iota. revert r l Hr.
  do 2 apply (takes_bind _ _ [_] _ _ _ (takes_byte _)). apply (takes_last ReadByte (Z.lor _)), takes_byte.
Qed.

(** ** One box *)

(** A box of that name and contents is read as [out]; boxes in a row are read as [l]. *)
Definition readsAs (name d : bytes) (out : decoded) : Prop :=
  forall fuel, (length d < fuel)%nat -> decodeNamed (DecodeAtom fuel) name d = Ok out.
Definition allRead (d : bytes) (l : list atom) : Prop :=
  forall f fuel, (length d < f)%nat -> (length d < fuel)%nat -> atomsLoop (DecodeAtom f) fuel d = Ok l.
Definition items (out : decoded) : list atom := match out with One a => [a] | Many l => l end.

(** The size fits its field. *)
Definition fits (name d : bytes) : Prop := len name = 4 /\ 8 + len d < 4294967296.

Section one.
Context (name d : bytes) (Hf : fits name d).

Lemma box_split rest : box name d ++ rest = be32 (8 + len d) ++ name ++ d ++ rest.
Proof.
  destruct Hf as [Hn Hd]. pose proof (len_nonneg d). unfold box. rewrite Hn. unfold u32.
  rewrite Z.mod_small by lia. replace (4 + 4 + len d) with (8 + len d) by lia. by rewrite <- !app_assoc.
Qed.
Lemma len_box : len (box name d) = 8 + len d.
Proof.
  destruct Hf as [Hn Hd]. pose proof (box_split []) as H. rewrite !app_nil_r in H.
  rewrite H, !len_app, Hn. change (len (be32 _)) with 4. lia.
Qed.

Lemma box_size rest : rdbe32 (box name d ++ rest) 0 = Some (8 + len d).
Proof. rewrite box_split. apply Cs2Facts.rdbe32_be32. destruct Hf. pose proof (len_nonneg d). red; lia. Qed.

Lemma decode_box f rest out : readsAs name d out -> (length d < f)%nat -> DecodeAtom (S f) (box name d ++ rest) = Ok out.
Proof.
  intros H Hd. cbn [DecodeAtom]. unfold decodeBox. rewrite box_size. cbn [orPanic].
  rewrite (proj2 (Z.ltb_ge _ _)) by (rewrite len_app, len_box; pose proof (len_nonneg rest); lia).
  rewrite box_split. destruct Hf as [Hn _].
  rewrite sub_in by (rewrite ?len_app, ?Hn; change (len (be32 _)) with 4; pose proof (len_nonneg rest); pose proof (len_nonneg d); lia).
  cbn [orPanic].
  pose proof (Annexb.seg_mid (be32 (8 + len d)) name (d ++ rest)) as Hs. rewrite Hn in Hs.
  change (len (be32 (8 + len d))) with 4 in Hs. change (4 + 4) with 8 in Hs. rewrite Hs.
  pose proof (Annexb.seg_mid (be32 (8 + len d) ++ name) d rest) as Hd'. rewrite <- app_assoc, len_app, Hn in Hd'.
  change (len (be32 (8 + len d)) + 4) with 8 in Hd'. rewrite Hd'. by apply H.
Qed.
End one.

Lemma allRead_nil : allRead [] [].
Proof. intros f [|fuel] _ H; [cbn in H; lia|done]. Qed.

Lemma allRead_box name d rest out l : fits name d -> readsAs name d out -> allRead rest l ->
  allRead (box name d ++ rest) (items out ++ l).
Proof.
  intros Hf Hd Hr [|f] [|fuel] Hn Hm; try lia.
  pose proof (len_box name d Hf) as Hl. pose proof (len_nonneg d). pose proof (len_nonneg rest).
  rewrite length_app in Hn, Hm. unfold len in Hl.
  cbn [atomsLoop]. rewrite (proj2 (Z.leb_gt _ _)) by (rewrite len_app, (len_box name d Hf); lia).
  rewrite (decode_box name d Hf f rest out Hd) by lia. cbn [andThen]. rewrite (box_size name d Hf). cbn [orPanic].
  rewrite sub_in by (rewrite ?len_app, ?(len_box name d Hf); lia).
  rewrite <- (len_box name d Hf), len_app, seg_app_exact by done. cbn [orPanic].
  rewrite (Hr (S f) fuel) by lia. by destruct out.
Qed.

Lemma reads_container name d l : name ∈ containers -> allRead d l -> readsAs name d (Many l).
Proof.
  intros Hn Hr fuel Hd. unfold decodeNamed. rewrite decide_True by done. unfold atomsOf.
  by rewrite (Hr fuel (S (length d))) by lia.
Qed.
Lemma allRead_container name d l rest l' : fits name d -> name ∈ containers -> allRead d l -> allRead rest l' ->
  allRead (box name d ++ rest) (l ++ l').
Proof. intros Hf Hn Hd. by apply (allRead_box name d rest (Many l)); [|apply reads_container]. Qed.

(** A leaf, whose decoding is a computation. *)
Lemma allRead_leaf name d a rest l : fits name d -> readsAs name d (One a) -> allRead rest l ->
  allRead (box name d ++ rest) (a :: l).
Proof. intros Hf Hd. apply (allRead_box name d rest (One a)); done. Qed.

(** ** The fragment *)

Section names.
Context (dec : bytes -> result decoded) (d : bytes).
Lemma named_mfhd : decodeNamed dec MoofMfhd d = orPanic (rdbe32 d 4) (fun v => Ok (One (AtomMfhd v))).
Proof. reflexivity. Qed.
Lemma named_tfhd : decodeNamed dec MoofTrafTfhd d = Ok (One (readTfhd (NewReader d)).1).
Proof. reflexivity. Qed.
Lemma named_tfdt : decodeNamed dec MoofTrafTfdt d = orPanic (rdbe64 d 4) (fun v => Ok (One (AtomTfdt v))).
Proof. reflexivity. Qed.
Lemma named_trun : decodeNamed dec MoofTrafTrun d = Ok (One (readTrun (NewReader d)).1).
Proof. reflexivity. Qed.
Lemma named_mdat : decodeNamed dec Mdat d = Ok (One (AtomMdat d)).
Proof. reflexivity. Qed.
Lemma named_tkhd : decodeNamed dec MoovTrakTkhd d = orPanic (rdbe32 d 12) (fun v => Ok (One (AtomTkhd v))).
Proof. reflexivity. Qed.
Lemma named_mdhd : decodeNamed dec MoovTrakMdiaMdhd d = orPanic (rdbe32 d 12) (fun v => Ok (One (AtomMdhd v))).
Proof. reflexivity. Qed.
Lemma named_stsd : decodeNamed dec MoovTrakMdiaMinfStblStsd d =
  orPanic (rdbe32 d 4) (fun n => if n =? 1 then orPanic (sub d 8 (len d)) dec
                                 else Ok (One (Atom MoovTrakMdiaMinfStblStsd d))).
Proof. reflexivity. Qed.
Lemma named_mp4a : decodeNamed dec (str "mp4a") d = decodeAudio dec (str "mp4a") d.
Proof. reflexivity. Qed.
End names.

(** A word behind a prefix of known length. *)
Lemma rdbe32_behind pre l : rdbe32 (pre ++ l) (len pre) = rdbe32 l 0.
Proof.
  unfold rdbe32, rdbe16. pose proof (len_nonneg pre). rewrite !rd_app_r by lia.
  replace (len pre - len pre) with 0 by lia. replace (len pre + 1 - len pre) with (0 + 1) by lia.
  replace (len pre + 2 - len pre) with (0 + 2) by lia. by replace (len pre + 2 + 1 - len pre) with (0 + 2 + 1) by lia.
Qed.
Lemma rdbe32_field pre v post i : is_u32 v -> i = len pre -> rdbe32 (pre ++ be32 v ++ post) i = Some v.
Proof. intros H ->. rewrite rdbe32_behind. by apply Cs2Facts.rdbe32_be32. Qed.

Lemma reads_mfhd seq : is_u32 seq -> readsAs MoofMfhd (zeros 4 ++ be32 seq) (One (AtomMfhd seq)).
Proof.
  intros H fuel _. rewrite named_mfhd, <- (app_nil_r (be32 seq)). by rewrite (rdbe32_field (zeros 4)).
Qed.

(** What a reader takes from the beginning of the contents. *)
Lemma takes_new {A} (m : Rd A) x a : takes m x a -> (m (NewReader x)).1 = a.
Proof.
  intros H. destruct (H (NewReader x) []) as (r & -> & _); [|done]. rewrite app_nil_r. apply atByte_new.
Qed.

Lemma reads_tfhd tid duration size flags : is_u32 tid -> is_u32 duration -> is_u32 size -> is_u32 flags ->
  readsAs MoofTrafTfhd ([0] ++ be24 0x020038 ++ be32 tid ++ be32 duration ++ be32 size ++ be32 flags)
    (One (AtomTfhd tid duration size flags)).
Proof.
  intros H1 H2 H3 H4 fuel _. rewrite named_tfhd. do 2 f_equal. apply takes_new. unfold readTfhd.
  eapply takes_bind; [apply takes_byte|]. eapply takes_bind; [apply takes_24|].
  eapply takes_bind; [by apply takes_32|].
  do 2 (eapply takes_bind; [by apply takes_32|]). apply (takes_last _ (AtomTfhd tid duration size)). by apply takes_32.
Qed.

Lemma rdbe64_be64 pre v i : is_u64 v -> i = len pre -> rdbe64 (pre ++ be64 v) i = Some v.
Proof.
  intros H ->. unfold rdbe64, be64. rewrite Z.shiftr_div_pow2 by lia. change (2 ^ 32) with 4294967296.
  assert (is_u32 (v / 4294967296)) as Hh by (unfold is_u64, is_u32 in *; split; [apply Z.div_pos|apply Z.div_lt_upper_bound]; lia).
  rewrite (rdbe32_field pre _ _ (len pre)) by done. cbn [mbind option_bind].
  rewrite app_assoc, <- (app_nil_r (be32 v)).
  assert (be32 v = be32 (v mod 4294967296)) as ->.
  { unfold be32, le32. f_equal. apply f_equal2; [ints|]. do 3 (apply f_equal2; [ints|]). done. }
  assert (is_u32 (v mod 4294967296)) as Hl by ints. rewrite rdbe32_field by (done || by rewrite len_app). cbn [mbind option_bind]. f_equal. symmetry. by apply Z.div_mod.
Qed.

Lemma reads_tfdt dts : is_u64 dts -> readsAs MoofTrafTfdt ([1; 0; 0; 0] ++ be64 dts) (One (AtomTfdt dts)).
Proof. intros H fuel _. rewrite named_tfdt. by rewrite (rdbe64_be64 [1; 0; 0; 0]). Qed.

Lemma reads_trun cts : is_u32 cts ->
  readsAs MoofTrafTrun ([0] ++ be24 (if cts =? 0 then 1 else 0x801) ++ be32 1 ++ be32 (dataOffset cts)
      ++ (if cts =? 0 then [] else be32 cts))
    (One (AtomTrun (dataOffset cts) 0 [] [] [] (if cts =? 0 then [] else [cts]))).
Proof.
  intros H fuel _. rewrite named_trun. do 2 f_equal. apply takes_new. unfold readTrun, dataOffset.
  eapply takes_bind; [apply takes_byte|]. eapply takes_bind; [apply takes_24|].
  destruct (cts =? 0).
  - do 2 (eapply takes_bind; [by apply takes_32|]). eapply (takes_bind _ _ [] []); [apply takes_ret|].
    eapply (takes_bind _ _ [] []); [apply takes_ret|]. apply takes_ret.
  - do 2 (eapply takes_bind; [by apply takes_32|]). apply (takes_bind _ _ [] (be32 cts) 0); [apply takes_ret|].
    rewrite <- (app_nil_r (be32 cts)).
    apply (takes_bind _ _ _ [] ([], [], [], [cts])); [|apply takes_ret].
    change (Z.to_nat 1) with 1%nat. cbn [readSamples].
    do 3 (apply (takes_bind _ _ [] (be32 cts) []); [apply takes_ret|]).
    rewrite <- (app_nil_r (be32 cts)). eapply takes_bind; [|apply takes_ret].
    by apply (takes_last _ (fun v => [v])), takes_32.
Qed.

Ltac fit := split; [reflexivity|vm_compute; reflexivity].

Lemma reads_mdat d : readsAs Mdat d (One (AtomMdat d)).
Proof. intros fuel _. apply named_mdat. Qed.

Lemma allRead_fragment seq tid duration size flags dts cts payload rest l :
  is_u32 seq -> is_u32 tid -> is_u32 duration -> is_u32 size -> is_u32 flags -> is_u64 dts -> is_u32 cts ->
  8 + len payload < 4294967296 -> allRead rest l ->
  allRead (moof seq tid duration size flags dts cts ++ box Mdat payload ++ rest)
    (AtomMfhd seq :: AtomTfhd tid duration size flags :: AtomTfdt dts
      :: AtomTrun (dataOffset cts) 0 [] [] [] (if cts =? 0 then [] else [cts]) :: AtomMdat payload :: l).
Proof.
  intros Hs Ht Hd Hz Hf Hdts Hc Hp Hr. unfold moof.
  eapply (allRead_container _ _ [_; _; _; _] _ (_ :: l)).
  - destruct (cts =? 0); fit.
  - by vm_compute; repeat constructor.
  - apply allRead_leaf; [fit|by apply reads_mfhd|].
    rewrite <- (app_nil_r (box MoofTraf _)). apply (allRead_container _ _ [_; _; _] _ []).
    + destruct (cts =? 0); fit.
    + by vm_compute; repeat constructor.
    + apply allRead_leaf; [fit|by apply reads_tfhd|]. apply allRead_leaf; [fit|by apply reads_tfdt|].
      rewrite <- (app_nil_r (box MoofTrafTrun _)).
      apply allRead_leaf; [destruct (cts =? 0); fit|by apply reads_trun|apply allRead_nil].
    + apply allRead_nil.
  - apply allRead_leaf; [by split|apply reads_mdat|done].
Qed.

(** The offset in the fragment is the place of the data. *)
Lemma fragment_offset seq tid duration size flags dts cts payload :
  drop (Z.to_nat (dataOffset cts)) (moof seq tid duration size flags dts cts ++ box Mdat payload) = payload.
Proof. unfold moof, dataOffset. by destruct (cts =? 0). Qed.
