(* ===== verification/IsoInit.v ===== *)
(** The initialisation segment read back: what the boxes of a track tell a reader. *)

From S2P Require Import Prelude Text Codec Bits Iso IsoRead IsoFacts IsoTrip.

(** What a reader makes something of: not the boxes it only passes on. *)
Definition isUseful (a : atom) : bool := match a with Atom _ _ => false | _ => true end.
Definition useful (l : list atom) : list atom := filter (fun a => isUseful a) l.
Definition tells (d : bytes) (l : list atom) : Prop := exists l', allRead d l' /\ useful l' = l.

Lemma tells_nil : tells [] [].
Proof. exists []. split; [apply allRead_nil|done]. Qed.
Lemma tells_box name d rest out l : fits name d -> readsAs name d out -> tells rest l ->
  tells (box name d ++ rest) (useful (items out) ++ l).
Proof.
  intros Hf Hd (l' & Hr & <-). exists (items out ++ l'). split; [by apply allRead_box|].
  unfold useful. by rewrite filter_app.
Qed.
Lemma tells_container name d rest l l' : fits name d -> name ∈ containers -> tells d l -> tells rest l' ->
  tells (box name d ++ rest) (l ++ l').
Proof.
  intros Hf Hn (l1 & Hd & <-) Hr. apply (tells_box name d rest (Many l1)); [done|by apply reads_container|done].
Qed.
Lemma tells_leaf name d a rest l : fits name d -> readsAs name d (One a) -> isUseful a = true -> tells rest l ->
  tells (box name d ++ rest) (a :: l).
Proof.
  intros Hf Hd Ha Hr. pose proof (tells_box name d rest _ l Hf Hd Hr) as H. unfold useful, items in H.
  rewrite filter_cons_True in H by by rewrite Ha. done.
Qed.
Lemma tells_pass name d rest l : fits name d -> readsAs name d (One (Atom name d)) -> tells rest l ->
  tells (box name d ++ rest) l.
Proof. intros Hf Hd Hr. apply (tells_box name d rest _ l Hf Hd Hr). Qed.
Lemma tells_last (P : Prop) d l : (P -> tells (d ++ []) (l ++ [])) -> P -> tells d l.
Proof. rewrite !app_nil_r. auto. Qed.

(** ** Sizes *)

Lemma len_boxed name d : len (box name d) = 4 + len name + len d.
Proof. unfold box. rewrite !len_app. change (len (be32 _)) with 4. lia. Qed.

(** Lengths of what does not depend on a list. *)
Ltac lens :=
  repeat (rewrite len_app || rewrite len_boxed);
  repeat match goal with |- context [len ?x] =>
    let n := eval vm_compute in (len x) in
    lazymatch n with Z0 => idtac | Zpos _ => idtac end; change (len x) with n
  end.
Ltac room := split; [reflexivity|]; lens; lia.

(** ** The boxes of a track *)

Lemma reads_tkhd id rest : is_u32 id ->
  readsAs MoovTrakTkhd ([0] ++ be24 3 ++ zeros 8 ++ be32 id ++ rest) (One (AtomTkhd id)).
Proof.
  intros H fuel _. rewrite named_tkhd.
  assert (rdbe32 ([0] ++ be24 3 ++ zeros 8 ++ be32 id ++ rest) 12 = Some id) as ->; [|done].
  exact (rdbe32_field ([0] ++ be24 3 ++ zeros 8) id rest 12 H eq_refl).
Qed.
Lemma reads_mdhd scale rest : is_u32 scale -> readsAs MoovTrakMdiaMdhd (zeros 12 ++ be32 scale ++ rest) (One (AtomMdhd scale)).
Proof. intros H fuel _. rewrite named_mdhd. by rewrite (rdbe32_field (zeros 12) scale rest 12). Qed.

(** The one description is read in place of the table. *)
Lemma reads_stsd name d out : fits name d -> readsAs name d out ->
  readsAs MoovTrakMdiaMinfStblStsd (zeros 4 ++ be32 1 ++ box name d) out.
Proof.
  intros Hf Hd fuel Hl. rewrite named_stsd. rewrite (rdbe32_field (zeros 4) 1 (box name d) 4) by done. cbn [orPanic].
  change (1 =? 1) with true. cbv iota.
  pose proof (len_nonneg (box name d)). rewrite sub_in by (rewrite ?len_app; change (len (zeros 4)) with 4; change (len (be32 1)) with 4; lia).
  cbn [orPanic]. rewrite app_assoc. rewrite len_app. rewrite seg_app_exact by done.
  rewrite !length_app in Hl. pose proof (len_box name d Hf) as Hb. unfold len in Hb.
  destruct fuel as [|fuel]; [lia|].
  rewrite <- (app_nil_r (box name d)). apply decode_box; [done|done|]. lia.
Qed.

(** The entry of a video codec: its configuration is the first box in it. *)
Lemma reads_avcx (h265 : bool) width height conf : len conf < 65536 ->
  readsAs (if h265 then str "hev1" else str "avc1")
    (zeros 6 ++ be16 1 ++ zeros 16 ++ be16 width ++ be16 height ++ float32 72 ++ float32 72 ++ zeros 4 ++ be16 1
     ++ zeros 32 ++ be16 24 ++ be16 0xFFFF ++ box (if h265 then str "hvcC" else str "avcC") conf
     ++ box (str "pasp") (be32 1 ++ be32 1))
    (One (AtomVideo (if h265 then str "hev1" else str "avc1") conf)).
Proof.
  intros Hc fuel Hl.
  set (cbox := box (if h265 then str "hvcC" else str "avcC") conf) in *.
  set (pre := zeros 6 ++ be16 1 ++ zeros 16 ++ be16 width ++ be16 height ++ float32 72 ++ float32 72 ++ zeros 4 ++ be16 1
     ++ zeros 32 ++ be16 24 ++ be16 0xFFFF).
  set (post := box (str "pasp") (be32 1 ++ be32 1)) in *.
  assert (zeros 6 ++ be16 1 ++ zeros 16 ++ be16 width ++ be16 height ++ float32 72 ++ float32 72 ++ zeros 4 ++ be16 1
     ++ zeros 32 ++ be16 24 ++ be16 0xFFFF ++ cbox ++ post = pre ++ cbox ++ post) as E by (unfold pre; by rewrite <- !app_assoc).
  rewrite E in *. clear E.
  assert (forall dec d, decodeNamed dec (if h265 then str "hev1" else str "avc1") d =
    orPanic (sub d videoEntry (len d)) (fun b => andThen (dec b) (fun a =>
      match a with One (Atom _ conf) => Ok (One (AtomVideo (if h265 then str "hev1" else str "avc1") conf))
      | _ => Ok (One (Atom (if h265 then str "hev1" else str "avc1") d)) end))) as -> by by destruct h265.
  assert (len pre = videoEntry) as Hp by done. assert (0 <= videoEntry) as Hv by done.
  pose proof (len_nonneg (cbox ++ post)). rewrite sub_in by (rewrite ?len_app, ?Hp; rewrite ?len_app in *; done || lia).
  cbn [orPanic]. rewrite len_app, Hp. rewrite seg_app_exact by done.
  destruct fuel as [|fuel]; [lia|].
  assert (fits (if h265 then str "hvcC" else str "avcC") conf) as Hf by (destruct h265; split; done || lia).
  unfold cbox. rewrite (decode_box _ conf Hf fuel post (One (Atom (if h265 then str "hvcC" else str "avcC") conf))).
  - done.
  - intros f _. by destruct h265.
  - pose proof (len_box _ conf Hf) as Hb. unfold len in Hb. rewrite !length_app in Hl. unfold cbox in Hl. lia.
Qed.

(** The configuration of AAC is found in its descriptor: what comes before has no byte 5
    with that tail. *)
Definition esdsBefore (x y : Z) : bytes :=
  zeros 4 ++ [3; 0x80; 0x80; 0x80; x] ++ zeros 3 ++ [4; 0x80; 0x80; 0x80; y] ++ [0x40; 0x15] ++ zeros 11.
Lemma index_esds x y s : index (esdsBefore x y ++ [5; 0x80; 0x80; 0x80] ++ s) [5; 0x80; 0x80; 0x80] = Some 30%nat.
Proof.
  unfold esdsBefore. destruct (5 =? x) eqn:Ex, (5 =? y) eqn:Ey;
    cbn [index startsWith app zeros replicate]; rewrite ?Ex, ?Ey; reflexivity.
Qed.

Lemma esdsConfig_conf x y conf rest : len conf < 255 -> rest <> [] ->
  esdsConfig (esdsBefore x y ++ [5; 0x80; 0x80; 0x80; u8 (len conf)] ++ conf ++ rest) = Some (Some conf).
Proof.
  intros Hc Hr. unfold esdsConfig. change ([5; 0x80; 0x80; 0x80; u8 (len conf)] ++ conf ++ rest)
    with ([5; 0x80; 0x80; 0x80] ++ u8 (len conf) :: conf ++ rest).
  rewrite index_esds. change (drop (30 + 4) _) with (u8 (len conf) :: conf ++ rest).
  pose proof (len_nonneg conf). rewrite !u8_small by (rewrite ?u8_small; red; lia).
  assert (0 < len rest) by (destruct rest; [done|rewrite len_cons; pose proof (len_nonneg rest); lia]).
  rewrite (proj2 (Z.ltb_lt _ _)) by (rewrite len_cons, len_app; lia).
  rewrite sub_in by (rewrite ?len_cons, ?len_app; lia). cbn [mbind option_bind]. do 2 f_equal.
  apply (Annexb.seg_mid [len conf] conf rest).
Qed.

Lemma reads_mp4a channels rate name conf rest out : is_u16 channels -> is_u32 rate -> fits name conf ->
  readsAs name conf (One (Atom name conf)) -> esdsConfig conf = Some out ->
  readsAs (str "mp4a")
    (zeros 6 ++ be16 1 ++ zeros 8 ++ be16 channels ++ be16 16 ++ zeros 4 ++ float32 rate ++ box name conf ++ rest)
    (One (AtomAudio (str "mp4a") channels (rate mod 65536) out)).
Proof.
  intros Hc Hr Hf Hn He fuel Hl. pose proof (len_box name conf Hf) as Hb. unfold len in Hb.
  assert (length conf + 1 < fuel)%nat as Hl' by (rewrite !length_app in Hl; lia). destruct fuel as [|fuel]; [lia|]. rewrite named_mp4a. unfold decodeAudio.
  set (tail := box name conf ++ rest).
  pose proof (atByte_new (zeros 6 ++ be16 1 ++ zeros 8 ++ be16 channels ++ be16 16 ++ zeros 4 ++ float32 rate ++ tail)) as A0.
  destruct (takes_bytes 16 (zeros 6 ++ be16 1 ++ zeros 8) eq_refl _ _ A0) as (r1 & -> & A1).
  destruct (takes_16 channels Hc _ _ A1) as (r2 & -> & A2).
  destruct (takes_bytes 6 (be16 16 ++ zeros 4) eq_refl _ _ A2) as (r3 & -> & A3).
  unfold float32 in A3. unfold ReadFloat32, rbind.
  assert (is_u16 (u16 rate)) as Hu by ints.
  destruct (takes_16 (u16 rate) Hu _ _ A3) as (r4 & -> & A4).
  destruct (takes_16 0 ltac:(done) _ tail A4) as (r5 & -> & A5). cbn [rret].
  rewrite (atByte_Left r5 tail A5). unfold tail. rewrite (decode_box name conf Hf fuel rest _ Hn) by lia.
  rewrite He. reflexivity.
Qed.

(** What the entry of a sound codec tells: of the codecs other than AAC and MP3 nothing,
    and of MP3 no configuration. *)
Definition soundTold (k : sound) (channels rate : Z) (conf : bytes) : list atom :=
  match k with
  | AAC => [AtomAudio (str "mp4a") (someChannels channels) (rate mod 65536) (Some conf)]
  | MP3 => [AtomAudio (str "mp4a") (someChannels channels) (rate mod 65536) None]
  | _ => []
  end.
Definition soundBody (k : sound) (channels rate : Z) (conf : bytes) : bytes :=
  zeros 6 ++ be16 1 ++ zeros 8 ++ be16 (someChannels channels) ++ be16 16 ++ zeros 4 ++ float32 rate
    ++ soundConfig k (someChannels channels) rate conf.

Lemma someChannels_u16 channels : is_u16 channels -> is_u16 (someChannels channels).
Proof. unfold someChannels. by destruct (channels =? 0). Qed.

Lemma reads_sound k channels rate conf : is_u16 channels -> is_u32 rate -> len conf < 255 ->
  exists a, readsAs (soundName k) (soundBody k channels rate conf) (One a) /\ useful [a] = soundTold k channels rate conf.
Proof.
  intros Hc Hr Hl. apply someChannels_u16 in Hc. pose proof (len_nonneg conf).
  destruct k; try (eexists; split; [intros f _; reflexivity|reflexivity]).
  - exists (AtomAudio (str "mp4a") (someChannels channels) (rate mod 65536) (Some conf)). split; [|reflexivity].
    unfold soundBody, soundConfig, esds. rewrite <- (app_nil_r (box (str "esds") _)).
    apply reads_mp4a; [done|done|room|by intros ? _|].
    exact (esdsConfig_conf (u8 (32 + u8 (len conf))) (u8 (18 + u8 (len conf))) conf [6; 0x80; 0x80; 0x80; 1; 2] Hl ltac:(done)).
  - exists (AtomAudio (str "mp4a") (someChannels channels) (rate mod 65536) None). split; [|reflexivity].
    unfold soundBody, soundConfig, esdsMP3. rewrite <- (app_nil_r (box (str "esds") _)).
    apply reads_mp4a; [done|done|fit|by intros ? _|by vm_compute].
Qed.

(** ** Tracks *)

Lemma tells_stbl name d told out rest l : fits name d -> readsAs name d out -> useful (items out) = told ->
  8 + len d < 4294967000 -> tells rest l ->
  tells (stbl (box name d) ++ rest) (told ++ l).
Proof.
  intros Hf Hd <- Hs Hr. unfold stbl. destruct Hf as [Hn Hm].
  apply tells_container; [room|by vm_compute; repeat constructor| |done].
  rewrite <- (app_nil_r (useful (items out))).
  apply tells_box; [room|by apply reads_stsd|].
  do 3 (apply tells_pass; [fit|by intros ? _|]).
  rewrite <- (app_nil_r (box MoovTrakMdiaMinfStblStco _)). apply tells_pass; [fit|by intros ? _|apply tells_nil].
Qed.

(** Track after track: the header, and the media with the handler and the information of
    its kind. *)
Definition track (id scale width height : Z) (kind handler info entry : bytes) : bytes :=
  box MoovTrak (tkhd id width height
    ++ box MoovTrakMdia (mdhd scale ++ hdlr kind handler ++ box MoovTrakMdiaMinf (info ++ dinf ++ stbl entry))).

Lemma tells_track id scale width height kind handler iname idata name d out told rest l :
  is_u32 id -> is_u32 scale -> len kind = 4 -> len handler < 100 -> fits iname idata ->
  readsAs iname idata (One (Atom iname idata)) -> len idata < 100 -> fits name d -> 8 + len d < 4294960000 ->
  readsAs name d out -> useful (items out) = told -> tells rest l ->
  tells (track id scale width height kind handler (box iname idata) (box name d) ++ rest)
    (AtomTkhd id :: AtomMdhd scale :: told ++ l).
Proof.
  intros Hid Hsc Hk Hh Hi Hri Hil Hf Hd Hr Ht Hrest.
  pose proof (len_nonneg d). pose proof (len_nonneg handler). destruct (Hi) as [Hin _]. destruct (Hf) as [Hn _].
  apply (tells_container _ _ _ (AtomTkhd id :: AtomMdhd scale :: told) l); [|by vm_compute; repeat constructor| |done].
  { unfold tkhd, mdhd, hdlr, dinf, stbl. destruct (0 <? width); room. }
  apply tells_leaf; [destruct (0 <? width); fit|by apply reads_tkhd|done|].
  rewrite <- (app_nil_r (box MoovTrakMdia _)), <- (app_nil_r (_ :: told)).
  apply tells_container; [unfold mdhd, hdlr, dinf, stbl; room|by vm_compute; repeat constructor| |apply tells_nil].
  apply tells_leaf; [fit|by apply reads_mdhd|done|].
  apply tells_pass; [room|by intros ? _|].
  rewrite <- (app_nil_r (box MoovTrakMdiaMinf _)), <- (app_nil_r told).
  apply tells_container; [unfold dinf, stbl; room|by vm_compute; repeat constructor| |apply tells_nil].
  apply tells_pass; [done|done|]. apply tells_pass; [fit|by intros ? _|].
  rewrite <- (app_nil_r (stbl _)), <- (app_nil_r told).
  by apply (tells_stbl name d told out); [..|lia|apply tells_nil].
Qed.

Lemma tells_video id (h265 : bool) scale width height conf rest l :
  is_u32 id -> is_u32 scale -> len conf < 65536 -> tells rest l ->
  tells (videoTrack id h265 scale width height conf ++ rest)
    (AtomTkhd id :: AtomMdhd scale :: AtomVideo (if h265 then str "hev1" else str "avc1") conf :: l).
Proof.
  intros Hid Hsc Hc Hr. unfold videoTrack, vmhd, avcx. pose proof (len_nonneg conf).
  apply (tells_track id scale width height (str "vide") (str "VideoHandler") _ _ _ _
    (One (AtomVideo (if h265 then str "hev1" else str "avc1") conf)) [_]);
    [done..|fit|by intros ? _|done|destruct h265; room|destruct h265; lens; lia|by apply reads_avcx|done|done].
Qed.

Lemma tells_sound id k scale channels conf rest l :
  is_u32 id -> is_u32 scale -> is_u16 channels -> len conf < 255 -> tells rest l ->
  tells (audioTrack id k scale channels conf ++ rest)
    (AtomTkhd id :: AtomMdhd scale :: soundTold k channels scale conf ++ l).
Proof.
  intros Hid Hsc Hch Hc Hr. unfold audioTrack, smhd, soundEntry. pose proof (len_nonneg conf).
  destruct (reads_sound k channels scale conf Hch Hsc Hc) as (a & Ha & Hu).
  apply (tells_track id scale 0 0 (str "soun") (str "SoundHandler") _ _ _ _ (One a));
    [done..|fit|by intros ? _|done|destruct k; unfold soundConfig, esds, FLACHeader; room
    |destruct k; unfold soundConfig, esds, FLACHeader; lens; lia|done|done|done].
Qed.
