(* ===== verification/Mp4.v ===== *)
(** The muxer of fragmented MP4 ([pkg/mp4/muxer.go]): the segment that describes the
    tracks and a fragment per packet.  [None] is a run-time panic. *)

From S2P Require Import Prelude Text Codec Negotiate Iso.
From S2P Require Hevc Sps HevcSps Config TutkSession.
Import Hevc(hevcIsKeyframe, hevcParameterSets).

(** The parts of a packet that are used. *)
Record sample := mkSample { sampleTime : Z; sampleCTS : Z; sampleData : bytes }.

Record Muxer := mkMuxer { index : Z; dts : list Z; pts : list Z; codecs : list Codec }.

Definition AddTrack (codec : Codec) (m : Muxer) : Muxer :=
  mkMuxer (index m) (dts m ++ [0]) (pts m ++ [0]) (codecs m ++ [codec]).
Definition Reset (m : Muxer) : Muxer :=
  mkMuxer 0 ((fun _ => 0) <$> dts m) ((fun _ => 0) <$> pts m) (codecs m).

(** ** The initialisation segment *)

Definition dummySPS264 : bytes := [0x67; 0x42; 0x00; 0x0a; 0xf8; 0x41; 0xa2].
Definition dummyPPS264 : bytes := [0x68; 0xce; 0x38; 0x80].
Definition dummyVPS265 : bytes :=
  [0x40; 0x01; 0x0c; 0x01; 0xff; 0xff; 0x01; 0x40; 0x00; 0x00; 0x03; 0x00; 0x00; 0x03; 0x00; 0x00; 0x03; 0x00; 0x00;
   0x03; 0x00; 0x99; 0xac; 0x09].
Definition dummySPS265 : bytes :=
  [0x42; 0x01; 0x01; 0x01; 0x40; 0x00; 0x00; 0x03; 0x00; 0x00; 0x03; 0x00; 0x00; 0x03; 0x00; 0x00; 0x03; 0x00; 0x99;
   0xa0; 0x01; 0x40; 0x20; 0x05; 0xa1; 0xfe; 0x5a; 0xee; 0x46; 0xc1; 0xae; 0x55; 0x04].
Definition dummyPPS265 : bytes := [0x44; 0x01; 0xc0; 0x73; 0xc0; 0x4c; 0x90].
Definition orElse (b other : bytes) : bytes := if len b =? 0 then other else b.

Section init.
(** The memory between the length and the capacity of a decoded set. *)
Context (spare : bytes -> bytes).
Definition spareOfSet (set : bytes) : bytes := if len set =? 0 then [] else spare set.

(** Width, height and the decoder's configuration of a track. *)
Definition video264 (fmtp : bytes) : option (Z * Z * bytes) :=
  let '(sps, pps) := GetParameterSet fmtp in
  let '(width, height) := match Sps.DecodeSPS (orElse sps dummySPS264) with
                          | Some s => (Sps.Width s, Sps.Height s) | None => (1920, 1080) end in
  conf ← Config.EncodeConfig (orElse sps dummySPS264) (orElse pps dummyPPS264) (spareOfSet sps);
  Some (width, height, conf).
Definition video265 (fmtp : bytes) : option (Z * Z * bytes) :=
  let '(vps, sps, pps) := hevcParameterSets fmtp in
  s ← HevcSps.DecodeSPS265 (orElse sps dummySPS265);
  let '(width, height) := match s with
                          | Some s => (HevcSps.Width265 s, HevcSps.Height265 s) | None => (1920, 1080) end in
  conf ← Config.hevcEncodeConfig (orElse vps dummyVPS265) (orElse sps dummySPS265) (orElse pps dummyPPS265)
           (spareOfSet sps);
  Some (width, height, conf).

(** The track of a codec; an inner [None] is the error of the configuration's text. *)
Definition writeTrack (i : nat) (codec : Codec) : option (option Wr) :=
  let id := u32 (Z.of_nat i + 1) in
  let video v := r ← v; let '(width, height, conf) := r in
    Some (Some (WriteVideoTrack id (Name codec) (ClockRate codec) width height conf)) in
  let audio conf := Some (Some (WriteAudioTrack id (Name codec) (ClockRate codec) (Channels codec) conf)) in
  if bool_decide (Name codec = CodecH264) then video (video264 (FmtpLine codec))
  else if bool_decide (Name codec = CodecH265) then video (video265 (FmtpLine codec))
  else if bool_decide (Name codec = CodecAAC) then
    match hexDecode (Between (FmtpLine codec) (str "config=") (str ";")) with
    | (conf, true) => audio conf
    | _ => Some None
    end
  else if bool_decide (Name codec ∈ [CodecOpus; CodecMP3; CodecPCMA; CodecPCMU; CodecFLAC]) then audio []
  else Some (Some wskip).

Fixpoint writeTracks (i : nat) (l : list Codec) (m : Movie) : option (option Movie) :=
  match l with
  | [] => Some (Some m)
  | codec :: l =>
      w ← writeTrack i codec;
      match (w : option Wr) with
      | None => Some None
      | Some w => m ← w m; writeTracks (S i) l m
      end
  end.
Fixpoint writeExtends (i n : nat) : Wr :=
  match n with O => wskip | S n => WriteTrackExtend (u32 (Z.of_nat i + 1)) >> writeExtends (S i) n end.

Definition GetInit (m : Muxer) : option (option bytes) :=
  mv ← (WriteFileType >> StartAtom Moov >> WriteMovieHeader) NewMovie;
  r ← writeTracks 0 (codecs m) mv;
  match (r : option Movie) with
  | None => Some None
  | Some mv =>
      mv ← (StartAtom MoovMvex >> writeExtends 0 (length (codecs m)) >> EndAtom >> EndAtom) mv;
      Some (Some (mb mv))
  end.
End init.

(** ** A fragment per packet *)

Definition sampleFlags (codec : Codec) (payload : bytes) : option Z :=
  let flags (key : bool) := if key then SampleVideoIFrame else SampleVideoNonIFrame in
  if bool_decide (Name codec = CodecH264) then k ← IsKeyframe payload; Some (flags k)
  else if bool_decide (Name codec = CodecH265) then k ← hevcIsKeyframe payload; Some (flags k)
  else Some SampleAudio.

Definition sampleDuration (codec : Codec) (since : Z) : Z :=
  if bool_decide (Name codec = CodecAAC) then 1024 else since.
(** A duration that is 0 or above a second becomes a millisecond. *)
Definition odd (codec : Codec) (duration : Z) : bool := (duration =? 0) || (ClockRate codec <? duration).
Definition millisecond (codec : Codec) : Z := u32 (ClockRate codec / 1000 + 1).

Definition GetPayload (trackID : Z) (p : sample) (m : Muxer) : option (bytes * Muxer) :=
  let t := Z.to_nat trackID in
  codec ← codecs m !! t;
  let index := u32 (index m + 1) in
  last ← pts m !! t;
  flags ← sampleFlags codec (sampleData p);
  let duration := sampleDuration codec (u32 (sampleTime p - last)) in
  let fix_ := odd codec duration in
  let duration := if fix_ then millisecond codec else duration in
  let last := if fix_ then u32 (sampleTime p + duration) else sampleTime p in
  time ← dts m !! t;
  mv ← WriteMovieFragment index (u32 (u8 (trackID + 1))) duration (u32 (len (sampleData p))) flags time
         (sampleCTS p) NewMovie;
  mv ← WriteData (sampleData p) mv;
  Some (mb mv, mkMuxer index (<[t := u64 (time + duration)]> (dts m)) (<[t := last]> (pts m)) (codecs m)).
