(* ===== verification/Mp4Facts.v ===== *)
(** What is muxed is read back (Mp4.v through the reader of IsoRead.v): the fragments of a
    stream with their numbers, decode times and data, and the tracks of the segment
    before them. *)

From S2P Require Import Prelude Text Codec Negotiate Iso IsoRead IsoFacts IsoTrip IsoInit Mp4.
From S2P Require Hevc HevcLine Config Sps HevcSps Annexb.
Import Annexb(avccUnits, avccUnits_cons).

(** ** Fragments *)

Record frag := mkFrag { fragSeq : Z; fragTrack : Z; fragDuration : Z; fragFlags : Z; fragTime : Z; fragCTS : Z; fragData : bytes }.
Definition fragAtoms (f : frag) : list atom :=
  [AtomMfhd (fragSeq f); AtomTfhd (fragTrack f) (fragDuration f) (len (fragData f)) (fragFlags f);
   AtomTfdt (fragTime f);
   AtomTrun (dataOffset (fragCTS f)) 0 [] [] [] (if fragCTS f =? 0 then [] else [fragCTS f]);
   AtomMdat (fragData f)].
Definition fragBytes (f : frag) : bytes :=
  moof (fragSeq f) (fragTrack f) (fragDuration f) (len (fragData f)) (fragFlags f) (fragTime f) (fragCTS f)
  ++ box Mdat (fragData f).

Definition frag_ok (f : frag) : Prop :=
  is_u32 (fragSeq f) /\ is_u32 (fragTrack f) /\ is_u32 (fragDuration f) /\ is_u32 (fragFlags f) /\
  is_u64 (fragTime f) /\ is_u32 (fragCTS f) /\ 8 + len (fragData f) < 4294967296.

Lemma allRead_frags fs : Forall frag_ok fs -> allRead (flat_map fragBytes fs) (flat_map fragAtoms fs).
Proof.
  induction 1 as [|f fs Hf _ IH]; [apply allRead_nil|]. cbn [flat_map]. unfold fragBytes. rewrite <- app_assoc.
  destruct Hf as (H1 & H2 & H3 & H4 & H5 & H6 & H7). pose proof (len_nonneg (fragData f)).
  apply allRead_fragment; try done. red; lia.
Qed.

Lemma DecodeAtoms_read b l : allRead b l -> DecodeAtoms b = Ok l.
Proof. intros H. apply H; lia. Qed.

(** ** One packet *)

Definition sample_ok (p : sample) : Prop :=
  is_u32 (sampleTime p) /\ is_u16 (sampleCTS p) /\ 8 + len (sampleData p) < 4294967296.
Record muxer_ok (m : Muxer) : Prop := {
  ok_index : is_u32 (index m);
  ok_dts : Forall is_u64 (dts m);
  ok_pts : Forall is_u32 (pts m);
  ok_clock : Forall (fun c => is_u32 (ClockRate c)) (codecs m);
  ok_dts_length : length (dts m) = length (codecs m);
  ok_pts_length : length (pts m) = length (codecs m);
}.

(** The duration of a packet, and the clock of the track behind it. *)
Definition durationOf (codec : Codec) (last : Z) (p : sample) : Z :=
  let d := sampleDuration codec (u32 (sampleTime p - last)) in
  if odd codec d then millisecond codec else d.
Definition clockAfter (codec : Codec) (last : Z) (p : sample) : Z :=
  if odd codec (sampleDuration codec (u32 (sampleTime p - last)))
  then u32 (sampleTime p + millisecond codec) else sampleTime p.

(** What a packet became, and the muxer behind it. *)
Record written (t : Z) (p : sample) (m : Muxer) (codec : Codec) (last time : Z) (f : frag) (m' : Muxer) : Prop := {
  w_codec : codecs m !! Z.to_nat t = Some codec;
  w_last : pts m !! Z.to_nat t = Some last;
  w_time : dts m !! Z.to_nat t = Some time;
  w_flags : sampleFlags codec (sampleData p) = Some (fragFlags f);
  w_frag : f = mkFrag (u32 (index m + 1)) (u8 (t + 1)) (durationOf codec last p) (fragFlags f) time (sampleCTS p) (sampleData p);
  w_muxer : m' = mkMuxer (u32 (index m + 1)) (<[Z.to_nat t := u64 (time + durationOf codec last p)]> (dts m))
                   (<[Z.to_nat t := clockAfter codec last p]> (pts m)) (codecs m);
}.

Lemma GetPayload_written t p m b m' : sample_ok p -> GetPayload t p m = Some (b, m') ->
  exists codec last time f, written t p m codec last time f m' /\ b = fragBytes f.
Proof.
  intros (_ & _ & Hp) H. unfold GetPayload in H.
  destruct (codecs m !! Z.to_nat t) as [codec|] eqn:Ec; [|done]. cbn [mbind option_bind] in H.
  destruct (pts m !! Z.to_nat t) as [last|] eqn:Ep; [|done]. cbn [mbind option_bind] in H.
  destruct (sampleFlags codec (sampleData p)) as [flags|] eqn:Ef; [|done]. cbn [mbind option_bind] in H.
  destruct (dts m !! Z.to_nat t) as [time|] eqn:Et; [|done]. cbn [mbind option_bind] in H. cbv zeta in H.
  rewrite wrote_Fragment in H. cbn [mbind option_bind] in H.
  rewrite (wrote_Data (sampleData p) (Outer _)) in H. cbn [mbind option_bind add flat mb flatBytes] in H.
  pose proof (len_nonneg (sampleData p)). rewrite (u32_small (len (sampleData p))) in H by (red; lia).
  rewrite (u32_small (u8 (t + 1))) in H by ints.
  exists codec, last, time. eexists (mkFrag _ _ (durationOf codec last p) flags time _ _). 
  injection H as <- <-. split; [constructor; try done|reflexivity].
  unfold clockAfter, durationOf. by destruct (odd _ _).
Qed.

Lemma millisecond_pos codec : is_u32 (ClockRate codec) -> 0 < millisecond codec < 4294967296.
Proof. intros H. unfold millisecond. unfold is_u32 in H. rewrite u32_small; ints. Qed.
Lemma durationOf_bound codec last p : is_u32 (ClockRate codec) -> 0 < durationOf codec last p < 4294967296.
Proof.
  intros H. unfold durationOf, odd. pose proof (millisecond_pos codec H).
  destruct (sampleDuration _ _ =? 0) eqn:E; cbn [orb]; [done|].
  apply Z.eqb_neq in E. destruct (_ <? _); [done|].
  unfold sampleDuration in *. destruct (bool_decide _); [lia|]. ints.
Qed.

Lemma sampleFlags_u32 codec payload flags : sampleFlags codec payload = Some flags -> is_u32 flags.
Proof.
  unfold sampleFlags. repeat (destruct (bool_decide _); [destruct (_ payload) as [[]|]|]); intros H; by simplify_eq H; intros <-.
Qed.

Lemma written_ok t p m codec last time f m' : muxer_ok m -> sample_ok p -> written t p m codec last time f m' ->
  frag_ok f /\ muxer_ok m' /\ 0 < fragDuration f.
Proof.
  intros Hm (Hs1 & Hs2 & Hs3) W. destruct W as [Wc Wl Wt Wf Wfr Wm].
  assert (is_u32 (ClockRate codec)) as Hcl by (eapply Forall_lookup_1 in Wc; [exact Wc|apply Hm]).
  pose proof (durationOf_bound codec last p Hcl) as Hd. pose proof (millisecond_pos codec Hcl) as Hms.
  pose proof (sampleFlags_u32 _ _ _ Wf). pose proof (Forall_lookup_1 _ _ _ _ (ok_dts m Hm) Wt) as Hti.
  rewrite Wfr in *. cbn in *. split; [|split; [|lia]].
  - clear - Hs2 Hs3 Hd H Hti. unfold frag_ok. cbn. split_and!; try done; red; clear H Hti; ints.
  - subst m'. destruct Hm as [M1 M2 M3 M4 M5 M6]. constructor; cbn; rewrite ?length_insert; try done; [ints| |].
    + apply Forall_insert; [done|ints].
    + apply Forall_insert; [done|]. unfold clockAfter. destruct (odd _ _); [ints|done].
Qed.

(** ** A stream *)

Fixpoint mux (l : list (Z * sample)) (m : Muxer) : option (list bytes * Muxer) :=
  match l with
  | [] => Some ([], m)
  | (t, p) :: l => r ← GetPayload t p m; let '(b, m) := r in r ← mux l m; let '(bs, m) := r in Some (b :: bs, m)
  end.

(** The durations of a track added up. *)
Definition total (track : Z) (fs : list frag) : Z :=
  foldr Z.add 0 (fragDuration <$> filter (fun f => fragTrack f = track) fs).

Lemma total_cons track f fs :
  total track (f :: fs) = (if decide (fragTrack f = track) then fragDuration f else 0) + total track fs.
Proof. unfold total. rewrite filter_cons. by destruct (decide (fragTrack f = track)). Qed.

(** The [k]-th fragment is the [k]-th packet: its number, its track, its data, whether it
    is a key frame, and the time after all the fragments of its track that came before. *)
Definition fragmentOf (m : Muxer) (fs : list frag) (k : nat) (t : Z) (p : sample) (f : frag) : Prop :=
  fragSeq f = u32 (index m + Z.of_nat k + 1) /\ fragTrack f = t + 1 /\ fragData f = sampleData p /\
  fragCTS f = sampleCTS p /\ 0 < fragDuration f /\
  (exists codec, codecs m !! Z.to_nat t = Some codec /\ sampleFlags codec (sampleData p) = Some (fragFlags f)) /\
  fragTime f = u64 (default 0 (dts m !! Z.to_nat t) + total (t + 1) (take k fs)).

Definition packet_ok (tp : Z * sample) : Prop := 0 <= tp.1 < 255 /\ sample_ok tp.2.

Lemma mux_fragments l : forall m bs m', muxer_ok m -> Forall packet_ok l -> mux l m = Some (bs, m') ->
  exists fs, bs = fragBytes <$> fs /\ Forall frag_ok fs /\ length fs = length l /\
    forall k t p f, l !! k = Some (t, p) -> fs !! k = Some f -> fragmentOf m fs k t p f.
Proof.
  induction l as [|[t p] l IH]; intros m bs m' Hm Hl H; cbn [mux] in H.
  { simplify_eq H. intros <- <-. exists []. by repeat split. }
  apply Forall_cons in Hl as [[Ht Hp] Hl]. cbn [fst snd] in *.
  destruct (GetPayload t p m) as [[b m1]|] eqn:E; [|done]. cbn [mbind option_bind] in H.
  destruct (mux l m1) as [[bs1 m2]|] eqn:E1; [|done]. cbn [mbind option_bind] in H. simplify_eq H. intros <- <-.
  destruct (GetPayload_written t p m b m1 Hp E) as (codec & last & time & f0 & W & ->).
  destruct (written_ok t p m codec last time f0 m1 Hm Hp W) as (Hf0 & Hm1 & Hd0).
  destruct (IH m1 bs1 m2 Hm1 Hl E1) as (fs & -> & Hfs & Hlen & Hk).
  exists (f0 :: fs). split; [done|]. split; [by constructor|]. split; [cbn; lia|].
  destruct W as [Wc Wl Wt Wf Wfr Wm].
  intros [|k] t' p' f Hlk Hfk; cbn in Hlk, Hfk.
  - simplify_eq. rewrite Wfr. rewrite u8_small by (red; lia). unfold fragmentOf. cbn [fragSeq fragTrack fragData fragCTS fragTime fragDuration take].
    rewrite Wfr in Hd0. rewrite Wt. change (total (t' + 1) []) with 0.
    pose proof (Forall_lookup_1 _ _ _ _ (ok_dts m Hm) Wt) as Hti. cbn [default id option_fmap].
    split_and!; try done; [f_equal; lia|by eexists|cbn; rewrite Z.add_0_r; by rewrite u64_small].
  - destruct (Hk k t' p' f Hlk Hfk) as (K1 & K2 & K3 & K4 & K5 & K7 & K6).
    pose proof (Forall_lookup_1 _ _ _ _ Hl Hlk) as [Ht' _]. cbn [fst] in Ht'.
    unfold fragmentOf. split_and!; try done.
    + rewrite K1, Wm. cbn [index]. clear. ints.
    + by rewrite Wm in K7.
    + rewrite K6, Wm. cbn [dts take]. rewrite total_cons, Wfr. cbn [fragTrack fragDuration].
      rewrite u8_small by (red; lia). destruct (decide (t = t')) as [->|Hne].
      * rewrite decide_True by done. rewrite list_lookup_insert_eq by (apply lookup_lt_is_Some; by eexists). rewrite Wt. cbn [default id].
        clear. ints.
      * rewrite decide_False by lia. by rewrite list_lookup_insert_ne by lia.
Qed.

(** Video comes in access units, each unit behind its length; sound is any bytes. *)
Definition access (name data : bytes) : Prop :=
  name = CodecH264 \/ name = CodecH265 ->
  exists units, units <> [] /\ Forall goodUnit units /\ data = avccUnits units.

(** The first coded slice decides, also for H.265. *)
Fixpoint startsKey265 (ns : list bytes) : bool :=
  match ns with
  | [] => false
  | n :: ns => let t := HevcLine.type265 n in
               if t =? Hevc.hevcPFrame then false else if Hevc.isIFrame t then true else startsKey265 ns
  end.
Lemma keyLoop265_units ns : forall n fuel,
  Forall goodUnit (n :: ns) -> (length (avccUnits (n :: ns)) < fuel)%nat ->
  Hevc.hevcKeyLoop fuel (avccUnits (n :: ns)) = Some (Some (startsKey265 (n :: ns))).
Proof.
  induction ns as [|m ns IH]; intros n fuel H Hf; destruct fuel as [|fuel]; try lia;
    apply Forall_cons in H as [Hn Hns]; rewrite avccUnits_cons in *; cbn [Hevc.hevcKeyLoop startsKey265];
    rewrite HevcLine.unit_type265, unit_load by done; cbv zeta;
    destruct (_ =? Hevc.hevcPFrame); try done; destruct (Hevc.isIFrame _); try done; rewrite unit_more by done.
  - reflexivity.
  - rewrite bool_decide_false by done. cbn [negb]. rewrite unit_drop by auto.
    apply IH; [done|]. rewrite !length_app in Hf. cbn in Hf |- *. lia.
Qed.

(** Whether a packet of video is a key frame, told by its units. *)
Lemma access_key name data : access name data ->
  (name = CodecH264 -> exists key, IsKeyframe data = Some key) /\
  (name = CodecH265 -> exists key, Hevc.hevcIsKeyframe data = Some key).
Proof.
  intros H. split; intros E; destruct H as (units & Hne & Hg & ->); auto; destruct units as [|n ns]; try done.
  - exists (startsKey (n :: ns)). unfold IsKeyframe. by rewrite keyframeLoop_units by (done || lia).
  - exists (startsKey265 (n :: ns)). unfold Hevc.hevcIsKeyframe. by rewrite keyLoop265_units by (done || lia).
Qed.
Lemma access_flags codec data : access (Name codec) data -> exists flags, sampleFlags codec data = Some flags.
Proof.
  intros H. destruct (access_key _ _ H) as [H1 H2]. unfold sampleFlags.
  case_bool_decide as E1; [destruct (H1 E1) as [key ->]; by eexists|].
  case_bool_decide as E2; [destruct (H2 E2) as [key ->]; by eexists|]. by eexists.
Qed.

(** A packet of a track there is. *)
Definition playable (m : Muxer) (tp : Z * sample) : Prop :=
  exists codec, codecs m !! Z.to_nat tp.1 = Some codec /\ access (Name codec) (sampleData tp.2).

Lemma GetPayload_total t p m : muxer_ok m -> playable m (t, p) -> exists b m', GetPayload t p m = Some (b, m').
Proof.
  intros Hm (codec & Hc & Ha). cbn [fst snd] in *. destruct (access_flags _ _ Ha) as [flags Hf]. unfold GetPayload. rewrite Hc. cbn [mbind option_bind].
  pose proof (lookup_lt_Some _ _ _ Hc) as Hlt.
  destruct (lookup_lt_is_Some_2 (pts m) (Z.to_nat t)) as [last ->]; [rewrite (ok_pts_length m Hm); done|].
  destruct (lookup_lt_is_Some_2 (dts m) (Z.to_nat t)) as [time ->]; [rewrite (ok_dts_length m Hm); done|].
  cbn [mbind option_bind]. rewrite Hf. cbn [mbind option_bind]. cbv zeta.
  rewrite wrote_Fragment. cbn [mbind option_bind]. rewrite (wrote_Data (sampleData p) (Outer _)). by do 2 eexists.
Qed.

Lemma mux_total l : forall m, muxer_ok m -> Forall packet_ok l -> Forall (playable m) l -> exists bs m', mux l m = Some (bs, m').
Proof.
  induction l as [|[t p] l IH]; intros m Hm Hl Hp; [by do 2 eexists|].
  apply Forall_cons in Hl as [[_ Hs] Hl]. apply Forall_cons in Hp as [Hp1 Hp]. cbn [mux].
  destruct (GetPayload_total t p m Hm Hp1) as (b & m1 & E). rewrite E. cbn [mbind option_bind].
  destruct (GetPayload_written t p m b m1 Hs E) as (codec & last & time & f & W & _).
  destruct (written_ok _ _ _ _ _ _ _ _ Hm Hs W) as (_ & Hm1 & _).
  assert (codecs m1 = codecs m) as Ec by (rewrite (w_muxer _ _ _ _ _ _ _ _ W); done).
  destruct (IH m1 Hm1 Hl) as (bs & m' & ->); [|by do 2 eexists].
  eapply Forall_impl; [exact Hp|]. intros tp. unfold playable. by rewrite Ec.
Qed.

(** C36. What was muxed is read back, access units of video and any packets of sound: the
    fragments of a stream have their numbers in order,
    each carries its packet's track, data and offset and whether it is a key frame, and
    begins at the time where the fragments of its track before it end. *)
Theorem fragments_roundtrip l m : muxer_ok m -> Forall packet_ok l -> Forall (playable m) l ->
  exists bs m' fs, mux l m = Some (bs, m') /\ DecodeAtoms (concat bs) = Ok (flat_map fragAtoms fs) /\
    length fs = length l /\
    (forall k t p f, l !! k = Some (t, p) -> fs !! k = Some f -> fragmentOf m fs k t p f) /\
    (forall k p b, snd <$> l !! k = Some p -> bs !! k = Some b ->
       drop (Z.to_nat (dataOffset (sampleCTS p))) b = sampleData p).
Proof.
  intros Hm Hl Hp. destruct (mux_total l m Hm Hl Hp) as (bs & m' & E).
  destruct (mux_fragments l m bs m' Hm Hl E) as (fs & -> & Hf & Hlen & Hk).
  exists (fragBytes <$> fs), m', fs. split; [done|]. split; [|split; [done|split; [done|]]].
  - replace (concat (fragBytes <$> fs)) with (flat_map fragBytes fs) by apply flat_map_concat_map.
    exact (DecodeAtoms_read _ _ (allRead_frags fs Hf)).
  - intros k p b Hlk Hb. apply list_lookup_fmap_Some in Hb as (f & -> & Hfk).
    destruct (l !! k) as [[t p']|] eqn:Ek; [|done]. cbn in Hlk. simplify_eq.
    destruct (Hk k t p f Ek Hfk) as (_ & _ & <- & <- & _). unfold fragBytes. by rewrite fragment_offset.
Qed.

(** ** Clocks *)

(** The packets of a track come within a second of its clock. *)
Fixpoint steady (t : Z) (clock : Z) (l : list (Z * sample)) (m : Muxer) : Prop :=
  match l with
  | [] => True
  | (t', p) :: l =>
      (t' = t -> u32 (sampleTime p - default 0 (pts m !! Z.to_nat t)) <= clock) /\
      forall b m', GetPayload t' p m = Some (b, m') -> steady t clock l m'
  end.

Lemma u32_u64 x : u32 (u64 x) = u32 x.
Proof. unfold u32, u64. change 18446744073709551616 with (4294967296 * 4294967296). ints. Qed.
Lemma u32_sub a b : u32 (a - b) = u32 (u32 a - u32 b).
Proof. apply Zminus_mod. Qed.
Lemma u32_u32 x : u32 (u32 x) = u32 x.
Proof. unfold u32. by rewrite Z.mod_mod. Qed.
Lemma u32_drift time last d : u32 (u64 (time + d) - u32 (last + d)) = u32 (time - last).
Proof. rewrite u32_sub, u32_u64, u32_u32, <- u32_sub. f_equal. lia. Qed.
Lemma u32_follow time last now : u32 (u64 (time + u32 (now - last)) - now) = u32 (time - last).
Proof.
  rewrite u32_sub, u32_u64, <- u32_sub. unfold u32. replace (time + (now - last) mod 4294967296 - now)
    with (time - now + (now - last) mod 4294967296) by lia. rewrite Zplus_mod_idemp_r. f_equal. lia.
Qed.

(** Decode times follow the timestamps of a steady stream: the distance between the two
    stays as it is, also where a duration of 0 was made a millisecond. *)
Theorem clock_kept l t codec : 0 <= t -> Name codec <> CodecAAC -> forall m bs m',
  muxer_ok m -> codecs m !! Z.to_nat t = Some codec -> Forall packet_ok l -> steady t (ClockRate codec) l m ->
  mux l m = Some (bs, m') ->
  u32 (default 0 (dts m' !! Z.to_nat t) - default 0 (pts m' !! Z.to_nat t))
  = u32 (default 0 (dts m !! Z.to_nat t) - default 0 (pts m !! Z.to_nat t)).
Proof.
  intros Ht Ha. induction l as [|[t' p] l IH]; intros m bs m' Hm Hc Hl Hs H; cbn [mux] in H.
  { simplify_eq H. by intros _ <-. }
  apply Forall_cons in Hl as [[Ht' Hp] Hl]. cbn [fst snd steady] in *. destruct Hs as [Hs1 Hs2].
  destruct (GetPayload t' p m) as [[b m1]|] eqn:E; [|done]. cbn [mbind option_bind] in H.
  destruct (mux l m1) as [[bs1 m2]|] eqn:E1; [|done]. cbn [mbind option_bind] in H. simplify_eq H. intros _ <-.
  destruct (GetPayload_written t' p m b m1 Hp E) as (codec' & last & time & f0 & W & ->).
  destruct (written_ok _ _ _ _ _ _ _ _ Hm Hp W) as (_ & Hm1 & _). destruct W as [Wc Wl Wt Wf Wfr Wm].
  rewrite (IH m1 bs1 m2 Hm1 ltac:(by rewrite Wm) Hl (Hs2 _ _ eq_refl) E1). rewrite Wm. cbn [dts pts].
  destruct (decide (t' = t)) as [->|Hne]; [|by rewrite !list_lookup_insert_ne by lia].
  rewrite !list_lookup_insert_eq by (apply lookup_lt_is_Some; by eexists). rewrite Wl, Wt in *. cbn [default id] in *.
  simplify_eq. specialize (Hs1 eq_refl). pose proof (Forall_lookup_1 _ _ _ _ (ok_pts m Hm) Wl) as Hla.
  unfold clockAfter, durationOf, odd, sampleDuration. rewrite bool_decide_false by done.
  rewrite (proj2 (Z.ltb_ge _ _)), orb_false_r by done. destruct (Z.eqb_spec (u32 (sampleTime p - last)) 0) as [E0|_].
  - generalize (millisecond codec) as d. intros d.
    assert (sampleTime p = last) as ->; [destruct Hp as [Hp _]; clear - E0 Hla Hp; ints|]. apply u32_drift.
  - apply u32_follow.
Qed.

Definition demoCodecs : list Codec :=
  [mkCodec 0 CodecH264 90000 0 [] 96; mkCodec 1 CodecOpus 48000 2 [] 97].
Definition demoMux : Muxer := mkMuxer 0 [0; 0] [0; 0] demoCodecs.
Definition demoStream : list (Z * sample) :=
  [(0, mkSample 3000 0 [0; 0; 0; 2; 0x65; 0x88]); (1, mkSample 960 0 [1; 2; 3]);
   (0, mkSample 6000 3000 [0; 0; 0; 2; 0x41; 0x9A]); (0, mkSample 6000 0 [0; 0; 0; 1; 0x01])].

Lemma demoMux_ok : muxer_ok demoMux.
Proof. by constructor; cbn; repeat (apply Forall_cons; split); try apply Forall_nil. Qed.
Lemma demoStream_ok : Forall packet_ok demoStream /\ Forall (playable demoMux) demoStream.
Proof.
  split; unfold demoStream; repeat (apply Forall_cons; split); try apply Forall_nil; try done;
    (eexists; split; [reflexivity|]); intros E; try (exfalso; destruct E as [E|E]; discriminate E).
  - exists [[0x65; 0x88]]. split; [done|]. split; [|reflexivity]. by apply Forall_singleton.
  - exists [[0x41; 0x9A]]. split; [done|]. split; [|reflexivity]. by apply Forall_singleton.
  - exists [[0x01]]. split; [done|]. split; [|reflexivity]. by apply Forall_singleton.
Qed.

Lemma fragments_roundtrip_witness :
  exists bs m' fs, mux demoStream demoMux = Some (bs, m') /\ DecodeAtoms (concat bs) = Ok (flat_map fragAtoms fs) /\
    length fs = 4%nat.
Proof.
  destruct (fragments_roundtrip demoStream demoMux demoMux_ok (proj1 demoStream_ok) (proj2 demoStream_ok))
    as (bs & m' & fs & H1 & H2 & H3 & _). exists bs, m', fs. exact (conj H1 (conj H2 H3)).
Defined.

Lemma clock_kept_witness : exists bs m', mux demoStream demoMux = Some (bs, m') /\
  u32 (default 0 (dts m' !! 0%nat) - default 0 (pts m' !! 0%nat)) = 0.
Proof.
  destruct (mux_total demoStream demoMux demoMux_ok (proj1 demoStream_ok) (proj2 demoStream_ok)) as (bs & m' & E).
  exists bs, m'. split; [exact E|].
  refine (clock_kept demoStream 0 (mkCodec 0 CodecH264 90000 0 [] 96) _ _ demoMux bs m'
    demoMux_ok eq_refl (proj1 demoStream_ok) _ E); [done|done|].
  repeat (split; [intros H; first [discriminate H|vm_compute; discriminate]|let E1 := fresh in intros ? ? E1; vm_compute in E1; injection E1 as _ <-]).
  exact I.
Defined.
