(* ===== verification/Mp4Init.v ===== *)
(** The segment that describes the tracks (GetInit of Mp4.v), read back. *)

From S2P Require Import Prelude Text Codec Negotiate Iso IsoRead IsoFacts IsoTrip IsoInit Mp4 Mp4Facts.
From S2P Require Hevc Config Sps HevcSps TutkSession TutkSessionFacts.
Import TutkSession(put, copyAt, make).

(** ** Sizes of configurations *)

Lemma put_len off src p q : put off src p = Some q -> len q = len p.
Proof. unfold put. destruct (_ && _); intros H; simplify_eq H. intros <-. unfold len. by rewrite length_blit. Qed.
Lemma copyAt_len off src p q : copyAt off src p = Some q -> len q = len p.
Proof. unfold copyAt. destruct (_ && _); intros H; simplify_eq H. intros <-. unfold len. by rewrite length_blit. Qed.

Lemma make_len v : len (make (u16 v)) < 65536.
Proof. rewrite TutkSessionFacts.len_make by ints. ints. Qed.

Ltac unbind H :=
  repeat match type of H with
  | mbind _ ?x = Some _ => let E := fresh "E" in destruct x eqn:E; [cbn [mbind option_bind] in H|done]
  end.

Lemma EncodeConfig_len sps pps spare conf : Config.EncodeConfig sps pps spare = Some conf -> len conf < 65536.
Proof.
  unfold Config.EncodeConfig. intros H. unbind H.
  repeat match goal with
  | H : put _ _ _ = Some _ |- _ => apply put_len in H
  | H : copyAt _ _ _ = Some _ |- _ => apply copyAt_len in H
  end.
  pose proof (make_len (5 + 3 + u16 (len sps) + 3 + u16 (len pps))). congruence || lia.
Qed.

Lemma writeSet_len b set buf out : Config.writeSet b set buf = Some out -> len out = len buf.
Proof.
  unfold Config.writeSet. intros H. unbind H.
  repeat match goal with
  | H : put _ _ _ = Some _ |- _ => apply put_len in H
  | H : copyAt _ _ _ = Some _ |- _ => apply copyAt_len in H
  end. congruence.
Qed.
Lemma hevcEncodeConfig_len vps sps pps spare conf :
  Config.hevcEncodeConfig vps sps pps spare = Some conf -> len conf < 65536.
Proof.
  unfold Config.hevcEncodeConfig. intros H. unbind H.
  repeat match goal with
  | H : put _ _ _ = Some _ |- _ => apply put_len in H
  | H : copyAt _ _ _ = Some _ |- _ => apply copyAt_len in H
  | H : Config.writeSet _ _ _ = Some _ |- _ => apply writeSet_len in H
  end.
  pose proof (make_len (23 + 5 + u16 (len vps) + 5 + u16 (len sps) + 5 + u16 (len pps))). lia.
Qed.

Section init.
Context (spare : bytes -> bytes).

(** ** What a codec's track tells *)

Definition soundOf (name : bytes) : option sound :=
  if bool_decide (name = CodecOpus) then Some Opus else if bool_decide (name = CodecMP3) then Some MP3
  else if bool_decide (name = CodecPCMA) then Some PCMA else if bool_decide (name = CodecPCMU) then Some PCMU
  else if bool_decide (name = CodecFLAC) then Some FLAC else None.

Definition videoTold (id clock : Z) (name : bytes) (v : option (Z * Z * bytes)) : list atom :=
  match v with Some (_, _, conf) => [AtomTkhd id; AtomMdhd clock; AtomVideo name conf] | None => [] end.
Definition soundTrackTold (id : Z) (k : sound) (codec : Codec) (conf : bytes) : list atom :=
  [AtomTkhd id; AtomMdhd (ClockRate codec)] ++ soundTold k (Channels codec) (ClockRate codec) conf.
Definition trackTold (i : nat) (codec : Codec) : list atom :=
  let id := Z.of_nat i + 1 in
  if bool_decide (Name codec = CodecH264) then videoTold id (ClockRate codec) (str "avc1") (video264 spare (FmtpLine codec))
  else if bool_decide (Name codec = CodecH265) then videoTold id (ClockRate codec) (str "hev1") (video265 spare (FmtpLine codec))
  else if bool_decide (Name codec = CodecAAC) then
    soundTrackTold id AAC codec (hexDecode (Between (FmtpLine codec) (str "config=") (str ";"))).1
  else match soundOf (Name codec) with Some k => soundTrackTold id k codec [] | None => [] end.

Definition codec_ok (codec : Codec) : Prop :=
  is_u32 (ClockRate codec) /\ is_u16 (Channels codec) /\
  len (hexDecode (Between (FmtpLine codec) (str "config=") (str ";"))).1 < 255.

(** A track writes bytes of limited size that tell it. *)
Definition tellsTrack (w : Wr) (told : list atom) : Prop :=
  exists d, wrote w d /\ len d < 70000 /\ forall rest l, tells rest l -> tells (d ++ rest) (told ++ l).

Lemma video_track id (h265 : bool) scale width height conf : is_u32 id -> is_u32 scale -> len conf < 65536 ->
  tellsTrack (WriteVideoTrack id (videoCodec h265) scale width height conf)
    [AtomTkhd id; AtomMdhd scale; AtomVideo (if h265 then str "hev1" else str "avc1") conf].
Proof.
  intros Hid Hs Hc. exists (videoTrack id h265 scale width height conf). split; [apply wrote_VideoTrack|]. split.
  - unfold videoTrack, avcx, stbl, dinf, vmhd, hdlr, mdhd, tkhd. destruct (0 <? width), h265; lens; lia.
  - intros rest l Hr. by apply tells_video.
Qed.
Lemma sound_track id k scale channels conf : is_u32 id -> is_u32 scale -> is_u16 channels -> len conf < 255 ->
  tellsTrack (WriteAudioTrack id (soundCodec k) scale channels conf)
    ([AtomTkhd id; AtomMdhd scale] ++ soundTold k channels scale conf).
Proof.
  intros Hid Hs Hch Hc. exists (audioTrack id k scale channels conf). split; [apply wrote_AudioTrack|]. split.
  - unfold audioTrack, soundEntry, stbl, dinf, smhd, hdlr, mdhd, tkhd. change (0 <? 0) with false. cbv iota.
    destruct k; unfold soundConfig, esds, FLACHeader, dOps; lens; lia.
  - intros rest l Hr. by apply tells_sound.
Qed.

Lemma video264_len fmtp width height conf : video264 spare fmtp = Some (width, height, conf) -> len conf < 65536.
Proof.
  unfold video264. destruct (GetParameterSet _) as [sps pps].
  destruct (match Sps.DecodeSPS (orElse sps dummySPS264) with Some _ => _ | None => _ end) as [w h].
  destruct (Config.EncodeConfig _ _ _) eqn:Ec; [|done]. apply EncodeConfig_len in Ec. intros E. by simplify_eq/=.
Qed.
Lemma video265_len fmtp width height conf : video265 spare fmtp = Some (width, height, conf) -> len conf < 65536.
Proof.
  unfold video265. destruct (Hevc.hevcParameterSets _) as [[vps sps] pps].
  destruct (HevcSps.DecodeSPS265 _) as [s|]; [|done]. cbn [mbind option_bind].
  destruct (match s with Some _ => _ | None => _ end) as [w h].
  destruct (Config.hevcEncodeConfig _ _ _ _) eqn:Ec; [|done]. apply hevcEncodeConfig_len in Ec. intros E. by simplify_eq/=.
Qed.

Lemma soundOf_codec name k : soundOf name = Some k -> name = soundCodec k.
Proof. unfold soundOf. intros E. repeat case_bool_decide; by simplify_eq. Qed.
Lemma soundOf_known name : name ∈ [CodecOpus; CodecMP3; CodecPCMA; CodecPCMU; CodecFLAC] -> is_Some (soundOf name).
Proof. unfold soundOf. intros E. repeat case_bool_decide; try done. set_solver. Qed.

Lemma writeTrack_tells i codec w : codec_ok codec -> (i < 256)%nat -> writeTrack spare i codec = Some (Some w) ->
  tellsTrack w (trackTold i codec).
Proof.
  intros (Hc & Hch & Hconf) Hi H. unfold writeTrack in H. cbv zeta in H.
  assert (is_u32 (Z.of_nat i + 1)) as Hid by (red; lia). rewrite u32_small in H by done.
  unfold trackTold. cbv zeta. revert H.
  case_bool_decide as H4; [|case_bool_decide as H5; [|case_bool_decide as Ha]]; intros H.
  - destruct (video264 spare (FmtpLine codec)) as [[[width height] conf]|] eqn:E; [|done]. cbn in H. simplify_eq H. intros <-.
    rewrite H4. apply (video_track _ false); [done..|]. by eapply video264_len.
  - destruct (video265 spare (FmtpLine codec)) as [[[width height] conf]|] eqn:E; [|done]. cbn in H. simplify_eq H. intros <-.
    rewrite H5. apply (video_track _ true); [done..|]. by eapply video265_len.
  - destruct (hexDecode _) as [conf [|]]; [|done]. simplify_eq H. intros <-. rewrite Ha.
    by apply (sound_track _ AAC).
  - revert H. case_bool_decide as Hs; intros H.
    + apply soundOf_known in Hs as [k Hk]. rewrite Hk. apply soundOf_codec in Hk. simplify_eq H. intros <-. rewrite Hk.
      by apply sound_track.
    + assert (soundOf (Name codec) = None) as ->.
      { destruct (soundOf (Name codec)) as [k|] eqn:E; [|done]. apply soundOf_codec in E. destruct Hs. rewrite E.
        destruct k; vm_compute; set_solver. }
      simplify_eq H. intros <-. exists []. split; [apply wrote_skip|]. by split.
Qed.

(** A codec whose sets or configuration can be written. *)
Definition describable (codec : Codec) : Prop :=
  (Name codec = CodecH264 -> is_Some (video264 spare (FmtpLine codec))) /\
  (Name codec = CodecH265 -> is_Some (video265 spare (FmtpLine codec))) /\
  (Name codec = CodecAAC -> (hexDecode (Between (FmtpLine codec) (str "config=") (str ";"))).2 = true).

Lemma writeTrack_some i codec : describable codec -> exists w, writeTrack spare i codec = Some (Some w).
Proof.
  intros (H1 & H2 & H3). unfold writeTrack. cbv zeta. case_bool_decide as D1.
  { destruct (H1 D1) as [[[w h] c] ->]. by eexists. }
  case_bool_decide as D2. { destruct (H2 D2) as [[[w h] c] ->]. by eexists. }
  case_bool_decide as D3. { specialize (H3 D3). destruct (hexDecode _) as [c ok]. cbn in H3. subst. by eexists. }
  case_bool_decide; by eexists.
Qed.

Fixpoint tracksTold (i : nat) (l : list Codec) : list atom :=
  match l with [] => [] | codec :: l => trackTold i codec ++ tracksTold (S i) l end.

Lemma writeTracks_tell l : forall i s, Forall describable l -> Forall codec_ok l -> (i + length l <= 256)%nat ->
  exists d, writeTracks spare i l (flat s) = Some (Some (flat (add d s))) /\ len d <= 70000 * len l /\
    forall rest l', tells rest l' -> tells (d ++ rest) (tracksTold i l ++ l').
Proof.
  induction l as [|codec l IH]; intros i s Hd Hl Hi.
  { exists []. split; [|by split]. cbn [writeTracks]. do 2 f_equal. by destruct s; cbn; rewrite app_nil_r. }
  apply Forall_cons in Hd as [Hd1 Hd]. apply Forall_cons in Hl as [Hl1 Hl]. cbn [length] in Hi.
  destruct (writeTrack_some i codec Hd1) as [w Hw]. cbn [writeTracks]. rewrite Hw. cbn [mbind option_bind].
  destruct (writeTrack_tells i codec w Hl1 ltac:(lia) Hw) as (d1 & Hw1 & Hlen1 & Ht1). rewrite Hw1. cbn [mbind option_bind].
  destruct (IH (S i) (add d1 s) Hd Hl ltac:(lia)) as (d & -> & Hlen & Ht).
  exists (d1 ++ d). rewrite add_add. split; [done|]. rewrite len_app, len_cons. split; [lia|].
  intros rest l' Hr. cbn [tracksTold]. rewrite <- !app_assoc. by apply Ht1, Ht.
Qed.

Definition extends (i n : nat) : bytes := flat_map (fun k => trex (Z.of_nat k + 1)) (seq i n).
Lemma wrote_Extends n : forall i, (i + n <= 256)%nat -> wrote (writeExtends i n) (extends i n).
Proof.
  induction n as [|n IH]; intros i H; [apply wrote_skip|]. cbn [writeExtends].
  rewrite u32_small by (red; lia). apply wrote_seq; [apply wrote_TrackExtend|]. apply IH. lia.
Qed.
Lemma len_extends n : forall i, len (extends i n) = 32 * Z.of_nat n.
Proof.
  induction n as [|n IH]; intros i; [done|]. unfold extends in *. cbn [seq flat_map]. rewrite len_app, IH.
  change (len (trex _)) with 32. lia.
Qed.

(** The segment around the tracks. *)
Definition segment (d : bytes) (n : nat) : bytes := ftyp ++ box Moov ((mvhd ++ d) ++ box MoovMvex (extends 0 n)).

Lemma GetInit_segment m d : (length (codecs m) <= 255)%nat ->
  writeTracks spare 0 (codecs m) (flat (Inside (Outer ftyp) Moov mvhd))
    = Some (Some (flat (Inside (Outer ftyp) Moov (mvhd ++ d)))) ->
  GetInit spare m = Some (Some (segment d (length (codecs m)))).
Proof.
  intros Hn Hd. unfold GetInit. change NewMovie with (flat (Outer [])).
  set (n := length (codecs m)) in *.
  assert (turns (WriteFileType >> StartAtom Moov >> WriteMovieHeader) (Outer []) (Inside (Outer ftyp) Moov mvhd)) as Hh.
  { repeat turn. reflexivity. }
  red in Hh. rewrite Hh. cbn [mbind option_bind]. rewrite Hd. cbn [mbind option_bind].
  assert (turns (StartAtom MoovMvex >> writeExtends 0 n >> EndAtom >> EndAtom) (Inside (Outer ftyp) Moov (mvhd ++ d))
    (Outer (segment d n))) as Hx.
  { apply turns_start. eapply turns_wrote; [apply wrote_Extends; lia|]. cbn [add app]. apply turns_close. by apply turns_end. }
  red in Hx. rewrite Hx. done.
Qed.

(** The segment can be made, and read back. *)
Lemma GetInit_read m : Forall describable (codecs m) -> Forall codec_ok (codecs m) -> len (codecs m) <= 255 ->
  exists b l, GetInit spare m = Some (Some b) /\ DecodeAtoms b = Ok l /\ useful l = tracksTold 0 (codecs m).
Proof.
  intros Hd Hc Hn. set (n := length (codecs m)). unfold len in Hn.
  destruct (writeTracks_tell (codecs m) 0 (Inside (Outer ftyp) Moov mvhd) Hd Hc ltac:(lia)) as (d & Ed & Hlen & Ht).
  assert (tells (segment d n) (tracksTold 0 (codecs m))) as (l & Hl & Hu).
  { apply tells_pass; [fit|by intros ? _|]. rewrite <- (app_nil_r (box Moov _)), <- (app_nil_r (tracksTold _ _)).
    pose proof (len_extends n 0) as He. unfold len in Hlen, He.
    apply tells_container; [|by vm_compute; repeat constructor| |apply tells_nil].
    { split; [done|]. rewrite !len_app, len_boxed. change (len mvhd) with 108. change (len MoovMvex) with 4. unfold len. lia. }
    rewrite <- app_assoc. apply tells_pass; [fit|by intros ? _|].
    rewrite <- (app_nil_r (tracksTold _ _)). apply Ht.
    rewrite <- (app_nil_r (box MoovMvex _)). apply tells_pass; [|by intros ? _|apply tells_nil].
    split; [done|]. unfold len. lia. }
  exists (segment d n), l. split; [by apply GetInit_segment; [lia|]|]. split; [|done]. by apply DecodeAtoms_read.
Qed.

(** What a track must tell, independently of how the muxer makes it: for video a
    configuration from which the decoder gets the parameter sets of the codec line back,
    the set of a dummy stream standing for one that the line lacks; for AAC the bytes of
    [config=]; for other sound no configuration. *)
Definition avcSets (fmtp : bytes) : bytes * bytes :=
  let '(sps, pps) := GetParameterSet fmtp in
  (if decide (sps = []) then dummySPS264 else sps, if decide (pps = []) then dummyPPS264 else pps).
Definition hevcSets (fmtp : bytes) : bytes * bytes * bytes :=
  let '(vps, sps, pps) := Hevc.hevcParameterSets fmtp in
  (if decide (vps = []) then dummyVPS265 else vps, if decide (sps = []) then dummySPS265 else sps,
   if decide (pps = []) then dummyPPS265 else pps).
Definition avcTold (fmtp conf : bytes) : Prop :=
  let '(sps, pps) := avcSets fmtp in
  4 <= len sps -> len sps + len pps + 11 < 65536 ->
  Config.DecodeConfig conf = Some (Config.mkAvcConfig (Some (seg sps 1 4)) (Some sps) (Some pps)).
Definition hevcTold (fmtp conf : bytes) : Prop :=
  let '(vps, sps, pps) := hevcSets fmtp in
  6 <= len sps -> len vps + len sps + len pps + 38 < 65536 ->
  forall behind, Config.hevcDecodeConfig conf behind
    = Some (Config.mkHevcConfig (seg sps 3 6) (Some vps) (Some sps) (Some pps)).
Definition tellsCodec (i : nat) (codec : Codec) (told : list atom) : Prop :=
  let id := Z.of_nat i + 1 in
  if decide (Name codec = CodecH264) then
    exists conf, told = [AtomTkhd id; AtomMdhd (ClockRate codec); AtomVideo (str "avc1") conf] /\ avcTold (FmtpLine codec) conf
  else if decide (Name codec = CodecH265) then
    exists conf, told = [AtomTkhd id; AtomMdhd (ClockRate codec); AtomVideo (str "hev1") conf] /\ hevcTold (FmtpLine codec) conf
  else if decide (Name codec = CodecAAC) then
    told = soundTrackTold id AAC codec (hexDecode (Between (FmtpLine codec) (str "config=") (str ";"))).1
  else match soundOf (Name codec) with Some k => told = soundTrackTold id k codec [] | None => told = [] end.

Lemma orElse_sets b other : orElse b other = if decide (b = []) then other else b.
Proof.
  unfold orElse. destruct b as [|x b]; [done|]. rewrite decide_False by done. rewrite len_cons.
  rewrite (proj2 (Z.eqb_neq _ _)); [done|]. pose proof (len_nonneg b). lia.
Qed.
Lemma orElse_some b other : 1 <= len other -> 1 <= len (orElse b other).
Proof. intros H. unfold orElse. destruct (Z.eqb_spec (len b) 0); [done|]. pose proof (len_nonneg b). lia. Qed.

Lemma video264_told fmtp width height conf : video264 spare fmtp = Some (width, height, conf) -> avcTold fmtp conf.
Proof.
  unfold video264, avcTold, avcSets. destruct (GetParameterSet fmtp) as [sps pps]. rewrite <- !orElse_sets.
  destruct (match Sps.DecodeSPS _ with Some _ => _ | None => _ end) as [w h].
  intros H Hs Hl. rewrite Config.EncodeConfig_bytes in H by (done || by apply orElse_some).
  injection H as <- <- <-. apply Config.avcConf_decoded; [done|by apply orElse_some|done].
Qed.
Lemma video265_told fmtp width height conf : video265 spare fmtp = Some (width, height, conf) -> hevcTold fmtp conf.
Proof.
  unfold video265, hevcTold, hevcSets. destruct (Hevc.hevcParameterSets fmtp) as [[vps sps] pps]. rewrite <- !orElse_sets.
  destruct (HevcSps.DecodeSPS265 _) as [d|]; [|done]. cbn [mbind option_bind].
  destruct (match d with Some _ => _ | None => _ end) as [w h].
  intros H Hs Hl behind. rewrite Config.hevcEncodeConfig_bytes in H by (done || by apply orElse_some).
  injection H as <- <- <-. apply Config.hevcConf_decoded; [by apply orElse_some|done|by apply orElse_some|done].
Qed.

Lemma trackTold_codec i codec : describable codec -> tellsCodec i codec (trackTold i codec).
Proof.
  intros (H1 & H2 & _). unfold tellsCodec, trackTold. cbv zeta. repeat rewrite bool_decide_decide.
  destruct (decide (Name codec = CodecH264)) as [E|].
  { destruct (H1 E) as [[[w h] conf] Hv]. rewrite Hv. exists conf. split; [done|]. by eapply video264_told. }
  destruct (decide (Name codec = CodecH265)) as [E|].
  { destruct (H2 E) as [[[w h] conf] Hv]. rewrite Hv. exists conf. split; [done|]. by eapply video265_told. }
  destruct (decide (Name codec = CodecAAC)); [done|]. by destruct (soundOf (Name codec)).
Qed.

Lemma tracksTold_concat l : forall i, tracksTold i l = concat (imap (fun k codec => trackTold (i + k) codec) l).
Proof.
  induction l as [|codec l IH]; intros i; [done|]. cbn [tracksTold imap concat]. rewrite Nat.add_0_r, IH. do 2 f_equal.
  apply imap_ext. intros k c _. cbn. f_equal. lia.
Qed.

(** C37. The initialisation segment is read back: in the order of the tracks each one's number,
    its clock and what its codec's decoder needs, for video the parameter sets of the
    codec line. *)
Theorem init_roundtrip m : Forall describable (codecs m) -> Forall codec_ok (codecs m) -> len (codecs m) <= 255 ->
  exists b l told, GetInit spare m = Some (Some b) /\ DecodeAtoms b = Ok l /\ useful l = concat told /\
    length told = length (codecs m) /\
    forall i codec t, codecs m !! i = Some codec -> told !! i = Some t -> tellsCodec i codec t.
Proof.
  intros Hd Hc Hn. destruct (GetInit_read m Hd Hc Hn) as (b & l & Hb & Hl & Hu).
  exists b, l, (imap trackTold (codecs m)). split_and!; [done|done|by rewrite Hu, tracksTold_concat|by rewrite length_imap|].
  intros i codec t Hi Ht. rewrite list_lookup_imap, Hi in Ht. injection Ht as <-.
  apply trackTold_codec. by apply (Forall_lookup_1 _ _ _ _ Hd Hi).
Qed.
End init.

Definition demoMuxer : Muxer :=
  AddTrack (mkCodec 1 CodecAAC 16000 1 (str "streamtype=5;config=1408;sizelength=13") 96)
    (AddTrack (mkCodec 0 CodecH264 90000 0 (str "packetization-mode=1") 96) (mkMuxer 0 [] [] [])).

Lemma demoMuxer_ok : Forall (describable (fun _ => [])) (codecs demoMuxer) /\ Forall codec_ok (codecs demoMuxer).
Proof.
  split.
  - apply Forall_cons; split; [|apply Forall_singleton]; unfold describable;
      (split; [|split]; intros H; first [discriminate H|vm_compute; by eexists|reflexivity]).
  - apply Forall_cons; split; [|apply Forall_singleton]; unfold codec_ok; (split; [|split]); vm_compute; done.
Qed.

Lemma init_roundtrip_witness :
  exists b l told, GetInit (fun _ => []) demoMuxer = Some (Some b) /\ DecodeAtoms b = Ok l /\ useful l = concat told /\
    forall t, told !! 0%nat = Some t -> exists conf, t = [AtomTkhd 1; AtomMdhd 90000; AtomVideo (str "avc1") conf] /\
      Config.DecodeConfig conf = Some (Config.mkAvcConfig (Some [0x42; 0; 0x0a]) (Some dummySPS264) (Some dummyPPS264)).
Proof.
  destruct (init_roundtrip (fun _ => []) demoMuxer) as (b & l & told & H1 & H2 & H3 & _ & H4).
  - exact (proj1 demoMuxer_ok).
  - exact (proj2 demoMuxer_ok).
  - vm_compute; done.
  - exists b, l, told. split; [exact H1|]. split; [exact H2|]. split; [exact H3|]. intros t Ht.
    destruct (H4 0%nat (mkCodec 0 CodecH264 90000 0 (str "packetization-mode=1") 96) t eq_refl Ht) as (conf & Et & Hconf).
    exists conf. split; [exact Et|]. apply Hconf; vm_compute; congruence.
Defined.
