(* ===== verification/Mp4Play.v ===== *)
(** Who gets MP4 ([pkg/mp4]: consumer.go, keyframe.go, mime.go, helpers.go): a consumer
    that waits for a key frame, one that only takes key frames, the texts and requests,
    and the two changes of a segment that was made.  [None] is a run-time panic, an
    inner one an error. *)

From S2P Require Import Prelude Text Codec Negotiate Mp4.
From S2P Require Iso Hevc TutkSession.
Import Hevc(hevcIsKeyframe).
Import TutkSession(put).

(** ** The consumer

    A track is handed on by the codec's own handler; what is modelled is the one behind
    it.  [names] are the codecs of the tracks as they came. *)

Record Consumer := mkConsumer { muxer : Muxer; start : bool; names : list bytes }.
#[export] Instance eta_Consumer : Eta Consumer := fun c => mkConsumer (muxer c) (start c) (names c).

Definition NewConsumer : Consumer := mkConsumer (mkMuxer 0 [] [] []) false [].

Definition isPCM (name : bytes) : bool := bool_decide (name ∈ [CodecPCMA; CodecPCMU; CodecPCM; CodecPCML]).

(** The codec that is muxed: G.711 and PCM become FLAC, two channels one of twice the
    rate. *)
Definition muxedCodec (codec : Codec) : Codec :=
  if isPCM (Name codec) then
    if Channels codec =? 2
    then mkCodec (address codec) CodecFLAC (u32 (ClockRate codec * 2)) 1 (FmtpLine codec) (PayloadType codec)
    else mkCodec (address codec) CodecFLAC (ClockRate codec) (Channels codec) (FmtpLine codec) (PayloadType codec)
  else codec.

Definition supported (name : bytes) : bool :=
  bool_decide (name ∈ [CodecH264; CodecH265; CodecAAC; CodecOpus; CodecMP3]) || isPCM name.

Definition consumerAddTrack (codec : Codec) (c : Consumer) : option Consumer :=
  if supported (Name codec)
  then Some (mkConsumer (Mp4.AddTrack (muxedCodec codec) (muxer c)) (start c) (names c ++ [Name codec]))
  else None.

(** Whether a packet starts the stream: a key frame of video; sound never does. *)
Definition starts (name payload : bytes) : option bool :=
  if bool_decide (name = CodecH264) then IsKeyframe payload
  else if bool_decide (name = CodecH265) then hevcIsKeyframe payload
  else Some false.

Definition handle (t : nat) (p : sample) (c : Consumer) : option (option bytes * Consumer) :=
  name ← names c !! t;
  go ← (if start c then Some true else starts name (sampleData p));
  if (go : bool) then
    r ← GetPayload (u8 (Z.of_nat t)) p (muxer c);
    let '(b, m) := r in Some (Some b, mkConsumer m true (names c))
  else Some (None, c).

(** ** Changing a segment *)

(** The matrix of the first video track; the result says whether it was changed. *)
Definition PatchVideoRotate (init : bytes) (degrees : Z) : option (bytes * bool) :=
  match Text.index init (str "vide") with
  | None => Some (init, false)
  | Some i =>
      let i := Z.of_nat i - (4 + 3 + 1 + 8 + 32 + 8 + 4 + 4 + 4 * 9) in
      match (if degrees =? 0 then Some (1, 0) else if degrees =? 90 then Some (0, 1)
             else if degrees =? 180 then Some (0xFFFF, 0) else if degrees =? 270 then Some (0, 0xFFFF) else None) with
      | None => Some (init, false)
      | Some (cos, sin) =>
          b ← put i (be16 cos) init; b ← put (i + 4) (be16 sin) b;
          b ← put (i + 12) (be16 (u16 (- sin))) b; b ← put (i + 16) (be16 cos) b;
          Some (b, true)
      end
  end.

Definition PatchVideoScale (init : bytes) (scaleX scaleY : Z) : option (bytes * bool) :=
  match Text.index init (str "pasp") with
  | None => Some (init, false)
  | Some i =>
      b ← put (Z.of_nat i + 4) (be32 (u32 scaleX)) init;
      b ← put (Z.of_nat i + 8) (be32 (u32 scaleY)) b;
      Some (b, true)
  end.

Section play.
Context (spare : bytes -> bytes).

(** The beginning of [WriteTo]: what is written before the fragments. *)
Definition startWriting (rotate scaleX scaleY : Z) (c : Consumer) : option (option bytes * Consumer) :=
  let c := match names c with
           | [name] => if bool_decide (GetKind (Name (default (mkCodec 0 [] 0 0 [] 0) (codecs (muxer c) !! 0%nat))) = KindAudio)
                       then c <| start := true |> else c
           | _ => c
           end in
  r ← GetInit spare (muxer c);
  match (r : option bytes) with
  | None => Some (None, c)
  | Some init =>
      init ← (if rotate =? 0 then Some init else r ← PatchVideoRotate init rotate; Some r.1);
      init ← (if (scaleX =? 0) || (scaleY =? 0) then Some init else r ← PatchVideoScale init scaleX scaleY; Some r.1);
      Some (Some init, c)
  end.

(** ** Key frames only

    The handler of the first track; the segment was made when the track was added. *)
Definition keyframeAddTrack (codec : Codec) (m : Muxer) : option (option bytes * Muxer) :=
  let m := Mp4.AddTrack codec m in r ← GetInit spare m; Some (r, m).
Definition keyframeHandle (codec : Codec) (init : bytes) (p : sample) (m : Muxer) : option (option bytes * Muxer) :=
  key ← starts (Name codec) (sampleData p);
  if (key : bool) then r ← GetPayload 0 p m; let '(b, m) := r in Some (Some (init ++ b), m) else Some (None, m).
End play.

(** ** Texts and requests *)

Definition MimeH264 : bytes := str "avc1.640029".
Definition MimeH265 : bytes := str "hvc1.1.6.L153.B0".
Definition MimeAAC : bytes := str "mp4a.40.2".
Definition MimeFlac : bytes := str "flac".
Definition MimeOpus : bytes := str "opus".

Definition mimeCodec (codec : Codec) : bytes :=
  if bool_decide (Name codec = CodecH264) then str "avc1." ++ GetProfileLevelID (FmtpLine codec)
  else if bool_decide (Name codec = CodecH265) then MimeH265
  else if bool_decide (Name codec = CodecAAC) then MimeAAC
  else if bool_decide (Name codec = CodecOpus) then MimeOpus
  else if bool_decide (Name codec = CodecFLAC) then MimeFlac else [].
Fixpoint joinCommas (l : list bytes) : bytes :=
  match l with [] => [] | [s] => s | s :: l => s ++ [44] ++ joinCommas l end.
Definition MimeCodecs (codecs : list Codec) : bytes := joinCommas (map mimeCodec codecs).
Definition ContentType (codecs : list Codec) : bytes := str "video/mp4; codecs=" ++ [34] ++ MimeCodecs codecs ++ [34].

(** The codecs named in a list of texts; what is not known is passed over. *)
Definition parsedVideo (name : bytes) : list bytes :=
  if decide (name = MimeH264) then [CodecH264] else if decide (name = MimeH265) then [CodecH265] else [].
Definition parsedAudio (name : bytes) : list bytes :=
  if decide (name = MimeAAC) then [CodecAAC]
  else if decide (name = MimeFlac) then [CodecPCMA; CodecPCMU; CodecPCM; CodecPCML]
  else if decide (name = MimeOpus) then [CodecOpus] else [].
Definition named (next : nat) (l : list bytes) : list Codec := imap (fun i name => mkCodec (next + i) name 0 0 [] 0) l.
Definition ParseCodecs (next : nat) (text : bytes) (parseAudio : bool) : list Media :=
  let videos := flat_map parsedVideo (split 44 text) in
  let audios := flat_map parsedAudio (split 44 text) in
  (if decide (videos = []) then [] else [mkMedia KindVideo DirectionSendonly (named next videos)]) ++
  (if negb (bool_decide (audios = [])) && parseAudio
   then [mkMedia KindAudio DirectionSendonly (named (next + length videos) audios)] else []).

(** The values of the parameter [mp4] in a request, and the rest of it. *)
Definition mp4Audio (value : bytes) : list bytes :=
  [CodecAAC] ++
  (if decide (value = []) then [] else
   [CodecPCMA; CodecPCMU; CodecPCM; CodecPCML] ++
   (if decide (value = str "flac") then [] else [CodecOpus; CodecMP3])).
Definition mp4ParseQuery (next : nat) (values : list bytes) (query : list (bytes * list bytes)) : list Media :=
  match values with
  | [] => (ParseQuery next query).1
  | value :: _ =>
      [mkMedia KindVideo DirectionSendonly (named next [CodecH264; CodecH265]);
       mkMedia KindAudio DirectionSendonly (named (next + 2) (mp4Audio value))]
  end.
