(* ===== verification/Mp4Viewer.v ===== *)
(** What a viewer of MP4 gets (Mp4Play.v). *)

From S2P Require Import Prelude Text Codec Negotiate Iso IsoRead IsoFacts IsoTrip Mp4 Mp4Facts Mp4Play.
From S2P Require Hevc.
Import Hevc(hevcIsKeyframe).

(** Packets of the tracks as they come, and the fragments they become. *)
Fixpoint serve (l : list (nat * sample)) (c : Consumer) : option (list bytes * Consumer) :=
  match l with
  | [] => Some ([], c)
  | (t, p) :: l =>
      r ← handle t p c; let '(out, c) := r in
      r ← serve l c; let '(bs, c) := r in
      Some (match out with Some b => b :: bs | None => bs end, c)
  end.

Definition startsAt (names : list bytes) (tp : nat * sample) : bool :=
  bool_decide (starts (default [] (names !! tp.1)) (sampleData tp.2) = Some true).
(** The packets from the first key frame on. *)
Fixpoint fromKey (names : list bytes) (l : list (nat * sample)) : list (nat * sample) :=
  match l with [] => [] | tp :: l' => if startsAt names tp then l else fromKey names l' end.

(** The muxer has the tracks of the consumer. *)
Definition sameTrack (name : bytes) (codec : Codec) : Prop := Name codec = if isPCM name then CodecFLAC else name.
Record consumer_ok (c : Consumer) : Prop := {
  ok_tracks : Forall2 sameTrack (names c) (codecs (muxer c));
  ok_muxer : muxer_ok (muxer c);
}.

Lemma NewConsumer_ok : consumer_ok NewConsumer.
Proof. constructor; [constructor|]. by constructor; cbn; try apply Forall_nil. Qed.

Lemma consumerAddTrack_ok codec c c' : is_u32 (ClockRate codec) -> consumer_ok c ->
  consumerAddTrack codec c = Some c' -> consumer_ok c'.
Proof.
  intros Hc [Ht Hm]. unfold consumerAddTrack. destruct (supported _); [|done]. intros E. simplify_eq E. intros <-.
  assert (is_u32 (ClockRate (muxedCodec codec))) as Hc'.
  { unfold muxedCodec. destruct (isPCM _); [|done]. destruct (_ =? 2); cbn; [ints|done]. }
  destruct Hm as [M1 M2 M3 M4 M5 M6]. constructor; cbn.
  - apply Forall2_app; [done|]. constructor; [|constructor]. unfold sameTrack, muxedCodec.
    destruct (isPCM (Name codec)); [|done]. by destruct (_ =? 2).
  - constructor; cbn; rewrite ?length_app; try done; try (apply Forall_app; split; [done|]; by apply Forall_singleton);
      cbn; lia.
Qed.

(** A packet of a track there is: video in access units, any sound. *)
Definition readable (names : list bytes) (tp : nat * sample) : Prop :=
  exists name, names !! tp.1 = Some name /\ access name (sampleData tp.2).
Definition arrived (tp : nat * sample) : Prop := (tp.1 < 255)%nat /\ sample_ok tp.2.
Definition onTrack (tp : nat * sample) : Z * sample := (Z.of_nat tp.1, tp.2).

Lemma access_starts name data : access name data -> exists key, starts name data = Some key.
Proof.
  intros H. destruct (access_key _ _ H) as [H1 H2]. unfold starts.
  case_bool_decide; [auto|]. case_bool_decide; [auto|]. by eexists.
Qed.

Lemma starts_flags name codec payload key : sameTrack name codec -> starts name payload = Some key ->
  exists flags, sampleFlags codec payload = Some flags /\ (key = true -> flags = SampleVideoIFrame).
Proof.
  unfold sameTrack, starts, sampleFlags. intros -> H. destruct (isPCM name) eqn:Ep.
  - exists SampleAudio. split; [done|]. intros ->. revert H.
    unfold isPCM in Ep. apply bool_decide_eq_true in Ep.
    repeat case_bool_decide; try done; subst; vm_compute in Ep; set_solver.
  - revert H. case_bool_decide.
    { destruct (IsKeyframe payload) as [k|]; [|done]. intros H1. simplify_eq H1. intros ->. eexists. split; [done|]. by intros ->. }
    case_bool_decide.
    { destruct (hevcIsKeyframe payload) as [k|]; [|done]. intros H1. simplify_eq H1. intros ->. eexists. split; [done|]. by intros ->. }
    intros H1. simplify_eq H1. intros <-. by eexists.
Qed.

Lemma readable_playable c tp : consumer_ok c -> readable (names c) tp -> playable (muxer c) (onTrack tp).
Proof.
  intros Hc (name & Hn & Ha). destruct (Forall2_lookup_l _ _ _ _ _ (ok_tracks c Hc) Hn) as (codec & Hk & Hst).
  exists codec. cbn. rewrite Nat2Z.id. split; [done|]. unfold sameTrack in Hst. rewrite Hst.
  destruct (isPCM name); [|done]. intros [E|E]; discriminate E.
Qed.

Lemma arrived_packet tp : arrived tp -> packet_ok (onTrack tp).
Proof. intros [H1 H2]. split; [cbn; lia|done]. Qed.

Lemma serve_started l : forall c, start c = true -> Forall (readable (names c)) l -> Forall arrived l ->
  serve l c = ('(bs, m) ← mux (onTrack <$> l) (muxer c); Some (bs, mkConsumer m true (names c))).
Proof.
  induction l as [|[t p] l IH]; intros c Hs Hr Ha.
  { cbn. destruct c. cbn in *. by subst. }
  apply Forall_cons in Hr as [(name & Hn & _) Hr]. apply Forall_cons in Ha as [[Ht _] Ha]. cbn [fst snd] in *.
  cbn [serve mux fmap list_fmap onTrack fst snd]. unfold handle. rewrite Hn, Hs. cbn [mbind option_bind].
  rewrite u8_small by (red; lia). destruct (GetPayload _ p (muxer c)) as [[b m1]|]; [|done]. cbn [mbind option_bind].
  rewrite IH by done. cbn [muxer names]. unfold fmap. by destruct (mux _ m1) as [[bs m2]|].
Qed.

(** Before the first key frame nothing is sent; from there on the muxer's fragments. *)
Lemma serve_from_key l : forall c, start c = false -> Forall (readable (names c)) l -> Forall arrived l ->
  serve l c = ('(bs, m) ← mux (onTrack <$> fromKey (names c) l) (muxer c);
               Some (bs, mkConsumer m (negb (bool_decide (fromKey (names c) l = []))) (names c))).
Proof.
  induction l as [|[t p] l IH]; intros c Hs Hr Ha.
  { cbn [serve fromKey fmap list_fmap mux mbind option_bind]. rewrite bool_decide_true by done. destruct c. cbn in *. by subst. }
  pose proof Hr as Hr'. pose proof Ha as Ha'.
  apply Forall_cons in Hr as [(name & Hn & Hac) Hr]. apply Forall_cons in Ha as [[Ht _] Ha]. cbn [fst snd] in *.
  destruct (access_starts _ _ Hac) as [key Hk].
  cbn [fromKey]. unfold startsAt. cbn [fst snd]. rewrite Hn. cbn [default id]. rewrite Hk. destruct key.
  - change (bool_decide (Some true = Some true)) with true. cbv iota. rewrite bool_decide_false by done. cbn [negb].
    assert (serve ((t, p) :: l) c = serve ((t, p) :: l) (c <| start := true |>)) as ->.
    { cbn [serve]. unfold handle. cbn [names start muxer]. rewrite Hn, Hs. cbn [mbind option_bind]. rewrite Hk.
      cbn [mbind option_bind]. destruct c as [m s ns]. cbn in *. by rewrite Hn. }
    rewrite (serve_started ((t, p) :: l) (c <| start := true |>)) by done. by destruct c.
  - change (bool_decide (Some false = Some true)) with false. cbv iota. rewrite <- IH by done. cbn [serve]. unfold handle. rewrite Hn, Hs. cbn [mbind option_bind].
    rewrite Hk. cbn [mbind option_bind]. by destruct (serve l c) as [[]|].
Qed.

Lemma fromKey_suffix names l : exists pre, l = pre ++ fromKey names l.
Proof.
  induction l as [|tp l [pre E]]; [by exists []|]. cbn [fromKey]. destruct (startsAt names tp); [by exists []|].
  exists (tp :: pre). cbn. by f_equal.
Qed.
Lemma fromKey_head names l tp rest : fromKey names l = tp :: rest -> startsAt names tp = true.
Proof.
  induction l as [|tp' l IH]; [done|]. cbn [fromKey]. destruct (startsAt names tp') eqn:E; [|done].
  intros H. by simplify_eq H; intros <-.
Qed.

Lemma mux_keeps l : forall m bs m', muxer_ok m -> Forall packet_ok l -> mux l m = Some (bs, m') ->
  muxer_ok m' /\ codecs m' = codecs m.
Proof.
  induction l as [|[t p] l IH]; intros m bs m' Hm Hl H; cbn [mux] in H.
  { simplify_eq H. by intros _ <-. }
  apply Forall_cons in Hl as [[_ Hp] Hl]. cbn [fst snd] in *.
  destruct (GetPayload t p m) as [[b m1]|] eqn:E; [|done]. cbn [mbind option_bind] in H.
  destruct (mux l m1) as [[bs1 m2]|] eqn:E1; [|done]. cbn [mbind option_bind] in H. simplify_eq H. intros _ <-.
  destruct (GetPayload_written t p m b m1 Hp E) as (codec & last & time & f & W & _).
  destruct (written_ok _ _ _ _ _ _ _ _ Hm Hp W) as (_ & Hm1 & _).
  destruct (IH m1 bs1 m2 Hm1 Hl E1) as [H1 H2]. split; [done|]. by rewrite H2, (w_muxer _ _ _ _ _ _ _ _ W).
Qed.

(** C39. A viewer gets fragments that can be read, each with its packet's data: a viewer of
    sound alone, who was started, those of all packets, another those of the packets from the
    first key frame on, the first one of which is marked as a key frame; before one comes
    nothing is sent. *)
Theorem viewer_from_key (c : Consumer) (l : list (nat * sample)) :
  consumer_ok c -> Forall (readable (names c)) l -> Forall arrived l ->
  exists bs c' fs, serve l c = Some (bs, c') /\ consumer_ok c' /\ names c' = names c /\
    DecodeAtoms (concat bs) = Ok (flat_map fragAtoms fs) /\
    fragData <$> fs = (sampleData ∘ snd) <$> (if start c then l else fromKey (names c) l) /\
    (start c = false -> forall f, head fs = Some f -> fragFlags f = SampleVideoIFrame).
Proof.
  intros Hc Hr Ha. set (l' := if start c then l else fromKey (names c) l).
  assert (serve l c = ('(bs, m) ← mux (onTrack <$> l') (muxer c);
    Some (bs, mkConsumer m (start c || negb (bool_decide (l' = []))) (names c)))) as ->.
  { unfold l'. destruct (start c) eqn:Es; [by apply serve_started|by apply serve_from_key]. }
  assert (exists pre, l = pre ++ l') as [pre E] by (unfold l'; destruct (start c); [by exists []|apply fromKey_suffix]).
  assert (Forall (readable (names c)) l' /\ Forall arrived l') as [Hr' Ha'].
  { rewrite E in Hr, Ha. apply Forall_app in Hr as [_ Hr]. by apply Forall_app in Ha as [_ Ha]. }
  clear Hr Ha. rename Hr' into Hr, Ha' into Ha.
  assert (Forall packet_ok (onTrack <$> l')) as Hp.
  { apply Forall_fmap. eapply Forall_impl; [exact Ha|]. apply arrived_packet. }
  assert (Forall (playable (muxer c)) (onTrack <$> l')) as Hpl.
  { apply Forall_fmap. eapply Forall_impl; [exact Hr|]. intros tp. by apply readable_playable. }
  destruct (mux_total _ _ (ok_muxer c Hc) Hp Hpl) as (bs & m' & Em). rewrite Em. cbn [mbind option_bind].
  destruct (mux_fragments _ _ _ _ (ok_muxer c Hc) Hp Em) as (fs & -> & Hf & Hlen & Hk).
  exists (fragBytes <$> fs), (mkConsumer m' (start c || negb (bool_decide (l' = []))) (names c)), fs.
  destruct (mux_keeps _ _ _ _ (ok_muxer c Hc) Hp Em) as [Hm' Hc'].
  split; [done|]. split; [constructor; cbn; [rewrite Hc'; apply Hc|done]|]. split; [done|]. split.
  { replace (concat (fragBytes <$> fs)) with (flat_map fragBytes fs) by apply flat_map_concat_map.
    exact (DecodeAtoms_read _ _ (allRead_frags fs Hf)). }
  rewrite length_fmap in Hlen. split.
  - apply list_eq. intros k. rewrite !list_lookup_fmap.
    destruct (l' !! k) as [[t p]|] eqn:El.
    + destruct (lookup_lt_is_Some_2 fs k) as [f Ef]; [rewrite Hlen; by eapply lookup_lt_Some|]. rewrite Ef. cbn.
      destruct (Hk k (Z.of_nat t) p f) as (_ & _ & -> & _); [by rewrite list_lookup_fmap, El|done|done].
    + apply lookup_ge_None in El. rewrite (proj2 (lookup_ge_None fs k)) by lia. done.
  - intros Es f Hh. assert (l' = fromKey (names c) l) as Ef by (unfold l'; by rewrite Es).
    clearbody l'. destruct l' as [|[t p] rest]; [by destruct fs|].
    destruct fs as [|f' fs]; [done|]. cbn in Hh. simplify_eq Hh. intros ->.
    destruct (Hk 0%nat (Z.of_nat t) p f eq_refl eq_refl) as (_ & _ & _ & _ & _ & (codec & Hcd & Hfl) & _).
    apply Forall_cons in Hr as [(name & Hn & _) _]. cbn [fst snd] in *.
    pose proof (fromKey_head _ _ _ _ (eq_sym Ef)) as Hh'. unfold startsAt in Hh'. cbn [fst snd] in Hh'. rewrite Hn in Hh'.
    apply bool_decide_eq_true in Hh'. cbn in Hh'. rewrite Nat2Z.id in Hcd.
    pose proof (Forall2_lookup_lr _ _ _ _ _ _ (ok_tracks c Hc) Hn Hcd) as Hsame.
    destruct (starts_flags _ _ _ _ Hsame Hh') as (flags & Hfl' & Hkey). rewrite Hfl in Hfl'. simplify_eq. by apply Hkey.
Qed.

Definition demoConsumer : Consumer :=
  mkConsumer (mkMuxer 0 [0; 0] [0; 0] [mkCodec 0 CodecH264 90000 0 [] 96; mkCodec 1 CodecFLAC 8000 1 [] 8])
    false [CodecH264; CodecPCMA].
Example demoConsumer_added :
  (c ← consumerAddTrack (mkCodec 0 CodecH264 90000 0 [] 96) NewConsumer;
   consumerAddTrack (mkCodec 1 CodecPCMA 8000 1 [] 8) c) = Some demoConsumer.
Proof. vm_compute. reflexivity. Qed.

Definition demoPackets : list (nat * sample) :=
  [(1%nat, mkSample 160 0 [1; 2]); (0%nat, mkSample 3000 0 [0; 0; 0; 2; 0x41; 0x9A]);
   (0%nat, mkSample 6000 0 [0; 0; 0; 2; 0x65; 0x88]); (1%nat, mkSample 320 0 [3; 4])].

Lemma viewer_from_key_witness : exists bs c' fs, serve demoPackets demoConsumer = Some (bs, c') /\
  DecodeAtoms (concat bs) = Ok (flat_map fragAtoms fs) /\ fragData <$> fs = [[0; 0; 0; 2; 0x65; 0x88]; [3; 4]].
Proof.
  destruct (viewer_from_key demoConsumer demoPackets) as (bs & c' & fs & H1 & _ & _ & H2 & H3 & _).
  - constructor; [by repeat constructor|]. by constructor; cbn; repeat (apply Forall_cons; split); try apply Forall_nil.
  - unfold demoPackets. repeat (apply Forall_cons; split); try apply Forall_nil; try exact I;
      (eexists; split; [reflexivity|]); intros E; try (exfalso; destruct E as [E|E]; discriminate E).
    + exists [[0x41; 0x9A]]. split; [discriminate|]. split; [|reflexivity]. apply Forall_cons_2; [split; [discriminate|reflexivity]|apply Forall_nil_2].
    + exists [[0x65; 0x88]]. split; [discriminate|]. split; [|reflexivity]. apply Forall_cons_2; [split; [discriminate|reflexivity]|apply Forall_nil_2].
  - unfold demoPackets. repeat (apply Forall_cons; split); try apply Forall_nil; first [exact I|split; [cbn; lia|done]].
  - exists bs, c', fs. split; [exact H1|]. split; [exact H2|]. exact H3.
Defined.
