(* ===== verification/Mp4Rotate.v ===== *)
(** Turning the picture of a segment ([PatchVideoRotate] of Mp4Play.v): where the code
    finds the matrix, and what it makes of it. *)

From S2P Require Import Prelude Text Codec Negotiate Iso IsoRead IsoFacts Mp4 Mp4Facts Mp4Init Mp4Play.
From S2P Require HevcFacts TutkSession.
Import TutkSession(put).

(** The bytes of a segment before its first video track's handler; of each size of a box
    and of the clock the three low bytes. *)
Definition beforeMatrix (s1 s2 s3 t1 t2 t3 g1 g2 g3 g4 : Z) : bytes :=
  ftyp ++ [0; s1; s2; s3] ++ Moov ++ mvhd ++ [0; t1; t2; t3] ++ MoovTrak ++ [0; 0; 0; 92] ++ MoovTrakTkhd
  ++ [0] ++ be24 3 ++ zeros 8 ++ be32 1 ++ zeros 18 ++ [g1; g2; g3; g4] ++ zeros 2.
Definition betweenMatrix (w1 w2 h1 h2 m1 m2 m3 c1 c2 c3 d1 d2 d3 : Z) : bytes :=
  [w1; w2; 0; 0; h1; h2; 0; 0] ++ [0; m1; m2; m3] ++ MoovTrakMdia
  ++ [0; 0; 0; 32] ++ MoovTrakMdiaMdhd ++ zeros 12 ++ [0; c1; c2; c3] ++ zeros 4 ++ be16 0x55C4 ++ zeros 2
  ++ [0; d1; d2; d3] ++ MoovTrakMdiaHdlr ++ zeros 8.

Definition plainGroup (g : bool) : Z := if g then 1 else 0.
Lemma index_handler s1 s2 s3 t1 t2 t3 (g : bool) w1 w2 h1 h2 m1 m2 m3 c1 c2 c3 d1 d2 d3 post :
  Text.index ((beforeMatrix s1 s2 s3 t1 t2 t3 0 (plainGroup g) (plainGroup g) 0 ++ matrix
    ++ betweenMatrix w1 w2 h1 h2 m1 m2 m3 c1 c2 c3 d1 d2 d3)
    ++ str "vide" ++ post) (str "vide") = Some 300%nat.
Proof.
  destruct g;
  (lazymatch goal with |- Text.index (?a ++ _) ?p = _ =>
    let l := eval vm_compute in a in change a with l;
    let q := eval vm_compute in p in change p with q end;
  cbn -[Z.eqb];
  repeat match goal with |- context [Z.eqb (Zpos ?a) ?b] =>
    lazymatch b with Z0 => change (Z.eqb (Zpos a) b) with false
    | Zpos ?c => let r := eval vm_compute in (Z.eqb (Zpos a) b) in change (Z.eqb (Zpos a) b) with r end end;
  rewrite ?andb_false_r; cbn [andb]; rewrite ?andb_false_r; cbv iota; reflexivity).
Qed.

(** ** The matrix *)

(** The cosine and sine of a multiple of a right angle, and the matrix in 16.16 numbers. *)
Definition rightAngle (degrees : Z) : option (Z * Z) :=
  if degrees =? 0 then Some (1, 0) else if degrees =? 90 then Some (0, 1)
  else if degrees =? 180 then Some (-1, 0) else if degrees =? 270 then Some (0, -1) else None.
Definition fixed (v : Z) : bytes := be32 (u32 (65536 * v)).
Definition rotated (cos sin : Z) : bytes :=
  fixed cos ++ fixed sin ++ be32 0 ++ fixed (- sin) ++ fixed cos ++ be32 0 ++ be32 0 ++ be32 0 ++ be32 0x40000000.

(** A store into a part of a buffer. *)
Lemma put_within pre m post k src m' : put k src m = Some m' ->
  put (len pre + k) src (pre ++ m ++ post) = Some (pre ++ m' ++ post).
Proof.
  unfold put. destruct (Z.leb_spec 0 k) as [Hk|]; [|done]. cbn [andb].
  destruct (Z.leb_spec (k + len src) (len m)) as [Hl|]; [|done]. intros E. injection E as <-.
  pose proof (len_nonneg pre). pose proof (len_nonneg post).
  rewrite (proj2 (Z.leb_le _ _)) by lia. cbn [andb]. rewrite (proj2 (Z.leb_le _ _)) by (rewrite !len_app; lia).
  f_equal. unfold len in *. unfold blit.
  replace (Z.to_nat (Z.of_nat (length pre) + k)) with (length pre + Z.to_nat k)%nat by lia.
  rewrite take_app_add, <-!app_assoc. f_equal. rewrite take_app_le by lia. f_equal.
  rewrite !length_app, !take_ge by lia. f_equal. rewrite <-Nat.add_assoc, drop_app_add.
  by rewrite drop_app_le by lia.
Qed.

Lemma patch_matrix pre post degrees cos sin :
  Text.index (pre ++ matrix ++ post) (str "vide") = Some (length pre + 100)%nat ->
  rightAngle degrees = Some (cos, sin) ->
  PatchVideoRotate (pre ++ matrix ++ post) degrees = Some (pre ++ rotated cos sin ++ post, true).
Proof.
  intros Hi Hr. unfold PatchVideoRotate. rewrite Hi.
  replace (Z.of_nat (length pre + 100) - _) with (len pre + 0) by (unfold len; lia).
  rewrite <- !Z.add_assoc. revert Hr. unfold rightAngle.
  repeat (case_match; [intros E; injection E as <- <-|]); [..|done].
  all: do 4 (erewrite put_within by (vm_compute; reflexivity); cbn [mbind option_bind]); reflexivity.
Qed.

(** ** The segment of a muxer whose first track is video *)

Lemma be32_low v : 0 <= v < 16777216 -> be32 (u32 v) = [0; v / 65536 mod 256; v / 256 mod 256; v mod 256].
Proof.
  intros H. rewrite u32_small by (red; lia). unfold be32, le32. cbn [reverse rev_append].
  change (reverse [v mod 256; v / 256 mod 256; v / 65536 mod 256; v / 16777216 mod 256])
    with [v / 16777216 mod 256; v / 65536 mod 256; v / 256 mod 256; v mod 256].
  f_equal. rewrite Z.div_small by lia. done.
Qed.
Lemma box_low name b : 4 + len name + len b < 16777216 -> exists a1 a2 a3, box name b = [0; a1; a2; a3] ++ name ++ b.
Proof.
  intros H. pose proof (len_nonneg name). pose proof (len_nonneg b). unfold box. rewrite be32_low by lia. by do 3 eexists.
Qed.

Lemma hdlr_shape rest : hdlr (str "vide") (str "VideoHandler") ++ rest
  = [0; 0; 0; 45] ++ MoovTrakMdiaHdlr ++ zeros 8 ++ str "vide" ++ zeros 12 ++ str "VideoHandler" ++ zeros 1 ++ rest.
Proof. vm_compute. reflexivity. Qed.
Lemma mdhd_shape clock : 0 <= clock < 16777216 ->
  mdhd clock = [0; 0; 0; 32] ++ MoovTrakMdiaMdhd ++ zeros 12
    ++ [0; clock / 65536 mod 256; clock / 256 mod 256; clock mod 256] ++ zeros 4 ++ be16 0x55C4 ++ zeros 2.
Proof.
  intros H. pose proof (be32_low clock H) as E. rewrite u32_small in E by (red; lia). unfold mdhd. rewrite E.
  generalize (clock / 65536 mod 256), (clock / 256 mod 256), (clock mod 256). vm_compute. reflexivity.
Qed.
Lemma tkhd_shape width height : exists (g : bool) w1 w2 h1 h2,
  tkhd 1 width height = [0; 0; 0; 92] ++ MoovTrakTkhd ++ [0] ++ be24 3 ++ zeros 8 ++ be32 1 ++ zeros 18
    ++ [0; plainGroup g; plainGroup g; 0] ++ zeros 2 ++ matrix ++ [w1; w2; 0; 0; h1; h2; 0; 0].
Proof.
  unfold tkhd, float32, be16. destruct (0 <? width).
  - exists false, (u16 width / 256 mod 256), (u16 width mod 256), (u16 height / 256 mod 256), (u16 height mod 256).
    generalize (u16 width / 256 mod 256), (u16 width mod 256), (u16 height / 256 mod 256), (u16 height mod 256).
    vm_compute. reflexivity.
  - exists true, 0, 0, 0, 0. vm_compute. reflexivity.
Qed.

Lemma segment_shape (h265 : bool) clock width height conf d n :
  0 <= clock < 16777216 -> len conf < 65536 -> len d <= 16000000 -> (n <= 255)%nat ->
  exists s1 s2 s3 t1 t2 t3 g w1 w2 h1 h2 m1 m2 m3 c1 c2 c3 d1 d2 d3 post,
    segment (videoTrack 1 h265 clock width height conf ++ d) n
    = (beforeMatrix s1 s2 s3 t1 t2 t3 0 (plainGroup g) (plainGroup g) 0 ++ matrix
       ++ betweenMatrix w1 w2 h1 h2 m1 m2 m3 c1 c2 c3 d1 d2 d3) ++ str "vide" ++ post.
Proof.
  intros Hcl Hc Hd Hn. pose proof (len_nonneg conf). pose proof (len_extends n 0) as He.
  unfold segment, videoTrack. set (rest := box MoovTrakMdiaMinf (vmhd ++ dinf ++ stbl (avcx h265 width height conf))).
  assert (len rest < 70000) as Hrest.
  { unfold rest, vmhd, dinf, stbl, avcx. destruct h265; IsoInit.lens; lia. }
  clearbody rest. set (handler := hdlr (str "vide") (str "VideoHandler")).
  set (media := mdhd clock ++ handler ++ rest).
  pose proof (len_nonneg rest).
  assert (len media < 71000) as Hmedia by (unfold media, mdhd, handler, hdlr; IsoInit.lens; lia).
  set (header := tkhd 1 width height).
  assert (len header = 92) as Hh by (unfold header, tkhd; destruct (0 <? width); IsoInit.lens; lia).
  destruct (box_low MoovTrakMdia media) as (m1 & m2 & m3 & Em); [change (len MoovTrakMdia) with 4; lia|].
  destruct (box_low MoovTrak (header ++ box MoovTrakMdia media)) as (t1 & t2 & t3 & Et).
  { rewrite len_app, IsoInit.len_boxed. change (len MoovTrakMdia) with 4. change (len MoovTrak) with 4. lia. }
  destruct (box_low Moov ((mvhd ++ box MoovTrak (header ++ box MoovTrakMdia media) ++ d) ++ box MoovMvex (extends 0 n)))
    as (s1 & s2 & s3 & Es).
  { repeat (rewrite len_app || rewrite IsoInit.len_boxed). change (len mvhd) with 108. change (len MoovTrakMdia) with 4.
    change (len MoovTrak) with 4. change (len MoovMvex) with 4. change (len Moov) with 4. lia. }
  rewrite Es, Et, Em.
  set (post := zeros 12 ++ str "VideoHandler" ++ zeros 1 ++ rest).
  unfold media, handler. rewrite (mdhd_shape clock Hcl), (hdlr_shape rest).
  destruct (tkhd_shape width height) as (g & w1 & w2 & h1 & h2 & Ehd). fold post. unfold header.
  rewrite Ehd. clear.
  exists s1, s2, s3, t1, t2, t3, g, w1, w2, h1, h2, m1, m2, m3.
  exists (clock / 65536 mod 256), (clock / 256 mod 256), (clock mod 256), 0, 0, 45.
  exists (post ++ d ++ box MoovMvex (extends 0 n)). unfold beforeMatrix, betweenMatrix. rewrite <- !app_assoc. reflexivity.
Qed.

(** The first track's bytes, and the others behind it. *)
Lemma GetInit_first spare m codec l : codecs m = codec :: l ->
  Name codec = CodecH264 \/ Name codec = CodecH265 ->
  Forall (describable spare) (codecs m) -> Forall codec_ok (codecs m) -> (length (codecs m) <= 200)%nat ->
  exists (h265 : bool) width height conf d, len conf < 65536 /\ len d <= 16000000 /\
    GetInit spare m
    = Some (Some (segment (videoTrack 1 h265 (ClockRate codec) width height conf ++ d) (length (codecs m)))).
Proof.
  intros El Hv Hd Hc Hn. rewrite El in Hd, Hc, Hn.
  apply Forall_cons in Hd as [Hd1 Hd]. apply Forall_cons in Hc as [Hc1 Hc]. cbn [length] in Hn.
  assert (exists (h265 : bool) width height conf, len conf < 65536 /\
    writeTrack spare 0 codec = Some (Some (WriteVideoTrack 1 (videoCodec h265) (ClockRate codec) width height conf)))
    as (h265 & width & height & conf & Hlen & Hw).
  { destruct Hd1 as (H4 & H5 & _). unfold writeTrack. cbv zeta. destruct Hv as [Ev|Ev].
    - destruct (H4 Ev) as [[[w h] conf] E]. exists false, w, h, conf. split; [by eapply video264_len|].
      rewrite bool_decide_true by done. rewrite E, Ev. done.
    - destruct (H5 Ev) as [[[w h] conf] E]. exists true, w, h, conf. split; [by eapply video265_len|].
      rewrite bool_decide_false by (by rewrite Ev). rewrite bool_decide_true by done. rewrite E, Ev. done. }
  set (track := videoTrack 1 h265 (ClockRate codec) width height conf).
  destruct (writeTracks_tell spare l 1 (add track (Inside (Outer ftyp) Moov mvhd)) Hd Hc ltac:(lia)) as (d & E & Hdl & _).
  exists h265, width, height, conf, d. split; [done|]. split; [unfold len in *; lia|].
  apply GetInit_segment; [rewrite El; cbn; lia|]. rewrite El. cbn [writeTracks]. rewrite Hw. cbn [mbind option_bind].
  rewrite (wrote_VideoTrack 1 h265 (ClockRate codec) width height conf (Inside (Outer ftyp) Moov mvhd)).
  cbn [mbind option_bind]. fold track. rewrite E. cbn [add]. by rewrite <- app_assoc.
Qed.

(** The matrix of a muxer's first track, if that is video, is found and becomes that of
    the rotation by a right angle; nothing else changes. *)
Theorem rotation_exact spare m codec l : codecs m = codec :: l ->
  Name codec = CodecH264 \/ Name codec = CodecH265 -> ClockRate codec < 16777216 ->
  Forall (describable spare) (codecs m) -> Forall codec_ok (codecs m) -> (length (codecs m) <= 200)%nat ->
  exists header post, GetInit spare m = Some (Some (ftyp ++ header ++ matrix ++ post)) /\
    (exists sizes, sizes ++ str "tkhd" = take 132 header) /\ len header = 172 /\
    forall degrees cos sin, rightAngle degrees = Some (cos, sin) ->
      PatchVideoRotate (ftyp ++ header ++ matrix ++ post) degrees = Some (ftyp ++ header ++ rotated cos sin ++ post, true).
Proof.
  intros El Hv Hcl Hd Hc Hn.
  destruct (GetInit_first spare m codec l El Hv Hd Hc Hn) as (h265 & width & height & conf & d & Hconf & Hdl & E).
  assert (0 <= ClockRate codec) as Hpos.
  { rewrite El in Hc. apply Forall_cons in Hc as [(Hr & _) _]. apply Hr. }
  destruct (segment_shape h265 (ClockRate codec) width height conf d (length (codecs m)) (conj Hpos Hcl) Hconf Hdl ltac:(lia))
    as (s1 & s2 & s3 & t1 & t2 & t3 & g & w1 & w2 & h1 & h2 & m1 & m2 & m3 & c1 & c2 & c3 & d1 & d2 & d3 & post & Es).
  pose proof (index_handler s1 s2 s3 t1 t2 t3 g w1 w2 h1 h2 m1 m2 m3 c1 c2 c3 d1 d2 d3 post) as Hi.
  rewrite E, Es. set (b := betweenMatrix _ _ _ _ _ _ _ _ _ _ _ _ _) in *. clearbody b.
  set (header := drop 28 (beforeMatrix s1 s2 s3 t1 t2 t3 0 (plainGroup g) (plainGroup g) 0)).
  assert (beforeMatrix s1 s2 s3 t1 t2 t3 0 (plainGroup g) (plainGroup g) 0 = ftyp ++ header) as Eh by done.
  assert (len header = 172) as Hh by done.
  assert (exists sizes, sizes ++ str "tkhd" = take 132 header) as Ht.
  { exists (take 128 header). reflexivity. }
  rewrite Eh in *. clearbody header. rewrite <- !app_assoc in *.
  exists header, (b ++ str "vide" ++ post). split; [done|]. split; [done|]. split; [done|].
  intros degrees cos sin Hr. rewrite app_assoc. rewrite (patch_matrix (ftyp ++ header) _ degrees cos sin); [|..|done].
  - by rewrite <- app_assoc.
  - rewrite <- app_assoc, Hi. rewrite length_app. unfold len in Hh. f_equal. change (length ftyp) with 28%nat. lia.
Qed.

Lemma rotation_exact_witness : exists header post,
  GetInit (fun _ => []) demoMuxer = Some (Some (ftyp ++ header ++ matrix ++ post)) /\
  PatchVideoRotate (ftyp ++ header ++ matrix ++ post) 90 = Some (ftyp ++ header ++ rotated 0 1 ++ post, true).
Proof.
  destruct (rotation_exact (fun _ => []) demoMuxer (mkCodec 0 CodecH264 90000 0 (str "packetization-mode=1") 96)
    [mkCodec 1 CodecAAC 16000 1 (str "streamtype=5;config=1408;sizelength=13") 96])
    as (header & post & H1 & _ & _ & H2).
  - reflexivity.
  - by left.
  - reflexivity.
  - exact (proj1 demoMuxer_ok).
  - exact (proj2 demoMuxer_ok).
  - cbn. lia.
  - exists header, post. split; [exact H1|]. exact (H2 90 0 1 eq_refl).
Defined.
