(* ===== verification/Mp4Demux.v ===== *)
(** Reading fragmented MP4 ([pkg/mp4/demuxer.go]): the codecs of a segment and the packets
    of a fragment.  Times are scaled in single precision, which is the standard library's
    [SpecFloat] with 24 bits.  [None] is a run-time panic. *)

From Stdlib Require Import SpecFloat.
From S2P Require Import Prelude Text Negotiate Iso IsoRead IsoFacts.
From S2P Require Aac Config Media.

(** ** Single precision *)

Definition f32 (n : Z) : spec_float := binary_normalize 24 128 n 0 false.
Definition mul32 (x y : spec_float) : spec_float := SFmul 24 128 x y.
Definition div32 (x y : spec_float) : spec_float := SFdiv 24 128 x y.
Definition isZero32 (x : spec_float) : bool := match x with S754_zero _ => true | _ => false end.
(** The conversion cuts the fraction off; of what does not fit the language leaves the
    result open, here it is the low bits, and 0 for an infinite value. *)
Definition toUint32 (x : spec_float) : Z :=
  match x with
  | S754_finite s m e => let v := Z.shiftl (Zpos m) e in u32 (if s then - v else v)
  | _ => 0
  end.

(** ** The segment *)

Record Demuxer := mkDemuxer { dcodecs : gmap Z Codec; timeScales : gmap Z spec_float }.

(** The codec of a description; [next] is its address. *)
Definition codecOf (next : nat) (a : atom) : option (option Codec) :=
  match a with
  | AtomVideo name conf =>
      if decide (name = str "avc1")
      then fmtp ← Config.ConfigToCodec conf; Some (Some (mkCodec next CodecH264 90000 0 fmtp PayloadTypeRAW))
      else Some None
  | AtomAudio name _ _ conf =>
      if decide (name = str "mp4a")
      then let c := Aac.ConfigToCodec (default [] conf) in
           Some (Some (mkCodec next (Aac.Name c) (Aac.ClockRate c) (Aac.Channels c) (Aac.FmtpLine c) PayloadTypeRAW))
      else Some None
  | _ => Some None
  end.

Fixpoint probeAtoms (next : nat) (l : list atom) (trackID timeScale : Z) (d : Demuxer) : option (list Media * Demuxer) :=
  match l with
  | [] => Some ([], d)
  | a :: l =>
      let trackID := match a with AtomTkhd id => id | _ => trackID end in
      let timeScale := match a with AtomMdhd t => t | _ => timeScale end in
      c ← codecOf next a;
      match (c : option Codec) with
      | None => probeAtoms next l trackID timeScale d
      | Some codec =>
          let d := mkDemuxer (<[trackID := codec]> (dcodecs d))
                     (<[trackID := div32 (f32 (ClockRate codec)) (f32 timeScale)]> (timeScales d)) in
          r ← probeAtoms (S next) l trackID timeScale d;
          let '(medias, d) := r in
          Some (mkMedia (GetKind (Name codec)) DirectionRecvonly [codec] :: medias, d)
      end
  end.
Definition Probe (next : nat) (init : bytes) (d : Demuxer) : option (list Media * Demuxer) :=
  match DecodeAtoms init with
  | Ok l => probeAtoms next l 0 0 d
  | Ends => Some ([], d)
  | _ => None
  end.

(** The walk over the map meets a codec at most once. *)
Definition GetTrackID (codec : Codec) (d : Demuxer) : Z :=
  default 0 (fst <$> find (fun kv => address kv.2 =? address codec)%nat (map_to_list (dcodecs d))).

(** ** A fragment *)

Record fragState := mkFragState { fTrack : Z; fTime : Z; fRun : option (list Z * list Z); fData : bytes }.
Definition fragStep (s : fragState) (a : atom) : fragState :=
  match a with
  | AtomTfhd id _ _ _ => mkFragState id (fTime s) (fRun s) (fData s)
  | AtomTfdt t => mkFragState (fTrack s) (u32 t) (fRun s) (fData s)
  | AtomTrun _ _ durations sizes _ _ => mkFragState (fTrack s) (fTime s) (Some (durations, sizes)) (fData s)
  | AtomMdat data => mkFragState (fTrack s) (fTime s) (fRun s) data
  | _ => s
  end.

(** One packet per duration; a size that is missing or beyond the data is a panic. *)
Fixpoint cutSamples (scale : spec_float) (durations sizes : list Z) (ts : Z) (data : bytes) : option (list (Z * bytes)) :=
  match durations with
  | [] => Some []
  | duration :: durations =>
      size ← head sizes;
      payload ← sub data 0 size;
      rest ← sub data size (len data);
      l ← cutSamples scale durations (tail sizes) (u32 (ts + duration)) rest;
      Some ((toUint32 (mul32 (f32 ts) scale), payload) :: l)
  end.

Definition Demux (data2 : bytes) (d : Demuxer) : option (Z * list (Z * bytes)) :=
  match DecodeAtoms data2 with
  | Ok atoms =>
      let s := foldl fragStep (mkFragState 0 0 None []) atoms in
      let timeScale := default (S754_zero false) (timeScales d !! fTrack s) in
      if isZero32 timeScale then Some (0, []) else
      run ← fRun s;
      let '(durations, sizes) := run in
      l ← cutSamples timeScale durations sizes (fTime s) (fData s);
      Some (fTrack s, l)
  | Ends => Some (0, [])
  | _ => None
  end.

(** ** Single precision is exact below 2^24 *)

Lemma digits_bounds p : 2 ^ (Zpos (digits2_pos p) - 1) <= Zpos p < 2 ^ Zpos (digits2_pos p).
Proof.
  induction p as [p IH|p IH|]; cbn [digits2_pos]; [| |done]; rewrite Pos2Z.inj_succ;
    replace (Z.succ (Zpos (digits2_pos p)) - 1) with (Z.succ (Zpos (digits2_pos p) - 1)) by lia;
    rewrite !Z.pow_succ_r by lia; rewrite ?Pos2Z.inj_xI, ?(Pos2Z.inj_xO p); lia.
Qed.
Lemma digits_shift p k : digits2_pos (Pos.iter xO p k) = (digits2_pos p + k)%positive.
Proof.
  revert k. apply Pos.peano_ind; [cbn; lia|]. intros k IH. rewrite Pos.iter_succ. cbn [digits2_pos]. rewrite IH. lia.
Qed.
Lemma digits_small p n : Zpos p < 2 ^ n -> 0 <= n -> Zpos (digits2_pos p) <= n.
Proof.
  intros H Hn. destruct (digits_bounds p) as [H1 _]. destruct (Z.le_gt_cases (Zpos (digits2_pos p)) n); [done|].
  pose proof (Z.pow_le_mono_r 2 n (Zpos (digits2_pos p) - 1)). lia.
Qed.
Lemma shifted p k : Zpos (Pos.iter xO p k) = Zpos p * 2 ^ Zpos k.
Proof.
  revert k. apply Pos.peano_ind; [cbn; lia|]. intros k IH. rewrite Pos.iter_succ, Pos2Z.inj_xO, IH, Pos2Z.inj_succ, Z.pow_succ_r; lia.
Qed.

(** A mantissa of 24 digits, with an exponent where it is not rounded. *)
Definition normal (m : positive) (e : Z) : Prop := digits2_pos m = 24%positive /\ -149 <= e <= 104.

Lemma fexp_normal e : -149 <= e -> fexp 24 128 (24 + e) = e.
Proof. intros H. unfold fexp, emin. lia. Qed.
Lemma shr_nothing m e : normal m e -> shr_fexp 24 128 (Zpos m) e loc_Exact = (Build_shr_record (Zpos m) false false, e).
Proof.
  intros [Hm He]. unfold shr_fexp, Zdigits2. rewrite Hm. rewrite fexp_normal by lia. by rewrite Z.sub_diag.
Qed.
Lemma round_nothing m e : normal m e -> binary_round_aux 24 128 false (Zpos m) e loc_Exact = S754_finite false m e.
Proof.
  intros H. unfold binary_round_aux. rewrite shr_nothing by done. cbn [shr_m shr_r shr_s loc_of_shr_record round_nearest_even].
  rewrite shr_nothing by done. cbn [shr_m]. rewrite (proj2 (Z.leb_le _ _)); [done|]. destruct H. lia.
Qed.

(** A whole number below 2^24 is kept. *)
Lemma f32_small n : 0 < n < 16777216 -> exists m e, f32 n = S754_finite false m e /\ normal m e /\
  Z.shiftl (Zpos m) e = n.
Proof.
  intros H. destruct n as [|p|p]; try lia. pose proof (digits_small p 24 ltac:(change (2 ^ 24) with 16777216; lia) ltac:(lia)) as Hd.
  unfold f32, binary_normalize, binary_round, shl_align.
  assert (fexp 24 128 (Zpos (digits2_pos p) + 0) - 0 = Zpos (digits2_pos p) - 24) as -> by (unfold fexp, emin; lia).
  destruct (Zpos (digits2_pos p) - 24) as [|q|k] eqn:E; [|lia|].
  - exists p, 0. assert (normal p 0) by (split; lia). split; [by apply round_nothing|done].
  - exists (Pos.iter xO p k), (Zneg k).
    assert (normal (Pos.iter xO p k) (Zneg k)) by (split; [rewrite digits_shift|]; lia).
    replace (fexp 24 128 (Zpos (digits2_pos p) + 0)) with (Zneg k) by (unfold fexp, emin; lia).
    split; [by apply round_nothing|]. split; [done|].
    rewrite shifted. rewrite <- Z.shiftl_mul_pow2 by lia. rewrite Z.shiftl_shiftl by lia. 
    replace (Zpos k + Zneg k) with 0 by lia. apply Z.shiftl_0_r.
Qed.

(** The quotient of a number by itself is 1, and 1 times a number is the number. *)
Definition one32 : spec_float := S754_finite false 8388608 (-23).
Lemma div32_self m e : normal m e -> div32 (S754_finite false m e) (S754_finite false m e) = one32.
Proof.
  intros [Hm He]. unfold div32, SFdiv, SFdiv_core_binary, Zdigits2. rewrite Hm, !Z.sub_diag. 
  replace (Z.min (fexp 24 128 0) 0) with (-24) by (unfold fexp, emin; lia). change (0 - -24) with 24.
  cbv iota. rewrite Z.shiftl_mul_pow2 by lia.
  pose proof (Z_div_mod_eq_full (Zpos m * 2 ^ 24) (Zpos m)) as E.
  destruct (Z.div_eucl (Zpos m * 2 ^ 24) (Zpos m)) as [q r] eqn:Eq.
  assert (q = 2 ^ 24) as ->. { change q with (fst (q, r)). rewrite <- Eq. change (fst (Z.div_eucl ?a ?b)) with (a / b). rewrite Z.mul_comm. by apply Z.div_mul. }
  assert (r = 0) as ->. { change r with (snd (2 ^ 24, r)). rewrite <- Eq. change (snd (Z.div_eucl ?a ?b)) with (a mod b). rewrite Z.mul_comm. by apply Z.mod_mul. }
  replace (new_location (Zpos m) 0) with loc_Exact by (unfold new_location; by destruct (Z.even _)).
  reflexivity.
Qed.
Lemma mul32_one m e : normal m e -> mul32 (S754_finite false m e) one32 = S754_finite false m e.
Proof.
  intros H. unfold mul32, SFmul, one32. cbn [xorb]. rewrite Pos.mul_comm.
  unfold binary_round_aux at 1. unfold shr_fexp at 1.
  replace (Zdigits2 (Zpos (8388608 * m))) with 47 by (destruct H as [Hm _]; change (8388608 * m)%positive with (Pos.iter xO m 23); cbn [Zdigits2]; by rewrite digits_shift, Hm).
  destruct (H) as [Hm He]. replace (fexp 24 128 (47 + (e + -23)) - (e + -23)) with 23 by (unfold fexp, emin; lia).
  change (shr (shr_record_of_loc (Zpos (8388608 * m)) loc_Exact) (e + -23) 23)
    with (Build_shr_record (Zpos m) false false, e + -23 + 23).
  replace (e + -23 + 23) with e by lia. cbn [shr_m shr_r shr_s loc_of_shr_record round_nearest_even].
  rewrite shr_nothing by done. cbn [shr_m]. rewrite (proj2 (Z.leb_le _ _)) by lia. done.
Qed.

Lemma scaled n c : 0 <= n < 16777216 -> 0 < c < 16777216 ->
  toUint32 (mul32 (f32 n) (div32 (f32 c) (f32 c))) = n.
Proof.
  intros Hn Hc. destruct (f32_small c Hc) as (mc & ec & -> & Hcn & _). rewrite div32_self by done.
  destruct (decide (n = 0)) as [->|Hn0]; [reflexivity|].
  destruct (f32_small n ltac:(lia)) as (m & e & -> & Hm & Hv). rewrite mul32_one by done.
  cbn [toUint32]. rewrite Hv. apply u32_small. red. lia.
Qed.

(** ** What a fragment gives *)

(** Frames, each with its duration, from a time on. *)
Fixpoint timed (t : Z) (frames : list (Z * bytes)) : list (Z * bytes) :=
  match frames with [] => [] | (d, p) :: l => (t, p) :: timed (t + d) l end.
Definition lasting (frames : list (Z * bytes)) : Z := foldr Z.add 0 (fst <$> frames).

Lemma lasting_nonneg frames : Forall (fun f => 0 <= f.1) frames -> 0 <= lasting frames.
Proof. induction 1 as [|f l Hf _ IH]; [done|]. unfold lasting in *. cbn. lia. Qed.

Lemma cutSamples_timed c rest frames : 0 < c < 16777216 -> Forall (fun f => 0 <= f.1) frames -> forall t,
  0 <= t -> t + lasting frames < 16777216 ->
  cutSamples (div32 (f32 c) (f32 c)) (fst <$> frames) ((fun f => len f.2) <$> frames) t (concat (snd <$> frames) ++ rest)
    = Some (timed t frames).
Proof.
  intros Hc. induction 1 as [|[d p] l Hd Hl IH]; intros t Ht Hs; [done|].
  cbn [fmap list_fmap fst snd concat cutSamples head mbind option_bind tail timed] in *.
  pose proof (lasting_nonneg l Hl). unfold lasting in Hs. cbn [fmap list_fmap foldr fst] in Hs. fold (lasting l) in Hs.
  rewrite <- app_assoc, (Media.sub_app_l p _ _ eq_refl). cbn [mbind option_bind].
  rewrite (Media.sub_app_r p _ _ eq_refl). cbn [mbind option_bind].
  rewrite (u32_small (t + d)) by (red; lia). rewrite IH by lia. cbn [mbind option_bind].
  by rewrite scaled by lia.
Qed.

(** The packets of a fragment with its own table of durations and sizes, where the track's
    clock is that of its codec and the times stay below 2^24: each frame's data with the
    sum of the durations before it. *)
Theorem demux_exact d b seq tid dur size fl t off ff flags cts frames rest c :
  DecodeAtoms b = Ok [AtomMfhd seq; AtomTfhd tid dur size fl; AtomTfdt t;
                      AtomTrun off ff (fst <$> frames) ((fun f => len f.2) <$> frames) flags cts;
                      AtomMdat (concat (snd <$> frames) ++ rest)] ->
  timeScales d !! tid = Some (div32 (f32 c) (f32 c)) -> 0 < c < 16777216 ->
  Forall (fun f => 0 <= f.1) frames -> 0 <= t -> t + lasting frames < 16777216 ->
  Demux b d = Some (tid, timed t frames).
Proof.
  intros Hb Hd Hc Hf Ht Hs. unfold Demux. rewrite Hb. cbn [foldl fragStep fTrack fTime fRun fData]. rewrite Hd.
  cbn [default id mbind option_bind]. pose proof (lasting_nonneg frames Hf).
  replace (isZero32 (div32 (f32 c) (f32 c))) with false
    by (destruct (f32_small c Hc) as (m & e & -> & Hm & _); by rewrite div32_self).
  rewrite u32_small by (red; lia). by rewrite cutSamples_timed.
Qed.

(** ** Where it falls short *)

(** Above 2^24 single precision drops the low digits of a time: at 90 kHz from the fourth
    minute on. *)
Lemma time_rounded c : 0 < c < 16777216 -> toUint32 (mul32 (f32 16777217) (div32 (f32 c) (f32 c))) = 16777216.
Proof. intros Hc. destruct (f32_small c Hc) as (m & e & -> & Hm & _). by rewrite div32_self. Qed.

(** A fragment whose duration and size are the defaults of its track, such as the muxer of
    this program writes, gives no packet. *)
Lemma defaults_ignored d b seq tid dur size fl t off cts flags data :
  DecodeAtoms b = Ok [AtomMfhd seq; AtomTfhd tid dur size fl; AtomTfdt t; AtomTrun off 0 [] [] flags cts; AtomMdat data] ->
  is_Some (timeScales d !! tid) -> exists tr, Demux b d = Some (tr, []).
Proof.
  intros Hb [s Hs]. unfold Demux. rewrite Hb. cbn [foldl fragStep fTrack fTime fRun fData]. rewrite Hs.
  cbn [default id]. destruct (isZero32 s); by eexists.
Qed.

(** A fragment without a table is a panic, once its track is known. *)
Lemma no_table_panics d b tid dur size fl s :
  DecodeAtoms b = Ok [AtomTfhd tid dur size fl] -> timeScales d !! tid = Some s -> isZero32 s = false -> Demux b d = None.
Proof. intros Hb Hs H0. unfold Demux. rewrite Hb. cbn [foldl fragStep fTrack fTime fRun fData]. rewrite Hs. cbn [default id]. by rewrite H0. Qed.

(** ** A fragment *)

(** Two frames of 3000 with a table, in which durations and sizes have a column. *)
Definition demoFragment : bytes :=
  box Moof (box MoofMfhd (zeros 4 ++ be32 1)
            ++ box MoofTraf (box MoofTrafTfhd (zeros 4 ++ be32 1)
                             ++ box MoofTrafTfdt ([1; 0; 0; 0] ++ be64 9000)
                             ++ box MoofTrafTrun ([0; 0; 3; 0] ++ be32 2 ++ be32 3000 ++ be32 5 ++ be32 3000 ++ be32 4)))
  ++ box Mdat [0; 0; 0; 1; 0x65; 0; 0; 0; 0].
Definition demoDemuxer : Demuxer := mkDemuxer ∅ {[1 := div32 (f32 90000) (f32 90000)]}.

Lemma demux_exact_witness : Demux demoFragment demoDemuxer = Some (1, [(9000, [0; 0; 0; 1; 0x65]); (12000, [0; 0; 0; 0])]).
Proof.
  refine (demux_exact demoDemuxer demoFragment 1 1 0 0 0 9000 0 0 [] []
    [(3000, [0; 0; 0; 1; 0x65]); (3000, [0; 0; 0; 0])] [] 90000 _ _ _ _ _ _).
  - vm_compute. reflexivity.
  - reflexivity.
  - done.
  - repeat (apply Forall_cons; split; [done|]). apply Forall_nil. exact I.
  - done.
  - done.
Defined.
