(* ===== verification/Mp4Probe.v ===== *)
(** The segment the muxer writes, probed by the demuxer: the parameter sets of an H.264
    stream are in the codec that comes back. *)

From S2P Require Import Prelude Text Codec Negotiate Iso IsoRead IsoFacts IsoTrip IsoInit Mp4 Mp4Init Mp4Demux.
From S2P Require Sps Config.

(** Boxes that are only passed on change nothing. *)
Lemma probeAtoms_useful l : forall next trackID timeScale d,
  probeAtoms next l trackID timeScale d = probeAtoms next (useful l) trackID timeScale d.
Proof.
  induction l as [|a l IH]; intros next trackID timeScale d; [done|]. unfold useful in *. rewrite filter_cons.
  destruct a; cbn [isUseful probeAtoms]; first [rewrite decide_True by done|rewrite decide_False by (by intros [])];
    cbn [probeAtoms]; try (destruct (codecOf _ _) as [[codec|]|]; cbn [mbind option_bind]; [|done..]); rewrite ?IH; try done.
Qed.

Section probe.
Context (spare : bytes -> bytes).

Lemma video264_sets fmtp sps pps : GetParameterSet fmtp = (sps, pps) -> 1 <= len sps -> 1 <= len pps ->
  forall conf, Config.EncodeConfig sps pps (spare sps) = Some conf ->
  exists width height, video264 spare fmtp = Some (width, height, conf).
Proof.
  intros G Hs Hp conf Hc. unfold video264. rewrite G. unfold orElse, spareOfSet.
  rewrite !(proj2 (Z.eqb_neq _ 0)) by lia. destruct (Sps.DecodeSPS sps) as [s|]; rewrite Hc; by do 2 eexists.
Qed.

(** C40. A segment for one H.264 track, probed: one track to receive, its codec line holds the
    parameter sets of the track that was muxed, and times of that track are counted on
    its clock. *)
Theorem probe_roundtrip next codec sps pps : Name codec = CodecH264 -> is_u32 (ClockRate codec) -> is_u16 (Channels codec) ->
  len (hexDecode (Between (FmtpLine codec) (str "config=") (str ";"))).1 < 255 ->
  GetParameterSet (FmtpLine codec) = (sps, pps) -> bytes_ok sps -> bytes_ok pps ->
  4 <= len sps -> 1 <= len pps -> len sps + len pps + 11 < 65536 ->
  exists b line d, GetInit spare (AddTrack codec (mkMuxer 0 [] [] [])) = Some (Some b) /\
    Probe next b (mkDemuxer ∅ ∅)
      = Some ([mkMedia KindVideo DirectionRecvonly [mkCodec next CodecH264 90000 0 line PayloadTypeRAW]], d) /\
    GetParameterSet line = (sps, pps) /\
    timeScales d !! 1 = Some (div32 (f32 90000) (f32 (ClockRate codec))).
Proof.
  intros Hn Hc Hch Hx G Hsb Hpb Hs Hp Hl.
  destruct (Config.avc_config_roundtrip sps pps (spare sps) Hs Hp Hl Hsb Hpb) as (conf & line & He & _ & Hline & G2).
  destruct (video264_sets (FmtpLine codec) sps pps G ltac:(lia) Hp conf He) as (width & height & Hv).
  destruct (GetInit_read spare (AddTrack codec (mkMuxer 0 [] [] []))) as (b & l & Hb & Hd & Hu).
  - apply Forall_singleton. unfold describable. rewrite Hn. split; [by rewrite Hv|]. by split.
  - apply Forall_singleton. by split_and!.
  - done.
  - exists b, line. eexists. split; [exact Hb|]. split; [|split; [exact G2|]].
    + unfold Probe. rewrite Hd, probeAtoms_useful, Hu. cbn [AddTrack codecs app tracksTold]. unfold trackTold. cbv zeta.
      rewrite bool_decide_true by done. rewrite Hv. cbn [videoTold app probeAtoms codecOf mbind option_bind].
      rewrite decide_True by done. rewrite Hline. cbn [mbind option_bind Name ClockRate dcodecs timeScales]. reflexivity.
    + cbn [timeScales]. apply lookup_insert_eq.
Qed.
End probe.

Lemma probe_roundtrip_witness : exists b line d,
  let codec := mkCodec 0 CodecH264 90000 0 (str "sprop-parameter-sets=Z2QAKAk=,aO4=") 96 in
  GetInit (fun _ => []) (AddTrack codec (mkMuxer 0 [] [] [])) = Some (Some b) /\
  Probe 5 b (mkDemuxer ∅ ∅)
    = Some ([mkMedia KindVideo DirectionRecvonly [mkCodec 5 CodecH264 90000 0 line PayloadTypeRAW]], d) /\
  GetParameterSet line = ([0x67; 0x64; 0; 0x28; 9], [0x68; 0xEE]) /\
  timeScales d !! 1 = Some (div32 (f32 90000) (f32 90000)).
Proof.
  refine (probe_roundtrip (fun _ => []) 5 (mkCodec 0 CodecH264 90000 0 (str "sprop-parameter-sets=Z2QAKAk=,aO4=") 96)
    [0x67; 0x64; 0; 0x28; 9] [0x68; 0xEE] _ _ _ _ _ _ _ _ _ _); first [done|bytes_lit|vm_compute; congruence].
Defined.
